(* ===== verification/_CoqProject ===== *)
-Q . S2P
Prelude.v
GoLib.v
Counting.v
Hashes.v
Consensus.v
ForkId.v
Network.v
Readiness.v
NetIP.v
Heap.v
NodeData.v
Nodeset.v
Eviction.v
NodesetInv.v
NodesetEntry.v
NodesetRecord.v
NodesetProps.v
NodesetFlight.v
NodesetPublish.v
NodesetRestore.v
Expiring.v
Hll.v
Text.v
Clientname.v
AgentNames.v
Rlpx.v
Libp2p.v
DialBudget.v
Releases.v
Sql.v
Query.v
QueryMirror.v
QueryWhere.v
CrawlerWork.v
CrawlerClaims.v
Advertise.v
History.v
ForkReadiness.v
ReadinessAgree.v
Calendar.v
Snapshot.v
Stats.v
StatsProps.v
StatsServed.v
LoadCache.v
MapCache.v
ApiStats.v
Api.v
Refresh.v
ApiDemo.v
Publisher.v
PublisherProps.v
PublisherLoad.v
PublisherRaces.v
Resume.v
Recording.v
DnsSync.v
DnsSyncProps.v
DnsProviders.v
Float64.v
DnsSelect.v
DnsShares.v
DnsSelectProps.v
DnsTree.v
DnsCycles.v
DnsDemo.v
FileStore.v
FilePaths.v
FileRaces.v
S3Store.v
ForkFile.v
Devnet.v
DevnetConfig.v
DevnetProps.v
DevnetText.v
DevnetBundle.v
