(* ===== verification/Prelude.v ===== *)
(** * Verification of enrscout

    enrscout crawls the Ethereum peer-to-peer networks, keeps what it learns about
    each node in memory, publishes it as snapshots, and serves readiness and
    client statistics from them over HTTP and DNS.  This library models the parts of the Go program
    that decide things, and proves what they decide.

    ** Files and what they model

    - [Prelude]: results and their notation, record update, case-analysis tactics,
      machine widths, sorting and list lemmas shared by all components.  The hint
      databases are declared here.
    - [GoLib], [Hashes], [NetIP]: the Go standard library as the source uses it.
      Instants are nanoseconds since year 1 (so the zero [time.Time] is [0]),
      [Sub] saturates, [time.Unix] wraps, [Add] is exact.  Byte strings, trimming,
      ASCII case folding, hex, little and big endian integers, SHA-256, CRC-32,
      [net.IP] and [netpolicy.Usable].
    - [Consensus]: [internal/netconf/consensus.go].  Fork and blob schedules, fork
      digests, [epochAt] and [timeAtEpoch], the networking state at an instant
      with its memo, the compiled networks.
    - [ForkId]: [internal/netconf/forkid.go] and the fork-list helpers of
      [netconf.go].  The EIP-2124 identifier over the reflected chain config.
    - [Network]: [netconf.go] and [cancel.go].  The lazily derived schedule and
      its memos, the registry, classification, era tokens, cancelled forks.
    - [Readiness]: [readiness.go] and [schedule.go].  The tracked fork of each
      layer, the readiness rule for one row, the list of upgrades.
    - [Heap]: [container/heap] and the bounded selector [topK].
    - [NodeData], [Nodeset], [Eviction]: [internal/nodeset/nodeset.go].  The node,
      the row and the set; every critical section under the set's mutex as one
      function; the choice of victims and of fingerprint candidates.
    - [NodesetInv], [NodesetEntry], [NodesetRecord], [NodesetProps],
      [NodesetPublish], [NodesetRestore]: the set as a transition system.  An
      operation is a value of [Op]; [run] executes a list of them, so a theorem
      about [run] covers every interleaving of concurrent callers at the
      granularity of the lock.
    - [Expiring]: [cmd/crawler/pending_fingerprints.go].  The bounded map with
      expiry over a lazily cleaned heap, and the pending identifications kept in
      it.
    - [Hll]: [internal/distinct/hll.go].  Slots, hourly buckets, pruning, the
      estimation window and the validation of a restored state.
    - [Text], [Counting], [Calendar]: substrings and digits, reading and
      printing lines and numbers ([bufio.Scanner], [strings.Cut], [strconv]), sums
      and tallies, and the calendar text of generation keys.
    - [AgentNames], [Rlpx], [Libp2p]: [internal/enrich].  Names and
      agents as text of the peer; a probe of an execution node and an inbound connection,
      message by message; the identify wait and the Status request of a consensus node;
      probe errors and their labels; the hosting rule.
    - [DialBudget], [NodesetFlight], [CrawlerWork], [CrawlerClaims]:
      [cmd/crawler] and [internal/probesrv].  The dial budget; the handlers, workers,
      queues and loops as programs of actions, and any interleaving of them up to the
      shutdown.
    - [Clientname]: [internal/clientname/clientname.go].  Canonical spellings, the
      clients charts recognise, how long an identification counts.
    - [Releases]: [internal/netconf/releases.go] and [notices.go].  Versions, the
      release and cancelled-release status, the operator's tables, their
      validation and replacement.
    - [Sql]: the meaning of the SQL the query engine writes: columns, parameters,
      three-valued logic, [LIKE ... ESCAPE]; over a whole table, derived columns,
      [FILTER], [GROUP BY], [ORDER BY], [LIMIT].
    - [Query], [QueryMirror], [QueryWhere]: [internal/query/query.go] and the
      condition of [query/readiness.go].  The filter, its validation, and every
      condition with the arguments it binds.
    - [Stats], [StatsProps], [StatsServed]: the statements of
      [query.go] over a whole table: the aggregate, the version breakdown, map points, node lists and the
      lookup by key, with the loops over their rows.
    - [Refresh]: [Engine.Refresh].  From the manifest to the served
      table: files, staging table, migration, sync state, counts, swap.
    - [LoadCache], [MapCache], [ApiStats], [Api], [ApiDemo]:
      [cmd/api/main.go].  The two response caches with the requests that share their
      loads, as labelled steps; the keys of the caches; the pairing of the two halves of a
      statistics answer; the handlers from a parsed request to a response.
    - [History], [ForkReadiness], [ReadinessAgree], [Recording]:
      [internal/snapshot/readiness.go], [query/readiness.go] and
      [cmd/crawler/readiness.go].  The readiness report of the API, the points
      and the rolling series of the crawler, how they are stored and served.
    - [Snapshot]: [internal/snapshot/snapshot.go] and [rows.go].
      Keys, manifests, their validation, conditional writes, loading of rows.
    - [Publisher], [PublisherProps], [PublisherLoad], [PublisherRaces]: [cmd/crawler/publisher.go].  One publish from the set to
      the manifest, any number of crawlers on one store, pruning.
    - [DnsSync], [DnsSyncProps]: [cmd/dnspublisher/dns.go] and the [Sync] methods.
      The plan of a zone reconcile and its run over any provider, request by
      request, each of which may fail or fail after it was applied.
    - [DnsProviders]: [cloudflare.go] and [route53.go].  The two providers: batches
      and their limits, TXT text, propagation, credentials; and the services' zones
      as far as the code relies on them.
    - [Float64]: quotients of Go's [float64] as exact dyadics, rounded to nearest
      even.
    - [DnsSelect], [DnsShares], [DnsSelectProps]: [select.go].  Which records a tree
      may carry and in which order, the IPv6 reservation, the client balance.
    - [DnsTree], [DnsCycles], [DnsDemo]: [artifact.go]
      and [main.go].  Artifacts and baselines, building and gating a network's
      trees, publishing them, and any run of cycles and restarts.
    - [FileStore], [FilePaths], [FileRaces]: [internal/store/store.go].  Keys and
      paths, and the file-system backend as processes that a schedule advances one
      group of system calls at a time.
    - [S3Store]: the S3 backend of the same file, as programs of calls to a service.
    - [ForkFile]: [internal/forkfile/forkfile.go].  The operator's fork file, read at
      the start and watched while the process runs.
    - [Devnet], [DevnetProps]: [internal/netconf/devnet.go].  Registration of a devnet.
    - [DevnetConfig], [DevnetText], [DevnetBundle]:
      [internal/devnetconfig/devnetconfig.go].  The files of a devnet, [config.yaml] as
      an automaton over its lines, and the way from the files to fork digests.

    ** How the components meet

    [Nodeset] asks the registry to classify fork identifiers and the address
    policy to admit addresses; both are type classes ([Classifier],
    [SpecialNetworks]) whose laws are what the node set's theorems use, so that
    they hold for any registry.  [Network] is built on [Consensus] and [ForkId],
    [Readiness] on [Network].  A signed record is what go-ethereum decodes; the
    class [EnodeCodec] stands for its text form and [ENode] for its entries.
    [Releases] parses addresses through [URLParser].  Objects of the store have a
    text form behind [HistoryCodec], [ManifestCodec] and [RowCodec]; theorems that
    read an object back assume that the codec does ([history_codec_ok],
    [manifest_codec_ok], [parquet_ok]), and their witnesses instantiate it.  The fork file is YAML behind
    [ForkFileCodec], a genesis file JSON behind [GenesisCodec].

    A crawl runs through the files in this order: probes identify nodes ([Rlpx], [Libp2p])
    under a budget ([DialBudget]), claimed and queued by handlers ([CrawlerWork]); records and
    identifications enter the set ([Nodeset]), a publish prunes it, counts, guards, uploads and
    commits ([Publisher], [Snapshot]) and records a history point ([Recording]);
    a reader verifies and loads the rows ([Snapshot.LoadNetworkRows]), the API
    stages and swaps them in ([Refresh]), filters ([Query]), counts ([Stats]) and reports
    them ([ForkReadiness]) behind its caches and handlers ([Api]), and the DNS publisher
    ranks and selects them ([DnsSelect]), builds and gates trees ([DnsTree]) and
    reconciles a zone ([DnsSync]).  A zone is behind [ProviderOps] and [Provider]: a
    batch is applied whole, and edits what it was built for when the zone still
    holds what was listed; Cloudflare and Route53 are instances.  The signer of
    trees is [TreeLib]; [TreeLibOk] says that a tree it signs can be walked from its
    root within its own records.

    The libraries of a probe are [RlpLib], [EnodeLib], [CapText],
    [SnappyStream] and [MultiaddrLib], the limiter is [RateLib], the accessors of a record
    [NodeMethods]; DuckDB's reader of files is [ParquetFiles] and its arithmetic on doubles
    [Doubles].  The order in which a statement without [ORDER BY] returns its groups is the
    argument [arrange], and the theorems take any.

    ** What the theorems show

    - Schedules: the networking state exists at every epoch, its digest is the one
      in force until the boundary it reports, every such digest is recognised, and
      memoised answers equal recomputed ones.
    - Fork identity: the identifier is the EIP-2124 checksum of the derived list;
      the classification window is exact; cancelling a fork removes only that
      fork; an era token is stable until the instant reported with it.
    - Readiness: the tracked fork does not change when it activates, the rule is
      total on tracked layers, and a claim made before activation carries over.
    - Node set: identities, counters and bounds hold on every trace; sequence
      numbers, pins and established classifications are never undone; a probe is
      claimed by one caller and its result applied only to the endpoint it
      dialled; unsigned candidates are not published; eviction does not depend on
      map order; a snapshot restores to the same rows.
    - Probes: what a probe reports comes from the peer's messages and a Status of a known
      network; every failure has a stage and class of a fixed list; an operator's identity
      in a name changes nothing; two programs running this code identify each other.
    - Crawler: however the goroutines interleave, an entry whose probe is out has somebody
      who will finish it, and a shutdown leaves none; the dial budget is bounded.
    - Client releases: version labels are independent of the order of the floors,
      unparsable versions are never labelled, and the table in force has always
      passed validation.
    - Queries: the generated conditions, evaluated by the semantics of [Sql], keep
      exactly the rows the Go predicates describe, [NULL] columns included, and
      bind exactly their parameters.  The rows are typed as the view declares
      them ([typedRow]) and the registry is one registration accepts
      ([registry_ok]).
    - Statistics: each count and map of the aggregate counts exactly the rows its Go rule
      describes, the parts add up, the version breakdown agrees with the aggregate of its
      table, pages make up the list, and a key finds the node it names.
    - Refresh: the engine serves the rows of one verified manifest, one per id and as many as
      it counts, or what it served before.
    - API: the caches answer with what a loader of that key returned, load a key once at a
      time, stay within their capacity, and answer every request; a map is never older than
      the page that asked for it; the halves of a statistics answer are of one table; no
      lifetime reaches into the next fork era; a query string becomes a bounded filter or a
      refusal.
    - Readiness report and history: no row is lost between the totals, the clients
      and the versions; the recorded point equals the live report; recording
      destroys nothing it cannot read; what is recorded is served.
    - Publication: the stored manifests only move forward whatever the
      interleaving; a shrunken set is forced through at most once; what is offered
      passed every guard and is stored; what is published loads as the rows of
      the set; pruning keeps the current generation.
    - DNS zones: at every instant of a reconcile, whatever request fails, a new root
      has all its entries, and what is retained or foreign stays; a finished one
      reaches the wanted zone and has nothing left to do.  Through all cycles and
      restarts a resolver finds no tree or a complete one, and a domain's sequence
      only grows.
    - DNS trees: every record is fit to publish; a selection terminates at its limit
      with its share of IPv6 and of every client; a network's trees are replaced
      together, past every guard.
    - Object store: a key names a file below the root or is refused; whatever the
      interleaving of writers, failures and kills, an object holds a whole value, and
      its conditional writes form a chain.  A conditional write to S3 is atomic in
      native mode, and in verified mode while nobody else writes.
    - Fork file: a process follows the last valid version, and says that a restart is
      needed exactly while one would change its cancellations.
    - Devnets: a complete bundle registers and has a fork digest at every instant; what
      is registered is what the files say and does not depend on Go's map order.
    - Expiring maps and distinct counters: the heap-backed map refines a plain map
      that forgets its expired entries; a recorded state passes the checks of a
      restart.

    ** Bounds and fuel

    Loops over slices and maps are structural.  The remaining loops take a fuel
    that is proved sufficient: the sift loops of [Heap] run at most the length of
    the slice, [rank_loop] at most 63 times ([Hll.rank_loop_spec]), and the binary
    search of [Hll] halves its interval ([Hll.search_loop_spec]).  The draining loops of
    [Expiring] consume one heap item per turn, and their fuel is the heap's
    length.  A month is found in eleven steps of [Calendar.monthDay].
    The fill loop of the client balance has fuel for one full turn per place, which
    [DnsShares.fillSlots_runs] shows to be enough; chunking a list or a text takes its
    length.  The pairing of a statistics answer
    has its three attempts as fuel, which [stats_paired] shows to be enough; the caches'
    requests need none, for each state has a measure ([LoadCache.work], [MapCache.mapWork])
    that every step lowers.  The shares are proved for up to 2^26 candidates, where the rounding of
    [float64] cannot lift a share past the next integer.

    ** Conventions

    An error is its constant format string; the interpolated arguments are
    dropped, and a wrapped error is its inner one.  Unsigned 64-bit values are
    integers in range, and every operation of the source that can wrap is
    written with [wrapU64] or [wrapI64].  [range] over a map visits the canonical
    enumeration of [gmap]; where the source's result could depend on the order, a
    theorem shows that it does not.  [slices.SortFunc] on keys that may tie is
    stable here.  Readers of the registry recompute memoised values without
    storing them back; [CurrentForkIDAt_memo] and [stateAt_cached] show that this
    is unobservable.  A schedule with zero slots per epoch, which registration
    refuses, would divide by zero in Go and is totalised here.

    A writer of the file store runs from one system call that others can see to the
    next in one step, and may fail or be killed at each.  Its versions are content
    hashes; [FileRaces.cas_on_latest] shows when they do the work of the counted
    versions of [PublisherRaces].  The S3 service is [S3Service]: [S3ServiceOk] says
    that reads return what is stored and that a conditional write is decided and
    applied in one step.

    Counts of rows, which are Go [int], are not wrapped; the products of the
    shrink guard are.  The store's versions are modelled as the number of writes;
    the verified mode of the S3 store, whose check and write are two requests, is
    outside that contract ([S3Store.verified_lost_update]).  A read may return any earlier object, a write may land
    although an error is reported.  [GROUP BY] returns one row per distinct key
    with its count, in any order.

    The requests of a cache and the handlers of the crawler interleave between critical
    sections; a query of the engine, which holds the publication barrier, is one step, and
    so is a refresh.  The drain of the crawler's retry loop reads the layers of its batch
    with the map locked.  Ages in the API are whole seconds, instants stay instants until
    they are text of a key or a header.

    ** Not modelled

    Network, disk and process I/O, logging and metrics; goroutine scheduling
    below the granularity of a critical section; the parquet, JSON, gzip and YAML
    codecs; floating point beyond the quotients of [Float64] (the cardinality
    estimate, coordinates, which are only copied); third-party code: go-ethereum's
    record codec, RLPx, tree signer, chain configuration and special-network table,
    libp2p, DuckDB (its parquet reader, doubles and the regular expressions of the version
    text are arguments), the rate limiter, the DNS services.  Of the API the flags, the
    server's lifecycle, the dispatch of the mux and the ticks of the refresh loop; of the
    crawler the flags, the sockets and limits of its listeners, the discovery iterators and
    their readers, timers and the order of shutdown; the discovery wrappers, which only
    configure go-ethereum; of the DNS publisher its flags, its git transport
    and its key files.  The crawler publisher's distinct-count and aggregate objects
    are side outputs without a reader here. *)

From stdpp Require Import base gmap strings list numbers sorting.
From Stdlib Require Import ZArith Lia Ascii.

#[export] Set Default Proof Using "Type".
Open Scope Z_scope.

(** * Scopes and notations *)

Declare Scope enr_scope.
Delimit Scope enr_scope with enr.

(** ** Fallible code

    A Go function that returns [(T, error)] is modelled by [result T].  An error
    is the constant format string of the source's [errors.New] / [fmt.Errorf]
    call; the interpolated arguments are dropped. *)

Inductive result (A : Type) : Type :=
| Ok (a : A)
| Err (e : string).
Arguments Ok {A} a.
Arguments Err {A} e.

Definition rbind {A B} (r : result A) (k : A -> result B) : result B :=
  match r with Ok a => k a | Err e => Err e end.

Notation "'let!' x ':=' e 'in' k" := (rbind e (fun x => k))
  (at level 10, x pattern, e at level 100, k at level 200) : enr_scope.

Definition is_ok {A} (r : result A) : bool := match r with Ok _ => true | Err _ => false end.

(** ** Record update

    [r <| f := v |>] is the Go assignment [r.f = v] on a struct value.  A record
    type registers its eta-expansion once ([Eta]) and each mutable field gets an
    [Upd] instance built by [derive_upd]. *)

Class Eta (R : Type) := eta : R -> R.

Class Upd {R E : Type} (proj : R -> E) := upd : (E -> E) -> R -> R.
Arguments upd {R E} proj {Upd} _ _.

Ltac derive_upd :=
  match goal with
  | |- @Upd ?R ?E ?p =>
      let ex := constr:(@eta R _) in
      let f := fresh "f" in
      let r := fresh "r" in
      unfold Upd; intros f r;
      let b := eval hnf in (ex r) in
      let g := eval pattern (p r) in b in
      match g with
      | ?k _ => let t := eval cbv beta in (k (f (p r))) in exact t
      end
  end.

Arguments upd : simpl never.

(** Reads through updates, one explicit rewrite at a time: the record types are
    wide, and unfolding nested updates all at once is exponential. *)
Ltac upd_step_in term tac :=
  match term with
  | context [?q (@upd ?R ?E ?p ?U ?h ?r)] =>
      first
        [ let H := constr:((fun g0 r0 => eq_refl) : forall g0 r0, q (@upd R E p U g0 r0) = q r0) in tac (H h r)
        | let H := constr:((fun g0 r0 => eq_refl) : forall g0 r0, p (@upd R E p U g0 r0) = g0 (p r0)) in
          unify q p; tac (H h r) ]
  end.
Ltac upd_simpl := repeat (match goal with |- ?g => upd_step_in g ltac:(fun e => rewrite e) end); cbv beta.
Ltac upd_simpl_in K :=
  repeat (match type of K with ?g => upd_step_in g ltac:(fun e => rewrite e in K) end); cbv beta in K.

Notation "x <| p := v |>" := (upd p (fun _ => v) x)
  (at level 1, left associativity, p at level 9, v at level 200, format "x  <| p  :=  v |>") : enr_scope.

Open Scope enr_scope.

(** * Tactics *)

Create HintDb enr.
Create Rewrite HintDb enr.

(** Turns boolean tests of the code into the propositions they decide. *)
Ltac boolify_step :=
  match goal with
  | H : (_ && _)%bool = true |- _ => apply andb_true_iff in H as [? ?]
  | H : (_ || _)%bool = false |- _ => apply orb_false_iff in H as [? ?]
  | H : (_ && _)%bool = false |- _ => apply andb_false_iff in H
  | H : (_ || _)%bool = true |- _ => apply orb_true_iff in H
  | H : negb _ = true |- _ => apply negb_true_iff in H
  | H : negb _ = false |- _ => apply negb_false_iff in H
  | H : (_ =? _)%Z = true |- _ => apply Z.eqb_eq in H
  | H : (_ =? _)%Z = false |- _ => apply Z.eqb_neq in H
  | H : (_ <? _)%Z = true |- _ => apply Z.ltb_lt in H
  | H : (_ <? _)%Z = false |- _ => apply Z.ltb_ge in H
  | H : (_ <=? _)%Z = true |- _ => apply Z.leb_le in H
  | H : (_ <=? _)%Z = false |- _ => apply Z.leb_gt in H
  | H : (_ =? _)%string = true |- _ => apply String.eqb_eq in H
  | H : (_ =? _)%string = false |- _ => apply String.eqb_neq in H
  | |- (_ && _)%bool = true => apply andb_true_iff; split
  | |- negb _ = true => apply negb_true_iff
  | |- negb _ = false => apply negb_false_iff
  | |- (_ =? _)%Z = true => apply Z.eqb_eq
  | |- (_ =? _)%Z = false => apply Z.eqb_neq
  | |- (_ <? _)%Z = true => apply Z.ltb_lt
  | |- (_ <? _)%Z = false => apply Z.ltb_ge
  | |- (_ <=? _)%Z = true => apply Z.leb_le
  | |- (_ <=? _)%Z = false => apply Z.leb_gt
  | |- (_ =? _)%string = true => apply String.eqb_eq
  | |- (_ =? _)%string = false => apply String.eqb_neq
  end.
Ltac boolify := repeat boolify_step.

(** Case analysis on the first test the goal is stuck on. *)
Ltac case_goal :=
  match goal with
  | |- context [match ?b with _ => _ end] =>
      lazymatch b with
      | context [match _ with _ => _ end] => fail
      | _ => destruct b eqn:?
      end
  end.
Ltac case_hyp H :=
  match type of H with
  | context [match ?b with _ => _ end] =>
      lazymatch b with
      | context [match _ with _ => _ end] => fail
      | _ => destruct b eqn:?
      end
  end.

(** * Machine integers *)

Definition max_uint64 : Z := 18446744073709551615.
Definition max_int64 : Z := 9223372036854775807.
Definition min_int64 : Z := -9223372036854775808.
Definition max_int32 : Z := 2147483647.

Definition wrapU64 (x : Z) : Z := x mod 18446744073709551616.
Definition wrapI64 (x : Z) : Z := (x + 9223372036854775808) mod 18446744073709551616 - 9223372036854775808.
Definition wrapI32 (x : Z) : Z := (x + 2147483648) mod 4294967296 - 2147483648.
Definition wrapU32 (x : Z) : Z := x mod 4294967296.

Definition is_uint64 (x : Z) : bool := (0 <=? x) && (x <=? max_uint64).
Definition is_int64 (x : Z) : bool := (min_int64 <=? x) && (x <=? max_int64).
Definition is_int32 (x : Z) : bool := (-2147483648 <=? x) && (x <=? max_int32).

Lemma wrapU64_id x : 0 <= x <= max_uint64 -> wrapU64 x = x.
Proof. unfold wrapU64, max_uint64. intros. apply Z.mod_small. lia. Qed.

Lemma wrapI64_id x : min_int64 <= x <= max_int64 -> wrapI64 x = x.
Proof. unfold wrapI64, min_int64, max_int64. intros. rewrite Z.mod_small; lia. Qed.

Lemma wrapI32_id x : -2147483648 <= x <= max_int32 -> wrapI32 x = x.
Proof. unfold wrapI32, max_int32. intros. rewrite Z.mod_small; lia. Qed.

Lemma wrapU64_range x : 0 <= wrapU64 x <= max_uint64.
Proof.
  unfold wrapU64, max_uint64.
  pose proof (Z.mod_pos_bound x 18446744073709551616 ltac:(lia)). lia.
Qed.

Lemma wrapI64_range x : min_int64 <= wrapI64 x <= max_int64.
Proof.
  unfold wrapI64, min_int64, max_int64.
  pose proof (Z.mod_pos_bound (x + 9223372036854775808) 18446744073709551616 ltac:(lia)). lia.
Qed.

(** Go's integer division truncates toward zero. *)
Definition godiv (a b : Z) : Z := Z.quot a b.

#[export] Hint Rewrite wrapU64_id wrapI64_id wrapI32_id using lia : enr.

(** * Lists *)

(** ** Stable insertion sort: the meaning of [slices.SortStableFunc], and of the
    unstable sorts on keys that are totally ordered. *)

Section Isort.
Context {A : Type} (leb : A -> A -> bool).

Fixpoint insert_sorted (x : A) (l : list A) : list A :=
  match l with
  | [] => [x]
  | y :: ys => if leb x y then x :: y :: ys else y :: insert_sorted x ys
  end.

Definition isort (l : list A) : list A := foldr insert_sorted [] l.

Lemma insert_sorted_perm x l : insert_sorted x l ≡ₚ x :: l.
Proof.
  induction l as [|y ys IH]; simpl; [done|].
  destruct (leb x y); [done|]. rewrite IH. apply Permutation_swap.
Qed.

Lemma isort_perm l : isort l ≡ₚ l.
Proof. induction l as [|x l IH]; simpl; [done|]. by rewrite insert_sorted_perm, IH. Qed.

Lemma elem_of_isort x l : x ∈ isort l <-> x ∈ l.
Proof. by rewrite isort_perm. Qed.

Lemma length_isort l : length (isort l) = length l.
Proof. apply Permutation_length, isort_perm. Qed.

Definition leP (x y : A) : Prop := leb x y = true.

Context (leb_total : forall x y, leb x y = false -> leb y x = true)
        (leb_trans : forall x y z, leb x y = true -> leb y z = true -> leb x z = true).

Lemma insert_sorted_sorted x l : StronglySorted leP l -> StronglySorted leP (insert_sorted x l).
Proof using leb_total leb_trans.
  induction 1 as [|y ys Hs IH Hf]; simpl; [repeat constructor|].
  destruct (leb x y) eqn:E.
  - constructor; [by constructor|]. constructor; [done|].
    eapply Forall_impl; [exact Hf|]. intros z Hz. by eapply leb_trans.
  - constructor; [done|]. rewrite insert_sorted_perm. constructor; [|done].
    by apply leb_total.
Qed.

Lemma isort_sorted l : StronglySorted leP (isort l).
Proof using leb_total leb_trans.
  induction l; simpl; [constructor|]. by apply insert_sorted_sorted.
Qed.

Lemma isort_id l : StronglySorted leP l -> isort l = l.
Proof.
  induction 1 as [|y ys Hs IH Hf]; simpl; [done|]. rewrite IH.
  destruct Hf as [|z zs Hz]; simpl; [done|]. by unfold leP in Hz; rewrite Hz.
Qed.
End Isort.

(** A stable sort commutes with filtering. *)
Lemma insert_sorted_filter {A} (leb : A -> A -> bool) (p : A -> bool) x l :
  (forall x y z, leb x y = true -> leb y z = true -> leb x z = true) ->
  StronglySorted (leP leb) l ->
  List.filter p (insert_sorted leb x l) =
  if p x then insert_sorted leb x (List.filter p l) else List.filter p l.
Proof.
  intros Htr. induction 1 as [|y l Hs IH Hf]; simpl; [done|].
  destruct (leb x y) eqn:E; simpl.
  - destruct (p x); [|done]. destruct (p y); simpl; [by rewrite E|].
    destruct (List.filter p l) as [|z zs] eqn:El; [done|].
    assert (z ∈ List.filter p l) as Hz by (rewrite El; left). rewrite list_elem_of_In in Hz.
    apply filter_In in Hz as [Hz _]. apply list_elem_of_In in Hz. rewrite Forall_forall in Hf.
    simpl. by rewrite (Htr x y z E (Hf z Hz)).
  - rewrite IH. destruct (p x), (p y); simpl; rewrite ?E; done.
Qed.

Lemma isort_filter {A} (leb : A -> A -> bool) (p : A -> bool) l :
  (forall x y, leb x y = false -> leb y x = true) ->
  (forall x y z, leb x y = true -> leb y z = true -> leb x z = true) ->
  isort leb (List.filter p l) = List.filter p (isort leb l).
Proof.
  intros Htot Htr. induction l as [|x l IH]; simpl; [done|].
  rewrite insert_sorted_filter by (done || by apply isort_sorted).
  rewrite <- IH. by destruct (p x).
Qed.

(** A total order leaves the sort no freedom: permuted inputs sort alike. *)
Lemma isort_canonical {A} (leb : A -> A -> bool) (l l' : list A) :
  (forall x y, leb x y = false -> leb y x = true) ->
  (forall x y z, leb x y = true -> leb y z = true -> leb x z = true) ->
  (forall x y, leb x y = true -> leb y x = true -> x = y) ->
  l ≡ₚ l' -> isort leb l = isort leb l'.
Proof.
  intros Htot Htr Hanti Hp. apply (@StronglySorted_unique _ (leP leb) Hanti).
  - by apply isort_sorted.
  - by apply isort_sorted.
  - by rewrite !isort_perm.
Qed.

(** ** The byte order of strings *)

Lemma ascii_compare_lt a b : Ascii.compare a b = Lt <-> (N_of_ascii a < N_of_ascii b)%N.
Proof. unfold Ascii.compare. apply N.compare_lt_iff. Qed.

Lemma string_compare_trans a b c :
  String.compare a b = Lt -> String.compare b c = Lt -> String.compare a c = Lt.
Proof.
  revert b c. induction a as [|x a IH]; intros [|y b] [|z c]; simpl; try done.
  destruct (Ascii.compare x y) eqn:E1, (Ascii.compare y z) eqn:E2; try done; intros H1 H2.
  - apply Ascii.compare_eq_iff in E1 as ->. rewrite E2. by eapply IH.
  - apply Ascii.compare_eq_iff in E1 as ->. by rewrite E2.
  - apply Ascii.compare_eq_iff in E2 as <-. by rewrite E1.
  - apply ascii_compare_lt in E1, E2. replace (Ascii.compare x z) with Lt; [done|].
    symmetry. apply ascii_compare_lt. by etransitivity.
Qed.

Lemma string_leb_iff a b : String.leb a b = true <-> String.compare a b = Lt \/ a = b.
Proof.
  unfold String.leb. destruct (String.compare a b) eqn:E.
  - apply String.compare_eq_iff in E as ->. naive_solver.
  - naive_solver.
  - split; [done|]. intros [?| ->]; [done|]. pose proof (String.compare_antisym b b) as H.
    rewrite E in H. done.
Qed.

Lemma string_leb_total a b : String.leb a b = false -> String.leb b a = true.
Proof. intros H. destruct (String.leb_total a b); congruence. Qed.

Lemma string_leb_trans a b c : String.leb a b = true -> String.leb b c = true -> String.leb a c = true.
Proof.
  rewrite !string_leb_iff. intros [H1| ->] [H2| ->]; try by auto. left. by eapply string_compare_trans.
Qed.

Lemma string_ltb_leb a b : String.ltb a b = negb (String.leb b a).
Proof.
  unfold String.ltb, String.leb. rewrite (String.compare_antisym b a).
  by destruct (String.compare a b).
Qed.

(** [slices.Compact]: drops consecutive duplicates. *)
Fixpoint compact (l : list Z) : list Z :=
  match l with
  | [] => []
  | x :: l' =>
      match l' with
      | [] => [x]
      | y :: _ => if x =? y then compact l' else x :: compact l'
      end
  end.

Lemma elem_of_compact x l : x ∈ compact l <-> x ∈ l.
Proof.
  induction l as [|a l IH]; simpl; [done|]. destruct l as [|b l']; [done|].
  destruct (a =? b) eqn:E; boolify; rewrite ?elem_of_cons, IH; set_solver.
Qed.

Lemma compact_sorted l : StronglySorted Z.le l -> StronglySorted Z.lt (compact l).
Proof.
  induction 1 as [|a l Hs IH Hf]; simpl; [constructor|].
  destruct l as [|b l']; [repeat constructor|].
  destruct (a =? b) eqn:E; boolify; [done|].
  constructor; [done|]. apply Forall_forall. intros x Hx. rewrite elem_of_compact in Hx.
  apply Forall_cons in Hf as [Hab Hf].
  apply elem_of_cons in Hx as [->|Hx]; [lia|].
  apply StronglySorted_inv in Hs as [_ Hs]. rewrite Forall_forall in Hs.
  pose proof (Hs x Hx). lia.
Qed.

(** [slices.IndexFunc] / [ContainsFunc] / [DeleteFunc] over a list. *)
Fixpoint index_func {A} (f : A -> bool) (l : list A) : option nat :=
  match l with
  | [] => None
  | x :: l' => if f x then Some 0%nat else S <$> index_func f l'
  end.
Definition contains_func {A} (f : A -> bool) (l : list A) : bool := existsb f l.
Definition delete_func {A} (f : A -> bool) (l : list A) : list A := List.filter (fun x => negb (f x)) l.

Lemma elem_of_lfilter {A} (f : A -> bool) (l : list A) x :
  x ∈ List.filter f l <-> x ∈ l /\ f x = true.
Proof. rewrite !list_elem_of_In. apply filter_In. Qed.

Lemma lfilter_all {A} (f : A -> bool) l : (forall x, x ∈ l -> f x = true) -> List.filter f l = l.
Proof.
  induction l as [|x l IH]; intros H; simpl; [done|]. rewrite H by left. f_equal. apply IH. intros y Hy. apply H. by right.
Qed.

Lemma lfilter_sublist {A} (f : A -> bool) l : List.filter f l `sublist_of` l.
Proof. induction l as [|x l IH]; cbn; [constructor|]. destruct (f x); by constructor. Qed.

Lemma elem_of_concat {A} (x : A) (ls : list (list A)) : x ∈ concat ls <-> exists l, l ∈ ls /\ x ∈ l.
Proof. rewrite list_elem_of_In, in_concat. by setoid_rewrite list_elem_of_In. Qed.

Lemma lfilter_NoDup {A} (f : A -> bool) (l : list A) : NoDup l -> NoDup (List.filter f l).
Proof.
  induction 1 as [|x l Hx Hl IH]; simpl; [constructor|]. destruct (f x); [|done].
  constructor; [|done]. rewrite elem_of_lfilter. by intros [? _].
Qed.

#[export] Instance lfilter_perm {A} (f : A -> bool) : Proper (Permutation ==> Permutation) (List.filter f).
Proof.
  intros l l' H. induction H as [|x l l' Hl IH|x y l|l1 l2 l3 H1 IH1 H2 IH2]; simpl; [done| | |by etransitivity].
  - destruct (f x); [by constructor|done].
  - destruct (f x), (f y); try done. apply Permutation_swap.
Qed.

Lemma contains_func_true {A} (f : A -> bool) l :
  contains_func f l = true <-> exists x, x ∈ l /\ f x = true.
Proof.
  unfold contains_func. rewrite existsb_exists.
  split; intros (x & H & ?); exists x; rewrite ?list_elem_of_In in *; done.
Qed.

Lemma contains_func_false {A} (f : A -> bool) l :
  contains_func f l = false <-> forall x, x ∈ l -> f x = false.
Proof.
  split.
  - intros H x Hx. destruct (f x) eqn:E; [|done].
    assert (contains_func f l = true) by (apply contains_func_true; eauto). congruence.
  - intros H. destruct (contains_func f l) eqn:E; [|done].
    apply contains_func_true in E as (x & Hx & Hf). rewrite H in Hf; done.
Qed.

Lemma sorted_filter {A} (R : A -> A -> Prop) (f : A -> bool) l :
  StronglySorted R l -> StronglySorted R (List.filter f l).
Proof.
  induction 1 as [|x l Hs IH Hf]; simpl; [constructor|].
  destruct (f x); [|done]. constructor; [done|].
  apply Forall_forall. intros y Hy. rewrite elem_of_lfilter in Hy.
  rewrite Forall_forall in Hf. apply Hf, Hy.
Qed.

Lemma sorted_impl {A} (R S : A -> A -> Prop) l :
  (forall x y, R x y -> S x y) -> StronglySorted R l -> StronglySorted S l.
Proof.
  intros HRS. induction 1 as [|x l Hs IH Hf]; [constructor|].
  constructor; [done|]. eapply Forall_impl; [exact Hf|]. apply HRS.
Qed.

(** Loops keep what each iteration keeps. *)
Lemma foldl_invariant {A B} (P : A -> Prop) (f : A -> B -> A) l a :
  P a -> (forall a x, x ∈ l -> P a -> P (f a x)) -> P (foldl f a l).
Proof.
  revert a. induction l as [|x l IH]; intros a Ha Hf; simpl; [done|].
  apply IH; [apply Hf; [left|done]|]. intros b y Hy. apply Hf. by right.
Qed.

(** The last element of [l] satisfying [f], with a default: the shape of every
    [active := forks[0]; for ... { active = f }] loop of the schedule code. *)
Definition last_match {A} (f : A -> bool) (d : A) (l : list A) : A :=
  foldl (fun acc x => if f x then x else acc) d l.

Lemma last_match_cons {A} (f : A -> bool) d x l :
  last_match f d (x :: l) = last_match f (if f x then x else d) l.
Proof. reflexivity. Qed.

Lemma last_match_in {A} (f : A -> bool) d l : last_match f d l = d \/ (last_match f d l ∈ l /\ f (last_match f d l) = true).
Proof.
  unfold last_match. revert d. induction l as [|x l IH]; intros d; simpl; [by left|].
  destruct (IH (if f x then x else d)) as [->|[Hin Hf]].
  - destruct (f x) eqn:E; [right|by left]. split; [by left|done].
  - right. split; [by right|done].
Qed.

Lemma last_match_snoc {A} (f : A -> bool) d l x :
  last_match f d (l ++ [x]) = if f x then x else last_match f d l.
Proof. unfold last_match. by rewrite foldl_app. Qed.

(** * Finite maps *)

(** The number of entries of a map whose value satisfies a test. *)
Definition map_count {V} (f : V -> bool) (m : gmap string V) : nat :=
  size (filter (fun kv : string * V => f kv.2 = true) m).

Lemma map_count_insert_new {V} (f : V -> bool) (m : gmap string V) k v :
  m !! k = None ->
  map_count f (<[k := v]> m) = (map_count f m + (if f v then 1 else 0))%nat.
Proof.
  intros Hk. unfold map_count. destruct (f v) eqn:E.
  - rewrite map_filter_insert_True by done. rewrite map_size_insert_None; [lia|].
    apply map_lookup_filter_None. by left.
  - rewrite map_filter_insert_False by (simpl; congruence).
    rewrite delete_id by done. lia.
Qed.

Lemma map_count_delete {V} (f : V -> bool) (m : gmap string V) k v :
  m !! k = Some v ->
  (map_count f (delete k m) + (if f v then 1 else 0))%nat = map_count f m.
Proof.
  intros Hk. rewrite <- (insert_delete_id m k v Hk) at 2.
  rewrite map_count_insert_new by apply lookup_delete_eq. done.
Qed.

Lemma map_count_insert {V} (f : V -> bool) (m : gmap string V) k old v :
  m !! k = Some old ->
  (map_count f (<[k := v]> m) + (if f old then 1 else 0))%nat =
  (map_count f m + (if f v then 1 else 0))%nat.
Proof.
  intros Hk. rewrite <- insert_delete_eq.
  rewrite map_count_insert_new by apply lookup_delete_eq.
  rewrite <- (map_count_delete f m k old Hk). lia.
Qed.

Lemma map_count_le_size {V} (f : V -> bool) (m : gmap string V) : (map_count f m <= size m)%nat.
Proof. unfold map_count. apply map_subseteq_size, map_filter_subseteq. Qed.

Lemma gmap_size_delete {V} (m : gmap string V) k v : m !! k = Some v -> size (delete k m) = pred (size m).
Proof. intros H. apply map_size_delete_Some. eauto. Qed.

(** Values of a map in its canonical enumeration order. *)
Definition map_values {V} (m : gmap string V) : list V := snd <$> map_to_list m.

Lemma elem_of_map_values {V} (m : gmap string V) v :
  v ∈ map_values m <-> exists k, m !! k = Some v.
Proof.
  unfold map_values. rewrite list_elem_of_fmap. split.
  - intros ([k v'] & -> & H%elem_of_map_to_list). eauto.
  - intros [k H]. exists (k, v). split; [done|]. by apply elem_of_map_to_list.
Qed.

Lemma length_map_values {V} (m : gmap string V) : length (map_values m) = size m.
Proof. unfold map_values. by rewrite length_fmap, length_map_to_list. Qed.

(** ** Non-decreasing keys, as an executable check *)

Fixpoint nondecreasing (l : list Z) : bool :=
  match l with
  | [] => true
  | x :: l' => match l' with [] => true | y :: _ => (x <=? y) && nondecreasing l' end
  end.

Lemma nondecreasing_sorted l : nondecreasing l = true -> StronglySorted Z.le l.
Proof.
  induction l as [|x l IH]; [constructor|]. destruct l as [|y l].
  { intros _. repeat constructor. }
  change (nondecreasing (x :: y :: l)) with ((x <=? y) && nondecreasing (y :: l)).
  intros H. apply andb_true_iff in H as [Hxy H]. boolify. specialize (IH H).
  constructor; [done|]. constructor; [done|].
  apply StronglySorted_inv in IH as [_ IH]. eapply Forall_impl; [exact IH|]. simpl. lia.
Qed.

Definition by_key {A} (key : A -> Z) (l : list A) : Prop := StronglySorted (fun x y => key x <= key y) l.

Lemma nondecreasing_by_key {A} (key : A -> Z) l :
  nondecreasing (map key l) = true -> by_key key l.
Proof.
  intros H%nondecreasing_sorted. unfold by_key.
  remember (map key l) as ks eqn:E. revert l E.
  induction H as [|k ks Hs IH Hf]; intros [|x l] E; simpl in E; try done; [constructor|].
  injection E as -> ->. constructor; [by apply IH|].
  apply Forall_forall. intros y Hy. rewrite Forall_forall in Hf. apply Hf.
  apply list_elem_of_fmap. eauto.
Qed.

(** A loop that stops at the first key above a bound finds the last match. *)
Fixpoint last_until {A} (key : A -> Z) (bound : Z) (active : A) (l : list A) : A :=
  match l with
  | [] => active
  | x :: l' => if bound <? key x then active else last_until key bound x l'
  end.

Lemma last_match_none {A} (f : A -> bool) d l : (forall x, x ∈ l -> f x = false) -> last_match f d l = d.
Proof.
  unfold last_match. induction l as [|x l IH]; intros H; simpl; [done|].
  rewrite (H x) by left. apply IH. intros y Hy. apply H. by right.
Qed.

Lemma last_match_ext {A} (f g : A -> bool) d l :
  (forall x, x ∈ l -> f x = g x) -> last_match f d l = last_match g d l.
Proof.
  unfold last_match. revert d. induction l as [|x l IH]; intros d H; simpl; [done|].
  rewrite (H x) by left. apply IH. intros y Hy. apply H. by right.
Qed.

Lemma last_until_last_match {A} (key : A -> Z) b d l :
  by_key key l -> last_until key b d l = last_match (fun x => key x <=? b) d l.
Proof.
  intros H. revert d. induction H as [|x l Hs IH Hf]; intros d; simpl; [done|].
  change (last_match (fun x => key x <=? b) d (x :: l))
    with (last_match (fun x => key x <=? b) (if key x <=? b then x else d) l).
  destruct (b <? key x) eqn:E; boolify.
  - replace (key x <=? b) with false by (symmetry; boolify; lia).
    symmetry. apply last_match_none. intros y Hy. boolify.
    rewrite Forall_forall in Hf. specialize (Hf y Hy). lia.
  - replace (key x <=? b) with true by (symmetry; boolify; lia). apply IH.
Qed.

(** In a list sorted by [key], the last match of [key <= b] dominates every match. *)
Lemma last_match_max {A} (key : A -> Z) b d l x :
  by_key key l -> x ∈ l -> key x <= b ->
  key x <= key (last_match (fun x => key x <=? b) d l) <= b /\ last_match (fun x => key x <=? b) d l ∈ l.
Proof.
  intros H. revert d. induction H as [|y l Hs IH Hf]; intros d Hin Hb; [by apply elem_of_nil in Hin|].
  change (last_match (fun x => key x <=? b) d (y :: l))
    with (last_match (fun x => key x <=? b) (if key y <=? b then y else d) l).
  apply elem_of_cons in Hin as [->|Hin].
  - replace (key y <=? b) with true by (symmetry; boolify; lia).
    destruct (last_match_in (fun x => key x <=? b) y l) as [->|[Hi He]].
    + split; [lia|left].
    + boolify. rewrite Forall_forall in Hf. specialize (Hf _ Hi). split; [lia|by right].
  - destruct (IH (if key y <=? b then y else d) Hin Hb) as [? ?]. split; [done|by right].
Qed.

(** The first match in a sorted list is the least match. *)
Lemma find_least {A} (key : A -> Z) (p : A -> bool) l x y :
  by_key key l -> List.find p l = Some x -> y ∈ l -> p y = true -> key x <= key y.
Proof.
  induction 1 as [|z l Hs IH Hf]; simpl; [done|]. intros Hfind Hy Hp.
  destruct (p z) eqn:E.
  - injection Hfind as ->. apply elem_of_cons in Hy as [->|Hy]; [lia|].
    rewrite Forall_forall in Hf. by apply Hf.
  - apply elem_of_cons in Hy as [->|Hy]; [congruence|]. by apply IH.
Qed.

Lemma find_none_elem {A} (p : A -> bool) l y : List.find p l = None -> y ∈ l -> p y = false.
Proof. intros H Hy. apply (find_none _ _ H). by apply list_elem_of_In. Qed.

Lemma find_some_elem {A} (p : A -> bool) l x : List.find p l = Some x -> x ∈ l /\ p x = true.
Proof. intros [H ?]%find_some. split; [by apply list_elem_of_In|done]. Qed.

Lemma forallb_elem {A} (p : A -> bool) l x : forallb p l = true -> x ∈ l -> p x = true.
Proof. rewrite forallb_forall. intros H Hx. apply H. by apply list_elem_of_In. Qed.

Lemma existsb_elem {A} (p : A -> bool) l : existsb p l = true -> exists x, x ∈ l /\ p x = true.
Proof. rewrite existsb_exists. intros (x & H & ?). exists x. by rewrite list_elem_of_In. Qed.

Lemma elem_of_flat_map {A B} (f : A -> list B) l y : y ∈ flat_map f l <-> exists x, x ∈ l /\ y ∈ f x.
Proof.
  rewrite list_elem_of_In, in_flat_map. split; intros (x & H1 & H2); exists x;
    rewrite ?list_elem_of_In in *; done.
Qed.

Lemma rbind_ok {A B} (r : result A) (k : A -> result B) b :
  rbind r k = Ok b <-> exists a, r = Ok a /\ k a = Ok b.
Proof.
  destruct r; simpl; [|by split; [done|intros (? & ? & ?)]].
  split; [intros H; eauto|intros (? & [= ->] & ?); done].
Qed.
