(* ===== verification/GoLib.v ===== *)
(** The Go standard library as this repository uses it: [time], byte strings and
    the [strings] helpers, [encoding/hex] and [encoding/binary].

    - An instant is the number of nanoseconds since 1 January of year 1, so that
      [time.Time{}] is [0].  [time.Unix] keeps Go's wrap of the internal 64-bit
      second counter: [time.Unix(math.MaxInt64, 0)] is an instant in the distant
      past although its [Unix()] is again [math.MaxInt64].  Monotonic readings
      are not modelled, and [Add] is exact.
    - [\[n\]byte] and [\[\]byte] values are strings of 8-bit characters.
    - Case and blank handling is that of ASCII text. *)

From stdpp Require Import base gmap strings list numbers.
From Stdlib Require Import ZArith Lia Ascii.
From S2P Require Import Prelude.

(** * time *)

Abbreviation Duration := Z (only parsing).
Abbreviation Time := Z (only parsing).

Definition Second : Duration := 1000000000.
Definition Minute : Duration := 60 * Second.
Definition Hour : Duration := 60 * Minute.
Definition minDuration : Duration := min_int64.
Definition maxDuration : Duration := max_int64.

Definition unixToInternal : Z := 62135596800.
Definition zeroTime : Time := 0.
Definition IsZero (t : Time) : bool := t =? 0.
Definition Before (t u : Time) : bool := t <? u.
Definition After (t u : Time) : bool := u <? t.
Definition TEqual (t u : Time) : bool := t =? u.
(** [time.Unix(sec, 0)]. *)
Definition time_Unix (sec : Z) : Time := wrapI64 (sec + unixToInternal) * Second.
(** [t.Unix()]. *)
Definition Unix (t : Time) : Z := wrapI64 (t / Second - unixToInternal).
(** [t.Sub(u)] saturates at the extreme durations. *)
Definition Sub (t u : Time) : Duration := Z.max minDuration (Z.min maxDuration (t - u)).
Definition Add (t : Time) (d : Duration) : Time := t + d.

Lemma Unix_time_Unix v : min_int64 <= v <= max_int64 -> Unix (time_Unix v) = v.
Proof.
  intros Hv. unfold Unix, time_Unix. rewrite Z.div_mul by done.
  unfold wrapI64, unixToInternal, min_int64, max_int64 in *.
  Z.to_euclidean_division_equations. lia.
Qed.

(** Instants whose second counter does not wrap. *)
Definition sane_unix (v : Z) : bool := (- 2 ^ 62 <=? v) && (v <=? 2 ^ 62).

Lemma time_Unix_sane v : sane_unix v = true -> time_Unix v = (v + unixToInternal) * Second.
Proof.
  unfold sane_unix, time_Unix. intros H. boolify.
  rewrite wrapI64_id; [done|]. unfold unixToInternal, min_int64, max_int64. lia.
Qed.

Lemma time_Unix_lt a b :
  sane_unix a = true -> sane_unix b = true -> a < b <-> time_Unix a < time_Unix b.
Proof. intros Ha Hb. rewrite !time_Unix_sane by done. unfold Second. lia. Qed.

Lemma Unix_sane_eq t : 0 <= t / Second <= 2 ^ 62 -> Unix t = t / Second - unixToInternal.
Proof. intros H. unfold Unix. apply wrapI64_id. unfold unixToInternal, min_int64, max_int64. lia. Qed.

Lemma Sub_small t u : minDuration <= t - u <= maxDuration -> Sub t u = t - u.
Proof. unfold Sub. lia. Qed.

Lemma Sub_ge_iff t u d : minDuration < d <= maxDuration -> d <= Sub t u <-> d <= t - u.
Proof. unfold Sub. lia. Qed.

Lemma Sub_lt_iff t u d : minDuration < d <= maxDuration -> Sub t u < d <-> t - u < d.
Proof. unfold Sub. lia. Qed.

(** * Bytes and strings *)

Definition byte_val (c : ascii) : Z := Z.of_N (N_of_ascii c).
Definition byte_of (z : Z) : ascii := ascii_of_N (Z.to_N (z mod 256)).

Fixpoint bytes (s : string) : list Z :=
  match s with EmptyString => [] | String c s' => byte_val c :: bytes s' end.
Fixpoint of_bytes (l : list Z) : string :=
  match l with [] => EmptyString | z :: l' => String (byte_of z) (of_bytes l') end.

Lemma byte_val_range c : 0 <= byte_val c < 256.
Proof. unfold byte_val. pose proof (N_ascii_bounded c). lia. Qed.

Lemma byte_of_val c : byte_of (byte_val c) = c.
Proof.
  unfold byte_of. rewrite Z.mod_small by apply byte_val_range.
  unfold byte_val. rewrite N2Z.id. apply ascii_N_embedding.
Qed.

Lemma byte_val_of z : byte_val (byte_of z) = z mod 256.
Proof.
  unfold byte_val, byte_of. pose proof (Z.mod_pos_bound z 256 ltac:(lia)).
  rewrite N_ascii_embedding by lia. lia.
Qed.

Lemma of_bytes_bytes s : of_bytes (bytes s) = s.
Proof. induction s as [|c s IH]; simpl; [done|]. by rewrite byte_of_val, IH. Qed.

Definition slen (s : string) : Z := Z.of_nat (String.length s).

Lemma length_bytes s : length (bytes s) = String.length s.
Proof. induction s; simpl; [done|]. by f_equal. Qed.

(** Go's [s\[i:\]] and [s\[:i\]]. *)
Fixpoint sdrop (n : nat) (s : string) : string :=
  match n, s with O, _ => s | S _, EmptyString => EmptyString | S n', String _ s' => sdrop n' s' end.
Fixpoint stake (n : nat) (s : string) : string :=
  match n, s with O, _ => EmptyString | S _, EmptyString => EmptyString
  | S n', String c s' => String c (stake n' s') end.

Lemma stake_sdrop n s : stake n s +:+ sdrop n s = s.
Proof. revert s. induction n as [|n IH]; intros [|c s]; simpl; [done..|]. change (String c (stake n s +:+ sdrop n s) = String c s). by rewrite IH. Qed.

Lemma sapp_cons c s t : String c s +:+ t = String c (s +:+ t).
Proof. reflexivity. Qed.

Lemma length_sapp s t : String.length (s +:+ t) = (String.length s + String.length t)%nat.
Proof. induction s as [|c s IH]; [done|]. rewrite sapp_cons. simpl. by rewrite IH. Qed.

Lemma sapp_assoc s t u : s +:+ t +:+ u = (s +:+ t) +:+ u.
Proof. induction s as [|c s IH]; [done|]. by rewrite !sapp_cons, IH. Qed.

Lemma sapp_nil_r s : s +:+ "" = s.
Proof. induction s as [|c s IH]; [done|]. by rewrite sapp_cons, IH. Qed.

Lemma stake_app n s t : String.length s = n -> stake n (s +:+ t) = s.
Proof. intros <-. induction s as [|c s IH]; simpl; [by destruct t|]. f_equal. exact IH. Qed.

Lemma sdrop_app n s t : String.length s = n -> sdrop n (s +:+ t) = t.
Proof. intros <-. by induction s; simpl. Qed.

(** [strings] *)
Definition HasPrefix (s p : string) : bool := String.prefix p s.
Definition HasSuffix (s p : string) : bool :=
  ((String.length p <=? String.length s)%nat && (sdrop (String.length s - String.length p) s =? p)%string)%bool.
Definition TrimPrefix (s p : string) : string :=
  if HasPrefix s p then sdrop (String.length p) s else s.
Definition TrimSuffix (s p : string) : string :=
  if HasSuffix s p then stake (String.length s - String.length p) s else s.

Definition lower_byte (c : ascii) : ascii :=
  let v := byte_val c in if (65 <=? v) && (v <=? 90) then byte_of (v + 32) else c.
Definition upper_byte (c : ascii) : ascii :=
  let v := byte_val c in if (97 <=? v) && (v <=? 122) then byte_of (v - 32) else c.
Fixpoint smap (f : ascii -> ascii) (s : string) : string :=
  match s with EmptyString => EmptyString | String c s' => String (f c) (smap f s') end.
Definition ToLower (s : string) : string := smap lower_byte s.
Definition ToUpper (s : string) : string := smap upper_byte s.
Definition EqualFold (a b : string) : bool := (ToLower a =? ToLower b)%string.

Definition is_blank (c : ascii) : bool :=
  let v := byte_val c in ((9 <=? v) && (v <=? 13)) || (v =? 32).
Fixpoint trim_left (s : string) : string :=
  match s with
  | EmptyString => EmptyString
  | String c s' => if is_blank c then trim_left s' else s
  end.
(** [trim_right] keeps a suffix only if a non-blank follows. *)
Fixpoint trim_right (s : string) : string :=
  match s with
  | EmptyString => EmptyString
  | String c s' =>
      match trim_right s' with
      | EmptyString => if is_blank c then EmptyString else String c EmptyString
      | t => String c t
      end
  end.
Definition TrimSpace (s : string) : string := trim_right (trim_left s).

Lemma lower_byte_idem c : lower_byte (lower_byte c) = lower_byte c.
Proof.
  unfold lower_byte at 2 3. set (v := byte_val c).
  destruct ((65 <=? v) && (v <=? 90)) eqn:E.
  - unfold lower_byte. rewrite byte_val_of. boolify. rewrite Z.mod_small by lia.
    destruct ((65 <=? v + 32) && (v + 32 <=? 90)) eqn:E2; [boolify; lia|done].
  - unfold lower_byte. fold v. by rewrite E.
Qed.

Lemma ToLower_idem s : ToLower (ToLower s) = ToLower s.
Proof. unfold ToLower. induction s; simpl; [done|]. by rewrite lower_byte_idem, IHs. Qed.

Lemma EqualFold_refl a : EqualFold a a = true.
Proof. apply String.eqb_refl. Qed.

(** * encoding/hex *)

Definition hex_digit (v : Z) : ascii := byte_of (if v <? 10 then 48 + v else 87 + v).
Definition hex_value (c : ascii) : option Z :=
  let v := byte_val c in
  if (48 <=? v) && (v <=? 57) then Some (v - 48)
  else if (97 <=? v) && (v <=? 102) then Some (v - 87)
  else if (65 <=? v) && (v <=? 70) then Some (v - 55)
  else None.

Fixpoint hex_encode (s : string) : string :=
  match s with
  | EmptyString => EmptyString
  | String c s' =>
      String (hex_digit (byte_val c / 16)) (String (hex_digit (byte_val c mod 16)) (hex_encode s'))
  end.

(** [hex.DecodeString]: [None] is its error. *)
Fixpoint hex_decode (s : string) : option string :=
  match s with
  | EmptyString => Some EmptyString
  | String a (String b s') =>
      match hex_value a, hex_value b, hex_decode s' with
      | Some x, Some y, Some t => Some (String (byte_of (16 * x + y)) t)
      | _, _, _ => None
      end
  | String _ EmptyString => None
  end.

Lemma hex_value_digit v : 0 <= v < 16 -> hex_value (hex_digit v) = Some v.
Proof.
  intros Hv. unfold hex_value, hex_digit. rewrite byte_val_of.
  destruct (v <? 10) eqn:E; boolify; rewrite Z.mod_small by lia.
  - replace (48 <=? 48 + v) with true by (symmetry; boolify; lia).
    replace (48 + v <=? 57) with true by (symmetry; boolify; lia). simpl. f_equal. lia.
  - replace (87 + v <=? 57) with false by (symmetry; boolify; lia). rewrite andb_false_r.
    replace (97 <=? 87 + v) with true by (symmetry; boolify; lia).
    replace (87 + v <=? 102) with true by (symmetry; boolify; lia). simpl. f_equal. lia.
Qed.

Lemma hex_decode_encode s : hex_decode (hex_encode s) = Some s.
Proof.
  induction s as [|c s IH]; simpl; [done|]. pose proof (byte_val_range c).
  rewrite !hex_value_digit, IH.
  - replace (16 * (byte_val c / 16) + byte_val c mod 16) with (byte_val c) by (apply Z.div_mod; lia).
    by rewrite byte_of_val.
  - apply Z.mod_pos_bound. lia.
  - split; [apply Z.div_pos; lia|apply Z.div_lt_upper_bound; lia].
Qed.

#[export] Instance hex_encode_inj : Inj (=) (=) hex_encode.
Proof. intros a b H. apply (f_equal hex_decode) in H. rewrite !hex_decode_encode in H. congruence. Qed.

Lemma length_hex_encode s : String.length (hex_encode s) = (2 * String.length s)%nat.
Proof. induction s; simpl; [done|]. rewrite IHs. lia. Qed.

Lemma lower_hex_digit v : 0 <= v < 16 -> lower_byte (hex_digit v) = hex_digit v.
Proof.
  intros Hv. unfold lower_byte, hex_digit.
  destruct (v <? 10) eqn:E; boolify; rewrite byte_val_of, Z.mod_small by lia.
  - replace (65 <=? 48 + v) with false by (symmetry; boolify; lia). done.
  - replace (87 + v <=? 90) with false by (symmetry; boolify; lia). by rewrite andb_false_r.
Qed.

Lemma ToLower_hex_encode s : ToLower (hex_encode s) = hex_encode s.
Proof.
  unfold ToLower. induction s as [|c s IH]; simpl; [done|]. pose proof (byte_val_range c).
  rewrite !lower_hex_digit, IH; [done|apply Z.mod_pos_bound; lia|].
  split; [apply Z.div_pos; lia|apply Z.div_lt_upper_bound; lia].
Qed.

Lemma is_blank_hex_digit v : 0 <= v < 16 -> is_blank (hex_digit v) = false.
Proof.
  intros Hv. unfold is_blank, hex_digit. apply orb_false_iff.
  destruct (v <? 10) eqn:E; boolify; rewrite byte_val_of, Z.mod_small by lia;
    (split; [apply andb_false_iff; right|]; boolify; lia).
Qed.

(** * encoding/binary *)

Fixpoint le_put (n : nat) (v : Z) : string :=
  match n with O => EmptyString | S n' => String (byte_of v) (le_put n' (v / 256)) end.
Fixpoint le_get (s : string) : Z :=
  match s with EmptyString => 0 | String c s' => byte_val c + 256 * le_get s' end.

Definition be_put (n : nat) (v : Z) : string := of_bytes (rev (bytes (le_put n v))).
Definition be_get (s : string) : Z := foldl (fun acc b => acc * 256 + b) 0 (bytes s).

Lemma length_le_put n v : String.length (le_put n v) = n.
Proof. revert v. induction n; intros; simpl; [done|]. by f_equal. Qed.

Lemma le_get_put n v : le_get (le_put n v) = v mod 256 ^ Z.of_nat n.
Proof.
  revert v. induction n as [|n IH]; intros v; simpl; [by rewrite Z.mod_1_r|].
  rewrite byte_val_of, IH, Nat2Z.inj_succ, Z.pow_succ_r by lia.
  rewrite Z.rem_mul_r by lia. done.
Qed.

Lemma le_get_range s : 0 <= le_get s < 256 ^ Z.of_nat (String.length s).
Proof.
  induction s as [|c s IH]; simpl le_get; simpl String.length; [lia|].
  rewrite Nat2Z.inj_succ, Z.pow_succ_r by lia. pose proof (byte_val_range c). lia.
Qed.

Lemma le_put_get s : le_put (String.length s) (le_get s) = s.
Proof.
  induction s as [|c s IH]; simpl; [done|]. pose proof (byte_val_range c).
  replace (byte_of (byte_val c + 256 * le_get s)) with c.
  - rewrite (Z.add_comm (byte_val c)), (Z.mul_comm 256), Z.div_add_l, Z.div_small by lia.
    by rewrite Z.add_0_r, IH.
  - rewrite <- (byte_of_val c) at 1. unfold byte_of. f_equal. f_equal.
    rewrite (Z.mul_comm 256), Z_mod_plus_full. done.
Qed.
