(* ===== verification/Counting.v ===== *)
(** Counting: sums over lists and maps, tallies keyed by text, and the multiplicity
    of a key in a list. *)

From stdpp Require Import base gmap strings list numbers.
From Stdlib Require Import ZArith Lia.
From S2P Require Import Prelude GoLib.

(** * Sums *)

Definition zsum (l : list Z) : Z := foldr Z.add 0 l.
Definition zsum_by {A} (f : A -> Z) (l : list A) : Z := zsum (map f l).

Lemma zsum_by_cons {A} (f : A -> Z) x l : zsum_by f (x :: l) = f x + zsum_by f l.
Proof. done. Qed.

Lemma zsum_by_app {A} (f : A -> Z) l l' : zsum_by f (l ++ l') = zsum_by f l + zsum_by f l'.
Proof. induction l as [|x l IH]; [done|]. rewrite <- app_comm_cons, !zsum_by_cons, IH. lia. Qed.

Lemma zsum_by_perm {A} (f : A -> Z) l l' : l ≡ₚ l' -> zsum_by f l = zsum_by f l'.
Proof. induction 1; rewrite ?zsum_by_cons in *; lia. Qed.

Lemma zsum_by_ext {A} (f g : A -> Z) l : (forall x, x ∈ l -> f x = g x) -> zsum_by f l = zsum_by g l.
Proof.
  induction l as [|x l IH]; intros H; [done|]. rewrite !zsum_by_cons, (H x), IH; [done| |left].
  intros y Hy. apply H. by right.
Qed.

Lemma zsum_by_map {A B} (f : B -> Z) (g : A -> B) l : zsum_by f (map g l) = zsum_by (fun x => f (g x)) l.
Proof. unfold zsum_by. by rewrite map_map. Qed.

Lemma zsum_by_zero {A} (f : A -> Z) l : (forall x, x ∈ l -> f x = 0) -> zsum_by f l = 0.
Proof.
  induction l as [|x l IH]; intros H; [done|]. rewrite zsum_by_cons, (H x), IH; [done| |left].
  intros y Hy. apply H. by right.
Qed.

Lemma zsum_by_add {A} (f g : A -> Z) l : zsum_by (fun x => f x + g x) l = zsum_by f l + zsum_by g l.
Proof. induction l as [|x l IH]; [done|]. rewrite !zsum_by_cons, IH. lia. Qed.

(** A filter only matters where it drops a weight. *)
Lemma zsum_by_filter {A} (f : A -> Z) (p : A -> bool) l :
  zsum_by f (List.filter p l) = zsum_by (fun x => if p x then f x else 0) l.
Proof. induction l as [|x l IH]; [done|]. cbn [List.filter]. rewrite zsum_by_cons. destruct (p x); [rewrite zsum_by_cons|]; lia. Qed.

(** * Sums over maps *)

Section MapSum.
Context {K A : Type} `{Countable K} (f : K -> A -> Z).

Definition map_sum (m : gmap K A) : Z := zsum_by (fun kv => f kv.1 kv.2) (map_to_list m).

Lemma map_sum_insert m k x :
  map_sum (<[k := x]> m) = map_sum m - match m !! k with Some y => f k y | None => 0 end + f k x.
Proof.
  unfold map_sum. destruct (m !! k) as [y|] eqn:E.
  - rewrite <- insert_delete_eq, (zsum_by_perm _ (map_to_list (<[k:=x]> (delete k m))) ((k, x) :: map_to_list (delete k m))),
      (zsum_by_perm _ (map_to_list m) ((k, y) :: map_to_list (delete k m))), !zsum_by_cons;
      [cbn; lia|symmetry; by apply map_to_list_delete|apply map_to_list_insert; apply lookup_delete_eq].
  - rewrite (zsum_by_perm _ (map_to_list (<[k:=x]> m)) ((k, x) :: map_to_list m)), zsum_by_cons; [cbn; lia|by apply map_to_list_insert].
Qed.
End MapSum.

Lemma map_sum_empty {K A} `{Countable K} (f : K -> A -> Z) : map_sum f ∅ = 0.
Proof. unfold map_sum. by rewrite map_to_list_empty. Qed.

(** * Tallies *)

(** What a Go map of counts reads at a key, and [m\[k\] += n]. *)
Definition countAt (m : gmap string Z) (k : string) : Z := default 0 (m !! k).
Definition addTo (m : gmap string Z) (k : string) (n : Z) : gmap string Z := <[k := countAt m k + n]> m.
Definition tallySum (m : gmap string Z) : Z := map_sum (fun _ n => n) m.

Lemma countAt_addTo m k n k' : countAt (addTo m k n) k' = countAt m k' + (if (k =? k')%string then n else 0).
Proof.
  unfold addTo. unfold countAt at 1. destruct (String.eqb_spec k k') as [->|Hne].
  - by rewrite lookup_insert_eq.
  - rewrite lookup_insert_ne by done. unfold countAt. lia.
Qed.

Lemma tallySum_addTo m k n : tallySum (addTo m k n) = tallySum m + n.
Proof. unfold tallySum, addTo, countAt. rewrite map_sum_insert. destruct (m !! k); cbn; lia. Qed.

Lemma countAt_zeros (ks : list string) n : countAt (list_to_map (map (fun k => (k, 0)) ks)) n = 0.
Proof.
  unfold countAt. induction ks as [|k ks IH]; cbn [map list_to_map foldr fst snd]; [by rewrite lookup_empty|].
  destruct (decide (k = n)) as [->|Hne]; [by rewrite lookup_insert_eq|by rewrite lookup_insert_ne].
Qed.

(** Adding every entry of a tally. *)
Definition addCounts (m m' : gmap string Z) : gmap string Z := foldl (fun acc kv => addTo acc kv.1 kv.2) m (map_to_list m').

Lemma tallySum_addCounts m m' : tallySum (addCounts m m') = tallySum m + tallySum m'.
Proof.
  unfold addCounts, tallySum at 3, map_sum. generalize (map_to_list m'). intros l. revert m.
  induction l as [|[k n] l IH]; intros m; [cbn; lia|]. cbn [foldl fst snd]. rewrite IH, tallySum_addTo, zsum_by_cons. cbn. lia.
Qed.

(** * Multiplicity *)

Section Count.
Context {A : Type} `{EqDecision A}.

Definition occurrences (x : A) (l : list A) : Z := zsum_by (fun y => if decide (y = x) then 1 else 0) l.

(** The sum over the distinct keys of a function weighed by multiplicity is the sum
    over all of them. *)
Lemma zsum_by_single (w : A -> Z) y ds :
  NoDup ds -> y ∈ ds -> zsum_by (fun d => if decide (y = d) then w d else 0) ds = w y.
Proof.
  induction 1 as [|d ds Hd Hnd IH]; [by intros ?%elem_of_nil|]. rewrite zsum_by_cons, elem_of_cons. intros [->|Hy].
  - rewrite decide_True by done. rewrite zsum_by_zero; [lia|]. intros x Hx. rewrite decide_False; [done|by intros ->].
  - rewrite decide_False by (by intros ->). rewrite IH by done. lia.
Qed.

Lemma zsum_by_grouped (w : A -> Z) ds l :
  NoDup ds -> (forall x, x ∈ l -> x ∈ ds) -> zsum_by (fun d => w d * occurrences d l) ds = zsum_by w l.
Proof.
  intros Hnd. induction l as [|y l IH]; intros Hin.
  - apply zsum_by_zero. intros d _. unfold occurrences, zsum_by. cbn. lia.
  - rewrite zsum_by_cons, <- IH, <- (zsum_by_single w y ds Hnd), <- zsum_by_add by (try (apply Hin; left); intros; apply Hin; by right).
    apply zsum_by_ext. intros d _. unfold occurrences. rewrite zsum_by_cons. destruct (decide (y = d)); lia.
Qed.
End Count.
