(* ===== verification/Hashes.v ===== *)
(** [crypto/sha256] and [hash/crc32] (IEEE), executable, with published test
    vectors.  The consensus fork digests and the EIP-2124 execution fork ids are
    computed with them. *)

From stdpp Require Import base list strings numbers.
From Stdlib Require Import ZArith Lia.
From S2P Require Import Prelude GoLib.

(** * crypto/sha256 *)

Definition w32 (x : Z) : Z := Z.land x 4294967295.
Definition rotr (n x : Z) : Z := Z.lor (Z.shiftr x n) (w32 (Z.shiftl x (32 - n))).

Definition sha_k : list Z :=
  [1116352408; 1899447441; 3049323471; 3921009573; 961987163; 1508970993;
   2453635748; 2870763221; 3624381080; 310598401; 607225278; 1426881987;
   1925078388; 2162078206; 2614888103; 3248222580; 3835390401; 4022224774;
   264347078; 604807628; 770255983; 1249150122; 1555081692; 1996064986;
   2554220882; 2821834349; 2952996808; 3210313671; 3336571891; 3584528711;
   113926993; 338241895; 666307205; 773529912; 1294757372; 1396182291;
   1695183700; 1986661051; 2177026350; 2456956037; 2730485921; 2820302411;
   3259730800; 3345764771; 3516065817; 3600352804; 4094571909; 275423344;
   430227734; 506948616; 659060556; 883997877; 958139571; 1322822218;
   1537002063; 1747873779; 1955562222; 2024104815; 2227730452; 2361852424;
   2428436474; 2756734187; 3204031479; 3329325298].

Definition sha_h0 : list Z :=
  [1779033703; 3144134277; 1013904242; 2773480762;
   1359893119; 2600822924; 528734635; 1541459225].

Definition sha_pad (l : list Z) : list Z :=
  let n := length l in
  let zeros := Z.to_nat ((55 - Z.of_nat n) mod 64) in
  l ++ [128] ++ replicate zeros 0 ++ bytes (be_put 8 (8 * Z.of_nat n)).

Fixpoint sha_words (l : list Z) : list Z :=
  match l with
  | a :: b :: c :: d :: l' => (((a * 256 + b) * 256 + c) * 256 + d) :: sha_words l'
  | _ => []
  end.

(** The message schedule, kept in reverse: [w] holds the newest word first. *)
Definition sha_extend (w : list Z) : Z :=
  let at_ i := nth i w 0 in
  let x := at_ 14%nat in
  let y := at_ 1%nat in
  let s0 := Z.lxor (Z.lxor (rotr 7 x) (rotr 18 x)) (Z.shiftr x 3) in
  let s1 := Z.lxor (Z.lxor (rotr 17 y) (rotr 19 y)) (Z.shiftr y 10) in
  w32 (at_ 15%nat + s0 + at_ 6%nat + s1).

Fixpoint sha_schedule (n : nat) (w : list Z) : list Z :=
  match n with O => w | S n' => sha_schedule n' (sha_extend w :: w) end.

Definition sha_round (st : list Z) (kw : Z * Z) : list Z :=
  match st with
  | [a; b; c; d; e; f; g; h] =>
      let s1 := Z.lxor (Z.lxor (rotr 6 e) (rotr 11 e)) (rotr 25 e) in
      let ch := Z.lxor (Z.land e f) (Z.land (Z.lxor e 4294967295) g) in
      let t1 := h + s1 + ch + fst kw + snd kw in
      let s0 := Z.lxor (Z.lxor (rotr 2 a) (rotr 13 a)) (rotr 22 a) in
      let maj := Z.lxor (Z.lxor (Z.land a b) (Z.land a c)) (Z.land b c) in
      [w32 (t1 + s0 + maj); a; b; c; w32 (d + t1); e; f; g]
  | _ => st
  end.

Definition sha_block (h : list Z) (block : list Z) : list Z :=
  let w := rev (sha_schedule 48 (rev block)) in
  zip_with (fun x y => w32 (x + y)) h (foldl sha_round h (zip sha_k w)).

Fixpoint sha_blocks (fuel : nat) (h : list Z) (words : list Z) : list Z :=
  match fuel, words with
  | O, _ | _, [] => h
  | S f, _ => sha_blocks f (sha_block h (take 16 words)) (drop 16 words)
  end.

Definition word_bytes (w : Z) : list Z :=
  [Z.shiftr w 24; Z.land (Z.shiftr w 16) 255; Z.land (Z.shiftr w 8) 255; Z.land w 255].

(** [sha256.Sum256]: one block per fuel step, and every block has 16 words. *)
Definition sha256 (s : string) : string :=
  let words := sha_words (sha_pad (bytes s)) in
  of_bytes (concat (map word_bytes (sha_blocks (length words) sha_h0 words))).

Example sha256_empty :
  hex_encode (sha256 "") = "e3b0c44298fc1c149afbf4c8996fb92427ae41e4649b934ca495991b7852b855".
Proof. vm_compute. reflexivity. Qed.

Example sha256_abc :
  hex_encode (sha256 "abc") = "ba7816bf8f01cfea414140de5dae2223b00361a396177a9cb410ff61f20015ad".
Proof. vm_compute. reflexivity. Qed.

Example sha256_two_blocks :
  hex_encode (sha256 "abcdbcdecdefdefgefghfghighijhijkijkljklmklmnlmnomnopnopq")
  = "248d6a61d20638b8e5c026930c3e6039a33ce45964ff2167f6ecedd419db06c1".
Proof. vm_compute. reflexivity. Qed.

(** * hash/crc32, IEEE polynomial *)

Fixpoint crc_bits (n : nat) (c : Z) : Z :=
  match n with
  | O => c
  | S n' => crc_bits n' (if Z.odd c then Z.lxor (Z.shiftr c 1) 3988292384 else Z.shiftr c 1)
  end.

(** [crc32.Update(crc, crc32.IEEETable, p)]. *)
Definition crc32_update (crc : Z) (p : string) : Z :=
  Z.lxor 4294967295
    (foldl (fun c b => crc_bits 8 (Z.lxor c b)) (Z.lxor crc 4294967295) (bytes p)).

(** [crc32.ChecksumIEEE]. *)
Definition crc32_ieee (p : string) : Z := crc32_update 0 p.

Example crc32_check : crc32_ieee "123456789" = 3421780262.
Proof. vm_compute. reflexivity. Qed.
