(* ===== verification/Consensus.v ===== *)
(** [internal/netconf/consensus.go]: a consensus network's fork and blob schedule,
    its fork digests and the networking state active at an instant.

    The schedule ([clNetwork]) is immutable after startup; the memo of the last
    computed state, which Go keeps in the same struct behind a mutex, is the
    separate [clCache].  The lazily built [digests] set is the pure function
    [compute_digests] of the schedule. *)

From stdpp Require Import base gmap strings list numbers pretty.
From Stdlib Require Import ZArith Lia Sorted.
From S2P Require Import Prelude GoLib Hashes.

(** * Data *)

Record blobParams := BlobParams { bp_epoch : Z; bp_maxBlobs : Z }.

Record clFork := ClFork { cf_name : string; cf_epoch : Z; cf_version : string }.

Record clNetwork := ClNetwork {
  cl_name : string;
  cl_gvr : string;
  cl_genesisTime : Z;
  cl_secondsPerSlot : Z;
  cl_slotsPerEpoch : Z;
  cl_forks : list clFork;
  cl_fuluEpoch : Z;
  cl_blobSchedule : list blobParams;
  cl_cancelledBPOs : list Z
}.

Record CLForkState := MkCLForkState {
  Digest : string;
  CurrentVersion : string;
  NextForkVersion : string;
  NextForkEpoch : Z;
  NextDigest : string;
  NextTransition : Time
}.

Record clCache := ClCache { stateEpoch : Z; cstate : CLForkState; stateOK : bool }.

#[export] Instance blobParams_eq_dec : EqDecision blobParams.
Proof. solve_decision. Defined.
#[export] Instance clFork_eq_dec : EqDecision clFork.
Proof. solve_decision. Defined.

#[export] Instance eta_clNetwork : Eta clNetwork := fun c =>
  ClNetwork (cl_name c) (cl_gvr c) (cl_genesisTime c) (cl_secondsPerSlot c) (cl_slotsPerEpoch c)
    (cl_forks c) (cl_fuluEpoch c) (cl_blobSchedule c) (cl_cancelledBPOs c).
#[export] Instance upd_cl_forks : Upd cl_forks. Proof. derive_upd. Defined.
#[export] Instance upd_cl_fuluEpoch : Upd cl_fuluEpoch. Proof. derive_upd. Defined.
#[export] Instance upd_cl_blobSchedule : Upd cl_blobSchedule. Proof. derive_upd. Defined.
#[export] Instance upd_cl_cancelledBPOs : Upd cl_cancelledBPOs. Proof. derive_upd. Defined.

(** * Operations *)

Fixpoint zeros (n : nat) : string :=
  match n with O => EmptyString | S n' => String (byte_of 0) (zeros n') end.

(** [copy(leaf\[:\], version)] into a zeroed 32-byte array. *)
Definition leaf32 (version : string) : string :=
  let v := stake 32 version in v +:+ zeros (32 - String.length v).

Definition forkDataRoot (version gvr : string) : string := sha256 (leaf32 version +:+ gvr).

Definition decodeVersion (raw : string) : result string :=
  match hex_decode (TrimPrefix (TrimSpace raw) "0x") with
  | Some b => if slen b =? 4 then Ok b else Err "invalid fork version %q"
  | None => Err "invalid fork version %q"
  end.

Definition epochDuration (c : clNetwork) : option Z :=
  if (cl_secondsPerSlot c =? 0) || (max_uint64 / cl_secondsPerSlot c <? cl_slotsPerEpoch c)
  then None
  else Some (wrapU64 (cl_secondsPerSlot c * cl_slotsPerEpoch c)).

Definition epochAt (c : clNetwork) (at_ : Time) : Z :=
  let unix := Unix at_ in
  if (unix <=? 0) || (unix <=? cl_genesisTime c) then 0
  else match epochDuration c with
       | None => 0
       | Some secondsPerEpoch => (unix - cl_genesisTime c) / secondsPerEpoch
       end.

Definition timeAtEpoch (c : clNetwork) (epoch : Z) : Time :=
  match epochDuration c with
  | None => time_Unix max_int64
  | Some secondsPerEpoch =>
      if (max_int64 <? cl_genesisTime c) || ((max_int64 - cl_genesisTime c) / secondsPerEpoch <? epoch)
      then time_Unix max_int64
      else time_Unix (wrapI64 (wrapU64 (cl_genesisTime c + epoch * secondsPerEpoch)))
  end.

Definition forkAt (c : clNetwork) (epoch : Z) : result clFork :=
  match cl_forks c with
  | [] => Err "network %q has no consensus fork schedule"
  | f :: fs => Ok (last_until cf_epoch epoch f fs)
  end.

Definition bpoCancelled (c : clNetwork) (epoch : Z) : bool :=
  existsb (Z.eqb epoch) (cl_cancelledBPOs c).

Fixpoint blobAt_loop (c : clNetwork) (epoch : Z) (active : option blobParams) (l : list blobParams)
  : option blobParams :=
  match l with
  | [] => active
  | bp :: l' =>
      if bpoCancelled c (bp_epoch bp) then blobAt_loop c epoch active l'
      else if epoch <? bp_epoch bp then active
      else blobAt_loop c epoch (Some bp) l'
  end.

Definition blobAt (c : clNetwork) (epoch : Z) : result blobParams :=
  match blobAt_loop c epoch None (cl_blobSchedule c) with
  | None => Err "network %q has no blob parameters for epoch %d"
  | Some active => Ok active
  end.

(** The blob loop of [transitions]: [n] numbers every BPO, also the cancelled ones. *)
Fixpoint transitions_loop (c : clNetwork) (n : Z) (out : list clFork) (l : list blobParams)
  : result (list clFork) :=
  match l with
  | [] => Ok out
  | bp :: l' =>
      if (bp_epoch bp <? cl_fuluEpoch c) || existsb (fun f => cf_epoch f =? bp_epoch bp) (cl_forks c)
      then transitions_loop c n out l'
      else
        let! fork := forkAt c (bp_epoch bp) in
        let n := n + 1 in
        if bpoCancelled c (bp_epoch bp) then transitions_loop c n out l'
        else transitions_loop c n
               (out ++ [ClFork ("BPO" +:+ pretty n) (bp_epoch bp) (cf_version fork)]) l'
  end.

Definition transitions (c : clNetwork) : result (list clFork) :=
  let! out := transitions_loop c 0 (cl_forks c) (cl_blobSchedule c) in
  Ok (isort (fun a b => cf_epoch a <=? cf_epoch b) out).

Definition rawDigest (c : clNetwork) (version : string) : string :=
  stake 4 (forkDataRoot version (cl_gvr c)).

(** [for i := range digest { digest\[i\] ^= mask\[i\] }] *)
Definition xor_mask (digest mask : string) : string :=
  of_bytes (zip_with Z.lxor (bytes digest) (bytes mask)).

Definition blobMask (bp : blobParams) : string :=
  sha256 (le_put 8 (bp_epoch bp) +:+ le_put 8 (bp_maxBlobs bp)).

Definition digestAt (c : clNetwork) (epoch : Z) : result (string * string) :=
  let! fork := forkAt c epoch in
  let version := cf_version fork in
  let digest := rawDigest c version in
  if negb (cl_fuluEpoch c =? max_uint64) && (cl_fuluEpoch c <=? epoch) then
    let! bp := blobAt c epoch in
    Ok (xor_mask digest (blobMask bp), version)
  else Ok (digest, version).

(** The first regular fork after [epoch]. *)
Definition nextFork (c : clNetwork) (epoch : Z) : option clFork :=
  List.find (fun f => epoch <? cf_epoch f) (cl_forks c).

(** The first live blob entry strictly between [epoch] and [nextEpoch]. *)
Definition nextBlob (c : clNetwork) (epoch nextEpoch : Z) : option blobParams :=
  List.find (fun bp => (epoch <? bp_epoch bp) && (bp_epoch bp <? nextEpoch) && negb (bpoCancelled c (bp_epoch bp)))
    (cl_blobSchedule c).

Definition computeStateAt (c : clNetwork) (epoch : Z) : result CLForkState :=
  let! (digest, version) := digestAt c epoch in
  let '(nextEpoch, nextVersion) :=
    match nextFork c epoch with
    | Some f => (cf_epoch f, cf_version f)
    | None => (max_uint64, version)
    end in
  let '(nextEpoch, nextVersion) :=
    match nextBlob c epoch nextEpoch with
    | Some bp => (bp_epoch bp, version)
    | None => (nextEpoch, nextVersion)
    end in
  if nextEpoch =? max_uint64 then
    Ok (MkCLForkState digest version nextVersion nextEpoch (zeros 4) zeroTime)
  else
    let! (nextDigest, _) := digestAt c nextEpoch in
    Ok (MkCLForkState digest version nextVersion nextEpoch nextDigest (timeAtEpoch c nextEpoch)).

(** Returns the updated cache beside the result. *)
Definition stateAt (c : clNetwork) (k : clCache) (at_ : Time) : result CLForkState * clCache :=
  let epoch := epochAt c at_ in
  if stateOK k && (stateEpoch k =? epoch) then (Ok (cstate k), k)
  else match computeStateAt c epoch with
       | Err e => (Err e, k)
       | Ok state => (Ok state, ClCache epoch state true)
       end.

(** [compute]: the keys of the [digests] map. *)
Definition forkDigest (c : clNetwork) (fork : clFork) : list string :=
  if (cl_fuluEpoch c =? max_uint64) || (cf_epoch fork <? cl_fuluEpoch c)
  then [rawDigest c (cf_version fork)]
  else match digestAt c (cf_epoch fork) with Ok (d, _) => [d] | Err _ => [] end.

Definition blobDigest (c : clNetwork) (bp : blobParams) : list string :=
  if (bp_epoch bp <? cl_fuluEpoch c) || bpoCancelled c (bp_epoch bp) then []
  else match digestAt c (bp_epoch bp) with Ok (d, _) => [d] | Err _ => [] end.

Definition compute_digests (c : clNetwork) : list string :=
  flat_map (forkDigest c) (cl_forks c) ++ flat_map (blobDigest c) (cl_blobSchedule c).

Definition ENRForkID (s : CLForkState) : string :=
  Digest s +:+ NextForkVersion s +:+ le_put 8 (NextForkEpoch s).

(** ** Built-in networks *)

Record namedFork := NamedFork { nf_name : string; nf_epoch : Z; nf_version : string }.

Definition electraMaxBlobs : Z := 9.

(** One iteration of the fork loop; [Err] is the source's [panic]. *)
Definition compiledCL_step (acc : result clNetwork) (f : namedFork) : result clNetwork :=
  let! c := acc in
  let! version := decodeVersion (nf_version f) in
  let c := c <| cl_forks := cl_forks c ++ [ClFork (nf_name f) (nf_epoch f) version] |> in
  if (nf_name f =? "electra")%string then
    Ok (c <| cl_blobSchedule := cl_blobSchedule c ++ [BlobParams (nf_epoch f) electraMaxBlobs] |>)
  else if (nf_name f =? "fulu")%string then Ok (c <| cl_fuluEpoch := nf_epoch f |>)
  else Ok c.

Definition compiledCL (name gvr : string) (genesisTime : Z) (forks : list namedFork) (bpos : list blobParams)
  : result clNetwork :=
  match hex_decode gvr with
  | Some root =>
      if slen root =? 32 then
        let c := ClNetwork name root genesisTime 12 32 [] max_uint64 [] [] in
        let! c := foldl compiledCL_step (Ok c) forks in
        Ok (c <| cl_blobSchedule := cl_blobSchedule c ++ bpos |>)
      else Err "netconf: %s genesis validators root %q"
  | None => Err "netconf: %s genesis validators root %q"
  end.

Definition must (r : result clNetwork) : clNetwork :=
  match r with Ok c => c | Err _ => ClNetwork "" "" 0 0 0 [] max_uint64 [] [] end.

Definition mainnetCL : clNetwork := must (compiledCL "mainnet"
  "4b363db94e286120d76eb905340fdd4e54bfe9f06bf33ff6cf5ad27f511bfe95" 1606824023
  [NamedFork "phase0" 0 "00000000"; NamedFork "altair" 74240 "01000000"; NamedFork "bellatrix" 144896 "02000000";
   NamedFork "capella" 194048 "03000000"; NamedFork "deneb" 269568 "04000000"; NamedFork "electra" 364032 "05000000";
   NamedFork "fulu" 411392 "06000000"]
  [BlobParams 412672 15; BlobParams 419072 21]).

Definition hoodiCL : clNetwork := must (compiledCL "hoodi"
  "212f13fc4df078b6cb7db228f1c8307566dcecf900867401a92023d7ba99cb5f" 1742213400
  [NamedFork "phase0" 0 "10000910"; NamedFork "altair" 0 "20000910"; NamedFork "bellatrix" 0 "30000910";
   NamedFork "capella" 0 "40000910"; NamedFork "deneb" 0 "50000910"; NamedFork "electra" 2048 "60000910";
   NamedFork "fulu" 50688 "70000910"]
  [BlobParams 52480 15; BlobParams 54016 21]).

Definition sepoliaCL : clNetwork := must (compiledCL "sepolia"
  "d8ea171f3c94aea21ebc42a1ed61052acf3f9209c00e4efbaaddac09ed9b8078" 1655733600
  [NamedFork "phase0" 0 "90000069"; NamedFork "altair" 50 "90000070"; NamedFork "bellatrix" 100 "90000071";
   NamedFork "capella" 56832 "90000072"; NamedFork "deneb" 132608 "90000073"; NamedFork "electra" 222464 "90000074";
   NamedFork "fulu" 272640 "90000075"; NamedFork "gloas" 353024 "90000076"]
  [BlobParams 274176 15; BlobParams 275712 21]).

(** * Well-formed schedules *)

Definition forks_ok (c : clNetwork) : bool :=
  match cl_forks c with f :: _ => cf_epoch f =? 0 | [] => false end
  && nondecreasing (map cf_epoch (cl_forks c))
  && forallb (fun f => is_uint64 (cf_epoch f)) (cl_forks c).

Definition blobs_ok (c : clNetwork) : bool :=
  nondecreasing (map bp_epoch (cl_blobSchedule c)) && forallb (fun b => is_uint64 (bp_epoch b)) (cl_blobSchedule c).

(** Fulu, when scheduled, is one of the regular forks. *)
Definition fulu_ok (c : clNetwork) : bool :=
  (cl_fuluEpoch c =? max_uint64) || existsb (fun f => cf_epoch f =? cl_fuluEpoch c) (cl_forks c).

(** A live blob entry covers Fulu. *)
Definition blobs_cover (c : clNetwork) : bool :=
  (cl_fuluEpoch c =? max_uint64) ||
  existsb (fun b => (bp_epoch b <=? cl_fuluEpoch c) && negb (bpoCancelled c (bp_epoch b))) (cl_blobSchedule c).

Definition wf_cl (c : clNetwork) : bool := forks_ok c && blobs_ok c && fulu_ok c.

Example wf_mainnet : wf_cl mainnetCL && blobs_cover mainnetCL = true.
Proof. vm_compute. reflexivity. Qed.
Example wf_hoodi : wf_cl hoodiCL && blobs_cover hoodiCL = true.
Proof. vm_compute. reflexivity. Qed.
Example wf_sepolia : wf_cl sepoliaCL && blobs_cover sepoliaCL = true.
Proof. vm_compute. reflexivity. Qed.

(** * Lookup lemmas *)

Section Lookup.
Context (c : clNetwork) (Hwf : wf_cl c = true).

Lemma wf_forks : by_key cf_epoch (cl_forks c) /\ exists f fs, cl_forks c = f :: fs /\ cf_epoch f = 0.
Proof using Hwf.
  unfold wf_cl, forks_ok in Hwf. boolify. split; [by apply nondecreasing_by_key|].
  destruct (cl_forks c) as [|f fs]; [done|]. boolify. eauto.
Qed.

Lemma wf_blobs : by_key bp_epoch (cl_blobSchedule c).
Proof using Hwf. unfold wf_cl, blobs_ok in Hwf. boolify. by apply nondecreasing_by_key. Qed.

Lemma wf_fulu : cl_fuluEpoch c = max_uint64 \/ exists f, f ∈ cl_forks c /\ cf_epoch f = cl_fuluEpoch c.
Proof using Hwf.
  unfold wf_cl, fulu_ok in Hwf. boolify. destruct H0 as [H0|H0]; boolify; [by left|right].
  apply existsb_elem in H0 as (f & Hf & He). boolify. eauto.
Qed.

Lemma forkAt_spec e :
  exists f0, cf_epoch f0 = 0 /\ f0 ∈ cl_forks c /\
    forkAt c e = Ok (last_match (fun f => cf_epoch f <=? e) f0 (cl_forks c)).
Proof using Hwf.
  destruct wf_forks as [Hs (f & fs & Hf & H0)]. exists f. rewrite Hf in *. split; [done|].
  split; [left|]. unfold forkAt. rewrite Hf.
  rewrite last_until_last_match by by apply StronglySorted_inv in Hs as [? _].
  change (last_match (fun x => cf_epoch x <=? e) f (f :: fs)) with
    (last_match (fun x => cf_epoch x <=? e) (if cf_epoch f <=? e then f else f) fs).
  by destruct (cf_epoch f <=? e).
Qed.

(** The active fork is a fork of the schedule, already active from epoch 0 on, and the latest. *)
Lemma forkAt_active e :
  0 <= e ->
  exists f, forkAt c e = Ok f /\ f ∈ cl_forks c /\ cf_epoch f <= e /\
    forall g, g ∈ cl_forks c -> cf_epoch g <= e -> cf_epoch g <= cf_epoch f.
Proof using Hwf.
  intros He. destruct (forkAt_spec e) as (f0 & H0 & Hin & ->).
  destruct wf_forks as [Hs _]. eexists. split; [done|].
  pose proof (fun x => last_match_max cf_epoch e f0 (cl_forks c) x Hs) as Hm.
  destruct (Hm f0 Hin) as [? Hl]; [lia|]. split; [done|]. split; [lia|].
  intros g Hg Hge. destruct (Hm g Hg Hge) as [? _]. lia.
Qed.

Lemma forkAt_same e e' :
  e <= e' -> (forall f, f ∈ cl_forks c -> ~ (e < cf_epoch f <= e')) -> forkAt c e = forkAt c e'.
Proof using Hwf.
  intros Hle Hno. destruct wf_forks as [Hs (f & fs & Hf & H0)]. unfold forkAt. rewrite Hf in *.
  apply StronglySorted_inv in Hs as [Hs _]. f_equal. rewrite !last_until_last_match by done.
  apply last_match_ext. intros x Hx. specialize (Hno x ltac:(by right)).
  destruct (cf_epoch x <=? e) eqn:E, (cf_epoch x <=? e') eqn:E'; boolify; try done; lia.
Qed.

Definition live_upto (e : Z) (o : option blobParams) : bool :=
  match o with Some bp => negb (bpoCancelled c (bp_epoch bp)) && (bp_epoch bp <=? e) | None => false end.

Lemma blobAt_loop_spec e a l :
  by_key bp_epoch l -> blobAt_loop c e a l = last_match (live_upto e) a (map Some l).
Proof.
  intros H. revert a. induction H as [|x l Hs IH Hf]; intros a; [done|].
  rewrite fmap_cons, last_match_cons. simpl blobAt_loop. simpl live_upto.
  destruct (bpoCancelled c (bp_epoch x)); simpl; [apply IH|].
  destruct (e <? bp_epoch x) eqn:E; boolify.
  - replace (bp_epoch x <=? e) with false by (symmetry; boolify; lia).
    symmetry. apply last_match_none. intros o (b & -> & Hb)%list_elem_of_fmap. simpl.
    rewrite Forall_forall in Hf. specialize (Hf b Hb).
    apply andb_false_iff. right. boolify. lia.
  - replace (bp_epoch x <=? e) with true by (symmetry; boolify; lia). apply IH.
Qed.

Lemma blobAt_same e e' :
  e <= e' ->
  (forall b, b ∈ cl_blobSchedule c -> bpoCancelled c (bp_epoch b) = false -> ~ (e < bp_epoch b <= e')) ->
  blobAt c e = blobAt c e'.
Proof using Hwf.
  intros Hle Hno. unfold blobAt. rewrite !blobAt_loop_spec by apply wf_blobs.
  erewrite last_match_ext; [done|]. intros o (b & -> & Hb)%list_elem_of_fmap. simpl.
  destruct (bpoCancelled c (bp_epoch b)) eqn:Ec; [done|]. specialize (Hno b Hb Ec). simpl.
  destruct (bp_epoch b <=? e) eqn:E, (bp_epoch b <=? e') eqn:E'; boolify; try done; lia.
Qed.

Lemma digestAt_same e e' :
  e <= e' ->
  (forall f, f ∈ cl_forks c -> ~ (e < cf_epoch f <= e')) ->
  (forall b, b ∈ cl_blobSchedule c -> bpoCancelled c (bp_epoch b) = false -> ~ (e < bp_epoch b <= e')) ->
  digestAt c e = digestAt c e'.
Proof using Hwf.
  intros Hle Hf Hb. unfold digestAt.
  rewrite (forkAt_same e e' Hle Hf), (blobAt_same e e' Hle Hb).
  destruct (forkAt c e') as [f|]; simpl; [|done].
  destruct (cl_fuluEpoch c =? max_uint64) eqn:Em; simpl; [done|]. boolify.
  destruct wf_fulu as [?|(g & Hg & Hge)]; [lia|]. specialize (Hf g Hg).
  destruct (cl_fuluEpoch c <=? e) eqn:E1, (cl_fuluEpoch c <=? e') eqn:E2; boolify; try done; lia.
Qed.
End Lookup.

Section States.
Context (c : clNetwork) (Hwf : wf_cl c = true).

Definition live (b : blobParams) : bool := negb (bpoCancelled c (bp_epoch b)).

Lemma blobAt_loop_some e d l :
  blobAt_loop c e (Some d) l = Some (last_until bp_epoch e d (List.filter live l)).
Proof.
  revert d. induction l as [|x l IH]; intros d; simpl; [done|]. unfold live at 1.
  destruct (bpoCancelled c (bp_epoch x)); simpl; [done|]. by destruct (e <? bp_epoch x).
Qed.

Lemma blobAt_loop_none e l :
  blobAt_loop c e None l =
  match List.filter live l with
  | [] => None
  | x :: l' => if e <? bp_epoch x then None else Some (last_until bp_epoch e x l')
  end.
Proof.
  induction l as [|x l IH]; simpl; [done|]. unfold live at 1.
  destruct (bpoCancelled c (bp_epoch x)); simpl; [done|].
  destruct (e <? bp_epoch x); [done|]. apply blobAt_loop_some.
Qed.

(** The live blob entry in force at [e] is the latest live one that has started. *)
Lemma blobAt_active e b0 :
  b0 ∈ cl_blobSchedule c -> live b0 = true -> bp_epoch b0 <= e ->
  exists bp, blobAt c e = Ok bp /\ bp ∈ cl_blobSchedule c /\ live bp = true /\ bp_epoch bp <= e /\
    forall b, b ∈ cl_blobSchedule c -> live b = true -> bp_epoch b <= e -> bp_epoch b <= bp_epoch bp.
Proof using Hwf.
  intros Hin Hl He. unfold blobAt. rewrite blobAt_loop_none.
  pose proof (sorted_filter _ live _ (wf_blobs c Hwf)) as Hs.
  assert (b0 ∈ List.filter live (cl_blobSchedule c)) as H0 by (apply elem_of_lfilter; done).
  assert (forall b, b ∈ List.filter live (cl_blobSchedule c) <-> b ∈ cl_blobSchedule c /\ live b = true) as Hm
    by (intros; apply elem_of_lfilter).
  destruct (List.filter live (cl_blobSchedule c)) as [|x l]; [by apply elem_of_nil in H0|].
  pose proof (fun b => last_match_max bp_epoch e x (x :: l) b Hs) as Hmax.
  apply StronglySorted_inv in Hs as [Hs Hx]. rewrite Forall_forall in Hx.
  assert (bp_epoch x <= e) by (apply elem_of_cons in H0 as [->|H0]; [lia|specialize (Hx _ H0); lia]).
  replace (e <? bp_epoch x) with false by (symmetry; boolify; lia).
  rewrite last_until_last_match by done.
  rewrite last_match_cons in Hmax. replace (bp_epoch x <=? e) with true in Hmax by (symmetry; boolify; lia).
  eexists. split; [done|]. destruct (Hmax x) as [? Hl']; [left|done|].
  apply Hm in Hl' as [? ?]. split_and!; [done..|lia|].
  intros b Hb Hlb Hbe. apply Hmax; [by apply Hm|done].
Qed.

Context (Hcov : blobs_cover c = true).

Lemma digestAt_total e : 0 <= e -> exists d v, digestAt c e = Ok (d, v).
Proof using Hwf Hcov.
  intros He. unfold digestAt. destruct (forkAt_active c Hwf e He) as (f & -> & _). simpl.
  destruct (_ && _) eqn:E; [|eauto]. boolify.
  unfold blobs_cover in Hcov. boolify. destruct Hcov as [?|H']; [boolify; lia|].
  apply existsb_elem in H' as (b0 & Hin & H'). boolify.
  destruct (blobAt_active e b0) as (bp & -> & _); [done|unfold live; by boolify|lia|]. simpl. eauto.
Qed.

Lemma computeStateAt_total e : 0 <= e -> exists s, computeStateAt c e = Ok s.
Proof using Hwf Hcov.
  intros He. unfold computeStateAt. destruct (digestAt_total e He) as (d & v & ->). simpl.
  destruct (nextFork c e) as [f|] eqn:Ef; simpl; destruct (nextBlob c e _) as [bp|] eqn:Eb; simpl;
    try (destruct (_ =? max_uint64) eqn:Em; [eauto|]).
  - apply find_some_elem in Eb as [_ Eb]. boolify.
    destruct (digestAt_total (bp_epoch bp)) as (? & ? & ->); [lia|]. simpl. eauto.
  - apply find_some_elem in Ef as [_ Ef]. boolify.
    destruct (digestAt_total (cf_epoch f)) as (? & ? & ->); [lia|]. simpl. eauto.
  - apply find_some_elem in Eb as [_ Eb]. boolify.
    destruct (digestAt_total (bp_epoch bp)) as (? & ? & ->); [lia|]. simpl. eauto.
  - eauto.
Qed.

(** The epoch [computeStateAt] announces next. *)
Definition nextBoundary (e : Z) : Z :=
  let n := match nextFork c e with Some f => cf_epoch f | None => max_uint64 end in
  match nextBlob c e n with Some bp => bp_epoch bp | None => n end.

Lemma nextBoundary_gap e e' :
  e <= e' < nextBoundary e ->
  (forall f, f ∈ cl_forks c -> ~ (e < cf_epoch f <= e')) /\
  (forall b, b ∈ cl_blobSchedule c -> bpoCancelled c (bp_epoch b) = false -> ~ (e < bp_epoch b <= e')).
Proof using Hwf.
  intros He. unfold nextBoundary in He.
  set (n := match nextFork c e with Some f => cf_epoch f | None => max_uint64 end) in *.
  assert (e' < n) as Hn.
  { destruct (nextBlob c e n) eqn:Eb; [|lia]. apply find_some_elem in Eb as [_ Eb]. boolify. lia. }
  split.
  - intros f Hf Hef. subst n. destruct (nextFork c e) as [g|] eqn:Eg.
    + pose proof (find_least cf_epoch _ _ _ f (proj1 (wf_forks c Hwf)) Eg Hf) as Hl.
      assert (cf_epoch g <= cf_epoch f) by (apply Hl; cbv beta; boolify; lia). lia.
    + apply (find_none_elem _ _ f) in Eg; [|done]. cbv beta in Eg. boolify. lia.
  - intros b Hb Hc Heb. destruct (nextBlob c e n) as [g|] eqn:Eg.
    + pose proof (find_least bp_epoch _ _ _ b (wf_blobs c Hwf) Eg Hb) as Hl.
      assert (bp_epoch g <= bp_epoch b) by (apply Hl; cbv beta; rewrite Hc; boolify; lia). lia.
    + apply (find_none_elem _ _ b) in Eg; [|done]. cbv beta in Eg. rewrite Hc in Eg.
      apply andb_false_iff in Eg as [Eg|Eg]; [|done]. boolify. destruct Eg; boolify; lia.
Qed.

Lemma digest_stable e e' : e <= e' < nextBoundary e -> digestAt c e' = digestAt c e.
Proof using Hwf.
  intros He. destruct (nextBoundary_gap e e' He). symmetry. apply digestAt_same; [done|lia|done..].
Qed.

Lemma computeStateAt_inv e s :
  computeStateAt c e = Ok s ->
  digestAt c e = Ok (Digest s, CurrentVersion s) /\ NextForkEpoch s = nextBoundary e /\
  (NextForkEpoch s = max_uint64 \/
   exists v, digestAt c (NextForkEpoch s) = Ok (NextDigest s, v) /\
             NextTransition s = timeAtEpoch c (NextForkEpoch s)).
Proof.
  unfold computeStateAt, nextBoundary. destruct (digestAt c e) as [[d v]|]; simpl; [|done].
  destruct (nextFork c e) as [f|]; simpl; destruct (nextBlob c e _) as [bp|]; simpl;
    try (destruct (_ =? max_uint64) eqn:Em);
    try (intros [= <-]; simpl; boolify; auto; done);
    (intros ((d' & v') & Hd & [= <-])%rbind_ok; simpl; split_and!; [done..|right; eauto]).
Qed.

Lemma nextBoundary_later e : e < max_uint64 -> e < nextBoundary e.
Proof.
  intros He. unfold nextBoundary.
  destruct (nextBlob c e _) eqn:Eb; [apply find_some_elem in Eb as [_ Eb]; boolify; lia|].
  destruct (nextFork c e) eqn:Ef; [apply find_some_elem in Ef as [_ Ef]; boolify; lia|lia].
Qed.
End States.

(** ** The epoch clock *)

Definition clock_ok (c : clNetwork) : bool :=
  (0 <? cl_secondsPerSlot c) && (0 <? cl_slotsPerEpoch c) && (0 <=? cl_genesisTime c)
  && (cl_secondsPerSlot c * cl_slotsPerEpoch c <=? max_uint64).

Lemma epochDuration_some c :
  clock_ok c = true -> epochDuration c = Some (cl_secondsPerSlot c * cl_slotsPerEpoch c).
Proof.
  unfold clock_ok, epochDuration. intros H. boolify.
  replace (cl_secondsPerSlot c =? 0) with false by (symmetry; boolify; lia). simpl.
  replace (max_uint64 / cl_secondsPerSlot c <? cl_slotsPerEpoch c) with false.
  - rewrite wrapU64_id; [done|]. nia.
  - symmetry. boolify. apply Z.div_le_lower_bound; lia.
Qed.

(** Epochs whose start [time.Unix] represents without wrapping. *)
Definition start_ok (c : clNetwork) (e : Z) : bool :=
  cl_genesisTime c + e * (cl_secondsPerSlot c * cl_slotsPerEpoch c) <=? 2 ^ 62.

Lemma timeAtEpoch_exact c e :
  clock_ok c = true -> start_ok c e = true -> 0 <= e ->
  timeAtEpoch c e =
  (cl_genesisTime c + e * (cl_secondsPerSlot c * cl_slotsPerEpoch c) + unixToInternal) * Second.
Proof.
  intros Hc Hs He. unfold timeAtEpoch. rewrite epochDuration_some by done.
  unfold clock_ok, start_ok in *. boolify. set (d := cl_secondsPerSlot c * cl_slotsPerEpoch c) in *.
  assert (0 < d) by (subst d; nia). assert (0 <= e * d) by nia.
  replace (max_int64 <? cl_genesisTime c) with false by (symmetry; boolify; unfold max_int64; lia).
  replace ((max_int64 - cl_genesisTime c) / d <? e) with false.
  2: { symmetry. boolify. apply Z.div_le_lower_bound; unfold max_int64; lia. }
  simpl. rewrite wrapU64_id, wrapI64_id, time_Unix_sane; [done|..];
    unfold sane_unix, min_int64, max_int64, max_uint64; boolify; lia.
Qed.

Lemma before_epoch_iff c e t :
  clock_ok c = true -> start_ok c e = true -> 0 < e -> 0 <= t / Second <= 2 ^ 62 ->
  Before t (timeAtEpoch c e) = true <-> epochAt c t < e.
Proof.
  intros Hc Hs He Ht. unfold Before. rewrite Z.ltb_lt, (timeAtEpoch_exact c e) by (done || lia).
  unfold epochAt. rewrite epochDuration_some, Unix_sane_eq by done.
  unfold clock_ok, start_ok in *. boolify. set (d := cl_secondsPerSlot c * cl_slotsPerEpoch c) in *.
  assert (0 < d) by (subst d; nia). assert (0 < e * d) by nia.
  assert (t < (cl_genesisTime c + e * d + unixToInternal) * Second <->
          t / Second < cl_genesisTime c + e * d + unixToInternal) as ->.
  { unfold Second. split; intros; [apply Z.div_lt_upper_bound; lia|].
    pose proof (Z.mul_succ_div_gt t 1000000000). lia. }
  set (u := t / Second - unixToInternal).
  destruct ((u <=? 0) || (u <=? cl_genesisTime c)) eqn:E; boolify.
  - split; [lia|]. intros _. destruct E; boolify; lia.
  - split; intros.
    + apply Z.div_lt_upper_bound; lia.
    + assert (u - cl_genesisTime c < e * d); [|lia].
      pose proof (Z.mul_succ_div_gt (u - cl_genesisTime c) d). nia.
Qed.

Lemma epochAt_mono c a b :
  clock_ok c = true -> 0 <= a / Second <= 2 ^ 62 -> 0 <= b / Second <= 2 ^ 62 -> a <= b ->
  0 <= epochAt c a <= epochAt c b /\ epochAt c b < max_uint64.
Proof.
  intros Hc Ha Hb Hab. unfold epochAt. rewrite epochDuration_some, !Unix_sane_eq by done.
  unfold clock_ok in Hc. boolify. set (d := cl_secondsPerSlot c * cl_slotsPerEpoch c) in *.
  assert (0 < d) by (subst d; nia).
  assert (a / Second <= b / Second) by (apply Z.div_le_mono; unfold Second; lia).
  set (ua := a / Second) in *. set (ub := b / Second) in *.
  assert (forall x y, 0 <= x <= y -> y <= 2 ^ 62 -> 0 <= x / d <= y / d /\ y / d < max_uint64) as Hdiv.
  { intros x y Hxy Hy. split; [split; [apply Z.div_pos; lia|apply Z.div_le_mono; lia]|].
    apply Z.le_lt_trans with y; [|unfold max_uint64; lia]. apply Z.div_le_upper_bound; nia. }
  destruct ((ua - unixToInternal <=? 0) || _) eqn:E1, ((ub - unixToInternal <=? 0) || _) eqn:E2; boolify.
  - unfold max_uint64. lia.
  - destruct (Hdiv 0 (ub - unixToInternal - cl_genesisTime c)) as [Hd ?]; [lia|unfold unixToInternal in *; lia|].
    rewrite Z.div_0_l in Hd by lia. done.
  - exfalso. destruct E2; boolify; lia.
  - apply Hdiv; unfold unixToInternal in *; lia.
Qed.

(** Every scheduled epoch starts at an instant the clock represents. *)
Definition starts_ok (c : clNetwork) : bool :=
  forallb (fun f => (cf_epoch f =? max_uint64) || start_ok c (cf_epoch f)) (cl_forks c)
  && forallb (fun b => (bp_epoch b =? max_uint64) || start_ok c (bp_epoch b)) (cl_blobSchedule c).

Lemma nextBoundary_start c e :
  starts_ok c = true -> nextBoundary c e = max_uint64 \/ start_ok c (nextBoundary c e) = true.
Proof.
  unfold starts_ok, nextBoundary. intros H. boolify.
  destruct (nextBlob c e _) as [b|] eqn:Eb.
  - apply find_some_elem in Eb as [Hb _]. pose proof (forallb_elem _ _ _ H0 Hb) as Hs. cbv beta in Hs.
    boolify. destruct Hs; boolify; auto.
  - destruct (nextFork c e) as [f|] eqn:Ef; [|by left].
    apply find_some_elem in Ef as [Hf _]. pose proof (forallb_elem _ _ _ H Hf) as Hs. cbv beta in Hs.
    boolify. destruct Hs; boolify; auto.
Qed.

Lemma find_ext {A} (p q : A -> bool) l : (forall x, x ∈ l -> p x = q x) -> List.find p l = List.find q l.
Proof.
  induction l as [|x l IH]; intros H; [done|]. cbn [List.find]. rewrite (H x) by left. destruct (q x); [done|]. apply IH. intros y Hy. apply H. by right.
Qed.

(** The whole state is the same up to the next boundary. *)
Lemma state_stable c e e' : wf_cl c = true -> e <= e' < nextBoundary c e -> computeStateAt c e' = computeStateAt c e.
Proof.
  intros Hwf He. destruct (nextBoundary_gap c Hwf e e' He) as [Hf Hb]. unfold computeStateAt. rewrite (digest_stable c Hwf e e' He).
  assert (nextFork c e' = nextFork c e) as ->.
  { apply find_ext. intros f Hin. specialize (Hf f Hin). destruct (Z.ltb_spec e' (cf_epoch f)), (Z.ltb_spec e (cf_epoch f)); lia. }
  assert (forall n, nextBlob c e' n = nextBlob c e n) as Hnb.
  { intros n. apply find_ext. intros b Hin. specialize (Hb b Hin). destruct (bpoCancelled c (bp_epoch b)); [by rewrite !andb_false_r|]. specialize (Hb eq_refl).
    destruct (Z.ltb_spec e' (bp_epoch b)), (Z.ltb_spec e (bp_epoch b)); lia. }
  destruct (digestAt c e) as [[d v]|]; [|done]. cbn [rbind]. by destruct (nextFork c e) as [f|]; rewrite Hnb.
Qed.

Lemma epoch_before_transition c a b s :
  wf_cl c = true -> blobs_cover c = true -> clock_ok c = true -> starts_ok c = true ->
  0 <= a / Second <= 2 ^ 62 -> 0 <= b / Second <= 2 ^ 62 -> a <= b ->
  computeStateAt c (epochAt c a) = Ok s -> NextTransition s = 0 \/ b < NextTransition s ->
  epochAt c a <= epochAt c b < nextBoundary c (epochAt c a).
Proof.
  intros Hwf Hcov Hck Hst Ha Hb Hab Hs Hn. destruct (epochAt_mono c a b Hck Ha Hb Hab) as [Hm Hmax].
  destruct (computeStateAt_inv c _ s Hs) as (Hd & Hnext & Htr). split; [lia|].
  rewrite <- Hnext. destruct Htr as [->|(v & _ & Ht)]; [done|]. pose proof (nextBoundary_later c (epochAt c a)) as Hl.
  destruct (nextBoundary_start c (epochAt c a) Hst) as [He|He]; [rewrite Hnext, He; done|].
  rewrite <- Hnext in He, Hl. apply before_epoch_iff; [done|done|lia|done|].
  unfold Before. boolify. destruct Hn as [Hn|Hn]; [|by rewrite <- Ht].
  exfalso. rewrite Ht, timeAtEpoch_exact in Hn by (done || lia). unfold clock_ok in Hck. boolify. unfold unixToInternal, Second in Hn.
  assert (0 <= NextForkEpoch s * (cl_secondsPerSlot c * cl_slotsPerEpoch c)) by (repeat apply Z.mul_nonneg_nonneg; lia). lia.
Qed.

(** The digest does not change before the announced transition. *)
Lemma state_until_transition c a b s :
  wf_cl c = true -> blobs_cover c = true -> clock_ok c = true -> starts_ok c = true ->
  0 <= a / Second <= 2 ^ 62 -> 0 <= b / Second <= 2 ^ 62 -> a <= b ->
  computeStateAt c (epochAt c a) = Ok s -> NextTransition s = 0 \/ b < NextTransition s ->
  exists s', computeStateAt c (epochAt c b) = Ok s' /\ Digest s' = Digest s.
Proof.
  intros Hwf Hcov Hck Hst Ha Hb Hab Hs Hn.
  pose proof (epoch_before_transition c a b s Hwf Hcov Hck Hst Ha Hb Hab Hs Hn) as Hep.
  exists s. split; [|done]. rewrite <- Hs. by apply state_stable.
Qed.

(** * Properties *)

(** For a well-formed schedule whose live blob entries cover Fulu, the
    networking state exists at every epoch; its digest and version are those of
    [compute_fork_digest] at every epoch from there up to [NextForkEpoch], which
    lies strictly ahead, and [NextDigest] is the digest at that epoch.  So the
    state cached per epoch announces exactly the next change. *)
Theorem computeStateAt_spec c e :
  wf_cl c = true -> blobs_cover c = true -> 0 <= e < max_uint64 ->
  exists s, computeStateAt c e = Ok s /\ e < NextForkEpoch s /\
    (forall e', e <= e' < NextForkEpoch s -> digestAt c e' = Ok (Digest s, CurrentVersion s)) /\
    (NextForkEpoch s = max_uint64 \/
     exists v, digestAt c (NextForkEpoch s) = Ok (NextDigest s, v) /\
               NextTransition s = timeAtEpoch c (NextForkEpoch s)).
Proof.
  intros Hwf Hcov He. destruct (computeStateAt_total c Hwf Hcov e) as [s Hs]; [lia|].
  exists s. destruct (computeStateAt_inv c e s Hs) as (Hd & Hn & Hnext). rewrite Hn in *.
  split_and!; [done|apply nextBoundary_later; lia| |done].
  intros e' He'. rewrite (digest_stable c Hwf e e') by done. done.
Qed.

Lemma computeStateAt_spec_witness :
  exists s, computeStateAt mainnetCL 411392 = Ok s /\ 411392 < NextForkEpoch s /\
    (forall e', 411392 <= e' < NextForkEpoch s -> digestAt mainnetCL e' = Ok (Digest s, CurrentVersion s)) /\
    (NextForkEpoch s = max_uint64 \/
     exists v, digestAt mainnetCL (NextForkEpoch s) = Ok (NextDigest s, v) /\
               NextTransition s = timeAtEpoch mainnetCL (NextForkEpoch s)).
Proof.
  apply (computeStateAt_spec mainnetCL 411392); [vm_compute; reflexivity..|].
  split; [lia|reflexivity].
Defined.

(** Every digest a peer of the network can legitimately advertise is one
    [ClassifyCL] recognises: [compute]'s set contains the digest at every epoch. *)
Theorem digest_recognised c e :
  wf_cl c = true -> blobs_cover c = true -> 0 <= e ->
  exists d v, digestAt c e = Ok (d, v) /\ d ∈ compute_digests c.
Proof.
  intros Hwf Hcov He. destruct (digestAt_total c Hwf Hcov e He) as (d & v & Hd). exists d, v.
  split; [done|]. unfold compute_digests. rewrite elem_of_app, !elem_of_flat_map.
  destruct (forkAt_active c Hwf e He) as (f & Hf & Hin & Hfe & Hmax).
  destruct ((cl_fuluEpoch c =? max_uint64) || (cf_epoch f <? cl_fuluEpoch c)) eqn:E.
  - left. exists f. split; [done|]. unfold forkDigest. rewrite E. apply list_elem_of_singleton.
    unfold digestAt in Hd. rewrite Hf in Hd. simpl in Hd.
    destruct (_ && _) eqn:E2; [|congruence]. exfalso. boolify.
    destruct E as [?|?]; boolify; [done|]. destruct (wf_fulu c Hwf) as [?|(g & Hg & Hge)]; [done|].
    specialize (Hmax g Hg). lia.
  - boolify. assert (exists b0, b0 ∈ cl_blobSchedule c /\ live c b0 = true /\ bp_epoch b0 <= e) as (b0 & Hb0 & Hl0 & He0).
    { unfold blobs_cover in Hcov. boolify. destruct Hcov as [?|Hb]; [boolify; done|].
      apply existsb_elem in Hb as (b0 & ? & Hb). boolify. exists b0. unfold live.
      split_and!; [done|by boolify|lia]. }
    destruct (blobAt_active c Hwf e b0) as (bp & Hbp & Hbin & Hbl & Hbe & Hbmax); [done..|].
    unfold live in Hbl. apply negb_true_iff in Hbl.
    assert (forall e', cf_epoch f <= e' -> bp_epoch bp <= e' -> e' <= e -> digestAt c e' = digestAt c e) as Hsame.
    { intros e' ? ? ?. apply digestAt_same; [done..| |].
      - intros g Hg ?. specialize (Hmax g Hg). lia.
      - intros b Hb Hc ?. specialize (Hbmax b Hb). unfold live in Hbmax. rewrite Hc in Hbmax.
        specialize (Hbmax eq_refl). lia. }
    destruct (Z_le_gt_dec (bp_epoch bp) (cf_epoch f)).
    + left. exists f. split; [done|]. unfold forkDigest.
      replace (_ || _) with false by (symmetry; apply orb_false_iff; split; boolify; done).
      rewrite (Hsame (cf_epoch f)), Hd by lia. left.
    + right. exists bp. split; [done|]. unfold blobDigest. rewrite Hbl.
      replace (bp_epoch bp <? cl_fuluEpoch c) with false by (symmetry; boolify; lia). simpl.
      rewrite (Hsame (bp_epoch bp)), Hd by lia. left.
Qed.

Lemma digest_recognised_witness :
  exists d v, digestAt mainnetCL 412672 = Ok (d, v) /\ d ∈ compute_digests mainnetCL.
Proof. apply (digest_recognised mainnetCL 412672); [vm_compute; reflexivity..|lia]. Defined.

(** The epoch clock and its inverse agree: an instant is before the start of
    a positive epoch exactly when [epochAt] still reports an earlier epoch. *)
Theorem epochAt_timeAtEpoch c e t :
  clock_ok c = true -> start_ok c e = true -> 0 < e -> 0 <= t / Second <= 2 ^ 62 ->
  Before t (timeAtEpoch c e) = true <-> epochAt c t < e.
Proof. apply before_epoch_iff. Qed.

Lemma epochAt_timeAtEpoch_witness :
  Before (time_Unix 1746612310) (timeAtEpoch mainnetCL 364032) = true <->
  epochAt mainnetCL (time_Unix 1746612310) < 364032.
Proof.
  apply (epochAt_timeAtEpoch mainnetCL 364032); [vm_compute; reflexivity..|].
  vm_compute. split; discriminate.
Defined.

(** The memo holds the state of the epoch it names. *)
Definition cache_ok (c : clNetwork) (k : clCache) : Prop :=
  stateOK k = true -> computeStateAt c (stateEpoch k) = Ok (cstate k).

(** The per-epoch memo is transparent: through a coherent cache [stateAt]
    returns exactly what recomputing returns, errors included, and leaves the
    cache coherent, holding the requested epoch unless the computation failed. *)
Theorem stateAt_cached c k t :
  cache_ok c k ->
  fst (stateAt c k t) = computeStateAt c (epochAt c t) /\ cache_ok c (snd (stateAt c k t)) /\
  (is_ok (computeStateAt c (epochAt c t)) = true -> stateEpoch (snd (stateAt c k t)) = epochAt c t).
Proof.
  intros Hk. unfold stateAt, cache_ok in *.
  destruct (stateOK k && (stateEpoch k =? epochAt c t)) eqn:E; boolify.
  - simpl. rewrite <- H0. by rewrite Hk by done.
  - destruct (computeStateAt c (epochAt c t)) as [s|err] eqn:Hs; simpl.
    + by rewrite Hs.
    + done.
Qed.

Lemma stateAt_cached_witness :
  let k := snd (stateAt mainnetCL (ClCache 0 (MkCLForkState "" "" "" 0 "" 0) false) (time_Unix 1606824023)) in
  fst (stateAt mainnetCL k (time_Unix 1606824123)) = computeStateAt mainnetCL 0.
Proof.
  intros k. assert (cache_ok mainnetCL k) as Hk by (intros _; vm_compute; reflexivity).
  exact (proj1 (stateAt_cached mainnetCL k (time_Unix 1606824123) Hk)).
Defined.

(** The "never" sentinel of [timeAtEpoch] does not behave as never: for an
    epoch whose start overflows, the returned instant prints the Unix second
    [math.MaxInt64] but its internal counter has wrapped, so it compares before
    every instant since year 1. *)
Theorem timeAtEpoch_overflow c e t :
  clock_ok c = true -> (max_int64 - cl_genesisTime c) / (cl_secondsPerSlot c * cl_slotsPerEpoch c) < e ->
  0 <= t ->
  Unix (timeAtEpoch c e) = max_int64 /\ After t (timeAtEpoch c e) = true.
Proof.
  intros Hc He Ht. unfold timeAtEpoch. rewrite epochDuration_some by done.
  replace (_ <? e) with true by (symmetry; boolify; lia). rewrite orb_true_r.
  split; [reflexivity|]. unfold After. apply Z.ltb_lt.
  assert (time_Unix max_int64 < 0) by reflexivity. lia.
Qed.

Lemma timeAtEpoch_overflow_witness :
  Unix (timeAtEpoch mainnetCL 9223372036854775807) = max_int64 /\
  After (time_Unix 1700000000) (timeAtEpoch mainnetCL 9223372036854775807) = true.
Proof.
  apply (timeAtEpoch_overflow mainnetCL 9223372036854775807 (time_Unix 1700000000));
    [vm_compute; reflexivity..|vm_compute; discriminate].
Defined.
