(* ===== verification/ForkId.v ===== *)
(** [internal/netconf/forkid.go] and the schedule helpers of [netconf.go]: the
    execution layer's fork list and the EIP-2124 fork identifier computed from it.

    [params.ChainConfig] is third-party data that the source reads by reflection;
    it is the list of its fields' names and values, in declaration order.  The
    genesis block is known by its hash and timestamp. *)

From stdpp Require Import base gmap strings list numbers sorting.
From Stdlib Require Import ZArith Lia Sorted Ascii.
From S2P Require Import Prelude GoLib Hashes.

(** * Data *)

Record elForkTime := ElForkTime { ef_name : string; ef_time : Z }.
#[export] Instance elForkTime_eq_dec : EqDecision elForkTime.
Proof. solve_decision. Defined.

(** [forkid.ID] of go-ethereum: [Hash \[4\]byte; Next uint64]. *)
Record forkID := ForkID { fid_Hash : string; fid_Next : Z }.
#[export] Instance forkID_eq_dec : EqDecision forkID.
Proof. solve_decision. Defined.

(** A field of [params.ChainConfig] as reflection sees it. *)
Inductive configValue :=
| BigInt (b : option Z)
| Uint64Ptr (p : option Z)
| OtherField.
Abbreviation ChainConfig := (list (string * configValue)) (only parsing).

(** * Operations *)

Definition forkHeadBlock : Z := 30000000.
Definition timestampThreshold : Z := 1438269973.

Definition checksumBytes (sum : Z) : string := be_put 4 sum.

(** [binary.BigEndian.AppendUint64(nil, fork)] folded into the running checksum. *)
Definition crc_fork (sum fork : Z) : Z := crc32_update sum (be_put 8 fork).

(** The time half of [forkIDFrom]. *)
Fixpoint forkID_times (sum : Z) (idTimes : list Z) (at_ : Z) {struct idTimes} : forkID :=
  match idTimes with
  | [] => ForkID (checksumBytes sum) 0
  | fork :: rest =>
      if at_ <? fork then ForkID (checksumBytes sum) fork
      else forkID_times (crc_fork sum fork) rest at_
  end.

(** The block half, continued by the time half. *)
Fixpoint forkID_blocks (sum : Z) (idBlocks idTimes : list Z) (at_ : Z) {struct idBlocks} : forkID :=
  match idBlocks with
  | [] => forkID_times sum idTimes at_
  | fork :: rest =>
      if forkHeadBlock <? fork then ForkID (checksumBytes sum) fork
      else forkID_blocks (crc_fork sum fork) rest idTimes at_
  end.

Definition forkIDFrom (genesisHash : string) (idBlocks idTimes : list Z) (at_ : Z) : forkID :=
  forkID_blocks (crc32_ieee genesisHash) idBlocks idTimes at_.

Definition forkBlock (f : string * configValue) : list Z :=
  if HasSuffix f.1 "Block" then
    match f.2 with BigInt (Some b) => [wrapU64 (Z.abs b)] | _ => [] end
  else [].

Definition forkBlocks (cfg : ChainConfig) : list Z :=
  match compact (isort Z.leb (flat_map forkBlock cfg)) with
  | 0 :: out => out
  | out => out
  end.

Definition forkTime (f : string * configValue) : list elForkTime :=
  if HasSuffix f.1 "Time" then
    match f.2 with Uint64Ptr (Some p) => [ElForkTime (TrimSuffix f.1 "Time") p] | _ => [] end
  else [].

Definition forkTimes (cfg : ChainConfig) : list elForkTime := flat_map forkTime cfg.

Definition idForkTimes (forks : list elForkTime) (genesis : Z) : list Z :=
  compact (isort Z.leb (List.filter (fun t => genesis <? t) (map ef_time forks))).

(** The comparison of the extra forks: by time, then by name. *)
Definition extra_leb (a b : elForkTime) : bool :=
  if ef_time a =? ef_time b then String.leb (ef_name a) (ef_name b) else ef_time a <? ef_time b.

Definition mergeELForks (geth : list elForkTime) (extras : list (list elForkTime)) : list elForkTime :=
  isort (fun a b => ef_time a <=? ef_time b) (geth ++ isort extra_leb (concat extras)).

Definition clampUnix (at_ : Time) : Z := if 0 <? Unix at_ then Unix at_ else 0.

(** [forkEraAt] over the network's [elForks]. *)
Definition forkEraAt (elForks : list elForkTime) (at_ : Time) : Z :=
  let unix := clampUnix at_ in
  foldl (fun era f => let t := wrapI64 (ef_time f) in if (t <=? unix) && (era <? t) then t else era) 0 elForks.

Definition parseHash4 (raw : string) : option string :=
  match hex_decode (TrimPrefix (ToLower (TrimSpace raw)) "0x") with
  | Some b => if slen b =? 4 then Some b else None
  | None => None
  end.

(** * Checksums *)

Definition is_u32 (x : Z) : bool := (0 <=? x) && (x <? 4294967296).

Lemma crc_xor_invol x : Z.lxor (Z.lxor 4294967295 x) 4294967295 = x.
Proof. by rewrite (Z.lxor_comm 4294967295 x), Z.lxor_assoc, Z.lxor_nilpotent, Z.lxor_0_r. Qed.

Lemma bytes_app a b : bytes (a +:+ b) = bytes a ++ bytes b.
Proof. induction a as [|c a IH]; [done|]. rewrite sapp_cons. simpl. by rewrite IH. Qed.

(** A running CRC-32 is the CRC-32 of the concatenation. *)
Lemma crc32_update_app crc a b : crc32_update (crc32_update crc a) b = crc32_update crc (a +:+ b).
Proof. unfold crc32_update. by rewrite crc_xor_invol, bytes_app, foldl_app. Qed.

(** EIP-2124's preimage: the genesis hash followed by each passed fork, big endian. *)
Definition fork_preimage (genesisHash : string) (forks : list Z) : string :=
  foldl (fun s f => s +:+ be_put 8 f) genesisHash forks.

Lemma forkID_times_preimage g passed times at_ :
  StronglySorted Z.lt times ->
  forkID_times (crc32_ieee (fork_preimage g passed)) times at_ =
  ForkID (checksumBytes (crc32_ieee (fork_preimage g (passed ++ List.filter (fun t => t <=? at_) times))))
    (default 0 (List.find (fun t => at_ <? t) times)).
Proof.
  intros H. revert passed. induction H as [|t l Hs IH Hf]; intros passed; simpl.
  - by rewrite app_nil_r.
  - destruct (at_ <? t) eqn:E; boolify.
    + replace (t <=? at_) with false by (symmetry; boolify; lia).
      replace (List.filter (fun t => t <=? at_) l) with (@nil Z); [by rewrite app_nil_r|].
      symmetry. destruct (List.filter _ l) as [|y ys] eqn:El; [done|]. exfalso.
      assert (y ∈ List.filter (fun t => t <=? at_) l) as Hy by (rewrite El; left).
      apply elem_of_lfilter in Hy as [Hy Hle]. rewrite Forall_forall in Hf. specialize (Hf y Hy).
      boolify. lia.
    + replace (t <=? at_) with true by (symmetry; boolify; lia).
      unfold crc_fork, crc32_ieee. rewrite crc32_update_app.
      change (fork_preimage g passed +:+ be_put 8 t) with (foldl (fun s f => s +:+ be_put 8 f) (fork_preimage g passed) [t]).
      unfold fork_preimage at 1. rewrite <- foldl_app. fold (fork_preimage g (passed ++ [t])).
      unfold crc32_ieee in IH. rewrite IH. by rewrite <- app_assoc.
Qed.

Lemma forkID_blocks_preimage g passed blocks times at_ :
  Forall (fun b => b <= forkHeadBlock) blocks ->
  forkID_blocks (crc32_ieee (fork_preimage g passed)) blocks times at_ =
  forkID_times (crc32_ieee (fork_preimage g (passed ++ blocks))) times at_.
Proof.
  intros H. revert passed. induction H as [|b l Hb Hl IH]; intros passed; simpl.
  - by rewrite app_nil_r.
  - replace (forkHeadBlock <? b) with false by (symmetry; boolify; lia).
    unfold crc_fork, crc32_ieee. rewrite crc32_update_app.
    change (fork_preimage g passed +:+ be_put 8 b) with (foldl (fun s f => s +:+ be_put 8 f) (fork_preimage g passed) [b]).
    unfold fork_preimage at 1. rewrite <- foldl_app. fold (fork_preimage g (passed ++ [b])).
    unfold crc32_ieee in IH. rewrite IH. by rewrite <- app_assoc.
Qed.

Lemma forkID_times_same sum times a b :
  (forall t, t ∈ times -> (a <? t) = (b <? t)) -> forkID_times sum times a = forkID_times sum times b.
Proof.
  revert sum. induction times as [|t l IH]; intros sum H; simpl; [done|].
  rewrite (H t) by left. destruct (b <? t); [done|]. apply IH. intros u Hu. apply H. by right.
Qed.

Lemma forkIDFrom_same g blocks times a b :
  (forall t, t ∈ times -> (a <? t) = (b <? t)) ->
  forkIDFrom g blocks times a = forkIDFrom g blocks times b.
Proof.
  intros H. unfold forkIDFrom. generalize (crc32_ieee g) as sum.
  induction blocks as [|x l IH]; intros sum; simpl; [by apply forkID_times_same|].
  destruct (forkHeadBlock <? x); [done|apply IH].
Qed.

(** * Fork lists *)

Lemma Zleb_total x y : (x <=? y) = false -> (y <=? x) = true.
Proof. intros. boolify. lia. Qed.
Lemma Zleb_trans x y z : (x <=? y) = true -> (y <=? z) = true -> (x <=? z) = true.
Proof. intros. boolify. lia. Qed.

Lemma isort_Z_sorted l : StronglySorted Z.le (isort Z.leb l).
Proof.
  eapply sorted_impl; [|apply (isort_sorted Z.leb Zleb_total Zleb_trans)].
  intros x y H. unfold leP in H. boolify. done.
Qed.

Lemma idForkTimes_sorted forks g : StronglySorted Z.lt (idForkTimes forks g).
Proof. apply compact_sorted, isort_Z_sorted. Qed.

Lemma elem_of_idForkTimes forks g t :
  t ∈ idForkTimes forks g <-> g < t /\ exists f, f ∈ forks /\ ef_time f = t.
Proof.
  unfold idForkTimes. rewrite elem_of_compact, elem_of_isort, elem_of_lfilter, list_elem_of_fmap.
  rewrite Z.ltb_lt. naive_solver.
Qed.

Lemma forkBlocks_sorted cfg : StronglySorted Z.lt (forkBlocks cfg).
Proof.
  unfold forkBlocks. pose proof (compact_sorted _ (isort_Z_sorted (flat_map forkBlock cfg))) as H.
  destruct (compact _) as [|[|p|p] l]; [done| |done..]. by apply StronglySorted_inv in H as [? _].
Qed.

Lemma forkBlocks_nonzero cfg b : b ∈ forkBlocks cfg -> 0 < b.
Proof.
  unfold forkBlocks. pose proof (compact_sorted _ (isort_Z_sorted (flat_map forkBlock cfg))) as H.
  assert (forall b, b ∈ compact (isort Z.leb (flat_map forkBlock cfg)) -> 0 <= b) as Hpos.
  { intros x Hx. rewrite elem_of_compact, elem_of_isort, elem_of_flat_map in Hx.
    destruct Hx as ([nm v] & _ & Hx). unfold forkBlock in Hx. simpl in Hx.
    destruct (HasSuffix nm "Block"); [|by apply elem_of_nil in Hx].
    destruct v as [[z|]|?|]; try by apply elem_of_nil in Hx.
    apply list_elem_of_singleton in Hx as ->. apply wrapU64_range. }
  destruct (compact _) as [|x l] eqn:E; [by intros ?%elem_of_nil|].
  destruct (decide (x = 0)) as [->|Hx].
  - apply StronglySorted_inv in H as [_ Hf]. rewrite Forall_forall in Hf. intros Hb. by apply Hf in Hb.
  - assert (0 <= x) by (apply Hpos; left). apply StronglySorted_inv in H as [_ Hf]. rewrite Forall_forall in Hf.
    replace (match x :: l with 0 :: out => out | out => out end) with (x :: l) by (by destruct x).
    intros [->|Hb]%elem_of_cons; [lia|]. specialize (Hf b Hb). lia.
Qed.

(** ** Eras *)

Lemma forkEra_fold unix era l :
  0 <= era <= unix ->
  let r := foldl (fun era f => let t := wrapI64 (ef_time f) in if (t <=? unix) && (era <? t) then t else era) era l in
  era <= r <= unix /\ (r = era \/ exists f, f ∈ l /\ wrapI64 (ef_time f) = r) /\
  (forall f, f ∈ l -> wrapI64 (ef_time f) <= unix -> wrapI64 (ef_time f) <= r).
Proof.
  cbv zeta. revert era. induction l as [|x l IH]; intros era He; simpl.
  - split_and!; [lia|lia|by left|]. by intros ? ?%elem_of_nil.
  - set (t := wrapI64 (ef_time x)).
    destruct ((t <=? unix) && (era <? t)) eqn:E.
    + boolify. destruct (IH t ltac:(lia)) as (? & H1 & H2). split_and!; [lia..| |].
      * right. destruct H1 as [H1|(f & ? & ?)]; [exists x; split; [left|by rewrite H1]|exists f; split; [by right|done]].
      * intros f [->|Hf]%elem_of_cons ?; [fold t; lia|by apply H2].
    + destruct (IH era He) as (? & H1 & H2). split_and!; [lia..| |].
      * destruct H1 as [->|(f & ? & ?)]; [by left|right; exists f; split; [by right|done]].
      * intros f [->|Hf]%elem_of_cons Hle; [|by apply H2]. fold t in Hle |- *.
        apply andb_false_iff in E as [?|?]; boolify; lia.
Qed.

Lemma clampUnix_nonneg t : 0 <= clampUnix t <= max_int64.
Proof.
  unfold clampUnix. destruct (0 <? Unix t) eqn:E; boolify; [|unfold max_int64; lia].
  split; [lia|]. apply wrapI64_range.
Qed.

(** The era decides every comparison of a fork time with the clock. *)
Lemma forkEraAt_same elForks a b t :
  Forall (fun f => is_uint64 (ef_time f) = true) elForks ->
  forkEraAt elForks a = forkEraAt elForks b -> 0 < t ->
  (exists f, f ∈ elForks /\ ef_time f = t) -> (clampUnix a <? t) = (clampUnix b <? t).
Proof.
  intros Hu Hab Ht (f & Hf & <-).
  assert (forall u, (clampUnix u <? ef_time f) = (forkEraAt elForks u <? ef_time f)) as Hera.
  { intros u. pose proof (clampUnix_nonneg u) as Hc. unfold forkEraAt.
    destruct (forkEra_fold (clampUnix u) 0 elForks) as (Hr & _ & Hmax); [lia|].
    set (r := foldl _ 0 elForks) in *. specialize (Hmax f Hf).
    rewrite Forall_forall in Hu. specialize (Hu f Hf). unfold is_uint64 in Hu. boolify.
    destruct (clampUnix u <? ef_time f) eqn:E; symmetry; boolify; [lia|].
    rewrite wrapI64_id in Hmax; unfold min_int64 in *; lia. }
  by rewrite !Hera, Hab.
Qed.

(** The era is a sound cache key for the fork identifier. *)
Lemma forkIDFrom_era g blocks elForks genesis a b :
  Forall (fun f => is_uint64 (ef_time f) = true) elForks -> 0 <= genesis ->
  forkEraAt elForks a = forkEraAt elForks b ->
  forkIDFrom g blocks (idForkTimes elForks genesis) (clampUnix a) =
  forkIDFrom g blocks (idForkTimes elForks genesis) (clampUnix b).
Proof.
  intros Hu Hg Hab. apply forkIDFrom_same. intros t Ht. apply elem_of_idForkTimes in Ht as [? Ht].
  apply (forkEraAt_same elForks); [done..|lia|done].
Qed.

Lemma extra_leb_total x y : extra_leb x y = false -> extra_leb y x = true.
Proof.
  unfold extra_leb. rewrite (Z.eqb_sym (ef_time y)). destruct (ef_time x =? ef_time y) eqn:E.
  - apply string_leb_total.
  - intros H. boolify. lia.
Qed.

Lemma extra_leb_trans x y z : extra_leb x y = true -> extra_leb y z = true -> extra_leb x z = true.
Proof.
  unfold extra_leb.
  destruct (ef_time x =? ef_time y) eqn:E1, (ef_time y =? ef_time z) eqn:E2; boolify.
  - replace (ef_time x =? ef_time z) with true by (symmetry; boolify; lia). apply string_leb_trans.
  - replace (ef_time x =? ef_time z) with false by (symmetry; boolify; lia). intros. boolify. lia.
  - replace (ef_time x =? ef_time z) with false by (symmetry; boolify; lia). intros. boolify. lia.
  - intros. replace (ef_time x =? ef_time z) with false by (symmetry; boolify; lia). boolify. lia.
Qed.

Lemma extra_leb_antisym x y : extra_leb x y = true -> extra_leb y x = true -> x = y.
Proof.
  unfold extra_leb. rewrite (Z.eqb_sym (ef_time y)). destruct (ef_time x =? ef_time y) eqn:E; boolify.
  - intros H1 H2. destruct x, y. simpl in *. f_equal; [by apply String.leb_antisym|done].
  - intros. boolify. lia.
Qed.

(** ** Hash text *)

Lemma hex_encode_trim s : TrimSpace (hex_encode s) = hex_encode s.
Proof.
  unfold TrimSpace. assert (trim_right (hex_encode s) = hex_encode s) as Hr.
  { induction s as [|c s IH]; simpl; [done|]. pose proof (byte_val_range c). rewrite IH.
    rewrite (is_blank_hex_digit (byte_val c mod 16)) by (apply Z.mod_pos_bound; lia).
    by destruct (hex_encode s). }
  destruct s as [|c s]; [done|]. simpl in *. pose proof (byte_val_range c).
  rewrite is_blank_hex_digit; [done|].
  split; [apply Z.div_pos; lia|apply Z.div_lt_upper_bound; lia].
Qed.

Lemma hex_digit_not_x v : 0 <= v < 16 -> hex_digit v <> "x"%char.
Proof.
  intros Hv H. apply (f_equal hex_value) in H. rewrite hex_value_digit in H by done. done.
Qed.

Lemma hex_encode_no_prefix s : TrimPrefix (hex_encode s) "0x" = hex_encode s.
Proof.
  unfold TrimPrefix, HasPrefix. destruct s as [|c s]; [done|].
  cbn [hex_encode String.prefix]. pose proof (byte_val_range c).
  destruct (ascii_dec "0" _); [|done]. destruct (ascii_dec "x" _) as [E|]; [|done].
  exfalso. symmetry in E. revert E. apply hex_digit_not_x. apply Z.mod_pos_bound. lia.
Qed.

(** * Properties *)

(** [forkIDFrom] is EIP-2124: the checksum of the genesis hash followed by
    every block fork and every passed fork time, each as eight big-endian bytes,
    and [Next] is the earliest fork time still ahead, or zero when there is none. *)
Theorem forkIDFrom_eip2124 g blocks forks genesis at_ :
  Forall (fun b => b <= forkHeadBlock) blocks ->
  let times := idForkTimes forks genesis in
  let id := forkIDFrom g blocks times at_ in
  fid_Hash id = checksumBytes (crc32_ieee (fork_preimage g (blocks ++ List.filter (fun t => t <=? at_) times))) /\
  (fid_Next id = 0 /\ (forall t, t ∈ times -> t <= at_) \/
   fid_Next id ∈ times /\ at_ < fid_Next id /\ forall t, t ∈ times -> at_ < t -> fid_Next id <= t).
Proof.
  intros Hb times id. pose proof (idForkTimes_sorted forks genesis) as Hs. fold times in Hs.
  assert (id = ForkID (checksumBytes (crc32_ieee (fork_preimage g (blocks ++ List.filter (fun t => t <=? at_) times))))
                 (default 0 (List.find (fun t => at_ <? t) times))) as ->.
  { unfold id, forkIDFrom. rewrite <- forkID_times_preimage by done. by apply (forkID_blocks_preimage g []). }
  simpl. split; [done|]. destruct (List.find _ times) as [n|] eqn:Ef; simpl.
  - right. destruct (find_some_elem _ _ _ Ef) as [Hin Hlt]. boolify. split_and!; [done..|].
    intros t Ht Hat. eapply (find_least (fun t => t)); [|exact Ef|done|cbv beta; by boolify].
    eapply sorted_impl; [|exact Hs]. simpl. lia.
  - left. split; [done|]. intros t Ht. pose proof (find_none_elem _ _ t Ef Ht) as H. cbv beta in H. boolify. done.
Qed.

Lemma forkIDFrom_eip2124_witness :
  let forks := [ElForkTime "Cancun" 1710338135; ElForkTime "Shanghai" 1681338455] in
  let times := idForkTimes forks 1438269973 in
  let id := forkIDFrom "" [1150000; 15050000] times 1700000000 in
  fid_Hash id =
    checksumBytes (crc32_ieee (fork_preimage "" ([1150000; 15050000] ++ List.filter (fun t => t <=? 1700000000) times))) /\
  (fid_Next id = 0 /\ (forall t, t ∈ times -> t <= 1700000000) \/
   fid_Next id ∈ times /\ 1700000000 < fid_Next id /\ forall t, t ∈ times -> 1700000000 < t -> fid_Next id <= t).
Proof.
  apply (forkIDFrom_eip2124 "" [1150000; 15050000]). repeat constructor; vm_compute; discriminate.
Defined.

(** [mergeELForks] keeps exactly the forks it is given, in time order, and
    its result does not depend on the order the extra forks arrive in: a genesis
    file's keys are read from a Go map, and every process must name a tied era
    alike. *)
Theorem mergeELForks_deterministic geth extras extras' :
  concat extras ≡ₚ concat extras' ->
  mergeELForks geth extras = mergeELForks geth extras' /\
  mergeELForks geth extras ≡ₚ geth ++ concat extras /\
  by_key ef_time (mergeELForks geth extras).
Proof.
  intros Hp. split_and!.
  - unfold mergeELForks. do 2 f_equal.
    apply isort_canonical; [apply extra_leb_total|apply extra_leb_trans|apply extra_leb_antisym|done].
  - unfold mergeELForks. by rewrite !isort_perm.
  - eapply sorted_impl; [|apply isort_sorted].
    + intros x y H. unfold leP in H. boolify. done.
    + intros x y. apply Zleb_total.
    + intros x y z. apply Zleb_trans.
Qed.

Lemma mergeELForks_deterministic_witness :
  mergeELForks [ElForkTime "Osaka" 10] [[ElForkTime "BPO2" 20; ElForkTime "BPO1" 20]] =
  mergeELForks [ElForkTime "Osaka" 10] [[ElForkTime "BPO1" 20; ElForkTime "BPO2" 20]].
Proof.
  apply (mergeELForks_deterministic [ElForkTime "Osaka" 10]
    [[ElForkTime "BPO2" 20; ElForkTime "BPO1" 20]] [[ElForkTime "BPO1" 20; ElForkTime "BPO2" 20]]).
  constructor.
Defined.

(** [parseHash4] reads back every four-byte hash as the code prints it, bare
    or with its [0x] prefix, and whatever it accepts prints to an equivalent
    input. *)
Theorem parseHash4_roundtrip h raw :
  (slen h = 4 -> parseHash4 (hex_encode h) = Some h /\ parseHash4 ("0x" +:+ hex_encode h) = Some h) /\
  (parseHash4 raw = Some h -> slen h = 4 /\ parseHash4 (hex_encode h) = parseHash4 raw).
Proof.
  assert (forall h, slen h = 4 -> parseHash4 (hex_encode h) = Some h) as Hplain.
  { intros s Hs. unfold parseHash4.
    by rewrite hex_encode_trim, ToLower_hex_encode, hex_encode_no_prefix, hex_decode_encode, Hs. }
  split.
  - intros Hh. split; [by apply Hplain|]. unfold parseHash4.
    assert (TrimSpace ("0x" +:+ hex_encode h) = "0x" +:+ hex_encode h) as ->.
    { unfold TrimSpace. destruct h as [|c h]; [done|]. pose proof (hex_encode_trim (String c h)) as Ht.
      unfold TrimSpace in Ht. simpl in Ht. pose proof (byte_val_range c).
      rewrite is_blank_hex_digit in Ht by (split; [apply Z.div_pos; lia|apply Z.div_lt_upper_bound; lia]).
      simpl. simpl in Ht. by rewrite Ht. }
    assert (ToLower ("0x" +:+ hex_encode h) = "0x" +:+ hex_encode h) as ->.
    { rewrite <- (ToLower_hex_encode h) at 2. reflexivity. }
    assert (TrimPrefix ("0x" +:+ hex_encode h) "0x" = hex_encode h) as -> by (by destruct h).
    by rewrite hex_decode_encode, Hh.
  - intros Hp. rewrite Hp. assert (slen h = 4) as Hh; [|by split; [done|apply Hplain]].
    unfold parseHash4 in Hp. destruct (hex_decode _) as [b|]; [|done].
    destruct (slen b =? 4) eqn:E; [|done]. boolify. congruence.
Qed.

Lemma parseHash4_roundtrip_witness :
  parseHash4 " 0xDEADbeef " = Some (of_bytes [222; 173; 190; 239]) /\
  parseHash4 (hex_encode (of_bytes [222; 173; 190; 239])) = Some (of_bytes [222; 173; 190; 239]).
Proof.
  split; [vm_compute; reflexivity|].
  apply (proj1 (parseHash4_roundtrip (of_bytes [222; 173; 190; 239]) "") eq_refl).
Defined.
