(* ===== verification/Network.v ===== *)
(** [internal/netconf/netconf.go] and [cancel.go]: the network record, its lazily
    derived execution schedule, fork currency, classification, and the
    cancellation of scheduled forks.

    The genesis block and the chain configuration are third-party data, so they
    are fields of the record; so is the registry, a list of networks in
    classification order.  [sync.Once] in [load] is the flag [nw_loaded].  The
    memos ([nw_fork], [nw_clCache], [nw_hashes]) are explicit state. *)

From stdpp Require Import base gmap strings list numbers sorting pretty.
From Stdlib Require Import ZArith Lia Sorted Ascii.
From S2P Require Import Prelude GoLib Hashes Consensus ForkId.

(** * Data *)

Record CancelledELFork := MkCancelledELFork { xel_Name : string; xel_Time : Z }.
Record CancelledCLFork := MkCancelledCLFork {
  xcl_Name : string; xcl_Epoch : Z; xcl_Version : string; xcl_MaxBlobs : Z }.
Record CancelledFork := MkCancelledFork {
  xf_Network : string; xf_Fork : string; xf_EL : option CancelledELFork; xf_CL : option CancelledCLFork }.

Record cancellation := Cancellation {
  ca_fork : string; ca_elName : string; ca_elTime : Z;
  ca_clName : string; ca_clEpoch : Z; ca_clVersion : string;
  ca_clPreDigest : string; ca_clPostDigest : string;
  ca_clRemovedFork : option clFork; ca_clRemovedBlobs : list blobParams;
  ca_elPreHash : string; ca_elPostHash : string }.
#[export] Instance eta_cancellation : Eta cancellation := fun c =>
  Cancellation (ca_fork c) (ca_elName c) (ca_elTime c) (ca_clName c) (ca_clEpoch c) (ca_clVersion c)
    (ca_clPreDigest c) (ca_clPostDigest c) (ca_clRemovedFork c) (ca_clRemovedBlobs c) (ca_elPreHash c) (ca_elPostHash c).
#[export] Instance upd_ca_elName : Upd ca_elName. Proof. derive_upd. Defined.
#[export] Instance upd_ca_elTime : Upd ca_elTime. Proof. derive_upd. Defined.
#[export] Instance upd_ca_clName : Upd ca_clName. Proof. derive_upd. Defined.
#[export] Instance upd_ca_clEpoch : Upd ca_clEpoch. Proof. derive_upd. Defined.
#[export] Instance upd_ca_clVersion : Upd ca_clVersion. Proof. derive_upd. Defined.
#[export] Instance upd_ca_clPreDigest : Upd ca_clPreDigest. Proof. derive_upd. Defined.
#[export] Instance upd_ca_clPostDigest : Upd ca_clPostDigest. Proof. derive_upd. Defined.
#[export] Instance upd_ca_clRemovedFork : Upd ca_clRemovedFork. Proof. derive_upd. Defined.
#[export] Instance upd_ca_clRemovedBlobs : Upd ca_clRemovedBlobs. Proof. derive_upd. Defined.
#[export] Instance upd_ca_elPreHash : Upd ca_elPreHash. Proof. derive_upd. Defined.
#[export] Instance upd_ca_elPostHash : Upd ca_elPostHash. Proof. derive_upd. Defined.

Definition hasEL (c : cancellation) : bool := negb (ca_elTime c =? 0).
Definition hasCL (c : cancellation) : bool := negb (ca_clName c =? "")%string.

Record timedHash := TimedHash { th_time : Z; th_hash : string }.
Record forkMemo := ForkMemo { fm_era : Z; fm_id : forkID }.
(** The genesis block [genesisFn().ToBlock()], as far as the source reads it. *)
Record genesisBlock := GenesisBlock { gb_Hash : string; gb_Time : Z; gb_Difficulty : Z }.

Record Network := MkNetwork {
  nw_Name : string; nw_NetworkID : Z; nw_ChainConfig : ChainConfig; nw_genesis : genesisBlock;
  nw_cl : option clNetwork; nw_clCache : clCache;
  nw_bootnodes : list string; nw_clBootnodes : list string;
  nw_extraELForks : list elForkTime;
  nw_cancellations : list cancellation; nw_originalCL : option clNetwork;
  nw_cancelledHashes : list timedHash; nw_cancelledELHex : list string; nw_cancelledCLHex : list string;
  nw_loaded : bool; nw_elForks : list elForkTime; nw_idBlocks : list Z; nw_idTimes : list Z;
  nw_hashes : option (list string); nw_hashAt : Time; nw_fork : option forkMemo }.
#[export] Instance eta_Network : Eta Network := fun n =>
  MkNetwork (nw_Name n) (nw_NetworkID n) (nw_ChainConfig n) (nw_genesis n) (nw_cl n) (nw_clCache n)
    (nw_bootnodes n) (nw_clBootnodes n) (nw_extraELForks n) (nw_cancellations n) (nw_originalCL n)
    (nw_cancelledHashes n) (nw_cancelledELHex n) (nw_cancelledCLHex n) (nw_loaded n) (nw_elForks n)
    (nw_idBlocks n) (nw_idTimes n) (nw_hashes n) (nw_hashAt n) (nw_fork n).
#[export] Instance upd_nw_cl : Upd nw_cl. Proof. derive_upd. Defined.
#[export] Instance upd_nw_clCache : Upd nw_clCache. Proof. derive_upd. Defined.
#[export] Instance upd_nw_cancellations : Upd nw_cancellations. Proof. derive_upd. Defined.
#[export] Instance upd_nw_originalCL : Upd nw_originalCL. Proof. derive_upd. Defined.
#[export] Instance upd_nw_cancelledHashes : Upd nw_cancelledHashes. Proof. derive_upd. Defined.
#[export] Instance upd_nw_cancelledELHex : Upd nw_cancelledELHex. Proof. derive_upd. Defined.
#[export] Instance upd_nw_cancelledCLHex : Upd nw_cancelledCLHex. Proof. derive_upd. Defined.
#[export] Instance upd_nw_loaded : Upd nw_loaded. Proof. derive_upd. Defined.
#[export] Instance upd_nw_elForks : Upd nw_elForks. Proof. derive_upd. Defined.
#[export] Instance upd_nw_idBlocks : Upd nw_idBlocks. Proof. derive_upd. Defined.
#[export] Instance upd_nw_idTimes : Upd nw_idTimes. Proof. derive_upd. Defined.
#[export] Instance upd_nw_hashes : Upd nw_hashes. Proof. derive_upd. Defined.
#[export] Instance upd_nw_hashAt : Upd nw_hashAt. Proof. derive_upd. Defined.
#[export] Instance upd_nw_fork : Upd nw_fork. Proof. derive_upd. Defined.

(** * Loading the execution schedule *)

Definition elScheduleOverrides : gmap string (list elForkTime) := ∅.

Definition compiledELForks (n : Network) : list elForkTime :=
  mergeELForks (forkTimes (nw_ChainConfig n))
    [default [] (elScheduleOverrides !! nw_Name n); nw_extraELForks n].

Definition compiledELFork (n : Network) (name : string) (at_ : Z) : bool :=
  contains_func (fun f => (ef_name f =? name)%string && (ef_time f =? at_)) (compiledELForks n).
Definition compiledELName (n : Network) (name : string) : bool :=
  contains_func (fun f => (ef_name f =? name)%string) (compiledELForks n).

(** [n.forkIDFrom], on the loaded block list. *)
Definition net_forkIDFrom (n : Network) (idTimes : list Z) (at_ : Z) : forkID :=
  forkIDFrom (gb_Hash (nw_genesis n)) (nw_idBlocks n) idTimes at_.

Definition withCancelledTime (n : Network) (cancelled : Z) : list Z :=
  if gb_Time (nw_genesis n) <? cancelled
  then compact (isort Z.leb (nw_idTimes n ++ [cancelled]))
  else nw_idTimes n.

Definition cancellation_at (n : Network) (c : cancellation) : Z :=
  if hasEL c then wrapI64 (ca_elTime c)
  else match nw_cl n with Some cl => Unix (timeAtEpoch cl (ca_clEpoch c)) | None => 0 end.

(** The first loop of [indexCancellations], on one cancellation. *)
Definition indexHashes (n : Network) (c : cancellation) : cancellation :=
  if hasEL c then
    c <| ca_elPreHash := hex_encode (fid_Hash (net_forkIDFrom n (nw_idTimes n) (ca_elTime c - 1))) |>
      <| ca_elPostHash := hex_encode (fid_Hash (net_forkIDFrom n (withCancelledTime n (ca_elTime c)) (ca_elTime c))) |>
  else c.

(** The closure [add]. *)
Definition addCancelled (n : Network) (id : forkID) (at_ : Z) : Network :=
  if negb (fid_Hash id =? fid_Hash (net_forkIDFrom n (nw_idTimes n) at_))%string
     && negb (contains_func (fun h => (th_hash h =? fid_Hash id)%string) (nw_cancelledHashes n))
  then n <| nw_cancelledHashes := nw_cancelledHashes n ++ [TimedHash at_ (fid_Hash id)] |>
         <| nw_cancelledELHex := nw_cancelledELHex n ++ [hex_encode (fid_Hash id)] |>
  else n.

Definition indexCancellation (n : Network) (c : cancellation) : Network :=
  if hasEL c then
    let withCancelled := withCancelledTime n (ca_elTime c) in
    let n := addCancelled n (net_forkIDFrom n withCancelled (ca_elTime c)) (ca_elTime c) in
    foldl (fun n f =>
             if ca_elTime c <? ef_time f
             then addCancelled n (net_forkIDFrom n withCancelled (ef_time f)) (ef_time f) else n)
      n (nw_elForks n)
  else n.

Definition indexCancellations (n : Network) : Network :=
  let first := foldl (fun m c => if hasEL c then Z.min m (ca_elTime c) else m) max_uint64 (nw_cancellations n) in
  let n := n <| nw_cancellations := map (indexHashes n) (nw_cancellations n) |> in
  if first =? max_uint64 then n
  else
    let original := compiledELForks n in
    let times := idForkTimes original (gb_Time (nw_genesis n)) in
    let n := foldl (fun n f =>
                      if first <=? ef_time f
                      then addCancelled n (net_forkIDFrom n times (ef_time f)) (ef_time f) else n)
               n original in
    foldl indexCancellation n (nw_cancellations n).

Definition cancelsFork (c : cancellation) (f : elForkTime) : bool :=
  (ca_elName c =? ef_name f)%string && (ca_elTime c =? ef_time f).

Definition load (n : Network) : Network :=
  if nw_loaded n then n
  else
    let elForks := delete_func (fun f => contains_func (fun c => cancelsFork c f) (nw_cancellations n)) (compiledELForks n) in
    indexCancellations
      (n <| nw_loaded := true |> <| nw_elForks := elForks |>
         <| nw_idBlocks := forkBlocks (nw_ChainConfig n) |>
         <| nw_idTimes := idForkTimes elForks (gb_Time (nw_genesis n)) |>).

(** * Fork identifiers *)

Definition forkIDAt (n : Network) (at_ : Z) : forkID :=
  let n := load n in net_forkIDFrom n (nw_idTimes n) at_.

Definition forkIDWithCancelledAt (n : Network) (cancelled at_ : Z) : forkID :=
  let n := load n in net_forkIDFrom n (withCancelledTime n cancelled) at_.

Definition currentForkIDAt (n : Network) (at_ : Time) : forkID := forkIDAt n (clampUnix at_).

(** Returns the network with its memo updated. *)
Definition CurrentForkIDAt (n : Network) (at_ : Time) : forkID * Network :=
  let n := load n in
  let era := forkEraAt (nw_elForks n) at_ in
  match nw_fork n with
  | Some memo =>
      if fm_era memo =? era then (fm_id memo, n)
      else let id := currentForkIDAt n at_ in (id, n <| nw_fork := Some (ForkMemo era id) |>)
  | None => let id := currentForkIDAt n at_ in (id, n <| nw_fork := Some (ForkMemo era id) |>)
  end.

Definition net_IsCurrentForkAt (n : Network) (raw : string) (at_ : Time) : bool :=
  match parseHash4 raw with
  | Some got => (got =? fid_Hash (fst (CurrentForkIDAt n at_)))%string
  | None => false
  end.

(** ** Cancelled fork ids *)

Definition cancelledELHashes (n : Network) (start end_ : Z) : list string :=
  let n := load n in
  map th_hash (List.filter (fun h => (start <=? wrapI64 (th_time h)) && (wrapI64 (th_time h) <=? end_)) (nw_cancelledHashes n)).

Definition add_digest (out : list string) (d : string) : list string :=
  if contains_func (String.eqb d) out then out else out ++ [d].

(** [None]: the source dereferences a nil schedule. *)
Definition cancelledCLDigests (n : Network) : option (list string) :=
  match nw_cl n with
  | None => None
  | Some cl =>
      let out := foldl (fun out c => if hasCL c then add_digest out (ca_clPostDigest c) else out) [] (nw_cancellations n) in
      let out :=
        match nw_originalCL n with
        | None => out
        | Some o =>
            foldl (fun out d => if contains_func (String.eqb d) (compute_digests cl) then out else add_digest out d)
              out (compute_digests o)
        end in
      Some (isort String.leb out)
  end.

Definition cancelledCLDigest (n : Network) (digest : string) : bool :=
  match nw_originalCL n with
  | Some o => contains_func (String.eqb digest) (compute_digests o)
  | None => false
  end || contains_func (fun c => hasCL c && (ca_clPostDigest c =? digest)%string) (nw_cancellations n).

(** The suffix of the era token and the first cancelled activation ahead. *)
Definition cancelledEraAt (n : Network) (at_ : Time) : string * Time :=
  foldl (fun '(b, next) c =>
           let when := time_Unix (cancellation_at n c) in
           if negb (After when at_) then (b +:+ "~" +:+ pretty (Unix when), next)
           else if IsZero next || Before when next then (b, when) else (b, next))
    ("", zeroTime) (nw_cancellations n).

(** * The classification window *)

Definition lookback : Z := 730 * 24 * 3600.
Definition ahead : Z := 365 * 24 * 3600.

Definition windowStart (n : Network) (now : Z) : Z :=
  let start := wrapI64 (gb_Time (nw_genesis n)) in
  let lb := wrapI64 (now - lookback) in
  if start <? lb then lb else start.

Definition gatherHashes (n : Network) (at_ : Time) : list string :=
  let now := Unix at_ in
  let start := windowStart n now in
  if wrapI64 (now + ahead) <? start then []
  else
    [fid_Hash (forkIDAt n (wrapU64 start))]
    ++ flat_map (fun f => let t := wrapI64 (ef_time f) in
                          if (start <=? t) && (t <=? wrapI64 (now + ahead)) then [fid_Hash (forkIDAt n (ef_time f))] else [])
         (nw_elForks n)
    ++ cancelledELHashes n start (wrapI64 (now + ahead)).

Definition RefreshClassifyWindowAt (n : Network) (at_ : Time) : Network :=
  let n := load n in n <| nw_hashes := Some (gatherHashes n at_) |> <| nw_hashAt := at_ |>.

(** [now] is the wall clock the method reads. *)
Definition Matches (n : Network) (now : Time) (id : forkID) : bool * Network :=
  let n := load n in
  let refresh := match nw_hashes n with None => true | Some _ => Hour <=? Sub now (nw_hashAt n) end in
  let n := if refresh then RefreshClassifyWindowAt n now else n in
  (contains_func (String.eqb (fid_Hash id)) (default [] (nw_hashes n)), n).

(** * The registry *)

Fixpoint Get (registry : list Network) (name : string) : result Network :=
  match registry with
  | [] => Err "unknown network %q"
  | n :: rest => if (nw_Name n =? name)%string then Ok n else Get rest name
  end.

Definition Names (registry : list Network) : list string := map nw_Name registry.

(** The state write-back replaces the network in place. *)
Fixpoint put (registry : list Network) (n : Network) : list Network :=
  match registry with
  | [] => []
  | m :: rest => if (nw_Name m =? nw_Name n)%string then n :: rest else m :: put rest n
  end.

Definition GenesisHash (n : Network) : string := gb_Hash (nw_genesis (load n)).
Definition GenesisDifficulty (n : Network) : Z := gb_Difficulty (nw_genesis (load n)).

Fixpoint split_on (c : Ascii.ascii) (acc s : string) : list string :=
  match s with
  | EmptyString => [acc]
  | String x s' => if Ascii.eqb x c then acc :: split_on c EmptyString s' else split_on c (acc +:+ String x EmptyString) s'
  end.

Fixpoint ParseNetworkList_loop (registry : list Network) (seen : list string) (parts : list string)
  : result (list string) :=
  match parts with
  | [] => Ok seen
  | p :: rest =>
      let name := TrimSpace p in
      if (name =? "")%string then ParseNetworkList_loop registry seen rest
      else
        let! _ := Get registry name in
        if contains_func (String.eqb name) seen then Err "duplicate network %q"
        else ParseNetworkList_loop registry (seen ++ [name]) rest
  end.

(** [seen] and [out] hold the same names in the source. *)
Definition ParseNetworkList (registry : list Network) (csv : string) : result (list string) :=
  let! out := ParseNetworkList_loop registry [] (split_on ","%char "" csv) in
  match out with [] => Err "must list at least one network" | _ => Ok out end.

Fixpoint Classify (registry : list Network) (now : Time) (id : forkID) : string * list Network :=
  match registry with
  | [] => ("", [])
  | n :: rest =>
      let (ok, n') := Matches n now id in
      if ok then (nw_Name n, n' :: rest)
      else let (name, rest') := Classify rest now id in (name, n' :: rest')
  end.

Definition ClassifyStatus (registry : list Network) (networkID : Z) (genesis : string) : string :=
  match List.find (fun n => (nw_NetworkID n =? networkID) && (GenesisHash n =? genesis)%string) registry with
  | Some n => nw_Name n
  | None => ""
  end.

Definition ClassifyCL (registry : list Network) (forkDigest : string) : string :=
  match List.find (fun n => match nw_cl n with
                            | None => false
                            | Some cl => contains_func (String.eqb forkDigest) (compute_digests cl) || cancelledCLDigest n forkDigest
                            end) registry with
  | Some n => nw_Name n
  | None => ""
  end.

(** The memo's write-back is not threaded through the readers of the registry. *)
Definition CLForkStateAt (registry : list Network) (name : string) (at_ : Time) : result CLForkState :=
  match Get registry name with
  | Ok n => match nw_cl n with
            | Some cl => fst (stateAt cl (nw_clCache n) at_)
            | None => Err "unknown consensus network %q"
            end
  | Err _ => Err "unknown consensus network %q"
  end.

Definition SecondsPerSlot (registry : list Network) (name : string) : result Z :=
  match Get registry name with
  | Ok n => match nw_cl n with
            | Some cl => if cl_secondsPerSlot cl =? 0 then Err "unknown consensus network %q" else Ok (cl_secondsPerSlot cl)
            | None => Err "unknown consensus network %q"
            end
  | Err _ => Err "unknown consensus network %q"
  end.

Definition IsCurrentCLForkAt (registry : list Network) (name forkHash : string) (at_ : Time) : bool :=
  match parseHash4 forkHash with
  | None => false
  | Some digest => match CLForkStateAt registry name at_ with Ok s => (digest =? Digest s)%string | Err _ => false end
  end.

Definition IsCurrentForkAt (registry : list Network) (network hash : string) (at_ : Time) : bool :=
  match Get registry network with Ok n => net_IsCurrentForkAt n hash at_ | Err _ => false end.

Definition CanonicalCurrentNextRanges (at_ : Time) : list (Z * Z) :=
  let unix := clampUnix at_ in
  let future := if timestampThreshold <? unix then unix else timestampThreshold in
  [(0, 0); (forkHeadBlock + 1, timestampThreshold); (future + 1, max_uint64)].

Definition IsCanonicalForkCompatibleAt (registry : list Network) (network raw : string) (next : Z) (at_ : Time) : bool :=
  IsCurrentForkAt registry network raw at_
  && existsb (fun r : Z * Z => (r.1 <=? next) && (next <=? r.2)) (CanonicalCurrentNextRanges at_).

Definition RowForkCurrentAt (registry : list Network) (layer network forkHash : string) (forkNext : Z) (at_ : Time) : bool :=
  if (layer =? "el")%string then IsCanonicalForkCompatibleAt registry network forkHash forkNext at_
  else if (layer =? "cl")%string then IsCurrentCLForkAt registry network forkHash at_
  else false.

Definition earlier (next t : Time) : Time :=
  if negb (IsZero t) && (IsZero next || Before t next) then t else next.

(** One requested network of [ForkEraTokenAt]. *)
Definition eraStep (registry : list Network) (at_ : Time) (acc : result (list string * Time)) (name : string)
  : result (list string * Time) :=
  let! (parts, next) := acc in
  let! n := Get registry name in
  let '(id, n) := CurrentForkIDAt n at_ in
  let! state := CLForkStateAt registry name at_ in
  let '(passed, cancelledNext) := cancelledEraAt n at_ in
  let part := name +:+ ":" +:+ hex_encode (fid_Hash id) +:+ ":" +:+ hex_encode (Digest state) +:+ passed in
  let next := earlier (earlier next (NextTransition state)) cancelledNext in
  let next := foldl (fun next f =>
                       let transition := time_Unix (wrapI64 (ef_time f)) in
                       if After transition at_ && (IsZero next || Before transition next) then transition else next)
                next (nw_elForks n) in
  Ok (parts ++ [part], next).

Definition ForkEraTokenAt (registry : list Network) (at_ : Time) (requested : list string) : result (string * Time) :=
  let requested := isort String.leb (match requested with [] => Names registry | _ => requested end) in
  let! (parts, next) := foldl (eraStep registry at_) (Ok ([], zeroTime)) requested in
  Ok (String.concat "," parts, next).

(** * Cancelling forks *)

(** [withoutFork]: the canonical schedule, whether the compiled schedule carried
    the fork, and the cancellation with what was removed. *)
Definition withoutNamed (c : clNetwork) (f : CancelledCLFork) (version : string) (out : cancellation)
  : result (clNetwork * bool * cancellation) :=
  if EqualFold (xcl_Name f) "electra" || EqualFold (xcl_Name f) "fulu" then Err "cancelling %s is not supported"
  else
    match index_func (fun x => EqualFold (cf_name x) (xcl_Name f)) (cl_forks c) with
    | Some i =>
        match cl_forks c !! i with
        | None => Err "index out of range"
        | Some x =>
            if negb (cf_epoch x =? xcl_Epoch f) || negb (cf_version x =? version)%string
            then Err "%s is scheduled at epoch %d with version %x"
            else Ok (c <| cl_forks := delete i (cl_forks c) |>
                       <| cl_blobSchedule := delete_func (fun b => bp_epoch b =? cf_epoch x) (cl_blobSchedule c) |>,
                     true,
                     out <| ca_clRemovedFork := Some x |>
                         <| ca_clRemovedBlobs := ca_clRemovedBlobs out ++ List.filter (fun b => bp_epoch b =? cf_epoch x) (cl_blobSchedule c) |>)
        end
    | None =>
        let out := out <| ca_clRemovedFork := Some (ClFork (ToLower (xcl_Name f)) (xcl_Epoch f) version) |> in
        Ok (c, false,
            if 0 <? xcl_MaxBlobs f then out <| ca_clRemovedBlobs := [BlobParams (xcl_Epoch f) (xcl_MaxBlobs f)] |> else out)
    end.

Definition withoutBPO (c compiled : clNetwork) (f : CancelledCLFork) (version : string) (out : cancellation)
  : result (clNetwork * bool * cancellation) :=
  let! forks := transitions compiled in
  match List.find (fun x => (cf_epoch x =? xcl_Epoch f) && HasPrefix (cf_name x) "BPO") forks with
  | Some x =>
      match List.find (fun b => bp_epoch b =? cf_epoch x) (cl_blobSchedule compiled) with
      | None => Err "index out of range"
      | Some bp =>
          if negb (cf_version x =? version)%string || negb (bp_maxBlobs bp =? xcl_MaxBlobs f)
          then Err "the BPO at epoch %d has version %x and max blobs %d"
          else Ok (c <| cl_cancelledBPOs := cf_epoch x :: cl_cancelledBPOs c |>, true, out)
      end
  | None =>
      if xcl_MaxBlobs f =? 0 then Err "a blob-parameter-only fork needs max_blobs"
      else Ok (c, false, out <| ca_clRemovedBlobs := [BlobParams (xcl_Epoch f) (xcl_MaxBlobs f)] |>)
  end.

Definition withoutFork (c compiled : clNetwork) (f : CancelledCLFork) (version : string) (out : cancellation)
  : result (clNetwork * bool * cancellation) :=
  if HasPrefix (ToUpper (xcl_Name f)) "BPO" then withoutBPO c compiled f version out
  else withoutNamed c f version out.

Definition emptyCancellation (fork : string) : cancellation :=
  Cancellation fork "" 0 "" 0 (zeros 4) (zeros 4) (zeros 4) None [] "" "".

Definition cancelEL (n : Network) (el : CancelledELFork) (out : cancellation) : result (cancellation * list string) :=
  if (xel_Name el =? "")%string || (xel_Time el =? 0) then Err "el needs name and time"
  else
    let out := out <| ca_elName := xel_Name el |> <| ca_elTime := xel_Time el |> in
    if compiledELFork n (xel_Name el) (xel_Time el) then Ok (out, [])
    else if compiledELName n (xel_Name el) then Err "el %s is scheduled at another time than %d"
    else Ok (out, [nw_Name n +:+ " el " +:+ xel_Name el]).

Definition cancelCL (n : Network) (cl : CancelledCLFork) (out : cancellation)
  : result (cancellation * list string * Network) :=
  match nw_cl n with
  | None => Err "network has no consensus schedule"
  | Some c =>
      if (xcl_Name cl =? "")%string || (xcl_Epoch cl =? 0) || (xcl_Epoch cl =? max_uint64)
      then Err "cl needs name and a scheduled epoch"
      else
        let! version := decodeVersion (xcl_Version cl) in
        let out := out <| ca_clName := xcl_Name cl |> <| ca_clEpoch := xcl_Epoch cl |> <| ca_clVersion := version |> in
        match nw_originalCL n with
        | None => Err "nil pointer dereference"
        | Some original =>
            let! (canonical, present, out) := withoutFork c original cl version out in
            Ok (out, if present then [] else [nw_Name n +:+ " cl " +:+ xcl_Name cl], n <| nw_cl := Some canonical |>)
        end
  end.

Definition cancel (n : Network) (c : CancelledFork) : result (cancellation * list string * Network) :=
  if (xf_Fork c =? "")%string then Err "fork name is required"
  else match xf_EL c, xf_CL c with
  | None, None => Err "an el or cl entry is required"
  | _, _ =>
      let out := emptyCancellation (xf_Fork c) in
      let! (out, absent) := match xf_EL c with Some el => cancelEL n el out | None => Ok (out, []) end in
      let! (out, absent', n) := match xf_CL c with Some cl => cancelCL n cl out | None => Ok (out, [], n) end in
      if hasEL out && hasCL out &&
         match nw_cl n with Some cl => negb (wrapI64 (ca_elTime out) =? Unix (timeAtEpoch cl (ca_clEpoch out))) | None => false end
      then Err "el time %d and cl epoch %d are different instants"
      else Ok (out, absent ++ absent', n)
  end.

(** What a node still running the cancelled fork follows. *)
Definition shadowOf (cl : clNetwork) (c : cancellation) : clNetwork :=
  let shadow :=
    match ca_clRemovedFork c with
    | Some f => cl <| cl_forks := isort (fun a b => cf_epoch a <=? cf_epoch b) (cl_forks cl ++ [f]) |>
    | None => cl <| cl_cancelledBPOs := delete_func (Z.eqb (ca_clEpoch c)) (cl_cancelledBPOs cl) |>
    end in
  match ca_clRemovedBlobs c with
  | [] => shadow
  | bs => shadow <| cl_blobSchedule := isort (fun a b => bp_epoch a <=? bp_epoch b) (cl_blobSchedule shadow ++ bs) |>
  end.

Definition cancelledDigest (cl : clNetwork) (c : cancellation) : result cancellation :=
  if hasCL c then
    let! (pre, _) := digestAt cl (ca_clEpoch c - 1) in
    let! (post, _) := digestAt (shadowOf cl c) (ca_clEpoch c) in
    Ok (c <| ca_clPreDigest := pre |> <| ca_clPostDigest := post |>)
  else Ok c.

Fixpoint rmap {A B} (f : A -> result B) (l : list A) : result (list B) :=
  match l with
  | [] => Ok []
  | x :: l' => let! y := f x in let! ys := rmap f l' in Ok (y :: ys)
  end.

Definition cancelledDigests (n : Network) : result Network :=
  match nw_cl n with
  | None => Err "nil pointer dereference"
  | Some cl =>
      let! cs := rmap (cancelledDigest cl) (nw_cancellations n) in
      let n := n <| nw_cancellations := cs |> in
      match cancelledCLDigests n with
      | None => Err "nil pointer dereference"
      | Some ds => Ok (n <| nw_cancelledCLHex := map hex_encode ds |>)
      end
  end.

Record applyState := ApplyState {
  as_nets : list Network; as_seen : list string; as_touched : list string; as_absent : list string }.

(** One entry of the list; [get] is the lookup with its refusal. *)
Definition applyOne (get : list Network -> string -> result Network) (acc : result applyState) (c : CancelledFork)
  : result applyState :=
  let! s := acc in
  let key := xf_Network c +:+ "/" +:+ ToLower (xf_Fork c) in
  if contains_func (String.eqb key) (as_seen s) then Err "cancelled fork %s: duplicate entry"
  else
    let! n := get (as_nets s) (xf_Network c) in
    let n := match nw_originalCL n, nw_cl n with None, Some cl => n <| nw_originalCL := Some cl |> | _, _ => n end in
    let! (got, missing, n) := cancel n c in
    let n := n <| nw_cancellations := isort (fun a b => cancellation_at n a <=? cancellation_at n b) (nw_cancellations n ++ [got]) |> in
    Ok (ApplyState (put (as_nets s) n) (as_seen s ++ [key]) (add_digest (as_touched s) (nw_Name n)) (as_absent s ++ missing)).

Definition applyCancellations (nets : list Network) (get : list Network -> string -> result Network)
  (list_ : list CancelledFork) : result (list Network * list string) :=
  let! s := foldl (applyOne get) (Ok (ApplyState nets [] [] [])) list_ in
  let! nets := rmap (fun n => if contains_func (String.eqb (nw_Name n)) (as_touched s) then cancelledDigests n else Ok n) (as_nets s) in
  Ok (nets, as_absent s).

Definition ApplyCancellations (registry : list Network) (list_ : list CancelledFork) : result (list Network * list string) :=
  applyCancellations registry
    (fun nets name => let! n := Get nets name in
       if nw_loaded n then Err "network already in use; apply cancellations at startup" else Ok n) list_.

Definition unloadedCopy (n : Network) : Network :=
  MkNetwork (nw_Name n) (nw_NetworkID n) (nw_ChainConfig n) (nw_genesis n)
    (match nw_originalCL n with Some o => Some o | None => nw_cl n end)
    (ClCache 0 (MkCLForkState (zeros 4) (zeros 4) (zeros 4) 0 (zeros 4) zeroTime) false)
    (nw_bootnodes n) (nw_clBootnodes n) (nw_extraELForks n) [] None [] [] [] false [] [] [] None zeroTime None.

Definition ValidateCancellations (registry : list Network) (list_ : list CancelledFork) : result unit :=
  let! _ := applyCancellations (map unloadedCopy registry) Get list_ in Ok tt.

Definition CancelledForkActivatedBetween (registry : list Network) (network layer : string) (from to : Time) : bool :=
  match Get registry network with
  | Err _ => false
  | Ok n =>
      existsb (fun c =>
        negb (((layer =? "el")%string && negb (hasEL c)) || ((layer =? "cl")%string && negb (hasCL c)))
        && (let when := time_Unix (cancellation_at n c) in After when from && negb (After when to)))
        (nw_cancellations n)
  end.

(** * Loaded networks *)

(** What [load] never changes afterwards. *)
Definition core (n : Network) :=
  (nw_Name n, nw_genesis n, nw_ChainConfig n, nw_extraELForks n, nw_cl n, nw_originalCL n,
   (nw_loaded n, nw_elForks n, nw_idBlocks n, nw_idTimes n, nw_fork n)).

Lemma addCancelled_core n id t : core (addCancelled n id t) = core n.
Proof. unfold addCancelled. by destruct (_ && _). Qed.

Lemma indexCancellation_core n c : core (indexCancellation n c) = core n.
Proof.
  unfold indexCancellation. destruct (hasEL c); [|done].
  apply (foldl_invariant (fun m => core m = core n)); [apply addCancelled_core|].
  intros m f _ Hm. destruct (_ <? _); [|done]. by rewrite addCancelled_core.
Qed.

Lemma indexCancellations_core n : core (indexCancellations n) = core n.
Proof.
  unfold indexCancellations. destruct (_ =? max_uint64); [done|].
  apply (foldl_invariant (fun m => core m = core n)).
  - apply (foldl_invariant (fun m => core m = core n)); [done|].
    intros m f _ Hm. destruct (_ <=? _); [|done]. by rewrite addCancelled_core.
  - intros m c _ Hm. by rewrite indexCancellation_core.
Qed.

Definition canonicalELForks (n : Network) : list elForkTime :=
  delete_func (fun f => contains_func (fun c => cancelsFork c f) (nw_cancellations n)) (compiledELForks n).

Lemma load_core n :
  nw_loaded n = false ->
  core (load n) =
  (nw_Name n, nw_genesis n, nw_ChainConfig n, nw_extraELForks n, nw_cl n, nw_originalCL n,
   (true, canonicalELForks n, forkBlocks (nw_ChainConfig n),
    idForkTimes (canonicalELForks n) (gb_Time (nw_genesis n)), nw_fork n)).
Proof. intros H. unfold load. rewrite H, indexCancellations_core. reflexivity. Qed.

Lemma load_loaded n : nw_loaded n = true -> load n = n.
Proof. unfold load. by intros ->. Qed.

Lemma nw_loaded_load n : nw_loaded (load n) = true.
Proof.
  destruct (nw_loaded n) eqn:E; [by rewrite load_loaded|].
  pose proof (load_core n E) as H. unfold core in H. by simplify_eq.
Qed.

Lemma load_load n : load (load n) = load n.
Proof. apply load_loaded, nw_loaded_load. Qed.

(** A loaded schedule is the one [load] derives. *)
Definition schedule_ok (n : Network) : Prop :=
  nw_loaded n = true /\ Forall (fun f => is_uint64 (ef_time f) = true) (nw_elForks n) /\
  nw_idTimes n = idForkTimes (nw_elForks n) (gb_Time (nw_genesis n)) /\ 0 <= gb_Time (nw_genesis n).

Definition configValue_ok (v : configValue) : bool :=
  match v with Uint64Ptr (Some t) => is_uint64 t | _ => true end.
(** Every time the inputs give is a [uint64]. *)
Definition inputs_ok (n : Network) : bool :=
  forallb (fun f => configValue_ok (snd f)) (nw_ChainConfig n)
  && forallb (fun f => is_uint64 (ef_time f)) (nw_extraELForks n)
  && is_uint64 (gb_Time (nw_genesis n)).

Lemma elem_of_mergeELForks f geth extras : f ∈ mergeELForks geth extras <-> f ∈ geth \/ f ∈ concat extras.
Proof. unfold mergeELForks. by rewrite elem_of_isort, elem_of_app, elem_of_isort. Qed.

Lemma compiledELForks_uint64 n f : inputs_ok n = true -> f ∈ compiledELForks n -> is_uint64 (ef_time f) = true.
Proof.
  unfold inputs_ok. intros H Hf. boolify. apply elem_of_mergeELForks in Hf as [Hf|Hf].
  - apply elem_of_flat_map in Hf as ([nm v] & Hc & Hf). unfold forkTime in Hf. simpl in Hf.
    pose proof (forallb_elem _ _ _ H Hc) as Hv. simpl in Hv.
    destruct (HasSuffix nm "Time"); [|by apply elem_of_nil in Hf].
    destruct v as [|[t|]|]; try by apply elem_of_nil in Hf. apply list_elem_of_singleton in Hf as ->. done.
  - simpl in Hf. unfold elScheduleOverrides in Hf. rewrite lookup_empty, app_nil_r in Hf. simpl in Hf.
    by eapply (forallb_elem (fun f => is_uint64 (ef_time f))).
Qed.

Lemma load_schedule_ok n : nw_loaded n = false -> inputs_ok n = true -> schedule_ok (load n).
Proof.
  intros Hl Hi. pose proof (load_core n Hl) as H. unfold core in H. injection H as _ Hg _ _ _ _ Hld Hel _ Hid _.
  unfold schedule_ok. rewrite Hld, Hel, Hid, Hg. split_and!; [done| |done|].
  - apply Forall_forall. intros f Hf. unfold canonicalELForks, delete_func in Hf.
    apply elem_of_lfilter in Hf as [Hf _]. by apply (compiledELForks_uint64 n).
  - unfold inputs_ok, is_uint64 in Hi. boolify. done.
Qed.

(** * The memo *)

Definition memo_ok (n : Network) : Prop :=
  match nw_fork n with
  | Some m => exists t, fm_era m = forkEraAt (nw_elForks n) t /\ fm_id m = currentForkIDAt n t
  | None => True
  end.

Lemma currentForkIDAt_era n a b :
  schedule_ok n -> forkEraAt (nw_elForks n) a = forkEraAt (nw_elForks n) b ->
  currentForkIDAt n a = currentForkIDAt n b.
Proof.
  intros (Hl & Hu & Ht & Hg) Hab. unfold currentForkIDAt, forkIDAt, net_forkIDFrom. rewrite load_loaded by done.
  rewrite Ht. by apply forkIDFrom_era.
Qed.

(** * The window as a set of instants *)

Lemma forkIDAt_same n a b :
  schedule_ok n -> (forall f, f ∈ nw_elForks n -> gb_Time (nw_genesis n) < ef_time f -> (a <? ef_time f) = (b <? ef_time f)) ->
  forkIDAt n a = forkIDAt n b.
Proof.
  intros (Hl & _ & Ht & _) H. unfold forkIDAt, net_forkIDFrom. rewrite load_loaded by done.
  apply forkIDFrom_same. intros t Hin. rewrite Ht in Hin. apply elem_of_idForkTimes in Hin as [? (f & ? & <-)].
  by apply H.
Qed.

(** Instants whose second count is far from the 64-bit limits. *)
Definition clock_sane (at_ : Time) : bool := (0 <=? Unix at_) && (Unix at_ <=? 2 ^ 62).
Definition times_i64 (n : Network) : bool :=
  forallb (fun f => ef_time f <=? max_int64) (nw_elForks n) && (gb_Time (nw_genesis n) <=? max_int64).

Lemma windowStart_range n at_ :
  schedule_ok n -> times_i64 n = true -> clock_sane at_ = true ->
  0 <= windowStart n (Unix at_) <= max_int64 /\ wrapI64 (Unix at_ + ahead) = Unix at_ + ahead.
Proof.
  intros (_ & _ & _ & Hg) Ht Hc. unfold times_i64, clock_sane, windowStart, lookback, ahead in *. boolify.
  rewrite (wrapI64_id (gb_Time _)), !wrapI64_id by (unfold min_int64, max_int64 in *; lia).
  destruct (_ <? _) eqn:E; boolify; unfold max_int64 in *; lia.
Qed.

(** The last boundary inside the window, or its start, has the same identifier. *)
Lemma window_boundary n start t :
  schedule_ok n -> times_i64 n = true -> 0 <= start <= t ->
  forkIDAt n t = forkIDAt n start \/
  exists f, f ∈ nw_elForks n /\ start <= ef_time f <= t /\ forkIDAt n t = forkIDAt n (ef_time f).
Proof.
  intros Hs Hi Hst. assert (Hs' := Hs). destruct Hs' as (Hl & Hu & _ & Hg).
  unfold times_i64 in Hi. boolify. rewrite Forall_forall in Hu.
  assert (forall f, f ∈ nw_elForks n -> wrapI64 (ef_time f) = ef_time f /\ 0 <= ef_time f) as Hw.
  { intros f Hf. pose proof (forallb_elem _ _ _ H Hf) as Hm. specialize (Hu f Hf). unfold is_uint64 in Hu.
    cbv beta in Hm. boolify. rewrite wrapI64_id by (unfold min_int64; lia). lia. }
  destruct (forkEra_fold t 0 (nw_elForks n)) as (Hr & Hrf & Hmax); [lia|].
  set (r := foldl _ 0 (nw_elForks n)) in *.
  assert (forall f, f ∈ nw_elForks n -> ef_time f <= t -> ef_time f <= r) as Hmax'.
  { intros f Hf ?. destruct (Hw f Hf) as [Hwf _]. specialize (Hmax f Hf). lia. }
  assert (start <= r -> (exists f, f ∈ nw_elForks n /\ ef_time f = r) -> exists f, f ∈ nw_elForks n /\ start <= ef_time f <= t /\ forkIDAt n t = forkIDAt n (ef_time f)) as Hin.
  { intros ? (f & Hf & <-). exists f. split_and!; [done|done|lia|].
    apply forkIDAt_same; [done|]. intros g Hgin Hgg. specialize (Hmax' g Hgin).
    destruct (t <? ef_time g) eqn:E; symmetry; boolify; lia. }
  destruct (Z_lt_ge_dec r start) as [Hlt|Hge].
  - left. apply forkIDAt_same; [done|]. intros g Hgin Hgg. specialize (Hmax' g Hgin).
    destruct (t <? ef_time g) eqn:E; symmetry; boolify; lia.
  - destruct Hrf as [Hr0|(f & Hf & He)].
    + left. apply forkIDAt_same; [done|]. intros g Hgin Hgg. specialize (Hmax' g Hgin).
      destruct (t <? ef_time g) eqn:E; symmetry; boolify; lia.
    + right. apply Hin; [lia|]. exists f. destruct (Hw f Hf) as [Hwf _]. split; [done|lia].
Qed.

(** ** Blob-parameter-only forks and their numbers *)

Lemma filter_keeps_all {A} (p : A -> bool) l : (forall x, x ∈ l -> p x = true) -> List.filter p l = l.
Proof.
  induction l as [|x l IH]; intros H; simpl; [done|]. rewrite H by left. f_equal. apply IH.
  intros y Hy. apply H. by right.
Qed.

Lemma transitions_loop_cancel c e n out l r :
  let c' := c <| cl_cancelledBPOs := e :: cl_cancelledBPOs c |> in
  transitions_loop c n out l = Ok r ->
  transitions_loop c' n (List.filter (fun f => negb (cf_epoch f =? e)) out) l =
  Ok (List.filter (fun f => negb (cf_epoch f =? e)) r).
Proof.
  intros c'. revert n out. induction l as [|bp l IH]; intros n out; simpl; [by intros [= ->]|].
  change (cl_fuluEpoch c') with (cl_fuluEpoch c). change (cl_forks c') with (cl_forks c).
  destruct (_ || _); [apply IH|].
  change (forkAt c' (bp_epoch bp)) with (forkAt c (bp_epoch bp)).
  destruct (forkAt c (bp_epoch bp)) as [f|]; [|done]. cbn [rbind].
  assert (bpoCancelled c' (bp_epoch bp) = (bp_epoch bp =? e) || bpoCancelled c (bp_epoch bp)) as -> by done.
  destruct (bpoCancelled c (bp_epoch bp)); [rewrite orb_true_r; apply IH|]. rewrite orb_false_r.
  intros H. specialize (IH _ _ H). rewrite List.filter_app in IH. cbn [List.filter cf_epoch] in IH.
  destruct (bp_epoch bp =? e); cbn [negb] in IH; [|exact IH]. by rewrite app_nil_r in IH.
Qed.

Lemma transitions_cancel c e l :
  (forall f, f ∈ cl_forks c -> cf_epoch f <> e) -> transitions c = Ok l ->
  transitions (c <| cl_cancelledBPOs := e :: cl_cancelledBPOs c |>) =
  Ok (List.filter (fun f => negb (cf_epoch f =? e)) l).
Proof.
  intros Hf. unfold transitions. rewrite rbind_ok. intros (out & Hout & [= <-]).
  pose proof (transitions_loop_cancel c e _ _ _ _ Hout) as H. cbv zeta in H.
  rewrite filter_keeps_all in H by (intros f Hin; boolify; by apply Hf).
  change (cl_forks (c <| cl_cancelledBPOs := _ |>)) with (cl_forks c).
  change (cl_blobSchedule (c <| cl_cancelledBPOs := _ |>)) with (cl_blobSchedule c).
  rewrite H. simpl. f_equal. apply isort_filter.
  - intros x y. apply Zleb_total.
  - intros x y z. apply Zleb_trans.
Qed.

(** ** Era tokens *)

(** [next] is set no later than [t], when [t] is set. *)
Definition reached (next t : Time) : Prop := t = 0 \/ next <> 0 /\ next <= t.

Lemma earlier_reached next t : reached (earlier next t) t /\ reached (earlier next t) next.
Proof.
  unfold earlier, reached, IsZero, Before.
  destruct (t =? 0) eqn:E; boolify; simpl; [split; [by left|]; destruct (Z.eq_dec next 0); [by left|right; lia]|].
  destruct (next =? 0) eqn:E2; boolify; simpl; [split; [right; lia|by left]|].
  destruct (t <? next) eqn:E3; boolify; simpl; split; right; lia.
Qed.

Lemma reached_trans a b t : reached a b -> reached b t -> reached a t.
Proof. unfold reached. intros [?|[? ?]] [?|[? ?]]; first [by left|right; lia]. Qed.

Definition transitionOf (f : elForkTime) : Time := time_Unix (wrapI64 (ef_time f)).

Lemma el_next_reached at_ next fs :
  0 <= at_ ->
  let r := foldl (fun next f =>
             let transition := time_Unix (wrapI64 (ef_time f)) in
             if After transition at_ && (IsZero next || Before transition next) then transition else next) next fs in
  reached r next /\ forall f, f ∈ fs -> After (transitionOf f) at_ = true -> reached r (transitionOf f).
Proof.
  intros Hat. cbv zeta. revert next. induction fs as [|f fs IH]; intros next; simpl.
  - split; [|by intros ? ?%elem_of_nil]. unfold reached. destruct (Z.eq_dec next 0); [by left|right; lia].
  - fold (transitionOf f).
    set (nx := if _ && _ then transitionOf f else next). destruct (IH nx) as [H1 H2].
    assert (reached nx next /\ (After (transitionOf f) at_ = true -> reached nx (transitionOf f))) as [H3 H4].
    { subst nx. unfold reached, After, IsZero, Before.
      destruct (at_ <? transitionOf f) eqn:E1; boolify; simpl.
      2: { split; [destruct (Z.eq_dec next 0); [by left|right; lia]|done]. }
      destruct (next =? 0) eqn:E2; boolify; simpl; [split; [by left|right; lia]|].
      destruct (transitionOf f <? next) eqn:E3; boolify; split; intros; right; lia. }
    split; [by eapply reached_trans|].
    intros g [->|Hg]%elem_of_cons Hga; [eapply reached_trans; eauto|by apply H2].
Qed.

Lemma cancelledEra_reached n at_ b next cs :
  0 <= at_ ->
  let '(b', r) := foldl (fun '(b, next) c =>
       let when := time_Unix (cancellation_at n c) in
       if negb (After when at_) then (b +:+ "~" +:+ pretty (Unix when), next)
       else if IsZero next || Before when next then (b, when) else (b, next)) (b, next) cs in
  reached r next /\
  (forall c, c ∈ cs -> After (time_Unix (cancellation_at n c)) at_ = true -> reached r (time_Unix (cancellation_at n c))).
Proof.
  intros Hat. revert b next. induction cs as [|c cs IH]; intros b next; simpl.
  - split; [|by intros ? ?%elem_of_nil]. unfold reached. destruct (Z.eq_dec next 0); [by left|right; lia].
  - set (w := time_Unix (cancellation_at n c)). unfold After, IsZero, Before in *.
    assert (forall b nx, reached nx next -> ((at_ <? w) = true -> reached nx w) ->
      let '(b', r) := foldl (fun '(b, next) c =>
           let when := time_Unix (cancellation_at n c) in
           if negb (at_ <? when) then (b +:+ "~" +:+ pretty (Unix when), next)
           else if (next =? 0) || (when <? next) then (b, when) else (b, next)) (b, nx) cs in
      reached r next /\
      (forall c', c' ∈ c :: cs -> (at_ <? time_Unix (cancellation_at n c')) = true -> reached r (time_Unix (cancellation_at n c')))) as Hk.
    { intros b' nx H1 H2. specialize (IH b' nx). destruct (foldl _ (b', nx) cs) as [b'' r]. destruct IH as [H3 H4].
      split; [by eapply reached_trans|]. intros c' [->|Hc]%elem_of_cons Hw; [|by apply H4].
      eapply reached_trans; [exact H3|by apply H2]. }
    destruct (at_ <? w) eqn:E1; simpl.
    + boolify. destruct (next =? 0) eqn:E2; boolify; simpl; [apply Hk; [left; done|right; lia]|].
      destruct (w <? next) eqn:E3; boolify; apply Hk; unfold reached; intros; right; lia.
    + apply Hk; [|done]. unfold reached. destruct (Z.eq_dec next 0); [by left|right; lia].
Qed.

Lemma cancelledEra_same n a b s next next' cs :
  (forall c, c ∈ cs -> After (time_Unix (cancellation_at n c)) a = After (time_Unix (cancellation_at n c)) b) ->
  fst (foldl (fun '(b, next) c =>
       let when := time_Unix (cancellation_at n c) in
       if negb (After when a) then (b +:+ "~" +:+ pretty (Unix when), next)
       else if IsZero next || Before when next then (b, when) else (b, next)) (s, next) cs) =
  fst (foldl (fun '(bs, next) c =>
       let when := time_Unix (cancellation_at n c) in
       if negb (After when b) then (bs +:+ "~" +:+ pretty (Unix when), next)
       else if IsZero next || Before when next then (bs, when) else (bs, next)) (s, next') cs).
Proof.
  revert s next next'. induction cs as [|c cs IH]; intros s next next' H; simpl; [done|].
  assert (forall c', c' ∈ cs -> After (time_Unix (cancellation_at n c')) a = After (time_Unix (cancellation_at n c')) b) as H'
    by (intros c' Hc; apply H; by right).
  rewrite (H c) by left. destruct (After _ b); simpl; [|by apply IH].
  destruct (IsZero next || _), (IsZero next' || _); by apply IH.
Qed.

(** A network whose schedules are well formed and whose memos are coherent. *)
Definition era_ok (n : Network) : Prop :=
  schedule_ok n /\ memo_ok n /\ forallb (fun f => ef_time f <=? 2 ^ 62) (nw_elForks n) = true /\
  exists cl, nw_cl n = Some cl /\ wf_cl cl = true /\ blobs_cover cl = true /\ clock_ok cl = true /\
    starts_ok cl = true /\ cache_ok cl (nw_clCache n).

(** Instants since 1970 whose seconds are far from the 64-bit limit. *)
Definition instant_ok (t : Time) : bool := (unixToInternal <=? t / Second) && (t / Second <=? 2 ^ 62).

Lemma clampUnix_exact t : instant_ok t = true -> clampUnix t = t / Second - unixToInternal.
Proof.
  unfold instant_ok, clampUnix. intros H. boolify. rewrite Unix_sane_eq by (unfold unixToInternal in *; lia).
  destruct (0 <? _) eqn:E; boolify; lia.
Qed.

Lemma transition_iff t f :
  instant_ok t = true -> is_uint64 (ef_time f) = true -> ef_time f <= 2 ^ 62 ->
  After (transitionOf f) t = true <-> clampUnix t < ef_time f.
Proof.
  intros Ht Hu Hf. rewrite clampUnix_exact by done. unfold After, transitionOf, is_uint64 in *. boolify.
  rewrite Z.ltb_lt, wrapI64_id by (unfold min_int64, max_int64; lia).
  rewrite time_Unix_sane by (unfold sane_unix; boolify; lia).
  pose proof (Z.mul_succ_div_gt t Second). pose proof (Z.mul_div_le t Second). unfold Second in *. lia.
Qed.

Lemma el_until_transition n a b :
  schedule_ok n -> forallb (fun f => ef_time f <=? 2 ^ 62) (nw_elForks n) = true ->
  instant_ok a = true -> instant_ok b = true -> a <= b ->
  (forall f, f ∈ nw_elForks n -> After (transitionOf f) a = true -> b < transitionOf f) ->
  currentForkIDAt n a = currentForkIDAt n b.
Proof.
  intros Hs Hi Ha Hb Hab Htr. apply forkIDAt_same; [done|]. intros f Hf _.
  assert (is_uint64 (ef_time f) = true) as Hu.
  { destruct Hs as (_ & Hu & _). rewrite Forall_forall in Hu. by apply Hu. }
  pose proof (forallb_elem _ _ _ Hi Hf) as Hle. cbv beta in Hle. boolify.
  pose proof (transition_iff a f Ha Hu Hle) as Hia. pose proof (transition_iff b f Hb Hu Hle) as Hib.
  specialize (Htr f Hf). unfold After in *. rewrite Z.ltb_lt in *.
  destruct (clampUnix a <? ef_time f) eqn:E; symmetry; boolify.
  - apply Hib, Htr, Hia. done.
  - destruct (Z_lt_ge_dec (clampUnix b) (ef_time f)) as [Hlt|]; [|lia]. apply Hib in Hlt.
    assert (a < transitionOf f) as Hc by lia. apply Hia in Hc. lia.
Qed.

Lemma CurrentForkIDAt_value n at_ :
  schedule_ok n -> memo_ok n -> exists m, CurrentForkIDAt n at_ = (currentForkIDAt n at_, n <| nw_fork := m |>).
Proof.
  intros Hs Hm. unfold CurrentForkIDAt. rewrite load_loaded by apply Hs.
  unfold memo_ok in Hm. destruct (nw_fork n) as [memo|] eqn:Ef; [|eauto].
  destruct (fm_era memo =? _) eqn:E; [|eauto]. boolify. destruct Hm as (t & Ht & ->).
  exists (Some memo). rewrite <- Ef. rewrite (currentForkIDAt_era n t at_) by (done || congruence). by destruct n.
Qed.

Lemma CLForkStateAt_value registry name n cl at_ :
  Get registry name = Ok n -> nw_cl n = Some cl -> cache_ok cl (nw_clCache n) ->
  CLForkStateAt registry name at_ = computeStateAt cl (epochAt cl at_).
Proof.
  intros Hg Hcl Hk. unfold CLForkStateAt. rewrite Hg, Hcl. unfold stateAt, cache_ok in *.
  destruct (stateOK _ && _) eqn:E; boolify.
  { simpl. rewrite <- H0. by rewrite Hk by done. }
  by destruct (computeStateAt cl (epochAt cl at_)).
Qed.

(** One network contributes the same part of the token until its own transitions. *)
Lemma eraStep_stable registry name n a b parts next parts1 next1 next' :
  Get registry name = Ok n -> era_ok n -> instant_ok a = true -> instant_ok b = true -> a <= b ->
  eraStep registry a (Ok (parts, next)) name = Ok (parts1, next1) ->
  reached next1 next /\
  (next1 = 0 \/ b < next1 -> exists next1', eraStep registry b (Ok (parts, next')) name = Ok (parts1, next1')).
Proof.
  intros Hg (Hs & Hm & Hi & cl & Hcl & Hwf & Hcov & Hck & Hst & Hk) Ha Hb Hab.
  unfold eraStep. cbn [rbind]. rewrite Hg. cbn [rbind].
  destruct (CurrentForkIDAt_value n a Hs Hm) as [ma ->]. destruct (CurrentForkIDAt_value n b Hs Hm) as [mb ->].
  rewrite !(CLForkStateAt_value registry name n cl) by done.
  destruct (computeStateAt cl (epochAt cl a)) as [s|] eqn:Ecs; cbn [rbind]; [|done].
  change (cancelledEraAt (n <| nw_fork := ma |>) a) with (cancelledEraAt n a).
  change (cancelledEraAt (n <| nw_fork := mb |>) b) with (cancelledEraAt n b).
  change (nw_elForks (n <| nw_fork := ma |>)) with (nw_elForks n).
  change (nw_elForks (n <| nw_fork := mb |>)) with (nw_elForks n).
  assert (0 <= a) as Ha0.
  { unfold instant_ok in Ha. boolify. pose proof (Z.mul_div_le a Second). unfold unixToInternal, Second in *. lia. }
  pose proof (cancelledEra_reached n a "" zeroTime (nw_cancellations n) Ha0) as Hcr.
  unfold cancelledEraAt at 1. destruct (foldl _ ("", zeroTime) (nw_cancellations n)) as [passed cn] eqn:Ec.
  destruct Hcr as [_ Hcr].
  destruct (el_next_reached a (earlier (earlier next (NextTransition s)) cn) (nw_elForks n) Ha0) as [He1 He2].
  set (r := foldl _ (earlier _ cn) (nw_elForks n)) in *. intros [= <- <-].
  destruct (earlier_reached (earlier next (NextTransition s)) cn) as [Hc1 Hc2].
  destruct (earlier_reached next (NextTransition s)) as [Hc3 Hc4].
  pose proof (reached_trans _ _ _ He1 Hc1) as Hrc. pose proof (reached_trans _ _ _ He1 Hc2) as Hre.
  pose proof (reached_trans _ _ _ Hre Hc3) as Hrs. pose proof (reached_trans _ _ _ Hre Hc4) as Hrn.
  split; [done|]. intros Hbr.
  assert (forall t, reached r t -> t = 0 \/ b < t) as Hlater.
  { intros t [?|[? ?]]; [by left|]. destruct Hbr as [?|?]; [lia|right; lia]. }
  destruct (state_until_transition cl a b s) as (s' & Hs' & Hdig); try done; [| |by apply Hlater|].
  { unfold instant_ok in Ha. boolify. unfold unixToInternal in *. lia. }
  { unfold instant_ok in Hb. boolify. unfold unixToInternal in *. lia. }
  rewrite Hs'. cbn [rbind]. destruct (cancelledEraAt n b) as [passed' cn'] eqn:Ec'.
  eexists. rewrite Hdig. rewrite <- (el_until_transition n a b) by
    (done || (intros f Hf Haf; destruct (Hlater _ (He2 f Hf Haf)) as [H0|?]; [|done];
      unfold After in Haf; boolify; lia)).
  replace passed' with passed; [reflexivity|].
  change passed with (fst (passed, cn)). change passed' with (fst (passed', cn')). rewrite <- Ec, <- Ec'.
  apply cancelledEra_same. intros c Hcin. specialize (Hcr c Hcin).
  unfold After in *. destruct (a <? _) eqn:E1; symmetry; boolify; [|lia].
  destruct (Hlater _ (reached_trans _ _ _ Hrc (Hcr eq_refl))) as [H0|?]; lia.
Qed.

Lemma Get_in registry name n : Get registry name = Ok n -> n ∈ registry /\ nw_Name n = name.
Proof.
  induction registry as [|m rest IH]; simpl; [done|].
  destruct (nw_Name m =? name)%string eqn:E; boolify.
  - intros [= ->]. split; [left|done].
  - intros H. destruct (IH H). split; [by right|done].
Qed.

Lemma eraSteps_err registry t l e : foldl (eraStep registry t) (Err e) l = Err e.
Proof. induction l; simpl; [done|]. exact IHl. Qed.

Lemma eraSteps_stable registry a b names parts next parts1 next1 next' :
  (forall n, n ∈ registry -> era_ok n) -> instant_ok a = true -> instant_ok b = true -> a <= b ->
  foldl (eraStep registry a) (Ok (parts, next)) names = Ok (parts1, next1) ->
  reached next1 next /\
  (next1 = 0 \/ b < next1 -> exists next1', foldl (eraStep registry b) (Ok (parts, next')) names = Ok (parts1, next1')).
Proof.
  intros Hreg Ha Hb Hab. revert parts next next'. induction names as [|name names IH]; intros parts next next'.
  - simpl. intros [= <- <-]. split; [|by eauto]. unfold reached. destruct (Z.eq_dec next 0); [by left|right; lia].
  - intros H. cbn [foldl] in H |- *.
    destruct (eraStep registry a (Ok (parts, next)) name) as [[p2 n2]|e] eqn:Es; [|by rewrite eraSteps_err in H].
    destruct (Get registry name) as [n|e] eqn:Eg; [|by unfold eraStep in Es; cbn [rbind] in Es; rewrite Eg in Es].
    destruct (Get_in _ _ _ Eg) as [Hin _].
    destruct (eraStep_stable registry name n a b parts next p2 n2 next' Eg (Hreg n Hin) Ha Hb Hab Es) as [H1 H2].
    destruct (IH p2 n2 0 H) as [H3 _].
    split; [by eapply reached_trans|]. intros Hn1.
    destruct H2 as [n2' Hn2]; [unfold reached in H3; lia|]. rewrite Hn2.
    by apply (IH p2 n2 n2' H).
Qed.

(** * Properties *)

(** The fork-id memo is transparent: on a loaded network with a coherent
    memo, [CurrentForkIDAt] returns the identifier recomputed for that instant,
    and the memo it leaves is again coherent.  Two instants of one era therefore
    never see different identifiers. *)
Theorem CurrentForkIDAt_memo n at_ :
  schedule_ok n -> memo_ok n ->
  fst (CurrentForkIDAt n at_) = currentForkIDAt n at_ /\
  schedule_ok (snd (CurrentForkIDAt n at_)) /\ memo_ok (snd (CurrentForkIDAt n at_)).
Proof.
  intros Hs Hm. unfold CurrentForkIDAt. rewrite load_loaded by apply Hs.
  assert (forall id, id = currentForkIDAt n at_ ->
    let n' := n <| nw_fork := Some (ForkMemo (forkEraAt (nw_elForks n) at_) id) |> in
    schedule_ok n' /\ memo_ok n') as Hstore.
  { intros id -> n'. split; [done|]. exists at_. split; [done|].
    unfold currentForkIDAt, forkIDAt. rewrite !load_loaded; [done|apply Hs|apply Hs]. }
  destruct (nw_fork n) as [memo|] eqn:Ef; [|by split; [|apply Hstore]].
  destruct (fm_era memo =? forkEraAt (nw_elForks n) at_) eqn:E; [|by split; [|apply Hstore]].
  boolify. simpl. split; [|done]. unfold memo_ok in Hm. rewrite Ef in Hm. destruct Hm as (t & Ht & ->).
  apply currentForkIDAt_era; [done|congruence].
Qed.

Definition demoNetwork : Network :=
  MkNetwork "demo" 7
    [("ChainID", BigInt (Some 7)); ("HomesteadBlock", BigInt (Some 0)); ("ShanghaiTime", Uint64Ptr (Some 1681338455));
     ("CancunTime", Uint64Ptr (Some 1710338135)); ("PragueTime", Uint64Ptr None)]
    (GenesisBlock (zeros 32) 1600000000 1) (Some mainnetCL)
    (ClCache 0 (MkCLForkState "" "" "" 0 "" 0) false) [] [] [ElForkTime "Glam" 1790000000]
    [] None [] [] [] false [] [] [] None zeroTime None.

Lemma demo_schedule_ok : schedule_ok (load demoNetwork).
Proof. apply load_schedule_ok; vm_compute; reflexivity. Qed.

Lemma CurrentForkIDAt_memo_witness :
  let n := snd (CurrentForkIDAt (load demoNetwork) (time_Unix 1690000000)) in
  fst (CurrentForkIDAt n (time_Unix 1700000000)) = currentForkIDAt n (time_Unix 1700000000).
Proof.
  intros n.
  pose proof (CurrentForkIDAt_memo (load demoNetwork) (time_Unix 1690000000) demo_schedule_ok I) as (_ & Hs & Hm).
  apply (CurrentForkIDAt_memo n (time_Unix 1700000000) Hs Hm).
Defined.

(** The classification window is exactly the identifiers of its instants:
    a hash is gathered when some second from the window's start to a year ahead
    has it, or when a schedule that kept a cancelled fork produces it there.  So
    sampling only the start and the boundaries loses no identifier and adds none. *)
Theorem gatherHashes_window n at_ h :
  schedule_ok n -> times_i64 n = true -> clock_sane at_ = true ->
  let start := windowStart n (Unix at_) in
  let stop := Unix at_ + ahead in
  start <= stop ->
  h ∈ gatherHashes n at_ <->
  (exists t, start <= t <= stop /\ h = fid_Hash (forkIDAt n t)) \/ h ∈ cancelledELHashes n start stop.
Proof.
  intros Hs Hi Hc start stop Hle. destruct (windowStart_range n at_ Hs Hi Hc) as [Hr Hw].
  unfold gatherHashes. fold start. rewrite Hw. fold stop.
  replace (stop <? start) with false by (symmetry; boolify; lia).
  rewrite wrapU64_id by (unfold max_uint64, max_int64 in *; lia).
  rewrite !elem_of_app, list_elem_of_singleton, elem_of_flat_map.
  assert (forall f, f ∈ nw_elForks n -> wrapI64 (ef_time f) = ef_time f) as Hwf.
  { intros f Hf. destruct Hs as (_ & Hu & _). rewrite Forall_forall in Hu. specialize (Hu f Hf).
    unfold times_i64, is_uint64 in *. boolify. pose proof (forallb_elem _ _ _ H Hf) as Hm. cbv beta in Hm. boolify.
    apply wrapI64_id. unfold min_int64. lia. }
  split.
  - intros [->|[(f & Hf & Hin)|?]]; [left; exists start; split; [lia|done]| |by right].
    rewrite (Hwf f Hf) in Hin. destruct ((start <=? ef_time f) && (ef_time f <=? stop)) eqn:E; [|by apply elem_of_nil in Hin].
    boolify. apply list_elem_of_singleton in Hin as ->. left. exists (ef_time f). split; [lia|done].
  - intros [(t & Ht & ->)|?]; [|by auto].
    destruct (window_boundary n start t Hs Hi) as [->|(f & Hf & ? & ->)]; [lia|by left|].
    right. left. exists f. split; [done|]. rewrite (Hwf f Hf).
    replace (_ && _) with true by (symmetry; boolify; lia). left.
Qed.

Lemma gatherHashes_window_witness :
  let n := load demoNetwork in
  fid_Hash (forkIDAt n 1720000000) ∈ gatherHashes n (time_Unix 1760000000).
Proof.
  intros n. apply (gatherHashes_window n (time_Unix 1760000000) _ demo_schedule_ok).
  - vm_compute. reflexivity.
  - vm_compute. reflexivity.
  - vm_compute. discriminate.
  - left. exists 1720000000. split; [vm_compute; split; discriminate|reflexivity].
Defined.

(** Cancelling a blob-parameter-only fork removes that transition and
    nothing else: every other transition keeps its name, epoch, version and
    place, so later BPOs still pair with geth's numbering. *)
Theorem withoutBPO_numbering c compiled f version out c' out' l :
  withoutBPO c compiled f version out = Ok (c', true, out') ->
  (forall g, g ∈ cl_forks c -> cf_epoch g <> xcl_Epoch f) ->
  transitions c = Ok l ->
  transitions c' = Ok (List.filter (fun g => negb (cf_epoch g =? xcl_Epoch f)) l).
Proof.
  intros Hw Hf Hl. unfold withoutBPO in Hw. apply rbind_ok in Hw as (forks & _ & Hw).
  destruct (List.find _ forks) as [x|] eqn:Ex; [|by case_hyp Hw].
  apply find_some_elem in Ex as [_ Hx]. boolify.
  destruct (List.find _ (cl_blobSchedule compiled)); [|done].
  destruct (_ || _); [done|]. injection Hw as <- _. rewrite H. by apply transitions_cancel.
Qed.

Lemma withoutBPO_numbering_witness :
  transitions (mainnetCL <| cl_cancelledBPOs := [412672] |>) =
  Ok (List.filter (fun g => negb (cf_epoch g =? 412672)) (match transitions mainnetCL with Ok l => l | Err _ => [] end)).
Proof.
  apply (withoutBPO_numbering mainnetCL mainnetCL (MkCancelledCLFork "BPO1" 412672 "06000000" 15)
    (of_bytes [6; 0; 0; 0]) (emptyCancellation "BPO1") _ (emptyCancellation "BPO1")).
  - vm_compute. reflexivity.
  - intros g Hg. apply (forallb_elem (fun g => negb (cf_epoch g =? 412672)) (cl_forks mainnetCL)) in Hg;
      [cbv beta in Hg; boolify; exact Hg|vm_compute; reflexivity].
  - vm_compute. reflexivity.
Defined.

(** The era token is a sound cache key: between an instant and the
    transition reported with its token, every requested network keeps its
    execution fork id, its consensus digest and its passed cancellations, so the
    token of any instant in between is the same. *)
Theorem ForkEraTokenAt_stable registry a b requested tok next :
  (forall n, n ∈ registry -> era_ok n) -> instant_ok a = true -> instant_ok b = true -> a <= b ->
  ForkEraTokenAt registry a requested = Ok (tok, next) -> next = 0 \/ b < next ->
  exists next', ForkEraTokenAt registry b requested = Ok (tok, next').
Proof.
  intros Hreg Ha Hb Hab. unfold ForkEraTokenAt. rewrite rbind_ok. intros ([parts nx] & Hf & [= <- <-]) Hn.
  destruct (eraSteps_stable registry a b _ [] zeroTime parts nx zeroTime Hreg Ha Hb Hab Hf) as [_ H].
  destruct (H Hn) as [nx' ->]. simpl. eauto.
Qed.

Lemma demo_era_ok n : n ∈ [load demoNetwork] -> era_ok n.
Proof.
  intros ->%list_elem_of_singleton. unfold era_ok. split; [apply demo_schedule_ok|]. split; [exact I|].
  split; [vm_compute; reflexivity|]. exists mainnetCL.
  split; [vm_compute; reflexivity|]. split_and!; [vm_compute; reflexivity..|].
  intros H. vm_compute in H. discriminate.
Qed.

Lemma ForkEraTokenAt_stable_witness :
  exists tok next next',
    ForkEraTokenAt [load demoNetwork] (time_Unix 1765000000) [] = Ok (tok, next) /\
    ForkEraTokenAt [load demoNetwork] (time_Unix 1765000001) [] = Ok (tok, next').
Proof.
  destruct (ForkEraTokenAt [load demoNetwork] (time_Unix 1765000000) []) as [[tok next]|] eqn:E;
    [|vm_compute in E; discriminate].
  destruct (ForkEraTokenAt_stable [load demoNetwork] (time_Unix 1765000000) (time_Unix 1765000001) [] tok next)
    as [next' H]; [exact demo_era_ok|vm_compute; reflexivity|vm_compute; reflexivity|vm_compute; discriminate|exact E| |].
  - right. vm_compute in E. injection E as _ <-. vm_compute. reflexivity.
  - exists tok, next, next'. split; [reflexivity|exact H].
Defined.
