(* ===== verification/Readiness.v ===== *)
(** [internal/netconf/readiness.go] and [schedule.go]: the fork a readiness view
    tracks, the readiness rule for one persisted row, and the list of scheduled
    upgrades. *)

From stdpp Require Import base gmap strings list numbers sorting.
From Stdlib Require Import ZArith Lia Sorted.
From S2P Require Import Prelude GoLib Hashes Consensus ForkId Network.

(** * Data *)

Definition ForkTrackingGrace : Duration := 14 * 24 * Hour.

(** The phases are string constants in the source. *)
Inductive Phase := PhaseNone | PhaseScheduled | PhaseActivated | PhaseCancelled.
#[export] Instance Phase_eq_dec : EqDecision Phase.
Proof. solve_decision. Defined.
Definition phase_eqb (a b : Phase) : bool := bool_decide (a = b).

(** The readiness of a row; [NoReadiness] is the empty string. *)
Inductive Readiness := Ready | Pending | NotReady | Mismatch | Unknown | Stale | NoReadiness.
#[export] Instance Readiness_eq_dec : EqDecision Readiness.
Proof. solve_decision. Defined.

Definition Readinesses : list Readiness := [Ready; Pending; NotReady; Mismatch; Unknown; Stale].

Record ELForkTarget := MkELForkTarget {
  elt_Name : string; elt_Time : Z; elt_Phase : Phase;
  elt_PreHash : string; elt_PostHash : string; elt_OnCancelled : list string }.
Record CLForkTarget := MkCLForkTarget {
  clt_Name : string; clt_Epoch : Z; clt_Version : string; clt_Phase : Phase; clt_Time : Time;
  clt_PreDigest : string; clt_PostDigest : string; clt_OnCancelled : list string }.
Record ForkTarget := MkForkTarget { ft_Name : string; ft_EL : option ELForkTarget; ft_CL : option CLForkTarget }.

Record ReadinessEvidence := MkEvidence {
  ev_Layer : string; ev_ForkHash : string; ev_ForkNext : Z;
  ev_ENRForkDigest : string; ev_ENRNextForkVersion : string; ev_ENRNextForkEpoch : Z }.

Record ScheduledFork := MkScheduledFork {
  sf_Name : string; sf_EL : string; sf_CL : string; sf_Time : Z; sf_CLEpoch : Z;
  sf_Activated : bool; sf_Tracked : bool; sf_Cancelled : bool }.

(** * The target *)

Definition el_phase (t : ForkTarget) (p : Phase) : bool :=
  match ft_EL t with Some el => phase_eqb (elt_Phase el) p | None => false end.
Definition cl_phase (t : ForkTarget) (p : Phase) : bool :=
  match ft_CL t with Some cl => phase_eqb (clt_Phase cl) p | None => false end.

Definition target_Phase (t : ForkTarget) : Phase :=
  if el_phase t PhaseCancelled || cl_phase t PhaseCancelled then PhaseCancelled
  else if el_phase t PhaseScheduled || cl_phase t PhaseScheduled then PhaseScheduled
  else match ft_EL t, ft_CL t with None, None => PhaseNone | _, _ => PhaseActivated end.

Definition target_Schedule (t : ForkTarget) : Z * Z :=
  (match ft_EL t with Some el => elt_Time el | None => 0 end,
   match ft_CL t with Some cl => clt_Epoch cl | None => 0 end).

Definition Activation (t : ForkTarget) : Time :=
  match ft_EL t, ft_CL t with
  | Some el, _ => time_Unix (wrapI64 (elt_Time el))
  | None, Some cl => clt_Time cl
  | None, None => zeroTime
  end.

Definition combinedForkNames (el cl : string) : string :=
  if (el =? "shanghai")%string && (cl =? "capella")%string then "Shapella"
  else if (el =? "cancun")%string && (cl =? "deneb")%string then "Dencun"
  else if (el =? "prague")%string && (cl =? "electra")%string then "Pectra"
  else if (el =? "osaka")%string && (cl =? "fulu")%string then "Fusaka"
  else if (el =? "amsterdam")%string && (cl =? "gloas")%string then "Glamsterdam"
  else "".

Definition capitalize (s : string) : string :=
  match s with EmptyString => EmptyString | String c s' => String (upper_byte c) s' end.

Definition upgradeName (el cl : string) : string :=
  if negb (el =? "")%string && negb (cl =? "")%string then
    let name := combinedForkNames (ToLower el) (ToLower cl) in
    if negb (name =? "")%string then name
    else if (el =? cl)%string then el
    else el +:+ "-" +:+ capitalize cl
  else if negb (el =? "")%string then el
  else capitalize cl.

(** One iteration of the fork loop of [elTargetAt]. *)
Definition elTarget_step (genesis unix : Z) (acc : option elForkTime * option elForkTime) (f : elForkTime)
  : option elForkTime * option elForkTime :=
  let '(next, last) := acc in
  if ef_time f <=? genesis then (next, last)
  else
    (if (unix <? ef_time f) && match next with None => true | Some x => ef_time f <=? ef_time x end
     then Some f else next,
     if (ef_time f <=? unix) && match last with None => true | Some x => ef_time x <=? ef_time f end
     then Some f else last).

(** The chosen fork and its phase. *)
Definition elChoice (genesis : Z) (forks : list elForkTime) (at_ : Time) : option (elForkTime * Phase) :=
  let '(next, last) := foldl (elTarget_step genesis (clampUnix at_)) (None, None) forks in
  match next with
  | Some f => Some (f, PhaseScheduled)
  | None =>
      match last with
      | None => None
      | Some f => if ForkTrackingGrace <=? Sub at_ (time_Unix (wrapI64 (ef_time f))) then None
                  else Some (f, PhaseActivated)
      end
  end.

Definition elTargetAt (n : Network) (at_ : Time) : option ELForkTarget :=
  let n := load n in
  match elChoice (gb_Time (nw_genesis n)) (nw_elForks n) at_ with
  | None => None
  | Some (chosen, phase) =>
      Some (MkELForkTarget (ef_name chosen) (ef_time chosen) phase
              (hex_encode (fid_Hash (forkIDAt n (ef_time chosen - 1))))
              (hex_encode (fid_Hash (forkIDAt n (ef_time chosen)))) [])
  end.

(** The forward scan of [targetAt]: the last fork sharing the first upcoming epoch. *)
Fixpoint lastAtEpoch (e : Z) (chosen : clFork) (l : list clFork) : clFork :=
  match l with
  | [] => chosen
  | f :: l' => if cf_epoch f =? e then lastAtEpoch e f l' else chosen
  end.
Fixpoint clUpcoming (epoch : Z) (l : list clFork) : option clFork :=
  match l with
  | [] => None
  | f :: l' =>
      if (epoch <? cf_epoch f) && negb (cf_epoch f =? max_uint64) then Some (lastAtEpoch (cf_epoch f) f l')
      else clUpcoming epoch l'
  end.

(** The backward scan: the last fork that is neither at genesis nor ahead. *)
Definition clLatest (epoch : Z) (l : list clFork) : option clFork :=
  List.find (fun f => negb ((cf_epoch f =? 0) || (epoch <? cf_epoch f))) (rev l).

Definition clChoice (c : clNetwork) (forks : list clFork) (at_ : Time) : option (clFork * Phase) :=
  let epoch := epochAt c at_ in
  match clUpcoming epoch forks with
  | Some f => Some (f, PhaseScheduled)
  | None =>
      match clLatest epoch forks with
      | None => None
      | Some f => if Sub at_ (timeAtEpoch c (cf_epoch f)) <? ForkTrackingGrace then Some (f, PhaseActivated) else None
      end
  end.

Definition targetAt (c : clNetwork) (at_ : Time) : result (option CLForkTarget) :=
  let! forks := transitions c in
  match clChoice c forks at_ with
  | None => Ok None
  | Some (chosen, phase) =>
      let! (pre, _) := digestAt c (wrapU64 (cf_epoch chosen - 1)) in
      let! (post, _) := digestAt c (cf_epoch chosen) in
      Ok (Some (MkCLForkTarget (cf_name chosen) (cf_epoch chosen) (hex_encode (cf_version chosen)) phase
                  (timeAtEpoch c (cf_epoch chosen)) (hex_encode pre) (hex_encode post) []))
  end.

(** [cancelledTargetsAt]'s [pick]. *)
Fixpoint pickCancellation (n : Network) (at_ : Time) (has : cancellation -> bool) (chosen : option cancellation)
  (l : list cancellation) : option cancellation :=
  match l with
  | [] => chosen
  | c :: l' =>
      let when := time_Unix (cancellation_at n c) in
      if negb (has c) || (ForkTrackingGrace <=? Sub at_ when) then pickCancellation n at_ has chosen l'
      else if After when at_ then Some c
      else pickCancellation n at_ has (Some c) l'
  end.

Definition cancelledTargetsAt (n : Network) (at_ : Time) (t : ForkTarget) : ForkTarget :=
  let n := load n in
  let pick has := pickCancellation n at_ has None (nw_cancellations n) in
  let t :=
    match pick hasEL with
    | None => t
    | Some c =>
        if match ft_EL t with
           | None => true
           | Some el => negb (phase_eqb (elt_Phase el) PhaseScheduled) || (ca_elTime c <? elt_Time el)
           end
        then MkForkTarget (ft_Name t)
               (Some (MkELForkTarget (ca_elName c) (ca_elTime c) PhaseCancelled (ca_elPreHash c) (ca_elPostHash c) (nw_cancelledELHex n)))
               (ft_CL t)
        else t
    end in
  match pick hasCL with
  | None => t
  | Some c =>
      if match ft_CL t with
         | None => true
         | Some cl => negb (phase_eqb (clt_Phase cl) PhaseScheduled) || (ca_clEpoch c <? clt_Epoch cl)
         end
      then MkForkTarget (ft_Name t) (ft_EL t)
             (Some (MkCLForkTarget (ca_clName c) (ca_clEpoch c) (hex_encode (ca_clVersion c)) PhaseCancelled
                      (match nw_cl n with Some cl => timeAtEpoch cl (ca_clEpoch c) | None => zeroTime end)
                      (hex_encode (ca_clPreDigest c)) (hex_encode (ca_clPostDigest c)) (nw_cancelledCLHex n)))
      else t
  end.

Definition LayerForkTargetsAt (registry : list Network) (network : string) (at_ : Time) : result ForkTarget :=
  let! n := Get registry network in
  let el := elTargetAt n at_ in
  let! cl := match nw_cl n with Some c => targetAt c at_ | None => Ok None end in
  Ok (cancelledTargetsAt n at_ (MkForkTarget "" el cl)).

(** Layers with different activation instants are different upgrades. *)
Definition separateLayers (t : ForkTarget) : ForkTarget :=
  match ft_EL t, ft_CL t with
  | Some el, Some cl =>
      if Unix (clt_Time cl) =? wrapI64 (elt_Time el) then t
      else
        let elScheduled := negb (phase_eqb (elt_Phase el) PhaseActivated) in
        let clScheduled := negb (phase_eqb (clt_Phase cl) PhaseActivated) in
        let elFirst := wrapI64 (elt_Time el) <? Unix (clt_Time cl) in
        if (elScheduled && (negb clScheduled || elFirst)) || (negb elScheduled && negb clScheduled && negb elFirst)
        then MkForkTarget (ft_Name t) (Some el) None
        else MkForkTarget (ft_Name t) None (Some cl)
  | _, _ => t
  end.

Definition ForkTargetAt (registry : list Network) (network : string) (at_ : Time) : result ForkTarget :=
  let! t := LayerForkTargetsAt registry network at_ in
  let t := separateLayers t in
  let el := match ft_EL t with Some el => elt_Name el | None => "" end in
  let cl := match ft_CL t with Some cl => clt_Name cl | None => "" end in
  Ok (MkForkTarget (upgradeName el cl) (ft_EL t) (ft_CL t)).

(** * The readiness rule *)

Definition containsFold (l : list string) (s : string) : bool := contains_func (fun x => EqualFold x s) l.

Definition cancelledReadiness (current affected readable : bool) : Readiness :=
  if affected then NotReady else if negb current then Stale else if negb readable then Unknown else Ready.

Definition activatedReadiness (current : bool) (forkHash pre : string) (readable scheduled : bool) : Readiness :=
  if current then Ready
  else if negb (EqualFold forkHash pre) then Stale
  else if negb readable then Unknown
  else if scheduled then Pending
  else NotReady.

Definition elReadiness (el : ELForkTarget) (ev : ReadinessEvidence) (current : bool) : Readiness :=
  match elt_Phase el with
  | PhaseCancelled =>
      cancelledReadiness current
        (containsFold (elt_OnCancelled el) (ev_ForkHash ev)
         || (EqualFold (ev_ForkHash ev) (elt_PreHash el) && (ev_ForkNext ev =? elt_Time el))) true
  | PhaseActivated => activatedReadiness current (ev_ForkHash ev) (elt_PreHash el) true (ev_ForkNext ev =? elt_Time el)
  | _ =>
      if negb current then Stale
      else if ev_ForkNext ev =? elt_Time el then Ready
      else if ev_ForkNext ev =? 0 then NotReady
      else Mismatch
  end.

Definition clReadiness (cl : CLForkTarget) (ev : ReadinessEvidence) (current : bool) : Readiness :=
  let scheduled := (ev_ENRNextForkEpoch ev =? clt_Epoch cl) && EqualFold (ev_ENRNextForkVersion ev) (clt_Version cl) in
  match clt_Phase cl with
  | PhaseCancelled =>
      cancelledReadiness current
        (containsFold (clt_OnCancelled cl) (ev_ForkHash ev)
         || (EqualFold (ev_ENRForkDigest ev) (clt_PreDigest cl) && scheduled))
        (negb (ev_ENRForkDigest ev =? "")%string && EqualFold (ev_ENRForkDigest ev) (ev_ForkHash ev))
  | PhaseActivated =>
      activatedReadiness current (ev_ForkHash ev) (clt_PreDigest cl) (EqualFold (ev_ENRForkDigest ev) (clt_PreDigest cl)) scheduled
  | _ =>
      if negb current then Stale
      else if (ev_ENRForkDigest ev =? "")%string || negb (EqualFold (ev_ENRForkDigest ev) (ev_ForkHash ev)) then Unknown
      else if scheduled then Ready
      else if ev_ENRNextForkEpoch ev =? max_uint64 then NotReady
      else Mismatch
  end.

(** [current] is the row's fork currency. *)
Definition readiness_of (t : ForkTarget) (ev : ReadinessEvidence) (current : bool) : Readiness :=
  match ft_EL t, ft_CL t with
  | Some el, _ => if (ev_Layer ev =? "el")%string then elReadiness el ev current
                  else match ft_CL t with
                       | Some cl => if (ev_Layer ev =? "cl")%string then clReadiness cl ev current else NoReadiness
                       | None => NoReadiness
                       end
  | None, Some cl => if (ev_Layer ev =? "cl")%string then clReadiness cl ev current else NoReadiness
  | None, None => NoReadiness
  end.

Definition ReadinessAt (registry : list Network) (t : ForkTarget) (network : string) (ev : ReadinessEvidence) (at_ : Time) : Readiness :=
  readiness_of t ev (RowForkCurrentAt registry (ev_Layer ev) network (ev_ForkHash ev) (ev_ForkNext ev) at_).

Definition IsCancelled (t : ForkTarget) : bool := phase_eqb (target_Phase t) PhaseCancelled.

Definition CancelledAt (t : ForkTarget) (layer : string) : option Time :=
  match ft_EL t with
  | Some el => if (layer =? "el")%string && phase_eqb (elt_Phase el) PhaseCancelled then Some (time_Unix (wrapI64 (elt_Time el)))
               else match ft_CL t with
                    | Some cl => if (layer =? "cl")%string && phase_eqb (clt_Phase cl) PhaseCancelled then Some (clt_Time cl) else None
                    | None => None
                    end
  | None => match ft_CL t with
            | Some cl => if (layer =? "cl")%string && phase_eqb (clt_Phase cl) PhaseCancelled then Some (clt_Time cl) else None
            | None => None
            end
  end.

(** * The schedule *)

(** [byTime] is a map from the activation second. *)
Definition sf_empty (unix : Z) : ScheduledFork := MkScheduledFork "" "" "" unix 0 false false false.
Definition sf_entry (byTime : gmap Z ScheduledFork) (unix : Z) : ScheduledFork := default (sf_empty unix) (byTime !! unix).

Definition scheduleEL (n : Network) (byTime : gmap Z ScheduledFork) : gmap Z ScheduledFork :=
  foldl (fun m f =>
    if (gb_Time (nw_genesis n) <? ef_time f) && (ef_time f <=? max_int64) then
      let e := sf_entry m (ef_time f) in
      <[ef_time f := MkScheduledFork (sf_Name e) (ef_name f) (sf_CL e) (sf_Time e) (sf_CLEpoch e) (sf_Activated e) (sf_Tracked e) (sf_Cancelled e)]> m
    else m) byTime (nw_elForks n).

Definition scheduleCL (c : clNetwork) (forks : list clFork) (byTime : gmap Z ScheduledFork) : gmap Z ScheduledFork :=
  foldl (fun m f =>
    if (cf_epoch f =? 0) || (cf_epoch f =? max_uint64) then m
    else
      let unix := Unix (timeAtEpoch c (cf_epoch f)) in
      let e := sf_entry m unix in
      <[unix := MkScheduledFork (sf_Name e) (sf_EL e) (cf_name f) (sf_Time e) (cf_epoch f) (sf_Activated e) (sf_Tracked e) (sf_Cancelled e)]> m)
    byTime forks.

Definition ScheduleAt (registry : list Network) (network : string) (at_ : Time) : result (list ScheduledFork) :=
  let! n := Get registry network in
  let n := load n in
  let byTime := scheduleEL n ∅ in
  let! byTime := match nw_cl n with
                 | None => Ok byTime
                 | Some c => let! forks := transitions c in Ok (scheduleCL c forks byTime)
                 end in
  let! target := ForkTargetAt registry network at_ in
  let real := map (fun kv : Z * ScheduledFork =>
      let e := kv.2 in
      let name := upgradeName (sf_EL e) (sf_CL e) in
      MkScheduledFork name (sf_EL e) (sf_CL e) (sf_Time e) (sf_CLEpoch e) (sf_Time e <=? Unix at_)
        (negb (ft_Name target =? "")%string && (name =? ft_Name target)%string && (sf_Time e =? Unix (Activation target)))
        false) (map_to_list byTime) in
  let cancelled := map (fun c =>
      MkScheduledFork (ca_fork c) (ca_elName c) (ca_clName c) (cancellation_at n c) (ca_clEpoch c) false
        (IsCancelled target && (cancellation_at n c =? Unix (Activation target))) true) (nw_cancellations n) in
  Ok (isort (fun a b => sf_Time a <=? sf_Time b) (real ++ cancelled)).

(** * Ties *)

Section ElTarget.
Context (genesis unix : Z).

(** The last fork in list order that activates at [T]. *)
Definition lastAt (T : Z) (l : list elForkTime) : option elForkTime :=
  foldl (fun acc g => if (genesis <? ef_time g) && (ef_time g =? T) then Some g else acc) None l.

Lemma lastAt_snoc T l g :
  lastAt T (l ++ [g]) = if (genesis <? ef_time g) && (ef_time g =? T) then Some g else lastAt T l.
Proof. unfold lastAt. by rewrite foldl_app. Qed.

Definition next_spec (l : list elForkTime) (o : option elForkTime) : Prop :=
  match o with
  | None => forall g, g ∈ l -> genesis < ef_time g -> ef_time g <= unix
  | Some x => genesis < ef_time x /\ unix < ef_time x /\ lastAt (ef_time x) l = Some x /\
      forall g, g ∈ l -> genesis < ef_time g -> unix < ef_time g -> ef_time x <= ef_time g
  end.
Definition last_spec (l : list elForkTime) (o : option elForkTime) : Prop :=
  match o with
  | None => forall g, g ∈ l -> genesis < ef_time g -> unix < ef_time g
  | Some x => genesis < ef_time x <= unix /\ lastAt (ef_time x) l = Some x /\
      forall g, g ∈ l -> genesis < ef_time g -> ef_time g <= unix -> ef_time g <= ef_time x
  end.

Lemma lastAt_hit l g : genesis < ef_time g -> lastAt (ef_time g) (l ++ [g]) = Some g.
Proof. intros. rewrite lastAt_snoc, Z.eqb_refl. by replace (genesis <? ef_time g) with true by (symmetry; boolify; lia). Qed.

Lemma lastAt_miss T l g : ef_time g <= genesis \/ ef_time g <> T -> lastAt T (l ++ [g]) = lastAt T l.
Proof.
  intros H. rewrite lastAt_snoc. destruct ((genesis <? ef_time g) && (ef_time g =? T)) eqn:E; [|done].
  boolify. lia.
Qed.

Ltac tie :=
  split_and?; first
    [ lia
    | apply lastAt_hit; lia
    | rewrite lastAt_miss; [done|lia]
    | let y := fresh "y" in let Hy := fresh "Hy" in
      intros y Hy; intros; apply elem_of_app in Hy as [Hy|Hy];
      [match goal with H : _ |- _ => specialize (H y Hy); lia end
      |apply list_elem_of_singleton in Hy; subst; lia] ].

Lemma elTarget_fold l :
  let '(next, last) := foldl (elTarget_step genesis unix) (None, None) l in
  next_spec l next /\ last_spec l last.
Proof.
  induction l as [|g l IH] using rev_ind; [split; simpl; intros ? ?%elem_of_nil; done|].
  rewrite foldl_app. destruct (foldl _ (None, None) l) as [next last]. destruct IH as [Hn Hl].
  cbn [foldl elTarget_step]. destruct (ef_time g <=? genesis) eqn:Eg; boolify; split.
  - destruct next as [x|]; cbn [next_spec] in *; [destruct Hn as (? & ? & ? & ?)|]; tie.
  - destruct last as [x|]; cbn [last_spec] in *; [destruct Hl as (? & ? & ?)|]; tie.
  - destruct (unix <? ef_time g) eqn:Eu; boolify; cbn [andb];
      (destruct next as [x|]; cbn [next_spec] in *; [destruct Hn as (? & ? & ? & ?)|]);
      [destruct (ef_time g <=? ef_time x) eqn:Ex; boolify; cbn [next_spec]|..]; tie.
  - destruct (ef_time g <=? unix) eqn:Eu; boolify; cbn [andb];
      (destruct last as [x|]; cbn [last_spec] in *; [destruct Hl as (? & ? & ?)|]);
      [destruct (ef_time x <=? ef_time g) eqn:Ex; boolify; cbn [last_spec]|..]; tie.
Qed.
End ElTarget.

Lemma lastAt_in genesis T l x : lastAt genesis T l = Some x -> x ∈ l /\ ef_time x = T.
Proof.
  induction l as [|g l IH] using rev_ind; [done|]. rewrite lastAt_snoc, elem_of_app, list_elem_of_singleton.
  destruct (_ && _) eqn:E; [intros [= ->]; boolify; auto|]. intros H. destruct (IH H). auto.
Qed.

(** ** Case folding *)

Lemma EqualFold_spec a b : EqualFold a b = true <-> ToLower a = ToLower b.
Proof. unfold EqualFold. apply String.eqb_eq. Qed.

Lemma EqualFold_sym a b : EqualFold a b = EqualFold b a.
Proof. unfold EqualFold. apply String.eqb_sym. Qed.

Lemma EqualFold_through a b c : EqualFold b c = true -> EqualFold a b = EqualFold a c.
Proof. rewrite EqualFold_spec. unfold EqualFold. by intros ->. Qed.

Lemma EqualFold_empty s : EqualFold "" s = true -> s = "".
Proof. rewrite EqualFold_spec. by destruct s. Qed.

(** * The schedule map *)

Definition keyed (m : gmap Z ScheduledFork) : Prop :=
  forall k e, m !! k = Some e -> sf_Time e = k /\ sf_Cancelled e = false.

Lemma sf_entry_time m k : keyed m -> sf_Time (sf_entry m k) = k /\ sf_Cancelled (sf_entry m k) = false.
Proof. intros Hm. unfold sf_entry. destruct (m !! k) as [e|] eqn:E; simpl; [by apply Hm|done]. Qed.

(** The entry at [k] names one of the execution forks [P]. *)
Definition names_el (m : gmap Z ScheduledFork) (k : Z) (P : string -> Prop) : Prop :=
  exists e, m !! k = Some e /\ P (sf_EL e).

Lemma scheduleEL_spec n m :
  keyed m -> keyed (scheduleEL n m) /\
  forall f, f ∈ nw_elForks n -> gb_Time (nw_genesis n) < ef_time f <= max_int64 ->
    names_el (scheduleEL n m) (ef_time f) (fun nm => exists g, g ∈ nw_elForks n /\ ef_time g = ef_time f /\ nm = ef_name g).
Proof.
  intros Hm. unfold scheduleEL. induction (nw_elForks n) as [|g l IH] using rev_ind;
    [split; [done|by intros ? ?%elem_of_nil]|].
  rewrite foldl_app. cbn [foldl]. destruct IH as [Hk Hn].
  set (m' := foldl _ m l) in *. destruct (_ && _) eqn:E; boolify.
  - destruct (sf_entry_time m' (ef_time g) Hk) as [Het Hec].
    split.
    + intros k e. destruct (decide (k = ef_time g)) as [->|Hne].
      * rewrite lookup_insert_eq. by intros [= <-].
      * rewrite lookup_insert_ne by done. apply Hk.
    + intros f Hf Hft. destruct (decide (ef_time f = ef_time g)) as [He|Hne].
      * exists (MkScheduledFork (sf_Name (sf_entry m' (ef_time g))) (ef_name g) (sf_CL (sf_entry m' (ef_time g)))
          (sf_Time (sf_entry m' (ef_time g))) (sf_CLEpoch (sf_entry m' (ef_time g))) (sf_Activated (sf_entry m' (ef_time g)))
          (sf_Tracked (sf_entry m' (ef_time g))) (sf_Cancelled (sf_entry m' (ef_time g)))).
        rewrite He, lookup_insert_eq. split; [done|]. exists g. split; [set_solver|done].
      * apply elem_of_app in Hf as [Hf|Hf]; [|apply list_elem_of_singleton in Hf; congruence].
        destruct (Hn f Hf Hft) as (e & He & h & Hh & ?). exists e. rewrite lookup_insert_ne by done.
        split; [done|]. exists h. split; [set_solver|done].
  - split; [done|]. intros f Hf Hft. apply elem_of_app in Hf as [Hf|Hf].
    + destruct (Hn f Hf Hft) as (e & He & h & Hh & ?). exists e. split; [done|]. exists h. split; [set_solver|done].
    + apply list_elem_of_singleton in Hf as ->. lia.
Qed.

Lemma scheduleCL_spec c forks m :
  keyed m -> keyed (scheduleCL c forks m) /\
  forall k P, names_el m k P -> names_el (scheduleCL c forks m) k P.
Proof.
  unfold scheduleCL. intros Hm.
  apply (foldl_invariant (fun m' => keyed m' /\ forall k P, names_el m k P -> names_el m' k P)); [done|].
  intros m' f _ [Hk Hn]. destruct (_ || _); [done|].
  set (u := Unix _). destruct (sf_entry_time m' u Hk) as [Het Hec]. split.
  - intros k e. destruct (decide (k = u)) as [->|Hne].
    + rewrite lookup_insert_eq. by intros [= <-].
    + rewrite lookup_insert_ne by done. apply Hk.
  - intros k P HP. destruct (Hn k P HP) as (e & He & Hpe).
    destruct (decide (k = u)) as [->|Hne].
    + eexists. rewrite lookup_insert_eq. split; [done|]. simpl. unfold sf_entry. by rewrite He.
    + exists e. by rewrite lookup_insert_ne.
Qed.

(** * Properties *)

(** A target's layers are one upgrade: when both are tracked they activate
    at the same second.  When the layers' own targets differ, the target keeps
    exactly one: a fork that is not activated yet in preference to one that is,
    the earlier of two upcoming ones, and the later of two activated ones. *)
Theorem ForkTargetAt_one_upgrade registry network at_ layers t :
  LayerForkTargetsAt registry network at_ = Ok layers ->
  ForkTargetAt registry network at_ = Ok t ->
  (forall el cl, ft_EL t = Some el -> ft_CL t = Some cl -> Unix (clt_Time cl) = wrapI64 (elt_Time el)) /\
  (forall el cl, ft_EL layers = Some el -> ft_CL layers = Some cl -> Unix (clt_Time cl) <> wrapI64 (elt_Time el) ->
     (ft_EL t = Some el /\ ft_CL t = None /\
        (elt_Phase el = PhaseActivated -> clt_Phase cl = PhaseActivated /\ Unix (clt_Time cl) < wrapI64 (elt_Time el)) /\
        (elt_Phase el <> PhaseActivated -> clt_Phase cl <> PhaseActivated -> wrapI64 (elt_Time el) < Unix (clt_Time cl))) \/
     (ft_EL t = None /\ ft_CL t = Some cl /\
        (clt_Phase cl = PhaseActivated -> elt_Phase el = PhaseActivated /\ wrapI64 (elt_Time el) < Unix (clt_Time cl)) /\
        (clt_Phase cl <> PhaseActivated -> elt_Phase el <> PhaseActivated -> Unix (clt_Time cl) < wrapI64 (elt_Time el)))) /\
  (ft_EL layers = None \/ ft_CL layers = None -> ft_EL t = ft_EL layers /\ ft_CL t = ft_CL layers).
Proof.
  intros Hl. unfold ForkTargetAt. rewrite Hl. cbn [rbind]. intros [= <-]. cbn [ft_EL ft_CL].
  unfold separateLayers. destruct (ft_EL layers) as [el|] eqn:Eel, (ft_CL layers) as [cl|] eqn:Ecl;
    rewrite ?Eel, ?Ecl; cbn [ft_EL ft_CL];
    [|by split_and!; [by intros|by intros|auto]..].
  destruct (Unix (clt_Time cl) =? wrapI64 (elt_Time el)) eqn:Eu; boolify.
  - rewrite Eel, Ecl. split_and!; [by intros ? ? [= <-] [= <-]|by intros ? ? [= <-] [= <-]|by intros [|]].
  - unfold phase_eqb.
    destruct (bool_decide_reflect (elt_Phase el = PhaseActivated)) as [Hep|Hep], (bool_decide_reflect (clt_Phase cl = PhaseActivated)) as [Hcp|Hcp],
      (wrapI64 (elt_Time el) <? Unix (clt_Time cl)) eqn:Ef; boolify; cbn [negb andb orb ft_EL ft_CL];
      (split_and!; [by intros|intros ? ? [= <-] [= <-] _|by intros [|]]);
      first [left; split_and!; [done|done|intros; first [congruence|split; [done|lia]]|intros; first [congruence|lia]]
            |right; split_and!; [done|done|intros; first [congruence|split; [done|lia]]|intros; first [congruence|lia]]].
Qed.

Lemma ForkTargetAt_one_upgrade_witness :
  exists layers t,
    LayerForkTargetsAt [load demoNetwork] "demo" (time_Unix 1765000000) = Ok layers /\
    ForkTargetAt [load demoNetwork] "demo" (time_Unix 1765000000) = Ok t /\
    ft_Name t = "BPO1" /\ ft_EL layers <> None /\
    (forall el cl, ft_EL t = Some el -> ft_CL t = Some cl -> Unix (clt_Time cl) = wrapI64 (elt_Time el)).
Proof.
  destruct (LayerForkTargetsAt [load demoNetwork] "demo" (time_Unix 1765000000)) as [layers|] eqn:El;
    [|vm_compute in El; discriminate].
  destruct (ForkTargetAt [load demoNetwork] "demo" (time_Unix 1765000000)) as [t|] eqn:Et;
    [|vm_compute in Et; discriminate].
  exists layers, t. split; [reflexivity|]. split; [reflexivity|].
  split; [vm_compute in Et; injection Et as <-; reflexivity|].
  split; [vm_compute in El; injection El as <-; discriminate|].
  exact (proj1 (ForkTargetAt_one_upgrade [load demoNetwork] "demo" (time_Unix 1765000000) layers t El Et)).
Defined.

(** The execution target does not change when its fork activates: if [f] is
    tracked as scheduled and is the last upgrade of the schedule, then at every
    later instant within the grace period the same fork, tie included, is tracked
    as activated.  The readiness history key it names therefore stays the same. *)
Theorem elChoice_survives_activation genesis forks a b f :
  elChoice genesis forks a = Some (f, PhaseScheduled) ->
  (forall g, g ∈ forks -> ef_time g <= ef_time f) ->
  ef_time f <= clampUnix b -> Sub b (time_Unix (wrapI64 (ef_time f))) < ForkTrackingGrace ->
  elChoice genesis forks b = Some (f, PhaseActivated).
Proof.
  unfold elChoice. pose proof (elTarget_fold genesis (clampUnix a) forks) as Ha.
  pose proof (elTarget_fold genesis (clampUnix b) forks) as Hb.
  destruct (foldl (elTarget_step genesis (clampUnix a)) _ forks) as [na la].
  destruct (foldl (elTarget_step genesis (clampUnix b)) _ forks) as [nb lb].
  destruct Ha as [Hna _], Hb as [Hnb Hlb]. destruct na as [x|]; [|destruct la; [case_goal|]; done].
  intros [= ->] Hmax Hfb Hg. cbn [next_spec] in Hna. destruct Hna as (Hgf & Haf & Hlast & _).
  destruct (lastAt_in _ _ _ _ Hlast) as [Hin _].
  destruct nb as [y|]; cbn [next_spec] in Hnb.
  { destruct Hnb as (_ & Hby & Hy & _). destruct (lastAt_in _ _ _ _ Hy) as [Hyin _].
    specialize (Hmax y Hyin). lia. }
  destruct lb as [y|]; cbn [last_spec] in Hlb; [|specialize (Hlb f Hin Hgf); lia].
  destruct Hlb as (_ & Hy & Hym). destruct (lastAt_in _ _ _ _ Hy) as [Hyin _].
  specialize (Hym f Hin Hgf Hfb). specialize (Hmax y Hyin).
  replace (ef_time y) with (ef_time f) in Hy by lia. rewrite Hlast in Hy. injection Hy as <-.
  by replace (ForkTrackingGrace <=? _) with false by (symmetry; boolify; lia).
Qed.

Lemma elChoice_survives_activation_witness :
  let forks := [ElForkTime "Osaka" 1764798551; ElForkTime "BPO1" 1765290071; ElForkTime "BPO2" 1765290071] in
  elChoice 1438269973 forks (time_Unix 1765290071 + 5) = Some (ElForkTime "BPO2" 1765290071, PhaseActivated).
Proof.
  intros forks. apply (elChoice_survives_activation 1438269973 forks (time_Unix 1765000000)).
  - vm_compute. reflexivity.
  - intros g Hg. repeat (apply elem_of_cons in Hg as [->|Hg]; [vm_compute; discriminate|]). by apply elem_of_nil in Hg.
  - vm_compute. discriminate.
  - vm_compute. reflexivity.
Defined.

(** The readiness rule answers exactly for tracked layers, and always with
    one of the six published values.  Only a current row is ready, a stale row is
    never current, pending needs an activated fork and a row that is not current,
    and for a scheduled fork stale means exactly not current. *)
Theorem ReadinessAt_total registry t network ev at_ :
  let current := RowForkCurrentAt registry (ev_Layer ev) network (ev_ForkHash ev) (ev_ForkNext ev) at_ in
  let r := ReadinessAt registry t network ev at_ in
  let phase := if (ev_Layer ev =? "el")%string then elt_Phase <$> ft_EL t
               else if (ev_Layer ev =? "cl")%string then clt_Phase <$> ft_CL t else None in
  (r = NoReadiness <-> phase = None) /\
  (r ∈ Readinesses <-> phase <> None) /\
  (r = Ready -> current = true) /\
  (r = Stale -> current = false) /\
  (r = Pending -> phase = Some PhaseActivated /\ current = false) /\
  (phase = Some PhaseScheduled -> r = Stale <-> current = false).
Proof.
  intros current r phase. subst r. unfold ReadinessAt. fold current. unfold readiness_of, Readinesses.
  destruct ev as [layer fh fn ed ev' ee]. cbn [ev_Layer] in *.
  destruct (layer =? "el")%string eqn:El; boolify.
  - subst layer. subst phase. cbn [String.eqb Ascii.eqb Bool.eqb]. destruct (ft_EL t) as [el|]; cbn [fmap option_fmap option_map].
    + unfold elReadiness, cancelledReadiness, activatedReadiness.
      destruct (elt_Phase el), current; cbn [negb];
        repeat case_goal; split_and!; intros; try split; intros; try done; set_solver.
    + destruct (ft_CL t); cbn; split_and!; intros; try split; intros; try done; set_solver.
  - destruct (layer =? "cl")%string eqn:Ec; boolify.
    + subst layer phase. destruct (ft_CL t) as [cl|]; cbn [fmap option_fmap option_map].
      * replace (match ft_EL t with Some _ => clReadiness cl _ current | None => clReadiness cl _ current end)
          with (clReadiness cl (MkEvidence "cl" fh fn ed ev' ee) current) by (by destruct (ft_EL t)).
        unfold clReadiness, cancelledReadiness, activatedReadiness.
        destruct (clt_Phase cl), current; cbn [negb];
          repeat case_goal; split_and!; intros; try split; intros; try done; set_solver.
      * destruct (ft_EL t); split_and!; intros; try split; intros; try done; set_solver.
    + subst phase. destruct (ft_EL t), (ft_CL t); split_and!; intros; try split; intros; try done; set_solver.
Qed.

(** A row's readiness carries over an activation it was not yet observed to
    follow: the claim of a row that was current on the pre-fork hash while the
    fork was scheduled reads as pending when it was ready, as unknown when it was
    unknown, and as not ready otherwise. *)
Theorem readiness_carries_over el cl ev r r' :
  (elt_Phase el = PhaseScheduled -> EqualFold (ev_ForkHash ev) (elt_PreHash el) = true ->
   elReadiness el ev true = r ->
   elReadiness (MkELForkTarget (elt_Name el) (elt_Time el) PhaseActivated (elt_PreHash el) (elt_PostHash el) (elt_OnCancelled el)) ev false
   = match r with Ready => Pending | _ => NotReady end) /\
  (clt_Phase cl = PhaseScheduled -> EqualFold (ev_ForkHash ev) (clt_PreDigest cl) = true -> clt_PreDigest cl <> "" ->
   clReadiness cl ev true = r' ->
   clReadiness (MkCLForkTarget (clt_Name cl) (clt_Epoch cl) (clt_Version cl) PhaseActivated (clt_Time cl)
                  (clt_PreDigest cl) (clt_PostDigest cl) (clt_OnCancelled cl)) ev false
   = match r' with Ready => Pending | Unknown => Unknown | _ => NotReady end).
Proof.
  split.
  - intros Hp Hh <-. unfold elReadiness, activatedReadiness. rewrite Hp. cbn [elt_Phase elt_PreHash elt_Time negb].
    rewrite Hh. cbn [negb]. destruct (ev_ForkNext ev =? elt_Time el); [done|]. by destruct (ev_ForkNext ev =? 0).
  - intros Hp Hh Hne <-. unfold clReadiness, activatedReadiness. rewrite Hp.
    cbn [clt_Phase clt_PreDigest clt_Epoch clt_Version negb]. rewrite Hh. cbn [negb].
    rewrite (EqualFold_through (ev_ENRForkDigest ev) _ _ Hh).
    destruct (ev_ENRForkDigest ev =? "")%string eqn:E; boolify; cbn [orb].
    + rewrite E. destruct (EqualFold "" (clt_PreDigest cl)) eqn:E2; [by apply EqualFold_empty in E2|done].
    + destruct (EqualFold (ev_ENRForkDigest ev) (clt_PreDigest cl)); [|done]. cbn [negb].
      destruct (_ && _); [done|]. by destruct (_ =? max_uint64).
Qed.

Lemma readiness_carries_over_witness :
  let el := MkELForkTarget "Osaka" 1764798551 PhaseScheduled "0929e24e" "5167e2a6" [] in
  let cl := MkCLForkTarget "fulu" 411392 "06000000" PhaseScheduled 0 "ad532ceb" "b5303f2a" [] in
  let ev := MkEvidence "el" "0929E24E" 1764798551 "" "" 0 in
  elReadiness el ev true = Ready /\
  elReadiness (MkELForkTarget "Osaka" 1764798551 PhaseActivated "0929e24e" "5167e2a6" []) ev false = Pending.
Proof.
  intros el cl ev. split; [reflexivity|].
  exact (proj1 (readiness_carries_over el cl ev Ready Ready) eq_refl eq_refl eq_refl).
Defined.

(** [ScheduleAt] is complete for the execution layer and well ordered: its
    entries are in activation order, entries that are not cancelled have distinct
    activation seconds, and every execution fork after genesis has one, named
    after a fork activating at that second. *)
Theorem ScheduleAt_complete registry network at_ n l :
  Get registry network = Ok n -> ScheduleAt registry network at_ = Ok l ->
  by_key sf_Time l /\
  NoDup (map sf_Time (List.filter (fun e => negb (sf_Cancelled e)) l)) /\
  forall f, f ∈ nw_elForks (load n) -> gb_Time (nw_genesis (load n)) < ef_time f <= max_int64 ->
    exists e, e ∈ l /\ sf_Time e = ef_time f /\ sf_Cancelled e = false /\
      exists g, g ∈ nw_elForks (load n) /\ ef_time g = ef_time f /\ sf_EL e = ef_name g.
Proof.
  intros Hg. unfold ScheduleAt. rewrite Hg. cbn [rbind].
  destruct (scheduleEL_spec (load n) ∅) as [Hk Hn]; [by intros k e; rewrite lookup_empty|].
  rewrite rbind_ok. intros (m & Hm & H). apply rbind_ok in H as (target & _ & [= <-]).
  assert (keyed m /\ forall k P, names_el (scheduleEL (load n) ∅) k P -> names_el m k P) as [Hkm Hnm].
  { destruct (nw_cl (load n)) as [c|]; [|by injection Hm as <-].
    apply rbind_ok in Hm as (forks & _ & [= <-]). by apply scheduleCL_spec. }
  clear Hm. set (real := map _ (map_to_list m)). set (cancelled := map _ (nw_cancellations (load n))).
  assert (forall e, e ∈ real -> exists e', m !! sf_Time e = Some e' /\ sf_EL e = sf_EL e' /\ sf_Cancelled e = false) as Hreal.
  { intros e (kv & -> & Hkv)%list_elem_of_fmap. destruct kv as [k e']. apply elem_of_map_to_list in Hkv.
    destruct (Hkm k e' Hkv) as [Ht _]. exists e'. simpl. by rewrite Ht. }
  split_and!.
  - eapply sorted_impl; [|apply isort_sorted].
    + intros x y Hxy. unfold leP in Hxy. boolify. done.
    + intros x y. apply Zleb_total.
    + intros x y z. apply Zleb_trans.
  - rewrite <- isort_filter by (intros *; apply Zleb_total || apply Zleb_trans).
    rewrite isort_perm, List.filter_app, (filter_keeps_all _ real).
    + replace (List.filter _ cancelled) with (@nil ScheduledFork).
      * rewrite app_nil_r. subst real. rewrite map_map. simpl.
        rewrite (map_ext_in _ fst); [apply NoDup_fst_map_to_list|].
        intros [k e'] Hin. apply list_elem_of_In, elem_of_map_to_list in Hin. by apply Hkm in Hin as [? _].
      * subst cancelled. by induction (nw_cancellations (load n)).
    + intros e He. by destruct (Hreal e He) as (_ & _ & _ & ->).
  - intros f Hf Hft. destruct (Hnm _ _ (Hn f Hf Hft)) as (e & He & g & ? & ? & ?).
    destruct (Hkm _ _ He) as [Het _].
    eexists. rewrite elem_of_isort, elem_of_app. split; [left; apply list_elem_of_fmap; exists (ef_time f, e)|].
    + split; [reflexivity|]. by apply elem_of_map_to_list.
    + simpl. split_and!; [done|done|]. by exists g.
Qed.

Lemma ScheduleAt_complete_witness :
  exists l, ScheduleAt [load demoNetwork] "demo" (time_Unix 1765000000) = Ok l /\ by_key sf_Time l.
Proof.
  destruct (ScheduleAt [load demoNetwork] "demo" (time_Unix 1765000000)) as [l|] eqn:E; [|vm_compute in E; discriminate].
  exists l. split; [reflexivity|].
  exact (proj1 (ScheduleAt_complete [load demoNetwork] "demo" (time_Unix 1765000000) (load demoNetwork) l eq_refl E)).
Defined.
