(* ===== verification/NetIP.v ===== *)
(** Go's [net.IP] and [internal/netpolicy/netpolicy.go], the address admission
    rule.

    An address is its bytes: four, sixteen, or none for nil.  The text forms
    follow [net.IP.String] and [net.ParseIP].  go-ethereum's
    [netutil.IsSpecialNetwork] is third-party code and stays a parameter. *)

From stdpp Require Import base gmap strings list numbers pretty.
From Stdlib Require Import ZArith Lia Ascii.
From S2P Require Import Prelude GoLib.

Abbreviation IP := string (only parsing).

(** * Classification of addresses *)

Definition v4InV6Prefix : list Z := [0; 0; 0; 0; 0; 0; 0; 0; 0; 0; 255; 255].

(** [ip.To4()]: [None] is nil. *)
Definition To4 (ip : IP) : option (list Z) :=
  let b := bytes ip in
  if (length b =? 4)%nat then Some b
  else if (length b =? 16)%nat && bool_decide (take 12 b = v4InV6Prefix) then Some (drop 12 b)
  else None.

Definition byte_at (b : list Z) (i : nat) : Z := default 0 (b !! i).

(** Each test reads the IPv4 form when there is one and the sixteen bytes otherwise. *)
Definition ip_test (f4 f16 : list Z -> bool) (ip : IP) : bool :=
  match To4 ip with
  | Some b => f4 b
  | None => (slen ip =? 16) && f16 (bytes ip)
  end.

Definition IP_Equal (a b : IP) : bool :=
  match To4 a, To4 b with
  | Some x, Some y => bool_decide (x = y)
  | None, None => (a =? b)%string
  | _, _ => false
  end.

Definition IsUnspecified : IP -> bool :=
  ip_test (fun b => bool_decide (b = [0; 0; 0; 0])) (fun b => bool_decide (b = replicate 16 0)).
Definition IsLoopback : IP -> bool :=
  ip_test (fun b => byte_at b 0 =? 127) (fun b => bool_decide (b = replicate 15 0 ++ [1])).
Definition IsMulticast : IP -> bool :=
  ip_test (fun b => Z.land (byte_at b 0) 240 =? 224) (fun b => byte_at b 0 =? 255).
Definition IsLinkLocalUnicast : IP -> bool :=
  ip_test (fun b => (byte_at b 0 =? 169) && (byte_at b 1 =? 254))
    (fun b => (byte_at b 0 =? 254) && (Z.land (byte_at b 1) 192 =? 128)).
Definition IsLinkLocalMulticast : IP -> bool :=
  ip_test (fun b => (byte_at b 0 =? 224) && (byte_at b 1 =? 0) && (byte_at b 2 =? 0))
    (fun b => (byte_at b 0 =? 255) && (Z.land (byte_at b 1) 15 =? 2)).
Definition IsPrivate : IP -> bool :=
  ip_test (fun b => (byte_at b 0 =? 10) || ((byte_at b 0 =? 172) && (Z.land (byte_at b 1) 240 =? 16))
                    || ((byte_at b 0 =? 192) && (byte_at b 1 =? 168)))
    (fun b => Z.land (byte_at b 0) 254 =? 252).

(** [IPNet.Contains] for an IPv4 network. *)
Definition net4Contains (network mask : list Z) (ip : IP) : bool :=
  match To4 ip with
  | Some b => bool_decide (zip_with Z.land network mask = zip_with Z.land b mask)
  | None => false
  end.

Definition cgnat : IP -> bool := net4Contains [100; 64; 0; 0] [255; 192; 0; 0].
Definition classE : IP -> bool := net4Contains [240; 0; 0; 0] [240; 0; 0; 0].

(** * Text *)

Definition dec_byte (z : Z) : string := pretty z.
Definition dotted (b : list Z) : string := String.concat "." (map dec_byte b).

Definition hex_nibble (v : Z) : string := String (hex_digit v) "".
(** A sixteen-bit group without leading zeros. *)
Definition hex_group (v : Z) : string :=
  (if 4096 <=? v then hex_nibble (v / 4096) else "")
  +:+ (if 256 <=? v then hex_nibble (v / 256 mod 16) else "")
  +:+ (if 16 <=? v then hex_nibble (v / 16 mod 16) else "")
  +:+ hex_nibble (v mod 16).

Fixpoint groups16 (b : list Z) : list Z :=
  match b with x :: y :: rest => (x * 256 + y) :: groups16 rest | _ => [] end.

Fixpoint zero_run (g : list Z) : nat :=
  match g with 0 :: g' => S (zero_run g') | _ => O end.

(** The first longest run of at least two zero groups: its start and length. *)
Fixpoint best_run (i : nat) (g : list Z) (best : nat * nat) : nat * nat :=
  match g with
  | [] => best
  | _ :: g' =>
      let n := zero_run g in
      best_run (S i) g' (if (snd best <? n)%nat && (1 <? n)%nat then (i, n) else best)
  end.

Definition colons (g : list Z) : string := String.concat ":" (map hex_group g).

Definition String16 (b : list Z) : string :=
  let g := groups16 b in
  let '(start, n) := best_run 0 g (0, 0)%nat in
  if (n =? 0)%nat then colons g
  else colons (take start g) +:+ "::" +:+ colons (drop (start + n) g).

Definition IP_String (ip : IP) : string :=
  if (ip =? "")%string then "<nil>"
  else match To4 ip with
       | Some b => dotted b
       | None => if slen ip =? 16 then String16 (bytes ip) else "?" +:+ hex_encode ip
       end.

Fixpoint split_at (c : ascii) (cur s : string) : list string :=
  match s with
  | EmptyString => [cur]
  | String x s' => if Ascii.eqb x c then cur :: split_at c "" s' else split_at c (cur +:+ String x "") s'
  end.

Fixpoint decimal (acc : Z) (s : string) : option Z :=
  match s with
  | EmptyString => Some acc
  | String c s' =>
      let v := byte_val c in
      if (48 <=? v) && (v <=? 57) then decimal (acc * 10 + (v - 48)) s' else None
  end.

Definition parse_octet (s : string) : option Z :=
  if (s =? "")%string || ((1 <? slen s) && HasPrefix s "0") || (3 <? slen s) then None
  else match decimal 0 s with Some v => if v <=? 255 then Some v else None | None => None end.

Definition parse4 (s : string) : option (list Z) :=
  let parts := split_at "."%char "" s in
  if (length parts =? 4)%nat then mapM parse_octet parts else None.

Fixpoint hexnum (acc : Z) (s : string) : option Z :=
  match s with
  | EmptyString => Some acc
  | String c s' => match hex_value c with Some v => hexnum (acc * 16 + v) s' | None => None end
  end.

Definition parse_group (s : string) : option Z :=
  if (s =? "")%string || (4 <? slen s) then None else hexnum 0 s.

(** Colon-separated groups, the last of which may be a dotted IPv4 address. *)
Fixpoint parse_groups (tail4 : bool) (parts : list string) : option (list Z) :=
  match parts with
  | [] => Some []
  | p :: rest =>
      match (if tail4 && match rest with [] => true | _ => false end then parse4 p else None) with
      | Some b => Some (groups16 b)
      | None => match parse_group p, parse_groups tail4 rest with Some g, Some gs => Some (g :: gs) | _, _ => None end
      end
  end.

Fixpoint cut_double (pre s : string) : option (string * string) :=
  match s with
  | String ":" (String ":" s') => Some (pre, s')
  | String c s' => cut_double (pre +:+ String c "") s'
  | EmptyString => None
  end.

Definition side (tail4 : bool) (s : string) : option (list Z) :=
  if (s =? "")%string then Some [] else parse_groups tail4 (split_at ":"%char "" s).

Definition parse6 (s : string) : option (list Z) :=
  match cut_double "" s with
  | None => match side true s with Some g => if (length g =? 8)%nat then Some g else None | None => None end
  | Some (l, r) =>
      match side false l, side true r with
      | Some a, Some b =>
          if (length a + length b <? 8)%nat
          then Some (a ++ replicate (8 - length a - length b) 0 ++ b) else None
      | _, _ => None
      end
  end.

(** [net.ParseIP]: the sixteen-byte form, or [None] for nil. *)
Definition ParseIP (s : string) : option IP :=
  match cut_double "" s, parse4 s with
  | None, Some b => Some (of_bytes (v4InV6Prefix ++ b))
  | _, _ => match parse6 s with
            | Some g => Some (of_bytes (flat_map (fun v => [v / 256; v mod 256]) g))
            | None => None
            end
  end.

(** [net.ParseIP(s).Equal(ip)] for a non-nil [ip]. *)
Definition parsed_equals (s : string) (ip : IP) : bool :=
  match ParseIP s with Some p => IP_Equal p ip | None => false end.

Example ip_text_v6 : IP_String (of_bytes [32; 1; 13; 184; 0; 0; 0; 0; 0; 1; 0; 0; 0; 0; 0; 1]) = "2001:db8::1:0:0:1".
Proof. vm_compute. reflexivity. Qed.
Example ip_parse_v6 : ParseIP "2001:db8::1:0:0:1" = Some (of_bytes [32; 1; 13; 184; 0; 0; 0; 0; 0; 1; 0; 0; 0; 0; 0; 1]).
Proof. vm_compute. reflexivity. Qed.
Example ip_parse_mapped : ParseIP "::ffff:10.0.0.1" = ParseIP "10.0.0.1".
Proof. vm_compute. reflexivity. Qed.
Example ip_parse_bad : (ParseIP "01.2.3.4", ParseIP "1::2::3", ParseIP "1:2:3:4:5:6:7::8") = (None, None, None).
Proof. vm_compute. reflexivity. Qed.

(** * Admission *)

(** [netutil.IsSpecialNetwork] of go-ethereum. *)
Class SpecialNetworks := IsSpecialNetwork : IP -> bool.

Section Policy.
Context `{SpecialNetworks}.

Definition Usable (ip : IP) (allowPrivate : bool) : bool :=
  if (ip =? "")%string || IsUnspecified ip || IsLoopback ip || IsMulticast ip
     || IsLinkLocalUnicast ip || IsLinkLocalMulticast ip then false
  else if IsPrivate ip then allowPrivate
  else if cgnat ip || classE ip then false
  else negb (IsSpecialNetwork ip).

(** * Properties *)

(** The IPv4-mapped form of an address. *)
Definition mapped (ip : IP) : IP := of_bytes (v4InV6Prefix ++ bytes ip).

Lemma bytes_of_bytes l : Forall (fun b => 0 <= b < 256) l -> bytes (of_bytes l) = l.
Proof.
  induction 1 as [|b l Hb Hl IH]; simpl; [done|]. rewrite byte_val_of, Z.mod_small by done. by rewrite IH.
Qed.

Lemma bytes_range s : Forall (fun b => 0 <= b < 256) (bytes s).
Proof. induction s; simpl; constructor; [apply byte_val_range|done]. Qed.

Lemma To4_mapped ip : slen ip = 4 -> To4 (mapped ip) = To4 ip.
Proof.
  intros Hl. unfold slen in Hl. unfold To4, mapped.
  rewrite bytes_of_bytes by (apply Forall_app; split; [repeat constructor; lia|apply bytes_range]).
  rewrite length_app, length_bytes. replace (String.length ip) with 4%nat by lia. simpl.
  destruct (bytes ip) as [|a [|b [|c [|d [|e l]]]]] eqn:E; try done;
    (assert (length (bytes ip) = 4%nat) as H4 by (rewrite length_bytes; lia); rewrite E in H4; done).
Qed.

Lemma ip_test_mapped f4 f16 ip : slen ip = 4 -> ip_test f4 f16 (mapped ip) = ip_test f4 f16 ip.
Proof.
  intros Hl. unfold ip_test. rewrite To4_mapped by done. unfold To4. rewrite length_bytes.
  unfold slen in Hl. by replace (String.length ip) with 4%nat by lia.
Qed.

(** The address policy cannot be evaded by writing an IPv4 address in its
    IPv6-mapped form, as long as the special-network list treats both alike. *)
Theorem Usable_mapped ip allowPrivate :
  (forall i, slen i = 4 -> IsSpecialNetwork (mapped i) = IsSpecialNetwork i) ->
  slen ip = 4 -> Usable (mapped ip) allowPrivate = Usable ip allowPrivate.
Proof.
  intros Hsp Hl. unfold Usable.
  assert ((mapped ip =? "")%string = false) as -> by reflexivity.
  assert ((ip =? "")%string = false) as -> by (by destruct ip).
  unfold IsUnspecified, IsLoopback, IsMulticast, IsLinkLocalUnicast, IsLinkLocalMulticast, IsPrivate, cgnat, classE, net4Contains.
  rewrite !ip_test_mapped, To4_mapped, Hsp by done. done.
Qed.

(** Special-use addresses are never usable, whatever the devnet switch says,
    and that switch decides private addresses alone. *)
Theorem Usable_policy ip :
  (Usable ip true = true ->
   IsUnspecified ip = false /\ IsLoopback ip = false /\ IsMulticast ip = false /\
   IsLinkLocalUnicast ip = false /\ IsLinkLocalMulticast ip = false /\
   (IsPrivate ip = false -> cgnat ip = false /\ classE ip = false /\ IsSpecialNetwork ip = false)) /\
  (Usable ip false = true -> Usable ip true = true /\ IsPrivate ip = false) /\
  (Usable ip true = true -> IsPrivate ip = false -> Usable ip false = true).
Proof.
  unfold Usable.
  destruct (_ || IsLinkLocalMulticast ip) eqn:E; boolify; [by split_and!|].
  destruct (IsPrivate ip), (cgnat ip || classE ip) eqn:E2, (IsSpecialNetwork ip); cbn [negb]; boolify;
    intuition congruence.
Qed.
End Policy.

Lemma Usable_mapped_witness :
  let special : SpecialNetworks := fun ip => match To4 ip with Some b => byte_at b 0 =? 192 | None => false end in
  Usable (mapped (of_bytes [10; 1; 2; 3])) false = Usable (of_bytes [10; 1; 2; 3]) false.
Proof.
  intros special. apply (Usable_mapped (of_bytes [10; 1; 2; 3]) false); [|reflexivity].
  intros i Hi. unfold IsSpecialNetwork, special. by rewrite To4_mapped.
Defined.
