(* ===== verification/Heap.v ===== *)
(** [container/heap] as the repository uses it, and [topK] of
    [internal/nodeset/nodeset.go], the bounded selection built on it.

    A heap is the list behind its slice.  [up] and [down] are the sift loops of
    the Go standard library over a comparison [less] on elements; the fuel is the
    length of the list, and every iteration moves the index strictly up or down
    the tree, so it never runs out. *)

From stdpp Require Import base sets list numbers sorting.
From Stdlib Require Import ZArith Lia.
From S2P Require Import Prelude.

Local Open Scope nat_scope.

(** * Sifting *)

Section Heap.
Context {T : Type} (less : T -> T -> bool).

(** [h.Swap(i, j)]; out of range the Go code panics and the model does nothing. *)
Definition hswap (l : list T) (i j : nat) : list T :=
  match l !! i, l !! j with Some x, Some y => <[i := y]> (<[j := x]> l) | _, _ => l end.

(** [h.Less(i, j)]. *)
Definition hless (l : list T) (i j : nat) : bool :=
  match l !! i, l !! j with Some x, Some y => less x y | _, _ => false end.

Definition parent (j : nat) : nat := (j - 1) / 2.

Fixpoint up (fuel : nat) (l : list T) (j : nat) : list T :=
  match fuel with
  | O => l
  | S fuel' =>
      let i := parent j in
      if (i =? j) || negb (hless l j i) then l else up fuel' (hswap l i j) i
  end.

(** Returns the final index beside the list, since [Fix] asks whether it moved. *)
Fixpoint down (fuel : nat) (l : list T) (i n : nat) : list T * nat :=
  match fuel with
  | O => (l, i)
  | S fuel' =>
      let j1 := 2 * i + 1 in
      if n <=? j1 then (l, i)
      else
        let j := if (j1 + 1 <? n) && hless l (j1 + 1) j1 then j1 + 1 else j1 in
        if negb (hless l j i) then (l, i) else down fuel' (hswap l i j) j n
  end.

Definition heap_Push (l : list T) (x : T) : list T :=
  let l := l ++ [x] in up (length l) l (length l - 1).

Definition heap_Fix (l : list T) (i : nat) : list T :=
  let (l', i') := down (length l) l i (length l) in
  if i <? i' then l' else up (length l) l' i.

(** [heap.Pop]: the root and the rest. *)
Definition heap_Pop (l : list T) : option (T * list T) :=
  match l with
  | [] => None
  | _ =>
      let n := length l - 1 in
      let l := fst (down (length l) (hswap l 0 n) 0 n) in
      match l !! n with Some x => Some (x, take n l) | None => None end
  end.

(** * Swapping *)

Lemma length_hswap l i j : length (hswap l i j) = length l.
Proof. unfold hswap. destruct (l !! i), (l !! j); by rewrite ?length_insert. Qed.

Lemma hswap_some l i j x y : l !! i = Some x -> l !! j = Some y -> hswap l i j = <[i := y]> (<[j := x]> l).
Proof. unfold hswap. by intros -> ->. Qed.

Lemma hswap_perm l i j : hswap l i j ≡ₚ l.
Proof.
  unfold hswap. destruct (l !! i) as [x|] eqn:Hi; [|done]. destruct (l !! j) as [y|] eqn:Hj; [|done].
  by apply Permutation_insert_swap.
Qed.

Lemma lookup_hswap l i j k :
  i < length l -> j < length l -> i <> j ->
  hswap l i j !! k = if decide (k = i) then l !! j else if decide (k = j) then l !! i else l !! k.
Proof.
  intros Hi Hj Hij. apply lookup_lt_is_Some in Hi as [x Hx]. apply lookup_lt_is_Some in Hj as [y Hy].
  rewrite (hswap_some l i j x y Hx Hy). pose proof (lookup_lt_Some _ _ _ Hx). pose proof (lookup_lt_Some _ _ _ Hy).
  destruct (decide (k = i)) as [->|Hk].
  - rewrite list_lookup_insert_eq by (rewrite length_insert; done). done.
  - rewrite list_lookup_insert_ne by done. destruct (decide (k = j)) as [->|Hk'].
    + by rewrite list_lookup_insert_eq.
    + by rewrite list_lookup_insert_ne.
Qed.

Lemma parent_lt j : 0 < j -> parent j < j.
Proof. intros. unfold parent. pose proof (Nat.Div0.div_le_upper_bound (j - 1) 2 (j - 1)). lia. Qed.

Lemma parent_children i j : 0 < j -> parent j = i <-> j = 2 * i + 1 \/ j = 2 * i + 2.
Proof.
  intros Hj. unfold parent. pose proof (Nat.div_mod_eq (j - 1) 2). pose proof (Nat.mod_upper_bound (j - 1) 2). lia.
Qed.

Lemma up_perm fuel l j : up fuel l j ≡ₚ l.
Proof.
  revert l j. induction fuel as [|fuel IH]; intros l j; simpl; [done|].
  destruct (_ || _); [done|]. by rewrite IH, hswap_perm.
Qed.

Lemma down_perm fuel l i n : fst (down fuel l i n) ≡ₚ l.
Proof.
  revert l i. induction fuel as [|fuel IH]; intros l i; simpl; [done|].
  destruct (n <=? _); [done|]. destruct (negb _); [done|]. by rewrite IH, hswap_perm.
Qed.

Lemma heap_Push_perm l x : heap_Push l x ≡ₚ x :: l.
Proof. unfold heap_Push. by rewrite up_perm, Permutation_app_comm. Qed.

Lemma heap_Fix_perm l i : heap_Fix l i ≡ₚ l.
Proof.
  unfold heap_Fix. pose proof (down_perm (length l) l i (length l)) as H.
  destruct (down _ _ _ _) as [l' i']. simpl in H. destruct (_ <? _); [done|]. by rewrite up_perm.
Qed.

(** * The heap order *)

(** [less] is a strict weak order. *)
Context (less_asym : forall x y, less x y = true -> less y x = false)
        (less_ntrans : forall x y z, less y x = false -> less z y = false -> less z x = false).

(** The element at [k] is not below its parent. *)
Definition hp (l : list T) (k : nat) : Prop :=
  forall x y, l !! parent k = Some x -> l !! k = Some y -> less y x = false.

Definition heap_ok (l : list T) : Prop := forall k, 0 < k -> hp l k.

(** Heap order everywhere but at [j], whose children are not below its parent. *)
Definition up_inv (l : list T) (j : nat) : Prop :=
  (forall k, 0 < k -> k <> j -> hp l k) /\
  (forall k x y, 0 < k -> 0 < j -> parent k = j -> l !! parent j = Some x -> l !! k = Some y -> less y x = false).

Lemma up_heap fuel l j : j < length l -> j <= fuel -> up_inv l j -> heap_ok (up fuel l j).
Proof using less_asym less_ntrans.
  revert l j. induction fuel as [|fuel IH]; intros l j Hj Hf [H1 H2]; simpl.
  { assert (j = 0) as -> by lia. intros k Hk. apply H1; lia. }
  destruct (parent j =? j) eqn:E.
  { apply Nat.eqb_eq in E. destruct (decide (j = 0)) as [->|]; [|pose proof (parent_lt j); lia].
    intros k Hk. apply H1; lia. }
  apply Nat.eqb_neq in E. assert (0 < j) as Hj0 by (destruct j; [done|lia]).
  pose proof (parent_lt j Hj0) as Hp. cbn [orb].
  destruct (lookup_lt_is_Some_2 l j Hj) as [y Hy]. destruct (lookup_lt_is_Some_2 l (parent j)) as [x Hx]; [lia|].
  unfold hless. rewrite Hy, Hx. destruct (less y x) eqn:El; cbn [negb].
  2: { intros k Hk. destruct (decide (k = j)) as [->|]; [|by apply H1].
       intros x' y' Hx' Hy'. congruence. }
  apply IH; [rewrite length_hswap; lia|lia|].
  assert (forall k, hswap l (parent j) j !! k = if decide (k = parent j) then l !! j else if decide (k = j) then l !! parent j else l !! k) as Hsw.
  { intros k. apply lookup_hswap; lia. }
  split.
  - intros k Hk Hne a b. rewrite !Hsw. rewrite (decide_False (P := k = parent j)) by done.
    destruct (decide (k = j)) as [->|Hkj].
    { rewrite decide_True by done. intros Ha Hb. assert (a = y) as -> by congruence. assert (b = x) as -> by congruence.
      by apply less_asym. }
    destruct (decide (parent k = parent j)) as [He|].
    { intros Ha Hb. assert (a = y) as -> by congruence. apply less_ntrans with x; [by apply less_asym|].
      apply (H1 k Hk Hkj); [by rewrite He|done]. }
    destruct (decide (parent k = j)) as [He|]; [|by apply H1].
    intros Ha Hb. apply (H2 k); [done|done|done|by rewrite Ha|done].
  - intros k a b Hk Hpj He. rewrite !Hsw. pose proof (parent_lt _ Hpj).
    rewrite (decide_False (P := parent (parent j) = parent j)), (decide_False (P := parent (parent j) = j)) by lia.
    assert (k <> parent j) by (intros ->; pose proof (parent_lt _ Hk); lia).
    rewrite (decide_False (P := k = parent j)) by done. intros Ha.
    assert (less x a = false) as Hxa by (apply (H1 (parent j) Hpj); [lia|done|done]).
    destruct (decide (k = j)) as [->|Hkj].
    + intros Hb. congruence.
    + intros Hb. apply less_ntrans with x; [done|]. apply (H1 k Hk Hkj); [by rewrite He|done].
Qed.

Lemma heap_Push_ok l x : heap_ok l -> heap_ok (heap_Push l x).
Proof using less_asym less_ntrans.
  intros H. unfold heap_Push. rewrite length_app. simpl.
  apply up_heap; [rewrite length_app; simpl; lia|lia|]. replace (length l + 1 - 1) with (length l) by lia. split.
  - intros k Hk Hne a b Ha Hb. assert (k < length l) as Hkl.
    { apply lookup_lt_Some in Hb. rewrite length_app in Hb. simpl in Hb. lia. }
    pose proof (parent_lt k Hk). rewrite lookup_app_l in Ha, Hb by lia. by apply (H k).
  - intros k a b Hk Hl He _ Hb. apply lookup_lt_Some in Hb. rewrite length_app in Hb. simpl in Hb.
    pose proof (parent_lt k Hk). lia.
Qed.

(** Heap order below [n] in the subtrees from [b] on, everywhere but at the children
    of [i], which are not below the parent of [i]. *)
Definition down_inv (b : nat) (l : list T) (i n : nat) : Prop :=
  (forall k, 0 < k < n -> b <= parent k -> parent k <> i -> hp l k) /\
  (forall k x y, 0 < k < n -> 0 < i -> b <= parent i -> parent k = i -> l !! parent i = Some x -> l !! k = Some y -> less y x = false).

Lemma down_heap b fuel l i n :
  b <= i -> n <= length l -> n <= fuel + i -> down_inv b l i n ->
  forall k, 0 < k < n -> b <= parent k -> hp (fst (down fuel l i n)) k.
Proof using less_asym less_ntrans.
  revert l i. induction fuel as [|fuel IH]; intros l i Hbi Hn Hf [H1 H2] k Hk Hb; cbn [down fst].
  { apply H1; [done|done|]. intros He. pose proof (parent_lt k). lia. }
  destruct (Nat.leb_spec n (2 * i + 1)) as [Hle|Hlt].
  { apply H1; [done|done|]. intros He. apply (parent_children i k) in He; lia. }
  set (j := if (_ <? n) && _ then 2 * i + 1 + 1 else 2 * i + 1).
  destruct (lookup_lt_is_Some_2 l (2 * i + 1)) as [c1 Hc1]; [lia|].
  destruct (lookup_lt_is_Some_2 l i) as [x Hx]; [lia|].
  assert (exists y, l !! j = Some y /\ i < j < n /\ parent j = i /\
            forall k' z, 0 < k' < n -> parent k' = i -> l !! k' = Some z -> less z y = false) as (y & Hy & Hj & Hpj & Hmin).
  { assert (less c1 c1 = false) as Hirr by (destruct (less c1 c1) eqn:E; [by rewrite <- (less_asym _ _ E)|done]).
    subst j. unfold hless. rewrite Hc1.
    destruct (Nat.ltb_spec (2 * i + 1 + 1) n) as [H2n|H2n]; cbn [andb].
    - destruct (lookup_lt_is_Some_2 l (2 * i + 1 + 1)) as [c2 Hc2]; [lia|]. rewrite Hc2.
      assert (less c2 c2 = false) as Hirr2 by (destruct (less c2 c2) eqn:E; [by rewrite <- (less_asym _ _ E)|done]).
      destruct (less c2 c1) eqn:E.
      + exists c2. split_and!; [done|lia|lia|apply parent_children; lia|].
        intros k' z Hk' He Hz. apply parent_children in He as [->| ->]; [| |lia].
        * assert (z = c1) as -> by congruence. by apply less_asym.
        * replace (2 * i + 2) with (2 * i + 1 + 1) in Hz by lia. congruence.
      + exists c1. split_and!; [done|lia|lia|apply parent_children; lia|].
        intros k' z Hk' He Hz. apply parent_children in He as [->| ->]; [| |lia].
        * congruence.
        * replace (2 * i + 2) with (2 * i + 1 + 1) in Hz by lia. congruence.
    - exists c1. split_and!; [done|lia|lia|apply parent_children; lia|].
      intros k' z Hk' He Hz. apply parent_children in He as [->| ->]; [congruence|lia|lia]. }
  unfold hless. rewrite Hy, Hx. destruct (less y x) eqn:El; cbn [negb fst].
  2: { destruct (decide (parent k = i)) as [He|]; [|by apply H1].
       intros a c Ha Hc. rewrite He in Ha. assert (a = x) as -> by congruence.
       apply less_ntrans with y; [done|]. by apply (Hmin k). }
  assert (forall k, hswap l i j !! k = if decide (k = i) then l !! j else if decide (k = j) then l !! i else l !! k) as Hsw.
  { intros k'. apply lookup_hswap; lia. }
  apply IH; [lia|by rewrite length_hswap|lia| |done|done]. clear k Hk Hb. split.
  - intros k Hk Hb Hpk a c. rewrite !Hsw. rewrite (decide_False (P := parent k = j)) by done.
    destruct (decide (k = i)) as [->|Hki].
    { pose proof (parent_lt i). rewrite (decide_False (P := parent i = i)) by lia. intros Ha Hc.
      apply (H2 j); [lia|lia|done|done|done|done]. }
    destruct (decide (parent k = i)) as [He|He].
    + intros Ha. assert (a = y) as -> by congruence. destruct (decide (k = j)) as [->|Hkj].
      * intros Hc. assert (c = x) as -> by congruence. by apply less_asym.
      * intros Hc. by apply (Hmin k).
    + destruct (decide (k = j)) as [->|Hkj]; [done|]. by apply H1.
  - intros k a c Hk Hj0 Hb He. rewrite !Hsw, Hpj, decide_True by done. intros Ha.
    assert (k <> i) by (intros ->; pose proof (parent_lt i); lia).
    assert (k <> j) by (intros ->; pose proof (parent_lt j); lia).
    rewrite (decide_False (P := k = i)), (decide_False (P := k = j)) by done. intros Hc.
    assert (hp l k) as Hhp by (apply H1; [done|lia|lia]). apply Hhp; [by rewrite He|done].
Qed.

(** The root is not above any element. *)
Lemma heap_root l x y k : heap_ok l -> l !! 0 = Some x -> l !! k = Some y -> less y x = false.
Proof using less_asym less_ntrans.
  intros H Hx. revert y. induction (lt_wf k) as [k _ IH]. intros y Hy. destruct (decide (k = 0)) as [->|Hk].
  - assert (y = x) as -> by congruence. destruct (less x x) eqn:E; [by rewrite <- (less_asym _ _ E)|done].
  - pose proof (parent_lt k). pose proof (lookup_lt_Some _ _ _ Hy).
    destruct (lookup_lt_is_Some_2 l (parent k)) as [z Hz]; [lia|].
    apply less_ntrans with z; [apply (IH (parent k)); [lia|done]|]. by apply (H k); [lia|..].
Qed.

(** Replacing the root and sifting restores the heap. *)
Lemma heap_Fix_root_ok v l : heap_ok l -> heap_ok (heap_Fix (<[0 := v]> l) 0).
Proof using less_asym less_ntrans.
  intros H. set (l' := <[0 := v]> l). unfold heap_Fix.
  assert (forall k, 0 < k < length l' -> hp (fst (down (length l') l' 0 (length l'))) k) as Hd.
  { intros k Hk. apply (down_heap 0); [lia|lia|lia| |done|lia]. clear k Hk. split; [|lia]. intros k Hk _ Hp a b. subst l'.
    rewrite !list_lookup_insert_ne by lia. apply H; lia. }
  pose proof (Permutation_length (down_perm (length l') l' 0 (length l'))) as Hlen.
  destruct (down _ _ _ _) as [l2 i2]. cbn [fst] in *.
  assert (heap_ok l2) as Hok.
  { intros k Hk x y Hx Hy. apply (Hd k); [|done|done]. apply lookup_lt_Some in Hy. lia. }
  destruct (0 <? i2); [done|]. by destruct (length l').
Qed.

(** A sift down leaves everything from its bound on alone. *)
Lemma down_lookup fuel l i n k : i < n -> n <= k -> n <= length l -> fst (down fuel l i n) !! k = l !! k.
Proof.
  revert l i. induction fuel as [|fuel IH]; intros l i Hi Hk Hn; cbn [down fst]; [done|].
  destruct (Nat.leb_spec n (2 * i + 1)) as [Hle|Hlt]; [done|].
  set (j := if (_ <? n) && _ then 2 * i + 1 + 1 else 2 * i + 1).
  assert (i < j < n) as Hj.
  { subst j. destruct (Nat.ltb_spec (2 * i + 1 + 1) n); cbn [andb]; [destruct (hless _ _ _)|]; lia. }
  destruct (negb _); [done|]. rewrite IH by (rewrite ?length_hswap; lia).
  rewrite lookup_hswap by lia. by rewrite !decide_False by lia.
Qed.

Lemma heap_Pop_spec l :
  heap_ok l ->
  match heap_Pop l with
  | None => l = []
  | Some (x, rest) => l !! 0 = Some x /\ l ≡ₚ x :: rest /\ heap_ok rest
  end.
Proof using less_asym less_ntrans.
  intros H. unfold heap_Pop. destruct l as [|z l0]; [done|]. set (l := z :: l0) in *.
  assert (0 < length l) as Hl by (subst l; simpl; lia). set (n := length l - 1).
  set (l1 := hswap l 0 n). set (l2 := fst (down (length l) l1 0 n)).
  assert (length l1 = length l) as Hl1 by apply length_hswap.
  assert (l2 ≡ₚ l1) as Hp2 by apply down_perm. assert (length l2 = length l) as Hl2 by (rewrite Hp2; done).
  assert (l1 !! n = l !! 0 /\ forall k, 0 < k < n -> l1 !! k = l !! k) as [Hn1 Hk1].
  { subst l1. destruct (decide (n = 0)) as [->|Hn0].
    - split; [|lia]. unfold hswap. subst l. done.
    - split; [rewrite lookup_hswap by lia; by rewrite decide_False, decide_True by done|].
      intros k Hk. rewrite lookup_hswap by lia. by rewrite !decide_False by lia. }
  assert (l2 !! n = l !! 0) as Hn2.
  { rewrite <- Hn1. subst l2. destruct (decide (n = 0)) as [->|]; [|apply down_lookup; lia].
    by destruct (length l) as [|[|]]. }
  assert (length l2 <= S n) as Hlast by (unfold n; lia).
  rewrite Hn2. cbn [lookup list_lookup] in *. subst l. cbn [lookup list_lookup].
  split; [done|]. split.
  - assert (l2 = take n l2 ++ [z]) as He.
    { rewrite <- (take_drop n l2) at 1. f_equal. erewrite drop_S by exact Hn2. rewrite drop_ge by exact Hlast. done. }
    rewrite <- (hswap_perm (z :: l0) 0 n). fold l1. rewrite <- Hp2, He at 1. by rewrite Permutation_app_comm.
  - assert (forall k, 0 < k < n -> hp l2 k) as Hd.
    { intros k Hk. apply (down_heap 0); [lia|lia|lia| |done|lia]. clear k Hk. split; [|lia].
      intros k Hk _ Hp a b. pose proof (parent_lt k ltac:(lia)). rewrite !Hk1 by lia. apply H. lia. }
    intros k Hk a b Ha Hb. assert (k < n) by (apply lookup_lt_Some in Hb; rewrite length_take in Hb; lia).
    pose proof (parent_lt k Hk). rewrite lookup_take_lt in Ha, Hb by lia. by apply (Hd k).
Qed.

(** [heap.Init]: sifts down every inner node, the last first. *)
Fixpoint init_from (i : nat) (l : list T) : list T :=
  match i with O => l | S i' => init_from i' (fst (down (length l) l i' (length l))) end.
Definition heap_Init (l : list T) : list T := init_from (length l / 2) l.

Lemma init_from_spec i l :
  (forall k, 0 < k < length l -> i <= parent k -> hp l k) -> init_from i l ≡ₚ l /\ heap_ok (init_from i l).
Proof using less_asym less_ntrans.
  revert l. induction i as [|i IH]; intros l Hi; cbn [init_from].
  - split; [done|]. intros k Hk x y Hx Hy. apply (Hi k); [|lia|done|done]. apply lookup_lt_Some in Hy. lia.
  - pose proof (down_perm (length l) l i (length l)) as Hp. destruct (IH (fst (down (length l) l i (length l)))) as [Hp' Hok].
    + intros k Hk Hpk. rewrite Hp in Hk. apply (down_heap i); [lia|lia|lia| |done|done]. split.
      2: { intros k' x y _ Hi0 Hpi. pose proof (parent_lt i Hi0). lia. }
      intros k' Hk' Hb Hne. apply Hi; [done|lia].
    + split; [by rewrite Hp', Hp|done].
Qed.

Lemma heap_Init_spec l : heap_Init l ≡ₚ l /\ heap_ok (heap_Init l).
Proof using less_asym less_ntrans.
  apply init_from_spec. intros k Hk Hp. exfalso. unfold parent in Hp.
  pose proof (Nat.div_mod_eq (k - 1) 2). pose proof (Nat.div_mod_eq (length l) 2).
  pose proof (Nat.mod_upper_bound (k - 1) 2). pose proof (Nat.mod_upper_bound (length l) 2). lia.
Qed.
End Heap.

(** * Bounded selection *)

Record topK (T : Type) := TopK { tk_items : list T; tk_limit : Z }.
Arguments TopK {T} tk_items tk_limit.
Arguments tk_items {T} t.
Arguments tk_limit {T} t.

Definition newTopK (T : Type) (limit : Z) : topK T := TopK [] (Z.max limit 0).

Section TopK.
Context {T : Type} (better : T -> T -> bool).

(** [h.Less(i, j) = h.better(h.items\[j\], h.items\[i\])]. *)
Definition topK_Less (x y : T) : bool := better y x.

Definition offer (h : topK T) (v : T) : topK T :=
  if (tk_limit h <=? 0)%Z then h
  else if (Z.of_nat (length (tk_items h)) <? tk_limit h)%Z then TopK (heap_Push topK_Less (tk_items h) v) (tk_limit h)
  else match tk_items h with
       | [] => h
       | x :: _ => if better v x then TopK (heap_Fix topK_Less (<[0 := v]> (tk_items h)) 0) (tk_limit h) else h
       end.

(** [items] are [k] of the best of [l]: nothing left out beats anything kept. *)
Definition selects (k : Z) (l items : list T) : Prop :=
  exists dropped, l ≡ₚ items ++ dropped /\
    Z.of_nat (length items) = Z.min k (Z.of_nat (length l)) /\
    forall x y, x ∈ items -> y ∈ dropped -> better y x = false.

Context (better_asym : forall x y, better x y = true -> better y x = false)
        (better_ntrans : forall x y z, better x y = false -> better y z = false -> better x z = false).

Lemma topK_Less_asym x y : topK_Less x y = true -> topK_Less y x = false.
Proof using better_asym. apply better_asym. Qed.
Lemma topK_Less_ntrans x y z : topK_Less y x = false -> topK_Less z y = false -> topK_Less z x = false.
Proof using better_ntrans. unfold topK_Less. intros. by eapply better_ntrans. Qed.

Definition topK_inv (k : Z) (l : list T) (h : topK T) : Prop :=
  tk_limit h = k /\ heap_ok topK_Less (tk_items h) /\ selects k l (tk_items h).

Lemma offer_inv k l h v : (0 <= k)%Z -> topK_inv k l h -> topK_inv k (l ++ [v]) (offer h v).
Proof using better_asym better_ntrans.
  intros Hk (Hlim & Hheap & dropped & Hl & Hlen & Hbest). unfold offer. rewrite Hlim.
  assert (Hll := Permutation_length Hl). rewrite length_app in Hll.
  destruct (Z.leb_spec k 0) as [Hk0|Hk0].
  { split_and!; [done..|]. exists (v :: dropped). rewrite length_app. simpl. split_and!.
    - by rewrite Hl, <- app_assoc, <- Permutation_cons_append.
    - lia.
    - intros x y Hx. assert (length (tk_items h) = 0) as Hz by lia. destruct (tk_items h); [by apply elem_of_nil in Hx|done]. }
  destruct (Z.ltb_spec (Z.of_nat (length (tk_items h))) k) as [Hlt|Hge].
  { assert (dropped = []) as -> by (destruct dropped; [done|simpl in Hll; lia]).
    split_and!; [done|apply heap_Push_ok; [apply topK_Less_asym|apply topK_Less_ntrans|done]|].
    exists []. rewrite app_nil_r in *. cbn [tk_items tk_limit]. rewrite heap_Push_perm, Hl, length_app. simpl. split_and!.
    - by rewrite <- Permutation_cons_append.
    - simpl in *. lia.
    - by intros ? ? _ ?%elem_of_nil. }
  destruct (tk_items h) as [|r items] eqn:Ei; [simpl in *; lia|].
  assert (forall y, y ∈ r :: items -> better r y = false) as Hroot.
  { intros y [i Hy]%list_elem_of_lookup. change (better r y) with (topK_Less y r).
    eapply heap_root; [apply topK_Less_asym|apply topK_Less_ntrans|exact Hheap|done|exact Hy]. }
  destruct (better v r) eqn:Ev.
  - split_and!; [done|apply heap_Fix_root_ok; [apply topK_Less_asym|apply topK_Less_ntrans|done]|].
    exists (r :: dropped). cbn [tk_items]. simpl insert. split_and!.
    + rewrite heap_Fix_perm, Hl. rewrite <- Permutation_cons_append. simpl. by rewrite <- Permutation_middle.
    + rewrite (Permutation_length (heap_Fix_perm _ _ _)), length_app. simpl in *. lia.
    + intros x y Hx Hy. rewrite heap_Fix_perm in Hx.
      assert (better r x = false) as Hrx.
      { apply elem_of_cons in Hx as [->|Hx]; [by apply better_asym|]. apply Hroot. by right. }
      apply elem_of_cons in Hy as [->|Hy]; [done|]. apply better_ntrans with r; [|done].
      apply Hbest; [left|done].
  - split_and!; [done|by rewrite Ei|]. rewrite Ei. exists (v :: dropped). split_and!.
    + by rewrite Hl, <- app_assoc, <- Permutation_cons_append.
    + rewrite length_app. simpl in *. lia.
    + intros x y Hx [->|Hy]%elem_of_cons; [|by apply Hbest].
      apply better_ntrans with r; [done|by apply Hroot].
Qed.

Lemma offers_inv limit l : topK_inv (Z.max limit 0) l (foldl offer (newTopK T limit) l).
Proof using better_asym better_ntrans.
  induction l as [|v l IH] using rev_ind.
  - split_and!; [done|by intros k Hk x y _ ?|]. exists []. simpl. split_and!; [done|lia|].
    by intros ? ? ?%elem_of_nil.
  - rewrite foldl_app. apply offer_inv; [lia|done].
Qed.

Lemma offers_select limit l : selects (Z.max limit 0) l (tk_items (foldl offer (newTopK T limit) l)).
Proof using better_asym better_ntrans. apply offers_inv. Qed.

(** A total order on the offered elements makes the selection unique. *)
Lemma selects_unique k l l' a b :
  (forall x y, x ∈ l -> y ∈ l -> better x y = false -> better y x = false -> x = y) ->
  NoDup l -> l ≡ₚ l' -> selects k l a -> selects k l' b -> a ≡ₚ b.
Proof.
  clear better_asym better_ntrans. intros Htot Hnd Hll (da & Hla & Hlena & Ha) (db & Hlb & Hlenb & Hb).
  assert (NoDup (a ++ da)) as Hnda by (by rewrite <- Hla).
  assert (NoDup (b ++ db)) as Hndb by (by rewrite <- Hlb, <- Hll).
  apply NoDup_app in Hnda as (Hnda & Hdja & _). apply NoDup_app in Hndb as (Hndb & Hdjb & _).
  assert (length a = length b) as Hlen by (apply Permutation_length in Hll; lia).
  apply submseteq_length_Permutation; [|lia]. apply NoDup_submseteq; [done|]. intros x Hx.
  assert (x ∈ l') as Hxl by (rewrite <- Hll, Hla; set_solver).
  rewrite Hlb in Hxl. apply elem_of_app in Hxl as [?|Hxdb]; [done|]. exfalso.
  assert (forall u : list T, (forall y, y ∈ u -> y ∈ b) -> (forall y, y ∈ u -> y ∈ a) \/ exists y, y ∈ u /\ y ∈ da) as Hsplit.
  { induction u as [|y u IH]; intros Hu; [left; by intros ? ?%elem_of_nil|].
    assert (y ∈ l) as Hyl by (rewrite Hll, Hlb; apply elem_of_app; left; apply Hu; left).
    rewrite Hla in Hyl. apply elem_of_app in Hyl as [Hya|Hyd]; [|right; exists y; split; [left|done]].
    destruct IH as [IH|(z & ? & ?)]; [intros z Hz; apply Hu; by right| |right; exists z; split; [by right|done]].
    left. intros z [->|Hz]%elem_of_cons; [done|by apply IH]. }
  destruct (Hsplit b) as [Hba|(y & Hyb & Hyd)]; [done| |].
  - assert (x :: b ⊆+ a) as Hs.
    { apply NoDup_submseteq; [constructor; [intros Hxb; by apply (Hdjb x)|done]|].
      intros z [->|Hz]%elem_of_cons; [done|by apply Hba]. }
    apply submseteq_length in Hs. simpl in Hs. lia.
  - assert (x = y) as <-; [|by apply (Hdja x)].
    apply Htot; [rewrite Hla; set_solver|rewrite Hla; set_solver|by apply Hb|by apply Ha].
Qed.
End TopK.
