(* ===== verification/NodeData.v ===== *)
(** [internal/nodeset/nodeset.go], part one: the data model.

    [Node] is the retained state of one identity, [extracted] what one signed
    record says, [Row] the published form.  Go's [int] fields are unbounded here
    where the source only counts ports and scores; the narrowing conversions of
    [row] are written out.  [Lat] and [Lon] are the bit patterns of the source's
    [float64] fields, which are only copied.

    A record as go-ethereum decodes it ([enode.Node]) is third-party data: [ENode]
    lists the entries the source loads from it, each [None] when [Load] fails. *)

From stdpp Require Import base gmap strings list numbers.
From Stdlib Require Import ZArith Lia.
From S2P Require Import Prelude GoLib ForkId.

(** The consensus schedule a record advertises. *)
Record ENRForkSchedule := MkSchedule { es_Digest : string; es_NextVersion : string; es_NextEpoch : Z }.
Definition noSchedule : ENRForkSchedule := MkSchedule "" "" 0.

Record Node := MkNode {
  n_ID : string; n_Enode : string; n_ENR : string; n_Seq : Z;
  n_IP : string; n_IP6 : string; n_TCP : Z; n_UDP : Z;
  n_TCP6 : Z; n_UDP6 : Z; n_QUIC : Z; n_QUIC6 : Z;
  n_Network : string; n_ForkHash : string; n_ForkNext : Z; n_Layer : string;
  n_CGC : Z; n_CGCKnown : bool; n_HasV4 : bool; n_HasV5 : bool;
  n_Score : Z; n_FirstSeen : Time; n_LastSeen : Time; n_LastCheck : Time;
  n_LastResolved : Time; n_ENRSchedule : ENRForkSchedule; n_Head : Z; n_HeadObservedAt : Time;
  n_Client : string; n_ClientVersion : string; n_OS : string; n_Lang : string;
  n_Capabilities : string; n_MembershipSource : string; n_MembershipVerifiedAt : Time; n_ForkSource : string;
  n_ForkObservedAt : Time; n_FPDirection : string; n_Country : string; n_City : string;
  n_Subdivision : string; n_Lat : Z; n_Lon : Z; n_ASN : Z;
  n_Org : string; n_Hosting : bool; n_HostingKnown : bool; n_Geolocated : bool;
  n_GeoAccuracyRadiusKM : Z; n_fpAttempts : Z; n_fpInFlight : bool; n_fpDone : bool;
  n_fpRefreshDue : bool; n_fpRefresh : bool; n_fpAt : Time; n_fpNext : Time;
  n_pinned : bool; n_statusCreditAt : Time }.
#[export] Instance eta_Node : Eta Node := fun n =>
  MkNode (n_ID n) (n_Enode n) (n_ENR n) (n_Seq n) (n_IP n) (n_IP6 n)
    (n_TCP n) (n_UDP n) (n_TCP6 n) (n_UDP6 n) (n_QUIC n) (n_QUIC6 n)
    (n_Network n) (n_ForkHash n) (n_ForkNext n) (n_Layer n) (n_CGC n) (n_CGCKnown n)
    (n_HasV4 n) (n_HasV5 n) (n_Score n) (n_FirstSeen n) (n_LastSeen n) (n_LastCheck n)
    (n_LastResolved n) (n_ENRSchedule n) (n_Head n) (n_HeadObservedAt n) (n_Client n) (n_ClientVersion n)
    (n_OS n) (n_Lang n) (n_Capabilities n) (n_MembershipSource n) (n_MembershipVerifiedAt n) (n_ForkSource n)
    (n_ForkObservedAt n) (n_FPDirection n) (n_Country n) (n_City n) (n_Subdivision n) (n_Lat n)
    (n_Lon n) (n_ASN n) (n_Org n) (n_Hosting n) (n_HostingKnown n) (n_Geolocated n)
    (n_GeoAccuracyRadiusKM n) (n_fpAttempts n) (n_fpInFlight n) (n_fpDone n) (n_fpRefreshDue n) (n_fpRefresh n)
    (n_fpAt n) (n_fpNext n) (n_pinned n) (n_statusCreditAt n).
#[export] Instance upd_n_ID : Upd n_ID. Proof. derive_upd. Defined.
#[export] Instance upd_n_Enode : Upd n_Enode. Proof. derive_upd. Defined.
#[export] Instance upd_n_ENR : Upd n_ENR. Proof. derive_upd. Defined.
#[export] Instance upd_n_Seq : Upd n_Seq. Proof. derive_upd. Defined.
#[export] Instance upd_n_IP : Upd n_IP. Proof. derive_upd. Defined.
#[export] Instance upd_n_IP6 : Upd n_IP6. Proof. derive_upd. Defined.
#[export] Instance upd_n_TCP : Upd n_TCP. Proof. derive_upd. Defined.
#[export] Instance upd_n_UDP : Upd n_UDP. Proof. derive_upd. Defined.
#[export] Instance upd_n_TCP6 : Upd n_TCP6. Proof. derive_upd. Defined.
#[export] Instance upd_n_UDP6 : Upd n_UDP6. Proof. derive_upd. Defined.
#[export] Instance upd_n_QUIC : Upd n_QUIC. Proof. derive_upd. Defined.
#[export] Instance upd_n_QUIC6 : Upd n_QUIC6. Proof. derive_upd. Defined.
#[export] Instance upd_n_Network : Upd n_Network. Proof. derive_upd. Defined.
#[export] Instance upd_n_ForkHash : Upd n_ForkHash. Proof. derive_upd. Defined.
#[export] Instance upd_n_ForkNext : Upd n_ForkNext. Proof. derive_upd. Defined.
#[export] Instance upd_n_Layer : Upd n_Layer. Proof. derive_upd. Defined.
#[export] Instance upd_n_CGC : Upd n_CGC. Proof. derive_upd. Defined.
#[export] Instance upd_n_CGCKnown : Upd n_CGCKnown. Proof. derive_upd. Defined.
#[export] Instance upd_n_HasV4 : Upd n_HasV4. Proof. derive_upd. Defined.
#[export] Instance upd_n_HasV5 : Upd n_HasV5. Proof. derive_upd. Defined.
#[export] Instance upd_n_Score : Upd n_Score. Proof. derive_upd. Defined.
#[export] Instance upd_n_FirstSeen : Upd n_FirstSeen. Proof. derive_upd. Defined.
#[export] Instance upd_n_LastSeen : Upd n_LastSeen. Proof. derive_upd. Defined.
#[export] Instance upd_n_LastCheck : Upd n_LastCheck. Proof. derive_upd. Defined.
#[export] Instance upd_n_LastResolved : Upd n_LastResolved. Proof. derive_upd. Defined.
#[export] Instance upd_n_ENRSchedule : Upd n_ENRSchedule. Proof. derive_upd. Defined.
#[export] Instance upd_n_Head : Upd n_Head. Proof. derive_upd. Defined.
#[export] Instance upd_n_HeadObservedAt : Upd n_HeadObservedAt. Proof. derive_upd. Defined.
#[export] Instance upd_n_Client : Upd n_Client. Proof. derive_upd. Defined.
#[export] Instance upd_n_ClientVersion : Upd n_ClientVersion. Proof. derive_upd. Defined.
#[export] Instance upd_n_OS : Upd n_OS. Proof. derive_upd. Defined.
#[export] Instance upd_n_Lang : Upd n_Lang. Proof. derive_upd. Defined.
#[export] Instance upd_n_Capabilities : Upd n_Capabilities. Proof. derive_upd. Defined.
#[export] Instance upd_n_MembershipSource : Upd n_MembershipSource. Proof. derive_upd. Defined.
#[export] Instance upd_n_MembershipVerifiedAt : Upd n_MembershipVerifiedAt. Proof. derive_upd. Defined.
#[export] Instance upd_n_ForkSource : Upd n_ForkSource. Proof. derive_upd. Defined.
#[export] Instance upd_n_ForkObservedAt : Upd n_ForkObservedAt. Proof. derive_upd. Defined.
#[export] Instance upd_n_FPDirection : Upd n_FPDirection. Proof. derive_upd. Defined.
#[export] Instance upd_n_Country : Upd n_Country. Proof. derive_upd. Defined.
#[export] Instance upd_n_City : Upd n_City. Proof. derive_upd. Defined.
#[export] Instance upd_n_Subdivision : Upd n_Subdivision. Proof. derive_upd. Defined.
#[export] Instance upd_n_Lat : Upd n_Lat. Proof. derive_upd. Defined.
#[export] Instance upd_n_Lon : Upd n_Lon. Proof. derive_upd. Defined.
#[export] Instance upd_n_ASN : Upd n_ASN. Proof. derive_upd. Defined.
#[export] Instance upd_n_Org : Upd n_Org. Proof. derive_upd. Defined.
#[export] Instance upd_n_Hosting : Upd n_Hosting. Proof. derive_upd. Defined.
#[export] Instance upd_n_HostingKnown : Upd n_HostingKnown. Proof. derive_upd. Defined.
#[export] Instance upd_n_Geolocated : Upd n_Geolocated. Proof. derive_upd. Defined.
#[export] Instance upd_n_GeoAccuracyRadiusKM : Upd n_GeoAccuracyRadiusKM. Proof. derive_upd. Defined.
#[export] Instance upd_n_fpAttempts : Upd n_fpAttempts. Proof. derive_upd. Defined.
#[export] Instance upd_n_fpInFlight : Upd n_fpInFlight. Proof. derive_upd. Defined.
#[export] Instance upd_n_fpDone : Upd n_fpDone. Proof. derive_upd. Defined.
#[export] Instance upd_n_fpRefreshDue : Upd n_fpRefreshDue. Proof. derive_upd. Defined.
#[export] Instance upd_n_fpRefresh : Upd n_fpRefresh. Proof. derive_upd. Defined.
#[export] Instance upd_n_fpAt : Upd n_fpAt. Proof. derive_upd. Defined.
#[export] Instance upd_n_fpNext : Upd n_fpNext. Proof. derive_upd. Defined.
#[export] Instance upd_n_pinned : Upd n_pinned. Proof. derive_upd. Defined.
#[export] Instance upd_n_statusCreditAt : Upd n_statusCreditAt. Proof. derive_upd. Defined.

Definition emptyNode : Node := MkNode "" "" "" 0 "" "" 0 0 0 0 0 0 "" "" 0 "" 0 false false false 0 zeroTime zeroTime zeroTime zeroTime noSchedule 0 zeroTime "" "" "" "" "" "" zeroTime "" zeroTime "" "" "" "" 0 0 0 "" false false false 0 0 false false false false zeroTime zeroTime false zeroTime.

Record extracted := Extracted {
  e_enode : string; e_enr : string; e_seq : Z; e_ip : string;
  e_ip6 : string; e_tcp : Z; e_udp : Z; e_tcp6 : Z;
  e_udp6 : Z; e_quic : Z; e_quic6 : Z; e_network : string;
  e_forkHash : string; e_forkNext : Z; e_layer : string; e_cgc : Z;
  e_cgcKnown : bool; e_client : string; e_version : string; e_schedule : ENRForkSchedule }.
#[export] Instance eta_extracted : Eta extracted := fun n =>
  Extracted (e_enode n) (e_enr n) (e_seq n) (e_ip n) (e_ip6 n) (e_tcp n)
    (e_udp n) (e_tcp6 n) (e_udp6 n) (e_quic n) (e_quic6 n) (e_network n)
    (e_forkHash n) (e_forkNext n) (e_layer n) (e_cgc n) (e_cgcKnown n) (e_client n)
    (e_version n) (e_schedule n).
#[export] Instance upd_e_network : Upd e_network. Proof. derive_upd. Defined.
#[export] Instance upd_e_layer : Upd e_layer. Proof. derive_upd. Defined.

Record Row := MkRow {
  r_ID : string; r_Enode : string; r_ENR : string; r_Seq : Z;
  r_IP : string; r_IP6 : string; r_TCP : Z; r_UDP : Z;
  r_TCP6 : Z; r_UDP6 : Z; r_QUIC : Z; r_QUIC6 : Z;
  r_Network : string; r_ForkHash : string; r_ForkNext : Z; r_Layer : string;
  r_CGC : Z; r_CGCKnown : bool; r_HasV4 : bool; r_HasV5 : bool;
  r_Score : Z; r_FirstSeen : Z; r_LastSeen : Z; r_LastCheck : Z;
  r_LastResolved : Z; r_Client : string; r_Version : string; r_OS : string;
  r_Lang : string; r_Caps : string; r_Country : string; r_City : string;
  r_Subdivision : string; r_Lat : Z; r_Lon : Z; r_ASN : Z;
  r_Org : string; r_Hosting : bool; r_HostingKnown : bool; r_Geolocated : bool;
  r_GeoAccuracyRadiusKM : Z; r_FPStatus : string; r_FPAttempts : Z; r_FPAt : Z;
  r_FPNext : Z; r_MembershipSource : string; r_MembershipVerifiedAt : Z; r_ForkSource : string;
  r_ForkObservedAt : Z; r_FPDirection : string; r_Pinned : bool; r_Head : Z;
  r_HeadObservedAt : Z; r_ENRForkDigest : string; r_ENRNextForkVersion : string; r_ENRNextForkEpoch : Z }.
#[export] Instance eta_Row : Eta Row := fun n =>
  MkRow (r_ID n) (r_Enode n) (r_ENR n) (r_Seq n) (r_IP n) (r_IP6 n)
    (r_TCP n) (r_UDP n) (r_TCP6 n) (r_UDP6 n) (r_QUIC n) (r_QUIC6 n)
    (r_Network n) (r_ForkHash n) (r_ForkNext n) (r_Layer n) (r_CGC n) (r_CGCKnown n)
    (r_HasV4 n) (r_HasV5 n) (r_Score n) (r_FirstSeen n) (r_LastSeen n) (r_LastCheck n)
    (r_LastResolved n) (r_Client n) (r_Version n) (r_OS n) (r_Lang n) (r_Caps n)
    (r_Country n) (r_City n) (r_Subdivision n) (r_Lat n) (r_Lon n) (r_ASN n)
    (r_Org n) (r_Hosting n) (r_HostingKnown n) (r_Geolocated n) (r_GeoAccuracyRadiusKM n) (r_FPStatus n)
    (r_FPAttempts n) (r_FPAt n) (r_FPNext n) (r_MembershipSource n) (r_MembershipVerifiedAt n) (r_ForkSource n)
    (r_ForkObservedAt n) (r_FPDirection n) (r_Pinned n) (r_Head n) (r_HeadObservedAt n) (r_ENRForkDigest n)
    (r_ENRNextForkVersion n) (r_ENRNextForkEpoch n).

(** ** Records as go-ethereum decodes them *)

Record ENode := MkENode {
  en_ID : string; en_Seq : Z; en_URLv4 : string; en_Text : string;
  en_IPv4 : option string; en_IPv6 : option string;
  en_TCP : option Z; en_UDP : option Z; en_TCP6 : option Z; en_UDP6 : option Z;
  en_QUIC : option Z; en_QUIC6 : option Z;
  en_Eth : option forkID; en_Attnets : option string; en_Eth2 : option string;
  en_CGC : option string; en_Client : option (list string) }.

(** [enode.Parse] with the valid schemes, and [enode.ParseV4]. *)
Class EnodeCodec := { parseENR : string -> option ENode; ParseV4 : string -> option ENode }.

(** ** Results *)

Record Observation := MkObservation {
  ob_Accepted : bool; ob_Applied : bool; ob_Changed : bool; ob_New : bool;
  ob_Reject : string; ob_Evicted : Z; ob_EvictedClass : string }.
Definition reject (why : string) : Observation := MkObservation false false false false why 0 "".

Record FingerprintRetry := MkRetry { re_Attempts : Z; re_RetryAt : Time; re_BecameFailed : bool; re_Refresh : bool }.
Definition noRetry : FingerprintRetry := MkRetry 0 zeroTime false false.

Record FingerprintClaim := MkClaim { fc_Layer : string; fc_Network : string; fc_IP : option string }.
Record Fingerprint := MkFingerprint { fp_Client : string; fp_Version : string; fp_OS : string; fp_Lang : string; fp_Caps : string }.
Record FingerprintState := MkFingerprintState { fs_Status : string; fs_Attempts : Z }.
Record Stats := MkStats {
  st_Len : Z; st_Unclassified : Z; st_ELCandidates : Z; st_Classes : list Z; st_Candidates : list FingerprintState }.

Record fingerprintCandidate := FpCandidate {
  cd_enr : string; cd_enode : string; cd_due : Time; cd_score : Z; cd_id : string; cd_unpromoted : bool }.

(** ** The set *)

Record NodeSet := MkSet { s_m : gmap string Node; s_max : Z; s_candidates : Z }.
#[export] Instance eta_NodeSet : Eta NodeSet := fun s => MkSet (s_m s) (s_max s) (s_candidates s).
#[export] Instance upd_s_m : Upd s_m. Proof. derive_upd. Defined.
#[export] Instance upd_s_candidates : Upd s_candidates. Proof. derive_upd. Defined.
