(* ===== verification/Nodeset.v ===== *)
(** [internal/nodeset/nodeset.go], part two: every operation of the node set.

    Each critical section under [s.mu] is one function; an operation with two
    sections ([observe], the authenticated observations) is composed of two.
    [range s.m] visits the entries in Go's random order; the functions use the
    map's canonical enumeration, and [Eviction] proves the choice irrelevant. *)

From stdpp Require Import base gmap strings list numbers sorting.
From Stdlib Require Import ZArith Lia.
From S2P Require Import Prelude GoLib ForkId NetIP Heap NodeData.

(** What the set asks of [netconf] and [clientname]. *)
Class Classifier := {
  classifyEL : forkID -> string;
  classifyCL : string -> string;
  canonicalVersion : string -> string -> string -> string
}.

(** * Constants *)

Definition scoreCap : Z := 10.
Definition scoreInit : Z := 1.
Definition dropBelow : Z := 0.
Definition penaltyStep : Z := 2.
Definition fpFailedAfter : Z := 3.
Definition fpRefreshAge : Duration := 24 * Hour.
Definition statusReverifyGap : Duration := 30 * Minute.
Definition fpRetrySchedule : list Duration := [1 * Minute; 5 * Minute; 15 * Minute; 1 * Hour; 3 * Hour; 6 * Hour].
Definition capacityClassNames : list string := ["verified"; "classified"; "unclassified"; "fallback"].
Definition ClassName (i : nat) : string := default "" (capacityClassNames !! i).

Section Set_.
Context `{SpecialNetworks} `{Classifier} `{EnodeCodec} (AllowPrivateIPs : bool).

(** * One node *)

Definition isELCandidate (n : Node) : bool := (n_Layer n =? "el")%string && (n_Network n =? "")%string.

Definition clearFingerprintLocked (n : Node) : Node :=
  let n := n <| n_Client := "" |> <| n_ClientVersion := "" |> <| n_OS := "" |> <| n_Lang := "" |> <| n_Capabilities := "" |>
    <| n_FPDirection := "" |> <| n_fpAt := zeroTime |> <| n_fpDone := false |> <| n_fpRefreshDue := false |>
    <| n_fpAttempts := 0 |> <| n_fpNext := zeroTime |> in
  if n_fpInFlight n then n <| n_fpRefresh := true |> else n.

Definition capacityClass (n : Node) : Z :=
  if n_fpDone n || n_pinned n then 0
  else if n_Score n <=? dropBelow then 3
  else if negb (n_Network n =? "")%string then 1
  else 2.

Definition evictBefore (a b : Node) : bool :=
  if negb (n_Score a =? n_Score b) then n_Score a <? n_Score b
  else if negb (TEqual (n_LastResolved a) (n_LastResolved b)) then Before (n_LastResolved a) (n_LastResolved b)
  else if negb (TEqual (n_LastSeen a) (n_LastSeen b)) then Before (n_LastSeen a) (n_LastSeen b)
  else String.ltb (n_ID a) (n_ID b).

Definition fingerprintable (n : Node) : bool :=
  if (n_Layer n =? "el")%string then
    (negb (n_IP n =? "")%string && negb (n_TCP n =? 0))
    || (negb (n_IP6 n =? "")%string && (negb (n_TCP6 n =? 0) || negb (n_TCP n =? 0)))
  else if (n_Layer n =? "cl")%string then
    (negb (n_IP n =? "")%string && (negb (n_TCP n =? 0) || negb (n_QUIC n =? 0)))
    || (negb (n_IP6 n =? "")%string
        && (negb (n_TCP6 n =? 0) || negb (n_TCP n =? 0) || negb (n_QUIC6 n =? 0) || negb (n_QUIC n =? 0)))
  else false.

Definition fingerprintDue (n : Node) (now : Time) : bool :=
  if n_fpDone n && negb (n_fpRefreshDue n) then false
  else if n_fpInFlight n then false
  else if negb (fingerprintable n) then false
  else IsZero (n_fpNext n) || negb (Before now (n_fpNext n)).

Definition fpStatus (n : Node) : string :=
  if n_fpDone n && n_fpRefreshDue n then "stale"
  else if n_fpDone n then "ok"
  else if negb (fingerprintable n) then "n/a"
  else if fpFailedAfter <=? n_fpAttempts n then "failed"
  else "pending".

Definition dialIP (n : Node) : option string :=
  if negb (n_IP n =? "")%string then ParseIP (n_IP n) else ParseIP (n_IP6 n).

Definition geoAddrIs (n : Node) (ip : string) : bool :=
  if (ip =? "")%string then false
  else
    let preferred := if (n_IP n =? "")%string then n_IP6 n else n_IP n in
    negb (preferred =? "")%string && parsed_equals preferred ip.

Definition snapshotEligible (n : Node) : bool :=
  if negb (n_Layer n =? "el")%string && negb (n_Layer n =? "cl")%string then false
  else if (n_ENR n =? "")%string && negb (n_HasV4 n) && negb (n_HasV5 n) && negb (n_pinned n) && (n_Score n <=? scoreInit)
  then false
  else (dropBelow <? n_Score n) || n_fpDone n || n_pinned n.

(** Returns the node and whether it should be deleted. *)
Definition penalizeLocked (cur : Node) : Node * bool :=
  let cur := cur <| n_Score := godiv (n_Score cur) 2 - penaltyStep |> in
  if dropBelow <? n_Score cur then (cur, false)
  else if negb (n_fpDone cur) && (n_fpAttempts cur =? 0) && negb (n_fpInFlight cur) then (cur, true)
  else (cur <| n_Score := dropBelow |>, false).

(** The part of [touchObservationLocked] after the score. *)
Definition touchSeen (cur : Node) (via : string) (now : Time) (failedResolution pin : bool) : Node :=
  let cur := if pin then cur <| n_Score := scoreCap |> <| n_pinned := true |> else cur in
  let cur := cur <| n_LastSeen := now |> <| n_LastCheck := now |> in
  let cur := if negb failedResolution && ((via =? "v4")%string || (via =? "v5")%string) then cur <| n_LastResolved := now |> else cur in
  if (via =? "v4")%string then cur <| n_HasV4 := true |>
  else if (via =? "v5")%string then cur <| n_HasV5 := true |>
  else cur.

Definition touchObservationLocked (cur : Node) (via : string) (now : Time) (existed failedResolution pin : bool) : Node * bool :=
  if existed && failedResolution && negb (n_pinned cur) then
    let (cur, drop) := penalizeLocked cur in
    if drop then (cur, true) else (touchSeen cur via now failedResolution pin, false)
  else
    let cur := if existed && negb failedResolution && (n_Score cur <? scoreCap) then cur <| n_Score := n_Score cur + 1 |> else cur in
    (touchSeen cur via now failedResolution pin, false).

Definition refreshExpired (cur : Node) (now : Time) : bool :=
  n_fpDone cur && negb (n_fpRefreshDue cur) && (IsZero (n_fpAt cur) || (fpRefreshAge <=? Sub now (n_fpAt cur))).

(** [(recordChanged, expired)]. *)
Definition fingerprintRefreshReasons (cur : Node) (next : extracted) (now : Time) : bool * bool :=
  let endpointChanged :=
    negb (e_ip next =? n_IP cur)%string || negb (e_ip6 next =? n_IP6 cur)%string
    || negb (e_tcp next =? n_TCP cur) || negb (e_tcp6 next =? n_TCP6 cur)
    || negb (e_quic next =? n_QUIC cur) || negb (e_quic6 next =? n_QUIC6 cur) in
  let clientChanged :=
    negb (n_Client cur =? "")%string && negb (e_client next =? "")%string && negb (e_client next =? n_Client cur)%string in
  (endpointChanged || clientChanged, refreshExpired cur now).

Definition clearHeadOnNetworkChangeLocked (n : Node) (network : string) : Node :=
  if negb (n_Network n =? network)%string then n <| n_Head := 0 |> <| n_HeadObservedAt := zeroTime |> else n.

Definition creditStatusSightingLocked (n : Node) (network : string) (now : Time) : Node :=
  let n :=
    if (n_MembershipSource n =? "status")%string && (n_Network n =? network)%string
       && negb (IsZero (n_statusCreditAt n)) && (statusReverifyGap <=? Sub now (n_statusCreditAt n))
    then (if n_Score n <? scoreCap then n <| n_Score := n_Score n + 1 |> else n) <| n_statusCreditAt := now |>
    else n in
  if IsZero (n_statusCreditAt n) || negb (n_Network n =? network)%string then n <| n_statusCreditAt := now |> else n.

(** The assignments from a record that every applied sighting makes. *)
Definition setEndpoints (n : Node) (e : extracted) : Node :=
  n <| n_IP := e_ip e |> <| n_IP6 := e_ip6 e |> <| n_TCP := e_tcp e |> <| n_UDP := e_udp e |>
    <| n_TCP6 := e_tcp6 e |> <| n_UDP6 := e_udp6 e |> <| n_QUIC := e_quic e |> <| n_QUIC6 := e_quic6 e |>.

(** * Reading a record *)

Definition usableIP (ip : string) : string := if Usable ip AllowPrivateIPs then IP_String ip else "".

Definition addressReject (n : ENode) : string :=
  let addrs := option_list (en_IPv4 n) ++ option_list (en_IPv6 n) in
  let present := length addrs in
  let usable := length (List.filter (fun ip => Usable ip AllowPrivateIPs) addrs) in
  if (present =? 0)%nat then "no_address"
  else if (usable =? present)%nat then ""
  else if (0 <? usable)%nat then "mixed_address"
  else "address_policy".

Definition rowAddressesUsable (r : Row) : bool :=
  let ok s := (s =? "")%string || match ParseIP s with Some ip => negb (usableIP ip =? "")%string | None => false end in
  ok (r_IP r) && ok (r_IP6 r) && (negb (r_IP r =? "")%string || negb (r_IP6 r =? "")%string).

Definition clForkSchedule (eth2 : string) : ENRForkSchedule :=
  if slen eth2 <? 16 then noSchedule
  else MkSchedule (hex_encode (stake 4 eth2)) (hex_encode (stake 4 (sdrop 4 eth2))) (le_get (stake 8 (sdrop 8 eth2))).

Definition CLForkScheduleOf (n : ENode) : ENRForkSchedule :=
  match en_Eth2 n with Some eth2 => clForkSchedule eth2 | None => noSchedule end.

Fixpoint trim_zeros (b : list Z) : list Z := match b with 0 :: b' => trim_zeros b' | _ => b end.

(** [CGCEntry.Uint32]. *)
Definition cgc_Uint32 (e : string) : Z * bool :=
  let b := trim_zeros (bytes e) in
  if (4 <? length b)%nat then (0, false) else (foldl (fun v c => wrapU32 (Z.lor (Z.shiftl v 8) c)) 0 b, true).

Definition extract (n : ENode) : extracted :=
  let hasEth := match en_Eth n with Some _ => true | None => false end in
  let loadedEth2 := match en_Eth2 n with Some _ => true | None => false end in
  let loadedAtt := match en_Attnets n with Some _ => true | None => false end in
  let eth2 := default "" (en_Eth2 n) in
  let isCL := negb hasEth && (loadedEth2 || loadedAtt) in
  let hasDigest := isCL && loadedEth2 && (4 <=? slen eth2) in
  let layer := if hasEth then "el" else if isCL then "cl" else "unknown" in
  let schedule := if hasDigest then clForkSchedule eth2 else noSchedule in
  let '(cgc, cgcKnown) := if isCL then match en_CGC n with Some c => cgc_Uint32 c | None => (0, false) end else (0, false) in
  let '(client, version) :=
    match en_Client n with
    | Some (name :: rest) =>
        let version := match rest with v :: _ => v | [] => "" end in (canonicalVersion layer name version, version)
    | _ => ("", "")
    end in
  Extracted (if isCL then "" else en_URLv4 n) (en_Text n) (en_Seq n)
    (match en_IPv4 n with Some ip => usableIP ip | None => "" end)
    (match en_IPv6 n with Some ip => usableIP ip | None => "" end)
    (default 0 (en_TCP n)) (default 0 (en_UDP n)) (default 0 (en_TCP6 n)) (default 0 (en_UDP6 n))
    (default 0 (en_QUIC n)) (default 0 (en_QUIC6 n))
    (match en_Eth n with
     | Some id => classifyEL id
     | None => if hasDigest then classifyCL (stake 4 eth2) else ""
     end)
    (match en_Eth n with
     | Some id => hex_encode (fid_Hash id)
     | None => if hasDigest then hex_encode (stake 4 eth2) else ""
     end)
    (match en_Eth n with Some id => fid_Next id | None => es_NextEpoch schedule end)
    layer cgc cgcKnown client version schedule.

Definition Inspect (n : ENode) : string * string * bool :=
  if negb (addressReject n =? "")%string then ("unknown", "", false)
  else let e := extract n in (e_layer e, e_network e, negb (e_ip e =? "")%string || negb (e_ip6 e =? "")%string).

Definition HasExecutionTCP (n : ENode) : bool :=
  negb (default 0 (en_TCP n) =? 0) || negb (default 0 (en_TCP6 n) =? 0).

Definition InspectDevnet (n : ENode) : string * string * bool :=
  let '(layer, network, routable) := Inspect n in
  (if routable && (layer =? "unknown")%string && HasExecutionTCP n then "el" else layer, network, routable).

Definition nodeRecordToEnode (enrStr enodeURL : string) : option ENode :=
  match (if negb (enrStr =? "")%string then parseENR enrStr else None) with
  | Some n => Some n
  | None => if negb (enodeURL =? "")%string then ParseV4 enodeURL else None
  end.

(** * The map and its counter *)

Definition trackCandidateLocked (was is_ : bool) (s : NodeSet) : NodeSet :=
  if is_ && negb was then s <| s_candidates := s_candidates s + 1 |>
  else if was && negb is_ then s <| s_candidates := s_candidates s - 1 |>
  else s.

Definition setNode (s : NodeSet) (id : string) (n : Node) : NodeSet := s <| s_m := <[id := n]> (s_m s) |>.

Definition deleteLocked (s : NodeSet) (id : string) : NodeSet :=
  match s_m s !! id with
  | None => s
  | Some n => let s := trackCandidateLocked (isELCandidate n) false s in s <| s_m := delete id (s_m s) |>
  end.

Definition NewWithLimit (max : Z) : NodeSet := MkSet ∅ max 0.
Definition Len (s : NodeSet) : Z := Z.of_nat (size (s_m s)).

(** ** Eviction *)

(** One iteration of the victim scan: the worst class so far and its bounded heap. *)
Definition evict_step (candClass : Z) (acc : Z * topK Node) (n : Node) : Z * topK Node :=
  let '(worst, victims) := acc in
  let c := capacityClass n in
  if (c <=? candClass) || (c <? worst) || n_pinned n then (worst, victims)
  else if worst <? c then (c, offer evictBefore (TopK [] (tk_limit victims)) n)
  else (worst, offer evictBefore victims n).

Definition evict_victims (max_ candClass : Z) (order : list Node) : Z * list Node :=
  let batch := Z.max 64 (godiv max_ 1000) in
  let '(worst, victims) := foldl (evict_step candClass) (candClass, newTopK Node batch) order in
  (worst, tk_items victims).

Definition evictForLocked (s : NodeSet) (candClass : Z) : NodeSet * Z * string :=
  let '(worst, victims) := evict_victims (s_max s) candClass (map_values (s_m s)) in
  match victims with
  | [] => (s, 0, "")
  | _ => (foldl (fun s v => deleteLocked s (n_ID v)) s victims, Z.of_nat (length victims), ClassName (Z.to_nat worst))
  end.

(** * Observation *)

(** The first section of [observe]: a record known to be stale. *)
Definition observe_stale (s : NodeSet) (n : ENode) (via : string) (now : Time) (failedResolution pin : bool)
  : option (NodeSet * Observation) :=
  match s_m s !! en_ID n with
  | Some cur =>
      if en_Seq n <? n_Seq cur then
        let (cur, drop) := touchObservationLocked cur via now true failedResolution pin in
        Some (if drop then deleteLocked s (en_ID n) else setNode s (en_ID n) cur,
              MkObservation true false false false "" 0 "")
      else None
  | None => None
  end.

(** The fingerprint consequences of a record for a node already held. *)
Definition refreshFor (cur : Node) (e : extracted) (now : Time) : Node :=
  let '(recordChanged, expired) := fingerprintRefreshReasons cur e now in
  if recordChanged || expired then
    let cur :=
      if n_fpDone cur then cur <| n_fpRefreshDue := true |>
      else cur <| n_Client := "" |> <| n_ClientVersion := "" |> <| n_OS := "" |> <| n_Lang := "" |> <| n_Capabilities := "" |>
               <| n_fpAt := zeroTime |> in
    if recordChanged && n_fpInFlight cur then cur <| n_fpRefresh := true |>
    else if negb (n_fpInFlight cur) && (recordChanged || expired) then cur <| n_fpAttempts := 0 |> <| n_fpNext := zeroTime |>
    else cur
  else cur.

Definition applyFork (cur : Node) (e : extracted) (now : Time) (sameRecordAsStatus : bool) : Node :=
  if negb (e_forkHash e =? "")%string && negb sameRecordAsStatus
     && (negb (n_ForkHash cur =? e_forkHash e)%string || negb (n_ForkNext cur =? e_forkNext e) || (n_ForkSource cur =? "")%string)
  then cur <| n_ForkHash := e_forkHash e |> <| n_ForkNext := e_forkNext e |> <| n_ForkSource := "enr" |> <| n_ForkObservedAt := now |>
  else cur.

Definition applyNetwork (cur : Node) (e : extracted) : Node :=
  if negb (e_network e =? "")%string then
    let cur :=
      if negb (n_Network cur =? e_network e)%string
      then cur <| n_MembershipSource := "enr" |> <| n_MembershipVerifiedAt := zeroTime |> <| n_Head := 0 |> <| n_HeadObservedAt := zeroTime |>
      else cur in
    let cur := cur <| n_Network := e_network e |> in
    if (n_MembershipSource cur =? "")%string then cur <| n_MembershipSource := "enr" |> else cur
  else cur.

Definition applyLayer (cur : Node) (e : extracted) : Node :=
  if negb (e_layer e =? "unknown")%string then
    let cur :=
      if negb (n_Layer cur =? e_layer e)%string then
        let was := n_Layer cur in
        let cur := cur <| n_Head := 0 |> <| n_HeadObservedAt := zeroTime |> in
        if negb (was =? "")%string then clearFingerprintLocked cur else cur
      else cur in
    cur <| n_Layer := e_layer e |>
  else cur.

(** The assignments of [observe] for a record that is applied to [cur]. *)
Definition applyRecord (cur : Node) (e : extracted) (now : Time) (ok : bool) : Node :=
  let cur := if ok then refreshFor cur e now else cur in
  let sameRecordAsStatus :=
    ok && (n_ForkSource cur =? "status")%string && (e_seq e =? n_Seq cur) && (e_enr e =? n_ENR cur)%string
    && (e_network e =? n_Network cur)%string && (e_layer e =? n_Layer cur)%string in
  let cur := setEndpoints (cur <| n_Enode := e_enode e |> <| n_ENR := e_enr e |> <| n_Seq := e_seq e |>) e in
  let cur := cur <| n_CGC := e_cgc e |> <| n_CGCKnown := e_cgcKnown e |> <| n_ENRSchedule := e_schedule e |> in
  let cur := applyLayer (applyNetwork (applyFork cur e now sameRecordAsStatus) e) e in
  if (n_Client cur =? "")%string && negb (e_client e =? "")%string
  then cur <| n_Client := e_client e |> <| n_ClientVersion := e_version e |> else cur.

(** [(set, evicted, class)] with room for a new identity, or [None] for a refusal. *)
Definition makeRoom (s : NodeSet) (network : string) (failedResolution pin : bool) : option (NodeSet * Z * string) :=
  if (0 <? s_max s) && (s_max s <=? Len s) then
    let candClass := if pin then 0 else if failedResolution then 3 else if negb (network =? "")%string then 1 else 2 in
    let '(s', evicted, class) := evictForLocked s candClass in
    if evicted =? 0 then None else Some (s', evicted, class)
  else Some (s, 0, "").

(** The second section of [observe]. *)
Definition observe_commit (s : NodeSet) (id : string) (e : extracted) (via : string) (now : Time) (failedResolution pin : bool)
  : NodeSet * Observation :=
  let step (s : NodeSet) (cur : Node) (ok : bool) (evicted : Z) (class : string) :=
    let wasCandidate := ok && isELCandidate cur in
    let (cur, drop) := touchObservationLocked cur via now ok failedResolution pin in
    if drop then (deleteLocked s id, MkObservation true false false false "" evicted class)
    else if ok && (e_seq e <? n_Seq cur) then (setNode s id cur, MkObservation true false false false "" evicted class)
    else
      let changed := negb ok || negb (e_seq e =? n_Seq cur) || negb (e_enr e =? n_ENR cur)%string || negb (e_enode e =? n_Enode cur)%string in
      let cur := applyRecord cur e now ok in
      (trackCandidateLocked wasCandidate (isELCandidate cur) (setNode s id cur),
       MkObservation true true changed (negb ok) "" evicted class) in
  match s_m s !! id with
  | Some cur => step s cur true 0 ""
  | None =>
      match makeRoom s (e_network e) failedResolution pin with
      | None => (s, reject "capacity")
      | Some (s, evicted, class) =>
          let cur := emptyNode <| n_ID := id |> <| n_FirstSeen := now |>
                       <| n_Score := if failedResolution then dropBelow else scoreInit |> in
          step (setNode s id cur) cur false evicted class
      end
  end.

Definition forceNetworkLayer (e : extracted) (forceNetwork forceLayer : string) : extracted :=
  if negb (forceNetwork =? "")%string then
    let e := e <| e_network := forceNetwork |> in
    if negb (forceLayer =? "")%string then e <| e_layer := forceLayer |>
    else if (e_layer e =? "unknown")%string && (negb (e_tcp e =? 0) || negb (e_tcp6 e =? 0)) then e <| e_layer := "el" |>
    else e
  else e.

Definition noAddress (e : extracted) : bool := (e_ip e =? "")%string && (e_ip6 e =? "")%string.

Definition observe (s : NodeSet) (n : ENode) (via : string) (now : Time) (forceNetwork forceLayer : string)
  (failedResolution pin : bool) : NodeSet * Observation :=
  let why := addressReject n in
  if negb (why =? "")%string then (s, reject why)
  else match observe_stale s n via now failedResolution pin with
  | Some r => r
  | None =>
      let e := extract n in
      if noAddress e then (s, reject "no_address")
      else observe_commit s (en_ID n) (forceNetworkLayer e forceNetwork forceLayer) via now failedResolution pin
  end.

Definition ObserveResult (s : NodeSet) (n : ENode) (via : string) (now : Time) : NodeSet * Observation :=
  observe s n via now "" "" false false.
Definition Observe (s : NodeSet) (n : ENode) (via : string) (now : Time) : NodeSet * bool :=
  let (s, o) := ObserveResult s n via now in (s, ob_Accepted o).
Definition ObserveFallbackResult (s : NodeSet) (n : ENode) (via : string) (now : Time) : NodeSet * Observation :=
  observe s n via now "" "" true false.
Definition ObserveSeedResult (s : NodeSet) (n : ENode) (network : string) (now : Time) : NodeSet * Observation :=
  observe s n "seed" now network "" false true.
Definition ObserveDevnetResult (s : NodeSet) (n : ENode) (via : string) (now : Time) : NodeSet * Observation :=
  observe s n via now "devnet" "" false false.
Definition ObserveDevnetFallbackResult (s : NodeSet) (n : ENode) (via : string) (now : Time) : NodeSet * Observation :=
  observe s n via now "devnet" "" true false.

Definition authenticatedNode (cur : Node) (forkHash : string) (forkNext : Z) (now : Time) : Node :=
  let cur := cur <| n_MembershipSource := "status" |> <| n_MembershipVerifiedAt := now |> <| n_LastResolved := now |>
    <| n_ForkHash := forkHash |> <| n_ForkNext := forkNext |> <| n_ForkSource := "status" |> <| n_ForkObservedAt := now |> in
  let cur := if IsZero (n_statusCreditAt cur) then cur <| n_statusCreditAt := now |> else cur in
  if n_Seq cur =? 0 then cur <| n_ENR := "" |> <| n_ENRSchedule := noSchedule |> else cur.

(** The second section of the authenticated observations. *)
Definition authenticate (s : NodeSet) (id layer network forkHash : string) (forkNext : Z) (now : Time) : NodeSet :=
  match s_m s !! id with
  | Some cur =>
      if (n_Layer cur =? layer)%string && (n_Network cur =? network)%string && negb (After (n_ForkObservedAt cur) now)
      then setNode s id (authenticatedNode cur forkHash forkNext now)
      else s
  | None => s
  end.

Definition ObserveAuthenticatedEL (s : NodeSet) (n : ENode) (via network forkHash : string) (forkNext : Z) (now : Time)
  : NodeSet * Observation :=
  let (s, observed) := observe s n via now network "el" false false in
  (if ob_Applied observed then authenticate s (en_ID n) "el" network forkHash forkNext now else s, observed).

Definition ObserveAuthenticatedCL (s : NodeSet) (n : ENode) (network forkHash : string) (now : Time)
  : NodeSet * Observation :=
  let (s, observed) := observe s n "inbound" now network "cl" false false in
  (if ob_Applied observed then authenticate s (en_ID n) "cl" network forkHash 0 now else s, observed).

(** The entry [ObserveCandidateEL] creates. *)
Definition newCandidate (id : string) (e : extracted) (now : Time) : Node :=
  let cur := emptyNode <| n_ID := id |> <| n_FirstSeen := now |> <| n_LastSeen := now |> <| n_LastCheck := now |>
               <| n_Score := scoreInit |> <| n_Layer := "el" |> <| n_Enode := e_enode e |> <| n_Seq := e_seq e |> in
  setEndpoints cur e.

(** Its effect on an entry already held: the sighting, then the unsigned endpoint. *)
Definition sightCandidate (cur : Node) (now : Time) : Node :=
  let cur := cur <| n_LastSeen := now |> <| n_LastCheck := now |> in
  if refreshExpired cur now then cur <| n_fpRefreshDue := true |> else cur.

Definition moveCandidate (cur : Node) (e : extracted) (now : Time) : Node :=
  let cur := if fst (fingerprintRefreshReasons cur e now) && n_fpInFlight cur then cur <| n_fpRefresh := true |> else cur in
  setEndpoints (cur <| n_Enode := e_enode e |>) e.

(** The locked section of [ObserveCandidateEL]. *)
Definition candidate_commit (s : NodeSet) (id : string) (e : extracted) (now : Time) (limit : Z) : NodeSet * Observation :=
  match s_m s !! id with
  | Some cur =>
      let cur := sightCandidate cur now in
      let unsigned := (n_Seq cur =? 0) && (n_ENR cur =? "")%string in
      if negb (isELCandidate cur) then
        (setNode s id cur,
         MkObservation true false (unsigned && fst (fingerprintRefreshReasons cur e now)) false "" 0 "")
      else
        let cur := if unsigned then moveCandidate cur e now else cur in
        (setNode s id cur, MkObservation true true false false "" 0 "")
  | None =>
      if (0 <? s_max s) && (s_max s <=? Len s) then (s, reject "capacity")
      else if (0 <? limit) && (limit <=? s_candidates s) then (s, reject "candidate_cap")
      else
        let cur := newCandidate id e now in
        if negb (fingerprintable cur) then (s, reject "no_address")
        else (setNode (s <| s_candidates := s_candidates s + 1 |>) id cur, MkObservation true true false true "" 0 "")
  end.

Definition ObserveCandidateEL (s : NodeSet) (n : ENode) (now : Time) (limit : Z) : NodeSet * Observation :=
  let why := addressReject n in
  if negb (why =? "")%string then (s, reject why)
  else
    let e := extract n in
    if noAddress e then (s, reject "no_address") else candidate_commit s (en_ID n) e now limit.

Definition SetExecutionCandidateLayer (s : NodeSet) (id : string) (limit : Z) : NodeSet * bool :=
  match s_m s !! id with
  | None => (s, false)
  | Some n =>
      if negb (n_Layer n =? "")%string then (s, false)
      else if (0 <? limit) && (limit <=? s_candidates s) && (n_Network n =? "")%string then (s, false)
      else
        let n := n <| n_Layer := "el" |> in
        if negb (fingerprintable n) then (setNode s id (n <| n_Layer := "" |>), false)
        else (trackCandidateLocked false (isELCandidate n) (setNode s id n), true)
  end.

Definition setIdentity (n : Node) (fp : Fingerprint) (direction : string) : Node :=
  n <| n_Client := fp_Client fp |> <| n_ClientVersion := fp_Version fp |> <| n_OS := fp_OS fp |> <| n_Lang := fp_Lang fp |>
    <| n_Capabilities := fp_Caps fp |> <| n_FPDirection := direction |>.

Definition SetCandidateClient (s : NodeSet) (id : string) (fp : Fingerprint) (direction : string) : NodeSet * bool :=
  match s_m s !! id with
  | Some n => if isELCandidate n then (setNode s id (setIdentity n fp direction), true) else (s, false)
  | None => (s, false)
  end.

Definition CountELCandidates (s : NodeSet) : Z := s_candidates s.

(** [attempts] without the one in flight. *)
Definition completedAttempts (n : Node) : Z :=
  if n_fpInFlight n && (0 <? n_fpAttempts n) then n_fpAttempts n - 1 else n_fpAttempts n.

Definition Stats_ (s : NodeSet) : Stats :=
  let nodes := map_values (s_m s) in
  MkStats (Len s) (Z.of_nat (length (List.filter (fun n => (n_Network n =? "")%string) nodes))) (s_candidates s)
    (map (fun c => Z.of_nat (length (List.filter (fun n => capacityClass n =? c) nodes))) [0; 1; 2; 3])
    (map (fun n => MkFingerprintState (fpStatus n) (wrapI32 (completedAttempts n))) (List.filter isELCandidate nodes)).

(** * Fingerprint scheduling *)

Definition claimNode (n : Node) : Node := n <| n_fpAttempts := n_fpAttempts n + 1 |> <| n_fpInFlight := true |>.

Definition ClaimFingerprintInfo (s : NodeSet) (id : string) (now : Time) : NodeSet * option FingerprintClaim :=
  match s_m s !! id with
  | Some n =>
      if fingerprintDue n now then
        let n := claimNode n in (setNode s id n, Some (MkClaim (n_Layer n) (n_Network n) (dialIP n)))
      else (s, None)
  | None => (s, None)
  end.

Definition ClaimFingerprintAt (s : NodeSet) (id : string) (now : Time) : NodeSet * bool :=
  let (s, c) := ClaimFingerprintInfo s id now in (s, match c with Some _ => true | None => false end).

Definition fingerprintCandidateBetter (a b : fingerprintCandidate) : bool :=
  if negb (TEqual (cd_due a) (cd_due b)) then Before (cd_due a) (cd_due b)
  else if negb (cd_score a =? cd_score b) then cd_score b <? cd_score a
  else String.ltb (cd_id a) (cd_id b).

Definition candidateOf (n : Node) : fingerprintCandidate :=
  FpCandidate (n_ENR n) (n_Enode n) (if IsZero (n_fpNext n) then n_FirstSeen n else n_fpNext n) (n_Score n) (n_ID n) (isELCandidate n).

(** The two heaps of the scan. *)
Definition scanCandidates (nodes : list Node) (now : Time) (limit unpromotedLimit : Z)
  : topK fingerprintCandidate * topK fingerprintCandidate :=
  foldl (fun '(selected, unpromoted) n =>
    if negb (fingerprintDue n now) then (selected, unpromoted)
    else
      let candidate := candidateOf n in
      if cd_unpromoted candidate then (selected, offer fingerprintCandidateBetter unpromoted candidate)
      else (offer fingerprintCandidateBetter selected candidate, unpromoted))
    (newTopK fingerprintCandidate limit, newTopK fingerprintCandidate unpromotedLimit) nodes.

(** The selection before its records are parsed. *)
Definition selectCandidates (s : NodeSet) (now : Time) (limit unpromotedLimit : Z) : list fingerprintCandidate :=
  let '(selected, unpromoted) := scanCandidates (map_values (s_m s)) now limit unpromotedLimit in
  let raw := isort (fun a b => negb (fingerprintCandidateBetter b a)) (tk_items selected ++ tk_items unpromoted) in
  take (Z.to_nat limit) raw.

Definition FingerprintCandidates (s : NodeSet) (now : Time) (limit unpromotedLimit : Z) : list ENode :=
  if limit <=? 0 then []
  else omap (fun c => nodeRecordToEnode (cd_enr c) (cd_enode c)) (selectCandidates s now limit unpromotedLimit).

Definition CurrentNode (s : NodeSet) (id : string) : option ENode :=
  match s_m s !! id with Some n => nodeRecordToEnode (n_ENR n) (n_Enode n) | None => None end.

Definition LayerOf (s : NodeSet) (id : string) : string := match s_m s !! id with Some n => n_Layer n | None => "" end.
Definition NetworkOf (s : NodeSet) (id : string) : string := match s_m s !! id with Some n => n_Network n | None => "" end.
Definition IPOf (s : NodeSet) (id : string) : option string := match s_m s !! id with Some n => dialIP n | None => None end.

(** The membership claim an authenticated Status leaves on a node. *)
Definition statusMembership (n : Node) (now : Time) : Node :=
  n <| n_MembershipSource := "status" |> <| n_MembershipVerifiedAt := now |> <| n_ForkSource := "status" |>
    <| n_ForkObservedAt := now |> <| n_LastResolved := now |>.

Definition executionStatusNode (n : Node) (network : string) (fork : forkID) (now : Time) : Node :=
  let n := clearHeadOnNetworkChangeLocked n network in
  statusMembership (n <| n_Network := network |> <| n_ForkHash := hex_encode (fid_Hash fork) |> <| n_ForkNext := fid_Next fork |>) now.

Definition SetExecutionStatusAt (s : NodeSet) (id network : string) (fork : forkID) (now : Time) : NodeSet * bool :=
  match s_m s !! id with
  | None => (s, false)
  | Some n =>
      if negb (n_Layer n =? "el")%string || (network =? "")%string then (s, false)
      else
        let n := creditStatusSightingLocked n network now in
        let s := trackCandidateLocked (isELCandidate n) false s in
        (setNode s id (executionStatusNode n network fork now), true)
  end.

Definition consensusStatusNode (n : Node) (network forkHash : string) (now : Time) : Node :=
  let n := clearHeadOnNetworkChangeLocked (creditStatusSightingLocked n network now) network in
  let n := n <| n_Network := network |> in
  statusMembership (if negb (forkHash =? "")%string then n <| n_ForkHash := forkHash |> else n) now.

Definition SetConsensusStatus (s : NodeSet) (id network forkHash : string) (now : Time) : NodeSet * bool :=
  match s_m s !! id with
  | None => (s, false)
  | Some n =>
      if negb (n_Layer n =? "cl")%string || (network =? "")%string then (s, false)
      else (setNode s id (consensusStatusNode n network forkHash now), true)
  end.

Definition SetHead (s : NodeSet) (id layer network : string) (head : Z) (observedAt : Time) : NodeSet :=
  match s_m s !! id with
  | None => s
  | Some n =>
      if negb (n_Layer n =? layer)%string || negb (n_Network n =? network)%string then s
      else setNode s id (n <| n_Head := head |> <| n_HeadObservedAt := if 0 <? head then observedAt else zeroTime |>)
  end.

Definition unclaimNode (n : Node) : Node :=
  let n := if 0 <? n_fpAttempts n then n <| n_fpAttempts := n_fpAttempts n - 1 |> else n in
  let n := n <| n_fpInFlight := false |> in
  if n_fpRefresh n then n <| n_fpAttempts := 0 |> <| n_fpRefresh := false |> else n.

Definition UnclaimFingerprint (s : NodeSet) (id : string) : NodeSet :=
  match s_m s !! id with
  | None => s
  | Some n => if n_fpInFlight n then setNode s id (unclaimNode n) else s
  end.

Definition fingerprintRetryDelay (id : string) (attempt : Z) : Duration :=
  let attempt := if attempt <? 1 then 1 else attempt in
  let i := attempt - 1 in
  let i := if Z.of_nat (length fpRetrySchedule) <=? i then Z.of_nat (length fpRetrySchedule) - 1 else i in
  let base := default 0 (fpRetrySchedule !! Z.to_nat i) in
  let b := byte_at (bytes id) (Z.to_nat (Z.rem (attempt - 1) (slen id))) in
  let permille := 900 + godiv (b * 200) 255 in
  godiv (wrapI64 (base * permille)) 1000.

(** An attempt on a record that has since moved: the probe starts over. *)
Definition requeueNode (n : Node) : Node :=
  n <| n_fpAttempts := 0 |> <| n_fpInFlight := false |> <| n_fpRefresh := false |> <| n_fpNext := zeroTime |>.

Definition FingerprintFailed (s : NodeSet) (id : string) (now : Time) : NodeSet * FingerprintRetry :=
  match s_m s !! id with
  | None => (s, noRetry)
  | Some n =>
      let refresh := n_fpDone n && n_fpRefreshDue n in
      let released := n <| n_fpInFlight := false |> in
      if n_fpDone n && negb (n_fpRefreshDue n) then (setNode s id (released <| n_fpRefresh := false |>), noRetry)
      else if n_fpRefresh n then (setNode s id (requeueNode n), MkRetry 0 zeroTime false refresh)
      else
        let n := released <| n_fpNext := Add now (fingerprintRetryDelay id (n_fpAttempts n)) |> in
        (setNode s id n, MkRetry (n_fpAttempts n) (n_fpNext n) (n_fpAttempts n =? fpFailedAfter) refresh)
  end.

Definition verifiedNode (n : Node) (fp : Fingerprint) (direction : string) (claimed : bool) (now : Time) : Node :=
  let n := setIdentity n fp direction in
  let n := if claimed then n <| n_fpInFlight := false |> else n in
  n <| n_fpDone := true |> <| n_fpRefreshDue := false |> <| n_fpAt := now |> <| n_LastResolved := now |>
    <| n_fpAttempts := 0 |> <| n_fpNext := zeroTime |>.

(** Returns the failures that preceded and whether the result was applied. *)
Definition setFingerprint (s : NodeSet) (id layer : string) (fp : Fingerprint) (direction : string) (claimed : bool) (now : Time)
  : NodeSet * Z * bool :=
  match s_m s !! id with
  | None => (s, 0, false)
  | Some n =>
      if negb (n_Layer n =? layer)%string && negb claimed then (s, 0, false)
      else if claimed && (n_fpRefresh n || negb (n_Layer n =? layer)%string) then (setNode s id (requeueNode n), 0, false)
      else (setNode s id (verifiedNode n fp direction claimed now), completedAttempts n, true)
  end.

Definition SetFingerprintAt (s : NodeSet) (id layer : string) (fp : Fingerprint) (direction : string) (now : Time) : NodeSet * Z :=
  let '(s, failures, _) := setFingerprint s id layer fp direction false now in (s, failures).
Definition SetClaimedFingerprintAt (s : NodeSet) (id layer : string) (fp : Fingerprint) (direction : string) (now : Time)
  : NodeSet * Z * bool := setFingerprint s id layer fp direction true now.

Record GeoResult := MkGeo {
  g_Country : string; g_City : string; g_Subdivision : string; g_Lat : Z; g_Lon : Z; g_ASN : Z; g_Org : string;
  g_Hosting : bool; g_HostingKnown : bool; g_Geolocated : bool; g_AccuracyRadiusKM : Z }.

Definition geoNode (n : Node) (g : GeoResult) : Node :=
  let n := if g_Geolocated g then
      n <| n_Country := g_Country g |> <| n_City := g_City g |> <| n_Subdivision := g_Subdivision g |> <| n_Lat := g_Lat g |>
        <| n_Lon := g_Lon g |> <| n_Geolocated := true |> <| n_GeoAccuracyRadiusKM := g_AccuracyRadiusKM g |> else n in
  if negb (g_ASN g =? 0) || negb (g_Org g =? "")%string then
    n <| n_ASN := g_ASN g |> <| n_Org := g_Org g |> <| n_Hosting := g_Hosting g |> <| n_HostingKnown := g_HostingKnown g |>
  else n.

Definition SetGeo (s : NodeSet) (id lookedUp : string) (g : GeoResult) : NodeSet :=
  match s_m s !! id with
  | None => s
  | Some n => if negb (geoAddrIs n lookedUp) then s else setNode s id (geoNode n g)
  end.

Definition Penalize (s : NodeSet) (id : string) (now : Time) : NodeSet :=
  match s_m s !! id with
  | None => s
  | Some cur =>
      let cur := cur <| n_LastCheck := now |> in
      if n_pinned cur then setNode s id cur
      else let (cur, drop) := penalizeLocked cur in if drop then deleteLocked (setNode s id cur) id else setNode s id cur
  end.

Definition pruneVictim (cutoff verifiedCutoff : Time) (n : Node) : bool :=
  let stale :=
    if n_fpDone n then negb (IsZero verifiedCutoff) && (IsZero (n_LastResolved n) || Before (n_LastResolved n) verifiedCutoff)
    else Before (n_LastSeen n) cutoff in
  negb (n_pinned n) && stale.

Definition PruneStaleWithVerified (s : NodeSet) (cutoff verifiedCutoff : Time) : NodeSet * Z :=
  foldl (fun '(s, removed) (kv : string * Node) =>
    if pruneVictim cutoff verifiedCutoff kv.2 then (deleteLocked s kv.1, removed + 1) else (s, removed))
    (s, 0) (map_to_list (s_m s)).

(** * Publishing and restoring *)

Definition unixOrZero (t : Time) : Z := if IsZero t then 0 else Unix t.
Definition timeOrZero (v : Z) : Time := if v =? 0 then zeroTime else time_Unix v.

Definition row (n : Node) : Row :=
  MkRow (hex_encode (n_ID n)) (n_Enode n) (n_ENR n) (n_Seq n)
    (n_IP n) (n_IP6 n) (wrapI32 (n_TCP n)) (wrapI32 (n_UDP n)) (wrapI32 (n_TCP6 n)) (wrapI32 (n_UDP6 n))
    (wrapI32 (n_QUIC n)) (wrapI32 (n_QUIC6 n))
    (n_Network n) (n_ForkHash n) (n_ForkNext n) (n_Layer n) (n_CGC n) (n_CGCKnown n) (n_HasV4 n) (n_HasV5 n) (wrapI32 (n_Score n))
    (Unix (n_FirstSeen n)) (Unix (n_LastSeen n)) (Unix (n_LastCheck n)) (unixOrZero (n_LastResolved n))
    (n_Client n) (n_ClientVersion n) (n_OS n) (n_Lang n) (n_Capabilities n)
    (n_Country n) (n_City n) (n_Subdivision n) (n_Lat n) (n_Lon n) (wrapU32 (n_ASN n)) (n_Org n)
    (n_Hosting n) (n_HostingKnown n) (n_Geolocated n) (n_GeoAccuracyRadiusKM n)
    (fpStatus n) (wrapI32 (completedAttempts n)) (unixOrZero (n_fpAt n)) (unixOrZero (n_fpNext n))
    (n_MembershipSource n) (unixOrZero (n_MembershipVerifiedAt n)) (n_ForkSource n) (unixOrZero (n_ForkObservedAt n)) (n_FPDirection n)
    (n_pinned n) (n_Head n) (unixOrZero (n_HeadObservedAt n))
    (es_Digest (n_ENRSchedule n)) (es_NextVersion (n_ENRSchedule n)) (es_NextEpoch (n_ENRSchedule n)).

Definition rows (s : NodeSet) (network : string) : list Row :=
  map row (List.filter (fun n => (network =? "")%string || (n_Network n =? network)%string) (map_values (s_m s))).

(** The rows of each listed network, in the order of the list. *)
Definition SnapshotNetworks (s : NodeSet) (networks : list string) : list (string * list Row) :=
  map (fun network =>
         (network, map row (List.filter (fun n => (n_Network n =? network)%string && snapshotEligible n) (map_values (s_m s)))))
    (remove_dups networks).

(** The rows [ParquetForNetwork] encodes. *)
Definition ParquetForNetwork_rows (s : NodeSet) (network : string) : list Row :=
  map row (List.filter (fun n => ((network =? "")%string || (n_Network n =? network)%string) && snapshotEligible n) (map_values (s_m s))).

Definition restoredAttempts (r : Row) : Z := if r_FPAttempts r <? 0 then 0 else r_FPAttempts r.

Definition restoredNode (id : string) (r : Row) : Node :=
  let verifiedFingerprint := (r_FPStatus r =? "ok")%string || (r_FPStatus r =? "stale")%string in
  let candidate :=
    MkNode id (r_Enode r) (r_ENR r) (r_Seq r) (r_IP r) (r_IP6 r) (r_TCP r) (r_UDP r) (r_TCP6 r) (r_UDP6 r) (r_QUIC r) (r_QUIC6 r)
      (r_Network r) (r_ForkHash r) (r_ForkNext r) (r_Layer r) (r_CGC r) (r_CGCKnown r) (r_HasV4 r) (r_HasV5 r) (r_Score r)
      (time_Unix (r_FirstSeen r)) (time_Unix (r_LastSeen r)) (time_Unix (r_LastCheck r)) (timeOrZero (r_LastResolved r))
      (MkSchedule (r_ENRForkDigest r) (r_ENRNextForkVersion r) (r_ENRNextForkEpoch r)) (r_Head r) (timeOrZero (r_HeadObservedAt r))
      (r_Client r) (r_Version r) (r_OS r) (r_Lang r) (r_Caps r) (r_MembershipSource r) (timeOrZero (r_MembershipVerifiedAt r))
      (r_ForkSource r) (timeOrZero (r_ForkObservedAt r)) (r_FPDirection r) (r_Country r) (r_City r) (r_Subdivision r) (r_Lat r) (r_Lon r)
      (r_ASN r) (r_Org r) (r_Hosting r) (r_HostingKnown r) (r_Geolocated r) (r_GeoAccuracyRadiusKM r)
      (restoredAttempts r) false verifiedFingerprint (verifiedFingerprint && (r_FPStatus r =? "stale")%string) false
      (timeOrZero (r_FPAt r)) (timeOrZero (r_FPNext r)) (r_Pinned r) zeroTime in
  if (r_Layer r =? "cl")%string && negb (r_Caps r =? "")%string then clearFingerprintLocked candidate else candidate.

(** One row of [Ingest]: the set with the dropped and evicted counts. *)
Definition ingestRow (acc : NodeSet * Z * Z) (r : Row) : NodeSet * Z * Z :=
  let '(s, dropped, evicted) := acc in
  match hex_decode (r_ID r) with
  | None => (s, dropped + 1, evicted)
  | Some id =>
      if negb (slen id =? 32) then (s, dropped + 1, evicted)
      else if negb (rowAddressesUsable r) then (s, dropped + 1, evicted)
      else
        let candidate := restoredNode id r in
        let room :=
          match s_m s !! id with
          | None => if (0 <? s_max s) && (s_max s <=? Len s) then
                      let '(s', n, _) := evictForLocked s (capacityClass candidate) in
                      if n =? 0 then None else Some (s', n)
                    else Some (s, 0)
          | Some _ => Some (s, 0)
          end in
        match room with
        | None => (s, dropped + 1, evicted)
        | Some (s, n) =>
            let was := match s_m s !! id with Some prev => isELCandidate prev | None => false end in
            (setNode (trackCandidateLocked was (isELCandidate candidate) s) id candidate, dropped, evicted + n)
        end
  end.

Definition Ingest (s : NodeSet) (rs : list Row) : NodeSet * Z * Z := foldl ingestRow (s, 0, 0) rs.

Definition DialableV6 (r : Row) : bool :=
  negb (r_IP6 r =? "")%string
  && (negb (r_TCP6 r =? 0) || negb (r_TCP r =? 0) || negb (r_QUIC6 r =? 0) || negb (r_QUIC r =? 0)).
Definition Dialable (r : Row) : bool :=
  (negb (r_IP r =? "")%string && (negb (r_TCP r =? 0) || negb (r_QUIC r =? 0))) || DialableV6 r.
End Set_.
