(* ===== verification/Eviction.v ===== *)
(** Bounded selection in the node set: which nodes [evictForLocked] removes, and
    which candidates [FingerprintCandidates] returns.

    Go visits a map in random order.  Both selections are shown to depend on the
    entries alone, by the heap theorem of [Heap] and the totality of the orders. *)

From stdpp Require Import base gmap sets strings list numbers sorting.
From Stdlib Require Import ZArith Lia Sorted.
From S2P Require Import Prelude GoLib ForkId NetIP Heap NodeData Nodeset.

(** * Lexicographic orders *)

Definition lexlt (ka kb : Z) (rest : bool) : bool := if negb (ka =? kb) then ka <? kb else rest.
Definition lexgt (ka kb : Z) (rest : bool) : bool := if negb (ka =? kb) then kb <? ka else rest.

Lemma lexlt_asym ka kb (rab rba : bool) :
  (rab = true -> rba = false) -> lexlt ka kb rab = true -> lexlt kb ka rba = false.
Proof.
  unfold lexlt. rewrite (Z.eqb_sym kb ka). destruct (ka =? kb) eqn:E; cbn [negb]; boolify; [done|].
  intros _ H. boolify. lia.
Qed.

Lemma lexlt_ntrans kx ky kz (rxy ryz rxz : bool) :
  (rxy = false -> ryz = false -> rxz = false) ->
  lexlt kx ky rxy = false -> lexlt ky kz ryz = false -> lexlt kx kz rxz = false.
Proof.
  unfold lexlt. destruct (kx =? ky) eqn:E1, (ky =? kz) eqn:E2, (kx =? kz) eqn:E3; cbn [negb]; boolify; try done;
    intros; boolify; try lia; auto.
Qed.

Lemma lexgt_lexlt ka kb rest : lexgt ka kb rest = lexlt kb ka rest.
Proof. unfold lexgt, lexlt. by rewrite (Z.eqb_sym kb ka). Qed.

Lemma lexgt_asym ka kb (rab rba : bool) :
  (rab = true -> rba = false) -> lexgt ka kb rab = true -> lexgt kb ka rba = false.
Proof. rewrite !lexgt_lexlt. apply lexlt_asym. Qed.

Lemma lexgt_ntrans kx ky kz (rxy ryz rxz : bool) :
  (rxy = false -> ryz = false -> rxz = false) ->
  lexgt kx ky rxy = false -> lexgt ky kz ryz = false -> lexgt kx kz rxz = false.
Proof.
  rewrite !lexgt_lexlt. intros H. unfold lexlt.
  destruct (ky =? kx) eqn:E1, (kz =? ky) eqn:E2, (kz =? kx) eqn:E3; cbn [negb]; boolify; try done;
    intros; boolify; try lia; auto.
Qed.

Lemma string_ltb_asym a b : String.ltb a b = true -> String.ltb b a = false.
Proof.
  rewrite !string_ltb_leb, negb_true_iff, negb_false_iff. apply string_leb_total.
Qed.

Lemma string_ltb_ntrans x y z : String.ltb x y = false -> String.ltb y z = false -> String.ltb x z = false.
Proof. rewrite !string_ltb_leb, !negb_false_iff. intros. by eapply string_leb_trans. Qed.

Lemma string_ltb_antisym a b : String.ltb a b = false -> String.ltb b a = false -> a = b.
Proof. rewrite !string_ltb_leb, !negb_false_iff. intros. by apply String.leb_antisym. Qed.

Lemma evictBefore_lex a b :
  evictBefore a b = lexlt (n_Score a) (n_Score b) (lexlt (n_LastResolved a) (n_LastResolved b)
    (lexlt (n_LastSeen a) (n_LastSeen b) (String.ltb (n_ID a) (n_ID b)))).
Proof. reflexivity. Qed.

Lemma evictBefore_asym a b : evictBefore a b = true -> evictBefore b a = false.
Proof. rewrite !evictBefore_lex. repeat (apply lexlt_asym). apply string_ltb_asym. Qed.

Lemma evictBefore_ntrans x y z : evictBefore x y = false -> evictBefore y z = false -> evictBefore x z = false.
Proof. rewrite !evictBefore_lex. repeat (apply lexlt_ntrans). apply string_ltb_ntrans. Qed.

Lemma lexlt_antisym ka kb (rab rba : bool) : lexlt ka kb rab = false -> lexlt kb ka rba = false -> rab = false /\ rba = false.
Proof.
  unfold lexlt. rewrite (Z.eqb_sym kb ka). destruct (ka =? kb) eqn:E; cbn [negb]; boolify; [done|].
  intros. boolify. lia.
Qed.

Lemma evictBefore_total a b : evictBefore a b = false -> evictBefore b a = false -> n_ID a = n_ID b.
Proof.
  rewrite !evictBefore_lex. intros H1 H2.
  destruct (lexlt_antisym _ _ _ _ H1 H2) as [H3 H4]. destruct (lexlt_antisym _ _ _ _ H3 H4) as [H5 H6].
  destruct (lexlt_antisym _ _ _ _ H5 H6). by apply string_ltb_antisym.
Qed.

Lemma better_lex a b :
  fingerprintCandidateBetter a b = lexlt (cd_due a) (cd_due b) (lexgt (cd_score a) (cd_score b) (String.ltb (cd_id a) (cd_id b))).
Proof. reflexivity. Qed.

Lemma better_asym a b : fingerprintCandidateBetter a b = true -> fingerprintCandidateBetter b a = false.
Proof. rewrite !better_lex. apply lexlt_asym, lexgt_asym, string_ltb_asym. Qed.

Lemma better_ntrans x y z :
  fingerprintCandidateBetter x y = false -> fingerprintCandidateBetter y z = false -> fingerprintCandidateBetter x z = false.
Proof. rewrite !better_lex. apply lexlt_ntrans, lexgt_ntrans, string_ltb_ntrans. Qed.

(** * Keyed sets *)

(** Every entry is stored under its own identity. *)
Definition keyed (m : gmap string Node) : Prop := map_Forall (fun id n => n_ID n = id) m.

Lemma keyed_NoDup m : keyed m -> NoDup (n_ID <$> map_values m).
Proof.
  intros Hk. unfold map_values. rewrite <- list_fmap_compose.
  replace ((n_ID ∘ snd) <$> map_to_list m) with ((map_to_list m).*1); [apply NoDup_fst_map_to_list|].
  apply list_fmap_ext. intros i [k n] Hi. simpl. symmetry. apply Hk, elem_of_map_to_list.
  by eapply list_elem_of_lookup_2.
Qed.

Lemma map_values_NoDup m : keyed m -> NoDup (map_values m).
Proof. intros Hk. apply (NoDup_fmap_1 n_ID). by apply keyed_NoDup. Qed.

Lemma map_values_ID m a b : keyed m -> a ∈ map_values m -> b ∈ map_values m -> n_ID a = n_ID b -> a = b.
Proof.
  intros Hk Ha Hb He. rewrite elem_of_map_values in Ha, Hb. destruct Ha as [k Ha], Hb as [k' Hb].
  pose proof (Hk k a Ha). pose proof (Hk k' b Hb). congruence.
Qed.

Lemma map_values_lookup m n : keyed m -> n ∈ map_values m -> m !! n_ID n = Some n.
Proof. intros Hk Hn. rewrite elem_of_map_values in Hn. destruct Hn as [k Hk']. by rewrite (Hk k n Hk'). Qed.

(** * The victim scan *)

Section Scan.
Context (candClass batch : Z).

Definition eligible (n : Node) : bool := (candClass <? capacityClass n) && negb (n_pinned n).
Definition ofClass (c : Z) (n : Node) : bool := (capacityClass n =? c) && negb (n_pinned n).

(** The state of the scan after the nodes [l]. *)
Definition scan_inv (l : list Node) (acc : Z * topK Node) : Prop :=
  let '(worst, h) := acc in
  tk_limit h = Z.max batch 0 /\ candClass <= worst /\
  (forall n, n ∈ l -> eligible n = true -> capacityClass n <= worst) /\
  (worst = candClass /\ tk_items h = [] \/
   candClass < worst /\ (exists n, n ∈ l /\ ofClass worst n = true) /\
   topK_inv evictBefore (Z.max batch 0) (List.filter (ofClass worst) l) h).

Lemma scan_step l acc n : scan_inv l acc -> scan_inv (l ++ [n]) (evict_step candClass acc n).
Proof.
  destruct acc as [worst h]. intros (Hlim & Hw & Hmax & Hh). unfold evict_step.
  destruct ((capacityClass n <=? candClass) || (capacityClass n <? worst) || n_pinned n) eqn:Eskip.
  - assert (ofClass worst n = true -> worst = candClass) as Hskip.
    { unfold ofClass. intros Ho. boolify. destruct Eskip as [Es|Es]; [|congruence]. boolify. destruct Es; boolify; lia. }
    split_and!; [done|done| |].
    + intros m [Hm|Hm]%elem_of_app He; [by apply Hmax|]. apply list_elem_of_singleton in Hm as ->.
      unfold eligible in He. boolify. destruct Eskip as [Es|Es]; [|congruence]. boolify. destruct Es; boolify; lia.
    + destruct Hh as [?|(? & (m & Hm & Ho) & Hinv)]; [by left|]. right. split; [done|].
      split; [exists m; split; [apply elem_of_app; by left|done]|].
      rewrite List.filter_app. cbn [List.filter]. destruct (ofClass worst n) eqn:E; [|by rewrite app_nil_r].
      specialize (Hskip eq_refl). lia.
  - boolify. assert (candClass < capacityClass n /\ worst <= capacityClass n) as [Hc Hcw] by lia.
    assert (ofClass (capacityClass n) n = true) as Hon by (unfold ofClass; boolify; done).
    assert (forall c, worst <= c -> c = capacityClass n -> forall m, m ∈ l ++ [n] -> eligible m = true -> capacityClass m <= c) as Hm.
    { intros c ? -> m [Hm|Hm]%elem_of_app He; [specialize (Hmax m Hm He); lia|].
      apply list_elem_of_singleton in Hm as ->. lia. }
    destruct (worst <? capacityClass n) eqn:Ew; boolify.
    + assert (List.filter (ofClass (capacityClass n)) l = []) as Hnil.
      { destruct (List.filter (ofClass (capacityClass n)) l) as [|m ms] eqn:Ef; [done|]. exfalso.
        assert (m ∈ List.filter (ofClass (capacityClass n)) l) as Hml by (rewrite Ef; left).
        apply elem_of_lfilter in Hml as [Hml Ho]. unfold ofClass in Ho. boolify.
        assert (capacityClass m <= worst) by (apply Hmax; [done|unfold eligible; boolify; [lia|done]]). lia. }
      assert (topK_inv evictBefore (Z.max batch 0) ([] ++ [n]) (offer evictBefore (TopK [] (tk_limit h)) n)) as Hinv.
      { apply offer_inv; [apply evictBefore_asym|apply evictBefore_ntrans|lia|].
        split_and!; [done|by intros k Hk x y _ ?|]. exists []. simpl. split_and!; [done|lia|by intros ? ? ?%elem_of_nil]. }
      split_and!; [apply Hinv|lia|by apply Hm; [lia|]|].
      right. split; [done|]. split; [exists n; split; [apply elem_of_app; right; left|done]|].
      rewrite List.filter_app, Hnil. cbn [List.filter]. rewrite Hon. exact Hinv.
    + assert (worst = capacityClass n) as -> by lia.
      destruct Hh as [[? _]|(_ & _ & Hinv)]; [lia|].
      assert (topK_inv evictBefore (Z.max batch 0) (List.filter (ofClass (capacityClass n)) l ++ [n]) (offer evictBefore h n)) as Hinv'
        by (apply offer_inv; [apply evictBefore_asym|apply evictBefore_ntrans|lia|done]).
      split_and!; [apply Hinv'|lia|by apply Hm|].
      right. split; [lia|]. split; [exists n; split; [apply elem_of_app; right; left|done]|].
      rewrite List.filter_app. cbn [List.filter]. by rewrite Hon.
Qed.

Lemma scan_all order : scan_inv order (foldl (evict_step candClass) (candClass, newTopK Node batch) order).
Proof.
  induction order as [|n order IH] using rev_ind.
  - split_and!; [done|lia|by intros ? ?%elem_of_nil|by left].
  - rewrite foldl_app. by apply scan_step.
Qed.
End Scan.

Definition evictBatch (max_ : Z) : Z := Z.max 64 (godiv max_ 1000).

(** The scan's outcome: nothing when no lower class exists, else a bounded
    selection from the lowest class present. *)
Lemma evict_victims_spec max_ candClass order :
  let '(worst, victims) := evict_victims max_ candClass order in
  (victims = [] /\ forall n, n ∈ order -> eligible candClass n = false) \/
  (candClass < worst /\ (exists n, n ∈ order /\ ofClass worst n = true) /\
   (forall n, n ∈ order -> eligible candClass n = true -> capacityClass n <= worst) /\
   selects evictBefore (evictBatch max_) (List.filter (ofClass worst) order) victims).
Proof.
  unfold evict_victims. pose proof (scan_all candClass (evictBatch max_) order) as H.
  change (Z.max 64 (godiv max_ 1000)) with (evictBatch max_).
  destruct (foldl _ _ order) as [worst h]. destruct H as (_ & Hw & Hmax & [[-> Hnil]|(Hlt & Hex & Hinv)]).
  - left. split; [done|]. intros n Hn. destruct (eligible candClass n) eqn:E; [|done].
    specialize (Hmax n Hn E). unfold eligible in E. boolify. lia.
  - right. split_and!; [done..|]. replace (evictBatch max_) with (Z.max (evictBatch max_) 0) by (unfold evictBatch; lia).
    apply Hinv.
Qed.

Lemma victims_in max_ candClass order worst victims v :
  evict_victims max_ candClass order = (worst, victims) -> v ∈ victims ->
  v ∈ order /\ capacityClass v = worst /\ n_pinned v = false /\ candClass < worst.
Proof.
  intros He Hv. pose proof (evict_victims_spec max_ candClass order) as H. rewrite He in H.
  destruct H as [[-> _]|(Hlt & _ & _ & dropped & Hp & _)]; [by apply elem_of_nil in Hv|].
  assert (v ∈ List.filter (ofClass worst) order) as Hf by (rewrite Hp; apply elem_of_app; by left).
  apply elem_of_lfilter in Hf as [Ho Hc]. unfold ofClass in Hc. boolify. done.
Qed.

(** * Properties *)

(** Eviction is deterministic: whatever order Go's map iteration takes, the
    same victims are chosen, in the same class. *)
Theorem evict_order_irrelevant m max_ candClass order order' worst victims worst' victims' :
  keyed m -> order ≡ₚ map_values m -> order' ≡ₚ map_values m ->
  evict_victims max_ candClass order = (worst, victims) ->
  evict_victims max_ candClass order' = (worst', victims') ->
  victims ≡ₚ victims' /\ (victims <> [] -> worst = worst').
Proof.
  intros Hk Ho Ho' He He'.
  pose proof (evict_victims_spec max_ candClass order) as H. rewrite He in H.
  pose proof (evict_victims_spec max_ candClass order') as H'. rewrite He' in H'.
  assert (Hoo : forall n, n ∈ order <-> n ∈ order') by (intros n; by rewrite Ho, Ho').
  assert (forall c n, candClass < c -> ofClass c n = true -> eligible candClass n = true) as Hel.
  { intros c n Hc Hn. unfold ofClass, eligible in *. boolify; [lia|done]. }
  destruct H as [[-> Hno]|(Hlt & (n & Hn & Hnc) & Hmax & Hsel)],
           H' as [[-> Hno']|(Hlt' & (n' & Hn' & Hnc') & Hmax' & Hsel')].
  - done.
  - specialize (Hno n' ltac:(by apply Hoo)). rewrite (Hel _ _ Hlt' Hnc') in Hno. done.
  - specialize (Hno' n ltac:(by apply Hoo)). rewrite (Hel _ _ Hlt Hnc) in Hno'. done.
  - assert (worst = worst') as <-.
    { specialize (Hmax n' ltac:(by apply Hoo) (Hel _ _ Hlt' Hnc')). specialize (Hmax' n ltac:(by apply Hoo) (Hel _ _ Hlt Hnc)).
      unfold ofClass in Hnc, Hnc'. boolify. lia. }
    split; [|done]. eapply selects_unique; [| | |exact Hsel|exact Hsel'].
    + intros x y Hx Hy H1 H2. apply (map_values_ID m); [done| | |by apply evictBefore_total].
      * apply elem_of_lfilter in Hx as [Hx _]. by rewrite <- Ho.
      * apply elem_of_lfilter in Hy as [Hy _]. by rewrite <- Ho.
    + apply lfilter_NoDup. rewrite Ho. by apply map_values_NoDup.
    + by rewrite Ho, Ho'.
Qed.

Definition demoNode (i : Z) (score : Z) (network : string) : Node :=
  emptyNode <| n_ID := be_put 32 i |> <| n_Score := score |> <| n_Network := network |> <| n_Layer := "el" |>
    <| n_IP := "8.8.8.8" |> <| n_TCP := 30303 |>.
Definition demoMap : gmap string Node :=
  <[be_put 32 1 := demoNode 1 0 ""]> (<[be_put 32 2 := demoNode 2 0 "mainnet"]> (<[be_put 32 3 := demoNode 3 4 "mainnet"]> ∅)).

Lemma demoMap_keyed : keyed demoMap.
Proof. repeat (apply map_Forall_insert_2; [vm_compute; reflexivity|]). apply map_Forall_empty. Qed.

Lemma evict_order_irrelevant_witness :
  snd (evict_victims 3 1 (map_values demoMap)) ≡ₚ snd (evict_victims 3 1 (rev (map_values demoMap))).
Proof.
  destruct (evict_victims 3 1 (map_values demoMap)) as [w v] eqn:E.
  destruct (evict_victims 3 1 (rev (map_values demoMap))) as [w' v'] eqn:E'.
  exact (proj1 (evict_order_irrelevant demoMap 3 1 _ _ w v w' v' demoMap_keyed (Permutation_refl _)
    (Permutation_sym (Permutation_rev (map_values demoMap))) E E')).
Defined.

(** ** The effect of an eviction on the set *)

Lemma deleteLocked_lookup s id k :
  s_m (deleteLocked s id) !! k = if decide (k = id) then None else s_m s !! k.
Proof.
  unfold deleteLocked. destruct (s_m s !! id) as [n|] eqn:E.
  - replace (s_m (_ <| s_m := delete id (s_m (trackCandidateLocked (isELCandidate n) false s)) |>)) with (delete id (s_m s)).
    + destruct (decide (k = id)) as [->|]; [apply lookup_delete_eq|by apply lookup_delete_ne].
    + unfold trackCandidateLocked. by destruct (isELCandidate n).
  - destruct (decide (k = id)) as [->|]; done.
Qed.

Lemma deletes_lookup vs s k :
  s_m (foldl (fun s v => deleteLocked s (n_ID v)) s vs) !! k =
  if decide (k ∈ n_ID <$> vs) then None else s_m s !! k.
Proof.
  revert s. induction vs as [|v vs IH]; intros s; cbn [foldl fmap list_fmap].
  - rewrite decide_False by apply not_elem_of_nil. done.
  - rewrite IH, deleteLocked_lookup. destruct (decide (k ∈ n_ID <$> vs)) as [Hin|Hnin].
    + rewrite decide_True by (by right). done.
    + destruct (decide (k = n_ID v)) as [->|Hne].
      * rewrite decide_True by left. done.
      * rewrite decide_False; [done|]. by intros [?|?]%elem_of_cons.
Qed.

(** Eviction removes only what it may: at most one batch, of unpinned nodes
    that all belong to the lowest capacity class present, strictly below the class
    of the newcomer, none of which should have been preferred to a kept node of
    that class; every other entry is untouched, and nothing is removed only when
    no lower class holds an unpinned node. *)
Theorem evictForLocked_victims s candClass s' n class :
  keyed (s_m s) -> evictForLocked s candClass = (s', n, class) ->
  0 <= n <= evictBatch (s_max s) /\
  (forall k v, s_m s' !! k = Some v -> s_m s !! k = Some v) /\
  (n = 0 -> forall k v, s_m s !! k = Some v -> candClass < capacityClass v -> n_pinned v = true) /\
  (forall k v, s_m s !! k = Some v -> s_m s' !! k = None ->
     n_pinned v = false /\ candClass < capacityClass v /\
     forall k' v', s_m s' !! k' = Some v' -> n_pinned v' = false ->
       capacityClass v' <= capacityClass v /\ (capacityClass v' = capacityClass v -> evictBefore v' v = false)).
Proof.
  intros Hk. unfold evictForLocked. pose proof (evict_victims_spec (s_max s) candClass (map_values (s_m s))) as Hspec.
  destruct (evict_victims (s_max s) candClass (map_values (s_m s))) as [worst victims] eqn:Ev.
  assert (Hval : forall k v, s_m s !! k = Some v -> v ∈ map_values (s_m s)) by (intros k v Hv; apply elem_of_map_values; eauto).
  assert (0 < evictBatch (s_max s)) as Hb by (unfold evictBatch; lia).
  destruct victims as [|v0 vs] eqn:Evs.
  - intros [= <- <- <-]. split_and!; [lia|lia|done| |].
    + intros _ k v Hv Hc. destruct Hspec as [[_ Hno]|(Hlt & (m & Hm & Ho) & _ & dropped & Hp & Hlen & _)].
      * specialize (Hno v (Hval k v Hv)). unfold eligible in Hno. destruct (n_pinned v); [done|].
        cbn [negb] in Hno. rewrite andb_true_r in Hno. boolify. lia.
      * exfalso. assert (m ∈ List.filter (ofClass worst) (map_values (s_m s))) as Hf by (by apply elem_of_lfilter).
        simpl in Hlen. destruct (List.filter (ofClass worst) (map_values (s_m s))); [by apply elem_of_nil in Hf|].
        simpl in Hlen. lia.
    + intros k v H1 H2. congruence.
  - rewrite <- Evs in *. intros [= <- <- _].
    destruct Hspec as [[-> _]|(Hlt & _ & Hmax & dropped & Hp & Hlen & Hbest)]; [done|].
    split_and!; [lia|lia| |intros H0; subst victims; simpl in H0; lia|].
    + intros k v. rewrite deletes_lookup. by destruct (decide _).
    + intros k v Hv. rewrite deletes_lookup. destruct (decide (k ∈ n_ID <$> victims)) as [Hin|Hnin]; [|congruence].
      intros _. apply list_elem_of_fmap in Hin as (w & -> & Hw).
      destruct (victims_in _ _ _ _ _ w Ev Hw) as (Hwin & Hwc & Hwp & _).
      rewrite (map_values_lookup _ _ Hk Hwin) in Hv. injection Hv as <-.
      split_and!; [done|lia|]. intros k' v' Hv' Hpin. rewrite deletes_lookup in Hv'.
      destruct (decide (k' ∈ n_ID <$> victims)) as [|Hnin']; [done|].
      assert (v' ∉ victims) as Hnv.
      { intros Hin'. apply Hnin'. rewrite <- (Hk k' v' Hv'). by apply list_elem_of_fmap_2. }
      split.
      * rewrite Hwc. destruct (Z_le_gt_dec (capacityClass v') candClass); [lia|].
        apply Hmax; [by apply (Hval k')|]. unfold eligible. boolify; [lia|done].
      * intros Hc. apply Hbest; [done|].
        assert (v' ∈ List.filter (ofClass worst) (map_values (s_m s))) as Hf.
        { apply elem_of_lfilter. split; [by apply (Hval k')|]. unfold ofClass. boolify; [lia|done]. }
        rewrite Hp in Hf. by apply elem_of_app in Hf as [?|?].
Qed.

Lemma evictForLocked_victims_witness :
  let s := MkSet demoMap 3 0 in
  exists s' n class, evictForLocked s 1 = (s', n, class) /\ n = 2 /\ 0 <= n <= evictBatch 3.
Proof.
  intros s. destruct (evictForLocked s 1) as [[s' n] class] eqn:E. exists s', n, class. split; [reflexivity|].
  split; [vm_compute in E; by injection E as _ <- _|].
  exact (proj1 (evictForLocked_victims s 1 s' n class demoMap_keyed E)).
Defined.

(** * The candidate scan *)

Lemma scanCandidates_split nodes now limit unpromotedLimit :
  let due := map candidateOf (List.filter (fun n => fingerprintDue n now) nodes) in
  scanCandidates nodes now limit unpromotedLimit =
  (foldl (offer fingerprintCandidateBetter) (newTopK fingerprintCandidate limit) (List.filter (fun c => negb (cd_unpromoted c)) due),
   foldl (offer fingerprintCandidateBetter) (newTopK fingerprintCandidate unpromotedLimit) (List.filter cd_unpromoted due)).
Proof.
  cbv zeta. unfold scanCandidates. induction nodes as [|n nodes IH] using rev_ind; [done|].
  rewrite foldl_app, IH. cbn [foldl]. rewrite List.filter_app, map_app. cbn [List.filter map].
  destruct (fingerprintDue n now); cbn [negb map]; rewrite ?app_nil_r; [|done].
  rewrite !List.filter_app. cbn [List.filter]. destruct (cd_unpromoted (candidateOf n)); cbn [negb];
    rewrite ?app_nil_r, foldl_app; done.
Qed.

Lemma betterLe_total x y : negb (fingerprintCandidateBetter y x) = false -> negb (fingerprintCandidateBetter x y) = true.
Proof. rewrite negb_false_iff, negb_true_iff. apply better_asym. Qed.
Lemma betterLe_trans x y z :
  negb (fingerprintCandidateBetter y x) = true -> negb (fingerprintCandidateBetter z y) = true ->
  negb (fingerprintCandidateBetter z x) = true.
Proof. rewrite !negb_true_iff. intros. by eapply better_ntrans. Qed.

(** In a sorted list an element of the first [k] is not beaten by a later one. *)
Lemma sorted_take_drop {A} (R : A -> A -> Prop) (l : list A) k x y :
  StronglySorted R l -> x ∈ take k l -> y ∈ drop k l -> R x y.
Proof.
  revert k. induction l as [|a l IH]; intros [|k] Hs Hx Hy; cbn [take drop] in *;
    try (by apply elem_of_nil in Hx); try (by apply elem_of_nil in Hy).
  apply StronglySorted_inv in Hs as [Hs Hf]. rewrite Forall_forall in Hf.
  apply elem_of_cons in Hx as [->|Hx]; [|by eapply IH].
  apply Hf. rewrite <- (take_drop k l). apply elem_of_app. by right.
Qed.

Lemma lfilter_none {A} (f : A -> bool) l : (forall x, x ∈ l -> f x = false) -> List.filter f l = [].
Proof.
  induction l as [|x l IH]; intros H; simpl; [done|]. rewrite H by left. apply IH. intros y Hy. apply H. by right.
Qed.

(** When [k] elements [sel] of a list do not include one of its first [k], one of
    them lies behind the first [k]. *)
Lemma pigeonhole_drop (raw sel : list fingerprintCandidate) k c :
  (exists rest, raw ≡ₚ sel ++ rest) -> (k <= length sel)%nat -> c ∈ take k raw -> c ∉ sel ->
  exists x, x ∈ sel /\ x ∈ drop k raw.
Proof.
  intros (rest & Hp) Hlen Hc Hnc.
  assert (forall u v w : list fingerprintCandidate, u ++ v ≡ₚ sel ++ w -> c ∈ u -> (length u <= length sel)%nat ->
            exists x, x ∈ sel /\ x ∈ v) as Hgen.
  { clear - Hnc. induction sel as [|a sel IH]; intros u v w Hp Hc Hl.
    - destruct u; [by apply elem_of_nil in Hc|simpl in Hl; lia].
    - assert (a ∈ u ++ v) as Ha by (rewrite Hp; left). apply elem_of_app in Ha as [Ha|Ha].
      + apply elem_of_Permutation in Ha as [u' Hu].
        assert (c ∈ u') as Hc'.
        { rewrite Hu in Hc. apply elem_of_cons in Hc as [->|?]; [|done]. exfalso. apply Hnc. left. }
        destruct (IH ltac:(intros H; apply Hnc; by right) u' v w) as (x & ? & ?); [| done| |].
        * apply (Permutation_cons_inv (a := a)). rewrite app_comm_cons, <- Hu. exact Hp.
        * apply Permutation_length in Hu. simpl in *. lia.
        * exists x. split; [by right|done].
      + exists a. split; [left|done]. }
  apply (Hgen (take k raw) (drop k raw) rest); [by rewrite take_drop|done|]. rewrite length_take. lia.
Qed.

(** The fingerprint batch is sound and fair.  Every selected candidate is a
    node that is due now, the batch is in due order, within its limit, and holds
    at most [unpromotedLimit] unclassified candidates; and a due node of the
    primary population is left out only when the batch is full of candidates
    that are not behind it, so a candidate backlog cannot starve it. *)
Theorem selectCandidates_fair s now limit unpromotedLimit :
  keyed (s_m s) -> 0 < limit ->
  let batch := selectCandidates s now limit unpromotedLimit in
  (forall c, c ∈ batch -> exists n, s_m s !! cd_id c = Some n /\ fingerprintDue n now = true /\ c = candidateOf n) /\
  StronglySorted (fun a b => fingerprintCandidateBetter b a = false) batch /\
  Z.of_nat (length batch) <= limit /\
  Z.of_nat (length (List.filter cd_unpromoted batch)) <= Z.max unpromotedLimit 0 /\
  (forall id n, s_m s !! id = Some n -> fingerprintDue n now = true -> isELCandidate n = false ->
     candidateOf n ∉ batch ->
     Z.of_nat (length batch) = limit /\ forall c, c ∈ batch -> fingerprintCandidateBetter (candidateOf n) c = false).
Proof.
  intros Hk Hlim batch. subst batch. unfold selectCandidates. rewrite scanCandidates_split.
  set (due := map candidateOf (List.filter (fun n => fingerprintDue n now) (map_values (s_m s)))).
  pose proof (offers_select fingerprintCandidateBetter better_asym better_ntrans limit (List.filter (fun c => negb (cd_unpromoted c)) due)) as Hsel.
  pose proof (offers_select fingerprintCandidateBetter better_asym better_ntrans unpromotedLimit (List.filter cd_unpromoted due)) as Hunp.
  set (sel := tk_items (foldl _ (newTopK _ limit) _)) in *. set (unp := tk_items (foldl _ (newTopK _ unpromotedLimit) _)) in *.
  destruct Hsel as (dsel & Hps & Hls & Hbs), Hunp as (dunp & Hpu & Hlu & _).
  set (raw := isort _ (sel ++ unp)).
  assert (raw ≡ₚ sel ++ unp) as Hraw by apply isort_perm.
  assert (StronglySorted (fun a b => fingerprintCandidateBetter b a = false) raw) as Hsorted.
  { eapply sorted_impl; [|apply isort_sorted].
    - intros x y H. unfold leP in H. by apply negb_true_iff.
    - intros x y. apply betterLe_total.
    - intros x y z. apply betterLe_trans. }
  assert (forall c, c ∈ sel -> c ∈ due /\ cd_unpromoted c = false) as Hsin.
  { intros c Hc. assert (c ∈ List.filter (fun c => negb (cd_unpromoted c)) due) as Hf by (rewrite Hps; apply elem_of_app; by left).
    apply elem_of_lfilter in Hf as [? Hf]. boolify. done. }
  assert (forall c, c ∈ unp -> c ∈ due /\ cd_unpromoted c = true) as Huin.
  { intros c Hc. assert (c ∈ List.filter cd_unpromoted due) as Hf by (rewrite Hpu; apply elem_of_app; by left).
    by apply elem_of_lfilter in Hf. }
  assert (forall c, c ∈ take (Z.to_nat limit) raw -> c ∈ raw) as Htake.
  { intros c Hc. rewrite <- (take_drop (Z.to_nat limit) raw). apply elem_of_app. by left. }
  split_and!.
  - intros c Hc%Htake. rewrite Hraw in Hc.
    assert (c ∈ due) as Hd by (apply elem_of_app in Hc as [?%Hsin|?%Huin]; naive_solver).
    apply list_elem_of_fmap in Hd as (n & -> & Hn). apply elem_of_lfilter in Hn as [Hn Hdue].
    exists n. split_and!; [|done|done]. by apply map_values_lookup.
  - rewrite <- (take_drop (Z.to_nat limit) raw) in Hsorted. by apply StronglySorted_app_1_l in Hsorted.
  - rewrite length_take. lia.
  - assert (length (List.filter cd_unpromoted raw) = length unp) as Hlen.
    { rewrite Hraw, List.filter_app, length_app, (lfilter_none _ sel), (lfilter_all _ unp); [done| |].
      - intros c Hc. by apply Huin.
      - intros c Hc. by apply Hsin. }
    rewrite <- (take_drop (Z.to_nat limit) raw), List.filter_app, length_app in Hlen. lia.
  - intros id n Hn Hdue Hel Hout. set (c0 := candidateOf n) in *.
    assert (c0 ∈ List.filter (fun c => negb (cd_unpromoted c)) due) as Hc0.
    { apply elem_of_lfilter. split; [|simpl; by rewrite Hel]. apply list_elem_of_fmap. exists n. split; [done|].
      apply elem_of_lfilter. split; [|done]. apply elem_of_map_values. eauto. }
    assert (c0 ∈ raw -> c0 ∈ drop (Z.to_nat limit) raw) as Hdrop.
    { intros H. rewrite <- (take_drop (Z.to_nat limit) raw) in H. by apply elem_of_app in H as [?|?]. }
    assert (Z.of_nat (length raw) = Z.of_nat (length sel) + Z.of_nat (length unp)) as Hlr
      by (rewrite Hraw, length_app; lia).
    rewrite Hps in Hc0. apply elem_of_app in Hc0 as [Hin|Hin].
    + assert (c0 ∈ raw) as Hr by (rewrite Hraw; apply elem_of_app; by left). specialize (Hdrop Hr).
      split.
      * assert (0 < length (drop (Z.to_nat limit) raw))%nat by (destruct (drop _ raw); [by apply elem_of_nil in Hdrop|simpl; lia]).
        rewrite length_drop in *. rewrite length_take. lia.
      * intros c Hc. by apply (sorted_take_drop _ raw (Z.to_nat limit) c c0 Hsorted).
    + assert (Z.of_nat (length sel) = limit) as Hsl.
      { apply Permutation_length in Hps. rewrite length_app in Hps.
        assert (0 < length dsel)%nat by (destruct dsel; [by apply elem_of_nil in Hin|simpl; lia]). lia. }
      split; [rewrite length_take; lia|].
      intros c Hc. destruct (cd_unpromoted c) eqn:Eu.
      2: { specialize (Htake c Hc). rewrite Hraw in Htake. apply elem_of_app in Htake as [Hcs|Hcu]; [by apply Hbs|].
           apply Huin in Hcu as [_ ?]. congruence. }
      destruct (fingerprintCandidateBetter c0 c) eqn:Eb; [|done]. exfalso.
      destruct (pigeonhole_drop raw sel (Z.to_nat limit) c) as (x & Hx & Hxd); [|lia|done| |].
      * exists unp. by rewrite Hraw.
      * intros Hcs. apply Hsin in Hcs as [_ ?]. congruence.
      * pose proof (sorted_take_drop _ raw (Z.to_nat limit) c x Hsorted Hc Hxd) as H1. cbv beta in H1.
        pose proof (Hbs x c0 Hx Hin) as H2. pose proof (better_ntrans _ _ _ H2 H1). congruence.
Qed.

Lemma selectCandidates_fair_witness :
  Z.of_nat (length (selectCandidates (MkSet demoMap 0 1) 5 2 1)) <= 2.
Proof.
  pose proof (selectCandidates_fair (MkSet demoMap 0 1) 5 2 1 demoMap_keyed ltac:(lia)) as H.
  cbv zeta in H. destruct H as (_ & _ & H & _). exact H.
Defined.
