(* ===== verification/NodesetInv.v ===== *)
(** The node set as a transition system: each critical section is a step, so any
    interleaving of concurrent operations is a path, and the structural invariant
    holds on every path from an empty set. *)

From stdpp Require Import base gmap sets strings list numbers sorting relations.
From Stdlib Require Import ZArith Lia.
From S2P Require Import Prelude GoLib ForkId NetIP Heap NodeData Nodeset Eviction.

(** * The invariant *)

(** Entries sit under their own identity, the candidate counter is exact, and a
    bounded set stays within its bound. *)
Record Set_ok (s : NodeSet) : Prop := {
  ok_keyed : keyed (s_m s);
  ok_count : s_candidates s = Z.of_nat (map_count isELCandidate (s_m s));
  ok_max : 0 < s_max s -> Len s <= s_max s
}.

Lemma NewWithLimit_ok max : Set_ok (NewWithLimit max).
Proof. split; [apply map_Forall_empty|reflexivity|]. simpl. unfold Len. simpl. rewrite map_size_empty. lia. Qed.

Lemma track_m w i s : s_m (trackCandidateLocked w i s) = s_m s.
Proof. unfold trackCandidateLocked. by destruct w, i. Qed.
Lemma track_max w i s : s_max (trackCandidateLocked w i s) = s_max s.
Proof. unfold trackCandidateLocked. by destruct w, i. Qed.
Lemma track_count w i s : s_candidates (trackCandidateLocked w i s) = s_candidates s + Z.b2z i - Z.b2z w.
Proof. unfold trackCandidateLocked. destruct w, i; simpl; lia. Qed.
Lemma track_setNode w i s id n : trackCandidateLocked w i (setNode s id n) = setNode (trackCandidateLocked w i s) id n.
Proof. unfold trackCandidateLocked. by destruct w, i. Qed.

Lemma setNode_setNode s id a b : setNode (setNode s id a) id b = setNode s id b.
Proof. unfold setNode, upd, upd_s_m. simpl. by rewrite insert_insert_eq. Qed.

(** Replacing an entry, with the counter told of the change. *)
Lemma replace_ok s id old n :
  Set_ok s -> s_m s !! id = Some old -> n_ID n = n_ID old ->
  Set_ok (trackCandidateLocked (isELCandidate old) (isELCandidate n) (setNode s id n)).
Proof.
  intros [Hk Hc Hm] Ho Hid. split.
  - rewrite track_m. simpl. apply map_Forall_insert_2; [|done]. rewrite Hid. by apply Hk.
  - rewrite track_count, track_m. simpl. pose proof (map_count_insert isELCandidate (s_m s) id old n Ho).
    rewrite Hc. unfold Z.b2z. destruct (isELCandidate old), (isELCandidate n); lia.
  - rewrite track_max. unfold Len in *. rewrite track_m. simpl. rewrite map_size_insert_Some by eauto. done.
Qed.

Lemma replace_same_ok s id old n :
  Set_ok s -> s_m s !! id = Some old -> n_ID n = n_ID old -> isELCandidate n = isELCandidate old ->
  Set_ok (setNode s id n).
Proof.
  intros Hs Ho Hid He. pose proof (replace_ok s id old n Hs Ho Hid) as H. rewrite He in H.
  unfold trackCandidateLocked in H. by destruct (isELCandidate old).
Qed.

Lemma insert_ok s id n :
  Set_ok s -> s_m s !! id = None -> n_ID n = id -> (0 < s_max s -> Len s < s_max s) ->
  Set_ok (trackCandidateLocked false (isELCandidate n) (setNode s id n)).
Proof.
  intros [Hk Hc Hm] Ho Hid Hroom. split.
  - rewrite track_m. simpl. by apply map_Forall_insert_2.
  - rewrite track_count, track_m. simpl. rewrite map_count_insert_new by done.
    rewrite Hc. unfold Z.b2z. destruct (isELCandidate n); lia.
  - rewrite track_max. unfold Len in *. rewrite track_m. simpl. rewrite map_size_insert_None by done. lia.
Qed.

Lemma deleteLocked_ok s id : Set_ok s -> Set_ok (deleteLocked s id).
Proof.
  intros [Hk Hc Hm]. unfold deleteLocked. destruct (s_m s !! id) as [n|] eqn:E; [|by split]. split.
  - simpl. rewrite track_m. by apply map_Forall_delete.
  - cbn [s_candidates s_m upd upd_s_m eta eta_NodeSet]. simpl. rewrite track_m, track_count.
    pose proof (map_count_delete isELCandidate (s_m s) id n E). rewrite Hc. unfold Z.b2z. destruct (isELCandidate n); lia.
  - simpl. rewrite track_max. unfold Len in *. simpl. rewrite track_m.
    pose proof (gmap_size_delete (s_m s) id n E). lia.
Qed.

Lemma deleteLocked_max s id : s_max (deleteLocked s id) = s_max s.
Proof. unfold deleteLocked. destruct (s_m s !! id); [|done]. simpl. apply track_max. Qed.

Lemma deleteLocked_len s id : Len (deleteLocked s id) <= Len s.
Proof.
  unfold Len. apply Nat2Z.inj_le, map_subseteq_size, map_subseteq_spec. intros k v.
  rewrite deleteLocked_lookup. by destruct (decide _).
Qed.

Lemma deleteLocked_len_lt s id n : s_m s !! id = Some n -> Len (deleteLocked s id) < Len s.
Proof.
  intros E. unfold deleteLocked, Len. rewrite E. simpl. rewrite track_m.
  pose proof (gmap_size_delete (s_m s) id n E).
  assert (size (s_m s) <> 0%nat) by (intros Hz%map_size_empty_inv; by rewrite Hz, lookup_empty in E). lia.
Qed.

Lemma deletes_ok vs s :
  Set_ok s -> let s' := foldl (fun s v => deleteLocked s (n_ID v)) s vs in
  Set_ok s' /\ s_max s' = s_max s /\ Len s' <= Len s.
Proof.
  revert s. induction vs as [|v vs IH]; intros s Hs; cbn [foldl]; [split_and!; [done|done|lia]|].
  destruct (IH _ (deleteLocked_ok s (n_ID v) Hs)) as (? & Hm & Hl). split_and!; [done|by rewrite Hm, deleteLocked_max|].
  pose proof (deleteLocked_len s (n_ID v)). lia.
Qed.

Lemma evictForLocked_ok s c s' n class :
  Set_ok s -> evictForLocked s c = (s', n, class) ->
  Set_ok s' /\ s_max s' = s_max s /\ (n <> 0 -> Len s' < Len s) /\ (n = 0 -> s' = s).
Proof.
  intros Hs. unfold evictForLocked. destruct (evict_victims _ _ _) as [worst victims] eqn:Ev.
  destruct victims as [|v vs]; [intros [= <- <- _]; split_and!; done|]. intros [= <- <- _].
  destruct (deletes_ok (v :: vs) s Hs) as (? & ? & ?). split_and!; [done|done| |simpl; lia].
  intros _. cbn [foldl] in *.
  destruct (victims_in _ _ _ _ _ v Ev ltac:(left)) as (Hin & _).
  pose proof (deleteLocked_len_lt s (n_ID v) v (map_values_lookup _ _ (ok_keyed _ Hs) Hin)).
  destruct (deletes_ok vs _ (deleteLocked_ok s (n_ID v) Hs)) as (_ & _ & ?). lia.
Qed.

Lemma evictForLocked_missing s c s' n class id :
  keyed (s_m s) -> evictForLocked s c = (s', n, class) -> s_m s !! id = None -> s_m s' !! id = None.
Proof.
  intros Hk. unfold evictForLocked. destruct (evict_victims _ _ _) as [worst victims].
  destruct victims as [|v vs] eqn:Ev; [by intros [= <- <- _]|]. rewrite <- Ev. intros [= <- <- _] Hid.
  rewrite deletes_lookup. by destruct (decide _).
Qed.

(** * What node updates keep *)

(** The identity of a node, and what makes it a candidate. *)
Definition same_place (a b : Node) : Prop := n_ID a = n_ID b /\ n_Layer a = n_Layer b /\ n_Network a = n_Network b.

Lemma same_place_candidate a b : same_place a b -> isELCandidate a = isELCandidate b.
Proof. unfold same_place, isELCandidate. by intros (_ & -> & ->). Qed.

Lemma same_place_trans a b c : same_place a b -> same_place b c -> same_place a c.
Proof. unfold same_place. intros (-> & -> & ->) (-> & -> & ->). done. Qed.

Ltac place := unfold same_place; split_and!; upd_simpl; try reflexivity; try assumption.

Lemma penalize_place n : same_place (fst (penalizeLocked n)) n.
Proof.
  unfold penalizeLocked. cbv zeta. destruct (_ <? _); [cbn [fst]; place|].
  destruct (_ && negb (n_fpInFlight _)); cbn [fst]; place.
Qed.

Lemma touchSeen_place n via now f p : same_place (touchSeen n via now f p) n.
Proof.
  unfold touchSeen. cbv zeta. destruct p, (negb f && _), (via =? "v4")%string, (via =? "v5")%string; place.
Qed.

Lemma touch_place n via now existed f p : same_place (fst (touchObservationLocked n via now existed f p)) n.
Proof.
  unfold touchObservationLocked. cbv zeta. destruct (_ && negb (n_pinned n)).
  - pose proof (penalize_place n) as Hp. destruct (penalizeLocked n) as [m d]. cbn [fst] in *.
    destruct d; cbn [fst]; [done|]. by eapply same_place_trans; [apply touchSeen_place|].
  - cbn [fst]. destruct (_ && (n_Score n <? scoreCap)); [|apply touchSeen_place].
    eapply same_place_trans; [apply touchSeen_place|]. place.
Qed.

Lemma refreshFor_place n e now : same_place (refreshFor n e now) n.
Proof.
  unfold refreshFor. destruct (fingerprintRefreshReasons n e now) as [rc ex]. cbv zeta.
  destruct (rc || ex); [|done].
  destruct (n_fpDone n); cbv iota; upd_simpl;
    (destruct (rc && n_fpInFlight n); [place|]); destruct (negb (n_fpInFlight n) && _); place.
Qed.

Lemma clear_ID n : n_ID (clearFingerprintLocked n) = n_ID n.
Proof. unfold clearFingerprintLocked. cbv zeta. destruct (n_fpInFlight _); by upd_simpl. Qed.

Lemma applyLayer_ID n e : n_ID (applyLayer n e) = n_ID n.
Proof.
  unfold applyLayer. cbv zeta. destruct (negb (e_layer e =? "unknown")%string); [|done].
  destruct (negb (n_Layer n =? _)%string); upd_simpl; [|done].
  destruct (negb (n_Layer n =? "")%string); rewrite ?clear_ID; by upd_simpl.
Qed.

Lemma applyNetwork_ID n e : n_ID (applyNetwork n e) = n_ID n.
Proof.
  unfold applyNetwork. cbv zeta. destruct (negb (e_network e =? "")%string); [|done].
  destruct (negb (n_Network n =? _)%string), (n_MembershipSource _ =? "")%string; by upd_simpl.
Qed.

Lemma applyFork_ID n e now b : n_ID (applyFork n e now b) = n_ID n.
Proof. unfold applyFork. destruct (_ && _); by upd_simpl. Qed.

Lemma setEndpoints_ID n e : n_ID (setEndpoints n e) = n_ID n.
Proof. unfold setEndpoints. by upd_simpl. Qed.

Lemma applyRecord_ID n e now ok : n_ID (applyRecord n e now ok) = n_ID n.
Proof.
  unfold applyRecord. cbv zeta. set (cur := if ok then refreshFor n e now else n).
  assert (n_ID cur = n_ID n) as <- by (subst cur; destruct ok; [apply refreshFor_place|done]).
  destruct (_ && negb (e_client e =? "")%string); upd_simpl;
    rewrite applyLayer_ID, applyNetwork_ID, applyFork_ID; upd_simpl; rewrite setEndpoints_ID; by upd_simpl.
Qed.

Lemma sight_place n now : same_place (sightCandidate n now) n.
Proof. unfold sightCandidate. cbv zeta. destruct (refreshExpired _ now); place. Qed.

Lemma move_place n e now : same_place (moveCandidate n e now) n.
Proof. unfold moveCandidate, setEndpoints. cbv zeta. destruct (_ && n_fpInFlight _); place. Qed.

Lemma newCandidate_ID id e now : n_ID (newCandidate id e now) = id.
Proof. unfold newCandidate. rewrite setEndpoints_ID. by upd_simpl. Qed.

Lemma newCandidate_candidate id e now : isELCandidate (newCandidate id e now) = true.
Proof. unfold isELCandidate, newCandidate, setEndpoints. by upd_simpl. Qed.

Lemma authenticated_place n hash next now : same_place (authenticatedNode n hash next now) n.
Proof. unfold authenticatedNode. cbv zeta. destruct (IsZero _), (n_Seq _ =? 0); place. Qed.

Lemma claim_place n : same_place (claimNode n) n.
Proof. unfold claimNode. place. Qed.

Lemma unclaim_place n : same_place (unclaimNode n) n.
Proof. unfold unclaimNode. cbv zeta. destruct (0 <? n_fpAttempts n), (n_fpRefresh _); place. Qed.

Lemma requeue_place n : same_place (requeueNode n) n.
Proof. unfold requeueNode. place. Qed.

Lemma verified_place n fp dir claimed now : same_place (verifiedNode n fp dir claimed now) n.
Proof. unfold verifiedNode, setIdentity. cbv zeta. destruct claimed; place. Qed.

Lemma geo_place n g : same_place (geoNode n g) n.
Proof. unfold geoNode. cbv zeta. destruct (g_Geolocated g), (_ || _); place. Qed.

(** * The operations as steps *)

Section Steps.
Context `{Hspec : SpecialNetworks} `{Hcls : Classifier} `{Hcodec : EnodeCodec} (AllowPrivateIPs : bool).

(** One critical section with its arguments.  [OpCommit] runs whatever happened
    since the caller's [OpStale], as in the source. *)
Inductive Op : Type :=
| OpStale (n : ENode) (via : string) (now : Time) (failedResolution pin : bool)
| OpCommit (n : ENode) (via : string) (now : Time) (forceNetwork forceLayer : string) (failedResolution pin : bool)
| OpAuthenticate (id layer network forkHash : string) (forkNext : Z) (now : Time)
| OpCandidate (n : ENode) (now : Time) (limit : Z)
| OpCandidateLayer (id : string) (limit : Z)
| OpCandidateClient (id : string) (fp : Fingerprint) (direction : string)
| OpClaim (id : string) (now : Time)
| OpUnclaim (id : string)
| OpFailed (id : string) (now : Time)
| OpFingerprint (id layer : string) (fp : Fingerprint) (direction : string) (claimed : bool) (now : Time)
| OpExecutionStatus (id network : string) (fork : forkID) (now : Time)
| OpConsensusStatus (id network forkHash : string) (now : Time)
| OpHead (id layer network : string) (head : Z) (at_ : Time)
| OpGeo (id ip : string) (g : GeoResult)
| OpPenalize (id : string) (now : Time)
| OpPrune (cutoff verified : Time)
| OpIngest (rs : list Row).

Definition exec (s : NodeSet) (op : Op) : NodeSet :=
  match op with
  | OpStale n via now f p => match observe_stale s n via now f p with Some r => fst r | None => s end
  | OpCommit n via now fn fl f p =>
      fst (observe_commit s (en_ID n) (forceNetworkLayer (extract AllowPrivateIPs n) fn fl) via now f p)
  | OpAuthenticate id layer network hash next now => authenticate s id layer network hash next now
  | OpCandidate n now limit => fst (candidate_commit s (en_ID n) (extract AllowPrivateIPs n) now limit)
  | OpCandidateLayer id limit => fst (SetExecutionCandidateLayer s id limit)
  | OpCandidateClient id fp dir => fst (SetCandidateClient s id fp dir)
  | OpClaim id now => fst (ClaimFingerprintInfo s id now)
  | OpUnclaim id => UnclaimFingerprint s id
  | OpFailed id now => fst (FingerprintFailed s id now)
  | OpFingerprint id layer fp dir claimed now => fst (fst (setFingerprint s id layer fp dir claimed now))
  | OpExecutionStatus id network fork now => fst (SetExecutionStatusAt s id network fork now)
  | OpConsensusStatus id network hash now => fst (SetConsensusStatus s id network hash now)
  | OpHead id layer network head at_ => SetHead s id layer network head at_
  | OpGeo id ip g => SetGeo s id ip g
  | OpPenalize id now => Penalize s id now
  | OpPrune cutoff verified => fst (PruneStaleWithVerified s cutoff verified)
  | OpIngest rs => fst (fst (Ingest AllowPrivateIPs s rs))
  end.

(** A trace: any order in which concurrent callers take the lock. *)
Definition run (s : NodeSet) (ops : list Op) : NodeSet := foldl exec s ops.

Lemma observe_stale_ok s n via now f p r : Set_ok s -> observe_stale s n via now f p = Some r -> Set_ok (fst r).
Proof.
  intros Hs. unfold observe_stale. destruct (s_m s !! en_ID n) as [cur|] eqn:E; [|done].
  destruct (en_Seq n <? n_Seq cur); [|done]. pose proof (touch_place cur via now true f p) as Ht.
  destruct (touchObservationLocked _ _ _ _ _ _) as [cur' d]. intros [= <-]. simpl in *.
  destruct d; [by apply deleteLocked_ok|].
  apply (replace_same_ok s _ cur); [done|done|apply Ht|by apply same_place_candidate].
Qed.

Lemma makeRoom_ok s network f p id s' n class :
  Set_ok s -> s_m s !! id = None -> makeRoom s network f p = Some (s', n, class) ->
  Set_ok s' /\ s_m s' !! id = None /\ (0 < s_max s' -> Len s' < s_max s').
Proof.
  intros Hs Hid. unfold makeRoom. destruct ((0 <? s_max s) && (s_max s <=? Len s)) eqn:Efull.
  - destruct (evictForLocked s _) as [[s2 n2] c2] eqn:Ev.
    destruct (evictForLocked_ok _ _ _ _ _ Hs Ev) as (Hs2 & Hm & Hlt & _).
    destruct (n2 =? 0) eqn:En; [done|]. intros [= <- <- <-]. boolify.
    split_and!; [done|by eapply evictForLocked_missing; [apply Hs|..]|].
    intros _. specialize (Hlt En). pose proof (ok_max _ Hs). lia.
  - intros [= <- <- <-]. split_and!; [done|done|]. intros Hm.
    apply andb_false_iff in Efull as [?|?]; boolify; lia.
Qed.

Lemma observe_commit_ok s id e via now f p : Set_ok s -> Set_ok (fst (observe_commit s id e via now f p)).
Proof.
  intros Hs. unfold observe_commit. cbn zeta.
  destruct (s_m s !! id) as [cur|] eqn:E.
  - pose proof (touch_place cur via now true f p) as Ht.
    destruct (touchObservationLocked cur via now true f p) as [cur' d]. simpl in Ht.
    destruct d; [by apply deleteLocked_ok|]. cbn [andb negb orb fst].
    destruct (e_seq e <? n_Seq cur'); cbn [fst].
    + apply (replace_same_ok s _ cur); [done|done|apply Ht|by apply same_place_candidate].
    + apply replace_ok; [done|done|]. rewrite applyRecord_ID. apply Ht.
  - destruct (makeRoom s (e_network e) f p) as [[[s2 n2] c2]|] eqn:Ea; [|done].
    destruct (makeRoom_ok _ _ _ _ id _ _ _ Hs E Ea) as (Hs2 & Hid2 & Hroom).
    set (new := emptyNode <| n_ID := id |> <| n_FirstSeen := now |> <| n_Score := if f then dropBelow else scoreInit |>).
    assert (touchObservationLocked new via now false f p = (touchSeen new via now f p, false)) as Htouch by done.
    rewrite Htouch. cbn [andb negb orb fst].
    rewrite setNode_setNode.
    apply insert_ok; [done|done| |done]. rewrite applyRecord_ID.
    by destruct (touchSeen_place new via now f p) as (-> & _ & _).
Qed.

Lemma update_ok s id n n' : Set_ok s -> s_m s !! id = Some n -> same_place n' n -> Set_ok (setNode s id n').
Proof. intros Hs Hn Hp. apply (replace_same_ok s _ n); [done|done|apply Hp|by apply same_place_candidate]. Qed.

Lemma authenticate_ok s id layer network hash next now : Set_ok s -> Set_ok (authenticate s id layer network hash next now).
Proof.
  intros Hs. unfold authenticate. destruct (s_m s !! id) as [cur|] eqn:E; [|done].
  destruct (_ && _); [|done]. apply (update_ok s _ cur); [done|done|apply authenticated_place].
Qed.

Lemma candidate_commit_ok s id e now limit : Set_ok s -> Set_ok (fst (candidate_commit s id e now limit)).
Proof.
  intros Hs. unfold candidate_commit. destruct (s_m s !! id) as [cur|] eqn:E; cbn zeta.
  - pose proof (sight_place cur now) as Hp. destruct (negb _); cbn [fst]; [by apply (update_ok s _ cur)|].
    apply (update_ok s _ cur); [done|done|]. destruct (_ && _); [|done].
    by eapply same_place_trans; [apply move_place|].
  - destruct (_ && (s_max s <=? Len s)) eqn:Efull; [done|].
    destruct (_ && (limit <=? s_candidates s)); [done|].
    destruct (negb (fingerprintable _)); [done|]. cbn [fst].
    replace (s <| s_candidates := s_candidates s + 1 |>) with (trackCandidateLocked false (isELCandidate (newCandidate id e now)) s)
      by (rewrite newCandidate_candidate; reflexivity).
    rewrite <- track_setNode. apply insert_ok; [exact Hs|exact E|apply newCandidate_ID|].
    intros Hm. apply andb_false_iff in Efull as [?|?]; boolify; lia.
Qed.

Lemma candidateLayer_ok s id limit : Set_ok s -> Set_ok (fst (SetExecutionCandidateLayer s id limit)).
Proof.
  intros Hs. unfold SetExecutionCandidateLayer. destruct (s_m s !! id) as [n|] eqn:E; [|done]. cbv zeta.
  destruct (negb (n_Layer n =? "")%string) eqn:El; [done|]. boolify.
  destruct (_ && _); [done|]. destruct (negb (fingerprintable _)); cbn [fst].
  - apply (update_ok s _ n); [done|done|]. unfold same_place. upd_simpl. by rewrite El.
  - replace false with (isELCandidate n).
    + apply replace_ok; [done|done|by upd_simpl].
    + unfold isELCandidate. by rewrite El.
Qed.

Lemma candidateClient_ok s id fp dir : Set_ok s -> Set_ok (fst (SetCandidateClient s id fp dir)).
Proof.
  intros Hs. unfold SetCandidateClient. destruct (s_m s !! id) as [n|] eqn:E; [|done].
  destruct (isELCandidate n); cbn [fst]; [|done]. apply (update_ok s _ n); [done|done|]. unfold setIdentity. place.
Qed.

Lemma claim_ok s id now : Set_ok s -> Set_ok (fst (ClaimFingerprintInfo s id now)).
Proof.
  intros Hs. unfold ClaimFingerprintInfo. destruct (s_m s !! id) as [n|] eqn:E; [|done].
  destruct (fingerprintDue n now); cbn zeta; cbn [fst]; [|done]. apply (update_ok s _ n); [done|done|apply claim_place].
Qed.

Lemma unclaim_ok s id : Set_ok s -> Set_ok (UnclaimFingerprint s id).
Proof.
  intros Hs. unfold UnclaimFingerprint. destruct (s_m s !! id) as [n|] eqn:E; [|done].
  destruct (n_fpInFlight n); [|done]. apply (update_ok s _ n); [done|done|apply unclaim_place].
Qed.

Lemma failed_ok s id now : Set_ok s -> Set_ok (fst (FingerprintFailed s id now)).
Proof.
  intros Hs. unfold FingerprintFailed. destruct (s_m s !! id) as [n|] eqn:E; [|done]. cbv zeta.
  destruct (_ && negb _); cbn [fst]; [apply (update_ok s _ n); [done|done|place]|].
  destruct (n_fpRefresh _); cbn [fst]; (apply (update_ok s _ n); [done|done|]); [apply requeue_place|place].
Qed.

Lemma setFingerprint_ok s id layer fp dir claimed now :
  Set_ok s -> Set_ok (fst (fst (setFingerprint s id layer fp dir claimed now))).
Proof.
  intros Hs. unfold setFingerprint. destruct (s_m s !! id) as [n|] eqn:E; [|done].
  destruct (_ && negb claimed); [done|].
  destruct (claimed && _); cbn [fst]; (apply (update_ok s _ n); [done|done|]); [apply requeue_place|apply verified_place].
Qed.

Lemma credit_place n network now : same_place (creditStatusSightingLocked n network now) n.
Proof.
  unfold creditStatusSightingLocked. cbv zeta.
  set (m := if _ && (statusReverifyGap <=? _) then _ else n).
  assert (same_place m n) as Hm.
  { subst m. destruct (_ && (statusReverifyGap <=? _)); [|done]. destruct (n_Score n <? scoreCap); place. }
  destruct (_ || _); [|done]. eapply same_place_trans; [|exact Hm]. place.
Qed.

Lemma clearHead_place n network : same_place (clearHeadOnNetworkChangeLocked n network) n.
Proof. unfold clearHeadOnNetworkChangeLocked. destruct (negb _); [place|done]. Qed.

Lemma executionStatus_place n network fork now :
  n_ID (executionStatusNode n network fork now) = n_ID n /\ n_Network (executionStatusNode n network fork now) = network.
Proof.
  destruct (clearHead_place n network) as (Hi & _ & _). unfold executionStatusNode, statusMembership. cbv zeta. upd_simpl. done.
Qed.

Lemma executionStatus_ok s id network fork now : Set_ok s -> Set_ok (fst (SetExecutionStatusAt s id network fork now)).
Proof.
  intros Hs. unfold SetExecutionStatusAt. destruct (s_m s !! id) as [n|] eqn:E; [|done].
  destruct (negb _ || _) eqn:Eg; [done|]. apply orb_false_iff in Eg as [_ Hnet]. cbn zeta. cbn [fst].
  pose proof (credit_place n network now) as Hp. set (m := creditStatusSightingLocked n network now) in *.
  destruct (executionStatus_place m network fork now) as [Hi Hn].
  rewrite <- track_setNode. rewrite (same_place_candidate m n) by done.
  replace false with (isELCandidate (executionStatusNode m network fork now)).
  - apply replace_ok; [done|done|]. rewrite Hi. apply Hp.
  - unfold isELCandidate. rewrite Hn, Hnet. apply andb_false_r.
Qed.

Lemma consensusStatus_place n network hash now :
  n_ID (consensusStatusNode n network hash now) = n_ID n /\ n_Layer (consensusStatusNode n network hash now) = n_Layer n.
Proof.
  unfold consensusStatusNode, statusMembership. cbv zeta. set (c := clearHeadOnNetworkChangeLocked _ network).
  assert (same_place c n) as (Hi & Hl & _).
  { eapply same_place_trans; [apply clearHead_place|apply credit_place]. }
  destruct (negb (hash =? "")%string); upd_simpl; done.
Qed.

Lemma consensusStatus_ok s id network hash now : Set_ok s -> Set_ok (fst (SetConsensusStatus s id network hash now)).
Proof.
  intros Hs. unfold SetConsensusStatus. destruct (s_m s !! id) as [n|] eqn:E; [|done].
  destruct (negb _ || _) eqn:Eg; [done|]. apply orb_false_iff in Eg as [Hlay%negb_false_iff%String.eqb_eq Hnet]. cbn [fst].
  destruct (consensusStatus_place n network hash now) as [Hi Hl].
  apply (replace_same_ok s _ n); [done|done|done|]. unfold isELCandidate. by rewrite Hl, Hlay.
Qed.

Lemma head_ok s id layer network head at_ : Set_ok s -> Set_ok (SetHead s id layer network head at_).
Proof.
  intros Hs. unfold SetHead. destruct (s_m s !! id) as [n|] eqn:E; [|done].
  destruct (_ || _); [done|]. apply (update_ok s _ n); [done|done|place].
Qed.

Lemma geo_ok s id ip g : Set_ok s -> Set_ok (SetGeo s id ip g).
Proof.
  intros Hs. unfold SetGeo. destruct (s_m s !! id) as [n|] eqn:E; [|done].
  destruct (negb _); [done|]. apply (update_ok s _ n); [done|done|apply geo_place].
Qed.

Lemma penalize_ok s id now : Set_ok s -> Set_ok (Penalize s id now).
Proof.
  intros Hs. unfold Penalize. destruct (s_m s !! id) as [n|] eqn:E; [|done]. cbv zeta.
  assert (same_place (n <| n_LastCheck := now |>) n) as Hpl by place.
  destruct (n_pinned _); [by apply (update_ok s _ n)|].
  pose proof (penalize_place (n <| n_LastCheck := now |>)) as Hp.
  destruct (penalizeLocked (n <| n_LastCheck := now |>)) as [m d]. cbn [fst] in Hp.
  assert (Set_ok (setNode s id m)) by (apply (update_ok s _ n); [done|done|by eapply same_place_trans]).
  destruct d; [by apply deleteLocked_ok|done].
Qed.

Lemma prune_ok s cutoff verified : Set_ok s -> Set_ok (fst (PruneStaleWithVerified s cutoff verified)).
Proof.
  intros Hs. unfold PruneStaleWithVerified.
  apply (foldl_invariant (fun acc : NodeSet * Z => Set_ok (fst acc))); [done|].
  intros [s' r] kv _ Hs'. destruct (pruneVictim _ _ _); [by apply deleteLocked_ok|done].
Qed.

Lemma restoredNode_ID id r : n_ID (restoredNode id r) = id.
Proof. unfold restoredNode. cbv zeta. destruct (_ && negb (r_Caps r =? "")%string); by rewrite ?clear_ID. Qed.

Lemma ingestRow_ok acc r : Set_ok (fst (fst acc)) -> Set_ok (fst (fst (ingestRow AllowPrivateIPs acc r))).
Proof.
  destruct acc as [[s dropped] evicted]. cbn [fst]. intros Hs. unfold ingestRow.
  destruct (hex_decode (r_ID r)) as [id|]; [|done]. destruct (negb (slen id =? 32)); [done|].
  destruct (negb (rowAddressesUsable _ r)); [done|]. cbv zeta.
  set (candidate := restoredNode id r). destruct (s_m s !! id) as [prev|] eqn:E.
  - rewrite E. cbn [fst]. rewrite <- track_setNode. apply replace_ok; [done|done|].
    unfold candidate. rewrite restoredNode_ID. symmetry. by apply (ok_keyed s Hs).
  - destruct (_ && (s_max s <=? Len s)) eqn:Efull.
    + destruct (evictForLocked s _) as [[s2 n2] c2] eqn:Ev.
      destruct (evictForLocked_ok _ _ _ _ _ Hs Ev) as (Hs2 & Hm & Hlt & _).
      destruct (n2 =? 0) eqn:En; [done|]. boolify.
      pose proof (evictForLocked_missing _ _ _ _ _ id (ok_keyed _ Hs) Ev E) as E2. rewrite E2. cbn [fst].
      rewrite <- track_setNode. apply insert_ok; [done|done|apply restoredNode_ID|].
      intros _. specialize (Hlt En). pose proof (ok_max _ Hs). lia.
    + rewrite E. cbn [fst]. rewrite <- track_setNode. apply insert_ok; [done|done|apply restoredNode_ID|].
      intros Hm. apply andb_false_iff in Efull as [?|?]; boolify; lia.
Qed.

Lemma exec_ok s op : Set_ok s -> Set_ok (exec s op).
Proof.
  intros Hs. destruct op; cbn [exec].
  - destruct (observe_stale s n via now failedResolution pin) as [r|] eqn:E; [|done]. by eapply observe_stale_ok.
  - by apply observe_commit_ok.
  - by apply authenticate_ok.
  - by apply candidate_commit_ok.
  - by apply candidateLayer_ok.
  - by apply candidateClient_ok.
  - by apply claim_ok.
  - by apply unclaim_ok.
  - by apply failed_ok.
  - by apply setFingerprint_ok.
  - by apply executionStatus_ok.
  - by apply consensusStatus_ok.
  - by apply head_ok.
  - by apply geo_ok.
  - by apply penalize_ok.
  - by apply prune_ok.
  - unfold Ingest. apply (foldl_invariant (fun acc : NodeSet * Z * Z => Set_ok (fst (fst acc)))); [done|].
    intros acc r _. apply ingestRow_ok.
Qed.

Lemma run_snoc s ops op : run s (ops ++ [op]) = exec (run s ops) op.
Proof. unfold run. by rewrite foldl_app. Qed.

Lemma run_app s ops ops' : run s (ops ++ ops') = run (run s ops) ops'.
Proof. unfold run. by rewrite foldl_app. Qed.

Lemma run_ok s ops : Set_ok s -> Set_ok (run s ops).
Proof. intros Hs. induction ops as [|op ops IH] using rev_ind; [done|]. rewrite run_snoc. by apply exec_ok. Qed.

(** No operation changes the bound. *)
Lemma setNode_max s id n : s_max (setNode s id n) = s_max s.
Proof. reflexivity. Qed.

Lemma deletes_max vs s : s_max (foldl (fun s v => deleteLocked s (n_ID v)) s vs) = s_max s.
Proof. revert s. induction vs as [|v vs IH]; intros s; cbn [foldl]; [done|]. by rewrite IH, deleteLocked_max. Qed.

Lemma evictForLocked_max s c s' n class : evictForLocked s c = (s', n, class) -> s_max s' = s_max s.
Proof.
  unfold evictForLocked. destruct (evict_victims _ _ _) as [worst [|v vs]]; intros H; [congruence|].
  replace s' with (foldl (fun s v => deleteLocked s (n_ID v)) s (v :: vs)) by congruence. apply deletes_max.
Qed.

Create Rewrite HintDb set_max.
#[local] Hint Rewrite track_max deleteLocked_max setNode_max : set_max.

Ltac same_max :=
  repeat first
    [ done
    | progress cbn [fst snd andb negb]
    | progress autorewrite with set_max
    | match goal with
      | H : evictForLocked _ _ = _ |- _ => apply evictForLocked_max in H as ->
      | |- context [match ?x with _ => _ end] =>
          lazymatch x with context [match _ with _ => _ end] => fail | _ => destruct x eqn:? end
      end ].

Lemma exec_max s op : s_max (exec s op) = s_max s.
Proof.
  destruct op; cbn [exec].
  - destruct (observe_stale s n via now failedResolution pin) as [r|] eqn:E; [|done].
    unfold observe_stale in E. destruct (s_m s !! en_ID n) as [cur|]; [|done].
    destruct (en_Seq n <? n_Seq cur); [|done]. destruct (touchObservationLocked _ _ _ _ _ _) as [c []]; injection E as <-; same_max.
  - unfold observe_commit, makeRoom. cbv zeta. same_max.
  - unfold authenticate. cbv zeta. same_max.
  - unfold candidate_commit. cbv zeta. same_max.
  - unfold SetExecutionCandidateLayer. cbv zeta. same_max.
  - unfold SetCandidateClient. same_max.
  - unfold ClaimFingerprintInfo. cbv zeta. same_max.
  - unfold UnclaimFingerprint. cbv zeta. same_max.
  - unfold FingerprintFailed. cbv zeta. same_max.
  - unfold setFingerprint. cbv zeta. same_max.
  - unfold SetExecutionStatusAt. cbv zeta. same_max.
  - unfold SetConsensusStatus. cbv zeta. same_max.
  - unfold SetHead. same_max.
  - unfold SetGeo. cbv zeta. same_max.
  - unfold Penalize. cbv zeta. same_max.
  - unfold PruneStaleWithVerified.
    apply (foldl_invariant (fun acc : NodeSet * Z => s_max (fst acc) = s_max s)); [done|].
    intros [s' r] kv _ <-. same_max.
  - unfold Ingest. apply (foldl_invariant (fun acc : NodeSet * Z * Z => s_max (fst (fst acc)) = s_max s)); [done|].
    intros [[s' d] ev] r _ <-. unfold ingestRow. cbv zeta. same_max.
Qed.

Lemma run_max s ops : s_max (run s ops) = s_max s.
Proof. induction ops as [|op ops IH] using rev_ind; [done|]. by rewrite run_snoc, exec_max. Qed.

(** ** The public observations are traces *)

Lemma observe_trace s n via now fn fl f p :
  exists ops, fst (observe AllowPrivateIPs s n via now fn fl f p) = run s ops.
Proof.
  unfold observe. destruct (negb _); [by exists []|].
  destruct (observe_stale s n via now f p) as [r|] eqn:E.
  - exists [OpStale n via now f p]. cbn [run foldl exec]. by rewrite E.
  - cbv zeta. destruct (noAddress _); [by exists []|]. by exists [OpCommit n via now fn fl f p].
Qed.

Lemma authenticated_trace s n via now fn fl layer network hash next :
  let r := observe AllowPrivateIPs s n via now fn fl false false in
  exists ops, (if ob_Applied (snd r) then authenticate (fst r) (en_ID n) layer network hash next now else fst r) = run s ops.
Proof.
  intros r. subst r. destruct (observe_trace s n via now fn fl false false) as [ops ->].
  destruct (ob_Applied _); [|by exists ops]. exists (ops ++ [OpAuthenticate (en_ID n) layer network hash next now]).
  by rewrite run_snoc.
Qed.

Lemma ObserveAuthenticatedEL_trace s n via network hash next now :
  exists ops, fst (ObserveAuthenticatedEL AllowPrivateIPs s n via network hash next now) = run s ops.
Proof.
  pose proof (authenticated_trace s n via now network "el" "el" network hash next) as H. cbv zeta in H.
  unfold ObserveAuthenticatedEL. by destruct (observe _ _ _ _ _ _ _ _ _).
Qed.

Lemma ObserveAuthenticatedCL_trace s n network hash now :
  exists ops, fst (ObserveAuthenticatedCL AllowPrivateIPs s n network hash now) = run s ops.
Proof.
  pose proof (authenticated_trace s n "inbound" now network "cl" "cl" network hash 0) as H. cbv zeta in H.
  unfold ObserveAuthenticatedCL. by destruct (observe _ _ _ _ _ _ _ _ _).
Qed.

Lemma ObserveCandidateEL_trace s n now limit :
  exists ops, fst (ObserveCandidateEL AllowPrivateIPs s n now limit) = run s ops.
Proof.
  unfold ObserveCandidateEL. cbv zeta. destruct (negb _); [by exists []|]. destruct (noAddress _); [by exists []|].
  by exists [OpCandidate n now limit].
Qed.

(** C1.  The set's structural invariant holds after every interleaving of its
    critical sections: entries sit under their own identity, the unclassified
    candidate counter is exactly the number of such entries, the limit never
    changes, and a limited set never exceeds it. *)
Theorem run_invariant max_ ops :
  let s := run (NewWithLimit max_) ops in
  (forall id n, s_m s !! id = Some n -> n_ID n = id) /\
  CountELCandidates s = Z.of_nat (map_count isELCandidate (s_m s)) /\
  s_max s = max_ /\ (0 < max_ -> Len s <= max_).
Proof.
  intros s. destruct (run_ok (NewWithLimit max_) ops (NewWithLimit_ok _)) as [Hk Hc Hm].
  assert (s_max s = max_) as Hmax by apply run_max. fold s in Hk, Hc, Hm. rewrite Hmax in Hm. done.
Qed.
End Steps.

(** A concrete environment: no reserved blocks beyond [net]'s own, one network,
    the identity version, and records that never parse back. *)
Section Demo.

Definition demoSpecial : SpecialNetworks := fun _ => false.
Definition demoClassifier : Classifier := Build_Classifier
  (fun id => if String.eqb (fid_Hash id) (of_bytes [1; 2; 3; 4]) then "mainnet" else "") (fun _ => "") (fun _ _ v => v).
Definition demoCodec : EnodeCodec := Build_EnodeCodec (fun _ => None) (fun _ => None).

Definition demoENode (i : Z) : ENode :=
  MkENode (be_put 32 i) 1 "enode://demo" "enr:demo" (Some (of_bytes [8; 8; 8; 8])) None (Some 30303) (Some 30303)
    None None None None None None None None None.

End Demo.
