(* ===== verification/NodesetEntry.v ===== *)
(** What the critical sections do to one entry of the node set: its target, the
    change it makes there, and that no other entry is touched except to be
    removed.  The properties of [NodesetProps] follow one entry through a trace. *)

From stdpp Require Import base gmap sets strings list numbers sorting.
From Stdlib Require Import ZArith Lia.
From S2P Require Import Prelude GoLib ForkId NetIP Heap NodeData Nodeset Eviction NodesetInv.

Section Entry.
Context `{Hspec : SpecialNetworks} `{Hcls : Classifier} (AllowPrivateIPs : bool).

(** The entry an operation is about; pruning and restoring are about the set. *)
Definition target (op : Op) : option string :=
  match op with
  | OpStale n _ _ _ _ | OpCommit n _ _ _ _ _ _ | OpCandidate n _ _ => Some (en_ID n)
  | OpAuthenticate id _ _ _ _ _ | OpCandidateLayer id _ | OpCandidateClient id _ _ | OpClaim id _ | OpUnclaim id
  | OpFailed id _ | OpFingerprint id _ _ _ _ _ | OpExecutionStatus id _ _ _ | OpConsensusStatus id _ _ _
  | OpHead id _ _ _ _ | OpGeo id _ _ | OpPenalize id _ => Some id
  | OpPrune _ _ | OpIngest _ => None
  end.

Definition isIngest (op : Op) : bool := match op with OpIngest _ => true | _ => false end.

Definition committed (n : ENode) (forceNetwork forceLayer : string) : extracted :=
  forceNetworkLayer (extract AllowPrivateIPs n) forceNetwork forceLayer.

(** The changes an operation can make to its target, besides removing it. *)
Definition effect (op : Op) (a b : Node) : Prop :=
  match op with
  | OpStale n via now f p => en_Seq n < n_Seq a /\ b = fst (touchObservationLocked a via now true f p)
  | OpCommit n via now fn fl f p =>
      let c := fst (touchObservationLocked a via now true f p) in
      b = c \/ (n_Seq c <= e_seq (committed n fn fl) /\ b = applyRecord c (committed n fn fl) now true)
  | OpAuthenticate _ _ _ hash next now => b = authenticatedNode a hash next now
  | OpCandidate n now _ =>
      let c := sightCandidate a now in
      b = c \/ (isELCandidate c = true /\ n_Seq c = 0 /\ n_ENR c = "" /\ b = moveCandidate c (extract AllowPrivateIPs n) now)
  | OpCandidateLayer _ _ =>
      n_Layer a = "" /\ (b = a <| n_Layer := "el" |> /\ fingerprintable b = true \/ b = a <| n_Layer := "el" |> <| n_Layer := "" |>)
  | OpCandidateClient _ fp dir => isELCandidate a = true /\ b = setIdentity a fp dir
  | OpClaim _ now => fingerprintDue a now = true /\ b = claimNode a
  | OpUnclaim _ => n_fpInFlight a = true /\ b = unclaimNode a
  | OpFailed id now =>
      b = a <| n_fpInFlight := false |> <| n_fpRefresh := false |> \/ b = requeueNode a \/
      b = a <| n_fpInFlight := false |> <| n_fpNext := Add now (fingerprintRetryDelay id (n_fpAttempts a)) |>
  | OpFingerprint _ layer fp dir claimed now =>
      (claimed = true /\ b = requeueNode a) \/ ((claimed = false -> n_Layer a = layer) /\ b = verifiedNode a fp dir claimed now)
  | OpExecutionStatus _ network fork now =>
      network <> "" /\ b = executionStatusNode (creditStatusSightingLocked a network now) network fork now
  | OpConsensusStatus _ network hash now => network <> "" /\ n_Layer a = "cl" /\ b = consensusStatusNode a network hash now
  | OpHead _ _ _ head at_ => b = a <| n_Head := head |> <| n_HeadObservedAt := if 0 <? head then at_ else zeroTime |>
  | OpGeo _ _ g => b = geoNode a g
  | OpPenalize _ now =>
      b = a <| n_LastCheck := now |> \/ (n_pinned a = false /\ b = fst (penalizeLocked (a <| n_LastCheck := now |>)))
  | OpPrune _ _ | OpIngest _ => False
  end.

Lemma setNode_lookup s id n k : s_m (setNode s id n) !! k = if decide (k = id) then Some n else s_m s !! k.
Proof.
  unfold setNode. cbn [upd upd_s_m eta eta_NodeSet s_m].
  destruct (decide (k = id)) as [->|]; [apply lookup_insert_eq|by apply lookup_insert_ne].
Qed.

Lemma track_lookup w i s k : s_m (trackCandidateLocked w i s) !! k = s_m s !! k.
Proof. by rewrite track_m. Qed.

(** Reading an entry after one [setNode] or [deleteLocked]. *)
Lemma set_entry s tid t id (P : Node -> Prop) :
  (tid = id -> P t) -> (forall x, s_m s !! id = Some x -> P x) ->
  forall x, s_m (setNode s tid t) !! id = Some x -> P x.
Proof. intros Ht Hs x. rewrite setNode_lookup. destruct (decide (id = tid)) as [->|]; [intros [= <-]; auto|auto]. Qed.

Lemma delete_entry s tid id x : s_m (deleteLocked s tid) !! id = Some x -> s_m s !! id = Some x.
Proof. rewrite deleteLocked_lookup. by destruct (decide (id = tid)). Qed.

Lemma evict_entry s c s' n class id x :
  evictForLocked s c = (s', n, class) -> s_m s' !! id = Some x -> s_m s !! id = Some x.
Proof.
  unfold evictForLocked. destruct (evict_victims _ _ _) as [worst victims].
  intros H. assert (s' = s \/ s' = foldl (fun s v => deleteLocked s (n_ID v)) s victims) as [->| ->] by (destruct victims; naive_solver).
  - done.
  - rewrite deletes_lookup. by destruct (decide _).
Qed.

Lemma makeRoom_entry s network f p s' n class id x :
  makeRoom s network f p = Some (s', n, class) -> s_m s' !! id = Some x -> s_m s !! id = Some x.
Proof.
  unfold makeRoom. destruct (_ && _); [|by intros [= <- _ _]]. destruct (evictForLocked _ _) as [[s2 n2] c2] eqn:Ev.
  destruct (n2 =? 0); [done|]. intros [= <- _ _]. by eapply evict_entry.
Qed.

Lemma prune_entry s cutoff verified id x :
  s_m (fst (PruneStaleWithVerified s cutoff verified)) !! id = Some x -> s_m s !! id = Some x.
Proof.
  unfold PruneStaleWithVerified. revert x.
  apply (foldl_invariant (fun acc : NodeSet * Z => forall x, s_m (fst acc) !! id = Some x -> s_m s !! id = Some x)); [done|].
  intros [s' r] kv _ IH x. destruct (pruneVictim _ _ _); [|apply IH]. cbn [fst]. intros Hx%delete_entry. by apply IH.
Qed.

Lemma commit_entry s n via now fn fl f p id a b :
  s_m s !! id = Some a -> s_m (exec AllowPrivateIPs s (OpCommit n via now fn fl f p)) !! id = Some b ->
  b = a \/ (en_ID n = id /\ effect (OpCommit n via now fn fl f p) a b).
Proof.
  intros Ha. cbn [exec]. fold (committed n fn fl). unfold observe_commit. cbn zeta.
  destruct (s_m s !! en_ID n) as [cur|] eqn:E.
  - destruct (touchObservationLocked cur via now true f p) as [c d] eqn:Et. destruct d; cbn [fst].
    { intros Hb%delete_entry. left. congruence. }
    destruct (true && _) eqn:Eseq; cbn [fst]; rewrite ?track_lookup; revert b; apply set_entry.
    all: try (intros x Hx; left; congruence).
    all: intros <-; right; split; [done|]; cbn [effect]; assert (cur = a) as -> by congruence; rewrite Et; cbn [fst].
    + by left.
    + right. split; [|done]. cbn [andb] in Eseq. boolify. lia.
  - destruct (makeRoom _ _ _ _) as [[[s2 n2] c2]|] eqn:Ea; [|cbn [fst]; intros Hb; left; congruence].
    intros Hb. left. assert (en_ID n <> id) as Hne by congruence.
    assert (s_m s2 !! id = Some b) as Hb2.
    { revert Hb. destruct (touchObservationLocked _ _ _ _ _ _) as [c []]; cbn [fst andb negb orb];
        rewrite ?track_lookup, ?setNode_setNode, ?deleteLocked_lookup, ?setNode_lookup;
        repeat destruct (decide _); congruence. }
    pose proof (makeRoom_entry _ _ _ _ _ _ _ _ _ Ea Hb2). congruence.
Qed.

Lemma count_m s c : s_m (s <| s_candidates := c |>) = s_m s.
Proof. reflexivity. Qed.

(** Reduces the entry after an operation to the branch that wrote it. *)
Ltac entry_branch tid :=
  match goal with |- context [s_m ?x !! tid] => is_var x; destruct (s_m x !! tid) as [n0|] eqn:E0 end;
  repeat (case_goal; cbn [fst snd]);
  cbn [fst snd]; rewrite ?track_lookup, ?deleteLocked_lookup, ?setNode_lookup, ?track_lookup, ?count_m;
  repeat match goal with |- context [decide (?x = ?y)] => destruct (decide (x = y)) end;
  intros Hb; try (left; congruence); try discriminate;
  (right; split; [congruence|]; injection Hb as <-).

(** What one operation other than a restore leaves of an entry. *)
Lemma exec_entry s op id a b :
  isIngest op = false -> s_m s !! id = Some a -> s_m (exec AllowPrivateIPs s op) !! id = Some b ->
  b = a \/ (target op = Some id /\ effect op a b).
Proof.
  intros Hi Ha. destruct op; cbn [exec target]; try (cbn [isIngest] in Hi; discriminate).
  2: { intros Hb. destruct (commit_entry _ _ _ _ _ _ _ _ _ _ _ Ha Hb) as [?|[<- ?]]; auto. }
  15: { intros Hb%prune_entry. left. congruence. }
  all: unfold observe_stale, authenticate, candidate_commit, SetExecutionCandidateLayer, SetCandidateClient, ClaimFingerprintInfo,
    UnclaimFingerprint, FingerprintFailed, setFingerprint, SetExecutionStatusAt, SetConsensusStatus, SetHead, SetGeo, Penalize;
    cbn zeta.
  all: match goal with |- context [s_m ?x !! ?tid] => is_var x; entry_branch tid end.
  all: try (assert (n0 = a) as -> by congruence); cbn [effect].
  all: boolify; try (split_and?; done); try (left; done); try (right; done); try (split_and?; auto; done).
  - split; [done|]. match goal with H : touchObservationLocked _ _ _ _ _ _ = _ |- _ => by rewrite H end.
  - right. split; [|done]. intros ->. match goal with H : _ \/ negb false = false |- _ => destruct H end; by boolify.
  - by destruct (Z.ltb_spec 0 head); [|lia].
  - by destruct (Z.ltb_spec 0 head); [lia|].
  - right. split; [done|]. match goal with H : penalizeLocked _ = _ |- _ => by rewrite H end.
Qed.

(** ** What is never removed *)

Lemma touch_drop_unpinned n via now existed f p : snd (touchObservationLocked n via now existed f p) = true -> n_pinned n = false.
Proof.
  unfold touchObservationLocked. cbv zeta. destruct (_ && negb (n_pinned n)) eqn:E; [|done].
  intros _. by apply andb_true_iff in E as [_ ?%negb_true_iff].
Qed.

Lemma evict_keeps_pinned s c s' n class id a :
  keyed (s_m s) -> evictForLocked s c = (s', n, class) -> s_m s !! id = Some a -> n_pinned a = true -> s_m s' !! id = Some a.
Proof.
  intros Hk He Ha Hp. unfold evictForLocked in He. destruct (evict_victims _ _ _) as [worst victims] eqn:Ev.
  assert (s' = s \/ s' = foldl (fun s v => deleteLocked s (n_ID v)) s victims) as [->| ->] by (destruct victims; naive_solver); [done|].
  rewrite deletes_lookup. destruct (decide _) as [Hin|]; [|done]. exfalso.
  apply list_elem_of_fmap in Hin as (v & -> & Hv). destruct (victims_in _ _ _ _ _ v Ev Hv) as (Hvm & _ & Hvp & _).
  pose proof (map_values_lookup _ _ Hk Hvm). congruence.
Qed.

Lemma prune_keeps_pinned s cutoff verified id a :
  s_m s !! id = Some a -> n_pinned a = true -> s_m (fst (PruneStaleWithVerified s cutoff verified)) !! id = Some a.
Proof.
  intros Ha Hp. unfold PruneStaleWithVerified.
  apply (foldl_invariant (fun acc : NodeSet * Z => s_m (fst acc) !! id = Some a)); [done|].
  intros [s' r] [k v] Hkv IH. destruct (pruneVictim _ _ _) eqn:E; [|done]. cbn [fst snd] in *.
  rewrite deleteLocked_lookup. destruct (decide (id = k)) as [->|]; [|done]. exfalso.
  apply elem_of_map_to_list in Hkv. assert (v = a) as -> by congruence.
  unfold pruneVictim in E. by rewrite Hp in E.
Qed.

Lemma commit_keeps_pinned s n via now fn fl f p id a :
  keyed (s_m s) -> s_m s !! id = Some a -> n_pinned a = true ->
  is_Some (s_m (exec AllowPrivateIPs s (OpCommit n via now fn fl f p)) !! id).
Proof.
  intros Hk Ha Hp. cbn [exec]. unfold observe_commit. cbn zeta. destruct (s_m s !! en_ID n) as [cur|] eqn:E.
  - pose proof (touch_drop_unpinned cur via now true f p) as Hd.
    destruct (touchObservationLocked cur via now true f p) as [c d]. cbn [snd] in Hd.
    destruct d; cbn [fst].
    + rewrite deleteLocked_lookup. specialize (Hd eq_refl). destruct (decide (id = en_ID n)) as [->|]; [congruence|by eexists].
    + destruct (true && _); cbn [fst]; rewrite ?track_lookup, setNode_lookup; destruct (decide _); by eexists.
  - destruct (makeRoom _ _ _ _) as [[[s2 n2] c2]|] eqn:Ea; [|by eexists]. unfold makeRoom in Ea.
    assert (s_m s2 !! id = Some a) as Ha2.
    { destruct (_ && _); [|congruence]. destruct (evictForLocked _ _) as [[s3 n3] c3] eqn:Ev.
      destruct (n3 =? 0); [done|]. injection Ea as <- _ _. by eapply evict_keeps_pinned. }
    assert (id <> en_ID n) as Hne by congruence.
    destruct (touchObservationLocked _ _ _ _ _ _) as [c []]; cbn [fst andb negb orb];
      rewrite ?track_lookup, ?deleteLocked_lookup, ?setNode_lookup; rewrite ?decide_False by done; by eexists.
Qed.

(** No operation but a restore removes or unpins a pinned entry. *)
Lemma exec_pinned s op id a :
  isIngest op = false -> keyed (s_m s) -> s_m s !! id = Some a -> n_pinned a = true ->
  is_Some (s_m (exec AllowPrivateIPs s op) !! id).
Proof.
  intros Hi Hk Ha Hp. destruct op; try (cbn [isIngest] in Hi; discriminate).
  2: by eapply commit_keeps_pinned.
  15: { cbn [exec]. erewrite prune_keeps_pinned by done. by eexists. }
  all: cbn [exec]; unfold observe_stale, authenticate, candidate_commit, SetExecutionCandidateLayer, SetCandidateClient, ClaimFingerprintInfo,
    UnclaimFingerprint, FingerprintFailed, setFingerprint, SetExecutionStatusAt, SetConsensusStatus, SetHead, SetGeo, Penalize;
    cbn zeta.
  all: match goal with |- context [s_m ?x !! ?tid] => is_var x; destruct (s_m x !! tid) as [n0|] eqn:E0 end.
  all: try (pose proof (touch_drop_unpinned n0 via now true failedResolution pin) as Hd).
  all: repeat (case_goal; cbn [fst snd]);
    cbn [fst snd] in *; rewrite ?track_lookup, ?deleteLocked_lookup, ?setNode_lookup, ?track_lookup, ?count_m;
    repeat match goal with |- context [decide (?x = ?y)] => destruct (decide (x = y)) end; try (by eexists).
  - specialize (Hd eq_refl). congruence.
  - exfalso. assert (n0 = a) as -> by congruence.
    match goal with H : n_pinned (_ <| n_LastCheck := _ |>) = false |- _ => upd_simpl_in H end. congruence.
Qed.
End Entry.
