(* ===== verification/NodesetRecord.v ===== *)
(** How a signed record is applied to an entry already held, and what each part of
    a sighting leaves alone: the views of a node, and a frame lemma per helper. *)

From stdpp Require Import base gmap sets strings list numbers sorting.
From Stdlib Require Import ZArith Lia.
From S2P Require Import Prelude GoLib ForkId NetIP Heap NodeData Nodeset Eviction NodesetInv NodesetEntry.

(** * Views of a node *)

Definition base (n : Node) := (n_ID n, n_FirstSeen n, n_pinned n, n_HasV4 n, n_HasV5 n, n_fpInFlight n, n_Score n).
Definition endpoint (n : Node) := (n_IP n, n_IP6 n, n_TCP n, n_TCP6 n, n_QUIC n, n_QUIC6 n).
Definition recordEndpoint (e : extracted) := (e_ip e, e_ip6 e, e_tcp e, e_tcp6 e, e_quic e, e_quic6 e).
Definition identity (n : Node) :=
  (n_Client n, n_ClientVersion n, n_OS n, n_Lang n, n_Capabilities n, n_FPDirection n, n_fpDone n).
Definition membership (n : Node) := (n_Layer n, n_Network n).

(** Reads a view through updates guarded by tests. *)
Ltac frame :=
  cbv zeta; repeat (case_goal; try discriminate);
  unfold base, endpoint, identity, membership; upd_simpl; try reflexivity; try done.

(** ** The parts of a record application *)

Lemma refreshFor_base n e now : base (refreshFor n e now) = base n.
Proof. unfold refreshFor. frame. Qed.
Lemma refreshFor_membership n e now : membership (refreshFor n e now) = membership n.
Proof. unfold refreshFor. frame. Qed.
Lemma refreshFor_endpoint n e now : endpoint (refreshFor n e now) = endpoint n.
Proof. unfold refreshFor. frame. Qed.
Lemma refreshFor_identity n e now : n_fpDone n = true -> identity (refreshFor n e now) = identity n.
Proof. intros Hd. unfold refreshFor. rewrite Hd. frame. Qed.
Lemma clear_base n : base (clearFingerprintLocked n) = base n.
Proof. unfold clearFingerprintLocked. frame. Qed.
Lemma clear_endpoint n : endpoint (clearFingerprintLocked n) = endpoint n.
Proof. unfold clearFingerprintLocked. frame. Qed.
Lemma applyFork_base n e now b : base (applyFork n e now b) = base n.
Proof. unfold applyFork. frame. Qed.
Lemma applyFork_endpoint n e now b : endpoint (applyFork n e now b) = endpoint n.
Proof. unfold applyFork. frame. Qed.
Lemma applyFork_identity n e now b : identity (applyFork n e now b) = identity n.
Proof. unfold applyFork. frame. Qed.
Lemma applyNetwork_base n e : base (applyNetwork n e) = base n.
Proof. unfold applyNetwork. frame. Qed.
Lemma applyNetwork_endpoint n e : endpoint (applyNetwork n e) = endpoint n.
Proof. unfold applyNetwork. frame. Qed.
Lemma applyNetwork_identity n e : identity (applyNetwork n e) = identity n.
Proof. unfold applyNetwork. frame. Qed.
Lemma applyFork_membership n e now b : membership (applyFork n e now b) = membership n.
Proof. unfold applyFork. frame. Qed.

Lemma applyNetwork_Network n e :
  n_Network (applyNetwork n e) = if negb (e_network e =? "")%string then e_network e else n_Network n.
Proof. unfold applyNetwork. frame. Qed.
Lemma applyNetwork_Layer n e : n_Layer (applyNetwork n e) = n_Layer n.
Proof. unfold applyNetwork. frame. Qed.


Lemma base_layer n l : base (n <| n_Layer := l |>) = base n.
Proof. reflexivity. Qed.
Lemma base_head n h x : base (n <| n_Head := h |> <| n_HeadObservedAt := x |>) = base n.
Proof. reflexivity. Qed.
Lemma endpoint_layer n l : endpoint (n <| n_Layer := l |>) = endpoint n.
Proof. reflexivity. Qed.
Lemma endpoint_head n h x : endpoint (n <| n_Head := h |> <| n_HeadObservedAt := x |>) = endpoint n.
Proof. reflexivity. Qed.
Lemma identity_layer n l : identity (n <| n_Layer := l |>) = identity n.
Proof. reflexivity. Qed.

Lemma applyLayer_base n e : base (applyLayer n e) = base n.
Proof. unfold applyLayer. cbv zeta. repeat (case_goal; try discriminate); rewrite ?base_layer, ?clear_base, ?base_head; done. Qed.
Lemma applyLayer_endpoint n e : endpoint (applyLayer n e) = endpoint n.
Proof.
  unfold applyLayer. cbv zeta. repeat (case_goal; try discriminate);
    rewrite ?endpoint_layer, ?clear_endpoint, ?endpoint_head; done.
Qed.
Lemma applyLayer_identity n e : n_Layer (applyLayer n e) = n_Layer n -> identity (applyLayer n e) = identity n.
Proof.
  unfold applyLayer. cbv zeta. destruct (negb (e_layer e =? "unknown")%string); [|done].
  upd_simpl. intros He. rewrite He, String.eqb_refl. reflexivity.
Qed.
Lemma clear_membership n : membership (clearFingerprintLocked n) = membership n.
Proof. unfold clearFingerprintLocked. frame. Qed.
Lemma applyLayer_Layer n e : n_Layer (applyLayer n e) = if negb (e_layer e =? "unknown")%string then e_layer e else n_Layer n.
Proof. unfold applyLayer. cbv zeta. destruct (negb (e_layer e =? "unknown")%string); [|done]. by upd_simpl. Qed.
Lemma applyLayer_Network n e : n_Network (applyLayer n e) = n_Network n.
Proof.
  unfold applyLayer. cbv zeta. destruct (negb (e_layer e =? "unknown")%string); [|done]. upd_simpl.
  destruct (negb (n_Layer n =? e_layer e)%string); [|done]. destruct (negb (n_Layer n =? "")%string); [|by upd_simpl].
  match goal with |- n_Network (clearFingerprintLocked ?m) = _ => pose proof (clear_membership m) as H end.
  unfold membership in H. injection H as _ H. rewrite H. by upd_simpl.
Qed.

(** ** A record applied to an entry *)

(** The last step: a self-declared client name fills an empty one. *)
Definition fillClient (n : Node) (e : extracted) : Node :=
  if (n_Client n =? "")%string && negb (e_client e =? "")%string
  then n <| n_Client := e_client e |> <| n_ClientVersion := e_version e |> else n.

Definition copyRecord (n : Node) (e : extracted) : Node :=
  (setEndpoints (n <| n_Enode := e_enode e |> <| n_ENR := e_enr e |> <| n_Seq := e_seq e |>) e)
    <| n_CGC := e_cgc e |> <| n_CGCKnown := e_cgcKnown e |> <| n_ENRSchedule := e_schedule e |>.

Lemma applyRecord_parts n e now :
  exists b, let m := refreshFor n e now in
  applyRecord n e now true = fillClient (applyLayer (applyNetwork (applyFork (copyRecord m e) e now b) e) e) e.
Proof. eexists. reflexivity. Qed.

Lemma fillClient_base n e : base (fillClient n e) = base n.
Proof. unfold fillClient. frame. Qed.
Lemma fillClient_endpoint n e : endpoint (fillClient n e) = endpoint n.
Proof. unfold fillClient. frame. Qed.
Lemma fillClient_membership n e : membership (fillClient n e) = membership n.
Proof. unfold fillClient. frame. Qed.
Lemma copyRecord_base n e : base (copyRecord n e) = base n.
Proof. unfold copyRecord, setEndpoints. frame. Qed.
Lemma copyRecord_identity n e : identity (copyRecord n e) = identity n.
Proof. unfold copyRecord, setEndpoints. frame. Qed.
Lemma copyRecord_membership n e : membership (copyRecord n e) = membership n.
Proof. unfold copyRecord, setEndpoints. frame. Qed.
Lemma copyRecord_endpoint n e : endpoint (copyRecord n e) = recordEndpoint e.
Proof. unfold copyRecord, setEndpoints, recordEndpoint. frame. Qed.

Lemma applyRecord_base n e now : base (applyRecord n e now true) = base n.
Proof.
  destruct (applyRecord_parts n e now) as [b ->].
  by rewrite fillClient_base, applyLayer_base, applyNetwork_base, applyFork_base, copyRecord_base, refreshFor_base.
Qed.

Lemma applyRecord_endpoint n e now : endpoint (applyRecord n e now true) = recordEndpoint e.
Proof.
  destruct (applyRecord_parts n e now) as [b ->].
  by rewrite fillClient_endpoint, applyLayer_endpoint, applyNetwork_endpoint, applyFork_endpoint, copyRecord_endpoint.
Qed.

Lemma applyRecord_membership n e now :
  n_Layer (applyRecord n e now true) = (if negb (e_layer e =? "unknown")%string then e_layer e else n_Layer n) /\
  n_Network (applyRecord n e now true) = (if negb (e_network e =? "")%string then e_network e else n_Network n).
Proof.
  destruct (applyRecord_parts n e now) as [b ->].
  pose proof (fillClient_membership (applyLayer (applyNetwork (applyFork (copyRecord (refreshFor n e now) e) e now b) e) e) e) as H.
  unfold membership in H. injection H as -> ->.
  rewrite applyLayer_Layer, applyLayer_Network, applyNetwork_Network, applyNetwork_Layer.
  pose proof (applyFork_membership (copyRecord (refreshFor n e now) e) e now b) as H.
  rewrite copyRecord_membership, refreshFor_membership in H. unfold membership in H. injection H as -> ->. done.
Qed.

Lemma fillClient_identity n e :
  identity (fillClient n e) = identity n \/ (n_Client n = "" /\ n_fpDone (fillClient n e) = n_fpDone n).
Proof. unfold fillClient. destruct (_ && _) eqn:E; [right|by left]. boolify. upd_simpl. done. Qed.

(** A verified identity with a name survives a record of the same layer. *)
Lemma applyRecord_identity n e now :
  n_fpDone n = true -> n_Client n <> "" -> n_Layer (applyRecord n e now true) = n_Layer n ->
  identity (applyRecord n e now true) = identity n.
Proof.
  intros Hd Hc. destruct (applyRecord_parts n e now) as [b ->]. cbv zeta.
  set (m := applyNetwork (applyFork (copyRecord (refreshFor n e now) e) e now b) e).
  assert (identity m = identity n) as Hm.
  { unfold m. by rewrite applyNetwork_identity, applyFork_identity, copyRecord_identity, refreshFor_identity. }
  assert (n_Layer m = n_Layer n) as Hl.
  { unfold m. rewrite applyNetwork_Layer.
    pose proof (applyFork_membership (copyRecord (refreshFor n e now) e) e now b) as H.
    rewrite copyRecord_membership, refreshFor_membership in H. unfold membership in H. by injection H. }
  pose proof (fillClient_membership (applyLayer m e) e) as Hf. unfold membership in Hf. injection Hf as Hf _. rewrite Hf, <- Hl.
  intros Hlay. pose proof (applyLayer_identity m e Hlay) as Ha.
  destruct (fillClient_identity (applyLayer m e) e) as [->|[Hc0 _]]; [by rewrite Ha|].
  rewrite Hm in Ha. unfold identity in Ha. congruence.
Qed.

(** ** The rest of a sighting *)

(** What no sighting changes before a record is applied. *)
Definition core (n : Node) :=
  (n_ID n, n_FirstSeen n, membership n, n_Seq n, n_ENR n, n_fpInFlight n, n_fpRefresh n, endpoint n, identity n).

Ltac frame_core := cbv zeta; repeat (case_goal; try discriminate); unfold core, endpoint, identity, membership; upd_simpl; try reflexivity; try done.

Lemma penalize_core n : core (fst (penalizeLocked n)) = core n.
Proof. unfold penalizeLocked. frame_core. Qed.

Lemma touchSeen_core n via now f p : core (touchSeen n via now f p) = core n.
Proof. unfold touchSeen. frame_core. Qed.

Lemma core_score n z : core (n <| n_Score := z |>) = core n.
Proof. reflexivity. Qed.

Lemma touch_core n via now existed f p : core (fst (touchObservationLocked n via now existed f p)) = core n.
Proof.
  unfold touchObservationLocked. cbv zeta. destruct (_ && negb (n_pinned n)).
  - pose proof (penalize_core n) as Hp. destruct (penalizeLocked n) as [m d]. cbn [fst] in *.
    destruct d; cbn [fst]; [done|]. by rewrite touchSeen_core.
  - cbn [fst]. rewrite touchSeen_core. by destruct (_ && (n_Score n <? scoreCap)).
Qed.

(** Flags that a node only ever gains. *)
Definition gains (a b : Node) : Prop :=
  (n_pinned a = true -> n_pinned b = true) /\ (n_HasV4 a = true -> n_HasV4 b = true) /\ (n_HasV5 a = true -> n_HasV5 b = true).

Definition flags (n : Node) := (n_pinned n, n_HasV4 n, n_HasV5 n).

Lemma gains_flags a b : flags b = flags a -> gains a b.
Proof. unfold flags, gains. intros [= -> -> ->]. done. Qed.

Lemma gains_trans a b c : gains a b -> gains b c -> gains a c.
Proof. unfold gains. naive_solver. Qed.

Lemma touchSeen_gains n via now f p : gains n (touchSeen n via now f p).
Proof. unfold touchSeen, gains. cbv zeta. repeat (case_goal; try discriminate); upd_simpl; done. Qed.

Lemma penalize_flags n : flags (fst (penalizeLocked n)) = flags n.
Proof. unfold penalizeLocked. cbv zeta. repeat (case_goal; try discriminate); unfold flags; cbn [fst]; upd_simpl; reflexivity. Qed.

Lemma touch_gains n via now existed f p : gains n (fst (touchObservationLocked n via now existed f p)).
Proof.
  unfold touchObservationLocked. cbv zeta. destruct (_ && negb (n_pinned n)).
  - pose proof (gains_flags _ _ (penalize_flags n)) as Hp. destruct (penalizeLocked n) as [m d]. cbn [fst] in *.
    destruct d; cbn [fst]; [done|]. eapply gains_trans; [done|apply touchSeen_gains].
  - cbn [fst]. destruct (_ && (n_Score n <? scoreCap)); [|apply touchSeen_gains].
    eapply gains_trans; [|apply touchSeen_gains]. by apply gains_flags.
Qed.

(** ** The sequence number and the refresh mark *)

Definition seqENR (n : Node) := (n_Seq n, n_ENR n).

Lemma clear_seqENR n : seqENR (clearFingerprintLocked n) = seqENR n.
Proof. unfold clearFingerprintLocked. cbv zeta. case_goal; unfold seqENR; upd_simpl; reflexivity. Qed.

Lemma seqENR_layer n l : seqENR (n <| n_Layer := l |>) = seqENR n.
Proof. reflexivity. Qed.
Lemma seqENR_head n h x : seqENR (n <| n_Head := h |> <| n_HeadObservedAt := x |>) = seqENR n.
Proof. reflexivity. Qed.

Lemma copyRecord_seqENR n e : seqENR (copyRecord n e) = (e_seq e, e_enr e).
Proof. unfold copyRecord, setEndpoints, seqENR. upd_simpl. reflexivity. Qed.

Lemma applyRecord_seqENR n e now : seqENR (applyRecord n e now true) = (e_seq e, e_enr e).
Proof.
  destruct (applyRecord_parts n e now) as [b ->]. cbv zeta.
  assert (forall m, seqENR (fillClient m e) = seqENR m) as ->
    by (intros m; unfold fillClient; case_goal; unfold seqENR; upd_simpl; reflexivity).
  assert (forall m, seqENR (applyLayer m e) = seqENR m) as ->.
  { intros m. unfold applyLayer. cbv zeta. repeat (case_goal; try discriminate);
      rewrite ?seqENR_layer, ?clear_seqENR, ?seqENR_head; done. }
  assert (forall m, seqENR (applyNetwork m e) = seqENR m) as ->
    by (intros m; unfold applyNetwork; cbv zeta; repeat (case_goal; try discriminate); unfold seqENR; upd_simpl; reflexivity).
  assert (forall m c, seqENR (applyFork m e now c) = seqENR m) as ->
    by (intros m c; unfold applyFork; case_goal; unfold seqENR; upd_simpl; reflexivity).
  apply copyRecord_seqENR.
Qed.

Lemma reasons_endpoint n e now : fst (fingerprintRefreshReasons n e now) = false -> recordEndpoint e = endpoint n.
Proof.
  unfold fingerprintRefreshReasons. cbv zeta. cbn [fst]. intros H.
  apply orb_false_iff in H as [H _]. boolify. unfold recordEndpoint, endpoint. congruence.
Qed.

(** A probe in flight learns of every change: unless the mark is set, the record
    names the endpoint the probe is dialling. *)
Lemma refreshFor_mark n e now :
  n_fpInFlight n = true -> n_fpRefresh (refreshFor n e now) = false -> n_fpRefresh n = false /\ recordEndpoint e = endpoint n.
Proof.
  intros Hf. unfold refreshFor. pose proof (reasons_endpoint n e now) as Hr.
  destruct (fingerprintRefreshReasons n e now) as [rc ex]. cbn [fst] in Hr. cbv zeta.
  destruct rc.
  - cbn [orb]. destruct (n_fpDone n); cbv iota; upd_simpl; rewrite Hf; cbn [andb]; upd_simpl; done.
  - destruct ex; cbn [orb]; [|auto]. destruct (n_fpDone n); cbv iota; upd_simpl; rewrite Hf; cbn [andb negb]; upd_simpl; auto.
Qed.

Lemma clear_mark n : n_fpInFlight n = true -> n_fpRefresh (clearFingerprintLocked n) = true.
Proof. intros Hf. unfold clearFingerprintLocked. cbv zeta. upd_simpl. rewrite Hf. by upd_simpl. Qed.

Lemma applyLayer_mark n e :
  n_fpInFlight n = true -> n_fpRefresh (applyLayer n e) = false ->
  n_fpRefresh n = false /\ (n_Layer n = "" \/ n_Layer (applyLayer n e) = n_Layer n).
Proof.
  intros Hf. rewrite applyLayer_Layer. unfold applyLayer. cbv zeta.
  destruct (negb (e_layer e =? "unknown")%string); [|auto]. upd_simpl.
  destruct (negb (n_Layer n =? e_layer e)%string) eqn:El; [|boolify; auto].
  destruct (negb (n_Layer n =? "")%string) eqn:E0.
  - rewrite clear_mark by done. done.
  - upd_simpl. boolify. auto.
Qed.

Lemma applyNetwork_mark n e : n_fpRefresh (applyNetwork n e) = n_fpRefresh n.
Proof. unfold applyNetwork. cbv zeta. repeat (case_goal; try discriminate); upd_simpl; reflexivity. Qed.
Lemma applyFork_mark n e now b : n_fpRefresh (applyFork n e now b) = n_fpRefresh n.
Proof. unfold applyFork. case_goal; upd_simpl; reflexivity. Qed.
Lemma copyRecord_mark n e : n_fpRefresh (copyRecord n e) = n_fpRefresh n.
Proof. unfold copyRecord, setEndpoints. by upd_simpl. Qed.

Lemma applyRecord_mark n e now :
  n_fpInFlight n = true -> n_fpRefresh (applyRecord n e now true) = false ->
  n_fpRefresh n = false /\ recordEndpoint e = endpoint n /\
  (n_Layer n = "" \/ n_Layer (applyRecord n e now true) = n_Layer n).
Proof.
  intros Hf. destruct (applyRecord_parts n e now) as [b ->]. cbv zeta.
  set (m := applyNetwork (applyFork (copyRecord (refreshFor n e now) e) e now b) e).
  pose proof (fillClient_membership (applyLayer m e) e) as Hl. unfold membership in Hl. injection Hl as -> _.
  assert (n_fpRefresh (fillClient (applyLayer m e) e) = n_fpRefresh (applyLayer m e)) as ->
    by (unfold fillClient; case_goal; upd_simpl; reflexivity).
  assert (n_fpRefresh m = n_fpRefresh (refreshFor n e now)) as Hm.
  { unfold m. by rewrite applyNetwork_mark, applyFork_mark, copyRecord_mark. }
  assert (base m = base n) as Hb
    by (unfold m; by rewrite applyNetwork_base, applyFork_base, copyRecord_base, refreshFor_base).
  assert (n_Layer m = n_Layer n) as Hlm.
  { unfold m. rewrite applyNetwork_Layer.
    pose proof (applyFork_membership (copyRecord (refreshFor n e now) e) e now b) as H.
    rewrite copyRecord_membership, refreshFor_membership in H. unfold membership in H. by injection H. }
  intros Hr. destruct (applyLayer_mark m e) as [H1 H2]; [unfold base in Hb; congruence|done|].
  rewrite Hm in H1. destruct (refreshFor_mark n e now Hf H1). rewrite Hlm in H2. auto.
Qed.
