(* ===== verification/NodesetProps.v ===== *)
(** Properties of the node set that follow one entry through any interleaving of
    critical sections: what cannot be undone, who holds a probe, which results are
    applied, what may be published, and what survives a restart. *)

From stdpp Require Import base gmap sets strings list numbers sorting.
From Stdlib Require Import ZArith Lia.
From S2P Require Import Prelude GoLib ForkId NetIP Heap NodeData Nodeset Eviction NodesetInv NodesetEntry NodesetRecord.

Section Props.
Context `{Hspec : SpecialNetworks} `{Hcls : Classifier} (AllowPrivateIPs : bool).

(** * Following an entry *)

(** The entry is there after every prefix of the trace. *)
Definition present (s : NodeSet) (ops : list Op) (id : string) : Prop :=
  forall pre post, ops = pre ++ post -> is_Some (s_m (run AllowPrivateIPs s pre) !! id).

Definition live (ops : list Op) : Prop := Forall (fun op => isIngest op = false) ops.

Lemma present_init s ops op id : present s (ops ++ [op]) id -> present s ops id.
Proof. intros H pre post ->. apply (H pre (post ++ [op])). by rewrite app_assoc. Qed.

(** A preorder kept by every effect on an entry is kept by every trace. *)
Lemma run_relates (R : Node -> Node -> Prop) s ops id a b :
  PreOrder R ->
  (forall op x y, op ∈ ops -> target op = Some id -> effect AllowPrivateIPs op x y -> R x y) ->
  live ops -> present s ops id ->
  s_m s !! id = Some a -> s_m (run AllowPrivateIPs s ops) !! id = Some b -> R a b.
Proof.
  intros HR Heff Hlive Hpres Ha. revert b. induction ops as [|op ops IH] using rev_ind; intros b Hb.
  - assert (a = b) as -> by (cbn in Hb; congruence). reflexivity.
  - apply Forall_app in Hlive as [Hlive [Hop _]%Forall_cons].
    destruct (Hpres ops [op] eq_refl) as [c Hc]. rewrite run_snoc in Hb.
    etransitivity; [apply (IH ltac:(intros; eapply Heff; [apply elem_of_app; by left|done..]) Hlive (present_init _ _ _ _ Hpres) c Hc)|].
    destruct (exec_entry _ _ _ _ _ _ Hop Hc Hb) as [->|[Ht He]]; [reflexivity|].
    apply (Heff op); [apply elem_of_app; right; left|done..].
Qed.

(** * History *)

(** What no operation but a restore undoes on an entry it keeps. *)
Record history (a b : Node) : Prop := {
  h_id : n_ID b = n_ID a;
  h_first : n_FirstSeen b = n_FirstSeen a;
  h_seq : n_Seq a <= n_Seq b;
  h_gains : gains a b;
  h_network : n_Network a <> "" -> n_Network b <> "";
  h_layer : n_Layer a <> "" -> n_Layer b <> "" }.

#[export] Instance history_preorder : PreOrder history.
Proof.
  split.
  - intros a. split; (done || lia || by apply gains_flags).
  - intros a b c [] []. split; [congruence|congruence|lia|by eapply gains_trans|auto|auto].
Qed.

Definition histView (n : Node) := (n_ID n, n_FirstSeen n, n_Seq n, flags n, membership n).

Lemma histView_history a b : histView b = histView a -> history a b.
Proof.
  unfold histView, membership, flags. intros H.
  split; [congruence|congruence|replace (n_Seq b) with (n_Seq a) by congruence; lia|apply gains_flags; unfold flags; congruence|congruence|congruence].
Qed.

Lemma extract_layer n fn fl : e_layer (committed AllowPrivateIPs n fn fl) <> "".
Proof.
  unfold committed, forceNetworkLayer.
  assert (e_layer (extract AllowPrivateIPs n) <> "") as He.
  { unfold extract. cbv zeta. repeat case_goal; cbn [e_layer]; discriminate. }
  destruct (negb (fn =? "")%string); [|done]. cbv zeta. destruct (negb (fl =? "")%string) eqn:Ef.
  - upd_simpl. by boolify.
  - case_goal; upd_simpl; done.
Qed.

Lemma touch_history n via now existed f p : history n (fst (touchObservationLocked n via now existed f p)).
Proof.
  pose proof (touch_core n via now existed f p) as Hc. pose proof (touch_gains n via now existed f p) as Hg.
  unfold core, membership in Hc. injection Hc as Hi Hf Hl Hn Hs _ _ _ _. split; [done|done|lia|done|congruence|congruence].
Qed.

Lemma applyRecord_history n e now :
  n_Seq n <= e_seq e -> e_layer e <> "" -> history n (applyRecord n e now true).
Proof.
  intros Hs He. pose proof (applyRecord_base n e now) as Hb. pose proof (applyRecord_seqENR n e now) as Hq.
  destruct (applyRecord_membership n e now) as [Hl Hn]. unfold base in Hb. injection Hb as ? ? ? ? ? _ _.
  unfold seqENR in Hq. injection Hq as Hq _. split; [done|done|lia|apply gains_flags; unfold flags; congruence| |].
  - intros Hne. rewrite Hn. case_goal; [by boolify|done].
  - intros Hne. rewrite Hl. by case_goal.
Qed.

Ltac hist := apply histView_history; cbv zeta; repeat (case_goal; try discriminate); unfold histView, flags, membership;
  cbn [fst]; upd_simpl; try reflexivity; try done.

(** A Status claims a network and leaves the rest of the history alone. *)
Definition statusView (n : Node) := (n_ID n, n_FirstSeen n, n_Seq n, flags n, n_Layer n).

Lemma statusView_history a b : statusView b = statusView a -> n_Network b <> "" -> history a b.
Proof.
  unfold statusView, flags. intros H Hn.
  split; [congruence|congruence|replace (n_Seq b) with (n_Seq a) by congruence; lia|apply gains_flags; unfold flags; congruence|done|congruence].
Qed.

Ltac status_frame := cbv zeta; repeat (case_goal; try discriminate); unfold statusView, flags; upd_simpl; reflexivity.

Lemma credit_view n network now : statusView (creditStatusSightingLocked n network now) = statusView n.
Proof. unfold creditStatusSightingLocked. status_frame. Qed.
Lemma clearHead_view n network : statusView (clearHeadOnNetworkChangeLocked n network) = statusView n.
Proof. unfold clearHeadOnNetworkChangeLocked. status_frame. Qed.
Lemma membership_view n now : statusView (statusMembership n now) = statusView n.
Proof. unfold statusMembership. status_frame. Qed.
Lemma forkNetwork_view n w h x : statusView (n <| n_Network := w |> <| n_ForkHash := h |> <| n_ForkNext := x |>) = statusView n.
Proof. reflexivity. Qed.
Lemma network_view n w : statusView (n <| n_Network := w |>) = statusView n.
Proof. reflexivity. Qed.
Lemma forkHash_view n h : statusView (n <| n_ForkHash := h |>) = statusView n.
Proof. reflexivity. Qed.

Lemma executionStatus_view n network fork now :
  statusView (executionStatusNode (creditStatusSightingLocked n network now) network fork now) = statusView n.
Proof. unfold executionStatusNode. cbv zeta. by rewrite membership_view, forkNetwork_view, clearHead_view, credit_view. Qed.
Lemma consensusStatus_view n network hash now : statusView (consensusStatusNode n network hash now) = statusView n.
Proof.
  unfold consensusStatusNode. cbv zeta. rewrite membership_view.
  destruct (negb _); rewrite ?forkHash_view, network_view, clearHead_view, credit_view; done.
Qed.
Lemma executionStatus_network n network fork now : n_Network (executionStatusNode n network fork now) = network.
Proof. unfold executionStatusNode, statusMembership. cbv zeta. by upd_simpl. Qed.
Lemma consensusStatus_network n network hash now : n_Network (consensusStatusNode n network hash now) = network.
Proof. unfold consensusStatusNode, statusMembership. cbv zeta. destruct (negb (hash =? "")%string); by upd_simpl. Qed.

Lemma authenticated_history n hash next now : history n (authenticatedNode n hash next now).
Proof. unfold authenticatedNode. hist. Qed.
Lemma sight_history n now : history n (sightCandidate n now).
Proof. unfold sightCandidate. hist. Qed.
Lemma move_history n e now : history n (moveCandidate n e now).
Proof. unfold moveCandidate, setEndpoints. hist. Qed.
Lemma setIdentity_history n fp dir : history n (setIdentity n fp dir).
Proof. unfold setIdentity. hist. Qed.
Lemma claim_history n : history n (claimNode n).
Proof. unfold claimNode. hist. Qed.
Lemma unclaim_history n : history n (unclaimNode n).
Proof. unfold unclaimNode. hist. Qed.
Lemma requeue_history n : history n (requeueNode n).
Proof. unfold requeueNode. hist. Qed.
Lemma verified_history n fp dir claimed now : history n (verifiedNode n fp dir claimed now).
Proof. unfold verifiedNode, setIdentity. hist. Qed.
Lemma geo_history n g : history n (geoNode n g).
Proof. unfold geoNode. hist. Qed.
Lemma penalize_history n : history n (fst (penalizeLocked n)).
Proof. unfold penalizeLocked. hist. Qed.
Lemma lastCheck_history n now : history n (n <| n_LastCheck := now |>).
Proof. hist. Qed.
Lemma head_history n h x : history n (n <| n_Head := h |> <| n_HeadObservedAt := x |>).
Proof. hist. Qed.
Lemma released_history n : history n (n <| n_fpInFlight := false |> <| n_fpRefresh := false |>).
Proof. hist. Qed.
Lemma backoff_history n x : history n (n <| n_fpInFlight := false |> <| n_fpNext := x |>).
Proof. hist. Qed.
Lemma layered_history n : n_Layer n = "" -> history n (n <| n_Layer := "el" |>).
Proof. intros Hl. split; upd_simpl; [done|done|lia|by apply gains_flags|done|discriminate]. Qed.
Lemma unlayered_history n : n_Layer n = "" -> history n (n <| n_Layer := "el" |> <| n_Layer := "" |>).
Proof. intros Hl. split; upd_simpl; [done|done|lia|by apply gains_flags|done|by rewrite Hl]. Qed.

Lemma effect_history op a b : effect AllowPrivateIPs op a b -> history a b.
Proof.
  destruct op; cbn [effect].
  - intros [_ ->]. apply touch_history.
  - intros [->|[Hs ->]]; [apply touch_history|]. etransitivity; [apply touch_history|].
    apply applyRecord_history; [exact Hs|apply extract_layer].
  - intros ->. apply authenticated_history.
  - intros [->|(_ & _ & _ & ->)]; [apply sight_history|]. etransitivity; [apply sight_history|apply move_history].
  - intros (Hl & [[-> _]| ->]); [by apply layered_history|by apply unlayered_history].
  - intros [_ ->]. apply setIdentity_history.
  - intros [_ ->]. apply claim_history.
  - intros [_ ->]. apply unclaim_history.
  - intros [->|[-> | ->]]; [apply released_history|apply requeue_history|apply backoff_history].
  - intros [[_ ->]|[_ ->]]; [apply requeue_history|apply verified_history].
  - intros [Hne ->]. apply statusView_history; [apply executionStatus_view|by rewrite executionStatus_network].
  - intros (Hne & _ & ->). apply statusView_history; [apply consensusStatus_view|by rewrite consensusStatus_network].
  - intros ->. apply head_history.
  - intros ->. apply geo_history.
  - intros [->|[_ ->]]; [apply lastCheck_history|]. etransitivity; [apply lastCheck_history|apply penalize_history].
  - done.
  - done.
Qed.

(** C37.  History is not undone.  However operations interleave, while an entry
    stays in the set and nothing is restored over it, its record sequence number
    never falls, its first sighting, identity and provenance flags are kept, and
    neither a network nor a layer it was classified into is ever blanked. *)
Theorem entry_history s ops id a b :
  live ops -> present s ops id ->
  s_m s !! id = Some a -> s_m (run AllowPrivateIPs s ops) !! id = Some b -> history a b.
Proof.
  intros Hl Hp. apply (run_relates history s ops id a b _); [|done|done].
  intros op x y _ _. apply effect_history.
Qed.

(** C5.  A pinned seed is never lost: no trace without a restore evicts, prunes,
    penalizes away or unpins it. *)
Theorem pinned_survives s ops id a :
  Set_ok s -> live ops -> s_m s !! id = Some a -> n_pinned a = true ->
  exists b, s_m (run AllowPrivateIPs s ops) !! id = Some b /\ n_pinned b = true.
Proof.
  intros Hs Hl Ha Hp. induction ops as [|op ops IH] using rev_ind; [by exists a|].
  apply Forall_app in Hl as [Hl [Hop _]%Forall_cons]. destruct (IH Hl) as (c & Hc & Hcp). rewrite run_snoc.
  destruct (exec_pinned AllowPrivateIPs _ op _ _ Hop (ok_keyed _ (run_ok AllowPrivateIPs _ ops Hs)) Hc Hcp) as [b Hb].
  exists b. split; [done|]. destruct (exec_entry _ _ _ _ _ _ Hop Hc Hb) as [->|[_ He]]; [done|].
  by apply effect_history in He as [_ _ _ [? _] _ _]; auto.
Qed.

(** * Probes in flight *)

(** The operations that end the probe of an entry. *)
Definition completes (op : Op) (id : string) : bool :=
  match op with
  | OpUnclaim i | OpFailed i _ | OpFingerprint i _ _ _ true _ => String.eqb i id
  | OpIngest _ => true
  | _ => false
  end.

(** While a probe is out, the entry stays claimed, and it is marked for a refresh
    unless its endpoint and layer are the ones the probe was given. *)
Record probeKept (a b : Node) : Prop := {
  k_flight : n_fpInFlight a = true -> n_fpInFlight b = true;
  k_layer : n_Layer a <> "" -> n_Layer b <> "";
  k_mark : n_fpInFlight a = true -> n_Layer a <> "" -> n_fpRefresh b = false ->
           n_fpRefresh a = false /\ endpoint b = endpoint a /\ n_Layer b = n_Layer a }.

#[export] Instance probeKept_preorder : PreOrder probeKept.
Proof.
  split; [intros a; split; auto|]. intros a b c [Hf Hl Hm] [Hf' Hl' Hm']. split; [auto|auto|].
  intros H1 H2 H3. destruct (Hm' (Hf H1) (Hl H2) H3) as (Hb & He & Hy). destruct (Hm H1 H2 Hb) as (? & ? & ?).
  split_and!; congruence.
Qed.

Definition probeView (n : Node) := (n_fpInFlight n, n_fpRefresh n, endpoint n, n_Layer n).

Lemma probeView_kept a b : probeView b = probeView a -> probeKept a b.
Proof. unfold probeView. intros H. split; [congruence|congruence|]. intros _ _ Hb. split_and!; congruence. Qed.

Lemma core_kept a b : core b = core a -> probeKept a b.
Proof. unfold core, membership. intros H. apply probeView_kept. unfold probeView. congruence. Qed.

Ltac kept := apply probeView_kept; cbv zeta; repeat (case_goal; try discriminate); unfold probeView, endpoint;
  cbn [fst]; upd_simpl; try reflexivity; try done.

Lemma applyRecord_kept n e now : e_layer e <> "" -> probeKept n (applyRecord n e now true).
Proof.
  intros He. pose proof (applyRecord_base n e now) as Hb. unfold base in Hb. split.
  - congruence.
  - intros Hl. destruct (applyRecord_membership n e now) as [-> _]. by case_goal.
  - intros Hf Hl Hr. destruct (applyRecord_mark n e now Hf Hr) as (Hm & Hep & [?|Hlay]); [done|].
    split_and!; [done| |done]. by rewrite applyRecord_endpoint.
Qed.

Lemma move_kept n e now : probeKept n (moveCandidate n e now).
Proof.
  split; unfold moveCandidate, setEndpoints; cbv zeta.
  - intros Hf. case_goal; by upd_simpl.
  - intros Hl. case_goal; by upd_simpl.
  - intros Hf Hl. destruct (fst (fingerprintRefreshReasons n e now)) eqn:Er; rewrite ?Hf; cbn [andb]; upd_simpl; [done|].
    intros Hr. apply reasons_endpoint in Er. unfold recordEndpoint, endpoint in *. upd_simpl. split_and!; congruence.
Qed.

Lemma authenticated_kept n hash next now : probeKept n (authenticatedNode n hash next now).
Proof. unfold authenticatedNode. kept. Qed.
Lemma sight_kept n now : probeKept n (sightCandidate n now).
Proof. unfold sightCandidate. kept. Qed.
Lemma setIdentity_kept n fp dir : probeKept n (setIdentity n fp dir).
Proof. unfold setIdentity. kept. Qed.
Lemma inbound_kept n fp dir now : probeKept n (verifiedNode n fp dir false now).
Proof. unfold verifiedNode, setIdentity. kept. Qed.
Lemma geo_kept n g : probeKept n (geoNode n g).
Proof. unfold geoNode. kept. Qed.
Lemma lastCheck_kept n now : probeKept n (n <| n_LastCheck := now |>).
Proof. kept. Qed.
Lemma head_kept n h x : probeKept n (n <| n_Head := h |> <| n_HeadObservedAt := x |>).
Proof. kept. Qed.
Lemma credit_kept n network now : probeKept n (creditStatusSightingLocked n network now).
Proof. unfold creditStatusSightingLocked. kept. Qed.
Lemma clearHead_kept n network : probeKept n (clearHeadOnNetworkChangeLocked n network).
Proof. unfold clearHeadOnNetworkChangeLocked. kept. Qed.
Lemma statusMembership_kept n now : probeKept n (statusMembership n now).
Proof. unfold statusMembership. kept. Qed.
Lemma forkNetwork_kept n w h x : probeKept n (n <| n_Network := w |> <| n_ForkHash := h |> <| n_ForkNext := x |>).
Proof. kept. Qed.
Lemma network_kept n w : probeKept n (n <| n_Network := w |>).
Proof. kept. Qed.
Lemma forkHash_kept n h : probeKept n (n <| n_ForkHash := h |>).
Proof. kept. Qed.

Lemma executionStatus_kept n network fork now : probeKept n (executionStatusNode n network fork now).
Proof.
  unfold executionStatusNode. cbv zeta. etransitivity; [apply clearHead_kept|].
  etransitivity; [apply forkNetwork_kept|apply statusMembership_kept].
Qed.

Lemma consensusStatus_kept n network hash now : probeKept n (consensusStatusNode n network hash now).
Proof.
  unfold consensusStatusNode. cbv zeta. etransitivity; [apply credit_kept|]. etransitivity; [apply clearHead_kept|].
  etransitivity; [apply network_kept|]. etransitivity; [|apply statusMembership_kept].
  destruct (negb _); [apply forkHash_kept|reflexivity].
Qed.

Lemma unflown_kept a b : n_fpInFlight a = false -> n_Layer b = n_Layer a -> probeKept a b.
Proof. intros Hf Hl. split; congruence. Qed.

Lemma effect_kept op id a b :
  completes op id = false -> target op = Some id -> effect AllowPrivateIPs op a b -> probeKept a b.
Proof.
  destruct op; cbn [effect completes target]; intros Hc Ht;
    try (injection Ht as ->; rewrite String.eqb_refl in Hc; discriminate).
  - intros [_ ->]. apply core_kept, touch_core.
  - intros [->|[_ ->]]; [apply core_kept, touch_core|].
    etransitivity; [apply core_kept, touch_core|apply applyRecord_kept, extract_layer].
  - intros ->. apply authenticated_kept.
  - intros [->|(_ & _ & _ & ->)]; [apply sight_kept|]. etransitivity; [apply sight_kept|apply move_kept].
  - intros (Hl & [[-> _]| ->]); split; upd_simpl; done.
  - intros [_ ->]. apply setIdentity_kept.
  - intros [Hd ->]. unfold fingerprintDue in Hd. apply unflown_kept; [|unfold claimNode; by upd_simpl].
    destruct (n_fpDone a && _); [done|]. by destruct (n_fpInFlight a).
  - destruct claimed; [injection Ht as ->; rewrite String.eqb_refl in Hc; discriminate|].
    intros [[? _]|[_ ->]]; [done|apply inbound_kept].
  - intros [_ ->]. etransitivity; [apply credit_kept|apply executionStatus_kept].
  - intros (_ & _ & ->). apply consensusStatus_kept.
  - intros ->. apply head_kept.
  - intros ->. apply geo_kept.
  - intros [->|[_ ->]]; [apply lastCheck_kept|]. etransitivity; [apply lastCheck_kept|apply core_kept, penalize_core].
  - done.
  - done.
Qed.

Lemma completes_live ops id : (forall op, op ∈ ops -> completes op id = false) -> live ops.
Proof. intros H. apply Forall_forall. intros op Hop. specialize (H op Hop). by destruct op. Qed.

Lemma due_facts n now :
  fingerprintDue n now = true -> n_fpInFlight n = false /\ fingerprintable n = true /\ (IsZero (n_fpNext n) = true \/ n_fpNext n <= now).
Proof.
  unfold fingerprintDue. destruct (n_fpDone n && _); [done|]. destruct (n_fpInFlight n); [done|].
  destruct (fingerprintable n); [|done]. cbn [negb]. intros H. split_and!; [done|done|]. unfold Before in H. boolify.
  destruct H; [by left|right]. boolify. done.
Qed.

Lemma fingerprintable_layer n : fingerprintable n = true -> n_Layer n <> "".
Proof. unfold fingerprintable. intros H Hl. rewrite Hl in H. done. Qed.

Lemma claim_spec s id now :
  match ClaimFingerprintInfo s id now with
  | (s', Some c) =>
      exists n, s_m s !! id = Some n /\ fingerprintDue n now = true /\ s' = setNode s id (claimNode n) /\
        fc_Layer c = n_Layer n
  | (s', None) => s' = s /\ (forall n, s_m s !! id = Some n -> fingerprintDue n now = false)
  end.
Proof.
  unfold ClaimFingerprintInfo. destruct (s_m s !! id) as [n|] eqn:E; [|naive_solver].
  destruct (fingerprintDue n now) eqn:Ed; cbv zeta; [|naive_solver].
  exists n. split_and!; [done|done|done|]. cbn [fc_Layer]. unfold claimNode. by upd_simpl.
Qed.

Lemma claimNode_probe n : n_fpInFlight (claimNode n) = true /\ endpoint (claimNode n) = endpoint n /\ n_Layer (claimNode n) = n_Layer n.
Proof. unfold claimNode, endpoint. upd_simpl. done. Qed.

(** The entry of a claim that nobody has completed. *)
Lemma claimed_entry s id now s1 c ops :
  ClaimFingerprintInfo s id now = (s1, Some c) ->
  (forall op, op ∈ ops -> completes op id = false) -> present s1 ops id ->
  exists n b, s_m s !! id = Some n /\ fc_Layer c = n_Layer n /\
    s_m (run AllowPrivateIPs s1 ops) !! id = Some b /\ n_fpInFlight b = true /\
    (n_fpRefresh b = false -> endpoint b = endpoint n /\ n_Layer b = n_Layer n).
Proof.
  intros Hc Hops Hp. pose proof (claim_spec s id now) as H. rewrite Hc in H. destruct H as (n & Hn & Hd & -> & Hl).
  destruct (due_facts n now Hd) as (_ & Hfp & _). apply fingerprintable_layer in Hfp.
  destruct (claimNode_probe n) as (Hf & He & Hly).
  destruct (Hp ops [] ltac:(by rewrite app_nil_r)) as [b Hb].
  assert (s_m (setNode s id (claimNode n)) !! id = Some (claimNode n)) as Hs1 by (rewrite setNode_lookup; by case_decide).
  assert (probeKept (claimNode n) b) as [Kf _ Km].
  { apply (run_relates probeKept (setNode s id (claimNode n)) ops id _ _ _); [|by eapply completes_live|done|done|done].
    intros op x y Hop Ht. apply (effect_kept op id); [by apply Hops|done]. }
  exists n, b. split_and!; [done|done|done|by apply Kf|]. intros Hr.
  destruct Km as (_ & Hb1 & Hb2); [done|by rewrite Hly|done|]. split; congruence.
Qed.

Lemma present_or_gone s ops id :
  present s ops id \/ exists pre post, ops = pre ++ post /\ s_m (run AllowPrivateIPs s pre) !! id = None.
Proof.
  induction ops as [|op ops [IH|(pre & post & -> & H)]] using rev_ind.
  - destruct (s_m s !! id) as [n|] eqn:E; [left|right; by exists [], []].
    intros pre post Hp. symmetry in Hp. apply app_eq_nil in Hp as [-> _]. by exists n.
  - destruct (s_m (run AllowPrivateIPs s (ops ++ [op])) !! id) as [n|] eqn:E; [left|right; exists (ops ++ [op]), []; by rewrite app_nil_r].
    intros pre post Hp. destruct post as [|x post _] using rev_ind.
    + rewrite app_nil_r in Hp. subst pre. by exists n.
    + rewrite app_assoc in Hp. apply app_inj_tail in Hp as [Hp _]. by apply (IH pre post).
  - right. exists pre, (post ++ [op]). by rewrite app_assoc.
Qed.

(** C2.  A probe is exclusive: between two successful claims of one entry, the
    first probe was completed or released, or the entry left the set, or a
    snapshot was restored. *)
Theorem claim_exclusive s id now s1 c ops now' s2 c' :
  ClaimFingerprintInfo s id now = (s1, Some c) ->
  ClaimFingerprintInfo (run AllowPrivateIPs s1 ops) id now' = (s2, Some c') ->
  (exists op, op ∈ ops /\ completes op id = true) \/
  (exists pre post, ops = pre ++ post /\ s_m (run AllowPrivateIPs s1 pre) !! id = None).
Proof.
  intros H1 H2. destruct (existsb (fun op => completes op id) ops) eqn:Ec; [left; by apply existsb_elem in Ec|].
  destruct (present_or_gone s1 ops id) as [Hp|?]; [exfalso|by right].
  destruct (claimed_entry _ _ _ _ _ ops H1) as (n & b & _ & _ & Hb & Hf & _); [by apply contains_func_false|done|].
  pose proof (claim_spec (run AllowPrivateIPs s1 ops) id now') as H. rewrite H2 in H. destruct H as (b' & Hb' & Hd & _).
  destruct (due_facts _ _ Hd) as (Hnf & _). congruence.
Qed.

End Props.

(** A demonstration set of three execution nodes, the last one claimable, and the
    claim of node 2. *)
Section Demo.

Definition demoSet : NodeSet := MkSet demoMap 3 1.
Definition demoID : string := be_put 32 2.
Definition demoRun := @run demoSpecial demoClassifier false.
Definition demoHead : list Op := [OpHead demoID "el" "mainnet" 7 5].
Definition demoClaimed : NodeSet := fst (ClaimFingerprintInfo demoSet demoID 9).
Definition demoClaim : FingerprintClaim := MkClaim "el" "mainnet" (ParseIP "8.8.8.8").
Definition demoFingerprint : Fingerprint := MkFingerprint "geth" "v1" "linux" "go" "eth/68".

Lemma demoClaim_eq : ClaimFingerprintInfo demoSet demoID 9 = (demoClaimed, Some demoClaim).
Proof. vm_compute. reflexivity. Qed.

Lemma demo_present s op : is_Some (s_m s !! demoID) -> is_Some (s_m (demoRun s [op]) !! demoID) ->
  @present demoSpecial demoClassifier false s [op] demoID.
Proof.
  intros H0 H1 [|x [|y pre]] post H; [exact H0| |by destruct pre].
  injection H as <- _. exact H1.
Qed.

Lemma entry_history_witness :
  exists a b, s_m demoSet !! demoID = Some a /\ s_m (demoRun demoSet demoHead) !! demoID = Some b /\ history a b.
Proof.
  destruct (s_m demoSet !! demoID) as [a|] eqn:Ea; [|by vm_compute in Ea].
  destruct (s_m (demoRun demoSet demoHead) !! demoID) as [b|] eqn:Eb; [|by vm_compute in Eb].
  exists a, b. split; [reflexivity|]. split; [reflexivity|].
  apply (@entry_history demoSpecial demoClassifier false demoSet demoHead demoID a b); [|apply demo_present|exact Ea|exact Eb].
  - repeat constructor.
  - by exists a.
  - by exists b.
Defined.

Lemma demoSet_ok : Set_ok demoSet.
Proof. split; [exact demoMap_keyed|vm_compute; reflexivity|intros _; vm_compute; discriminate]. Qed.

Lemma pinned_survives_witness :
  let s := setNode demoSet demoID ((demoNode 2 0 "mainnet") <| n_pinned := true |>) in
  exists b, s_m (demoRun s [OpPrune 10 10]) !! demoID = Some b /\ n_pinned b = true.
Proof.
  intros s. apply (@pinned_survives demoSpecial demoClassifier false s [OpPrune 10 10] demoID ((demoNode 2 0 "mainnet") <| n_pinned := true |>)).
  - apply (replace_same_ok demoSet demoID (demoNode 2 0 "mainnet")); [exact demoSet_ok|vm_compute; reflexivity..].
  - repeat constructor.
  - vm_compute. reflexivity.
  - reflexivity.
Defined.

(** The probe is released and claimed again. *)
Lemma claim_exclusive_witness :
  exists op, op ∈ [@OpUnclaim demoID] /\ completes op demoID = true.
Proof.
  destruct (ClaimFingerprintInfo (demoRun demoClaimed [OpUnclaim demoID]) demoID 12) as [s2 [c'|]] eqn:E; [|by vm_compute in E].
  destruct (@claim_exclusive demoSpecial demoClassifier false demoSet demoID 9 demoClaimed demoClaim [OpUnclaim demoID] 12 s2 c' demoClaim_eq E)
    as [H|(pre & post & H & Hn)]; [exact H|exfalso].
  destruct pre as [|x [|y pre]]; [by vm_compute in Hn| |by destruct pre].
  injection H as <- _. by vm_compute in Hn.
Defined.

End Demo.
