(* ===== verification/NodesetFlight.v ===== *)
(** Which entries of the node set are claimed: only a claim sets the flag of an entry,
    and each of the operations that finish a probe clears it. *)

From stdpp Require Import base gmap strings list numbers sorting.
From Stdlib Require Import ZArith Lia.
From S2P Require Import Prelude GoLib ForkId NetIP Heap NodeData Nodeset Eviction NodesetInv NodesetEntry NodesetRecord NodesetProps.
#[local] Open Scope Z_scope.

(** A probe of the entry is out. *)
Definition flying (s : NodeSet) (id : string) : Prop := exists n, s_m s !! id = Some n /\ n_fpInFlight n = true.

#[export] Instance flying_dec s id : Decision (flying s id).
Proof.
  refine (match s_m s !! id as o return s_m s !! id = o -> _ with
          | Some n => fun E => match bool_dec (n_fpInFlight n) true with left H => left _ | right H => right _ end
          | None => fun E => right _
          end eq_refl).
  - by exists n.
  - intros (m & Hm & Hf). congruence.
  - intros (m & Hm & _). congruence.
Defined.

Lemma flying_here s id n : s_m s !! id = Some n -> flying s id <-> n_fpInFlight n = true.
Proof. intros H. split; [intros (m & Hm & Hf); congruence|by exists n]. Qed.

Lemma base_flight a b : base a = base b -> n_fpInFlight a = n_fpInFlight b.
Proof. unfold base. congruence. Qed.
Lemma core_flight a b : NodesetRecord.core a = NodesetRecord.core b -> n_fpInFlight a = n_fpInFlight b.
Proof. unfold NodesetRecord.core. congruence. Qed.
Lemma kept_flight a b : probeKept a b -> probeKept b a -> n_fpInFlight a = n_fpInFlight b.
Proof. intros [H1 _ _] [H2 _ _]. destruct (n_fpInFlight a), (n_fpInFlight b); try done; [by rewrite H1|by rewrite H2]. Qed.

Section Flight.
Context `{Hspec : SpecialNetworks} `{Hcls : Classifier} (AllowPrivateIPs : bool).

Lemma touch_flight n via now existed f p : n_fpInFlight (fst (touchObservationLocked n via now existed f p)) = n_fpInFlight n.
Proof. apply core_flight, touch_core. Qed.

Lemma applyRecord_flight n e now ok : n_fpInFlight (applyRecord n e now ok) = n_fpInFlight n.
Proof.
  apply base_flight. destruct ok; [apply applyRecord_base|].
  change (base (fillClient (applyLayer (applyNetwork (applyFork (copyRecord n e) e now false) e) e) e) = base n).
  by rewrite fillClient_base, applyLayer_base, applyNetwork_base, applyFork_base, copyRecord_base.
Qed.

Definition isClaim (op : Op) : bool := match op with OpClaim _ _ => true | _ => false end.

Lemma flight_eq_dir (a b : Node) : n_fpInFlight b = n_fpInFlight a -> n_fpInFlight b = true -> n_fpInFlight a = true.
Proof. congruence. Qed.

Ltac still := apply flight_eq_dir; cbv zeta; repeat (case_goal; try discriminate); cbn [fst]; upd_simpl; try reflexivity; try done.

Lemma status_flight n network fork now :
  n_fpInFlight (executionStatusNode (creditStatusSightingLocked n network now) network fork now) = n_fpInFlight n.
Proof.
  unfold executionStatusNode, statusMembership, clearHeadOnNetworkChangeLocked, creditStatusSightingLocked. cbv zeta.
  repeat (case_goal; try discriminate); upd_simpl; reflexivity.
Qed.
Lemma clstatus_flight n network hash now : n_fpInFlight (consensusStatusNode n network hash now) = n_fpInFlight n.
Proof.
  unfold consensusStatusNode, statusMembership, clearHeadOnNetworkChangeLocked, creditStatusSightingLocked. cbv zeta.
  repeat (case_goal; try discriminate); upd_simpl; reflexivity.
Qed.

Lemma effect_flight op a b :
  isClaim op = false -> effect AllowPrivateIPs op a b -> n_fpInFlight b = true -> n_fpInFlight a = true.
Proof.
  destruct op; cbn [effect isClaim]; intros Hc; try done.
  - intros [_ ->]. by rewrite touch_flight.
  - intros [->|[_ ->]]; by rewrite ?applyRecord_flight, touch_flight.
  - intros ->. unfold authenticatedNode. still.
  - intros [->|(_ & _ & _ & ->)]; unfold sightCandidate, moveCandidate, setEndpoints; still.
  - intros (Hl & [[-> _]| ->]); by upd_simpl.
  - intros [_ ->]. unfold setIdentity. by upd_simpl.
  - by intros [? _].
  - intros [->|[-> | ->]]; unfold requeueNode; by upd_simpl.
  - unfold requeueNode, verifiedNode, setIdentity. intros [[_ ->]|[_ ->]]; [by upd_simpl|]. destruct claimed; cbv zeta; by upd_simpl.
  - intros [_ ->]. by rewrite status_flight.
  - intros (_ & _ & ->). by rewrite clstatus_flight.
  - intros ->. by upd_simpl.
  - intros ->. unfold geoNode. still.
  - intros [->|[_ ->]]; [by upd_simpl|]. intros Hf. rewrite (core_flight _ _ (penalize_core _)) in Hf. by upd_simpl_in Hf.
Qed.

(** An entry that appears is not claimed. *)
Lemma commit_new s n via now fn fl f p id b :
  s_m s !! id = None -> s_m (exec AllowPrivateIPs s (OpCommit n via now fn fl f p)) !! id = Some b -> n_fpInFlight b = false.
Proof.
  intros Hn. cbn [exec]. fold (committed AllowPrivateIPs n fn fl). unfold observe_commit. cbn zeta.
  destruct (s_m s !! en_ID n) as [cur|] eqn:E.
  - assert (en_ID n <> id) as Hne by congruence. destruct (touchObservationLocked cur via now true f p) as [c d].
    destruct d; cbn [fst]; [rewrite deleteLocked_lookup; by destruct (decide _); [|congruence]|].
    destruct (true && _); cbn [fst]; rewrite ?track_lookup, setNode_lookup; (destruct (decide _); [congruence|congruence]).
  - destruct (makeRoom _ _ _ _) as [[[s2 n2] c2]|] eqn:Ea; [|cbn [fst]; congruence].
    set (fresh := emptyNode <| n_ID := _ |> <| n_FirstSeen := _ |> <| n_Score := _ |>).
    pose proof (touch_flight fresh via now false f p) as Ht.
    assert (n_fpInFlight fresh = false) as Hf by (subst fresh; by upd_simpl). rewrite Hf in Ht.
    destruct (touchObservationLocked fresh via now false f p) as [c d]. cbn [fst] in Ht. cbn [andb negb orb].
    assert (forall x, s_m s2 !! id = Some x -> False) as Hno.
    { intros x Hx. pose proof (makeRoom_entry _ _ _ _ _ _ _ _ _ Ea Hx). congruence. }
    destruct d; cbn [fst]; rewrite ?track_lookup, ?setNode_setNode, ?deleteLocked_lookup, ?setNode_lookup;
      repeat destruct (decide _); try congruence; intros Hb; try (by destruct (Hno _ Hb)).
    injection Hb as <-. by rewrite applyRecord_flight.
Qed.

Lemma exec_new s op id b :
  isIngest op = false -> s_m s !! id = None -> s_m (exec AllowPrivateIPs s op) !! id = Some b -> n_fpInFlight b = false.
Proof.
  intros Hi Hn. destruct op; try (cbn [isIngest] in Hi; discriminate).
  2: by apply commit_new.
  15: { cbn [exec]. intros Hb%prune_entry. congruence. }
  all: cbn [exec]; unfold observe_stale, authenticate, candidate_commit, SetExecutionCandidateLayer, SetCandidateClient, ClaimFingerprintInfo,
    UnclaimFingerprint, FingerprintFailed, setFingerprint, SetExecutionStatusAt, SetConsensusStatus, SetHead, SetGeo, Penalize;
    cbn zeta.
  all: match goal with |- context [s_m ?x !! ?tid] => is_var x; destruct (s_m x !! tid) as [n0|] eqn:E0 end.
  all: repeat (case_goal; cbn [fst snd]);
    cbn [fst snd] in *; rewrite ?track_lookup, ?deleteLocked_lookup, ?setNode_lookup, ?track_lookup, ?count_m;
    repeat match goal with |- context [decide (?x = ?y)] => destruct (decide (x = y)) end; try congruence.
  intros [= <-]. unfold newCandidate, setEndpoints. by upd_simpl.
Qed.

(** Only a claim claims. *)
Lemma exec_flying s op id : isIngest op = false -> isClaim op = false -> flying (exec AllowPrivateIPs s op) id -> flying s id.
Proof.
  intros Hi Hc (b & Hb & Hf). destruct (s_m s !! id) as [a|] eqn:Ea.
  - exists a. split; [done|]. destruct (exec_entry _ _ _ _ _ _ Hi Ea Hb) as [->|[_ He]]; [done|]. by eapply effect_flight.
  - pose proof (exec_new _ _ _ _ Hi Ea Hb). congruence.
Qed.

Lemma claim_flying s id now k :
  flying (fst (ClaimFingerprintInfo s id now)) k ->
  flying s k \/ (k = id /\ is_Some (snd (ClaimFingerprintInfo s id now))).
Proof.
  pose proof (claim_spec s id now) as H. destruct (ClaimFingerprintInfo s id now) as [s' [c|]]; cbn [fst snd] in *.
  - destruct H as (n & Hn & _ & -> & _). intros (b & Hb & Hf). rewrite setNode_lookup in Hb.
    destruct (decide (k = id)) as [->|]; [right; by split|left; by exists b].
  - destruct H as [-> _]. auto.
Qed.

(** ** What ends a probe *)

Lemma unclaim_lands s id : ~ flying (UnclaimFingerprint s id) id.
Proof.
  unfold UnclaimFingerprint. destruct (s_m s !! id) as [n|] eqn:E; [|intros (b & Hb & _); congruence].
  destruct (n_fpInFlight n) eqn:Ef; [|rewrite (flying_here _ _ n) by done; by rewrite Ef].
  rewrite (flying_here _ _ (unclaimNode n)); [|rewrite setNode_lookup; by case_decide].
  unfold unclaimNode. cbv zeta. repeat case_goal; by upd_simpl.
Qed.

Lemma failed_lands s id now : ~ flying (fst (FingerprintFailed s id now)) id.
Proof.
  unfold FingerprintFailed. destruct (s_m s !! id) as [n|] eqn:E; [|intros (b & Hb & _); cbn [fst] in Hb; congruence]. cbv zeta.
  repeat case_goal; cbn [fst]; intros (b & Hb & Hf); rewrite setNode_lookup in Hb; (case_decide; [|done]); injection Hb as <-;
    unfold requeueNode in Hf; by upd_simpl_in Hf.
Qed.

Lemma claimed_lands s id layer fp dir now : ~ flying (fst (fst (SetClaimedFingerprintAt s id layer fp dir now))) id.
Proof.
  unfold SetClaimedFingerprintAt, setFingerprint. destruct (s_m s !! id) as [n|] eqn:E; [|intros (b & Hb & _); cbn [fst] in Hb; congruence].
  rewrite andb_false_r. cbn [andb]. repeat case_goal; cbn [fst]; intros (b & Hb & Hf); rewrite setNode_lookup in Hb; (case_decide; [|done]);
    injection Hb as <-; unfold requeueNode, verifiedNode, setIdentity in Hf; cbv zeta in Hf; by upd_simpl_in Hf.
Qed.
End Flight.
