(* ===== verification/NodesetPublish.v ===== *)
(** More properties of the node set: probe backoff, the candidate bound, verified
    identities, what is published, and the snapshot round trip. *)

From stdpp Require Import base gmap sets strings list numbers sorting.
From Stdlib Require Import ZArith Lia.
From S2P Require Import Prelude GoLib ForkId NetIP Heap NodeData Nodeset Eviction NodesetInv NodesetEntry NodesetRecord NodesetProps.

Section Publish.
Context `{Hspec : SpecialNetworks} `{Hcls : Classifier} (AllowPrivateIPs : bool).

(** * Backoff *)

(** The rung of the schedule an attempt is on. *)
Definition rung (attempt : Z) : Duration :=
  default 0 (fpRetrySchedule !! Z.to_nat (Z.min (Z.max attempt 1 - 1) 5)).

Lemma byte_at_range b i : Forall (fun x => 0 <= x < 256) b -> 0 <= byte_at b i <= 255.
Proof.
  intros H. unfold byte_at. destruct (b !! i) as [x|] eqn:E; simpl; [|lia].
  rewrite Forall_lookup in H. specialize (H i x E). lia.
Qed.

Lemma rung_facts attempt : (Minute <= rung attempt <= 6 * Hour) /\ exists m, rung attempt = m * 1000.
Proof.
  unfold rung. generalize (Z.min (Z.max attempt 1 - 1) 5), (Z.le_min_r (Z.max attempt 1 - 1) 5). intros i Hi.
  assert (Z.to_nat i < 6)%nat as Hk by lia. generalize dependent (Z.to_nat i). clear. intros k Hk.
  assert (forall d, d ∈ fpRetrySchedule -> (Minute <= d <= 6 * Hour) /\ exists m, d = m * 1000) as H.
  { intros d Hd. unfold fpRetrySchedule in Hd. assert (d = d / 1000 * 1000 /\ Minute <= d <= 6 * Hour) as [H1 H2];
      [|split; [done|by eexists]].
    repeat (apply elem_of_cons in Hd as [->|Hd]; [vm_compute; split_and!; (reflexivity || discriminate)|]).
    by apply elem_of_nil in Hd. }
  destruct (lookup_lt_is_Some_2 fpRetrySchedule k Hk) as [d Hd]. rewrite Hd. apply H. by eapply list_elem_of_lookup_2.
Qed.

Lemma retryDelay_unfold id attempt :
  exists permille, 900 <= permille <= 1100 /\ fingerprintRetryDelay id attempt = godiv (rung attempt * permille) 1000.
Proof.
  unfold fingerprintRetryDelay. cbv zeta. set (att := if attempt <? 1 then 1 else attempt).
  assert (att = Z.max attempt 1) as Ha by (unfold att; destruct (Z.ltb_spec attempt 1); lia).
  set (b := byte_at _ _). assert (0 <= b <= 255) as Hb by apply byte_at_range, bytes_range.
  exists (900 + godiv (b * 200) 255). split.
  { unfold godiv. rewrite Z.quot_div_nonneg by lia. pose proof (Z.div_le_mono (b * 200) (255 * 200) 255 ltac:(lia) ltac:(lia)).
    pose proof (Z.div_pos (b * 200) 255 ltac:(lia) ltac:(lia)). change (255 * 200 / 255) with 200 in *. lia. }
  assert (default 0 (fpRetrySchedule !! Z.to_nat (if Z.of_nat (length fpRetrySchedule) <=? att - 1
     then Z.of_nat (length fpRetrySchedule) - 1 else att - 1)) = rung attempt) as ->.
  { unfold rung. rewrite <- Ha. do 3 f_equal. change (Z.of_nat (length fpRetrySchedule)) with 6. destruct (Z.leb_spec 6 (att - 1)); lia. }
  f_equal. apply wrapI64_id. pose proof (proj1 (rung_facts attempt)) as Hr. unfold Hour, Minute, Second, min_int64, max_int64 in *.
  unfold godiv. rewrite Z.quot_div_nonneg by lia.
  pose proof (Z.div_le_mono (b * 200) (255 * 200) 255 ltac:(lia) ltac:(lia)). pose proof (Z.div_pos (b * 200) 255 ltac:(lia) ltac:(lia)).
  change (255 * 200 / 255) with 200 in *. nia.
Qed.

(** Backoff is bounded and enforced.  A failed probe that is not superseded
    schedules the next one between 90% and 110% of the attempt's rung (one minute
    to six hours, without overflow), and from then on the entry can be claimed
    exactly when it is dialable and that instant has come. *)
Theorem failed_backs_off s id n now s1 r t :
  s_m s !! id = Some n -> FingerprintFailed s id now = (s1, r) -> IsZero (re_RetryAt r) = false ->
  re_Attempts r = n_fpAttempts n /\
  rung (n_fpAttempts n) * 9 <= 10 * (re_RetryAt r - now) <= rung (n_fpAttempts n) * 11 /\
  Minute <= rung (n_fpAttempts n) <= 6 * Hour /\
  snd (ClaimFingerprintAt s1 id t) = fingerprintable n && (re_RetryAt r <=? t).
Proof.
  intros Hn Hf Hz. unfold FingerprintFailed in Hf. rewrite Hn in Hf. cbv zeta in Hf.
  destruct (n_fpDone n && negb (n_fpRefreshDue n)) eqn:Ed; [injection Hf as <- <-; done|].
  destruct (n_fpRefresh n); [injection Hf as <- <-; done|]. injection Hf as <- <-. upd_simpl_in Hz. cbn [re_RetryAt] in Hz.
  cbn [re_Attempts re_RetryAt]. upd_simpl. set (next := Add now _) in *. split; [done|].
  destruct (retryDelay_unfold id (n_fpAttempts n)) as (p & Hp & Hd). destruct (rung_facts (n_fpAttempts n)) as [Hr [m Hm]]. split.
  { unfold next, Add. rewrite Hd. unfold godiv, Hour, Minute, Second in *. rewrite Z.quot_div_nonneg by nia.
    replace (rung (n_fpAttempts n) * p / 1000) with (m * p); [nia|]. rewrite Hm. 
    replace (m * 1000 * p) with (m * p * 1000) by lia. by rewrite Z.div_mul. }
  split; [done|]. unfold ClaimFingerprintAt, ClaimFingerprintInfo. rewrite setNode_lookup. case_decide; [|done].
  assert (fingerprintDue (n <| n_fpInFlight := false |> <| n_fpNext := next |>) t = fingerprintable n && (next <=? t)) as Hdue.
  { unfold fingerprintDue. upd_simpl. rewrite Ed, Hz.
    unfold Before. destruct (fingerprintable n); cbn [negb andb orb]; [|done]. by rewrite Z.leb_antisym. }
  rewrite Hdue. by destruct (fingerprintable n && _).
Qed.

(** * Verified identities *)

(** The operations that set an identity on purpose. *)
Definition identifies (op : Op) : bool :=
  match op with OpFingerprint _ _ _ _ _ _ | OpCandidateClient _ _ _ | OpIngest _ => true | _ => false end.

Ltac same_identity := cbv zeta; repeat (case_goal; try discriminate); unfold identity; cbn [fst]; upd_simpl; reflexivity.

Lemma authenticated_identity n hash next now : identity (authenticatedNode n hash next now) = identity n.
Proof. unfold authenticatedNode. same_identity. Qed.
Lemma sight_identity n now : identity (sightCandidate n now) = identity n.
Proof. unfold sightCandidate. same_identity. Qed.
Lemma move_identity n e now : identity (moveCandidate n e now) = identity n.
Proof. unfold moveCandidate, setEndpoints. same_identity. Qed.
Lemma unclaim_identity n : identity (unclaimNode n) = identity n.
Proof. unfold unclaimNode. same_identity. Qed.
Lemma geo_identity n g : identity (geoNode n g) = identity n.
Proof. unfold geoNode. same_identity. Qed.
Lemma credit_identity n network now : identity (creditStatusSightingLocked n network now) = identity n.
Proof. unfold creditStatusSightingLocked. same_identity. Qed.
Lemma clearHead_identity n network : identity (clearHeadOnNetworkChangeLocked n network) = identity n.
Proof. unfold clearHeadOnNetworkChangeLocked. same_identity. Qed.
Lemma statusMembership_identity n now : identity (statusMembership n now) = identity n.
Proof. reflexivity. Qed.
Lemma network_identity n w : identity (n <| n_Network := w |>) = identity n.
Proof. reflexivity. Qed.
Lemma forkNetwork_identity n w h x : identity (n <| n_Network := w |> <| n_ForkHash := h |> <| n_ForkNext := x |>) = identity n.
Proof. reflexivity. Qed.
Lemma forkHash_identity n h : identity (n <| n_ForkHash := h |>) = identity n.
Proof. reflexivity. Qed.
Lemma core_identity a b : core b = core a -> identity b = identity a.
Proof. unfold core. congruence. Qed.

Lemma executionStatus_identity n network fork now : identity (executionStatusNode n network fork now) = identity n.
Proof. unfold executionStatusNode. cbv zeta. by rewrite statusMembership_identity, forkNetwork_identity, clearHead_identity. Qed.

Lemma consensusStatus_identity n network hash now : identity (consensusStatusNode n network hash now) = identity n.
Proof.
  unfold consensusStatusNode. cbv zeta. rewrite statusMembership_identity.
  destruct (negb _); rewrite ?forkHash_identity, network_identity, clearHead_identity, credit_identity; done.
Qed.

(** A verified identity is kept while it is revalidated: no sighting, record
    change, failed or abandoned probe, Status or location update replaces or
    clears it, unless the node turns out to be of the other layer. *)
Theorem verified_identity_kept s op id a b :
  identifies op = false -> s_m s !! id = Some a -> s_m (exec AllowPrivateIPs s op) !! id = Some b ->
  n_fpDone a = true -> n_Client a <> "" -> n_Layer b = n_Layer a -> identity b = identity a.
Proof.
  intros Hop Ha Hb Hd Hc. assert (isIngest op = false) as Hi by by destruct op.
  destruct (exec_entry _ _ _ _ _ _ Hi Ha Hb) as [->|[_ He]]; [done|]. clear Ha Hb Hi.
  destruct op; cbn [effect identifies] in *; try discriminate.
  - destruct He as [_ ->]. intros _. apply core_identity, touch_core.
  - pose proof (touch_core a via now true failedResolution pin) as Ht.
    set (c := fst (touchObservationLocked a via now true failedResolution pin)) in *.
    destruct He as [->|[_ ->]]; intros Hl; [by apply core_identity|]. rewrite <- (core_identity a c Ht).
    unfold core, membership, identity in Ht. apply applyRecord_identity; congruence.
  - rewrite He. intros _. apply authenticated_identity.
  - destruct He as [->|(_ & _ & _ & ->)]; intros _; rewrite ?move_identity; apply sight_identity.
  - destruct He as (_ & [[-> _]| ->]); reflexivity.
  - destruct He as [_ ->]. reflexivity.
  - destruct He as [_ ->]. intros _. apply unclaim_identity.
  - destruct He as [->|[-> | ->]]; reflexivity.
  - destruct He as [_ ->]. intros _. by rewrite executionStatus_identity, credit_identity.
  - destruct He as (_ & _ & ->). intros _. apply consensusStatus_identity.
  - rewrite He. reflexivity.
  - rewrite He. intros _. apply geo_identity.
  - destruct He as [->|[_ ->]]; [reflexivity|]. intros _. by rewrite (core_identity _ _ (penalize_core _)).
  - done.
Qed.

(** * Unsigned candidates *)

(** Candidate admission is bounded: neither path that retains an
    unclassified execution candidate raises their number past its limit. *)
Theorem candidate_bound s n now id limit :
  0 < limit ->
  CountELCandidates (fst (ObserveCandidateEL AllowPrivateIPs s n now limit)) <= Z.max limit (CountELCandidates s) /\
  CountELCandidates (fst (SetExecutionCandidateLayer s id limit)) <= Z.max limit (CountELCandidates s).
Proof.
  intros Hl. unfold CountELCandidates. split.
  - unfold ObserveCandidateEL. cbv zeta. destruct (negb _); [cbn [fst]; lia|]. destruct (noAddress _); [cbn [fst]; lia|].
    unfold candidate_commit. cbv zeta. destruct (s_m s !! en_ID n) as [cur|].
    + destruct (negb _); cbn [fst]; unfold setNode; upd_simpl; lia.
    + destruct (_ && (s_max s <=? Len s)); [cbn [fst]; lia|]. destruct (_ && (limit <=? s_candidates s)) eqn:E; [cbn [fst]; lia|].
      destruct (negb _); cbn [fst]; [lia|]. unfold setNode. upd_simpl. apply andb_false_iff in E as [E|E]; boolify; lia.
  - unfold SetExecutionCandidateLayer. destruct (s_m s !! id) as [n0|]; [|cbn [fst]; lia]. cbv zeta.
    destruct (negb (n_Layer n0 =? "")%string); [cbn [fst]; lia|].
    destruct ((0 <? limit) && (limit <=? s_candidates s) && _) eqn:E; [cbn [fst]; lia|].
    destruct (negb (fingerprintable _)); cbn [fst]; [unfold setNode; upd_simpl; lia|].
    rewrite track_count. unfold setNode, isELCandidate. upd_simpl. rewrite String.eqb_refl. cbn [Z.b2z andb].
    apply andb_false_iff in E as [E|E].
    + apply andb_false_iff in E as [E|E]; boolify; destruct (n_Network n0 =? "")%string; unfold Z.b2z; lia.
    + rewrite E. cbn. lia.
Qed.

(** The operations on an entry that carry a signed record, or a Status's score credit. *)
Definition vouches (op : Op) (id : string) : bool :=
  match op with
  | OpStale n _ _ _ _ | OpCommit n _ _ _ _ _ _ => String.eqb (en_ID n) id
  | OpExecutionStatus i _ _ _ | OpConsensusStatus i _ _ _ => String.eqb i id
  | OpIngest _ => true
  | _ => false
  end.

Definition unsigned (n : Node) : Prop :=
  n_ENR n = "" /\ n_HasV4 n = false /\ n_HasV5 n = false /\ n_pinned n = false /\ n_Score n <= scoreInit.

Lemma unsigned_hidden n : unsigned n -> snapshotEligible n = false.
Proof.
  intros (He & H4 & H5 & Hp & Hs). unfold snapshotEligible. rewrite He, H4, H5, Hp.
  replace (n_Score n <=? scoreInit) with true by (symmetry; by apply Z.leb_le). by case_goal.
Qed.

Definition signView (n : Node) := (n_ENR n, n_HasV4 n, n_HasV5 n, n_pinned n, n_Score n).

Lemma signView_unsigned a b : signView b = signView a -> unsigned a -> unsigned b.
Proof. unfold signView, unsigned. intros H (? & ? & ? & ? & ?). split_and!; [congruence..|]. replace (n_Score b) with (n_Score a) by congruence. done. Qed.

Ltac still_unsigned := apply signView_unsigned; cbv zeta; repeat (case_goal; try discriminate); unfold signView; cbn [fst]; upd_simpl;
  reflexivity.

Lemma authenticated_unsigned n hash next now : unsigned n -> unsigned (authenticatedNode n hash next now).
Proof. intros (He & H4 & H5 & Hp & Hs). unfold authenticatedNode, unsigned. cbv zeta. repeat case_goal; upd_simpl; done. Qed.
Lemma sight_unsigned n now : unsigned n -> unsigned (sightCandidate n now).
Proof. unfold sightCandidate. still_unsigned. Qed.
Lemma move_unsigned n e now : unsigned n -> unsigned (moveCandidate n e now).
Proof. unfold moveCandidate, setEndpoints. still_unsigned. Qed.
Lemma unclaim_unsigned n : unsigned n -> unsigned (unclaimNode n).
Proof. unfold unclaimNode. still_unsigned. Qed.
Lemma verified_unsigned n fp dir claimed now : unsigned n -> unsigned (verifiedNode n fp dir claimed now).
Proof. unfold verifiedNode, setIdentity. still_unsigned. Qed.
Lemma geo_unsigned n g : unsigned n -> unsigned (geoNode n g).
Proof. unfold geoNode. still_unsigned. Qed.
Lemma plain_unsigned n now : unsigned n -> unsigned (n <| n_LastCheck := now |>).
Proof. still_unsigned. Qed.

Lemma penalize_unsigned n : unsigned n -> unsigned (fst (penalizeLocked n)).
Proof.
  intros (He & H4 & H5 & Hp & Hs). unfold scoreInit in Hs.
  assert (godiv (n_Score n) 2 - penaltyStep <= scoreInit) as Hle.
  { unfold godiv, penaltyStep, scoreInit. pose proof (Z.quot_le_mono (n_Score n) 1 2 ltac:(lia) Hs). change (1 ÷ 2) with 0 in *. lia. }
  unfold penalizeLocked, unsigned. cbv zeta. repeat case_goal; cbn [fst]; upd_simpl; done.
Qed.

Lemma effect_unsigned op id a b :
  vouches op id = false -> target op = Some id -> effect AllowPrivateIPs op a b -> unsigned a -> unsigned b.
Proof.
  destruct op; cbn [effect vouches target]; intros Hv Ht;
    try (injection Ht as Ht; rewrite Ht, String.eqb_refl in Hv; discriminate); try done.
  - intros ->. apply authenticated_unsigned.
  - intros [->|(_ & _ & _ & ->)] Hu; [by apply sight_unsigned|by apply move_unsigned, sight_unsigned].
  - intros (_ & [[-> _]| ->]); by apply signView_unsigned.
  - intros [_ ->]. by apply signView_unsigned.
  - intros [_ ->]. by apply signView_unsigned.
  - intros [_ ->]. apply unclaim_unsigned.
  - intros [->|[-> | ->]]; by apply signView_unsigned.
  - intros [[_ ->]|[_ ->]]; [by apply signView_unsigned|apply verified_unsigned].
  - intros ->. by apply signView_unsigned.
  - intros ->. apply geo_unsigned.
  - intros [->|[_ ->]]; [apply plain_unsigned|]. intros Hu. by apply penalize_unsigned, plain_unsigned.
Qed.

Lemma newCandidate_unsigned id e now : unsigned (newCandidate id e now).
Proof. unfold newCandidate, setEndpoints, unsigned. cbv zeta. upd_simpl. done. Qed.

(** An unsigned lead cannot publish itself.  An execution candidate retained
    from an unresolved record stays out of every snapshot, whatever else happens
    to it (probes, verification, further sightings, location, penalties), until
    a signed record or a live Status vouches for it. *)
Theorem candidate_unpublished s n now limit ops b :
  s_m s !! en_ID n = None ->
  let s1 := fst (ObserveCandidateEL AllowPrivateIPs s n now limit) in
  (forall op, op ∈ ops -> vouches op (en_ID n) = false) -> present AllowPrivateIPs s1 ops (en_ID n) ->
  s_m (run AllowPrivateIPs s1 ops) !! en_ID n = Some b -> snapshotEligible b = false.
Proof.
  intros Hn s1 Hops Hp Hb. apply unsigned_hidden.
  destruct (Hp [] ops eq_refl) as [a Ha]. cbn [run foldl] in Ha.
  assert (unsigned a) as Hu.
  { subst s1. unfold ObserveCandidateEL in Ha. cbv zeta in Ha. destruct (negb _); [cbn [fst] in Ha; congruence|].
    destruct (noAddress _); [cbn [fst] in Ha; congruence|]. unfold candidate_commit in Ha. rewrite Hn in Ha. cbv zeta in Ha.
    repeat (case_hyp Ha; try (cbn [fst] in Ha; congruence)). cbn [fst] in Ha. rewrite setNode_lookup in Ha. case_decide; [|done].
    injection Ha as <-. apply newCandidate_unsigned. }
  revert Hu. apply (run_relates AllowPrivateIPs (fun x y => unsigned x -> unsigned y) s1 ops (en_ID n) a b); [|..|done|done|done].
  - split; [by intros x|intros x y z; auto].
  - intros op x y Hop Ht He. apply (effect_unsigned op (en_ID n)); [by apply Hops|done|done].
  - apply Forall_forall. intros op Hop. specialize (Hops op Hop). by destruct op.
Qed.
End Publish.

Section Demo.

Definition demoUnsigned : ENode :=
  MkENode (be_put 32 9) 0 "enode://demo" "" (Some (of_bytes [8; 8; 4; 4])) None (Some 30303) (Some 30303)
    None None None None None None None None None.

Definition demoOpen : NodeSet := MkSet demoMap 0 1.

(** The second probe of node 2 fails: retry in about five minutes. *)
Lemma failed_backs_off_witness :
  let s := setNode demoSet demoID ((demoNode 2 0 "mainnet") <| n_fpInFlight := true |> <| n_fpAttempts := 2 |>) in
  let r := snd (FingerprintFailed s demoID (100 * Second)) in
  re_Attempts r = 2 /\ snd (ClaimFingerprintAt (fst (FingerprintFailed s demoID (100 * Second))) demoID (101 * Second)) = false.
Proof.
  intros s r. destruct (FingerprintFailed s demoID (100 * Second)) as [s1 r1] eqn:E.
  destruct (failed_backs_off s demoID ((demoNode 2 0 "mainnet") <| n_fpInFlight := true |> <| n_fpAttempts := 2 |>)
    (100 * Second) s1 r1 (101 * Second)) as (Ha & _ & _ & Hc).
  - vm_compute. reflexivity.
  - exact E.
  - assert (r1 = snd (FingerprintFailed s demoID (100 * Second))) as -> by (by rewrite E). vm_compute. reflexivity.
  - split; [exact Ha|]. cbn [fst]. rewrite Hc.
    assert (r1 = snd (FingerprintFailed s demoID (100 * Second))) as -> by (by rewrite E). vm_compute. reflexivity.
Defined.

Lemma verified_identity_kept_witness :
  let a := verifiedNode (demoNode 2 0 "mainnet") demoFingerprint "out" false 50 in
  let s := setNode demoSet demoID a in
  exists b, s_m (@exec demoSpecial demoClassifier false s (OpHead demoID "el" "mainnet" 9 60)) !! demoID = Some b /\ identity b = identity a.
Proof.
  intros a s. destruct (s_m (@exec demoSpecial demoClassifier false s (OpHead demoID "el" "mainnet" 9 60)) !! demoID) as [b|] eqn:E;
    [|by vm_compute in E].
  exists b. split; [reflexivity|].
  apply (@verified_identity_kept demoSpecial demoClassifier false s (OpHead demoID "el" "mainnet" 9 60) demoID a b);
    [reflexivity|vm_compute; reflexivity|exact E|reflexivity|discriminate|].
  vm_compute in E. by injection E as <-.
Defined.

Lemma candidate_unpublished_witness :
  let s1 := fst (@ObserveCandidateEL demoSpecial demoClassifier false demoOpen demoUnsigned 100 5) in
  exists b, s_m (@run demoSpecial demoClassifier false s1 [OpClaim (be_put 32 9) 200]) !! be_put 32 9 = Some b /\ snapshotEligible b = false.
Proof.
  intros s1. destruct (s_m (@run demoSpecial demoClassifier false s1 [OpClaim (be_put 32 9) 200]) !! be_put 32 9) as [b|] eqn:E;
    [|by vm_compute in E].
  exists b. split; [reflexivity|].
  apply (@candidate_unpublished demoSpecial demoClassifier false demoOpen demoUnsigned 100 5 [OpClaim (be_put 32 9) 200] b).
  - vm_compute. reflexivity.
  - intros op Hop. apply list_elem_of_singleton in Hop as ->. reflexivity.
  - intros [|x [|y pre]] post H; [vm_compute; by eexists| |by destruct pre]. injection H as <- _. vm_compute. by eexists.
  - exact E.
Defined.

Lemma candidate_bound_witness :
  CountELCandidates (fst (@ObserveCandidateEL demoSpecial demoClassifier false demoOpen demoUnsigned 100 1)) <= 1.
Proof. exact (proj1 (@candidate_bound demoSpecial demoClassifier false demoOpen demoUnsigned 100 demoID 1 ltac:(lia))). Defined.
End Demo.
