(* ===== verification/NodesetRestore.v ===== *)
(** The snapshot round trip: what [Ingest] rebuilds from the rows of a published
    set, and the eth2 record entry read back from the schedule that wrote it. *)

From stdpp Require Import base gmap sets strings list numbers sorting.
From Stdlib Require Import ZArith Lia.
From S2P Require Import Prelude GoLib Consensus ForkId NetIP Heap NodeData Nodeset Eviction NodesetInv NodesetEntry.

Section Restore.
Context `{Hspec : SpecialNetworks} (AllowPrivateIPs : bool).

(** * One row *)

(** An instant a row can hold: unset, or at least a second after Go's zero time. *)
Definition holdable (t : Time) : Prop := t = 0 \/ Second <= t /\ t / Second <= 2 ^ 62.

Definition int32 (v : Z) : Prop := -2147483648 <= v <= max_int32.

(** The entries a snapshot carries faithfully: a full identity, dialable public
    addresses, fields within the row's widths, and no probe result or attempt
    that only the process knows of. *)
Record restorable (n : Node) : Prop := {
  p_id : slen (n_ID n) = 32;
  p_addresses : rowAddressesUsable AllowPrivateIPs (row n) = true;
  p_ints : Forall int32 [n_TCP n; n_UDP n; n_TCP6 n; n_UDP6 n; n_QUIC n; n_QUIC6 n; n_Score n; completedAttempts n];
  p_asn : 0 <= n_ASN n < 4294967296;
  p_attempts : 0 <= completedAttempts n /\ (n_fpInFlight n = true -> n_fpAttempts n <> fpFailedAfter);
  p_times : Forall holdable [n_LastResolved n; n_HeadObservedAt n; n_MembershipVerifiedAt n; n_ForkObservedAt n; n_fpAt n; n_fpNext n];
  p_caps : n_Layer n = "cl" -> n_Capabilities n = "" }.

Lemma Unix_range t : min_int64 <= Unix t <= max_int64.
Proof. apply wrapI64_range. Qed.

Lemma timeOrZero_unix t : holdable t -> unixOrZero (timeOrZero (unixOrZero t)) = unixOrZero t.
Proof.
  unfold unixOrZero, timeOrZero, IsZero. intros [->|[Hs Hm]]; [done|].
  destruct (t =? 0) eqn:E; [done|]. destruct (Unix t =? 0) eqn:E0; [boolify; by rewrite E0|].
  assert (time_Unix (Unix t) <> 0) as Hne.
  { rewrite Unix_sane_eq by (unfold Second in *; Z.to_euclidean_division_equations; lia). rewrite time_Unix_sane.
    - unfold Second in *. Z.to_euclidean_division_equations. lia.
    - unfold sane_unix, unixToInternal, Second in *. boolify; Z.to_euclidean_division_equations; lia. }
  destruct (time_Unix (Unix t) =? 0) eqn:E1; boolify; [done|]. apply Unix_time_Unix, Unix_range.
Qed.

Lemma restored_plain id r :
  ((r_Layer r =? "cl")%string && negb (r_Caps r =? "")%string) = false ->
  n_fpInFlight (restoredNode id r) = false /\ n_fpAttempts (restoredNode id r) = restoredAttempts r /\
  n_fpDone (restoredNode id r) = ((r_FPStatus r =? "ok")%string || (r_FPStatus r =? "stale")%string) /\
  n_fpRefreshDue (restoredNode id r) = (n_fpDone (restoredNode id r) && (r_FPStatus r =? "stale")%string).
Proof. intros Hc. unfold restoredNode. rewrite Hc. done. Qed.

Lemma wrapI32_idem v : wrapI32 (wrapI32 v) = wrapI32 v.
Proof. unfold wrapI32. Z.to_euclidean_division_equations. lia. Qed.

Lemma fpStatus_done n : ((fpStatus n =? "ok")%string || (fpStatus n =? "stale")%string) = n_fpDone n.
Proof. unfold fpStatus. destruct (n_fpDone n), (n_fpRefreshDue n); cbn [andb]; try done; repeat case_goal; done. Qed.

Lemma fpStatus_stale n : (n_fpDone n && (fpStatus n =? "stale")%string) = (n_fpDone n && n_fpRefreshDue n).
Proof. unfold fpStatus. destruct (n_fpDone n), (n_fpRefreshDue n); done. Qed.

(** Two nodes have the same status when it is decided by the same facts. *)
Lemma fpStatus_same a b :
  n_fpDone b = n_fpDone a -> (n_fpDone a && n_fpRefreshDue b) = (n_fpDone a && n_fpRefreshDue a) ->
  fingerprintable b = fingerprintable a ->
  (fpFailedAfter <=? n_fpAttempts b) = (fpFailedAfter <=? n_fpAttempts a) -> fpStatus b = fpStatus a.
Proof. unfold fpStatus. intros -> H -> ->. by rewrite H; destruct (n_fpDone a). Qed.

Lemma row_restored n : restorable n -> row (restoredNode (n_ID n) (row n)) = row n.
Proof.
  intros [Hid Haddr Hints Hasn [Hatt Hfl] Htimes Hcaps].
  assert (((r_Layer (row n) =? "cl")%string && negb (r_Caps (row n) =? "")%string) = false) as Hc.
  { cbn [row r_Layer r_Caps]. destruct (n_Layer n =? "cl")%string eqn:E; [|done]. boolify. rewrite Hcaps by done. done. }
  destruct (restored_plain (n_ID n) (row n) Hc) as (Hpf & Hpa & Hpd & Hpr).
  unfold int32 in Hints. repeat (apply Forall_cons in Hints as [? Hints]).
  repeat (apply Forall_cons in Htimes as [? Htimes]).
  set (m := restoredNode (n_ID n) (row n)) in *.
  assert (restoredAttempts (row n) = completedAttempts n) as Hra.
  { unfold restoredAttempts. cbn [row r_FPAttempts]. rewrite wrapI32_id by done. destruct (Z.ltb_spec (completedAttempts n) 0); lia. }
  assert (completedAttempts m = completedAttempts n) as Hca by (unfold completedAttempts at 1; rewrite Hpf, Hpa, Hra; done).
  assert (fpStatus m = fpStatus n) as Hst.
  { cbn [row r_FPStatus] in Hpd, Hpr. rewrite fpStatus_done in Hpd. rewrite Hpd, fpStatus_stale in Hpr.
    apply fpStatus_same; [done|by rewrite Hpr, andb_assoc, andb_diag| |].
    - unfold fingerprintable, m, restoredNode. rewrite Hc. cbn. by rewrite !wrapI32_id by done.
    - rewrite Hpa, Hra. unfold completedAttempts, fpFailedAfter in *.
      destruct (n_fpInFlight n); [|done]. cbn [andb]. specialize (Hfl eq_refl). destruct (Z.ltb_spec 0 (n_fpAttempts n)); [|done].
      destruct (Z.leb_spec 3 (n_fpAttempts n - 1)), (Z.leb_spec 3 (n_fpAttempts n)); (done || lia). }
  unfold row at 1. rewrite Hst, Hca. unfold m, restoredNode. rewrite Hc. cbv zeta.
  cbn -[wrapI32 wrapU32 Unix time_Unix unixOrZero timeOrZero fpStatus completedAttempts hex_encode].
  unfold row. rewrite !wrapI32_idem, !timeOrZero_unix by done. rewrite !Unix_time_Unix by apply Unix_range.
  f_equal; try done. unfold wrapU32. by rewrite Z.mod_mod.
Qed.

(** * The set *)

Lemma ingestRow_room s d ev n :
  s_max s <= 0 \/ Len s < s_max s -> s_m s !! n_ID n = None -> restorable n ->
  let m := restoredNode (n_ID n) (row n) in
  ingestRow AllowPrivateIPs (s, d, ev) (row n) = (setNode (trackCandidateLocked false (isELCandidate m) s) (n_ID n) m, d, ev).
Proof.
  intros Hm Hn [Hid Haddr _ _ _ _ _] m. unfold ingestRow. cbn [row r_ID]. rewrite hex_decode_encode, Hid. cbn [negb Z.eqb].
  fold (row n). rewrite Haddr. cbn [negb]. cbv zeta. rewrite Hn.
  replace ((0 <? s_max s) && (s_max s <=? Len s)) with false by (symmetry; apply andb_false_iff; rewrite Z.ltb_ge, Z.leb_gt; lia). rewrite Hn. by rewrite Z.add_0_r.
Qed.

Lemma setNode_track_lookup s w i id n k :
  s_m (setNode (trackCandidateLocked w i s) id n) !! k = if decide (k = id) then Some n else s_m s !! k.
Proof. by rewrite setNode_lookup, track_lookup. Qed.

Lemma Len_fresh s w i id n : s_m s !! id = None -> Len (setNode (trackCandidateLocked w i s) id n) = Len s + 1.
Proof.
  intros Hn. unfold Len, setNode. upd_simpl. rewrite track_m, map_size_insert_None by done. lia.
Qed.

(** Restoring distinct restorable entries that fit puts each one back and no other. *)
Lemma ingest_room nodes s :
  s_max s <= 0 \/ Len s + Z.of_nat (length nodes) <= s_max s -> NoDup (n_ID <$> nodes) ->
  (forall n, n ∈ nodes -> restorable n /\ s_m s !! n_ID n = None) ->
  exists s', Ingest AllowPrivateIPs s (map row nodes) = (s', 0, 0) /\ s_max s' = s_max s /\ Len s' = Len s + Z.of_nat (length nodes) /\
    (forall n, n ∈ nodes -> s_m s' !! n_ID n = Some (restoredNode (n_ID n) (row n))) /\
    (forall id, id ∉ n_ID <$> nodes -> s_m s' !! id = s_m s !! id).
Proof.
  unfold Ingest. revert s. induction nodes as [|n nodes IH]; intros s Hm Hnd Hr.
  - exists s. split_and!; [done|done|cbn; lia|by intros ? ?%elem_of_nil|done].
  - cbn [fmap list_fmap map foldl length] in *. apply NoDup_cons in Hnd as [Hnew Hnd]. destruct (Hr n ltac:(left)) as [Hrn Hfree].
    rewrite ingestRow_room by (done || lia).
    set (s1 := setNode _ _ _). assert (s_max s1 = s_max s /\ Len s1 = Len s + 1) as [H1 H2].
    { split; [unfold s1, setNode; upd_simpl; by rewrite track_max|by apply Len_fresh]. }
    destruct (IH s1) as (s' & He & Hx & Hl & Hin & Hout).
    + rewrite H1, H2. lia.
    + done.
    + intros m Hmem. destruct (Hr m ltac:(by right)) as [? Hf]. split; [done|]. unfold s1. rewrite setNode_track_lookup.
      case_decide as Heq; [|done]. exfalso. apply Hnew. rewrite <- Heq. by apply list_elem_of_fmap_2.
    + exists s'. split_and!; [done|by rewrite Hx|rewrite Hl, H2; lia| |].
      * intros m [->|Hmem]%elem_of_cons; [|by apply Hin]. rewrite Hout by done. unfold s1. rewrite setNode_track_lookup. by case_decide.
      * intros id Hid. rewrite not_elem_of_cons in Hid. destruct Hid as [Hne Hid]. rewrite Hout by done.
        unfold s1. rewrite setNode_track_lookup. by case_decide.
Qed.


(** The eth2 record entry: the digest, next version and next epoch written by
    [ENRForkID] are what [clForkSchedule] reads back. *)
Theorem clForkSchedule_roundtrip st :
  slen (Digest st) = 4 -> slen (NextForkVersion st) = 4 -> 0 <= NextForkEpoch st <= max_uint64 ->
  clForkSchedule (ENRForkID st) = MkSchedule (hex_encode (Digest st)) (hex_encode (NextForkVersion st)) (NextForkEpoch st).
Proof.
  unfold slen, clForkSchedule, ENRForkID. intros Hd Hv He.
  assert (String.length (Digest st) = 4%nat) as Hd' by lia. assert (String.length (NextForkVersion st) = 4%nat) as Hv' by lia.
  assert (slen (Digest st +:+ NextForkVersion st +:+ le_put 8 (NextForkEpoch st)) = 16) as ->
    by (unfold slen; rewrite !length_sapp, length_le_put; lia).
  cbn [Z.ltb Z.compare Pos.compare Pos.compare_cont].
  rewrite (stake_app 4), !(sdrop_app 4 (Digest st)) by done. rewrite (stake_app 4) by done.
  rewrite sapp_assoc, (sdrop_app 8) by (rewrite length_sapp; lia).
  replace (stake 8 (le_put 8 (NextForkEpoch st))) with (le_put 8 (NextForkEpoch st)).
  - rewrite le_get_put. f_equal. apply Z.mod_small. unfold max_uint64 in He. lia.
  - rewrite <- (sapp_nil_r (le_put 8 (NextForkEpoch st))) at 2. by rewrite stake_app by apply length_le_put.
Qed.

(** A published "failed" can come before the third failure: while a third probe is
    in flight the row already says "failed", but counts two attempts, and a restart
    from that row is back to "pending". *)
Theorem fpStatus_counts_in_flight n :
  n_fpDone n = false -> fingerprintable n = true -> n_fpInFlight n = true -> n_fpAttempts n = fpFailedAfter ->
  r_FPStatus (row n) = "failed" /\ r_FPAttempts (row n) = fpFailedAfter - 1.
Proof.
  intros Hd Hp Hf Ha. cbn [row r_FPStatus r_FPAttempts]. unfold fpStatus, completedAttempts. rewrite Hd, Hp, Hf, Ha. done.
Qed.
End Restore.

(** A set with one published node, and the schedule of a consensus network. *)
Section Demo.

Definition demoPublished : Node :=
  (demoNode 3 4 "mainnet") <| n_FirstSeen := 63900000000 * Second |> <| n_LastSeen := 63900000000 * Second |>
    <| n_LastCheck := 63900000000 * Second |> <| n_LastResolved := 63900000000 * Second |>.


Lemma fpStatus_counts_in_flight_witness :
  let n := (demoNode 3 4 "mainnet") <| n_fpInFlight := true |> <| n_fpAttempts := 3 |> in
  r_FPStatus (row n) = "failed" /\ r_FPAttempts (row n) = 2.
Proof. intros n. apply (fpStatus_counts_in_flight n); reflexivity. Defined.

Lemma clForkSchedule_roundtrip_witness :
  let st := MkCLForkState (of_bytes [1; 2; 3; 4]) "" (of_bytes [5; 0; 0; 0]) 269568 "" 0 in
  clForkSchedule (ENRForkID st) = MkSchedule "01020304" "05000000" 269568.
Proof.
  intros st. rewrite (clForkSchedule_roundtrip st); [reflexivity|reflexivity|reflexivity|].
  vm_compute. split; discriminate.
Defined.
End Demo.
