(* ===== verification/Expiring.v ===== *)
(** [cmd/crawler/pending_fingerprints.go]: the bounded map whose entries expire.

    The source keeps a map and a heap of expiry items beside it; removed entries
    leave their item behind, to be skipped later.  The theorems show that this is
    a plain map that forgets exactly its expired entries. *)

From stdpp Require Import base gmap sets strings list numbers sorting.
From Stdlib Require Import ZArith Lia.
From S2P Require Import Prelude GoLib Heap.

(** * Data *)

Record pendingExpiry := MkExpiry { pe_id : string; pe_at : Time; pe_seq : Z }.

(** [pendingExpiryHeap.Less]. *)
Definition expiryLess (a b : pendingExpiry) : bool := Before (pe_at a) (pe_at b).

Record expiringEntry (V : Type) := MkEntry { ee_value : V; ee_at : Time; ee_seq : Z }.
Arguments MkEntry {V}.
Arguments ee_value {V}.
Arguments ee_at {V}.
Arguments ee_seq {V}.

Record expiringMap (V : Type) := MkExpiring {
  x_entries : gmap string (expiringEntry V); x_ttl : Duration; x_max : Z; x_seq : Z; x_expiry : list pendingExpiry }.
Arguments MkExpiring {V}.
Arguments x_entries {V}.
Arguments x_ttl {V}.
Arguments x_max {V}.
Arguments x_seq {V}.
Arguments x_expiry {V}.

Section Expiring.
Context {V : Type} (zero : V).

#[local] Instance eta_expiringMap : Eta (expiringMap V) := fun p => MkExpiring (x_entries p) (x_ttl p) (x_max p) (x_seq p) (x_expiry p).
#[local] Instance upd_x_entries : Upd (@x_entries V). Proof using Type. derive_upd. Defined.
#[local] Instance upd_x_seq : Upd (@x_seq V). Proof using Type. derive_upd. Defined.
#[local] Instance upd_x_expiry : Upd (@x_expiry V). Proof using Type. derive_upd. Defined.

Definition newExpiringMap (ttl : Duration) (max_ : Z) : expiringMap V := MkExpiring ∅ ttl max_ 0 [].

Definition x_len (p : expiringMap V) : Z := Z.of_nat (size (x_entries p)).

(** * Operations *)

(** Removes the entry an expiry item was made for, if it is still the one held. *)
Definition dropItem (p : expiringMap V) (item : pendingExpiry) : option (expiringMap V) :=
  match x_entries p !! pe_id item with
  | Some entry => if ee_seq entry =? pe_seq item then Some (p <| x_entries := delete (pe_id item) (x_entries p) |>) else None
  | None => None
  end.

(** The loop of [prune]; its fuel is the length of the heap it empties. *)
Fixpoint prune_loop (fuel : nat) (p : expiringMap V) (now : Time) : expiringMap V :=
  match fuel with
  | O => p
  | S fuel' =>
      match x_expiry p with
      | [] => p
      | top :: _ =>
          if After (Add (pe_at top) (x_ttl p)) now then p
          else match heap_Pop expiryLess (x_expiry p) with
               | None => p
               | Some (item, rest) =>
                   let p := p <| x_expiry := rest |> in
                   prune_loop fuel' (default p (dropItem p item)) now
               end
      end
  end.

Definition prune (p : expiringMap V) (now : Time) : expiringMap V := prune_loop (length (x_expiry p)) p now.

Fixpoint evict_loop (fuel : nat) (p : expiringMap V) : expiringMap V :=
  match fuel with
  | O => p
  | S fuel' =>
      match heap_Pop expiryLess (x_expiry p) with
      | None => p
      | Some (item, rest) =>
          let p := p <| x_expiry := rest |> in
          match dropItem p item with Some p' => p' | None => evict_loop fuel' p end
      end
  end.

Definition evictOldest (p : expiringMap V) : expiringMap V := evict_loop (length (x_expiry p)) p.

(** Go ranges over the entries in random order; the heap is rebuilt whatever it is. *)
Definition compact (p : expiringMap V) : expiringMap V :=
  p <| x_expiry := heap_Init expiryLess (map (fun kv => MkExpiry kv.1 (ee_at kv.2) (ee_seq kv.2)) (map_to_list (x_entries p))) |>.

(** The map after making room for [id]. *)
Definition roomFor (p : expiringMap V) (id : string) : expiringMap V :=
  match x_entries p !! id with None => if x_max p <=? x_len p then evictOldest p else p | Some _ => p end.

(** The entry and its expiry item, under the next sequence number. *)
Definition store (p : expiringMap V) (id : string) (value : V) (now : Time) (seq : Z) : expiringMap V :=
  p <| x_seq := seq |> <| x_entries := <[id := MkEntry value now seq]> (x_entries p) |>
    <| x_expiry := heap_Push expiryLess (x_expiry p) (MkExpiry id now seq) |>.

Definition putLocked (p : expiringMap V) (id : string) (value : V) (now : Time) : expiringMap V :=
  let p := roomFor p id in
  let p := store p id value now (wrapU64 (x_seq p + 1)) in
  if wrapI64 (2 * x_max p) <? Z.of_nat (length (x_expiry p)) then compact p else p.

Definition Put (p : expiringMap V) (id : string) (value : V) (now : Time) : expiringMap V := putLocked (prune p now) id value now.

Definition Allow (p : expiringMap V) (id : string) (now : Time) : expiringMap V * bool :=
  let p := prune p now in
  match x_entries p !! id with Some _ => (p, false) | None => (putLocked p id zero now, true) end.

Definition Take (p : expiringMap V) (id : string) (now : Time) : expiringMap V * V * bool :=
  let p := prune p now in
  match x_entries p !! id with
  | Some entry => (p <| x_entries := delete id (x_entries p) |>, ee_value entry, true)
  | None => (p, zero, false)
  end.

Definition TakeIf (p : expiringMap V) (id : string) (now : Time) (accept : V -> bool) : expiringMap V * V * bool :=
  let p := prune p now in
  match x_entries p !! id with
  | Some entry => if accept (ee_value entry) then (p <| x_entries := delete id (x_entries p) |>, ee_value entry, true) else (p, zero, false)
  | None => (p, zero, false)
  end.

(** The loop of [Drain]: the accepted entries with their values, which its
    callback sees; the random order of Go's iteration is the map's own here. *)
Definition drainEntries (p : expiringMap V) (now : Time) (accept : string -> V -> bool) : expiringMap V * list (string * V) :=
  let p := prune p now in
  foldl (fun '(p, out) (kv : string * expiringEntry V) =>
    if accept kv.1 (ee_value kv.2) then (p <| x_entries := delete kv.1 (x_entries p) |>, out ++ [(kv.1, ee_value kv.2)]) else (p, out))
    (p, []) (map_to_list (x_entries p)).

Definition Drain (p : expiringMap V) (now : Time) (accept : string -> V -> bool) : expiringMap V * list string :=
  let (p, out) := drainEntries p now accept in (p, map fst out).

(** * The invariant *)

Lemma expiryLess_asym a b : expiryLess a b = true -> expiryLess b a = false.
Proof. unfold expiryLess, Before. intros. boolify. lia. Qed.
Lemma expiryLess_ntrans x y z : expiryLess y x = false -> expiryLess z y = false -> expiryLess z x = false.
Proof. unfold expiryLess, Before. intros. boolify. lia. Qed.

(** The expiry item of an entry. *)
Definition itemOf (id : string) (e : expiringEntry V) : pendingExpiry := MkExpiry id (ee_at e) (ee_seq e).

(** Every entry has its item in a heap ordered by time; an item bears the sequence
    number of at most that one entry, and none is ahead of the counter. *)
Record Expiring_ok (p : expiringMap V) : Prop := {
  xo_heap : heap_ok expiryLess (x_expiry p);
  xo_items : forall id e, x_entries p !! id = Some e -> itemOf id e ∈ x_expiry p;
  xo_match : forall item e, item ∈ x_expiry p -> x_entries p !! pe_id item = Some e -> ee_seq e = pe_seq item -> ee_at e = pe_at item;
  xo_seq : forall item, item ∈ x_expiry p -> pe_seq item <= x_seq p;
  xo_count : 0 <= x_seq p }.

(** Losing entries but no items keeps it. *)
Lemma Expiring_ok_subset p m :
  Expiring_ok p -> m ⊆ x_entries p -> Expiring_ok (p <| x_entries := m |>).
Proof.
  intros [Hh Hi Hm Hs Hc] Hsub. rewrite map_subseteq_spec in Hsub. split; upd_simpl.
  - done.
  - intros id e He. by apply Hi, Hsub.
  - intros item e Hin He. by apply Hm, Hsub.
  - done.
  - done.
Qed.

(** Popping an item no entry answers for. *)
Lemma pop_ok p item rest :
  Expiring_ok p -> heap_Pop expiryLess (x_expiry p) = Some (item, rest) ->
  x_expiry p ≡ₚ item :: rest /\ (forall other, other ∈ x_expiry p -> pe_at item <= pe_at other) /\
  let p' := p <| x_expiry := rest |> in
  match dropItem p' item with
  | Some p'' => exists e, x_entries p !! pe_id item = Some e /\ ee_at e = pe_at item /\ Expiring_ok p'' /\
      x_entries p'' = delete (pe_id item) (x_entries p) /\ x_expiry p'' = rest /\ x_ttl p'' = x_ttl p /\ x_max p'' = x_max p /\ x_seq p'' = x_seq p
  | None => Expiring_ok p'
  end.
Proof.
  intros [Hh Hi Hm Hs Hc] Hpop.
  pose proof (heap_Pop_spec expiryLess expiryLess_asym expiryLess_ntrans (x_expiry p) Hh) as H. rewrite Hpop in H.
  destruct H as (Hroot & Hperm & Hok). split; [done|]. split.
  { intros other Ho. apply list_elem_of_lookup in Ho as [k Hk].
    pose proof (heap_root expiryLess expiryLess_asym expiryLess_ntrans _ _ _ k Hh Hroot Hk) as Hle.
    unfold expiryLess, Before in Hle. boolify. lia. }
  assert (forall q, q ∈ rest -> q ∈ x_expiry p) as Hrest by (intros q Hq; rewrite Hperm; by right).
  assert (item ∈ x_expiry p) as Hitem by (rewrite Hperm; left).
  cbv zeta. unfold dropItem. upd_simpl. destruct (x_entries p !! pe_id item) as [e|] eqn:E.
  - destruct (ee_seq e =? pe_seq item) eqn:Es; boolify.
    + exists e. split; [done|]. split; [by apply (Hm item)|]. upd_simpl. split; [|done]. split; upd_simpl.
      * done.
      * intros id e' He'. destruct (decide (id = pe_id item)) as [->|Hne]; [by rewrite lookup_delete_eq in He'|].
        rewrite lookup_delete_ne in He' by done. specialize (Hi id e' He'). rewrite Hperm in Hi.
        apply elem_of_cons in Hi as [Heq|]; [|done]. exfalso. apply Hne. by rewrite <- Heq.
      * intros q e' Hq He'. apply Hm; [by apply Hrest|]. by apply lookup_delete_Some in He' as [_ ?].
      * intros q Hq. by apply Hs, Hrest.
      * done.
    + split; upd_simpl; [done| |auto|auto|done]. intros id e' He'. specialize (Hi id e' He') as Hin. rewrite Hperm in Hin.
      apply elem_of_cons in Hin as [Heq|]; [|done]. exfalso. subst item. cbn [pe_id pe_seq itemOf] in *. congruence.
  - split; upd_simpl; [done| |auto|auto|done]. intros id e' He'. specialize (Hi id e' He') as Hin. rewrite Hperm in Hin.
    apply elem_of_cons in Hin as [Heq|]; [|done]. exfalso. subst item. cbn [pe_id itemOf] in *. congruence.
Qed.

Lemma pop_none p : Expiring_ok p -> heap_Pop expiryLess (x_expiry p) = None -> x_expiry p = [].
Proof.
  intros Hok Epop. pose proof (heap_Pop_spec expiryLess expiryLess_asym expiryLess_ntrans (x_expiry p) (xo_heap p Hok)) as H.
  by rewrite Epop in H.
Qed.

(** The settings no operation changes. *)
Definition same_settings (p q : expiringMap V) : Prop := x_ttl q = x_ttl p /\ x_max q = x_max p /\ x_seq q = x_seq p.

(** * What the heap computes *)

Definition unexpired (ttl : Duration) (now : Time) (kv : string * expiringEntry V) : Prop := now < ee_at kv.2 + ttl.
#[local] Instance unexpired_dec ttl now kv : Decision (unexpired ttl now kv) := Z_lt_dec _ _.

Lemma prune_loop_spec fuel p now :
  (length (x_expiry p) <= fuel)%nat -> Expiring_ok p ->
  let q := prune_loop fuel p now in
  Expiring_ok q /\ same_settings p q /\ x_entries q = filter (unexpired (x_ttl p) now) (x_entries p) /\
  (length (x_expiry q) <= length (x_expiry p))%nat.
Proof.
  revert p. induction fuel as [|fuel IH]; intros p Hf Hok; cbn [prune_loop]; cbv zeta.
  { assert (x_expiry p = []) as He by (destruct (x_expiry p); [done|simpl in Hf; lia]).
    split_and!; [done|done| |done]. symmetry. apply map_filter_id. intros id e Hid.
    apply (xo_items p Hok) in Hid. rewrite He in Hid. by apply elem_of_nil in Hid. }
  destruct (x_expiry p) as [|top tl] eqn:Ee.
  { split_and!; [done|done| |by rewrite Ee]. symmetry. apply map_filter_id. intros id e Hid.
    apply (xo_items p Hok) in Hid. rewrite Ee in Hid. by apply elem_of_nil in Hid. }
  unfold After, Add. destruct (Z.ltb_spec now (pe_at top + x_ttl p)) as [Hlive|Hdead].
  { split_and!; [done|done| |by rewrite Ee]. symmetry. apply map_filter_id. intros id e Hid.
    apply (xo_items p Hok) in Hid. rewrite Ee in Hid. apply list_elem_of_lookup in Hid as [k Hk].
    assert (heap_ok expiryLess (top :: tl)) as Hh by (rewrite <- Ee; apply Hok).
    pose proof (heap_root expiryLess expiryLess_asym expiryLess_ntrans (top :: tl) top (itemOf id e) k Hh eq_refl Hk) as Hle.
    unfold expiryLess, Before in Hle. cbn [pe_at itemOf] in Hle. boolify. unfold unexpired. cbn [snd]. lia. }
  rewrite <- Ee in Hf |- *. destruct (heap_Pop expiryLess (x_expiry p)) as [[item rest]|] eqn:Epop.
  2: { pose proof (pop_none p Hok Epop) as H. by rewrite Ee in H. }
  destruct (pop_ok p item rest Hok Epop) as (Hperm & Hmin & Hdrop).
  assert (pe_at item + x_ttl p <= now) as Hitem.
  { specialize (Hmin top). rewrite Ee in Hmin. specialize (Hmin ltac:(left)). lia. }
  assert (length (x_expiry p) = S (length rest)) as Hlen by (by rewrite Hperm). cbv zeta in Hdrop.
  destruct (dropItem _ item) as [p'|]; cbn [from_option id].
  - destruct Hdrop as (e & He & Hat & Hok' & Hent & Hexp & Ht & Hm & Hs).
    destruct (IH p') as (Hq & (Hqt & Hqm & Hqs) & Hqe & Hql); [rewrite Hexp; lia|done|].
    split_and!; [done|unfold same_settings; split_and!; congruence| |rewrite Hexp in Hql; lia].
    rewrite Hqe, Ht, Hent. rewrite map_filter_delete. apply delete_id. apply map_lookup_filter_None. right.
    intros e' He' Hun. unfold unexpired in Hun. cbn [snd] in Hun. assert (e' = e) as -> by congruence. lia.
  - destruct (IH (p <| x_expiry := rest |>)) as (Hq & (Hqt & Hqm & Hqs) & Hqe & Hql); [upd_simpl; lia|done|].
    upd_simpl_in Hqt. upd_simpl_in Hqm. upd_simpl_in Hqs. upd_simpl_in Hqe. upd_simpl_in Hql.
    split_and!; [done|done|done|lia].
Qed.

Lemma prune_spec p now :
  Expiring_ok p ->
  let q := prune p now in
  Expiring_ok q /\ same_settings p q /\ x_entries q = filter (unexpired (x_ttl p) now) (x_entries p) /\
  (length (x_expiry q) <= length (x_expiry p))%nat.
Proof. intros Hok. by apply prune_loop_spec. Qed.

(** The victim of a full map is an oldest entry. *)
Lemma evict_loop_spec fuel p :
  (length (x_expiry p) <= fuel)%nat -> Expiring_ok p -> x_entries p <> ∅ ->
  let q := evict_loop fuel p in
  Expiring_ok q /\ same_settings p q /\ (length (x_expiry q) <= length (x_expiry p))%nat /\
  exists id e, x_entries p !! id = Some e /\ x_entries q = delete id (x_entries p) /\
    forall id' e', x_entries p !! id' = Some e' -> ee_at e <= ee_at e'.
Proof.
  revert p. induction fuel as [|fuel IH]; intros p Hf Hok Hne; cbn [evict_loop]; cbv zeta.
  { exfalso. apply Hne, map_empty. intros id. destruct (x_entries p !! id) as [e|] eqn:E; [|done].
    apply (xo_items p Hok) in E. destruct (x_expiry p); [by apply elem_of_nil in E|simpl in Hf; lia]. }
  destruct (heap_Pop expiryLess (x_expiry p)) as [[item rest]|] eqn:Epop.
  2: { exfalso. apply Hne, map_empty. intros id. destruct (x_entries p !! id) as [e|] eqn:E; [|done].
       apply (xo_items p Hok) in E. rewrite (pop_none p Hok Epop) in E. by apply elem_of_nil in E. }
  destruct (pop_ok p item rest Hok Epop) as (Hperm & Hmin & Hdrop).
  assert (length (x_expiry p) = S (length rest)) as Hlen by (by rewrite Hperm). cbv zeta in Hdrop.
  destruct (dropItem _ item) as [p'|].
  - destruct Hdrop as (e & He & Hat & Hok' & Hent & Hexp & Ht & Hm & Hs).
    split_and!; [done|done|rewrite Hexp; lia|]. exists (pe_id item), e. split_and!; [done|done|].
    intros id' e' He'. apply (xo_items p Hok) in He'. specialize (Hmin _ He'). cbn [pe_at itemOf] in Hmin. lia.
  - destruct (IH (p <| x_expiry := rest |>)) as (Hq & (Hqt & Hqm & Hqs) & Hql & id & e & He & Hqe & Hold);
      [upd_simpl; lia|done|by upd_simpl|].
    upd_simpl_in Hqt. upd_simpl_in Hqm. upd_simpl_in Hqs. upd_simpl_in Hql. upd_simpl_in He. upd_simpl_in Hqe.
    split_and!; [done|done|lia|]. exists id, e. split_and!; [done|done|]. intros id' e' He'. apply (Hold id'). by upd_simpl.
Qed.

Lemma compact_ok p :
  Expiring_ok p -> Expiring_ok (compact p) /\ Z.of_nat (length (x_expiry (compact p))) = x_len p /\
  x_entries (compact p) = x_entries p /\ same_settings p (compact p).
Proof.
  intros Hok. unfold compact, same_settings, x_len.
  set (items := map (fun kv => MkExpiry kv.1 (ee_at kv.2) (ee_seq kv.2)) (map_to_list (x_entries p))).
  destruct (heap_Init_spec expiryLess expiryLess_asym expiryLess_ntrans items) as [Hperm Hheap]. upd_simpl.
  assert (forall q, q ∈ heap_Init expiryLess items <-> exists id e, x_entries p !! id = Some e /\ q = itemOf id e) as Hin.
  { intros q. rewrite Hperm. subst items. rewrite list_elem_of_fmap. split.
    - intros ([id e] & -> & Hkv). apply elem_of_map_to_list in Hkv. by exists id, e.
    - intros (id & e & He & ->). exists (id, e). split; [done|]. by apply elem_of_map_to_list. }
  split_and!; [|rewrite Hperm; subst items; rewrite length_fmap, length_map_to_list; done|done..]. split; upd_simpl.
  - done.
  - intros id e He. apply Hin. by exists id, e.
  - intros item e Hi He Hs. apply Hin in Hi as (id & e' & He' & ->). cbn [pe_id itemOf] in He. by assert (e = e') as -> by congruence.
  - intros item Hi. apply Hin in Hi as (id & e' & He' & ->). apply (xo_items p Hok) in He'. apply (xo_seq p Hok) in He'. done.
  - apply Hok.
Qed.

(** Storing a fresh entry. *)
Lemma heapInsert_ok p id v now :
  Expiring_ok p ->
  Expiring_ok (store p id v now (x_seq p + 1)).
Proof.
  unfold store.
  intros [Hh Hi Hm Hs Hc]. assert (forall q, q ∈ heap_Push expiryLess (x_expiry p) (MkExpiry id now (x_seq p + 1)) <->
    q = MkExpiry id now (x_seq p + 1) \/ q ∈ x_expiry p) as Hin by (intros q; rewrite heap_Push_perm; apply elem_of_cons).
  split; upd_simpl.
  - apply heap_Push_ok; [apply expiryLess_asym|apply expiryLess_ntrans|done].
  - intros id' e He. apply Hin. destruct (decide (id' = id)) as [->|Hne].
    + rewrite lookup_insert_eq in He. injection He as <-. by left.
    + rewrite lookup_insert_ne in He by done. right. by apply Hi.
  - intros item e Hq He Heq. apply Hin in Hq as [->|Hq].
    + cbn [pe_id] in He. rewrite lookup_insert_eq in He. by injection He as <-.
    + destruct (decide (pe_id item = id)) as [Hid|Hne].
      * rewrite Hid, lookup_insert_eq in He. injection He as <-. cbn [ee_seq] in Heq. specialize (Hs _ Hq). lia.
      * rewrite lookup_insert_ne in He by done. by apply (Hm item).
  - intros item Hq. apply Hin in Hq as [->|Hq]; cbn [pe_seq]; [lia|]. specialize (Hs _ Hq). lia.
  - lia.
Qed.

(** * Refinement *)

(** What the map means: a value and the time it was put, per identity. *)
Definition view (p : expiringMap V) : gmap string (V * Time) := (fun e => (ee_value e, ee_at e)) <$> x_entries p.

(** The abstract map: what is still alive at [now]. *)
Definition alive (ttl : Duration) (now : Time) (m : gmap string (V * Time)) : gmap string (V * Time) :=
  filter (fun kv => (now <? kv.2.2 + ttl) = true) m.

(** Storing in the abstract map: expired entries go first; a new identity displaces
    an oldest entry when the rest fill the map. *)
Inductive put_spec (max_ : Z) (id : string) (v : V) (now : Time) (m : gmap string (V * Time)) : gmap string (V * Time) -> Prop :=
| put_room : is_Some (m !! id) \/ Z.of_nat (size m) < max_ -> put_spec max_ id v now m (<[id := (v, now)]> m)
| put_full old w :
    m !! id = None -> max_ <= Z.of_nat (size m) -> m !! old = Some w ->
    (forall k w', m !! k = Some w' -> w.2 <= w'.2) -> put_spec max_ id v now m (<[id := (v, now)]> (delete old m)).

(** A reachable map within its bound, whose counter has not run out. *)
Definition Bounded (p : expiringMap V) : Prop :=
  Expiring_ok p /\ 0 < x_max p <= 2 ^ 61 /\ x_len p <= x_max p /\ Z.of_nat (length (x_expiry p)) <= 2 * x_max p.

Lemma view_prune p now : Expiring_ok p -> view (prune p now) = alive (x_ttl p) now (view p).
Proof.
  intros Hok. destruct (prune_spec p now Hok) as (_ & _ & He & _). unfold view, alive. rewrite He.
  apply map_eq. intros id. apply option_eq. intros w. rewrite map_lookup_filter_Some, !lookup_fmap_Some. split.
  - intros (e & <- & Hf). apply map_lookup_filter_Some in Hf as [Hf Hu]. split; [by exists e|].
    unfold unexpired in Hu. cbn [snd] in *. boolify. lia.
  - intros ((e & <- & Hf) & Hu). exists e. split; [done|]. apply map_lookup_filter_Some. split; [done|].
    unfold unexpired. cbn [snd] in *. boolify. lia.
Qed.

Lemma prune_bounded p now : Bounded p -> Bounded (prune p now) /\ same_settings p (prune p now).
Proof.
  intros (Hok & Hm & Hl & Hx). destruct (prune_spec p now Hok) as (Hok' & (Ht & Hmx & Hs) & He & Hlen).
  unfold Bounded, x_len in *. split; [|done]. rewrite Hmx, He. split_and!; [done|lia|lia| |lia].
  assert (size (filter (unexpired (x_ttl p) now) (x_entries p)) <= size (x_entries p))%nat; [|lia].
  apply map_subseteq_size, map_filter_subseteq.
Qed.

Lemma size_view p : size (view p) = size (x_entries p).
Proof. apply map_size_fmap. Qed.

Lemma roomFor_spec p id v now :
  Bounded p ->
  let q := roomFor p id in
  Expiring_ok q /\ same_settings p q /\ (length (x_expiry q) <= length (x_expiry p))%nat /\
  (is_Some (x_entries q !! id) /\ x_len q <= x_max p \/ x_len q < x_max p) /\
  put_spec (x_max p) id v now (view p) (<[id := (v, now)]> (view q)).
Proof.
  intros (Hok & Hm & Hl & _). unfold roomFor. cbv zeta. destruct (x_entries p !! id) as [e|] eqn:E.
  { split_and!; [done|done|done|left; by split|]. apply put_room. left. unfold view. rewrite lookup_fmap, E. by eexists. }
  destruct (x_max p <=? x_len p) eqn:Efull; boolify.
  2: { split_and!; [done|done|done|by right|]. apply put_room. right. rewrite size_view. exact Efull. }
  assert (x_entries p <> ∅) as Hne by (intros He; unfold x_len in *; rewrite He, map_size_empty in Efull; lia).
  destruct (evict_loop_spec (length (x_expiry p)) p ltac:(lia) Hok Hne) as (Hok' & Hset & Hlen & old & w & Hw & Hent & Hold).
  fold (evictOldest p) in *. split_and!; [done|done|done| |].
  - right. unfold x_len in *. rewrite Hent. pose proof (gmap_size_delete _ _ _ Hw). lia.
  - assert (view (evictOldest p) = delete old (view p)) as -> by (unfold view; by rewrite Hent, fmap_delete).
    apply (put_full _ _ _ _ _ old (ee_value w, ee_at w)).
    + unfold view. by rewrite lookup_fmap, E.
    + rewrite size_view. exact Efull.
    + unfold view. by rewrite lookup_fmap, Hw.
    + intros k w' Hk. unfold view in Hk. apply lookup_fmap_Some in Hk as (e' & <- & He'). cbn [snd]. by apply (Hold k).
Qed.

Lemma putLocked_spec p id v now :
  Bounded p -> x_seq p < max_uint64 ->
  let q := putLocked p id v now in
  Bounded q /\ x_ttl q = x_ttl p /\ x_max q = x_max p /\ x_seq q = x_seq p + 1 /\ put_spec (x_max p) id v now (view p) (view q).
Proof.
  intros Hb Hseq. destruct (roomFor_spec p id v now Hb) as (Hok & (Ht & Hm & Hs) & Hlen & Hroom & Hput).
  destruct Hb as (_ & Hmx & Hl & Hx). unfold putLocked. set (r := roomFor p id) in *. cbv zeta.
  rewrite (wrapU64_id (x_seq r + 1)) by (pose proof (xo_count _ Hok); lia).
  pose proof (heapInsert_ok r id v now Hok) as Hins. set (q := store r id v now (x_seq r + 1)) in *.
  assert (x_entries q = <[id := MkEntry v now (x_seq r + 1)]> (x_entries r)) as Hqe by (unfold q, store; by upd_simpl).
  assert (view q = <[id := (v, now)]> (view r)) as Hv by (unfold view; rewrite Hqe, fmap_insert; done).
  assert (x_ttl q = x_ttl p /\ x_max q = x_max p /\ x_seq q = x_seq p + 1) as (Hqt & Hqm & Hqs)
    by (unfold q, store; upd_simpl; split_and!; congruence).
  assert (x_len q <= x_max p) as Hql.
  { unfold x_len in *. rewrite Hqe. destruct (x_entries r !! id) as [e|] eqn:E.
    - rewrite map_size_insert_Some by eauto. destruct Hroom as [[_ ?]|?]; lia.
    - rewrite map_size_insert_None by done. destruct Hroom as [[[? ?] _]|?]; [done|lia]. }
  rewrite Hqm, wrapI64_id by (unfold min_int64, max_int64; lia).
  destruct (2 * x_max p <? _) eqn:Ec; boolify.
  - destruct (compact_ok q Hins) as (Hcok & Hcl & Hce & (Hct & Hcm & Hcs)). unfold Bounded.
    assert (x_len (compact q) = x_len q) as Hcx by (unfold x_len; by rewrite Hce).
    rewrite Hcm, Hqm, Hcx, Hcl. unfold view. rewrite Hce. fold (view q). rewrite Hv.
    split_and!; [done|lia|lia|lia|lia|congruence|done|congruence|done].
  - unfold Bounded. rewrite Hqm, Hv. split_and!; [done|lia|lia|lia|lia|done|done|done|done].
Qed.

(** ** Properties *)

(** [Put] refines the abstract map: whatever the heap holds, the entries
    afterwards are the unexpired ones with [id] stored at [now], and a full map
    gives up an oldest entry and nothing else; the heap stays within its bound. *)
Theorem Put_refines p id v now :
  Bounded p -> x_seq p < max_uint64 ->
  let q := Put p id v now in
  Bounded q /\ put_spec (x_max p) id v now (alive (x_ttl p) now (view p)) (view q).
Proof.
  intros Hb Hs. destruct (prune_bounded p now Hb) as [Hb' (Ht & Hm & Hq)].
  destruct (putLocked_spec (prune p now) id v now Hb' ltac:(lia)) as (Hbq & _ & _ & _ & Hput).
  unfold Put. split; [done|]. rewrite Hm, view_prune in Hput; [done|apply Hb].
Qed.

(** [Allow] is a rate limit: it grants exactly when no live reservation is
    held, and after a grant the same identity is refused until its time to live
    has passed. *)
Theorem Allow_limits p id now :
  Bounded p -> x_seq p < max_uint64 ->
  let (q, granted) := Allow p id now in
  Bounded q /\ (granted = true <-> alive (x_ttl p) now (view p) !! id = None) /\
  (granted = true -> forall later, now <= later < now + x_ttl p -> snd (Allow q id later) = false).
Proof.
  intros Hb Hs. destruct (prune_bounded p now Hb) as [Hb' (Ht & Hm & Hq)]. unfold Allow.
  assert (alive (x_ttl p) now (view p) !! id = None <-> x_entries (prune p now) !! id = None) as Hfree
    by (rewrite <- view_prune by apply Hb; unfold view; rewrite lookup_fmap; apply fmap_None).
  destruct (x_entries (prune p now) !! id) as [e|] eqn:E.
  { split_and!; [done| |done]. rewrite Hfree. done. }
  destruct (putLocked_spec (prune p now) id zero now Hb' ltac:(lia)) as (Hbq & Htq & _ & _ & Hput).
  split_and!; [done|by rewrite Hfree|]. intros _ later Hlater.
  assert (view (putLocked (prune p now) id zero now) !! id = Some (zero, now)) as Hv
    by (destruct Hput; apply lookup_insert_eq).
  assert (view (prune (putLocked (prune p now) id zero now) later) !! id = Some (zero, now)) as Hv'.
  { rewrite view_prune by apply Hbq. apply map_lookup_filter_Some. split; [done|]. cbn [snd]. apply Z.ltb_lt. rewrite Htq, Ht. lia. }
  unfold view in Hv'. apply lookup_fmap_Some in Hv' as (e & _ & He). by rewrite He.
Qed.

(** Removing an entry leaves the rest of a bounded map as it is. *)
Lemma remove_bounded p id : Bounded p -> Bounded (p <| x_entries := delete id (x_entries p) |>).
Proof.
  intros (Hok & Hm & Hl & Hx). unfold Bounded, x_len in *. upd_simpl.
  assert (size (delete id (x_entries p)) <= size (x_entries p))%nat by apply map_subseteq_size, delete_subseteq.
  split_and!; [|lia..]. apply Expiring_ok_subset; [done|apply delete_subseteq].
Qed.

Lemma newExpiringMap_bounded ttl max_ : 0 < max_ <= 2 ^ 61 -> Bounded (newExpiringMap ttl max_).
Proof.
  intros Hm. unfold Bounded, newExpiringMap, x_len. cbn [x_max x_entries x_expiry x_seq]. rewrite map_size_empty.
  split_and!; [|lia|lia|lia|simpl; lia]. split; cbn [x_max x_entries x_expiry x_seq].
  - intros k Hk x y Hx. by rewrite lookup_nil in Hx.
  - intros id e He. by rewrite lookup_empty in He.
  - intros item e Hi. by apply elem_of_nil in Hi.
  - intros item Hi. by apply elem_of_nil in Hi.
  - done.
Qed.

Lemma TakeIf_spec p id now accept :
  Bounded p ->
  match TakeIf p id now accept with
  | (q, v, true) => Bounded q /\ accept v = true /\ exists at_, alive (x_ttl p) now (view p) !! id = Some (v, at_) /\
      view q = delete id (alive (x_ttl p) now (view p))
  | (q, _, false) => Bounded q /\ view q = alive (x_ttl p) now (view p) /\
      forall v at_, view q !! id = Some (v, at_) -> accept v = false
  end.
Proof.
  intros Hb. destruct (prune_bounded p now Hb) as [Hb' _]. rewrite <- view_prune by apply Hb. unfold TakeIf.
  destruct (x_entries (prune p now) !! id) as [e|] eqn:E.
  - destruct (accept (ee_value e)) eqn:Ea.
    + split; [by apply remove_bounded|]. split; [done|]. exists (ee_at e). split.
      * unfold view. by rewrite lookup_fmap, E.
      * unfold view. upd_simpl. by rewrite fmap_delete.
    + split_and!; [done|done|]. intros v at_ Hv. unfold view in Hv. rewrite lookup_fmap, E in Hv. by injection Hv as <- _.
  - split_and!; [done|done|]. intros v at_ Hv. unfold view in Hv. by rewrite lookup_fmap, E in Hv.
Qed.
End Expiring.

(** * Pending fingerprints *)

Section Pending.
Context {F : Type} (noF : F).

Record pendingFingerprint := MkPendingFp { pf_layer : string; pf_value : F }.
Record identifiedFingerprint := MkIdentified { if_id : string; if_layer : string; if_value : F }.

(** [enode.ID{}]. *)
Definition zeroID : string := of_bytes (repeat 0 32).

Definition fp_Put (p : expiringMap pendingFingerprint) (id layer : string) (value : F) (now : Time) : expiringMap pendingFingerprint :=
  if (id =? zeroID)%string then p else Put p id (MkPendingFp layer value) now.

Definition fp_Take (p : expiringMap pendingFingerprint) (id layer : string) (now : Time)
  : expiringMap pendingFingerprint * F * bool :=
  let '(p, entry, ok) := TakeIf (MkPendingFp "" noF) p id now (fun entry => (pf_layer entry =? layer)%string) in (p, pf_value entry, ok).

Definition fp_DrainKnown (p : expiringMap pendingFingerprint) (now : Time) (layerOf : string -> string)
  : expiringMap pendingFingerprint * list identifiedFingerprint :=
  let (p, out) := drainEntries p now (fun id entry => (layerOf id =? pf_layer entry)%string) in
  (p, map (fun kv => MkIdentified kv.1 (pf_layer kv.2) (pf_value kv.2)) out).

(** A passive identification is delivered at most once, before it expires,
    and only for the layer it was made on; a request for the other layer leaves
    it in place. *)
Theorem fp_Take_once p id layer now :
  Bounded p ->
  match fp_Take p id layer now with
  | (q, value, true) =>
      Bounded q /\ view q !! id = None /\
      exists at_, view p !! id = Some (MkPendingFp layer value, at_) /\ now < at_ + x_ttl p
  | (q, _, false) => Bounded q /\ view q = alive (x_ttl p) now (view p)
  end.
Proof.
  intros Hb. unfold fp_Take.
  pose proof (TakeIf_spec (MkPendingFp "" noF) p id now (fun entry => (pf_layer entry =? layer)%string) Hb) as H.
  destruct (TakeIf _ _ _ _ _) as [[q entry] []]; cbv beta iota zeta in H |- *; [|by destruct H as (? & ? & _)].
  destruct H as (Hq & Hl & at_ & Hat & Hv). boolify. split; [done|]. split; [rewrite Hv; apply lookup_delete_eq|].
  apply map_lookup_filter_Some in Hat as [Hp Ht]. cbn [snd] in Ht. boolify. exists at_. split; [|done].
  rewrite Hp. by destruct entry; simpl in *; subst.
Qed.
End Pending.

(** Concrete maps: a bound of two and a time to live of ten. *)
Section Demo.

Definition demoEmpty : expiringMap Z := newExpiringMap 10 2.

Lemma Put_refines_witness :
  put_spec 2 "c" 3 8 (alive 10 8 (view (Put (Put demoEmpty "a" 1 5) "b" 2 6))) (view (Put (Put (Put demoEmpty "a" 1 5) "b" 2 6) "c" 3 8)).
Proof.
  assert (Bounded demoEmpty) as H0 by (apply newExpiringMap_bounded; lia).
  destruct (putLocked_spec (prune demoEmpty 5) "a" 1 5) as (H1 & _); [by apply prune_bounded|vm_compute; reflexivity|].
  destruct (putLocked_spec (prune (Put demoEmpty "a" 1 5) 6) "b" 2 6) as (H2 & _); [by apply prune_bounded|vm_compute; reflexivity|].
  exact (proj2 (Put_refines (Put (Put demoEmpty "a" 1 5) "b" 2 6) "c" 3 8 H2 ltac:(vm_compute; reflexivity))).
Defined.

Lemma Allow_limits_witness :
  snd (Allow 0 demoEmpty "a" 5) = true /\ snd (Allow 0 (fst (Allow 0 demoEmpty "a" 5)) "a" 14) = false.
Proof.
  pose proof (Allow_limits 0 demoEmpty "a" 5 ltac:(apply newExpiringMap_bounded; lia) ltac:(vm_compute; reflexivity)) as H.
  destruct (Allow 0 demoEmpty "a" 5) as [q granted] eqn:E. destruct H as (_ & Hg & Hl).
  assert (granted = true) as -> by (apply Hg; vm_compute; reflexivity).
  split; [reflexivity|]. apply Hl; [reflexivity|]. vm_compute. split; [discriminate|reflexivity].
Defined.

Lemma fp_Take_once_witness :
  let p := fp_Put (newExpiringMap 10 2) "node" "el" 7 5 in
  exists q, fp_Take 0 p "node" "el" 9 = (q, 7, true) /\ view q !! "node" = None.
Proof.
  intros p.
  assert (Bounded p) as Hb.
  { destruct (putLocked_spec (prune (newExpiringMap 10 2) 5) "node" (MkPendingFp (F := Z) "el" 7) 5) as (H & _);
      [apply prune_bounded, newExpiringMap_bounded; lia|vm_compute; reflexivity|exact H]. }
  pose proof (fp_Take_once 0 p "node" "el" 9 Hb) as H.
  destruct (fp_Take 0 p "node" "el" 9) as [[q v] ok] eqn:E.
  destruct ok; [|by vm_compute in E]. exists q. destruct H as (_ & Hn & _).
  split; [|exact Hn]. vm_compute in E. by injection E as <- <-.
Defined.
End Demo.
