(* ===== verification/Hll.v ===== *)
(** [internal/distinct/hll.go]: hourly HyperLogLog registers per series.

    Modelled: the slot of an identity, recording and pruning hourly buckets, the
    union over the estimation window, and the validation a restored state passes.
    The floating-point estimate and the gzip and JSON codec are not modelled. *)

From stdpp Require Import base gmap sets strings list numbers sorting.
From Stdlib Require Import ZArith Lia.
From S2P Require Import Prelude GoLib Hashes.

Definition DefaultPrecision : Z := 12.
Definition RetainedHours : Z := 169.
Definition WindowHours : Z := 168.

Record Bucket := MkBucket { b_Hour : Z; b_Registers : list Z; b_Sightings : Z }.
Record Series := MkSeries { se_Buckets : list Bucket; se_Seen : Z }.
Record State := MkState { h_Version : Z; h_Methodology : string; h_Precision : Z; h_Series : gmap string Series }.

(** [New]. *)
Definition hll_New (methodology : string) (precision : Z) : State :=
  MkState 1 methodology (if (precision <? 4) || (18 <? precision) then DefaultPrecision else precision) ∅.

(** * Slots *)

Definition wrapU8 (x : Z) : Z := x mod 256.

(** The leading-zero loop: at most 63 turns, since the argument is not zero. *)
Fixpoint rank_loop (fuel : nat) (remaining rank : Z) : Z :=
  match fuel with
  | O => rank
  | S fuel' => if Z.land remaining (Z.shiftl 1 63) =? 0 then rank_loop fuel' (wrapU64 (Z.shiftl remaining 1)) (wrapU8 (rank + 1)) else rank
  end.

(** [slot] of an already hashed identity. *)
Definition slotOf (precision h : Z) : Z * Z :=
  let index := Z.shiftr h (64 - precision) in
  let remaining := wrapU64 (Z.shiftl h precision) in
  (index, if remaining =? 0 then wrapU8 (64 - precision + 1) else rank_loop 64 remaining 1).

Definition slot (precision : Z) (identity : string) : Z * Z := slotOf precision (be_get (stake 8 (sha256 identity))).

(** * Buckets *)

Definition hourNumber (at_ : Time) : Z := godiv (Unix at_) 3600.

(** [sort.Search]: binary search for the first index in [i, j) that satisfies [f]. *)
Fixpoint search_loop (fuel : nat) (f : nat -> bool) (i j : nat) : nat :=
  match fuel with
  | O => i
  | S fuel' => if (i <? j)%nat then let h := ((i + j) / 2)%nat in if f h then search_loop fuel' f i h else search_loop fuel' f (S h) j else i
  end.
Definition sort_Search (n : nat) (f : nat -> bool) : nat := search_loop (S n) f 0 n.

Definition hourFrom (l : list Bucket) (hour : Z) (i : nat) : bool :=
  match l !! i with Some b => hour <=? b_Hour b | None => true end.

Definition pruneLocked (series : Series) (currentHour : Z) : Series :=
  let cutoff := wrapI64 (currentHour - (RetainedHours - 1)) in
  let i := sort_Search (length (se_Buckets series)) (hourFrom (se_Buckets series) cutoff) in
  if (0 <? i)%nat then MkSeries (drop i (se_Buckets series)) (se_Seen series) else series.

(** The bucket of [hour], added in order when it is new, and its position. *)
Definition placeBucket (precision : Z) (l : list Bucket) (hour : Z) : list Bucket * nat :=
  let idx := sort_Search (length l) (hourFrom l hour) in
  match l !! idx with
  | Some b => if b_Hour b =? hour then (l, idx)
              else (take idx l ++ MkBucket hour (repeat 0 (Z.to_nat (Z.shiftl 1 precision))) 0 :: drop idx l, idx)
  | None => (l ++ [MkBucket hour (repeat 0 (Z.to_nat (Z.shiftl 1 precision))) 0], idx)
  end.

Definition recordSlot (b : Bucket) (index rank : Z) : Bucket :=
  let registers := match b_Registers b !! Z.to_nat index with
                   | Some r => if r <? rank then <[Z.to_nat index := rank]> (b_Registers b) else b_Registers b
                   | None => b_Registers b
                   end in
  MkBucket (b_Hour b) registers (wrapU64 (b_Sightings b + 1)).

(** One key of [Observe]. *)
Definition observeSeries (precision index rank hour : Z) (series : Series) : Series :=
  let series := pruneLocked series hour in
  let (l, idx) := placeBucket precision (se_Buckets series) hour in
  MkSeries (alter (fun b => recordSlot b index rank) idx l) (wrapU64 (se_Seen series + 1)).

Definition hll_Observe (s : State) (identity : string) (at_ : Time) (keys : list string) : State :=
  if (identity =? "")%string then s
  else
    let (index, rank) := slot (h_Precision s) identity in
    let hour := hourNumber at_ in
    foldl (fun s key =>
      if (key =? "")%string then s
      else MkState (h_Version s) (h_Methodology s) (h_Precision s)
             (<[key := observeSeries (h_Precision s) index rank hour (default (MkSeries [] 0) (h_Series s !! key))]> (h_Series s)))
      s keys.

(** * Estimation window *)

Definition inWindow (currentHour : Z) (b : Bucket) : bool :=
  negb (b_Hour b <? wrapI64 (currentHour - (WindowHours - 1))) && negb (currentHour <? b_Hour b).

(** The registers and sightings [Estimates] sums for one series. *)
Definition windowUnion (precision currentHour : Z) (series : Series) : list Z * Z :=
  foldl (fun '(registers, sightings) b =>
    if inWindow currentHour b
    then (zip_with (fun r value => if r <? value then value else r) registers (b_Registers b), wrapU64 (sightings + b_Sightings b))
    else (registers, sightings))
    (repeat 0 (Z.to_nat (Z.shiftl 1 precision)), 0) (se_Buckets (pruneLocked series currentHour)).

(** * Validation of a restored state *)

Fixpoint checkBuckets (want : nat) (maxRank : Z) (prev : option Z) (l : list Bucket) : result unit :=
  match l with
  | [] => Ok tt
  | b :: l' =>
      if negb (length (b_Registers b) =? want)%nat then Err "invalid distinct register count"
      else if existsb (fun r => maxRank <? r) (b_Registers b) then Err "invalid distinct register value"
      else if match prev with Some h => b_Hour b <=? h | None => false end then Err "distinct state buckets are not ordered by hour"
      else checkBuckets want maxRank (Some (b_Hour b)) l'
  end.

Definition checkSeries (precision : Z) (kv : string * Series) : result unit :=
  if (kv.1 =? "")%string || (RetainedHours <? Z.of_nat (length (se_Buckets kv.2))) then Err "invalid distinct state"
  else checkBuckets (Z.to_nat (Z.shiftl 1 precision)) (wrapU8 (64 - precision + 1)) None (se_Buckets kv.2).

(** The checks of [Restore] on a decoded state. *)
Definition validate (s : State) (methodology : string) (precision : Z) : result unit :=
  if negb (h_Version s =? 1) || negb (h_Methodology s =? methodology)%string || negb (h_Precision s =? precision)
  then Err "distinct state version, methodology, or precision mismatch"
  else foldl (fun r kv => let! _ := r in checkSeries (h_Precision s) kv) (Ok tt) (map_to_list (h_Series s)).

(** * Slots are well formed *)

Lemma land_top r : 0 <= r < 2 ^ 64 -> Z.land r (Z.shiftl 1 63) = 0 <-> r < 2 ^ 63.
Proof.
  intros Hr. rewrite Z.shiftl_1_l. split.
  - intros H. destruct (Z.lt_ge_cases r (2 ^ 63)) as [|Hge]; [done|exfalso].
    assert (Z.testbit r 63 = true) as Ht by (rewrite Z.testbit_true by lia; replace (r / 2 ^ 63) with 1 by (apply Z.div_unique with (r - 2 ^ 63); lia); done).
    assert (Z.testbit (Z.land r (2 ^ 63)) 63 = true) as Hb by (rewrite Z.land_spec, Ht; done).
    rewrite H in Hb. by rewrite Z.bits_0 in Hb.
  - intros H. apply Z.bits_inj'. intros k Hk. rewrite Z.land_spec, Z.bits_0, Z.pow2_bits_eqb by lia.
    destruct (Z.eqb_spec 63 k) as [<-|]; [|by rewrite andb_false_r].
    rewrite andb_true_r. apply Z.testbit_false; [lia|]. by rewrite Z.div_small by lia.
Qed.

(** The loop finds the leading one: it stops within [63 - log2 r] turns. *)
Lemma rank_loop_spec fuel r rank :
  0 < r < 2 ^ 64 -> 63 - Z.log2 r < Z.of_nat fuel -> 0 <= rank -> rank + (63 - Z.log2 r) < 256 ->
  rank_loop fuel r rank = rank + (63 - Z.log2 r).
Proof.
  revert r rank. induction fuel as [|fuel IH]; intros r rank Hr Hf H0 Hw; cbn [rank_loop].
  { assert (Z.log2 r < 64) by (apply Z.log2_lt_pow2; lia). lia. }
  assert (Z.log2 r < 64) as Hlog by (apply Z.log2_lt_pow2; lia).
  destruct (Z.land r (Z.shiftl 1 63) =? 0) eqn:E; boolify.
  - apply land_top in E; [|lia]. assert (Z.log2 r < 63) by (apply Z.log2_lt_pow2; lia).
    assert (wrapU64 (Z.shiftl r 1) = 2 * r) as ->.
    { rewrite Z.shiftl_mul_pow2 by lia. change (2 ^ 1) with 2. unfold wrapU64. rewrite Z.mod_small; lia. }
    assert (Z.log2 (2 * r) = Z.log2 r + 1) as Hl by (rewrite Z.log2_double by lia; lia).
    rewrite IH; unfold wrapU8; rewrite ?Z.mod_small by lia; lia.
  - assert (2 ^ 63 <= r) as Hge.
    { destruct (Z.lt_ge_cases r (2 ^ 63)); [|done]. exfalso. apply E. by apply land_top; [lia|]. }
    assert (Z.log2 r = 63) as ->; [|lia]. apply Z.log2_unique; lia.
Qed.

Lemma low_bits p h : 0 <= p <= 64 -> 0 <= h < 2 ^ 64 -> wrapU64 (Z.shiftl h p) = (h mod 2 ^ (64 - p)) * 2 ^ p.
Proof.
  intros Hp Hh. rewrite Z.shiftl_mul_pow2 by lia. unfold wrapU64. change 18446744073709551616 with (2 ^ 64).
  replace (2 ^ 64) with (2 ^ (64 - p) * 2 ^ p) by (rewrite <- Z.pow_add_r by lia; f_equal; lia).
  apply Z.mul_mod_distr_r; apply Z.pow_nonzero; lia.
Qed.

(** A slot in closed form: the rank counts from the leading one of the low bits. *)
Lemma slotOf_closed p h :
  4 <= p <= 18 -> 0 <= h < 2 ^ 64 ->
  slotOf p h = (h / 2 ^ (64 - p), if h mod 2 ^ (64 - p) =? 0 then 65 - p else 64 - p - Z.log2 (h mod 2 ^ (64 - p))).
Proof.
  intros Hp Hh. unfold slotOf. cbv zeta. rewrite low_bits, Z.shiftr_div_pow2 by lia. f_equal.
  set (rest := h mod 2 ^ (64 - p)).
  assert (0 <= rest < 2 ^ (64 - p)) as Hrest by (apply Z.mod_pos_bound, Z.pow_pos_nonneg; lia).
  assert (0 < 2 ^ p) as H2p by (apply Z.pow_pos_nonneg; lia).
  assert (2 ^ (64 - p) * 2 ^ p = 2 ^ 64) as H64 by (rewrite <- Z.pow_add_r by lia; f_equal; lia).
  destruct (Z.eqb_spec rest 0) as [Hz|Hnz].
  - rewrite Hz, Z.mul_0_l. cbn [Z.eqb]. unfold wrapU8. rewrite Z.mod_small; lia.
  - clearbody rest. destruct (rest * 2 ^ p =? 0) eqn:E; boolify; [nia|].
    assert (Z.log2 (rest * 2 ^ p) = p + Z.log2 rest) as Hlog by (rewrite Z.log2_mul_pow2 by lia; lia).
    assert (Z.log2 rest < 64 - p) by (apply Z.log2_lt_pow2; lia). pose proof (Z.log2_nonneg rest).
    rewrite rank_loop_spec by (rewrite ?Hlog; nia). rewrite Hlog. lia.
Qed.

(** A slot is well formed and its rank loop terminates: for every 64-bit hash
    the index is one of the registers, the rank is between one and the largest a
    restored state accepts, and it is the position of the first one-bit of the
    hash below the index bits (one past them when there is none). *)
Theorem slotOf_spec p h :
  4 <= p <= 18 -> 0 <= h < 2 ^ 64 ->
  let (index, rank) := slotOf p h in
  let rest := h mod 2 ^ (64 - p) in
  h = index * 2 ^ (64 - p) + rest /\ 0 <= index < 2 ^ p /\ 1 <= rank <= 65 - p /\
  if rest =? 0 then rank = 65 - p else 2 ^ (64 - p - rank) <= rest < 2 ^ (65 - p - rank).
Proof.
  intros Hp Hh. rewrite slotOf_closed by lia. cbv zeta. set (rest := h mod 2 ^ (64 - p)).
  assert (0 < 2 ^ (64 - p)) as H2q by (apply Z.pow_pos_nonneg; lia).
  assert (0 <= rest < 2 ^ (64 - p)) as Hrest by (by apply Z.mod_pos_bound).
  assert (2 ^ (64 - p) * 2 ^ p = 2 ^ 64) as H64 by (rewrite <- Z.pow_add_r by lia; f_equal; lia).
  pose proof (Z.div_mod h (2 ^ (64 - p)) ltac:(lia)) as Hdm. fold rest in Hdm.
  split; [lia|]. split; [split; [apply Z.div_pos; lia|apply Z.div_lt_upper_bound; lia]|].
  destruct (Z.eqb_spec rest 0) as [Hz|Hnz]; [lia|].
  assert (Z.log2 rest < 64 - p) by (apply Z.log2_lt_pow2; lia). pose proof (Z.log2_nonneg rest). split; [lia|].
  replace (64 - p - (64 - p - Z.log2 rest)) with (Z.log2 rest) by lia.
  replace (65 - p - (64 - p - Z.log2 rest)) with (Z.succ (Z.log2 rest)) by lia. apply Z.log2_spec. lia.
Qed.

Lemma slotOf_spec_witness :
  let (index, rank) := slotOf 12 (be_get (stake 8 (sha256 "enr"))) in 0 <= index < 4096 /\ 1 <= rank <= 53.
Proof.
  pose proof (slotOf_spec 12 (be_get (stake 8 (sha256 "enr"))) ltac:(lia) ltac:(vm_compute; split; [discriminate|reflexivity])) as H.
  destruct (slotOf 12 (be_get (stake 8 (sha256 "enr")))) as [index rank]. destruct H as (_ & Hi & Hr & _).
  split; [exact Hi|exact Hr].
Defined.

(** * Recording keeps a restorable state *)

(** [sort.Search] finds the first index of a monotone predicate. *)
Lemma search_loop_spec fuel f i j n :
  (forall a b, a <= b -> f a = true -> f b = true)%nat ->
  (j - i < fuel)%nat -> (i <= j <= n)%nat ->
  (forall k, k < i -> f k = false)%nat -> (forall k, j <= k < n -> f k = true)%nat ->
  let r := search_loop fuel f i j in
  (r <= n)%nat /\ (forall k, k < r -> f k = false)%nat /\ (forall k, r <= k < n -> f k = true)%nat.
Proof.
  intros Hmono. revert i j. induction fuel as [|fuel IH]; intros i j Hf Hij Hlo Hhi; cbn [search_loop]; cbv zeta; [lia|].
  destruct (Nat.ltb_spec i j) as [Hlt|Hge].
  - pose proof (Nat.div_mod_eq (i + j) 2). pose proof (Nat.mod_upper_bound (i + j) 2).
    destruct (f ((i + j) / 2)%nat) eqn:E; apply IH; try lia; try done.
    + intros k Hk. by eapply Hmono; [|exact E]; lia.
    + intros k Hk. destruct (f k) eqn:Ek; [|done]. rewrite (Hmono k ((i + j) / 2)%nat) in E; [done|lia|done].
  - assert (i = j) as -> by lia. split_and!; [lia|done|done].
Qed.

Definition ordered (l : list Bucket) : Prop := StronglySorted (fun a b => b_Hour a < b_Hour b) l.

Lemma ordered_lookup l i j a b : ordered l -> (i < j)%nat -> l !! i = Some a -> l !! j = Some b -> b_Hour a < b_Hour b.
Proof.
  intros Hs. revert i j. induction Hs as [|x l Hs IH Hf]; intros i j Hij Ha Hb; [by rewrite lookup_nil in Ha|].
  destruct j as [|j]; [lia|]. cbn in Hb. destruct i as [|i].
  - injection Ha as ->. rewrite Forall_forall in Hf. apply Hf. by eapply list_elem_of_lookup_2.
  - cbn in Ha. apply (IH i j); [lia|done|done].
Qed.

Lemma hourFrom_search l hour :
  ordered l ->
  let r := sort_Search (length l) (hourFrom l hour) in
  (r <= length l)%nat /\ Forall (fun b => b_Hour b < hour) (take r l) /\ Forall (fun b => hour <= b_Hour b) (drop r l).
Proof.
  intros Hs. destruct (search_loop_spec (S (length l)) (hourFrom l hour) 0 (length l) (length l)) as (Hr & Hlo & Hhi).
  - intros a b Hab. unfold hourFrom. destruct (l !! a) as [x|] eqn:Ea.
    + destruct (l !! b) as [y|] eqn:Eb; [|done]. intros H. boolify. destruct (decide (a = b)) as [->|]; [by simplify_eq|].
      pose proof (ordered_lookup l a b x y Hs ltac:(lia) Ea Eb). lia.
    + assert (l !! b = None) as -> by (apply lookup_ge_None in Ea; apply lookup_ge_None; lia). done.
  - lia.
  - lia.
  - lia.
  - lia.
  - fold (sort_Search (length l) (hourFrom l hour)) in *. cbv zeta.
    generalize dependent (sort_Search (length l) (hourFrom l hour)). intros r Hr Hlo Hhi. split_and!; [done| |].
    + apply Forall_lookup. intros k b Hk. apply lookup_take_Some in Hk as [Hk Hlt]. specialize (Hlo k Hlt).
      unfold hourFrom in Hlo. rewrite Hk in Hlo. by boolify.
    + apply Forall_lookup. intros k b Hk. rewrite lookup_drop in Hk. pose proof (lookup_lt_Some _ _ _ Hk).
      specialize (Hhi _ (conj (Nat.le_add_r _ k) H)). unfold hourFrom in Hhi. rewrite Hk in Hhi. by boolify.
Qed.

Definition registersOk (p : Z) (regs : list Z) : Prop := length regs = Z.to_nat (Z.shiftl 1 p) /\ Forall (fun r => 0 <= r <= 65 - p) regs.

(** A series in order, its registers of the right number and range. *)
Definition seriesOk (p : Z) (l : list Bucket) : Prop := ordered l /\ Forall (fun b => registersOk p (b_Registers b)) l.

Lemma ordered_app l1 l2 : ordered (l1 ++ l2) <-> ordered l1 /\ ordered l2 /\ forall a b, a ∈ l1 -> b ∈ l2 -> b_Hour a < b_Hour b.
Proof. unfold ordered. rewrite StronglySorted_app. naive_solver. Qed.

Lemma pruneLocked_ok series hour :
  ordered (se_Buckets series) -> min_int64 + 168 <= hour <= max_int64 ->
  exists gone, se_Buckets series = gone ++ se_Buckets (pruneLocked series hour) /\
    Forall (fun b => b_Hour b < hour - 168) gone /\ Forall (fun b => hour - 168 <= b_Hour b) (se_Buckets (pruneLocked series hour)).
Proof.
  intros Ho Hh. unfold pruneLocked, RetainedHours. rewrite wrapI64_id by lia. replace (hour - (169 - 1)) with (hour - 168) by lia.
  destruct (hourFrom_search (se_Buckets series) (hour - 168) Ho) as (Hr & Hlo & Hhi).
  generalize dependent (sort_Search (length (se_Buckets series)) (hourFrom (se_Buckets series) (hour - 168))).
  intros r Hr Hlo Hhi. exists (take r (se_Buckets series)). destruct (Nat.ltb_spec 0 r); cbn [se_Buckets].
  - by rewrite take_drop.
  - assert (r = 0)%nat as -> by lia. done.
Qed.

Definition emptyBucket (p hour : Z) : Bucket := MkBucket hour (repeat 0 (Z.to_nat (Z.shiftl 1 p))) 0.

Lemma emptyRegisters p : 4 <= p <= 18 -> registersOk p (b_Registers (emptyBucket p 0)).
Proof.
  intros Hp. unfold registersOk, emptyBucket. cbn [b_Registers]. rewrite repeat_length. split; [done|].
  apply Forall_forall. intros r Hr. apply list_elem_of_In, repeat_spec in Hr. lia.
Qed.

Lemma placeBucket_ok p l hour :
  4 <= p <= 18 -> seriesOk p l ->
  let (l', idx) := placeBucket p l hour in
  seriesOk p l' /\ (exists b, l' !! idx = Some b /\ b_Hour b = hour) /\
  forall P : Z -> Prop, P hour -> Forall (fun b => P (b_Hour b)) l -> Forall (fun b => P (b_Hour b)) l'.
Proof.
  intros Hp [Ho Hr]. unfold placeBucket. fold (emptyBucket p hour).
  destruct (hourFrom_search l hour Ho) as (Hlen & Hlo & Hhi).
  generalize dependent (sort_Search (length l) (hourFrom l hour)). intros r Hlen Hlo Hhi.
  pose proof (emptyRegisters p Hp) as He. destruct (l !! r) as [b|] eqn:E.
  - destruct (Z.eqb_spec (b_Hour b) hour) as [Hb|Hb]; [by split_and!; [|exists b|]|].
    rewrite <- (take_drop r l) in Ho, Hr. apply ordered_app in Ho as (Ho1 & Ho2 & Ho12). apply Forall_app in Hr as [Hr1 Hr2].
    split_and!.
    + split; [|apply Forall_app; split; [done|by constructor]]. apply ordered_app. split_and!; [done| |].
      * constructor; [done|]. apply Forall_forall. intros x Hx. cbn [b_Hour emptyBucket].
        assert (hour <= b_Hour x) by (rewrite Forall_forall in Hhi; by apply Hhi).
        assert (b_Hour b <= b_Hour x); [|rewrite Forall_forall in Hhi].
        { rewrite (drop_S _ _ _ E) in Ho2, Hx. apply elem_of_cons in Hx as [->|Hx]; [lia|].
          apply StronglySorted_inv in Ho2 as [_ Hf]. rewrite Forall_forall in Hf. specialize (Hf x Hx). lia. }
        assert (b ∈ drop r l) as Hbd by (rewrite (drop_S _ _ _ E); left). specialize (Hhi b Hbd). lia.
      * intros a c Ha Hc. rewrite Forall_forall in Hlo. specialize (Hlo a Ha).
        apply elem_of_cons in Hc as [->|Hc]; [done|]. by apply Ho12.
    + exists (emptyBucket p hour). split; [|done]. rewrite lookup_app_r by (rewrite length_take; lia).
      rewrite length_take. by replace (r - r `min` length l)%nat with 0%nat by lia.
    + intros P HP HF. rewrite <- (take_drop r l) in HF. apply Forall_app in HF as [? ?]. apply Forall_app. split; [done|by constructor].
  - apply lookup_ge_None in E. assert (r = length l) as -> by lia. rewrite take_ge in Hlo by lia. split_and!.
    + split; [|apply Forall_app; split; [done|by constructor]]. apply ordered_app. split_and!; [done|repeat constructor|].
      intros a c Ha Hc. apply list_elem_of_singleton in Hc as ->. rewrite Forall_forall in Hlo. by apply Hlo.
    + exists (emptyBucket p hour). split; [|done]. rewrite lookup_app_r by lia. by rewrite Nat.sub_diag.
    + intros P HP HF. apply Forall_app. split; [done|by constructor].
Qed.

Lemma recordSlot_ok p b index rank : 0 <= rank <= 65 - p -> registersOk p (b_Registers b) -> registersOk p (b_Registers (recordSlot b index rank)).
Proof.
  intros Hr [Hl HF]. unfold recordSlot. cbn [b_Registers]. destruct (b_Registers b !! Z.to_nat index) as [x|]; [|done].
  destruct (x <? rank); [|done]. split; [by rewrite length_insert|]. by apply Forall_insert.
Qed.

(** Distinct hours within a span are no more than the span. *)
Lemma ordered_length l lo hi :
  ordered l -> Forall (fun b => lo <= b_Hour b <= hi) l -> lo <= hi + 1 -> Z.of_nat (length l) <= hi - lo + 1.
Proof.
  intros Hs. revert lo. induction Hs as [|x l Hs IH Hf]; intros lo HF Hlh; cbn [length]; [lia|].
  apply Forall_cons in HF as [Hx HF]. assert (Z.of_nat (length l) <= hi - (b_Hour x + 1) + 1); [|lia].
  apply IH; [|lia]. rewrite Forall_forall in HF, Hf |- *. intros b Hb. specialize (HF b Hb). specialize (Hf b Hb). lia.
Qed.

Lemma alter_hours (f : Bucket -> Bucket) (i : nat) (l : list Bucket) : (forall b, b_Hour (f b) = b_Hour b) -> b_Hour <$> alter f i l = b_Hour <$> l.
Proof.
  intros Hf. apply list_eq. intros k. rewrite !list_lookup_fmap. destruct (decide (k = i)) as [->|Hne].
  - rewrite list_lookup_alter_eq. destruct (l !! i); cbn; [by rewrite Hf|done].
  - by rewrite list_lookup_alter_ne.
Qed.

Lemma ordered_hours (l : list Bucket) : ordered l <-> StronglySorted Z.lt (b_Hour <$> l).
Proof.
  unfold ordered. induction l as [|x l IH]; [split; constructor|]. rewrite fmap_cons.
  split; intros H; apply StronglySorted_inv in H as [H1 H2]; (constructor; [by apply IH|]).
  - apply Forall_fmap. exact H2.
  - exact (proj1 (Forall_fmap _ _ _) H2).
Qed.

Lemma observeSeries_ok p index rank hour series :
  4 <= p <= 18 -> 0 <= rank <= 65 - p -> min_int64 + 168 <= hour <= max_int64 ->
  seriesOk p (se_Buckets series) -> Forall (fun b => b_Hour b <= hour) (se_Buckets series) ->
  let l := se_Buckets (observeSeries p index rank hour series) in
  seriesOk p l /\ Z.of_nat (length l) <= RetainedHours /\ Forall (fun b => b_Hour b <= hour) l.
Proof.
  intros Hp Hr Hh [Ho HF] Hle. unfold observeSeries. destruct (pruneLocked_ok series hour Ho Hh) as (gone & Hg & _ & Hhi).
  set (q := pruneLocked series hour) in *. rewrite Hg in Ho, HF, Hle. apply ordered_app in Ho as (_ & Ho & _).
  apply Forall_app in HF as [_ HF]. apply Forall_app in Hle as [_ Hle].
  pose proof (placeBucket_ok p (se_Buckets q) hour Hp (conj Ho HF)) as Hpl.
  destruct (placeBucket p (se_Buckets q) hour) as [l' idx]. destruct Hpl as ([Ho' HF'] & _ & Hall). cbn [se_Buckets].
  assert (b_Hour <$> alter (fun b => recordSlot b index rank) idx l' = b_Hour <$> l') as Hhours by (by apply alter_hours).
  split; [split|split].
  - apply ordered_hours. rewrite Hhours. by apply ordered_hours.
  - apply Forall_alter; [done|]. intros x Hx Hreg. by apply recordSlot_ok.
  - rewrite length_alter. pose proof (ordered_length l' (hour - 168) hour Ho') as Hlen. unfold RetainedHours.
    assert (Forall (fun b => hour - 168 <= b_Hour b <= hour) l') as Hspan; [|specialize (Hlen Hspan); lia].
    apply (Hall (fun h => hour - 168 <= h <= hour)); [lia|].
    rewrite Forall_forall in Hhi, Hle |- *. intros b Hb. specialize (Hhi b Hb). specialize (Hle b Hb). lia.
  - apply Forall_alter; [|by intros]. by apply (Hall (fun h => h <= hour)).
Qed.

(** [checkBuckets] accepts exactly the ordered buckets of the right shape. *)
Lemma checkBuckets_spec want maxRank prev l :
  checkBuckets want maxRank prev l = Ok tt <->
  ordered l /\ Forall (fun b => length (b_Registers b) = want /\ Forall (fun r => r <= maxRank) (b_Registers b)) l /\
  forall h, prev = Some h -> Forall (fun b => h < b_Hour b) l.
Proof.
  revert prev. induction l as [|b l IH]; intros prev; cbn [checkBuckets].
  { split; [intros _; split_and!; [constructor|constructor|constructor]|done]. }
  assert (existsb (fun r => maxRank <? r) (b_Registers b) = false <-> Forall (fun r => r <= maxRank) (b_Registers b)) as Hex.
  { induction (b_Registers b) as [|r rs IHr]; cbn; [by split|]. rewrite orb_false_iff, IHr, Forall_cons, Z.ltb_ge. done. }
  unfold ordered. destruct (Nat.eqb_spec (length (b_Registers b)) want) as [Hl|Hl]; cbn [negb].
  2:{ split; [done|]. intros (_ & HF & _). apply Forall_cons in HF as [[? _] _]. done. }
  destruct (existsb _ _) eqn:E.
  { split; [done|]. intros (_ & HF & _). apply Forall_cons in HF as [[_ HF] _]. by apply Hex in HF. }
  clear E. pose proof (proj1 Hex eq_refl) as E. destruct (match prev with Some h => b_Hour b <=? h | None => false end) eqn:Ep.
  { split; [done|]. intros (_ & _ & Hp). destruct prev as [h|]; [|done]. specialize (Hp h eq_refl). apply Forall_cons in Hp as [? _]. boolify. lia. }
  rewrite IH. split.
  - intros (Ho & HF & Hp). specialize (Hp _ eq_refl). split_and!; [by constructor|by constructor|].
    intros h ->. boolify. constructor; [lia|]. eapply Forall_impl; [exact Hp|]. cbn. lia.
  - intros (Ho & HF & _). apply StronglySorted_inv in Ho as [Ho Hb]. apply Forall_cons in HF as [_ HF]. split_and!; [done|done|]. intros h [= <-]. done.
Qed.

Lemma checkSeries_spec p kv :
  4 <= p <= 18 ->
  checkSeries p kv = Ok tt /\ Forall (fun b => Forall (fun r => 0 <= r) (b_Registers b)) (se_Buckets kv.2) <->
  kv.1 <> ""%string /\ Z.of_nat (length (se_Buckets kv.2)) <= RetainedHours /\ seriesOk p (se_Buckets kv.2).
Proof.
  intros Hp. destruct kv as [key series]. cbn [fst snd]. unfold checkSeries, seriesOk, registersOk. cbn [fst snd].
  assert (wrapU8 (64 - p + 1) = 65 - p) as -> by (unfold wrapU8; rewrite Z.mod_small; lia).
  pose proof (checkBuckets_spec (Z.to_nat (Z.shiftl 1 p)) (65 - p) None (se_Buckets series)) as Hc.
  destruct (String.eqb_spec key ""); cbn [orb]; [naive_solver|].
  destruct (Z.ltb_spec RetainedHours (Z.of_nat (length (se_Buckets series)))); [split; [naive_solver|lia]|].
  rewrite Hc. split.
  - intros ((Ho & HF & _) & Hn). split_and!; [done|done|done|]. rewrite Forall_forall in HF, Hn |- *. intros b Hb.
    destruct (HF b Hb) as [Hlen Hup]. split; [done|]. specialize (Hn b Hb). rewrite Forall_forall in Hup, Hn |- *. auto.
  - intros (_ & Hlen & Ho & HF). rewrite Forall_forall in HF. split_and!; [done| |done|]; apply Forall_forall; intros b Hb;
      destruct (HF b Hb) as [Hl Hr]; [split; [done|]|]; (eapply Forall_impl; [exact Hr|]); cbn; lia.
Qed.

Lemma fold_checks {A} (f : A -> result unit) l r :
  foldl (fun r x => let! _ := r in f x) r l = Ok tt <-> r = Ok tt /\ Forall (fun x => f x = Ok tt) l.
Proof.
  revert r. induction l as [|x l IH]; intros r; cbn [foldl]; [split; [intros; split; [done|constructor]|by intros [? _]]|].
  rewrite IH, Forall_cons. destruct r as [[]|e]; cbn; naive_solver.
Qed.

(** A decoded state is accepted exactly when its header agrees and each series passes. *)
Lemma validate_spec s m p :
  validate s m p = Ok tt <->
  h_Version s = 1 /\ h_Methodology s = m /\ h_Precision s = p /\ map_Forall (fun key se => checkSeries p (key, se) = Ok tt) (h_Series s).
Proof.
  unfold validate. destruct (Z.eqb_spec (h_Version s) 1); cbn [negb orb]; [|naive_solver].
  destruct (String.eqb_spec (h_Methodology s) m); cbn [negb orb]; [|naive_solver].
  destruct (Z.eqb_spec (h_Precision s) p) as [->|]; cbn [negb orb]; [|naive_solver].
  rewrite fold_checks, map_Forall_to_list. unfold uncurry.
  assert (forall l, Forall (fun x => checkSeries p x = Ok tt) l <-> Forall (fun '(key, se) => checkSeries p (key, se) = Ok tt) l) as ->.
  { intros l. apply Forall_proper; [intros [??]; done|done]. }
  naive_solver.
Qed.

Lemma be_get_range8 s : (String.length s <= 8)%nat -> 0 <= be_get s < 2 ^ 64.
Proof.
  intros Hs. assert (length (bytes s) <= 8)%nat as Hl by (by rewrite length_bytes). unfold be_get.
  assert (Forall (fun b => 0 <= b < 256) (bytes s)) as HF.
  { clear. induction s as [|c s IH]; cbn; constructor; [apply byte_val_range|done]. }
  revert Hl HF. generalize (bytes s). intros l Hl HF.
  assert (forall l acc k, Forall (fun b => 0 <= b < 256) l -> 0 <= k -> 0 <= acc < 2 ^ k ->
            0 <= foldl (fun acc b => acc * 256 + b) acc l < 2 ^ (k + 8 * Z.of_nat (length l))) as Hgen.
  { clear. induction l as [|b l IH]; intros acc k HF Hk Hacc; cbn [foldl length]; [by rewrite Z.mul_0_r, Z.add_0_r|].
    apply Forall_cons in HF as [Hb HF]. replace (k + 8 * Z.of_nat (S (length l))) with ((k + 8) + 8 * Z.of_nat (length l)) by lia.
    apply IH; [done|lia|]. rewrite Z.pow_add_r by lia. change (2 ^ 8) with 256. nia. }
  specialize (Hgen l 0 0 HF ltac:(lia) ltac:(lia)). assert (2 ^ (0 + 8 * Z.of_nat (length l)) <= 2 ^ 64); [|lia].
  apply Z.pow_le_mono_r; lia.
Qed.

Lemma stake_length n s : (String.length (stake n s) <= n)%nat.
Proof. revert s. induction n as [|n IH]; intros [|c s]; cbn; [lia..|]. specialize (IH s). lia. Qed.

Lemma slot_rank p identity : 4 <= p <= 18 -> 0 <= (slot p identity).2 <= 65 - p.
Proof.
  intros Hp. unfold slot. pose proof (be_get_range8 _ (stake_length 8 (sha256 identity))) as Hh.
  generalize dependent (be_get (stake 8 (sha256 identity))). intros h Hh. rewrite slotOf_closed by lia. cbn [snd].
  assert (0 < 2 ^ (64 - p)) as H2q by (apply Z.pow_pos_nonneg; lia).
  pose proof (Z.mod_pos_bound h _ H2q). destruct (Z.eqb_spec (h mod 2 ^ (64 - p)) 0); [lia|].
  assert (Z.log2 (h mod 2 ^ (64 - p)) < 64 - p) by (apply Z.log2_lt_pow2; lia).
  pose proof (Z.log2_nonneg (h mod 2 ^ (64 - p))). lia.
Qed.

(** What recording needs of a state: buckets of bytes, none from the future. *)
Definition recordable (s : State) (hour : Z) : Prop :=
  map_Forall (fun _ se => Forall (fun b => b_Hour b <= hour /\ Forall (fun r => 0 <= r) (b_Registers b)) (se_Buckets se)) (h_Series s).

(** The series of a state that both validates and is recordable. *)
Definition goodSeries (p hour : Z) (key : string) (se : Series) : Prop :=
  key <> ""%string /\ Z.of_nat (length (se_Buckets se)) <= RetainedHours /\ seriesOk p (se_Buckets se) /\
  Forall (fun b => b_Hour b <= hour) (se_Buckets se).

Lemma validate_good s m p hour :
  4 <= p <= 18 ->
  validate s m p = Ok tt /\ recordable s hour <->
  h_Version s = 1 /\ h_Methodology s = m /\ h_Precision s = p /\ map_Forall (goodSeries p hour) (h_Series s).
Proof.
  intros Hp. rewrite validate_spec. unfold recordable, map_Forall, goodSeries.
  assert (forall key se, (checkSeries p (key, se) = Ok tt /\
            Forall (fun b => b_Hour b <= hour /\ Forall (fun r => 0 <= r) (b_Registers b)) (se_Buckets se)) <->
          key <> ""%string /\ Z.of_nat (length (se_Buckets se)) <= RetainedHours /\ seriesOk p (se_Buckets se) /\
            Forall (fun b => b_Hour b <= hour) (se_Buckets se)) as Heq.
  { intros key se. pose proof (checkSeries_spec p (key, se) Hp) as Hs. cbn [fst snd] in Hs. rewrite Forall_and. tauto. }
  split.
  - intros ((H1 & H2 & H3 & H4) & H5). split_and!; [done..|]. intros key se Hk. apply Heq. eauto.
  - intros (H1 & H2 & H3 & H4). split; [split_and!; [done..|]|]; intros key se Hk; specialize (H4 key se Hk); by apply Heq in H4 as [? ?].
Qed.

Lemma observeSeries_good p index rank hour key series :
  4 <= p <= 18 -> 0 <= rank <= 65 - p -> min_int64 + 168 <= hour <= max_int64 -> key <> ""%string ->
  seriesOk p (se_Buckets series) -> Forall (fun b => b_Hour b <= hour) (se_Buckets series) ->
  goodSeries p hour key (observeSeries p index rank hour series).
Proof.
  intros Hp Hr Hh Hk Hs Hle. pose proof (observeSeries_ok p index rank hour series Hp Hr Hh Hs Hle) as (? & ? & ?). unfold goodSeries. tauto.
Qed.

(** Recording keeps the state one that a restart accepts: with a clock that is
    not behind the recorded hours, every observation under any keys leaves a state
    that passes the version, ordering, count and register checks of [Restore], with
    still nothing recorded ahead of the clock. *)
Theorem Observe_valid s m p identity at_ keys :
  4 <= p <= 18 -> min_int64 + 168 <= hourNumber at_ <= max_int64 ->
  validate s m p = Ok tt /\ recordable s (hourNumber at_) ->
  validate (hll_Observe s identity at_ keys) m p = Ok tt /\ recordable (hll_Observe s identity at_ keys) (hourNumber at_).
Proof.
  intros Hp Hh. rewrite !validate_good by done. unfold hll_Observe. destruct (identity =? "")%string; [done|].
  intros (H1 & H2 & H3 & H4). rewrite H3. pose proof (slot_rank p identity Hp) as Hr.
  destruct (slot p identity) as [index rank]. cbn [snd] in Hr. revert s H1 H2 H3 H4.
  induction keys as [|key keys IH]; intros s H1 H2 H3 H4; cbn [foldl]; [done|].
  destruct (String.eqb_spec key "") as [|Hk]; [by apply IH|].
  apply IH; cbn [h_Version h_Methodology h_Precision h_Series]; [done..|]. rewrite H3.
  apply map_Forall_insert_2; [|done]. apply observeSeries_good; try done; destruct (h_Series s !! key) as [se|] eqn:E; cbn [from_option id se_Buckets].
  - by destruct (H4 key se E) as (_ & _ & ? & _).
  - split; constructor.
  - by destruct (H4 key se E) as (_ & _ & _ & ?).
  - constructor.
Qed.

Lemma Observe_valid_witness :
  let s := hll_Observe (hll_New "v1" 4) "node" (time_Unix 1700000000) ["mainnet"] in
  validate s "v1" 4 = Ok tt /\ recordable s (hourNumber (time_Unix 1700000000)).
Proof.
  refine (Observe_valid (hll_New "v1" 4) "v1" 4 "node" (time_Unix 1700000000) ["mainnet"%string] _ _ _); [lia|vm_compute; split; discriminate|].
  split; [reflexivity|]. intros key se H. cbn in H. by rewrite lookup_empty in H.
Defined.
