(* ===== verification/Text.v ===== *)
(** Text as the release and query code reads it: trimming and folding laws,
    substrings, digits and the decimal parsers of [strconv]; lines and their parts. *)

From stdpp Require Import base gmap strings list numbers pretty.
From Stdlib Require Import ZArith Lia Ascii.
From S2P Require Import Prelude GoLib ForkId Network.

(** * Trimming and folding *)

Lemma trim_right_cons c s :
  trim_right (String c s) = if (trim_right s =? "")%string then (if is_blank c then "" else String c "") else String c (trim_right s).
Proof. cbn [trim_right]. by destruct (trim_right s). Qed.

Lemma trim_right_idem s : trim_right (trim_right s) = trim_right s.
Proof.
  induction s as [|c s IH]; [done|]. rewrite trim_right_cons. destruct (String.eqb_spec (trim_right s) "") as [E|E].
  - destruct (is_blank c) eqn:Ec; [done|]. cbn. by rewrite Ec.
  - rewrite trim_right_cons, IH. by destruct (String.eqb_spec (trim_right s) "").
Qed.

Lemma TrimSpace_idem s : TrimSpace (TrimSpace s) = TrimSpace s.
Proof.
  unfold TrimSpace. induction s as [|c s IH]; [done|]. cbn [trim_left]. destruct (is_blank c) eqn:E; [done|].
  transitivity (trim_right (trim_right (String c s))); [|apply trim_right_idem].
  rewrite trim_right_cons. destruct (trim_right s =? "")%string; rewrite ?E; cbn [trim_left]; by rewrite E.
Qed.

Lemma is_blank_lower c : is_blank (lower_byte c) = is_blank c.
Proof.
  unfold lower_byte. destruct ((65 <=? byte_val c) && (byte_val c <=? 90)) eqn:E; [|done].
  unfold is_blank. rewrite byte_val_of. boolify. rewrite Z.mod_small by lia.
  transitivity false; [|symmetry]; apply orb_false_iff; (split; [apply andb_false_iff; right|]; boolify; lia).
Qed.

Lemma ToLower_TrimSpace s : ToLower (TrimSpace s) = TrimSpace (ToLower s).
Proof.
  unfold TrimSpace. assert (forall t, ToLower (trim_right t) = trim_right (ToLower t)) as Hr.
  { induction t as [|c t IH]; [done|]. change (ToLower (String c t)) with (String (lower_byte c) (ToLower t)).
    rewrite !trim_right_cons, <- IH, is_blank_lower. destruct (String.eqb_spec (trim_right t) "") as [E|E].
    - rewrite E. cbn. by destruct (is_blank c).
    - destruct (trim_right t); done. }
  rewrite Hr. f_equal. induction s as [|c s IH]; [done|].
  change (ToLower (String c s)) with (String (lower_byte c) (ToLower s)). cbn [trim_left]. rewrite is_blank_lower.
  by destruct (is_blank c).
Qed.

Lemma EqualFold_lower a b : ToLower b = b -> EqualFold a b = (ToLower a =? b)%string.
Proof. intros H. unfold EqualFold. by rewrite H. Qed.

Lemma ToLower_sapp a b : ToLower (a +:+ b) = ToLower a +:+ ToLower b.
Proof. unfold ToLower. induction a as [|c a IH]; [done|]. rewrite sapp_cons. cbn. by rewrite IH. Qed.

(** * Substrings *)

(** [strings.Contains]. *)
Fixpoint Contains (s sub : string) : bool :=
  HasPrefix s sub || match s with EmptyString => false | String _ s' => Contains s' sub end.

Lemma HasPrefix_spec s p : HasPrefix s p = true <-> exists t, s = p +:+ t.
Proof.
  unfold HasPrefix. revert s. induction p as [|c p IH]; intros s; [cbn; split; [by exists s|by destruct s]|].
  destruct s as [|d s]; cbn [String.prefix].
  - split; [done|]. intros [t Ht]. by rewrite sapp_cons in Ht.
  - destruct (ascii_dec c d) as [->|Hne].
    + rewrite IH. split; intros [t Ht]; exists t; rewrite ?sapp_cons in *; congruence.
    + split; [done|]. intros [t Ht]. rewrite sapp_cons in Ht. congruence.
Qed.

Lemma Contains_spec s sub : Contains s sub = true <-> exists a b, s = a +:+ sub +:+ b.
Proof.
  induction s as [|c s IH]; cbn [Contains]; rewrite orb_true_iff, HasPrefix_spec.
  - split; [|intros (a & b & H); left; destruct a; [by exists b|done]]. intros [[t Ht]|]; [|done]. exists "", t. exact Ht.
  - rewrite IH. split.
    + intros [[t Ht]|(a & b & ->)]; [by exists "", t|by exists (String c a), b].
    + intros ([|d a] & b & H); [left; by exists b|right]. rewrite sapp_cons in H. exists a, b. congruence.
Qed.

(** * Digits *)

Definition is_digit (c : ascii) : bool := let v := byte_val c in (48 <=? v) && (v <=? 57).

(** The longest prefix of digits, and what follows it. *)
Fixpoint take_digits (s : string) : string * string :=
  match s with
  | String c s' => if is_digit c then let (d, rest) := take_digits s' in (String c d, rest) else ("", s)
  | EmptyString => ("", "")
  end.
Definition skip_digits (s : string) : string := snd (take_digits s).

(** The number a string of digits spells. *)
Definition digits_value (s : string) : Z := foldl (fun acc b => acc * 10 + (b - 48)) 0 (bytes s).

Definition all_digits (s : string) : bool := negb (s =? "")%string && (skip_digits s =? "")%string.

(** [strconv.ParseUint(s, 10, bits)]: digits only, within the width. *)
Definition ParseUint (bits : Z) (s : string) : result Z :=
  if all_digits s && (digits_value s <? 2 ^ bits) then Ok (digits_value s) else Err "strconv.ParseUint".

(** [strconv.Atoi] of a string of digits. *)
Definition Atoi_digits (s : string) : option Z := if digits_value s <=? max_int64 then Some (digits_value s) else None.

Lemma take_digits_app s : let (d, rest) := take_digits s in s = d +:+ rest.
Proof. induction s as [|c s IH]; [done|]. cbn [take_digits]. destruct (is_digit c); [|done]. destruct (take_digits s). rewrite sapp_cons. by rewrite <- IH. Qed.

(** [strings.Join]. *)
Fixpoint sjoin (sep : string) (l : list string) : string :=
  match l with [] => "" | [s] => s | s :: l' => s +:+ sep +:+ sjoin sep l' end.

(** ** Ends of a string *)

Lemma HasPrefix_app p s : HasPrefix (p +:+ s) p = true.
Proof. apply HasPrefix_spec. by exists s. Qed.

Lemma TrimPrefix_app p s : TrimPrefix (p +:+ s) p = s.
Proof. unfold TrimPrefix. rewrite HasPrefix_app. by apply sdrop_app. Qed.

Lemma HasSuffix_app s p : HasSuffix (s +:+ p) p = true.
Proof.
  unfold HasSuffix. rewrite length_sapp. apply andb_true_iff. split; [apply Nat.leb_le; lia|].
  replace (String.length s + String.length p - String.length p)%nat with (String.length s) by lia.
  rewrite sdrop_app by done. apply String.eqb_refl.
Qed.

Lemma TrimSuffix_app s p : TrimSuffix (s +:+ p) p = s.
Proof.
  unfold TrimSuffix. rewrite HasSuffix_app, length_sapp.
  replace (String.length s + String.length p - String.length p)%nat with (String.length s) by lia. by apply stake_app.
Qed.

Lemma HasSuffix_spec s p : HasSuffix s p = true <-> exists a, s = a +:+ p.
Proof.
  unfold HasSuffix. rewrite andb_true_iff, Nat.leb_le, String.eqb_eq. split.
  - intros [_ H]. exists (stake (String.length s - String.length p) s). rewrite <- H at 2. symmetry. apply stake_sdrop.
  - intros [a ->]. rewrite length_sapp. split; [lia|]. apply sdrop_app. lia.
Qed.

Lemma sapp_inj_r a b s : a +:+ s = b +:+ s -> a = b.
Proof.
  intros H. rewrite <- (stake_app (String.length a) a s), <- (stake_app (String.length b) b s) by done. rewrite H.
  f_equal. apply (f_equal String.length) in H. rewrite !length_sapp in H. lia.
Qed.

Lemma stake_all n s : (String.length s <= n)%nat -> stake n s = s.
Proof. revert s. induction n as [|n IH]; intros [|c s] H; cbn in *; [done|lia|done|]. rewrite IH; [done|lia]. Qed.

Lemma sapp_snoc a c s : (a +:+ String c "") +:+ s = a +:+ String c s.
Proof. by rewrite <- sapp_assoc. Qed.

(** ** Strings of some bytes *)

Fixpoint sforall (p : ascii -> bool) (s : string) : bool :=
  match s with EmptyString => true | String c s' => p c && sforall p s' end.

Lemma sforall_app p s t : sforall p (s +:+ t) = sforall p s && sforall p t.
Proof. induction s as [|c s IH]; [done|]. rewrite sapp_cons. cbn [sforall]. by rewrite IH, andb_assoc. Qed.

Lemma sforall_impl p q s : (forall c, p c = true -> q c = true) -> sforall p s = true -> sforall q s = true.
Proof. intros H. induction s as [|c s IH]; [done|]. cbn [sforall]. intros [Hc Hs]%andb_true_iff. by rewrite (H c Hc), IH. Qed.

(** A string without byte [c]. *)
Abbreviation avoids c := (sforall (fun x => negb (x =? c)%char)).

#[local] Open Scope Z_scope.

(** Reading text line by line: [bufio.Scanner], [strings.Cut], [strings.Trim] and
    [strconv.ParseUint] with base 0, as the devnet bundle and the Route 53 credentials
    use them; and decimal printing, which [ParseUint] reads back. *)

Definition newline : ascii := ascii_of_nat 10.
Definition carriageReturn : ascii := ascii_of_nat 13.

(** [strings.Cut] at one byte. *)
Fixpoint Cut (sep : ascii) (s : string) : option (string * string) :=
  match s with
  | EmptyString => None
  | String c s' => if (c =? sep)%char then Some ("", s') else (fun kv : string * string => (String c kv.1, kv.2)) <$> Cut sep s'
  end.

(** [strings.Trim]: the cutset is a predicate on bytes. *)
Fixpoint trimLeft (p : ascii -> bool) (s : string) : string :=
  match s with
  | EmptyString => EmptyString
  | String c s' => if p c then trimLeft p s' else s
  end.
Fixpoint trimRight (p : ascii -> bool) (s : string) : string :=
  match s with
  | EmptyString => EmptyString
  | String c s' =>
      match trimRight p s' with
      | EmptyString => if p c then EmptyString else String c EmptyString
      | t => String c t
      end
  end.
Definition Trim (p : ascii -> bool) (s : string) : string := trimRight p (trimLeft p s).

(** ** [bufio.Scanner] *)

Definition dropCR (line : string) : string := TrimSuffix line (String carriageReturn "").

(** The lines of a text, and whether one of them filled the buffer of [limit] bytes without
    its newline, which stops the scan with [bufio.ErrTooLong]. *)
Fixpoint scanLines (limit : Z) (lines : list string) : list string * bool :=
  match lines with
  | [] => ([], false)
  | l :: lines' =>
      if limit <=? slen l then ([], true)
      else let '(out, tooLong) := scanLines limit lines' in (dropCR l :: out, tooLong)
  end.
(** Nothing after the last newline is no line. *)
Definition textLines (data : string) : list string :=
  let l := split_on newline "" data in
  if (default "" (last l) =? "")%string then removelast l else l.
Definition Scan (limit : Z) (data : string) : list string * bool := scanLines limit (textLines data).
Definition MaxScanTokenSize : Z := 64 * 1024.

(** ** [strconv.ParseUint(s, 0, 64)] *)

Definition lowerIs (c : ascii) (l : ascii) : bool := (lower_byte c =? l)%char.

Definition digitOf (c : ascii) : option Z :=
  if is_digit c then Some (byte_val c - 48)
  else let v := byte_val (lower_byte c) in if (97 <=? v) && (v <=? 122) then Some (v - 97 + 10) else None.

(** The loop over the digits: the value so far and whether an underscore was met. *)
Fixpoint digitLoop (base : Z) (n : Z) (underscores : bool) (s : string) : result (Z * bool) :=
  match s with
  | EmptyString => Ok (n, underscores)
  | String c s' =>
      if (c =? "_")%char then digitLoop base n true s'
      else match digitOf c with
           | None => Err "invalid syntax"
           | Some d =>
               if base <=? d then Err "invalid syntax"
               else if max_uint64 <? n * base + d then Err "value out of range"
               else digitLoop base (n * base + d) underscores s'
           end
  end.

(** [underscoreOK]: what was last seen, a digit, an underscore or neither. *)
Inductive saw := sawStart | sawDigit | sawUnderscore | sawOther.
Fixpoint underscoreLoop (hex : bool) (last : saw) (s : string) : bool :=
  match s with
  | EmptyString => match last with sawUnderscore => false | _ => true end
  | String c s' =>
      let v := byte_val (lower_byte c) in
      if is_digit c || hex && (97 <=? v) && (v <=? 102) then underscoreLoop hex sawDigit s'
      else if (c =? "_")%char then match last with sawDigit => underscoreLoop hex sawUnderscore s' | _ => false end
      else match last with sawUnderscore => false | _ => underscoreLoop hex sawOther s' end
  end.
Definition underscoreOK (s : string) : bool :=
  let s := match s with String c s' => if (c =? "-")%char || (c =? "+")%char then s' else s | _ => s end in
  match s with
  | String z (String c s') =>
      if (z =? "0")%char && (lowerIs c "b" || lowerIs c "o" || lowerIs c "x") then underscoreLoop (lowerIs c "x") sawDigit s'
      else underscoreLoop false sawStart s
  | _ => underscoreLoop false sawStart s
  end.

(** The base a prefix announces, and the digits after it. *)
Definition basePrefix (s : string) : Z * string :=
  match s with
  | String z rest =>
      if (z =? "0")%char then
        match rest with
        | String c (String _ _ as digits) =>
            if lowerIs c "b" then (2, digits) else if lowerIs c "o" then (8, digits)
            else if lowerIs c "x" then (16, digits) else (8, rest)
        | _ => (8, rest)
        end
      else (10, s)
  | EmptyString => (10, s)
  end.
Definition ParseUint0 (s : string) : result Z :=
  if (s =? "")%string then Err "invalid syntax"
  else
    let '(base, digits) := basePrefix s in
    let! (n, underscores) := digitLoop base 0 false digits in
    if underscores && negb (underscoreOK s) then Err "invalid syntax" else Ok n.

Example ParseUint0_examples :
  map ParseUint0 ["3151909"; "0x30_18e5"; "0"; "010"; "0b101"; "18446744073709551615"; "1__0"; "18446744073709551616"; "0x"; ""; "-1"] =
  [Ok 3151909; Ok 3152101; Ok 0; Ok 8; Ok 5; Ok max_uint64; Err "invalid syntax"; Err "value out of range"; Err "invalid syntax"; Err "invalid syntax"; Err "invalid syntax"].
Proof. vm_compute. reflexivity. Qed.

(** ** Decimal printing *)

Lemma pretty_N_char_digit x : (x < 10)%N -> is_digit (pretty_N_char x) = true /\ byte_val (pretty_N_char x) - 48 = Z.of_N x.
Proof.
  intros H. assert (x = 0 \/ x = 1 \/ x = 2 \/ x = 3 \/ x = 4 \/ x = 5 \/ x = 6 \/ x = 7 \/ x = 8 \/ x = 9)%N as Hx by lia.
  by repeat (destruct Hx as [->|Hx]); [..|subst x]; split.
Qed.

Lemma pretty_N_go_value x s :
  foldl (fun acc b => acc * 10 + (b - 48)) 0 (bytes (pretty_N_go x s)) = foldl (fun acc b => acc * 10 + (b - 48)) (Z.of_N x) (bytes s).
Proof.
  revert s. induction (N.lt_wf_0 x) as [x _ IH]. intros s. destruct (decide (x = 0)%N) as [->|Hx]; [by rewrite pretty_N_go_0|].
  rewrite pretty_N_go_step by lia. rewrite IH by (apply N.div_lt; lia). cbn [bytes foldl]. f_equal.
  destruct (pretty_N_char_digit (x mod 10)%N) as [_ ->]; [by apply N.mod_lt|].
  rewrite N2Z.inj_div, N2Z.inj_mod. change (Z.of_N 10) with 10. pose proof (Z.div_mod (Z.of_N x) 10). lia.
Qed.

Lemma pretty_N_go_digits x s : sforall is_digit s = true -> sforall is_digit (pretty_N_go x s) = true.
Proof.
  revert s. induction (N.lt_wf_0 x) as [x _ IH]. intros s Hs. destruct (decide (x = 0)%N) as [->|Hx]; [by rewrite pretty_N_go_0|].
  rewrite pretty_N_go_step by lia. apply IH; [apply N.div_lt; lia|]. cbn [sforall].
  destruct (pretty_N_char_digit (x mod 10)%N) as [-> _]; [by apply N.mod_lt|done].
Qed.

Lemma pretty_N_go_nonempty x s : (0 < x)%N -> pretty_N_go x s <> "".
Proof.
  revert s. induction (N.lt_wf_0 x) as [x _ IH]. intros s Hx. rewrite pretty_N_go_step by lia.
  destruct (decide (x / 10 = 0)%N) as [->|Hd]; [by rewrite pretty_N_go_0|].
  apply IH; [by apply N.div_lt|by apply N.neq_0_lt_0].
Qed.

Lemma skip_digits_all s : sforall is_digit s = true -> skip_digits s = "".
Proof.
  unfold skip_digits. induction s as [|c s IH]; [done|]. cbn [sforall take_digits]. intros [-> Hs]%andb_true_iff.
  specialize (IH Hs). by destruct (take_digits s).
Qed.

(** Decimal numerals are digits, and [ParseUint] reads them back. *)
Lemma pretty_numeral n : 0 <= n -> sforall is_digit (pretty n) = true /\ pretty n <> "" /\ digits_value (pretty n) = n.
Proof.
  intros Hn. destruct n as [|p|p]; [by vm_compute|..|lia]. change (pretty (Z.pos p)) with (pretty_N_go (N.pos p) ""). split_and!.
  - by apply pretty_N_go_digits.
  - by apply pretty_N_go_nonempty.
  - unfold digits_value. rewrite pretty_N_go_value. done.
Qed.

Lemma ParseUint_pretty bits n : 0 <= n < 2 ^ bits -> ParseUint bits (pretty n) = Ok n.
Proof.
  intros Hn. destruct (pretty_numeral n) as (Hd & He & Hv); [lia|]. unfold ParseUint, all_digits.
  rewrite skip_digits_all, Hv by done. replace (n <? 2 ^ bits) with true by (symmetry; boolify; lia).
  by rewrite (proj2 (String.eqb_neq _ _) He).
Qed.

(** ** What [strings.Cut] and [split_on] find *)

Lemma Cut_app sep s t : avoids sep s = true -> Cut sep (s +:+ String sep t) = Some (s, t).
Proof.
  induction s as [|c s IH]; [intros _; change ("" +:+ String sep t) with (String sep t); cbn [Cut]; by rewrite Ascii.eqb_refl|]. cbn [sforall]. intros [Hc Hs]%andb_true_iff.
  rewrite sapp_cons. cbn [Cut]. apply negb_true_iff in Hc as ->. by rewrite IH.
Qed.

Lemma split_app sep acc a s : avoids sep a = true -> split_on sep acc (a +:+ String sep s) = (acc +:+ a) :: split_on sep "" s.
Proof.
  revert acc. induction a as [|x a IH]; intros acc Ha; rewrite ?sapp_cons.
  - change ("" +:+ String sep s) with (String sep s). cbn [split_on]. by rewrite Ascii.eqb_refl, sapp_nil_r.
  - cbn [sforall split_on] in *. apply andb_true_iff in Ha as [Hx Ha]. apply negb_true_iff in Hx as ->. rewrite IH by done. by rewrite sapp_snoc.
Qed.
Lemma split_end sep acc a : avoids sep a = true -> split_on sep acc a = [acc +:+ a].
Proof.
  revert acc. induction a as [|x a IH]; intros acc Ha; cbn [split_on].
  - by rewrite sapp_nil_r.
  - cbn [sforall] in Ha. apply andb_true_iff in Ha as [Hx Ha]. apply negb_true_iff in Hx as ->. rewrite IH by done. by rewrite sapp_snoc.
Qed.

(** A text and what follows its last separator. *)
Lemma cut_last sep a b s t : avoids sep s = true -> avoids sep t = true -> a +:+ String sep s = b +:+ String sep t -> a = b /\ s = t.
Proof.
  assert (forall v w, avoids sep (v +:+ String sep w) = true -> False) as Hno.
  { intros v w Hu. rewrite sforall_app in Hu. apply andb_true_iff in Hu as [_ Hu]. cbn [sforall] in Hu. by rewrite Ascii.eqb_refl in Hu. }
  intros Hs Ht. revert b. induction a as [|c a IH]; intros [|c' b].
  - intros [= E]. by split.
  - change ("" +:+ ?x) with x. rewrite sapp_cons. intros [= _ E]. subst s. exfalso. by apply (Hno b t).
  - change ("" +:+ ?x) with x. rewrite sapp_cons. intros [= _ E]. subst t. exfalso. by apply (Hno a s).
  - rewrite !sapp_cons. intros [= -> E]. by destruct (IH b E) as [-> ->].
Qed.

(** [strings.Split] undoes [strings.Join]. *)
Lemma sjoin_cons sep c l : l <> [] -> sjoin (String sep "") (c :: l) = c +:+ String sep (sjoin (String sep "") l).
Proof. by destruct l. Qed.
Lemma split_sjoin sep l : l <> [] -> Forall (fun c => avoids sep c = true) l -> split_on sep "" (sjoin (String sep "") l) = l.
Proof.
  intros Hl Hf. induction Hf as [|c l Hc Hf IH]; [done|]. destruct l as [|c' l'].
  - cbn [sjoin]. by rewrite split_end.
  - rewrite sjoin_cons by done. rewrite split_app by done. cbn [String.app]. f_equal. by apply IH.
Qed.

Lemma split_ne c acc s : split_on c acc s <> [].
Proof. revert acc. induction s as [|x s IH]; intros acc; cbn [split_on]; [done|]. by destruct (x =? c)%char. Qed.
