(* ===== verification/Clientname.v ===== *)
(** [internal/clientname/clientname.go]: the canonical spelling of client names,
    which of them charts recognise, and how long an identification counts. *)

From stdpp Require Import base strings list numbers.
From Stdlib Require Import ZArith Lia Ascii.
From S2P Require Import Prelude GoLib Text.

(** * Names *)

(** The regular expression [(?i)^v?1\.10\[0-9\]{4}\.\[0-9\]+(?:$|\[-+\])]. *)
Definition opGethVersion (version : string) : bool :=
  let s := match version with String c s' => if (c =? "v")%char || (c =? "V")%char then s' else version | "" => "" end in
  HasPrefix s "1.10" &&
  match sdrop 4 s with
  | String a (String b (String c (String d (String dot rest)))) =>
      is_digit a && is_digit b && is_digit c && is_digit d && (dot =? ".")%char &&
      let (patch, rest) := take_digits rest in
      negb (patch =? "")%string && match rest with "" => true | String e _ => (e =? "-")%char || (e =? "+")%char end
  | _ => false
  end.

(** A [switch] on the lower-cased name whose cases return constants. *)
Fixpoint switch (lower : string) (cases : list (list string * string)) (name : string) : string :=
  match cases with
  | [] => name
  | (labels, result) :: cases' => if contains_func (String.eqb lower) labels then result else switch lower cases' name
  end.

Definition executionCases : list (list string * string) :=
  [(["op-geth"; "opgeth"], "OP-Geth"); (["nethermind"], "Nethermind"); (["besu"], "Besu"); (["erigon"], "Erigon");
   (["reth"], "Reth"); (["ethrex"], "Ethrex"); (["ethereumjs"], "EthereumJS");
   (["nimbus"; "nimbus-eth1"; "nimbusexecutionclient"], "Nimbus")].

Definition ExecutionVersion (name version : string) : string :=
  let name := TrimSpace name in
  if contains_func (String.eqb (ToLower name)) ["geth"; "go-ethereum"]
  then (if opGethVersion (TrimSpace version) then "OP-Geth" else "Geth")
  else switch (ToLower name) executionCases name.

Definition consensusCases : list (list string * string) :=
  [(["lighthouse"], "Lighthouse"); (["prysm"], "Prysm"); (["nimbus"], "Nimbus"); (["lodestar"], "Lodestar");
   (["grandine"], "Grandine"); (["caplin"; "erigon"], "Caplin"); (["teku"], "Teku"); (["nethermind"], "Nethermind");
   (["ethlambda"], "Ethlambda")].

Definition Consensus (name : string) : string := let name := TrimSpace name in switch (ToLower name) consensusCases name.

Definition CanonicalVersion (layer name version : string) : string :=
  if (layer =? "el")%string then ExecutionVersion name version
  else if (layer =? "cl")%string then Consensus name
  else TrimSpace name.

Definition Canonical (layer name : string) : string := CanonicalVersion layer name "".

Definition ConsensusAgentHasNestedVersion (client second : string) : bool :=
  let client := ToLower (TrimSpace client) in
  let second := ToLower (TrimSpace second) in
  (((client =? "erigon")%string || (client =? "caplin")%string) && (second =? "caplin")%string)
  || ((client =? "teku")%string && (second =? "teku")%string).

Definition Other : string := "Other".
Definition Self : string := "enrscout".

Definition recognized (layer : string) : list string :=
  if (layer =? "el")%string then ["Geth"; "Nethermind"; "Besu"; "Erigon"; "Reth"; "Ethrex"; "EthereumJS"; "Nimbus"]
  else if (layer =? "cl")%string then ["Lighthouse"; "Prysm"; "Teku"; "Nimbus"; "Lodestar"; "Grandine"; "Caplin"; "Nethermind"; "Ethlambda"]
  else [].

Definition Recognized (layer name : string) : bool := contains_func (String.eqb (TrimSpace name)) (recognized layer).

(** * Charts *)

Definition ChartMaxFingerprintAge : Duration := 7 * 24 * Hour.

Definition Charted (fpStatus : string) (fpAt : Z) (at_ : Time) : bool :=
  ((fpStatus =? "ok")%string || (fpStatus =? "stale")%string) && (Unix (Add at_ (- ChartMaxFingerprintAge)) <=? fpAt).

(** * Canonical names *)

Example canonical_opgeth : CanonicalVersion "el" " geth " "v1.101408.0" = "OP-Geth".
Proof. reflexivity. Qed.
Example canonical_geth : CanonicalVersion "el" "go-ethereum" "v1.10.8-stable" = "Geth".
Proof. reflexivity. Qed.

(** The labels of a switch lead back to their own result. *)
Definition switch_closed (cases : list (list string * string)) : bool :=
  forallb (fun c => (switch (ToLower (TrimSpace c.2)) cases (TrimSpace c.2) =? c.2)%string) cases.

Lemma switch_cases lower cases name : switch lower cases name = name \/ exists c, c ∈ cases /\ switch lower cases name = c.2.
Proof.
  induction cases as [|[labels res] cases IH]; [by left|]. cbn [switch]. destruct (contains_func _ labels).
  - right. exists (labels, res). split; [left|done].
  - destruct IH as [IH|(c & Hc & IH)]; [by left|right; exists c; split; [by right|done]].
Qed.

Lemma switch_fixed cases name :
  switch_closed cases = true ->
  let r := switch (ToLower (TrimSpace name)) cases (TrimSpace name) in switch (ToLower (TrimSpace r)) cases (TrimSpace r) = r.
Proof.
  intros Hc. cbv zeta. destruct (switch_cases (ToLower (TrimSpace name)) cases (TrimSpace name)) as [E|(c & Hin & E)]; rewrite E.
  - rewrite TrimSpace_idem. exact E.
  - unfold switch_closed in Hc. rewrite forallb_forall in Hc. apply list_elem_of_In in Hin. specialize (Hc c Hin). by apply String.eqb_eq in Hc.
Qed.

(** Canonical names are fixed points: naming a client again, with the version it
    reported, changes nothing, and a name the charts recognise on a layer is
    already canonical there up to surrounding blanks, so that no recognised client
    is ever counted under two spellings. *)
Theorem canonical_fixed layer name version :
  CanonicalVersion layer (CanonicalVersion layer name version) version = CanonicalVersion layer name version /\
  (Recognized layer name = true -> Canonical layer name = TrimSpace name).
Proof.
  split; unfold Canonical, CanonicalVersion, Recognized, recognized.
  - destruct (layer =? "el")%string; [|destruct (layer =? "cl")%string; [|apply TrimSpace_idem]].
    + unfold ExecutionVersion. cbv zeta. destruct (contains_func (String.eqb (ToLower (TrimSpace name))) ["geth"; "go-ethereum"]) eqn:Eg.
      { destruct (opGethVersion (TrimSpace version)) eqn:Ev; reflexivity. }
      pose proof (switch_fixed executionCases name eq_refl) as Hs. cbv zeta in Hs.
      destruct (switch_cases (ToLower (TrimSpace name)) executionCases (TrimSpace name)) as [E|(c & Hin & E)].
      * by rewrite E, TrimSpace_idem, Eg.
      * rewrite E in Hs |- *. assert (contains_func (String.eqb (ToLower (TrimSpace c.2))) ["geth"; "go-ethereum"] = false) as ->; [|done].
        unfold executionCases in Hin. repeat (apply elem_of_cons in Hin as [->|Hin]; [reflexivity|]). by apply elem_of_nil in Hin.
    + unfold Consensus. cbv zeta. apply (switch_fixed consensusCases name eq_refl).
  - intros H. apply contains_func_true in H as (x & Hx & Heq). apply String.eqb_eq in Heq.
    destruct (layer =? "el")%string; [|destruct (layer =? "cl")%string; [|done]]; unfold ExecutionVersion, Consensus; cbv zeta;
      rewrite Heq; repeat (apply elem_of_cons in Hx as [->|Hx]; [reflexivity|]); by apply elem_of_nil in Hx.
Qed.

Lemma canonical_fixed_witness : Canonical "el" "Geth " = "Geth".
Proof. exact (proj2 (canonical_fixed "el" "Geth " "") eq_refl). Defined.
