(* ===== verification/AgentNames.v ===== *)
(** [internal/enrich]: the names peers give themselves.

    [parseName] reads a devp2p client name, [parseCLAgent] a libp2p agent string, and
    [NormalizeOS] folds the spellings of a platform.  All of it is text chosen by the
    peer, and by its operator: the theorems say that an operator's identity or build tag
    changes nothing, and that platforms form a closed vocabulary.  The rules on the
    places of addresses, [geo.go], follow. *)

From stdpp Require Import base strings list numbers pretty.
From Stdlib Require Import ZArith Lia Ascii.
From S2P Require Import Prelude GoLib ForkId Network NodeData Nodeset Text Clientname.
#[local] Open Scope Z_scope.

(** * Text *)

(** [strings.FieldsFunc]: the maximal runs without a separator. *)
Fixpoint fieldsFrom (sep : ascii -> bool) (cur s : string) : list string :=
  let done_ := if (cur =? "")%string then [] else [cur] in
  match s with
  | EmptyString => done_
  | String c s' => if sep c then done_ ++ fieldsFrom sep "" s' else fieldsFrom sep (cur +:+ String c "") s'
  end.
Definition FieldsFunc (sep : ascii -> bool) (s : string) : list string := fieldsFrom sep "" s.

(** [s[i+len(sub):]] for [i = strings.LastIndex(s, sub)], when there is one. *)
Fixpoint afterLast (sub s : string) : option string :=
  match s with
  | EmptyString => if (sub =? "")%string then Some "" else None
  | String _ s' =>
      match afterLast sub s' with
      | Some r => Some r
      | None => if HasPrefix s sub then Some (sdrop (String.length sub) s) else None
      end
  end.

Definition slash : ascii := "/".
Definition Split (s : string) : list string := split_on slash "" s.

(** * Platforms *)

(** [archTokens]. *)
Definition archTokens : list (string * string) :=
  [("386", "386"); ("i386", "386"); ("i686", "386");
   ("ppc64", "ppc64"); ("ppc64le", "ppc64le"); ("powerpc64", "ppc64"); ("powerpc64le", "ppc64le");
   ("s390x", "s390x"); ("loong64", "loong64"); ("loongarch64", "loong64");
   ("mips", "mips"); ("mipsle", "mipsle"); ("mips64", "mips64"); ("mips64le", "mips64le")].

Definition archToken (tok : string) : option string :=
  snd <$> List.find (fun kv => String.eqb tok kv.1) archTokens.

Definition tokenSep (c : ascii) : bool := (c =? "-")%char || (c =? "_")%char || (c =? "/")%char.

(** The loop over the tokens stops at the first known one. *)
Fixpoint firstArch (toks : list string) : string :=
  match toks with
  | [] => ""
  | tok :: rest => match archToken tok with Some a => a | None => firstArch rest end
  end.

Definition osOf (l : string) : string :=
  if Contains l "linux" then "linux"
  else if Contains l "windows" then "windows"
  else if Contains l "darwin" || Contains l "macos" || Contains l "apple" then "darwin"
  else if Contains l "freebsd" then "freebsd"
  else "".

Definition archOf (l : string) : string :=
  if Contains l "aarch" || Contains l "arm64" then "arm64"
  else if Contains l "arm" then "arm"
  else if Contains l "amd64" || Contains l "x86_64" || Contains l "x64" then "x86_64"
  else if Contains l "riscv64" || Contains l "rv64" then "riscv64"
  else firstArch (FieldsFunc tokenSep l).

Definition NormalizeOS (raw : string) : string :=
  let l := ToLower (TrimSpace raw) in
  if (l =? "")%string then ""
  else
    let os := osOf l in
    let arch := archOf l in
    if (os =? "")%string && (arch =? "")%string then ""
    else if (arch =? "")%string then os
    else if (os =? "")%string then arch
    else os +:+ "/" +:+ arch.

Definition isPlatform (s : string) : bool := Contains (NormalizeOS s) "/".

(** * devp2p names *)

Definition part (parts : list string) (i : nat) : string := default "" (parts !! i).

(** [len(s) > 1 && s[0] == 'v' && s[1]] is a digit. *)
Definition versionLike (s : string) : bool :=
  match s with String c (String d _) => (c =? "v")%char && is_digit d | _ => false end.

(** The segments a name of more than four is read from. *)
Definition shorten (parts : list string) : list string :=
  let n := length parts in
  if (4 <? n)%nat then
    if negb (isPlatform (part parts (n - 2))) && isPlatform (part parts 2) && versionLike (part parts 1)
    then take 4 parts
    else take 1 parts ++ drop (n - 3) parts
  else parts.

Definition parseName (name : string) : string * string * string * string :=
  let parts := Split name in
  let client := TrimSpace (part parts 0) in
  let parts := shorten parts in
  (client,
   if (1 <? length parts)%nat then TrimSpace (part parts 1) else "",
   if (2 <? length parts)%nat then NormalizeOS (part parts 2) else "",
   if (3 <? length parts)%nat then TrimSpace (part parts 3) else "").

(** A capability of [p2p]; its text form is go-ethereum's. *)
Record Cap := MkCap { cap_Name : string; cap_Version : Z }.
Class CapText := Cap_String : Cap -> string.

Definition formatCaps `{CapText} (caps : list Cap) : string := sjoin "," (map Cap_String caps).

(** * libp2p agents *)

Definition dashOrSpace (c : ascii) : bool := (c =? "-")%char || (c =? " ")%char.

Definition normalizeJVM (s : string) : string :=
  let lower := ToLower (TrimSpace s) in
  match afterLast "java" lower with
  | None => TrimSpace s
  | Some rest => "java" +:+ Trim dashOrSpace rest
  end.

Definition parseCLAgent (name : string) : string * string * string * string :=
  let '(client, version, os, lang) := parseName name in
  let parts := Split name in
  let rawClient := ToLower client in
  let client := Consensus client in
  let n := length parts in
  if (2 <? n)%nat && ConsensusAgentHasNestedVersion rawClient (part parts 1) then
    let version' := TrimSpace (part parts 2) in
    let os' := if (3 <? n)%nat then NormalizeOS (part parts 3) else "" in
    if (rawClient =? "erigon")%string || (rawClient =? "caplin")%string then
      (client, version', os', if (4 <? n)%nat then TrimSpace (sjoin "/" (drop 4 parts)) else lang)
    else if (rawClient =? "teku")%string then
      (client, version', os', if (4 <? n)%nat then normalizeJVM (sjoin "/" (drop 4 parts)) else lang)
    else (client, version, os, lang)
  else (client, version, os, lang).

(** ** On names as clients send them *)

Example geth_identity : parseName "Geth/my/node/v1.2.3/v1.16.7-stable/linux-amd64/go1.24.6" = ("Geth", "v1.16.7-stable", "linux/x86_64", "go1.24.6").
Proof. vm_compute. reflexivity. Qed.
Example reth_tag : parseName "reth/v1.9.3-27a8c0f/x86_64-unknown-linux-gnu/rust/bsc/tag" = ("reth", "v1.9.3-27a8c0f", "linux/x86_64", "rust").
Proof. vm_compute. reflexivity. Qed.
Example teku_agent : parseCLAgent "teku/teku/v25.9.3/linux-x86_64/-eclipseadoptium-openjdk64bitservervm-java-26" = ("Teku", "v25.9.3", "linux/x86_64", "java26").
Proof. vm_compute. reflexivity. Qed.

(** * The vocabulary of platforms *)

Definition oses : list string := [""; "linux"; "windows"; "darwin"; "freebsd"].
Definition arches : list string :=
  [""; "arm64"; "arm"; "x86_64"; "riscv64"; "386"; "ppc64"; "ppc64le"; "s390x"; "loong64"; "mips"; "mipsle"; "mips64"; "mips64le"].
Definition platform (os arch : string) : string :=
  if (os =? "")%string then arch else if (arch =? "")%string then os else os +:+ "/" +:+ arch.
Definition platforms : list string := flat_map (fun os => map (platform os) arches) oses.

Lemma osOf_oses l : osOf l ∈ oses.
Proof. unfold osOf. repeat case_goal; apply list_elem_of_In; cbn; tauto. Qed.

Lemma archToken_arches tok a : archToken tok = Some a -> a ∈ arches /\ a <> "".
Proof.
  unfold archToken. intros H. apply fmap_Some in H as ([k v] & Hf & ->).
  apply List.find_some in Hf as [Hin _]. cbn [snd].
  assert (forallb (fun kv => bool_decide (kv.2 ∈ arches /\ kv.2 <> "")) archTokens = true) as Hall by (vm_compute; reflexivity).
  rewrite forallb_forall in Hall. specialize (Hall _ Hin). by apply bool_decide_eq_true in Hall.
Qed.

Lemma firstArch_arches toks : firstArch toks ∈ arches.
Proof.
  induction toks as [|tok rest IH]; cbn [firstArch]; [by left|].
  destruct (archToken tok) as [a|] eqn:E; [by apply archToken_arches in E as [? _]|done].
Qed.

Lemma archOf_arches l : archOf l ∈ arches.
Proof. unfold archOf. repeat case_goal; try apply firstArch_arches; apply list_elem_of_In; cbn; tauto. Qed.

Lemma NormalizeOS_platform raw :
  let l := ToLower (TrimSpace raw) in NormalizeOS raw = if (l =? "")%string then "" else platform (osOf l) (archOf l).
Proof.
  unfold NormalizeOS, platform. cbv zeta. destruct (_ =? "")%string; [done|].
  by destruct (osOf _ =? "")%string eqn:Eo, (archOf _ =? "")%string eqn:Ea; cbn [andb]; boolify.
Qed.

Lemma platforms_in os arch : os ∈ oses -> arch ∈ arches -> platform os arch ∈ platforms.
Proof.
  intros Ho Ha. apply list_elem_of_In, in_flat_map. exists os. split; [by apply list_elem_of_In|].
  apply in_map. by apply list_elem_of_In.
Qed.

Lemma NormalizeOS_in raw : NormalizeOS raw ∈ platforms.
Proof.
  rewrite NormalizeOS_platform. case_goal; [by left|]. apply platforms_in; [apply osOf_oses|apply archOf_arches].
Qed.

(** A platform is one of a closed vocabulary, whatever text a peer sends, and a label
    of the vocabulary is read as itself, so normalising what was already normalised (a
    stored row, a re-identified peer) changes nothing. *)
Theorem NormalizeOS_canonical raw : NormalizeOS raw ∈ platforms /\ NormalizeOS (NormalizeOS raw) = NormalizeOS raw.
Proof.
  pose proof (NormalizeOS_in raw) as H. split; [done|].
  assert (forallb (fun p => String.eqb (NormalizeOS p) p) platforms = true) as Hall by (vm_compute; reflexivity).
  rewrite forallb_forall in Hall. by apply String.eqb_eq, Hall, list_elem_of_In.
Qed.

(** * What an operator can say *)

Abbreviation segments := (Forall (fun c => avoids slash c = true)).

Lemma Split_join l : l <> [] -> segments l -> Split (sjoin "/" l) = l.
Proof. apply split_sjoin. Qed.

(** A name's four parts. *)
Definition fields (client version os lang : string) : string * string * string * string :=
  (TrimSpace client, TrimSpace version, NormalizeOS os, TrimSpace lang).

Lemma parseName_short client v os lang : segments [client; v; os; lang] ->
  parseName (sjoin "/" [client; v; os; lang]) = fields client v os lang.
Proof. intros H. unfold parseName. by rewrite Split_join. Qed.

Lemma shorten_end client ids v os lang :
  ids <> [] -> isPlatform os = true -> shorten (client :: ids ++ [v; os; lang]) = [client; v; os; lang].
Proof.
  intros Hids Hp. unfold shorten. cbn [length]. rewrite length_app. cbn [length].
  destruct (length ids) as [|k] eqn:Ek; [by destruct ids|].
  replace (4 <? S (S k + 3))%nat with true by (symmetry; apply Nat.ltb_lt; lia).
  assert (part (client :: ids ++ [v; os; lang]) (S (S k + 3) - 2) = os) as ->.
  { unfold part. replace (S (S k + 3) - 2)%nat with (S (length ids + 1)) by lia.
    change (default "" ((ids ++ [v; os; lang]) !! (length ids + 1)%nat) = os).
    rewrite lookup_app_r by lia. by replace (length ids + 1 - length ids)%nat with 1%nat by lia. }
  rewrite Hp. cbn [negb andb]. replace (S (S k + 3) - 3)%nat with (S (length ids)) by lia. cbn [take drop].
  by rewrite drop_app_length.
Qed.

Lemma shorten_tags client v os lang tags :
  tags <> [] -> isPlatform os = true -> versionLike v = true ->
  isPlatform (part (client :: v :: os :: lang :: tags) (length tags + 2)) = false ->
  shorten (client :: v :: os :: lang :: tags) = [client; v; os; lang].
Proof.
  intros Ht Hp Hv Hn. unfold shorten. cbn [length]. destruct (length tags) as [|k] eqn:Ek; [by destruct tags|].
  replace (4 <? S (S (S (S (S k)))))%nat with true by (symmetry; apply Nat.ltb_lt; lia).
  replace (S (S (S (S (S k)))) - 2)%nat with (S k + 2)%nat by lia. rewrite Hn.
  change (part (client :: v :: os :: lang :: tags) 2) with os. change (part (client :: v :: os :: lang :: tags) 1) with v.
  by rewrite Hp, Hv.
Qed.

(** What an operator adds to a client name changes nothing that is reported: an
    identity of any number of segments before the version (itself possibly shaped like a
    version or a platform), or build tags after the runtime. *)
Theorem parseName_operator client v os lang :
  segments [client; v; os; lang] -> isPlatform os = true ->
  parseName (sjoin "/" [client; v; os; lang]) = fields client v os lang /\
  (forall ids, segments ids -> parseName (sjoin "/" (client :: ids ++ [v; os; lang])) = fields client v os lang) /\
  (forall tags, segments tags -> versionLike v = true ->
     isPlatform (part (client :: v :: os :: lang :: tags) (length tags + 2)) = false ->
     parseName (sjoin "/" (client :: v :: os :: lang :: tags)) = fields client v os lang).
Proof.
  intros Hs Hp. pose proof (parseName_short client v os lang Hs) as Hshort. split; [done|].
  pose proof Hs as [Hc Hr]%(Forall_app _ [client]). split; [intros ids Hi|intros tags Ht Hv Hn].
  - destruct ids as [|i ids]; [done|]. unfold parseName. rewrite Split_join.
    + by rewrite shorten_end.
    + done.
    + apply (Forall_app_2 _ [client]); [done|]. by apply Forall_app_2.
  - destruct tags as [|t tags]; [done|]. unfold parseName. rewrite Split_join.
    + by rewrite shorten_tags.
    + done.
    + by apply (Forall_app_2 _ [client; v; os; lang]).
Qed.

(** [internal/enrich/geo.go]: where a node's address is, and whether its network is a
    hosting provider's.  The GeoLite readers are third-party: a database is what it
    answers for an address. *)

(** * Hosting *)

Definition hostingKeywords : list string :=
  ["amazon"; "aws"; "google"; "microsoft"; "azure"; "hetzner"; "ovh"; "digitalocean";
   "digital ocean"; "linode"; "akamai"; "cloudflare"; "contabo"; "vultr"; "leaseweb";
   "oracle"; "alibaba"; "tencent"; "scaleway";
   "m247"; "choopa"; "upcloud"; "gcore"; "netcup"; "ionos"; "fastly"; "equinix";
   "kamatera"; "latitude"; "constant";
   "teraswitch"; "allnodes"; "limestone"; "hivelocity"; "velia"; "atlantis capital";
   "inovare"; "datacamp"; "worldstream"; "webnx"; "exaion"; "nessus"; "veloxserv";
   "nebius"; "zenlayer"; "coolhousing"; "aeza"; "mevspace"; "melbikomas";
   "host africa"; "eurohoster"; "gthost"; "cherry servers"].

Definition residentialExceptions : list string := ["google fiber"; "google-fiber"].

(** The keys of [hostingASNs]. *)
Definition hostingASNs : list Z :=
  [2734; 6698; 7979; 11878; 13649; 13767; 18779; 18978; 19318; 21529; 22612; 23470; 25369; 26666; 26832; 27424; 29014; 29182;
   29909; 30176; 32475; 34989; 39351; 39498; 39572; 41536; 43350; 43641; 44051; 45671; 47447; 48314; 49505; 50372; 53850;
   57043; 59711; 59780; 60800; 61098; 61272; 62005; 62240; 63018; 135377; 136907; 142002; 197352; 200295; 202613; 206264;
   210976; 212477; 213459; 397423].

Definition HostingClassification (asn : Z) (org : string) : bool * bool :=
  let l := ToLower org in
  if existsb (fun k => Contains l k) residentialExceptions then (false, true)
  else if existsb (Z.eqb asn) hostingASNs then (true, true)
  else if existsb (fun k => Contains l k) hostingKeywords then (true, true)
  else (false, false).

(** * Lookup *)

(** The GeoLite databases: what their readers answer; [None] for a database not opened. *)
Record GeoCity := MkCity {
  gc_Country : string; gc_City : string; gc_Subdivisions : list string; gc_Lat : Z; gc_Lon : Z; gc_Radius : Z }.
Record Geo := MkGeoDB { geo_city : option (string -> option GeoCity); geo_asn : option (string -> option (Z * string)) }.

Definition noGeo : GeoResult := MkGeo "" "" "" 0 0 0 "" false false false 0.

Definition Geo_Lookup (g : Geo) (ip : option string) : GeoResult :=
  match ip with
  | None => noGeo
  | Some ip =>
      let r :=
        match geo_city g with
        | Some city =>
            match city ip with
            | Some c => MkGeo (gc_Country c) (gc_City c) (default "" (head (gc_Subdivisions c))) (gc_Lat c) (gc_Lon c) 0 "" false false true (gc_Radius c)
            | None => noGeo
            end
        | None => noGeo
        end in
      match geo_asn g with
      | Some asn =>
          match asn ip with
          | Some (n, org) =>
              let (hosting, known) := HostingClassification n org in
              MkGeo (g_Country r) (g_City r) (g_Subdivision r) (g_Lat r) (g_Lon r) n org hosting known (g_Geolocated r) (g_AccuracyRadiusKM r)
          | None => r
          end
      | None => r
      end
  end.

(** * Properties *)

(** Only the autonomous system decides hosting, an exception wins over everything, and an
    answer is given whenever one of the three lists applies. *)
Theorem HostingClassification_spec asn org :
  let residential := existsb (fun k => Contains (ToLower org) k) residentialExceptions in
  let listed := existsb (Z.eqb asn) hostingASNs || existsb (fun k => Contains (ToLower org) k) hostingKeywords in
  HostingClassification asn org = (negb residential && listed, residential || listed).
Proof. unfold HostingClassification. cbv zeta. by destruct (existsb _ residentialExceptions), (existsb _ hostingASNs), (existsb _ hostingKeywords). Qed.

(** A lookup without an autonomous system never claims to know the hosting. *)
Lemma Lookup_unknown g ip : geo_asn g = None -> g_HostingKnown (Geo_Lookup g ip) = false.
Proof. unfold Geo_Lookup. intros ->. by repeat case_goal. Qed.
