(* ===== verification/Rlpx.v ===== *)
(** [internal/enrich/fingerprint.go] and [probeerror.go]: identifying an execution node.

    A probe dials, performs the RLPx handshake, exchanges Hellos and then eth Status
    messages.  RLPx, RLP, snappy and the socket are third-party or the network: the
    classes give their operations, and a [Wire] is what the peer and the network do, the
    n-th read and the n-th write of a connection being whatever they please.  The
    theorems on what a probe reports follow the definitions. *)

From stdpp Require Import base strings list numbers pretty.
From Stdlib Require Import ZArith Lia Ascii.
From S2P Require Import Prelude GoLib ForkId Network NetIP NodeData Text Clientname AgentNames.
#[local] Open Scope Z_scope.

(** * Errors *)

(** The disconnect reasons [p2p] names. *)
Inductive DiscReason :=
| DiscRequested | DiscNetworkError | DiscProtocolError | DiscUselessPeer | DiscTooManyPeers | DiscAlreadyConnected
| DiscIncompatibleVersion | DiscInvalidIdentity | DiscQuitting | DiscUnexpectedIdentity | DiscSelf | DiscReadTimeout
| DiscSubprotocolError | DiscInvalid | DiscOther (code : Z).

(** What [errors.Is] and [errors.As] find in an error of the network or a library. *)
Record netFacts := MkNetFacts { nf_eof : bool; nf_reset : bool; nf_refused : bool; nf_timeout : bool }.

Inductive goError :=
| ErrText (msg : string)
| External (facts : netFacts)
| peerDisconnectError (Reason : DiscReason)
| probeError (Stage : string) (Err : goError).

Definition atProbeStage (stage : string) (err : option goError) : goError :=
  probeError stage (default (ErrText "probe failed") err).

(** [errors.As] stops at the outermost match of the chain. *)
Definition ProbeFailureKind (err : goError) : string := match err with probeError stage _ => stage | _ => "unknown" end.

Fixpoint chainFacts (err : goError) : netFacts :=
  match err with
  | External f => f
  | probeError _ e => chainFacts e
  | ErrText _ | peerDisconnectError _ => MkNetFacts false false false false
  end.

Definition ProbeErrorClass (err : option goError) : string :=
  match err with
  | None => ""
  | Some e =>
      let f := chainFacts e in
      if nf_eof f then "eof" else if nf_reset f then "reset" else if nf_refused f then "refused"
      else if nf_timeout f then "timeout" else "other"
  end.

Fixpoint disconnectOf (err : goError) : option DiscReason :=
  match err with
  | peerDisconnectError r => Some r
  | probeError _ e => disconnectOf e
  | ErrText _ | External _ => None
  end.

Definition reasonLabel (r : DiscReason) : string :=
  match r with
  | DiscRequested => "requested" | DiscNetworkError => "network_error" | DiscProtocolError => "protocol_error"
  | DiscUselessPeer => "useless_peer" | DiscTooManyPeers => "too_many_peers" | DiscAlreadyConnected => "already_connected"
  | DiscIncompatibleVersion => "incompatible_version" | DiscInvalidIdentity => "invalid_identity" | DiscQuitting => "quitting"
  | DiscUnexpectedIdentity => "unexpected_identity" | DiscSelf => "self" | DiscReadTimeout => "read_timeout"
  | DiscSubprotocolError => "subprotocol_error" | DiscInvalid => "invalid" | DiscOther _ => "unknown"
  end.

Definition ProbeDisconnectReason (err : goError) : string :=
  match disconnectOf err with Some r => reasonLabel r | None => "" end.

(** * Messages *)

Definition handshakeMsg : Z := 0.
Definition discMsg : Z := 1.
Definition baseProtoVersion : Z := 5.
Definition maxHandshakeBytes : Z := 2048.
Definition ethStatusMsg : Z := 16.
Definition maxStatusBytes : Z := 2048.
Definition minEthVersion : Z := 66.
Definition maxEthVersion : Z := 72.
Definition ethRangeStatusVersion : Z := 69.

(** The loop from [maxEthVersion] down to [minEthVersion]. *)
Definition ethCaps : list Cap :=
  map (fun i => MkCap "eth" (maxEthVersion - Z.of_nat i)) (seq 0 (Z.to_nat (maxEthVersion - minEthVersion + 1))) ++ [MkCap "snap" 1].

Record protoHandshake := MkHello {
  ph_Version : Z; ph_Name : string; ph_Caps : list Cap; ph_ListenPort : Z; ph_ID : string }.

(** [enrich.Fingerprint]. *)
Record Probed := MkProbed {
  pf_Client : string; pf_Version : string; pf_OS : string; pf_Lang : string; pf_Caps : string;
  pf_Network : string; pf_ForkHash : string; pf_ForkID : forkID; pf_Head : Z; pf_HeadAt : Time }.
#[export] Instance eta_Probed : Eta Probed := fun f =>
  MkProbed (pf_Client f) (pf_Version f) (pf_OS f) (pf_Lang f) (pf_Caps f) (pf_Network f) (pf_ForkHash f) (pf_ForkID f) (pf_Head f) (pf_HeadAt f).
#[export] Instance upd_pf_Client : Upd pf_Client. Proof. derive_upd. Defined.
#[export] Instance upd_pf_Network : Upd pf_Network. Proof. derive_upd. Defined.
#[export] Instance upd_pf_ForkHash : Upd pf_ForkHash. Proof. derive_upd. Defined.
#[export] Instance upd_pf_ForkID : Upd pf_ForkID. Proof. derive_upd. Defined.
#[export] Instance upd_pf_Head : Upd pf_Head. Proof. derive_upd. Defined.
#[export] Instance upd_pf_HeadAt : Upd pf_HeadAt. Proof. derive_upd. Defined.

Definition noForkID : forkID := ForkID (of_bytes [0; 0; 0; 0]) 0.
Definition noProbed : Probed := MkProbed "" "" "" "" "" "" "" noForkID 0 zeroTime.

Definition Identity (f : Probed) : Fingerprint := MkFingerprint (pf_Client f) (pf_Version f) (pf_OS f) (pf_Lang f) (pf_Caps f).

Record ethStatusLegacy := MkLegacy {
  sl_ProtocolVersion : Z; sl_NetworkID : Z; sl_TD : Z; sl_Head : string; sl_Genesis : string; sl_ForkID : forkID }.
Record ethStatusRange := MkRange {
  sr_ProtocolVersion : Z; sr_NetworkID : Z; sr_Genesis : string; sr_ForkID : forkID;
  sr_EarliestBlock : Z; sr_LatestBlock : Z; sr_LatestBlockHash : string }.

(** The interface [ethStatus] with its two implementations. *)
Inductive ethStatus := Legacy (s : ethStatusLegacy) | Range (s : ethStatusRange).

Definition statusFields (s : ethStatus) : Z * Z * string * forkID :=
  match s with
  | Legacy s => (sl_ProtocolVersion s, sl_NetworkID s, sl_Genesis s, sl_ForkID s)
  | Range s => (sr_ProtocolVersion s, sr_NetworkID s, sr_Genesis s, sr_ForkID s)
  end.

Inductive rlpKind := RlpByte | RlpString | RlpList.

(** [rlp] and [snappy]. *)
Class RlpLib := {
  encodeHello : protoHandshake -> goError + string;
  decodeHello : string -> goError + protoHandshake;
  encodeStatus : ethStatus -> goError + string;
  decodeLegacy : string -> goError + ethStatusLegacy;
  decodeRange : string -> goError + ethStatusRange;
  rlpStream : Type;
  NewStream : string -> Z -> rlpStream;
  Stream_Kind : rlpStream -> option rlpKind;
  Stream_List : rlpStream -> option rlpStream;
  Stream_Reason : rlpStream -> option DiscReason;
  snappy_DecodedLen : string -> option Z;
  snappy_Decode : string -> option string
}.

Definition negotiatedEthVersion (caps : list Cap) : Z :=
  foldl (fun best c =>
    if (cap_Name c =? "eth")%string && (minEthVersion <=? cap_Version c) && (cap_Version c <=? maxEthVersion) && (best <? cap_Version c)
    then cap_Version c else best) 0 caps.

(** * A connection *)

Record Wire := MkWire { w_read : nat -> goError + (Z * string); w_write : nat -> option goError }.
Record Conn := MkConn { cn_reads : nat; cn_sent : list (Z * string); cn_snappy : bool }.
Definition NewConn : Conn := MkConn 0 [] false.

Definition Conn_Read (w : Wire) (c : Conn) : Conn * (goError + (Z * string)) :=
  (MkConn (S (cn_reads c)) (cn_sent c) (cn_snappy c), w_read w (cn_reads c)).
Definition Conn_Write (w : Wire) (c : Conn) (code : Z) (data : string) : Conn * option goError :=
  (MkConn (cn_reads c) (cn_sent c ++ [(code, data)]) (cn_snappy c), w_write w (length (cn_sent c))).
Definition SetSnappy (c : Conn) (on : bool) : Conn := MkConn (cn_reads c) (cn_sent c) on.

(** The node id a public key has, and the unsigned record [enode.NewV4] builds; [None] for
    an address that is not TCP. *)
Class EnodeLib := { PubkeyToIDV4 : string -> string; NewV4 : string -> string -> Z -> Z -> ENode }.
Section Probe.
Context `{RlpLib} `{CapText} `{SpecialNetworks} (registry : list Network).

(** ** Disconnects *)

Definition parseDisconnect (data : string) : option DiscReason :=
  let s := NewStream data 100 in
  match Stream_Kind s with
  | None => None
  | Some RlpList => match Stream_List s with None => None | Some s => Stream_Reason s end
  | Some _ => Stream_Reason s
  end.

Definition decodeDisconnect (data : string) : DiscReason :=
  let compressed :=
    match snappy_DecodedLen data with
    | Some n =>
        if n <=? maxHandshakeBytes
        then match snappy_Decode data with Some dec => parseDisconnect dec | None => None end
        else None
    | None => None
    end in
  match compressed with
  | Some reason => reason
  | None => match parseDisconnect data with Some reason => reason | None => DiscInvalid end
  end.

Definition disconnected (data : string) : goError := atProbeStage "peer_disconnect" (Some (peerDisconnectError (decodeDisconnect data))).

(** ** Hello *)

Definition writeHello (w : Wire) (c : Conn) (id : string) : Conn * option goError :=
  match encodeHello (MkHello baseProtoVersion Self ethCaps 0 id) with
  | inl e => (c, Some (atProbeStage "hello_encode" (Some e)))
  | inr payload =>
      let (c, err) := Conn_Write w c handshakeMsg payload in
      (c, match err with Some e => Some (atProbeStage "hello_write" (Some e)) | None => None end)
  end.

Definition helloOf (their : protoHandshake) : Probed :=
  let '(client, version, os, lang) := parseName (ph_Name their) in
  MkProbed (ExecutionVersion client version) version os lang (formatCaps (ph_Caps their)) "" "" noForkID 0 zeroTime.

Definition readHelloDetails (w : Wire) (c : Conn) : Conn * (goError + (Probed * protoHandshake)) :=
  let (c, r) := Conn_Read w c in
  (c, match r with
      | inl e => inl (atProbeStage "hello_read" (Some e))
      | inr (code, data) =>
          if code =? discMsg then inl (disconnected data)
          else if negb (code =? handshakeMsg) then inl (atProbeStage "hello_protocol" (Some (ErrText "unexpected first message code %d")))
          else if maxHandshakeBytes <? slen data then inl (atProbeStage "hello_protocol" (Some (ErrText "oversized handshake (%d bytes)")))
          else match decodeHello data with
               | inl e => inl (atProbeStage "hello_decode" (Some e))
               | inr their => inr (helloOf their, their)
               end
      end).

(** ** Status *)

Definition decodeStatus (data : string) (version : Z) : goError + ethStatus :=
  if ethRangeStatusVersion <=? version
  then match decodeRange data with inl e => inl e | inr s => inr (Range s) end
  else match decodeLegacy data with inl e => inl e | inr s => inr (Legacy s) end.

(** The fingerprint is an out parameter: it keeps what was decoded before an error. *)
Definition decodeEthStatus (data : string) (version : Z) (fp : Probed) (now : Time) : Probed * option goError :=
  match decodeStatus data version with
  | inl e => (fp, Some (atProbeStage "eth_status_decode" (Some e)))
  | inr status =>
      let '(protocolVersion, networkID, genesis, fork) := statusFields status in
      let fp := fp <| pf_Network := ClassifyStatus registry networkID genesis |> <| pf_ForkID := fork |> in
      let fp := match status with Range r => fp <| pf_Head := sr_LatestBlock r |> <| pf_HeadAt := now |> | Legacy _ => fp end in
      if negb (protocolVersion =? version)
      then (fp, Some (atProbeStage "eth_status_protocol" (Some (ErrText "status protocol version %d does not match negotiated eth/%d"))))
      else (fp, None)
  end.

Definition ownStatus (local : Network) (version : Z) (now : Time) : ethStatus :=
  let genesis := GenesisHash local in
  let fork := fst (CurrentForkIDAt local now) in
  if ethRangeStatusVersion <=? version
  then Range (MkRange (wrapU32 version) (nw_NetworkID local) genesis fork 0 0 genesis)
  else Legacy (MkLegacy (wrapU32 version) (nw_NetworkID local) (GenesisDifficulty local) genesis genesis fork).

Definition exchangeEthStatus (w : Wire) (c : Conn) (caps : list Cap) (local : Network) (fp : Probed) (now : Time)
  : Conn * Probed * option goError :=
  let version := negotiatedEthVersion caps in
  if version =? 0 then (c, fp, Some (atProbeStage "eth_status" (Some (ErrText "peer has no mutually supported eth capability"))))
  else match encodeStatus (ownStatus local version now) with
  | inl e => (c, fp, Some (atProbeStage "eth_status_encode" (Some e)))
  | inr payload =>
      let (c, err) := Conn_Write w c ethStatusMsg payload in
      match err with
      | Some e => (c, fp, Some (atProbeStage "eth_status_write" (Some e)))
      | None =>
          let (c, r) := Conn_Read w c in
          match r with
          | inl e => (c, fp, Some (atProbeStage "eth_status_read" (Some e)))
          | inr (code, data) =>
              if code =? discMsg then (c, fp, Some (disconnected data))
              else if negb (code =? ethStatusMsg)
              then (c, fp, Some (atProbeStage "eth_status_protocol" (Some (ErrText "unexpected status message code %d"))))
              else if maxStatusBytes <? slen data
              then (c, fp, Some (atProbeStage "eth_status_protocol" (Some (ErrText "oversized status (%d bytes)"))))
              else
                let (fp, err) := decodeEthStatus data version fp now in
                match err with
                | Some e => (c, fp, Some e)
                | None =>
                    if (pf_Network fp =? "")%string
                    then (c, fp, Some (atProbeStage "eth_status_classify" (Some (ErrText "unsupported execution network"))))
                    else (c, fp, None)
                end
          end
      end
  end.

(** ** Endpoints *)

(** [net.JoinHostPort]. *)
Definition JoinHostPort (host port : string) : string :=
  if Contains host ":" || Contains host "%" then "[" +:+ host +:+ "]:" +:+ port else host +:+ ":" +:+ port.

Definition positive (p : option Z) : option Z := match p with Some v => if 0 <? v then Some v else None | None => None end.

Definition rlpxEndpointsWithPolicy (n : ENode) (allowPrivate : bool) : list string :=
  let tcp := positive (en_TCP n) in
  let tcp6 := match positive (en_TCP6 n) with Some p => Some p | None => tcp end in
  let add (ip : option string) (port : option Z) :=
    match ip, port with
    | Some ip, Some port => if Usable ip allowPrivate then [JoinHostPort (IP_String ip) (pretty port)] else []
    | _, _ => []
    end in
  add (en_IPv4 n) tcp ++ add (en_IPv6 n) tcp6.

(** ** Probing *)

Record Fingerprinter := MkFingerprinter { fr_id : string; fr_timeout : Duration; fr_inflight : Z; fr_allowPrivate : bool }.

(** The key is given, or generated; only its public half is used here. *)
Definition NewFingerprinterWithPolicy (timeout : Duration) (maxInflight : Z) (key : option string) (generated : result string)
  (allowPrivate : bool) : result Fingerprinter :=
  if timeout <=? 0 then Err "fingerprint timeout must be positive, got %s"
  else if maxInflight <? 1 then Err "max in-flight RLPx reads must be at least 1, got %d"
  else
    let! id := match key with Some id => Ok id | None => generated end in
    Ok (MkFingerprinter id timeout maxInflight allowPrivate).

Definition WithIdentity (f : Fingerprinter) (key : option string) : result Fingerprinter :=
  match key with
  | None => Err "RLPx identity key is required"
  | Some id => Ok (MkFingerprinter id (fr_timeout f) (fr_inflight f) (fr_allowPrivate f))
  end.

(** What happens to one probe: each dial, the handshake, the wait for a read slot, and
    the messages. *)
Record Attempt := MkAttempt {
  at_pubkey : bool; at_dial : string -> option goError; at_handshake : option goError;
  at_slot : option goError; at_wire : Wire; at_now : Time }.

(** The dial loop: connected, or the error of the last endpoint. *)
Fixpoint dialFirst (dial : string -> option goError) (endpoints : list string) (last : option goError) : bool * option goError :=
  match endpoints with
  | [] => (false, last)
  | e :: rest => match dial e with None => (true, None) | Some err => dialFirst dial rest (Some err) end
  end.

Definition probe (f : Fingerprinter) (a : Attempt) (n : ENode) (local : option Network) : Probed * option goError :=
  let endpoints := rlpxEndpointsWithPolicy n (fr_allowPrivate f) in
  match endpoints with
  | [] => (noProbed, Some (atProbeStage "endpoint" (Some (ErrText "node %s has no TCP endpoint"))))
  | _ =>
      if negb (at_pubkey a) then (noProbed, Some (atProbeStage "identity" (Some (ErrText "node %s has no public key"))))
      else
        let (connected, err) := dialFirst (at_dial a) endpoints None in
        if negb connected then (noProbed, Some (atProbeStage "dial" err))
        else match at_handshake a with
        | Some e => (noProbed, Some (atProbeStage "rlpx_handshake" (Some e)))
        | None =>
            let (c, err) := writeHello (at_wire a) NewConn (fr_id f) in
            match err with
            | Some e => (noProbed, Some e)
            | None =>
                match at_slot a with
                | Some e => (noProbed, Some (atProbeStage "read_capacity" (Some e)))
                | None =>
                    let (c, r) := readHelloDetails (at_wire a) c in
                    match r with
                    | inl e => (noProbed, Some e)
                    | inr (fp, their) =>
                        match local with
                        | None => (fp, None)
                        | Some local =>
                            let c := SetSnappy c (baseProtoVersion <=? ph_Version their) in
                            let '(_, fp, err) := exchangeEthStatus (at_wire a) c (ph_Caps their) local fp (at_now a) in (fp, err)
                        end
                    end
                end
            end
        end
  end.

Definition Probe (f : Fingerprinter) (a : Attempt) (n : ENode) : Probed * option goError := probe f a n None.
Definition ProbeStatus (f : Fingerprinter) (a : Attempt) (n : ENode) (local : option Network) : Probed * option goError :=
  match local with
  | None => (noProbed, Some (atProbeStage "eth_status" (Some (ErrText "local network is required"))))
  | Some local => probe f a n (Some local)
  end.

(** ** Inbound connections *)

Context `{EnodeLib}.

Record InboundFingerprint := MkInbound {
  ib_NodeID : string; ib_Node : option ENode; ib_Fingerprint : Probed; ib_Err : option goError }.

Definition inboundRLPxNode (pub : option string) (remote : option string) (listenPort : Z) (allowPrivate : bool) : option ENode :=
  match pub with
  | None => None
  | Some pub =>
      if (listenPort =? 0) || (65535 <? listenPort) then None
      else match remote with
      | Some ip => if Usable ip allowPrivate then Some (NewV4 pub ip listenPort 0) else None
      | None => None
      end
  end.

Definition noID : string := be_put 32 0.

(** [remote] is the peer's TCP address, [handshake] the key it authenticated with. *)
Definition handleInbound (f : Fingerprinter) (remote : option string) (handshake : goError + string) (w : Wire) (local : Network) (now : Time)
  : InboundFingerprint :=
  match handshake with
  | inl e => MkInbound noID None noProbed (Some (atProbeStage "rlpx_handshake" (Some e)))
  | inr pub =>
      let id := PubkeyToIDV4 pub in
      let (c, err) := writeHello w NewConn (fr_id f) in
      match err with
      | Some e => MkInbound id None noProbed (Some e)
      | None =>
          let (c, r) := readHelloDetails w c in
          match r with
          | inl e => MkInbound id None noProbed (Some e)
          | inr (fp, their) =>
              let node := inboundRLPxNode (Some pub) remote (ph_ListenPort their) (fr_allowPrivate f) in
              let c := SetSnappy c (baseProtoVersion <=? ph_Version their) in
              let '(_, fp, err) := exchangeEthStatus w c (ph_Caps their) local fp now in
              MkInbound id node fp err
          end
      end
  end.
End Probe.

(** What a probe of an execution node can say: where each of its answers comes from,
    that every failure carries one of a fixed list of labels, and that two programs
    running this code on one network identify each other. *)

(** * Labels *)

Definition probeStages : list string :=
  ["endpoint"; "identity"; "dial"; "rlpx_handshake"; "hello_encode"; "hello_write"; "read_capacity"; "hello_read"; "peer_disconnect";
   "hello_protocol"; "hello_decode"; "eth_status"; "eth_status_encode"; "eth_status_write"; "eth_status_read"; "eth_status_protocol";
   "eth_status_decode"; "eth_status_classify"].
Definition errorClasses : list string := ["eof"; "reset"; "refused"; "timeout"; "other"].
Definition disconnectLabels : list string :=
  [""; "requested"; "network_error"; "protocol_error"; "useless_peer"; "too_many_peers"; "already_connected"; "incompatible_version";
   "invalid_identity"; "quitting"; "unexpected_identity"; "self"; "read_timeout"; "subprotocol_error"; "invalid"; "unknown"].

Definition labelled (err : option goError) : Prop := forall e, err = Some e -> ProbeFailureKind e ∈ probeStages.

Lemma labelled_stage stage e : stage ∈ probeStages -> labelled (Some (atProbeStage stage e)).
Proof. intros H e' [= <-]. exact H. Qed.
Lemma labelled_none : labelled None.
Proof. by intros e [=]. Qed.

Ltac in_stages := apply list_elem_of_In; cbn; tauto.
#[local] Hint Resolve labelled_none : enr.
#[local] Hint Extern 1 (labelled (Some (atProbeStage _ _))) => (apply labelled_stage; in_stages) : enr.
#[local] Hint Extern 1 (labelled (Some (disconnected _))) => (apply labelled_stage; in_stages) : enr.

Lemma reasonLabel_in r : reasonLabel r ∈ disconnectLabels.
Proof. destruct r; apply list_elem_of_In; cbn; tauto. Qed.

Lemma class_in e : ProbeErrorClass (Some e) ∈ errorClasses.
Proof. unfold ProbeErrorClass. repeat case_goal; apply list_elem_of_In; cbn; tauto. Qed.

Section Props.
Context `{Hrlp : RlpLib} `{Hcap : CapText} `{Hspec : SpecialNetworks} `{Hen : EnodeLib} (registry : list Network).

Lemma writeHello_labelled w c id : labelled (snd (writeHello w c id)).
Proof. unfold writeHello, Conn_Write. repeat (case_goal; cbn [snd]); auto with enr. Qed.

Lemma readHello_labelled w c e : snd (readHelloDetails w c) = inl e -> ProbeFailureKind e ∈ probeStages.
Proof.
  unfold readHelloDetails, Conn_Read. cbn [snd]. repeat case_goal; intros [= <-]; in_stages.
Qed.

Lemma decodeEthStatus_labelled data v fp now : labelled (snd (decodeEthStatus registry data v fp now)).
Proof. unfold decodeEthStatus. repeat (case_goal; cbn [snd]); auto with enr. Qed.

Lemma exchange_labelled w c caps local fp now : labelled (snd (exchangeEthStatus registry w c caps local fp now)).
Proof.
  unfold exchangeEthStatus, Conn_Write, Conn_Read. cbv zeta.
  destruct (_ =? 0); [cbn [snd]; auto with enr|]. destruct (encodeStatus _); [cbn [snd]; auto with enr|].
  destruct (w_write _ _); [cbn [snd]; auto with enr|]. destruct (w_read _ _) as [|[code data]]; [cbn [snd]; auto with enr|].
  destruct (code =? discMsg); [cbn [snd]; auto with enr|]. destruct (negb (code =? ethStatusMsg)); [cbn [snd]; auto with enr|].
  destruct (maxStatusBytes <? _); [cbn [snd]; auto with enr|].
  pose proof (decodeEthStatus_labelled data (negotiatedEthVersion caps) fp now) as H.
  destruct (decodeEthStatus _ _ _ _ _) as [fp' [e|]]; cbn [snd] in *; [done|].
  destruct (_ =? "")%string; cbn [snd]; auto with enr.
Qed.

Lemma probe_labelled f a n local : labelled (snd (probe registry f a n local)).
Proof.
  unfold probe. cbv zeta. destruct (rlpxEndpointsWithPolicy _ _); [cbn [snd]; auto with enr|].
  destruct (negb _); [cbn [snd]; auto with enr|]. destruct (dialFirst _ _ _) as [connected err].
  destruct (negb connected); [cbn [snd]; auto with enr|]. destruct (at_handshake a); [cbn [snd]; auto with enr|].
  pose proof (writeHello_labelled (at_wire a) NewConn (fr_id f)) as Hw.
  destruct (writeHello _ _ _) as [c [e|]]; cbn [snd] in Hw; [done|].
  destruct (at_slot a); [cbn [snd]; auto with enr|].
  pose proof (readHello_labelled (at_wire a) c) as Hr.
  destruct (readHelloDetails _ _) as [c' [e|[fp their]]]; cbn [snd] in *; [intros e' [= <-]; by apply Hr|].
  destruct local as [local|]; [|cbn [snd]; auto with enr].
  pose proof (exchange_labelled (at_wire a) (SetSnappy c' (baseProtoVersion <=? ph_Version their)) (ph_Caps their) local fp (at_now a)) as Hx.
  by destruct (exchangeEthStatus _ _ _ _ _ _ _) as [[c2 fp2] err2].
Qed.

Lemma inbound_labelled f remote hs w local now : labelled (ib_Err (handleInbound registry f remote hs w local now)).
Proof.
  unfold handleInbound. destruct hs as [e|pub]; [cbn [ib_Err]; auto with enr|]. cbv zeta.
  pose proof (writeHello_labelled w NewConn (fr_id f)) as Hw.
  destruct (writeHello _ _ _) as [c [e|]]; cbn [snd] in Hw; [done|].
  pose proof (readHello_labelled w c) as Hr.
  destruct (readHelloDetails _ _) as [c' [e|[fp their]]]; cbn [snd] in *; [cbn [ib_Err]; intros e' [= <-]; by apply Hr|].
  pose proof (exchange_labelled w (SetSnappy c' (baseProtoVersion <=? ph_Version their)) (ph_Caps their) local fp now) as Hx.
  by destruct (exchangeEthStatus _ _ _ _ _ _ _) as [[c2 fp2] err2].
Qed.

(** C40.  However a peer, its operator or the network misbehaves, a failed probe or inbound
    connection is reported under one of a fixed list of stages, its error under a fixed
    list of classes, and a disconnect under a fixed list of reasons: nothing a peer sends
    becomes a metric label. *)
Theorem probe_failures_labelled f a n local remote hs w nw now e :
  snd (ProbeStatus registry f a n local) = Some e \/ snd (Probe registry f a n) = Some e \/
  ib_Err (handleInbound registry f remote hs w nw now) = Some e ->
  ProbeFailureKind e ∈ probeStages /\ ProbeErrorClass (Some e) ∈ errorClasses /\ ProbeDisconnectReason e ∈ disconnectLabels.
Proof.
  intros H. split_and!.
  - destruct H as [H|[H|H]].
    + unfold ProbeStatus in H. destruct local as [local|]; [by apply (probe_labelled f a n (Some local))|].
      injection H as <-. in_stages.
    + by apply (probe_labelled f a n None).
    + by apply (inbound_labelled f remote hs w nw now).
  - apply class_in.
  - unfold ProbeDisconnectReason. destruct (disconnectOf e); [apply reasonLabel_in|by left].
Qed.

(** * Soundness *)

(** The protocol version two peers agree on. *)
Definition usableCap (c : Cap) : Prop := cap_Name c = "eth" /\ minEthVersion <= cap_Version c <= maxEthVersion.
Definition agreed (caps : list Cap) (v : Z) : Prop :=
  (exists c, c ∈ caps /\ usableCap c /\ cap_Version c = v) /\ forall c, c ∈ caps -> usableCap c -> cap_Version c <= v.

Lemma negotiated_spec caps : let v := negotiatedEthVersion caps in (v = 0 /\ forall c, c ∈ caps -> ~ usableCap c) \/ agreed caps v.
Proof.
  unfold negotiatedEthVersion. induction caps as [|c caps IH] using rev_ind; [left; split; [done|]; intros c Hc; by apply elem_of_nil in Hc|].
  rewrite foldl_app. cbn [foldl]. set (best := foldl _ 0 caps) in *. cbv zeta in IH |- *.
  assert (((cap_Name c =? "eth")%string && (minEthVersion <=? cap_Version c) && (cap_Version c <=? maxEthVersion)) = true <-> usableCap c) as Hu.
  { unfold usableCap. rewrite !andb_true_iff, !Z.leb_le, String.eqb_eq. tauto. }
  destruct (_ && (cap_Version c <=? maxEthVersion)) eqn:E; cbn [andb].
  - pose proof (proj1 Hu eq_refl) as Hc. destruct (Z.ltb_spec best (cap_Version c)) as [Hlt|Hge].
    + right. split; [exists c; split_and!; [apply elem_of_app; right; by left|done|done]|].
      intros d [Hd| ->%list_elem_of_singleton]%elem_of_app Hud; [|done].
      destruct IH as [[_ Hno]|[_ Hmax]]; [by destruct (Hno d Hd)|]. specialize (Hmax d Hd Hud). lia.
    + right. destruct IH as [[H0 _]|[(b & Hb & Hub & Hbv) Hmax]].
      { destruct Hc as [_ Hc]. unfold minEthVersion in Hc. lia. }
      split; [exists b; split_and!; [apply elem_of_app; by left|done|done]|].
      intros d [Hd| ->%list_elem_of_singleton]%elem_of_app Hud; [by apply Hmax|lia].
  - assert (~ usableCap c) as Hc by (intros Hc; apply Hu in Hc; done).
    destruct IH as [[H0 Hno]|[(b & Hb & Hub & Hbv) Hmax]]; [left|right].
    + split; [done|]. intros d [Hd| ->%list_elem_of_singleton]%elem_of_app; auto.
    + split; [exists b; split_and!; [apply elem_of_app; by left|done|done]|].
      intros d [Hd| ->%list_elem_of_singleton]%elem_of_app Hud; [by apply Hmax|done].
Qed.

Lemma ClassifyStatus_found id genesis :
  ClassifyStatus registry id genesis <> "" ->
  exists nw, nw ∈ registry /\ nw_NetworkID nw = id /\ GenesisHash nw = genesis /\ nw_Name nw = ClassifyStatus registry id genesis.
Proof.
  unfold ClassifyStatus. destruct (List.find _ _) as [nw|] eqn:E; [|done]. intros _.
  apply List.find_some in E as [Hin Hm]. boolify. exists nw. split_and!; [by apply list_elem_of_In|done..].
Qed.

(** A fingerprint that the peer's own messages establish: the Hello it sent first, and a
    Status of the highest common version, of a registered network. *)
Definition authenticated (w : Wire) (fp : Probed) : Prop :=
  exists hello their data status v nw,
    w_read w 0 = inr (handshakeMsg, hello) /\ decodeHello hello = inr their /\
    w_read w 1 = inr (ethStatusMsg, data) /\ agreed (ph_Caps their) v /\ decodeStatus data v = inr status /\
    nw ∈ registry /\ nw_Name nw <> "" /\ pf_Network fp = nw_Name nw /\
    statusFields status = (v, nw_NetworkID nw, GenesisHash nw, pf_ForkID fp) /\
    Identity fp = Identity (helloOf their) /\
    (pf_Head fp <> 0 -> exists r, status = Range r /\ pf_Head fp = sr_LatestBlock r).

Lemma decodeEthStatus_sound data v fp now fp' :
  pf_Head fp = 0 -> decodeEthStatus registry data v fp now = (fp', None) ->
  exists status id genesis, decodeStatus data v = inr status /\ statusFields status = (v, id, genesis, pf_ForkID fp') /\
    pf_Network fp' = ClassifyStatus registry id genesis /\ Identity fp' = Identity fp /\
    (pf_Head fp' <> 0 -> exists r, status = Range r /\ pf_Head fp' = sr_LatestBlock r).
Proof.
  intros H0. unfold decodeEthStatus. destruct (decodeStatus data v) as [e|status]; [done|].
  destruct (statusFields status) as [[[pv id] genesis] fork] eqn:Es. cbv zeta.
  destruct (negb (pv =? v)) eqn:Ev; [done|]. apply negb_false_iff, Z.eqb_eq in Ev as ->. intros [= <-].
  exists status, id, genesis. rewrite Es. destruct status as [l|r]; upd_simpl; unfold Identity; upd_simpl.
  - split_and!; [done..|]. by rewrite H0.
  - split_and!; [done..|]. intros _. by exists r.
Qed.

Lemma exchange_sound w c caps local fp now c' fp' :
  pf_Head fp = 0 -> exchangeEthStatus registry w c caps local fp now = (c', fp', None) ->
  exists data status v nw,
    w_read w (cn_reads c) = inr (ethStatusMsg, data) /\ agreed caps v /\ decodeStatus data v = inr status /\
    nw ∈ registry /\ nw_Name nw <> "" /\ pf_Network fp' = nw_Name nw /\
    statusFields status = (v, nw_NetworkID nw, GenesisHash nw, pf_ForkID fp') /\ Identity fp' = Identity fp /\
    (pf_Head fp' <> 0 -> exists r, status = Range r /\ pf_Head fp' = sr_LatestBlock r).
Proof.
  intros H0. unfold exchangeEthStatus, Conn_Write, Conn_Read. cbv zeta.
  destruct (negotiated_spec caps) as [[-> _]|Hv]; [done|]. set (v := negotiatedEthVersion caps) in *.
  destruct (v =? 0); [done|]. destruct (encodeStatus _); [done|]. destruct (w_write _ _); [done|]. cbn [cn_reads].
  destruct (w_read w (cn_reads c)) as [|[code data]]; [done|]. destruct (code =? discMsg); [done|].
  destruct (negb (code =? ethStatusMsg)) eqn:Ec; [done|]. apply negb_false_iff, Z.eqb_eq in Ec as ->.
  destruct (maxStatusBytes <? _); [done|]. destruct (decodeEthStatus _ _ _ _ _) as [fp2 [e|]] eqn:Ed; [done|].
  destruct (pf_Network fp2 =? "")%string eqn:En; [done|]. intros [= _ <-]. boolify.
  destruct (decodeEthStatus_sound _ _ _ _ _ H0 Ed) as (status & id & genesis & Hst & Hfields & Hnet & Hid & Hhead).
  rewrite Hnet in En. destruct (ClassifyStatus_found _ _ En) as (nw & Hin & <- & <- & Hname).
  exists data, status, v, nw. rewrite Hname, <- Hnet. split_and!; try done. by rewrite Hnet.
Qed.

Lemma readHello_sound w c c' fp their :
  readHelloDetails w c = (c', inr (fp, their)) ->
  fp = helloOf their /\ cn_reads c' = S (cn_reads c) /\ exists hello, w_read w (cn_reads c) = inr (handshakeMsg, hello) /\ decodeHello hello = inr their.
Proof.
  unfold readHelloDetails, Conn_Read. destruct (w_read w (cn_reads c)) as [|[code data]]; [done|].
  destruct (code =? discMsg); [done|]. destruct (negb (code =? handshakeMsg)) eqn:Ec; [done|]. apply negb_false_iff, Z.eqb_eq in Ec as ->.
  destruct (maxHandshakeBytes <? _); [done|]. destruct (decodeHello data) as [|their'] eqn:Ed; [done|].
  intros [= <- <- <-]. split_and!; [done|done|]. by exists data.
Qed.

Lemma writeHello_reads w c id c' err : writeHello w c id = (c', err) -> cn_reads c' = cn_reads c.
Proof. unfold writeHello, Conn_Write. by destruct (encodeHello _); intros [= <- _]. Qed.

Lemma helloOf_head their : pf_Head (helloOf their) = 0.
Proof. unfold helloOf. by destruct (parseName _) as [[[? ?] ?] ?]. Qed.

(** The part a probe and an inbound connection share. *)
Lemma conversation_sound w id local c err c2 fp their c3 fp' now :
  writeHello w NewConn id = (c, err) -> readHelloDetails w c = (c2, inr (fp, their)) ->
  exchangeEthStatus registry w (SetSnappy c2 (baseProtoVersion <=? ph_Version their)) (ph_Caps their) local fp now = (c3, fp', None) ->
  authenticated w fp'.
Proof.
  intros Hw Hr Hx. apply writeHello_reads in Hw. apply readHello_sound in Hr as (-> & Hreads & hello & Hhello & Hdec).
  apply exchange_sound in Hx as (data & status & v & nw & Hdata & Hag & Hst & Hin & Hne & Hnet & Hf & Hid & Hhead); [|apply helloOf_head].
  cbn [SetSnappy cn_reads] in Hdata. rewrite Hreads, Hw in Hdata. rewrite Hw in Hhello.
  by exists hello, their, data, status, v, nw.
Qed.


(** * Two of us *)

(** What is relied on of the codec: it reads back what it wrote, in few bytes. *)
Definition rlp_ok : Prop :=
  (forall h, exists s, encodeHello h = inr s /\ decodeHello s = inr h /\ slen s <= maxHandshakeBytes) /\
  (forall r, exists s, encodeStatus (Range r) = inr s /\ decodeRange s = inr r /\ slen s <= maxStatusBytes).

(** A wire on which a program running this code answers: its Hello, then the Status of its
    own network. *)
Definition twin (w : Wire) (id : string) (nw : Network) (at_ : Time) : Prop :=
  (forall i, w_write w i = None) /\
  (forall s, encodeHello (MkHello baseProtoVersion Self ethCaps 0 id) = inr s -> w_read w 0 = inr (handshakeMsg, s)) /\
  (forall s, encodeStatus (ownStatus nw maxEthVersion at_) = inr s -> w_read w 1 = inr (ethStatusMsg, s)).

(** The two sides need not be on the same network, and the clocks may differ: the Status
    decides. *)
Theorem twins_identify f hs w id nw local at_ now remote :
  rlp_ok -> hs = inr id -> twin w id nw at_ ->
  ClassifyStatus registry (nw_NetworkID nw) (GenesisHash nw) = nw_Name nw -> nw_Name nw <> "" ->
  let r := handleInbound registry f remote hs w local now in
  ib_Err r = None /\ ib_NodeID r = PubkeyToIDV4 id /\ pf_Client (ib_Fingerprint r) = Self /\
  pf_Network (ib_Fingerprint r) = nw_Name nw /\ pf_ForkID (ib_Fingerprint r) = fst (CurrentForkIDAt nw at_).
Proof.
  intros [Hh Hs] -> (Hw & H0 & H1) Hc Hne. unfold handleInbound. cbv zeta.
  unfold writeHello. destruct (Hh (MkHello baseProtoVersion Self ethCaps 0 (fr_id f))) as (s & -> & _ & _).
  unfold Conn_Write. rewrite Hw. unfold readHelloDetails, Conn_Read. cbn [cn_reads NewConn].
  destruct (Hh (MkHello baseProtoVersion Self ethCaps 0 id)) as (hello & Eh & Dh & Lh). rewrite (H0 _ Eh).
  change (handshakeMsg =? discMsg) with false. change (negb (handshakeMsg =? handshakeMsg)) with false. cbv iota.
  rewrite (proj2 (Z.ltb_ge _ _) Lh), Dh. cbn [ph_Caps ph_Version ph_ListenPort].
  unfold exchangeEthStatus. change (negotiatedEthVersion ethCaps) with maxEthVersion. change (maxEthVersion =? 0) with false. cbv iota zeta.
  assert (forall n t, ownStatus n maxEthVersion t =
    Range (MkRange maxEthVersion (nw_NetworkID n) (GenesisHash n) (fst (CurrentForkIDAt n t)) 0 0 (GenesisHash n))) as Hown by done.
  rewrite (Hown local). destruct (Hs (MkRange maxEthVersion (nw_NetworkID local) (GenesisHash local) (fst (CurrentForkIDAt local now)) 0 0 (GenesisHash local)))
    as (p & -> & _ & _).
  unfold Conn_Write, Conn_Read. rewrite Hw. cbn [cn_reads SetSnappy].
  destruct (Hs (MkRange maxEthVersion (nw_NetworkID nw) (GenesisHash nw) (fst (CurrentForkIDAt nw at_)) 0 0 (GenesisHash nw))) as (q & Eq & Dq & Lq).
  rewrite (H1 q) by (by rewrite Hown).
  change (ethStatusMsg =? discMsg) with false. change (negb (ethStatusMsg =? ethStatusMsg)) with false. cbv iota.
  rewrite (proj2 (Z.ltb_ge _ _) Lq). unfold decodeEthStatus, decodeStatus. change (ethRangeStatusVersion <=? maxEthVersion) with true. cbv iota.
  rewrite Dq. cbn [statusFields sr_ProtocolVersion sr_NetworkID sr_Genesis sr_ForkID]. change (negb (maxEthVersion =? maxEthVersion)) with false. cbv iota zeta.
  rewrite Hc. upd_simpl. rewrite (proj2 (String.eqb_neq _ _) Hne). cbn [ib_Err ib_NodeID ib_Fingerprint]. upd_simpl. done.
Qed.
End Props.
