(* ===== verification/Libp2p.v ===== *)
(** [internal/enrich/libp2pident.go]: identifying a consensus node.

    A probe connects with libp2p, waits for identify to learn the agent string, and asks
    for the consensus Status.  libp2p, multiaddr and snappy are third-party: the host is
    the events it publishes and the agents it stores, a stream is the bytes it answers. *)

From stdpp Require Import base strings list numbers pretty.
From Stdlib Require Import ZArith Lia Ascii.
From S2P Require Import Prelude GoLib ForkId NetIP Consensus Network Text NodeData Clientname AgentNames Rlpx.
#[local] Open Scope Z_scope.

(** * Status on the wire *)

Definition statusV1SSZLen : Z := 84.
Definition statusV2SSZLen : Z := 92.

Record clStatus := MkCLStatus { cs_digest : string; cs_headSlot : Z }.

(** [binary.PutUvarint]. *)
Fixpoint uvarint_loop (fuel : nat) (x : Z) : list Z :=
  match fuel with
  | O => []
  | S fuel' => if x <? 128 then [x] else (x mod 128 + 128) :: uvarint_loop fuel' (x / 128)
  end.
Definition PutUvarint (x : Z) : string := of_bytes (uvarint_loop 10 x).

(** [binary.ReadUvarint]: the value and the bytes after it; an overflow of 64 bits and a
    truncated number are errors. *)
Fixpoint readUvarint_loop (i : nat) (x shift : Z) (l : list Z) {struct l} : option (Z * list Z) :=
  match l with
  | [] => None
  | b :: l' =>
      if (10 <=? i)%nat then None
      else if b <? 128 then
        if (i =? 9)%nat && (1 <? b) then None else Some (Z.lor x (wrapU64 (Z.shiftl b shift)), l')
      else readUvarint_loop (S i) (Z.lor x (wrapU64 (Z.shiftl (Z.land b 127) shift))) (shift + 7) l'
  end.
Definition ReadUvarint (s : string) : option (Z * string) :=
  match readUvarint_loop 0 0 0 (bytes s) with Some (v, rest) => Some (v, of_bytes rest) | None => None end.

(** The framed snappy of a whole payload, and reading [n] bytes of a framed stream. *)
Class SnappyStream := { snappy_frame : string -> string; snappy_readFull : string -> Z -> option string }.

(** One request stream: the negotiated protocol version, failures of the stream's own
    calls, and the bytes the peer answers. *)
Record StatusStream := MkStatusStream {
  ss_open : bool; ss_v2 : bool; ss_write : bool; ss_closeWrite : bool; ss_answer : string }.

(** [ma.NewMultiaddr], and what the code reads of an address. *)
Record Multiaddr := MkMultiaddr { ma_text : string; ma_IP : option string; ma_TCP : option string; ma_SNI : bool }.
Class MultiaddrLib := NewMultiaddr : string -> option Multiaddr.
Inductive identifyEvent :=
| IdentifyCompleted (peer agent : string)
| IdentifyFailed (peer : string)
| OtherEvent
| SubscriptionClosed
| ContextDone.

Section CL.
Context `{SnappyStream}.

Definition statusRequest (statusLen : Z) (localFork : string) : string :=
  PutUvarint statusLen +:+ snappy_frame (stake 4 localFork +:+ of_bytes (repeat 0 (Z.to_nat (statusLen - 4)))).

(** The answer of the peer, read as the source reads it. *)
Definition readStatus (statusLen : Z) (answer : string) : result clStatus :=
  match stake 1024 answer with
  | EmptyString => Err "EOF"
  | String code br =>
      if negb (byte_val code =? 0) then Err "consensus status response code %d"
      else match ReadUvarint br with
      | None => Err "read length"
      | Some (responseLen, br) =>
          if negb (responseLen =? statusLen) then Err "consensus status length %d, want %d"
          else match snappy_readFull br statusLen with
          | None => Err "read status"
          | Some response => Ok (MkCLStatus (stake 4 response) (le_get (stake 8 (sdrop 76 response))))
          end
      end
  end.

(** The request written, if it came to that, and the status. *)
Definition exchangeStatus (st : StatusStream) (localFork : string) : option string * result clStatus :=
  if slen localFork <? 4 then (None, Err "local consensus fork digest is required")
  else if negb (ss_open st) then (None, Err "new stream")
  else
    let statusLen := if ss_v2 st then statusV2SSZLen else statusV1SSZLen in
    (Some (statusRequest statusLen localFork),
     if negb (ss_write st) then Err "write"
     else if negb (ss_closeWrite st) then Err "close write"
     else readStatus statusLen (ss_answer st)).

(** * Applying a Status *)

Context (registry : list Network).

Definition applyCLStatus (fp : Probed) (s : clStatus) (now : Time) : Probed :=
  fp <| pf_Network := ClassifyCL registry (cs_digest s) |> <| pf_ForkHash := hex_encode (cs_digest s) |>
     <| pf_Head := cs_headSlot s |> <| pf_HeadAt := now |>.

(** What an agent string says. *)
Definition agentProbed (agent : string) : Probed :=
  let '(client, version, os, lang) := parseCLAgent agent in
  MkProbed client version os lang "" "" "" noForkID 0 zeroTime.

(** * Waiting for identify *)

(** The agent the peerstore holds for the peer, before the wait and after it settled. *)
Definition storedAgent (stored : option string) : string * bool :=
  match stored with Some s => (s, negb (s =? "")%string) | None => ("", false) end.

(** [settleAgent]: [settled] says that every connection finished identify before the
    context ended. *)
Definition settleAgent (settled : bool) (stored : option string) : string * bool :=
  if settled then storedAgent stored else ("", false).

(** The events the subscription delivers, up to the one that ends the wait; a wait that
    no event ends is ended by the context. *)
Fixpoint awaitEvents (pid : string) (events : list identifyEvent) (settled : bool) (after : option string) : string * bool :=
  match events with
  | [] | ContextDone :: _ | SubscriptionClosed :: _ => ("", false)
  | OtherEvent :: rest => awaitEvents pid rest settled after
  | IdentifyCompleted peer agent :: rest =>
      if negb (peer =? pid)%string then awaitEvents pid rest settled after
      else if negb (agent =? "")%string then (agent, true)
      else settleAgent settled after
  | IdentifyFailed peer :: rest =>
      if negb (peer =? pid)%string then awaitEvents pid rest settled after else settleAgent settled after
  end.

Definition awaitAgent (pid : string) (subscribed : bool) (stored : option string) (events : list identifyEvent)
  (settled : bool) (after : option string) : string * bool :=
  let '(s, ok) := storedAgent stored in
  if negb subscribed then (s, ok)
  else if ok then (s, true)
  else awaitEvents pid events settled after.

(** * Addresses *)

Context `{MultiaddrLib} `{SpecialNetworks}.

(** [InterceptAddrDial]. *)
Definition InterceptAddrDial (allowPrivate : bool) (addr : Multiaddr) : bool :=
  if ma_SNI addr then false
  else match ma_IP addr with Some ip => Usable ip allowPrivate | None => Usable "" allowPrivate end.

Definition libp2pAddrsWithPolicy (n : ENode) (allowPrivate : bool) : list Multiaddr :=
  let tcp := default 0 (en_TCP n) in
  let quic := default 0 (en_QUIC n) in
  let tcp6 := default tcp (en_TCP6 n) in
  let quic6 := default quic (en_QUIC6 n) in
  let add (s : string) := option_list (NewMultiaddr s) in
  let family (proto : string) (ip : option string) (tcp quic : Z) :=
    match ip with
    | Some ip =>
        if Usable ip allowPrivate then
          (if 0 <? tcp then add ("/" +:+ proto +:+ "/" +:+ IP_String ip +:+ "/tcp/" +:+ pretty tcp) else [])
          ++ (if 0 <? quic then add ("/" +:+ proto +:+ "/" +:+ IP_String ip +:+ "/udp/" +:+ pretty quic +:+ "/quic-v1") else [])
        else []
    | None => []
    end in
  family "ip4" (en_IPv4 n) tcp quic ++ family "ip6" (en_IPv6 n) tcp6 quic6.
Context `{EnodeLib}.

(** [strconv.Atoi] with the range the code then checks; a negative number is outside it. *)
Definition portOf (raw : string) : option Z :=
  let raw := match raw with String c s => if (c =? "+")%char then s else raw | "" => raw end in
  match (if all_digits raw then Atoi_digits raw else None) with
  | Some p => if (p <? 1) || (65535 <? p) then None else Some p
  | None => None
  end.

Fixpoint listenPort (remote : string) (addrs : list Multiaddr) : option Z :=
  match addrs with
  | [] => None
  | addr :: rest =>
      match ma_IP addr, ma_TCP addr with
      | Some ip, Some raw =>
          if IP_Equal ip remote then match portOf raw with Some p => Some p | None => listenPort remote rest end
          else listenPort remote rest
      | _, _ => listenPort remote rest
      end
  end.

Definition inboundCLNode (pub : option string) (remote : option string) (listenAddrs : list Multiaddr) (allowPrivate : bool) : option ENode :=
  match pub with
  | None => None
  | Some pub =>
      let remoteIP := default "" remote in
      if negb (Usable remoteIP allowPrivate) then None
      else match listenPort remoteIP listenAddrs with Some port => Some (NewV4 pub remoteIP port 0) | None => None end
  end.

(** * Probing *)

(** What happens to one probe.  [ca_inTime]: the Status result arrived before its grace
    and the context ended. *)
Record CLAttempt := MkCLAttempt {
  ca_pubkey : bool; ca_key : option goError; ca_connect : option goError;
  ca_subscribed : bool; ca_stored : option string; ca_events : list identifyEvent; ca_settled : bool; ca_after : option string;
  ca_stream : StatusStream; ca_inTime : bool; ca_now : Time }.

(** The fork entry a Status request carries: the caller's, or the target's own. *)
Definition forkEntry (n : ENode) (localFork : string) : string :=
  if slen localFork <? 4 then
    match en_Eth2 n with Some e2 => if 4 <=? slen e2 then e2 else localFork | None => localFork end
  else localFork.

Definition statusOutcome (a : CLAttempt) (localFork : string) : result clStatus :=
  if 4 <=? slen localFork then snd (exchangeStatus (ca_stream a) localFork) else Err "no consensus fork entry for status request".

Definition awaitStatus (inTime : bool) (outcome : result clStatus) (fp : Probed) (now : Time) : Probed :=
  if inTime then match outcome with Ok s => applyCLStatus fp s now | Err _ => fp end else fp.

(** [pid] is the peer's libp2p identity. *)
Definition cl_probe (allowPrivate : bool) (pid : string) (a : CLAttempt) (n : ENode) (localFork : string) : Probed * option goError :=
  if negb (ca_pubkey a) then (noProbed, Some (atProbeStage "identity" (Some (ErrText "node %s has no public key"))))
  else match libp2pAddrsWithPolicy n allowPrivate with
  | [] => (noProbed, Some (atProbeStage "endpoint" (Some (ErrText "node %s has no libp2p endpoint"))))
  | _ =>
      match ca_key a with
      | Some e => (noProbed, Some (atProbeStage "identity" (Some e)))
      | None =>
          match ca_connect a with
          | Some e => (noProbed, Some (atProbeStage "libp2p_connect" (Some e)))
          | None =>
              let outcome := statusOutcome a (forkEntry n localFork) in
              let (agent, ok) := awaitAgent pid (ca_subscribed a) (ca_stored a) (ca_events a) (ca_settled a) (ca_after a) in
              if ok then (awaitStatus (ca_inTime a) outcome (agentProbed agent) (ca_now a), None)
              else (noProbed, Some (atProbeStage "identify" (Some (ErrText "identify did not complete"))))
          end
      end
  end.

Record InboundCLFingerprint := MkInboundCL {
  ic_NodeID : string; ic_Node : option ENode; ic_Fingerprint : Probed; ic_Err : option goError }.

(** A peer whose key or agent is unknown is not reported. *)
Definition handleInboundIdentification (allowPrivate : bool) (pub : option string) (agentEvent : string) (stored : option string)
  (remote : option string) (listenAddrs : list Multiaddr) (st : StatusStream) (localFork : string) (now : Time)
  : option InboundCLFingerprint :=
  match pub with
  | None => None
  | Some pub =>
      let av := if (agentEvent =? "")%string then default "" stored else agentEvent in
      if (av =? "")%string then None
      else
        let fp := agentProbed av in
        let node := inboundCLNode (Some pub) remote listenAddrs allowPrivate in
        let fp := match snd (exchangeStatus st localFork) with Ok s => applyCLStatus fp s now | Err _ => fp end in
        Some (MkInboundCL (PubkeyToIDV4 pub) node fp None)
  end.
End CL.
