(* ===== verification/DialBudget.v ===== *)
(** [targetDialBudget] of [cmd/crawler/main.go]: how often one host may be dialled.

    One rate limiter per IPv4 address or IPv6 /64, in a table of bounded size.  The limiter
    is [golang.org/x/time/rate]'s, behind [RateLib]. *)

From stdpp Require Import base gmap strings list numbers.
From Stdlib Require Import ZArith Lia Ascii.
From S2P Require Import Prelude GoLib NetIP.
#[local] Open Scope Z_scope.

Class RateLib := {
  Rate : Type;
  Rate_positive : Rate -> bool;
  Limiter : Type;
  NewLimiter : Rate -> Z -> Limiter;
  AllowN : Limiter -> Time -> Z -> Limiter * bool
}.

Section Budget.
Context `{RateLib}.

Record targetLimiterEntry := MkTarget { tl_limiter : Limiter; tl_last : Time }.
Record targetDialBudget := MkBudget {
  tb_entries : gmap string targetLimiterEntry; tb_rate : Rate; tb_burst : Z; tb_limit : Z; tb_ttl : Duration }.

Definition newTargetDialBudget (perSecond : Rate) (burst limit : Z) (ttl : Duration) : targetDialBudget :=
  MkBudget ∅ perSecond burst limit ttl.

Definition withEntries (b : targetDialBudget) (m : gmap string targetLimiterEntry) : targetDialBudget :=
  MkBudget m (tb_rate b) (tb_burst b) (tb_limit b) (tb_ttl b).

(** [ip.To16()] of an address that [To4] refuses. *)
Definition targetKey (ip : string) : string :=
  match To4 ip with
  | Some b => dotted b +:+ "/32"
  | None => if slen ip =? 16 then hex_encode (stake 8 ip) +:+ "/64" else IP_String ip
  end.

Definition idle (b : targetDialBudget) (now : Time) (e : targetLimiterEntry) : bool := tb_ttl b <=? Sub now (tl_last e).

Definition tb_len (m : gmap string targetLimiterEntry) : Z := Z.of_nat (size m).

(** The table with room for a target, when a full one has entries to forget. *)
Definition makeTargetRoom (b : targetDialBudget) (now : Time) : gmap string targetLimiterEntry :=
  if tb_limit b <=? tb_len (tb_entries b) then filter (fun kv => idle b now kv.2 = false) (tb_entries b) else tb_entries b.

(** The entry of a target, new or old, in the table that may have made room for it. *)
Definition targetEntry (b : targetDialBudget) (key : string) (now : Time) : gmap string targetLimiterEntry * option Limiter :=
  match tb_entries b !! key with
  | Some e => (tb_entries b, Some (tl_limiter e))
  | None =>
      let m := makeTargetRoom b now in
      if tb_limit b <=? tb_len m then (m, None) else (m, Some (NewLimiter (tb_rate b) (tb_burst b)))
  end.

(** No address is [None], as is no budget. *)
Definition budget_Allow (budget : option targetDialBudget) (ip : option string) (now : Time) : option targetDialBudget * bool :=
  match budget with
  | None => (None, true)
  | Some b =>
      if negb (Rate_positive (tb_rate b)) then (budget, true)
      else match ip with
      | None => (budget, true)
      | Some ip =>
          let key := targetKey ip in
          let (m, limiter) := targetEntry b key now in
          match limiter with
          | None => (Some (withEntries b m), false)
          | Some l =>
              let (l, ok) := AllowN l now 1 in
              (Some (withEntries b (<[key := MkTarget l now]> m)), ok)
          end
      end
  end.

(** * Properties *)

(** A sequence of dials. *)
Definition dials (b : targetDialBudget) (ds : list (option string * Time)) : targetDialBudget :=
  foldl (fun b d => default b (fst (budget_Allow (Some b) d.1 d.2))) b ds.

(** The table stays within its limit, and the settings stay. *)
Definition sized (b : targetDialBudget) : Prop := tb_len (tb_entries b) <= Z.max 0 (tb_limit b).

Lemma room_smaller b now : tb_len (makeTargetRoom b now) <= tb_len (tb_entries b).
Proof.
  unfold makeTargetRoom, tb_len. destruct (_ <=? _); [|lia].
  enough (size (filter (fun kv : string * targetLimiterEntry => idle b now kv.2 = false) (tb_entries b)) <= size (tb_entries b))%nat by lia.
  apply map_subseteq_size, map_filter_subseteq.
Qed.

Lemma room_lookup b now key e :
  makeTargetRoom b now !! key = Some e -> tb_entries b !! key = Some e.
Proof. unfold makeTargetRoom. destruct (_ <=? _); [|done]. by intros [? _]%map_lookup_filter_Some. Qed.

Lemma room_keeps b now key e :
  tb_entries b !! key = Some e -> idle b now e = false -> makeTargetRoom b now !! key = Some e.
Proof. unfold makeTargetRoom. intros He Hi. destruct (_ <=? _); [|done]. by apply map_lookup_filter_Some. Qed.

Lemma entry_size b key now m l :
  targetEntry b key now = (m, l) -> sized b ->
  tb_len m <= Z.max 0 (tb_limit b) /\
  (forall l0 l', l = Some l0 -> tb_len (<[key := MkTarget l' now]> m) <= Z.max 0 (tb_limit b)).
Proof.
  unfold targetEntry, sized. intros He Hs. pose proof (room_smaller b now) as Hr.
  destruct (tb_entries b !! key) as [e|] eqn:E.
  - injection He as <- <-. split; [done|]. intros l0 l' _. unfold tb_len in *. rewrite map_size_insert_Some; [lia|by rewrite E].
  - assert (makeTargetRoom b now !! key = None) as Hn.
    { destruct (makeTargetRoom b now !! key) as [e|] eqn:Em; [|done]. apply room_lookup in Em. congruence. }
    destruct (Z.leb_spec (tb_limit b) (tb_len (makeTargetRoom b now))) as [Hle|Hlt]; injection He as <- <-; (split; [lia|]); [done|].
    intros l0 l' _. unfold tb_len in *. rewrite map_size_insert_None by done. lia.
Qed.

(** What one dial does to the table. *)
Lemma dial_spec b ip now b' ok :
  budget_Allow (Some b) ip now = (Some b', ok) ->
  tb_rate b' = tb_rate b /\ tb_burst b' = tb_burst b /\ tb_limit b' = tb_limit b /\ tb_ttl b' = tb_ttl b /\
  (sized b -> sized b') /\
  (forall key e, tb_entries b !! key = Some e -> idle b now e = false -> (forall i, ip = Some i -> targetKey i <> key) -> tb_entries b' !! key = Some e).
Proof.
  unfold budget_Allow. destruct (negb _); [intros [= <- _]; by split_and!|]. destruct ip as [ip|]; [|intros [= <- _]; by split_and!].
  destruct (targetEntry b (targetKey ip) now) as [m l] eqn:Ee. cbv zeta.
  assert (forall key e, tb_entries b !! key = Some e -> idle b now e = false -> m !! key = Some e) as Hkeep.
  { intros key e He Hi. revert Ee. unfold targetEntry. destruct (tb_entries b !! targetKey ip); [by intros [= <- _]|].
    destruct (_ <=? _); intros [= <- _]; by apply room_keeps. }
  destruct l as [l|].
  - destruct (AllowN l now 1) as [l' ok']. intros [= <- _]. cbn [withEntries tb_rate tb_burst tb_limit tb_ttl tb_entries default].
    split_and!; [done..| |].
    + intros Hs. destruct (entry_size _ _ _ _ _ Ee Hs) as [_ Hl]. unfold sized. cbn [withEntries tb_entries tb_limit]. by apply (Hl l).
    + intros key e He Hi Hne. rewrite lookup_insert_ne by by apply Hne. by apply Hkeep.
  - intros [= <- _]. cbn [withEntries tb_rate tb_burst tb_limit tb_ttl tb_entries default]. split_and!; [done..| |].
    + intros Hs. destruct (entry_size _ _ _ _ _ Ee Hs) as [Hm _]. done.
    + intros key e He Hi _. by apply Hkeep.
Qed.

Lemma dial_some b ip now : exists b' ok, budget_Allow (Some b) ip now = (Some b', ok).
Proof. unfold budget_Allow. repeat case_goal; eauto. Qed.

Lemma dials_snoc b ds d : dials b (ds ++ [d]) = default (dials b ds) (fst (budget_Allow (Some (dials b ds)) d.1 d.2)).
Proof. unfold dials. by rewrite foldl_app. Qed.

(** The dial budget cannot be made to grow or to forget: after any sequence of dials
    the table holds at most its limit of targets, two spellings of one IPv4 address and
    two addresses of one IPv6 /64 share an entry, and only an entry idle for the whole
    time to live can be dropped for another target. *)
Theorem budget_bounded rate burst limit ttl ds :
  let b := dials (newTargetDialBudget rate burst limit ttl) ds in
  tb_len (tb_entries b) <= Z.max 0 limit /\
  (forall ip ip' b4, To4 ip = Some b4 -> To4 ip' = Some b4 -> targetKey ip = targetKey ip') /\
  (forall ip ip', To4 ip = None -> To4 ip' = None -> slen ip = 16 -> slen ip' = 16 -> stake 8 ip = stake 8 ip' -> targetKey ip = targetKey ip') /\
  (forall ip now key e, tb_entries b !! key = Some e -> Sub now (tl_last e) < ttl -> key <> targetKey ip ->
     exists b' ok, budget_Allow (Some b) (Some ip) now = (Some b', ok) /\ tb_entries b' !! key = Some e).
Proof.
  intros b. assert (sized b /\ tb_limit b = limit /\ tb_ttl b = ttl) as (Hs & Hl & Ht).
  { subst b. induction ds as [|d ds IH] using rev_ind.
    - split_and!; [|done|done]. unfold sized, tb_len. cbn. rewrite map_size_empty. lia.
    - rewrite dials_snoc. destruct (dial_some (dials (newTargetDialBudget rate burst limit ttl) ds) d.1 d.2) as (b' & ok & E).
      rewrite E. cbn [fst from_option id]. destruct (dial_spec _ _ _ _ _ E) as (_ & _ & Hl & Ht & Hs & _).
      destruct IH as (IHs & IHl & IHt). rewrite Hl, Ht. split_and!; auto. }
  split_and!.
  - unfold sized in Hs. by rewrite Hl in Hs.
  - intros ip ip' b4 H1 H2. unfold targetKey. by rewrite H1, H2.
  - intros ip ip' H1 H2 L1 L2 Hst. unfold targetKey. rewrite H1, H2, L1, L2, Z.eqb_refl. by rewrite Hst.
  - intros ip now key e He Hi Hne. destruct (dial_some b (Some ip) now) as (b' & ok & E). exists b', ok. split; [done|].
    destruct (dial_spec _ _ _ _ _ E) as (_ & _ & _ & _ & _ & Hk). apply Hk; [done| |by intros i [= <-]].
    unfold idle. apply Z.leb_gt. by rewrite Ht.
Qed.
End Budget.
