(* ===== verification/Releases.v ===== *)
(** [internal/netconf/releases.go] and [notices.go]: the operator's table of
    fork-ready client releases, how a reported version compares with it, and the
    notices shown beside it.

    The table, the notices and their generation are the state behind
    [releasesMu].  [net/url.Parse] is a parameter: [httpURL] sees the scheme and
    the host it returns. *)

From stdpp Require Import base strings list numbers.
From Stdlib Require Import ZArith Lia Ascii.
From S2P Require Import Prelude GoLib Text Clientname Hashes Consensus ForkId Network Readiness.

(** * Versions *)

Definition version3 : Type := Z * Z * Z.

(** [leadingSemver]: the submatches, an absent patch being empty, and the text after the match. *)
Definition leadingSemver (v : string) : option (string * string * string * string) :=
  let s := match v with String c s' => if (c =? "v")%char || (c =? "V")%char then s' else v | "" => "" end in
  let (major, rest) := take_digits s in
  match rest with
  | String "."%char rest =>
      let (minor, rest) := take_digits rest in
      if (major =? "")%string || (minor =? "")%string then None
      else match rest with
           | String "."%char rest' =>
               let (patch, rest'') := take_digits rest' in
               if (patch =? "")%string then Some (major, minor, "", rest) else Some (major, minor, patch, rest'')
           | _ => Some (major, minor, "", rest)
           end
  | _ => None
  end.

Definition versionSuffix (v : string) : string :=
  let v := TrimSpace v in
  match leadingSemver v with Some (_, _, _, rest) => rest | None => v end.

Definition part (s : string) : option Z := if (s =? "")%string then Some 0 else Atoi_digits s.

Definition semverCore (v : string) : option version3 :=
  match leadingSemver (TrimSpace v) with
  | None => None
  | Some (a, b, c, _) =>
      match part a, part b, part c with
      | Some x, Some y, Some z => Some (x, y, z)
      | _, _, _ => None
      end
  end.

Definition semverLess (a b : version3) : bool :=
  let '(a0, a1, a2) := a in
  let '(b0, b1, b2) := b in
  if negb (a0 =? b0) then a0 <? b0 else if negb (a1 =? b1) then a1 <? b1 else if negb (a2 =? b2) then a2 <? b2 else false.

Definition buildTokens : list string :=
  ["rc"; "alpha"; "beta"; "unstable"; "dev"; "develop"; "nightly"; "main"; "master"; "pre"; "snapshot"].

Definition is_sep (c : ascii) : bool := contains_func (Ascii.eqb c) ["-"; "+"; "."; "_"; "/"]%char.

(** A token at the start of [s], its digits, and the end or a separator. *)
Definition devHere (s : string) : bool :=
  contains_func (fun t =>
    HasPrefix s t && match skip_digits (sdrop (String.length t) s) with "" => true | String c _ => is_sep c end) buildTokens.

Fixpoint devAfter (s : string) : bool :=
  match s with "" => false | String c s' => (is_sep c && devHere s') || devAfter s' end.

Definition devBuildToken (s : string) : bool := let s := ToLower s in devHere s || devAfter s.

(** * Comparing with the floors *)

Definition ReleaseMeets : string := "meets".
Definition ReleaseBelow : string := "below".
Definition ReleaseDevBuild : string := "dev_build".
Definition ReleaseUnparsable : string := "unparsable".
Definition ReleaseAffected : string := "affected".
Definition ReleaseUnaffected : string := "unaffected".

Definition sameLine (a b : version3) : bool := (a.1.1 =? b.1.1) && (a.1.2 =? b.1.2).

(** The loop of [ReleaseStatus]: [None] is its early return. *)
Fixpoint floors_loop (got : version3) (highest : option version3) (floors : list string) : option (option version3) :=
  match floors with
  | [] => Some highest
  | f :: floors' =>
      match semverCore f with
      | None => floors_loop got highest floors'
      | Some floor =>
          if sameLine floor got && negb (semverLess got floor) then None
          else floors_loop got (match highest with
                                | Some h => if semverLess h floor then Some floor else highest
                                | None => Some floor
                                end) floors'
      end
  end.

Definition ReleaseStatus (floors : list string) (version : string) : string :=
  match semverCore version with
  | None => ReleaseUnparsable
  | Some got =>
      if devBuildToken (versionSuffix version) then ReleaseDevBuild
      else match floors_loop got None floors with
           | None => ReleaseMeets
           | Some None => ReleaseUnparsable
           | Some (Some highest) => if negb (semverLess got highest) then ReleaseMeets else ReleaseBelow
           end
  end.

Fixpoint lineFloor_loop (got : version3) (highest : option version3) (floors : list string) : option version3 :=
  match floors with
  | [] => highest
  | f :: floors' =>
      match semverCore f with
      | None => lineFloor_loop got highest floors'
      | Some floor =>
          if sameLine floor got then Some floor
          else lineFloor_loop got (match highest with
                                   | Some h => if semverLess h floor then Some floor else highest
                                   | None => Some floor
                                   end) floors'
      end
  end.
Definition lineFloor (floors : list string) (got : version3) : option version3 := lineFloor_loop got None floors.

Definition CancelledReleaseStatus (scheduled unscheduled : list string) (version : string) : string :=
  let s := ReleaseStatus scheduled version in
  if (s =? ReleaseMeets)%string then
    let got := default (0, 0, 0) (semverCore version) in
    let reached := default (0, 0, 0) (lineFloor scheduled got) in
    match lineFloor unscheduled got with
    | Some fix_ => if negb (semverLess got fix_) && negb (semverLess fix_ reached) then ReleaseUnaffected else ReleaseAffected
    | None => ReleaseAffected
    end
  else if (s =? ReleaseBelow)%string then ReleaseUnaffected
  else s.

(** * The table *)

Record ClientRelease := MkClientRelease {
  cr_Fork : string; cr_Network : string; cr_Layer : string; cr_Client : string; cr_ForkTime : Z;
  cr_MinVersions : list string; cr_UnscheduledIn : list string; cr_Prerelease : string; cr_Released : string;
  cr_URL : string; cr_Latest : string; cr_LatestURL : string; cr_Outdated : bool }.

Record ClientReleaseTable := MkReleaseTable { rt_Updated : string; rt_Releases : list ClientRelease }.

Record NoticeLink := MkNoticeLink { nl_Label : string; nl_URL : string }.
Record Notice := MkNotice {
  no_Network : string; no_Fork : string; no_Severity : string; no_Title : string; no_Body : string;
  no_Links : list NoticeLink; no_Starts : option Time; no_Expires : option Time }.

(** The variables behind [releasesMu]. *)
Record ReleaseState := MkReleaseState { rs_table : ClientReleaseTable; rs_notices : list Notice; rs_gen : Z }.
Definition rs_initial : ReleaseState := MkReleaseState (MkReleaseTable "" []) [] 0.

Definition releaseKey (r : ClientRelease) : string :=
  cr_Network r +:+ "/" +:+ ToLower (cr_Fork r) +:+ "/" +:+ cr_Layer r +:+ "/" +:+ cr_Client r.

(** [time.Parse(time.DateOnly, s)] succeeds. *)
Definition leap (y : Z) : bool := (y mod 4 =? 0) && (negb (y mod 100 =? 0) || (y mod 400 =? 0)).
Definition month_days (y m : Z) : Z :=
  if m =? 2 then (if leap y then 29 else 28) else if contains_func (Z.eqb m) [4; 6; 9; 11] then 30 else 31.
Definition isDate (s : string) : bool :=
  match s with
  | String y0 (String y1 (String y2 (String y3 (String "-"%char (String m0 (String m1 (String "-"%char (String d0 (String d1 ""))))))))) =>
      let num (l : list ascii) := foldl (fun acc c => acc * 10 + (byte_val c - 48)) 0 l in
      let y := num [y0; y1; y2; y3] in let m := num [m0; m1] in let d := num [d0; d1] in
      forallb is_digit [y0; y1; y2; y3; m0; m1; d0; d1] && (1 <=? m) && (m <=? 12) && (1 <=? d) && (d <=? month_days y m)
  | _ => false
  end.

(** The scheme and host [net/url.Parse] returns. *)
Class URLParser := ParseURL : string -> option (string * string).

Section Table.
Context `{Hurl : URLParser} (registry : list Network).

Definition knownNetwork (name : string) : bool := is_ok (Get registry name).

Definition httpURL (s : string) : bool :=
  match ParseURL s with
  | Some (scheme, host) => ((scheme =? "http")%string || (scheme =? "https")%string) && negb (host =? "")%string
  | None => false
  end.

(** The [switch] of [Validate] on one entry: the first complaint, if any. *)
Definition entryError (seen : list string) (r : ClientRelease) : list string :=
  if (cr_Network r =? "")%string || (cr_Fork r =? "")%string then ["%s: network and fork are required"]
  else if negb (cr_Released r =? "")%string && negb (isDate (cr_Released r)) then ["%s: released %q is not a YYYY-MM-DD date"]
  else if negb (knownNetwork (cr_Network r)) then ["%s: unknown network %q"]
  else if negb (cr_URL r =? "")%string && negb (httpURL (cr_URL r)) then ["%s: url %q is not an http(s) URL"]
  else if negb (cr_LatestURL r =? "")%string && negb (httpURL (cr_LatestURL r)) then ["%s: latest_url %q is not an http(s) URL"]
  else if negb (cr_Latest r =? "")%string && negb (ReleaseStatus (cr_MinVersions r) (cr_Latest r) =? ReleaseMeets)%string
  then ["%s: latest %q is not a release that meets min_versions"]
  else if negb (cr_Layer r =? "el")%string && negb (cr_Layer r =? "cl")%string then ["%s: layer %q"]
  else if negb (Canonical (cr_Layer r) (cr_Client r) =? cr_Client r)%string || negb (Recognized (cr_Layer r) (cr_Client r))
  then ["%s: %q is not a canonical client name, so its label would never match a row"]
  else if contains_func (String.eqb (releaseKey r)) seen then ["%s: duplicate entry"]
  else if (negb (bool_decide (cr_MinVersions r = [])) || negb (cr_Prerelease r =? "")%string) && (cr_ForkTime r =? 0)
  then ["%s: a release needs the fork_time it was verified against"]
  else [].

Definition minVersionErrors (r : ClientRelease) : list string :=
  flat_map (fun v => if negb (bool_decide (is_Some (semverCore v))) || devBuildToken (versionSuffix v)
                     then ["%s: min version %q is not a release version"] else []) (cr_MinVersions r).

Definition unscheduledErrors (r : ClientRelease) : list string :=
  flat_map (fun v => if negb (bool_decide (is_Some (semverCore v))) then ["%s: unscheduled_in version %q is not a version"] else [])
    (cr_UnscheduledIn r)
  ++ (if negb (bool_decide (cr_UnscheduledIn r = [])) && bool_decide (cr_MinVersions r = []) && (cr_Prerelease r =? "")%string
      then ["%s: unscheduled_in needs the min_versions or prerelease that scheduled the fork"] else []).

Fixpoint entryErrors (seen : list string) (l : list ClientRelease) : list string :=
  match l with
  | [] => []
  | r :: l' => entryError seen r ++ minVersionErrors r ++ unscheduledErrors r ++ entryErrors (releaseKey r :: seen) l'
  end.

(** [Validate]: the joined errors; none is success. *)
Definition table_Validate (t : ClientReleaseTable) : list string :=
  (if negb (rt_Updated t =? "")%string && negb (isDate (rt_Updated t)) then ["updated %q is not a YYYY-MM-DD date"] else [])
  ++ entryErrors [] (rt_Releases t).

(** * Notices *)

Definition NoticeInfo : string := "info".
Definition NoticeWarning : string := "warning".
Definition NoticeCritical : string := "critical".
Definition maxNoticeTitle : Z := 200.
Definition maxNoticeBody : Z := 4000.
Definition maxNoticeLinks : Z := 8.

Definition noticeError (n : Notice) : list string :=
  if (no_Title n =? "")%string || (maxNoticeTitle <? slen (no_Title n)) then ["%s: title is required and at most %d bytes"]
  else if maxNoticeBody <? slen (no_Body n) then ["%s: body is over %d bytes"]
  else if negb (no_Severity n =? NoticeInfo)%string && negb (no_Severity n =? NoticeWarning)%string && negb (no_Severity n =? NoticeCritical)%string
  then ["%s: severity %q is not info, warning or critical"]
  else if negb (no_Network n =? "")%string && negb (knownNetwork (no_Network n)) then ["%s: unknown network %q"]
  else if match no_Starts n, no_Expires n with Some s, Some e => negb (Before s e) | _, _ => false end then ["%s: starts is not before expires"]
  else if maxNoticeLinks <? Z.of_nat (length (no_Links n)) then ["%s: more than %d links"]
  else [].

Definition ValidateNotices (l : list Notice) : list string :=
  flat_map (fun n => noticeError n ++
    flat_map (fun k => if (nl_Label k =? "")%string || negb (httpURL (nl_URL k)) then ["%s: link %q needs a label and an http(s) URL"] else [])
      (no_Links n)) l.

Definition noticeActive (network : string) (at_ : Time) (n : Notice) : bool :=
  ((no_Network n =? "")%string || (no_Network n =? network)%string)
  && match no_Starts n with None => true | Some s => negb (Before at_ s) end
  && match no_Expires n with None => true | Some e => Before at_ e end.

Definition NoticesAt (s : ReleaseState) (network : string) (at_ : Time) : list Notice :=
  List.filter (noticeActive network at_) (rs_notices s).

(** * Replacing the table *)

Definition ClientReleasesGeneration (s : ReleaseState) : Z := rs_gen s.

(** The new state and the errors. *)
Definition SetClientReleases (s : ReleaseState) (t : ClientReleaseTable) : ReleaseState * list string :=
  match table_Validate t with
  | [] => (MkReleaseState t (rs_notices s) (wrapU64 (rs_gen s + 1)), [])
  | errs => (s, errs)
  end.

Definition SetForkFileData (s : ReleaseState) (t : ClientReleaseTable) (n : list Notice) : ReleaseState * list string :=
  match table_Validate t ++ ValidateNotices n with
  | [] => (MkReleaseState t n (wrapU64 (rs_gen s + 1)), [])
  | errs => (s, errs)
  end.
End Table.

Definition markOutdated (target : ForkTarget) (r : ClientRelease) : ClientRelease :=
  if negb (cr_ForkTime r =? 0) then
    let want :=
      match ft_EL target, ft_CL target with
      | Some el, cl => if (cr_Layer r =? "el")%string then elt_Time el
                       else match cl with Some cl => if (cr_Layer r =? "cl")%string then wrapU64 (Unix (clt_Time cl)) else 0 | None => 0 end
      | None, Some cl => if (cr_Layer r =? "cl")%string then wrapU64 (Unix (clt_Time cl)) else 0
      | None, None => 0
      end in
    MkClientRelease (cr_Fork r) (cr_Network r) (cr_Layer r) (cr_Client r) (cr_ForkTime r) (cr_MinVersions r) (cr_UnscheduledIn r)
      (cr_Prerelease r) (cr_Released r) (cr_URL r) (cr_Latest r) (cr_LatestURL r) (negb (cr_ForkTime r =? want))
  else r.

Definition ClientReleasesAt (s : ReleaseState) (network : string) (target : ForkTarget) : string * list ClientRelease :=
  (rt_Updated (rs_table s),
   map (markOutdated target)
     (List.filter (fun r => (cr_Network r =? network)%string && EqualFold (cr_Fork r) (ft_Name target)) (rt_Releases (rs_table s)))).

(** * Examples from the test suite's formats *)

Example semver_geth : semverCore " v1.16.3-stable-a0b1c2d3" = Some (1, 16, 3) /\ devBuildToken (versionSuffix "v1.16.3-stable-a0b1c2d3") = false.
Proof. by vm_compute. Qed.
Example semver_dev : devBuildToken (versionSuffix "1.38.0-RC1+abc") = true /\ devBuildToken (versionSuffix "v2.1.0-predicate") = false.
Proof. by vm_compute. Qed.
Example status_backport : ReleaseStatus ["1.39.4"; "2.0.0"] "1.39.5" = ReleaseMeets /\ ReleaseStatus ["1.39.4"; "2.0.0"] "1.40.0" = ReleaseBelow.
Proof. by vm_compute. Qed.

(** * Floors *)

(** The order on versions, as a proposition. *)
Definition vle (a b : version3) : Prop := semverLess b a = false.

Lemma vle_spec a b :
  vle a b <-> a.1.1 < b.1.1 \/ a.1.1 = b.1.1 /\ (a.1.2 < b.1.2 \/ a.1.2 = b.1.2 /\ a.2 <= b.2).
Proof.
  destruct a as [[a0 a1] a2], b as [[b0 b1] b2]. unfold vle, semverLess. cbn [fst snd].
  destruct (Z.eqb_spec b0 a0), (Z.eqb_spec b1 a1), (Z.eqb_spec b2 a2); cbn [negb]; rewrite ?Z.ltb_ge; try lia; split; intros; try done; lia.
Qed.

Lemma vless_spec a b : semverLess a b = true <-> ~ vle b a.
Proof. unfold vle. by destruct (semverLess a b). Qed.

Lemma vle_trans a b c : vle a b -> vle b c -> vle a c.
Proof. rewrite !vle_spec. lia. Qed.
Lemma vle_total a b : vle a b \/ vle b a.
Proof. rewrite !vle_spec. lia. Qed.
Lemma vle_refl a : vle a a.
Proof. rewrite vle_spec. lia. Qed.

Lemma sameLine_spec a b : sameLine a b = true <-> a.1 = b.1.
Proof. destruct a as [[??]?], b as [[??]?]. unfold sameLine. cbn. rewrite andb_true_iff, !Z.eqb_eq. naive_solver. Qed.

(** The floors that parse. *)
Definition parsed (floors : list string) : list version3 := omap semverCore floors.

(** [highest] is the greatest of [l]. *)
Definition greatest (highest : option version3) (l : list version3) : Prop :=
  match highest with
  | None => l = []
  | Some h => h ∈ l /\ forall f, f ∈ l -> vle f h
  end.

Lemma greatest_step highest seen floor :
  greatest highest seen ->
  greatest (match highest with Some h => if semverLess h floor then Some floor else highest | None => Some floor end) (seen ++ [floor]).
Proof.
  destruct highest as [h|]; cbn.
  - intros [Hh Hall]. destruct (semverLess h floor) eqn:E; cbn; split.
    + apply elem_of_app. right. by left.
    + intros f [Hf|Hf%list_elem_of_singleton]%elem_of_app; [|subst; apply vle_refl].
      apply vless_spec in E. destruct (vle_total h floor); [|done]. eapply vle_trans; [by apply Hall|done].
    + apply elem_of_app. by left.
    + intros f [Hf|Hf%list_elem_of_singleton]%elem_of_app; [by apply Hall|by subst].
  - intros ->. split; [by left|]. intros f Hf%list_elem_of_singleton. subst. apply vle_refl.
Qed.

Lemma floors_loop_spec got highest seen floors :
  greatest highest seen ->
  match floors_loop got highest floors with
  | None => exists f, f ∈ parsed floors /\ sameLine f got = true /\ vle f got
  | Some h => greatest h (seen ++ parsed floors) /\ forall f, f ∈ parsed floors -> sameLine f got = true -> ~ vle f got
  end.
Proof.
  revert highest seen. induction floors as [|s floors IH]; intros highest seen Hg; cbn [floors_loop parsed omap list_omap].
  { rewrite app_nil_r. split; [done|]. intros f Hf%elem_of_nil. done. }
  destruct (semverCore s) as [floor|]; [|by apply IH].
  destruct (sameLine floor got && negb (semverLess got floor)) eqn:E.
  - apply andb_true_iff in E as [E1 E2]. exists floor. split_and!; [left|done|]. unfold vle. by destruct (semverLess got floor).
  - specialize (IH _ (seen ++ [floor]) (greatest_step highest seen floor Hg)). rewrite <- (assoc_L (++)) in IH.
    destruct (floors_loop got _ floors) as [h|].
    + destruct IH as [Hh Hno]. split; [exact Hh|]. intros f [->|Hf]%elem_of_cons Hs; [|by apply Hno].
      rewrite Hs in E. cbn in E. unfold vle. by destruct (semverLess got floor).
    + destruct IH as (f & Hf & H1 & H2). exists f. split; [by right|done].
Qed.

(** What [ReleaseStatus] decides for a release version. *)
Definition meets (fs : list version3) (got : version3) : Prop :=
  (exists f, f ∈ fs /\ f.1 = got.1 /\ vle f got) \/ fs <> [] /\ forall f, f ∈ fs -> vle f got.

Lemma ReleaseStatus_cases floors version got :
  semverCore version = Some got -> devBuildToken (versionSuffix version) = false ->
  (ReleaseStatus floors version = ReleaseMeets /\ meets (parsed floors) got) \/
  (ReleaseStatus floors version = ReleaseBelow /\ parsed floors <> [] /\ ~ meets (parsed floors) got) \/
  (ReleaseStatus floors version = ReleaseUnparsable /\ parsed floors = []).
Proof.
  intros Hgot Hdev. unfold ReleaseStatus. rewrite Hgot, Hdev.
  pose proof (floors_loop_spec got None [] floors eq_refl) as H. cbn [app] in H.
  destruct (floors_loop got None floors) as [[h|]|].
  - destruct H as [[Hh Hmax] Hno]. assert (parsed floors <> []) as Hne by (intros E; rewrite E in Hh; by apply elem_of_nil in Hh).
    destruct (semverLess got h) eqn:E; cbn [negb].
    + right. left. split_and!; [done|done|]. intros [(f & Hf & Hl & Hle)|[_ Hall]].
      * apply (Hno f Hf); [by apply sameLine_spec|done].
      * apply vless_spec in E. apply E, Hall, Hh.
    + left. split; [done|]. right. split; [done|]. intros f Hf. eapply vle_trans; [by apply Hmax|exact E].
  - right. right. split; [done|]. by destruct H as [-> _].
  - left. split; [done|]. left. destruct H as (f & Hf & Hl & Hle). exists f. split_and!; [done|by apply sameLine_spec|done].
Qed.

(** A version meets a table of floors exactly when it reaches the floor of its
    own release line or every floor there is; otherwise it is below, unless no floor
    parses.  The order of the floors does not matter, a version that does not
    parse is never labelled, and a development build is never taken for a release. *)
Theorem ReleaseStatus_spec floors version :
  match semverCore version with
  | None => ReleaseStatus floors version = ReleaseUnparsable
  | Some got =>
      if devBuildToken (versionSuffix version) then ReleaseStatus floors version = ReleaseDevBuild
      else (ReleaseStatus floors version = ReleaseMeets <-> meets (parsed floors) got) /\
           (ReleaseStatus floors version = ReleaseUnparsable <-> parsed floors = []) /\
           (ReleaseStatus floors version = ReleaseBelow <-> parsed floors <> [] /\ ~ meets (parsed floors) got)
  end.
Proof.
  destruct (semverCore version) as [got|] eqn:Hgot; [|by unfold ReleaseStatus; rewrite Hgot].
  destruct (devBuildToken (versionSuffix version)) eqn:Hdev; [by unfold ReleaseStatus; rewrite Hgot, Hdev|].
  assert (parsed floors = [] -> ~ meets (parsed floors) got) as Hnil.
  { intros -> [(f & Hf & _)|[? _]]; [by apply elem_of_nil in Hf|done]. }
  destruct (ReleaseStatus_cases floors version got Hgot Hdev) as [(-> & Hm)|[(-> & Hne & Hm)|(-> & Hnone)]]; naive_solver.
Qed.

(** ** Cancelled forks *)

Lemma lineFloor_loop_spec got highest seen floors :
  greatest highest seen ->
  match lineFloor_loop got highest floors with
  | None => seen = [] /\ parsed floors = []
  | Some h => (h ∈ parsed floors /\ h.1 = got.1) \/
              (forall f, f ∈ parsed floors -> f.1 <> got.1) /\ greatest (Some h) (seen ++ parsed floors)
  end.
Proof.
  revert highest seen. induction floors as [|s floors IH]; intros highest seen Hg; cbn [lineFloor_loop parsed omap list_omap].
  { rewrite app_nil_r. destruct highest as [h|]; [|done]. right. split; [|done]. by intros f Hf%elem_of_nil. }
  destruct (semverCore s) as [floor|]; [|by apply IH]. destruct (sameLine floor got) eqn:E.
  - left. split; [left|by apply sameLine_spec].
  - specialize (IH _ (seen ++ [floor]) (greatest_step highest seen floor Hg)). rewrite <- (assoc_L (++)) in IH.
    destruct (lineFloor_loop got _ floors) as [h|]; [|destruct IH as [Hn _]; by destruct seen].
    destruct IH as [[Hh Hl]|[Hno Hh]]; [left; split; [by right|done]|right; split; [|done]].
    intros f [->|Hf]%elem_of_cons; [|by apply Hno]. intros Heq. apply sameLine_spec in Heq. congruence.
Qed.

Lemma lineFloor_spec floors got :
  match lineFloor floors got with
  | None => parsed floors = []
  | Some h => (h ∈ parsed floors /\ h.1 = got.1) \/ (forall f, f ∈ parsed floors -> f.1 <> got.1) /\ greatest (Some h) (parsed floors)
  end.
Proof.
  pose proof (lineFloor_loop_spec got None [] floors eq_refl) as H. cbn [app] in H. unfold lineFloor.
  destruct (lineFloor_loop got None floors); [done|tauto].
Qed.

(** One floor per release line, as the operator's file lists them. *)
Definition one_per_line (floors : list string) : Prop :=
  forall f g, f ∈ parsed floors -> g ∈ parsed floors -> f.1 = g.1 -> f = g.

(** A cancelled fork's label clears a version only for a reason.  A version below
    the schedule is unaffected.  One that reaches it is unaffected only when it has
    reached a fix that is not older than the scheduling floor of its own line, or,
    on a line without one, than any scheduling floor: a fix backported to an older
    line never clears a newer line that still schedules the fork. *)
Theorem cancelled_cleared scheduled unscheduled version got :
  one_per_line scheduled -> parsed scheduled <> [] ->
  semverCore version = Some got -> devBuildToken (versionSuffix version) = false ->
  (~ meets (parsed scheduled) got -> CancelledReleaseStatus scheduled unscheduled version = ReleaseUnaffected) /\
  (meets (parsed scheduled) got ->
   CancelledReleaseStatus scheduled unscheduled version = ReleaseAffected \/
   CancelledReleaseStatus scheduled unscheduled version = ReleaseUnaffected /\
   exists fix_, fix_ ∈ parsed unscheduled /\ vle fix_ got /\
     forall f, f ∈ parsed scheduled -> f.1 = got.1 \/ (forall g, g ∈ parsed scheduled -> g.1 <> got.1) -> vle f fix_).
Proof.
  intros Hone Hne Hgot Hdev. unfold CancelledReleaseStatus. rewrite Hgot. cbn [from_option id].
  destruct (ReleaseStatus_cases scheduled version got Hgot Hdev) as [(-> & Hm)|[(-> & _ & Hm)|(_ & ?)]]; [|split; [done|by intros ?]|done].
  split; [by intros ?|]. intros _. cbn [String.eqb]. change (ReleaseMeets =? ReleaseMeets)%string with true. cbn [negb].
  pose proof (lineFloor_spec scheduled got) as Hs. pose proof (lineFloor_spec unscheduled got) as Hu.
  destruct (lineFloor scheduled got) as [reached|]; [|done]. cbn [from_option id].
  destruct (lineFloor unscheduled got) as [fix_|]; [|by left].
  destruct (semverLess got fix_) eqn:E1; [by left|]. destruct (semverLess fix_ reached) eqn:E2; [by left|]. cbn [negb andb].
  right. split; [done|]. exists fix_. split_and!; [|exact E1|].
  - destruct Hu as [[? _]|[_ [? _]]]; done.
  - intros f Hf Hline. destruct Hs as [[Hin Hl]|[Hno [_ Hmax]]].
    + destruct Hline as [Hf1|Hnone]; [|by destruct (Hnone reached Hin)]. rewrite (Hone f reached Hf Hin) by congruence. exact E2.
    + eapply vle_trans; [apply Hmax, Hf|exact E2].
Qed.

Lemma cancelled_cleared_witness :
  CancelledReleaseStatus ["1.39.4"; "2.0.0"] ["1.39.5"] "v2.0.1" = ReleaseAffected \/
  CancelledReleaseStatus ["1.39.4"; "2.0.0"] ["1.39.5"] "v2.0.1" = ReleaseUnaffected /\
  exists fix_, fix_ ∈ parsed ["1.39.5"] /\ vle fix_ (2, 0, 1) /\
    forall f, f ∈ parsed ["1.39.4"; "2.0.0"] -> f.1 = (2, 0) \/ (forall g, g ∈ parsed ["1.39.4"; "2.0.0"] -> g.1 <> (2, 0)) -> vle f fix_.
Proof.
  refine (proj2 (cancelled_cleared ["1.39.4"; "2.0.0"] ["1.39.5"] "v2.0.1" (2, 0, 1) _ _ eq_refl eq_refl) _); [|done|].
  - intros f g Hf Hg. change (parsed ["1.39.4"; "2.0.0"]) with [(1, 39, 4); (2, 0, 0)] in Hf, Hg.
    apply elem_of_cons in Hf as [->|Hf%list_elem_of_singleton]; apply elem_of_cons in Hg as [->|Hg%list_elem_of_singleton]; subst; done.
  - left. exists (2, 0, 0). split_and!; [right; left|done|vm_compute; reflexivity].
Defined.

(** * The table never holds bad data *)

Section TableProps.
Context `{Hurl : URLParser} (registry : list Network).

(** What a validated entry guarantees. *)
Definition entry_ok (r : ClientRelease) : Prop :=
  Canonical (cr_Layer r) (cr_Client r) = cr_Client r /\ Recognized (cr_Layer r) (cr_Client r) = true /\
  (cr_Layer r = "el" \/ cr_Layer r = "cl") /\ is_ok (Get registry (cr_Network r)) = true /\
  (forall v, v ∈ cr_MinVersions r -> exists x, semverCore v = Some x) /\
  (cr_MinVersions r <> [] -> cr_ForkTime r <> 0).

Lemma minVersionErrors_nil r : minVersionErrors r = [] -> forall v, v ∈ cr_MinVersions r -> exists x, semverCore v = Some x.
Proof.
  unfold minVersionErrors. induction (cr_MinVersions r) as [|v l IH]; intros H w Hw; [by apply elem_of_nil in Hw|].
  cbn [flat_map] in H. apply app_eq_nil in H as [H1 H2]. apply elem_of_cons in Hw as [->|Hw]; [|by apply IH].
  destruct (semverCore v) as [x|] eqn:E; [by exists x|]. exfalso. by rewrite bool_decide_false in H1 by (by intros [? ?]).
Qed.

Lemma entryError_nil seen r : entryError registry seen r = [] -> minVersionErrors r = [] -> entry_ok r /\ releaseKey r ∉ seen.
Proof.
  intros H Hmin. unfold entryError in H. repeat case_match; try done. boolify. unfold entry_ok, knownNetwork in *.
  split; [split_and!|].
  all: try done.
  - rewrite !negb_false_iff, !String.eqb_eq in H6. exact H6.
  - by apply minVersionErrors_nil.
  - intros Hne. destruct H9 as [H9|H9]; [|by apply Z.eqb_neq]. apply orb_false_iff in H9 as [H9 _].
    by rewrite bool_decide_false in H9.
  - intros Hin. assert (contains_func (String.eqb (releaseKey r)) seen = true); [|congruence].
    apply contains_func_true. exists (releaseKey r). split; [done|apply String.eqb_refl].
Qed.

Lemma entryErrors_nil seen l :
  entryErrors registry seen l = [] ->
  (forall r, r ∈ l -> entry_ok r) /\ NoDup (map releaseKey l) /\ forall r, r ∈ l -> releaseKey r ∉ seen.
Proof.
  revert seen. induction l as [|r l IH]; intros seen H; cbn [entryErrors map] in *.
  { split_and!; [by intros r ?%elem_of_nil|constructor|by intros r ?%elem_of_nil]. }
  apply app_eq_nil in H as [H1 H]. apply app_eq_nil in H as [H2 H]. apply app_eq_nil in H as [_ H].
  destruct (entryError_nil seen r H1 H2) as [Hok Hfresh]. destruct (IH _ H) as (Hall & Hnd & Hsep). split_and!.
  - intros x [->|Hx]%elem_of_cons; [done|by apply Hall].
  - constructor; [|done]. intros Hin. apply list_elem_of_In, in_map_iff in Hin as (x & Hx & Hin). apply list_elem_of_In in Hin.
    apply (Hsep x Hin). rewrite Hx. left.
  - intros x [->|Hx]%elem_of_cons; [done|]. intros Hin. apply (Hsep x Hx). by right.
Qed.

(** The state changes. *)
Inductive SetOp := OpReleases (t : ClientReleaseTable) | OpForkFile (t : ClientReleaseTable) (n : list Notice).
Definition set_exec (s : ReleaseState) (o : SetOp) : ReleaseState :=
  match o with
  | OpReleases t => fst (SetClientReleases registry s t)
  | OpForkFile t n => fst (SetForkFileData registry s t n)
  end.
Definition set_run (l : list SetOp) : ReleaseState := foldl set_exec rs_initial l.

Definition state_valid (s : ReleaseState) : Prop :=
  table_Validate registry (rs_table s) = [] /\ ValidateNotices registry (rs_notices s) = [].

Lemma set_exec_valid s o : state_valid s -> state_valid (set_exec s o).
Proof.
  intros [Ht Hn]. destruct o as [t|t n]; cbn; unfold SetClientReleases, SetForkFileData.
  - destruct (table_Validate registry t) eqn:E; [by split|by split].
  - destruct (table_Validate registry t ++ ValidateNotices registry n) eqn:E; [|by split].
    apply app_eq_nil in E as [? ?]. by split.
Qed.

Lemma set_run_valid ops : state_valid (set_run ops).
Proof.
  unfold set_run. assert (state_valid rs_initial) as H0 by (split; reflexivity). revert H0. generalize rs_initial.
  induction ops as [|o ops IH]; intros s Hs; [done|]. apply IH. by apply set_exec_valid.
Qed.

(** A bad operator file never replaces a good table.  After any sequence of
    replacements the table and the notices in force pass validation: every entry
    names a known network, a tracked layer and a recognised client in its canonical
    spelling, no two entries share a key, and its floors parse, so that a release
    version of a client with floors is always labelled as meeting them or below
    them, never as unparsable. *)
Theorem releases_never_bad ops r version got :
  r ∈ rt_Releases (rs_table (set_run ops)) -> cr_MinVersions r <> [] ->
  semverCore version = Some got -> devBuildToken (versionSuffix version) = false ->
  state_valid (set_run ops) /\ entry_ok r /\ NoDup (map releaseKey (rt_Releases (rs_table (set_run ops)))) /\
  (ReleaseStatus (cr_MinVersions r) version = ReleaseMeets \/ ReleaseStatus (cr_MinVersions r) version = ReleaseBelow).
Proof.
  intros Hr Hfl Hgot Hdev. destruct (set_run_valid ops) as [Ht Hn]. pose proof Ht as Ht'. unfold table_Validate in Ht'. apply app_eq_nil in Ht' as [_ Ht'].
  destruct (entryErrors_nil [] _ Ht') as (Hall & Hnd & _). pose proof (Hall r Hr) as Hok. split_and!; [done..|].
  destruct (ReleaseStatus_cases (cr_MinVersions r) version got Hgot Hdev) as [(-> & _)|[(-> & _)|(_ & Hnone)]]; [by left|by right|].
  exfalso. destruct Hok as (_ & _ & _ & _ & Hparse & _). destruct (cr_MinVersions r) as [|v l]; [done|].
  destruct (Hparse v) as [x Hx]; [left|]. unfold parsed in Hnone. cbn in Hnone. rewrite Hx in Hnone. done.
Qed.
End TableProps.

#[local] Instance demoURL : URLParser := fun s => if HasPrefix s "https://" then Some ("https", sdrop 8 s) else None.
Definition demoRelease : ClientRelease :=
  MkClientRelease "Glamsterdam" "demo" "el" "Geth" 1 ["1.17.6"] [] "" "2026-01-02" "https://geth.ethereum.org" "1.17.7" "" false.

Lemma releases_never_bad_witness :
  ReleaseStatus (cr_MinVersions demoRelease) "v1.17.5-stable-9621c6ad" = ReleaseMeets \/
  ReleaseStatus (cr_MinVersions demoRelease) "v1.17.5-stable-9621c6ad" = ReleaseBelow.
Proof.
  refine (proj2 (proj2 (proj2 (releases_never_bad [demoNetwork]
    [OpReleases (MkReleaseTable "2026-01-02" [demoRelease]); OpReleases (MkReleaseTable "yesterday" [])]
    demoRelease "v1.17.5-stable-9621c6ad" (1, 17, 5) _ _ eq_refl eq_refl)))); [vm_compute; left|done].
Defined.
