(* ===== verification/Sql.v ===== *)
(** The SQL conditions the query engine builds: a fragment of SQL with its
    three-valued logic, its [LIKE] patterns and its positional parameters.

    The Go code concatenates text and collects arguments for the [?] marks in a
    separate slice.  Here the text is the expression it parses to, the slice is
    kept, and evaluation consumes one argument per mark from left to right, so a
    clause whose marks and arguments are out of step means something else.  The second
    half gives statements over a whole table their meaning. *)

From stdpp Require Import base gmap strings list numbers sorting.
From Stdlib Require Import ZArith Lia Ascii.
From S2P Require Import Prelude GoLib Counting.

(** * Values and expressions *)

Inductive value := VNull | VText (s : string) | VInt (z : Z) | VBool (b : bool).
#[export] Instance value_eq_dec : EqDecision value.
Proof. solve_decision. Defined.

(** A row is read by column name. *)
Definition row := string -> value.

Inductive expr :=
| Lit (v : value)
| Col (c : string)
| Param
| Lower (e : expr)
| Coalesce (e d : expr)
| Eq (a b : expr)
| Ge (a b : expr)
| Le (a b : expr)
| Like (a b : expr)
| And (a b : expr)
| Or (a b : expr)
| Not (a : expr).

Definition Text (s : string) : expr := Lit (VText s).
Definition Int (z : Z) : expr := Lit (VInt z).
Definition FALSE : expr := Lit (VBool false).
Definition TRUE : expr := Lit (VBool true).
Definition Ne (a b : expr) : expr := Not (Eq a b).

(** [a IN (es)] is the disjunction of equalities. *)
Definition In_ (a : expr) (es : list expr) : expr := foldr (fun e acc => Or (Eq a e) acc) FALSE es.

(** [strings.Join(es, " OR ")] and [" AND "] of a non-empty list. *)
Fixpoint join_Or (e : expr) (es : list expr) : expr := match es with [] => e | e' :: es' => Or e (join_Or e' es') end.
Fixpoint join_And (e : expr) (es : list expr) : expr := match es with [] => e | e' :: es' => And e (join_And e' es') end.

(** * Meaning *)

Definition sql_not (a : value) : value := match a with VBool b => VBool (negb b) | _ => VNull end.
Definition sql_and (a b : value) : value :=
  match a, b with
  | VBool false, _ | _, VBool false => VBool false
  | VBool true, VBool true => VBool true
  | _, _ => VNull
  end.
Definition sql_or (a b : value) : value :=
  match a, b with
  | VBool true, _ | _, VBool true => VBool true
  | VBool false, VBool false => VBool false
  | _, _ => VNull
  end.
Definition sql_eq (a b : value) : value :=
  match a, b with
  | VText s, VText t => VBool (s =? t)%string
  | VInt x, VInt y => VBool (x =? y)
  | VBool x, VBool y => VBool (Bool.eqb x y)
  | _, _ => VNull
  end.
Definition sql_le (a b : value) : value := match a, b with VInt x, VInt y => VBool (x <=? y) | _, _ => VNull end.
Definition sql_lower (a : value) : value := match a with VText s => VText (ToLower s) | _ => VNull end.
Definition sql_coalesce (a b : value) : value := match a with VNull => b | _ => a end.

(** Some suffix of [s] satisfies [f]. *)
Fixpoint any_suffix (f : string -> bool) (s : string) : bool :=
  f s || match s with EmptyString => false | String _ s' => any_suffix f s' end.

(** [s LIKE p ESCAPE '$']. *)
Fixpoint like (p s : string) : bool :=
  match p with
  | EmptyString => (s =? "")%string
  | String "%"%char p' => any_suffix (like p') s
  | String "_"%char p' => match s with String _ s' => like p' s' | EmptyString => false end
  | String "$"%char (String c p') => match s with String d s' => Ascii.eqb c d && like p' s' | EmptyString => false end
  | String c p' => match s with String d s' => Ascii.eqb c d && like p' s' | EmptyString => false end
  end.
Definition sql_like (a b : value) : value := match a, b with VText s, VText p => VBool (like p s) | _, _ => VNull end.

(** The value of an expression and the arguments it leaves; [None] when they run out. *)
Fixpoint sql_eval (r : row) (e : expr) (args : list value) : option (value * list value) :=
  let unary f a := match sql_eval r a args with Some (v, rest) => Some (f v, rest) | None => None end in
  let binary f a b :=
    match sql_eval r a args with
    | Some (v, rest) => match sql_eval r b rest with Some (w, rest') => Some (f v w, rest') | None => None end
    | None => None
    end in
  match e with
  | Lit v => Some (v, args)
  | Col c => Some (r c, args)
  | Param => match args with v :: rest => Some (v, rest) | [] => None end
  | Lower a => unary sql_lower a
  | Coalesce a b => binary sql_coalesce a b
  | Eq a b => binary sql_eq a b
  | Ge a b => binary (fun x y => sql_le y x) a b
  | Le a b => binary sql_le a b
  | Like a b => binary sql_like a b
  | And a b => binary sql_and a b
  | Or a b => binary sql_or a b
  | Not a => unary sql_not a
  end.

(** A [WHERE] clause keeps a row when it is true of it; [None] is a clause whose
    marks and arguments do not match, which the driver refuses. *)
Definition keeps_row (r : row) (clause : option expr) (args : list value) : option bool :=
  match clause with
  | None => match args with [] => Some true | _ => None end
  | Some e => match sql_eval r e args with
              | Some (v, []) => Some (bool_decide (v = VBool true))
              | _ => None
              end
  end.

(** * Composing clauses *)

(** [e] consumes exactly [args] and has the value [v]. *)
Definition denotes (r : row) (e : expr) (args : list value) (v : value) : Prop :=
  forall rest, sql_eval r e (args ++ rest) = Some (v, rest).

Section Denotes.
Context (r : row).

Lemma denotes_lit v : denotes r (Lit v) [] v.
Proof. done. Qed.
Lemma denotes_col c : denotes r (Col c) [] (r c).
Proof. done. Qed.
Lemma denotes_param v : denotes r Param [v] v.
Proof. done. Qed.
Lemma denotes_lower e args v : denotes r e args v -> denotes r (Lower e) args (sql_lower v).
Proof. intros H rest. cbn. by rewrite H. Qed.
Lemma denotes_not e args v : denotes r e args v -> denotes r (Not e) args (sql_not v).
Proof. intros H rest. cbn. by rewrite H. Qed.

Ltac binary := let H1 := fresh in let H2 := fresh in intros H1 H2 ?; rewrite <- (assoc_L (++)); cbn; by rewrite H1, H2.
Lemma denotes_coalesce a b xs ys v w : denotes r a xs v -> denotes r b ys w -> denotes r (Coalesce a b) (xs ++ ys) (sql_coalesce v w).
Proof. binary. Qed.
Lemma denotes_eq a b xs ys v w : denotes r a xs v -> denotes r b ys w -> denotes r (Eq a b) (xs ++ ys) (sql_eq v w).
Proof. binary. Qed.
Lemma denotes_ge a b xs ys v w : denotes r a xs v -> denotes r b ys w -> denotes r (Ge a b) (xs ++ ys) (sql_le w v).
Proof. binary. Qed.
Lemma denotes_le a b xs ys v w : denotes r a xs v -> denotes r b ys w -> denotes r (Le a b) (xs ++ ys) (sql_le v w).
Proof. binary. Qed.
Lemma denotes_like a b xs ys v w : denotes r a xs v -> denotes r b ys w -> denotes r (Like a b) (xs ++ ys) (sql_like v w).
Proof. binary. Qed.
Lemma denotes_and a b xs ys v w : denotes r a xs v -> denotes r b ys w -> denotes r (And a b) (xs ++ ys) (sql_and v w).
Proof. binary. Qed.
Lemma denotes_or a b xs ys v w : denotes r a xs v -> denotes r b ys w -> denotes r (Or a b) (xs ++ ys) (sql_or v w).
Proof. binary. Qed.

Lemma denotes_args e xs ys v w : denotes r e xs v -> xs = ys -> v = w -> denotes r e ys w.
Proof. by intros ? <- <-. Qed.

Lemma denotes_keeps e args v : denotes r e args v -> keeps_row r (Some e) args = Some (bool_decide (v = VBool true)).
Proof. intros H. unfold keeps_row. specialize (H []). rewrite app_nil_r in H. by rewrite H. Qed.

(** Disjunctions and conjunctions of conditions that are never [NULL]. *)
Lemma denotes_join_Or {A} (f : A -> expr) (args : A -> list value) (p : A -> bool) x l :
  (forall y, y ∈ x :: l -> denotes r (f y) (args y) (VBool (p y))) ->
  denotes r (join_Or (f x) (map f l)) (concat (map args (x :: l))) (VBool (existsb p (x :: l))).
Proof.
  revert x. induction l as [|y l IH]; intros x H.
  - cbn. rewrite app_nil_r, orb_false_r. apply H. left.
  - change (join_Or (f x) (map f (y :: l))) with (Or (f x) (join_Or (f y) (map f l))).
    change (concat (map args (x :: y :: l))) with (args x ++ concat (map args (y :: l))).
    eapply denotes_args; [apply denotes_or; [apply H; left|apply IH; intros z Hz; apply H; by right]|done|].
    change (existsb p (x :: y :: l)) with (p x || existsb p (y :: l)). by destruct (p x), (existsb p (y :: l)).
Qed.

Lemma denotes_in a es s (ts : list string) :
  denotes r a [] (VText s) -> es = map (fun _ => Param) ts ->
  denotes r (In_ a es) (map VText ts) (VBool (existsb (fun t => (s =? t)%string) ts)).
Proof.
  intros Ha ->. induction ts as [|t ts IH]; [apply denotes_lit|]. cbn [map In_ foldr existsb].
  eapply denotes_args; [apply denotes_or; [apply denotes_eq; [exact Ha|apply denotes_param]|exact IH]|done|].
  cbn. by destruct (s =? t)%string, (existsb _ ts).
Qed.
End Denotes.

Create HintDb sql.
#[export] Hint Resolve denotes_lit denotes_col denotes_param denotes_lower denotes_not denotes_coalesce denotes_eq denotes_ge denotes_le
  denotes_like denotes_and denotes_or : sql.

(** Derives the value of a closed shape, leaving the arguments and the value to check. *)
Ltac denote := eapply denotes_args; [solve [eauto 20 with sql]|try done|].

#[local] Open Scope Z_scope.

(** Statements over a whole table: derived columns, [count( * ) FILTER], [GROUP BY],
    [ORDER BY] and [LIMIT], for the conditions of [Sql]. *)

Definition table : Type := list row.

(** [a < b]. *)
Definition Lt (a b : expr) : expr := Not (Ge a b).

(** [SELECT *, v AS name]. *)
Definition withCol (r : row) (name : string) (v : value) : row := fun c => if (c =? name)%string then v else r c.

(** [count( * ) FILTER (WHERE e)] of a condition without parameters. *)
Definition holdsOf (e : expr) (r : row) : bool := bool_decide (keeps_row r (Some e) [] = Some true).
Definition countFilter (e : expr) (t : table) : Z := zsum_by (fun r => if holdsOf e r then 1 else 0) t.

(** The rows of a statement, when its marks match its arguments in every row. *)
Fixpoint collect {A} (f : row -> option (option A)) (t : table) : option (list A) :=
  match t with
  | [] => Some []
  | r :: t' => match f r, collect f t' with
               | Some (Some x), Some xs => Some (x :: xs)
               | Some None, Some xs => Some xs
               | _, _ => None
               end
  end.

(** [SELECT * FROM t WHERE clause]. *)
Definition selectRows (clause : option expr) (args : list value) (t : table) : option table :=
  collect (fun r => match keeps_row r clause args with Some b => Some (if b then Some r else None) | None => None end) t.

(** [SELECT key, count( * ) FROM t GROUP BY key]: each key once, in no particular order. *)
Definition groupBy {K} `{EqDecision K} (key : row -> K) (t : table) : list (K * Z) :=
  map (fun k => (k, occurrences k (map key t))) (remove_dups (map key t)).

(** ** [ORDER BY] *)

(** The order of values of one type; [NULL] is last in both directions. *)
Definition value_lt (a b : value) : bool :=
  match a, b with
  | VText s, VText t => String.ltb s t
  | VInt x, VInt y => x <? y
  | VBool x, VBool y => negb x && y
  | _, _ => false
  end.
Definition valueBefore (desc : bool) (a b : value) : bool :=
  match a, b with
  | VNull, _ => false
  | _, VNull => true
  | _, _ => if desc then value_lt b a else value_lt a b
  end.

Fixpoint orderedBy (keys : list ((row -> value) * bool)) (r r' : row) : bool :=
  match keys with
  | [] => true
  | (col, desc) :: keys' => valueBefore desc (col r) (col r') || (negb (valueBefore desc (col r') (col r)) && orderedBy keys' r r')
  end.

(** [LIMIT limit OFFSET offset]. *)
Definition page {A} (limit offset : Z) (l : list A) : list A := take (Z.to_nat limit) (drop (Z.to_nat offset) l).

(** ** Lemmas *)

Lemma collect_map {A} (f : row -> option (option A)) (keep : row -> bool) (g : row -> A) t :
  (forall r, r ∈ t -> f r = Some (if keep r then Some (g r) else None)) -> collect f t = Some (map g (List.filter keep t)).
Proof.
  induction t as [|r t IH]; intros H; [done|]. cbn [collect List.filter]. rewrite H by left.
  rewrite IH by (intros x Hx; apply H; by right). by destruct (keep r).
Qed.

Lemma selectRows_filter clause args (keep : row -> bool) t :
  (forall r, r ∈ t -> keeps_row r clause args = Some (keep r)) -> selectRows clause args t = Some (List.filter keep t).
Proof.
  intros H. unfold selectRows. rewrite (collect_map _ keep id); [by rewrite map_id|]. intros r Hr. rewrite H by done. by destruct (keep r).
Qed.

Lemma groupBy_sum {K} `{EqDecision K} (key : row -> K) (w : K -> Z) t :
  zsum_by (fun g => w g.1 * g.2) (groupBy key t) = zsum_by (fun r => w (key r)) t.
Proof.
  unfold groupBy. rewrite zsum_by_map. cbn [fst snd]. rewrite (zsum_by_grouped w); [apply zsum_by_map|apply NoDup_remove_dups|].
  intros x Hx. by apply elem_of_remove_dups.
Qed.

Lemma zsum_by_mono {A} (f g : A -> Z) l : (forall x, x ∈ l -> f x <= g x) -> zsum_by f l <= zsum_by g l.
Proof.
  induction l as [|x l IH]; intros H; [done|]. rewrite !zsum_by_cons.
  specialize (IH ltac:(intros y Hy; apply H; by right)). specialize (H x ltac:(left)). lia.
Qed.

(** How many rows a test holds of. *)
Definition countRows (p : row -> bool) (t : table) : Z := zsum_by (fun r => if p r then 1 else 0) t.

Lemma rowsOf_ext p q t : (forall r, r ∈ t -> p r = q r) -> countRows p t = countRows q t.
Proof. intros H. apply zsum_by_ext. intros r Hr. by rewrite H. Qed.
Lemma rowsOf_split p q t : countRows (fun r => q r && p r) t + countRows (fun r => q r && negb (p r)) t = countRows q t.
Proof. unfold countRows. rewrite <- zsum_by_add. apply zsum_by_ext. intros r _. by destruct (q r), (p r). Qed.
Lemma rowsOf_filter p q t : countRows p (List.filter q t) = countRows (fun r => q r && p r) t.
Proof. unfold countRows. rewrite zsum_by_filter. apply zsum_by_ext. intros r _. by destruct (q r), (p r). Qed.
Lemma rowsOf_mono p q t : (forall r, r ∈ t -> p r = true -> q r = true) -> countRows p t <= countRows q t.
Proof. intros H. apply zsum_by_mono. intros r Hr. specialize (H r Hr). destruct (p r); [by rewrite H|]. by destruct (q r). Qed.
Lemma rowsOf_length p t : countRows p t = Z.of_nat (length (List.filter p t)).
Proof. unfold countRows. induction t as [|r t IH]; [done|]. rewrite zsum_by_cons, IH. cbn [List.filter]. destruct (p r); cbn [length]; lia. Qed.

(** Arguments that an expression does not reach stay. *)
Lemma sql_eval_frame r e xs v ys zs : sql_eval r e xs = Some (v, ys) -> sql_eval r e (xs ++ zs) = Some (v, ys ++ zs).
Proof.
  revert xs v ys. induction e as [w|c| |e IH|a IHa b IHb|a IHa b IHb|a IHa b IHb|a IHa b IHb|a IHa b IHb|a IHa b IHb|a IHa b IHb|e IH]; intros xs v0 ys; cbn [sql_eval].
  1,2: by intros [= <- <-].
  1: { destruct xs as [|x xs]; [done|]. by intros [= <- <-]. }
  1,9: destruct (sql_eval r e xs) as [[w rest]|] eqn:E; [|done]; rewrite (IH _ _ _ E); by intros [= <- <-].
  all: destruct (sql_eval r a xs) as [[w rest]|] eqn:E; [|done]; rewrite (IHa _ _ _ E);
    destruct (sql_eval r b rest) as [[w' rest']|] eqn:E'; [|done]; rewrite (IHb _ _ _ E'); by intros [= <- <-].
Qed.

(** Adding a condition to a clause. *)
Lemma keeps_row_and r clause args keep e xs v :
  keeps_row r clause args = Some keep -> denotes r e xs v ->
  keeps_row r (Some match clause with None => e | Some c => And c e end) (args ++ xs) = Some (keep && bool_decide (v = VBool true)).
Proof.
  intros Hk He. destruct clause as [c|]; cbn [keeps_row] in Hk.
  - destruct (sql_eval r c args) as [[w [|]]|] eqn:E; [|done..]. injection Hk as <-. cbn [keeps_row].
    cbn [sql_eval]. rewrite (sql_eval_frame _ _ _ _ _ xs E). cbn [app]. pose proof (He []) as Hx. rewrite app_nil_r in Hx. rewrite Hx.
    f_equal. by destruct w as [| | |[]], v as [| | |[]].
  - destruct args; [|done]. injection Hk as <-. cbn [app]. by rewrite (denotes_keeps _ _ _ _ He).
Qed.
