(* ===== verification/Query.v ===== *)
(** [internal/query/query.go] and the condition builders of [readiness.go]: which
    rows a filter selects.

    [Filter.where] builds the clause and its arguments; the second definition of the
    readiness rule, in SQL, is [readinessConditionAt].  The theorems compare both
    with the Go predicates of [Network] and [Readiness].  [Stats] runs the
    statements, and [Refresh] computes [sync_state]. *)

From stdpp Require Import base gmap strings list numbers.
From Stdlib Require Import ZArith Lia Ascii.
From S2P Require Import Prelude GoLib Text Sql Clientname Hashes Consensus ForkId Network Readiness.

(** * The filter *)

Record Filter := MkFilter {
  f_Network : string; f_Client : string; f_ClientExact : bool; f_Country : string; f_OS : string; f_Layer : string;
  f_Protocol : string; f_IPStack : string; f_Hosting : string; f_Dialable : string; f_ForkStatus : string;
  f_Membership : string; f_Identified : string; f_Sync : string; f_Readiness : string; f_IP : string; f_Q : string;
  f_CGCMin : string; f_CGCMax : string; f_Sort : string; f_Order : string; f_Limit : Z; f_Offset : Z; f_ForkAt : Time }.

Record sortSpec := MkSortSpec { so_columns : list string; so_defaultOrder : string }.
Definition sortColumns : list (string * sortSpec) :=
  [("score", MkSortSpec ["score"; "last_seen"; "id"] "desc");
   ("last_seen", MkSortSpec ["last_seen"; "score"; "id"] "desc");
   ("first_seen", MkSortSpec ["first_seen"; "id"] "desc");
   ("client", MkSortSpec ["lower(client)"; "lower(client_version)"; "id"] "asc");
   ("network", MkSortSpec ["network"; "score"; "id"] "asc");
   ("cgc", MkSortSpec ["coalesce(cgc, 0)"; "score"; "id"] "desc")].

Fixpoint sortLookup (l : list (string * sortSpec)) (name : string) : option sortSpec :=
  match l with [] => None | (k, v) :: l' => if (k =? name)%string then Some v else sortLookup l' name end.

Definition ValidSort (value : string) : bool := (value =? "")%string || bool_decide (is_Some (sortLookup sortColumns value)).
Definition ValidOrder (value : string) : bool := contains_func (String.eqb value) [""; "asc"; "desc"].

Definition filterEnums : list (string * (Filter -> string) * list string) :=
  [("layer", f_Layer, [""; "el"; "cl"]); ("protocol", f_Protocol, [""; "v4"; "v5"]);
   ("ipstack", f_IPStack, [""; "ipv4"; "ipv6"; "dual"]); ("hosting", f_Hosting, [""; "yes"; "no"]);
   ("dialable", f_Dialable, [""; "yes"; "no"]); ("fork status", f_ForkStatus, [""; "current"; "stale"; "all"]);
   ("membership", f_Membership, [""; "verified"; "claimed"; "all"]); ("identified", f_Identified, [""; "recent"]);
   ("sync", f_Sync, [""; "synced"; "lagging"; "unknown"]);
   ("readiness", f_Readiness, [""; "ready"; "pending"; "not_ready"; "mismatch"; "unknown"; "stale"])].

Definition parseCGC (s : string) : result Z := ParseUint 32 s.

Definition filter_Validate (f : Filter) : result unit :=
  if negb (ValidSort (f_Sort f)) then Err "invalid sort %q"
  else if negb (ValidOrder (f_Order f)) then Err "invalid order %q"
  else if existsb (fun e => negb (contains_func (String.eqb (e.1.2 f)) e.2)) filterEnums then Err "invalid %s %q"
  else if negb (f_Readiness f =? "")%string && (f_Network f =? "")%string then Err "readiness filter requires a network"
  else if existsb (fun value => negb (value =? "")%string && negb (is_ok (parseCGC value))) [f_CGCMin f; f_CGCMax f]
  then Err "invalid %s %q"
  else Ok tt.

Definition sortExpression (name order : string) : string :=
  let spec := default (MkSortSpec ["score"; "last_seen"; "id"] "desc") (sortLookup sortColumns name) in
  let order := if negb (order =? "asc")%string && negb (order =? "desc")%string then so_defaultOrder spec else order in
  sjoin ", " (map (fun column => column +:+ " " +:+ ToUpper order) (so_columns spec)).

(** * Conditions shared by the clauses *)

Definition syncStateColumn : expr := Coalesce (Col "sync_state") (Text "unknown").
Definition verifiedFingerprintCondition : expr := In_ (Col "fp_status") [Text "ok"; Text "stale"].

Definition chartFingerprintConditionAt (at_ : Time) : expr * Z :=
  (And verifiedFingerprintCondition (Ge (Coalesce (Col "fp_at") (Int 0)) Param), Unix (Add at_ (- ChartMaxFingerprintAge))).

Definition notSelfCondition : expr := Ne (Lower (Coalesce (Col "client") (Text ""))) Param.

(** [strings.NewReplacer("$", "$$", "%", "$%", "_", "$_")]. *)
Fixpoint escapeLike (s : string) : string :=
  match s with
  | "" => ""
  | String c s' => if contains_func (Ascii.eqb c) ["$"; "%"; "_"]%char then String "$" (String c (escapeLike s')) else String c (escapeLike s')
  end.

Definition forkNetworks (f : Filter) (served : list string) : list string :=
  if (f_Network f =? "")%string then served
  else if contains_func (fun name => (name =? f_Network f)%string) served then [f_Network f] else [].

Definition coalesced (c : string) : expr := Coalesce (Col c) (Text "").
Definition coalesced0 (c : string) : expr := Coalesce (Col c) (Int 0).

Section Registry.
Context (registry : list Network).

(** One test of the accepted [Next] values, and its arguments. *)
Definition nextTest (r : Z * Z) : expr :=
  if r.2 =? max_uint64 then Ge (coalesced0 "fork_next") Param
  else And (Ge (coalesced0 "fork_next") Param) (Le (coalesced0 "fork_next") Param).
Definition nextBounds (r : Z * Z) : list value := if r.2 =? max_uint64 then [VInt r.1] else [VInt r.1; VInt r.2].

Definition currentPart (ranges : list (Z * Z)) : expr :=
  And (Eq (Col "network") Param)
    (Or (And (Eq (Col "layer") (Text "el"))
           (And (Eq (Lower (Col "fork_hash")) Param)
              match ranges with [] => FALSE | r :: ranges => join_Or (nextTest r) (map nextTest ranges) end))
        (And (Eq (Col "layer") (Text "cl")) (Eq (Lower (Col "fork_hash")) Param))).

(** The arguments of one network's part. *)
Definition currentArgs (at_ : Time) (name : string) : result (list value) :=
  let! nw := Get registry name in
  let! state := CLForkStateAt registry name at_ in
  let current := fst (CurrentForkIDAt nw at_) in
  Ok ([VText name; VText (hex_encode (fid_Hash current))]
      ++ concat (map nextBounds (CanonicalCurrentNextRanges at_)) ++ [VText (hex_encode (Digest state))]).

Fixpoint currentArgs_all (at_ : Time) (networks : list string) : result (list value) :=
  match networks with
  | [] => Ok []
  | name :: networks' =>
      let! args := currentArgs at_ name in
      let! rest := currentArgs_all at_ networks' in
      Ok (args ++ rest)
  end.

Definition currentForkConditionAt (at_ : Time) (networks : list string) : result (expr * list value) :=
  let! args := currentArgs_all at_ networks in
  let part := currentPart (CanonicalCurrentNextRanges at_) in
  match networks with
  | [] => Ok (FALSE, [])
  | _ :: rest => Ok (Coalesce (join_Or part (map (fun _ => part) rest)) FALSE, args)
  end.

(** * The readiness condition *)

Definition inList (col : expr) (values : list string) : expr * list value :=
  match values with
  | [] => (FALSE, [])
  | _ => (In_ col (map (fun _ => Param) values), map (fun v => VText (ToLower v)) values)
  end.

(** A part of the condition with its arguments. *)
Definition part_ : Type := expr * list value.

Definition onLayer (layer : string) (cond : expr) : expr := And (Eq (Col "layer") (Text layer)) cond.

Section Parts.
Context (current : expr) (currentArgs : list value) (layer : string) (want : Readiness).

(** [add]: the fork condition's arguments come first. *)
Definition add (cond : expr) (args : list value) : part_ := (onLayer layer cond, currentArgs ++ args).

Definition activatedPart (pre : string) (readable : expr) (readableArgs : list value) (scheduled : expr) (scheduledArgs : list value)
  : option part_ :=
  let onPre rest := And (Not current) (And (Eq (Lower (Col "fork_hash")) Param) rest) in
  let preReadable := VText pre :: readableArgs in
  let withSchedule := preReadable ++ scheduledArgs in
  match want with
  | Ready => Some (add current [])
  | Pending => Some (add (onPre (And readable scheduled)) withSchedule)
  | NotReady => Some (add (onPre (And readable (Not scheduled))) withSchedule)
  | Unknown => Some (add (onPre (Not readable)) preReadable)
  | Stale => Some (add (And (Not current) (Ne (Lower (coalesced "fork_hash")) Param)) [VText pre])
  | _ => None
  end.

(** [matched] is [None] for the literal [TRUE]. *)
Definition cancelledPart (affected : expr) (affectedArgs : list value) (matched : option expr) : option part_ :=
  let matched_ := default TRUE matched in
  match want with
  | NotReady => Some (onLayer layer affected, affectedArgs)
  | Ready => Some (add (And current (And (Not affected) matched_)) affectedArgs)
  | Unknown => match matched with
               | Some m => Some (add (And current (And (Not affected) (Not m))) affectedArgs)
               | None => None
               end
  | Stale => Some (add (And (Not current) (Not affected)) affectedArgs)
  | _ => None
  end.
End Parts.

Definition matchedCL : expr :=
  And (Ne (coalesced "enr_fork_digest") (Text "")) (Eq (Lower (Col "enr_fork_digest")) (Lower (Col "fork_hash"))).
Definition scheduledCL : expr :=
  And (Eq (coalesced0 "enr_next_fork_epoch") Param) (Eq (Lower (coalesced "enr_next_fork_version")) Param).

(** The branches before activation. *)
Definition elScheduledPart (current : expr) (args : list value) (want : Readiness) (el : ELForkTarget) : option part_ :=
  match want with
  | Ready => Some (add args "el" (And current (Eq (coalesced0 "fork_next") Param)) [VInt (elt_Time el)])
  | NotReady => Some (add args "el" (And current (Eq (coalesced0 "fork_next") (Int 0))) [])
  | Mismatch => Some (add args "el" (And current (Not (In_ (coalesced0 "fork_next") [Int 0; Param]))) [VInt (elt_Time el)])
  | Stale => Some (add args "el" (Not current) [])
  | _ => None
  end.

Definition elPart (current : expr) (args : list value) (want : Readiness) (el : ELForkTarget) : option part_ :=
  match elt_Phase el with
  | PhaseCancelled =>
      let (onCancelled, onArgs) := inList (Lower (coalesced "fork_hash")) (elt_OnCancelled el) in
      cancelledPart current args "el" want
        (Or onCancelled (And (Eq (Lower (coalesced "fork_hash")) Param) (Eq (coalesced0 "fork_next") Param)))
        (onArgs ++ [VText (elt_PreHash el); VInt (elt_Time el)]) None
  | PhaseActivated =>
      activatedPart current args "el" want (elt_PreHash el) TRUE [] (Eq (coalesced0 "fork_next") Param) [VInt (elt_Time el)]
  | _ => elScheduledPart current args want el
  end.

Definition clScheduledPart (current : expr) (args : list value) (want : Readiness) (cl : CLForkTarget) : option part_ :=
  let schedArgs := [VInt (clt_Epoch cl); VText (clt_Version cl)] in
  let notReady := Eq (coalesced0 "enr_next_fork_epoch") (Int max_uint64) in
  match want with
  | Ready => Some (add args "cl" (And current (And matchedCL scheduledCL)) schedArgs)
  | NotReady => Some (add args "cl" (And current (And matchedCL notReady)) [])
  | Mismatch => Some (add args "cl" (And current (And matchedCL (And (Not scheduledCL) (Not notReady)))) schedArgs)
  | Unknown => Some (add args "cl" (And current (Not matchedCL)) [])
  | Stale => Some (add args "cl" (Not current) [])
  | _ => None
  end.

Definition clPart (current : expr) (args : list value) (want : Readiness) (cl : CLForkTarget) : option part_ :=
  let schedArgs := [VInt (clt_Epoch cl); VText (clt_Version cl)] in
  match clt_Phase cl with
  | PhaseCancelled =>
      let (onCancelled, onArgs) := inList (Lower (coalesced "fork_hash")) (clt_OnCancelled cl) in
      cancelledPart current args "cl" want
        (Or onCancelled (And (Eq (Lower (coalesced "enr_fork_digest")) Param) scheduledCL))
        (onArgs ++ VText (clt_PreDigest cl) :: schedArgs) (Some matchedCL)
  | PhaseActivated =>
      activatedPart current args "cl" want (clt_PreDigest cl) (Eq (Lower (coalesced "enr_fork_digest")) Param) [VText (clt_PreDigest cl)]
        scheduledCL schedArgs
  | _ => clScheduledPart current args want cl
  end.

(** The parts joined by [OR]. *)
Definition joinParts (el cl : option part_) : expr * list value :=
  match el, cl with
  | None, None => (FALSE, [])
  | Some p, None | None, Some p => p
  | Some (e, xs), Some (e', ys) => (Or e e', xs ++ ys)
  end.

Definition readinessConditionAt (network : string) (want : Readiness) (at_ : Time) : result (expr * list value) :=
  let! target := ForkTargetAt registry network at_ in
  let! (current, args) := currentForkConditionAt at_ [network] in
  let el := match ft_EL target with Some el => elPart current args want el | None => None end in
  let cl := match ft_CL target with Some cl => clPart current args want cl | None => None end in
  Ok (joinParts el cl).
End Registry.

(** * The whole clause *)

Definition readinessOf (s : string) : Readiness :=
  if (s =? "ready")%string then Ready else if (s =? "pending")%string then Pending else if (s =? "not_ready")%string then NotReady
  else if (s =? "mismatch")%string then Mismatch else if (s =? "unknown")%string then Unknown else if (s =? "stale")%string then Stale
  else NoReadiness.

(** [lower(c) LIKE lower(?) ESCAPE '$'] *)
Definition likeCol (c : string) : expr := Like (Lower (Col c)) (Lower Param).
Definition pattern_ (s : string) : value := VText ("%" +:+ escapeLike s +:+ "%").

Definition when (b : bool) (p : part_) : list part_ := if b then [p] else [].
Definition given (s : string) : bool := negb (s =? "")%string.

(** The conditions in the order [where] appends them; [now] is the wall clock. *)
Definition simpleParts (f : Filter) : list part_ :=
  when (given (f_Network f)) (Eq (Col "network") Param, [VText (f_Network f)])
  ++ when (given (f_Client f))
       (if f_ClientExact f then (Eq (Lower (Col "client")) (Lower Param), [VText (f_Client f)]) else (likeCol "client", [pattern_ (f_Client f)]))
  ++ when (given (f_Country f)) (likeCol "country", [pattern_ (f_Country f)])
  ++ when (given (f_OS f)) (likeCol "os", [pattern_ (f_OS f)])
  ++ when (given (f_Layer f)) (Eq (Col "layer") Param, [VText (f_Layer f)])
  ++ when (f_Protocol f =? "v4")%string (Col "has_v4", [])
  ++ when (f_Protocol f =? "v5")%string (Col "has_v5", [])
  ++ when (f_IPStack f =? "ipv4")%string (And (Ne (Col "ip") (Text "")) (Eq (Col "ip6") (Text "")), [])
  ++ when (f_IPStack f =? "ipv6")%string (And (Ne (Col "ip6") (Text "")) (Eq (Col "ip") (Text "")), [])
  ++ when (f_IPStack f =? "dual")%string (And (Ne (Col "ip") (Text "")) (Ne (Col "ip6") (Text "")), [])
  ++ when (f_Hosting f =? "yes")%string (Col "hosting", [])
  ++ when (f_Hosting f =? "no")%string (And (Col "hosting_known") (Not (Col "hosting")), [])
  ++ when (f_Dialable f =? "yes")%string (Col "dialable", [])
  ++ when (f_Dialable f =? "no")%string (Not (Col "dialable"), [])
  ++ when (f_Membership f =? "verified")%string (Eq (Col "membership_source") (Text "status"), [])
  ++ when (f_Membership f =? "claimed")%string (Eq (Col "membership_source") (Text "enr"), []).

Definition cgcPart (s : string) (op : expr -> expr -> expr) : list part_ :=
  if given s then
    match parseCGC s with
    | Ok v => [(And (Coalesce (Col "cgc_known") FALSE) (op (coalesced0 "cgc") Param), [VInt v])]
    | Err _ => []
    end
  else [].

Definition searchParts (f : Filter) (at_ : Time) : list part_ :=
  when (given (f_Sync f)) (Eq syncStateColumn Param, [VText (f_Sync f)])
  ++ when (f_Identified f =? "recent")%string (let (condition, cutoff) := chartFingerprintConditionAt at_ in (condition, [VInt cutoff]))
  ++ when (given (f_IP f)) (Or (likeCol "ip") (likeCol "ip6"), [pattern_ (f_IP f); pattern_ (f_IP f)])
  ++ when (given (f_Q f))
       (Or (likeCol "id") (Or (likeCol "ip") (Or (likeCol "ip6") (Or (likeCol "enode") (likeCol "enr")))), repeat (pattern_ (f_Q f)) 5)
  ++ cgcPart (f_CGCMin f) Ge
  ++ cgcPart (f_CGCMax f) Le.

Definition forkParts (registry : list Network) (f : Filter) (at_ : Time) (networks : list string) : result (list part_) :=
  let! fork :=
    if (f_ForkStatus f =? "current")%string || (f_ForkStatus f =? "stale")%string then
      let! (condition, args) := currentForkConditionAt registry at_ (forkNetworks f networks) in
      Ok [(if (f_ForkStatus f =? "stale")%string then Not condition else condition, args)]
    else Ok [] in
  let! readiness :=
    if given (f_Readiness f) then
      let! (condition, args) := readinessConditionAt registry (f_Network f) (readinessOf (f_Readiness f)) at_ in
      Ok [(condition, args); (notSelfCondition, [VText Self])]
    else Ok [] in
  Ok (fork ++ readiness).

Definition joinClause (parts : list part_) : option expr * list value :=
  match map fst parts with
  | [] => (None, [])
  | e :: es => (Some (join_And e es), concat (map snd parts))
  end.

Definition where_ (registry : list Network) (now : Time) (f : Filter) (networks : list string) : result (option expr * list value) :=
  let at_ := if IsZero (f_ForkAt f) then now else f_ForkAt f in
  let! fork := forkParts registry f at_ networks in
  Ok (joinClause (simpleParts f ++ fork ++ searchParts f at_)).

(** The defaults [Nodes] sets before querying. *)
Definition nodesFilter (now : Time) (f : Filter) : result Filter :=
  let! _ := filter_Validate f in
  Ok (MkFilter (f_Network f) (f_Client f) (f_ClientExact f) (f_Country f) (f_OS f) (f_Layer f) (f_Protocol f) (f_IPStack f) (f_Hosting f)
        (f_Dialable f) (if (f_ForkStatus f =? "")%string && (f_Readiness f =? "")%string then "current" else f_ForkStatus f) (f_Membership f)
        (f_Identified f) (f_Sync f) (f_Readiness f) (f_IP f) (f_Q f) (f_CGCMin f) (f_CGCMax f) (f_Sort f) (f_Order f)
        (if (f_Limit f <=? 0) || (1000 <? f_Limit f) then 100 else f_Limit f) (if f_Offset f <? 0 then 0 else f_Offset f)
        (if IsZero (f_ForkAt f) then now else f_ForkAt f)).

Definition isNodeIDPrefix (value : string) : bool :=
  negb ((slen value <? 16) || (64 <=? slen value))
  && forallb (fun v => ((48 <=? v) && (v <=? 57)) || ((97 <=? v) && (v <=? 102)) || ((65 <=? v) && (v <=? 70))) (bytes value).

Definition MaxMapPoints : Z := 50000.
