(* ===== verification/QueryMirror.v ===== *)
(** The SQL conditions of the query engine mean what the Go predicates say: fork
    currency, the readiness rule, and the whole of [Filter.where]. *)

From stdpp Require Import base gmap strings list numbers.
From Stdlib Require Import ZArith Lia Ascii.
From S2P Require Import Prelude GoLib Text Sql Clientname Hashes Consensus ForkId Network Readiness Query.

(** * Hash text *)

Lemma lower_hex_value c v : hex_value c = Some v -> 0 <= v < 16 /\ lower_byte c = hex_digit v.
Proof.
  unfold hex_value. intros H. pose proof (byte_val_range c) as Hr.
  assert (forall z, byte_val c = z -> c = byte_of z) as Hc by (intros z <-; by rewrite byte_of_val).
  destruct ((48 <=? byte_val c) && (byte_val c <=? 57)) eqn:E1; [|destruct ((97 <=? byte_val c) && (byte_val c <=? 102)) eqn:E2;
    [|destruct ((65 <=? byte_val c) && (byte_val c <=? 70)) eqn:E3; [|done]]]; injection H as <-; boolify; (split; [lia|]);
    unfold lower_byte, hex_digit.
  - destruct ((65 <=? byte_val c) && (byte_val c <=? 90)) eqn:E; [boolify; lia|].
    destruct (byte_val c - 48 <? 10) eqn:E'; boolify; [|lia]. apply Hc. lia.
  - destruct ((65 <=? byte_val c) && (byte_val c <=? 90)) eqn:E; [boolify; lia|].
    destruct (byte_val c - 87 <? 10) eqn:E'; boolify; [lia|]. apply Hc. lia.
  - destruct ((65 <=? byte_val c) && (byte_val c <=? 90)) eqn:E; [|boolify; lia].
    destruct (byte_val c - 55 <? 10) eqn:E'; boolify; [lia|]. f_equal. lia.
Qed.

(** Decoded hex is the input up to case. *)
Lemma hex_decode_lower s b : hex_decode s = Some b -> ToLower s = hex_encode b.
Proof.
  revert b. assert (forall n s b, (String.length s <= n)%nat -> hex_decode s = Some b -> ToLower s = hex_encode b) as H; [|by intros; eapply H].
  clear. induction n as [|n IH]; intros s b Hl Hd; [destruct s; [by injection Hd as <-|cbn in Hl; lia]|].
  destruct s as [|c [|d s]]; [by injection Hd as <-|done|]. cbn [hex_decode] in Hd.
  destruct (hex_value c) as [x|] eqn:Ex; [|done]. destruct (hex_value d) as [y|] eqn:Ey; [|done].
  destruct (hex_decode s) as [t|] eqn:Et; [|done]. injection Hd as <-. cbn in Hl.
  apply lower_hex_value in Ex as [Hx Ex], Ey as [Hy Ey]. cbn [hex_encode]. rewrite byte_val_of, Z.mod_small by lia.
  change (ToLower (String c (String d s))) with (String (lower_byte c) (String (lower_byte d) (ToLower s))).
  rewrite Ex, Ey, (IH s t) by (done || lia). f_equal; [f_equal|f_equal; f_equal].
  - rewrite Z.mul_comm, Z.div_add_l, Z.div_small by lia. lia.
  - rewrite Z.add_comm, Z.mul_comm, Z_mod_plus_full, Z.mod_small by lia. done.
Qed.

(** Hash text as the crawler writes it: no blanks around it and no prefix. *)
Definition plainHash (raw : string) : bool := (TrimSpace raw =? raw)%string && negb (HasPrefix (ToLower raw) "0x").

Lemma parseHash4_plain raw h :
  plainHash raw = true -> slen h = 4 ->
  match parseHash4 raw with Some got => (got =? h)%string | None => false end = (ToLower raw =? hex_encode h)%string.
Proof.
  unfold plainHash. intros Hp Hh. apply andb_true_iff in Hp as [Ht Hx]. apply String.eqb_eq in Ht. apply negb_true_iff in Hx.
  unfold parseHash4. rewrite Ht. unfold TrimPrefix. rewrite Hx.
  destruct (String.eqb_spec (ToLower raw) (hex_encode h)) as [E|E].
  - rewrite E, hex_decode_encode, Hh. apply String.eqb_refl.
  - destruct (hex_decode (ToLower raw)) as [b|] eqn:Ed; [|done]. destruct (slen b =? 4); [|done].
    apply String.eqb_neq. intros ->. apply hex_decode_lower in Ed. by rewrite ToLower_idem in Ed.
Qed.

(** * Sizes *)

Lemma length_of_bytes l : String.length (of_bytes l) = length l.
Proof. induction l as [|b l IH]; cbn; [done|]. by rewrite IH. Qed.

Lemma sha_blocks_length fuel h words : length h = 8%nat -> length (sha_blocks fuel h words) = 8%nat.
Proof.
  revert h words. induction fuel as [|fuel IH]; intros h words Hh; [done|]. destruct words as [|w words]; [done|].
  cbn [sha_blocks]. apply IH. unfold sha_block. rewrite length_zip_with.
  assert (forall l st, length st = 8%nat -> length (foldl sha_round st l) = 8%nat) as Hr.
  { clear. induction l as [|kw l IH]; intros st Hst; cbn [foldl]; [done|]. apply IH.
    do 8 (destruct st as [|? st]; [done|]). by destruct st. }
  rewrite Hr, Hh by done. done.
Qed.

Lemma word_bytes_length l : length (concat (map word_bytes l)) = (4 * length l)%nat.
Proof. induction l as [|w l IH]; cbn [map concat]; [done|]. rewrite length_app, IH. cbn [length word_bytes]. lia. Qed.

Lemma slen_sha256 s : slen (sha256 s) = 32.
Proof. unfold sha256, slen. cbv zeta. by rewrite length_of_bytes, word_bytes_length, sha_blocks_length. Qed.

Lemma slen_stake n s : slen (stake n s) = Z.min (Z.of_nat n) (slen s).
Proof. unfold slen. revert s. induction n as [|n IH]; intros [|c s]; cbn [stake String.length]; try lia. specialize (IH s). lia. Qed.

Lemma digestAt_size c epoch d v : digestAt c epoch = Ok (d, v) -> slen d = 4.
Proof.
  unfold digestAt, rbind. destruct (forkAt c epoch) as [f|]; [|done]. cbv zeta.
  assert (slen (rawDigest c (cf_version f)) = 4) as Hr by (unfold rawDigest, forkDataRoot; by rewrite slen_stake, slen_sha256).
  destruct (negb _ && _); [|by intros [= <- _]]. destruct (blobAt c epoch) as [bp|]; [|done]. intros [= <- _].
  revert Hr. generalize (rawDigest c (cf_version f)). intros raw Hr.
  assert (slen (blobMask bp) = 32) as Hm by apply slen_sha256. revert Hm. generalize (blobMask bp). intros mask Hm.
  unfold xor_mask, slen in *. rewrite length_of_bytes, length_zip_with, !length_bytes. lia.
Qed.

Lemma forkIDFrom_size g blocks times at_ : slen (fid_Hash (forkIDFrom g blocks times at_)) = 4.
Proof.
  assert (forall x, slen (checksumBytes x) = 4) as Hc.
  { intros x. unfold checksumBytes, be_put, slen. by rewrite length_of_bytes, length_rev, length_bytes. }
  unfold forkIDFrom. generalize (crc32_ieee g). induction blocks as [|b blocks IH]; intros sum; cbn [forkID_blocks].
  - revert sum. induction times as [|t times IH]; intros sum; cbn [forkID_times]; [apply Hc|]. by destruct (at_ <? t).
  - by destruct (forkHeadBlock <? b).
Qed.

Lemma hex_nonempty h : slen h = 4 -> hex_encode h <> "".
Proof. by destruct h. Qed.

(** Membership in a literal list of columns. *)
Ltac column := match goal with |- ?P => exact (bool_decide_unpack P I) end.

(** * Rows *)

Definition textOf (v : value) : string := match v with VText s => s | _ => "" end.
Definition intOf (v : value) : Z := match v with VInt z => z | _ => 0 end.
Definition is_text (v : value) : bool := match v with VText _ | VNull => true | _ => false end.
Definition is_int (v : value) : bool := match v with VInt z => is_uint64 z | VNull => true | _ => false end.
Definition is_bool (v : value) : bool := match v with VBool _ | VNull => true | _ => false end.

Definition textColumns : list string :=
  ["id"; "enode"; "enr"; "ip"; "ip6"; "network"; "fork_hash"; "layer"; "client"; "os"; "country"; "membership_source"; "fp_status";
   "sync_state"; "enr_fork_digest"; "enr_next_fork_version"].
Definition intColumns : list string := ["fork_next"; "cgc"; "enr_next_fork_epoch"].
Definition boolColumns : list string := ["has_v4"; "has_v5"; "hosting"; "hosting_known"; "dialable"; "cgc_known"].

(** A row of the table: any column may be [NULL], the others have the column's type. *)
Definition typedRow (r : row) : bool :=
  forallb (fun c => is_text (r c)) textColumns && forallb (fun c => is_int (r c)) intColumns
  && forallb (fun c => is_bool (r c)) boolColumns
  && match r "fp_at" with VInt _ | VNull => true | _ => false end
  && plainHash (textOf (r "fork_hash")).

(** What the readiness rule is told about a row: [NULL] columns are zero values. *)
Definition evidence (r : row) : ReadinessEvidence :=
  MkEvidence (textOf (r "layer")) (textOf (r "fork_hash")) (intOf (r "fork_next")) (textOf (r "enr_fork_digest"))
    (textOf (r "enr_next_fork_version")) (intOf (r "enr_next_fork_epoch")).

Definition strict (v : value) : bool := bool_decide (v = VBool true).

Lemma strict_bool b : strict (VBool b) = b.
Proof. by destruct b. Qed.
Lemma strict_and a b : strict (sql_and a b) = strict a && strict b.
Proof. by destruct a as [| | |[]], b as [| | |[]]. Qed.
Lemma strict_or a b : strict (sql_or a b) = strict a || strict b.
Proof. by destruct a as [| | |[]], b as [| | |[]]. Qed.

(** [e] consumes [args] and holds of the row exactly when [b]. *)
Definition selects (r : row) (e : expr) (args : list value) (b : bool) : Prop := exists v, denotes r e args v /\ strict v = b.

Section Row.
Context (r : row) (Hr : typedRow r = true).

Lemma text_column c : c ∈ textColumns -> r c = VNull \/ exists s, r c = VText s.
Proof using Hr.
  intros Hc. unfold typedRow in Hr. do 4 (apply andb_true_iff in Hr as [Hr _]). rewrite forallb_forall in Hr.
  apply list_elem_of_In in Hc. specialize (Hr c Hc). destruct (r c); [by left|right; by eexists|done|done].
Qed.

Lemma int_column c : c ∈ intColumns -> r c = VNull \/ exists z, r c = VInt z /\ 0 <= z <= max_uint64.
Proof using Hr.
  intros Hc. unfold typedRow in Hr. apply andb_true_iff in Hr as [H _]. apply andb_true_iff in H as [H _].
  apply andb_true_iff in H as [H _]. apply andb_true_iff in H as [_ H]. rewrite forallb_forall in H.
  apply list_elem_of_In in Hc. specialize (H c Hc). destruct (r c) as [|?|z|?]; [by left|done| |done].
  right. exists z. unfold is_int, is_uint64 in H. boolify. done.
Qed.

Lemma plain_hash : plainHash (textOf (r "fork_hash")) = true.
Proof using Hr. unfold typedRow in Hr. by apply andb_true_iff in Hr as [_ H]. Qed.

Lemma selects_denotes e args b : denotes r e args (VBool b) -> selects r e args b.
Proof using. intros H. exists (VBool b). split; [done|apply strict_bool]. Qed.
Lemma selects_and e f xs ys a b : selects r e xs a -> selects r f ys b -> selects r (And e f) (xs ++ ys) (a && b).
Proof using. intros (v & Hv & <-) (w & Hw & <-). exists (sql_and v w). split; [by apply denotes_and|apply strict_and]. Qed.
Lemma selects_or e f xs ys a b : selects r e xs a -> selects r f ys b -> selects r (Or e f) (xs ++ ys) (a || b).
Proof using. intros (v & Hv & <-) (w & Hw & <-). exists (sql_or v w). split; [by apply denotes_or|apply strict_or]. Qed.
Lemma selects_eq e xs ys a b : selects r e xs a -> xs = ys -> a = b -> selects r e ys b.
Proof using. by intros ? <- <-. Qed.
Lemma selects_keeps e args b : selects r e args b -> keeps_row r (Some e) args = Some b.
Proof using. intros (v & Hv & <-). by apply denotes_keeps. Qed.
Lemma selects_not e args b : denotes r e args (VBool b) -> selects r (Not e) args (negb b).
Proof using. intros H. apply selects_denotes. change (VBool (negb b)) with (sql_not (VBool b)). by apply denotes_not. Qed.

Lemma denotes_coalesced c : c ∈ textColumns -> denotes r (coalesced c) [] (VText (textOf (r c))).
Proof using Hr.
  intros Hc. eapply denotes_args; [apply denotes_coalesce; [apply denotes_col|apply denotes_lit]|done|].
  by destruct (text_column c Hc) as [->|[s ->]].
Qed.
Lemma denotes_coalesced0 c : c ∈ intColumns -> denotes r (coalesced0 c) [] (VInt (intOf (r c))).
Proof using Hr.
  intros Hc. eapply denotes_args; [apply denotes_coalesce; [apply denotes_col|apply denotes_lit]|done|].
  by destruct (int_column c Hc) as [->|(z & -> & _)].
Qed.

Lemma selects_column_eq c s : c ∈ textColumns -> s <> "" -> selects r (Eq (Col c) (Text s)) [] (textOf (r c) =? s)%string.
Proof using Hr.
  intros Hc Hs. eexists. split; [apply (denotes_eq r _ _ [] []); [apply denotes_col|apply denotes_lit]|].
  destruct (text_column c Hc) as [->|[t ->]]; cbn; [by destruct s|apply strict_bool].
Qed.

Lemma selects_lower_eq c s : c ∈ textColumns -> s <> "" -> selects r (Eq (Lower (Col c)) Param) [VText s] (ToLower (textOf (r c)) =? s)%string.
Proof using Hr.
  intros Hc Hs. eexists. split; [apply (denotes_eq r _ _ [] [_]); [apply denotes_lower, denotes_col|apply denotes_param]|].
  destruct (text_column c Hc) as [->|[t ->]]; cbn; [by destruct s|apply strict_bool].
Qed.

Lemma denotes_lower_coalesced c s :
  c ∈ textColumns -> denotes r (Eq (Lower (coalesced c)) Param) [VText s] (VBool (ToLower (textOf (r c)) =? s)%string).
Proof using Hr. intros Hc. apply (denotes_eq r _ _ [] [_] (VText _) (VText _)); [by apply (denotes_lower r _ [] (VText _)), denotes_coalesced|apply denotes_param]. Qed.

Lemma denotes_int_eq c z : c ∈ intColumns -> denotes r (Eq (coalesced0 c) Param) [VInt z] (VBool (intOf (r c) =? z)).
Proof using Hr. intros Hc. apply (denotes_eq r _ _ [] [_] (VInt _) (VInt _)); [by apply denotes_coalesced0|apply denotes_param]. Qed.

Lemma denotes_int_lit c z : c ∈ intColumns -> denotes r (Eq (coalesced0 c) (Int z)) [] (VBool (intOf (r c) =? z)).
Proof using Hr. intros Hc. apply (denotes_eq r _ _ [] [] (VInt _) (VInt _)); [by apply denotes_coalesced0|apply denotes_lit]. Qed.

Lemma denotes_bool_and e f xs ys a b : denotes r e xs (VBool a) -> denotes r f ys (VBool b) -> denotes r (And e f) (xs ++ ys) (VBool (a && b)).
Proof using. intros. eapply denotes_args; [by apply denotes_and|done|]. by destruct a, b. Qed.
Lemma denotes_bool_or e f xs ys a b : denotes r e xs (VBool a) -> denotes r f ys (VBool b) -> denotes r (Or e f) (xs ++ ys) (VBool (a || b)).
Proof using. intros. eapply denotes_args; [by apply denotes_or|done|]. by destruct a, b. Qed.
Lemma denotes_bool_not e xs a : denotes r e xs (VBool a) -> denotes r (Not e) xs (VBool (negb a)).
Proof using. intros H. change (VBool (negb a)) with (sql_not (VBool a)). by apply denotes_not. Qed.
End Row.

(** * Networks *)

(** What the types and the indexing of the source make of a network: an unsigned
    genesis time, four-byte memos, and cancellations with the lower-case hashes
    [indexHashes] gives them. *)
Definition network_ok (n : Network) : Prop :=
  0 <= gb_Time (nw_genesis (load n)) /\
  Forall (fun c => ToLower (ca_elPreHash c) = ca_elPreHash c) (nw_cancellations (load n)) /\
  (forall m, nw_fork (load n) = Some m -> slen (fid_Hash (fm_id m)) = 4) /\
  (stateOK (nw_clCache n) = true -> slen (Digest (cstate (nw_clCache n))) = 4).

Definition registry_ok (registry : list Network) : Prop := forall name n, Get registry name = Ok n -> network_ok n.

(** * Fork currency *)

Section Current.
Context (registry : list Network) (at_ : Time).

(** The fork hash and digest are four-byte arrays in Go. *)
Definition four_bytes (name : string) : Prop :=
  (forall n, Get registry name = Ok n -> slen (fid_Hash (fst (CurrentForkIDAt n at_))) = 4) /\
  (forall s, CLForkStateAt registry name at_ = Ok s -> slen (Digest s) = 4).

(** A row is on the current fork of the network it names. *)
Definition rowCurrent (r : row) (name : string) : bool :=
  (textOf (r "network") =? name)%string
  && RowForkCurrentAt registry (textOf (r "layer")) name (textOf (r "fork_hash")) (intOf (r "fork_next")) at_.

Lemma computeStateAt_size c epoch s : computeStateAt c epoch = Ok s -> slen (Digest s) = 4.
Proof using.
  unfold computeStateAt, rbind. destruct (digestAt c epoch) as [[d v]|] eqn:E; [|done]. apply digestAt_size in E.
  destruct (match nextFork c epoch with Some f => _ | None => _ end) as [e1 v1]. destruct (match nextBlob c epoch e1 with Some bp => _ | None => _ end) as [e2 v2].
  destruct (e2 =? max_uint64); [by intros [= <-]|]. destruct (digestAt c e2) as [[d2 ?]|]; [|done]. by intros [= <-].
Qed.

Lemma four_bytes_ok name : registry_ok registry -> four_bytes name.
Proof using.
  intros Hok. split.
  - intros n Hg. destruct (Hok name n Hg) as (_ & _ & Hm & _). unfold CurrentForkIDAt. cbv zeta.
    assert (slen (fid_Hash (currentForkIDAt (load n) at_)) = 4) as Hc by apply forkIDFrom_size.
    destruct (nw_fork (load n)) as [m|]; [|exact Hc]. destruct (_ =? _); [by apply Hm|exact Hc].
  - intros s. unfold CLForkStateAt. destruct (Get registry name) as [n|] eqn:Hg; [|done]. destruct (Hok name n Hg) as (_ & _ & _ & Hk).
    destruct (nw_cl n) as [cl|]; [|done]. unfold stateAt. cbv zeta. destruct (stateOK (nw_clCache n) && _) eqn:E.
    + apply andb_true_iff in E as [E _]. intros [= <-]. by apply Hk.
    + destruct (computeStateAt cl _) as [st|] eqn:Es; [|done]. intros [= <-]. by eapply computeStateAt_size.
Qed.

Context (r : row) (Hr : typedRow r = true).

Lemma nextTest_denotes x :
  denotes r (nextTest x) (nextBounds x) (VBool ((x.1 <=? intOf (r "fork_next")) && (intOf (r "fork_next") <=? x.2))).
Proof using Hr.
  assert ("fork_next" ∈ intColumns) as Hc by left. pose proof (denotes_coalesced0 r Hr "fork_next" Hc) as Hd.
  assert (intOf (r "fork_next") <= max_uint64) as Hmax by (destruct (int_column r Hr "fork_next" Hc) as [->|(z & -> & ?)]; [done|cbn; lia]).
  unfold nextTest, nextBounds. destruct (Z.eqb_spec x.2 max_uint64) as [->|_].
  - eapply denotes_args; [apply denotes_ge; [exact Hd|apply denotes_param]|done|]. cbn.
    assert ((intOf (r "fork_next") <=? max_uint64) = true) as -> by (apply Z.leb_le; lia). by rewrite andb_true_r.
  - apply (denotes_bool_and r _ _ [_] [_]).
    + eapply denotes_args; [apply denotes_ge; [exact Hd|apply denotes_param]|done|done].
    + eapply denotes_args; [apply denotes_le; [exact Hd|apply denotes_param]|done|done].
Qed.

Lemma ranges_denote :
  denotes r match CanonicalCurrentNextRanges at_ with [] => FALSE | x :: l => join_Or (nextTest x) (map nextTest l) end
    (concat (map nextBounds (CanonicalCurrentNextRanges at_)))
    (VBool (existsb (fun x : Z * Z => (x.1 <=? intOf (r "fork_next")) && (intOf (r "fork_next") <=? x.2)) (CanonicalCurrentNextRanges at_))).
Proof using Hr.
  destruct (CanonicalCurrentNextRanges at_) as [|x l]; [apply denotes_lit|]. apply denotes_join_Or. intros y _. apply nextTest_denotes.
Qed.

Lemma IsCurrentForkAt_text name n :
  Get registry name = Ok n -> four_bytes name ->
  IsCurrentForkAt registry name (textOf (r "fork_hash")) at_ =
  (ToLower (textOf (r "fork_hash")) =? hex_encode (fid_Hash (fst (CurrentForkIDAt n at_))))%string.
Proof using Hr.
  intros Hg [H4 _]. unfold IsCurrentForkAt, net_IsCurrentForkAt. rewrite Hg. apply parseHash4_plain; [by apply plain_hash|by apply H4].
Qed.

Lemma IsCurrentCLForkAt_text name s :
  CLForkStateAt registry name at_ = Ok s -> four_bytes name ->
  IsCurrentCLForkAt registry name (textOf (r "fork_hash")) at_ = (ToLower (textOf (r "fork_hash")) =? hex_encode (Digest s))%string.
Proof using Hr.
  intros Hg [_ H4]. unfold IsCurrentCLForkAt. rewrite Hg. apply parseHash4_plain; [by apply plain_hash|by apply H4].
Qed.

Lemma currentPart_selects name args :
  name <> "" -> four_bytes name -> currentArgs registry at_ name = Ok args ->
  selects r (currentPart (CanonicalCurrentNextRanges at_)) args (rowCurrent r name).
Proof using Hr.
  intros Hname H4 Ha. unfold currentArgs, rbind in Ha. destruct (Get registry name) as [nw|] eqn:Hg; [|done].
  destruct (CLForkStateAt registry name at_) as [s|] eqn:Hs; [|done]. injection Ha as <-.
  unfold rowCurrent, RowForkCurrentAt, IsCanonicalForkCompatibleAt.
  rewrite (IsCurrentForkAt_text name nw Hg H4), (IsCurrentCLForkAt_text name s Hs H4).
  pose proof (proj1 H4 nw Hg) as He. pose proof (proj2 H4 s Hs) as Hd.
  eapply selects_eq; [unfold currentPart; apply selects_and; [|apply selects_or; apply selects_and; [|apply selects_and| |]]| |].
  - exists (sql_eq (r "network") (VText name)). split; [apply (denotes_eq r _ _ [] [VText name]); [apply denotes_col|apply denotes_param]|reflexivity].
  - by apply (selects_column_eq r Hr); [column|].
  - apply (selects_lower_eq r Hr "fork_hash" (hex_encode (fid_Hash (fst (CurrentForkIDAt nw at_))))); [column|by apply hex_nonempty].
  - apply selects_denotes, ranges_denote.
  - by apply (selects_column_eq r Hr); [column|].
  - apply (selects_lower_eq r Hr "fork_hash" (hex_encode (Digest s))); [column|by apply hex_nonempty].
  - done.
  - assert (strict (sql_eq (r "network") (VText name)) = (textOf (r "network") =? name)%string) as ->.
    { destruct (text_column r Hr "network") as [->|[t ->]]; [column|by destruct name|apply strict_bool]. }
    f_equal. destruct (String.eqb_spec (textOf (r "layer")) "el") as [->|]; [by rewrite orb_false_r|].
    by destruct (textOf (r "layer") =? "cl")%string.
Qed.

Lemma and_boolean e f args v : denotes r (And e f) args v -> v = VNull \/ exists b, v = VBool b.
Proof using.
  intros H. specialize (H []). cbn in H. destruct (sql_eval r e _) as [[x ?]|]; [|done]. destruct (sql_eval r f _) as [[y ?]|]; [|done].
  injection H as <- _. destruct x as [| | |[]], y as [| | |[]]; cbn; eauto.
Qed.
Lemma or_boolean e f args v : denotes r (Or e f) args v -> v = VNull \/ exists b, v = VBool b.
Proof using.
  intros H. specialize (H []). cbn in H. destruct (sql_eval r e _) as [[x ?]|]; [|done]. destruct (sql_eval r f _) as [[y ?]|]; [|done].
  injection H as <- _. destruct x as [| | |[]], y as [| | |[]]; cbn; eauto.
Qed.

Lemma coalesce_false e args b :
  selects r e args b -> (forall v, denotes r e args v -> v = VNull \/ exists b, v = VBool b) ->
  denotes r (Coalesce e FALSE) args (VBool b).
Proof using.
  intros (v & Hv & <-) Hb. eapply denotes_args; [apply denotes_coalesce; [exact Hv|apply denotes_lit]|by rewrite app_nil_r|].
  destruct (Hb v Hv) as [->|[b ->]]; [done|]. cbn. by rewrite strict_bool.
Qed.

Lemma currentArgs_all_selects name networks args :
  (forall x, x ∈ name :: networks -> x <> "" /\ four_bytes x) -> currentArgs_all registry at_ (name :: networks) = Ok args ->
  let part := currentPart (CanonicalCurrentNextRanges at_) in
  selects r (join_Or part (map (fun _ => part) networks)) args (existsb (rowCurrent r) (name :: networks)).
Proof using Hr.
  cbv zeta. revert name args. induction networks as [|next networks IH]; intros name args Hn Ha.
  - cbn in Ha. unfold rbind in Ha. destruct (currentArgs registry at_ name) as [xs|] eqn:E; [|done]. injection Ha as <-.
    destruct (Hn name ltac:(left)) as [H1 H2]. eapply selects_eq; [by apply currentPart_selects|by rewrite app_nil_r|]. cbn. by rewrite orb_false_r.
  - cbn [currentArgs_all] in Ha. unfold rbind in Ha. destruct (currentArgs registry at_ name) as [xs|] eqn:E; [|done].
    change (match currentArgs_all registry at_ (next :: networks) with Ok rest => Ok (xs ++ rest) | Err e => Err e end = Ok args) in Ha.
    destruct (currentArgs_all registry at_ (next :: networks)) as [ys|] eqn:Ey; [|done]. injection Ha as <-.
    destruct (Hn name ltac:(left)) as [H1 H2]. cbn [map join_Or].
    change (existsb (rowCurrent r) (name :: next :: networks)) with (rowCurrent r name || existsb (rowCurrent r) (next :: networks)).
    apply selects_or; [by apply currentPart_selects|]. apply IH; [|done]. intros x Hx. apply Hn. by right.
Qed.

Lemma currentFork_denotes networks cond args :
  (forall x, x ∈ networks -> x <> "" /\ four_bytes x) -> currentForkConditionAt registry at_ networks = Ok (cond, args) ->
  denotes r cond args (VBool (existsb (rowCurrent r) networks)).
Proof using Hr.
  intros Hn Hc. unfold currentForkConditionAt, rbind in Hc. destruct (currentArgs_all registry at_ networks) as [xs|] eqn:E; [|done].
  destruct networks as [|name networks]; injection Hc as <- <-; [apply denotes_lit|].
  apply coalesce_false; [by apply currentArgs_all_selects|]. destruct networks; intros v; [apply and_boolean|apply or_boolean].
Qed.
End Current.

(** * The readiness rule *)

Definition el_ok (el : ELForkTarget) : Prop :=
  ToLower (elt_PreHash el) = elt_PreHash el /\ (elt_Phase el = PhaseActivated -> elt_PreHash el <> "") /\
  (elt_Phase el = PhaseCancelled \/ elt_Time el <> 0).
Definition cl_ok (cl : CLForkTarget) : Prop :=
  ToLower (clt_PreDigest cl) = clt_PreDigest cl /\ (clt_Phase cl = PhaseActivated -> clt_PreDigest cl <> "") /\
  ToLower (clt_Version cl) = clt_Version cl /\ (clt_Phase cl = PhaseCancelled \/ clt_Phase cl = PhaseActivated \/ clt_Epoch cl <> max_uint64).

Section Rule.
Context (r : row) (Hr : typedRow r = true) (current : expr) (args : list value) (cur : bool) (Hcur : denotes r current args (VBool cur)).
Context (Hhash : cur = true -> r "fork_hash" <> VNull).

(** A part selects the rows of its layer for which [b] holds. *)
Definition part_selects (layer : string) (p : option part_) (b : bool) : Prop :=
  match p with
  | Some (e, xs) => selects r e xs ((textOf (r "layer") =? layer)%string && b)
  | None => b = false
  end.

Lemma layer_selects layer e xs b : layer <> "" -> selects r e xs b -> selects r (onLayer layer e) xs ((textOf (r "layer") =? layer)%string && b).
Proof using Hr Hcur Hhash. intros Hl He. apply (selects_and r _ _ [] xs); [apply (selects_column_eq r Hr); [column|done]|done]. Qed.

Lemma add_selects layer e xs b : layer <> "" -> selects r e (args ++ xs) b -> part_selects layer (Some (add args layer e xs)) b.
Proof using Hr Hcur Hhash. intros. by apply layer_selects. Qed.

Lemma current_and e xs b : selects r e xs b -> selects r (And current e) (args ++ xs) (cur && b).
Proof using Hr Hcur Hhash. intros. apply selects_and; [by apply selects_denotes|done]. Qed.
(** A condition that may be [NULL] on rows that are not current. *)
Lemma current_and_value e xs v b : denotes r e xs v -> (cur = true -> v = VBool b) -> selects r (And current e) (args ++ xs) (cur && b).
Proof using Hr Hcur Hhash.
  intros He Hv. exists (sql_and (VBool cur) v). split; [by apply denotes_and|]. rewrite strict_and, strict_bool.
  destruct cur; [|done]. rewrite (Hv eq_refl). apply strict_bool.
Qed.
Lemma stale_and e xs b : selects r e xs b -> selects r (And (Not current) e) (args ++ xs) (negb cur && b).
Proof using Hr Hcur Hhash. intros. apply selects_and; [by apply selects_not|done]. Qed.

Lemma inList_denotes l :
  denotes r (fst (inList (Lower (coalesced "fork_hash")) l)) (snd (inList (Lower (coalesced "fork_hash")) l))
    (VBool (containsFold l (textOf (r "fork_hash")))).
Proof using Hr Hcur Hhash.
  assert (containsFold l (textOf (r "fork_hash")) = existsb (fun t => (ToLower (textOf (r "fork_hash")) =? t)%string) (map ToLower l)) as ->.
  { unfold containsFold, contains_func, EqualFold. induction l as [|x l IH]; [done|]. cbn [map existsb]. rewrite IH, String.eqb_sym. done. }
  destruct l as [|x l]; [apply denotes_lit|]. unfold inList. cbn [fst snd].
  assert (map (fun v => VText (ToLower v)) (x :: l) = map VText (map ToLower (x :: l))) as -> by (by rewrite map_map).
  apply denotes_in; [|by rewrite map_map]. apply (denotes_lower r _ [] (VText _)), denotes_coalesced; [done|column].
Qed.

Lemma activated_selects layer want pre readable readableArgs scheduled scheduledArgs (ra sc : bool) :
  layer <> "" -> pre <> "" -> ToLower pre = pre ->
  denotes r readable readableArgs (VBool ra) -> denotes r scheduled scheduledArgs (VBool sc) ->
  part_selects layer (activatedPart current args layer want pre readable readableArgs scheduled scheduledArgs)
    (bool_decide (activatedReadiness cur (textOf (r "fork_hash")) pre ra sc = want) && negb (bool_decide (want = NoReadiness))).
Proof using Hr Hcur Hhash.
  intros Hl Hpre Hlow Hra Hsc. unfold activatedPart, activatedReadiness. rewrite (EqualFold_lower _ _ Hlow).
  pose proof (selects_lower_eq r Hr "fork_hash" pre ltac:(column) Hpre) as Hfh.
  pose proof (denotes_lower_coalesced r Hr "fork_hash" pre ltac:(column)) as Hcf.
  set (onPre := (ToLower (textOf (r "fork_hash")) =? pre)%string) in *.
  destruct want.
  - apply add_selects; [done|]. rewrite app_nil_r. eapply selects_eq; [by apply selects_denotes|done|]. by destruct cur, onPre, ra, sc.
  - apply add_selects; [done|].
    eapply selects_eq; [apply stale_and, selects_and; [exact Hfh|apply selects_and; by apply selects_denotes]|done|]. by destruct cur, onPre, ra, sc.
  - apply add_selects; [done|].
    eapply selects_eq; [apply stale_and, selects_and; [exact Hfh|apply selects_and; [by apply selects_denotes|by apply selects_not]]|done|].
    by destruct cur, onPre, ra, sc.
  - by destruct cur, onPre, ra, sc.
  - apply add_selects; [done|].
    eapply selects_eq; [apply stale_and, selects_and; [exact Hfh|by apply selects_not]|done|]. by destruct cur, onPre, ra, sc.
  - apply add_selects; [done|]. eapply selects_eq; [apply stale_and, selects_not, Hcf|done|]. by destruct cur, onPre, ra, sc.
  - by rewrite andb_false_r.
Qed.

Lemma cancelled_selects layer want affected affectedArgs matched (af ma : bool) mv :
  layer <> "" -> denotes r affected affectedArgs (VBool af) -> denotes r (default TRUE matched) [] mv ->
  (cur = true -> mv = VBool ma) -> (matched = None -> ma = true) ->
  part_selects layer (cancelledPart current args layer want affected affectedArgs matched)
    (bool_decide (cancelledReadiness cur af ma = want) && negb (bool_decide (want = NoReadiness))).
Proof using Hr Hcur Hhash.
  intros Hl Haf Hma Hmv Hnone. unfold cancelledPart, cancelledReadiness. cbv zeta.
  assert (forall m w v, denotes r m [] v -> (cur = true -> v = VBool w) ->
    selects r (And current (And (Not affected) m)) (args ++ affectedArgs) (cur && (negb af && w))) as Hand.
  { intros m w v Hm Hv. rewrite <- (app_nil_r affectedArgs). eapply current_and_value; [apply denotes_and; [by apply denotes_not|exact Hm]|].
    intros Hc. rewrite (Hv Hc). by destruct af, w. }
  destruct want.
  - apply add_selects; [done|]. eapply selects_eq; [by eapply Hand|done|]. by destruct cur, af, ma.
  - by destruct cur, af, ma.
  - cbn [part_selects]. eapply selects_eq; [apply layer_selects; [done|by apply selects_denotes]|done|]. f_equal. by destruct cur, af, ma.
  - by destruct cur, af, ma.
  - destruct matched as [m|]; [|rewrite Hnone by done; by destruct cur, af].
    apply add_selects; [done|]. eapply selects_eq; [eapply (Hand (Not m) (negb ma)); [by apply denotes_not|intros Hc; by rewrite (Hmv Hc)]|done|].
    by destruct cur, af, ma.
  - apply add_selects; [done|]. eapply selects_eq; [apply stale_and; by apply selects_not|done|]. by destruct cur, af, ma.
  - by rewrite andb_false_r.
Qed.

(** The want filter and the rule agree; the empty readiness is never asked for. *)
Definition wanted (got want : Readiness) : bool := bool_decide (got = want) && negb (bool_decide (want = NoReadiness)).

Lemma next_denotes t : denotes r (Eq (coalesced0 "fork_next") Param) [VInt t] (VBool (ev_ForkNext (evidence r) =? t)).
Proof using Hr Hcur Hhash. apply denotes_int_eq; [done|column]. Qed.

Lemma elScheduled_selects el want :
  elt_Time el <> 0 ->
  part_selects "el" (elScheduledPart current args want el)
    (wanted (if negb cur then Stale
             else if ev_ForkNext (evidence r) =? elt_Time el then Ready
             else if ev_ForkNext (evidence r) =? 0 then NotReady
             else Mismatch) want).
Proof using Hr Hcur Hhash.
  intros Hnz. unfold wanted. pose proof (next_denotes (elt_Time el)) as Hnext.
  assert (denotes r (Eq (coalesced0 "fork_next") (Int 0)) [] (VBool (ev_ForkNext (evidence r) =? 0))) as Hzero
    by (apply denotes_int_lit; [done|column]).
  assert ((ev_ForkNext (evidence r) =? elt_Time el) && (ev_ForkNext (evidence r) =? 0) = false) as Hdisj
    by (apply not_true_iff_false; intros Hb; boolify; lia).
  generalize dependent (ev_ForkNext (evidence r) =? elt_Time el). intros next Hnext Hdisj.
  generalize dependent (ev_ForkNext (evidence r) =? 0). intros zero Hzero Hdisj. destruct want; cbn [elScheduledPart].
  - apply add_selects; [done|]. eapply selects_eq; [apply current_and, selects_denotes, Hnext|done|]. by destruct cur, next, zero.
  - by destruct cur, next, zero.
  - apply add_selects; [done|]. eapply selects_eq; [apply current_and, selects_denotes, Hzero|done|]. by destruct cur, next, zero.
  - apply add_selects; [done|].
    eapply selects_eq; [apply current_and, selects_not, (denotes_bool_or r _ _ [] [VInt (elt_Time el)]);
      [exact Hzero|apply (denotes_bool_or r _ _ [VInt (elt_Time el)] []); [exact Hnext|apply denotes_lit]]|done|].
    by destruct cur, next, zero.
  - by destruct cur, next, zero.
  - apply add_selects; [done|]. rewrite app_nil_r. eapply selects_eq; [by apply selects_not|done|]. by destruct cur, next, zero.
  - by rewrite andb_false_r.
Qed.

Lemma el_selects el want :
  el_ok el -> part_selects "el" (elPart current args want el) (wanted (elReadiness el (evidence r) cur) want).
Proof using Hr Hcur Hhash.
  intros (Hlow & Hne & Hnz). unfold elPart, elReadiness. pose proof (next_denotes (elt_Time el)) as Hnext.
  destruct (elt_Phase el) eqn:Ep.
  - apply elScheduled_selects. by destruct Hnz.
  - apply elScheduled_selects. by destruct Hnz.
  - apply activated_selects; try done. by apply Hne.
  - pose proof (inList_denotes (elt_OnCancelled el)) as Hin. destruct (inList _ _) as [onC onArgs]. cbn [fst snd] in Hin.
    eapply cancelled_selects; [done| |apply (denotes_lit r (VBool true))|done|done].
    apply denotes_bool_or; [exact Hin|]. rewrite (EqualFold_lower _ _ Hlow).
    apply (denotes_bool_and r _ _ [VText (elt_PreHash el)] [VInt (elt_Time el)]); [apply denotes_lower_coalesced; [done|column]|exact Hnext].
Qed.

Lemma scheduledCL_denotes cl :
  ToLower (clt_Version cl) = clt_Version cl ->
  denotes r scheduledCL [VInt (clt_Epoch cl); VText (clt_Version cl)]
    (VBool ((ev_ENRNextForkEpoch (evidence r) =? clt_Epoch cl) && EqualFold (ev_ENRNextForkVersion (evidence r)) (clt_Version cl))).
Proof using Hr Hcur Hhash.
  intros Hlow. rewrite (EqualFold_lower _ _ Hlow). apply (denotes_bool_and r _ _ [VInt (clt_Epoch cl)] [VText (clt_Version cl)]).
  - apply denotes_int_eq; [done|column].
  - apply denotes_lower_coalesced; [done|column].
Qed.

(** Whether the record's own digest is the row's. *)
Definition matchedOf : bool :=
  negb (ev_ENRForkDigest (evidence r) =? "")%string && EqualFold (ev_ENRForkDigest (evidence r)) (ev_ForkHash (evidence r)).

Lemma matchedCL_denotes : exists v, denotes r matchedCL [] v /\ (cur = true -> v = VBool matchedOf).
Proof using Hr Hcur Hhash.
  unfold matchedCL, Ne, matchedOf, evidence, EqualFold. cbn [ev_ENRForkDigest ev_ForkHash].
  pose proof (denotes_coalesced r Hr "enr_fork_digest" ltac:(column)) as Hd. eexists. split.
  - apply (denotes_and r _ _ [] []); [apply denotes_not, (denotes_eq r _ _ [] []); [exact Hd|apply denotes_lit]|].
    apply (denotes_eq r _ _ [] []); apply denotes_lower, denotes_col.
  - intros Hc. destruct (text_column r Hr "fork_hash") as [?|[h Eh]]; [column|by destruct (Hhash Hc)|]. rewrite Eh.
    destruct (text_column r Hr "enr_fork_digest") as [->|[d ->]]; [column|done|]. cbn [textOf sql_eq sql_coalesce sql_lower sql_not sql_and]. destruct (d =? "")%string, (ToLower d =? ToLower h)%string; done.
Qed.

Lemma clScheduled_selects cl want :
  clt_Epoch cl <> max_uint64 -> ToLower (clt_Version cl) = clt_Version cl ->
  part_selects "cl" (clScheduledPart current args want cl)
    (wanted (if negb cur then Stale
             else if negb matchedOf then Unknown
             else if (ev_ENRNextForkEpoch (evidence r) =? clt_Epoch cl) && EqualFold (ev_ENRNextForkVersion (evidence r)) (clt_Version cl) then Ready
             else if ev_ENRNextForkEpoch (evidence r) =? max_uint64 then NotReady
             else Mismatch) want).
Proof using Hr Hcur Hhash.
  intros Hepoch Hlow. unfold wanted. pose proof (scheduledCL_denotes cl Hlow) as Hs.
  assert (denotes r (Eq (coalesced0 "enr_next_fork_epoch") (Int max_uint64)) [] (VBool (ev_ENRNextForkEpoch (evidence r) =? max_uint64))) as Hfar
    by (apply denotes_int_lit; [done|column]).
  assert ((ev_ENRNextForkEpoch (evidence r) =? clt_Epoch cl) && EqualFold (ev_ENRNextForkVersion (evidence r)) (clt_Version cl)
          && (ev_ENRNextForkEpoch (evidence r) =? max_uint64) = false) as Hdisj by (apply not_true_iff_false; intros Hb; boolify; lia).
  generalize dependent ((ev_ENRNextForkEpoch (evidence r) =? clt_Epoch cl) && EqualFold (ev_ENRNextForkVersion (evidence r)) (clt_Version cl)).
  intros sc Hs Hdisj. generalize dependent (ev_ENRNextForkEpoch (evidence r) =? max_uint64). intros far Hfar Hdisj.
  destruct matchedCL_denotes as (mv & Hm & Hmv). generalize dependent matchedOf. intros ma Hmv.
  destruct want; unfold clScheduledPart; cbv zeta.
  - apply add_selects; [done|]. eapply selects_eq; [eapply (current_and_value _ ([] ++ _) _ (ma && sc)); [apply denotes_and; [exact Hm|exact Hs]|]|done|].
    + intros Hc. rewrite (Hmv Hc). by destruct ma, sc.
    + by destruct cur, ma, sc, far.
  - by destruct cur, ma, sc, far.
  - apply add_selects; [done|]. eapply selects_eq; [eapply (current_and_value _ ([] ++ []) _ (ma && far)); [apply denotes_and; [exact Hm|exact Hfar]|]|done|].
    + intros Hc. rewrite (Hmv Hc). by destruct ma, far.
    + by destruct cur, ma, sc, far.
  - apply add_selects; [done|].
    eapply selects_eq; [eapply (current_and_value _ ([] ++ (_ ++ [])) _ (ma && (negb sc && negb far)));
      [apply denotes_and; [exact Hm|apply denotes_and; apply denotes_not; [exact Hs|exact Hfar]]|]|by rewrite app_nil_r|].
    + intros Hc. rewrite (Hmv Hc). by destruct ma, sc, far.
    + by destruct cur, ma, sc, far.
  - apply add_selects; [done|]. eapply selects_eq; [eapply (current_and_value _ [] _ (negb ma)); [apply denotes_not, Hm|]|done|].
    + intros Hc. by rewrite (Hmv Hc).
    + by destruct cur, ma, sc, far.
  - apply add_selects; [done|]. rewrite app_nil_r. eapply selects_eq; [by apply selects_not|done|]. by destruct cur, ma, sc, far.
  - by rewrite andb_false_r.
Qed.

Lemma cl_selects cl want :
  cl_ok cl -> part_selects "cl" (clPart current args want cl) (wanted (clReadiness cl (evidence r) cur) want).
Proof using Hr Hcur Hhash.
  intros (Hlow & Hne & Hver & Hep). unfold clPart, clReadiness. cbv zeta. pose proof (scheduledCL_denotes cl Hver) as Hs.
  assert (denotes r (Eq (Lower (coalesced "enr_fork_digest")) Param) [VText (clt_PreDigest cl)]
    (VBool (EqualFold (ev_ENRForkDigest (evidence r)) (clt_PreDigest cl)))) as Hpre.
  { rewrite (EqualFold_lower _ _ Hlow). apply denotes_lower_coalesced; [done|column]. }
  assert (forall b, (ev_ENRForkDigest (evidence r) =? "")%string || negb (EqualFold (ev_ENRForkDigest (evidence r)) (ev_ForkHash (evidence r))) = b -> b = negb matchedOf)
    as Hun by (intros b <-; unfold matchedOf; by destruct (_ =? _)%string, (EqualFold _ _)).
  destruct (clt_Phase cl) eqn:Ep.
  - rewrite (Hun _ eq_refl). apply clScheduled_selects; [naive_solver|done].
  - rewrite (Hun _ eq_refl). apply clScheduled_selects; [naive_solver|done].
  - apply activated_selects; try done. by apply Hne.
  - pose proof (inList_denotes (clt_OnCancelled cl)) as Hin. destruct (inList _ _) as [onC onArgs]. cbn [fst snd] in Hin.
    destruct matchedCL_denotes as (mv & Hm & Hmv). eapply cancelled_selects; [done| |exact Hm|exact Hmv|done].
    apply denotes_bool_or; [exact Hin|]. apply (denotes_bool_and r _ _ [VText (clt_PreDigest cl)]); [exact Hpre|exact Hs].
Qed.
End Rule.

(** ** The tracked target *)

Definition target_ok (t : ForkTarget) : Prop :=
  (forall el, ft_EL t = Some el -> el_ok el) /\ (forall cl, ft_CL t = Some cl -> cl_ok cl).

Lemma elTargetAt_ok n at_ el : network_ok n -> elTargetAt n at_ = Some el -> el_ok el.
Proof.
  intros (Hg & _) H. unfold elTargetAt in H. cbv zeta in H.
  destruct (elChoice _ _ at_) as [[chosen phase]|] eqn:E; [|done]. injection H as <-. unfold el_ok. cbn [elt_PreHash elt_Phase elt_Time].
  split; [apply ToLower_hex_encode|]. split; [intros _; apply hex_nonempty, forkIDFrom_size|right].
  unfold elChoice in E. pose proof (elTarget_fold (gb_Time (nw_genesis (load n))) (clampUnix at_) (nw_elForks (load n))) as Hf.
  destruct (foldl _ _ _) as [next last]. destruct Hf as [Hn Hl]. destruct next as [x|].
  - injection E as <- _. destruct Hn as [? _]. lia.
  - destruct last as [x|]; [|done]. destruct (ForkTrackingGrace <=? _); [done|]. injection E as <- _. destruct Hl as [[? _] _]. lia.
Qed.

Lemma lastAtEpoch_epoch e f l : cf_epoch f = e -> cf_epoch (lastAtEpoch e f l) = e.
Proof. revert f. induction l as [|g l IH]; intros f Hf; cbn; [done|]. destruct (Z.eqb_spec (cf_epoch g) e); [by apply IH|done]. Qed.

Lemma clUpcoming_epoch epoch l f : clUpcoming epoch l = Some f -> cf_epoch f <> max_uint64.
Proof.
  induction l as [|g l IH]; cbn [clUpcoming]; [done|]. destruct ((epoch <? cf_epoch g) && negb (cf_epoch g =? max_uint64)) eqn:E; [|done].
  intros [= <-]. rewrite lastAtEpoch_epoch by done. boolify. done.
Qed.

Lemma targetAt_ok c at_ cl : targetAt c at_ = Ok (Some cl) -> cl_ok cl.
Proof.
  unfold targetAt, rbind. destruct (transitions c) as [forks|]; [|done]. destruct (clChoice c forks at_) as [[chosen phase]|] eqn:E; [|done].
  destruct (digestAt c (wrapU64 (cf_epoch chosen - 1))) as [[pre ?]|] eqn:Epre; [|done].
  destruct (digestAt c (cf_epoch chosen)) as [[post ?]|]; [|done]. intros [= <-]. unfold cl_ok. cbn [clt_PreDigest clt_Phase clt_Version clt_Epoch].
  split; [apply ToLower_hex_encode|]. split; [intros _; eapply hex_nonempty, digestAt_size, Epre|]. split; [apply ToLower_hex_encode|right].
  unfold clChoice in E. destruct (clUpcoming (epochAt c at_) forks) as [f|] eqn:Eu.
  - injection E as <- <-. right. by eapply clUpcoming_epoch.
  - destruct (clLatest _ _); [|done]. destruct (_ <? _); [|done]. injection E as _ <-. by left.
Qed.

Lemma pickCancellation_in n at_ has chosen l c : pickCancellation n at_ has chosen l = Some c -> chosen = Some c \/ c ∈ l.
Proof.
  revert chosen. induction l as [|d l IH]; intros chosen; cbn [pickCancellation]; [by left|].
  destruct (negb (has d) || _); [intros H; destruct (IH _ H); [by left|right; by right]|].
  destruct (After _ _); [intros [= <-]; right; left|]. intros H. destruct (IH _ H) as [[= <-]|]; [right; left|right; by right].
Qed.

Lemma cancelledTargetsAt_ok n at_ t : network_ok n -> target_ok t -> target_ok (cancelledTargetsAt n at_ t).
Proof.
  intros (_ & Hc & _) Ht. unfold cancelledTargetsAt. cbv zeta. set (t1 := match pickCancellation _ _ hasEL _ _ with None => t | _ => _ end).
  assert (target_ok t1) as Ht1.
  { subst t1. destruct (pickCancellation (load n) at_ hasEL None _) as [c|] eqn:E; [|done].
    destruct (match ft_EL t with None => true | _ => _ end); [|done]. destruct Ht as [_ Hcl]. split; cbn [ft_EL ft_CL]; [|done].
    intros el [= <-]. unfold el_ok. cbn. destruct (pickCancellation_in _ _ _ _ _ _ E) as [|Hin]; [done|].
    rewrite Forall_forall in Hc. split_and!; [apply (Hc c), list_elem_of_In, Hin|done|by left]. }
  clearbody t1. destruct (pickCancellation (load n) at_ hasCL None _) as [c|]; [|done].
  destruct (match ft_CL t1 with None => true | _ => _ end); [|done]. destruct Ht1 as [Hel _]. split; cbn [ft_EL ft_CL]; [done|].
  intros cl [= <-]. unfold cl_ok. cbn. split_and!; [apply ToLower_hex_encode|done|apply ToLower_hex_encode|by left].
Qed.

Lemma separateLayers_ok t : target_ok t -> target_ok (separateLayers t).
Proof.
  intros Ht. pose proof Ht as [He Hc]. unfold separateLayers. destruct (ft_EL t) as [el|]; [|done].
  destruct (ft_CL t) as [cl|]; [|done]. destruct (_ =? _); [done|]. cbv zeta.
  destruct (_ || _); split; cbn [ft_EL ft_CL]; intros x Hx; simplify_eq; auto.
Qed.

Lemma ForkTargetAt_ok registry network at_ t :
  registry_ok registry -> ForkTargetAt registry network at_ = Ok t -> target_ok t.
Proof.
  intros Hok. unfold ForkTargetAt, LayerForkTargetsAt. unfold rbind. destruct (Get registry network) as [n|] eqn:Hg; [|done].
  pose proof (Hok network n Hg) as Hn. cbv zeta.
  destruct (match nw_cl n with Some c => targetAt c at_ | None => Ok None end) as [cl|] eqn:Ecl; [|done]. intros [= <-].
  assert (target_ok (separateLayers (cancelledTargetsAt n at_ (MkForkTarget "" (elTargetAt n at_) cl)))) as [He Hc]; [|by split].
  apply separateLayers_ok, cancelledTargetsAt_ok; [done|]. split; cbn [ft_EL ft_CL].
  - intros el H. by eapply elTargetAt_ok.
  - intros c ->. destruct (nw_cl n) as [cn|]; [|done]. by eapply targetAt_ok.
Qed.

(** * The conditions mean the rules *)

Section Mirror.
Context (registry : list Network) (at_ : Time) (r : row).

Lemma RowForkCurrentAt_hash layer network next : RowForkCurrentAt registry layer network "" next at_ = false.
Proof.
  unfold RowForkCurrentAt, IsCanonicalForkCompatibleAt, IsCurrentForkAt, IsCurrentCLForkAt, net_IsCurrentForkAt.
  change (parseHash4 "") with (@None string). destruct (layer =? "el")%string; [by destruct (Get registry network)|].
  by destruct (layer =? "cl")%string.
Qed.

Lemma rowCurrent_hash network : rowCurrent registry at_ r network = true -> r "fork_hash" <> VNull.
Proof.
  unfold rowCurrent. intros H Hnull. rewrite Hnull in H. cbn [textOf] in H. by rewrite RowForkCurrentAt_hash, andb_false_r in H.
Qed.

(** The fork-status condition and the Go predicate agree.  On every row, [NULL]
    columns included, the clause built for a list of networks binds exactly its
    arguments and is true or false, never [NULL], according to whether the row is
    on the current fork of one of them; so [NOT] of it is the exact complement, and
    every row is in one of the current and the stale views. *)
Theorem currentFork_mirror networks cond args :
  typedRow r = true -> registry_ok registry -> "" ∉ networks ->
  currentForkConditionAt registry at_ networks = Ok (cond, args) ->
  keeps_row r (Some cond) args = Some (existsb (rowCurrent registry at_ r) networks) /\
  keeps_row r (Some (Not cond)) args = Some (negb (existsb (rowCurrent registry at_ r) networks)).
Proof.
  intros Hr Hok Hne Hc. assert (denotes r cond args (VBool (existsb (rowCurrent registry at_ r) networks))) as H.
  { apply (currentFork_denotes registry at_ r Hr networks cond args); [|done].
    intros x Hx. split; [by intros ->|by apply four_bytes_ok]. }
  split; [rewrite <- (strict_bool (existsb _ _))|rewrite <- (strict_bool (negb _))]; [by apply denotes_keeps|].
  apply (denotes_keeps r (Not cond) args (VBool _)). by apply denotes_bool_not.
Qed.

Lemma joinParts_selects el cl (be bc : bool) :
  part_selects r "el" el be -> part_selects r "cl" cl bc ->
  selects r (joinParts el cl).1 (joinParts el cl).2
    ((textOf (r "layer") =? "el")%string && be || (textOf (r "layer") =? "cl")%string && bc).
Proof.
  intros He Hc. destruct el as [[e xs]|], cl as [[f ys]|]; cbn [part_selects] in *; cbn [joinParts fst snd].
  - by apply selects_or.
  - subst bc. by rewrite andb_false_r, orb_false_r.
  - subst be. by rewrite andb_false_r.
  - subst be bc. rewrite !andb_false_r. apply selects_denotes, denotes_lit.
Qed.

Lemma readinessCondition_selects network t want cond args :
  typedRow r = true -> registry_ok registry -> network <> "" ->
  ForkTargetAt registry network at_ = Ok t -> want <> NoReadiness ->
  readinessConditionAt registry network want at_ = Ok (cond, args) ->
  selects r cond args (bool_decide (readiness_of t (evidence r) (rowCurrent registry at_ r network) = want)).
Proof.
  intros Hr Hok Hname Ht Hw Hc. pose proof (four_bytes_ok registry at_ network Hok) as H4.
  destruct (ForkTargetAt_ok _ _ _ _ Hok Ht) as [Hel Hcl].
  unfold readinessConditionAt in Hc. rewrite Ht in Hc. unfold rbind in Hc.
  destruct (currentForkConditionAt registry at_ [network]) as [[current cargs]|] eqn:Ecur; [|done].
  assert (denotes r current cargs (VBool (existsb (rowCurrent registry at_ r) [network]))) as Hcur.
  { apply (currentFork_denotes registry at_ r Hr [network] current cargs); [|done]. intros x Hx%list_elem_of_singleton. by subst. }
  cbn [existsb] in Hcur. rewrite orb_false_r in Hcur. pose proof (rowCurrent_hash network) as Hhash.
  generalize dependent (rowCurrent registry at_ r network). intros cur Hcur Hhash.
  assert (forall got, wanted got want = bool_decide (got = want)) as Hwant.
  { intros got. unfold wanted. rewrite (bool_decide_false (want = NoReadiness)) by done. apply andb_true_r. }
  assert (bool_decide (NoReadiness = want) = false) as Hno by (by apply bool_decide_eq_false).
  unfold readiness_of.
  change (ev_Layer (evidence r)) with (textOf (r "layer")).
  injection Hc as Hc.
  pose proof (joinParts_selects (match ft_EL t with Some el => elPart current cargs want el | None => None end)
    (match ft_CL t with Some cl => clPart current cargs want cl | None => None end)
    (match ft_EL t with Some el => bool_decide (elReadiness el (evidence r) cur = want) | None => false end)
    (match ft_CL t with Some cl => bool_decide (clReadiness cl (evidence r) cur = want) | None => false end)) as Hj.
  rewrite Hc in Hj. cbn [fst snd] in Hj. eapply selects_eq; [apply Hj|done|].
  - destruct (ft_EL t) as [el|]; [|done]. rewrite <- Hwant. apply el_selects; auto.
  - destruct (ft_CL t) as [cl|]; [|done]. rewrite <- Hwant. apply cl_selects; auto.
  - destruct (ft_EL t) as [el|], (ft_CL t) as [cl|]; destruct (String.eqb_spec (textOf (r "layer")) "el") as [->|];
      rewrite ?Hno, ?andb_false_r; cbn [orb]; try done; try (by rewrite ?orb_false_r); by destruct (textOf (r "layer") =? "cl")%string.
Qed.

(** C34.  The SQL readiness filter is the Go readiness rule.  For every tracked target
    and every row of the network, [NULL] columns included, the condition built for
    a readiness binds exactly its arguments and keeps the row exactly when
    [ReadinessAt] gives it that readiness, so no row is kept under two of them. *)
Theorem readinessCondition_mirror network t want cond args :
  typedRow r = true -> registry_ok registry -> r "network" = VText network -> network <> "" ->
  ForkTargetAt registry network at_ = Ok t -> want <> NoReadiness ->
  readinessConditionAt registry network want at_ = Ok (cond, args) ->
  keeps_row r (Some cond) args = Some (bool_decide (ReadinessAt registry t network (evidence r) at_ = want)).
Proof.
  intros Hr Hok Hnet ? ? ? ?. apply selects_keeps.
  assert (rowCurrent registry at_ r network =
    RowForkCurrentAt registry (textOf (r "layer")) network (textOf (r "fork_hash")) (intOf (r "fork_next")) at_) as Heq.
  { unfold rowCurrent. rewrite Hnet. cbn [textOf]. by rewrite String.eqb_refl. }
  unfold ReadinessAt. cbn [evidence ev_Layer ev_ForkHash ev_ForkNext]. rewrite <- Heq. by eapply readinessCondition_selects.
Qed.
End Mirror.
