(* ===== verification/QueryWhere.v ===== *)
(** [Filter.where] selects what the filter's fields say: the reference predicate
    [filter_keeps] is written on the row, without clauses or arguments. *)

From stdpp Require Import base gmap strings list numbers.
From Stdlib Require Import ZArith Lia Ascii.
From S2P Require Import Prelude GoLib Text Sql Clientname Hashes Consensus ForkId Network Readiness Query QueryMirror.

(** * Patterns *)

Lemma like_plain c p s :
  contains_func (Ascii.eqb c) ["$"; "%"; "_"]%char = false ->
  like (String c p) s = match s with String d s' => Ascii.eqb c d && like p s' | "" => false end.
Proof. intros H. destruct c as [[] [] [] [] [] [] [] []]; first [reflexivity|discriminate H]. Qed.

Lemma like_escaped l p s : like (escapeLike l +:+ p) s = HasPrefix s l && like p (sdrop (String.length l) s).
Proof.
  revert s. induction l as [|c l IH]; intros s; [by destruct s|]. cbn [escapeLike].
  assert (forall s, like (if contains_func (Ascii.eqb c) ["$"; "%"; "_"]%char then String "$" (String c (escapeLike l)) +:+ p
                          else String c (escapeLike l) +:+ p) s =
            match s with String d s' => Ascii.eqb c d && like (escapeLike l +:+ p) s' | "" => false end) as Hstep.
  { intros t. destruct (contains_func _ _) eqn:E; rewrite !sapp_cons; [by destruct t|by apply like_plain]. }
  assert (forall (b : bool) x y, (if b then x +:+ p else y +:+ p) = (if b then x else y) +:+ p) as Hif by (by intros []).
  rewrite <- Hif, Hstep. destruct s as [|d s]; [done|]. rewrite IH. unfold HasPrefix. cbn [String.prefix String.length sdrop].
  destruct (ascii_dec c d) as [->|Hne]; [by rewrite Ascii.eqb_refl|]. apply Ascii.eqb_neq in Hne. by rewrite Hne.
Qed.

(** A bare [%] matches anything. *)
Lemma like_rest s : like "%" s = true.
Proof. change (like "%" s) with (any_suffix (like "") s). induction s as [|c s IH]; [done|]. cbn [any_suffix]. by rewrite IH, orb_true_r. Qed.

Lemma like_contains l s : like ("%" +:+ escapeLike l +:+ "%") s = Contains s l.
Proof.
  change (like ("%" +:+ escapeLike l +:+ "%") s) with (any_suffix (like (escapeLike l +:+ "%")) s).
  assert (forall t, like (escapeLike l +:+ "%") t = HasPrefix t l) as Hl by (intros t; by rewrite like_escaped, like_rest, andb_true_r).
  induction s as [|c s IH]; cbn [any_suffix Contains]; rewrite Hl; [done|]. by rewrite IH.
Qed.

Lemma escapeLike_lower l : ToLower (escapeLike l) = escapeLike (ToLower l).
Proof.
  induction l as [|c l IH]; [done|]. change (ToLower (String c l)) with (String (lower_byte c) (ToLower l)). cbn [escapeLike].
  assert (contains_func (Ascii.eqb (lower_byte c)) ["$"; "%"; "_"]%char = contains_func (Ascii.eqb c) ["$"; "%"; "_"]%char) as ->
    by (by destruct c as [[] [] [] [] [] [] [] []]).
  assert (contains_func (Ascii.eqb c) ["$"; "%"; "_"]%char = true -> lower_byte c = c) as Hc by (by destruct c as [[] [] [] [] [] [] [] []]).
  destruct (contains_func (Ascii.eqb c) _) eqn:E.
  - change (ToLower (String "$" (String c (escapeLike l)))) with (String "$" (String (lower_byte c) (ToLower (escapeLike l)))).
    by rewrite Hc, IH.
  - change (ToLower (String c (escapeLike l))) with (String (lower_byte c) (ToLower (escapeLike l))). by rewrite IH.
Qed.

(** * What a filter asks *)

Definition boolOf (v : value) : bool := match v with VBool b => b | _ => false end.
(** A case-insensitive literal search; [NULL] contains nothing asked for. *)
Definition finds (v : value) (needle : string) : bool := Contains (ToLower (textOf v)) (ToLower needle).
Definition is_ (v : value) (s : string) : bool := bool_decide (v = VText s).

Definition cgc_keeps (r : row) (bound : string) (ok : Z -> Z -> bool) : bool :=
  match parseCGC bound with
  | Ok v => implb (given bound) (boolOf (r "cgc_known") && ok v (intOf (r "cgc")))
  | Err _ => true
  end.

Definition fork_keeps (registry : list Network) (f : Filter) (at_ : Time) (networks : list string) (r : row) : bool :=
  let current := existsb (rowCurrent registry at_ r) (forkNetworks f networks) in
  implb (f_ForkStatus f =? "current")%string current && implb (f_ForkStatus f =? "stale")%string (negb current).

Definition readiness_keeps (registry : list Network) (f : Filter) (at_ : Time) (r : row) : bool :=
  implb (given (f_Readiness f))
    (match ForkTargetAt registry (f_Network f) at_ with
     | Ok t => bool_decide (ReadinessAt registry t (f_Network f) (evidence r) at_ = readinessOf (f_Readiness f))
     | Err _ => false
     end && negb (ToLower (textOf (r "client")) =? Self)%string).

Definition simple_keeps (f : Filter) (r : row) : bool :=
  implb (given (f_Network f)) (textOf (r "network") =? f_Network f)%string
  && implb (given (f_Client f))
       (if f_ClientExact f then (ToLower (textOf (r "client")) =? ToLower (f_Client f))%string else finds (r "client") (f_Client f))
  && implb (given (f_Country f)) (finds (r "country") (f_Country f))
  && implb (given (f_OS f)) (finds (r "os") (f_OS f))
  && implb (given (f_Layer f)) (textOf (r "layer") =? f_Layer f)%string
  && implb (f_Protocol f =? "v4")%string (boolOf (r "has_v4"))
  && implb (f_Protocol f =? "v5")%string (boolOf (r "has_v5"))
  && implb (f_IPStack f =? "ipv4")%string (given (textOf (r "ip")) && is_ (r "ip6") "")
  && implb (f_IPStack f =? "ipv6")%string (given (textOf (r "ip6")) && is_ (r "ip") "")
  && implb (f_IPStack f =? "dual")%string (given (textOf (r "ip")) && given (textOf (r "ip6")))
  && implb (f_Hosting f =? "yes")%string (boolOf (r "hosting"))
  && implb (f_Hosting f =? "no")%string (boolOf (r "hosting_known") && bool_decide (r "hosting" = VBool false))
  && implb (f_Dialable f =? "yes")%string (boolOf (r "dialable"))
  && implb (f_Dialable f =? "no")%string (bool_decide (r "dialable" = VBool false))
  && implb (f_Membership f =? "verified")%string (textOf (r "membership_source") =? "status")%string
  && implb (f_Membership f =? "claimed")%string (textOf (r "membership_source") =? "enr")%string.

Definition search_keeps (f : Filter) (at_ : Time) (r : row) : bool :=
  implb (given (f_Sync f)) (match r "sync_state" with VText s => s | _ => "unknown" end =? f_Sync f)%string
  && implb (f_Identified f =? "recent")%string (Charted (textOf (r "fp_status")) (intOf (r "fp_at")) at_)
  && implb (given (f_IP f)) (existsb (fun c => finds (r c) (f_IP f)) ["ip"; "ip6"])
  && implb (given (f_Q f)) (existsb (fun c => finds (r c) (f_Q f)) ["id"; "ip"; "ip6"; "enode"; "enr"])
  && cgc_keeps r (f_CGCMin f) (fun v cgc => v <=? cgc)
  && cgc_keeps r (f_CGCMax f) (fun v cgc => cgc <=? v).

Definition filter_keeps (registry : list Network) (now : Time) (f : Filter) (networks : list string) (r : row) : bool :=
  let at_ := if IsZero (f_ForkAt f) then now else f_ForkAt f in
  simple_keeps f r && (fork_keeps registry f at_ networks r && readiness_keeps registry f at_ r) && search_keeps f at_ r.

(** * Clauses as conjunctions *)

(** A list of conditions selects the rows for which all of [bs] hold. *)
Definition all_select (r : row) (parts : list part_) (b : bool) : Prop :=
  exists bs, Forall2 (fun (p : part_) c => selects r p.1 p.2 c) parts bs /\ b = forallb id bs.

Section Where.
Context (r : row) (Hr : typedRow r = true).

Lemma all_nil : all_select r [] true.
Proof using. by exists []. Qed.

Lemma all_app ps qs a b : all_select r ps a -> all_select r qs b -> all_select r (ps ++ qs) (a && b).
Proof using. intros (xs & Hx & ->) (ys & Hy & ->). exists (xs ++ ys). split; [by apply Forall2_app|]. by rewrite forallb_app. Qed.

Lemma all_one e args b : selects r e args b -> all_select r [(e, args)] b.
Proof using. intros H. exists [b]. split; [by constructor|]. cbn. by rewrite andb_true_r. Qed.

Lemma all_when (g : bool) p b : (g = true -> selects r p.1 p.2 b) -> all_select r (when g p) (implb g b).
Proof using. intros H. destruct g; [|apply all_nil]. destruct p as [e args]. by apply all_one, H. Qed.

Lemma all_keeps parts b : all_select r parts b -> keeps_row r (joinClause parts).1 (joinClause parts).2 = Some b.
Proof using.
  intros (bs & HF & ->). unfold joinClause. destruct HF as [|p c ps cs Hp HF]; [done|]. cbn [map fst snd].
  apply selects_keeps. revert p c Hp. induction HF as [|q d ps cs Hq HF IH]; intros p c Hp; cbn [map concat join_And forallb].
  - rewrite app_nil_r, andb_true_r. exact Hp.
  - apply selects_and; [exact Hp|]. apply (IH q d Hq).
Qed.

(** ** Conditions *)

Lemma text_selects c s : c ∈ textColumns -> s <> "" -> selects r (Eq (Col c) Param) [VText s] (textOf (r c) =? s)%string.
Proof using Hr.
  intros Hc Hs. eexists. split; [apply (denotes_eq r _ _ [] [VText s]); [apply denotes_col|apply denotes_param]|].
  destruct (text_column r Hr c Hc) as [->|[t ->]]; cbn; [by destruct s|apply strict_bool].
Qed.

Lemma bool_selects c : c ∈ boolColumns -> selects r (Col c) [] (boolOf (r c)).
Proof using Hr.
  intros Hc. exists (r c). split; [apply denotes_col|]. pose proof Hr as H. unfold typedRow in H. do 2 (apply andb_true_iff in H as [H _]).
  apply andb_true_iff in H as [_ H]. rewrite forallb_forall in H. apply list_elem_of_In in Hc. specialize (H c Hc).
  by destruct (r c) as [| | |[]].
Qed.

Lemma bool_not_selects c : c ∈ boolColumns -> selects r (Not (Col c)) [] (bool_decide (r c = VBool false)).
Proof using.
  intros Hc. exists (sql_not (r c)). split; [apply denotes_not, denotes_col|]. by destruct (r c) as [| | |[]].
Qed.

Lemma like_selects c s : c ∈ textColumns -> s <> "" -> selects r (likeCol c) [pattern_ s] (finds (r c) s).
Proof using Hr.
  intros Hc Hs. eexists. split; [apply (denotes_like r _ _ [] [pattern_ s]); apply denotes_lower; [apply denotes_col|apply denotes_param]|].
  unfold finds, pattern_. destruct (text_column r Hr c Hc) as [->|[t ->]]; cbn [sql_lower sql_like textOf].
  - by destruct s.
  - rewrite !ToLower_sapp, escapeLike_lower. change (ToLower "%") with "%". rewrite like_contains. apply strict_bool.
Qed.

Lemma nonempty_selects c : c ∈ textColumns -> selects r (Ne (Col c) (Text "")) [] (given (textOf (r c))).
Proof using Hr.
  intros Hc. eexists. split; [apply denotes_not, (denotes_eq r _ _ [] []); [apply denotes_col|apply denotes_lit]|].
  destruct (text_column r Hr c Hc) as [->|[t ->]]; [done|]. apply strict_bool.
Qed.

Lemma empty_selects c : c ∈ textColumns -> selects r (Eq (Col c) (Text "")) [] (is_ (r c) "").
Proof using Hr.
  intros Hc. eexists. split; [apply (denotes_eq r _ _ [] []); [apply denotes_col|apply denotes_lit]|].
  destruct (text_column r Hr c Hc) as [->|[t ->]]; [done|]. cbn [sql_eq]. rewrite strict_bool. unfold is_.
  destruct (String.eqb_spec t ""); symmetry; [apply bool_decide_eq_true|apply bool_decide_eq_false]; congruence.
Qed.

Lemma exact_selects s : s <> "" -> selects r (Eq (Lower (Col "client")) (Lower Param)) [VText s] (ToLower (textOf (r "client")) =? ToLower s)%string.
Proof using Hr.
  intros Hs. eexists. split; [apply (denotes_eq r _ _ [] [VText s]); apply denotes_lower; [apply denotes_col|apply denotes_param]|].
  destruct (text_column r Hr "client") as [->|[t ->]]; [column|by destruct s|apply strict_bool].
Qed.

Lemma given_true s : given s = true -> s <> "".
Proof using. by destruct s. Qed.

Lemma simple_selects f : all_select r (simpleParts f) (simple_keeps f r).
Proof using Hr.
  unfold simpleParts, simple_keeps. rewrite <- !andb_assoc.
  repeat apply all_app; apply all_when; intros Hg; cbn [fst snd].
  - apply text_selects; [column|by apply given_true].
  - destruct (f_ClientExact f); [apply exact_selects|apply like_selects; [column|]]; by apply given_true.
  - apply like_selects; [column|by apply given_true].
  - apply like_selects; [column|by apply given_true].
  - apply text_selects; [column|by apply given_true].
  - apply bool_selects. column.
  - apply bool_selects. column.
  - apply (selects_and r _ _ [] []); [apply nonempty_selects|apply empty_selects]; column.
  - apply (selects_and r _ _ [] []); [apply nonempty_selects|apply empty_selects]; column.
  - apply (selects_and r _ _ [] []); apply nonempty_selects; column.
  - apply bool_selects. column.
  - apply (selects_and r _ _ [] []); [apply bool_selects|apply bool_not_selects]; column.
  - apply bool_selects. column.
  - apply bool_not_selects. column.
  - apply (selects_column_eq r Hr); [column|done].
  - apply (selects_column_eq r Hr); [column|done].
Qed.

Lemma cgc_column : denotes r (coalesced0 "cgc") [] (VInt (intOf (r "cgc"))).
Proof using Hr. apply denotes_coalesced0; [done|column]. Qed.

Lemma cgc_known_denotes : denotes r (Coalesce (Col "cgc_known") FALSE) [] (VBool (boolOf (r "cgc_known"))).
Proof using Hr.
  pose proof Hr as H. unfold typedRow in H. do 2 (apply andb_true_iff in H as [H _]). apply andb_true_iff in H as [_ H].
  rewrite forallb_forall in H. specialize (H "cgc_known" ltac:(apply list_elem_of_In; column)).
  eapply denotes_args; [apply denotes_coalesce; [apply denotes_col|apply denotes_lit]|done|]. by destruct (r "cgc_known").
Qed.

Lemma cgc_selects bound op ok :
  (forall v, denotes r (op (coalesced0 "cgc") Param) [VInt v] (VBool (ok v (intOf (r "cgc"))))) ->
  all_select r (cgcPart bound op) (cgc_keeps r bound ok).
Proof using Hr.
  intros Hop. unfold cgcPart, cgc_keeps. destruct (given bound) eqn:Hg; [|destruct (parseCGC bound); apply all_nil].
  destruct (parseCGC bound) as [v|]; [|apply all_nil]. apply all_one, selects_denotes.
  apply (denotes_bool_and r _ _ [] [VInt v]); [apply cgc_known_denotes|apply Hop].
Qed.

Lemma identified_selects at_ :
  let (condition, cutoff) := chartFingerprintConditionAt at_ in
  selects r condition [VInt cutoff] (Charted (textOf (r "fp_status")) (intOf (r "fp_at")) at_).
Proof using Hr.
  unfold chartFingerprintConditionAt, Charted. set (cutoff := Unix _). apply (selects_and r _ _ [] [VInt cutoff]).
  - rewrite <- (orb_false_r (_ =? "stale")%string).
    apply (selects_or r _ _ [] []); [by apply (selects_column_eq r Hr); [column|]|].
    apply (selects_or r _ _ [] []); [by apply (selects_column_eq r Hr); [column|]|]. apply selects_denotes, denotes_lit.
  - apply selects_denotes. eapply denotes_args; [apply denotes_ge; [apply denotes_coalesce; [apply denotes_col|apply denotes_lit]|apply denotes_param]|done|].
    pose proof Hr as H. unfold typedRow in H. apply andb_true_iff in H as [H _]. apply andb_true_iff in H as [_ H]. by destruct (r "fp_at").
Qed.

Lemma sync_selects s : selects r (Eq syncStateColumn Param) [VText s] (match r "sync_state" with VText s => s | _ => "unknown" end =? s)%string.
Proof using Hr.
  apply selects_denotes. eapply denotes_args;
    [apply denotes_eq; [apply denotes_coalesce; [apply denotes_col|apply denotes_lit]|apply denotes_param]|done|].
  destruct (text_column r Hr "sync_state") as [->|[t ->]]; [column|done|done].
Qed.

Lemma search_selects f at_ : all_select r (searchParts f at_) (search_keeps f at_ r).
Proof using Hr.
  unfold searchParts, search_keeps. rewrite <- !andb_assoc. repeat apply all_app; try (apply all_when; intros Hg; cbn [fst snd]).
  - apply sync_selects.
  - pose proof (identified_selects at_) as H. by destruct (chartFingerprintConditionAt at_).
  - apply given_true in Hg. cbn [existsb]. rewrite orb_false_r.
    apply (selects_or r _ _ [_] [_]); apply like_selects; try done; column.
  - apply given_true in Hg. cbn [existsb repeat]. rewrite orb_false_r.
    apply (selects_or r _ _ [_]); [apply like_selects; [column|done]|]. apply (selects_or r _ _ [_]); [apply like_selects; [column|done]|].
    apply (selects_or r _ _ [_]); [apply like_selects; [column|done]|]. apply (selects_or r _ _ [_] [_]); apply like_selects; try done; column.
  - apply cgc_selects. intros v. eapply denotes_args; [apply denotes_ge; [apply cgc_column|apply denotes_param]|done|done].
  - apply cgc_selects. intros v. eapply denotes_args; [apply denotes_le; [apply cgc_column|apply denotes_param]|done|done].
Qed.

Lemma notSelf_selects : selects r notSelfCondition [VText Self] (negb (ToLower (textOf (r "client")) =? Self)%string).
Proof using Hr. apply selects_not, denotes_lower_coalesced; [done|column]. Qed.
End Where.

(** * The clause *)

Lemma readinessOf_valid f : filter_Validate f = Ok tt -> given (f_Readiness f) = true -> readinessOf (f_Readiness f) <> NoReadiness /\ f_Network f <> "".
Proof.
  unfold filter_Validate. intros H Hg. destruct (negb (ValidSort _)); [done|]. destruct (negb (ValidOrder _)); [done|].
  destruct (existsb _ filterEnums) eqn:E; [done|]. destruct (negb (f_Readiness f =? "")%string && (f_Network f =? "")%string) eqn:En; [done|].
  unfold given in Hg. rewrite Hg in En. cbn [andb] in En. apply String.eqb_neq in En. split; [|done].
  assert (contains_func (String.eqb (f_Readiness f)) [""; "ready"; "pending"; "not_ready"; "mismatch"; "unknown"; "stale"] = true) as Ev.
  { unfold filterEnums in E. cbn [existsb fst snd] in E. do 9 (apply orb_false_iff in E as [_ E]). apply orb_false_iff in E as [E _].
    by apply negb_false_iff in E. }
  apply contains_func_true in Ev as (v & Hv & Heq). apply String.eqb_eq in Heq. rewrite Heq in *.
  repeat (apply elem_of_cons in Hv as [->|Hv]; [done|]). by apply elem_of_nil in Hv.
Qed.

Lemma forkNetworks_sub f networks name : name ∈ forkNetworks f networks -> name ∈ networks.
Proof.
  unfold forkNetworks. destruct (f_Network f =? "")%string; [done|]. destruct (contains_func _ networks) eqn:E; [|by intros ?%elem_of_nil].
  intros ->%list_elem_of_singleton. apply contains_func_true in E as (x & Hx & Heq). apply String.eqb_eq in Heq. by subst.
Qed.

Lemma forkParts_select registry f at_ networks r parts :
  typedRow r = true -> filter_Validate f = Ok tt -> "" ∉ networks -> registry_ok registry -> forkParts registry f at_ networks = Ok parts ->
  exists b, all_select r parts b /\
    (textOf (r "network") = f_Network f \/ given (f_Readiness f) = false -> b = fork_keeps registry f at_ networks r && readiness_keeps registry f at_ r).
Proof.
  intros Hr Hv Hne Hok H. unfold forkParts, rbind in H.
  destruct (if _ || _ then _ else Ok []) as [fork|] eqn:Ef; [|done].
  assert (all_select r fork (fork_keeps registry f at_ networks r)) as Hfork.
  { unfold fork_keeps. destruct (_ || _) eqn:Es in Ef.
    - destruct (currentForkConditionAt registry at_ (forkNetworks f networks)) as [[cond xs]|] eqn:Ec; [|done]. injection Ef as <-.
      assert (denotes r cond xs (VBool (existsb (rowCurrent registry at_ r) (forkNetworks f networks)))) as Hd.
      { apply (currentFork_denotes registry at_ r Hr _ _ _); [|done]. intros x Hx. split; [|by apply four_bytes_ok]. intros ->. by apply Hne, (forkNetworks_sub f). }
      apply all_one. destruct (String.eqb_spec (f_ForkStatus f) "stale") as [->|Hst].
      + eapply selects_eq; [by apply selects_not|done|done].
      + rewrite orb_false_r in Es. rewrite Es. eapply selects_eq; [by apply selects_denotes|done|]. cbn [implb]. by rewrite andb_true_r.
    - injection Ef as <-. apply orb_false_iff in Es as [-> ->]. apply all_nil. }
  clear Ef. unfold readiness_keeps. destruct (given (f_Readiness f)) eqn:Hg.
  2:{ injection H as <-. exists (fork_keeps registry f at_ networks r && true). split; [apply all_app; [done|apply all_nil]|done]. }
  destruct (readinessOf_valid f Hv Hg) as [Hw Hn].
  destruct (readinessConditionAt registry (f_Network f) (readinessOf (f_Readiness f)) at_) as [[cond xs]|] eqn:Ec; [|done]. injection H as <-.
  destruct (ForkTargetAt registry (f_Network f) at_) as [t|] eqn:Et; [|unfold readinessConditionAt in Ec; by rewrite Et in Ec].
  pose proof (readinessCondition_selects registry at_ r _ t _ _ _ Hr Hok Hn Et Hw Ec) as Hs.
  eexists. split.
  - apply all_app; [exact Hfork|]. apply (all_app r [_] [_]); apply all_one; [exact Hs|by apply notSelf_selects].
  - intros [Hnet|?]; [|done]. cbn [implb]. do 2 f_equal. apply bool_decide_ext. unfold ReadinessAt, rowCurrent.
    cbn [evidence ev_Layer ev_ForkHash ev_ForkNext]. by rewrite Hnet, String.eqb_refl.
Qed.

(** The clause of a valid filter against its reference predicate. *)
Lemma where_keeps registry now f networks r clause args :
  typedRow r = true -> filter_Validate f = Ok tt -> "" ∉ networks -> registry_ok registry ->
  where_ registry now f networks = Ok (clause, args) ->
  keeps_row r clause args = Some (filter_keeps registry now f networks r).
Proof.
  intros Hr Hv Hne Hok H. unfold where_, rbind in H. set (at_ := if IsZero (f_ForkAt f) then now else f_ForkAt f) in *.
  destruct (forkParts registry f at_ networks) as [fork|] eqn:Ef; [|done]. injection H as Hc.
  destruct (forkParts_select registry f at_ networks r fork Hr Hv Hne Hok Ef) as (b & Hb & Heq).
  pose proof (all_keeps r _ _ (all_app r _ _ _ _ (simple_selects r Hr f) (all_app r _ _ _ _ Hb (search_selects r Hr f at_)))) as Hk.
  rewrite Hc in Hk. cbn [fst snd] in Hk. rewrite Hk. f_equal. unfold filter_keeps. fold at_.
  destruct (given (f_Readiness f)) eqn:Hg; [|rewrite Heq by (by right); by rewrite andb_assoc].
  destruct (readinessOf_valid f Hv Hg) as [_ Hn].
  destruct (String.eqb_spec (textOf (r "network")) (f_Network f)) as [E|E]; [rewrite Heq by (by left); by rewrite andb_assoc|].
  assert (simple_keeps f r = false) as ->; [|done]. unfold simple_keeps.
  assert (implb (given (f_Network f)) (textOf (r "network") =? f_Network f)%string = false) as ->; [|by rewrite !andb_false_l].
  apply String.eqb_neq in E. rewrite E. unfold given. apply String.eqb_neq in Hn. by rewrite Hn.
Qed.

(** C28.  [Filter.where] selects exactly the rows the filter's fields describe.  For every
    valid filter and every row, [NULL] columns included, the clause binds exactly
    its arguments and keeps the row when the reference predicate does: names
    compare without case, searches are literal substrings whatever wildcards they
    hold, fork status and readiness are the Go rules, the identified rows are the
    charted ones, and a filter with no field set keeps everything. *)
Theorem where_mirror registry now f networks r clause args :
  typedRow r = true -> filter_Validate f = Ok tt -> "" ∉ networks -> registry_ok registry ->
  where_ registry now f networks = Ok (clause, args) ->
  keeps_row r clause args = Some (filter_keeps registry now f networks r).
Proof. apply where_keeps. Qed.

(** * Witnesses *)

Definition demoNet : Network := load demoNetwork.
Lemma demo_registry_ok : registry_ok [demoNet].
Proof.
  intros name n H. cbn [Get] in H. destruct (nw_Name demoNet =? name)%string; [|done]. injection H as <-. split_and!.
  - vm_compute. discriminate.
  - change (nw_cancellations (load demoNet)) with (@nil cancellation). constructor.
  - intros m Hm. vm_compute in Hm. done.
  - intros Hk. vm_compute in Hk. done.
Qed.

(** A day before the demo fork, a Geth node on the current fork that announces it. *)
Definition demoAt : Time := time_Unix 1789900000.
Definition demoRow : row := fun c =>
  if (c =? "network")%string then VText "demo"
  else if (c =? "layer")%string then VText "el"
  else if (c =? "fork_hash")%string then VText (ToUpper (hex_encode (fid_Hash (currentForkIDAt demoNet demoAt))))
  else if (c =? "fork_next")%string then VInt 1790000000
  else if (c =? "client")%string then VText "Geth"
  else if (c =? "id")%string then VText "50%_of"
  else VNull.

Definition demoFilter : Filter :=
  MkFilter "demo" "geth" true "" "" "el" "" "" "" "" "current" "" "" "" "ready" "" "50%_" "" "" "" "" 0 0 demoAt.

Lemma currentFork_mirror_witness :
  exists cond args, currentForkConditionAt [demoNet] demoAt ["demo"] = Ok (cond, args) /\ keeps_row demoRow (Some cond) args = Some true.
Proof.
  eexists _, _. split; [vm_compute; reflexivity|].
  refine (eq_trans (proj1 (currentFork_mirror [demoNet] demoAt demoRow ["demo"] _ _ _ demo_registry_ok _ _)) _); vm_compute; try reflexivity.
  intros H. apply list_elem_of_singleton in H. discriminate H.
Defined.

Lemma readinessCondition_mirror_witness :
  exists t cond args, ForkTargetAt [demoNet] "demo" demoAt = Ok t /\
    readinessConditionAt [demoNet] "demo" Ready demoAt = Ok (cond, args) /\ keeps_row demoRow (Some cond) args = Some true.
Proof.
  eexists _, _, _. split; [vm_compute; reflexivity|]. split; [vm_compute; reflexivity|].
  refine (eq_trans (readinessCondition_mirror [demoNet] demoAt demoRow "demo" _ Ready _ _ _ demo_registry_ok _ _ _ _ _) _);
    first [discriminate|vm_compute; reflexivity].
Defined.

Lemma where_mirror_witness :
  exists clause args, where_ [demoNet] demoAt demoFilter ["demo"] = Ok (clause, args) /\ keeps_row demoRow clause args = Some true.
Proof.
  eexists _, _. split; [vm_compute; reflexivity|].
  refine (eq_trans (where_mirror [demoNet] demoAt demoFilter ["demo"] demoRow _ _ _ _ _ demo_registry_ok _) _); try (vm_compute; reflexivity).
  intros H. apply list_elem_of_singleton in H. discriminate H.
Defined.
