(* ===== verification/CrawlerWork.v ===== *)
(** [cmd/crawler]: the handlers of the running crawler, as programs.

    A handler is a tree of atomic actions on the shared state and questions to the world
    (the clock, a probe, a resolution).  An action is what the source does in one critical
    section: one method of the node set, of a pending map, of the dial budget, of the pool.
    [exec] runs a program alone; [CrawlerClaims] interleaves any number of them.  Metrics
    and logging are left out. *)

From stdpp Require Import base gmap strings list numbers.
From Stdlib Require Import ZArith Lia Ascii.
From S2P Require Import Prelude GoLib ForkId NetIP Network NodeData Nodeset Expiring Consensus Clientname AgentNames Rlpx Libp2p DialBudget.
#[local] Open Scope Z_scope.

(** * State *)

(** [layerEL] and [layerCL]. *)
Definition layerEL : string := "el".
Definition layerCL : string := "cl".

Record elFingerprintTask := MkTask { tk_n : ENode; tk_via : string; tk_legacy : bool; tk_claimed : bool }.

(** [fingerprintPool]: two buffered channels and the flag that closes them. *)
Record fingerprintPool := MkPool { pl_closed : bool; pl_fpCh : list elFingerprintTask; pl_clCh : list ENode; pl_depth : Z }.

Definition newFingerprintPool (depth : Z) : fingerprintPool := MkPool false [] [] depth.

Record pendingLegacyNode := MkPendingLegacy { pn_node : ENode; pn_via : string }.

Record Crawl `{RateLib} := MkCrawl {
  cw_set : NodeSet;
  cw_pending : expiringMap (pendingFingerprint (F := Probed));
  cw_pendingLegacy : expiringMap pendingLegacyNode;
  cw_budget : option targetDialBudget;
  cw_attempted : expiringMap unit;
  cw_legacyAttempted : expiringMap unit;
  cw_pool : fingerprintPool }.

(** What the handlers read of the configuration. *)
Record Conf := MkConf {
  cf_fp : bool; cf_clfp : bool; cf_maxLegacyCandidates : Z; cf_devnetForce : bool; cf_devnetOnly : bool; cf_fpWorkers : Z;
  cf_prober : Fingerprinter; cf_clAllowPrivate : bool }.

(** [Node.IP] and [Node.TCP] of go-ethereum, and the libp2p identity of a node. *)
Class NodeMethods := { Node_IP : ENode -> option string; Node_TCP : ENode -> Z; Node_Peer : ENode -> string }.

(** Questions to the world. *)
Inductive query : Type -> Type :=
| QNow : query Time
| QDone : query bool
| QAttempt : query Attempt
| QCLAttempt : query CLAttempt
| QResolve (identity : nat) (protocol : string) (n : ENode) : query (option (ENode * string)).

Inductive prog `{RateLib} (A : Type) : Type :=
| Ret (a : A)
| Act (R : Type) (f : Crawl -> Crawl * R) (k : R -> prog A)
| Ask (R : Type) (q : query R) (k : R -> prog A).
Arguments Ret {_ A} a.
Arguments Act {_ A R} f k.
Arguments Ask {_ A R} q k.

Fixpoint pbind `{RateLib} {A B} (p : prog A) (k : A -> prog B) : prog B :=
  match p with
  | Ret a => k a
  | Act f k0 => Act f (fun r => pbind (k0 r) k)
  | Ask q k0 => Ask q (fun r => pbind (k0 r) k)
  end.

Declare Scope prog_scope.
Delimit Scope prog_scope with prog.
Notation "x <~ p ;; k" := (pbind p (fun x => k)) (at level 100, p at next level, right associativity) : prog_scope.
Notation "p ;;; k" := (pbind p (fun _ => k)) (at level 100, right associativity) : prog_scope.
Open Scope prog_scope.

(** Running a program alone, against answers that depend on the question. *)
Fixpoint exec `{RateLib} {A} (world : forall R, query R -> R) (p : prog A) (c : Crawl) : Crawl * A :=
  match p with
  | Ret a => (c, a)
  | Act f k => let (c, r) := f c in exec world (k r) c
  | Ask q k => exec world (k (world _ q)) c
  end.

(** * The pool *)

Definition elPressure (p : fingerprintPool) : bool := godiv (pl_depth p) 2 <=? Z.of_nat (length (pl_fpCh p)).

Definition enqueueEL (p : fingerprintPool) (task : elFingerprintTask) : fingerprintPool * bool :=
  if pl_closed p then (p, false)
  else if Z.of_nat (length (pl_fpCh p)) <? pl_depth p
  then (MkPool (pl_closed p) (pl_fpCh p ++ [task]) (pl_clCh p) (pl_depth p), true)
  else (p, false).

Definition enqueueCL (p : fingerprintPool) (n : ENode) : fingerprintPool * bool :=
  if pl_closed p then (p, false)
  else if Z.of_nat (length (pl_clCh p)) <? pl_depth p
  then (MkPool (pl_closed p) (pl_fpCh p) (pl_clCh p ++ [n]) (pl_depth p), true)
  else (p, false).

(** [Close] up to its wait for the workers. *)
Definition pool_Close (p : fingerprintPool) : fingerprintPool := MkPool true (pl_fpCh p) (pl_clCh p) (pl_depth p).

(** [pendingLegacyNodes.Put]. *)
Definition legacy_Put (p : expiringMap pendingLegacyNode) (node : option ENode) (via : string) (now : Time) : expiringMap pendingLegacyNode :=
  match node with None => p | Some n => Put p (en_ID n) (MkPendingLegacy n via) now end.

Section Crawler.
Context `{RateLib} `{SpecialNetworks} `{Classifier} `{EnodeCodec} `{RlpLib} `{CapText} `{EnodeLib} `{NodeMethods} `{SnappyStream} `{MultiaddrLib}.
Context (AllowPrivateIPs : bool) (registry : list Network) (conf : Conf) (geo : option Geo).

(** * Actions *)

Definition withSet (c : Crawl) (s : NodeSet) : Crawl :=
  MkCrawl _ s (cw_pending c) (cw_pendingLegacy c) (cw_budget c) (cw_attempted c) (cw_legacyAttempted c) (cw_pool c).
Definition withPending (c : Crawl) (p : expiringMap pendingFingerprint) : Crawl :=
  MkCrawl _ (cw_set c) p (cw_pendingLegacy c) (cw_budget c) (cw_attempted c) (cw_legacyAttempted c) (cw_pool c).
Definition withPendingLegacy (c : Crawl) (p : expiringMap pendingLegacyNode) : Crawl :=
  MkCrawl _ (cw_set c) (cw_pending c) p (cw_budget c) (cw_attempted c) (cw_legacyAttempted c) (cw_pool c).
Definition withBudget (c : Crawl) (b : option targetDialBudget) : Crawl :=
  MkCrawl _ (cw_set c) (cw_pending c) (cw_pendingLegacy c) b (cw_attempted c) (cw_legacyAttempted c) (cw_pool c).
Definition withAttempted (c : Crawl) (a : expiringMap unit) : Crawl :=
  MkCrawl _ (cw_set c) (cw_pending c) (cw_pendingLegacy c) (cw_budget c) a (cw_legacyAttempted c) (cw_pool c).
Definition withLegacyAttempted (c : Crawl) (a : expiringMap unit) : Crawl :=
  MkCrawl _ (cw_set c) (cw_pending c) (cw_pendingLegacy c) (cw_budget c) (cw_attempted c) a (cw_pool c).
Definition withPool (c : Crawl) (p : fingerprintPool) : Crawl :=
  MkCrawl _ (cw_set c) (cw_pending c) (cw_pendingLegacy c) (cw_budget c) (cw_attempted c) (cw_legacyAttempted c) p.

Definition onSet {R} (f : NodeSet -> NodeSet * R) : prog R := Act (fun c => let (s, r) := f (cw_set c) in (withSet c s, r)) Ret.
Definition setDo (f : NodeSet -> NodeSet) : prog unit := onSet (fun s => (f s, tt)).
Definition ask {R} (q : query R) : prog R := Ask q Ret.
Definition when (b : bool) (p : prog unit) : prog unit := if b then p else Ret tt.
(** Reads of the shared state. *)
Definition look {R} (f : Crawl -> R) : prog R := Act (fun c => (c, f c)) Ret.
Definition LayerOfP (id : string) : prog string := look (fun c => LayerOf (cw_set c) id).
Definition NetworkOfP (id : string) : prog string := look (fun c => NetworkOf (cw_set c) id).

(** An observation takes the lock twice. *)
Definition observeP (n : ENode) (via : string) (now : Time) (forceNetwork forceLayer : string) (failedResolution pin : bool) : prog Observation :=
  let why := addressReject AllowPrivateIPs n in
  if negb (why =? "")%string then Ret (reject why)
  else
    r <~ onSet (fun s => match observe_stale s n via now failedResolution pin with Some (s, o) => (s, Some o) | None => (s, None) end);;
    match r with
    | Some o => Ret o
    | None =>
        let e := extract AllowPrivateIPs n in
        if noAddress e then Ret (reject "no_address")
        else onSet (fun s => observe_commit s (en_ID n) (forceNetworkLayer e forceNetwork forceLayer) via now failedResolution pin)
    end.

Definition authenticatedP (n : ENode) (via layer network forkHash : string) (forkNext : Z) (now : Time) : prog Observation :=
  observed <~ observeP n via now network layer false false;;
  when (ob_Applied observed) (setDo (fun s => authenticate s (en_ID n) layer network forkHash forkNext now));;;
  Ret observed.

Definition candidateP (n : ENode) (now : Time) (limit : Z) : prog Observation :=
  let why := addressReject AllowPrivateIPs n in
  if negb (why =? "")%string then Ret (reject why)
  else
    let e := extract AllowPrivateIPs n in
    if noAddress e then Ret (reject "no_address") else onSet (fun s => candidate_commit s (en_ID n) e now limit).

(** [Geo.Record] without databases does nothing. *)
Definition geoRecord (id : string) (addr : option string) : prog unit :=
  match geo with
  | None => Ret tt
  | Some g => setDo (fun s => SetGeo s id (default "" addr) (Geo_Lookup g addr))
  end.

Definition SetHeadP (id layer : string) (r : Probed) : prog unit :=
  setDo (fun s => SetHead s id layer (pf_Network r) (pf_Head r) (pf_HeadAt r)).
Definition SetFingerprintP (id layer : string) (r : Probed) (direction : string) : prog Z :=
  now <~ ask QNow;; onSet (fun s => SetFingerprintAt s id layer (Identity r) direction now).
Definition SetClaimedFingerprintP (id layer : string) (r : Probed) (direction : string) : prog (Z * bool) :=
  now <~ ask QNow;;
  onSet (fun s => let '(s, failures, applied) := SetClaimedFingerprintAt s id layer (Identity r) direction now in (s, (failures, applied))).
Definition UnclaimP (id : string) : prog unit := setDo (fun s => UnclaimFingerprint s id).
Definition FailedP (id : string) : prog FingerprintRetry := now <~ ask QNow;; onSet (fun s => FingerprintFailed s id now).
Definition SetCandidateClientP (id : string) (r : Probed) (direction : string) : prog bool :=
  onSet (fun s => SetCandidateClient s id (Identity r) direction).

Definition noPendingLegacy : pendingLegacyNode := MkPendingLegacy (MkENode "" 0 "" "" None None None None None None None None None None None None None) "".
Definition TakeLegacy (id : string) (now : Time) : prog (option pendingLegacyNode) :=
  Act (fun c => let '(p, v, ok) := Take noPendingLegacy (cw_pendingLegacy c) id now in (withPendingLegacy c p, if ok then Some v else None)) Ret.
Definition PutLegacy (n : ENode) (via : string) (now : Time) : prog unit :=
  Act (fun c => (withPendingLegacy c (legacy_Put (cw_pendingLegacy c) (Some n) via now), tt)) Ret.
Definition TakePending (id layer : string) (now : Time) : prog (option Probed) :=
  Act (fun c => let '(p, v, ok) := fp_Take noProbed (cw_pending c) id layer now in (withPending c p, if ok then Some v else None)) Ret.
Definition PutPending (id layer : string) (r : Probed) (now : Time) : prog unit :=
  Act (fun c => (withPending c (fp_Put (cw_pending c) id layer r now), tt)) Ret.
Definition AllowTarget (ip : option string) (now : Time) : prog bool :=
  Act (fun c => let (b, ok) := budget_Allow (cw_budget c) ip now in (withBudget c b, ok)) Ret.
Definition AllowAttempt (id : string) (now : Time) : prog bool :=
  Act (fun c => let (a, ok) := Allow tt (cw_attempted c) id now in (withAttempted c a, ok)) Ret.
Definition AllowLegacy (id : string) (now : Time) : prog bool :=
  Act (fun c => let (a, ok) := Allow tt (cw_legacyAttempted c) id now in (withLegacyAttempted c a, ok)) Ret.
Definition ReleaseLegacy (id : string) (now : Time) : prog unit :=
  Act (fun c => (withLegacyAttempted c (fst (fst (Take tt (cw_legacyAttempted c) id now))), tt)) Ret.
Definition ClaimP (id : string) (now : Time) : prog (option FingerprintClaim) := onSet (fun s => ClaimFingerprintInfo s id now).
Definition EnqueueELP (task : elFingerprintTask) : prog bool :=
  Act (fun c => let (p, ok) := enqueueEL (cw_pool c) task in (withPool c p, ok)) Ret.
Definition EnqueueCLP (n : ENode) : prog bool :=
  Act (fun c => let (p, ok) := enqueueCL (cw_pool c) n in (withPool c p, ok)) Ret.
Definition PressureP : prog bool := look (fun c => elPressure (cw_pool c)).

(** * Handlers of [fingerprint.go] *)

(** [hex.EncodeToString(r.ForkID.Hash[:])]. *)
Definition forkHashOf (r : Probed) : string := hex_encode (fid_Hash (pf_ForkID r)).

Definition observeStatusEL (n : ENode) (via : string) (r : Probed) (now : Time) : prog Observation :=
  authenticatedP n via layerEL (pf_Network r) (forkHashOf r) (fid_Next (pf_ForkID r)) now.

Definition applyLegacyFingerprint (n : ENode) (via direction : string) (r : Probed) : prog bool :=
  now <~ ask QNow;;
  observed <~ observeStatusEL n via r now;;
  if negb (ob_Accepted observed) then Ret false
  else
    when (ob_Applied observed) (SetHeadP (en_ID n) layerEL r);;;
    when (ob_Changed observed) (geoRecord (en_ID n) (Node_IP n));;;
    layer <~ LayerOfP (en_ID n);;
    if negb (layer =? layerEL)%string then Ret false
    else _ <~ SetFingerprintP (en_ID n) layerEL r direction;; Ret true.

Definition applyStatus (id layer : string) (r : Probed) : prog unit :=
  applied <~
    (if (layer =? layerEL)%string then
       now <~ ask QNow;; onSet (fun s => SetExecutionStatusAt s id (pf_Network r) (pf_ForkID r) now)
     else if (layer =? layerCL)%string then
       now <~ ask QNow;; onSet (fun s => SetConsensusStatus s id (pf_Network r) (pf_ForkHash r) now)
     else Ret false);;
  when applied (SetHeadP id layer r).

Definition applyInbound (nid layer : string) (r : Probed) : prog unit :=
  let park : prog unit := now <~ ask QNow;; PutPending nid layer r now in
  l <~ LayerOfP nid;;
  if negb (l =? layer)%string then
    if (layer =? layerEL)%string && negb (pf_Network r =? "")%string then
      now <~ ask QNow;;
      candidate <~ TakeLegacy nid now;;
      match candidate with
      | Some c => _ <~ applyLegacyFingerprint (pn_node c) (pn_via c) "inbound" r;; Ret tt
      | None => park
      end
    else park
  else
    prev <~ NetworkOfP nid;;
    if (layer =? layerEL)%string && (prev =? "")%string && (pf_Network r =? "")%string then
      _ <~ SetCandidateClientP nid r "inbound";; Ret tt
    else
      _ <~ SetFingerprintP nid layer r "inbound";;
      when (negb (pf_Network r =? "")%string) (applyStatus nid layer r).

Definition enqueueFingerprint (n : ENode) (now : Time) : prog bool :=
  if negb (cf_fp conf) then Ret false
  else
    claim <~ ClaimP (en_ID n) now;;
    match claim with
    | None => Ret false
    | Some claim =>
        let layer := fc_Layer claim in
        allowed <~ AllowTarget (fc_IP claim) now;;
        if negb allowed then UnclaimP (en_ID n);;; Ret false
        else
          let offer (enqueue : prog bool) : prog bool :=
            accepted <~ enqueue;;
            if negb accepted then UnclaimP (en_ID n);;; Ret accepted else Ret accepted in
          if (layer =? "el")%string then
            if (fc_Network claim =? "")%string then
              pressure <~ PressureP;;
              if pressure then UnclaimP (en_ID n);;; Ret false
              else offer (EnqueueELP (MkTask n "" true true))
            else offer (EnqueueELP (MkTask n "" false false))
          else if (layer =? "cl")%string then offer (EnqueueCLP n)
          else UnclaimP (en_ID n);;; Ret false
    end.

Definition retainCandidate (n : ENode) (now : Time) : prog bool :=
  if (cf_maxLegacyCandidates conf <=? 0) || negb (cf_fp conf) || negb (HasExecutionTCP n) then Ret false
  else
    observed <~ candidateP n now (cf_maxLegacyCandidates conf);;
    if negb (ob_Accepted observed) then Ret false
    else if ob_Changed observed && negb (ob_Applied observed) then Ret false
    else Ret true.

Inductive legacyFingerprintDisposition := legacyFingerprintUnavailable | legacyFingerprintDeferred | legacyFingerprintQueued.

Definition enqueueLegacyFingerprint (n : ENode) (via : string) : prog legacyFingerprintDisposition :=
  if negb (cf_fp conf) || (Node_TCP n =? 0) then Ret legacyFingerprintUnavailable
  else
    now <~ ask QNow;;
    PutLegacy n via now;;;
    pressure <~ PressureP;;
    if pressure then Ret legacyFingerprintDeferred
    else
      allowed <~ AllowLegacy (en_ID n) now;;
      if negb allowed then Ret legacyFingerprintDeferred
      else
        target <~ AllowTarget (Node_IP n) now;;
        if negb target then ReleaseLegacy (en_ID n) now;;; Ret legacyFingerprintDeferred
        else
          accepted <~ EnqueueELP (MkTask n via true false);;
          if negb accepted then ReleaseLegacy (en_ID n) now;;; Ret legacyFingerprintDeferred
          else Ret legacyFingerprintQueued.

Definition finishCandidateFingerprint (n : ENode) (r : Probed) (probeErr : option goError) : prog unit :=
  now <~ ask QNow;;
  match probeErr with
  | None =>
      observed <~ observeStatusEL n "dial" r now;;
      if negb (ob_Applied observed) then UnclaimP (en_ID n)
      else
        res <~ SetClaimedFingerprintP (en_ID n) layerEL r "outbound";;
        if negb (snd res) then Ret tt
        else
          SetHeadP (en_ID n) layerEL r;;;
          when (ob_Changed observed) (geoRecord (en_ID n) (Node_IP n));;;
          _ <~ TakeLegacy (en_ID n) now;; Ret tt
  | Some _ =>
      (if negb (pf_Client r =? "")%string then _ <~ SetCandidateClientP (en_ID n) r "outbound";; Ret tt else Ret tt);;;
      _ <~ onSet (fun s => FingerprintFailed s (en_ID n) now);; Ret tt
  end.

Definition finishFingerprint (layer : string) (n : ENode) (r : Probed) (probeErr : option goError) : prog unit :=
  match probeErr with
  | None =>
      res <~ SetClaimedFingerprintP (en_ID n) layer r "outbound";;
      when (snd res && negb (pf_Network r =? "")%string) (applyStatus (en_ID n) layer r)
  | Some _ =>
      if (layer =? layerEL)%string && negb (pf_Client r =? "")%string then
        _ <~ SetClaimedFingerprintP (en_ID n) layer r "outbound";; Ret tt
      else _ <~ FailedP (en_ID n);; Ret tt
  end.

(** * Workers of [fingerprintpool.go] *)

(** One task of an EL worker; [legacyStatus] is the network the crawler speaks to nodes of
    unknown network. *)
Definition workEL (legacyStatus : Network) (task : elFingerprintTask) : prog unit :=
  let n := tk_n task in
  cancelled <~ ask QDone;;
  if cancelled then when (tk_claimed task || negb (tk_legacy task)) (UnclaimP (en_ID n))
  else if tk_legacy task then
    a <~ ask QAttempt;;
    let (r, err) := ProbeStatus registry (cf_prober conf) a n (Some legacyStatus) in
    cancelled <~ (match err with Some _ => ask QDone | None => Ret false end);;
    if tk_claimed task then
      if cancelled then UnclaimP (en_ID n) else finishCandidateFingerprint n r err
    else
      match err with
      | Some _ => Ret tt
      | None =>
          now <~ ask QNow;;
          _ <~ TakeLegacy (en_ID n) now;;
          _ <~ applyLegacyFingerprint n (tk_via task) "outbound" r;; Ret tt
      end
  else
    networkName <~ NetworkOfP (en_ID n);;
    a <~ ask QAttempt;;
    let (r, err) :=
      match Get registry networkName with
      | Ok nw => ProbeStatus registry (cf_prober conf) a n (Some nw)
      | Err _ => Probe registry (cf_prober conf) a n
      end in
    cancelled <~ (match err with Some _ => ask QDone | None => Ret false end);;
    if cancelled then UnclaimP (en_ID n) else finishFingerprint "el" n r err.

(** One task of a CL worker. *)
Definition workCL (n : ENode) : prog unit :=
  cancelled <~ ask QDone;;
  if cancelled then UnclaimP (en_ID n)
  else
    networkName <~ NetworkOfP (en_ID n);;
    now <~ ask QNow;;
    let localFork := match CLForkStateAt registry networkName now with Ok state => ENRForkID state | Err _ => "" end in
    a <~ ask QCLAttempt;;
    let (r, err) := cl_probe registry (cf_clAllowPrivate conf) (Node_Peer n) a n localFork in
    cancelled <~ (match err with Some _ => ask QDone | None => Ret false end);;
    if cancelled then UnclaimP (en_ID n) else finishFingerprint "cl" n r err.

(** * Resolution: [resolverpool.go] *)

Record discovered := MkDiscovered { dv_n : ENode; dv_via : string; dv_owner : nat }.

(** The pool's identities are numbered; [rp_identities] lists them in order. *)
Record resolverPool := MkResolver {
  rp_identities : list nat; rp_self : list string; rp_restrict : option (string -> bool); rp_staticIP : option string }.

Definition allowedByNetrestrict (n : ENode) (restrict : option (string -> bool)) : bool :=
  match restrict with
  | None => true
  | Some contains =>
      let ok ip := match ip with Some ip => contains ip | None => true end in
      let found := match en_IPv4 n, en_IPv6 n with None, None => false | _, _ => true end in
      ok (en_IPv4 n) && ok (en_IPv6 n) && found
  end.

Definition isCrawlerRecord (n : ENode) (current : list string) (devnetOnly : bool) (advertisedIP : option string) : bool :=
  if existsb (String.eqb (en_ID n)) current then true
  else match advertisedIP with
  | Some ip =>
      devnetOnly && (match en_IPv4 n with Some ip4 => IP_Equal ip4 ip | None => false end
                     || match en_IPv6 n with Some ip6 => IP_Equal ip6 ip | None => false end)
  | None => false
  end.

(** A failed resolution is [None]. *)
Definition resolveCandidate (p : resolverPool) (d : discovered) : prog (option (ENode * string)) :=
  if (en_Seq (dv_n d) =? 0) && (dv_via d =? "v4")%string then ask (QResolve (dv_owner d) "v4" (dv_n d))
  else
    r <~ ask (QResolve (dv_owner d) "" (dv_n d));;
    match r with
    | Some r => Ret (Some r)
    | None =>
        match List.find (fun i => negb (Nat.eqb i (dv_owner d))) (rp_identities p) with
        | Some i => ask (QResolve i "" (dv_n d))
        | None => Ret None
        end
    end.

(** The rest of [resolve], once the record to observe is known. *)
Definition observeResolved (p : resolverPool) (rn : ENode) (via : string) (fallback : bool) : prog unit :=
  if negb (allowedByNetrestrict rn (rp_restrict p)) then Ret tt
  else
    observedAt <~ ask QNow;;
    observed <~ observeP rn via observedAt (if cf_devnetForce conf then "devnet" else "") "" fallback false;;
    if negb (ob_Accepted observed) then Ret tt
    else
      when (ob_Changed observed) (geoRecord (en_ID rn) (Node_IP rn));;;
      layer <~ LayerOfP (en_ID rn);;
      cached <~ TakePending (en_ID rn) layer observedAt;;
      match cached with Some r => applyInbound (en_ID rn) layer r | None => Ret tt end;;;
      let legacy : prog unit := _ <~ enqueueLegacyFingerprint rn via;; Ret tt in
      if (layer =? "")%string && HasExecutionTCP rn then
        if 0 <? cf_maxLegacyCandidates conf then
          _ <~ onSet (fun s => SetExecutionCandidateLayer s (en_ID rn) (cf_maxLegacyCandidates conf));;
          layer <~ LayerOfP (en_ID rn);;
          if (layer =? "el")%string then _ <~ enqueueFingerprint rn observedAt;; Ret tt else legacy
        else legacy
      else when (ob_Applied observed) (_ <~ enqueueFingerprint rn observedAt;; Ret tt).

Definition resolve (p : resolverPool) (d : discovered) : prog unit :=
  let n := dv_n d in
  if isCrawlerRecord n (rp_self p) (cf_devnetOnly conf) (rp_staticIP p) then Ret tt
  else if negb (allowedByNetrestrict n (rp_restrict p)) then Ret tt
  else
    now <~ ask QNow;;
    allowed <~ AllowAttempt (en_ID n) now;;
    if negb allowed then Ret tt
    else
      r <~ resolveCandidate p d;;
      match r with
      | Some (rn, via) => observeResolved p rn via false
      | None =>
          if (0 <? en_Seq n) || cf_devnetForce conf then observeResolved p n (dv_via d) true
          else
            now <~ ask QNow;;
            cached <~ TakePending (en_ID n) layerEL now;;
            let uncached : prog unit :=
              now <~ ask QNow;;
              retained <~ retainCandidate n now;;
              if retained then
                match cached with
                | Some r => if negb (pf_Client r =? "")%string then _ <~ SetCandidateClientP (en_ID n) r "inbound";; Ret tt else Ret tt
                | None => Ret tt
                end
              else
                disposition <~ enqueueLegacyFingerprint n (dv_via d);;
                match disposition with
                | legacyFingerprintUnavailable => now <~ ask QNow;; setDo (fun s => Penalize s (en_ID n) now)
                | _ => Ret tt
                end in
            match cached with
            | Some r => if negb (pf_Network r =? "")%string then _ <~ applyLegacyFingerprint n (dv_via d) "inbound" r;; Ret tt else uncached
            | None => uncached
            end
      end.

(** * Inbound callbacks: [identities.go] and [main.go] *)

Definition legacyInboundCandidate (result : InboundFingerprint) (now : Time) : prog (option (ENode * string)) :=
  taken <~ TakeLegacy (ib_NodeID result) now;;
  match taken with
  | Some c => Ret (Some (pn_node c, pn_via c))
  | None =>
      match ib_Node result with
      | Some n => Ret (Some (n, "inbound"))
      | None =>
          cur <~ look (fun c => CurrentNode (cw_set c) (ib_NodeID result));;
          Ret (match cur with Some n => Some (n, "inbound") | None => None end)
      end
  end.

Definition consensusInboundCandidate (result : InboundCLFingerprint) : prog (option ENode) :=
  match ic_Node result with
  | Some n => Ret (Some n)
  | None => look (fun c => CurrentNode (cw_set c) (ic_NodeID result))
  end.

Definition onInboundEL (result : InboundFingerprint) : prog unit :=
  let id := ib_NodeID result in
  let r := ib_Fingerprint result in
  match ib_Err result with
  | Some _ => if negb (pf_Client r =? "")%string then applyInbound id layerEL (r <| pf_Network := "" |>) else Ret tt
  | None =>
      layer <~ LayerOfP id;;
      if (layer =? "")%string && negb (pf_Network r =? "")%string then
        now <~ ask QNow;;
        candidate <~ legacyInboundCandidate result now;;
        match candidate with
        | Some (n, via) => _ <~ applyLegacyFingerprint n via "inbound" r;; Ret tt
        | None => applyInbound id layerEL r
        end
      else applyInbound id layerEL r
  end.

Definition onInboundCL (result : InboundCLFingerprint) : prog unit :=
  let id := ic_NodeID result in
  let r := ic_Fingerprint result in
  match ic_Err result with
  | Some _ => Ret tt
  | None =>
      layer <~ LayerOfP id;;
      if (layer =? "")%string && negb (pf_Network r =? "")%string then
        now <~ ask QNow;;
        candidate <~ consensusInboundCandidate result;;
        match candidate with
        | Some n =>
            observed <~ authenticatedP n "inbound" layerCL (pf_Network r) (pf_ForkHash r) 0 now;;
            if ob_Accepted observed then
              when (ob_Applied observed) (SetHeadP id layerCL r);;;
              when (ob_Changed observed) (geoRecord id (Node_IP n));;;
              _ <~ SetFingerprintP id layerCL r "inbound";; Ret tt
            else applyInbound id layerCL r
        | None => applyInbound id layerCL r
        end
      else applyInbound id layerCL r
  end.

(** * Periodic work: [main.go] *)

Fixpoint each {A} (l : list A) (body : A -> prog unit) : prog unit :=
  match l with [] => Ret tt | x :: l' => body x;;; each l' body end.

(** One tick of the retry loop.  The layers are read while the pending map is locked. *)
Definition retryTick (now : Time) : prog unit :=
  known <~ Act (fun c => let (p, out) := fp_DrainKnown (cw_pending c) now (LayerOf (cw_set c)) in (withPending c p, out)) Ret;;
  each known (fun cached => applyInbound (if_id cached) (if_layer cached) (if_value cached));;;
  due <~ look (fun c => FingerprintCandidates (cw_set c) now (cf_fpWorkers conf * 4) (cf_fpWorkers conf));;
  each due (fun n => _ <~ enqueueFingerprint n now;; Ret tt).

Definition observeSeeds (boot : list ENode) (now : Time) : prog unit :=
  each boot (fun s =>
    observed <~ observeP s "seed" now "devnet" "" false true;;
    when (ob_Applied observed) (_ <~ enqueueFingerprint s now;; Ret tt)).

(** * The probe endpoint: [internal/probesrv/probesrv.go] *)

Definition finishRegisteredProbe (id layer : string) (registered claimed applied : bool) (r : Probed) (probeErr : option goError) : prog bool :=
  if negb registered then Ret false
  else match probeErr with
  | Some _ => if claimed then _ <~ FailedP id;; Ret false else Ret false
  | None =>
      if claimed then res <~ SetClaimedFingerprintP id layer r "outbound";; Ret (snd res)
      else
        l <~ LayerOfP id;;
        if negb (l =? layer)%string then Ret false
        else _ <~ SetFingerprintP id layer r "outbound";; Ret applied
  end.

(** [layer] and [network] are [classify]'s for a record that passed the checks. *)
Definition classify (n : ENode) (forceDevnet allowDevnet : bool) : result (string * string * bool) :=
  if negb forceDevnet then Ok (Inspect AllowPrivateIPs n)
  else if negb allowDevnet then Err "devnet override requires --devnet-only"
  else
    let '(layer, network, routable) := InspectDevnet AllowPrivateIPs n in
    if negb (layer =? "el")%string && negb (layer =? "cl")%string
    then Err "devnet override requires an EL TCP endpoint or a classifiable CL record"
    else Ok (layer, "devnet", routable).

(** The request's status code, when it is refused before any effect. *)
Definition refuseProbe (n : ENode) (forceDevnet : bool) : option Z :=
  match classify n forceDevnet (cf_devnetOnly conf) with
  | Err _ => Some 403
  | Ok (layer, _, routable) =>
      if negb routable then Some 422
      else if negb (layer =? "el")%string && negb (layer =? "cl")%string then Some 422
      else if (if (layer =? "el")%string then negb (cf_fp conf) else negb (cf_clfp conf)) then Some 503
      else None
  end.

Definition handleProbe (n : ENode) (forceDevnet : bool) : prog unit :=
  match refuseProbe n forceDevnet, classify n forceDevnet (cf_devnetOnly conf) with
  | None, Ok (layer, _, _) =>
      now <~ ask QNow;;
      observed <~ (if forceDevnet then observeP n "seed" now "devnet" "" false true else observeP n "probe" now "" "" false false);;
      when (ob_Accepted observed && ob_Changed observed) (geoRecord (en_ID n) (Node_IP n));;;
      claimed <~ (if ob_Applied observed
                  then now <~ ask QNow;; onSet (fun s => ClaimFingerprintAt s (en_ID n) now) else Ret false);;
      res <~
        (if (layer =? "el")%string then
           a <~ ask QAttempt;;
           Ret (if forceDevnet then
                  match Get registry "devnet" with
                  | Ok nw => ProbeStatus registry (cf_prober conf) a n (Some nw)
                  | Err msg => (noProbed, Some (ErrText msg))
                  end
                else Probe registry (cf_prober conf) a n)
         else
           a <~ ask QCLAttempt;; Ret (cl_probe registry (cf_clAllowPrivate conf) (Node_Peer n) a n ""));;
      let (r, err) := res : Probed * option goError in
      finished <~ finishRegisteredProbe (en_ID n) layer (ob_Accepted observed) claimed (ob_Applied observed) r err;;
      if finished && negb (pf_Network r =? "")%string then
        if (layer =? "el")%string then applyStatus (en_ID n) layerEL r
        else SetHeadP (en_ID n) layer r
      else Ret tt
  | _, _ => Ret tt
  end.
End Crawler.
