(* ===== verification/CrawlerClaims.v ===== *)
(** Claims are conserved: however the crawler's goroutines interleave, every entry whose
    probe is out has somebody who will finish it, and a shutdown leaves none.

    A state is the shared data and the programs that are running.  [step] lets any of them
    do its next action or hear an answer, lets a worker take a task, starts a handler, or
    closes the pool.  The number of workers is not limited, which covers every number.  A
    concrete environment, at the end, shows the theorems at work. *)

From stdpp Require Import base gmap sets strings list numbers relations.
From Stdlib Require Import ZArith Lia Ascii.
From S2P Require Import Prelude GoLib Consensus ForkId Network NetIP NodeData Nodeset Eviction NodesetInv NodesetEntry NodesetFlight Expiring Clientname.
From S2P Require Import AgentNames Rlpx Libp2p DialBudget QueryWhere CrawlerWork.
#[local] Open Scope Z_scope.

#[local] Set Default Proof Using "All".

(** * Tickets: claims that travel in a queue *)

Section Claims.
Context `{Hrate : RateLib} `{Hspec : SpecialNetworks} `{Hcls : Classifier} `{Hcodec : EnodeCodec} `{Hrlp : RlpLib} `{Hcap : CapText}
  `{Hen : EnodeLib} `{Hmeth : NodeMethods} `{Hsn : SnappyStream} `{Hma : MultiaddrLib}.
Context (AllowPrivateIPs : bool) (registry : list Network) (conf : Conf) (geo : option Geo) (legacyStatus : Network).

(** A task for a node the crawler claimed; an unclaimed legacy task owes nothing. *)
Definition taskTicket (t : elFingerprintTask) : option string :=
  if tk_claimed t || negb (tk_legacy t) then Some (en_ID (tk_n t)) else None.

Definition tickets (p : fingerprintPool) : list string := omap taskTicket (pl_fpCh p) ++ map en_ID (pl_clCh p).

(** ** What a program does with the claim it holds *)

(** From holding [h], one action leaves the program holding [h' r]: no entry is claimed
    afterwards except those claimed before by others, the one it holds, and those with a
    ticket.  A closed pool is left alone. *)
Definition moves {R} (h : option string) (f : Crawl -> Crawl * R) (h' : R -> option string) : Prop :=
  forall c, let (c', r) := f c in
    (pl_closed (cw_pool c) = true -> cw_pool c' = cw_pool c) /\
    (forall id, id ∈ tickets (cw_pool c) -> id ∈ tickets (cw_pool c')) /\
    forall id, flying (cw_set c') id -> (flying (cw_set c) id /\ h <> Some id) \/ h' r = Some id \/ id ∈ tickets (cw_pool c').

(** On every path, and for every answer, the program passes on or ends the claim it holds,
    and [post] relates its result and what it holds at the end. *)
Fixpoint keeps {A} (h : option string) (p : prog A) (post : A -> option string -> Prop) {struct p} : Prop :=
  match p with
  | Ret a => post a h
  | Ask q k => forall r, keeps h (k r) post
  | Act f k => exists h', moves h f h' /\ forall c, keeps (h' (snd (f c))) (k (snd (f c))) post
  end.

Definition calm {A} (p : prog A) : Prop := forall h, keeps h p (fun _ h' => h' = h).
(** It takes a claim over and ends with none, or starts and ends with none. *)
Definition settles (id : string) {A} (p : prog A) : Prop := keeps (Some id) p (fun _ h => h = None).
Definition quits {A} (p : prog A) : Prop := keeps None p (fun _ h => h = None).

Lemma keeps_bind {A B} h (p : prog A) (k : A -> prog B) mid post :
  keeps h p mid -> (forall a h', mid a h' -> keeps h' (k a) post) -> keeps h (pbind p k) post.
Proof.
  intros Hp Hk. revert h Hp. induction p as [a|R f k0 IH|R q k0 IH]; intros h; cbn [keeps pbind].
  - apply Hk.
  - intros (h' & Hm & Hr). exists h'. split; [done|]. intros c. by apply IH.
  - intros Hr r. by apply IH.
Qed.

Lemma calm_bind {A B} (p : prog A) (k : A -> prog B) : calm p -> (forall a, calm (k a)) -> calm (pbind p k).
Proof. intros Hp Hk h. eapply keeps_bind; [apply Hp|]. intros a h' ->. apply Hk. Qed.
Lemma calm_ret {A} (a : A) : calm (Ret a).
Proof. by intros h. Qed.
Lemma calm_ask {R} (q : query R) : calm (ask q).
Proof. by intros h r. Qed.
Lemma calm_when b p : calm p -> calm (when b p).
Proof. destruct b; [done|]. intros _. apply calm_ret. Qed.
Lemma clean_calm {A} (p : prog A) : calm p -> quits p.
Proof. intros H. apply H. Qed.
Lemma clean_ret {A} (a : A) : quits (Ret a).
Proof. done. Qed.
Lemma clean_bind {A B} (p : prog A) (k : A -> prog B) : quits p -> (forall a, quits (k a)) -> quits (pbind p k).
Proof. intros Hp Hk. eapply keeps_bind; [exact Hp|]. intros a h' ->. apply Hk. Qed.
Lemma settles_then {A B} id (p : prog A) (k : A -> prog B) : calm p -> (forall a, settles id (k a)) -> settles id (pbind p k).
Proof. intros Hp Hk. eapply keeps_bind; [apply Hp|]. intros a h' ->. apply Hk. Qed.
Lemma settles_first {A B} id (p : prog A) (k : A -> prog B) : settles id p -> (forall a, quits (k a)) -> settles id (pbind p k).
Proof. intros Hp Hk. eapply keeps_bind; [exact Hp|]. intros a h' ->. apply Hk. Qed.

(** ** Actions *)

Lemma moves_quiet {R} h (f : Crawl -> Crawl * R) :
  (forall c, cw_pool (fst (f c)) = cw_pool c) ->
  (forall c id, flying (cw_set (fst (f c))) id -> flying (cw_set c) id) -> moves h f (fun _ => h).
Proof.
  intros Ht Hf c. specialize (Ht c). specialize (Hf c). destruct (f c) as [c' r]. cbn [fst] in *. rewrite Ht. split_and!; [done|done|].
  intros id Hid. specialize (Hf id Hid). destruct (decide (h = Some id)) as [->|]; auto.
Qed.

Lemma calm_quiet {R} (f : Crawl -> Crawl * R) :
  (forall c, cw_pool (fst (f c)) = cw_pool c) ->
  (forall c id, flying (cw_set (fst (f c))) id -> flying (cw_set c) id) -> calm (Act f Ret).
Proof. intros Ht Hf h. exists (fun _ => h). split; [by apply moves_quiet|done]. Qed.

Lemma calm_look {R} (f : Crawl -> R) : calm (look f).
Proof. by apply calm_quiet. Qed.

(** An action on the set that is one of its operations, and not a claim. *)
Lemma calm_onSet {R} (f : NodeSet -> NodeSet * R) :
  (forall s, fst (f s) = s \/ exists op, isIngest op = false /\ isClaim op = false /\ fst (f s) = NodesetInv.exec AllowPrivateIPs s op) ->
  calm (onSet f).
Proof.
  intros H. apply calm_quiet; intros c; specialize (H (cw_set c)); destruct (f (cw_set c)) as [s r]; cbn [fst withSet cw_pool cw_set] in *; [done|].
  intros id Hid. destruct H as [->|(op & Hi & Hc & ->)]; [done|]. by apply exec_flying in Hid.
Qed.

(** An action on the set that ends the claim of [id], whoever holds it. *)
Lemma settles_onSet {R} id (f : NodeSet -> NodeSet * R) op :
  (forall s, fst (f s) = NodesetInv.exec AllowPrivateIPs s op) -> isIngest op = false -> isClaim op = false ->
  (forall s, ~ flying (fst (f s)) id) -> settles id (onSet f).
Proof.
  intros Hop Hi Hc Hl. exists (fun _ => None). split; [|done]. intros c. specialize (Hop (cw_set c)). specialize (Hl (cw_set c)).
  destruct (f (cw_set c)) as [s r]. cbn [fst withSet cw_pool cw_set] in *. split_and!; [done|done|].
  intros k Hk. left. split; [|intros [= ->]; done]. rewrite Hop in Hk. by apply exec_flying in Hk.
Qed.

(** ** The handlers' actions *)

Lemma calm_setDo f : (forall s, f s = s \/ exists op, isIngest op = false /\ isClaim op = false /\ f s = NodesetInv.exec AllowPrivateIPs s op) -> calm (setDo f).
Proof. intros H. apply calm_onSet. exact H. Qed.

Ltac by_op := apply calm_onSet || apply calm_setDo; intros s; right.

Lemma calm_observe n via now fn fl f p : calm (observeP AllowPrivateIPs n via now fn fl f p).
Proof.
  unfold observeP. cbv zeta. destruct (negb _); [apply calm_ret|]. apply calm_bind.
  - by_op. exists (OpStale n via now f p). split_and!; [done|done|]. cbn [NodesetInv.exec]. by destruct (observe_stale _ _ _ _ _ _) as [[s' o]|].
  - intros [o|]; [apply calm_ret|]. destruct (noAddress _); [apply calm_ret|]. by_op. by exists (OpCommit n via now fn fl f p).
Qed.

Lemma calm_authenticated n via layer network hash next now : calm (authenticatedP AllowPrivateIPs n via layer network hash next now).
Proof.
  apply calm_bind; [apply calm_observe|]. intros o. apply calm_bind; [|intros; apply calm_ret]. apply calm_when. by_op.
  by exists (OpAuthenticate (en_ID n) layer network hash next now).
Qed.

Lemma calm_candidate n now limit : calm (candidateP AllowPrivateIPs n now limit).
Proof.
  unfold candidateP. cbv zeta. destruct (negb _); [apply calm_ret|]. destruct (noAddress _); [apply calm_ret|]. by_op. by exists (OpCandidate n now limit).
Qed.

Lemma calm_geo id addr : calm (geoRecord geo id addr).
Proof. unfold geoRecord. destruct geo; [|apply calm_ret]. by_op. by eexists (OpGeo _ _ _). Qed.
Lemma calm_head id layer r : calm (SetHeadP id layer r).
Proof. by_op. by eexists (OpHead _ _ _ _ _). Qed.
Lemma calm_fingerprint id layer r dir : calm (SetFingerprintP id layer r dir).
Proof.
  apply calm_bind; [apply calm_ask|]. intros now. by_op. exists (OpFingerprint id layer (Identity r) dir false now). split_and!; [done..|].
  unfold SetFingerprintAt. cbn [NodesetInv.exec]. by destruct (setFingerprint _ _ _ _ _ _ _) as [[? ?] ?].
Qed.
Lemma calm_candidateClient id r dir : calm (SetCandidateClientP id r dir).
Proof. by_op. by exists (OpCandidateClient id (Identity r) dir). Qed.
Lemma calm_candidateLayer id limit : calm (onSet (fun s => SetExecutionCandidateLayer s id limit)).
Proof. by_op. by exists (OpCandidateLayer id limit). Qed.
Lemma calm_executionStatus id network fork now : calm (onSet (fun s => SetExecutionStatusAt s id network fork now)).
Proof. by_op. by exists (OpExecutionStatus id network fork now). Qed.
Lemma calm_consensusStatus id network hash now : calm (onSet (fun s => SetConsensusStatus s id network hash now)).
Proof. by_op. by exists (OpConsensusStatus id network hash now). Qed.
Lemma calm_penalize id now : calm (setDo (fun s => Penalize s id now)).
Proof. by_op. by exists (OpPenalize id now). Qed.
Lemma calm_prune cutoff verified : calm (onSet (fun s => PruneStaleWithVerified s cutoff verified)).
Proof. by_op. by exists (OpPrune cutoff verified). Qed.

Lemma calm_takeLegacy id now : calm (TakeLegacy id now).
Proof. apply calm_quiet; intros c; by destruct (Take _ _ _ _) as [[? ?] ?]. Qed.
Lemma calm_putLegacy n via now : calm (PutLegacy n via now).
Proof. by apply calm_quiet. Qed.
Lemma calm_takePending id layer now : calm (TakePending id layer now).
Proof. apply calm_quiet; intros c; by destruct (fp_Take _ _ _ _ _) as [[? ?] ?]. Qed.
Lemma calm_putPending id layer r now : calm (PutPending id layer r now).
Proof. by apply calm_quiet. Qed.
Lemma calm_target ip now : calm (AllowTarget ip now).
Proof. apply calm_quiet; intros c; by destruct (budget_Allow _ _ _). Qed.
Lemma calm_attempt id now : calm (AllowAttempt id now).
Proof. apply calm_quiet; intros c; by destruct (Allow _ _ _ _). Qed.
Lemma calm_legacy id now : calm (AllowLegacy id now).
Proof. apply calm_quiet; intros c; by destruct (Allow _ _ _ _). Qed.
Lemma calm_releaseLegacy id now : calm (ReleaseLegacy id now).
Proof. by apply calm_quiet. Qed.

Lemma tickets_fp b p t : tickets (MkPool b (pl_fpCh p ++ [t]) (pl_clCh p) (pl_depth p)) ≡ₚ option_list (taskTicket t) ++ tickets p.
Proof.
  unfold tickets. cbn [pl_fpCh pl_clCh]. rewrite omap_app. cbn [omap list_omap]. destruct (taskTicket t); [|by rewrite app_nil_r].
  rewrite <- app_assoc. symmetry. exact (Permutation_middle _ _ _).
Qed.
Lemma tickets_cl b p n : tickets (MkPool b (pl_fpCh p) (pl_clCh p ++ [n]) (pl_depth p)) ≡ₚ en_ID n :: tickets p.
Proof. unfold tickets. cbn [pl_fpCh pl_clCh]. rewrite map_app. cbn [map]. by rewrite app_assoc, Permutation_app_comm. Qed.

(** A task that was accepted carries its claim; a refused one leaves it with the caller. *)
Lemma moves_enqueueEL h t :
  h = None \/ h = taskTicket t ->
  moves h (fun c : Crawl => let (p, ok) := enqueueEL (cw_pool c) t in (withPool c p, ok)) (fun ok => if ok then None else h).
Proof.
  intros Hh c. unfold enqueueEL. destruct (pl_closed (cw_pool c)); [|destruct (_ <? _)]; cbn [withPool cw_pool cw_set].
  2: { split_and!; [done|intros id Hid; rewrite tickets_fp; apply elem_of_app; by right|]. intros id Hf. destruct (decide (h = Some id)) as [->|]; [|auto].
       right; right. rewrite tickets_fp. destruct Hh as [|<-]; [done|]. apply elem_of_app. left. by left. }
  all: split_and!; [done|done|]; intros id Hf; destruct (decide (h = Some id)) as [->|]; auto.
Qed.
Lemma moves_enqueueCL n :
  moves (Some (en_ID n)) (fun c : Crawl => let (p, ok) := enqueueCL (cw_pool c) n in (withPool c p, ok)) (fun ok => if ok then None else Some (en_ID n)).
Proof.
  intros c. unfold enqueueCL. destruct (pl_closed (cw_pool c)); [|destruct (_ <? _)]; cbn [withPool cw_pool cw_set].
  2: { split_and!; [done|intros id Hid; rewrite tickets_cl; by right|]. intros id Hf. destruct (decide (en_ID n = id)) as [<-|]; [right; right; rewrite tickets_cl; by left|].
       left. split; [done|congruence]. }
  all: split_and!; [done|done|]; intros id Hf; destruct (decide (en_ID n = id)) as [<-|]; auto; left; split; [done|congruence].
Qed.

Lemma calm_unowed t : taskTicket t = None -> quits (EnqueueELP t).
Proof.
  intros Ht. exists (fun ok : bool => if ok then None else None). split; [apply (moves_enqueueEL None); by left|]. intros c. by destruct (snd _).
Qed.

Lemma settles_unclaim id : settles id (UnclaimP id).
Proof. apply (settles_onSet id _ (OpUnclaim id)); [done..|]. intros s. apply unclaim_lands. Qed.
Lemma settles_failedAt id now : settles id (onSet (fun s => FingerprintFailed s id now)).
Proof. apply (settles_onSet id _ (OpFailed id now)); [done..|]. intros s. apply failed_lands. Qed.
Lemma settles_failed id : settles id (FailedP id).
Proof. apply settles_then; [apply calm_ask|]. intros now. apply settles_failedAt. Qed.
Lemma settles_claimed id layer r dir : settles id (SetClaimedFingerprintP id layer r dir).
Proof.
  apply settles_then; [apply calm_ask|]. intros now.
  apply (settles_onSet id _ (OpFingerprint id layer (Identity r) dir true now)); [|done|done|].
  - intros s. unfold SetClaimedFingerprintAt. cbn [NodesetInv.exec]. by destruct (setFingerprint _ _ _ _ _ _ _) as [[? ?] ?].
  - intros s. pose proof (claimed_lands s id layer (Identity r) dir now) as H.
    by destruct (SetClaimedFingerprintAt _ _ _ _ _ _) as [[? ?] ?].
Qed.

Lemma claim_keeps id now : keeps None (ClaimP id now) (fun c h => h = match c with Some _ => Some id | None => None end).
Proof.
  exists (fun c : option FingerprintClaim => match c with Some _ => Some id | None => None end). split; [|done].
  intros c. pose proof (claim_flying (cw_set c) id now) as H. destruct (ClaimFingerprintInfo (cw_set c) id now) as [s r].
  cbn [fst snd withSet cw_pool cw_set] in *. split_and!; [done|done|]. intros k Hk. destruct (H k Hk) as [?|[-> [cl ->]]]; auto.
Qed.

(** ** Handlers without a claim of their own *)

Create HintDb claims.
#[local] Hint Resolve calm_ret calm_ask calm_look calm_observe calm_authenticated calm_candidate calm_geo calm_head calm_fingerprint
  calm_candidateClient calm_candidateLayer calm_executionStatus calm_consensusStatus calm_penalize calm_prune calm_takeLegacy calm_putLegacy
  calm_takePending calm_putPending calm_target calm_attempt calm_legacy calm_releaseLegacy clean_calm settles_unclaim settles_failedAt
  settles_failed settles_claimed calm_unowed : claims.

(** Splits a program at its binds and tests; the leaves are the database's. *)
Ltac split_test :=
  match goal with
  | |- context [match ?b with _ => _ end] => lazymatch b with context [match _ with _ => _ end] => fail | _ => destruct b eqn:? end
  end.
Ltac calm_tac := repeat first [solve [auto with claims] | apply calm_when | apply calm_bind; [|intros ?] | split_test].

Lemma calm_applyLegacy n via dir r : calm (applyLegacyFingerprint AllowPrivateIPs geo n via dir r).
Proof. unfold applyLegacyFingerprint, observeStatusEL, LayerOfP. calm_tac. Qed.
#[local] Hint Resolve calm_applyLegacy : claims.

Lemma calm_applyStatus id layer r : calm (applyStatus id layer r).
Proof. unfold applyStatus. calm_tac. Qed.
#[local] Hint Resolve calm_applyStatus : claims.

Lemma calm_applyInbound id layer r : calm (applyInbound AllowPrivateIPs geo id layer r).
Proof. unfold applyInbound, LayerOfP, NetworkOfP. cbv zeta. calm_tac. Qed.
#[local] Hint Resolve calm_applyInbound : claims.

Lemma calm_retain n now : calm (retainCandidate AllowPrivateIPs conf n now).
Proof. unfold retainCandidate. calm_tac. Qed.
#[local] Hint Resolve calm_retain : claims.

Lemma calm_resolveCandidate p d : calm (resolveCandidate p d).
Proof. unfold resolveCandidate. calm_tac. Qed.
Lemma calm_inboundEL r : calm (onInboundEL AllowPrivateIPs geo r).
Proof. unfold onInboundEL, legacyInboundCandidate, LayerOfP. cbv zeta. calm_tac. Qed.
Lemma calm_inboundCL r : calm (onInboundCL AllowPrivateIPs geo r).
Proof. unfold onInboundCL, consensusInboundCandidate, LayerOfP. cbv zeta. calm_tac. Qed.
#[local] Hint Resolve calm_resolveCandidate calm_inboundEL calm_inboundCL : claims.

(** ** Handlers that claim *)

Ltac clean_tac := repeat first [solve [auto with claims] | apply clean_bind; [|intros ?] | split_test].

Lemma clean_enqueueLegacy n via : quits (enqueueLegacyFingerprint conf n via).
Proof. unfold enqueueLegacyFingerprint, PressureP. clean_tac. Qed.
#[local] Hint Resolve clean_enqueueLegacy : claims.

(** A claim is offered to a queue; when it is refused, it is given back. *)
Lemma settles_offer id (enqueue : prog bool) :
  keeps (Some id) enqueue (fun ok h => h = if ok then None else Some id) ->
  settles id (accepted <~ enqueue;; if negb accepted then UnclaimP id;;; Ret accepted else Ret accepted).
Proof.
  intros He. eapply keeps_bind; [exact He|]. intros [] h ->; cbn [negb]; [done|]. by apply settles_first; [apply settles_unclaim|].
Qed.

Lemma settles_refuse id : settles id (UnclaimP id;;; Ret false).
Proof. by apply settles_first; [apply settles_unclaim|]. Qed.

Lemma offerEL t id : taskTicket t = Some id -> keeps (Some id) (EnqueueELP t) (fun ok h => h = if ok then None else Some id).
Proof. intros Ht. exists (fun ok : bool => if ok then None else Some id). split; [|done]. apply (moves_enqueueEL (Some id)). by right. Qed.
Lemma offerCL n : keeps (Some (en_ID n)) (EnqueueCLP n) (fun ok h => h = if ok then None else Some (en_ID n)).
Proof. exists (fun ok : bool => if ok then None else Some (en_ID n)). split; [|done]. apply moves_enqueueCL. Qed.

Lemma clean_enqueue n now : quits (enqueueFingerprint conf n now).
Proof.
  unfold enqueueFingerprint. destruct (negb _); [done|]. eapply keeps_bind; [apply claim_keeps|]. intros [claim|] h ->; [|done]. cbv zeta.
  apply (settles_then (en_ID n)); [apply calm_target|]. intros allowed. destruct (negb allowed); [apply settles_refuse|].
  destruct (_ =? "el")%string.
  - destruct (_ =? "")%string; [|by apply settles_offer, offerEL].
    apply settles_then; [apply calm_look|]. intros []; [apply settles_refuse|by apply settles_offer, offerEL].
  - destruct (_ =? "cl")%string; [apply settles_offer, offerCL|apply settles_refuse].
Qed.
#[local] Hint Resolve clean_enqueue : claims.

Lemma clean_each {A} (l : list A) body : (forall x, quits (body x)) -> quits (each l body).
Proof. intros H. induction l as [|x l IH]; [done|]. by apply clean_bind. Qed.

Lemma clean_when b p : quits p -> quits (when b p).
Proof. by destruct b. Qed.
#[local] Hint Resolve clean_when : claims.

Lemma clean_observeResolved p rn via fallback : quits (observeResolved AllowPrivateIPs conf geo p rn via fallback).
Proof.
  unfold observeResolved, LayerOfP. cbv zeta.
  repeat first [solve [auto with claims] | solve [apply clean_calm, calm_when; auto with claims] | apply clean_when | apply clean_bind; [|intros ?] | split_test].
Qed.
#[local] Hint Resolve clean_observeResolved : claims.

Lemma clean_resolve p d : quits (resolve AllowPrivateIPs conf geo p d).
Proof. unfold resolve. cbv zeta. clean_tac. Qed.

Lemma clean_retryTick now : quits (retryTick AllowPrivateIPs conf geo now).
Proof.
  unfold retryTick. apply clean_bind.
  - apply clean_calm, calm_quiet; intros c; by destruct (fp_DrainKnown _ _ _).
  - intros known. apply clean_bind; [apply clean_each; auto with claims|]. intros _.
    apply clean_bind; [auto with claims|]. intros due. apply clean_each. intros n. clean_tac.
Qed.

Lemma clean_seeds boot now : quits (observeSeeds AllowPrivateIPs conf boot now).
Proof. unfold observeSeeds. apply clean_each. intros s. apply clean_bind; [auto with claims|]. intros o. apply clean_when. clean_tac. Qed.

(** ** Workers *)

Lemma settles_finish layer n r err : settles (en_ID n) (finishFingerprint layer n r err).
Proof.
  unfold finishFingerprint. destruct err as [e|].
  - destruct (_ && _); (apply settles_first; [auto with claims|]; intros; auto with claims).
  - apply settles_first; [auto with claims|]. intros res. apply clean_when. auto with claims.
Qed.

Lemma settles_finishCandidate n r err : settles (en_ID n) (finishCandidateFingerprint AllowPrivateIPs geo n r err).
Proof.
  unfold finishCandidateFingerprint, observeStatusEL. apply settles_then; [auto with claims|]. intros now. destruct err as [e|].
  - apply settles_then; [calm_tac|]. intros _. apply settles_first; [auto with claims|]. intros; auto with claims.
  - apply settles_then; [auto with claims|]. intros o. destruct (negb _); [auto with claims|].
    apply settles_first; [auto with claims|]. intros res. apply clean_calm. calm_tac.
Qed.

Definition holdsTask (t : elFingerprintTask) : prog unit -> Prop :=
  match taskTicket t with Some id => settles id | None => quits end.

Lemma work_holds t : holdsTask t (workEL AllowPrivateIPs registry conf geo legacyStatus t).
Proof.
  unfold holdsTask, taskTicket, workEL, NetworkOfP. destruct t as [n via legacy claimed]. cbn [tk_n tk_via tk_legacy tk_claimed].
  destruct claimed, legacy; cbn [negb orb when]; cbv zeta.
  3: { apply clean_calm. calm_tac. }
  all: apply settles_then; [auto with claims|]; intros []; [auto with claims|].
  - apply settles_then; [auto with claims|]. intros a. destruct (ProbeStatus _ _ _ _ _) as [r err].
    apply settles_then; [destruct err; auto with claims|]. intros []; [auto with claims|apply settles_finishCandidate].
  - apply settles_then; [auto with claims|]. intros nw. apply settles_then; [auto with claims|]. intros a.
    destruct (match Get _ _ with Ok _ => _ | Err _ => _ end) as [r err].
    apply settles_then; [destruct err; auto with claims|]. intros []; [auto with claims|apply settles_finish].
  - apply settles_then; [auto with claims|]. intros nw. apply settles_then; [auto with claims|]. intros a.
    destruct (match Get _ _ with Ok _ => _ | Err _ => _ end) as [r err].
    apply settles_then; [destruct err; auto with claims|]. intros []; [auto with claims|apply settles_finish].
Qed.

Lemma workCL_settles n : settles (en_ID n) (workCL registry conf n).
Proof.
  unfold workCL, NetworkOfP. apply settles_then; [auto with claims|]. intros []; [auto with claims|].
  apply settles_then; [auto with claims|]. intros nw. apply settles_then; [auto with claims|]. intros now. cbv zeta.
  apply settles_then; [auto with claims|]. intros a. destruct (cl_probe _ _ _ _ _ _) as [r err].
  apply settles_then; [destruct err; auto with claims|]. intros []; [auto with claims|apply settles_finish].
Qed.

(** The probe endpoint claims for itself. *)
Lemma claimAt_keeps id now :
  keeps None (onSet (fun s => ClaimFingerprintAt s id now)) (fun ok h => h = if ok then Some id else None).
Proof.
  exists (fun ok : bool => if ok then Some id else None). split; [|done]. intros c. unfold ClaimFingerprintAt.
  pose proof (claim_flying (cw_set c) id now) as H. destruct (ClaimFingerprintInfo (cw_set c) id now) as [s r].
  cbn [fst snd withSet cw_pool cw_set] in *. split_and!; [done|done|]. intros k Hk. destruct (H k Hk) as [?|[-> [cl ->]]]; auto.
Qed.

Lemma finishRegistered_keeps id layer registered claimed applied r err :
  (claimed = true -> registered = true) ->
  keeps (if claimed then Some id else None) (finishRegisteredProbe id layer registered claimed applied r err) (fun _ h => h = None).
Proof.
  intros Hc. unfold finishRegisteredProbe, LayerOfP. destruct registered; cbn [negb]; [|destruct claimed; [by discriminate Hc|done]].
  destruct err as [e|], claimed.
  - apply settles_first; [auto with claims|]. done.
  - done.
  - apply settles_first; [auto with claims|]. done.
  - apply clean_calm. calm_tac.
Qed.


(** An applied observation is an accepted one, so a probe that claims is registered. *)
Lemma commit_accepted s id e via now f p :
  let o := snd (observe_commit s id e via now f p) in ob_Applied o = true -> ob_Accepted o = true.
Proof.
  unfold observe_commit. cbv zeta. destruct (s_m s !! id) as [cur|].
  - destruct (touchObservationLocked _ _ _ _ _ _) as [c []]; [done|]. by destruct (true && _).
  - destruct (makeRoom _ _ _ _) as [[[s2 n2] c2]|]; [|done]. destruct (touchObservationLocked _ _ _ _ _ _) as [c []]; [done|]. by destruct (false && _).
Qed.

Lemma observe_keeps h n via now fn fl f p :
  keeps h (observeP AllowPrivateIPs n via now fn fl f p) (fun o h' => h' = h /\ (ob_Applied o = true -> ob_Accepted o = true)).
Proof.
  pose proof (calm_observe n via now fn fl f p h) as Hc. unfold observeP in *. cbv zeta in *. destruct (negb _); [done|].
  cbn [onSet pbind keeps] in *. destruct Hc as (h' & Hm & Hk). exists h'. split; [done|]. intros c. specialize (Hk c).
  assert (forall o, snd (let (s, r) :=
     (fun s => match observe_stale s n via now f p with Some (s0, o) => (s0, Some o) | None => (s, None) end) (cw_set c) in (withSet c s, r)) = Some o ->
     ob_Applied o = true -> ob_Accepted o = true) as Hstale.
  { intros o. unfold observe_stale. destruct (s_m (cw_set c) !! en_ID n); [|done]. destruct (_ <? _); [|done].
    destruct (touchObservationLocked _ _ _ _ _ _) as [? ?]. by intros [= <-]. }
  destruct (snd _) as [o|] eqn:Es; cbn [pbind keeps] in *; [split; [done|by apply Hstale]|].
  destruct (noAddress _); [done|]. cbn [onSet keeps] in *. destruct Hk as (h2 & Hm2 & Hk2). exists h2. split; [done|]. intros c2.
  split; [apply Hk2|]. pose proof (commit_accepted (cw_set c2) (en_ID n) (forceNetworkLayer (extract AllowPrivateIPs n) fn fl) via now f p) as Ha.
  cbv zeta in Ha. by destruct (observe_commit _ _ _ _ _ _ _).
Qed.

Lemma clean_handleProbe n force : quits (handleProbe AllowPrivateIPs registry conf geo n force).
Proof.
  unfold handleProbe. destruct (refuseProbe _ _ _ _) as [code|]; [done|]. destruct (classify _ _ _ _) as [[[layer network] routable]|msg]; [|done].
  apply clean_bind; [auto using clean_calm, calm_ask|]. intros now.
  eapply (keeps_bind _ _ _ (fun (o : Observation) h' => h' = None /\ (ob_Applied o = true -> ob_Accepted o = true))); [destruct force; apply observe_keeps|].
  intros o h' [-> Ho]. apply clean_bind; [apply clean_calm, calm_when, calm_geo|]. intros _.
  eapply (keeps_bind _ _ _ (fun (ok : bool) h => h = (if ok then Some (en_ID n) else None) /\ (ok = true -> ob_Accepted o = true))).
  { destruct (ob_Applied o) eqn:Ea; [|done]. eapply keeps_bind; [apply calm_ask|]. intros now' h ->.
    pose proof (claimAt_keeps (en_ID n) now') as (hh & Hm & Hk). exists hh. split; [done|]. intros c. split; [apply Hk|auto]. }
  intros claimed h [-> Hcl].
  eapply (keeps_bind _ _ _ (fun (_ : Probed * option goError) h => h = if claimed then Some (en_ID n) else None)).
  { destruct (layer =? "el")%string; (eapply keeps_bind; [apply calm_ask|]); by intros a h ->. }
  intros [r err] h ->. eapply keeps_bind; [by apply finishRegistered_keeps|]. intros fin h ->.
  destruct (fin && _); [|done]. destruct (layer =? "el")%string; apply clean_calm; [apply calm_applyStatus|apply calm_head].
Qed.

(** * The system *)

(** What a goroutine other than a worker may run: discovery, the inbound callbacks, the
    periodic loops, the probe endpoint, and the publisher's pruning. *)
Inductive handler : prog unit -> Prop :=
| H_resolve p d : handler (resolve AllowPrivateIPs conf geo p d)
| H_inboundEL r : handler (onInboundEL AllowPrivateIPs geo r)
| H_inboundCL r : handler (onInboundCL AllowPrivateIPs geo r)
| H_retry now : handler (retryTick AllowPrivateIPs conf geo now)
| H_seeds boot now : handler (observeSeeds AllowPrivateIPs conf boot now)
| H_probe n force : handler (handleProbe AllowPrivateIPs registry conf geo n force)
| H_prune cutoff verified : handler (_ <~ onSet (fun s => PruneStaleWithVerified s cutoff verified);; Ret tt).

Lemma handler_clean p : handler p -> quits p.
Proof.
  destruct 1.
  - apply clean_resolve.
  - apply clean_calm, calm_inboundEL.
  - apply clean_calm, calm_inboundCL.
  - apply clean_retryTick.
  - apply clean_seeds.
  - apply clean_handleProbe.
  - apply clean_bind; [apply clean_calm, calm_prune|done].
Qed.

Record system := MkSystem { sy_c : Crawl; sy_running : list (prog unit) }.

(** The next action of a program, or an answer it may hear. *)
Definition advance (c : Crawl) (p : prog unit) (c' : Crawl) (p' : prog unit) : Prop :=
  match p with
  | Ret _ => False
  | Act f k => c' = fst (f c) /\ p' = k (snd (f c))
  | Ask q k => c' = c /\ exists r, p' = k r
  end.

(** Work that goes on by itself. *)
Inductive inner : system -> system -> Prop :=
| I_advance c ps i p c' p' : ps !! i = Some p -> advance c p c' p' -> inner (MkSystem c ps) (MkSystem c' (<[i := p']> ps))
| I_finish c ps i : ps !! i = Some (Ret tt) -> inner (MkSystem c ps) (MkSystem c (delete i ps))
| I_takeEL c ps t rest :
    pl_fpCh (cw_pool c) = t :: rest ->
    inner (MkSystem c ps)
      (MkSystem (withPool c (MkPool (pl_closed (cw_pool c)) rest (pl_clCh (cw_pool c)) (pl_depth (cw_pool c))))
         (workEL AllowPrivateIPs registry conf geo legacyStatus t :: ps))
| I_takeCL c ps n rest :
    pl_clCh (cw_pool c) = n :: rest ->
    inner (MkSystem c ps)
      (MkSystem (withPool c (MkPool (pl_closed (cw_pool c)) (pl_fpCh (cw_pool c)) rest (pl_depth (cw_pool c))))
         (workCL registry conf n :: ps)).

Inductive step : system -> system -> Prop :=
| S_inner s s' : inner s s' -> step s s'
| S_call c ps p : handler p -> step (MkSystem c ps) (MkSystem c (p :: ps))
| S_close c ps : step (MkSystem c ps) (MkSystem (withPool c (pool_Close (cw_pool c))) ps).

(** Before the first handler: no claim, nothing queued. *)
Definition starting (c : Crawl) : Prop := (forall id, ~ flying (cw_set c) id) /\ tickets (cw_pool c) = [].
Definition reachable (c : Crawl) (s : system) : Prop := rtc step (MkSystem c []) s.

(** ** The ledger *)

(** Each running program with the claim it holds. *)
Definition ledger (s : system) : Prop :=
  exists held, Forall2 (fun h p => keeps h p (fun _ h' => h' = None)) held (sy_running s) /\
    forall id, flying (cw_set (sy_c s)) id -> id ∈ tickets (cw_pool (sy_c s)) \/ Some id ∈ held.

Lemma ledger_start c : starting c -> ledger (MkSystem c []).
Proof. intros [Hf _]. exists []. split; [constructor|]. intros id Hid. by destruct (Hf id). Qed.

Lemma elem_of_insert_other {A} (l : list A) i (x y z : A) : l !! i = Some y -> z ∈ l -> z <> y -> z ∈ <[i := x]> l.
Proof.
  intros Hi Hz Hne. apply list_elem_of_lookup in Hz as [j Hj]. apply list_elem_of_lookup. exists j.
  rewrite list_lookup_insert_ne; [done|]. intros ->. congruence.
Qed.

Lemma elem_of_delete_other {A} (l : list A) i (y z : A) : l !! i = Some y -> z ∈ l -> z <> y -> z ∈ delete i l.
Proof.
  intros Hi Hz Hne. rewrite <- (take_drop_middle l i y Hi) in Hz. rewrite delete_take_drop.
  apply elem_of_app in Hz as [?|[->|?]%elem_of_cons]; [apply elem_of_app; auto|done|apply elem_of_app; auto].
Qed.

Lemma advance_keeps c p c' p' h :
  advance c p c' p' -> keeps h p (fun _ h' => h' = None) ->
  exists h', keeps h' p' (fun _ h' => h' = None) /\
    (pl_closed (cw_pool c) = true -> cw_pool c' = cw_pool c) /\
    (forall id, id ∈ tickets (cw_pool c) -> id ∈ tickets (cw_pool c')) /\
    forall id, flying (cw_set c') id -> (flying (cw_set c) id /\ h <> Some id) \/ h' = Some id \/ id ∈ tickets (cw_pool c').
Proof.
  destruct p as [a|R f k|R q k]; cbn [advance keeps]; [done| |].
  - intros [-> ->] (hf & Hm & Hk). exists (hf (snd (f c))). split; [apply Hk|]. specialize (Hm c). by destruct (f c) as [c1 r1].
  - intros [-> [r ->]] Hk. exists h. split_and!; [apply Hk|done|done|]. intros id Hf. destruct (decide (h = Some id)) as [->|]; auto.
Qed.

Lemma inner_ledger s s' : inner s s' -> ledger s -> ledger s'.
Proof.
  intros Hs (held & Hall & Hown). destruct Hs as [c ps i p c' p' Hp Ha|c ps i Hp|c ps t rest Hq|c ps n rest Hq]; cbn [sy_c sy_running] in *.
  - destruct (Forall2_lookup_r _ _ _ _ _ Hall Hp) as (h & Hh & Hk). destruct (advance_keeps _ _ _ _ _ Ha Hk) as (h' & Hk' & _ & Ht & Hf).
    exists (<[i := h']> held). split; [by apply Forall2_insert|]. intros id Hid.
    assert (i < length held)%nat as Hlt by (by eapply lookup_lt_Some).
    destruct (Hf id Hid) as [[Hold Hne]|[->|]]; [|right; by apply list_elem_of_lookup_2 with i, list_lookup_insert_eq|by left].
    destruct (Hown id Hold) as [?|Hin]; [left; auto|right; eapply elem_of_insert_other; [exact Hh|done|congruence]].
  - destruct (Forall2_lookup_r _ _ _ _ _ Hall Hp) as (h & Hh & Hk). cbn [keeps] in Hk. subst h.
    exists (delete i held). split; [by apply Forall2_delete|]. intros id Hid.
    destruct (Hown id Hid) as [?|Hin]; [by left|right; by eapply elem_of_delete_other].
  - exists (taskTicket t :: held). split.
    + constructor; [|done]. pose proof (work_holds t) as H. unfold holdsTask in H. by destruct (taskTicket t).
    + intros id Hid. cbn [withPool cw_set cw_pool] in *. destruct (Hown id Hid) as [Hin|Hin]; [|right; by right].
      unfold tickets in *. rewrite Hq in Hin. cbn [omap list_omap pl_fpCh pl_clCh] in *.
      destruct (taskTicket t); [|by left]. cbn [app] in Hin. apply elem_of_cons in Hin as [->|]; [right; by left|by left].
  - exists (Some (en_ID n) :: held). split; [constructor; [apply workCL_settles|done]|]. intros id Hid. cbn [withPool cw_set cw_pool] in *.
    destruct (Hown id Hid) as [Hin|Hin]; [|right; by right].
    unfold tickets in *. rewrite Hq in Hin. cbn [pl_fpCh pl_clCh] in *. apply elem_of_app in Hin as [?|[->|?]%elem_of_cons].
    + left. apply elem_of_app. auto.
    + right. by left.
    + left. apply elem_of_app. auto.
Qed.

Lemma step_ledger s s' : step s s' -> ledger s -> ledger s'.
Proof.
  intros [s1 s2 Hi|c ps p Hp|c ps]; [by apply inner_ledger| |]; intros (held & Hall & Hown).
  - exists (None :: held). split; [constructor; [by apply handler_clean|done]|]. intros id Hid. destruct (Hown id Hid); [by left|right; by right].
  - by exists held.
Qed.

Lemma steps_ledger s s' : rtc step s s' -> ledger s -> ledger s'.
Proof. induction 1 as [|x y z Hxy _ IH]; [done|]. intros Hl. by apply IH, (step_ledger x). Qed.

(** C4.  No claim is ever leaked.  However discovery, inbound connections, the retry loop,
    the probe endpoint, the workers and pruning interleave, whatever peers answer and
    whenever the pool is closed: an entry marked as being probed has a task in a queue, or
    a running program that on every path finishes the probe, gives the claim back, or
    queues the task. *)
Theorem claims_conserved c s id :
  starting c -> reachable c s -> flying (cw_set (sy_c s)) id ->
  id ∈ tickets (cw_pool (sy_c s)) \/ exists p, p ∈ sy_running s /\ settles id p.
Proof.
  intros Hc Hr Hf. destruct (steps_ledger _ _ Hr (ledger_start c Hc)) as (held & Hall & Hown).
  destruct (Hown id Hf) as [?|Hin]; [by left|right]. apply list_elem_of_lookup in Hin as [i Hi].
  destruct (Forall2_lookup_l _ _ _ _ _ Hall Hi) as (p & Hp & Hk). exists p. split; [by eapply list_elem_of_lookup_2|done].
Qed.

(** * Shutdown *)

(** Some answer to every question. *)
Definition someAnswer {R} (q : query R) : R :=
  match q with
  | QNow => zeroTime
  | QDone => true
  | QAttempt => MkAttempt false (fun _ => None) None None (MkWire (fun _ => inl (ErrText "")) (fun _ => None)) zeroTime
  | QCLAttempt => MkCLAttempt false None None false None [] false None (MkStatusStream false false false false "") false zeroTime
  | QResolve _ _ _ => None
  end.

Definition smaller (p' p : prog unit) : Prop := exists c c', advance c p c' p'.

Lemma smaller_acc p : Acc smaller p.
Proof.
  induction p as [a|R f k IH|R q k IH]; constructor; intros p' (c & c' & Ha); cbn [advance] in Ha.
  - done.
  - destruct Ha as [_ ->]. apply IH.
  - destruct Ha as [_ [r ->]]. apply IH.
Qed.

(** One of the running programs moves on, or is over. *)
Definition shrinks (ps ps' : list (prog unit)) : Prop :=
  (exists i p p', ps !! i = Some p /\ smaller p' p /\ ps' = <[i := p']> ps) \/ (exists i, ps !! i = Some (Ret tt) /\ ps' = delete i ps).

Lemma shrinks_cons p ps : Acc smaller p -> Acc (flip shrinks) ps -> Acc (flip shrinks) (p :: ps).
Proof.
  intros Hp. revert ps. induction Hp as [p _ IHp]. intros ps Hps. induction Hps as [ps Hacc IHps].
  constructor. intros ps' [(i & q & q' & Hi & Hq & ->)|(i & Hi & ->)]; (destruct i as [|i]; cbn [lookup list_lookup] in Hi).
  - injection Hi as ->. apply (IHp q' Hq). by constructor.
  - apply (IHps (<[i := q']> ps)). left. by exists i, q, q'.
  - by constructor.
  - apply (IHps (delete i ps)). right. by exists i.
Qed.

Lemma shrinks_acc ps : Acc (flip shrinks) ps.
Proof.
  induction ps as [|p ps IH]; [|by apply shrinks_cons; [apply smaller_acc|]].
  constructor. intros ps' [(i & q & q' & Hi & _)|(i & Hi & _)]; by rewrite lookup_nil in Hi.
Qed.

Definition queued (s : system) : nat := length (pl_fpCh (cw_pool (sy_c s))) + length (pl_clCh (cw_pool (sy_c s))).
Definition closed (s : system) : Prop := pl_closed (cw_pool (sy_c s)) = true.

Lemma inner_cases s s' :
  inner s s' -> closed s -> ledger s ->
  closed s' /\ ((queued s' = queued s /\ shrinks (sy_running s) (sy_running s')) \/ (queued s' < queued s)%nat).
Proof.
  intros Hs Hc (held & Hall & _). unfold closed, queued in *.
  destruct Hs as [c ps i p c' p' Hp Ha|c ps i Hp|c ps t rest Hq|c ps n rest Hq]; cbn [sy_c sy_running] in *.
  - destruct (Forall2_lookup_r _ _ _ _ _ Hall Hp) as (h & _ & Hk). destruct (advance_keeps _ _ _ _ _ Ha Hk) as (_ & _ & He & _).
    rewrite (He Hc). split; [done|left; split; [done|]]. left. exists i, p, p'. split_and!; [done|by exists c, c'|done].
  - split; [done|left; split; [done|]]. right. by exists i.
  - cbn [withPool cw_pool pl_closed pl_fpCh pl_clCh]. split; [done|right]. rewrite Hq. cbn [length]. lia.
  - cbn [withPool cw_pool pl_closed pl_fpCh pl_clCh]. split; [done|right]. rewrite Hq. cbn [length]. lia.
Qed.

Lemma inner_acc s : closed s -> ledger s -> Acc (flip inner) s.
Proof.
  remember (queued s) as n eqn:Hn. revert s Hn. induction (lt_wf n) as [n _ IHn]. intros s Hn.
  remember (sy_running s) as ps eqn:Hps. revert s Hn Hps. induction (shrinks_acc ps) as [ps _ IHps]. intros s Hn Hps Hc Hl.
  constructor. intros s' Hs. destruct (inner_cases s s' Hs Hc Hl) as [Hc' [[Hq Hsh]|Hq]].
  - apply (IHps (sy_running s')); [by rewrite Hps|by rewrite Hn|done|done|by apply (inner_ledger s)].
  - apply (IHn (queued s')); [by rewrite Hn|done|done|by apply (inner_ledger s)].
Qed.

Lemma stuck_done s : (forall s', ~ inner s s') -> sy_running s = [] /\ tickets (cw_pool (sy_c s)) = [].
Proof.
  intros Hno. destruct s as [c ps]. cbn [sy_c sy_running]. split.
  - destruct ps as [|p ps]; [done|exfalso]. destruct p as [[]|R f k|R q k].
    + eapply Hno. by apply (I_finish c _ 0).
    + eapply Hno. by apply (I_advance c _ 0 (Act f k) (fst (f c)) (k (snd (f c)))).
    + eapply Hno. apply (I_advance c _ 0 (Ask q k) c (k (someAnswer q))); [done|]. split; [done|]. by exists (someAnswer q).
  - unfold tickets. destruct (pl_fpCh (cw_pool c)) as [|t rest] eqn:Ef; [|exfalso; eapply Hno; by apply I_takeEL].
    destruct (pl_clCh (cw_pool c)) as [|n rest] eqn:Ec; [done|exfalso; eapply Hno; by apply I_takeCL].
Qed.

(** C9.  Shutdown drains.  Once the pool is closed and no new handler starts, every way of
    going on ends: the running programs and the workers finish whatever their probes and
    the clock answer, the queues empty without a worker ever refilling them, and then no
    entry is left marked as being probed, so the snapshot a shutdown publishes counts no
    attempt that was never made. *)
Theorem shutdown_drains c s :
  starting c -> reachable c s -> closed s ->
  Acc (flip inner) s /\
  forall s', rtc inner s s' -> (forall s'', ~ inner s' s'') ->
    sy_running s' = [] /\ tickets (cw_pool (sy_c s')) = [] /\ forall id, ~ flying (cw_set (sy_c s')) id.
Proof.
  intros Hc Hr Hcl. pose proof (steps_ledger _ _ Hr (ledger_start c Hc)) as Hl. split; [by apply inner_acc|].
  intros s' Hs Hstuck. destruct (stuck_done s' Hstuck) as [Hrun Htick]. split_and!; [done|done|].
  assert (ledger s') as (held & Hall & Hown) by (clear Hstuck Hrun Htick Hcl; induction Hs as [|x y z Hxy _ IH]; [done|apply IH; [by eapply rtc_r; [|by apply S_inner]|by apply (inner_ledger x)]]).
  rewrite Hrun in Hall. apply Forall2_nil_inv_r in Hall as ->. intros id Hid. destruct (Hown id Hid) as [Hin|Hin]; [rewrite Htick in Hin|]; by apply elem_of_nil in Hin.
Qed.
End Claims.

(** A concrete environment for the crawler, and the theorems about probes and claims
    applied in it: libraries as constant functions, a wire on which a peer of the
    demonstration network answers, and the probe endpoint run to the end. *)

Section Demo.
#[local] Existing Instance demoSpecial.
#[local] Existing Instance demoClassifier.
#[local] Existing Instance demoCodec.

(** * Names *)

Lemma parseName_operator_witness :
  parseName "geth/v1.17.3-stable/linux-amd64/go1.25.0" = fields "geth" "v1.17.3-stable" "linux-amd64" "go1.25.0" /\
  parseName "geth/validator/7/v1.17.3-stable/linux-amd64/go1.25.0" = fields "geth" "v1.17.3-stable" "linux-amd64" "go1.25.0".
Proof.
  assert (segments ["geth"; "v1.17.3-stable"; "linux-amd64"; "go1.25.0"]) as Hs by (repeat constructor; vm_compute; discriminate).
  destruct (parseName_operator "geth" "v1.17.3-stable" "linux-amd64" "go1.25.0" Hs) as (H1 & H2 & _); [reflexivity|].
  split; [exact H1|]. apply (H2 ["validator"; "7"]). repeat constructor; vm_compute; discriminate.
Defined.

(** * Probes *)

Definition demoStatus : ethStatusRange := MkRange 68 7 (GenesisHash demoNet) noForkID 0 41 "".
Definition demoLegacy : ethStatusLegacy := MkLegacy 68 7 0 "" (GenesisHash demoNet) noForkID.
Definition demoHello : protoHandshake := MkHello 5 "geth/v1.17.3-stable/linux-amd64/go1.25.0" [MkCap "eth" 68] 30303 "peer".

#[local] Instance demoRlp : RlpLib := Build_RlpLib
  (fun _ => inr "hello") (fun s => if (s =? "hello")%string then inr demoHello else inl (ErrText "rlp")) (fun _ => inr "status")
  (fun _ => inr demoLegacy) (fun _ => inr demoStatus) string (fun s _ => s) (fun _ => Some RlpByte) (fun s => Some s)
  (fun _ => Some DiscTooManyPeers) (fun _ => None) (fun _ => None).
#[local] Instance demoCaps : CapText := fun c => cap_Name c.
#[local] Instance demoEnodeLib : EnodeLib := Build_EnodeLib (fun pub => pub) (fun pub ip _ _ => demoENode 9).

(** The wire of a peer that answers, and of one that has too many peers. *)
Definition demoWire : Wire := MkWire (fun i => inr (match i with O => (handshakeMsg, "hello") | _ => (ethStatusMsg, "status") end)) (fun _ => None).
Definition busyWire : Wire := MkWire (fun _ => inr (discMsg, "busy")) (fun _ => None).
Definition demoFinder : Fingerprinter := MkFingerprinter "us" 1000 4 false.
Definition demoAttempt (w : Wire) : Attempt := MkAttempt true (fun _ => None) None None w 9.


Lemma probe_failures_labelled_witness :
  exists e, snd (Probe [demoNet] demoFinder (demoAttempt busyWire) (demoENode 2)) = Some e /\
    ProbeFailureKind e = "peer_disconnect" /\ ProbeDisconnectReason e = "too_many_peers" /\ ProbeErrorClass (Some e) ∈ errorClasses.
Proof.
  destruct (snd (Probe [demoNet] demoFinder (demoAttempt busyWire) (demoENode 2))) as [e|] eqn:E; [|by vm_compute in E].
  exists e. pose proof (probe_failures_labelled [demoNet] demoFinder (demoAttempt busyWire) (demoENode 2) (Some demoNet) None (inr "pub") busyWire demoNet 9 e
    (or_intror (or_introl E))) as (_ & Hc & _).
  split_and!; [reflexivity| | |exact Hc]; by injection E as <-.
Defined.

(** * The crawler *)

#[local] Instance demoRates : RateLib := Build_RateLib Z (fun r => 0 <? r) Z (fun _ burst => burst) (fun l _ n => (l - n, n <=? l)).
#[local] Instance demoMethods : NodeMethods := Build_NodeMethods en_IPv4 (fun n => default 0 (en_TCP n)) en_ID.
#[local] Instance demoSnappy : SnappyStream := Build_SnappyStream (fun s => s) (fun s _ => Some s).
#[local] Instance demoAddrs : MultiaddrLib := fun _ => None.

Definition demoConf : Conf := MkConf true true 10 false false 4 demoFinder false.
Definition demoCrawl : Crawl :=
  MkCrawl _ (NewWithLimit 10) (newExpiringMap 60 10) (newExpiringMap 60 10) (Some (newTargetDialBudget 1 2 8 60)) (newExpiringMap 60 10)
    (newExpiringMap 60 10) (newFingerprintPool 8).

(** A record of a known execution network, and its probe. *)
Definition demoTarget : ENode :=
  MkENode (be_put 32 2) 1 "enode://demo" "enr:demo" (Some (of_bytes [8; 8; 8; 8])) None (Some 30303) (Some 30303)
    None None None None (Some (ForkID (of_bytes [1; 2; 3; 4]) 0)) None None None None.

Definition crawlWorld : forall R, query R -> R := fun R q =>
  match q in query R return R with
  | QNow => 9
  | QDone => false
  | QAttempt => demoAttempt demoWire
  | QCLAttempt => MkCLAttempt false None None false None [] false None (MkStatusStream false false false false "") false 9
  | QResolve _ _ n => Some (n, "v5")
  end.

(** The first [k] actions and questions of a program. *)
Fixpoint drive (k : nat) (p : prog unit) (c : Crawl) : Crawl * prog unit :=
  match k, p with
  | S k, Act f rest => drive k (rest (snd (f c))) (fst (f c))
  | S k, Ask q rest => drive k (rest (crawlWorld _ q)) c
  | _, _ => (c, p)
  end.

Abbreviation demoInner := (inner false [demoNet] demoConf None demoNet).
Abbreviation demoStep := (step false [demoNet] demoConf None demoNet).

Lemma drive_inner k p c : rtc demoInner (MkSystem c [p]) (MkSystem (fst (drive k p c)) [snd (drive k p c)]).
Proof.
  revert p c. induction k as [|k IH]; intros p c; [by apply rtc_refl|]. destruct p as [a|R f rest|R q rest]; cbn [drive fst snd].
  - by apply rtc_refl.
  - eapply rtc_l; [|apply IH]. by apply (I_advance _ _ _ _ _ c [Act f rest] 0 (Act f rest)).
  - eapply rtc_l; [|apply IH]. apply (I_advance _ _ _ _ _ c [Ask q rest] 0 (Ask q rest)); [done|]. split; [done|by eexists].
Qed.

Lemma inner_steps s s' : rtc demoInner s s' -> rtc demoStep s s'.
Proof. induction 1 as [|x y z Hxy _ IH]; [done|]. eapply rtc_l; [by apply S_inner|done]. Qed.

Definition demoProbe : prog unit := handleProbe false [demoNet] demoConf None demoTarget false.
Definition demoState (k : nat) : system := MkSystem (fst (drive k demoProbe demoCrawl)) [snd (drive k demoProbe demoCrawl)].

Lemma drive_reachable k : reachable false [demoNet] demoConf None demoNet demoCrawl (demoState k).
Proof. eapply rtc_l; [by apply S_call, (H_probe _ _ _ _ demoTarget false)|]. apply inner_steps, drive_inner. Qed.

Lemma demo_starting : starting demoCrawl.
Proof. split; [|reflexivity]. intros id (n & Hn & _). cbn [demoCrawl cw_set NewWithLimit s_m] in Hn. by rewrite lookup_empty in Hn. Qed.

(** The probe endpoint has claimed the node and its probe is out. *)
Lemma claims_conserved_witness :
  flying (cw_set (sy_c (demoState 6))) (be_put 32 2) /\ settles (be_put 32 2) (snd (drive 6 demoProbe demoCrawl)).
Proof.
  assert (flying (cw_set (sy_c (demoState 6))) (be_put 32 2)) as Hf by (apply (bool_decide_unpack _); vm_compute; exact I).
  split; [exact Hf|].
  destruct (claims_conserved false [demoNet] demoConf None demoNet demoCrawl (demoState 6) (be_put 32 2) demo_starting (drive_reachable 6) Hf) as [H|[p [H Hp]]].
  - exfalso. revert H. replace (tickets (cw_pool (sy_c (demoState 6)))) with (@nil string) by (vm_compute; reflexivity). apply not_elem_of_nil.
  - apply list_elem_of_singleton in H as ->. exact Hp.
Defined.

(** The pool is closed while the probe is out. *)
Definition closeNow (s : system) : system := MkSystem (withPool (sy_c s) (pool_Close (cw_pool (sy_c s)))) (sy_running s).
Definition closedState : system := closeNow (demoState 6).

Lemma close_reachable c s :
  reachable false [demoNet] demoConf None demoNet c s -> reachable false [demoNet] demoConf None demoNet c (closeNow s).
Proof. intros H. eapply rtc_r; [exact H|]. destruct s as [c' ps]. apply S_close. Qed.

Lemma closed_reachable : reachable false [demoNet] demoConf None demoNet demoCrawl closedState.
Proof. exact (close_reachable demoCrawl (demoState 6) (drive_reachable 6)). Qed.

Lemma shutdown_drains_witness :
  flying (cw_set (sy_c closedState)) (be_put 32 2) /\
  forall s', rtc demoInner closedState s' -> (forall s'', ~ demoInner s' s'') -> ~ flying (cw_set (sy_c s')) (be_put 32 2).
Proof.
  split; [apply (bool_decide_unpack _); vm_compute; exact I|]. intros s' Hs Hstuck.
  destruct (shutdown_drains false [demoNet] demoConf None demoNet demoCrawl closedState demo_starting closed_reachable eq_refl) as [_ H].
  exact (proj2 (proj2 (H s' Hs Hstuck)) (be_put 32 2)).
Defined.
End Demo.
