(* ===== verification/Advertise.v ===== *)
(** [cmd/crawler/identities.go] and [identityruntime.go], with the configuration side of
    [internal/discovery/discovery.go]: the identities a crawler advertises.

    An identity is a discovery node with its own key and ports.  Sockets, keys and the
    random walks are go-ethereum's; modelled are which identities there are, what their
    records say, how they are started and closed together, and the clock by which the
    records follow the forks. *)

From stdpp Require Import base gmap strings list numbers pretty.
From Stdlib Require Import ZArith Lia Ascii.
From S2P Require Import Prelude GoLib Text Hashes Consensus ForkId Network NetIP NodeData Query QueryMirror Rlpx CrawlerWork.
From stdpp Require Import list.
#[local] Open Scope Z_scope.

(** * Which identities there are *)

Record identitySpec := MkIdentitySpec {
  is_Network : string; is_Layer : string; is_Index : Z; is_Walker : bool; is_DiscoveryPort : Z; is_TCPPort : Z; is_QUICPort : Z }.

Fixpoint advertiserLoop (seen : list string) (parts : list string) : result (list string) :=
  match parts with
  | [] => Ok seen
  | p :: parts' =>
      let name := TrimSpace p in
      if (name =? "")%string then Err "--advertiser-networks contains an empty network"
      else if contains_func (String.eqb name) seen then Err "--advertiser-networks contains duplicate %q"
      else advertiserLoop (seen ++ [name]) parts'
  end.

Definition parseAdvertiserNetworks (raw : string) (devnetOnly : bool) : result (list string) :=
  if devnetOnly then Ok ["devnet"]
  else if (TrimSpace raw =? "")%string then Err "--advertiser-networks must list at least one network"
  else advertiserLoop [] (split_on "," "" raw).

(** The inner loop: the execution identities of a network from [port] on. *)
Definition elSpec (network : string) (walkers : Z) (transports : bool) (port index : Z) : identitySpec :=
  MkIdentitySpec network layerEL index ((walkers =? 0) || (index <? walkers)) (port + index) (if transports then port + index else 0) 0.
Definition clSpec (network : string) (transports : bool) (port : Z) : identitySpec :=
  MkIdentitySpec network layerCL 0 true port (if transports then port + 1 else 0) (if transports then port + 1 else 0).

Fixpoint specLoop (networks : list string) (port els walkers : Z) (transports : bool) : list identitySpec :=
  match networks with
  | [] => []
  | network :: rest =>
      map (elSpec network walkers transports port) (seqZ 0 els) ++ clSpec network transports (port + els) ::
      specLoop rest (port + els + 2) els walkers transports
  end.

Definition identitySpecs (networks : list string) (basePort elIdentitiesPerNetwork walkerELIdentities : Z) (withTransports : bool)
  : result (list identitySpec) :=
  let portsPerNetwork := wrapI64 (elIdentitiesPerNetwork + 2) in
  let last := wrapI64 (basePort + wrapI64 (Z.of_nat (length networks) * portsPerNetwork) - 1) in
  if (basePort <? 1) || (Z.of_nat (length networks) =? 0) || (elIdentitiesPerNetwork <? 1) || (65535 <? last)
  then Err "advertiser port range must fit within 1..65535, base=%d networks=%d el-identities=%d"
  else Ok (specLoop networks basePort elIdentitiesPerNetwork walkerELIdentities withTransports).

Definition walkSource (spec : identitySpec) (proto : string) : bool :=
  if negb (is_Walker spec) then false else negb (is_Layer spec =? layerCL)%string || (proto =? "v5")%string.

Definition identityKeyName (spec : identitySpec) : string :=
  let name := is_Network spec +:+ "-" +:+ is_Layer spec in
  let name := if 0 <? is_Index spec then name +:+ "-" +:+ pretty (is_Index spec + 1) else name in
  name +:+ ".key".

Definition walkerName (spec : identitySpec) : string := TrimSuffix (identityKeyName spec) ".key".

Definition clListenAddrs (families : list string) (tcpPort quicPort : Z) : list string :=
  flat_map (fun family =>
    let (host, proto) := if (family =? "udp6")%string then ("::", "ip6") else ("0.0.0.0", "ip4") in
    (if 0 <? tcpPort then ["/" +:+ proto +:+ "/" +:+ host +:+ "/tcp/" +:+ pretty tcpPort] else []) ++
    (if 0 <? quicPort then ["/" +:+ proto +:+ "/" +:+ host +:+ "/udp/" +:+ pretty quicPort +:+ "/quic-v1"] else [])) families.

(** * What their records say *)

(** [discovery.Config], as far as it is checked and announced. *)
Record DiscoveryConfig := MkDiscoveryConfig {
  dc_Network : option Network; dc_Families : list string; dc_PortV4 : Z; dc_PortV5 : Z; dc_Eth2 : string; dc_NFD : string;
  dc_Attnets : string; dc_Syncnets : string; dc_CGC : string; dc_TCP : Z; dc_QUIC : Z; dc_StaticIPs : list string; dc_CLOnly : bool }.

Definition badPort (p : Z) : bool := (p <? 1) || (65535 <? p).

Fixpoint familiesError (seen families : list string) : option string :=
  match families with
  | [] => None
  | family :: rest =>
      if negb (family =? "udp4")%string && negb (family =? "udp6")%string then Some "unsupported discovery address family %q"
      else if contains_func (String.eqb family) seen then Some "duplicate discovery address family %q"
      else familiesError (family :: seen) rest
  end.

(** A nil address is the empty one. *)
Definition badStatic (ip : string) : bool := (ip =? "")%string || IsUnspecified ip || IsMulticast ip.

Definition validateConfig (cfg : DiscoveryConfig) : result unit :=
  if negb (dc_CLOnly cfg) && match dc_Network cfg with None => true | Some _ => false end then Err "network is required for an execution-layer discovery identity"
  else if badPort (dc_PortV4 cfg) || badPort (dc_PortV5 cfg) then Err "discovery ports must be between 1 and 65535, got %d/%d"
  else if negb (dc_PortV4 cfg =? dc_PortV5 cfg) then Err "discv4 and discv5 must share one advertised UDP port, got %d and %d"
  else if (dc_TCP cfg <? 0) || (65535 <? dc_TCP cfg) then Err "TCP port must be between 0 and 65535, got %d"
  else if (dc_QUIC cfg <? 0) || (65535 <? dc_QUIC cfg) then Err "QUIC port must be between 0 and 65535, got %d"
  else match familiesError [] (dc_Families cfg) with
       | Some e => Err e
       | None => if existsb badStatic (dc_StaticIPs cfg) then Err "invalid static IP %q" else Ok tt
       end.

Definition hasStaticV6 (ips : list string) : bool :=
  existsb (fun ip => match To4 ip with Some _ => false | None => slen ip =? 16 end) ips.

(** The entries of a local record. *)
Record LocalNode := MkLocalNode {
  ln_static : list string; ln_fallbackUDP : Z; ln_eth : option forkID; ln_eth2 : option string; ln_nfd : option string;
  ln_attnets : option string; ln_syncnets : option string; ln_cgc : option string;
  ln_tcp : option Z; ln_tcp6 : option Z; ln_quic : option Z; ln_quic6 : option Z }.

Definition bytesEntry (b : string) : option string := if (b =? "")%string then None else Some b.
Definition portEntry (on : bool) (p : Z) : option Z := if (0 <? p) && on then Some p else None.

(** The record [New] builds; [id] is [cfg.Network.CurrentForkID()]. *)
Definition newRecord (cfg : DiscoveryConfig) (id : forkID) : LocalNode :=
  let v6 := hasStaticV6 (dc_StaticIPs cfg) in
  MkLocalNode (dc_StaticIPs cfg) (dc_PortV5 cfg) (if dc_CLOnly cfg then None else Some id) (bytesEntry (dc_Eth2 cfg)) (bytesEntry (dc_NFD cfg))
    (bytesEntry (dc_Attnets cfg)) (bytesEntry (dc_Syncnets cfg)) (bytesEntry (dc_CGC cfg))
    (portEntry true (dc_TCP cfg)) (portEntry v6 (dc_TCP cfg)) (portEntry true (dc_QUIC cfg)) (portEntry v6 (dc_QUIC cfg)).

Definition SetELForkID (id : forkID) (n : LocalNode) : LocalNode :=
  MkLocalNode (ln_static n) (ln_fallbackUDP n) (Some id) (ln_eth2 n) (ln_nfd n) (ln_attnets n) (ln_syncnets n) (ln_cgc n)
    (ln_tcp n) (ln_tcp6 n) (ln_quic n) (ln_quic6 n).
Definition SetCLForkState (eth2 nfd : string) (n : LocalNode) : LocalNode :=
  MkLocalNode (ln_static n) (ln_fallbackUDP n) (ln_eth n) (match bytesEntry eth2 with Some b => Some b | None => ln_eth2 n end)
    (match bytesEntry nfd with Some b => Some b | None => ln_nfd n end) (ln_attnets n) (ln_syncnets n) (ln_cgc n)
    (ln_tcp n) (ln_tcp6 n) (ln_quic n) (ln_quic6 n).

(** * The configuration of an identity *)

(** [Bootnodes] and [CLBootnodes]: only the execution list must parse whole. *)
Section Seeds.
Context `{EnodeCodec}.

Fixpoint parseBootnodes (urls : list string) : result (list ENode) :=
  match urls with
  | [] => Ok []
  | u :: rest => match parseENR u with
                 | None => Err "parse bootnode %q: %w"
                 | Some node => let! nodes := parseBootnodes rest in Ok (node :: nodes)
                 end
  end.

Definition Bootnodes (registry : list Network) (name : string) : result (list ENode) :=
  match Get registry name with
  | Err _ => Err "no bootnodes for network %q"
  | Ok n => if bool_decide (nw_bootnodes n = []) then Err "no bootnodes for network %q" else parseBootnodes (nw_bootnodes n)
  end.

Definition CLBootnodes (registry : list Network) (name : string) : result (list ENode) :=
  match Get registry name with
  | Err _ => Err "no consensus bootnodes for network %q"
  | Ok n => if bool_decide (nw_clBootnodes n = []) then Err "no consensus bootnodes for network %q"
            else let nodes := omap parseENR (nw_clBootnodes n) in
                 if bool_decide (nodes = []) then Err "no valid consensus bootnodes for network %q" else Ok nodes
  end.

(** The entries of a record that only a seed is asked for. *)
Class SeedEntries := { Load_Syncnets : ENode -> option string; Load_NFD : ENode -> option string }.
Context `{SeedEntries}.

Record clIdentity := MkCLIdentity { ci_eth2 : string; ci_nfd : string; ci_attnets : string; ci_syncnets : string; ci_cgc : string }.

Fixpoint clIdentityFromSeeds (seeds : list ENode) : option clIdentity :=
  match seeds with
  | [] => None
  | s :: rest => match en_Eth2 s with
                 | None => clIdentityFromSeeds rest
                 | Some eth2 => if slen eth2 <? 4 then clIdentityFromSeeds rest
                                else Some (MkCLIdentity eth2 (default "" (Load_NFD s)) (default "" (en_Attnets s)) (default "" (Load_Syncnets s)) (default "" (en_CGC s)))
                 end
  end.

Definition allSubnets : string := Nat.iter 8 (String (ascii_of_nat 255)) "".

(** The configuration [rt.build] gives to [discovery.New]. *)
Definition identityConfig (registry : list Network) (families statics : list string) (now : Time) (spec : identitySpec) : result DiscoveryConfig :=
  let nw := match Get registry (is_Network spec) with Ok n => Some n | Err _ => None end in
  if (is_Layer spec =? layerEL)%string then
    let! _ := Bootnodes registry (is_Network spec) in
    Ok (MkDiscoveryConfig nw families (is_DiscoveryPort spec) (is_DiscoveryPort spec) "" "" "" "" "" (is_TCPPort spec) (is_QUICPort spec) statics false)
  else
    let! seeds := CLBootnodes registry (is_Network spec) in
    match clIdentityFromSeeds seeds with
    | None => Err "no consensus ENR identity fields in %s bootnodes"
    | Some cl =>
        let! state := CLForkStateAt registry (is_Network spec) now in
        Ok (MkDiscoveryConfig nw families (is_DiscoveryPort spec) (is_DiscoveryPort spec) (ENRForkID state) (NextDigest state)
              (if (ci_attnets cl =? "")%string then allSubnets else ci_attnets cl) (ci_syncnets cl) (ci_cgc cl)
              (is_TCPPort spec) (is_QUICPort spec) statics true)
    end.
End Seeds.

(** * Resolving through them *)

(** The preferred address of a node and its public key, which go-ethereum works out. *)
Class DiscoveryNode := { IPAddr_Is6 : ENode -> bool; Node_Pubkey : ENode -> option string }.

(** [endpoint]: a socket family, a protocol and the answer to [RequestENR] over it. *)
Record discoveryEndpoint := MkEndpoint { ep_proto : string; ep_family : string; ep_RequestENR : ENode -> option ENode }.

Section Resolve.
Context `{DiscoveryNode} `{EnodeLib}.

Definition nodeFamilies (n : ENode) : list string :=
  let fams := (match en_IPv4 n with Some _ => ["udp4"] | None => [] end) ++ (match en_IPv6 n with Some _ => ["udp6"] | None => [] end) in
  match fams with [] => ["udp4"] | _ => fams end.

Definition familyNode (n : ENode) (family : string) : ENode :=
  let want6 := (family =? "udp6")%string in
  if Bool.eqb (IPAddr_Is6 n) want6 then n
  else match Node_Pubkey n with
       | None => n
       | Some key =>
           let udp := default 0 (en_UDP n) in
           let (ip, udp) := if want6 then (default "" (en_IPv6 n), default udp (en_UDP6 n)) else (default "" (en_IPv4 n), udp) in
           NewV4 key ip 0 udp
       end.

Fixpoint ResolveProtocol (endpoints : list discoveryEndpoint) (n : ENode) (proto : string) : option (ENode * string) :=
  match endpoints with
  | [] => None
  | e :: rest =>
      if negb (ep_proto e =? proto)%string || negb (contains_func (String.eqb (ep_family e)) (nodeFamilies n)) then ResolveProtocol rest n proto
      else match ep_RequestENR e (familyNode n (ep_family e)) with
           | None => ResolveProtocol rest n proto
           | Some rn => Some (if en_Seq rn <? en_Seq n then n else rn, ep_proto e)
           end
  end.

(** [Crawler.Resolve]: the protocols in order. *)
Definition ResolveENR (endpoints : list discoveryEndpoint) (n : ENode) : option (ENode * string) :=
  match ResolveProtocol endpoints n "v5" with Some r => Some r | None => ResolveProtocol endpoints n "v4" end.
End Resolve.

(** * Starting and closing them *)

(** The runtime: its identities, what it has to close, and what it closed, in order.
    [build] tracks what it opens even when it fails. *)
Record identityRuntime := MkRuntime {
  rt_identities : list (identitySpec * LocalNode); rt_closers : list string; rt_cancelled : bool; rt_closed : list string; rt_once : bool }.
Definition newRuntime : identityRuntime := MkRuntime [] [] false [] false.

Definition runtime_Close (rt : identityRuntime) : identityRuntime :=
  if rt_once rt then rt
  else MkRuntime (rt_identities rt) (rt_closers rt) true (rt_closed rt ++ rev (rt_closers rt)) true.

Section Start.
Context (build : identitySpec -> list string * result LocalNode).

Fixpoint runtime_start (specs : list identitySpec) (rt : identityRuntime) : identityRuntime * option string :=
  match specs with
  | [] => (rt, None)
  | spec :: rest =>
      let (opened, r) := build spec in
      let rt := MkRuntime (rt_identities rt) (rt_closers rt ++ opened) (rt_cancelled rt) (rt_closed rt) (rt_once rt) in
      match r with
      | Err e => (runtime_Close rt, Some e)
      | Ok n => runtime_start rest (MkRuntime (rt_identities rt ++ [(spec, n)]) (rt_closers rt) (rt_cancelled rt) (rt_closed rt) (rt_once rt))
      end
  end.
End Start.

(** * Following the forks *)

(** [networks] of [startRefresh]: those of the identities, each once. *)
Definition refreshNetworks (ids : list (identitySpec * LocalNode)) : list string :=
  foldl (fun out x => if contains_func (String.eqb (is_Network x.1)) out then out else out ++ [is_Network x.1]) [] ids.

(** One identity of [refreshAt].  A network that is not registered would be a nil pointer. *)
Definition refreshOne (at_ : Time) (registry : list Network) (x : identitySpec * LocalNode) : result (list Network * LocalNode) :=
  let (spec, n) := x in
  if (is_Layer spec =? layerEL)%string then
    match Get registry (is_Network spec) with
    | Err _ => Err "nil pointer dereference"
    | Ok nw =>
        let (id, nw) := CurrentForkIDAt (RefreshClassifyWindowAt nw at_) at_ in
        Ok (put registry nw, SetELForkID id n)
    end
  else
    match CLForkStateAt registry (is_Network spec) at_ with
    | Err _ => Ok (registry, n)
    | Ok state => Ok (registry, SetCLForkState (ENRForkID state) (NextDigest state) n)
    end.

Fixpoint runtime_refreshAt (at_ : Time) (registry : list Network) (ids : list (identitySpec * LocalNode))
  : result (list Network * list (identitySpec * LocalNode)) :=
  match ids with
  | [] => Ok (registry, [])
  | x :: rest =>
      let! (registry, n) := refreshOne at_ registry x in
      let! (registry, rest) := runtime_refreshAt at_ registry rest in
      Ok (registry, (x.1, n) :: rest)
  end.

Definition minRefresh : Duration := 10 * 1000000.

(** [now] is the clock [time.Until] reads. *)
Definition nextDelay (registry : list Network) (networks : list string) (at_ now : Time) : Duration :=
  let delay := match ForkEraTokenAt registry at_ networks with
               | Ok (_, transition) =>
                   if IsZero transition then Hour else let until := Sub transition now in if until <? Hour then until else Hour
               | Err _ => Hour
               end in
  if delay <? minRefresh then minRefresh else delay.

(** ** The registry under a refresh *)

Lemma Get_put registry n name : Get (put registry n) name = if (nw_Name n =? name)%string then match Get registry name with Ok _ => Ok n | Err e => Err e end else Get registry name.
Proof.
  induction registry as [|m rest IH]; cbn [put Get]; [by destruct (_ =? _)%string|].
  destruct (String.eqb_spec (nw_Name m) (nw_Name n)) as [E|E]; cbn [Get].
  - rewrite E. by destruct (String.eqb_spec (nw_Name n) name).
  - rewrite IH. destruct (String.eqb_spec (nw_Name m) name) as [<-|]; [|done]. destruct (String.eqb_spec (nw_Name n) (nw_Name m)) as [E'|]; [by rewrite E' in E|done].
Qed.

Lemma elem_of_put registry n m : m ∈ put registry n -> m = n \/ m ∈ registry.
Proof.
  induction registry as [|x rest IH]; cbn [put]; [by intros ?%elem_of_nil|]. destruct (_ =? _)%string; intros [->|H]%elem_of_cons; [by left|by right; right|by right; left|].
  destruct (IH H); [by left|by right; right].
Qed.

Lemma Names_put registry n : Names (put registry n) = Names registry.
Proof. induction registry as [|m rest IH]; cbn [put]; [done|]. destruct (String.eqb_spec (nw_Name m) (nw_Name n)) as [E|]; unfold Names in *; cbn [map]; [by rewrite E|by rewrite IH]. Qed.

(** A refreshed network: its window and its memos, and nothing a query reads. *)
Lemma refreshed_network n at_ : era_ok n ->
  let n' := snd (CurrentForkIDAt (RefreshClassifyWindowAt n at_) at_) in
  fst (CurrentForkIDAt (RefreshClassifyWindowAt n at_) at_) = currentForkIDAt n at_ /\
  era_ok n' /\ nw_Name n' = nw_Name n /\ nw_cl n' = nw_cl n /\ nw_clCache n' = nw_clCache n /\ nw_elForks n' = nw_elForks n /\
  forall b, currentForkIDAt n' b = currentForkIDAt n b.
Proof.
  intros (Hs & Hm & Hi & cl & Hcl & Hrest). unfold RefreshClassifyWindowAt. rewrite load_loaded by apply Hs. cbv zeta.
  set (w := n <| nw_hashes := _ |> <| nw_hashAt := at_ |>).
  assert (forall b, currentForkIDAt w b = currentForkIDAt n b) as Hw.
  { intros b. unfold currentForkIDAt, forkIDAt. rewrite (load_loaded w), (load_loaded n) by apply Hs. done. }
  assert (schedule_ok w) as Hsw by exact Hs.
  assert (memo_ok w) as Hmw.
  { unfold memo_ok in *. change (nw_fork w) with (nw_fork n). destruct (nw_fork n) as [m|]; [|done]. destruct Hm as (t & Ht & He). exists t. split; [exact Ht|]. by rewrite Hw. }
  destruct (CurrentForkIDAt_value w at_ Hsw Hmw) as [m E].
  assert (schedule_ok (snd (CurrentForkIDAt w at_)) /\ memo_ok (snd (CurrentForkIDAt w at_))) as [Hs' Hm'].
  { clear - Hsw Hmw. unfold CurrentForkIDAt. rewrite load_loaded by apply Hsw.
    assert (forall id, id = currentForkIDAt w at_ -> let n' := w <| nw_fork := Some (ForkMemo (forkEraAt (nw_elForks w) at_) id) |> in schedule_ok n' /\ memo_ok n') as Hstore.
    { intros id -> n'. split; [done|]. exists at_. split; [done|]. unfold currentForkIDAt, forkIDAt. rewrite !load_loaded by apply Hsw. done. }
    destruct (nw_fork w) as [memo|]; [|by apply Hstore]. destruct (_ =? _); [done|by apply Hstore]. }
  rewrite E in Hs', Hm' |- *. cbn [fst snd] in *. split; [apply Hw|]. split; [|split_and!; [done..|]].
  - split_and!; [done|done|done|]. exists cl. by rewrite <- Hcl.
  - intros b. rewrite <- Hw. unfold currentForkIDAt, forkIDAt. rewrite !load_loaded; [done|apply Hsw|apply Hs'].
Qed.

(** What a registry answers about the forks of a network. *)
Record sameForks (r r' : list Network) : Prop := {
  sf_ok : forall n, n ∈ r' -> era_ok n;
  sf_names : Names r' = Names r;
  sf_get : forall name n, Get r name = Ok n -> exists n', Get r' name = Ok n' /\ nw_cl n' = nw_cl n /\ nw_elForks n' = nw_elForks n /\
    nw_clCache n' = nw_clCache n /\ forall b, currentForkIDAt n' b = currentForkIDAt n b }.

Lemma sameForks_refl r : (forall n, n ∈ r -> era_ok n) -> sameForks r r.
Proof. intros H. split; [done|done|]. intros name n Hg. exists n. by split_and!. Qed.

Lemma sameForks_trans a b c : sameForks a b -> sameForks b c -> sameForks a c.
Proof.
  intros [_ N1 G1] [O2 N2 G2]. split; [done|by rewrite N2|]. intros name n Hg. destruct (G1 _ _ Hg) as (n1 & Hg1 & A1 & B1 & C1 & D1).
  destruct (G2 _ _ Hg1) as (n2 & Hg2 & A2 & B2 & C2 & D2). exists n2. split_and!; congruence.
Qed.

Lemma sameForks_put registry name n n' : (forall n, n ∈ registry -> era_ok n) -> Get registry name = Ok n ->
  era_ok n' -> nw_Name n' = nw_Name n -> nw_cl n' = nw_cl n -> nw_clCache n' = nw_clCache n -> nw_elForks n' = nw_elForks n ->
  (forall b, currentForkIDAt n' b = currentForkIDAt n b) -> sameForks registry (put registry n').
Proof.
  intros Hreg Hg Ho Hn Hc Hk He Hb. split.
  - intros m Hm. destruct (elem_of_put _ _ _ Hm) as [->|]; auto.
  - apply Names_put.
  - intros name1 n1 Hg1. rewrite Get_put, Hg1, Hn. destruct (Get_in _ _ _ Hg) as [_ Hname]. rewrite Hname.
    destruct (String.eqb_spec name name1) as [<-|]; [|exists n1; by split_and!]. rewrite Hg in Hg1. injection Hg1 as <-. exists n'. by split_and!.
Qed.

Lemma CLForkStateAt_same r r' name at_ : sameForks r r' -> is_ok (Get r name) = true -> CLForkStateAt r' name at_ = CLForkStateAt r name at_.
Proof.
  intros Hs Hg. unfold CLForkStateAt. destruct (Get r name) as [n|] eqn:E; [|done]. destruct (sf_get _ _ Hs _ _ E) as (n' & -> & -> & _ & -> & _). done.
Qed.

(** ** The era of a network *)

Lemma instant_seconds t : instant_ok t = true -> 0 <= t /\ 0 <= t / Second <= 2 ^ 62.
Proof. unfold instant_ok. intros H. boolify. pose proof (Z.mul_div_le t Second). unfold unixToInternal, Second in *. lia. Qed.

Lemma CLForkStateAt_total registry name n at_ : Get registry name = Ok n -> era_ok n -> instant_ok at_ = true ->
  exists cl s, nw_cl n = Some cl /\ computeStateAt cl (epochAt cl at_) = Ok s /\ CLForkStateAt registry name at_ = Ok s.
Proof.
  intros Hg (Hs & Hm & Hi & cl & Hcl & Hwf & Hcov & Hck & Hst & Hk) Ha. destruct (instant_seconds _ Ha) as [_ Hr].
  destruct (epochAt_mono cl at_ at_ Hck Hr Hr ltac:(lia)) as [He _]. destruct (computeStateAt_total cl Hwf Hcov (epochAt cl at_)) as [s Es]; [lia|].
  exists cl, s. by rewrite (CLForkStateAt_value registry name n cl).
Qed.

(** Transitions of a network no earlier than [next], as far as they lie ahead. *)
Definition reachedAll (registry : list Network) (at_ next : Time) (name : string) : Prop :=
  exists n s, Get registry name = Ok n /\ CLForkStateAt registry name at_ = Ok s /\ reached next (NextTransition s) /\
    forall f, f ∈ nw_elForks n -> After (transitionOf f) at_ = true -> reached next (transitionOf f).

Lemma eraStep_reached registry name n at_ parts next : Get registry name = Ok n -> era_ok n -> instant_ok at_ = true ->
  exists parts' next', eraStep registry at_ (Ok (parts, next)) name = Ok (parts', next') /\ reached next' next /\ reachedAll registry at_ next' name.
Proof.
  intros Hg Ho Ha. destruct (instant_seconds _ Ha) as [Ha0 _]. destruct (CLForkStateAt_total registry name n at_ Hg Ho Ha) as (cl & s & Hcl & _ & Es).
  unfold eraStep. cbn [rbind]. rewrite Hg. cbn [rbind]. destruct Ho as (Hs & Hm & _). destruct (CurrentForkIDAt_value n at_ Hs Hm) as [m ->].
  rewrite Es. cbn [rbind]. destruct (cancelledEraAt _ at_) as [passed cn].
  change (nw_elForks (n <| nw_fork := m |>)) with (nw_elForks n).
  destruct (el_next_reached at_ (earlier (earlier next (NextTransition s)) cn) (nw_elForks n) Ha0) as [He1 He2].
  destruct (earlier_reached (earlier next (NextTransition s)) cn) as [_ Hc2]. destruct (earlier_reached next (NextTransition s)) as [Hc3 Hc4].
  eexists _, _. split; [reflexivity|]. pose proof (reached_trans _ _ _ He1 Hc2) as Hre. split; [by eapply reached_trans|].
  exists n, s. split_and!; [done|done|by eapply reached_trans|done].
Qed.

Lemma reachedAll_trans registry at_ a b name : reached a b -> reachedAll registry at_ b name -> reachedAll registry at_ a name.
Proof. intros H (n & s & Hg & Hs & Hr & Hf). exists n, s. split_and!; [done|done|by eapply reached_trans|]. intros f Hin Hl. eapply reached_trans; eauto. Qed.

Lemma eraSteps_reached registry at_ names parts next :
  (forall n, n ∈ registry -> era_ok n) -> instant_ok at_ = true -> (forall name, name ∈ names -> is_ok (Get registry name) = true) ->
  exists parts' next', foldl (eraStep registry at_) (Ok (parts, next)) names = Ok (parts', next') /\ reached next' next /\
    forall name, name ∈ names -> reachedAll registry at_ next' name.
Proof.
  intros Hreg Ha. revert parts next. induction names as [|name names IH]; intros parts next Hn.
  - exists parts, next. split_and!; [done| |by intros ? ?%elem_of_nil]. unfold reached. destruct (Z.eq_dec next 0); [by left|right; lia].
  - pose proof (Hn name ltac:(left)) as H0. destruct (Get registry name) as [n|] eqn:Eg; [|done]. destruct (Get_in _ _ _ Eg) as [Hin _].
    destruct (eraStep_reached registry name n at_ parts next Eg (Hreg n Hin) Ha) as (p1 & n1 & E1 & R1 & A1). cbn [foldl]. rewrite E1.
    destruct (IH p1 n1) as (p2 & n2 & E2 & R2 & A2); [intros x Hx; apply Hn; by right|]. exists p2, n2. split_and!; [done|by eapply reached_trans|].
    intros x [->|Hx]%elem_of_cons; [by eapply reachedAll_trans|by apply A2].
Qed.

(** ** Records that announce the forks in force *)

(** An identity announces what is in force at an instant. *)
Definition announces (registry : list Network) (t : Time) (x : identitySpec * LocalNode) : Prop :=
  if (is_Layer x.1 =? layerEL)%string
  then exists n, Get registry (is_Network x.1) = Ok n /\ ln_eth x.2 = Some (fst (CurrentForkIDAt n t))
  else exists s, CLForkStateAt registry (is_Network x.1) t = Ok s /\ ln_eth2 x.2 = Some (ENRForkID s) /\ ln_nfd x.2 = Some (NextDigest s).

Definition specRegistered (registry : list Network) (x : identitySpec * LocalNode) : Prop := is_ok (Get registry (is_Network x.1)) = true.

Lemma sameForks_registered r r' x : sameForks r r' -> specRegistered r x -> specRegistered r' x.
Proof. unfold specRegistered. intros Hs. destruct (Get r _) as [n|] eqn:E; [|done]. by destruct (sf_get _ _ Hs _ _ E) as (n' & -> & _). Qed.

Lemma era_value n t : era_ok n -> fst (CurrentForkIDAt n t) = currentForkIDAt n t.
Proof. intros (Hs & Hm & _). by destruct (CurrentForkIDAt_value n t Hs Hm) as [m ->]. Qed.

Lemma announces_same r r' t x : (forall n, n ∈ r -> era_ok n) -> sameForks r r' -> announces r t x -> announces r' t x.
Proof.
  intros Hr Hs. unfold announces. destruct (is_Layer x.1 =? layerEL)%string.
  - intros (n & Hg & ->). destruct (sf_get _ _ Hs _ _ Hg) as (n' & Hg' & _ & _ & _ & Hb). exists n'. split; [done|].
    destruct (Get_in _ _ _ Hg) as [Hin _]. destruct (Get_in _ _ _ Hg') as [Hin' _]. rewrite (era_value n), (era_value n') by (first [by apply Hr | by apply (sf_ok _ _ Hs)]). by rewrite Hb.
  - intros (s & Es & H). exists s. split; [|done]. rewrite <- Es. apply CLForkStateAt_same; [done|].
    unfold CLForkStateAt in Es. by destruct (Get r _).
Qed.

Lemma NextDigest_given c e s : computeStateAt c e = Ok s -> bytesEntry (NextDigest s) = Some (NextDigest s).
Proof.
  unfold computeStateAt. destruct (digestAt c e) as [[d v]|]; [|done]. cbn [rbind].
  assert (forall d' v' e', digestAt c e' = Ok (d', v') -> bytesEntry d' = Some d') as Hd.
  { intros d' v' e' H%digestAt_size. unfold bytesEntry. by destruct d'. }
  destruct (nextFork c e) as [f|]; destruct (nextBlob c e _) as [bp|]; destruct (_ =? max_uint64); try (by intros [= <-]);
    (destruct (digestAt c _) as [[nd nv]|] eqn:E; [|done]); cbn [rbind]; intros [= <-]; by apply (Hd nd nv _ E).
Qed.

Lemma ENRForkID_given s : bytesEntry (ENRForkID s) = Some (ENRForkID s).
Proof.
  unfold bytesEntry. destruct (String.eqb_spec (ENRForkID s) "") as [E|]; [|done]. exfalso. apply (f_equal String.length) in E.
  unfold ENRForkID in E. rewrite !length_sapp, length_le_put in E. cbn in E. lia.
Qed.

Lemma refreshOne_ok at_ registry x : (forall n, n ∈ registry -> era_ok n) -> instant_ok at_ = true -> specRegistered registry x ->
  exists registry' n, refreshOne at_ registry x = Ok (registry', n) /\ sameForks registry registry' /\ announces registry' at_ (x.1, n).
Proof.
  intros Hreg Ha Hx. destruct x as [spec n0]. unfold specRegistered in Hx. cbn [fst] in Hx. unfold refreshOne, announces. cbn [fst snd].
  destruct (Get registry (is_Network spec)) as [n|] eqn:Eg; [|done]. destruct (Get_in _ _ _ Eg) as [Hin Hname]. pose proof (Hreg n Hin) as Ho.
  destruct (is_Layer spec =? layerEL)%string.
  - destruct (refreshed_network n at_ Ho) as (Hid & Ho' & Hn & Hc & Hk & He & Hb).
    destruct (CurrentForkIDAt (RefreshClassifyWindowAt n at_) at_) as [id n'] eqn:E. cbn [fst snd] in *.
    exists (put registry n'), (SetELForkID id n0). split; [done|]. split; [by eapply sameForks_put|]. exists n'. split.
    + rewrite Get_put, Eg, Hn, Hname. by rewrite String.eqb_refl.
    + cbn. by rewrite era_value, Hid, Hb by done.
  - destruct (CLForkStateAt_total registry (is_Network spec) n at_ Eg Ho Ha) as (cl & s & _ & Ec & Es). rewrite Es.
    exists registry, (SetCLForkState (ENRForkID s) (NextDigest s) n0). split; [done|]. split; [by apply sameForks_refl|]. exists s. split; [done|]. cbn.
    by rewrite ENRForkID_given, (NextDigest_given cl _ s Ec).
Qed.

Lemma refreshAt_ok at_ registry ids : (forall n, n ∈ registry -> era_ok n) -> instant_ok at_ = true -> Forall (specRegistered registry) ids ->
  exists registry' ids', runtime_refreshAt at_ registry ids = Ok (registry', ids') /\ sameForks registry registry' /\ map fst ids' = map fst ids /\
    Forall (announces registry' at_) ids'.
Proof.
  intros Hreg Ha. revert registry Hreg. induction ids as [|x ids IH]; intros registry Hreg Hids.
  - exists registry, []. split_and!; [done|by apply sameForks_refl|done|constructor].
  - apply Forall_cons in Hids as [Hx Hids]. destruct (refreshOne_ok at_ registry x Hreg Ha Hx) as (r1 & n & E1 & S1 & A1). cbn [runtime_refreshAt]. rewrite E1. cbn [rbind].
    destruct (IH r1) as (r2 & ids' & E2 & S2 & M2 & A2); [apply S1|eapply Forall_impl; [exact Hids|intros y; by apply sameForks_registered]|].
    rewrite E2. cbn [rbind]. exists r2, ((x.1, n) :: ids'). split_and!; [done|by eapply sameForks_trans|cbn [map]; by rewrite M2|].
    constructor; [|done]. eapply announces_same; [apply S1|done|done].
Qed.

(** What is announced at an instant stays true until a transition. *)
Lemma announces_until registry at_ b next x : (forall n, n ∈ registry -> era_ok n) -> instant_ok at_ = true -> instant_ok b = true -> at_ <= b ->
  reachedAll registry at_ next (is_Network x.1) -> next = 0 \/ b < next -> announces registry at_ x -> announces registry b x.
Proof.
  intros Hreg Ha Hb Hab (n & s & Hg & Es & Hr & Hf) Hn. destruct (Get_in _ _ _ Hg) as [Hin _]. pose proof (Hreg n Hin) as Ho.
  assert (forall t, reached next t -> t = 0 \/ b < t) as Hlater by (intros t [?|[? ?]]; lia). unfold announces. destruct (is_Layer x.1 =? layerEL)%string.
  - intros (n' & Hg' & ->). rewrite Hg in Hg'. injection Hg' as <-. exists n. split; [done|]. rewrite !era_value by done. f_equal.
    destruct Ho as (Hs & _ & Hi & _). apply el_until_transition; try done. intros f Hin' Haf. destruct (Hlater _ (Hf f Hin' Haf)) as [H0|]; [|done].
    unfold After in Haf. boolify. destruct (instant_seconds _ Ha). lia.
  - intros (s' & Es' & H). rewrite Es in Es'. injection Es' as <-. exists s. split; [|done].
    pose proof Ho as (_ & _ & _ & cl & Hcl & Hwf & Hcov & Hck & Hst & Hk). rewrite (CLForkStateAt_value _ _ n cl) in Es |- * by done.
    destruct (instant_seconds _ Ha) as [_ Hra], (instant_seconds _ Hb) as [_ Hrb]. rewrite <- Es. apply state_stable; [done|].
    eapply epoch_before_transition; eauto.
Qed.

Lemma refreshNetworks_in ids x : x ∈ ids -> is_Network x.1 ∈ refreshNetworks ids.
Proof.
  unfold refreshNetworks. set (f := fun (out : list string) (x : identitySpec * LocalNode) => _).
  assert (forall out y, is_Network y.1 ∈ f out y) as Hadd.
  { intros out y. unfold f. destruct (contains_func _ out) eqn:E; [|apply elem_of_app; right; by left].
    unfold contains_func in E. apply existsb_elem in E as (z & Hz & E). apply String.eqb_eq in E. by rewrite E. }
  assert (forall out y z, z ∈ out -> z ∈ f out y) as Hkeep.
  { intros out y z Hz. unfold f. case_match; [done|]. apply elem_of_app. by left. }
  assert (forall l out z, z ∈ out -> z ∈ foldl f out l) as Hmono.
  { induction l as [|y l IH]; intros out z Hz; [done|]. apply IH. by apply Hkeep. }
  generalize (@nil string). induction ids as [|y ids IH]; intros out Hx; [by apply elem_of_nil in Hx|]. cbn [foldl].
  apply elem_of_cons in Hx as [->|Hx]; [apply Hmono, Hadd|by apply IH].
Qed.

Lemma refreshNetworks_from ids name : name ∈ refreshNetworks ids -> exists x, x ∈ ids /\ is_Network x.1 = name.
Proof.
  unfold refreshNetworks. set (f := fun (out : list string) (x : identitySpec * LocalNode) => _).
  assert (forall l out, name ∈ foldl f out l -> name ∈ out \/ exists x, x ∈ l /\ is_Network x.1 = name) as H.
  { induction l as [|y l IH]; intros out Hn; [by left|]. cbn [foldl] in Hn. destruct (IH _ Hn) as [Ho|(x & Hx & E)]; [|right; exists x; split; [by right|done]].
    unfold f in Ho. destruct (contains_func _ out); [by left|]. apply elem_of_app in Ho as [Ho|Ho]; [by left|]. apply list_elem_of_singleton in Ho as ->. right. exists y. split; [left|done]. }
  intros Hn. destruct (H ids [] Hn) as [Hn'|]; [by apply elem_of_nil in Hn'|done].
Qed.

Lemma Sub_below a b d : Sub a b < d -> d <= maxDuration -> minRefresh < Sub a b -> Sub a b = a - b.
Proof. unfold Sub, minRefresh, minDuration, maxDuration, min_int64, max_int64. intros. lia. Qed.

(** Up to the time for the next refresh no network reaches a transition, unless the
    shortest delay was taken. *)
Lemma nextDelay_spec registry networks at_ now : (forall n, n ∈ registry -> era_ok n) -> instant_ok at_ = true -> networks <> [] ->
  (forall name, name ∈ networks -> is_ok (Get registry name) = true) ->
  let delay := nextDelay registry networks at_ now in
  minRefresh < delay -> exists next, (next = 0 \/ now + delay <= next) /\ forall name, name ∈ networks -> reachedAll registry at_ next name.
Proof.
  intros Hreg Ha Hne Hn. cbv zeta. unfold nextDelay, ForkEraTokenAt.
  assert (match networks with [] => Names registry | _ => networks end = networks) as -> by by destruct networks.
  destruct (eraSteps_reached registry at_ (isort String.leb networks) [] zeroTime Hreg Ha) as (parts & next & E & _ & H).
  { intros name Hx. apply Hn. by apply elem_of_isort in Hx. }
  rewrite E. cbn [rbind]. intros Hd. exists next. split; [|intros name Hx; apply H; by apply elem_of_isort].
  unfold IsZero in *. destruct (Z.eqb_spec next 0) as [|Hz]; [by left|]. right. cbv zeta in *.
  destruct (Z.ltb_spec (Sub next now) Hour) as [Hs|Hs].
  - destruct (Z.ltb_spec (Sub next now) minRefresh); [lia|]. rewrite (Sub_below next now Hour); [lia|done|done|lia].
  - change (Hour <? minRefresh) with false in *. cbv iota in *. unfold Sub, minDuration, maxDuration, min_int64, max_int64, Hour, Minute, Second in *. lia.
Qed.

Lemma nextDelay_range registry networks at_ now : minRefresh <= nextDelay registry networks at_ now <= Hour.
Proof.
  unfold nextDelay. cbv zeta. set (d := match ForkEraTokenAt _ _ _ with Ok _ => _ | Err _ => _ end).
  assert (d <= Hour) as Hd by (subst d; repeat case_match; try done; boolify; lia).
  assert (minRefresh <= Hour) as Hm by done. destruct (Z.ltb_spec d minRefresh); lia.
Qed.

(** C10.  The advertised records follow the forks.  Whatever the identities announced before,
    a refresh ends, keeps every identity, and writes into each record the fork identifier,
    or the consensus fork entries, of that instant; the next one is due within an hour and
    not sooner than ten milliseconds; and unless that shortest wait was chosen, because a
    transition is about to happen, every record announces what is in force at each instant
    until then.  The registry it leaves is fit for the next refresh. *)
Theorem advertised_current registry ids at_ now :
  (forall n, n ∈ registry -> era_ok n) -> Forall (specRegistered registry) ids -> instant_ok at_ = true ->
  exists registry' ids',
    runtime_refreshAt at_ registry ids = Ok (registry', ids') /\ map fst ids' = map fst ids /\
    (forall n, n ∈ registry' -> era_ok n) /\ Forall (specRegistered registry') ids' /\ Forall (announces registry' at_) ids' /\
    let delay := nextDelay registry' (refreshNetworks ids) at_ now in
    10 * 1000000 <= delay <= Hour /\
    (10 * 1000000 < delay -> forall b, at_ <= b < now + delay -> instant_ok b = true -> Forall (announces registry' b) ids').
Proof.
  intros Hreg Hids Ha. destruct (refreshAt_ok at_ registry ids Hreg Ha Hids) as (r & ids' & E & S & M & A). exists r, ids'.
  assert (forall x, x ∈ ids' -> exists y, y ∈ ids /\ x.1 = y.1) as Hback.
  { intros x Hx. assert (x.1 ∈ map fst ids) as H by (rewrite <- M; by apply list_elem_of_fmap_2). apply list_elem_of_fmap in H as (y & Hy & Hin). by exists y. }
  assert (Forall (specRegistered r) ids') as Hr'.
  { apply Forall_forall. intros x Hx. destruct (Hback x Hx) as (y & Hy & Exy). rewrite Forall_forall in Hids. unfold specRegistered. rewrite Exy.
    exact (sameForks_registered registry r y S (Hids y Hy)). }
  pose proof (sf_ok _ _ S) as Hok. split_and!; try done. cbv zeta. split; [apply nextDelay_range|]. intros Hd b Hb Hbi.
  destruct ids as [|x0 ids0]; [by destruct ids'|].
  destruct (nextDelay_spec r (refreshNetworks (x0 :: ids0)) at_ now Hok Ha) as (next & Hn & Hall); [| |exact Hd|].
  { intros H0. pose proof (refreshNetworks_in (x0 :: ids0) x0 ltac:(left)) as H1. rewrite H0 in H1. by apply elem_of_nil in H1. }
  { intros name (x & Hx & <-)%refreshNetworks_from. rewrite Forall_forall in Hids. exact (sameForks_registered registry r x S (Hids x Hx)). }
  rewrite Forall_forall in A |- *. intros x Hx. destruct (Hback x Hx) as (y & Hy & Exy). apply (announces_until r at_ b next); try done; [lia| |lia|by apply A].
  rewrite Exy. by apply Hall, refreshNetworks_in.
Qed.

(** ** Names of keys *)

(** The two layers and the number of an identity. *)
Definition specOk (s : identitySpec) : Prop := (is_Layer s = layerEL \/ is_Layer s = layerCL) /\ 0 <= is_Index s.

Lemma digits_avoid c s : is_digit c = false -> sforall is_digit s = true -> avoids c s = true.
Proof. intros Hc. apply sforall_impl. intros x Hx. apply negb_true_iff. destruct (Ascii.eqb_spec x c) as [->|]; [by rewrite Hx in Hc|done]. Qed.

Lemma identityKeyName_inj s t : specOk s -> specOk t -> identityKeyName s = identityKeyName t ->
  is_Network s = is_Network t /\ is_Layer s = is_Layer t /\ is_Index s = is_Index t.
Proof.
  intros [Ls Is] [Lt It] E. unfold identityKeyName in E. cbv zeta in E. apply sapp_inj_r in E.
  assert (forall L, L = layerEL \/ L = layerCL -> avoids "-" L = true /\ sforall is_digit L = false) as HL by (intros L [-> | ->]; by vm_compute).
  assert (forall i, 0 <= i -> sforall is_digit (pretty (i + 1)) = true /\ avoids "-" (pretty (i + 1)) = true /\ digits_value (pretty (i + 1)) = i + 1) as HI.
  { intros i Hi. destruct (pretty_numeral (i + 1) ltac:(lia)) as (H1 & _ & H2). split_and!; [done|by apply digits_avoid|done]. }
  destruct (HL _ Ls) as [As Ds], (HL _ Lt) as [At Dt], (HI _ Is) as (Ps & Qs & Vs), (HI _ It) as (Pt & Qt & Vt).
  change ("-" +:+ is_Layer s) with (String "-" (is_Layer s)) in E. change ("-" +:+ is_Layer t) with (String "-" (is_Layer t)) in E.
  change ("-" +:+ pretty (is_Index s + 1)) with (String "-" (pretty (is_Index s + 1))) in E.
  change ("-" +:+ pretty (is_Index t + 1)) with (String "-" (pretty (is_Index t + 1))) in E.
  destruct (Z.ltb_spec 0 (is_Index s)), (Z.ltb_spec 0 (is_Index t)).
  - apply cut_last in E as [E Ei]; [|done..]. apply cut_last in E as [En El]; [|done..]. split_and!; [done|done|]. rewrite Ei in Vs. lia.
  - apply cut_last in E as [_ Ei]; [|done..]. by rewrite <- Ei, Ps in Dt.
  - apply cut_last in E as [_ Ei]; [|done..]. by rewrite Ei, Pt in Ds.
  - apply cut_last in E as [En El]; [|done..]. split_and!; [done|done|lia].
Qed.

Lemma walkerName_key s : walkerName s +:+ ".key" = identityKeyName s.
Proof. unfold walkerName, identityKeyName. cbv zeta. by rewrite TrimSuffix_app. Qed.

Lemma advertiserLoop_nodup seen parts out : NoDup seen -> advertiserLoop seen parts = Ok out -> NoDup out.
Proof.
  revert seen. induction parts as [|p parts IH]; intros seen Hs; cbn [advertiserLoop]; [by intros [= <-]|].
  destruct (TrimSpace p =? "")%string; [done|]. destruct (contains_func _ seen) eqn:E; [done|]. apply IH. apply NoDup_app. split_and!; [done| |apply NoDup_singleton].
  intros x Hx ->%list_elem_of_singleton. assert (contains_func (String.eqb (TrimSpace p)) seen = true) as H; [|by rewrite H in E].
  apply contains_func_true. exists (TrimSpace p). by rewrite String.eqb_refl.
Qed.

(** ** Ports *)

(** The sockets an identity binds: discovery and QUIC over UDP, and TCP. *)
Definition udpPorts (s : identitySpec) : list Z := is_DiscoveryPort s :: (if 0 <? is_QUICPort s then [is_QUICPort s] else []).
Definition tcpPorts (s : identitySpec) : list Z := if 0 <? is_TCPPort s then [is_TCPPort s] else [].

Lemma elem_of_specLoop networks port els walkers transports s : s ∈ specLoop networks port els walkers transports ->
  exists i network, networks !! i = Some network /\
    let p := port + Z.of_nat i * (els + 2) in
    (exists index, 0 <= index < els /\ s = elSpec network walkers transports p index) \/ s = clSpec network transports (p + els).
Proof.
  revert port. induction networks as [|n networks IH]; intros port; cbn [specLoop]; [by intros ?%elem_of_nil|].
  rewrite elem_of_app, elem_of_cons. intros [Hs|[->|Hs]].
  - apply list_elem_of_fmap in Hs as (index & -> & Hi). apply elem_of_seqZ in Hi. exists 0%nat, n. split; [done|]. left. exists index.
    split; [lia|]. by rewrite Z.mul_0_l, Z.add_0_r.
  - exists 0%nat, n. split; [done|]. right. by rewrite Z.mul_0_l, Z.add_0_r.
  - destruct (IH _ Hs) as (i & network & Hi & H). exists (S i), network. split; [done|]. cbv zeta in *.
    replace (port + Z.of_nat (S i) * (els + 2)) with (port + els + 2 + Z.of_nat i * (els + 2)) by lia. done.
Qed.

Lemma concat_singles {A B} (f : A -> B) l : concat (map (fun x => [f x]) l) = map f l.
Proof. induction l as [|x l IH]; [done|]. cbn. by rewrite IH. Qed.

Lemma el_ports network walkers transports port els : 0 < port ->
  concat (map udpPorts (map (elSpec network walkers transports port) (seqZ 0 els))) = map (Z.add port) (seqZ 0 els) /\
  concat (map tcpPorts (map (elSpec network walkers transports port) (seqZ 0 els))) = if transports then map (Z.add port) (seqZ 0 els) else [].
Proof.
  intros Hp. rewrite !map_map. split.
  - etransitivity; [|apply concat_singles]. reflexivity.
  - assert (forall i, i ∈ seqZ 0 els -> 0 < port + i) as H by (intros i Hi%elem_of_seqZ; lia). induction (seqZ 0 els) as [|i l IH]; cbn [map concat]; [by destruct transports|].
    rewrite IH by (intros j Hj; apply H; by right). specialize (H i ltac:(left)). unfold tcpPorts, elSpec. cbn [is_TCPPort].
    destruct transports; [|done]. by destruct (Z.ltb_spec 0 (port + i)); [|lia].
Qed.

Lemma shifted_ports port els : NoDup (map (Z.add port) (seqZ 0 els)) /\ forall p, p ∈ map (Z.add port) (seqZ 0 els) <-> port <= p < port + els.
Proof.
  split.
  - apply NoDup_fmap_2; [intros a b; lia|]. apply NoDup_seqZ.
  - intros p. split.
    + intros (i & -> & Hi%elem_of_seqZ)%list_elem_of_fmap. lia.
    + intros Hp. apply list_elem_of_fmap. exists (p - port). split; [lia|]. apply elem_of_seqZ. lia.
Qed.

(** Three blocks of ports, one above the other. *)
Lemma blocks_nodup a b first l rest : a <= b -> NoDup first -> (forall q, q ∈ first -> q < a) -> NoDup l -> (forall q, q ∈ l -> a <= q < b) ->
  NoDup rest -> (forall q, q ∈ rest -> b <= q) -> NoDup (first ++ l ++ rest).
Proof.
  intros Hab Nf Hf Nl Hl Nr Hr. apply NoDup_app. split_and!; [done| |apply NoDup_app; split_and!; [done| |done]].
  - intros q Hq Hin. specialize (Hf _ Hq). apply elem_of_app in Hin as [Hin|Hin]; [specialize (Hl _ Hin)|specialize (Hr _ Hin)]; lia.
  - intros q Hq Hin. specialize (Hl _ Hq). specialize (Hr _ Hin). lia.
Qed.

Lemma cl_ports network transports port : 0 < port ->
  let u := udpPorts (clSpec network transports port) in let t := tcpPorts (clSpec network transports port) in
  (NoDup u /\ forall q, q ∈ u -> port <= q < port + 2) /\ (NoDup t /\ forall q, q ∈ t -> port <= q < port + 2).
Proof.
  intros Hp. cbv zeta. unfold udpPorts, tcpPorts, clSpec. cbn. destruct transports; cbn.
  - destruct (Z.ltb_spec 0 (port + 1)); [|lia]. split; (split; [repeat constructor; set_unfold; lia|]); intros q Hq; set_unfold in Hq; lia.
  - split; (split; [repeat constructor; set_solver|]); intros q Hq; set_unfold in Hq; lia.
Qed.

Lemma specLoop_ports networks port els walkers transports : 0 < port -> 0 <= els ->
  let specs := specLoop networks port els walkers transports in
  let last := port + Z.of_nat (length networks) * (els + 2) in
  (NoDup (concat (map udpPorts specs)) /\ forall p, p ∈ concat (map udpPorts specs) -> port <= p < last) /\
  (NoDup (concat (map tcpPorts specs)) /\ forall p, p ∈ concat (map tcpPorts specs) -> port <= p < last).
Proof.
  intros Hp He. cbv zeta. revert port Hp. induction networks as [|n networks IH]; intros port Hp; cbn [specLoop map concat length].
  { split; (split; [constructor|by intros p ?%elem_of_nil]). }
  destruct (IH (port + els + 2) ltac:(lia)) as [[U1 U2] [T1 T2]]. destruct (el_ports n walkers transports port els Hp) as [Eu Et].
  destruct (cl_ports n transports (port + els) ltac:(lia)) as [[V1 V2] [W1 W2]].
  destruct (shifted_ports port els) as [S1 S2]. rewrite !map_app, !concat_app, Eu, Et. cbn [map concat].
  assert (0 <= Z.of_nat (length networks) * (els + 2)) as Hlen by nia.
  assert (forall first l rest, NoDup first -> (forall q, q ∈ first -> port <= q < port + els) -> NoDup l -> (forall q, q ∈ l -> port + els <= q < port + els + 2) ->
    NoDup rest -> (forall q, q ∈ rest -> port + els + 2 <= q < port + els + 2 + Z.of_nat (length networks) * (els + 2)) ->
    NoDup (first ++ l ++ rest) /\ forall q, q ∈ first ++ l ++ rest -> port <= q < port + Z.of_nat (S (length networks)) * (els + 2)) as Hcat.
  { intros first l rest Nf Hf Nl Hl Nr Hr. split.
    - apply (blocks_nodup (port + els) (port + els + 2)); try done; [lia|intros q Hq; specialize (Hf q Hq); lia|intros q Hq; specialize (Hr q Hq); lia].
    - intros q. rewrite !elem_of_app. intros [Hq|[Hq|Hq]]; [specialize (Hf q Hq)|specialize (Hl q Hq)|specialize (Hr q Hq)]; lia. }
  split.
  - apply Hcat; try done. intros q. by rewrite S2.
  - apply Hcat; try done; destruct transports; try done; first [by intros q; rewrite S2 | by intros q ?%elem_of_nil | by constructor].
Qed.

(** ** Separate identities *)

Definition specKey (s : identitySpec) : string * string * Z := (is_Network s, is_Layer s, is_Index s).

Lemma specLoop_keys networks port els walkers transports : NoDup networks -> NoDup (map specKey (specLoop networks port els walkers transports)).
Proof.
  intros Hn. revert port. induction Hn as [|n networks Hnot Hn IH]; intros port; cbn [specLoop map]; [constructor|].
  rewrite map_app, map_map. cbn [map]. unfold specKey at 1 2. cbn.
  assert (forall s, s ∈ specLoop networks (port + els + 2) els walkers transports -> is_Network s <> n) as Hrest.
  { intros s Hs <-. destruct (elem_of_specLoop _ _ _ _ _ _ Hs) as (i & network & Hi & H). apply Hnot. apply list_elem_of_lookup. exists i.
    by destruct H as [(index & _ & ->)| ->]. }
  apply NoDup_app. split_and!.
  - apply NoDup_fmap_2; [by intros a b [= ->]|apply NoDup_seqZ].
  - intros k (i & -> & Hi)%list_elem_of_fmap. rewrite elem_of_cons. intros [[=]|Hk]. apply list_elem_of_fmap in Hk as (s & Ek & Hs).
    apply (Hrest s Hs). by injection Ek.
  - constructor; [|apply IH]. intros Hk. apply list_elem_of_fmap in Hk as (s & Ek & Hs). apply (Hrest s Hs). by injection Ek.
Qed.

Lemma NoDup_map_via {A B C} (f : A -> B) (g : A -> C) l : (forall x y, x ∈ l -> y ∈ l -> f x = f y -> g x = g y) -> NoDup (map g l) -> NoDup (map f l).
Proof.
  induction l as [|x l IH]; intros Hfg Hg; cbn [map] in *; [constructor|]. apply NoDup_cons in Hg as [Hx Hg]. apply NoDup_cons. split.
  - intros (y & E & Hy)%list_elem_of_fmap. apply Hx. apply list_elem_of_fmap. exists y. split; [|done]. apply Hfg; [left|by right|done].
  - apply IH; [|done]. intros a b Ha Hb. apply Hfg; by right.
Qed.

(** What a specification of the loop can be. *)
Lemma specLoop_ok networks port els walkers transports s : 0 < port -> 0 <= els -> s ∈ specLoop networks port els walkers transports ->
  specOk s /\ is_Network s ∈ networks /\ 0 <= is_TCPPort s /\ 0 <= is_QUICPort s.
Proof.
  intros Hp He Hs. destruct (elem_of_specLoop _ _ _ _ _ _ Hs) as (i & network & Hi & H). cbv zeta in H.
  assert (0 <= Z.of_nat i * (els + 2)) as Hi2 by nia.
  assert (network ∈ networks) as Hin by (apply list_elem_of_lookup; by exists i).
  destruct H as [(index & Hx & ->)| ->]; unfold specOk, elSpec, clSpec; cbn; destruct transports; split_and!; try done; try lia; (left + right); done.
Qed.

Lemma identitySpecs_inv networks base els walkers transports specs :
  Z.of_nat (length networks) <= 2 ^ 24 -> els <= 2 ^ 24 -> base <= 2 ^ 24 ->
  identitySpecs networks base els walkers transports = Ok specs ->
  specs = specLoop networks base els walkers transports /\ 1 <= base /\ 1 <= els /\ base + Z.of_nat (length networks) * (els + 2) <= 65536 /\ networks <> [].
Proof.
  intros Hl He Hb. unfold identitySpecs. cbv zeta.
  destruct (Z.ltb_spec base 1); [done|]. destruct (Z.eqb_spec (Z.of_nat (length networks)) 0) as [|Hn]; [done|]. destruct (Z.ltb_spec els 1); [done|].
  assert (0 <= Z.of_nat (length networks) * (els + 2) <= 2 ^ 24 * (2 ^ 24 + 2)) as Hm by nia.
  rewrite (wrapI64_id (els + 2)) by (unfold min_int64, max_int64; lia).
  rewrite (wrapI64_id (Z.of_nat _ * _)) by (unfold min_int64, max_int64; lia). rewrite wrapI64_id by (unfold min_int64, max_int64; lia).
  cbn [orb]. destruct (Z.ltb_spec 65535 (base + Z.of_nat (length networks) * (els + 2) - 1)); [done|]. intros [= <-]. split_and!; try done; try lia. by intros ->.
Qed.

(** Every network has an execution identity that walks both protocols and a consensus
    identity that walks discv5. *)
Lemma specLoop_walkers networks port els walkers transports network : 1 <= els -> 0 <= walkers -> network ∈ networks ->
  let specs := specLoop networks port els walkers transports in
  (exists s, s ∈ specs /\ is_Network s = network /\ is_Layer s = layerEL /\ walkSource s "v4" = true /\ walkSource s "v5" = true) /\
  (exists s, s ∈ specs /\ is_Network s = network /\ is_Layer s = layerCL /\ walkSource s "v4" = false /\ walkSource s "v5" = true).
Proof.
  intros He Hw. cbv zeta. revert port. induction networks as [|n networks IH]; intros port Hn; [by apply elem_of_nil in Hn|].
  cbn [specLoop]. apply elem_of_cons in Hn as [->|Hn].
  - assert (is_Walker (elSpec n walkers transports port 0) = true) as Hwalk.
    { cbn. destruct (Z.eqb_spec walkers 0); [done|]. by destruct (Z.ltb_spec 0 walkers); [|lia]. }
    split.
    + exists (elSpec n walkers transports port 0). unfold walkSource. rewrite Hwalk. split_and!; try done.
      apply elem_of_app. left. apply list_elem_of_fmap. exists 0. split; [done|]. apply elem_of_seqZ. lia.
    + exists (clSpec n transports (port + els)). split_and!; try done. apply elem_of_app. right. left.
  - destruct (IH (port + els + 2) Hn) as [(s & Hs & H1) (t & Ht & H2)]. split; [exists s|exists t]; (split; [|done]); apply elem_of_app; right; by right.
Qed.

Lemma elem_of_udpPorts s specs p : s ∈ specs -> p ∈ udpPorts s -> p ∈ concat (map udpPorts specs).
Proof. intros Hs Hp. apply elem_of_concat. exists (udpPorts s). split; [by apply list_elem_of_fmap_2|done]. Qed.
Lemma elem_of_tcpPorts s specs p : s ∈ specs -> p ∈ tcpPorts s -> p ∈ concat (map tcpPorts specs).
Proof. intros Hs Hp. apply elem_of_concat. exists (tcpPorts s). split; [by apply list_elem_of_fmap_2|done]. Qed.

Lemma specLoop_in_range networks port els walkers transports s : 0 < port -> 0 <= els -> port + Z.of_nat (length networks) * (els + 2) <= 65536 ->
  s ∈ specLoop networks port els walkers transports ->
  1 <= is_DiscoveryPort s <= 65535 /\ 0 <= is_TCPPort s <= 65535 /\ 0 <= is_QUICPort s <= 65535.
Proof.
  intros Hp He Hl Hs. destruct (specLoop_ports networks port els walkers transports Hp He) as [[_ U] [_ T]].
  destruct (specLoop_ok networks port els walkers transports s Hp He Hs) as (_ & _ & Ht & Hq).
  pose proof (U _ (elem_of_udpPorts s _ (is_DiscoveryPort s) Hs ltac:(left))) as Hd. split_and!; try lia.
  - destruct (Z.ltb_spec 0 (is_TCPPort s)) as [H0|]; [|lia]. assert (is_TCPPort s ∈ tcpPorts s) as H; [|pose proof (T _ (elem_of_tcpPorts s _ _ Hs H)); lia].
    unfold tcpPorts. destruct (Z.ltb_spec 0 (is_TCPPort s)); [left|lia].
  - destruct (Z.ltb_spec 0 (is_QUICPort s)) as [H0|]; [|lia]. assert (is_QUICPort s ∈ udpPorts s) as H; [|pose proof (U _ (elem_of_udpPorts s _ _ Hs H)); lia].
    unfold udpPorts. right. destruct (Z.ltb_spec 0 (is_QUICPort s)); [left|lia].
Qed.

(** Discovery accepts the configuration of an identity whose ports are ports. *)
Lemma validateConfig_identity `{EnodeCodec} `{SeedEntries} registry families statics now s cfg :
  identityConfig registry families statics now s = Ok cfg ->
  1 <= is_DiscoveryPort s <= 65535 -> 0 <= is_TCPPort s <= 65535 -> 0 <= is_QUICPort s <= 65535 ->
  familiesError [] families = None -> existsb badStatic statics = false -> validateConfig cfg = Ok tt.
Proof.
  intros Hc Hd Ht Hq Hf Hs.
  assert (exists nw e n a y c (only : bool), cfg = MkDiscoveryConfig nw families (is_DiscoveryPort s) (is_DiscoveryPort s) e n a y c (is_TCPPort s) (is_QUICPort s) statics only /\
    (only = false -> nw <> None)) as (nw & e & n & a & y & c & only & -> & Hnw).
  { unfold identityConfig in Hc. destruct (is_Layer s =? layerEL)%string.
    - apply rbind_ok in Hc as (seeds & Hb & [= <-]). do 7 eexists. split; [reflexivity|]. intros _. unfold Bootnodes in Hb. by destruct (Get registry _).
    - apply rbind_ok in Hc as (seeds & _ & Hc). destruct (clIdentityFromSeeds seeds) as [cl|]; [|done].
      apply rbind_ok in Hc as (st & _ & [= <-]). do 7 eexists. split; [reflexivity|done]. }
  assert (negb only && match nw with None => true | Some _ => false end = false) as Hn by (destruct only; [done|]; destruct nw; [done|by destruct (Hnw eq_refl)]).
  unfold validateConfig, badPort. cbn [dc_CLOnly dc_Network dc_PortV4 dc_PortV5 dc_TCP dc_QUIC dc_Families dc_StaticIPs]. rewrite Hn, Hf, Hs, Z.eqb_refl.
  repeat match goal with |- context [?a <? ?b] => replace (a <? b) with false by (symmetry; apply Z.ltb_ge; lia) end. done.
Qed.

(** C22.  Identities do not get in each other's way.  Whatever list of networks an operator
    writes, if the identities fit, each network has a walker on either layer and no two
    identities share a UDP port, a TCP port, the file of their key or the name their
    sightings are counted under; every port is one, and the configuration built from an
    identity passes the checks of discovery, so that none fails to start for its ports. *)
Theorem identities_separate `{EnodeCodec} `{SeedEntries} raw networks base els walkers transports specs :
  parseAdvertiserNetworks raw false = Ok networks -> Z.of_nat (length networks) <= 2 ^ 24 -> els <= 2 ^ 24 -> base <= 2 ^ 24 -> 0 <= walkers ->
  identitySpecs networks base els walkers transports = Ok specs ->
  NoDup (concat (map udpPorts specs)) /\ NoDup (concat (map tcpPorts specs)) /\
  NoDup (map identityKeyName specs) /\ NoDup (map walkerName specs) /\
  (forall p, p ∈ concat (map udpPorts specs) \/ p ∈ concat (map tcpPorts specs) -> base <= p <= 65535) /\
  (forall network, network ∈ networks ->
     (exists s, s ∈ specs /\ is_Network s = network /\ is_Layer s = layerEL /\ walkSource s "v4" = true /\ walkSource s "v5" = true) /\
     (exists s, s ∈ specs /\ is_Network s = network /\ is_Layer s = layerCL /\ walkSource s "v4" = false /\ walkSource s "v5" = true)) /\
  (forall s registry families statics now cfg, s ∈ specs -> identityConfig registry families statics now s = Ok cfg ->
     familiesError [] families = None -> existsb badStatic statics = false -> is_Network s ∈ networks /\ validateConfig cfg = Ok tt).
Proof.
  intros Hraw Hl He Hb Hw Hspecs. destruct (identitySpecs_inv _ _ _ _ _ _ Hl He Hb Hspecs) as (-> & Hb1 & He1 & Hlast & Hne).
  assert (NoDup networks) as Hnd.
  { unfold parseAdvertiserNetworks in Hraw. destruct (TrimSpace raw =? "")%string; [done|]. eapply advertiserLoop_nodup; [|exact Hraw]. constructor. }
  destruct (specLoop_ports networks base els walkers transports) as [[U1 U2] [T1 T2]]; [lia..|].
  assert (forall s, s ∈ specLoop networks base els walkers transports -> specOk s /\ is_Network s ∈ networks /\ 0 <= is_TCPPort s /\ 0 <= is_QUICPort s) as Hok
    by (intros s; apply specLoop_ok; lia).
  assert (forall s t, s ∈ specLoop networks base els walkers transports -> t ∈ specLoop networks base els walkers transports ->
    identityKeyName s = identityKeyName t -> specKey s = specKey t) as Hinj.
  { intros s t Hs Ht E. destruct (identityKeyName_inj s t) as (E1 & E2 & E3); [by apply Hok..|done|]. unfold specKey. by rewrite E1, E2, E3. }
  pose proof (specLoop_keys networks base els walkers transports Hnd) as Hkeys. split_and!; [done|done| | | | |].
  - by eapply NoDup_map_via.
  - eapply NoDup_map_via; [|exact Hkeys]. intros s t Hs Ht E. apply Hinj; [done|done|]. by rewrite <- !walkerName_key, E.
  - intros p [Hp|Hp]; [specialize (U2 p Hp)|specialize (T2 p Hp)]; lia.
  - intros network Hn. by apply specLoop_walkers.
  - intros s registry families statics now cfg Hs Hc Hf Hst. split; [by apply Hok|].
    destruct (specLoop_in_range networks base els walkers transports s) as (H1 & H2 & H3); [lia|lia|lia|done|by eapply validateConfig_identity].
Qed.

(** ** Resolution and rollback *)

Section ResolveProps.
Context `{DiscoveryNode} `{EnodeLib}.

(** An endpoint that speaks a protocol over a family the node has. *)
Definition usable (n : ENode) (proto : string) (e : discoveryEndpoint) : bool :=
  (ep_proto e =? proto)%string && contains_func (String.eqb (ep_family e)) (nodeFamilies n).

Lemma ResolveProtocol_spec endpoints n proto :
  match ResolveProtocol endpoints n proto with
  | Some (rn, via) => via = proto /\ exists e answer, e ∈ endpoints /\ usable n proto e = true /\
      ep_RequestENR e (familyNode n (ep_family e)) = Some answer /\ rn = (if en_Seq answer <? en_Seq n then n else answer)
  | None => forall e, e ∈ endpoints -> usable n proto e = true -> ep_RequestENR e (familyNode n (ep_family e)) = None
  end.
Proof using.
  induction endpoints as [|e endpoints IH]; cbn [ResolveProtocol]; [by intros e ?%elem_of_nil|].
  assert (negb (ep_proto e =? proto)%string || negb (contains_func (String.eqb (ep_family e)) (nodeFamilies n)) = negb (usable n proto e)) as ->
    by (unfold usable; by rewrite negb_andb).
  assert (forall r : option ENode, usable n proto e = false \/ ep_RequestENR e (familyNode n (ep_family e)) = None ->
    match ResolveProtocol endpoints n proto with
    | Some (rn, via) => via = proto /\ exists e' answer, e' ∈ e :: endpoints /\ usable n proto e' = true /\
        ep_RequestENR e' (familyNode n (ep_family e')) = Some answer /\ rn = (if en_Seq answer <? en_Seq n then n else answer)
    | None => forall e', e' ∈ e :: endpoints -> usable n proto e' = true -> ep_RequestENR e' (familyNode n (ep_family e')) = None
    end) as Hskip.
  { intros _ Hno. destruct (ResolveProtocol endpoints n proto) as [[rn via]|].
    - destruct IH as (Hv & e' & a & Hin & Hrest). split; [done|]. exists e', a. split; [by right|done].
    - intros e' [->|Hin]%elem_of_cons; [|by apply IH]. intros Hu. destruct Hno; congruence. }
  destruct (usable n proto e) eqn:Eu; cbn [negb]; [|by apply (Hskip None); left].
  destruct (ep_RequestENR e _) as [answer|] eqn:Ea; [|apply (Hskip None); by right]. split.
  - unfold usable in Eu. apply andb_true_iff in Eu as [Eu _]. by apply String.eqb_eq.
  - exists e, answer. split_and!; [left|done|done|done].
Qed.

(** A resolution never goes back to an older record, asks only over families the node
    has, prefers discv5, and fails only when nobody who could be asked answers. *)
Theorem ResolveENR_newest endpoints n :
  match ResolveENR endpoints n with
  | Some (rn, via) => en_Seq n <= en_Seq rn /\ exists e, e ∈ endpoints /\ usable n via e = true /\
      (rn = n \/ ep_RequestENR e (familyNode n (ep_family e)) = Some rn) /\
      (via = "v5" \/ via = "v4" /\ forall e', e' ∈ endpoints -> usable n "v5" e' = true -> ep_RequestENR e' (familyNode n (ep_family e')) = None)
  | None => forall e proto, e ∈ endpoints -> proto = "v5" \/ proto = "v4" -> usable n proto e = true -> ep_RequestENR e (familyNode n (ep_family e)) = None
  end.
Proof using.
  assert (forall answer rn, rn = (if en_Seq answer <? en_Seq n then n else answer) -> en_Seq n <= en_Seq rn /\ (rn = n \/ Some answer = Some rn)) as Hseq.
  { intros answer rn ->. destruct (Z.ltb_spec (en_Seq answer) (en_Seq n)); (split; [lia|]); [by left|by right]. }
  unfold ResolveENR. pose proof (ResolveProtocol_spec endpoints n "v5") as H5. pose proof (ResolveProtocol_spec endpoints n "v4") as H4.
  destruct (ResolveProtocol endpoints n "v5") as [[rn via]|].
  - destruct H5 as (-> & e & a & Hin & Hu & Ha & Hrn). destruct (Hseq _ _ Hrn) as [Hs Hor]. split; [done|]. exists e. rewrite Ha. split_and!; try done. by left.
  - destruct (ResolveProtocol endpoints n "v4") as [[rn via]|].
    + destruct H4 as (-> & e & a & Hin & Hu & Ha & Hrn). destruct (Hseq _ _ Hrn) as [Hs Hor]. split; [done|]. exists e. rewrite Ha. split_and!; try done. by right.
    + intros e proto Hin [->| ->]; [by apply H5|by apply H4].
Qed.
End ResolveProps.

Section StartProps.
Context (build : identitySpec -> list string * result LocalNode).

Lemma runtime_start_spec specs rt : rt_once rt = false -> rt_closed rt = [] ->
  let (rt', e) := runtime_start build specs rt in
  match e with
  | None => rt_closed rt' = [] /\ rt_once rt' = false /\ map fst (rt_identities rt') = map fst (rt_identities rt) ++ specs /\
      rt_closers rt' = rt_closers rt ++ concat (map (fun s => fst (build s)) specs)
  | Some _ => rt_cancelled rt' = true /\ rt_closed rt' = rev (rt_closers rt') /\ runtime_Close rt' = rt' /\
      exists tried failed, tried ++ [failed] `prefix_of` specs /\ rt_closers rt' = rt_closers rt ++ concat (map (fun s => fst (build s)) (tried ++ [failed]))
  end.
Proof using.
  revert rt. induction specs as [|s specs IH]; intros rt Ho Hc; cbn [runtime_start]; [by rewrite !app_nil_r|].
  destruct (build s) as [opened r] eqn:Eb. destruct r as [n|e].
  - specialize (IH (MkRuntime (rt_identities rt ++ [(s, n)]) (rt_closers rt ++ opened) (rt_cancelled rt) (rt_closed rt) (rt_once rt)) Ho Hc). cbn in IH |- *.
    destruct (runtime_start build specs _) as [rt' [e|]].
    + destruct IH as (H1 & H2 & H3 & tried & failed & Hp & E). split_and!; try done. exists (s :: tried), failed. split; [by apply prefix_cons|].
      rewrite E. cbn [app map concat]. by rewrite Eb, <- app_assoc.
    + destruct IH as (H1 & H2 & H3 & H4). split_and!; try done.
      * rewrite H3, map_app, <- app_assoc. done.
      * rewrite H4. cbn [map concat]. by rewrite Eb, <- app_assoc.
  - unfold runtime_Close. cbn. rewrite Ho. cbn. rewrite Hc. split_and!; try done. exists [], s. split; [by apply prefix_cons, prefix_nil|].
    cbn. by rewrite Eb, app_nil_r.
Qed.
End StartProps.

(** A start that fails closes everything any of its identities opened, newest first and
    once, the half-built identity included; one that succeeds has all identities and
    closes nothing. *)
Theorem start_rolls_back build specs :
  let (rt, e) := runtime_start build specs newRuntime in
  match e with
  | None => rt_closed rt = [] /\ map fst (rt_identities rt) = specs /\ rt_closed (runtime_Close rt) = rev (concat (map (fun s => fst (build s)) specs))
  | Some _ => rt_cancelled rt = true /\ runtime_Close rt = rt /\
      exists tried failed, tried ++ [failed] `prefix_of` specs /\ rt_closed rt = rev (concat (map (fun s => fst (build s)) (tried ++ [failed])))
  end.
Proof.
  pose proof (runtime_start_spec build specs newRuntime eq_refl eq_refl) as H. destruct (runtime_start build specs newRuntime) as [rt [e|]].
  - destruct H as (H1 & H2 & H3 & tried & failed & Hp & E). split_and!; try done. exists tried, failed. by rewrite H2, E.
  - destruct H as (H1 & H2 & H3 & H4). split_and!; try done. unfold runtime_Close. by rewrite H2, H1, H4.
Qed.

(** ** Examples *)

Definition demoSpecs : list identitySpec := specLoop ["mainnet"; "sepolia"] 30303 2 1 true.
Example demoSpecs_names : map identityKeyName demoSpecs =
  ["mainnet-el.key"; "mainnet-el-2.key"; "mainnet-cl.key"; "sepolia-el.key"; "sepolia-el-2.key"; "sepolia-cl.key"].
Proof. vm_compute. reflexivity. Qed.
Example demo_listen : clListenAddrs ["udp4"; "udp6"] 30306 30306 =
  ["/ip4/0.0.0.0/tcp/30306"; "/ip4/0.0.0.0/udp/30306/quic-v1"; "/ip6/::/tcp/30306"; "/ip6/::/udp/30306/quic-v1"].
Proof. vm_compute. reflexivity. Qed.

(** Two identities of the demonstration network that announce nothing yet. *)
Definition blankNode : LocalNode := MkLocalNode [] 30303 None None None None None None None None None None.
Definition demoIdentities : list (identitySpec * LocalNode) :=
  map (fun s => (s, blankNode)) (specLoop [nw_Name demoNetwork] 30303 1 1 true).

Lemma demo_identities : Forall (specRegistered [load demoNetwork]) demoIdentities.
Proof. repeat constructor. Qed.

Lemma advertised_current_witness : exists registry' ids',
  runtime_refreshAt (time_Unix 1765000000) [load demoNetwork] demoIdentities = Ok (registry', ids') /\
  length ids' = 2%nat /\ Forall (announces registry' (time_Unix 1765000000)) ids' /\ Forall (announces registry' (time_Unix 1765000060)) ids'.
Proof.
  assert (instant_ok (time_Unix 1765000000) = true) as Ha by (vm_compute; reflexivity).
  assert (match runtime_refreshAt (time_Unix 1765000000) [load demoNetwork] demoIdentities with
          | Ok (r, _) => 100 * Second <? nextDelay r (refreshNetworks demoIdentities) (time_Unix 1765000000) (time_Unix 1765000000)
          | Err _ => false end = true) as Hd by (vm_compute; reflexivity).
  destruct (advertised_current [load demoNetwork] demoIdentities (time_Unix 1765000000) (time_Unix 1765000000) demo_era_ok demo_identities Ha)
    as (r & ids & E & M & _ & _ & A & _ & H).
  rewrite E in Hd. apply Z.ltb_lt in Hd.
  exists r, ids. split; [exact E|]. split; [rewrite <- (length_map fst), M; reflexivity|]. split; [exact A|].
  apply H; [unfold Second in Hd; lia| |vm_compute; reflexivity].
  assert (time_Unix 1765000060 = time_Unix 1765000000 + 60 * Second) as -> by (vm_compute; reflexivity). unfold Second in *. lia.
Defined.

(** A record for every text, of a consensus node, and a seed for the demonstration network. *)
Definition seedNode : ENode :=
  MkENode "seed" 1 "enode://seed" "enr:seed" None None None None None None None None None None (Some "abcdefgh") None None.
Definition seedCodec : EnodeCodec := Build_EnodeCodec (fun _ => Some seedNode) (fun _ => None).
Definition noEntries : SeedEntries := Build_SeedEntries (fun _ => None) (fun _ => None).

(** The demonstration network with one seed. *)
Definition seededNetwork : Network :=
  MkNetwork "demo" 7 (nw_ChainConfig demoNetwork) (nw_genesis demoNetwork) (nw_cl demoNetwork) (nw_clCache demoNetwork)
    ["enr:seed"] ["enr:seed"] (nw_extraELForks demoNetwork) [] None [] [] [] false [] [] [] None zeroTime None.
Definition oneNetwork : list identitySpec := specLoop ["demo"] 30303 1 0 true.
Definition clConfig : DiscoveryConfig :=
  default (MkDiscoveryConfig None [] 0 0 "" "" "" "" "" 0 0 [] false)
    (match @identityConfig seedCodec noEntries [load seededNetwork] ["udp4"] [] (time_Unix 1765000000) (clSpec "demo" true 30304) with Ok c => Some c | Err _ => None end).

Lemma identities_separate_witness :
  NoDup (concat (map udpPorts oneNetwork)) /\ NoDup (map identityKeyName oneNetwork) /\
  validateConfig clConfig = Ok tt /\ dc_PortV5 clConfig = 30304 /\ dc_TCP clConfig = 30305.
Proof.
  destruct (@identities_separate seedCodec noEntries " demo " ["demo"] 30303 1 0 true oneNetwork) as (H1 & _ & H2 & _ & _ & _ & H3);
    [vm_compute; reflexivity|vm_compute; discriminate|lia|lia|lia|vm_compute; reflexivity|].
  split; [exact H1|]. split; [exact H2|]. split; [|vm_compute; split; reflexivity].
  apply (H3 (clSpec "demo" true 30304) [load seededNetwork] ["udp4"] [] (time_Unix 1765000000) clConfig); [right; left|vm_compute; reflexivity..].
Defined.
