(* ===== verification/History.v ===== *)
(** The readiness history: [internal/snapshot/readiness.go], the points of
    [cmd/crawler/readiness.go], and the thinning of [internal/query/readiness.go].

    A point counts the rows of a network per readiness; the crawler appends points
    to a rolling series, and the API serves a thinned copy.  The JSON text of the
    series is behind the class [HistoryCodec]; the objects of the store are its
    text under their keys. *)

From stdpp Require Import base gmap strings list numbers sorting.
From Stdlib Require Import ZArith Lia Ascii.
From S2P Require Import Prelude GoLib Counting Text Clientname Hashes Consensus ForkId Network Readiness NodeData.

Definition ReadinessHistoryVersion : Z := 1.
Definition ReadinessInterval : Duration := 15 * Minute.
Definition ReadinessRetention : Duration := 30 * 24 * Hour.
Definition ReadinessDenseWindow : Duration := 3 * Hour.
Definition ReadinessDenseInterval : Duration := Minute.
Definition maxReadinessBytes : Z := 8388608.

(** * Points *)

(** Counts per readiness and per client; [None] is Go's nil map. *)
Record ReadinessPoint := MkPoint {
  p_At : Z;
  p_EL : option (gmap string Z); p_CL : option (gmap string Z);
  p_ELClients : option (gmap string (gmap string Z)); p_CLClients : option (gmap string (gmap string Z));
  p_LegacyClientsEL : option string; p_LegacyClientsCL : option string }.

Record ReadinessHistory := MkHistory {
  hi_Version : Z; hi_Network : string; hi_Fork : string; hi_ELTime : Z; hi_CLEpoch : Z; hi_Points : list ReadinessPoint }.

(** [string(readiness)]. *)
Definition readinessName (x : Readiness) : string :=
  match x with
  | Ready => "ready" | Pending => "pending" | NotReady => "not_ready" | Mismatch => "mismatch" | Unknown => "unknown"
  | Stale => "stale" | NoReadiness => ""
  end.

Definition bump (m : gmap string Z) (k : string) : gmap string Z := addTo m k 1.

Definition cancelledLayer (t : ForkTarget) (layer : string) : bool :=
  if (layer =? "el")%string then el_phase t PhaseCancelled
  else if (layer =? "cl")%string then cl_phase t PhaseCancelled
  else false.

(** A cancelled layer's point keeps counting the rows that schedule the fork as ready. *)
Definition recordedReadiness (t : ForkTarget) (layer : string) (x : Readiness) : Readiness :=
  if cancelledLayer t layer then match x with Ready => NotReady | NotReady => Ready | _ => x end else x.

Definition rowEvidence (r : Row) : ReadinessEvidence :=
  MkEvidence (r_Layer r) (r_ForkHash r) (r_ForkNext r) (r_ENRForkDigest r) (r_ENRNextForkVersion r) (r_ENRNextForkEpoch r).

(** One row of one layer: its counts and its client's. *)
Definition countRow (readiness : Readiness) (charted : bool) (client : string)
  (counts : gmap string Z) (clients : gmap string (gmap string Z)) : gmap string Z * gmap string (gmap string Z) :=
  let counts := bump counts (readinessName readiness) in
  if bool_decide (readiness = Stale) || negb charted then (counts, clients)
  else (counts, <[client := bump (default ∅ (clients !! client)) (readinessName readiness)]> clients).

Definition pointRow (registry : list Network) (t : ForkTarget) (network : string) (at_ : Time) (p : ReadinessPoint) (r : Row) : ReadinessPoint :=
  if EqualFold (r_Client r) Self then p
  else
    let readiness := recordedReadiness t (r_Layer r) (ReadinessAt registry t network (rowEvidence r) at_) in
    let charted := Charted (r_FPStatus r) (r_FPAt r) at_ && Recognized (r_Layer r) (r_Client r) in
    if (r_Layer r =? "el")%string then
      match p_EL p with
      | None => p
      | Some counts =>
          let (counts, clients) := countRow readiness charted (r_Client r) counts (default ∅ (p_ELClients p)) in
          MkPoint (p_At p) (Some counts) (p_CL p) (Some clients) (p_CLClients p) (p_LegacyClientsEL p) (p_LegacyClientsCL p)
      end
    else if (r_Layer r =? "cl")%string then
      match p_CL p with
      | None => p
      | Some counts =>
          let (counts, clients) := countRow readiness charted (r_Client r) counts (default ∅ (p_CLClients p)) in
          MkPoint (p_At p) (p_EL p) (Some counts) (p_ELClients p) (Some clients) (p_LegacyClientsEL p) (p_LegacyClientsCL p)
      end
    else p.

Definition readinessPointAt (registry : list Network) (t : ForkTarget) (network : string) (rows : list Row) (at_ : Time) : ReadinessPoint :=
  let el := match ft_EL t with Some _ => Some ∅ | None => None end in
  let cl := match ft_CL t with Some _ => Some ∅ | None => None end in
  foldl (pointRow registry t network at_)
    (MkPoint (Unix at_) el cl (match ft_EL t with Some _ => Some ∅ | None => None end) (match ft_CL t with Some _ => Some ∅ | None => None end) None None)
    rows.

(** * The series *)

(** [time.Duration.Abs]. *)
Definition Abs (d : Duration) : Duration := if d =? minDuration then maxDuration else Z.abs d.

Definition ReadinessIntervalAt (at_ activation : Time) : Duration :=
  if negb (IsZero activation) && (Abs (Sub at_ activation) <=? ReadinessDenseWindow) then ReadinessDenseInterval else ReadinessInterval.

(** [int64(d.Seconds())] of the durations in use, which are whole seconds. *)
Definition seconds (d : Duration) : Z := godiv d Second.

Fixpoint dropBefore (cutoff : Z) (l : list ReadinessPoint) : list ReadinessPoint :=
  match l with
  | [] => []
  | p :: l' => if p_At p <? cutoff then dropBefore cutoff l' else l
  end.

(** [Append]: the new series and whether the point was added. *)
Definition Append (h : ReadinessHistory) (p : ReadinessPoint) (interval : Duration) : ReadinessHistory * bool :=
  if match last (hi_Points h) with Some q => wrapI64 (p_At p - p_At q) <? seconds interval | None => false end then (h, false)
  else
    let cutoff := wrapI64 (p_At p - seconds ReadinessRetention) in
    (MkHistory (hi_Version h) (hi_Network h) (hi_Fork h) (hi_ELTime h) (hi_CLEpoch h) (dropBefore cutoff (hi_Points h ++ [p])), true).

Definition dropLegacy (p : ReadinessPoint) : ReadinessPoint :=
  MkPoint (p_At p) (p_EL p) (p_CL p) (p_ELClients p) (p_CLClients p) None None.

(** The text form of a series. *)
Class HistoryCodec := {
  UnmarshalHistory : string -> option ReadinessHistory;
  MarshalHistory : ReadinessHistory -> option string }.

Section Codec.
Context `{Hcodec : HistoryCodec}.

Definition DecodeReadinessHistory (data : string) : result ReadinessHistory :=
  if maxReadinessBytes <? slen data then Err "readiness history is %d bytes, over the %d-byte limit"
  else match UnmarshalHistory data with
       | None => Err "decode readiness history"
       | Some h =>
           if negb (hi_Version h =? ReadinessHistoryVersion) then Err "unsupported readiness history version %d"
           else Ok (MkHistory (hi_Version h) (hi_Network h) (hi_Fork h) (hi_ELTime h) (hi_CLEpoch h) (map dropLegacy (hi_Points h)))
       end.

Definition history_Encode (h : ReadinessHistory) : result string :=
  match MarshalHistory h with
  | None => Err "marshal readiness history"
  | Some data => if maxReadinessBytes <? slen data then Err "readiness history is %d bytes, over the %d-byte limit" else Ok data
  end.
End Codec.

(** [keySegment]: [^\[a-z0-9\]\[a-z0-9_-\]*$] *)
Definition key_first (c : ascii) : bool := is_digit c || ((97 <=? byte_val c) && (byte_val c <=? 122)).
Definition key_char (c : ascii) : bool := key_first c || (c =? "_")%char || (c =? "-")%char.
Definition keySegment (s : string) : bool :=
  match s with "" => false | String c s' => key_first c && forallb key_char (String.list_ascii_of_string s') end.

Definition ReadinessHistoryKey (prefix network fork : string) : result string :=
  let fork := ToLower fork in
  if negb (keySegment network) || negb (keySegment fork) then Err "readiness history key segments %q/%q"
  else Ok (TrimSuffix prefix "/" +:+ "/state/readiness/" +:+ network +:+ "/" +:+ fork +:+ ".json").

(** * Thinning *)

Definition maxHistoryPoints : Z := 480.

Definition dense (activation : Time) (p : ReadinessPoint) : bool :=
  ReadinessIntervalAt (time_Unix (p_At p)) activation =? ReadinessDenseInterval.

(** The loop of [thinHistory] over the points left, the regular ones seen so far. *)
Fixpoint thin_loop (activation : Time) (step seen : Z) (points : list ReadinessPoint) : list ReadinessPoint :=
  match points with
  | [] => []
  | p :: rest =>
      if dense activation p || bool_decide (rest = []) then p :: thin_loop activation step seen rest
      else if seen mod step =? 0 then p :: thin_loop activation step (seen + 1) rest
      else thin_loop activation step (seen + 1) rest
  end.

Definition regularPoints (activation : Time) (points : list ReadinessPoint) : Z :=
  Z.of_nat (length (List.filter (fun p => negb (dense activation p)) points)).

Definition thinHistory (points : list ReadinessPoint) (activation : Time) : list ReadinessPoint :=
  let regular := regularPoints activation points in
  if regular <=? maxHistoryPoints then points
  else
    let step := godiv (regular + maxHistoryPoints - 1) maxHistoryPoints in
    thin_loop activation step 0 points.

(** * Appending keeps a rolling series *)

(** Points in strictly increasing time. *)
Definition inOrder (l : list ReadinessPoint) : Prop := StronglySorted (fun p q => p_At p < p_At q) l.

Lemma filter_all_ge cutoff l : Forall (fun p => cutoff <= p_At p) l -> List.filter (fun p => cutoff <=? p_At p) l = l.
Proof. induction 1 as [|p l Hp _ IH]; [done|]. cbn [List.filter]. apply Z.leb_le in Hp. by rewrite Hp, IH. Qed.

Lemma dropBefore_filter cutoff l : inOrder l -> dropBefore cutoff l = List.filter (fun p => cutoff <=? p_At p) l.
Proof.
  induction 1 as [|p l Hs IH Hf]; [done|]. cbn [dropBefore List.filter]. destruct (Z.ltb_spec (p_At p) cutoff).
  - destruct (Z.leb_spec cutoff (p_At p)); [lia|exact IH].
  - destruct (Z.leb_spec cutoff (p_At p)); [|lia]. f_equal. symmetry. apply filter_all_ge.
    eapply Forall_impl; [exact Hf|]. cbn. lia.
Qed.

Lemma inOrder_snoc l p : inOrder (l ++ [p]) <-> inOrder l /\ Forall (fun q => p_At q < p_At p) l.
Proof.
  unfold inOrder. rewrite StronglySorted_app. split.
  - intros (H3 & H1 & _). split; [done|]. apply Forall_forall. intros q Hq. apply H3; [done|left].
  - intros [H1 H2]. split_and!; [|done|repeat constructor]. intros q x Hq Hx%list_elem_of_singleton. subst.
    rewrite Forall_forall in H2. by apply H2.
Qed.

Lemma inOrder_filter f l : inOrder l -> inOrder (List.filter f l).
Proof.
  induction 1 as [|p l Hs IH Hf]; [constructor|]. cbn [List.filter]. destruct (f p); [|done]. constructor; [done|].
  rewrite Forall_forall in Hf |- *. intros q Hq. apply elem_of_lfilter in Hq as [Hq _]. by apply Hf.
Qed.

(** Seconds that stay clear of the 64-bit edges. *)
Definition sane_second (z : Z) : bool := (0 <=? z) && (z <=? 2 ^ 62).

(** Appending keeps a rolling series.  A point closer to the last one than the
    interval, or behind it, is refused and changes nothing.  Otherwise the new
    series is exactly the old points no older than thirty days, in their order,
    followed by the new one, still in strictly increasing time. *)
Theorem Append_rolls h p interval :
  inOrder (hi_Points h) -> Forall (fun q => sane_second (p_At q) = true) (p :: hi_Points h) -> Second <= interval <= 2 ^ 62 ->
  let (h', added) := Append h p interval in
  if added
  then hi_Points h' = List.filter (fun q => p_At p - 30 * 86400 <=? p_At q) (hi_Points h) ++ [p] /\ inOrder (hi_Points h') /\
       (hi_Network h', hi_Fork h', hi_ELTime h', hi_CLEpoch h') = (hi_Network h, hi_Fork h, hi_ELTime h, hi_CLEpoch h) /\
       forall q, q ∈ hi_Points h -> p_At q + seconds interval <= p_At p
  else h' = h /\ exists q, last (hi_Points h) = Some q /\ p_At p < p_At q + seconds interval.
Proof.
  intros Ho Hs Hi. apply Forall_cons in Hs as [Hp Hs]. unfold sane_second in Hp. boolify. unfold Append.
  assert (1 <= seconds interval) as Hsec.
  { unfold seconds, godiv. apply Z.quot_le_lower_bound; unfold Second in *; lia. }
  assert (forall q, q ∈ hi_Points h -> wrapI64 (p_At p - p_At q) = p_At p - p_At q) as Hw.
  { intros q Hq. rewrite Forall_forall in Hs. specialize (Hs q Hq). unfold sane_second in Hs. boolify. apply wrapI64_id. unfold min_int64, max_int64. lia. }
  assert (wrapI64 (p_At p - seconds ReadinessRetention) = p_At p - 30 * 86400) as Hcut.
  { change (seconds ReadinessRetention) with (30 * 86400). apply wrapI64_id. unfold min_int64, max_int64. lia. }
  destruct (last (hi_Points h)) as [q|] eqn:El.
  - assert (q ∈ hi_Points h) as Hq by (apply last_Some_elem_of; done). rewrite Hw by done.
    destruct (Z.ltb_spec (p_At p - p_At q) (seconds interval)); [split; [done|]; exists q; split; [done|lia]|].
    assert (forall x, x ∈ hi_Points h -> p_At x <= p_At q) as Hmax.
    { apply last_Some in El as [l El]. rewrite El in Ho |- *. apply inOrder_snoc in Ho as [_ Ho]. rewrite Forall_forall in Ho.
      intros x [Hx|Hx%list_elem_of_singleton]%elem_of_app; [specialize (Ho x Hx); lia|subst; lia]. }
    cbn [hi_Points hi_Network hi_Fork hi_ELTime hi_CLEpoch]. cbv zeta. rewrite Hcut.
    assert (inOrder (hi_Points h ++ [p])) as Ho'.
    { apply inOrder_snoc. split; [done|]. apply Forall_forall. intros x Hx. specialize (Hmax x Hx). lia. }
    rewrite dropBefore_filter by done. split_and!; [|by apply inOrder_filter|done|intros x Hx; specialize (Hmax x Hx); lia].
    rewrite List.filter_app. f_equal. cbn [List.filter]. destruct (Z.leb_spec (p_At p - 30 * 86400) (p_At p)); [done|lia].
  - apply last_None in El. rewrite El. cbn [app hi_Points hi_Network hi_Fork hi_ELTime hi_CLEpoch]. cbv zeta. rewrite Hcut.
    cbn [dropBefore]. destruct (Z.ltb_spec (p_At p) (p_At p - 30 * 86400)); [lia|].
    split_and!; [done|repeat constructor|done|by intros q ?%elem_of_nil].
Qed.

Definition demoPoint (at_ : Z) : ReadinessPoint := MkPoint at_ None None None None None None.

Lemma Append_rolls_witness :
  let h := MkHistory 1 "mainnet" "Glamsterdam" 1 1 [demoPoint 1700000000; demoPoint 1702000000] in
  let (h', added) := Append h (demoPoint 1702700000) ReadinessInterval in
  added = true /\ map p_At (hi_Points h') = [1702000000; 1702700000] /\ inOrder (hi_Points h').
Proof.
  pose proof (Append_rolls (MkHistory 1 "mainnet" "Glamsterdam" 1 1 [demoPoint 1700000000; demoPoint 1702000000]) (demoPoint 1702700000)
    ReadinessInterval) as H.
  destruct (Append _ (demoPoint 1702700000) ReadinessInterval) as [h' added] eqn:E. vm_compute in E. injection E as <- <-.
  split; [done|]. split; [done|]. refine (proj1 (proj2 (H _ _ _))); [repeat constructor|by repeat constructor|vm_compute; split; discriminate].
Defined.

(** * Thinning keeps the trend *)

Section Thin.
Context (activation : Time).

Lemma thin_loop_sublist step seen points : sublist (thin_loop activation step seen points) points.
Proof.
  revert seen. induction points as [|p rest IH]; intros seen; [constructor|]. cbn [thin_loop].
  destruct (_ || _); [by apply sublist_skip|]. destruct (_ =? 0); [by apply sublist_skip|by apply sublist_cons].
Qed.

Lemma thin_loop_dense step seen points :
  List.filter (dense activation) (thin_loop activation step seen points) = List.filter (dense activation) points.
Proof.
  revert seen. induction points as [|p rest IH]; intros seen; [done|]. cbn [thin_loop List.filter].
  destruct (dense activation p) eqn:Ed; cbn [orb].
  - cbn [List.filter]. by rewrite Ed, IH.
  - destruct (bool_decide (rest = [])); [cbn [List.filter]; by rewrite Ed, IH|].
    destruct (_ =? 0); [cbn [List.filter]; by rewrite Ed, IH|apply IH].
Qed.

Lemma thin_loop_last step seen points : last (thin_loop activation step seen points) = last points.
Proof.
  revert seen. induction points as [|p rest IH]; intros seen; [done|]. cbn [thin_loop]. destruct (decide (rest = [])) as [->|Hne].
  - rewrite bool_decide_true by done. rewrite orb_true_r. done.
  - rewrite bool_decide_false by done. rewrite orb_false_r.
    assert (forall l, last l = last rest -> last (p :: l) = last (p :: rest)) as Hl.
    { intros l Hl. rewrite !last_cons, Hl. done. }
    assert (last (p :: rest) = last rest) as Hlast by (rewrite last_cons; destruct rest as [|q rest]; [done|]; rewrite last_cons; by destruct (last rest)).
    destruct (dense activation p); [by apply Hl|]. destruct (_ =? 0); [by apply Hl|]. by rewrite IH.
Qed.

Lemma regularPoints_cons p l : regularPoints activation (p :: l) = (if dense activation p then 0 else 1) + regularPoints activation l.
Proof. unfold regularPoints. cbn [List.filter]. destruct (dense activation p); cbn [negb length]; lia. Qed.

(** Every [step]-th regular point is kept, and the last point. *)
Lemma thin_loop_regular step seen points :
  0 < step -> 0 <= seen ->
  regularPoints activation (thin_loop activation step seen points) <=
  (seen + regularPoints activation points + step - 1) / step - (seen + step - 1) / step + 1.
Proof.
  intros Hstep. revert seen. induction points as [|p rest IH]; intros seen Hseen.
  { cbn [thin_loop]. change (regularPoints activation []) with 0. rewrite Z.add_0_r. lia. }
  cbn [thin_loop]. rewrite (regularPoints_cons p rest). destruct (dense activation p) eqn:Ed; cbn [orb].
  - rewrite regularPoints_cons, Ed. specialize (IH seen Hseen). rewrite !Z.add_0_l. lia.
  - assert (0 <= regularPoints activation rest) as Hn by (unfold regularPoints; lia).
    destruct (bool_decide (rest = [])) eqn:Er.
    + apply bool_decide_eq_true in Er as ->. cbn [thin_loop]. rewrite regularPoints_cons, Ed. change (regularPoints activation []) with 0.
      pose proof (Z.div_le_mono (seen + step - 1) (seen + (1 + 0) + step - 1) step Hstep ltac:(lia)). lia.
    + specialize (IH (seen + 1) ltac:(lia)).
      replace (seen + 1 + regularPoints activation rest + step - 1) with (seen + (1 + regularPoints activation rest) + step - 1) in IH by lia.
      replace (seen + 1 + step - 1) with (seen + 1 * step) in IH by lia. rewrite Z.div_add in IH by lia.
      assert ((seen + step - 1) / step = if seen mod step =? 0 then seen / step else seen / step + 1) as Hc.
      { pose proof (Z.div_mod seen step ltac:(lia)) as Hdm. pose proof (Z.mod_pos_bound seen step Hstep) as Hb.
        destruct (Z.eqb_spec (seen mod step) 0) as [E|E]; symmetry.
        - apply Z.div_unique with (step - 1); lia.
        - apply Z.div_unique with (seen mod step - 1); lia. }
      destruct (seen mod step =? 0); [rewrite regularPoints_cons, Ed; lia|lia].
Qed.
End Thin.

(** Thinning keeps the trend: the result is the series with points left out, every
    point of the dense window around activation and the latest point stay, a series
    of at most [maxHistoryPoints] regular points is returned whole, and at most one
    more than [maxHistoryPoints] regular points are ever returned. *)
Theorem thinHistory_keeps points activation :
  let out := thinHistory points activation in
  sublist out points /\ List.filter (dense activation) out = List.filter (dense activation) points /\ last out = last points /\
  (regularPoints activation points <= maxHistoryPoints -> out = points) /\
  regularPoints activation out <= maxHistoryPoints + 1.
Proof.
  unfold thinHistory. cbv zeta. destruct (Z.leb_spec (regularPoints activation points) maxHistoryPoints) as [Hle|Hgt].
  - split_and!; [done..|lia].
  - set (regular := regularPoints activation points) in *. unfold maxHistoryPoints in *. unfold godiv. rewrite Z.quot_div_nonneg by lia.
    set (step := (regular + 480 - 1) / 480).
    assert (480 * step <= regular + 479 < 480 * step + 480) as Hstep.
    { subst step. pose proof (Z.div_mod (regular + 480 - 1) 480 ltac:(lia)). pose proof (Z.mod_pos_bound (regular + 480 - 1) 480 ltac:(lia)). lia. }
    split_and!; [apply thin_loop_sublist|apply thin_loop_dense|apply thin_loop_last|intros; lia|].
    pose proof (thin_loop_regular activation step 0 points ltac:(lia) ltac:(lia)) as H. fold regular in H.
    assert ((0 + step - 1) / step = 0) as H0 by (apply Z.div_small; lia). rewrite H0 in H.
    assert ((0 + regular + step - 1) / step <= 480) as Hq by (apply Z.lt_succ_r, Z.div_lt_upper_bound; lia). lia.
Qed.

(** The extra point: 960 regular points are thinned to 481. *)
Example thin_over_cap :
  regularPoints zeroTime (thinHistory (map (fun i => demoPoint (1700000000 + 900 * Z.of_nat i)) (seq 0 960)) zeroTime) = 481.
Proof. vm_compute. reflexivity. Qed.
