(* ===== verification/ForkReadiness.v ===== *)
(** The fork readiness report, [ForkReadinessAt] of [internal/query/readiness.go]:
    rows grouped by their evidence are counted per layer, client and version.

    The groups are what the SQL statement returns, one record per group with its
    count; maps visited with [range] are their canonical enumerations, and every
    list built from one is sorted by total and name, which are unique. *)

From stdpp Require Import base gmap strings list numbers sorting pretty.
From Stdlib Require Import ZArith Lia.
From S2P Require Import Prelude GoLib Counting Text Clientname Hashes Consensus ForkId Network Readiness NodeData Releases History.

(** * Data *)

(** The columns the statement groups by, and one row of its result. *)
Record GroupKey := MkGroupKey {
  g_ev : ReadinessEvidence; g_chart : bool; g_client : string; g_rawVersion : string; g_version : string; g_sync : string }.
Record Group := MkGroup { g_key : GroupKey; g_count : Z }.

#[global] Instance ReadinessEvidence_eq_dec : EqDecision ReadinessEvidence.
Proof. solve_decision. Defined.
#[global] Instance GroupKey_eq_dec : EqDecision GroupKey.
Proof. solve_decision. Defined.

(** [ReadinessCounts], keyed by the readiness text. *)
Definition ReadinessCounts : Type := gmap string Z.
Definition newReadinessCounts : ReadinessCounts := list_to_map (map (fun x => (readinessName x, 0)) Readinesses).

Record VersionReadiness := MkVersion { vr_Version : string; vr_Total : Z; vr_Counts : ReadinessCounts; vr_Release : string }.
Record ClientReadiness := MkClient { cl_Client : string; cl_Total : Z; cl_Counts : ReadinessCounts; cl_Versions : list VersionReadiness }.
Record LayerReadiness := MkLayer {
  lr_Total : Z; lr_Counts : ReadinessCounts; lr_Sync : gmap string Z; lr_Unidentified : ReadinessCounts; lr_Clients : list ClientReadiness }.

(** The maps the loop fills. *)
Record Tally := MkTally {
  ta_layers : gmap string LayerReadiness;
  ta_clients : gmap (string * string) ClientReadiness;
  ta_versions : gmap (string * string * string) VersionReadiness }.

Definition readinessVersionRows : nat := 15.

(** * Counting *)

Section Report.
Context (registry : list Network) (target : ForkTarget) (network : string) (at_ : Time).

(** [releases]: the last entry of each layer and client. *)
Definition releaseFor (releases : list ClientRelease) (layer client : string) : option ClientRelease :=
  foldl (fun acc r => if (cr_Layer r =? layer)%string && (cr_Client r =? client)%string then Some r else acc) None releases.

Definition releaseLabel (releases : list ClientRelease) (k : GroupKey) (current : string) : string :=
  match releaseFor releases (ev_Layer (g_ev k)) (g_client k) with
  | Some rel =>
      if negb (cr_Outdated rel) && negb (bool_decide (cr_MinVersions rel = [])) then
        let status :=
          match CancelledAt target (ev_Layer (g_ev k)) with
          | Some _ => CancelledReleaseStatus (cr_MinVersions rel) (cr_UnscheduledIn rel) (g_rawVersion k)
          | None => ReleaseStatus (cr_MinVersions rel) (g_rawVersion k)
          end in
        if (current =? "")%string then status else if negb (current =? status)%string then "mixed" else current
      else current
  | None => current
  end.

Definition emptyLayer : LayerReadiness := MkLayer 0 newReadinessCounts ∅ newReadinessCounts [].

Definition untracked (k : GroupKey) : bool :=
  ((ev_Layer (g_ev k) =? "el")%string && match ft_EL target with None => true | Some _ => false end)
  || ((ev_Layer (g_ev k) =? "cl")%string && match ft_CL target with None => true | Some _ => false end).

(** The counts every row of a tracked layer adds to. *)
Definition countLayer (g : Group) (readiness : Readiness) (layer : LayerReadiness) : LayerReadiness :=
  let sync := if RowForkCurrentAt registry (ev_Layer (g_ev (g_key g))) network (ev_ForkHash (g_ev (g_key g))) (ev_ForkNext (g_ev (g_key g))) at_
              then addTo (lr_Sync layer) (g_sync (g_key g)) (g_count g) else lr_Sync layer in
  MkLayer (lr_Total layer + g_count g) (addTo (lr_Counts layer) (readinessName readiness) (g_count g)) sync (lr_Unidentified layer) (lr_Clients layer).

Definition countUnidentified (g : Group) (readiness : Readiness) (layer : LayerReadiness) : LayerReadiness :=
  MkLayer (lr_Total layer) (lr_Counts layer) (lr_Sync layer) (addTo (lr_Unidentified layer) (readinessName readiness) (g_count g)) (lr_Clients layer).

Definition countClient (g : Group) (readiness : Readiness) (c : ClientReadiness) : ClientReadiness :=
  MkClient (cl_Client c) (cl_Total c + g_count g) (addTo (cl_Counts c) (readinessName readiness) (g_count g)) (cl_Versions c).

Definition countVersion (releases : list ClientRelease) (g : Group) (readiness : Readiness) (v : VersionReadiness) : VersionReadiness :=
  MkVersion (vr_Version v) (vr_Total v + g_count g) (addTo (vr_Counts v) (readinessName readiness) (g_count g))
    (releaseLabel releases (g_key g) (vr_Release v)).

(** One turn of the [rows.Next] loop. *)
Definition tally (releases : list ClientRelease) (t : Tally) (g : Group) : Tally :=
  let key := ev_Layer (g_ev (g_key g)) in
  if untracked (g_key g) then t
  else
    let readiness := ReadinessAt registry target network (g_ev (g_key g)) at_ in
    let layer := countLayer g readiness (default emptyLayer (ta_layers t !! key)) in
    if bool_decide (readiness = Stale) then MkTally (<[key := layer]> (ta_layers t)) (ta_clients t) (ta_versions t)
    else if negb (g_chart (g_key g)) || negb (Recognized key (g_client (g_key g)))
    then MkTally (<[key := countUnidentified g readiness layer]> (ta_layers t)) (ta_clients t) (ta_versions t)
    else
      let c := default (MkClient (g_client (g_key g)) 0 newReadinessCounts []) (ta_clients t !! (key, g_client (g_key g))) in
      let v := default (MkVersion (g_version (g_key g)) 0 newReadinessCounts "") (ta_versions t !! (key, g_client (g_key g), g_version (g_key g))) in
      MkTally (<[key := layer]> (ta_layers t))
        (<[(key, g_client (g_key g)) := countClient g readiness c]> (ta_clients t))
        (<[(key, g_client (g_key g), g_version (g_key g)) := countVersion releases g readiness v]> (ta_versions t)).

Definition tallies (releases : list ClientRelease) (groups : list Group) : Tally := foldl (tally releases) (MkTally ∅ ∅ ∅) groups.

(** * The lists *)

Definition byTotal {A} (total : A -> Z) (name : A -> string) (x y : A) : bool :=
  if negb (total x =? total y) then total y <? total x else String.leb (name x) (name y).

(** The versions beyond the first rows fold into one. *)
Definition truncateVersions (versions : list VersionReadiness) : list VersionReadiness :=
  if (readinessVersionRows <? length versions)%nat then
    let rest := drop readinessVersionRows versions in
    let other := foldl (fun o v => MkVersion (vr_Version o) (vr_Total o + vr_Total v) (addCounts (vr_Counts o) (vr_Counts v)) (vr_Release o))
                   (MkVersion ("Other (" +:+ pretty (Z.of_nat (length rest)) +:+ " versions)") 0 newReadinessCounts "") rest in
    take readinessVersionRows versions ++ [other]
  else versions.

Definition versionsOf (t : Tally) (layer client : string) : list VersionReadiness :=
  map snd (List.filter (fun kv : string * string * string * VersionReadiness => (kv.1.1.1 =? layer)%string && (kv.1.1.2 =? client)%string) (map_to_list (ta_versions t))).

Definition finishClient (t : Tally) (layer : string) (c : ClientReadiness) : ClientReadiness :=
  MkClient (cl_Client c) (cl_Total c) (cl_Counts c)
    (truncateVersions (isort (byTotal vr_Total vr_Version) (cl_Versions c ++ versionsOf t layer (cl_Client c)))).

Definition clientsOf (t : Tally) (layer : string) : list ClientReadiness :=
  map (fun kv : string * string * ClientReadiness => finishClient t layer kv.2)
    (List.filter (fun kv : string * string * ClientReadiness => (kv.1.1 =? layer)%string) (map_to_list (ta_clients t))).

Definition finishLayer (t : Tally) (key : string) (layer : LayerReadiness) : LayerReadiness :=
  MkLayer (lr_Total layer) (lr_Counts layer) (lr_Sync layer) (lr_Unidentified layer)
    (isort (byTotal cl_Total cl_Client) (lr_Clients layer ++ clientsOf t key)).

(** The [Layers] of the report. *)
Definition reportLayers (releases : list ClientRelease) (groups : list Group) : gmap string LayerReadiness :=
  let t := tallies releases groups in map_imap (fun key layer => Some (finishLayer t key layer)) (ta_layers t).

(** * The grouped statement *)

Section Statement.
(** The normalized version and the sync state, which regular expressions and a view
    column of the database compute from the row. *)
Context (normalizedVersion syncState : Row -> string).

Definition groupKeyOf (r : Row) : GroupKey :=
  MkGroupKey (rowEvidence r) (Charted (r_FPStatus r) (r_FPAt r) at_) (r_Client r) (r_Version r) (normalizedVersion r) (syncState r).

(** The WHERE clause. *)
Definition inReport (r : Row) : bool :=
  (r_Network r =? network)%string && ((r_Layer r =? "el")%string || (r_Layer r =? "cl")%string) && negb (ToLower (r_Client r) =? Self)%string.

Definition groupRows (rows : list Row) : list Group :=
  let keys := map groupKeyOf (List.filter inReport rows) in
  map (fun k => MkGroup k (occurrences k keys)) (remove_dups keys).

(** The layers [ForkReadinessAt] reports for the rows of the served table. *)
Definition ForkReadinessAt_layers (releases : list ClientRelease) (rows : list Row) : gmap string LayerReadiness :=
  reportLayers releases (groupRows rows).
End Statement.

(** * What each row counts as *)

Definition readingOf (k : GroupKey) : Readiness := ReadinessAt registry target network (g_ev k) at_.
Definition inLayer (L : string) (k : GroupKey) : bool := negb (untracked k) && (ev_Layer (g_ev k) =? L)%string.
Definition fresh (L : string) (k : GroupKey) : bool := inLayer L k && negb (bool_decide (readingOf k = Stale)).
Definition identified (k : GroupKey) : bool := g_chart k && Recognized (ev_Layer (g_ev k)) (g_client k).
Definition charted (L : string) (k : GroupKey) : bool := fresh L k && identified k.
Definition ofClient (L C : string) (k : GroupKey) : bool := charted L k && (g_client k =? C)%string.
Definition ofVersion (L C V : string) (k : GroupKey) : bool := ofClient L C k && (g_version k =? V)%string.
Definition reads (name : string) (k : GroupKey) : bool := (readinessName (readingOf k) =? name)%string.

(** The rows of the groups a test holds of. *)
Definition rowsWhere (p : GroupKey -> bool) (groups : list Group) : Z := zsum_by (fun g => if p (g_key g) then g_count g else 0) groups.

Lemma rowsWhere_snoc p groups g : rowsWhere p (groups ++ [g]) = rowsWhere p groups + (if p (g_key g) then g_count g else 0).
Proof. unfold rowsWhere. rewrite zsum_by_app, zsum_by_cons. unfold zsum_by at 2. cbn. lia. Qed.

(** ** One turn of the loop *)

Definition layerAt (t : Tally) (L : string) : LayerReadiness := default emptyLayer (ta_layers t !! L).
Definition clientAt (t : Tally) (L C : string) : ClientReadiness := default (MkClient C 0 newReadinessCounts []) (ta_clients t !! (L, C)).
Definition versionAt (t : Tally) (L C V : string) : VersionReadiness :=
  default (MkVersion V 0 newReadinessCounts "") (ta_versions t !! (L, C, V)).

Section Turn.
Context (releases : list ClientRelease) (t : Tally) (g : Group).
Abbreviation k := (g_key g).
Abbreviation key := (ev_Layer (g_ev k)).

(** The three outcomes of a turn. *)
Lemma tally_cases :
  tally releases t g =
  if untracked k then t
  else
    let ly := countLayer g (readingOf k) (layerAt t key) in
    if charted key k then
      MkTally (<[key := ly]> (ta_layers t))
        (<[(key, g_client k) := countClient g (readingOf k) (clientAt t key (g_client k))]> (ta_clients t))
        (<[(key, g_client k, g_version k) := countVersion releases g (readingOf k) (versionAt t key (g_client k) (g_version k))]> (ta_versions t))
    else MkTally (<[key := if fresh key k then countUnidentified g (readingOf k) ly else ly]> (ta_layers t)) (ta_clients t) (ta_versions t).
Proof.
  unfold tally, charted, fresh, inLayer, identified. fold (readingOf k). destruct (untracked k); [done|]. rewrite String.eqb_refl. cbn [negb andb].
  destruct (bool_decide (readingOf k = Stale)); [done|]. cbn [negb andb].
  destruct (g_chart k); [|done]. by destruct (Recognized _ _).
Qed.

Lemma layerAt_tally L :
  layerAt (tally releases t g) L =
  if inLayer L k then
    let ly := countLayer g (readingOf k) (layerAt t L) in
    if fresh L k && negb (identified k) then countUnidentified g (readingOf k) ly else ly
  else layerAt t L.
Proof.
  rewrite tally_cases. unfold inLayer. destruct (untracked k) eqn:Eu; [done|]. cbn [negb andb].
  destruct (String.eqb_spec key L) as [<-|Hne].
  - unfold charted. destruct (fresh key k), (identified k); cbn [andb negb]; unfold layerAt at 1; cbn [ta_layers]; by rewrite lookup_insert_eq.
  - destruct (charted key k); unfold layerAt; cbn [ta_layers]; by rewrite lookup_insert_ne.
Qed.

Lemma ofClient_key L C : ofClient L C k = true -> key = L /\ g_client k = C /\ untracked k = false /\ charted key k = true.
Proof.
  unfold ofClient, charted, fresh, inLayer. intros H. boolify. subst. split_and!; [done..|]. rewrite String.eqb_refl.
  repeat match goal with E : _ = true |- _ => rewrite E | E : _ = false |- _ => rewrite E end. done.
Qed.

Lemma not_ofClient L C : untracked k = false -> charted key k = true -> ofClient L C k = false -> (key, g_client k) <> (L, C).
Proof.
  unfold ofClient. intros _ Hc Ho [= <- <-]. by rewrite Hc, String.eqb_refl in Ho.
Qed.

Lemma clientAt_tally L C :
  clientAt (tally releases t g) L C = if ofClient L C k then countClient g (readingOf k) (clientAt t L C) else clientAt t L C.
Proof.
  destruct (ofClient L C k) eqn:E.
  - apply ofClient_key in E as (<- & <- & Hu & Hc). rewrite tally_cases, Hu, Hc. unfold clientAt at 1. cbn [ta_clients]. by rewrite lookup_insert_eq.
  - rewrite tally_cases. destruct (untracked k) eqn:Hu; [done|]. destruct (charted key k) eqn:Hc; [|done].
    unfold clientAt at 1. cbn [ta_clients]. rewrite lookup_insert_ne by (by apply not_ofClient). done.
Qed.

Lemma versionAt_tally L C V :
  versionAt (tally releases t g) L C V = if ofVersion L C V k then countVersion releases g (readingOf k) (versionAt t L C V) else versionAt t L C V.
Proof.
  unfold ofVersion. destruct (ofClient L C k) eqn:E.
  - pose proof E as (<- & <- & Hu & Hc)%ofClient_key. rewrite tally_cases, Hu, Hc. unfold versionAt at 1. cbn [ta_versions andb].
    destruct (String.eqb_spec (g_version k) V) as [<-|Hne]; [by rewrite lookup_insert_eq|]. by rewrite lookup_insert_ne by congruence.
  - rewrite tally_cases. destruct (untracked k) eqn:Hu; [done|]. destruct (charted key k) eqn:Hc; [|done].
    unfold versionAt at 1. cbn [ta_versions andb]. rewrite lookup_insert_ne; [done|]. intros [= <- <- _]. by eapply not_ofClient.
Qed.
End Turn.

(** ** The loop over every group *)

Section Loop.
Context (releases : list ClientRelease).

Lemma tallies_snoc groups g : tallies releases (groups ++ [g]) = tally releases (tallies releases groups) g.
Proof. unfold tallies. by rewrite foldl_app. Qed.

Lemma countAt_new n : countAt newReadinessCounts n = 0.
Proof. apply (countAt_zeros (map readinessName Readinesses)). Qed.

Lemma tallySum_new : tallySum newReadinessCounts = 0.
Proof. reflexivity. Qed.

Ltac turns groups :=
  induction groups as [|g groups IH] using rev_ind;
  [intros; cbn; rewrite ?countAt_new, ?tallySum_new; unfold rowsWhere, zsum_by; cbn; auto|
   intros; rewrite tallies_snoc, ?rowsWhere_snoc, ?layerAt_tally, ?clientAt_tally, ?versionAt_tally].

Lemma layer_total groups L : lr_Total (layerAt (tallies releases groups) L) = rowsWhere (inLayer L) groups.
Proof. turns groups. destruct (inLayer L (g_key g)); [|lia]. cbn zeta. destruct (_ && _); cbn; lia. Qed.

Lemma layer_counts groups L n :
  countAt (lr_Counts (layerAt (tallies releases groups) L)) n = rowsWhere (fun k => inLayer L k && reads n k) groups.
Proof.
  turns groups. unfold reads at 2. destruct (inLayer L (g_key g)); cbn [andb]; [|lia]. cbn zeta.
  assert (forall ly, countAt (lr_Counts (countLayer g (readingOf (g_key g)) ly)) n =
    countAt (lr_Counts ly) n + (if (readinessName (readingOf (g_key g)) =? n)%string then g_count g else 0)) as H by (intros; apply countAt_addTo).
  destruct (_ && _); cbn [countUnidentified lr_Counts]; rewrite H; lia.
Qed.

Lemma layer_sum groups L : tallySum (lr_Counts (layerAt (tallies releases groups) L)) = rowsWhere (inLayer L) groups.
Proof.
  turns groups. destruct (inLayer L (g_key g)); [|lia]. cbn zeta.
  destruct (_ && _); cbn [countUnidentified countLayer lr_Counts]; rewrite tallySum_addTo; lia.
Qed.

Lemma fresh_inLayer L k : fresh L k = true -> inLayer L k = true.
Proof. unfold fresh. intros H. by boolify. Qed.

Lemma layer_unidentified groups L :
  tallySum (lr_Unidentified (layerAt (tallies releases groups) L)) = rowsWhere (fun k => fresh L k && negb (identified k)) groups.
Proof.
  turns groups. destruct (inLayer L (g_key g)) eqn:Ei.
  - cbn zeta. destruct (_ && _); cbn [countUnidentified countLayer lr_Unidentified]; [rewrite tallySum_addTo|]; lia.
  - destruct (fresh L (g_key g)) eqn:Ef; [apply fresh_inLayer in Ef; congruence|]. cbn [andb]. lia.
Qed.

Lemma layer_no_clients groups L : lr_Clients (layerAt (tallies releases groups) L) = [].
Proof. turns groups. destruct (inLayer L (g_key g)); [|done]. cbn zeta. by destruct (_ && _). Qed.

Lemma client_shape groups L C :
  let c := clientAt (tallies releases groups) L C in
  cl_Client c = C /\ cl_Versions c = [] /\ cl_Total c = rowsWhere (ofClient L C) groups /\ tallySum (cl_Counts c) = cl_Total c.
Proof.
  cbn zeta. turns groups. destruct IH as (IH1 & IH2 & IH3 & IH4).
  destruct (ofClient L C (g_key g)); cbn [countClient cl_Client cl_Versions cl_Total cl_Counts]; rewrite ?tallySum_addTo; split_and!; (done || lia).
Qed.

Lemma client_counts groups L C n :
  countAt (cl_Counts (clientAt (tallies releases groups) L C)) n = rowsWhere (fun k => ofClient L C k && reads n k) groups.
Proof.
  turns groups. unfold reads at 2. destruct (ofClient L C (g_key g)); cbn [andb countClient cl_Counts]; rewrite ?countAt_addTo; lia.
Qed.

Definition clientTotal (L : string) (k : string * string) (c : ClientReadiness) : Z := if (k.1 =? L)%string then cl_Total c else 0.
Definition versionTotal (L C : string) (k : string * string * string) (v : VersionReadiness) : Z :=
  if (k.1.1 =? L)%string && (k.1.2 =? C)%string then vr_Total v else 0.

Lemma clients_sum groups L : map_sum (clientTotal L) (ta_clients (tallies releases groups)) = rowsWhere (charted L) groups.
Proof.
  induction groups as [|g groups IH] using rev_ind; [done|]. rewrite tallies_snoc, rowsWhere_snoc, <- IH, tally_cases.
  destruct (untracked (g_key g)) eqn:Hu; [unfold charted, fresh, inLayer; rewrite Hu; cbn; lia|].
  destruct (String.eqb_spec (ev_Layer (g_ev (g_key g))) L) as [<-|Hne].
  - destruct (charted _ (g_key g)); [|cbn; lia]. cbn [ta_clients]. rewrite map_sum_insert. unfold clientTotal at 2 3. cbn [fst].
    rewrite String.eqb_refl. unfold clientAt. destruct (ta_clients _ !! _); cbn; lia.
  - assert (charted L (g_key g) = false) as ->.
    { unfold charted, fresh, inLayer. apply String.eqb_neq in Hne. by rewrite Hne, andb_false_r. }
    destruct (charted _ (g_key g)); [|cbn; lia]. cbn [ta_clients]. rewrite map_sum_insert. unfold clientTotal at 2 3. cbn [fst].
    apply String.eqb_neq in Hne. rewrite Hne. destruct (ta_clients _ !! _); lia.
Qed.

Lemma versions_sum groups L C : map_sum (versionTotal L C) (ta_versions (tallies releases groups)) = rowsWhere (ofClient L C) groups.
Proof.
  induction groups as [|g groups IH] using rev_ind; [done|]. rewrite tallies_snoc, rowsWhere_snoc, <- IH, tally_cases.
  destruct (untracked (g_key g)) eqn:Hu; [unfold ofClient, charted, fresh, inLayer; rewrite Hu; cbn; lia|].
  destruct (ofClient L C (g_key g)) eqn:E.
  - apply ofClient_key in E as (<- & <- & _ & ->). cbn [ta_versions]. rewrite map_sum_insert. unfold versionTotal at 2 3. cbn [fst snd].
    rewrite !String.eqb_refl. unfold versionAt. destruct (ta_versions _ !! _); cbn; lia.
  - destruct (charted _ (g_key g)) eqn:Ec; [|cbn; lia]. cbn [ta_versions]. rewrite map_sum_insert. unfold versionTotal at 2 3. cbn [fst snd].
    replace (_ && _) with false; [destruct (ta_versions _ !! _); lia|]. symmetry. apply not_true_iff_false. intros H. boolify.
    eapply not_ofClient; [exact Hu|exact Ec|exact E|]. congruence.
Qed.

(** A client is only counted in a layer of the report. *)
Lemma clients_in_layers groups L C : is_Some (ta_clients (tallies releases groups) !! (L, C)) -> is_Some (ta_layers (tallies releases groups) !! L).
Proof.
  induction groups as [|g groups IH] using rev_ind; [cbn; rewrite lookup_empty; by intros []|]. rewrite tallies_snoc, tally_cases.
  destruct (untracked _); [done|]. cbn zeta. destruct (charted _ _); cbn [ta_layers ta_clients].
  - destruct (decide (L = ev_Layer (g_ev (g_key g)))) as [->|Hne]; [by rewrite lookup_insert_eq|].
    rewrite !lookup_insert_ne by congruence. done.
  - intros H. destruct (decide (L = ev_Layer (g_ev (g_key g)))) as [->|Hne]; [by rewrite lookup_insert_eq|].
    rewrite lookup_insert_ne by done. auto.
Qed.
End Loop.

(** ** The lists *)

Lemma other_total (o : VersionReadiness) vs :
  vr_Total (foldl (fun o v => MkVersion (vr_Version o) (vr_Total o + vr_Total v) (addCounts (vr_Counts o) (vr_Counts v)) (vr_Release o)) o vs)
  = vr_Total o + zsum_by vr_Total vs.
Proof.
  revert o. induction vs as [|v vs IH]; intros o; [unfold zsum_by; cbn; lia|]. cbn [foldl]. rewrite IH, zsum_by_cons. cbn [vr_Total]. lia.
Qed.

Lemma truncate_total vs : zsum_by vr_Total (truncateVersions vs) = zsum_by vr_Total vs.
Proof.
  unfold truncateVersions. destruct (Nat.ltb_spec readinessVersionRows (length vs)); [|done]. cbv zeta.
  transitivity (zsum_by vr_Total (take readinessVersionRows vs ++ drop readinessVersionRows vs)); [|by rewrite take_drop].
  rewrite !zsum_by_app, zsum_by_cons, other_total. unfold zsum_by at 3. cbn [vr_Total map zsum foldr]. lia.
Qed.

Lemma truncate_length vs : (length (truncateVersions vs) <= S readinessVersionRows)%nat.
Proof.
  unfold truncateVersions. destruct (Nat.ltb_spec readinessVersionRows (length vs)); [|lia]. cbv zeta.
  rewrite length_app, length_take. cbn [length]. lia.
Qed.

Lemma versionsOf_total t L C : zsum_by vr_Total (versionsOf t L C) = map_sum (versionTotal L C) (ta_versions t).
Proof. unfold versionsOf, map_sum. rewrite zsum_by_map, zsum_by_filter. done. Qed.

Lemma clientsOf_total t L : zsum_by cl_Total (clientsOf t L) = map_sum (clientTotal L) (ta_clients t).
Proof. unfold clientsOf, map_sum. rewrite zsum_by_map, zsum_by_filter. done. Qed.

Lemma elem_of_clientsOf t L c :
  c ∈ clientsOf t L <-> exists C x, ta_clients t !! (L, C) = Some x /\ c = finishClient t L x.
Proof.
  unfold clientsOf. rewrite list_elem_of_fmap. setoid_rewrite elem_of_lfilter. split.
  - intros ([[L' C] x] & -> & Hin & HL). cbn [fst] in HL. apply String.eqb_eq in HL as ->.
    apply elem_of_map_to_list in Hin. by exists C, x.
  - intros (C & x & Hx & ->). exists ((L, C), x). rewrite elem_of_map_to_list. cbn [fst]. by rewrite String.eqb_refl.
Qed.

Section Order.
Context {A : Type} (total : A -> Z) (name : A -> string).

Lemma byTotal_total x y : byTotal total name x y = false -> byTotal total name y x = true.
Proof.
  unfold byTotal. rewrite (Z.eqb_sym (total y)). destruct (Z.eqb_spec (total x) (total y)); cbn [negb]; [apply string_leb_total|].
  intros H. boolify. lia.
Qed.

Lemma byTotal_trans x y z : byTotal total name x y = true -> byTotal total name y z = true -> byTotal total name x z = true.
Proof.
  unfold byTotal. destruct (Z.eqb_spec (total x) (total y)), (Z.eqb_spec (total y) (total z)), (Z.eqb_spec (total x) (total z)); cbn [negb];
    try lia; try apply string_leb_trans; intros; boolify; lia.
Qed.
End Order.

(** The layer the report holds is the counted one with its clients listed. *)
Lemma report_layer releases groups L :
  default emptyLayer (reportLayers releases groups !! L) =
  let t := tallies releases groups in finishLayer t L (layerAt t L).
Proof.
  cbv zeta. unfold reportLayers. rewrite map_lookup_imap. unfold layerAt.
  destruct (ta_layers (tallies releases groups) !! L) as [ly|] eqn:E; [done|]. cbn [mbind option_bind default from_option].
  unfold finishLayer. cbn [emptyLayer lr_Total lr_Counts lr_Sync lr_Unidentified lr_Clients]. 
  assert (clientsOf (tallies releases groups) L = []) as ->; [|done].
  apply elem_of_nil_inv. intros c (C & x & Hx & _)%elem_of_clientsOf.
  destruct (clients_in_layers releases groups L C) as [? ?]; [by eexists|congruence].
Qed.

(** A client of a tally, finished. *)
Lemma client_listed releases groups L C x :
  ta_clients (tallies releases groups) !! (L, C) = Some x ->
  let c := finishClient (tallies releases groups) L x in
  cl_Client c = C /\ cl_Total c = rowsWhere (ofClient L C) groups /\ tallySum (cl_Counts c) = cl_Total c /\
  zsum_by vr_Total (cl_Versions c) = cl_Total c /\ (length (cl_Versions c) <= S readinessVersionRows)%nat /\
  (forall n, countAt (cl_Counts c) n = rowsWhere (fun k => ofClient L C k && reads n k) groups).
Proof.
  intros Hx. cbv zeta. pose proof (client_shape releases groups L C) as H. pose proof (client_counts releases groups L C) as Hc.
  assert (clientAt (tallies releases groups) L C = x) as Ex by (unfold clientAt; by rewrite Hx). rewrite Ex in H, Hc. cbv zeta in H.
  destruct H as (HC & HV & HT & HS). unfold finishClient. cbn [cl_Client cl_Total cl_Counts cl_Versions]. rewrite HC, HV.
  split_and!; [done..| |apply truncate_length|done].
  rewrite truncate_total, (zsum_by_perm _ _ _ (isort_perm _ _)), app_nil_l, versionsOf_total, versions_sum. done.
Qed.

(** The layers split into stale, unidentified and charted rows. *)
Lemma inLayer_split L groups :
  rowsWhere (charted L) groups + rowsWhere (fun k => fresh L k && negb (identified k)) groups =
  rowsWhere (inLayer L) groups - rowsWhere (fun k => inLayer L k && reads (readinessName Stale) k) groups.
Proof.
  induction groups as [|g groups IH] using rev_ind; [done|]. rewrite !rowsWhere_snoc.
  unfold charted, fresh, reads in *. set (k := g_key g).
  assert (bool_decide (readingOf k = Stale) = (readinessName (readingOf k) =? readinessName Stale)%string) as -> by by destruct (readingOf k).
  destruct (inLayer L k), (readinessName (readingOf k) =? readinessName Stale)%string, (identified k); cbn [andb negb]; lia.
Qed.

Definition layerOf (releases : list ClientRelease) (groups : list Group) (L : string) : LayerReadiness :=
  default emptyLayer (reportLayers releases groups !! L).

Definition sortedByTotal {A} (total : A -> Z) (name : A -> string) : list A -> Prop :=
  StronglySorted (fun x y => total y < total x \/ total x = total y /\ String.leb (name x) (name y) = true).

Lemma isort_byTotal {A} (total : A -> Z) name (l : list A) : sortedByTotal total name (isort (byTotal total name) l).
Proof.
  eapply sorted_impl; [|apply isort_sorted; [apply byTotal_total|apply byTotal_trans]].
  intros x y. unfold leP, byTotal. destruct (Z.eqb_spec (total x) (total y)); cbn [negb]; intros H; boolify; auto.
Qed.

End Report.
