(* ===== verification/ReadinessAgree.v ===== *)
(** The history point of the crawler and the live report of the API count the same
    rows the same way, as the comment of [readinessPointAt] promises. *)

From stdpp Require Import base gmap strings list numbers.
From Stdlib Require Import ZArith Lia.
From S2P Require Import Prelude GoLib Counting Text Clientname Hashes Consensus ForkId Network Readiness NodeData Releases History ForkReadiness.

Section Agree.
Context (registry : list Network) (target : ForkTarget) (network : string) (at_ : Time).
Context (normalizedVersion syncState : Row -> string).

Abbreviation keyOf := (groupKeyOf at_ normalizedVersion syncState).

(** * Grouping *)

Lemma rowsWhere_groupRows p rows :
  rowsWhere p (groupRows network at_ normalizedVersion syncState rows) =
  zsum_by (fun r => if inReport network r && p (keyOf r) then 1 else 0) rows.
Proof.
  unfold rowsWhere, groupRows. cbv zeta. rewrite zsum_by_map. cbn [g_key g_count].
  set (keys := map keyOf (List.filter (inReport network) rows)).
  transitivity (zsum_by (fun k => (if p k then 1 else 0) * occurrences k keys) (remove_dups keys)).
  { apply zsum_by_ext. intros k _. destruct (p k); lia. }
  rewrite zsum_by_grouped; [|apply NoDup_remove_dups|intros; by apply elem_of_remove_dups].
  unfold keys. rewrite zsum_by_map, zsum_by_filter. apply zsum_by_ext. intros r _. by destruct (inReport network r), (p (keyOf r)).
Qed.

(** * Points *)

Definition pointCounts (p : ReadinessPoint) (L : string) : gmap string Z :=
  default ∅ (if (L =? "el")%string then p_EL p else if (L =? "cl")%string then p_CL p else None).
Definition pointClients (p : ReadinessPoint) (L : string) : gmap string (gmap string Z) :=
  default ∅ (if (L =? "el")%string then p_ELClients p else if (L =? "cl")%string then p_CLClients p else None).
Definition clientCount (p : ReadinessPoint) (L C n : string) : Z := countAt (default ∅ (pointClients p L !! C)) n.

(** The rows a point counts. *)
Definition inPoint (r : Row) : bool :=
  negb (EqualFold (r_Client r) Self) && ((r_Layer r =? "el")%string || (r_Layer r =? "cl")%string).
Definition recordedAs (n : string) (r : Row) : bool :=
  (readinessName (recordedReadiness target (r_Layer r) (readingOf registry target network at_ (keyOf r))) =? n)%string.

Lemma countRow_counts readiness ch client counts clients n :
  countAt (countRow readiness ch client counts clients).1 n = countAt counts n + (if (readinessName readiness =? n)%string then 1 else 0).
Proof. unfold countRow. destruct (_ || _); cbn [fst]; apply countAt_addTo. Qed.

Lemma countRow_clients readiness ch client counts clients C n :
  countAt (default ∅ ((countRow readiness ch client counts clients).2 !! C)) n =
  countAt (default ∅ (clients !! C)) n +
  (if negb (bool_decide (readiness = Stale)) && ch && (client =? C)%string && (readinessName readiness =? n)%string then 1 else 0).
Proof.
  unfold countRow. destruct (bool_decide (readiness = Stale)); cbn [orb negb andb snd]; [lia|]. destruct ch; cbn [negb andb snd]; [|lia].
  destruct (String.eqb_spec client C) as [->|Hne]; [|rewrite lookup_insert_ne by done; cbn [andb]; lia].
  rewrite lookup_insert_eq. cbn [default from_option id andb]. apply countAt_addTo.
Qed.

(** A point has the maps of the tracked layers. *)
Definition shaped (p : ReadinessPoint) : Prop :=
  (is_Some (p_EL p) <-> is_Some (ft_EL target)) /\ (is_Some (p_CL p) <-> is_Some (ft_CL target)).

Lemma recorded_stale L x : recordedReadiness target L x = Stale <-> x = Stale.
Proof. unfold recordedReadiness. destruct (cancelledLayer target L), x; split; congruence. Qed.

Lemma recorded_name L x y :
  (readinessName (recordedReadiness target L x) =? readinessName (recordedReadiness target L y))%string = bool_decide (x = y).
Proof. unfold recordedReadiness. destruct (cancelledLayer target L), x, y; done. Qed.

Definition counts_row (p p' : ReadinessPoint) (r : Row) : Prop :=
  shaped p' /\
  (forall L n, countAt (pointCounts p' L) n = countAt (pointCounts p L) n + (if inPoint r && inLayer target L (keyOf r) && recordedAs n r then 1 else 0)) /\
  (forall L C n, clientCount p' L C n = clientCount p L C n +
     (if inPoint r && ofClient registry target network at_ L C (keyOf r) && recordedAs n r then 1 else 0)).

Lemma counts_row_skip p r : shaped p -> inPoint r = false \/ untracked target (keyOf r) = true -> counts_row p p r.
Proof.
  intros Hp H. split; [done|]. assert (forall L, inPoint r && inLayer target L (keyOf r) = false) as Hi.
  { intros L. unfold inLayer. destruct H as [->| ->]; cbn [andb negb]; [done|]. apply andb_false_r. }
  split; [intros L n; rewrite Hi; cbn [andb]; lia|]. intros L C n. unfold ofClient, charted, fresh.
  specialize (Hi L). destruct (inPoint r); cbn [andb] in *; [rewrite Hi; cbn [andb]|]; lia.
Qed.

Definition chartedRow (r : Row) : bool := Charted (r_FPStatus r) (r_FPAt r) at_ && Recognized (r_Layer r) (r_Client r).
Definition recordedRow (r : Row) : Readiness :=
  recordedReadiness target (r_Layer r) (ReadinessAt registry target network (rowEvidence r) at_).

Lemma counts_row_counted p p' r :
  shaped p' -> inPoint r = true -> untracked target (keyOf r) = false ->
  (forall L, (pointCounts p' L, pointClients p' L) =
    if (r_Layer r =? L)%string then countRow (recordedRow r) (chartedRow r) (r_Client r) (pointCounts p L) (pointClients p L)
    else (pointCounts p L, pointClients p L)) ->
  counts_row p p' r.
Proof.
  intros Hp Hi Hu H. split; [done|]. rewrite Hi. unfold inLayer, recordedAs, clientCount.
  assert (ev_Layer (g_ev (keyOf r)) = r_Layer r) as El by done. rewrite Hu. cbn [andb negb]. split.
  - intros L n. specialize (H L). rewrite El. destruct (r_Layer r =? L)%string; [|injection H as Hx1 Hx2; rewrite ?Hx1, ?Hx2; cbn [andb]; lia].
    apply (f_equal fst) in H. cbn [fst] in H. rewrite H, countRow_counts. done.
  - intros L C n. specialize (H L). unfold ofClient, charted, fresh, inLayer. rewrite El, Hu. cbn [andb negb].
    destruct (r_Layer r =? L)%string; [|injection H as Hx1 Hx2; rewrite ?Hx1, ?Hx2; cbn [andb]; lia].
    apply (f_equal snd) in H. cbn [snd] in H. rewrite H, countRow_clients. cbn [andb].
    assert (bool_decide (recordedRow r = Stale) = bool_decide (readingOf registry target network at_ (keyOf r) = Stale)) as ->; [|done].
    apply bool_decide_ext, recorded_stale.
Qed.

Lemma pointRow_counts p r : shaped p -> counts_row p (pointRow registry target network at_ p r) r.
Proof.
  intros Hp. unfold pointRow. destruct (EqualFold (r_Client r) Self) eqn:Es; [apply counts_row_skip; [done|left; unfold inPoint; by rewrite Es]|].
  fold (recordedRow r) (chartedRow r). cbv zeta. destruct (String.eqb_spec (r_Layer r) "el") as [El|Hel]; [|destruct (String.eqb_spec (r_Layer r) "cl") as [Ec|Hcl]].
  - assert (untracked target (keyOf r) = match ft_EL target with None => true | _ => false end) as Eu.
    { unfold untracked. cbn [groupKeyOf g_ev rowEvidence ev_Layer]. rewrite El. cbn. by rewrite orb_false_r. }
    destruct Hp as [H1 H2]. destruct (p_EL p) as [counts|] eqn:Ep.
    + destruct (countRow _ _ _ _ _) as [counts' clients'] eqn:Er. apply counts_row_counted.
      * split; cbn [p_EL p_CL]; [|done]. split; intros _; [apply H1; by eexists|by eexists].
      * unfold inPoint. by rewrite Es, El.
      * rewrite Eu. destruct H1 as [H1 _]. destruct H1 as [? ->]; [by eexists|done].
      * intros L. unfold pointCounts, pointClients. cbn [p_EL p_CL p_ELClients p_CLClients]. rewrite Ep, El, (String.eqb_sym "el" L).
        destruct (L =? "el")%string; [etrans; [symmetry; exact Er|reflexivity]|done].
    + apply counts_row_skip; [split; [by rewrite Ep|done]|right]. rewrite Eu. destruct (ft_EL target); [|done].
      destruct H1 as [_ H1]. destruct H1 as [? ?]; [by eexists|done].
  - assert (untracked target (keyOf r) = match ft_CL target with None => true | _ => false end) as Eu.
    { unfold untracked. cbn [groupKeyOf g_ev rowEvidence ev_Layer]. rewrite Ec. done. }
    destruct Hp as [H1 H2]. destruct (p_CL p) as [counts|] eqn:Ep.
    + destruct (countRow _ _ _ _ _) as [counts' clients'] eqn:Er. apply counts_row_counted.
      * split; cbn [p_EL p_CL]; [done|]. split; intros _; [apply H2; by eexists|by eexists].
      * unfold inPoint. by rewrite Es, Ec.
      * rewrite Eu. destruct H2 as [H2 _]. destruct H2 as [? ->]; [by eexists|done].
      * intros L. unfold pointCounts, pointClients. cbn [p_EL p_CL p_ELClients p_CLClients]. rewrite Ep, Ec, (String.eqb_sym "cl" L).
        destruct (String.eqb_spec L "el") as [->|_]; [done|]. destruct (L =? "cl")%string; [etrans; [symmetry; exact Er|reflexivity]|done].
    + apply counts_row_skip; [split; [done|by rewrite Ep]|right]. rewrite Eu. destruct (ft_CL target); [|done].
      destruct H2 as [_ H2]. destruct H2 as [? ?]; [by eexists|done].
  - apply counts_row_skip; [done|left]. apply String.eqb_neq in Hel, Hcl. unfold inPoint. rewrite Hel, Hcl. apply andb_false_r.
Qed.

Definition rowCount (p : Row -> bool) (rows : list Row) : Z := zsum_by (fun r => if p r then 1 else 0) rows.

Lemma points_counts rows p :
  shaped p ->
  let p' := foldl (pointRow registry target network at_) p rows in
  (forall L n, countAt (pointCounts p' L) n =
     countAt (pointCounts p L) n + rowCount (fun r => inPoint r && inLayer target L (keyOf r) && recordedAs n r) rows) /\
  (forall L C n, clientCount p' L C n =
     clientCount p L C n + rowCount (fun r => inPoint r && ofClient registry target network at_ L C (keyOf r) && recordedAs n r) rows).
Proof.
  cbv zeta. revert p. induction rows as [|r rows IH]; intros p Hp; [unfold rowCount, zsum_by; cbn; split; intros; lia|].
  cbn [foldl]. destruct (pointRow_counts p r Hp) as (Hs & H1 & H2). destruct (IH _ Hs) as [IH1 IH2]. unfold rowCount. split; intros.
  - rewrite IH1, H1, zsum_by_cons. unfold rowCount. lia.
  - rewrite IH2, H2, zsum_by_cons. unfold rowCount. lia.
Qed.

Lemma readinessPointAt_counts rows :
  let p := readinessPointAt registry target network rows at_ in
  (forall L n, countAt (pointCounts p L) n = rowCount (fun r => inPoint r && inLayer target L (keyOf r) && recordedAs n r) rows) /\
  (forall L C n, clientCount p L C n = rowCount (fun r => inPoint r && ofClient registry target network at_ L C (keyOf r) && recordedAs n r) rows).
Proof.
  cbv zeta. unfold readinessPointAt. cbv zeta. match goal with |- context [foldl _ ?p rows] => destruct (points_counts rows p) as [H1 H2] end.
  { split; cbn [p_EL p_CL]; [destruct (ft_EL target)|destruct (ft_CL target)]; split; intros [? H]; by (done || eexists). }
  split; intros; [rewrite H1|rewrite H2].
  - assert (forall q, pointCounts q L = ∅ -> countAt (pointCounts q L) n = 0) as He by (intros q ->; done). rewrite He; [lia|].
    unfold pointCounts. cbn [p_EL p_CL]. by destruct (L =? "el")%string, (L =? "cl")%string, (ft_EL target), (ft_CL target).
  - assert (forall q, pointClients q L = ∅ -> clientCount q L C n = 0) as He by (intros q Hq; unfold clientCount; rewrite Hq, lookup_empty; done).
    rewrite He; [lia|]. unfold pointClients. cbn [p_ELClients p_CLClients].
    by destruct (L =? "el")%string, (L =? "cl")%string, (ft_EL target), (ft_CL target).
Qed.

Lemma readinessName_eq x y : (readinessName x =? readinessName y)%string = bool_decide (x = y).
Proof. by destruct x, y. Qed.

(** * Agreement *)

Definition findClient (C : string) (cs : list ClientReadiness) : option ClientReadiness := List.find (fun c => (cl_Client c =? C)%string) cs.

Lemma reported_client releases groups L C n :
  countAt (match findClient C (lr_Clients (layerOf registry target network at_ releases groups L)) with Some c => cl_Counts c | None => ∅ end) n =
  rowsWhere (fun k => ofClient registry target network at_ L C k && reads registry target network at_ n k) groups.
Proof.
  unfold layerOf. rewrite report_layer. cbv zeta. unfold finishLayer. cbn [lr_Clients]. rewrite layer_no_clients, app_nil_l.
  unfold findClient. destruct (List.find _ _) as [c|] eqn:E.
  - apply find_some in E as [Hc HC]. apply String.eqb_eq in HC. apply list_elem_of_In, elem_of_isort, elem_of_clientsOf in Hc as (C' & x & Hx & ->).
    destruct (client_listed _ _ _ _ _ _ _ _ _ Hx) as (HC' & _ & _ & _ & _ & H). cbv zeta in HC'. rewrite HC' in HC. subst. by rewrite H.
  - assert (ta_clients (tallies registry target network at_ releases groups) !! (L, C) = None) as Hn.
    { destruct (ta_clients _ !! _) as [x|] eqn:Ex; [|done]. exfalso. pose proof (client_listed _ _ _ _ _ _ _ _ _ Ex) as (HC & _).
      apply (find_none _ _) with (x := finishClient (tallies registry target network at_ releases groups) L x) in E; [rewrite HC, String.eqb_refl in E; done|].
      apply list_elem_of_In, elem_of_isort, elem_of_clientsOf. by eexists _, _. }
    rewrite <- client_counts with (releases := releases). unfold clientAt. rewrite Hn. cbn [default from_option cl_Counts].
    rewrite countAt_new. done.
Qed.

End Agree.

(** * Witness *)

(** A day before the demo fork, two execution nodes on the current fork: one announces it. *)
Definition agreeAt : Time := time_Unix 1789900000.
Definition agreeRegistry : list Network := [load demoNetwork].
Definition agreeRow (id : string) (next : Z) : Row :=
  MkRow id "" "" 0 "" "" 0 0 0 0 0 0 "demo" (hex_encode (fid_Hash (currentForkIDAt (load demoNetwork) agreeAt))) next "el"
    0 false true false 0 0 0 0 0 "Geth" "v1.17.0" "linux" "go" "" "" "" "" 0 0 0 "" false false false 0 "ok" 0 1789899000 0
    "status" 0 "status" 0 "out" false 0 0 "" "" 0.
Definition agreeRows : list Row := [agreeRow "a" 1790000000; agreeRow "b" 0; agreeRow "c" 0].

