(* ===== verification/Calendar.v ===== *)
(** Calendar text of instants: [time.Time.Format] and [time.Parse] of the Go standard
    library for the layout [2006-01-02T15:04:05.000000000Z] of generation keys.

    Dates are those of the proleptic Gregorian calendar.  Parsing keeps Go's
    leniency: an hour of one digit, a comma for the fraction's point and a sign
    before its digits are accepted. *)

From stdpp Require Import base gmap strings list numbers pretty.
From Stdlib Require Import ZArith Lia Ascii.
From S2P Require Import Prelude GoLib Text.

(** * Dates *)

Definition Day : Duration := 24 * Hour.

Definition isLeap (y : Z) : bool := (y mod 4 =? 0) && (negb (y mod 100 =? 0) || (y mod 400 =? 0)).
Definition daysInMonth (m : Z) (leap : bool) : Z :=
  if m =? 2 then (if leap then 29 else 28)
  else if (m =? 4) || (m =? 6) || (m =? 9) || (m =? 11) then 30 else 31.
Definition daysIn (m y : Z) : Z := daysInMonth m (isLeap y).

(** Month and day of a day of the year, from month [m] on. *)
Fixpoint monthDay (fuel : nat) (leap : bool) (m yday : Z) : Z * Z :=
  match fuel with
  | O => (m, yday + 1)
  | S fuel => if yday <? daysInMonth m leap then (m, yday + 1) else monthDay fuel leap (m + 1) (yday - daysInMonth m leap)
  end.

(** Year, month and day of a count of days since 1 January of year 1: cycles of four
    hundred, a hundred and four years are cut off, then years, then months. *)
Definition civil (days : Z) : Z * Z * Z :=
  let d := days mod 146097 in
  let n100 := Z.min 3 (d / 36524) in
  let d := d - 36524 * n100 in
  let n4 := d / 1461 in
  let d := d mod 1461 in
  let n1 := Z.min 3 (d / 365) in
  let y := 400 * (days / 146097) + 100 * n100 + 4 * n4 + n1 + 1 in
  let '(m, day) := monthDay 11 (isLeap y) 1 (d - 365 * n1) in (y, m, day).

(** The count of days before a month and before a date. *)
Definition daysBefore (leap : bool) (m : Z) : Z :=
  foldl (fun acc i => acc + daysInMonth (Z.of_nat i) leap) 0 (seq 1 (Z.to_nat (m - 1))).
Definition daysOf (y m d : Z) : Z :=
  365 * (y - 1) + (y - 1) / 4 - (y - 1) / 100 + (y - 1) / 400 + daysBefore (isLeap y) m + (d - 1).

(** * Digits *)

(** [v] in [n] decimal digits. *)
Definition digit (v : Z) : ascii := byte_of (48 + v).
Fixpoint decimals (n : nat) (v : Z) (tail : string) : string :=
  match n with O => tail | S n' => decimals n' (v / 10) (String (digit (v mod 10)) tail) end.

(** [appendInt(b, v, width)] of a number that is not negative. *)
Definition appendInt (v : Z) (width : nat) : string :=
  if v <? 10 ^ Z.of_nat width then decimals width v "" else pretty v.

Definition digitVal (c : ascii) : option Z := if is_digit c then Some (byte_val c - 48) else None.

(** [leadingInt] over a whole string of at least no digits. *)
Fixpoint digitsOf (acc : Z) (s : string) : option Z :=
  match s with
  | EmptyString => Some acc
  | String c s' => match digitVal c with Some v => digitsOf (acc * 10 + v) s' | None => None end
  end.

(** [atoi] of short digit strings, which do not overflow. *)
Definition atoi (s : string) : option Z :=
  match s with
  | String c s' =>
      if (c =? "-")%char then match digitsOf 0 s' with Some v => Some (- v) | None => None end
      else if (c =? "+")%char then digitsOf 0 s' else digitsOf 0 s
  | EmptyString => digitsOf 0 s
  end.

(** [getnum]. *)
Definition getnum (s : string) (fixed : bool) : option (Z * string) :=
  match s with
  | String c s' =>
      match digitVal c with
      | None => None
      | Some v =>
          match s' with
          | String c' s'' => match digitVal c' with Some v' => Some (v * 10 + v', s'') | None => if fixed then None else Some (v, s') end
          | EmptyString => if fixed then None else Some (v, s')
          end
      end
  | EmptyString => None
  end.

(** A literal of the layout. *)
Definition skip (c : ascii) (s : string) : option string :=
  match s with String c' s' => if (c' =? c)%char then Some s' else None | EmptyString => None end.

(** * The layout *)

Definition formatGenTime (t : Time) : string :=
  let '(y, m, d) := civil (t / Day) in
  let s := t mod Day / Second in
  appendInt y 4 +:+ "-" +:+ appendInt m 2 +:+ "-" +:+ appendInt d 2 +:+ "T" +:+ appendInt (s / 3600) 2 +:+ ":" +:+
  appendInt (s / 60 mod 60) 2 +:+ ":" +:+ appendInt (s mod 60) 2 +:+ "." +:+ appendInt (t mod Second) 9 +:+ "Z".

Definition parseYear (s : string) : option (Z * string) :=
  match s with
  | String c _ => if negb (is_digit c) || (slen s <? 4) then None
                  else match atoi (stake 4 s) with Some y => Some (y, sdrop 4 s) | None => None end
  | EmptyString => None
  end.

(** The fraction: a point or comma and nine more characters. *)
Definition parseFraction (s : string) : option (Z * string) :=
  match s with
  | String c s' =>
      if negb ((c =? ".")%char || (c =? ",")%char) || (slen s <? 10) then None
      else match atoi (stake 9 s') with
           | Some ns => if ns <? 0 then None else Some (ns, sdrop 9 s')
           | None => None
           end
  | EmptyString => None
  end.

Definition parseGenTime (s : string) : option Time :=
  '(y, s) ← parseYear s;
  s ← skip "-" s;
  '(m, s) ← getnum s true;
  s ← skip "-" s;
  '(d, s) ← getnum s true;
  s ← skip "T" s;
  '(hh, s) ← getnum s false;
  s ← skip ":" s;
  '(mm, s) ← getnum s true;
  s ← skip ":" s;
  '(ss, s) ← getnum s true;
  '(ns, s) ← parseFraction s;
  s ← skip "Z" s;
  if negb (s =? "")%string then None
  else if (m <? 1) || (12 <? m) || (24 <=? hh) || (60 <=? mm) || (60 <=? ss) then None
  else if (d <? 1) || (daysIn m y <? d) then None
  else Some (daysOf y m d * Day + (hh * 3600 + mm * 60 + ss) * Second + ns).

Example format_example : formatGenTime (time_Unix 1789900000 + 5) = "2026-09-20T10:26:40.000000005Z".
Proof. vm_compute. reflexivity. Qed.
Example parse_example : parseGenTime "2026-09-20T10:26:40.000000005Z" = Some (time_Unix 1789900000 + 5).
Proof. vm_compute. reflexivity. Qed.
Example parse_bad_day : parseGenTime "2026-02-29T11:06:40.000000005Z" = None.
Proof. vm_compute. reflexivity. Qed.

(** * Dates read back *)

Definition dayOk (leap : bool) (yday : Z) : bool :=
  let '(m, d) := monthDay 11 leap 1 yday in
  (1 <=? m) && (m <=? 12) && (1 <=? d) && (d <=? daysInMonth m leap) && (daysBefore leap m + (d - 1) =? yday).

Lemma monthDay_ok (leap : bool) yday : 0 <= yday < 365 + (if leap then 1 else 0) ->
  let '(m, d) := monthDay 11 leap 1 yday in 1 <= m <= 12 /\ 1 <= d <= daysInMonth m leap /\ daysBefore leap m + (d - 1) = yday.
Proof.
  intros H. assert (dayOk leap yday = true) as Hok.
  { assert (forallb (dayOk leap) (seqZ 0 (365 + (if leap then 1 else 0))) = true) as Hall by (destruct leap; vm_compute; reflexivity).
    apply (proj1 (forallb_forall _ _) Hall), list_elem_of_In, elem_of_seqZ. lia. }
  unfold dayOk in Hok. destruct (monthDay 11 leap 1 yday) as [m d]. boolify. lia.
Qed.

(** A year split into its cycles. *)
Lemma year_split a b c e : 0 <= b <= 3 -> 0 <= c <= 24 -> 0 <= e <= 3 ->
  let y := 400 * a + 100 * b + 4 * c + e + 1 in
  365 * (y - 1) + (y - 1) / 4 - (y - 1) / 100 + (y - 1) / 400 = 146097 * a + 36524 * b + 1461 * c + 365 * e /\
  (isLeap y = true <-> e = 3 /\ (c < 24 \/ b = 3)).
Proof.
  intros Hb Hc He. cbv zeta. set (y := 400 * a + 100 * b + 4 * c + e + 1). split; [|unfold isLeap; split].
  - assert ((y - 1) / 4 = 100 * a + 25 * b + c) as -> by (symmetry; apply Z.div_unique with e; lia).
    assert ((y - 1) / 100 = 4 * a + b) as -> by (symmetry; apply Z.div_unique with (4 * c + e); lia).
    assert ((y - 1) / 400 = a) as -> by (symmetry; apply Z.div_unique with (100 * b + 4 * c + e); lia). lia.
  - intros H. boolify. assert (e = 3) as -> by (Z.to_euclidean_division_equations; lia). split; [done|].
    destruct (decide (c = 24)) as [->|]; [right|lia]. destruct (decide (b = 3)) as [|Hn]; [done|].
    assert (y mod 100 = 0) as E by (symmetry; apply Z.mod_unique with (4 * a + b + 1); lia).
    assert (y mod 400 = 100 * (b + 1)) as E' by (symmetry; apply Z.mod_unique with a; lia). rewrite E, E' in *. cbn in *. lia.
  - intros [-> H]. assert (y mod 4 = 0) as -> by (symmetry; apply Z.mod_unique with (100 * a + 25 * b + c + 1); lia). cbn [andb Z.eqb].
    apply orb_true_iff. destruct (decide (c = 24)) as [->|].
    + right. assert (b = 3) as -> by lia. apply Z.eqb_eq. symmetry. apply Z.mod_unique with (a + 1); lia.
    + left. apply negb_true_iff, Z.eqb_neq. assert (y mod 100 = 4 * (c + 1)) as ->; [|lia].
      symmetry. apply Z.mod_unique with (4 * a + b); lia.
Qed.

Lemma daysOf_civil days :
  let '(y, m, d) := civil days in 1 <= m <= 12 /\ 1 <= d <= daysIn m y /\ daysOf y m d = days.
Proof.
  unfold civil. cbv zeta. set (a := days / 146097). set (d := days mod 146097).
  pose proof (Z.div_mod days 146097 ltac:(lia)) as Hd. fold a d in Hd. pose proof (Z.mod_pos_bound days 146097 ltac:(lia)) as Hb. fold d in Hb.
  set (b := Z.min 3 (d / 36524)). assert (0 <= b <= 3 /\ 0 <= d - 36524 * b < 36524 + (if b =? 3 then 1 else 0)) as [Hb3 Hd2].
  { unfold b. destruct (Z.eqb_spec (Z.min 3 (d / 36524)) 3); Z.to_euclidean_division_equations; lia. }
  set (d2 := d - 36524 * b) in *. set (c := d2 / 1461). set (d3 := d2 mod 1461).
  pose proof (Z.div_mod d2 1461 ltac:(lia)) as Hd3. fold c d3 in Hd3. pose proof (Z.mod_pos_bound d2 1461 ltac:(lia)) as Hc. fold d3 in Hc.
  assert (0 <= c <= 24) as Hc24 by (destruct (b =? 3); lia).
  set (e := Z.min 3 (d3 / 365)). assert (0 <= e <= 3 /\ 0 <= d3 - 365 * e <= 365 /\ (e < 3 -> d3 - 365 * e < 365)) as (He & Hy & Hy').
  { unfold e. Z.to_euclidean_division_equations. lia. }
  pose proof (year_split a b c e Hb3 Hc24 He) as [Hsum Hleap]. cbv zeta in Hsum, Hleap.
  set (y := 400 * a + 100 * b + 4 * c + e + 1) in *. set (yday := d3 - 365 * e) in *.
  assert (0 <= yday < 365 + (if isLeap y then 1 else 0)) as Hyd.
  { destruct (isLeap y) eqn:El; [lia|]. assert (~ (e = 3 /\ (c < 24 \/ b = 3))) as Hn by (intros H; apply Hleap in H; congruence).
    destruct (decide (e = 3)) as [E3|]; [|lia]. assert (c = 24 /\ b <> 3) as [Ec Eb] by lia. destruct (Z.eqb_spec b 3); lia. }
  pose proof (monthDay_ok (isLeap y) yday Hyd) as Hm. destruct (monthDay 11 (isLeap y) 1 yday) as [m day].
  destruct Hm as (Hm1 & Hm2 & Hm3). split; [done|]. split; [done|]. unfold daysOf. lia.
Qed.

(** * Digits read back *)

Lemma digitVal_digit v : 0 <= v < 10 -> digitVal (digit v) = Some v.
Proof.
  intros H. unfold digitVal, digit, is_digit. rewrite byte_val_of, Z.mod_small by lia.
  destruct ((48 <=? 48 + v) && (48 + v <=? 57)) eqn:E; [f_equal; lia|boolify; lia].
Qed.

Lemma decimals_tail n v tail : decimals n v tail = decimals n v "" +:+ tail.
Proof.
  revert v tail. induction n as [|n IH]; intros v tail; [done|]. cbn [decimals].
  rewrite (IH _ (String _ tail)), (IH _ (String _ "")), <- sapp_assoc. done.
Qed.

Lemma length_decimals n v : String.length (decimals n v "") = n.
Proof.
  revert v. induction n as [|n IH]; intros v; [done|]. cbn [decimals]. rewrite decimals_tail, length_sapp, IH. cbn. lia.
Qed.

Lemma digitsOf_app acc s t : digitsOf acc (s +:+ t) = match digitsOf acc s with Some v => digitsOf v t | None => None end.
Proof.
  revert acc. induction s as [|c s IH]; intros acc; [done|]. rewrite sapp_cons. cbn [digitsOf].
  destruct (digitVal c); [apply IH|done].
Qed.

Lemma digitsOf_decimals n v acc : 0 <= v < 10 ^ Z.of_nat n -> digitsOf acc (decimals n v "") = Some (acc * 10 ^ Z.of_nat n + v).
Proof.
  revert v acc. induction n as [|n IH]; intros v acc Hv.
  - cbn in *. f_equal. lia.
  - rewrite Nat2Z.inj_succ, Z.pow_succ_r in * by lia. cbn [decimals]. rewrite decimals_tail, digitsOf_app, IH.
    + cbn [digitsOf]. rewrite digitVal_digit by (apply Z.mod_pos_bound; lia). f_equal.
      pose proof (Z.div_mod v 10 ltac:(lia)). lia.
    + split; [apply Z.div_pos; lia|apply Z.div_lt_upper_bound; lia].
Qed.

(** The first digit is a digit, so [atoi] sees no sign. *)
Lemma decimals_S n v tail : decimals (S n) v tail = decimals n (v / 10) (String (digit (v mod 10)) tail).
Proof. done. Qed.

Lemma decimals_head n v tail : 0 <= v < 10 ^ Z.of_nat (S n) ->
  exists x s, 0 <= x < 10 /\ decimals (S n) v tail = String (digit x) s.
Proof.
  revert v tail. induction n as [|n IH]; intros v tail Hv; rewrite decimals_S.
  - exists (v mod 10), tail. split; [apply Z.mod_pos_bound; lia|done].
  - apply IH. rewrite (Nat2Z.inj_succ (S n)), Z.pow_succ_r in Hv by lia. split; [apply Z.div_pos; lia|apply Z.div_lt_upper_bound; lia].
Qed.

Lemma digit_sign x : 0 <= x < 10 -> (digit x =? "-")%char = false /\ (digit x =? "+")%char = false.
Proof.
  intros H. assert (x = 0 \/ x = 1 \/ x = 2 \/ x = 3 \/ x = 4 \/ x = 5 \/ x = 6 \/ x = 7 \/ x = 8 \/ x = 9) as Hx by lia.
  repeat destruct Hx as [->|Hx]; subst; done.
Qed.

Lemma atoi_decimals n v : 0 <= v < 10 ^ Z.of_nat (S n) -> atoi (decimals (S n) v "") = Some v.
Proof.
  intros Hv. destruct (decimals_head n v "" Hv) as (x & s & Hx & E). pose proof (digit_sign x Hx) as [H1 H2].
  rewrite E. unfold atoi. rewrite H1, H2, <- E, digitsOf_decimals by done. f_equal; lia.
Qed.

Lemma getnum_decimals v tail fixed : 0 <= v < 100 -> getnum (decimals 2 v "" +:+ tail) fixed = Some (v, tail).
Proof.
  intros Hv. cbn [decimals]. rewrite !sapp_cons. change ("" +:+ tail) with tail. cbn [getnum].
  rewrite !digitVal_digit; [|apply Z.mod_pos_bound; lia|apply Z.mod_pos_bound; lia]. do 2 f_equal.
  pose proof (Z.div_mod v 10 ltac:(lia)). assert (v / 10 < 10) by (apply Z.div_lt_upper_bound; lia).
  assert (0 <= v / 10) by (apply Z.div_pos; lia). rewrite (Z.mod_small (v / 10)) by lia. lia.
Qed.

Lemma parseYear_decimals y tail : 0 <= y < 10000 -> parseYear (decimals 4 y "" +:+ tail) = Some (y, tail).
Proof.
  intros Hy. destruct (decimals_head 3 y "" Hy) as (x & s & Hx & E).
  assert (is_digit (digit x) = true) as Hd.
  { pose proof (digitVal_digit x Hx) as H. unfold digitVal in H. by destruct (is_digit (digit x)). }
  assert (parseYear (decimals 4 y "" +:+ tail) =
    match atoi (stake 4 (decimals 4 y "" +:+ tail)) with Some y' => Some (y', sdrop 4 (decimals 4 y "" +:+ tail)) | None => None end) as ->.
  { unfold parseYear. rewrite E at 1. rewrite sapp_cons, Hd. unfold slen. rewrite length_sapp, length_decimals.
    cbn [negb orb]. destruct (Z.ltb_spec (Z.of_nat (4 + String.length tail)) 4); [lia|done]. }
  rewrite stake_app, sdrop_app by apply length_decimals. by rewrite (atoi_decimals 3) by lia.
Qed.

Lemma parseFraction_decimals v tail : 0 <= v < Second -> parseFraction ("." +:+ decimals 9 v "" +:+ tail) = Some (v, tail).
Proof.
  intros Hv. change ("." +:+ decimals 9 v "" +:+ tail) with (String "." (decimals 9 v "" +:+ tail)). unfold parseFraction.
  change (("." =? ".")%char) with true. cbn [orb negb]. unfold slen. cbn [String.length].
  rewrite length_sapp, length_decimals. destruct (Z.ltb_spec (Z.of_nat (S (9 + String.length tail))) 10); [lia|].
  rewrite stake_app, sdrop_app by apply length_decimals. rewrite (atoi_decimals 8) by (unfold Second in Hv; lia).
  destruct (Z.ltb_spec v 0); [lia|done].
Qed.

(** * The round trip *)

(** 1 January of the year 10000. *)
Definition year10000 : Time := 3652059 * Day.

Lemma civil_year days : 0 <= days < 3652059 -> let '(y, _, _) := civil days in 0 <= y < 10000.
Proof.
  intros H. unfold civil. cbv zeta. destruct (monthDay _ _ _ _) as [m d]. Z.to_euclidean_division_equations. lia.
Qed.

Lemma appendInt_small v width : 0 <= v < 10 ^ Z.of_nat width -> appendInt v width = decimals width v "".
Proof. intros H. unfold appendInt. destruct (Z.ltb_spec v (10 ^ Z.of_nat width)); [done|lia]. Qed.

Lemma skip_cons c s : skip c (String c s) = Some s.
Proof. cbn. by rewrite Ascii.eqb_refl. Qed.

Lemma parse_formatGenTime t : 0 <= t < year10000 -> parseGenTime (formatGenTime t) = Some t.
Proof.
  intros Ht. unfold formatGenTime. set (days := t / Day). assert (0 <= days < 3652059) as Hdays.
  { unfold days, year10000 in *. assert (0 < Day) by done. split; [apply Z.div_pos; lia|apply Z.div_lt_upper_bound; lia]. }
  pose proof (daysOf_civil days) as Hc. pose proof (civil_year days Hdays) as Hy. destruct (civil days) as [[y m] d].
  destruct Hc as (Hm & Hd & Hdd). set (s := t mod Day / Second). set (ns := t mod Second).
  assert (0 <= s < 86400) as Hs.
  { unfold s. pose proof (Z.mod_pos_bound t Day ltac:(done)). change Day with (86400 * Second) in *. assert (0 < Second) by done.
    split; [apply Z.div_pos; lia|apply Z.div_lt_upper_bound; lia]. }
  assert (0 <= ns < Second) as Hns by (apply Z.mod_pos_bound; done).
  assert (t = days * Day + (s / 3600 * 3600 + s / 60 mod 60 * 60 + s mod 60) * Second + ns) as Et.
  { unfold days, s, ns, Day, Hour, Minute, Second. Z.to_euclidean_division_equations. lia. }
  assert (d <= 31) as Hd31 by (unfold daysIn, daysInMonth in Hd; repeat case_match; lia).
  rewrite !appendInt_small by (cbn; unfold Second in *; Z.to_euclidean_division_equations; lia).
  unfold parseGenTime. rewrite parseYear_decimals by lia. cbn [mbind option_bind].
  repeat (rewrite (sapp_cons _ "") || change ("" +:+ ?x) with x).
  do 5 (rewrite skip_cons; cbn [mbind option_bind]; rewrite getnum_decimals by (Z.to_euclidean_division_equations; lia);
    cbn [mbind option_bind]).
  change (String "." (decimals 9 ns "" +:+ "Z")) with ("." +:+ decimals 9 ns "" +:+ "Z"). rewrite parseFraction_decimals by done.
  cbn [mbind option_bind]. rewrite skip_cons. cbn [mbind option_bind]. change (("" =? "")%string) with true. cbn [negb].
  destruct ((m <? 1) || (12 <? m) || (24 <=? s / 3600) || (60 <=? (s / 60) mod 60) || (60 <=? s mod 60)) eqn:Eb.
  { exfalso. assert (s / 3600 < 24) by (apply Z.div_lt_upper_bound; lia). pose proof (Z.mod_pos_bound (s / 60) 60 ltac:(lia)).
    pose proof (Z.mod_pos_bound s 60 ltac:(lia)). repeat (apply orb_true_iff in Eb as [Eb|Eb]); boolify; lia. }
  destruct ((d <? 1) || (daysIn m y <? d)) eqn:Ed; [exfalso; apply orb_true_iff in Ed as [Ed|Ed]; boolify; lia|].
  rewrite Hdd. f_equal. lia.
Qed.
