(* ===== verification/Snapshot.v ===== *)
(** Published snapshots: [internal/snapshot/snapshot.go] and [rows.go].

    A manifest names one generation object per network; it is validated on every
    read and write and replaced by compare-and-swap.  Its JSON text is behind the
    class [ManifestCodec] and [net/url.Parse] behind [URLParser]; the answers of the
    object store are arguments of the operations that ask for them. *)

From stdpp Require Import base gmap strings list numbers pretty.
From Stdlib Require Import ZArith Lia Ascii.
From S2P Require Import Prelude GoLib Hashes NodeData Text Releases Calendar.
From stdpp Require Import list.
#[local] Open Scope Z_scope.

Definition SchemaVersion : Z := 4.
Definition OldestReadableSchemaVersion : Z := 1.
Definition MethodologyVersion : string := "2026-08-v3".
Definition readableMethodologyVersions : list string := ["2026-07-v1"; "2026-07-v2"; MethodologyVersion].
Definition validateReadableMethodologyVersion (version : string) : bool := contains_func (String.eqb version) readableMethodologyVersions.
Definition MaxManifestBytes : Z := 4194304.
Definition maxCrawlerIDBytes : Z := 256.
Definition maxNetworks : Z := 64.
Definition MaxObjectBytes : Z := 134217728.

(** * Layout *)

Record Layout := MkLayout { ly_Prefix : string }.

Definition layout_prefix (l : Layout) : string := if (ly_Prefix l =? "")%string then "snapshots" else ly_Prefix l.
Definition ManifestKey (l : Layout) : string := layout_prefix l +:+ "/manifest.json".
Definition NetworkPrefix (l : Layout) (network : string) : string := layout_prefix l +:+ "/" +:+ network +:+ "/".
Definition GenerationKey (l : Layout) (network : string) (generatedAt : Time) : string :=
  NetworkPrefix l network +:+ formatGenTime generatedAt +:+ ".parquet".

(** [None] is the false answer. *)
Definition GenerationTime (l : Layout) (network key : string) : option Time :=
  let prefix := NetworkPrefix l network in
  if negb (HasPrefix key prefix) || negb (HasSuffix key ".parquet") then None
  else parseGenTime (TrimSuffix (TrimPrefix key prefix) ".parquet").
Definition IsGenerationKey (l : Layout) (network key : string) : bool := bool_decide (is_Some (GenerationTime l network key)).

(** * Manifests *)

Record NetworkSnapshot := MkNetworkSnapshot {
  sn_GenerationKey : string; sn_NodeCount : Z; sn_CurrentNodeCount : Z; sn_SHA256 : string; sn_Bytes : Z }.

Record RunMetadata := MkRun {
  ru_RunID : string; ru_SourceRevision : string; ru_SourceURL : string; ru_ImageDigest : string; ru_ConfigSHA256 : string;
  ru_CrawlerStartedAt : Time; ru_MethodologyStartedAt : Time; ru_MethodologyVersion : string; ru_MethodologyID : string }.

Record Manifest := MkManifest {
  mf_SchemaVersion : Z; mf_GeneratedAt : Time; mf_CrawlerID : string; mf_Run : RunMetadata;
  mf_Networks : gmap string NetworkSnapshot; mf_LegacyPopulationHistory : option string }.

(** Every byte of a multi-byte rune is outside the accepted ranges. *)
Definition component_char (c : ascii) : bool :=
  let v := byte_val c in
  ((97 <=? v) && (v <=? 122)) || ((65 <=? v) && (v <=? 90)) || ((48 <=? v) && (v <=? 57)) || (c =? "-")%char || (c =? "_")%char.
Definition ValidComponent (s : string) : bool :=
  negb (s =? "")%string && (slen s <=? 64) && forallb component_char (String.list_ascii_of_string s).

(** The first error of a list of checks. *)
Fixpoint firstError (checks : list (bool * string)) : result unit :=
  match checks with [] => Ok tt | (bad, why) :: rest => if bad then Err why else firstError rest end.

Definition bounded (s : string) (n : Z) : bool := negb (s =? "")%string && (slen s <=? n).

(** What the store answers to a read. *)
Inductive Got (V : Type) := NotFound | GetError | Found (v : V).
Arguments NotFound {V}.
Arguments GetError {V}.
Arguments Found {V} _.

Section Checks.
Context `{Hurl : URLParser}.

Definition runChecks (r : RunMetadata) (generatedAt : Time) : list (bool * string) :=
  [(negb (bounded (ru_RunID r) 128), "run.run_id must contain 1..128 bytes");
   (negb (bounded (ru_SourceRevision r) 256), "run.source_revision must contain 1..256 bytes");
   (negb (bounded (ru_SourceURL r) 2048), "run.source_url must contain 1..2048 bytes");
   (match ParseURL (ru_SourceURL r) with
    | Some (scheme, host) => (negb (scheme =? "http")%string && negb (scheme =? "https")%string) || (host =? "")%string
    | None => true
    end, "run.source_url must be an absolute HTTP(S) URL");
   (negb (slen (ru_ConfigSHA256 r) =? 64), "run.config_sha256 must be a SHA-256 hex digest");
   (match hex_decode (ru_ConfigSHA256 r) with None => true | Some _ => false end, "run.config_sha256: %w");
   (IsZero (ru_CrawlerStartedAt r), "run.crawler_started_at is required");
   (IsZero (ru_MethodologyStartedAt r), "run.methodology_started_at is required");
   (After (ru_MethodologyStartedAt r) generatedAt, "run.methodology_started_at cannot be after generated_at");
   (negb (validateReadableMethodologyVersion (ru_MethodologyVersion r)), "unsupported methodology version %q");
   (negb (ValidComponent (ru_MethodologyID r)), "run.methodology_id must be a safe non-empty component")].

Definition networkChecks (l : Layout) (generatedAt : Time) (network : string) (ns : NetworkSnapshot) : list (bool * string) :=
  [(negb (ValidComponent network), "invalid network name %q");
   (negb (sn_GenerationKey ns =? GenerationKey l network generatedAt)%string, "generation key %q does not match manifest generation");
   (sn_NodeCount ns <? 0, "network %q has negative node count");
   ((sn_CurrentNodeCount ns <? 0) || (sn_NodeCount ns <? sn_CurrentNodeCount ns), "network %q current node count %d must be in range 0..%d");
   ((sn_Bytes ns <=? 0) || (MaxObjectBytes <? sn_Bytes ns), "network %q bytes must be in range 1..%d");
   (negb (slen (sn_SHA256 ns) =? 64), "network %q has invalid sha256 length");
   (match hex_decode (sn_SHA256 ns) with None => true | Some _ => false end, "network %q has invalid sha256: %w")].

Definition manifestChecks (m : Manifest) : list (bool * string) :=
  [((mf_SchemaVersion m <? OldestReadableSchemaVersion) || (SchemaVersion <? mf_SchemaVersion m), "unsupported snapshot schema version");
   (IsZero (mf_GeneratedAt m), "generated_at is required");
   (negb (bounded (mf_CrawlerID m) maxCrawlerIDBytes), "crawler_id must contain 1..%d bytes")]
  ++ runChecks (mf_Run m) (mf_GeneratedAt m)
  ++ [((Z.of_nat (size (mf_Networks m)) =? 0) || (maxNetworks <? Z.of_nat (size (mf_Networks m))), "manifest must contain 1..%d networks")].

(** [Manifest.Validate]; the networks are visited in the order of the map. *)
Definition manifest_Validate (l : Layout) (m : Manifest) : result unit :=
  firstError (manifestChecks m ++
    flat_map (fun kv : string * NetworkSnapshot => networkChecks l (mf_GeneratedAt m) kv.1 kv.2) (map_to_list (mf_Networks m))).

Definition validateWritable (l : Layout) (m : Manifest) : result unit :=
  if negb (mf_SchemaVersion m =? SchemaVersion) then Err "write snapshot schema version %d: current version is %d"
  else if negb (ru_MethodologyVersion (mf_Run m) =? MethodologyVersion)%string then Err "write methodology version %q: current version is %q"
  else manifest_Validate l m.

Definition VerifyGeneration (l : Layout) (network : string) (ns : NetworkSnapshot) (data : string) : result unit :=
  if negb (IsGenerationKey l network (sn_GenerationKey ns)) then Err "generation key %q is not a valid %s generation"
  else if negb (slen data =? sn_Bytes ns) then Err "generation %q size mismatch: got %d want %d"
  else if negb (hex_encode (sha256 data) =? sn_SHA256 ns)%string then Err "generation %q sha256 mismatch"
  else Ok tt.

(** * Reading and writing *)

(** [UnmarshalStrict] into a manifest and [json.MarshalIndent]. *)
Class ManifestCodec := { UnmarshalManifest : string -> option Manifest; MarshalManifest : Manifest -> option string }.
Context `{Hcodec : ManifestCodec}.

Definition decodeManifest (l : Layout) (data : string) : result Manifest :=
  if MaxManifestBytes <? slen data then Err "manifest too large: %d bytes"
  else match UnmarshalManifest data with
       | None => Err "decode manifest"
       | Some m => let! _ := manifest_Validate l m in Ok m
       end.

(** [Read]: [ErrNoManifest] is [NoManifest]. *)
Inductive ReadResult := NoManifest | ReadError | ReadOk (m : Manifest).
Definition Read (l : Layout) (got : Got string) : ReadResult :=
  match got with
  | NotFound => NoManifest
  | GetError => ReadError
  | Found data => match decodeManifest l data with Ok m => ReadOk m | Err _ => ReadError end
  end.

(** The errors of [WriteConditional], as [errors.Is] tells them apart. *)
Inductive WriteResult := Written | Conflict (competitor : bool) | WriteFailed (why : string).

(** The answer of [PutIfVersion]. *)
Inductive PutAnswer := PutOk | PutConflict | PutError.

(** The manifest stored under the caller's feet is its own, or the one it expects. *)
Definition ownWrite (current next : Manifest) : bool :=
  (ru_RunID (mf_Run current) =? ru_RunID (mf_Run next))%string && After (mf_GeneratedAt next) (mf_GeneratedAt current).
Definition isPrevious (previous : option Manifest) (current : Manifest) : bool :=
  match previous with
  | None => false
  | Some p => (mf_CrawlerID current =? mf_CrawlerID p)%string && TEqual (mf_GeneratedAt current) (mf_GeneratedAt p)
  end.

(** [WriteConditional] up to [PutIfVersion]: its arguments, or the answer already known. *)
Definition WriteConditional_request (l : Layout) (previous : option Manifest) (next : Manifest) (got : Got (string * string))
  : (string * string) + WriteResult :=
  match validateWritable l next with
  | Err why => inr (WriteFailed why)
  | Ok _ =>
      let expected :=
        match got with
        | NotFound => match previous with Some _ => inr (Conflict false) | None => inl "" end
        | GetError => inr (WriteFailed "get")
        | Found (data, version) =>
            match decodeManifest l data with
            | Err why => inr (WriteFailed why)
            | Ok current => if negb (ownWrite current next) && negb (isPrevious previous current) then inr (Conflict true) else inl version
            end
        end in
      match expected with
      | inr r => inr r
      | inl version => match MarshalManifest next with Some encoded => inl (version, encoded) | None => inr (WriteFailed "encode") end
      end
  end.

Definition WriteConditional (l : Layout) (previous : option Manifest) (next : Manifest) (got : Got (string * string)) (put : PutAnswer) : WriteResult :=
  match WriteConditional_request l previous next got with
  | inr r => r
  | inl _ => match put with PutOk => Written | PutConflict => Conflict false | PutError => WriteFailed "put" end
  end.

(** * Rows *)

Fixpoint checkRows (network : string) (seen : list string) (rows : list Row) : result unit :=
  match rows with
  | [] => Ok tt
  | row :: rest =>
      if negb (r_Network row =? network)%string then Err "snapshot %s contains a row for network %q"
      else if (r_ID row =? "")%string then Err "snapshot %s contains an empty node id"
      else if bool_decide (r_ID row ∈ seen) then Err "snapshot %s contains duplicate node id %q"
      else checkRows network (r_ID row :: seen) rest
  end.

Definition ValidateRows (network : string) (expected : Z) (rows : list Row) : result unit :=
  if negb (Z.of_nat (length rows) =? expected) then Err "snapshot %s row count mismatch: got %d want %d"
  else checkRows network [] rows.

(** [parquet.Write] and [parquet.Read] of rows. *)
Class RowCodec := { ParquetFromRows : list Row -> option string; ParquetRead : string -> option (list Row) }.
Context `{Hrows : RowCodec}.

Definition RowsFromParquet (data : string) : option (list Row) := if (data =? "")%string then Some [] else ParquetRead data.

Definition LoadNetworkRows (l : Layout) (m : Manifest) (network : string) (get : string -> Got string) : result (list Row) :=
  match mf_Networks m !! network with
  | None => Err "network %q not in manifest"
  | Some ns =>
      match get (sn_GenerationKey ns) with
      | Found data =>
          let! _ := VerifyGeneration l network ns data in
          match RowsFromParquet data with
          | None => Err "decode snapshot"
          | Some rows => let! _ := ValidateRows network (sn_NodeCount ns) rows in Ok rows
          end
      | _ => Err "get snapshot"
      end
  end.
End Checks.

(** Properties of snapshots: generation keys read back, what validation guarantees,
    and when rows pass it. *)

(** * Prefixes and suffixes *)

(** * Generation keys *)

Lemma GenerationTime_key l network t : 0 <= t < year10000 -> GenerationTime l network (GenerationKey l network t) = Some t.
Proof.
  intros Ht. unfold GenerationTime, GenerationKey. cbv zeta. rewrite HasPrefix_app, sapp_assoc, HasSuffix_app. cbn [negb orb].
  rewrite <- sapp_assoc, TrimPrefix_app, TrimSuffix_app. by apply parse_formatGenTime.
Qed.

(** A generation key reads back: for every network, prefix and instant before the
    year 10000 it is recognised as a key of that network, its time is the instant it
    was made from, to the nanosecond, and no other instant has the same key. *)
Theorem GenerationKey_roundtrip l network t :
  0 <= t < year10000 ->
  IsGenerationKey l network (GenerationKey l network t) = true /\
  GenerationTime l network (GenerationKey l network t) = Some t /\
  forall t', 0 <= t' < year10000 -> GenerationKey l network t' = GenerationKey l network t -> t' = t.
Proof.
  intros Ht. pose proof (GenerationTime_key l network t Ht) as H. split_and!; [|done|].
  - unfold IsGenerationKey. rewrite H. by apply bool_decide_eq_true.
  - intros t' Ht' E. apply GenerationTime_key with (l := l) (network := network) in Ht'. rewrite E in Ht'. congruence.
Qed.

Lemma GenerationKey_roundtrip_witness :
  GenerationTime (MkLayout "") "mainnet" (GenerationKey (MkLayout "") "mainnet" (time_Unix 1789900000 + 42)) = Some (time_Unix 1789900000 + 42) /\
  GenerationKey (MkLayout "") "mainnet" (time_Unix 1789900000 + 42) = "snapshots/mainnet/2026-09-20T10:26:40.000000042Z.parquet".
Proof.
  split; [|vm_compute; reflexivity].
  refine (proj1 (proj2 (GenerationKey_roundtrip (MkLayout "") "mainnet" (time_Unix 1789900000 + 42) _))). vm_compute. split; [discriminate|reflexivity].
Defined.

(** * Validation *)

Lemma firstError_ok checks : firstError checks = Ok tt <-> Forall (fun c => c.1 = false) checks.
Proof.
  induction checks as [|[bad why] rest IH]; [split; constructor|]. cbn [firstError]. destruct bad; split.
  - done.
  - intros [H _]%Forall_cons. done.
  - intros H. constructor; [done|by apply IH].
  - intros [_ ?]%Forall_cons. by apply IH.
Qed.

Section Validate.
Context `{Hurl : URLParser}.

(** What a validated manifest says of a network. *)
Lemma Validate_network l m network ns :
  manifest_Validate l m = Ok tt -> mf_Networks m !! network = Some ns ->
  ValidComponent network = true /\ sn_GenerationKey ns = GenerationKey l network (mf_GeneratedAt m) /\
  0 <= sn_CurrentNodeCount ns <= sn_NodeCount ns /\ 0 < sn_Bytes ns <= MaxObjectBytes.
Proof.
  intros H Hns. apply firstError_ok in H. apply Forall_app in H as [_ H]. rewrite List.Forall_flat_map in H.
  assert (In (network, ns) (map_to_list (mf_Networks m))) as Hin by (by apply list_elem_of_In, elem_of_map_to_list).
  rewrite List.Forall_forall in H. specialize (H _ Hin). cbn in H.
  unfold networkChecks in H. repeat (apply Forall_cons in H as [? H]). cbn [fst] in *. boolify.
  split_and!; (done || lia).
Qed.
End Validate.

(** * Rows *)

Lemma checkRows_ok network seen rows :
  checkRows network seen rows = Ok tt <->
  Forall (fun r => r_Network r = network /\ r_ID r <> "" /\ r_ID r ∉ seen) rows /\ NoDup (map r_ID rows).
Proof.
  revert seen. induction rows as [|r rows IH]; intros seen; [split; [repeat constructor|done]|].
  cbn [checkRows map]. rewrite Forall_cons, NoDup_cons.
  destruct (String.eqb_spec (r_Network r) network) as [En|En]; cbn [negb]; [|split; [done|naive_solver]].
  destruct (String.eqb_spec (r_ID r) "") as [Ei|Ei]; [split; [done|naive_solver]|].
  case_bool_decide as Hs; [split; [done|naive_solver]|]. rewrite IH, !Forall_forall. split.
  - intros [H1 H2]. assert (r_ID r ∉ map r_ID rows) as Hr.
    { intros (x & Ex & Hx)%list_elem_of_fmap. destruct (H1 x) as (_ & _ & H3); [done|]. apply H3. rewrite <- Ex. left. }
    split_and!; [done..| |done|done]. intros x Hx. destruct (H1 x Hx) as (? & ? & H3). split_and!; [done..|].
    intros H4. apply H3. by right.
  - intros ((_ & H1) & H2 & H3). split; [|done]. intros x Hx. destruct (H1 x Hx) as (? & ? & H4). split_and!; [done..|].
    intros [E|?]%elem_of_cons; [|done]. apply H2. rewrite <- E. by apply list_elem_of_fmap_2.
Qed.

Lemma ValidateRows_ok network expected rows :
  ValidateRows network expected rows = Ok tt <->
  Z.of_nat (length rows) = expected /\ Forall (fun r => r_Network r = network /\ r_ID r <> "") rows /\ NoDup (map r_ID rows).
Proof.
  unfold ValidateRows. destruct (Z.eqb_spec (Z.of_nat (length rows)) expected); cbn [negb]; [|split; [done|naive_solver]].
  rewrite checkRows_ok. split.
  - intros [H1 H2]. split_and!; [done| |done]. eapply Forall_impl; [exact H1|]. naive_solver.
  - intros (_ & H1 & H2). split; [|done]. eapply Forall_impl; [exact H1|]. cbn. intros r [? ?]. split_and!; [done..|]. apply not_elem_of_nil.
Qed.
