(* ===== verification/Stats.v ===== *)
(** [internal/query/query.go]: the statements behind the API's statistics, map and node
    lists, and what the code makes of their rows.

    A statement without [ORDER BY] returns its groups in any order; [arrange] is that
    order.  Instants of the report stay instants, and ages are whole seconds. *)

From stdpp Require Import base gmap strings list numbers sorting.
From Stdlib Require Import ZArith Lia Ascii.
From S2P Require Import Prelude GoLib Text Counting Sql Clientname Hashes Consensus ForkId Network Readiness Query QueryMirror QueryWhere Snapshot.
#[local] Open Scope Z_scope.

Definition warmupPeriod : Duration := 48 * Hour.

(** [State]: what is known of the loaded generation. *)
Record State := MkState {
  es_Loaded : Z; es_GeneratedAt : Time; es_LastRefresh : Time; es_Run : RunMetadata; es_CrawlerID : string; es_SchemaVersion : Z }.

(** The counts of the first statement. *)
Record Counts := MkCounts {
  sc_Total : Z; sc_Execution : Z; sc_Consensus : Z; sc_Discv4 : Z; sc_Discv5 : Z; sc_Geolocated : Z; sc_IPv6 : Z; sc_DualStack : Z;
  sc_Hosting : Z; sc_Dialable : Z; sc_IPv6Dialable : Z; sc_IPv6ExplicitPort : Z; sc_MembershipVerified : Z; sc_MembershipClaimed : Z;
  sc_ExecutionStale : Z; sc_ConsensusStale : Z; sc_ELIdentifiedStale : Z; sc_CLIdentifiedStale : Z }.

(** The maps the client loop fills. *)
Record Breakdown := MkBreakdown {
  bd_OS : gmap string Z; bd_Client : gmap string Z; bd_ClientEL : gmap string Z; bd_ClientCL : gmap string Z;
  bd_DirectionEL : gmap string Z; bd_DirectionCL : gmap string Z }.
Definition noBreakdown : Breakdown := MkBreakdown ∅ ∅ ∅ ∅ ∅ ∅.

(** The maps of the grouping sets. *)
Record Sets := MkSets { gs_Network : gmap string Z; gs_Country : gmap string Z; gs_Org : gmap string Z; gs_Layer : gmap string Z }.

Record Stats := MkStats {
  st_Generation : Time; st_ForkEvaluatedAt : Time; st_FingerprintWindowSeconds : Z; st_SnapshotGeneratedAt : option Time;
  st_SnapshotAgeSeconds : Z; st_WarmingUp : bool; st_WarmupEndsAt : option Time; st_WarmupBasis : string; st_WarmupReasons : list string;
  st_ELIdentified : Z; st_CLIdentified : Z; st_counts : Counts; st_breakdown : Breakdown; st_sets : Sets; st_ByVersion : gmap string Z }.

(** * The aggregate *)

Definition identStaleCondition : expr :=
  And verifiedFingerprintCondition (And (Ne (Col "client") (Text "")) (Lt (Coalesce (Col "fp_at") (Int 0)) Param)).

(** [flagged]: the filtered rows with the predicates as columns.  The arguments bind in the
    order of the marks: the columns first, then the clause. *)
Definition flagged (current : expr) (chart : expr) (clause : option expr) (args : list value) (t : table) : option table :=
  collect (fun r =>
    match sql_eval r current args with
    | None => None
    | Some (cur, args) =>
        match sql_eval r chart args with
        | None => None
        | Some (charted, args) =>
            match sql_eval r identStaleCondition args with
            | None => None
            | Some (stale, args) =>
                match keeps_row r clause args with
                | None => None
                | Some b => Some (if b then Some (withCol (withCol (withCol r "cur" cur) "chart" charted) "ident_stale" stale) else None)
                end
            end
        end
    end) t.

Definition cur (conds : list expr) : expr := join_And (Col "cur") conds.
Definition layerIs (layer : string) : expr := Eq (Col "layer") (Text layer).
Definition hasIP6 : expr := Ne (Col "ip6") (Text "").

(** The columns of [scalars], in order. *)
Definition scalars : list expr :=
  [cur []; cur [layerIs "el"]; cur [layerIs "cl"]; cur [Col "has_v4"]; cur [Col "has_v5"]; cur [Col "geolocated"]; cur [hasIP6];
   cur [Ne (Col "ip") (Text ""); hasIP6]; cur [Col "hosting"]; cur [Col "dialable"]; cur [Col "dialable"; hasIP6];
   cur [hasIP6; Or (Ne (Col "tcp6") (Int 0)) (Ne (Col "quic6") (Int 0))];
   cur [Eq (Col "membership_source") (Text "status")]; cur [Eq (Col "membership_source") (Text "enr")];
   And (Not (Col "cur")) (layerIs "el"); And (Not (Col "cur")) (layerIs "cl");
   cur [Col "ident_stale"; layerIs "el"]; cur [Col "ident_stale"; layerIs "cl"]].

(** [Scan] into the fields. *)
Definition scanCounts (l : list Z) : option Counts :=
  match l with
  | [a; b; c; d; e; f; g; h; i; j; k; m; n; o; p; q; r; s] => Some (MkCounts a b c d e f g h i j k m n o p q r s)
  | _ => None
  end.

(** One row of the grouping sets statement: the column that is grouped, its value, the count. *)
Inductive setOf := ByNetwork | ByCountry | ByOrg | ByLayer.

(** What [sql.NullString] and its use make of a column: [NULL] and [''] alike are skipped. *)
Definition keyedText (v : value) : option string := match v with VText s => if (s =? "")%string then None else Some s | _ => None end.

Definition scanGroupingSets (rows : list (setOf * value * Z)) : Sets :=
  foldl (fun s row =>
    let '(which, v, c) := row in
    match keyedText v with
    | None => s
    | Some k =>
        match which with
        | ByNetwork => MkSets (<[k := c]> (gs_Network s)) (gs_Country s) (gs_Org s) (gs_Layer s)
        | ByCountry => MkSets (gs_Network s) (<[k := c]> (gs_Country s)) (gs_Org s) (gs_Layer s)
        | ByOrg => MkSets (gs_Network s) (gs_Country s) (<[k := c]> (gs_Org s)) (gs_Layer s)
        | ByLayer => MkSets (gs_Network s) (gs_Country s) (gs_Org s) (<[k := c]> (gs_Layer s))
        end
    end) (MkSets ∅ ∅ ∅ ∅) rows.

(** [GROUP BY GROUPING SETS ((network), (country), (org), (layer))]. *)
Definition groupingSets (t : table) : list (setOf * value * Z) :=
  let part which col := map (fun g : value * Z => (which, g.1, g.2)) (groupBy (fun r => r col) t) in
  part ByNetwork "network" ++ part ByCountry "country" ++ part ByOrg "org" ++ part ByLayer "layer".

(** The key of the client statement: layer, client, fp_direction, os. *)
Definition clientKey : Type := value * value * value * value.
Definition clientKeyOf (r : row) : clientKey := (r "layer", r "client", r "fp_direction", r "os").
Definition kLayer (k : clientKey) : string := textOf k.1.1.1.
Definition kClient (k : clientKey) : string := textOf k.1.1.2.
Definition kDirection (k : clientKey) : string := textOf k.1.2.
Definition kOS (k : clientKey) : string := textOf k.2.

Definition clientsWhere : expr :=
  And (Col "cur") (And (Col "chart") (Or (Ne (Col "client") (Text "")) (Ne (Col "os") (Text "")))).

(** The name a chart shows. *)
Definition chartName (layer client : string) : string := if Recognized layer client then client else Other.

(** One turn of the client loop. *)
Definition countClients (s : Breakdown) (g : clientKey * Z) : Breakdown :=
  let (k, c) := g in
  let os := if given (kOS k) then addTo (bd_OS s) (kOS k) c else bd_OS s in
  if negb (given (kClient k)) then MkBreakdown os (bd_Client s) (bd_ClientEL s) (bd_ClientCL s) (bd_DirectionEL s) (bd_DirectionCL s)
  else
    let name := chartName (kLayer k) (kClient k) in
    let all := addTo (bd_Client s) name c in
    let directed m := if given (kDirection k) then addTo m (kDirection k) c else m in
    if (kLayer k =? "el")%string then
      MkBreakdown os all (addTo (bd_ClientEL s) name c) (bd_ClientCL s) (directed (bd_DirectionEL s)) (bd_DirectionCL s)
    else if (kLayer k =? "cl")%string then
      MkBreakdown os all (bd_ClientEL s) (addTo (bd_ClientCL s) name c) (bd_DirectionEL s) (directed (bd_DirectionCL s))
    else MkBreakdown os all (bd_ClientEL s) (bd_ClientCL s) (bd_DirectionEL s) (bd_DirectionCL s).

(** The version a chart shows; the regular expressions of the statement are [normalized]. *)
Definition membershipFilter (network client layer membership forkStatus : string) (exact : bool) (at_ : Time) : Filter :=
  MkFilter network client exact "" "" layer "" "" "" "" forkStatus membership "" "" "" "" "" "" "" "" "" 0 0 at_.

Definition wholeSeconds (d : Duration) : Z := godiv d Second.

(** The fields that need no query. *)
Definition statsHead (state : State) (at_ : Time) : Stats :=
  let generated := es_GeneratedAt state in
  let age := Sub at_ generated in
  let run := es_Run state in
  let start := if IsZero (ru_MethodologyStartedAt run) then ru_CrawlerStartedAt run else ru_MethodologyStartedAt run in
  let ends := Add start warmupPeriod in
  let warming := negb (IsZero start) && Before at_ ends in
  MkStats (es_LastRefresh state) at_ (wholeSeconds ChartMaxFingerprintAge)
    (if IsZero generated then None else Some generated)
    (if negb (IsZero generated) && (0 <? age) then wholeSeconds age else 0)
    warming (if warming then Some ends else None) (if IsZero start then "" else "methodology_age")
    (if warming then ["methodology_age_lt_48h"] else [])
    0 0 (MkCounts 0 0 0 0 0 0 0 0 0 0 0 0 0 0 0 0 0 0) noBreakdown (MkSets ∅ ∅ ∅ ∅) ∅.

Section Engine.
Context (arrange : forall A, list A -> list A) (registry : list Network) (networks : list string).

Definition StatsForMembershipAt (state : State) (t : table) (network membership : string) (at_ : Time) : result Stats :=
  let f := membershipFilter network "" "" membership "" false at_ in
  let! _ := filter_Validate f in
  let! (rawClause, rawArgs) := where_ registry at_ f networks in
  let! (current, currentArgs) := currentForkConditionAt registry at_ (forkNetworks f networks) in
  let (chart, cutoff) := chartFingerprintConditionAt at_ in
  match flagged current chart rawClause (currentArgs ++ [VInt cutoff; VInt cutoff] ++ rawArgs) t with
  | None => Err "query"
  | Some rows =>
      match scanCounts (map (fun e => countFilter e rows) scalars) with
      | None => Err "scan"
      | Some counts =>
          let sets := scanGroupingSets (arrange _ (groupingSets (List.filter (holdsOf (Col "cur")) rows))) in
          let b := foldl countClients noBreakdown (arrange _ (groupBy clientKeyOf (List.filter (holdsOf clientsWhere) rows))) in
          let s := statsHead state at_ in
          Ok (MkStats (st_Generation s) (st_ForkEvaluatedAt s) (st_FingerprintWindowSeconds s) (st_SnapshotGeneratedAt s) (st_SnapshotAgeSeconds s)
                (st_WarmingUp s) (st_WarmupEndsAt s) (st_WarmupBasis s) (st_WarmupReasons s)
                (tallySum (bd_ClientEL b)) (tallySum (bd_ClientCL b)) counts b sets ∅)
      end
  end.

(** The version breakdown: [normalized] is [normalizedClientVersionSQL]. *)
Context (normalized : row -> string).

Definition appendWhereCondition (clause : option expr) (condition : expr) : option expr :=
  match clause with None => Some condition | Some c => Some (And c condition) end.

Definition VersionsForMembershipAt (t : table) (network client layer membership : string) (at_ : Time) : result (gmap string Z) :=
  let f := membershipFilter network client layer membership "current" true at_ in
  let! _ := filter_Validate f in
  let! (clause, args) := where_ registry at_ f networks in
  let (chart, cutoff) := chartFingerprintConditionAt at_ in
  match selectRows (appendWhereCondition clause chart) (args ++ [VInt cutoff]) t with
  | None => Err "query"
  | Some rows => Ok (foldl (fun m g => <[g.1 := g.2]> m) ∅ (arrange _ (groupBy normalized rows)))
  end.

(** ** The map *)

(** A point: the columns the statement copies are read off the row. *)
Record Point := MkPoint { pt_row : row; pt_Client : string; pt_IPv6 : bool; pt_Verified : bool; pt_AccuracyKM : Z; pt_CGC : Z }.

Definition pointOf (charted : bool) (r : row) : Point :=
  MkPoint r (if charted then textOf (r "client") else "") (given (textOf (r "ip6"))) (textOf (r "membership_source") =? "status")%string
    (intOf (r "geo_accuracy_radius_km")) (if boolOf (r "cgc_known") then intOf (r "cgc") else 0).

(** [Scan] into plain Go values refuses [NULL]. *)
Definition scannable (columns : list string) (rows : table) : bool :=
  forallb (fun r => forallb (fun c => negb (bool_decide (r c = VNull))) columns) rows.

Definition pointColumns : list string :=
  ["id"; "lat"; "lon"; "network"; "country"; "city"; "layer"; "hosting"; "ip6"; "membership_source"].

Definition MapPointsForMembershipAt (t : table) (network membership : string) (at_ : Time) : result (list Point * Z) :=
  let f := membershipFilter network "" "" membership "current" false at_ in
  let! _ := filter_Validate f in
  let! (clause, args) := where_ registry at_ f networks in
  let (chart, cutoff) := chartFingerprintConditionAt at_ in
  match selectRows (appendWhereCondition clause (Col "geolocated")) args t with
  | None => Err "query"
  | Some rows =>
      let charted r := match sql_eval r chart [VInt cutoff] with Some (v, _) => bool_decide (v = VBool true) | None => false end in
      let ordered := isort (orderedBy [((fun r : row => r "id"), false)]) rows in
      let shown := take (Z.to_nat MaxMapPoints) ordered in
      if negb (scannable pointColumns shown) || existsb (fun r => charted r && bool_decide (r "client" = VNull)) shown then Err "scan"
      else Ok (map (fun r => pointOf (charted r) r) shown, Z.of_nat (length rows))
  end.

(** ** Node lists *)

(** [Node]: the scanned row and the two fields computed from it. *)
Record QNode := MkQNode { qn_row : row; qn_ForkCompatible : bool; qn_ForkReadiness : Readiness }.

(** [targets]: the tracked fork of each network, looked up once. *)
Definition targetFor (targets : gmap string (option ForkTarget)) (network : string) (at_ : Time) : gmap string (option ForkTarget) * option ForkTarget :=
  match targets !! network with
  | Some t => (targets, t)
  | None =>
      let t := match ForkTargetAt registry network at_ with
               | Ok t => if negb (bool_decide (target_Phase t = PhaseNone)) then Some t else None
               | Err _ => None
               end in
      (<[network := t]> targets, t)
  end.

Fixpoint scanLoop (targets : gmap string (option ForkTarget)) (rows : table) (at_ : Time) : list QNode :=
  match rows with
  | [] => []
  | r :: rows' =>
      let compatible := RowForkCurrentAt registry (textOf (r "layer")) (textOf (r "network")) (textOf (r "fork_hash")) (intOf (r "fork_next")) at_ in
      let (targets, target) := targetFor targets (textOf (r "network")) at_ in
      let readiness := match target with
                       | Some t => ReadinessAt registry t (textOf (r "network")) (evidence r) at_
                       | None => NoReadiness
                       end in
      MkQNode r compatible readiness :: scanLoop targets rows' at_
  end.

(** The columns of a node that are read without a default. *)
Definition nodeColumns : list string :=
  ["id"; "enode"; "enr"; "seq"; "ip"; "ip6"; "tcp"; "udp"; "tcp6"; "udp6"; "quic"; "quic6"; "network"; "fork_hash"; "fork_next"; "layer";
   "has_v4"; "has_v5"; "score"; "first_seen"; "last_seen"; "last_check"; "client"; "client_version"; "os"; "lang"; "capabilities"; "country";
   "city"; "lat"; "lon"; "asn"; "org"; "hosting"; "fp_status"; "dialable"].

Definition scanNodes (rows : table) (at_ : Time) : result (list QNode) :=
  if scannable nodeColumns rows then Ok (scanLoop ∅ rows at_) else Err "scan".

(** A column of an [ORDER BY] as a value of the row. *)
Definition orderColumn (column : string) (r : row) : value :=
  if (column =? "lower(client)")%string then sql_lower (r "client")
  else if (column =? "lower(client_version)")%string then sql_lower (r "client_version")
  else if (column =? "coalesce(cgc, 0)")%string then sql_coalesce (r "cgc") (VInt 0)
  else r column.

Definition sortKeys (name order : string) : list ((row -> value) * bool) :=
  let spec := default (MkSortSpec ["score"; "last_seen"; "id"] "desc") (sortLookup sortColumns name) in
  let order := if negb (order =? "asc")%string && negb (order =? "desc")%string then so_defaultOrder spec else order in
  map (fun column => (orderColumn column, (order =? "desc")%string)) (so_columns spec).

Record NodesResult := MkNodes { nr_Total : Z; nr_Count : Z; nr_Nodes : list QNode }.

Definition Nodes (now : Time) (t : table) (f : Filter) : result NodesResult :=
  let! f := nodesFilter now f in
  let! (clause, args) := where_ registry now f networks in
  match selectRows clause args t with
  | None => Err "query"
  | Some rows =>
      let! nodes := scanNodes (page (f_Limit f) (f_Offset f) (isort (orderedBy (sortKeys (f_Sort f) (f_Order f))) rows)) (f_ForkAt f) in
      Ok (MkNodes (Z.of_nat (length rows)) (Z.of_nat (length nodes)) nodes)
  end.

(** ** One node *)

Definition sql_starts_with (a b : value) : value := match a, b with VText s, VText p => VBool (HasPrefix s p) | _, _ => VNull end.

(** The condition and the first key of the order, for the key as given and as an id. *)
Definition keyMatches (key idKey : string) (isPrefix : bool) (r : row) : value :=
  let eqs col v := sql_eq (r col) (VText v) in
  sql_or (eqs "id" idKey)
    (sql_or (sql_and (VBool isPrefix) (sql_starts_with (r "id") (VText idKey)))
       (sql_or (eqs "ip" key) (sql_or (eqs "ip6" key) (sql_or (eqs "enode" key) (eqs "enr" key))))).
Definition keyRank (key idKey : string) (isPrefix : bool) (r : row) : Z :=
  let true_ v := bool_decide (v = VBool true) in
  if true_ (sql_eq (r "id") (VText idKey)) then 0
  else if true_ (sql_and (VBool isPrefix) (sql_starts_with (r "id") (VText idKey))) then 1
  else if true_ (sql_eq (r "enode") (VText key)) then 2
  else if true_ (sql_eq (r "enr") (VText key)) then 3 else 4.

Definition NodeByKey (now : Time) (t : table) (keyval : string) : result (option QNode) :=
  let isPrefix := isNodeIDPrefix keyval in
  let idKey := ToLower keyval in
  let rows := List.filter (fun r => bool_decide (keyMatches keyval idKey isPrefix r = VBool true)) t in
  let keys := [((fun r : row => VInt (keyRank keyval idKey isPrefix r)), false); ((fun r : row => r "score"), true);
               ((fun r : row => r "last_seen"), true); ((fun r : row => r "id"), false)] in
  let! found := scanNodes (take 1 (isort (orderedBy keys) rows)) now in
  Ok (head found).
End Engine.
