(* ===== verification/StatsProps.v ===== *)
(** The API's statistics add up: every count of the aggregate is the number of rows the
    Go predicates describe, the stale rows are the complement of the current ones, and the
    per-client maps lose nothing. *)

From stdpp Require Import base gmap strings list numbers sorting.
From Stdlib Require Import ZArith Lia Ascii.
From S2P Require Import Prelude GoLib Text Counting Sql Clientname Hashes Consensus ForkId Network Readiness Query QueryMirror QueryWhere Snapshot Stats.
#[local] Open Scope Z_scope.

(** * Rows of the served table *)

Definition is_integer (v : value) : bool := match v with VInt _ | VNull => true | _ => false end.

(** The columns the statistics read beyond those a filter reads. *)
Definition statsRow (r : row) : bool :=
  typedRow r && forallb (fun c => is_text (r c)) ["org"; "fp_direction"] && forallb (fun c => is_integer (r c)) ["tcp6"; "quic6"]
  && is_bool (r "geolocated").

Lemma statsRow_typed r : statsRow r = true -> typedRow r = true.
Proof. unfold statsRow. intros H. by do 3 (apply andb_true_iff in H as [H _]). Qed.

Lemma selects_bool r c : is_bool (r c) = true -> selects r (Col c) [] (boolOf (r c)).
Proof. intros H. exists (r c). split; [apply denotes_col|]. destruct (r c) as [|s|z|b]; try done. apply strict_bool. Qed.

Lemma selects_nonzero r c : is_integer (r c) = true -> selects r (Ne (Col c) (Int 0)) [] (negb (intOf (r c) =? 0)).
Proof.
  intros H. eexists. split; [apply denotes_not, (denotes_eq r _ _ [] []); [apply denotes_col|apply denotes_lit]|].
  destruct (r c) as [|s|z|b]; try done. cbn. by destruct (z =? 0).
Qed.

(** Verified fingerprints, charted or not. *)
Definition fpVerified (r : row) : bool := (textOf (r "fp_status") =? "ok")%string || (textOf (r "fp_status") =? "stale")%string.
Definition chartedRow (at_ : Time) (r : row) : bool := Charted (textOf (r "fp_status")) (intOf (r "fp_at")) at_.
Definition identStale (at_ : Time) (r : row) : bool := fpVerified r && (given (textOf (r "client")) && negb (chartedRow at_ r)).

Section Row.
Context (r : row) (Hr : typedRow r = true).

Lemma verified_selects : selects r verifiedFingerprintCondition [] (fpVerified r).
Proof using Hr.
  unfold verifiedFingerprintCondition, In_, fpVerified. cbn [foldr]. apply (selects_or r _ _ [] []); [by apply (selects_column_eq r Hr); [column|]|].
  rewrite <- (orb_false_r (_ =? "stale")%string).
  apply (selects_or r _ _ [] []); [by apply (selects_column_eq r Hr); [column|]|]. apply selects_denotes, denotes_lit.
Qed.

Lemma fpAt_denotes cutoff : denotes r (Ge (Coalesce (Col "fp_at") (Int 0)) Param) [VInt cutoff] (VBool (cutoff <=? intOf (r "fp_at"))).
Proof using Hr.
  eapply denotes_args; [apply denotes_ge; [apply denotes_coalesce; [apply denotes_col|apply denotes_lit]|apply denotes_param]|done|].
  pose proof Hr as H. unfold typedRow in H. apply andb_true_iff in H as [H _]. apply andb_true_iff in H as [_ H]. by destruct (r "fp_at").
Qed.

Lemma chart_selects at_ chart cutoff : chartFingerprintConditionAt at_ = (chart, cutoff) -> selects r chart [VInt cutoff] (chartedRow at_ r).
Proof using Hr.
  intros [= <- <-]. apply (selects_and r _ _ [] [_]); [apply verified_selects|]. apply selects_denotes, fpAt_denotes.
Qed.

Lemma identStale_selects at_ chart cutoff :
  chartFingerprintConditionAt at_ = (chart, cutoff) -> selects r identStaleCondition [VInt cutoff] (identStale at_ r).
Proof using Hr.
  intros [= _ <-]. unfold identStaleCondition, identStale.
  replace (fpVerified r && (given (textOf (r "client")) && negb (chartedRow at_ r)))
    with (fpVerified r && (given (textOf (r "client")) && negb (Unix (Add at_ (- ChartMaxFingerprintAge)) <=? intOf (r "fp_at")))).
  2: { unfold chartedRow, Charted, fpVerified. by destruct (_ || _). }
  apply (selects_and r _ _ [] [_]); [apply verified_selects|]. apply (selects_and r _ _ [] [_]); [apply nonempty_selects; [done|column]|].
  apply selects_not, fpAt_denotes.
Qed.
End Row.

(** * The flagged rows *)

Section Flagged.
Context (registry : list Network) (at_ : Time) (served : list string).

(** What an expression evaluates to, its arguments given. *)
Definition valueOf (r : row) (e : expr) (args : list value) : value := match sql_eval r e args with Some (v, _) => v | None => VNull end.

Lemma valueOf_denotes r e args v : denotes r e args v -> valueOf r e args = v.
Proof. intros H. unfold valueOf. specialize (H []). rewrite app_nil_r in H. by rewrite H. Qed.

Definition isCurrent (r : row) : bool := existsb (rowCurrent registry at_ r) served.

Definition flaggedRow (r : row) : row :=
  let (chart, cutoff) := chartFingerprintConditionAt at_ in
  withCol (withCol (withCol r "cur" (VBool (isCurrent r))) "chart" (valueOf r chart [VInt cutoff]))
    "ident_stale" (valueOf r identStaleCondition [VInt cutoff]).

Lemma flaggedRow_col r c : c <> "cur" -> c <> "chart" -> c <> "ident_stale" -> flaggedRow r c = r c.
Proof.
  intros H1 H2 H3. unfold flaggedRow, chartFingerprintConditionAt, withCol.
  by rewrite (proj2 (String.eqb_neq _ _) H1), (proj2 (String.eqb_neq _ _) H2), (proj2 (String.eqb_neq _ _) H3).
Qed.
Lemma flaggedRow_typed r : typedRow (flaggedRow r) = typedRow r.
Proof. reflexivity. Qed.
Lemma flaggedRow_stats r : statsRow (flaggedRow r) = statsRow r.
Proof. reflexivity. Qed.

Lemma flagged_rows t current cargs clause rargs keep chart cutoff :
  chartFingerprintConditionAt at_ = (chart, cutoff) ->
  (forall r, r ∈ t -> typedRow r = true) ->
  (forall r, r ∈ t -> denotes r current cargs (VBool (isCurrent r))) ->
  (forall r, r ∈ t -> keeps_row r clause rargs = Some (keep r)) ->
  flagged current chart clause (cargs ++ [VInt cutoff; VInt cutoff] ++ rargs) t = Some (map flaggedRow (List.filter keep t)).
Proof.
  intros E Ht Hc Hk. unfold flagged. apply (collect_map _ keep flaggedRow). intros r Hr. rewrite (Hc r Hr).
  destruct (chart_selects r (Ht r Hr) _ _ _ E) as (v & Hv & _). pose proof (Hv (VInt cutoff :: rargs)) as Ev. cbn [app] in Ev |- *. rewrite Ev.
  destruct (identStale_selects r (Ht r Hr) _ _ _ E) as (w & Hw & _). pose proof (Hw rargs) as Ew. cbn [app] in Ew. rewrite Ew.
  rewrite (Hk r Hr). destruct (keep r); [|done]. unfold flaggedRow. rewrite E.
  by rewrite (valueOf_denotes _ _ _ _ Hv), (valueOf_denotes _ _ _ _ Hw).
Qed.

(** ** Conditions over the flags *)

Section Flags.
Context (r : row) (Hr : statsRow r = true).
Abbreviation fr := (flaggedRow r).

Lemma fr_typed : typedRow fr = true.
Proof using Hr. rewrite flaggedRow_typed. by apply statsRow_typed. Qed.

Lemma cur_denotes : denotes fr (Col "cur") [] (VBool (isCurrent r)).
Proof using. apply (denotes_col fr "cur"). Qed.
Lemma cur_selects : selects fr (Col "cur") [] (isCurrent r).
Proof using. apply selects_denotes, cur_denotes. Qed.
Lemma notCur_selects : selects fr (Not (Col "cur")) [] (negb (isCurrent r)).
Proof using. apply selects_not, cur_denotes. Qed.
Lemma chartCol_selects : selects fr (Col "chart") [] (chartedRow at_ r).
Proof using Hr.
  destruct (chartFingerprintConditionAt at_) as [chart cutoff] eqn:E.
  destruct (chart_selects r (statsRow_typed r Hr) _ _ _ E) as (v & Hv & Hs). exists v. split; [|exact Hs].
  rewrite <- (valueOf_denotes _ _ _ _ Hv). pose proof (denotes_col fr "chart") as H. unfold flaggedRow in *. rewrite E in *. exact H.
Qed.
Lemma staleCol_selects : selects fr (Col "ident_stale") [] (identStale at_ r).
Proof using Hr.
  destruct (chartFingerprintConditionAt at_) as [chart cutoff] eqn:E.
  destruct (identStale_selects r (statsRow_typed r Hr) _ _ _ E) as (v & Hv & Hs). exists v. split; [|exact Hs].
  rewrite <- (valueOf_denotes _ _ _ _ Hv). pose proof (denotes_col fr "ident_stale") as H. unfold flaggedRow in *. rewrite E in *. exact H.
Qed.
Lemma layer_is L : L <> "" -> selects fr (layerIs L) [] (textOf (r "layer") =? L)%string.
Proof using Hr. intros HL. apply (selects_column_eq fr fr_typed "layer"); [column|done]. Qed.
Lemma member_is s : s <> "" -> selects fr (Eq (Col "membership_source") (Text s)) [] (textOf (r "membership_source") =? s)%string.
Proof using Hr. intros Hs. apply (selects_column_eq fr fr_typed "membership_source"); [column|done]. Qed.
Lemma nonempty_is c : c ∈ textColumns -> flaggedRow r c = r c -> selects fr (Ne (Col c) (Text "")) [] (given (textOf (r c))).
Proof using Hr. intros Hc <-. apply (nonempty_selects fr fr_typed c Hc). Qed.
Lemma bool_is c : is_bool (r c) = true -> flaggedRow r c = r c -> selects fr (Col c) [] (boolOf (r c)).
Proof using. intros Hb E. rewrite <- E. apply selects_bool. by rewrite E. Qed.
Lemma nonzero_is c : is_integer (r c) = true -> flaggedRow r c = r c -> selects fr (Ne (Col c) (Int 0)) [] (negb (intOf (r c) =? 0)).
Proof using. intros Hb E. rewrite <- E. apply selects_nonzero. by rewrite E. Qed.

Definition layerOf (L : string) (x : row) : bool := (textOf (x "layer") =? L)%string.
Definition explicitPort (x : row) : bool := negb (intOf (x "tcp6") =? 0) || negb (intOf (x "quic6") =? 0).
Definition memberBy (s : string) (x : row) : bool := (textOf (x "membership_source") =? s)%string.
Definition has (c : string) (x : row) : bool := given (textOf (x c)).
Definition flag (c : string) (x : row) : bool := boolOf (x c).

(** What each column of the first statement counts. *)
Definition scalarTests : list (row -> bool) :=
  let cu p x := isCurrent x && p x in
  [isCurrent; cu (layerOf "el"); cu (layerOf "cl"); cu (flag "has_v4"); cu (flag "has_v5"); cu (flag "geolocated"); cu (has "ip6");
   cu (fun x => has "ip" x && has "ip6" x); cu (flag "hosting"); cu (flag "dialable"); cu (fun x => flag "dialable" x && has "ip6" x);
   cu (fun x => has "ip6" x && explicitPort x); cu (memberBy "status"); cu (memberBy "enr");
   (fun x => negb (isCurrent x) && layerOf "el" x); (fun x => negb (isCurrent x) && layerOf "cl" x);
   cu (fun x => identStale at_ x && layerOf "el" x); cu (fun x => identStale at_ x && layerOf "cl" x)].

Lemma stats_int c : c ∈ ["tcp6"; "quic6"] -> is_integer (r c) = true.
Proof using Hr.
  intros Hc. pose proof Hr as H. unfold statsRow in H. apply andb_true_iff in H as [H _]. apply andb_true_iff in H as [_ H].
  rewrite forallb_forall in H. by apply H, list_elem_of_In.
Qed.
Lemma stats_bool c : c ∈ "geolocated" :: boolColumns -> is_bool (r c) = true.
Proof using Hr.
  intros [->|Hc]%elem_of_cons; [by unfold statsRow in Hr; apply andb_true_iff in Hr as [_ H]|].
  pose proof (statsRow_typed r Hr) as H. unfold typedRow in H. do 2 (apply andb_true_iff in H as [H _]).
  apply andb_true_iff in H as [_ H]. rewrite forallb_forall in H. by apply H, list_elem_of_In.
Qed.

Ltac flags :=
  repeat first [apply cur_selects | apply notCur_selects | apply staleCol_selects | apply (selects_and fr _ _ [] [])
    | apply (selects_or fr _ _ [] [])
    | apply layer_is; done | apply member_is; done | apply nonempty_is; [column|done] | apply nonzero_is; [apply stats_int; column|done]
    | apply bool_is; [apply stats_bool; column|done]].

Lemma scalars_select : Forall2 (fun e p => selects fr e [] (p r)) scalars scalarTests.
Proof using Hr.
  unfold scalars, scalarTests, cur. cbn [join_And].
  repeat (apply Forall2_cons; split; [solve [flags]|]). constructor.
Qed.
End Flags.
End Flagged.

(** * Counting over the flagged rows *)

Lemma holdsOf_selects r e b : selects r e [] b -> holdsOf e r = b.
Proof. intros H. unfold holdsOf. rewrite (selects_keeps _ _ _ _ H). destruct b; [by apply bool_decide_eq_true|by apply bool_decide_eq_false]. Qed.

Lemma filter_map_list {A B} (f : A -> B) (p : B -> bool) l : List.filter p (map f l) = map f (List.filter (fun x => p (f x)) l).
Proof. induction l as [|x l IH]; [done|]. cbn [map List.filter]. destruct (p (f x)); cbn [map]; by rewrite IH. Qed.

Lemma filter_ext_list {A} (p q : A -> bool) l : (forall x, x ∈ l -> p x = q x) -> List.filter p l = List.filter q l.
Proof. intros H. apply List.filter_ext_in. intros x Hx. apply H, list_elem_of_In, Hx. Qed.

(** ** The loops over groups *)

Section Tally.
Context {K S : Type} (turn : S -> K * Z -> S) (read : S -> gmap string Z) (counted : K -> bool) (name : K -> string).
Context (Hturn : forall s k c, read (turn s (k, c)) = if counted k then addTo (read s) (name k) c else read s).

Lemma tally_at gs s n :
  countAt (read (foldl turn s gs)) n = countAt (read s) n + zsum_by (fun g => (if counted g.1 && (name g.1 =? n)%string then 1 else 0) * g.2) gs.
Proof using Hturn.
  revert s. induction gs as [|[k c] gs IH]; intros s; [unfold zsum_by; cbn; lia|]. cbn [foldl]. rewrite IH, Hturn, zsum_by_cons. cbn [fst snd].
  destruct (counted k); cbn [andb]; [rewrite countAt_addTo; destruct (_ =? n)%string; lia|lia].
Qed.

Lemma tally_sum gs s :
  tallySum (read (foldl turn s gs)) = tallySum (read s) + zsum_by (fun g => (if counted g.1 then 1 else 0) * g.2) gs.
Proof using Hturn.
  revert s. induction gs as [|[k c] gs IH]; intros s; [unfold zsum_by; cbn; lia|]. cbn [foldl]. rewrite IH, Hturn, zsum_by_cons. cbn [fst snd].
  destruct (counted k); [rewrite tallySum_addTo; lia|lia].
Qed.
End Tally.

(** Which client groups each map counts, and under which name. *)
Definition named (k : clientKey) : string := chartName (kLayer k) (kClient k).
Definition onLayerKey (L : string) (k : clientKey) : bool := given (kClient k) && (kLayer k =? L)%string.

Lemma turn_EL s k c : bd_ClientEL (countClients s (k, c)) = if onLayerKey "el" k then addTo (bd_ClientEL s) (named k) c else bd_ClientEL s.
Proof.
  unfold countClients, onLayerKey. cbv zeta. destruct (given (kClient k)); cbn [negb andb]; [|done].
  destruct (kLayer k =? "el")%string; [done|]. by destruct (kLayer k =? "cl")%string.
Qed.
Lemma turn_CL s k c : bd_ClientCL (countClients s (k, c)) = if onLayerKey "cl" k then addTo (bd_ClientCL s) (named k) c else bd_ClientCL s.
Proof.
  unfold countClients, onLayerKey. cbv zeta. destruct (given (kClient k)); cbn [negb andb]; [|done].
  destruct (String.eqb_spec (kLayer k) "el") as [->|]; [done|]. by destruct (kLayer k =? "cl")%string.
Qed.
Lemma turn_all s k c : bd_Client (countClients s (k, c)) = if given (kClient k) then addTo (bd_Client s) (named k) c else bd_Client s.
Proof.
  unfold countClients. cbv zeta. destruct (given (kClient k)); cbn [negb]; [|done].
  destruct (kLayer k =? "el")%string; [done|]. by destruct (kLayer k =? "cl")%string.
Qed.
Lemma turn_OS s k c : bd_OS (countClients s (k, c)) = if given (kOS k) then addTo (bd_OS s) (kOS k) c else bd_OS s.
Proof.
  unfold countClients. cbv zeta. destruct (negb _); [done|]. destruct (kLayer k =? "el")%string; [done|]. by destruct (kLayer k =? "cl")%string.
Qed.

(** ** The grouping sets *)

Definition setMap (which : setOf) (s : Sets) : gmap string Z :=
  match which with ByNetwork => gs_Network s | ByCountry => gs_Country s | ByOrg => gs_Org s | ByLayer => gs_Layer s end.
Definition setColumn (which : setOf) : string :=
  match which with ByNetwork => "network" | ByCountry => "country" | ByOrg => "org" | ByLayer => "layer" end.
#[global] Instance setOf_eq_dec : EqDecision setOf.
Proof. solve_decision. Defined.

(** One row of the statement. *)
Definition scanTurn (s : Sets) (row : setOf * value * Z) : Sets :=
  let '(which, v, c) := row in
  match keyedText v with
  | None => s
  | Some k =>
      match which with
      | ByNetwork => MkSets (<[k := c]> (gs_Network s)) (gs_Country s) (gs_Org s) (gs_Layer s)
      | ByCountry => MkSets (gs_Network s) (<[k := c]> (gs_Country s)) (gs_Org s) (gs_Layer s)
      | ByOrg => MkSets (gs_Network s) (gs_Country s) (<[k := c]> (gs_Org s)) (gs_Layer s)
      | ByLayer => MkSets (gs_Network s) (gs_Country s) (gs_Org s) (<[k := c]> (gs_Layer s))
      end
  end.

Lemma keyed_Some v k : keyedText v = Some k <-> v = VText k /\ k <> "".
Proof.
  destruct v as [|t|z|b]; cbn [keyedText]; [naive_solver| |naive_solver|naive_solver].
  destruct (String.eqb_spec t "") as [->|Ht]; [naive_solver|]. split; [intros [= ->]; done|by intros [[= ->] _]].
Qed.

Lemma scanTurn_at s w v c which k :
  setMap which (scanTurn s (w, v, c)) !! k = if decide (w = which /\ v = VText k /\ k <> "") then Some c else setMap which s !! k.
Proof.
  cbn [scanTurn]. destruct (keyedText v) as [k'|] eqn:E.
  - apply keyed_Some in E as [-> Hk']. destruct w, which; cbn [setMap gs_Network gs_Country gs_Org gs_Layer];
      try (rewrite decide_False by (by intros [[=] _]); done);
      (destruct (decide (k' = k)) as [->|Hne]; [by rewrite lookup_insert_eq, decide_True|rewrite lookup_insert_ne by done; rewrite decide_False by naive_solver; done]).
  - rewrite decide_False; [done|]. intros (_ & -> & Hk). by rewrite (proj2 (keyed_Some _ _) (conj eq_refl Hk)) in E.
Qed.

(** When every group carries the count of its key, so do the maps. *)
Lemma scan_at (count : setOf -> value -> Z) which k rows s :
  k <> "" -> (forall w v c, (w, v, c) ∈ rows -> c = count w v) ->
  setMap which (foldl scanTurn s rows) !! k =
    if existsb (fun g => bool_decide (g.1 = (which, VText k))) rows then Some (count which (VText k)) else setMap which s !! k.
Proof.
  intros Hk. revert s. induction rows as [|[[w v] c] rows IH]; intros s Hc; [done|]. cbn [foldl existsb fst].
  rewrite IH by (intros; apply Hc; by right). destruct (existsb _ rows); [by rewrite orb_true_r|]. rewrite orb_false_r, scanTurn_at.
  destruct (decide _) as [(-> & -> & _)|Hn].
  - rewrite bool_decide_true by done. f_equal. apply Hc. by left.
  - rewrite bool_decide_false; [done|]. intros [= -> ->]. by destruct Hn.
Qed.

Lemma occurrences_pos {A} `{EqDecision A} (x : A) l : x ∉ l -> occurrences x l = 0.
Proof. intros H. apply zsum_by_zero. intros y Hy. rewrite decide_False; [done|]. by intros ->. Qed.

Lemma occurrences_rows (col : string) v t : occurrences v (map (fun r : row => r col) t) = countRows (fun r => bool_decide (r col = v)) t.
Proof.
  unfold occurrences, countRows. rewrite zsum_by_map. apply zsum_by_ext. intros r _. destruct (decide (r col = v)) as [E|E]; [by rewrite bool_decide_true|by rewrite bool_decide_false].
Qed.

Lemma groupingSets_count t w v c : (w, v, c) ∈ groupingSets t -> c = occurrences v (map (fun r : row => r (setColumn w)) t).
Proof.
  unfold groupingSets, groupBy. cbv zeta. rewrite !elem_of_app, !map_map. cbn [fst snd].
  intros [H|[H|[H|H]]]; apply list_elem_of_In, in_map_iff in H as (x & [= <- <- <-] & _); done.
Qed.

Lemma groupingSets_has t which v : (exists c, (which, v, c) ∈ groupingSets t) <-> v ∈ map (fun r : row => r (setColumn which)) t.
Proof.
  unfold groupingSets, groupBy. cbv zeta. setoid_rewrite elem_of_app. setoid_rewrite elem_of_app. setoid_rewrite elem_of_app.
  rewrite !map_map. cbn [fst snd]. split.
  - intros [c [H|[H|[H|H]]]]; apply list_elem_of_In, in_map_iff in H as (x & [= <- <- _] & Hx);
      apply list_elem_of_In in Hx; rewrite elem_of_remove_dups in Hx; exact Hx.
  - intros H. exists (occurrences v (map (fun r : row => r (setColumn which)) t)).
    apply elem_of_remove_dups, list_elem_of_In in H.
    destruct which; [left|right; left|right; right; left|right; right; right]; apply list_elem_of_In, in_map_iff; by exists v.
Qed.

(** A map of the grouping sets counts the rows of each named value, in whatever order the
    groups arrive. *)
Lemma sets_count t rows which k :
  rows ≡ₚ groupingSets t -> k <> "" ->
  countAt (setMap which (scanGroupingSets rows)) k = countRows (fun r => bool_decide (r (setColumn which) = VText k)) t.
Proof.
  intros Hp Hk. unfold countAt. change (scanGroupingSets rows) with (foldl scanTurn (MkSets ∅ ∅ ∅ ∅) rows).
  rewrite (scan_at (fun w v => occurrences v (map (fun r : row => r (setColumn w)) t)) which k rows _ Hk).
  2: { intros w v c Hc. rewrite Hp in Hc. by apply groupingSets_count. }
  rewrite <- occurrences_rows. destruct (existsb _ rows) eqn:E; [done|].
  assert (setMap which (MkSets ∅ ∅ ∅ ∅) !! k = None) as -> by (destruct which; apply lookup_empty). cbn [from_option].
  symmetry. apply occurrences_pos. intros Hin. apply groupingSets_has in Hin as [c Hin]. rewrite <- Hp in Hin.
  apply not_true_iff_false in E. apply E, existsb_exists. exists (which, VText k, c). split; [by apply list_elem_of_In|by apply bool_decide_true].
Qed.

(** * The report *)

Section Report.
Context (arrange : forall A, list A -> list A) (Harrange : forall A (l : list A), arrange A l ≡ₚ l).
Context (registry : list Network) (networks : list string) (t : table) (network membership : string) (at_ : Time).
Context (Ht : forall r, r ∈ t -> statsRow r = true) (Hok : registry_ok registry) (Hne : "" ∉ networks).

Definition statsFilter : Filter := membershipFilter network "" "" membership "" false at_.
Definition kept (r : row) : bool := filter_keeps registry at_ statsFilter networks r.
Definition servedNetworks : list string := forkNetworks statsFilter networks.
Definition onFork (r : row) : bool := isCurrent registry at_ servedNetworks r.
Abbreviation fl := (flaggedRow registry at_ servedNetworks).
Definition keptRows : table := List.filter kept t.
Definition identifiedOn (L : string) (r : row) : bool := onFork r && (layerOf L r && (chartedRow at_ r && has "client" r)).

Lemma kept_stats r : r ∈ keptRows -> statsRow r = true.
Proof using Ht. unfold keptRows. intros H. apply Ht. apply list_elem_of_In, filter_In in H as [H _]. by apply list_elem_of_In. Qed.

Lemma holds_flag e p : (forall r, r ∈ keptRows -> selects (fl r) e [] (p r)) -> List.filter (holdsOf e) (map fl keptRows) = map fl (List.filter p keptRows).
Proof using. intros H. rewrite filter_map_list. f_equal. apply filter_ext_list. intros r Hr. apply holdsOf_selects. by apply H. Qed.

Lemma count_flag e p : (forall r, r ∈ keptRows -> selects (fl r) e [] (p r)) -> countFilter e (map fl keptRows) = countRows p keptRows.
Proof using.
  intros H. unfold countFilter, countRows. rewrite zsum_by_map. apply zsum_by_ext. intros r Hr. by rewrite (holdsOf_selects _ _ _ (H r Hr)).
Qed.

Lemma scalar_counts : map (fun e => countFilter e (map fl keptRows)) scalars = map (fun p => countRows p keptRows) (scalarTests registry at_ servedNetworks).
Proof using Ht.
  assert (forall es ps, (forall r, r ∈ keptRows -> Forall2 (fun e (p : row -> bool) => selects (fl r) e [] (p r)) es ps) ->
    length es = length ps -> map (fun e => countFilter e (map fl keptRows)) es = map (fun p => countRows p keptRows) ps) as H.
  { induction es as [|e es IH]; intros [|p ps] Hf Hl; try done. cbn [map]. f_equal.
    - apply count_flag. intros r Hr. by apply Hf, Forall2_cons in Hr as [? _].
    - apply IH; [|by injection Hl]. intros r Hr. by apply Hf, Forall2_cons in Hr as [_ ?]. }
  apply H; [|done]. intros r Hr. by apply scalars_select, kept_stats.
Qed.

Definition charting (r : row) : bool := onFork r && (chartedRow at_ r && (has "client" r || has "os" r)).

Lemma clients_select r : r ∈ keptRows -> selects (fl r) clientsWhere [] (charting r).
Proof using Ht.
  intros Hr. apply kept_stats in Hr. unfold clientsWhere, charting, has.
  apply (selects_and _ _ _ [] []); [apply cur_selects|]. apply (selects_and _ _ _ [] []); [by apply chartCol_selects|].
  apply (selects_or _ _ _ [] []); (apply nonempty_is; [done|column|done]).
Qed.

(** The sum over the client groups is one over the rows. *)
Lemma charted_clients_sum (w : clientKey -> Z) :
  zsum_by (fun g => w g.1 * g.2) (arrange _ (groupBy clientKeyOf (map fl (List.filter charting keptRows)))) =
  zsum_by (fun r => if charting r then w (clientKeyOf r) else 0) keptRows.
Proof using Harrange. rewrite (zsum_by_perm _ _ _ (Harrange _ _)), groupBy_sum, zsum_by_map. by rewrite zsum_by_filter. Qed.

(** What the whole report is, once it is one. *)
Lemma stats_inv state s :
  StatsForMembershipAt arrange registry networks state t network membership at_ = Ok s ->
  let b := foldl countClients noBreakdown (arrange _ (groupBy clientKeyOf (map fl (List.filter charting keptRows)))) in
  scanCounts (map (fun p => countRows p keptRows) (scalarTests registry at_ servedNetworks)) = Some (st_counts s) /\
  st_breakdown s = b /\ st_ELIdentified s = tallySum (bd_ClientEL b) /\ st_CLIdentified s = tallySum (bd_ClientCL b) /\
  st_sets s = scanGroupingSets (arrange _ (groupingSets (map fl (List.filter onFork keptRows)))) /\ st_Generation s = es_LastRefresh state.
Proof using Ht Hok Hne.
  unfold StatsForMembershipAt, rbind. fold statsFilter. destruct (filter_Validate statsFilter) as [[]|] eqn:Ev; [|done].
  destruct (where_ registry at_ statsFilter networks) as [[clause rargs]|] eqn:Ew; [|done]. fold servedNetworks.
  destruct (currentForkConditionAt registry at_ servedNetworks) as [[current cargs]|] eqn:Ec; [|done].
  destruct (chartFingerprintConditionAt at_) as [chart cutoff] eqn:E.
  rewrite (flagged_rows registry at_ servedNetworks t current cargs clause rargs kept chart cutoff E).
  - fold keptRows. rewrite scalar_counts. destruct (scanCounts _) as [counts|]; [|done]. intros [= <-]. cbv zeta.
    cbn [st_counts st_breakdown st_ELIdentified st_CLIdentified st_sets st_Generation statsHead].
    rewrite (holds_flag clientsWhere charting clients_select). rewrite (holds_flag (Col "cur") onFork (fun r _ => cur_selects _ _ _ r)). done.
  - intros r Hr. by apply statsRow_typed, Ht.
  - intros r Hr. apply (currentFork_denotes registry at_ r (statsRow_typed r (Ht r Hr)) servedNetworks); [|done].
    intros x Hx. split; [|by apply four_bytes_ok]. intros ->. by apply Hne, (forkNetworks_sub statsFilter).
  - intros r Hr. by apply (where_keeps registry at_ statsFilter networks r clause rargs (statsRow_typed r (Ht r Hr)) Ev Hne Hok).
Qed.

Lemma client_map (read : Breakdown -> gmap string Z) (counted : clientKey -> bool) (nm : clientKey -> string) n :
  read noBreakdown = ∅ ->
  (forall s k c, read (countClients s (k, c)) = if counted k then addTo (read s) (nm k) c else read s) ->
  countAt (read (foldl countClients noBreakdown (arrange _ (groupBy clientKeyOf (map fl (List.filter charting keptRows)))))) n =
  countRows (fun r => charting r && (counted (clientKeyOf r) && (nm (clientKeyOf r) =? n)%string)) keptRows.
Proof using Harrange.
  intros H0 Hturn. rewrite (tally_at _ _ counted nm Hturn), (charted_clients_sum (fun k => if counted k && (nm k =? n)%string then 1 else 0)), H0.
  unfold countAt. rewrite lookup_empty. cbn [from_option]. rewrite Z.add_0_l. apply zsum_by_ext. intros r _. by destruct (charting r).
Qed.

Lemma client_total (read : Breakdown -> gmap string Z) (counted : clientKey -> bool) (nm : clientKey -> string) :
  read noBreakdown = ∅ ->
  (forall s k c, read (countClients s (k, c)) = if counted k then addTo (read s) (nm k) c else read s) ->
  tallySum (read (foldl countClients noBreakdown (arrange _ (groupBy clientKeyOf (map fl (List.filter charting keptRows)))))) =
  countRows (fun r => charting r && counted (clientKeyOf r)) keptRows.
Proof using Harrange.
  intros H0 Hturn. rewrite (tally_sum _ _ counted nm Hturn), (charted_clients_sum (fun k => if counted k then 1 else 0)), H0.
  unfold tallySum at 1. rewrite map_sum_empty, Z.add_0_l. apply zsum_by_ext. intros r _. by destruct (charting r).
Qed.

(** The rows the report is about for which a test holds. *)
Definition reported (p : row -> bool) : Z := countRows (fun r => kept r && p r) t.

Lemma reported_kept p : countRows p keptRows = reported p.
Proof using. apply rowsOf_filter. Qed.

Lemma reported_ext p q : (forall r, p r = q r) -> reported p = reported q.
Proof using. intros H. apply rowsOf_ext. intros r _. by rewrite H. Qed.

Lemma reported_split p q : reported (fun r => q r && p r) + reported (fun r => q r && negb (p r)) = reported q.
Proof using. unfold reported. rewrite <- (rowsOf_split p (fun r => kept r && q r)). f_equal; apply rowsOf_ext; intros r _; by rewrite andb_assoc. Qed.

Lemma onLayer_rows L r : charting r && onLayerKey L (clientKeyOf r) = identifiedOn L r.
Proof using.
  unfold charting, onLayerKey, identifiedOn, layerOf, has, kClient, kLayer, clientKeyOf. cbn [fst snd].
  by destruct (onFork r), (chartedRow at_ r), (given (textOf (r "client"))), (given (textOf (r "os"))), (_ =? L)%string.
Qed.

(** The charted rows of a layer and the ones whose identification has aged. *)
Lemma identified_or_stale L :
  reported (identifiedOn L) + reported (fun r => onFork r && (identStale at_ r && layerOf L r)) =
  reported (fun r => onFork r && (layerOf L r && (fpVerified r && has "client" r))).
Proof using.
  rewrite <- (reported_split (chartedRow at_) (fun r => onFork r && (layerOf L r && (fpVerified r && has "client" r)))). f_equal; apply reported_ext; intros r.
  - unfold identifiedOn, chartedRow, Charted, fpVerified. destruct (onFork r), (layerOf L r), (has "client" r); cbn; try done;
      rewrite ?andb_false_r, ?andb_true_r; try done. by destruct (_ || _).
  - unfold identStale, has. by destruct (onFork r), (layerOf L r), (fpVerified r), (given _), (chartedRow at_ r).
Qed.
End Report.

