(* ===== verification/StatsServed.v ===== *)
(** What the handlers combine: the version breakdown agrees with the aggregate of the same
    table, the pages of a node list are the whole list, and a key finds the node it names.  A small
    table, at the end, shows the theorems on statistics at work. *)

From stdpp Require Import base gmap strings list numbers sorting.
From Stdlib Require Import ZArith Lia Ascii.
From S2P Require Import Prelude GoLib Counting Hashes Consensus ForkId Network Readiness Text Clientname Sql Query QueryMirror QueryWhere.
From S2P Require Import Snapshot Stats StatsProps.
#[local] Open Scope Z_scope.

(** * Versions *)

Lemma insert_all_sum (gs : list (string * Z)) m :
  NoDup (map fst gs) -> (forall k, k ∈ map fst gs -> m !! k = None) -> tallySum (foldl (fun m g => <[g.1 := g.2]> m) m gs) = tallySum m + zsum_by snd gs.
Proof.
  revert m. induction gs as [|[k c] gs IH]; intros m Hnd Hm; [unfold zsum_by; cbn; lia|]. cbn [foldl map fst snd] in *.
  apply NoDup_cons in Hnd as [Hk Hnd]. rewrite IH; [|done|].
  - unfold tallySum. rewrite map_sum_insert, zsum_by_cons, Hm by left. cbn. lia.
  - intros k' Hk'. rewrite lookup_insert_ne; [apply Hm; by right|]. intros ->. done.
Qed.

Lemma groupBy_keys {K} `{EqDecision K} (key : row -> K) t : map fst (groupBy key t) = remove_dups (map key t).
Proof. unfold groupBy. rewrite map_map. cbn [fst]. apply map_id. Qed.

Lemma groupBy_total {K} `{EqDecision K} (key : row -> K) t : zsum_by snd (groupBy key t) = Z.of_nat (length t).
Proof.
  rewrite (zsum_by_ext _ (fun g : K * Z => (fun _ => 1) g.1 * g.2)) by (intros; lia). rewrite (groupBy_sum key (fun _ => 1)).
  unfold zsum_by. induction t as [|r t IH]; [done|]. cbn [map zsum foldr length] in *. unfold zsum in IH. lia.
Qed.

Lemma arranged_total (arrange : forall A, list A -> list A) (key : row -> string) t :
  (forall A (l : list A), arrange A l ≡ₚ l) ->
  tallySum (foldl (fun m g => <[g.1 := g.2]> m) ∅ (arrange _ (groupBy key t))) = Z.of_nat (length t).
Proof.
  intros Harr. rewrite insert_all_sum.
  - unfold tallySum. rewrite map_sum_empty, (zsum_by_perm _ _ _ (Harr _ _)), groupBy_total. lia.
  - rewrite (Permutation_map fst (Harr _ _)), groupBy_keys. apply NoDup_remove_dups.
  - intros k _. apply lookup_empty.
Qed.

Section Versions.
Context (registry : list Network) (networks : list string) (network client L membership : string) (at_ : Time).

Definition versionsFilter : Filter := membershipFilter network client L membership "current" true at_.

(** The breakdown counts the charted rows of the client on the layer. *)
Definition ofClient (r : row) : bool :=
  identifiedOn registry networks network membership at_ L r && (ToLower (textOf (r "client")) =? ToLower client)%string.

Lemma ToLower_empty s : ToLower s = "" -> s = "".
Proof. by destruct s. Qed.

Lemma versions_rows r :
  L <> "" -> client <> "" ->
  filter_keeps registry at_ versionsFilter networks r && chartedRow at_ r =
  filter_keeps registry at_ (statsFilter network membership at_) networks r && ofClient r.
Proof.
  intros HL Hc. unfold filter_keeps, versionsFilter, statsFilter, membershipFilter, ofClient, identifiedOn, onFork, isCurrent, servedNetworks.
  unfold simple_keeps, fork_keeps, readiness_keeps, search_keeps, cgc_keeps, statsFilter, membershipFilter, forkNetworks.
  cbn [f_Network f_Client f_ClientExact f_Country f_OS f_Layer f_Protocol f_IPStack f_Hosting f_Dialable f_ForkStatus f_Membership f_Identified
    f_Sync f_Readiness f_IP f_Q f_CGCMin f_CGCMax f_ForkAt].
  assert (given L = true) as -> by (unfold given; by apply negb_true_iff, String.eqb_neq).
  assert (given client = true) as -> by (unfold given; by apply negb_true_iff, String.eqb_neq).
  change (given "") with false. unfold layerOf, has.
  change ("current" =? "current")%string with true. change ("" =? "current")%string with false. change ("current" =? "stale")%string with false.
  change ("" =? "stale")%string with false.
  assert ((ToLower (textOf (r "client")) =? ToLower client)%string = true -> given (textOf (r "client")) = true) as Hg.
  { rewrite String.eqb_eq. intros E. unfold given. apply negb_true_iff, String.eqb_neq. intros E0. rewrite E0 in E. symmetry in E. by apply Hc, ToLower_empty. }
  destruct (IsZero at_);
  destruct (ToLower (textOf (r "client")) =? ToLower client)%string, (textOf (r "layer") =? L)%string, (implb (given network) _),
    (existsb (rowCurrent registry at_ r) _), (chartedRow at_ r), (implb (membership =? "verified")%string _), (implb (membership =? "claimed")%string _);
    cbn; rewrite ?Hg by done; try done; try (by destruct (given _)).
Qed.
End Versions.

(** C29.  The two halves of a statistics answer agree.  On one table and at one instant, the
    version breakdown of a client on a layer counts exactly the charted rows the aggregate
    counts for it: its sum is the number of those rows, and for a client the charts know,
    whose spelling is uniform, it is the entry of the per-client map. *)
Theorem versions_match_stats arrange normalized registry networks state t network client L membership at_ s m :
  (forall A (l : list A), arrange A l ≡ₚ l) -> (forall r, r ∈ t -> statsRow r = true) -> registry_ok registry -> "" ∉ networks ->
  L = "el" \/ L = "cl" -> client <> "" ->
  StatsForMembershipAt arrange registry networks state t network membership at_ = Ok s ->
  VersionsForMembershipAt arrange registry networks normalized t network client L membership at_ = Ok m ->
  tallySum m = reported registry networks t network membership at_ (ofClient registry networks network client L membership at_) /\
  (Recognized L client = true ->
   (forall r, r ∈ t -> ToLower (textOf (r "client")) = ToLower client -> textOf (r "client") = client) ->
   tallySum m = countAt (if (L =? "el")%string then bd_ClientEL (st_breakdown s) else bd_ClientCL (st_breakdown s)) client).
Proof.
  intros Harr Ht Hok Hne HL Hc Hs Hm.
  assert (tallySum m = reported registry networks t network membership at_ (ofClient registry networks network client L membership at_)) as Htotal.
  { unfold VersionsForMembershipAt, rbind in Hm. fold (versionsFilter network client L membership at_) in Hm.
    destruct (filter_Validate _) as [[]|] eqn:Ev in Hm; [|done].
    destruct (where_ _ _ _ _) as [[clause args]|] eqn:Ew in Hm; [|done].
    destruct (chartFingerprintConditionAt at_) as [chart cutoff] eqn:E.
    rewrite (selectRows_filter _ _ (fun r => filter_keeps registry at_ (versionsFilter network client L membership at_) networks r && chartedRow at_ r)) in Hm.
    - injection Hm as <-. rewrite arranged_total by done. rewrite <- rowsOf_length. apply rowsOf_ext. intros r _.
      apply versions_rows; [by destruct HL as [-> | ->]|done].
    - intros r Hr. pose proof (statsRow_typed r (Ht r Hr)) as Hty.
      pose proof (where_keeps registry at_ _ networks r clause args Hty Ev Hne Hok Ew) as Hk.
      destruct (chart_selects r Hty at_ chart cutoff E) as (v & Hv & Hst). rewrite <- Hst.
      pose proof (keeps_row_and r clause args _ chart _ v Hk Hv) as Ha. unfold strict. by destruct clause. }
  split; [done|]. intros Hrec Hspell. rewrite Htotal.
  destruct (stats_inv arrange registry networks t network membership at_ Ht Hok Hne state s Hs) as (_ & Hb & _). rewrite Hb.
  assert (forall r, r ∈ t -> (ToLower (textOf (r "client")) =? ToLower client)%string = (chartName L (textOf (r "client")) =? client)%string) as Hname.
  { intros r Hr. apply eq_bool_prop_intro. split; intros Hx%Is_true_true%String.eqb_eq; apply Is_true_true, String.eqb_eq.
    - rewrite (Hspell r Hr Hx). unfold chartName. by rewrite Hrec.
    - unfold chartName in Hx. destruct (Recognized L (textOf (r "client"))); [by rewrite Hx|]. subst client.
      destruct HL as [-> | ->]; by vm_compute in Hrec. }
  assert (forall p q, (forall r, r ∈ t -> p r = q r) ->
    reported registry networks t network membership at_ p = reported registry networks t network membership at_ q) as Hext.
  { intros p q H. apply rowsOf_ext. intros r Hr. by rewrite H. }
  destruct HL as [-> | ->]; cbn [String.eqb Ascii.eqb Bool.eqb].
  - rewrite (client_map arrange Harr _ _ _ _ _ _ bd_ClientEL (onLayerKey "el") named client eq_refl turn_EL), reported_kept. apply Hext.
    intros r Hr. rewrite andb_assoc, onLayer_rows. unfold ofClient. rewrite (Hname r Hr).
    unfold identifiedOn, layerOf, named, kLayer, kClient, clientKeyOf; cbn [fst snd].
    destruct (String.eqb_spec (textOf (r "layer")) "el") as [->|]; [done|]. by rewrite !andb_false_r.
  - rewrite (client_map arrange Harr _ _ _ _ _ _ bd_ClientCL (onLayerKey "cl") named client eq_refl turn_CL), reported_kept. apply Hext.
    intros r Hr. rewrite andb_assoc, onLayer_rows. unfold ofClient. rewrite (Hname r Hr).
    unfold identifiedOn, layerOf, named, kLayer, kClient, clientKeyOf; cbn [fst snd].
    destruct (String.eqb_spec (textOf (r "layer")) "cl") as [->|]; [done|]. by rewrite !andb_false_r.
Qed.

(** * Pages *)

Lemma insert_sorted_adjacent {A} (leb : A -> A -> bool) (Htot : forall x y, leb x y = false -> leb y x = true) x l :
  Sorted (fun a b => leb a b = true) l -> Sorted (fun a b => leb a b = true) (insert_sorted leb x l).
Proof.
  induction 1 as [|y l Hl IH Hy]; cbn [insert_sorted]; [by repeat constructor|].
  destruct (leb x y) eqn:E; [by repeat constructor|]. constructor; [done|]. apply Htot in E.
  destruct l as [|z l]; cbn [insert_sorted] in *; [by constructor|]. destruct (leb x z); constructor; [done|]. by inversion Hy.
Qed.

Lemma isort_adjacent {A} (leb : A -> A -> bool) (Htot : forall x y, leb x y = false -> leb y x = true) l : Sorted (fun a b => leb a b = true) (isort leb l).
Proof. induction l as [|x l IH]; [constructor|]. by apply insert_sorted_adjacent. Qed.

Lemma orderedBy_total keys x y : orderedBy keys x y = false -> orderedBy keys y x = true.
Proof.
  induction keys as [|[col desc] keys IH]; [done|]. cbn [orderedBy]. intros [H1 H2]%orb_false_iff.
  destruct (valueBefore desc (col y) (col x)); [done|]. cbn [negb andb orb] in *. rewrite H1. cbn [negb andb]. by apply IH.
Qed.

Lemma pages_take {A} (l : list A) (size : nat) n :
  concat (map (fun i => take size (drop (i * size) l)) (seq 0 n)) = take (n * size) l.
Proof.
  induction n as [|n IH]; [done|]. rewrite seq_S, map_app, concat_app, IH. cbn [map concat]. rewrite app_nil_r. cbn [Nat.add].
  rewrite <- (take_drop (n * size) (take (S n * size) l)) at 1. rewrite take_take, skipn_firstn_comm. do 2 f_equal; lia.
Qed.

(** What a row becomes. *)
Definition nodeOf (registry : list Network) (at_ : Time) (r : row) : QNode :=
  MkQNode r (RowForkCurrentAt registry (textOf (r "layer")) (textOf (r "network")) (textOf (r "fork_hash")) (intOf (r "fork_next")) at_)
    (match ForkTargetAt registry (textOf (r "network")) at_ with
     | Ok t => if negb (bool_decide (target_Phase t = PhaseNone)) then ReadinessAt registry t (textOf (r "network")) (evidence r) at_ else NoReadiness
     | Err _ => NoReadiness
     end).

(** Looking a target up once per network changes nothing. *)
Lemma scanLoop_map registry at_ rows targets :
  (forall network t, targets !! network = Some t ->
     t = match ForkTargetAt registry network at_ with
         | Ok t => if negb (bool_decide (target_Phase t = PhaseNone)) then Some t else None
         | Err _ => None
         end) ->
  scanLoop registry targets rows at_ = map (nodeOf registry at_) rows.
Proof.
  revert targets. induction rows as [|r rows IH]; intros targets Hm; [done|]. cbn [scanLoop map]. unfold targetFor.
  destruct (targets !! textOf (r "network")) as [t|] eqn:E.
  - rewrite IH by done. f_equal. unfold nodeOf. f_equal. rewrite (Hm _ _ E).
    destruct (ForkTargetAt registry (textOf (r "network")) at_) as [t'|]; [|done]. by destruct (negb _).
  - rewrite IH.
    + f_equal. unfold nodeOf. f_equal. destruct (ForkTargetAt registry (textOf (r "network")) at_) as [t'|]; [|done]. by destruct (negb _).
    + intros network t Hl. destruct (decide (network = textOf (r "network"))) as [->|Hn].
      * rewrite lookup_insert_eq in Hl. by injection Hl as <-.
      * rewrite lookup_insert_ne in Hl by done. by apply Hm.
Qed.

(** The request for the page at an offset, and what [Nodes] makes of it. *)
Definition pageOf (f : Filter) (limit offset : Z) : Filter :=
  MkFilter (f_Network f) (f_Client f) (f_ClientExact f) (f_Country f) (f_OS f) (f_Layer f) (f_Protocol f) (f_IPStack f) (f_Hosting f)
    (f_Dialable f) (f_ForkStatus f) (f_Membership f) (f_Identified f) (f_Sync f) (f_Readiness f) (f_IP f) (f_Q f) (f_CGCMin f) (f_CGCMax f)
    (f_Sort f) (f_Order f) limit offset (f_ForkAt f).

Section Pages.
Context (registry : list Network) (networks : list string) (now : Time) (t : table) (f g : Filter).
Context (Ht : forall r, r ∈ t -> typedRow r = true) (Hok : registry_ok registry) (Hne : "" ∉ networks) (Hg : nodesFilter now f = Ok g).

Definition matching : table := List.filter (filter_keeps registry now g networks) t.
Definition listedRows : table := isort (orderedBy (sortKeys (f_Sort f) (f_Order f))) matching.

Lemma nodesFilter_page limit offset :
  1 <= limit <= 1000 -> 0 <= offset -> nodesFilter now (pageOf f limit offset) = Ok (pageOf g limit offset).
Proof using Hg.
  intros Hl Ho. unfold nodesFilter, rbind in *. change (filter_Validate (pageOf f limit offset)) with (filter_Validate f).
  destruct (filter_Validate f) as [[]|]; [|done]. injection Hg as <-. unfold pageOf.
  cbn [f_Network f_Client f_ClientExact f_Country f_OS f_Layer f_Protocol f_IPStack f_Hosting f_Dialable f_ForkStatus f_Membership f_Identified
    f_Sync f_Readiness f_IP f_Q f_CGCMin f_CGCMax f_ForkAt f_Sort f_Order f_Limit f_Offset].
  rewrite (proj2 (Z.leb_gt limit 0)), (proj2 (Z.ltb_ge 1000 limit)), (proj2 (Z.ltb_ge offset 0)) by lia. done.
Qed.

Lemma g_valid : filter_Validate g = Ok tt.
Proof using Hg.
  unfold nodesFilter, rbind in Hg. destruct (filter_Validate f) as [[]|] eqn:Ev; [|done]. injection Hg as <-. revert Ev.
  unfold filter_Validate, filterEnums.
  cbn [f_Network f_Client f_ClientExact f_Country f_OS f_Layer f_Protocol f_IPStack f_Hosting f_Dialable f_ForkStatus f_Membership f_Identified
    f_Sync f_Readiness f_IP f_Q f_CGCMin f_CGCMax f_ForkAt f_Sort f_Order existsb fst snd].
  destruct ((f_ForkStatus f =? "")%string && (f_Readiness f =? "")%string) eqn:E; [|done].
  apply andb_true_iff in E as [->%String.eqb_eq _]. done.
Qed.

Lemma nodes_page limit offset res :
  1 <= limit <= 1000 -> 0 <= offset -> Nodes registry networks now t (pageOf f limit offset) = Ok res ->
  nr_Total res = Z.of_nat (length matching) /\ nr_Count res = Z.of_nat (length (nr_Nodes res)) /\
  nr_Nodes res = map (nodeOf registry (f_ForkAt g)) (page limit offset listedRows).
Proof using Ht Hok Hne Hg.
  intros Hl Ho. unfold Nodes, rbind. rewrite (nodesFilter_page _ _ Hl Ho).
  destruct (where_ registry now (pageOf g limit offset) networks) as [[clause args]|] eqn:Ew; [|done].
  rewrite (selectRows_filter _ _ (filter_keeps registry now g networks)).
  - fold matching. unfold scanNodes. cbn [pageOf f_Limit f_Offset f_Sort f_Order f_ForkAt].
    assert (f_Sort g = f_Sort f /\ f_Order g = f_Order f) as [-> ->].
    { unfold nodesFilter, rbind in Hg. destruct (filter_Validate f) as [[]|]; [|done]. by injection Hg as <-. }
    destruct (scannable _ _); [|done]. intros [= <-]. cbn [nr_Total nr_Count nr_Nodes]. split_and!; [done|done|].
    apply scanLoop_map. intros network x Hx. by rewrite lookup_empty in Hx.
  - intros r Hr. apply (where_keeps registry now g networks r clause args (Ht r Hr) g_valid Hne Hok Ew).
Qed.
End Pages.

(** Paging loses nothing.  The pages of one node list, asked for one after another,
    are together the matching rows of the table, each once, in the requested order; every
    page reports their number; and what is reported of a row, its fork and its readiness,
    is what the Go rules say of it. *)
Theorem nodes_paged registry networks now t f g limit n pages :
  (forall r, r ∈ t -> typedRow r = true) -> registry_ok registry -> "" ∉ networks -> nodesFilter now f = Ok g -> 1 <= limit <= 1000 ->
  (forall i, (i < n)%nat -> Nodes registry networks now t (pageOf f limit (Z.of_nat i * limit)) = Ok (pages i)) ->
  Z.of_nat (length (matching registry networks now t g)) <= Z.of_nat n * limit ->
  let all := concat (map (fun i => nr_Nodes (pages i)) (seq 0 n)) in
  map qn_row all ≡ₚ List.filter (filter_keeps registry now g networks) t /\
  Sorted (fun a b => orderedBy (sortKeys (f_Sort f) (f_Order f)) a b = true) (map qn_row all) /\
  (forall i, (i < n)%nat -> nr_Total (pages i) = Z.of_nat (length all)) /\
  (forall q, q ∈ all -> q = nodeOf registry (f_ForkAt g) (qn_row q)).
Proof.
  intros Ht Hok Hne Hg Hl Hp Hn all.
  assert (all = map (nodeOf registry (f_ForkAt g)) (listedRows registry networks now t f g)) as Hall.
  { subst all. erewrite map_ext_in.
    2: { intros i Hi. apply in_seq in Hi. destruct (nodes_page registry networks now t f g Ht Hok Hne Hg limit (Z.of_nat i * limit) (pages i)) as (_ & _ & H);
      [done|nia|apply Hp; lia|]. rewrite H. unfold page. rewrite Z2Nat.inj_mul, Nat2Z.id by lia. reflexivity. }
    rewrite <- (map_map (fun i => take (Z.to_nat limit) (drop (i * Z.to_nat limit) (listedRows registry networks now t f g))) (map (nodeOf registry (f_ForkAt g)))).
    rewrite <- concat_map, pages_take, take_ge; [done|]. unfold listedRows. rewrite length_isort. nia. }
  assert (map qn_row all = listedRows registry networks now t f g) as Hrows by (rewrite Hall, map_map; apply map_id).
  split_and!.
  - rewrite Hrows. apply isort_perm.
  - rewrite Hrows. apply isort_adjacent, orderedBy_total.
  - intros i Hi. destruct (nodes_page registry networks now t f g Ht Hok Hne Hg limit (Z.of_nat i * limit) (pages i)) as (-> & _); [done|nia|by apply Hp|].
    rewrite Hall, length_map. unfold listedRows. by rewrite length_isort.
  - intros q Hq. rewrite Hall in Hq. apply list_elem_of_In, in_map_iff in Hq as (r & <- & _). done.
Qed.

(** * One node by its key *)

Lemma isort_head {A} (leb : A -> A -> bool) (rank : A -> Z) l h :
  (forall x y, leb x y = true -> rank x <= rank y) -> (forall x y, leb x y = false -> rank y <= rank x) ->
  head (isort leb l) = Some h -> h ∈ l /\ forall y, y ∈ l -> rank h <= rank y.
Proof.
  intros Ht Hf. revert h. induction l as [|x l IH]; intros h; [done|]. cbn [isort foldr]. fold (isort leb l).
  destruct (isort leb l) as [|y s] eqn:E.
  - intros [= <-]. split; [by left|]. intros y [->|Hy]%elem_of_cons; [done|]. apply (elem_of_isort leb) in Hy. rewrite E in Hy. by apply elem_of_nil in Hy.
  - destruct (IH y eq_refl) as [Hy Hmin]. cbn [insert_sorted]. destruct (leb x y) eqn:Exy; intros [= <-].
    + split; [by left|]. intros z [->|Hz]%elem_of_cons; [done|]. specialize (Ht _ _ Exy). specialize (Hmin z Hz). lia.
    + split; [by right|]. intros z [->|Hz]%elem_of_cons; [by apply Hf|by apply Hmin].
Qed.

(** A key finds the node it names.  Whatever the table holds, the answer is a row the
    key matches, as an id in any case, a prefix of at least sixteen digits, an address or
    a record; a row with that very id wins over all others; and nothing is found only when
    nothing matches. *)
Theorem NodeByKey_finds registry now t key found :
  NodeByKey registry now t key = Ok found ->
  match found with
  | Some n =>
      qn_row n ∈ t /\ keyMatches key (ToLower key) (isNodeIDPrefix key) (qn_row n) = VBool true /\ n = nodeOf registry now (qn_row n) /\
      forall r, r ∈ t -> r "id" = VText (ToLower key) -> qn_row n "id" = VText (ToLower key)
  | None => forall r, r ∈ t -> keyMatches key (ToLower key) (isNodeIDPrefix key) r <> VBool true
  end.
Proof.
  unfold NodeByKey, rbind, scanNodes. cbv zeta.
  set (rows := List.filter _ t). set (keys := [_; _; _; _]).
  assert (forall r, r ∈ rows <-> r ∈ t /\ keyMatches key (ToLower key) (isNodeIDPrefix key) r = VBool true) as Hrows.
  { intros r. subst rows. rewrite !list_elem_of_In, filter_In, bool_decide_eq_true. done. }
  destruct (isort (orderedBy keys) rows) as [|h l] eqn:E; destruct (scannable _ _); try done; intros Hfound;
    apply (f_equal (fun r => match r with Ok x => x | Err _ => None end)) in Hfound; subst found;
    rewrite scanLoop_map by (intros network x Hx; by rewrite lookup_empty in Hx); cbn [take map head].
  - intros r Hr Hm. assert (r ∈ rows) as H by by apply Hrows. apply (elem_of_isort (orderedBy keys)) in H. rewrite E in H. by apply elem_of_nil in H.
  - set (rank := keyRank key (ToLower key) (isNodeIDPrefix key)).
    assert (forall x y, orderedBy keys x y = true -> rank x <= rank y) as Ht.
    { intros x y. subst keys. cbn [orderedBy valueBefore value_lt]. fold rank.
      intros [H|[H _]%andb_true_iff]%orb_true_iff; [lia|]. apply negb_true_iff in H. lia. }
    assert (forall x y, orderedBy keys x y = false -> rank y <= rank x) as Hf.
    { intros x y. subst keys. cbn [orderedBy valueBefore value_lt]. fold rank. intros [H _]%orb_false_iff. lia. }
    destruct (isort_head (orderedBy keys) rank rows h Ht Hf) as [Hh Hmin]; [by rewrite E|]. subst rank.
    apply Hrows in Hh as [Hin Hm]. split_and!; [done|done|done|]. intros r Hr Hid. cbn [nodeOf qn_row].
      assert (r ∈ rows) as Hrr.
      { apply Hrows. split; [done|]. unfold keyMatches. rewrite Hid. cbn [sql_eq]. by rewrite String.eqb_refl. }
      specialize (Hmin r Hrr). unfold keyRank in Hmin at 2. rewrite Hid in Hmin. cbn [sql_eq] in Hmin. rewrite String.eqb_refl in Hmin.
      rewrite bool_decide_true in Hmin by done. unfold keyRank in Hmin. cbv zeta in Hmin.
      destruct (bool_decide (sql_eq (h "id") (VText (ToLower key)) = VBool true)) eqn:Ed; [|repeat case_match; lia].
      apply bool_decide_eq_true in Ed. destruct (h "id") as [|s|z|b]; try done. cbn [sql_eq] in Ed. injection Ed as Ed.
      by apply String.eqb_eq in Ed as ->.
Qed.

(** A small table of the demonstration network and the theorems on statistics, versions,
    pages and keys applied to it. *)

Definition tableHash : string := Eval vm_compute in hex_encode (fid_Hash (currentForkIDAt demoNet demoAt)).

(** An execution node: its id, client, fork hash and when it was identified. *)
Definition tableRow (id client hash : string) (fpAt : Z) : row := fun c =>
  match c with
  | "id" => VText id
  | "network" => VText "demo"
  | "layer" => VText "el"
  | "fork_hash" => VText hash
  | "fork_next" => VInt 1790000000
  | "client" => VText client
  | "client_version" => VText "1.17.3"
  | "fp_status" => VText "ok"
  | "fp_at" => VInt fpAt
  | "score" | "first_seen" | "last_seen" | "last_check" | "seq" | "tcp" | "udp" | "tcp6" | "udp6" | "quic" | "quic6" | "asn" => VInt 0
  | "lat" | "lon" => VInt 0
  | "has_v4" | "has_v5" | "hosting" | "dialable" | "geolocated" => VBool true
  | "cgc" | "cgc_known" | "sync_state" | "hosting_known" | "enr_next_fork_epoch" | "head_lag" => VNull
  | _ => VText ""
  end%string.

(** Two current charted rows, one aged, one on another fork. *)
Definition statsTable : table :=
  [tableRow "aa01" "Geth" tableHash 1789899000; tableRow "aa02" "Reth" tableHash 1789899000; tableRow "aa03" "Geth" tableHash 1000;
   tableRow "aa04" "Geth" "ffffffff" 1789899000].

Definition statsState : State := MkState 4 demoAt demoAt (MkRun "" "" "" "" "" zeroTime zeroTime "" "") "" 1.
Definition backwards : forall A, list A -> list A := fun A => @rev A.

Lemma backwards_perm A (l : list A) : backwards A l ≡ₚ l.
Proof. symmetry. apply Permutation_rev. Qed.
Lemma statsTable_ok r : r ∈ statsTable -> statsRow r = true.
Proof.
  intros H. assert (forallb statsRow statsTable = true) as Ha by (vm_compute; reflexivity). rewrite forallb_forall in Ha.
  by apply Ha, list_elem_of_In.
Qed.
Lemma demo_named : "" ∉ ["demo"].
Proof. intros H. apply list_elem_of_singleton in H. discriminate H. Qed.


Lemma versions_match_stats_witness :
  exists s m, VersionsForMembershipAt backwards [demoNet] ["demo"] (fun r => textOf (r "client_version")) statsTable "demo" "geth" "el" "" demoAt = Ok m /\
    tallySum m = 1 /\ tallySum m = reported [demoNet] ["demo"] statsTable "demo" "" demoAt (ofClient [demoNet] ["demo"] "demo" "geth" "el" "" demoAt) /\
    StatsForMembershipAt backwards [demoNet] ["demo"] statsState statsTable "demo" "" demoAt = Ok s.
Proof.
  destruct (StatsForMembershipAt backwards [demoNet] ["demo"] statsState statsTable "demo" "" demoAt) as [s|] eqn:E; [|vm_compute in E; discriminate E].
  destruct (VersionsForMembershipAt backwards [demoNet] ["demo"] (fun r => textOf (r "client_version")) statsTable "demo" "geth" "el" "" demoAt) as [m|] eqn:Em;
    [|vm_compute in Em; discriminate Em].
  exists s, m. pose proof (versions_match_stats backwards (fun r => textOf (r "client_version")) [demoNet] ["demo"] statsState statsTable "demo" "geth" "el" ""
    demoAt s m backwards_perm statsTable_ok demo_registry_ok demo_named (or_introl eq_refl) ltac:(discriminate) E Em) as [H _].
  split; [reflexivity|]. split; [|split; [exact H|reflexivity]]. vm_compute in Em. injection Em as <-. vm_compute. reflexivity.
Defined.

Definition pageFilter : Filter :=
  MkFilter "demo" "" false "" "" "" "" "" "" "" "" "" "" "" "" "" "" "" "" "client" "desc" 0 0 demoAt.

Definition answer (i : nat) : result NodesResult := Nodes [demoNet] ["demo"] demoAt statsTable (pageOf pageFilter 2 (Z.of_nat i * 2)).
Definition pageAt (i : nat) : NodesResult := match answer i with Ok res => res | Err _ => MkNodes 0 0 [] end.
Definition fullFilter : Filter :=
  MkFilter "demo" "" false "" "" "" "" "" "" "" "current" "" "" "" "" "" "" "" "" "client" "desc" 100 0 demoAt.

Lemma pageFilter_full : nodesFilter demoAt pageFilter = Ok fullFilter.
Proof. vm_compute. reflexivity. Qed.
Lemma answers i : (i < 2)%nat -> Nodes [demoNet] ["demo"] demoAt statsTable (pageOf pageFilter 2 (Z.of_nat i * 2)) = Ok (pageAt i).
Proof. intros Hi. unfold pageAt, answer. destruct i as [|[|i]]; [vm_compute; reflexivity|vm_compute; reflexivity|lia]. Qed.
Lemma answers_enough : Z.of_nat (length (matching [demoNet] ["demo"] demoAt statsTable fullFilter)) <= Z.of_nat 2 * 2.
Proof. vm_compute. discriminate. Qed.

Lemma nodes_paged_witness :
  map (fun q => qn_row q "id") (concat (map (fun i => nr_Nodes (pageAt i)) (seq 0 2))) = [VText "aa02"; VText "aa03"; VText "aa01"] /\
  Sorted (fun a b => orderedBy (sortKeys (f_Sort pageFilter) (f_Order pageFilter)) a b = true)
    (map qn_row (concat (map (fun i => nr_Nodes (pageAt i)) (seq 0 2)))).
Proof.
  split; [vm_compute; reflexivity|].
  assert (1 <= 2 <= 1000) as Hl by lia.
  pose proof (nodes_paged [demoNet] ["demo"] demoAt statsTable pageFilter fullFilter 2 2 pageAt) as H.
  specialize (H (fun r Hr => statsRow_typed r (statsTable_ok r Hr))). specialize (H demo_registry_ok demo_named pageFilter_full Hl).
  specialize (H answers). specialize (H answers_enough). cbv zeta in H. exact (proj1 (proj2 H)).
Defined.

Lemma NodeByKey_finds_witness :
  exists n, NodeByKey [demoNet] demoAt statsTable "AA03" = Ok (Some n) /\ qn_row n "id" = VText "aa03".
Proof.
  destruct (NodeByKey [demoNet] demoAt statsTable "AA03") as [[n|]|] eqn:E; [|vm_compute in E; discriminate E..].
  exists n. split; [reflexivity|].
  destruct (NodeByKey_finds [demoNet] demoAt statsTable "AA03" (Some n) E) as (_ & _ & _ & H).
  apply (H (tableRow "aa03" "Geth" tableHash 1000)); [|reflexivity]. right. right. left.
Defined.
