(* ===== verification/LoadCache.v ===== *)
(** [cmd/api/main.go]: the response caches [lru] and the requests that share their loads.

    [lru.load] runs in any number of request goroutines.  Its two critical sections are
    [lruLook] and [lruFinish]; a request is the place it has reached, and [loadStep] lets any request
    take its next step: so every interleaving of the lock, the loaders, the waits on
    [ready] and the ends of request contexts is a sequence of labels. *)

From stdpp Require Import base gmap strings list numbers.
From Stdlib Require Import ZArith Lia Ascii.
From S2P Require Import Prelude.
From stdpp Require Import list.
#[local] Open Scope Z_scope.

Section LRU.
Context {V : Type}.

(** An error of a loader: [context.Canceled] and [context.DeadlineExceeded] against the rest. *)
Inductive LoadErr := Cancelled | Failed (why : string).
Inductive loadOutcome := Good (v : V) | Bad (e : LoadErr).

(** [inflightLoad]: [ready] closed or not, and the value and error once they are written. *)
Record inflightLoad := MkInflight { il_ready : bool; il_out : option loadOutcome }.

(** A list element; [el_id] is its identity as a pointer. *)
Record element := MkElement { el_id : nat; el_key : string; el_value : V }.

(** The cache, with the heap of its loads; [lru_next] is the next free pointer. *)
Record lru := MkLRU {
  lru_capacity : Z; lru_items : gmap string element; lru_order : list element; lru_pending : gmap string nat;
  lru_loads : gmap nat inflightLoad; lru_next : nat }.

Definition newLRU (capacity : Z) : lru := MkLRU capacity ∅ [] ∅ ∅ 0.

(** [list.MoveToFront]: nothing for an element that is not in the list. *)
Definition isElement (e x : element) : bool := (el_id x =? el_id e)%nat.
Definition MoveToFront (e : element) (l : list element) : list element :=
  if existsb (isElement e) l then e :: List.filter (fun x => negb (isElement e x)) l else l.

Inductive lookup := Hit (v : V) | Join (l : nat) | Start (l : nat).

(** The first critical section. *)
Definition lruLook (c : lru) (key : string) : lru * lookup :=
  match lru_items c !! key with
  | Some e => (MkLRU (lru_capacity c) (lru_items c) (MoveToFront e (lru_order c)) (lru_pending c) (lru_loads c) (lru_next c), Hit (el_value e))
  | None =>
      match lru_pending c !! key with
      | Some l => (c, Join l)
      | None =>
          let l := lru_next c in
          (MkLRU (lru_capacity c) (lru_items c) (lru_order c) (<[key := l]> (lru_pending c)) (<[l := MkInflight false None]> (lru_loads c)) (S l), Start l)
      end
  end.

(** [PushFront] and the eviction of the oldest. *)
Definition admitValue (c : lru) (key : string) (v : V) : lru :=
  let e := MkElement (lru_next c) key v in
  let order := e :: lru_order c in
  let items := <[key := e]> (lru_items c) in
  let next := S (lru_next c) in
  if lru_capacity c <? Z.of_nat (length order) then
    match list.last order with
    | Some oldest => MkLRU (lru_capacity c) (delete (el_key oldest) items) (removelast order) (lru_pending c) (lru_loads c) next
    | None => MkLRU (lru_capacity c) items order (lru_pending c) (lru_loads c) next
    end
  else MkLRU (lru_capacity c) items order (lru_pending c) (lru_loads c) next.

(** The load's fields are written and the second critical section runs. *)
Definition lruFinish (c : lru) (key : string) (l : nat) (out : loadOutcome) : lru :=
  let c := MkLRU (lru_capacity c) (lru_items c) (lru_order c) (delete key (lru_pending c)) (<[l := MkInflight false (Some out)]> (lru_loads c)) (lru_next c) in
  match out with Good v => admitValue c key v | Bad _ => c end.

(** [close(pending.ready)]. *)
Definition closeReady (c : lru) (l : nat) : lru :=
  match lru_loads c !! l with
  | Some x => MkLRU (lru_capacity c) (lru_items c) (lru_order c) (lru_pending c) (<[l := MkInflight true (il_out x)]> (lru_loads c)) (lru_next c)
  | None => c
  end.

(** * Requests *)

(** How a request came to its answer. *)
Inductive how := FromCache | Shared | Ran | GaveUp.
Inductive status :=
| Looking
| Waiting (l : nat)
| Loading (l : nat)
| Closing (l : nat) (out : loadOutcome)
| Done (h : how) (out : loadOutcome).

(** The cache, the requests and their keys, and what the loaders returned so far. *)
Record Sys := MkSys { sy_cache : lru; sy_procs : list (string * status); sy_ran : list (string * loadOutcome) }.

Definition startSys (capacity : Z) : Sys := MkSys (newLRU capacity) [] [].

Inductive label :=
| Arrive (key : string)
| Look (p : nat)
| Wake (p : nat)
| GiveUp (p : nat)
| Return (p : nat) (out : loadOutcome)
| Close (p : nat).

Definition goes (s : Sys) (p : nat) (key : string) (c : lru) (st : status) : Sys := MkSys c (<[p := (key, st)]> (sy_procs s)) (sy_ran s).

(** What a waiter makes of the load it waited for: a cancelled load is run again. *)
Definition woken (out : loadOutcome) : status := match out with Bad (Failed why) => Done Shared (Bad (Failed why)) | _ => Looking end.

Definition loadStep (a : label) (s : Sys) : option Sys :=
  let c := sy_cache s in
  match a with
  | Arrive key => Some (MkSys c (sy_procs s ++ [(key, Looking)]) (sy_ran s))
  | Look p =>
      match sy_procs s !! p with
      | Some (key, Looking) =>
          let (c, r) := lruLook c key in
          Some (goes s p key c (match r with Hit v => Done FromCache (Good v) | Join l => Waiting l | Start l => Loading l end))
      | _ => None
      end
  | Wake p =>
      match sy_procs s !! p with
      | Some (key, Waiting l) =>
          match lru_loads c !! l with
          | Some (MkInflight true (Some out)) => Some (goes s p key c (woken out))
          | _ => None
          end
      | _ => None
      end
  | GiveUp p =>
      match sy_procs s !! p with
      | Some (key, Waiting l) => Some (goes s p key c (Done GaveUp (Bad Cancelled)))
      | _ => None
      end
  | Return p out =>
      match sy_procs s !! p with
      | Some (key, Loading l) => Some (MkSys (lruFinish c key l out) (<[p := (key, Closing l out)]> (sy_procs s)) ((key, out) :: sy_ran s))
      | _ => None
      end
  | Close p =>
      match sy_procs s !! p with
      | Some (key, Closing l out) => Some (goes s p key (closeReady c l) (Done Ran out))
      | _ => None
      end
  end.

Fixpoint loadRun (l : list label) (s : Sys) : option Sys :=
  match l with [] => Some s | a :: l' => match loadStep a s with Some s' => loadRun l' s' | None => None end end.

(** * The cache alone *)

(** The list and the map hold the same elements, each key once, within the capacity, and
    a key that is being loaded is not among them. *)
Record lru_ok (c : lru) : Prop := {
  ok_ids : NoDup (map el_id (lru_order c));
  ok_keys : NoDup (map el_key (lru_order c));
  ok_items : forall k e, lru_items c !! k = Some e <-> e ∈ lru_order c /\ el_key e = k;
  ok_fresh : forall e, e ∈ lru_order c -> (el_id e < lru_next c)%nat;
  ok_loads : forall l x, lru_loads c !! l = Some x -> (l < lru_next c)%nat;
  ok_capacity : Z.of_nat (length (lru_order c)) <= lru_capacity c;
  ok_apart : forall k, is_Some (lru_pending c !! k) -> lru_items c !! k = None }.

Lemma isElement_spec e x l : NoDup (map el_id l) -> e ∈ l -> x ∈ l -> isElement e x = true <-> x = e.
Proof.
  intros Hnd He Hx. unfold isElement. rewrite Nat.eqb_eq. split; [|by intros ->]. intros Hid.
  apply list_elem_of_lookup in He as [i Hi]. apply list_elem_of_lookup in Hx as [j Hj].
  assert (i = j) as ->; [|congruence]. apply (NoDup_lookup (map el_id l) i j (el_id e) Hnd); rewrite list_lookup_fmap.
  - by rewrite Hi.
  - rewrite Hj. cbn. by rewrite Hid.
Qed.

(** Moving an element of the list to the front permutes it. *)
Lemma MoveToFront_perm e l : NoDup (map el_id l) -> e ∈ l -> MoveToFront e l ≡ₚ l.
Proof.
  intros Hnd He. unfold MoveToFront. replace (existsb (isElement e) l) with true.
  2: { symmetry. apply existsb_exists. exists e. split; [by apply list_elem_of_In|]. unfold isElement. apply Nat.eqb_refl. }
  apply list_elem_of_split in He as (l1 & l2 & ->). rewrite map_app in Hnd. cbn [map] in Hnd.
  apply NoDup_app in Hnd as (H1 & H12 & H2). apply NoDup_cons in H2 as [He2 H2].
  assert (forall l', el_id e ∉ map el_id l' -> List.filter (fun x => negb (isElement e x)) l' = l') as Hkeep.
  { induction l' as [|x l' IH]; [done|]. cbn [map List.filter]. intros Hn. apply not_elem_of_cons in Hn as [Hx Hn].
    unfold isElement at 1. replace (el_id x =? el_id e)%nat with false by (symmetry; apply Nat.eqb_neq; congruence). cbn [negb]. by rewrite IH. }
  rewrite List.filter_app. cbn [List.filter]. unfold isElement at 2. rewrite Nat.eqb_refl. cbn [negb].
  rewrite !Hkeep; [by rewrite Permutation_middle|done|]. intros Hin. by apply (H12 _ Hin); left.
Qed.

Lemma newLRU_ok capacity : 0 <= capacity -> lru_ok (newLRU capacity).
Proof.
  intros Hc. constructor; cbn [newLRU lru_order lru_items lru_pending lru_loads lru_next lru_capacity map length].
  1,2: constructor.
  - intros k e. rewrite lookup_empty. split; [done|]. by intros [?%elem_of_nil _].
  - by intros e ?%elem_of_nil.
  - intros l x. by rewrite lookup_empty.
  - lia.
  - done.
Qed.

Lemma look_ok c key : lru_ok c -> lru_ok (fst (lruLook c key)).
Proof.
  intros [Hids Hkeys Hitems Hfresh Hloads Hcap Hapart]. unfold lruLook. destruct (lru_items c !! key) as [e|] eqn:E.
  - apply Hitems in E as [He _]. pose proof (MoveToFront_perm e _ Hids He) as Hp.
    constructor; cbn [fst lru_order lru_items lru_pending lru_loads lru_next lru_capacity]; try done.
    + by rewrite Hp.
    + by rewrite Hp.
    + intros k x. by rewrite Hp.
    + intros x. rewrite Hp. apply Hfresh.
    + by rewrite Hp.
  - destruct (lru_pending c !! key) as [l|] eqn:Ep; [done|].
    constructor; cbn [fst lru_order lru_items lru_pending lru_loads lru_next lru_capacity]; try done.
    + intros x Hx. specialize (Hfresh x Hx). lia.
    + intros l x [[-> <-]|[_ Hx]]%lookup_insert_Some; [lia|]. specialize (Hloads l x Hx). lia.
    + intros k [l Hl]. apply lookup_insert_Some in Hl as [[<- _]|[_ Hl]]; [done|]. apply Hapart. by exists l.
Qed.

Lemma closeReady_ok c l : lru_ok c -> lru_ok (closeReady c l).
Proof.
  intros [Hids Hkeys Hitems Hfresh Hloads Hcap Hapart]. unfold closeReady. destruct (lru_loads c !! l) as [x|] eqn:E; [|done].
  constructor; cbn [lru_order lru_items lru_pending lru_loads lru_next lru_capacity]; try done.
  intros k y [[-> <-]|[_ Hy]]%lookup_insert_Some; [by apply (Hloads k x)|by apply (Hloads k y)].
Qed.

(** Inserting at the front and dropping the last: what [admitValue] does to the list. *)
Definition admitted (c : lru) (key : string) (v : V) : list element :=
  let order := MkElement (lru_next c) key v :: lru_order c in
  if lru_capacity c <? Z.of_nat (length order) then removelast order else order.

Lemma last_split {A} (x : A) l : exists y, list.last (x :: l) = Some y /\ x :: l = removelast (x :: l) ++ [y].
Proof.
  destruct (list.last (x :: l)) as [y|] eqn:E; [|by apply last_None in E].
  apply last_Some in E as [l' El]. exists y. split; [done|]. rewrite El at 1. by rewrite El, removelast_last.
Qed.

(** Elements with distinct keys and ids, the map of them, and the map after the last went. *)
Lemma drop_last_ok (items : gmap string element) l y :
  NoDup (map el_id (l ++ [y])) -> NoDup (map el_key (l ++ [y])) ->
  (forall k e, items !! k = Some e <-> e ∈ l ++ [y] /\ el_key e = k) ->
  NoDup (map el_id l) /\ NoDup (map el_key l) /\ forall k e, delete (el_key y) items !! k = Some e <-> e ∈ l /\ el_key e = k.
Proof.
  rewrite !map_app. intros (Hi & _ & _)%NoDup_app (Hk & Hky & _)%NoDup_app Hitems. split_and!; [done|done|].
  assert (forall e, e ∈ l -> el_key e <> el_key y) as Hne.
  { intros e He Heq. apply (Hky (el_key e)); [by apply list_elem_of_fmap_2|]. rewrite Heq. by left. }
  intros k e. rewrite lookup_delete_Some, Hitems, elem_of_app, list_elem_of_singleton. split.
  - intros (Hd & Hor & <-). destruct Hor as [He| ->]; [done|]. by destruct Hd.
  - intros [He <-]. split_and!; [|by left|done]. intros Heq. by apply (Hne e He).
Qed.

Lemma admit_lists c key v :
  lru_ok c -> lru_items c !! key = None -> 0 <= lru_capacity c ->
  lru_order (admitValue c key v) = admitted c key v /\ NoDup (map el_id (admitted c key v)) /\ NoDup (map el_key (admitted c key v)) /\
  (forall k e, lru_items (admitValue c key v) !! k = Some e <-> e ∈ admitted c key v /\ el_key e = k) /\
  Z.of_nat (length (admitted c key v)) <= lru_capacity c.
Proof.
  intros [Hids Hkeys Hitems Hfresh Hloads Hcap Hapart] Hnone H0. unfold admitValue, admitted. cbv zeta.
  set (e := MkElement (lru_next c) key v). set (order := e :: lru_order c).
  assert (NoDup (map el_id order)) as Hids'.
  { cbn [map order]. apply NoDup_cons. split; [|done]. intros Hin. apply list_elem_of_fmap in Hin as (x & Hx & Hin).
    specialize (Hfresh x Hin). cbn [e el_id] in Hx. lia. }
  assert (NoDup (map el_key order)) as Hkeys'.
  { cbn [map order]. apply NoDup_cons. split; [|done]. intros Hin. apply list_elem_of_fmap in Hin as (x & Hx & Hin).
    assert (lru_items c !! key = Some x) as H; [|by rewrite H in Hnone]. by apply Hitems. }
  assert (forall k x, <[key := e]> (lru_items c) !! k = Some x <-> x ∈ order /\ el_key x = k) as Hitems'.
  { intros k x. rewrite lookup_insert_Some, Hitems. unfold order. rewrite elem_of_cons. split.
    - intros [(<- & <-)|(Hne & Hx & <-)]; auto.
    - intros [Hor <-]. destruct Hor as [-> |Hx]; [by left|]. right. split_and!; [|done|done]. intros Heq.
      assert (lru_items c !! key = Some x) as H; [|by rewrite H in Hnone]. by apply Hitems. }
  destruct (Z.ltb_spec (lru_capacity c) (Z.of_nat (length order))) as [Hlt|Hle].
  - destruct (last_split e (lru_order c)) as (y & Ey & Es). fold order in Ey, Es. rewrite Ey. rewrite Es in Hids', Hkeys', Hitems'.
    destruct (drop_last_ok _ _ _ Hids' Hkeys' Hitems') as (Hi & Hk & Hm). split_and!; [done|done|done|exact Hm|].
    assert (length order = S (length (removelast order))) as Hlen by (rewrite Es at 1; rewrite length_app; cbn; lia).
    unfold order in Hlen at 1. cbn [length] in Hlen. lia.
  - split_and!; [done|done|done|exact Hitems'|done].
Qed.

Lemma admitValue_frame c key v :
  lru_capacity (admitValue c key v) = lru_capacity c /\ lru_pending (admitValue c key v) = lru_pending c /\
  lru_loads (admitValue c key v) = lru_loads c /\ lru_next (admitValue c key v) = S (lru_next c).
Proof. unfold admitValue. cbv zeta. destruct (_ <? _); [|done]. by destruct (list.last _). Qed.

Lemma admitted_elem c key v e : e ∈ admitted c key v -> e = MkElement (lru_next c) key v \/ e ∈ lru_order c.
Proof.
  unfold admitted. cbv zeta. set (x := MkElement _ _ _). intros He.
  assert (e ∈ x :: lru_order c) as H; [|by apply elem_of_cons in H].
  destruct (_ <? _); [|done]. destruct (last_split x (lru_order c)) as (y & _ & ->). apply elem_of_app. by left.
Qed.

Lemma finish_frame c key l out :
  lru_capacity (lruFinish c key l out) = lru_capacity c /\ lru_pending (lruFinish c key l out) = delete key (lru_pending c) /\
  lru_loads (lruFinish c key l out) = <[l := MkInflight false (Some out)]> (lru_loads c) /\ (lru_next c <= lru_next (lruFinish c key l out))%nat.
Proof.
  unfold lruFinish. cbv zeta. destruct out as [v|e]; [|done].
  destruct (admitValue_frame (MkLRU (lru_capacity c) (lru_items c) (lru_order c) (delete key (lru_pending c))
    (<[l := MkInflight false (Some (Good v))]> (lru_loads c)) (lru_next c)) key v) as (-> & -> & -> & ->).
  split_and!; try done. cbn. lia.
Qed.

Lemma finish_ok c key l out :
  0 <= lru_capacity c -> lru_pending c !! key = Some l -> lru_ok c -> is_Some (lru_loads c !! l) -> lru_ok (lruFinish c key l out).
Proof.
  intros H0 Hp Hok [x0 Hl].
  assert (lru_items c !! key = None) as Hnone by (apply (ok_apart c Hok); by exists l).
  set (c' := MkLRU (lru_capacity c) (lru_items c) (lru_order c) (delete key (lru_pending c)) (<[l := MkInflight false (Some out)]> (lru_loads c)) (lru_next c)).
  assert (lru_ok c') as Hok'.
  { destruct Hok as [Hids Hkeys Hitems Hfresh Hloads Hcap Hapart].
    constructor; cbn [c' lru_order lru_items lru_pending lru_loads lru_next lru_capacity]; try done.
    - intros k x [[-> <-]|[_ Hx]]%lookup_insert_Some; [by apply (Hloads k x0)|by apply (Hloads k x)].
    - intros k [m Hm]. apply lookup_delete_Some in Hm as [_ Hm]. apply Hapart. by exists m. }
  unfold lruFinish. cbv zeta. fold c'. destruct out as [v|e]; [|done].
  destruct (admit_lists c' key v Hok' Hnone H0) as (Ho & Hi & Hk & Hm & Hc).
  destruct (admitValue_frame c' key v) as (Fc & Fp & Fl & Fn).
  constructor; rewrite ?Ho, ?Fc, ?Fp, ?Fl, ?Fn; try done.
  - intros e He. apply admitted_elem in He as [->|He]; [cbn; lia|]. pose proof (ok_fresh c' Hok' e He). lia.
  - intros k x Hx. pose proof (ok_loads c' Hok' k x Hx). lia.
  - intros k [m Hm']. cbn [c' lru_pending] in Hm'. apply lookup_delete_Some in Hm' as [Hne Hm'].
    destruct (lru_items (admitValue c' key v) !! k) as [e|] eqn:E; [|done]. apply Hm in E as [He <-].
    apply admitted_elem in He as [->|He]; [done|].
    assert (lru_items c !! el_key e = Some e) as Hs by by apply (ok_items c' Hok').
    rewrite (ok_apart c Hok (el_key e)) in Hs; [done|]. by exists m.
Qed.

(** * The requests *)

(** The request whose loader fills the load, until it has closed it. *)
Definition owns (st : status) (l : nat) : Prop := st = Loading l \/ exists out, st = Closing l out.

(** What an answer rests on: a value or a failure comes from a loader of the same key; a
    cancellation is the request's own. *)
Definition justified (ran : list (string * loadOutcome)) (key : string) (h : how) (out : loadOutcome) : Prop :=
  match h with
  | FromCache => (exists v, out = Good v) /\ (key, out) ∈ ran
  | Shared => (exists why, out = Bad (Failed why)) /\ (key, out) ∈ ran
  | Ran => (key, out) ∈ ran
  | GaveUp => out = Bad Cancelled
  end.

Record Inv (s : Sys) : Prop := {
  i_ok : lru_ok (sy_cache s);
  i_pending : forall k l, lru_pending (sy_cache s) !! k = Some l <-> exists p, sy_procs s !! p = Some (k, Loading l);
  i_owner : forall p q kp kq sp sq l, sy_procs s !! p = Some (kp, sp) -> sy_procs s !! q = Some (kq, sq) -> owns sp l -> owns sq l -> p = q;
  i_loading : forall p k l, sy_procs s !! p = Some (k, Loading l) -> lru_loads (sy_cache s) !! l = Some (MkInflight false None);
  i_closing : forall p k l out, sy_procs s !! p = Some (k, Closing l out) ->
    lru_loads (sy_cache s) !! l = Some (MkInflight false (Some out)) /\ (k, out) ∈ sy_ran s;
  i_waiting : forall p k l, sy_procs s !! p = Some (k, Waiting l) ->
    (exists q st, sy_procs s !! q = Some (k, st) /\ owns st l) \/
    exists out, lru_loads (sy_cache s) !! l = Some (MkInflight true (Some out)) /\ (k, out) ∈ sy_ran s;
  i_order : forall e, e ∈ lru_order (sy_cache s) -> (el_key e, Good (el_value e)) ∈ sy_ran s;
  i_done : forall p k h out, sy_procs s !! p = Some (k, Done h out) -> justified (sy_ran s) k h out }.

Lemma lru_start_inv capacity : 0 <= capacity -> Inv (startSys capacity).
Proof.
  intros Hc. constructor; cbn [startSys sy_cache sy_procs sy_ran newLRU lru_pending lru_loads lru_order].
  - by apply newLRU_ok.
  - intros k l. rewrite lookup_empty. split; [done|]. by intros [p Hp].
  - done.
  - done.
  - done.
  - done.
  - by intros e ?%elem_of_nil.
  - done.
Qed.

(** Requests after one moved, and after one arrived. *)
Lemma moved_Some {A} (l : list A) p q x y : <[p := x]> l !! q = Some y -> (q = p /\ y = x) \/ (q <> p /\ l !! q = Some y).
Proof. intros [(<- & -> & _)|(Hne & H)]%list_lookup_insert_Some; [by left|right; split; [congruence|done]]. Qed.
Lemma moved_other {A} (l : list A) p q x : q <> p -> <[p := x]> l !! q = l !! q.
Proof. intros. by apply list_lookup_insert_ne. Qed.
Lemma moved_self {A} (l : list A) p x y : l !! p = Some y -> <[p := x]> l !! p = Some x.
Proof. intros H. apply list_lookup_insert_eq, (lookup_lt_Some _ _ _ H). Qed.
Lemma arrived_Some {A} (l : list A) x q y : (l ++ [x]) !! q = Some y -> l !! q = Some y \/ y = x.
Proof. intros [H|[_ H]]%lookup_app_Some; [by left|]. apply list_lookup_singleton_Some in H as [_ <-]. by right. Qed.
Lemma arrived_old {A} (l : list A) x q y : l !! q = Some y -> (l ++ [x]) !! q = Some y.
Proof. apply lookup_app_l_Some. Qed.

Lemma owns_not_looking l : ~ owns Looking l.
Proof. by intros [|[]]. Qed.
Lemma owns_not_waiting m l : ~ owns (Waiting m) l.
Proof. by intros [|[]]. Qed.
Lemma owns_not_done h out l : ~ owns (Done h out) l.
Proof. by intros [|[]]. Qed.

(** A request that neither had nor takes a load changes place, and the loads, the pending
    keys and the elements stay. *)
Lemma quiet_inv s p k st st' c :
  Inv s -> sy_procs s !! p = Some (k, st) -> (forall l, ~ owns st l) -> (forall l, ~ owns st' l) ->
  lru_ok c -> lru_pending c = lru_pending (sy_cache s) -> lru_loads c = lru_loads (sy_cache s) -> lru_order c ≡ₚ lru_order (sy_cache s) ->
  (forall l, st' = Waiting l -> (exists q st, sy_procs s !! q = Some (k, st) /\ owns st l) \/
    exists out, lru_loads c !! l = Some (MkInflight true (Some out)) /\ (k, out) ∈ sy_ran s) ->
  (forall h out, st' = Done h out -> justified (sy_ran s) k h out) ->
  Inv (goes s p k c st').
Proof.
  intros Hi Hp Hst Hst' Hok Epend Eloads Eorder Hw Hd.
  assert (forall q kq sq l, sy_procs s !! q = Some (kq, sq) -> owns sq l -> q <> p) as Hother.
  { intros q kq sq l Hq Ho ->. rewrite Hp in Hq. injection Hq as <- <-. by apply (Hst l). }
  constructor; cbn [goes sy_cache sy_procs sy_ran]; rewrite ?Epend, ?Eloads.
  - done.
  - intros k' l. rewrite (i_pending s Hi). split; intros [q Hq]; exists q.
    + rewrite moved_other; [done|]. eapply Hother; [exact Hq|by left].
    + apply moved_Some in Hq as [[-> [= _ <-]]|[_ Hq]]; [|done]. exfalso. eapply Hst'. by left.
  - intros q q' kq kq' sq sq' l [[-> [= -> ->]]|[_ Hq]]%moved_Some [[-> [= -> ->]]|[_ Hq']]%moved_Some; try (intros ?%Hst' || intros _ ?%Hst'); try done.
    eapply (i_owner s Hi); eassumption.
  - intros q k' l [[-> [= _ <-]]|[_ Hq]]%moved_Some; [exfalso; eapply Hst'; by left|]. by eapply (i_loading s Hi).
  - intros q k' l out [[-> [= _ <-]]|[_ Hq]]%moved_Some; [exfalso; eapply Hst'; right; by eexists|]. by eapply (i_closing s Hi).
  - intros q k' l Hq. assert ((exists q st, sy_procs s !! q = Some (k', st) /\ owns st l) \/
      exists out, lru_loads c !! l = Some (MkInflight true (Some out)) /\ (k', out) ∈ sy_ran s) as [(q' & sq & Hq' & Ho)|Hr].
    { apply moved_Some in Hq as [[-> [= -> ?]]|[_ Hq]]; [by apply Hw|]. rewrite Eloads. by eapply (i_waiting s Hi). }
    + left. exists q', sq. split; [|done]. rewrite moved_other; [done|]. by eapply Hother.
    + right. by rewrite Eloads in Hr.
  - intros e. rewrite Eorder. apply (i_order s Hi).
  - intros q k' h out [[-> [= -> <-]]|[_ Hq]]%moved_Some; [by apply Hd|]. by eapply (i_done s Hi).
Qed.

Lemma arrive_inv s key : Inv s -> Inv (MkSys (sy_cache s) (sy_procs s ++ [(key, Looking)]) (sy_ran s)).
Proof.
  intros Hi. constructor; cbn [sy_cache sy_procs sy_ran]; [apply (i_ok s Hi)| | | | | |apply (i_order s Hi)|].
  - intros k l. rewrite (i_pending s Hi). split; intros [p Hp]; exists p; [by apply arrived_old|]. by apply arrived_Some in Hp as [Hp|[= _ ?]].
  - intros p q kp kq sp sq l [Hp|[= -> ->]]%arrived_Some [Hq|[= -> ->]]%arrived_Some; try (intros ?%owns_not_looking || intros _ ?%owns_not_looking); try done.
    eapply (i_owner s Hi); eassumption.
  - intros p k l [Hp|[=]]%arrived_Some. by eapply (i_loading s Hi).
  - intros p k l out [Hp|[=]]%arrived_Some. by eapply (i_closing s Hi).
  - intros p k l [Hp|[=]]%arrived_Some. destruct (i_waiting s Hi _ _ _ Hp) as [(q & st & Hq & Ho)|Hr]; [|by right].
    left. exists q, st. split; [by apply arrived_old|done].
  - intros p k h out [Hp|[=]]%arrived_Some. by eapply (i_done s Hi).
Qed.

(** A request that found nothing starts the load of its key. *)
Lemma start_load_inv s p key :
  Inv s -> sy_procs s !! p = Some (key, Looking) -> lru_items (sy_cache s) !! key = None -> lru_pending (sy_cache s) !! key = None ->
  Inv (goes s p key (fst (lruLook (sy_cache s) key)) (Loading (lru_next (sy_cache s)))).
Proof.
  intros Hi Hp Hnone Hpend. pose proof (look_ok _ key (i_ok s Hi)) as Hok. unfold lruLook in *. rewrite Hnone, Hpend in *. cbn [fst] in *.
  set (c := sy_cache s) in *. set (l0 := lru_next c) in *.
  assert (forall l x, lru_loads c !! l = Some x -> l <> l0) as Hnew.
  { intros l x Hx ->. pose proof (ok_loads c (i_ok s Hi) l0 x Hx). unfold l0 in *. lia. }
  assert (forall q kq sq l, sy_procs s !! q = Some (kq, sq) -> owns sq l -> q <> p /\ l <> l0) as Hother.
  { intros q kq sq l Hq Ho. split; [intros ->; rewrite Hp in Hq; injection Hq as <- <-; by apply owns_not_looking in Ho|].
    destruct Ho as [->|[out ->]]; [by eapply Hnew, (i_loading s Hi)|]. eapply Hnew, (i_closing s Hi), Hq. }
  constructor; cbn [goes sy_cache sy_procs sy_ran lru_pending lru_loads lru_order]; [done| | | | | |apply (i_order s Hi)|].
  - intros k l. rewrite lookup_insert_Some. unfold c. rewrite (i_pending s Hi). fold c. split.
    + intros [(<- & <-)|(Hne & q & Hq)]; [exists p; by eapply moved_self|]. exists q. rewrite moved_other; [done|].
      by apply (Hother q k (Loading l) l Hq); left.
    + intros [q [[-> [= -> ->]]|[_ Hq]]%moved_Some]; [by left|]. right. split; [|by exists q]. intros <-.
      assert (lru_pending c !! key = Some l) as H; [|by rewrite H in Hpend]. apply (i_pending s Hi). by exists q.
  - intros q q' kq kq' sq sq' l [[-> [= -> ->]]|[_ Hq]]%moved_Some [[-> [= -> ->]]|[_ Hq']]%moved_Some Ho Ho'; try done.
    + destruct (Hother _ _ _ _ Hq' Ho') as [_ Hne]. by destruct Ho as [[= ->]|[? ?]].
    + destruct (Hother _ _ _ _ Hq Ho) as [_ Hne]. by destruct Ho' as [[= ->]|[? ?]].
    + eapply (i_owner s Hi); eassumption.
  - intros q k l [[-> [= -> ->]]|[_ Hq]]%moved_Some; [apply lookup_insert_eq|]. rewrite lookup_insert_ne; [by eapply (i_loading s Hi)|].
    destruct (Hother _ _ _ l Hq) as [_ Hne]; [by left|done].
  - intros q k l out [[-> [=]]|[_ Hq]]%moved_Some. destruct (i_closing s Hi _ _ _ _ Hq) as [Hl Hr]. split; [|done].
    rewrite lookup_insert_ne; [done|]. by eapply not_eq_sym, Hnew.
  - intros q k l [[-> [=]]|[_ Hq]]%moved_Some. destruct (i_waiting s Hi _ _ _ Hq) as [(q' & st & Hq' & Ho)|(out & Hl & Hr)].
    + left. exists q', st. split; [|done]. rewrite moved_other; [done|]. by eapply Hother.
    + right. exists out. split; [|done]. rewrite lookup_insert_ne; [done|]. by eapply not_eq_sym, Hnew.
  - intros q k h out [[-> [=]]|[_ Hq]]%moved_Some. by eapply (i_done s Hi).
Qed.

Lemma justified_more ran x k h out : justified ran k h out -> justified (x :: ran) k h out.
Proof. destruct h; cbn; try done; try (intros [H ?]; split; [exact H|]); intros; by right. Qed.

Lemma return_inv s p key l out :
  0 <= lru_capacity (sy_cache s) -> Inv s -> sy_procs s !! p = Some (key, Loading l) ->
  Inv (MkSys (lruFinish (sy_cache s) key l out) (<[p := (key, Closing l out)]> (sy_procs s)) ((key, out) :: sy_ran s)).
Proof.
  intros H0 Hi Hp. set (c := sy_cache s) in *.
  assert (lru_pending c !! key = Some l) as Hpend by (apply (i_pending s Hi); by exists p).
  pose proof (i_loading s Hi _ _ _ Hp) as Hl.
  destruct (finish_frame c key l out) as (_ & Fp & Fl & _).
  assert (owns (Loading l) l) as Hown by by left.
  constructor; cbn [sy_cache sy_procs sy_ran]; rewrite ?Fp, ?Fl.
  - apply finish_ok; [done|done|apply (i_ok s Hi)|]. by eexists.
  - intros k m. rewrite lookup_delete_Some. unfold c. rewrite (i_pending s Hi). split.
    + intros (Hne & q & Hq). exists q. rewrite moved_other; [done|]. intros ->. rewrite Hp in Hq. by injection Hq as <- _.
    + intros [q [[-> [=]]|[Hne Hq]]%moved_Some]. split; [|by exists q]. intros <-.
      assert (lru_pending c !! key = Some m) as H by (apply (i_pending s Hi); by exists q). rewrite Hpend in H. injection H as <-.
      apply Hne. eapply (i_owner s Hi); [exact Hq|exact Hp|done|done].
  - assert (forall m, owns (Closing l out) m -> m = l) as Hcl by (intros m [[=]|[? [= -> _]]]; done).
    intros q q' kq kq' sq sq' m [[-> [= -> ->]]|[Hne Hq]]%moved_Some [[-> [= -> ->]]|[Hne' Hq']]%moved_Some Ho Ho'; try done.
    + apply Hcl in Ho as ->. symmetry. eapply (i_owner s Hi); [exact Hq'|exact Hp|done|done].
    + apply Hcl in Ho' as ->. eapply (i_owner s Hi); [exact Hq|exact Hp|done|done].
    + eapply (i_owner s Hi); eassumption.
  - intros q k m [[-> [=]]|[Hne Hq]]%moved_Some. rewrite lookup_insert_ne; [by eapply (i_loading s Hi)|]. intros <-.
    apply Hne. eapply (i_owner s Hi); [exact Hq|exact Hp|by left|done].
  - intros q k m o [[-> [= -> -> ->]]|[Hne Hq]]%moved_Some; [split; [apply lookup_insert_eq|by left]|].
    destruct (i_closing s Hi _ _ _ _ Hq) as [Hm Hr]. split; [|by right]. rewrite lookup_insert_ne; [done|]. intros <-.
    apply Hne. eapply (i_owner s Hi); [exact Hq|exact Hp|by right; eexists|done].
  - intros q k m [[-> [=]]|[_ Hq]]%moved_Some. destruct (i_waiting s Hi _ _ _ Hq) as [(q' & st & Hq' & Ho)|(o & Hm & Hr)].
    + left. destruct (decide (q' = p)) as [->|Hne'].
      * rewrite Hp in Hq'. injection Hq' as <- <-. exists p, (Closing l out). split; [by eapply moved_self|].
        destruct Ho as [[= ->]|[? [=]]]. right. by eexists.
      * exists q', st. split; [by rewrite moved_other|done].
    + right. exists o. split; [|by right]. rewrite lookup_insert_ne; [done|]. intros <-. rewrite Hl in Hm. discriminate Hm.
  - intros e He. destruct out as [v|x]; [|right; by apply (i_order s Hi)]. unfold lruFinish in He. cbv zeta in He.
    set (c' := MkLRU _ _ _ _ _ _) in He.
    assert (e ∈ admitted c' key v) as [->|He']%admitted_elem; [|by left|right; by apply (i_order s Hi)].
    revert He. unfold admitValue, admitted. cbv zeta. destruct (_ <? _); [|done].
    destruct (last_split (MkElement (lru_next c') key v) (lru_order c')) as (y & -> & _). done.
  - intros q k h o [[-> [=]]|[_ Hq]]%moved_Some. apply justified_more. by eapply (i_done s Hi).
Qed.

Lemma close_inv s p key l out :
  Inv s -> sy_procs s !! p = Some (key, Closing l out) -> Inv (goes s p key (closeReady (sy_cache s) l) (Done Ran out)).
Proof.
  intros Hi Hp. destruct (i_closing s Hi _ _ _ _ Hp) as [Hl Hran]. pose proof (closeReady_ok _ l (i_ok s Hi)) as Hok.
  unfold closeReady in *. rewrite Hl in *. cbn [il_out] in *. set (c := sy_cache s) in *.
  assert (owns (Closing l out) l) as Hown by (right; by eexists).
  constructor; cbn [goes sy_cache sy_procs sy_ran lru_pending lru_loads lru_order]; [done| | | | | |apply (i_order s Hi)|].
  - intros k m. unfold c. rewrite (i_pending s Hi). split; intros [q Hq]; exists q.
    + rewrite moved_other; [done|]. intros ->. rewrite Hp in Hq. discriminate Hq.
    + by apply moved_Some in Hq as [[-> [=]]|[_ Hq]].
  - intros q q' kq kq' sq sq' m [[-> [= -> ->]]|[_ Hq]]%moved_Some [[-> [= -> ->]]|[_ Hq']]%moved_Some;
      try (intros ?%owns_not_done || intros _ ?%owns_not_done); try done.
    eapply (i_owner s Hi); eassumption.
  - intros q k m [[-> [=]]|[Hne Hq]]%moved_Some. rewrite lookup_insert_ne; [by eapply (i_loading s Hi)|]. intros <-.
    apply Hne. eapply (i_owner s Hi); [exact Hq|exact Hp|by left|done].
  - intros q k m o [[-> [=]]|[Hne Hq]]%moved_Some. destruct (i_closing s Hi _ _ _ _ Hq) as [Hm Hr]. split; [|done].
    rewrite lookup_insert_ne; [done|]. intros <-. apply Hne. eapply (i_owner s Hi); [exact Hq|exact Hp|by right; eexists|done].
  - intros q k m [[-> [=]]|[_ Hq]]%moved_Some. destruct (decide (m = l)) as [->|Hne].
    + right. exists out. split; [apply lookup_insert_eq|].
      destruct (i_waiting s Hi _ _ _ Hq) as [(q' & st & Hq' & Ho)|(o & Hm & _)]; [|fold c in Hm; rewrite Hl in Hm; discriminate Hm].
      assert (q' = p) as -> by (eapply (i_owner s Hi); eassumption). rewrite Hp in Hq'. by injection Hq' as <- _.
    + destruct (i_waiting s Hi _ _ _ Hq) as [(q' & st & Hq' & Ho)|(o & Hm & Hr)].
      * left. exists q', st. split; [|done]. rewrite moved_other; [done|]. intros ->. rewrite Hp in Hq'. injection Hq' as <- <-.
        destruct Ho as [[=]|[? [= ? _]]]. by subst.
      * right. exists o. split; [|done]. by rewrite lookup_insert_ne.
  - intros q k h o [[-> [= -> -> ->]]|[_ Hq]]%moved_Some; [done|]. by eapply (i_done s Hi).
Qed.

Lemma closeReady_capacity c l : lru_capacity (closeReady c l) = lru_capacity c.
Proof. unfold closeReady. by destruct (_ !! l). Qed.
Lemma look_capacity c key : lru_capacity (fst (lruLook c key)) = lru_capacity c.
Proof. unfold lruLook. destruct (lru_items c !! key); [done|]. by destruct (lru_pending c !! key). Qed.

Lemma step_capacity a s s' : loadStep a s = Some s' -> lru_capacity (sy_cache s') = lru_capacity (sy_cache s).
Proof.
  destruct a as [k|p|p|p|p out|p]; cbn [loadStep]; [by intros [= <-]|..]; destruct (sy_procs s !! p) as [[key [|l|l|l o|h o]]|]; try done.
  - destruct (lruLook _ key) as [c r] eqn:E. intros [= <-]. cbn [goes sy_cache]. pose proof (look_capacity (sy_cache s) key) as H. by rewrite E in H.
  - destruct (_ !! l) as [[[|] [o|]]|]; try done. by intros [= <-].
  - by intros [= <-].
  - intros [= <-]. cbn [sy_cache]. apply finish_frame.
  - intros [= <-]. apply closeReady_capacity.
Qed.

Lemma lru_step_inv a s s' : 0 <= lru_capacity (sy_cache s) -> Inv s -> loadStep a s = Some s' -> Inv s'.
Proof.
  intros H0 Hi. destruct a as [k|p|p|p|p out|p]; cbn [loadStep].
  - intros [= <-]. by apply arrive_inv.
  - destruct (sy_procs s !! p) as [[key [|l|l|l o|h o]]|] eqn:Hp; try done.
    destruct (lruLook (sy_cache s) key) as [c r] eqn:E. intros [= <-]. unfold lruLook in E. pose proof (look_ok _ key (i_ok s Hi)) as Hok.
    destruct (lru_items (sy_cache s) !! key) as [e|] eqn:Ei; [|destruct (lru_pending (sy_cache s) !! key) as [l|] eqn:Ep].
    + injection E as <- <-. unfold lruLook in Hok. rewrite Ei in Hok.
      pose proof (proj1 (ok_items _ (i_ok s Hi) key e) Ei) as [He Hk].
      eapply quiet_inv; try done; [apply owns_not_looking|apply owns_not_done|apply MoveToFront_perm; [apply (ok_ids _ (i_ok s Hi))|done]|].
      intros h out [= <- <-]. split; [by eexists|]. rewrite <- Hk. by apply (i_order s Hi).
    + injection E as <- <-. eapply quiet_inv; try done; [apply owns_not_looking|apply owns_not_waiting|apply (i_ok s Hi)|].
      intros m [= <-]. left. apply (i_pending s Hi) in Ep as [q Hq]. exists q, (Loading l). split; [done|by left].
    + injection E as <- <-. pose proof (start_load_inv s p key Hi Hp Ei Ep) as H. unfold lruLook in H. rewrite Ei, Ep in H. exact H.
  - destruct (sy_procs s !! p) as [[key [|l|l|l o|h o]]|] eqn:Hp; try done.
    destruct (lru_loads (sy_cache s) !! l) as [[[|] [o|]]|] eqn:El; try done. intros [= <-].
    assert ((key, o) ∈ sy_ran s) as Hran.
    { destruct (i_waiting s Hi _ _ _ Hp) as [(q & st & Hq & [->|[x ->]])|(x & Hx & Hr)].
      - apply (i_loading s Hi) in Hq. rewrite El in Hq. discriminate Hq.
      - apply (i_closing s Hi) in Hq as [Hq _]. rewrite El in Hq. discriminate Hq.
      - rewrite El in Hx. by injection Hx as <-. }
    eapply quiet_inv; try done; [apply owns_not_waiting| |apply (i_ok s Hi)| |].
    + intros m. destruct o as [v|[|why]]; (apply owns_not_looking || apply owns_not_done).
    + intros m. by destruct o as [v|[|why]].
    + intros h x. destruct o as [v|[|why]]; try done. intros [= <- <-]. split; [by eexists|done].
  - destruct (sy_procs s !! p) as [[key [|l|l|l o|h o]]|] eqn:Hp; try done. intros [= <-].
    eapply quiet_inv; try done; [apply owns_not_waiting|apply owns_not_done|apply (i_ok s Hi)|]. by intros h x [= <- <-].
  - destruct (sy_procs s !! p) as [[key [|l|l|l o|h o]]|] eqn:Hp; try done. intros [= <-]. by apply return_inv.
  - destruct (sy_procs s !! p) as [[key [|l|l|l o|h o]]|] eqn:Hp; try done. intros [= <-]. by apply close_inv.
Qed.

Lemma lru_run_inv l s s' : 0 <= lru_capacity (sy_cache s) -> Inv s -> loadRun l s = Some s' -> Inv s' /\ lru_capacity (sy_cache s') = lru_capacity (sy_cache s).
Proof.
  revert s. induction l as [|a l IH]; intros s H0 Hi; cbn [loadRun]; [by intros [= <-]|].
  destruct (loadStep a s) as [s1|] eqn:E; [|done]. pose proof (step_capacity _ _ _ E) as Hc. intros Hrun.
  destruct (IH s1) as [H1 H2]; [by rewrite Hc|by eapply lru_step_inv|done|]. split; [done|]. congruence.
Qed.

(** C11.  Requests share loads, and only good values are kept.  However requests arrive,
    wait, give up and load, at most one request loads a key, and only while the cache has
    no value for it; the cache never exceeds its capacity and holds each key once, in the
    list and in the map alike, with a value a loader of that key returned; and every answer
    is the value or the failure of a loader of the request's own key, while a cancellation
    is only ever the request's own or its own loader's. *)
Theorem load_shared capacity l s :
  0 <= capacity -> loadRun l (startSys capacity) = Some s ->
  (forall p q key i j, sy_procs s !! p = Some (key, Loading i) -> sy_procs s !! q = Some (key, Loading j) -> p = q) /\
  (forall p key i, sy_procs s !! p = Some (key, Loading i) -> lru_items (sy_cache s) !! key = None) /\
  Z.of_nat (length (lru_order (sy_cache s))) <= capacity /\
  (forall key e, lru_items (sy_cache s) !! key = Some e <-> e ∈ lru_order (sy_cache s) /\ el_key e = key) /\
  NoDup (map el_key (lru_order (sy_cache s))) /\
  (forall key e, lru_items (sy_cache s) !! key = Some e -> (key, Good (el_value e)) ∈ sy_ran s) /\
  (forall p key h out, sy_procs s !! p = Some (key, Done h out) -> justified (sy_ran s) key h out).
Proof.
  intros H0 Hrun. destruct (lru_run_inv l (startSys capacity) s H0 (lru_start_inv _ H0) Hrun) as [Hi Hc]. pose proof (i_ok s Hi) as Hok. split_and!.
  - intros p q key i j Hp Hq. assert (i = j) as <-.
    { assert (lru_pending (sy_cache s) !! key = Some i) as H1 by (apply (i_pending s Hi); by exists p).
      assert (lru_pending (sy_cache s) !! key = Some j) as H2 by (apply (i_pending s Hi); by exists q). congruence. }
    eapply (i_owner s Hi); [exact Hp|exact Hq|by left|by left].
  - intros p key i Hp. apply (ok_apart _ Hok). exists i. apply (i_pending s Hi). by exists p.
  - pose proof (ok_capacity _ Hok). cbn [startSys sy_cache newLRU lru_capacity] in Hc. lia.
  - apply (ok_items _ Hok).
  - apply (ok_keys _ Hok).
  - intros key e [He <-]%(ok_items _ Hok). by apply (i_order s Hi).
  - apply (i_done s Hi).
Qed.

(** * Every request is answered *)

Definition unanswered (x : string * status) : bool := match x.2 with Done _ _ => false | _ => true end.
Definition isReady (c : lru) (l : nat) : bool := match lru_loads c !! l with Some x => il_ready x | None => false end.

(** What is left to do for a request among [u] unanswered ones. *)
Definition weight (c : lru) (u : nat) (x : string * status) : nat :=
  match x.2 with
  | Looking => 3 * u + 2
  | Waiting l => if isReady c l then 3 * u + 3 else 3 * u + 1
  | Loading _ => 2
  | Closing _ _ => 1
  | Done _ _ => 0
  end.
Definition unanswereds (s : Sys) : nat := sum_list_with (fun x => if unanswered x then 1 else 0)%nat (sy_procs s).
Definition work (s : Sys) : nat := sum_list_with (weight (sy_cache s) (unanswereds s)) (sy_procs s).

Lemma sum_moved {A} (f : A -> nat) l p x y : l !! p = Some y -> (sum_list_with f (<[p := x]> l) + f y = sum_list_with f l + f x)%nat.
Proof.
  revert p. induction l as [|z l IH]; intros [|p]; try done.
  - intros [= ->]. cbn. lia.
  - intros H%IH. change (<[S p := x]> (z :: l)) with (z :: <[p := x]> l). cbn [sum_list_with]. lia.
Qed.
Lemma sum_moved_lt {A} (f g : A -> nat) l p x y :
  l !! p = Some y -> (forall z, f z <= g z)%nat -> (f x < g y)%nat -> (sum_list_with f (<[p := x]> l) < sum_list_with g l)%nat.
Proof.
  intros Hp Hle Hlt. revert p Hp. induction l as [|z l IH]; intros [|p]; try done.
  - intros [= ->]. cbn. assert (sum_list_with f l <= sum_list_with g l)%nat; [|lia]. clear -Hle. induction l as [|z l IH]; cbn; [done|]. specialize (Hle z). lia.
  - intros H%IH. specialize (Hle z). change (<[S p := x]> (z :: l)) with (z :: <[p := x]> l). cbn [sum_list_with]. lia.
Qed.

Lemma weight_mono c c' u u' z :
  (u' <= u)%nat -> (forall l, isReady c' l = isReady c l) \/ (u' < u)%nat -> (weight c' u' z <= weight c u z)%nat.
Proof.
  intros Hu Hr. destruct z as [k [|l|l|l o|h o]]; cbn [weight snd]; try lia.
  destruct Hr as [->|Hlt]; [destruct (isReady c l); lia|]. destruct (isReady c' l), (isReady c l); lia.
Qed.

Definition pendingCount (st : status) : nat := match st with Done _ _ => 0 | _ => 1 end.

Lemma unanswereds_moved s p k st st' c ran :
  sy_procs s !! p = Some (k, st) ->
  (unanswereds (MkSys c (<[p := (k, st')]> (sy_procs s)) ran) + pendingCount st = unanswereds s + pendingCount st')%nat.
Proof.
  intros Hp. unfold unanswereds. cbn [sy_procs].
  pose proof (sum_moved (fun x => if unanswered x then 1 else 0)%nat (sy_procs s) p (k, st') (k, st) Hp) as H.
  unfold unanswered in *. cbn [snd] in H. destruct st, st'; cbn [pendingCount]; lia.
Qed.

(** One request gets on, and no other is set back. *)
Lemma work_moved s p k st st' c ran :
  sy_procs s !! p = Some (k, st) -> (pendingCount st = 1)%nat ->
  (forall l, isReady c l = isReady (sy_cache s) l) \/ (pendingCount st' = 0)%nat ->
  (forall u, (1 <= u)%nat -> weight c (if decide (pendingCount st' = 0)%nat then u - 1 else u)%nat (k, st') < weight (sy_cache s) u (k, st))%nat ->
  (work (MkSys c (<[p := (k, st')]> (sy_procs s)) ran) < work s)%nat.
Proof.
  intros Hp H1 Hr Hlt. pose proof (unanswereds_moved s p k st st' c ran Hp) as Hu. unfold work. cbn [sy_procs sy_cache].
  set (u' := unanswereds (MkSys _ _ _)) in *. set (u := unanswereds s) in *.
  assert (pendingCount st' = 0 \/ pendingCount st' = 1)%nat as Hst' by (destruct st'; auto).
  apply (sum_moved_lt _ _ _ p (k, st') (k, st) Hp).
  - intros z. apply weight_mono; [lia|]. destruct Hr as [Hr|Hr]; [by left|right; lia].
  - assert (1 <= u)%nat as Hu1.
    { unfold u, unanswereds. clear -Hp H1. revert p Hp. induction (sy_procs s) as [|z l IH]; intros [|p]; try done.
      - intros [= ->]. destruct st; cbn in *; lia.
      - intros H%IH. cbn [sum_list_with]. lia. }
    specialize (Hlt u Hu1). destruct (decide _) as [Hd|Hd]; [replace u' with (u - 1)%nat by lia|replace u' with u by lia]; exact Hlt.
Qed.

Definition arrives (a : label) : bool := match a with Arrive _ => true | _ => false end.

Lemma step_work a s s' : Inv s -> arrives a = false -> loadStep a s = Some s' -> (work s' < work s)%nat.
Proof.
  intros Hi. destruct a as [k|p|p|p|p out|p]; cbn [arrives loadStep]; [done|intros _..];
    destruct (sy_procs s !! p) as [[key [|l|l|l o|h o]]|] eqn:Hp; try done.
  - destruct (lruLook (sy_cache s) key) as [c r] eqn:E. intros [= <-]. unfold lruLook in E.
    destruct (lru_items (sy_cache s) !! key) as [e|]; [|destruct (lru_pending (sy_cache s) !! key) as [l|] eqn:Ep]; injection E as <- <-.
    + apply (work_moved s p key Looking); [done|done|by right|]. intros u Hu. cbn. lia.
    + apply (work_moved s p key Looking); [done|done|by left|]. intros u Hu. cbn [weight snd pendingCount]. rewrite decide_False by done.
      replace (isReady (sy_cache s) l) with false; [lia|]. symmetry. apply (i_pending s Hi) in Ep as [q Hq].
      unfold isReady. by rewrite (i_loading s Hi _ _ _ Hq).
    + apply (work_moved s p key Looking); [done|done|left|intros u Hu; cbn; lia]. intros l. unfold isReady. cbn [lru_loads].
      destruct (decide (l = lru_next (sy_cache s))) as [->|Hne]; [|by rewrite lookup_insert_ne by done]. rewrite lookup_insert_eq.
      destruct (lru_loads (sy_cache s) !! lru_next (sy_cache s)) as [x|] eqn:Ex; [|done].
      pose proof (ok_loads _ (i_ok s Hi) _ _ Ex). lia.
  - destruct (lru_loads (sy_cache s) !! l) as [[[|] [o|]]|] eqn:El; try done. intros [= <-].
    apply (work_moved s p key (Waiting l)); [done|done|by left|]. intros u Hu. unfold weight at 2. cbn [snd].
    unfold isReady. rewrite El. cbn [il_ready]. destruct o as [v|[|why]]; cbn [woken pendingCount weight snd]; rewrite ?decide_False by done; lia.
  - intros [= <-]. apply (work_moved s p key (Waiting l)); [done|done|by right|]. intros u Hu. cbn. destruct (isReady _ _); lia.
  - intros [= <-]. pose proof (i_loading s Hi _ _ _ Hp) as El.
    apply (work_moved s p key (Loading l)); [done|done|left|intros u Hu; cbn; lia]. intros m. unfold isReady.
    destruct (finish_frame (sy_cache s) key l out) as (_ & _ & -> & _).
    destruct (decide (m = l)) as [->|Hne]; [by rewrite lookup_insert_eq, El|by rewrite lookup_insert_ne by done].
  - intros [= <-]. apply (work_moved s p key (Closing l o)); [done|done|by right|]. intros u Hu. cbn. lia.
Qed.

Lemma work_bound s : let n := length (sy_procs s) in (work s <= n * (3 * n + 3))%nat.
Proof.
  cbv zeta. assert (unanswereds s <= length (sy_procs s))%nat as Hu.
  { unfold unanswereds. induction (sy_procs s) as [|x l IH]; cbn; [done|]. destruct (unanswered x); lia. }
  unfold work. generalize dependent (unanswereds s). intros u Hu. set (n := length (sy_procs s)) in *.
  assert (forall l, sum_list_with (weight (sy_cache s) u) l <= length l * (3 * n + 3))%nat as H; [|apply H].
  induction l as [|x l IH]; cbn [sum_list_with length Nat.mul]; [lia|].
  assert (weight (sy_cache s) u x <= 3 * n + 3)%nat; [|lia].
  destruct x as [k [|m|m|m o|h o]]; cbn [weight snd]; [lia| |lia..]. destruct (isReady _ _); lia.
Qed.

Lemma run_work l s s' :
  0 <= lru_capacity (sy_cache s) -> Inv s -> forallb (fun a => negb (arrives a)) l = true -> loadRun l s = Some s' -> (length l + work s' <= work s)%nat.
Proof.
  revert s. induction l as [|a l IH]; intros s H0 Hi; cbn [loadRun forallb length]; [by intros _ [= <-]|].
  intros [Ha%negb_true_iff Hl]%andb_true_iff. destruct (loadStep a s) as [s1|] eqn:E; [|done]. intros Hrun.
  pose proof (step_work _ _ _ Hi Ha E). pose proof (lru_step_inv _ _ _ H0 Hi E) as Hi1. pose proof (step_capacity _ _ _ E) as Hc.
  specialize (IH s1 ltac:(by rewrite Hc) Hi1 Hl Hrun). lia.
Qed.

(** The steps a request takes when its context lives and a loader returns [out]. *)
Definition goesOn (out : loadOutcome) (a : label) : Prop := match a with Look _ | Wake _ | Close _ => True | Return _ o => o = out | _ => False end.

(** An unanswered request can go on, or waits for one that can, whatever its loader returns. *)
Lemma step_enabled s p key st (out : loadOutcome) :
  Inv s -> sy_procs s !! p = Some (key, st) -> unanswered (key, st) = true -> exists a s', goesOn out a /\ loadStep a s = Some s'.
Proof.
  intros Hi Hp Hu.
  assert (forall q k l, sy_procs s !! q = Some (k, Loading l) -> exists a s', goesOn out a /\ loadStep a s = Some s') as Hload.
  { intros q k l Hq. exists (Return q out). cbn [loadStep]. rewrite Hq. by eexists. }
  assert (forall q k l o, sy_procs s !! q = Some (k, Closing l o) -> exists a s', goesOn out a /\ loadStep a s = Some s') as Hclose.
  { intros q k l o Hq. exists (Close q). cbn [loadStep]. rewrite Hq. by eexists. }
  destruct st as [|l|l|l o|h o]; [|..|done].
  - exists (Look p). cbn [loadStep]. rewrite Hp. destruct (lruLook _ key). by eexists.
  - destruct (i_waiting s Hi _ _ _ Hp) as [(q & st & Hq & [->|[o ->]])|(o & Hl & _)]; [by eapply Hload|by eapply Hclose|].
    exists (Wake p). cbn [loadStep]. rewrite Hp, Hl. by eexists.
  - by eapply Hload.
  - by eapply Hclose.
Qed.

(** C30.  Every request is answered.  From any state the requests can reach, they take at
    most [3 n (n + 1)] further steps between [n] of them, whatever the loaders return and
    whoever gives up, so nobody retries for ever; and while a request is unanswered, some
    request can go on without any context ending. *)
Theorem load_answers capacity l s (out : loadOutcome) :
  0 <= capacity -> loadRun l (startSys capacity) = Some s ->
  (forall l' s', forallb (fun a => negb (arrives a)) l' = true -> loadRun l' s = Some s' ->
     Z.of_nat (length l') <= 3 * Z.of_nat (length (sy_procs s)) * (Z.of_nat (length (sy_procs s)) + 1)) /\
  (forall p key st, sy_procs s !! p = Some (key, st) -> unanswered (key, st) = true ->
     exists a s', goesOn out a /\ loadStep a s = Some s').
Proof.
  intros H0 Hrun. destruct (lru_run_inv l (startSys capacity) s H0 (lru_start_inv _ H0) Hrun) as [Hi Hc]. split.
  - intros l' s' Hl Hr. pose proof (run_work l' s s' ltac:(by rewrite Hc) Hi Hl Hr) as Hw. pose proof (work_bound s) as Hb. cbv zeta in Hb. nia.
  - intros p key st Hp Hu. by eapply (step_enabled s p key st out).
Qed.
End LRU.
