(* ===== verification/MapCache.v ===== *)
(** [cmd/api/main.go]: the map bodies, [mapCache], beside the refreshes of the engine.

    An entry is keyed by what a request asks for and stamped with the refresh the first
    asker read; a request that read a later refresh starts over.  A state is the cache, the
    refresh the engine serves, and the requests; labels interleave them with [Publish]. *)

From stdpp Require Import base gmap strings list numbers.
From Stdlib Require Import ZArith Lia Ascii.
From S2P Require Import Prelude GoLib LoadCache.
From stdpp Require Import list.
#[local] Open Scope Z_scope.

Section Maps.
Context {V : Type}.

(** What a loader came to: a body, and the refresh its query ran against; or an error. *)
Inductive mapResult := Body (ranAgainst : Time) (v : V) | BodyError (why : string).

Record mapEntry := MkMapEntry { me_at : Time; me_out : option mapResult; me_ready : bool }.

(** [mapCache], with the heap of its entries. *)
Record mapCache := MkMapCache { mc_entries : gmap string nat; mc_heap : gmap nat mapEntry; mc_next : nat }.
Definition newMapCache : mapCache := MkMapCache ∅ ∅ 0.

(** The first critical section of [mapCache.load]: the entry to wait for, or a new one. *)
Definition map_look (c : mapCache) (key : string) (refresh : Time) : mapCache * (nat * bool) :=
  let start := let e := mc_next c in
    (MkMapCache (<[key := e]> (mc_entries c)) (<[e := MkMapEntry refresh None false]> (mc_heap c)) (S e), (e, true)) in
  match mc_entries c !! key with
  | Some e =>
      match mc_heap c !! e with
      | Some x => if negb (Before (me_at x) refresh) then (c, (e, false)) else start
      | None => start
      end
  | None => start
  end.

(** The entry is written and the second critical section runs: an error leaves the cache. *)
Definition map_finish (c : mapCache) (key : string) (e : nat) (out : mapResult) : mapCache :=
  match mc_heap c !! e with
  | Some x =>
      let heap := <[e := MkMapEntry (me_at x) (Some out) (me_ready x)]> (mc_heap c) in
      let entries := match out with
                     | BodyError _ => if bool_decide (mc_entries c !! key = Some e) then delete key (mc_entries c) else mc_entries c
                     | Body _ _ => mc_entries c
                     end in
      MkMapCache entries heap (mc_next c)
  | None => c
  end.

(** [close(e.ready)]. *)
Definition map_close (c : mapCache) (e : nat) : mapCache :=
  match mc_heap c !! e with
  | Some x => MkMapCache (mc_entries c) (<[e := MkMapEntry (me_at x) (me_out x) true]> (mc_heap c)) (mc_next c)
  | None => c
  end.

Inductive mapStatus :=
| MLooking
| MWaiting (e : nat)
| MLoading (e : nat)
| MQueried (e : nat) (out : mapResult)
| MClosing (e : nat) (out : mapResult)
| MDone (out : option mapResult).

(** A request: its key, the refresh it read on arrival, and where it is.  [None] is the
    answer of a request whose context ended. *)
Record mapRequest := MkMapRequest { mr_key : string; mr_refresh : Time; mr_status : mapStatus }.

Record MapSys := MkMapSys { ms_cache : mapCache; ms_refresh : Time; ms_requests : list mapRequest; ms_ran : list (string * mapResult) }.
Definition startMaps (refresh : Time) : MapSys := MkMapSys newMapCache refresh [] [].

Inductive mapLabel :=
| Publish (refresh : Time)
| MArrive (key : string)
| MLook (p : nat)
| MGiveUp (p : nat)
| MQuery (p : nat) (v : V + string)
| MFinish (p : nat)
| MClose (p : nat)
| MWake (p : nat).

Definition mapMoveTo (s : MapSys) (p : nat) (r : mapRequest) (c : mapCache) (st : mapStatus) : MapSys :=
  MkMapSys c (ms_refresh s) (<[p := MkMapRequest (mr_key r) (mr_refresh r) st]> (ms_requests s)) (ms_ran s).

Definition mapStep (a : mapLabel) (s : MapSys) : option MapSys :=
  let c := ms_cache s in
  match a with
  | Publish t => if ms_refresh s <=? t then Some (MkMapSys c t (ms_requests s) (ms_ran s)) else None
  | MArrive key => Some (MkMapSys c (ms_refresh s) (ms_requests s ++ [MkMapRequest key (ms_refresh s) MLooking]) (ms_ran s))
  | MLook p =>
      match ms_requests s !! p with
      | Some (MkMapRequest key t MLooking as r) =>
          let '(c, (e, mine)) := map_look c key t in
          Some (mapMoveTo s p r c (if mine then MLoading e else MWaiting e))
      | _ => None
      end
  | MGiveUp p =>
      match ms_requests s !! p with
      | Some (MkMapRequest _ _ (MWaiting e) as r) => Some (mapMoveTo s p r c (MDone None))
      | _ => None
      end
  | MWake p =>
      match ms_requests s !! p with
      | Some (MkMapRequest _ _ (MWaiting e) as r) =>
          match mc_heap c !! e with
          | Some (MkMapEntry _ (Some out) true) => Some (mapMoveTo s p r c (MDone (Some out)))
          | _ => None
          end
      | _ => None
      end
  | MQuery p v =>
      match ms_requests s !! p with
      | Some (MkMapRequest key t (MLoading e) as r) =>
          let out := match v with inl v => Body (ms_refresh s) v | inr why => BodyError why end in
          Some (MkMapSys c (ms_refresh s) (<[p := MkMapRequest key t (MQueried e out)]> (ms_requests s)) ((key, out) :: ms_ran s))
      | _ => None
      end
  | MFinish p =>
      match ms_requests s !! p with
      | Some (MkMapRequest key _ (MQueried e out) as r) => Some (mapMoveTo s p r (map_finish c key e out) (MClosing e out))
      | _ => None
      end
  | MClose p =>
      match ms_requests s !! p with
      | Some (MkMapRequest _ _ (MClosing e out) as r) => Some (mapMoveTo s p r (map_close c e) (MDone (Some out)))
      | _ => None
      end
  end.

Fixpoint mapRun (l : list mapLabel) (s : MapSys) : option MapSys :=
  match l with [] => Some s | a :: l' => match mapStep a s with Some s' => mapRun l' s' | None => None end end.

(** * Invariant *)

(** The request that fills an entry. *)
Definition fills (st : mapStatus) (e : nat) : Prop :=
  st = MLoading e \/ (exists out, st = MQueried e out) \/ exists out, st = MClosing e out.

(** What the entry of a filling request holds. *)
Definition written (st : mapStatus) : option mapResult := match st with MClosing _ out => Some out | _ => None end.

(** A result read from a table that is no older than a refresh, by a loader of the key. *)
Definition freshFor (ran : list (string * mapResult)) (key : string) (refresh : Time) (out : mapResult) : Prop :=
  (key, out) ∈ ran /\ match out with Body t _ => refresh <= t | BodyError _ => True end.

Definition requestOk (s : MapSys) (r : mapRequest) : Prop :=
  mr_refresh r <= ms_refresh s /\
  match mr_status r with
  | MLooking => True
  | MWaiting e => exists x, mc_heap (ms_cache s) !! e = Some x /\ mr_refresh r <= me_at x /\
      ((exists q r', ms_requests s !! q = Some r' /\ mr_key r' = mr_key r /\ fills (mr_status r') e) \/
       exists out, me_ready x = true /\ me_out x = Some out /\ freshFor (ms_ran s) (mr_key r) (me_at x) out)
  | MLoading e => mc_heap (ms_cache s) !! e = Some (MkMapEntry (mr_refresh r) None false)
  | MQueried e out => mc_heap (ms_cache s) !! e = Some (MkMapEntry (mr_refresh r) None false) /\ freshFor (ms_ran s) (mr_key r) (mr_refresh r) out
  | MClosing e out => mc_heap (ms_cache s) !! e = Some (MkMapEntry (mr_refresh r) (Some out) false) /\ freshFor (ms_ran s) (mr_key r) (mr_refresh r) out
  | MDone (Some out) => freshFor (ms_ran s) (mr_key r) (mr_refresh r) out
  | MDone None => True
  end.

Record MapInv (s : MapSys) : Prop := {
  m_requests : forall p r, ms_requests s !! p = Some r -> requestOk s r;
  m_owner : forall p q r r' e, ms_requests s !! p = Some r -> ms_requests s !! q = Some r' -> fills (mr_status r) e -> fills (mr_status r') e -> p = q;
  m_entries : forall key e, mc_entries (ms_cache s) !! key = Some e -> exists x, mc_heap (ms_cache s) !! e = Some x /\
    ((exists q r, ms_requests s !! q = Some r /\ mr_key r = key /\ fills (mr_status r) e /\
        forall out, mr_status r = MClosing e out -> exists t v, out = Body t v) \/
     exists t v, me_ready x = true /\ me_out x = Some (Body t v) /\ freshFor (ms_ran s) key (me_at x) (Body t v));
  m_fresh : forall e x, mc_heap (ms_cache s) !! e = Some x -> (e < mc_next (ms_cache s))%nat }.

Lemma fresh_more ran ran' key t out : (forall x, x ∈ ran -> x ∈ ran') -> freshFor ran key t out -> freshFor ran' key t out.
Proof. intros H [Hin Ht]. split; [by apply H|done]. Qed.
Lemma fresh_older ran key t t' out : t' <= t -> freshFor ran key t out -> freshFor ran key t' out.
Proof. intros H [Hin Ht]. split; [done|]. destruct out; [lia|done]. Qed.

Lemma start_maps_inv refresh : MapInv (startMaps refresh).
Proof. constructor; cbn; try done. Qed.

(** A filling request's entry is unfinished. *)
Lemma fills_open s r e : requestOk s r -> fills (mr_status r) e ->
  mc_heap (ms_cache s) !! e = Some (MkMapEntry (mr_refresh r) (written (mr_status r)) false).
Proof. intros [_ H] [E|[[out E]|[out E]]]; rewrite E in *; cbn; tauto. Qed.

(** One request moves, perhaps filling its entry further. *)
Section Move.
Context (s : MapSys) (p : nat) (r : mapRequest) (st' : mapStatus) (c' : mapCache) (ran' : list (string * mapResult)).
Context (Hi : MapInv s) (Hp : ms_requests s !! p = Some r).
Abbreviation key := (mr_key r).
Abbreviation s' := (MkMapSys c' (ms_refresh s) (<[p := MkMapRequest key (mr_refresh r) st']> (ms_requests s)) ran').
Context (Hran : forall x, x ∈ ms_ran s -> x ∈ ran').
Context (Hheap : forall e, ~ fills (mr_status r) e -> ~ fills st' e -> mc_heap c' !! e = mc_heap (ms_cache s) !! e).
Context (Hnew : forall e, fills st' e -> fills (mr_status r) e \/ mc_heap (ms_cache s) !! e = None).
Context (Hkeep : forall e, fills (mr_status r) e -> exists x, mc_heap c' !! e = Some x /\ me_at x = mr_refresh r /\
  (fills st' e \/ exists out, me_ready x = true /\ me_out x = Some out /\ freshFor ran' key (mr_refresh r) out)).
Context (Hself : requestOk s' (MkMapRequest key (mr_refresh r) st')).
Context (Hentries : forall k e, mc_entries c' !! k = Some e ->
  (mc_entries (ms_cache s) !! k = Some e /\ (fills (mr_status r) e ->
     (fills st' e /\ forall out, st' = MClosing e out -> exists t v, out = Body t v) \/
     exists x t v, mc_heap c' !! e = Some x /\ me_ready x = true /\ me_out x = Some (Body t v) /\ freshFor ran' key (me_at x) (Body t v))) \/
  (k = key /\ st' = MLoading e)).
Context (Hfresh : forall e x, mc_heap c' !! e = Some x -> (e < mc_next c')%nat).

(** Entries that another request fills, or that have been filled, are as they were. *)
Lemma other_heap q r' e : ms_requests s !! q = Some r' -> q <> p -> fills (mr_status r') e -> mc_heap c' !! e = mc_heap (ms_cache s) !! e.
Proof using Hi Hp Hheap Hnew.
  intros Hq Hne Hf. apply Hheap.
  - intros Hf'. apply Hne. by eapply (m_owner s Hi).
  - intros Hf'. destruct (Hnew e Hf') as [H|H]; [apply Hne; by eapply (m_owner s Hi)|].
    by rewrite (fills_open s r' e (m_requests s Hi _ _ Hq) Hf) in H.
Qed.
Lemma ready_heap e x : mc_heap (ms_cache s) !! e = Some x -> me_ready x = true -> mc_heap c' !! e = Some x.
Proof using Hi Hp Hheap Hnew.
  intros Hx Hr. rewrite Hheap; [done| |].
  - intros Hf. rewrite (fills_open s r e (m_requests s Hi _ _ Hp) Hf) in Hx. by injection Hx as <-.
  - intros Hf. destruct (Hnew e Hf) as [Hf'|Hn]; [|congruence].
    rewrite (fills_open s r e (m_requests s Hi _ _ Hp) Hf') in Hx. by injection Hx as <-.
Qed.

Lemma other_ok q r' : q <> p -> ms_requests s !! q = Some r' -> requestOk s' r'.
Proof using Hi Hp Hheap Hnew Hran Hkeep.
  intros Hne Hq. pose proof (m_requests s Hi _ _ Hq) as [Ht H]. split; [done|]. cbn [ms_cache ms_ran ms_requests].
  pose proof (other_heap q r') as Ho. destruct (mr_status r') as [|e|e|e out|e out|[out|]] eqn:Es; [done| | | | | |done].
  - destruct H as (x & Hx & Hat & [(q' & r1 & Hq' & Hk & Hf)|(out & Hr & Hout & Hfr)]).
    + destruct (decide (q' = p)) as [->|Hne'].
      * rewrite Hp in Hq'. injection Hq' as <-. destruct (Hkeep e Hf) as (x' & Hx' & Hat' & Hor).
        rewrite (fills_open s r e (m_requests s Hi _ _ Hp) Hf) in Hx. injection Hx as <-. cbn [me_at] in Hat.
        exists x'. split; [done|]. split; [by rewrite Hat'|]. destruct Hor as [Hf'|(out & Hr & Ho' & Hfr)].
        -- left. exists p. eexists. split; [by eapply moved_self|]. by split.
        -- right. exists out. rewrite Hat', <- Hk. done.
      * exists x. rewrite (other_heap q' r1 e Hq' Hne' Hf). split; [done|]. split; [done|]. left. exists q', r1. split; [by rewrite moved_other|done].
    + exists x. rewrite (ready_heap e x Hx Hr). split; [done|]. split; [done|]. right. exists out. split_and!; [done|done|]. by eapply fresh_more.
  - rewrite (Ho e Hq Hne); [done|by left].
  - destruct H as [Hh Hfr]. rewrite (Ho e Hq Hne); [|by right; left; eexists]. split; [done|]. by eapply fresh_more.
  - destruct H as [Hh Hfr]. rewrite (Ho e Hq Hne); [|by right; right; eexists]. split; [done|]. by eapply fresh_more.
  - by eapply fresh_more.
Qed.

Lemma entry_stays k e : mc_entries (ms_cache s) !! k = Some e -> ~ fills (mr_status r) e -> exists x, mc_heap c' !! e = Some x /\
    ((exists q r1, <[p := MkMapRequest key (mr_refresh r) st']> (ms_requests s) !! q = Some r1 /\ mr_key r1 = k /\ fills (mr_status r1) e /\
        forall out, mr_status r1 = MClosing e out -> exists t v, out = Body t v) \/
     exists t v, me_ready x = true /\ me_out x = Some (Body t v) /\ freshFor ran' k (me_at x) (Body t v)).
Proof using Hi Hp Hheap Hnew Hran.
  intros He Hnf. destruct (m_entries s Hi _ _ He) as (x & Hx & [(q & r1 & Hq & Hk & Hf & Hb)|(t & v & Hr & Ho & Hfr)]).
  - assert (q <> p) as Hne by (intros ->; rewrite Hp in Hq; injection Hq as <-; by apply Hnf).
    exists x. rewrite (other_heap q r1 e Hq Hne Hf). split; [done|]. left. exists q, r1. split; [by rewrite moved_other|done].
  - exists x. split; [by apply ready_heap|]. right. exists t, v. split_and!; [done|done|]. by eapply fresh_more.
Qed.

Lemma map_move_inv : MapInv s'.
Proof using All.
  constructor; cbn [ms_cache ms_requests ms_ran].
  - intros q r' [[-> ->]|[Hne Hq]]%moved_Some; [done|]. by eapply other_ok.
  - assert (forall q r' e, q <> p -> ms_requests s !! q = Some r' -> fills (mr_status r') e -> fills st' e -> False) as Habs.
    { intros q r' e Hne Hq Hf Hf'. destruct (Hnew e Hf') as [H|H]; [apply Hne; by eapply (m_owner s Hi)|].
      by rewrite (fills_open s r' e (m_requests s Hi _ _ Hq) Hf) in H. }
    intros q q' r1 r2 e [[-> ->]|[Hne Hq]]%moved_Some [[-> ->]|[Hne' Hq']]%moved_Some Hf Hf'; cbn [mr_status] in *; try done.
    + exfalso. by eapply (Habs q' r2 e).
    + exfalso. by eapply (Habs q r1 e).
    + by eapply (m_owner s Hi).
  - intros k e He. destruct (Hentries k e He) as [[He' Hf]|[-> ->]].
    + destruct (m_entries s Hi _ _ He') as (x & Hx & [(q & r1 & Hq & Hk & Hfq & Hb)|(t & v & Hr & Ho & Hfr)]).
      * destruct (decide (q = p)) as [->|Hne].
        -- rewrite Hp in Hq. injection Hq as <-. destruct (Hkeep e Hfq) as (x' & Hx' & Hat & _). subst k.
           destruct (Hf Hfq) as [[Hf' Hb']|(y & t & v & Hy & Hr & Ho & Hfr)].
           ++ exists x'. split; [done|]. left. exists p. eexists. split; [by eapply moved_self|done].
           ++ exists y. split; [done|]. right. by exists t, v.
        -- apply (entry_stays k e He'). intros Hfp. apply Hne. by eapply (m_owner s Hi).
      * apply (entry_stays k e He'). intros Hfp. rewrite (fills_open s r e (m_requests s Hi _ _ Hp) Hfp) in Hx. by injection Hx as <-.
    + destruct Hself as [_ Hh]. cbn [mr_status ms_cache] in Hh. eexists. split; [exact Hh|]. left. exists p. eexists.
      split; [by eapply moved_self|]. split_and!; [done|by left|done].
  - exact Hfresh.
Qed.
End Move.

Lemma fills_looking e : ~ fills MLooking e.
Proof. by intros [|[[]|[]]]. Qed.
Lemma fills_waiting m e : ~ fills (MWaiting m) e.
Proof. by intros [|[[]|[]]]. Qed.
Lemma fills_done out e : ~ fills (MDone out) e.
Proof. by intros [|[[]|[]]]. Qed.
Lemma fills_loading m e : fills (MLoading m) e -> e = m.
Proof. by intros [[= ->]|[[? [=]]|[? [=]]]]. Qed.
Lemma fills_queried m out e : fills (MQueried m out) e -> e = m.
Proof. by intros [[=]|[[? [= -> _]]|[? [=]]]]. Qed.
Lemma fills_closing m out e : fills (MClosing m out) e -> e = m.
Proof. by intros [[=]|[[? [=]]|[? [= -> _]]]]. Qed.

(** A request that fills nothing before and after. *)
Lemma quiet_move s p r st' :
  MapInv s -> ms_requests s !! p = Some r -> (forall e, ~ fills (mr_status r) e) -> (forall e, ~ fills st' e) ->
  requestOk (mapMoveTo s p r (ms_cache s) st') (MkMapRequest (mr_key r) (mr_refresh r) st') -> MapInv (mapMoveTo s p r (ms_cache s) st').
Proof.
  intros Hi Hp Hn Hn' Hself. apply map_move_inv; try done.
  - by intros e ?%Hn'.
  - by intros e ?%Hn.
  - intros k e He. left. split; [done|]. by intros ?%Hn.
  - apply (m_fresh s Hi).
Qed.

(** A request that starts the entry of its key. *)
Lemma start_move s p r :
  MapInv s -> ms_requests s !! p = Some r -> mr_status r = MLooking ->
  MapInv (mapMoveTo s p r (MkMapCache (<[mr_key r := mc_next (ms_cache s)]> (mc_entries (ms_cache s)))
    (<[mc_next (ms_cache s) := MkMapEntry (mr_refresh r) None false]> (mc_heap (ms_cache s))) (S (mc_next (ms_cache s)))) (MLoading (mc_next (ms_cache s)))).
Proof.
  intros Hi Hp Hst. set (e0 := mc_next (ms_cache s)).
  assert (mc_heap (ms_cache s) !! e0 = None) as Hnone.
  { destruct (mc_heap (ms_cache s) !! e0) as [x|] eqn:E; [|done]. pose proof (m_fresh s Hi _ _ E). unfold e0 in *. lia. }
  apply map_move_inv; cbn [mc_entries mc_heap mc_next]; try done.
  - intros e _ Hf. rewrite lookup_insert_ne; [done|]. intros <-. apply Hf. by left.
  - intros e ->%fills_loading. by right.
  - rewrite Hst. by intros e ?%fills_looking.
  - split; [apply (m_requests s Hi _ _ Hp)|]. cbn [mr_status ms_cache mc_heap]. apply lookup_insert_eq.
  - intros k e [(<- & <-)|(Hne & He)]%lookup_insert_Some; [by right|]. left. split; [done|]. rewrite Hst. by intros ?%fills_looking.
  - intros e x [(<- & <-)|(Hne & Hx)]%lookup_insert_Some; [lia|]. pose proof (m_fresh s Hi _ _ Hx). unfold e0. lia.
Qed.

Lemma query_move s p r e out :
  MapInv s -> ms_requests s !! p = Some r -> mr_status r = MLoading e -> match out with Body t _ => t = ms_refresh s | BodyError _ => True end ->
  MapInv (MkMapSys (ms_cache s) (ms_refresh s) (<[p := MkMapRequest (mr_key r) (mr_refresh r) (MQueried e out)]> (ms_requests s)) ((mr_key r, out) :: ms_ran s)).
Proof.
  intros Hi Hp Hst Ht. pose proof (m_requests s Hi _ _ Hp) as [Hle Hh]. rewrite Hst in Hh.
  apply map_move_inv; try done.
  - intros x. by right.
  - intros m ->%fills_queried. left. rewrite Hst. by left.
  - rewrite Hst. intros m ->%fills_loading. eexists. split; [exact Hh|]. split; [done|]. left. right. left. by eexists.
  - split; [done|]. cbn [mr_status ms_cache ms_ran mr_key mr_refresh]. split; [done|]. split; [by left|]. by destruct out as [t v|]; [subst t|].
  - intros k m Hm. left. split; [done|]. rewrite Hst. intros ->%fills_loading. left. split; [right; left; by eexists|done].
  - apply (m_fresh s Hi).
Qed.

Lemma finish_move s p r e out :
  MapInv s -> ms_requests s !! p = Some r -> mr_status r = MQueried e out ->
  MapInv (mapMoveTo s p r (map_finish (ms_cache s) (mr_key r) e out) (MClosing e out)).
Proof.
  intros Hi Hp Hst. pose proof (m_requests s Hi _ _ Hp) as [Hle Hh]. rewrite Hst in Hh. destruct Hh as [Hh Hfr].
  assert (fills (mr_status r) e) as Hfe by (rewrite Hst; right; left; by eexists).
  unfold map_finish. rewrite Hh. cbn [me_at me_ready]. apply map_move_inv; cbn [mc_entries mc_heap mc_next]; try done.
  - intros m Hm _. rewrite lookup_insert_ne; [done|]. by intros <-.
  - intros m ->%fills_closing. by left.
  - rewrite Hst. intros m ->%fills_queried. eexists. split; [apply lookup_insert_eq|]. split; [done|]. left. right. right. by eexists.
  - split; [done|]. cbn [mr_status ms_cache ms_ran mr_key mr_refresh mc_heap]. split; [apply lookup_insert_eq|done].
  - intros k m Hm. left. destruct out as [t v|why].
    + split; [done|]. rewrite Hst. intros ->%fills_queried. left. split; [right; right; by eexists|]. intros o [= <-]. by exists t, v.
    + assert (mc_entries (ms_cache s) !! k = Some m /\ m <> e) as [Hold Hne].
      { assert (mc_entries (ms_cache s) !! k = Some m) as Hkm.
        { destruct (bool_decide _) in Hm; [by apply lookup_delete_Some in Hm as [_ Hm]|done]. }
        split; [done|]. intros ->. destruct (m_entries s Hi _ _ Hkm) as (x & Hx & [(q & r1 & Hq & Hk & Hf & _)|(t & v & Hr & _)]).
        - assert (q = p) as -> by (by eapply (m_owner s Hi)). rewrite Hp in Hq. injection Hq as <-. subst k.
          rewrite bool_decide_true in Hm by done. by rewrite lookup_delete_eq in Hm.
        - rewrite Hh in Hx. by injection Hx as <-. }
      split; [done|]. rewrite Hst. by intros ->%fills_queried.
  - intros m x [(<- & <-)|(Hne & Hx)]%lookup_insert_Some; [by eapply (m_fresh s Hi)|by eapply (m_fresh s Hi)].
Qed.

Lemma close_move s p r e out :
  MapInv s -> ms_requests s !! p = Some r -> mr_status r = MClosing e out -> MapInv (mapMoveTo s p r (map_close (ms_cache s) e) (MDone (Some out))).
Proof.
  intros Hi Hp Hst. pose proof (m_requests s Hi _ _ Hp) as [Hle Hh]. rewrite Hst in Hh. destruct Hh as [Hh Hfr].
  assert (fills (mr_status r) e) as Hfe by (rewrite Hst; right; right; by eexists).
  unfold map_close. rewrite Hh. cbn [me_at me_out]. apply map_move_inv; cbn [mc_entries mc_heap mc_next]; try done.
  - intros m Hm _. rewrite lookup_insert_ne; [done|]. by intros <-.
  - by intros m ?%fills_done.
  - rewrite Hst. intros m ->%fills_closing. eexists. split; [apply lookup_insert_eq|]. split; [done|]. right. by exists out.
  - intros k m Hm. left. split; [done|]. rewrite Hst. intros ->%fills_closing. right.
    destruct (m_entries s Hi _ _ Hm) as (x & Hx & [(q & r1 & Hq & Hk & Hf & Hb)|(t & v & Hr & _)]); [|rewrite Hh in Hx; by injection Hx as <-].
    assert (q = p) as -> by (by eapply (m_owner s Hi)). rewrite Hp in Hq. injection Hq as <-.
    destruct (Hb out Hst) as (t & v & ->). eexists _, t, v. split; [apply lookup_insert_eq|done].
  - intros m x [(<- & <-)|(Hne & Hx)]%lookup_insert_Some; [by eapply (m_fresh s Hi)|by eapply (m_fresh s Hi)].
Qed.

Lemma publish_inv s t : MapInv s -> ms_refresh s <= t -> MapInv (MkMapSys (ms_cache s) t (ms_requests s) (ms_ran s)).
Proof.
  intros Hi Ht. constructor; cbn [ms_cache ms_requests ms_ran].
  - intros p r Hp. destruct (m_requests s Hi _ _ Hp) as [Hle H]. split; [cbn [ms_refresh]; lia|exact H].
  - apply (m_owner s Hi).
  - apply (m_entries s Hi).
  - apply (m_fresh s Hi).
Qed.

Lemma map_arrive_inv s key : MapInv s -> MapInv (MkMapSys (ms_cache s) (ms_refresh s) (ms_requests s ++ [MkMapRequest key (ms_refresh s) MLooking]) (ms_ran s)).
Proof.
  intros Hi. constructor; cbn [ms_cache ms_requests ms_ran]; [| | |apply (m_fresh s Hi)].
  - intros p r [Hp| ->]%arrived_Some; [|by split; cbn; [lia|]]. destruct (m_requests s Hi _ _ Hp) as [Hle H]. split; [done|].
    cbn [ms_cache ms_requests ms_ran]. destruct (mr_status r); try done. destruct H as (x & Hx & Hat & [(q & r1 & Hq & H)|H]); exists x.
    + split; [done|]. split; [done|]. left. exists q, r1. split; [by apply arrived_old|done].
    + split; [done|]. split; [done|]. by right.
  - intros p q r r' e [Hp| ->]%arrived_Some [Hq| ->]%arrived_Some; cbn [mr_status]; try (intros ?%fills_looking || intros _ ?%fills_looking); try done.
    by apply (m_owner s Hi).
  - intros k e He. destruct (m_entries s Hi _ _ He) as (x & Hx & [(q & r1 & Hq & H)|H]); exists x; (split; [done|]); [left|by right].
    exists q, r1. split; [by apply arrived_old|done].
Qed.

Lemma mapStep_inv a s s' : MapInv s -> mapStep a s = Some s' -> MapInv s'.
Proof.
  intros Hi. destruct a as [t|key|p|p|p v|p|p|p]; cbn [mapStep].
  1: { destruct (Z.leb_spec (ms_refresh s) t); [|done]. intros [= <-]. by apply publish_inv. }
  1: { intros [= <-]. by apply map_arrive_inv. }
  all: destruct (ms_requests s !! p) as [[key t [|e|e|e out|e out|out]]|] eqn:Hp; try done.
  all: set (r := MkMapRequest key t _) in *.
  - destruct (map_look (ms_cache s) key t) as [c [e mine]] eqn:E. intros [= <-]. unfold map_look in E.
    pose proof (start_move s p r Hi Hp eq_refl) as Hstart.
    destruct (mc_entries (ms_cache s) !! key) as [e1|] eqn:Ee; [|by injection E as <- <- <-].
    destruct (mc_heap (ms_cache s) !! e1) as [x|] eqn:Ex; [|by injection E as <- <- <-].
    destruct (Before (me_at x) t) eqn:Eb; cbn [negb] in E; [by injection E as <- <- <-|]. injection E as <- <- <-.
    unfold Before in Eb. apply Z.ltb_ge in Eb. apply (quiet_move s p r (MWaiting e1) Hi Hp); [apply fills_looking|apply fills_waiting|].
    split; [apply (m_requests s Hi _ _ Hp)|]. cbn [mr_status ms_cache mr_refresh mr_key mapMoveTo ms_requests ms_ran r]. exists x. split; [done|]. split; [done|].
    destruct (m_entries s Hi _ _ Ee) as (x' & Hx' & [(q & r1 & Hq & Hk & Hf & _)|(t1 & v & Hr & Ho & Hfr)]); rewrite Ex in Hx'; injection Hx' as <-.
    + left. exists q, r1. split; [|done]. rewrite moved_other; [done|]. intros ->. rewrite Hp in Hq. injection Hq as <-. by apply fills_looking in Hf.
    + right. by exists (Body t1 v).
  - intros [= <-]. apply (quiet_move s p r (MDone None) Hi Hp); [apply fills_waiting|apply fills_done|].
    split; [apply (m_requests s Hi _ _ Hp)|done].
  - intros [= <-]. by apply (query_move s p r e _ Hi Hp); [done|destruct v].
  - intros [= <-]. by apply (finish_move s p r).
  - intros [= <-]. by apply (close_move s p r).
  - destruct (mc_heap (ms_cache s) !! e) as [[at_ [out|] [|]]|] eqn:Ex; try done. intros [= <-].
    apply (quiet_move s p r (MDone (Some out)) Hi Hp); [apply fills_waiting|apply fills_done|].
    destruct (m_requests s Hi _ _ Hp) as [Hle H]. split; [done|]. cbn [r mr_status] in H.
    destruct H as (x & Hx & Hat & Hor). rewrite Ex in Hx. injection Hx as <-. cbn [me_at me_ready me_out mr_key mr_refresh r] in *.
    destruct Hor as [(q & r1 & Hq & _ & Hf)|(o & _ & [= ->] & Hfr)]; [|by eapply fresh_older].
    pose proof (fills_open s r1 e (m_requests s Hi _ _ Hq) Hf) as Ho. rewrite Ex in Ho. discriminate Ho.
Qed.

Lemma mapRun_inv l s s' : MapInv s -> mapRun l s = Some s' -> MapInv s'.
Proof.
  revert s. induction l as [|a l IH]; intros s Hi; cbn [mapRun]; [by intros [= <-]|].
  destruct (mapStep a s) as [s1|] eqn:E; [|done]. apply IH. by eapply mapStep_inv.
Qed.

(** ** What is left to do *)

Definition mapWeight (r : mapRequest) : nat :=
  match mr_status r with MLooking => 4 | MLoading _ => 3 | MQueried _ _ => 2 | MClosing _ _ | MWaiting _ => 1 | MDone _ => 0 end.
Definition mapWork (s : MapSys) : nat := sum_list_with mapWeight (ms_requests s).
Definition outside (a : mapLabel) : bool := match a with Publish _ | MArrive _ => true | _ => false end.

Lemma moved_work l p r st' :
  l !! p = Some r -> (mapWeight (MkMapRequest (mr_key r) (mr_refresh r) st') < mapWeight r)%nat ->
  (sum_list_with mapWeight (<[p := MkMapRequest (mr_key r) (mr_refresh r) st']> l) < sum_list_with mapWeight l)%nat.
Proof. intros Hp Hlt. by apply (sum_moved_lt _ _ _ _ _ _ Hp). Qed.

Lemma mapStep_work a s s' : outside a = false -> mapStep a s = Some s' -> (mapWork s' < mapWork s)%nat.
Proof.
  destruct a as [t|key|p|p|p v|p|p|p]; cbn [outside mapStep]; try done; intros _;
    destruct (ms_requests s !! p) as [[key t [|e|e|e out|e out|out]]|] eqn:Hp; try done.
  - destruct (map_look _ key t) as [c [e [|]]]; intros [= <-]; apply (moved_work _ p _ _ Hp); cbn; lia.
  - intros [= <-]. apply (moved_work _ p _ _ Hp). cbn. lia.
  - intros [= <-]. apply (moved_work _ p _ _ Hp). cbn. lia.
  - intros [= <-]. apply (moved_work _ p _ _ Hp). cbn. lia.
  - intros [= <-]. apply (moved_work _ p _ _ Hp). cbn. lia.
  - destruct (mc_heap _ !! e) as [[a [out|] [|]]|]; try done. intros [= <-]. apply (moved_work _ p _ _ Hp). cbn. lia.
Qed.

Lemma mapRun_work l s s' : forallb (fun a => negb (outside a)) l = true -> mapRun l s = Some s' -> (length l + mapWork s' <= mapWork s)%nat.
Proof.
  revert s. induction l as [|a l IH]; intros s; cbn [mapRun forallb length]; [by intros _ [= <-]|].
  intros [Ha%negb_true_iff Hl]%andb_true_iff. destruct (mapStep a s) as [s1|] eqn:E; [|done]. intros Hrun.
  pose proof (mapStep_work _ _ _ Ha E). specialize (IH s1 Hl Hrun). lia.
Qed.

Lemma mapWork_bound s : (mapWork s <= 4 * length (ms_requests s))%nat.
Proof.
  unfold mapWork. induction (ms_requests s) as [|r l IH]; cbn [sum_list_with length]; [lia|].
  assert (mapWeight r <= 4)%nat by (unfold mapWeight; destruct (mr_status r); lia). lia.
Qed.

(** The steps of a request whose context lives and whose query returns [v]. *)
Definition mapGoesOn (v : V + string) (a : mapLabel) : Prop :=
  match a with MLook _ | MWake _ | MFinish _ | MClose _ => True | MQuery _ w => w = v | _ => False end.

Lemma map_enabled s p r v :
  MapInv s -> ms_requests s !! p = Some r -> mapWeight r <> 0%nat -> exists a s', mapGoesOn v a /\ mapStep a s = Some s'.
Proof.
  intros Hi Hp Hw.
  assert (forall q r' e, ms_requests s !! q = Some r' -> fills (mr_status r') e -> exists a s', mapGoesOn v a /\ mapStep a s = Some s') as Hfill.
  { intros q [k t st] e Hq Hf. cbn [mr_status] in Hf. destruct Hf as [->|[[out ->]|[out ->]]].
    - exists (MQuery q v). cbn [mapStep]. rewrite Hq. by eexists.
    - exists (MFinish q). cbn [mapStep]. rewrite Hq. by eexists.
    - exists (MClose q). cbn [mapStep]. rewrite Hq. by eexists. }
  pose proof (m_requests s Hi _ _ Hp) as [_ H]. destruct r as [k t [|e|e|e out|e out|out]]; cbn [mr_status mapWeight] in *; [| | | | |done].
  - exists (MLook p). cbn [mapStep]. rewrite Hp. destruct (map_look _ k t) as [c [e mine]]. by eexists.
  - destruct H as ([at_ out ready] & Hx & _ & [(q & r1 & Hq & _ & Hf)|(o & Hr & Ho & _)]); [by eapply Hfill|]. cbn [me_ready me_out] in *. subst.
    exists (MWake p). cbn [mapStep]. rewrite Hp, Hx. by eexists.
  - eapply (Hfill p); [exact Hp|]. by left.
  - eapply (Hfill p); [exact Hp|]. right. left. by eexists.
  - eapply (Hfill p); [exact Hp|]. right. right. by eexists.
Qed.

(** A loader reads a table that was being served. *)
Definition servedBodies (s : MapSys) : Prop := forall key t v, (key, Body t v) ∈ ms_ran s -> t <= ms_refresh s.

Lemma mapStep_served a s s' : servedBodies s -> mapStep a s = Some s' -> servedBodies s'.
Proof.
  intros Hb. unfold servedBodies in *. destruct a as [t|key|p|p|p v|p|p|p]; cbn [mapStep].
  1: { destruct (Z.leb_spec (ms_refresh s) t); [|done]. intros [= <-] key u v Hin. specialize (Hb key u v Hin). cbn [ms_refresh]. lia. }
  1: { by intros [= <-]. }
  all: destruct (ms_requests s !! p) as [[key t [|e|e|e out|e out|out]]|] eqn:Hp; try done.
  - destruct (map_look _ key t) as [c [e mine]]. by intros [= <-].
  - by intros [= <-].
  - intros [= <-] k u w. cbn [ms_ran ms_refresh]. intros [Heq|Hin]%elem_of_cons; [|by eapply Hb]. destruct v; [|done]. by injection Heq as _ -> _.
  - by intros [= <-].
  - by intros [= <-].
  - destruct (mc_heap _ !! e) as [[a [out|] [|]]|]; try done. by intros [= <-].
Qed.

Lemma mapRun_served l s s' : servedBodies s -> mapRun l s = Some s' -> servedBodies s'.
Proof.
  revert s. induction l as [|a l IH]; intros s Hb; cbn [mapRun]; [by intros [= <-]|].
  destruct (mapStep a s) as [s1|] eqn:E; [|done]. apply IH. by eapply mapStep_served.
Qed.

(** What the cache holds of a finished load is a body. *)
Lemma entry_body s key e x out :
  MapInv s -> mc_entries (ms_cache s) !! key = Some e -> mc_heap (ms_cache s) !! e = Some x -> me_out x = Some out ->
  exists t v, out = Body t v /\ freshFor (ms_ran s) key (me_at x) out.
Proof.
  intros Hi He Hx Ho. destruct (m_entries s Hi _ _ He) as (x' & Hx' & [(q & r & Hq & <- & Hf & Hb)|(t & v & _ & Ho' & Hfr)]);
    rewrite Hx in Hx'; injection Hx' as <-.
  - pose proof (m_requests s Hi _ _ Hq) as Hok. pose proof (fills_open s r e Hok Hf) as Hopen. rewrite Hx in Hopen. injection Hopen as ->.
    cbn [me_out me_at] in *. destruct Hok as [_ Hok]. destruct Hf as [E|[[o E]|[o E]]]; rewrite E in Hok, Ho; cbn [written] in Ho; try done.
    injection Ho as ->. destruct (Hb out E) as (t & v & ->). exists t, v. split; [done|]. apply Hok.
  - rewrite Ho in Ho'. injection Ho' as ->. by exists t, v.
Qed.

(** C12.  The map is never older than the page that asked for it.  However refreshes,
    requests, loaders and waits interleave, a body that answers a request was read, by a
    loader of its own key, from a table at least as new as the one served when the request
    arrived; a finished load found in the cache is a body, never a failure; requests take
    at most four steps each, and while one is unanswered some request can go on, whatever
    its query returns. *)
Theorem map_never_stale refresh l s (v : V + string) :
  mapRun l (startMaps refresh) = Some s ->
  (forall p r out, ms_requests s !! p = Some r -> mr_status r = MDone (Some out) ->
     (mr_key r, out) ∈ ms_ran s /\ match out with Body t _ => mr_refresh r <= t <= ms_refresh s | BodyError _ => True end) /\
  (forall key e x out, mc_entries (ms_cache s) !! key = Some e -> mc_heap (ms_cache s) !! e = Some x -> me_out x = Some out ->
     exists t body, out = Body t body /\ me_at x <= t /\ (key, out) ∈ ms_ran s) /\
  (forall l' s', forallb (fun a => negb (outside a)) l' = true -> mapRun l' s = Some s' -> (length l' <= 4 * length (ms_requests s))%nat) /\
  (forall p r, ms_requests s !! p = Some r -> (forall out, mr_status r <> MDone out) -> exists a s', mapGoesOn v a /\ mapStep a s = Some s').
Proof.
  intros Hrun. pose proof (mapRun_inv _ _ _ (start_maps_inv refresh) Hrun) as Hi.
  assert (servedBodies s) as Hb by (eapply mapRun_served; [|exact Hrun]; by intros ? ? ? ?%elem_of_nil). split_and!.
  - intros p r out Hp Hst. pose proof (m_requests s Hi _ _ Hp) as [_ H]. rewrite Hst in H. destruct H as [Hin Ht]. split; [done|].
    destruct out as [t body|]; [|done]. split; [done|]. by eapply Hb.
  - intros key e x out He Hx Ho. destruct (entry_body s key e x out Hi He Hx Ho) as (t & body & -> & Hin & Ht). by exists t, body.
  - intros l' s' Hl Hr. pose proof (mapRun_work l' s s' Hl Hr). pose proof (mapWork_bound s). lia.
  - intros p r Hp Hn. apply (map_enabled s p r v Hi Hp). unfold mapWeight. destruct (mr_status r) eqn:E; try done. by destruct (Hn out).
Qed.
End Maps.
