(* ===== verification/ApiStats.v ===== *)
(** [cmd/api/main.go]: the keys of the response caches, and [loadStats], which uses them.

    A key is texts joined by NUL bytes.  The client of a version key is whatever the caller
    wrote; the other texts hold no NUL, so a key still says all of them. *)

From stdpp Require Import base gmap strings list numbers pretty sorting.
From Stdlib Require Import ZArith Lia Ascii.
From S2P Require Import Prelude GoLib Counting Hashes Consensus ForkId Network Readiness Text Clientname Sql Query QueryMirror QueryWhere.
From S2P Require Import Calendar Snapshot Stats StatsProps StatsServed.
From stdpp Require Import list.
#[local] Open Scope Z_scope.

(** * Instants as keys *)

Definition formatSeconds (t : Time) : string :=
  let '(y, m, d) := civil (t / Day) in
  let s := t mod Day / Second in
  appendInt y 4 +:+ "-" +:+ appendInt m 2 +:+ "-" +:+ appendInt d 2 +:+ "T" +:+ appendInt (s / 3600) 2 +:+ ":" +:+
  appendInt (s / 60 mod 60) 2 +:+ ":" +:+ appendInt (s mod 60) 2.

(** The fraction of [time.RFC3339Nano]: no trailing zeros, and no point alone. *)
Definition isZeroDigit (c : ascii) : bool := (c =? "0")%char.
Definition nanoFraction (ns : Z) : string :=
  let f := trimRight isZeroDigit (decimals 9 ns "") in if (f =? "")%string then "" else "." +:+ f.

(** [t.UTC().Format(time.RFC3339Nano)]. *)
Definition formatNano (t : Time) : string := formatSeconds t +:+ nanoFraction (t mod Second) +:+ "Z".

(** [strconv.FormatInt(at.Truncate(time.Minute).Unix(), 10)]; the zero time is on a minute. *)
Definition Truncate (t : Time) (d : Duration) : Time := t - t mod d.
Definition minuteText (t : Time) : string := pretty (Unix (Truncate t Minute)).

Example formatNano_example : formatNano (time_Unix 1789900000 + 500000000) = "2026-09-20T10:26:40.5Z".
Proof. vm_compute. reflexivity. Qed.
Example formatNano_whole : formatNano (time_Unix 1789900000) = "2026-09-20T10:26:40Z".
Proof. vm_compute. reflexivity. Qed.

(** ** They tell instants apart *)

Lemma decimals_digits n v : sforall is_digit (decimals n v "") = true.
Proof.
  revert v. induction n as [|n IH]; intros v; [done|]. cbn [decimals]. rewrite decimals_tail, sforall_app, IH. cbn [sforall andb].
  pose proof (digitVal_digit (v mod 10) ltac:(apply Z.mod_pos_bound; lia)) as H. unfold digitVal in H. by destruct (is_digit _).
Qed.

Fixpoint zeroDigits (n : nat) : string := match n with O => "" | S n' => String "0" (zeroDigits n') end.

Lemma length_zeroDigits n : String.length (zeroDigits n) = n.
Proof. induction n as [|n IH]; [done|]. cbn. by rewrite IH. Qed.

Lemma trimRight_zeros s : exists n, s = trimRight isZeroDigit s +:+ zeroDigits n.
Proof.
  induction s as [|c s [n IH]]; [by exists 0%nat|]. cbn [trimRight]. destruct (trimRight isZeroDigit s) as [|c' s'] eqn:E.
  - destruct (isZeroDigit c) eqn:Ec.
    + exists (S n). unfold isZeroDigit in Ec. apply Ascii.eqb_eq in Ec as ->. by rewrite IH at 1.
    + exists n. by rewrite IH at 1.
  - exists n. by rewrite IH at 1.
Qed.

Lemma trimRight_length s t : trimRight isZeroDigit s = trimRight isZeroDigit t -> String.length s = String.length t -> s = t.
Proof.
  intros E Hl. destruct (trimRight_zeros s) as [n Hn], (trimRight_zeros t) as [m Hm].
  pose proof (f_equal String.length Hn) as Ln. pose proof (f_equal String.length Hm) as Lm. rewrite length_sapp, length_zeroDigits in Ln, Lm.
  rewrite Hn, Hm, E. assert (n = m) as ->; [|done]. rewrite E in Ln. lia.
Qed.

Lemma nanoFraction_inj a b : nanoFraction a = nanoFraction b -> decimals 9 a "" = decimals 9 b "".
Proof.
  intros E. apply trimRight_length; [|by rewrite !length_decimals]. unfold nanoFraction in E. cbv zeta in E.
  destruct (String.eqb_spec (trimRight isZeroDigit (decimals 9 a "")) ""), (String.eqb_spec (trimRight isZeroDigit (decimals 9 b "")) "");
    try congruence; try (by cbn in E); change ("." +:+ ?x) with (String "." x) in E; congruence.
Qed.

(** The fields of an instant, in range. *)
Lemma civil_range t : 0 <= t < year10000 ->
  let '(y, m, d) := civil (t / Day) in 0 <= y < 10000 /\ 0 <= m < 100 /\ 0 <= d < 100.
Proof.
  intros Ht. assert (0 <= t / Day < 3652059) as Hd.
  { unfold year10000 in Ht. assert (0 < Day) by done. split; [apply Z.div_pos; lia|apply Z.div_lt_upper_bound; lia]. }
  pose proof (daysOf_civil (t / Day)) as Hc. pose proof (civil_year (t / Day) Hd) as Hy. destruct (civil (t / Day)) as [[y m] d].
  destruct Hc as (Hm & Hdd & _). split_and!; try lia. unfold daysIn, daysInMonth in Hdd. repeat case_match; lia.
Qed.

Lemma clock_range t : let s := t mod Day / Second in 0 <= s / 3600 < 100 /\ 0 <= s / 60 mod 60 < 100 /\ 0 <= s mod 60 < 100.
Proof.
  cbv zeta. pose proof (Z.mod_pos_bound t Day ltac:(done)) as H. change Day with (86400 * Second) in *.
  assert (0 <= t mod (86400 * Second) / Second < 86400) as Hs.
  { assert (0 < Second) by done. split; [apply Z.div_pos; lia|apply Z.div_lt_upper_bound; lia]. }
  split_and!; try apply Z.div_pos; try lia; try (apply Z.div_lt_upper_bound; lia);
    pose proof (Z.mod_pos_bound (t mod (86400 * Second) / Second / 60) 60 ltac:(lia)); pose proof (Z.mod_pos_bound (t mod (86400 * Second) / Second) 60 ltac:(lia)); lia.
Qed.

Lemma formatSeconds_length t : 0 <= t < year10000 -> String.length (formatSeconds t) = 19%nat.
Proof.
  intros Ht. unfold formatSeconds. pose proof (civil_range t Ht) as Hc. pose proof (clock_range t) as Hk. cbv zeta in Hk.
  destruct (civil (t / Day)) as [[y m] d]. cbv zeta. rewrite !appendInt_small by (cbn; lia). by rewrite !length_sapp, !length_decimals.
Qed.

Lemma formatGenTime_split t : formatGenTime t = formatSeconds t +:+ "." +:+ appendInt (t mod Second) 9 +:+ "Z".
Proof. unfold formatGenTime, formatSeconds. destruct (civil (t / Day)) as [[y m] d]. cbv zeta. by rewrite <- !sapp_assoc. Qed.

Lemma nano_small t : 0 <= t mod Second < 10 ^ 9.
Proof. pose proof (Z.mod_pos_bound t Second ltac:(done)). unfold Second in *. lia. Qed.

Lemma formatNano_inj a b : 0 <= a < year10000 -> 0 <= b < year10000 -> formatNano a = formatNano b -> a = b.
Proof.
  intros Ha Hb E. unfold formatNano in E.
  assert (formatSeconds a = formatSeconds b) as Es.
  { pose proof (f_equal (stake 19) E) as H. by rewrite !stake_app in H by by apply formatSeconds_length. }
  assert (nanoFraction (a mod Second) = nanoFraction (b mod Second)) as En.
  { pose proof (f_equal (sdrop 19) E) as H. rewrite !sdrop_app in H by by apply formatSeconds_length. by apply sapp_inj_r in H. }
  apply nanoFraction_inj in En. assert (formatGenTime a = formatGenTime b) as Eg.
  { by rewrite !formatGenTime_split, Es, !appendInt_small, En by apply nano_small. }
  apply (f_equal parseGenTime) in Eg. rewrite !parse_formatGenTime in Eg by done. by injection Eg.
Qed.

(** Instants from 1970 up to the year 10000. *)
Definition keyInstant (t : Time) : bool := (unixToInternal * Second <=? t) && (t <? year10000).

Lemma minuteText_spec t : keyInstant t = true ->
  sforall is_digit (minuteText t) = true /\ minuteText t <> "" /\ digits_value (minuteText t) = (t / Minute) * 60 - unixToInternal.
Proof.
  unfold keyInstant. intros H. boolify. unfold minuteText, Truncate.
  assert (t - t mod Minute = t / Minute * 60 * Second) as -> by (pose proof (Z.div_mod t Minute ltac:(done)); unfold Minute in *; lia).
  assert (unixToInternal <= t / Minute * 60 <= 2 ^ 62) as Hr.
  { unfold unixToInternal, year10000, Day, Hour, Minute, Second in *. Z.to_euclidean_division_equations. lia. }
  rewrite Unix_sane_eq by (rewrite Z.div_mul by done; unfold unixToInternal in Hr; lia). rewrite Z.div_mul by done. apply pretty_numeral. lia.
Qed.

Lemma minuteText_inj a b : keyInstant a = true -> keyInstant b = true -> minuteText a = minuteText b -> a / Minute = b / Minute.
Proof. intros Ha Hb E. destruct (minuteText_spec a Ha) as (_ & _ & Va), (minuteText_spec b Hb) as (_ & _ & Vb). rewrite E in Va. lia. Qed.

(** * Keys *)

Definition NUL : ascii := Ascii.zero.
Definition nul : string := String NUL "".

(** [membership + "\x00" + refresh + "\x00" + era + "\x00" + minute] of [loadStats]. *)
Definition generationText (membership : string) (refresh : Time) (era : string) (at_ : Time) : string :=
  membership +:+ nul +:+ formatNano refresh +:+ nul +:+ era +:+ nul +:+ minuteText at_.
Definition aggregateKey (network generation : string) : string := network +:+ nul +:+ generation.
Definition versionKey (network client layer generation : string) : string :=
  network +:+ nul +:+ ToLower client +:+ nul +:+ layer +:+ nul +:+ generation.

(** The key of a map body. *)
Definition mapKey (network format membership era : string) : string :=
  network +:+ nul +:+ format +:+ nul +:+ membership +:+ nul +:+ era.

(** ** Texts without NUL *)

Abbreviation noNul := (avoids NUL).

Lemma digits_noNul s : sforall is_digit s = true -> noNul s = true.
Proof. apply sforall_impl. intros c Hc. apply negb_true_iff. destruct (Ascii.eqb_spec c NUL) as [->|]; [by vm_compute in Hc|done]. Qed.

Lemma minuteText_noNul t : keyInstant t = true -> noNul (minuteText t) = true.
Proof. intros H. by apply digits_noNul, minuteText_spec. Qed.

Lemma trimRight_sforall p q s : sforall q s = true -> sforall q (trimRight p s) = true.
Proof.
  induction s as [|c s IH]; [done|]. cbn [sforall trimRight]. intros [Hc Hs]%andb_true_iff. specialize (IH Hs).
  destruct (trimRight p s) as [|c' s']; [destruct (p c); [done|]|]; cbn [sforall] in *; by rewrite Hc.
Qed.

Lemma nanoFraction_noNul ns : noNul (nanoFraction ns) = true.
Proof.
  unfold nanoFraction. cbv zeta. destruct (trimRight isZeroDigit (decimals 9 ns "") =? "")%string; [done|]. rewrite sforall_app.
  apply andb_true_iff. split; [done|]. apply trimRight_sforall, digits_noNul, decimals_digits.
Qed.

Lemma formatNano_noNul t : 0 <= t < year10000 -> noNul (formatNano t) = true.
Proof.
  intros Ht. unfold formatNano, formatSeconds. pose proof (civil_range t Ht) as Hc. pose proof (clock_range t) as Hk. cbv zeta in Hk.
  destruct (civil (t / Day)) as [[y m] d]. cbv zeta. rewrite !appendInt_small by (cbn; lia). rewrite !sforall_app.
  rewrite !andb_true_iff. split_and!; first [apply digits_noNul, decimals_digits | apply nanoFraction_noNul | reflexivity].
Qed.

Lemma sapp_nil_l s : "" +:+ s = s.
Proof. done. Qed.

(** A text without NUL and what is cut off before or after it. *)
Lemma nul_first a b s t : noNul a = true -> noNul b = true -> a +:+ nul +:+ s = b +:+ nul +:+ t -> a = b /\ s = t.
Proof.
  revert b. induction a as [|c a IH]; intros [|c' b] Ha Hb.
  - intros [= E]. by split.
  - rewrite ?sapp_nil_l. rewrite sapp_cons. intros [= <- _]. cbn in Hb. done.
  - rewrite ?sapp_nil_l. rewrite sapp_cons. intros [= -> _]. cbn in Ha. done.
  - rewrite !sapp_cons. cbn [sforall] in Ha, Hb. intros [= -> E]. apply andb_true_iff in Ha as [_ Ha], Hb as [_ Hb]. by destruct (IH b Ha Hb E) as [-> ->].
Qed.

Lemma nul_last a b s t : noNul s = true -> noNul t = true -> a +:+ nul +:+ s = b +:+ nul +:+ t -> a = b /\ s = t.
Proof. apply (cut_last NUL). Qed.

Lemma generationText_inj m m' r r' e e' a a' x x' :
  noNul m = true -> noNul m' = true -> noNul e = true -> noNul e' = true -> 0 <= r < year10000 -> 0 <= r' < year10000 ->
  keyInstant a = true -> keyInstant a' = true ->
  x +:+ nul +:+ generationText m r e a = x' +:+ nul +:+ generationText m' r' e' a' ->
  x = x' /\ m = m' /\ r = r' /\ e = e' /\ a / Minute = a' / Minute.
Proof.
  intros Hm Hm' He He' Hr Hr' Ha Ha' E. unfold generationText in E. rewrite !sapp_assoc in E.
  rewrite <- (sapp_assoc _ nul (minuteText a)), <- (sapp_assoc _ nul (minuteText a')) in E.
  apply nul_last in E as [E Ea]; [|by apply minuteText_noNul..].
  rewrite <- (sapp_assoc _ nul e), <- (sapp_assoc _ nul e') in E. apply nul_last in E as [E <-]; [|done..].
  rewrite <- (sapp_assoc _ nul (formatNano r)), <- (sapp_assoc _ nul (formatNano r')) in E.
  apply nul_last in E as [E Er]; [|by apply formatNano_noNul..].
  rewrite <- (sapp_assoc _ nul m), <- (sapp_assoc _ nul m') in E. apply nul_last in E as [-> <-]; [|done..].
  split_and!; [done|done|by apply formatNano_inj|done|by apply minuteText_inj].
Qed.

(** What equal keys of the statistics have in common. *)
Lemma aggregateKey_inj n n' m m' r r' e e' a a' :
  noNul m = true -> noNul m' = true -> noNul e = true -> noNul e' = true -> 0 <= r < year10000 -> 0 <= r' < year10000 ->
  keyInstant a = true -> keyInstant a' = true ->
  aggregateKey n (generationText m r e a) = aggregateKey n' (generationText m' r' e' a') ->
  n = n' /\ m = m' /\ r = r' /\ e = e' /\ a / Minute = a' / Minute.
Proof. apply generationText_inj. Qed.

Lemma versionKey_inj n n' c c' L L' m m' r r' e e' a a' :
  noNul n = true -> noNul n' = true -> noNul L = true -> noNul L' = true ->
  noNul m = true -> noNul m' = true -> noNul e = true -> noNul e' = true -> 0 <= r < year10000 -> 0 <= r' < year10000 ->
  keyInstant a = true -> keyInstant a' = true ->
  versionKey n c L (generationText m r e a) = versionKey n' c' L' (generationText m' r' e' a') ->
  n = n' /\ ToLower c = ToLower c' /\ L = L' /\ m = m' /\ r = r' /\ e = e' /\ a / Minute = a' / Minute.
Proof.
  intros Hn Hn' HL HL' Hm Hm' He He' Hr Hr' Ha Ha' E. unfold versionKey in E.
  set (g := generationText _ _ _ _) in *. set (g' := generationText m' _ _ _) in *.
  assert ((n +:+ nul +:+ ToLower c +:+ nul +:+ L) +:+ nul +:+ g = (n' +:+ nul +:+ ToLower c' +:+ nul +:+ L') +:+ nul +:+ g') as E2 by (by rewrite <- !sapp_assoc).
  apply generationText_inj in E2 as (E3 & -> & -> & -> & Et); [|done..].
  apply nul_first in E3 as [<- E3]; [|done..]. apply nul_last in E3 as [E3 <-]; [|done..]. done.
Qed.

Lemma mapKey_inj n n' f f' m m' e e' :
  noNul n = true -> noNul n' = true -> noNul f = true -> noNul f' = true -> noNul m = true -> noNul m' = true ->
  mapKey n f m e = mapKey n' f' m' e' -> n = n' /\ f = f' /\ m = m' /\ e = e'.
Proof.
  intros Hn Hn' Hf Hf' Hm Hm' E. unfold mapKey in E. apply nul_first in E as [<- E]; [|done..]. apply nul_first in E as [<- E]; [|done..].
  by apply nul_first in E as [<- <-].
Qed.

(** [cmd/api/main.go]: [loadStats], which pairs the aggregate and the version breakdown.

    The two halves come from two caches.  What a cache answers under a key is what some
    request's query returned under that key ([LoadCache.load_shared]); here the caches are
    functions of the attempt and the key, and [aggregateRan] and [versionRan] say what the
    answers rest on. *)

Definition stableGenerationAttempts : Z := 3.

Record cachedVersions := MkCached { cv_byVersion : gmap string Z; cv_generation : Time }.

(** [result.ByVersion = cached.byVersion]. *)
Definition withVersions (s : Stats) (m : gmap string Z) : Stats :=
  MkStats (st_Generation s) (st_ForkEvaluatedAt s) (st_FingerprintWindowSeconds s) (st_SnapshotGeneratedAt s) (st_SnapshotAgeSeconds s)
    (st_WarmingUp s) (st_WarmupEndsAt s) (st_WarmupBasis s) (st_WarmupReasons s) (st_ELIdentified s) (st_CLIdentified s) (st_counts s)
    (st_breakdown s) (st_sets s) m.

Section Load.
Context (lastRefresh : nat -> Time) (aggregates : nat -> string -> result Stats) (versions : nat -> string -> result cachedVersions).
Context (network client layer membership era : string) (at_ : Time).

(** The loop of [loadStats]. *)
Fixpoint loadLoop (fuel attempt : nat) : option (result Stats) :=
  match fuel with
  | O => None
  | S fuel =>
      let generation := generationText membership (lastRefresh attempt) era at_ in
      match aggregates attempt (aggregateKey network generation) with
      | Err e => Some (Err e)
      | Ok result =>
          if (client =? "")%string then Some (Ok result)
          else
            match versions attempt (versionKey network client layer generation) with
            | Err e => Some (Err e)
            | Ok cached =>
                if TEqual (cv_generation cached) (st_Generation result) then Some (Ok (withVersions result (cv_byVersion cached)))
                else if stableGenerationAttempts <=? Z.of_nat attempt + 1 then Some (Ok result)
                else loadLoop fuel (S attempt)
            end
      end
  end.

Definition loadStats : option (result Stats) := loadLoop (Z.to_nat stableGenerationAttempts) 0.
End Load.

(** * What the queries return *)

Lemma stats_generation arrange registry networks state t network membership at_ s :
  StatsForMembershipAt arrange registry networks state t network membership at_ = Ok s ->
  st_Generation s = es_LastRefresh state /\ st_ByVersion s = ∅.
Proof.
  unfold StatsForMembershipAt, rbind. destruct (filter_Validate _) as [[]|]; [|done]. destruct (where_ _ _ _ _) as [[clause args]|]; [|done].
  destruct (currentForkConditionAt _ _ _) as [[cond cargs]|]; [|done]. destruct (chartFingerprintConditionAt at_) as [chart cutoff].
  destruct (flagged _ _ _ _ _) as [rows|]; [|done]. destruct (scanCounts _) as [counts|]; [|done]. by intros [= <-].
Qed.

(** The case of the client filter makes no difference. *)
Section Case.
Context (arrange : forall A, list A -> list A) (registry : list Network) (networks : list string) (normalized : row -> string) (t : table).
Context (Ht : forall r, r ∈ t -> statsRow r = true) (Hok : registry_ok registry) (Hne : "" ∉ networks).

Lemma versions_rows_of network client layer membership at_ clause args :
  let f := membershipFilter network client layer membership "current" true at_ in
  let (chart, cutoff) := chartFingerprintConditionAt at_ in
  filter_Validate f = Ok tt -> where_ registry at_ f networks = Ok (clause, args) ->
  selectRows (appendWhereCondition clause chart) (args ++ [VInt cutoff]) t =
  Some (List.filter (fun r => filter_keeps registry at_ f networks r && chartedRow at_ r) t).
Proof using Ht Hok Hne.
  intros f. destruct (chartFingerprintConditionAt at_) as [chart cutoff] eqn:E. intros Hv Hw. apply selectRows_filter. intros r Hr.
  pose proof (statsRow_typed r (Ht r Hr)) as Hty. pose proof (where_keeps registry at_ _ networks r clause args Hty Hv Hne Hok Hw) as Hk.
  destruct (chart_selects r Hty at_ chart cutoff E) as (v & Hv' & Hst). rewrite <- Hst.
  pose proof (keeps_row_and r clause args _ chart _ v Hk Hv') as Ha. unfold strict. by destruct clause.
Qed.

Lemma ToLower_given a b : ToLower a = ToLower b -> given a = given b.
Proof using. destruct a, b; done. Qed.

Lemma versions_case network client client' layer membership at_ :
  ToLower client = ToLower client' ->
  VersionsForMembershipAt arrange registry networks normalized t network client layer membership at_ =
  VersionsForMembershipAt arrange registry networks normalized t network client' layer membership at_.
Proof using Ht Hok Hne.
  intros Hc. unfold VersionsForMembershipAt, rbind.
  set (f := membershipFilter network client layer membership "current" true at_).
  set (f' := membershipFilter network client' layer membership "current" true at_).
  change (filter_Validate f') with (filter_Validate f). destruct (filter_Validate f) as [[]|] eqn:Ev; [|done].
  pose proof (versions_rows_of network client layer membership at_) as H1. pose proof (versions_rows_of network client' layer membership at_) as H2.
  fold f in H1. fold f' in H2. cbv zeta in H1, H2.
  assert (match where_ registry at_ f networks, where_ registry at_ f' networks with Ok _, Ok _ => True | Err e, Err e' => e = e' | _, _ => False end) as Hw.
  { unfold where_, rbind. change (forkParts registry f' (if IsZero (f_ForkAt f') then at_ else f_ForkAt f') networks)
      with (forkParts registry f (if IsZero (f_ForkAt f) then at_ else f_ForkAt f) networks). by destruct (forkParts _ _ _ _). }
  destruct (where_ registry at_ f networks) as [[clause args]|e], (where_ registry at_ f' networks) as [[clause' args']|e']; try done; [|by subst].
  destruct (chartFingerprintConditionAt at_) as [chart cutoff]. rewrite (H1 clause args Ev eq_refl), (H2 clause' args' Ev eq_refl).
  rewrite (filter_ext_list _ (fun r => filter_keeps registry at_ f' networks r && chartedRow at_ r)); [done|].
  intros r _. f_equal. unfold filter_keeps, simple_keeps, fork_keeps, readiness_keeps, search_keeps, f, f', membershipFilter.
  cbn [f_Network f_Client f_ClientExact f_Country f_OS f_Layer f_Protocol f_IPStack f_Hosting f_Dialable f_ForkStatus f_Membership f_Identified
    f_Sync f_Readiness f_IP f_Q f_CGCMin f_CGCMax f_ForkAt]. by rewrite Hc, (ToLower_given _ _ Hc).
Qed.
End Case.

(** * What an answer rests on *)

(** A request the handler lets through, its texts without NUL and its time in range. *)
Definition statsRequest (network layer membership era : string) (at_ : Time) : bool :=
  noNul network && noNul layer && noNul membership && noNul era && keyInstant at_.
Definition keyRefresh (t : Time) : bool := (0 <=? t) && (t <? year10000).

Section Answers.
Context (arrange : forall A, list A -> list A) (registry : list Network) (networks : list string) (normalized : row -> string).
Context (tables : Time -> table).

(** An answer under a key is what the query of some request with that key returned, on the
    table served after some refresh. *)
Definition aggregateRan (key : string) (s : Stats) : Prop :=
  exists network layer membership era at_ refresh state, statsRequest network layer membership era at_ = true /\ keyRefresh refresh = true /\
    key = aggregateKey network (generationText membership refresh era at_) /\
    StatsForMembershipAt arrange registry networks state (tables (es_LastRefresh state)) network membership at_ = Ok s.
Definition versionRan (key : string) (c : cachedVersions) : Prop :=
  exists network client layer membership era at_ refresh, statsRequest network layer membership era at_ = true /\ keyRefresh refresh = true /\
    key = versionKey network client layer (generationText membership refresh era at_) /\
    VersionsForMembershipAt arrange registry networks normalized (tables (cv_generation c)) network client layer membership at_ = Ok (cv_byVersion c).

(** One half of an answer, for this request: the same minute, and the table of a refresh. *)
Definition aggregateFor (network membership : string) (at_ : Time) (s : Stats) : Prop :=
  exists state at1, at1 / Minute = at_ / Minute /\ st_Generation s = es_LastRefresh state /\
    StatsForMembershipAt arrange registry networks state (tables (st_Generation s)) network membership at1 = Ok s.
Definition versionsFor (network client layer membership : string) (at_ : Time) (generation : Time) (m : gmap string Z) : Prop :=
  exists at2, at2 / Minute = at_ / Minute /\
    VersionsForMembershipAt arrange registry networks normalized (tables generation) network client layer membership at2 = Ok m.

Lemma statsRequest_parts network layer membership era at_ : statsRequest network layer membership era at_ = true ->
  noNul network = true /\ noNul layer = true /\ noNul membership = true /\ noNul era = true /\ keyInstant at_ = true.
Proof using. unfold statsRequest. intros H. by repeat (apply andb_true_iff in H as [H ?]). Qed.
Lemma keyRefresh_range t : keyRefresh t = true -> 0 <= t < year10000.
Proof using. unfold keyRefresh. intros H. boolify. lia. Qed.

Lemma aggregateRan_of network layer membership era at_ refresh s :
  statsRequest network layer membership era at_ = true -> keyRefresh refresh = true ->
  aggregateRan (aggregateKey network (generationText membership refresh era at_)) s -> aggregateFor network membership at_ s.
Proof using.
  intros (Hn & HL & Hm & He & Ha)%statsRequest_parts Hr%keyRefresh_range
    (n & L & m & e & a & r & state & (Hn' & HL' & Hm' & He' & Ha')%statsRequest_parts & Hr'%keyRefresh_range & E & Hs).
  apply aggregateKey_inj in E as (-> & -> & _ & _ & Et); [|done..]. exists state, a. destruct (stats_generation _ _ _ _ _ _ _ _ _ Hs) as [Hg _].
  by rewrite Hg.
Qed.

Lemma versionRan_of network client layer membership era at_ refresh c :
  (forall g r, r ∈ tables g -> statsRow r = true) -> registry_ok registry -> "" ∉ networks ->
  statsRequest network layer membership era at_ = true -> keyRefresh refresh = true ->
  versionRan (versionKey network client layer (generationText membership refresh era at_)) c ->
  versionsFor network client layer membership at_ (cv_generation c) (cv_byVersion c).
Proof using.
  intros Ht Hok Hne (Hn & HL & Hm & He & Ha)%statsRequest_parts Hr%keyRefresh_range
    (n & cl & L & m & e & a & r & (Hn' & HL' & Hm' & He' & Ha')%statsRequest_parts & Hr'%keyRefresh_range & E & Hs).
  apply versionKey_inj in E as (-> & Hc & -> & -> & _ & _ & Et); [|done..]. exists a. split; [done|]. rewrite <- Hs.
  apply versions_case; [apply Ht|done|done|done].
Qed.
End Answers.

(** C18.  The halves of a statistics answer belong together.  Whatever texts other requests
    put in their filters and however refreshes fall between the two queries, loading ends
    after at most three attempts, and an answer is the aggregate this request asked for, of
    the minute it asked in; its version breakdown is either empty or the breakdown of this
    client, layer, network and membership, in the same minute, on the very table the
    aggregate was computed from. *)
Theorem stats_paired arrange registry networks normalized tables lastRefresh aggregates versions network client layer membership era at_ :
  (forall g r, r ∈ tables g -> statsRow r = true) -> registry_ok registry -> "" ∉ networks ->
  (forall i key s, aggregates i key = Ok s -> aggregateRan arrange registry networks tables key s) ->
  (forall i key c, versions i key = Ok c -> versionRan arrange registry networks normalized tables key c) ->
  statsRequest network layer membership era at_ = true -> (forall i, keyRefresh (lastRefresh i) = true) ->
  exists r, loadStats lastRefresh aggregates versions network client layer membership era at_ = Some r /\
    forall s, r = Ok s ->
      aggregateFor arrange registry networks tables network membership at_ (withVersions s ∅) /\
      (st_ByVersion s = ∅ \/ client <> "" /\ versionsFor arrange registry networks normalized tables network client layer membership at_ (st_Generation s) (st_ByVersion s)).
Proof.
  intros Ht Hok Hne Hagg Hver Hreq Href.
  assert (forall fuel attempt, (3 <= fuel + attempt)%nat -> (0 < fuel)%nat ->
    exists r, loadLoop lastRefresh aggregates versions network client layer membership era at_ fuel attempt = Some r /\
      forall s, r = Ok s -> aggregateFor arrange registry networks tables network membership at_ (withVersions s ∅) /\
        (st_ByVersion s = ∅ \/ client <> "" /\
         versionsFor arrange registry networks normalized tables network client layer membership at_ (st_Generation s) (st_ByVersion s))) as Hloop.
  2: { apply Hloop; unfold stableGenerationAttempts; lia. }
  induction fuel as [|fuel IH]; intros attempt Hf H0; [lia|]. cbn [loadLoop]. cbv zeta.
  set (generation := generationText membership (lastRefresh attempt) era at_).
  destruct (aggregates attempt (aggregateKey network generation)) as [s|e] eqn:Ea; [|by eexists].
  pose proof (aggregateRan_of arrange registry networks tables network layer membership era at_ _ s Hreq (Href attempt) (Hagg _ _ _ Ea)) as Hs.
  assert (st_ByVersion s = ∅ /\ withVersions s ∅ = s) as [Hv Hself].
  { destruct Hs as (state & at1 & _ & _ & Hq). destruct (stats_generation _ _ _ _ _ _ _ _ _ Hq) as [_ Hv]. split; [done|]. rewrite <- Hv. by destruct s. }
  assert (forall s', Ok s = Ok s' -> aggregateFor arrange registry networks tables network membership at_ (withVersions s' ∅) /\
    (st_ByVersion s' = ∅ \/ client <> "" /\
     versionsFor arrange registry networks normalized tables network client layer membership at_ (st_Generation s') (st_ByVersion s'))) as Hplain.
  { intros s' [= <-]. rewrite Hself. split; [done|by left]. }
  destruct (String.eqb_spec client "") as [|Hc]; [by eexists|].
  destruct (versions attempt _) as [c|e] eqn:Ec; [|by eexists].
  pose proof (versionRan_of arrange registry networks normalized tables network client layer membership era at_ _ c Ht Hok Hne Hreq (Href attempt)
    (Hver _ _ _ Ec)) as Hcv.
  unfold TEqual. destruct (Z.eqb_spec (cv_generation c) (st_Generation s)) as [Eg|].
  - eexists. split; [done|]. intros s' [= <-]. split; [|right; split; [done|by rewrite Eg in Hcv]].
    change (withVersions (withVersions s (cv_byVersion c)) ∅) with (withVersions s ∅). by rewrite Hself.
  - destruct (Z.leb_spec stableGenerationAttempts (Z.of_nat attempt + 1)); [by eexists|]. unfold stableGenerationAttempts in *. apply IH; lia.
Qed.
