(* ===== verification/Api.v ===== *)
(** [cmd/api/main.go]: the handlers, as functions from a request and what the engine and
    the caches return to a response.

    A query string is the function [url.Values.Get].  A JSON body is the value that is
    encoded; [isCanceled] stands for [errors.Is(err, context.Canceled)].  What the
    handlers promise follows the definitions. *)

From stdpp Require Import base gmap strings list numbers pretty sorting.
From Stdlib Require Import ZArith Lia Ascii.
From S2P Require Import Prelude GoLib Counting Hashes Consensus ForkId Network Readiness NodeData Text Clientname Releases Sql Query.
From S2P Require Import QueryMirror QueryWhere History ForkReadiness Calendar Snapshot Stats StatsProps StatsServed ApiStats.
#[local] Open Scope Z_scope.

(** * Responses *)

Inductive field := FText (s : string) | FInt (z : Z) | FTexts (l : list string).

Inductive apiReply :=
| Fields (l : list (string * field))
| NodesReply (r : NodesResult)
| NodeReply (n : QNode)
| StatsReply (s : Stats)
| Bytes (b : string)
| NoBody.

Record Response := MkResponse { rs_Code : Z; rs_Headers : list (string * string); rs_Reply : apiReply }.

Definition contentJSON : string * string := ("Content-Type", "application/json").
Definition writeJSON (code : Z) (r : apiReply) : Response := MkResponse code [contentJSON] r.
Definition errorReply (e : string) : apiReply := Fields [("error", FText e)].
Definition writeClientErr (e : string) : Response := writeJSON 400 (errorReply e).

Definition withCORS (origin method : string) (next : Response) : Response :=
  if given origin then
    let headers := [("Access-Control-Allow-Origin", origin); ("Access-Control-Allow-Methods", "GET, POST, OPTIONS")] in
    if (method =? "OPTIONS")%string then MkResponse 204 headers NoBody else MkResponse (rs_Code next) (headers ++ rs_Headers next) (rs_Reply next)
  else next.

Definition securityHeaders (next : Response) : Response :=
  MkResponse (rs_Code next)
    ([("Content-Security-Policy", "default-src 'none'; frame-ancestors 'none'"); ("Permissions-Policy", "camera=(), geolocation=(), microphone=()");
      ("Referrer-Policy", "no-referrer"); ("X-Content-Type-Options", "nosniff"); ("X-Frame-Options", "DENY")] ++ rs_Headers next) (rs_Reply next).

(** * Parameters *)

(** [strconv.Atoi]. *)
Definition Atoi (s : string) : option Z :=
  let signed (sign : Z) (s : string) :=
    if all_digits s && (min_int64 <=? sign * digits_value s) && (sign * digits_value s <=? max_int64) then Some (sign * digits_value s) else None in
  match s with
  | String c s' => if (c =? "-")%char then signed (-1) s' else if (c =? "+")%char then signed 1 s' else signed 1 s
  | EmptyString => None
  end.

Definition parseIntParam (s : string) (def min max : Z) : result Z :=
  if (s =? "")%string then Ok def
  else match Atoi s with
       | Some n => if (n <? min) || (max <? n) then Err "integer parameter must be between %d and %d" else Ok n
       | None => Err "integer parameter must be between %d and %d"
       end.

Definition nodeQueryLimits : list (string * Z) :=
  [("client", 128); ("country", 16); ("os", 64); ("ip", 64); ("q", 1024); ("cgc_min", 10); ("cgc_max", 10)].

Definition validateNetwork (network : string) (known : list string) : result unit :=
  if negb (network =? "")%string && negb (contains_func (String.eqb network) known) then Err "unknown network %q" else Ok tt.

Definition nodeFilter (q : string -> string) (known : list string) : result Filter :=
  let! _ := validateNetwork (q "network") known in
  if existsb (fun x => x.2 <? slen (q x.1)) nodeQueryLimits then Err "%s filter too long"
  else
    let! limit := parseIntParam (q "limit") 100 1 1000 in
    let! offset := parseIntParam (q "offset") 0 0 1000000 in
    let clientExact := q "client_exact" in
    if negb (clientExact =? "")%string && negb (clientExact =? "yes")%string then Err "invalid client_exact %q"
    else
      let f := MkFilter (q "network") (q "client") (clientExact =? "yes")%string (q "country") (q "os") (q "layer") (q "protocol") (q "ipstack")
                 (q "hosting") (q "dialable") (q "fork") (q "membership") (q "identified") (q "sync") (q "readiness") (q "ip") (q "q")
                 (q "cgc_min") (q "cgc_max") (q "sort") (q "order") limit offset zeroTime in
      let! _ := filter_Validate f in Ok f.

(** * Validators and lifetimes *)

Definition quote : string := String (ascii_of_nat 34) "".

Definition mapETag (key body : string) : string := quote +:+ "map-" +:+ hex_encode (sha256 (key +:+ nul +:+ body)) +:+ quote.

Definition etagMatches (header etag : string) : bool :=
  let want := TrimPrefix etag "W/" in
  existsb (fun part => let part := TrimSpace part in (part =? "*")%string || (TrimPrefix part "W/" =? want)%string) (split_on "," "" header).

(** The two numbers of a [Cache-Control]: seconds of freshness, and whether a stale body
    may still be used for a minute. *)
Definition cacheLifetime (at_ nextTransition : Time) (maxAge : Z) : Z * bool :=
  let maxAge :=
    if IsZero nextTransition then maxAge
    else
      let remaining := Sub nextTransition at_ in
      if remaining <=? 0 then 0
      else let seconds := godiv remaining Second in if seconds <? maxAge then seconds else maxAge in
  (maxAge, IsZero nextTransition || ((maxAge + 60) * Second <=? Sub nextTransition at_)).

Definition cacheControlUntil (at_ nextTransition : Time) (maxAge : Z) : string :=
  let (maxAge, stale) := cacheLifetime at_ nextTransition maxAge in
  "public, max-age=" +:+ pretty maxAge +:+ (if stale then ", stale-while-revalidate=60" else "").

(** * Map bodies *)

(** One row of [compactMap]. *)
Definition compactPoint (p : Point) : list value :=
  let r := pt_row p in
  let id := textOf (r "id") in
  let boolInt (b : bool) := VInt (if b then 1 else 0) in
  [VText (if 16 <? slen id then stake 16 id else id); r "lon"; r "lat"; VText (pt_Client p); r "country"; r "city"; r "layer"; boolInt (boolOf (r "hosting"));
   boolInt (pt_IPv6 p); boolInt (pt_Verified p); VInt (pt_AccuracyKM p); sql_coalesce (r "subdivision") (VText ""); VInt (pt_CGC p)].

(** The coordinates and properties of a feature of [geoJSON]. *)
Definition geoFeature (p : Point) : (value * value) * list (string * value) :=
  let r := pt_row p in
  ((r "lon", r "lat"),
   [("id", r "id"); ("client", VText (pt_Client p)); ("network", r "network"); ("country", r "country"); ("city", r "city");
    ("subdivision", sql_coalesce (r "subdivision") (VText "")); ("layer", r "layer"); ("hosting", r "hosting"); ("ipv6", VBool (pt_IPv6 p));
    ("verified", VBool (pt_Verified p)); ("accuracy_km", VInt (pt_AccuracyKM p)); ("cgc", VInt (pt_CGC p))]).

Inductive mapPoints := Compact (points : list (list value)) | GeoJSON (features : list ((value * value) * list (string * value))).
(** A body with the keys of [withMapCoverage]. *)
Record MapBody := MkMapBody { mb_points : mapPoints; mb_returned : Z; mb_total : Z; mb_truncated : bool }.
Definition withMapCoverage (points : mapPoints) (returned total : Z) : MapBody := MkMapBody points returned total (returned <? total).

(** The map loader: [marshal] is [json.Marshal]. *)
Definition mapBody (marshal : MapBody -> result string) (format : string) (loaded : result (list Point * Z)) : result string :=
  let! (pts, total) := loaded in
  let points := if (format =? "compact")%string then Compact (map compactPoint pts) else GeoJSON (map geoFeature pts) in
  marshal (withMapCoverage points (Z.of_nat (length pts)) total).

(** * Handlers *)

Section Handlers.
Context (isCanceled : string -> bool) (known : list string).

Definition writeErr (e : string) : Response :=
  if isCanceled e then writeJSON 499 (errorReply "client closed request") else writeJSON 500 (errorReply "internal server error").

Definition ageSince (now g : Time) : Duration := let age := Sub now g in if age <? 0 then 0 else age.
Definition snapshotAge (now : Time) (state : State) : option Duration :=
  if IsZero (es_GeneratedAt state) then None else Some (ageSince now (es_GeneratedAt state)).

Definition livez : Response := writeJSON 200 (Fields [("status", FText "ok")]).

Definition readyz (now : Time) (state : State) (maxAge : Duration) : Response :=
  match snapshotAge now state with
  | None => writeJSON 503 (Fields [("status", FText "no snapshot")])
  | Some age =>
      if maxAge <? age then writeJSON 503 (Fields [("status", FText "stale"); ("age_seconds", FInt (wholeSeconds age))])
      else writeJSON 200 (Fields [("status", FText "ok"); ("age_seconds", FInt (wholeSeconds age))])
  end.

(** [time.RFC3339] of a UTC instant. *)
Definition formatRFC3339 (t : Time) : string := formatSeconds t +:+ "Z".
Definition generatedFields (now : Time) (state : State) : list (string * field) :=
  let g := es_GeneratedAt state in
  if IsZero g then [] else [("generated_at", FText (formatRFC3339 g)); ("age_seconds", FInt (wholeSeconds (ageSince now g)))].

Definition healthz (now : Time) (state : State) : Response :=
  writeJSON 200 (Fields ([("status", FText "ok"); ("nodes", FInt (es_Loaded state))] ++ generatedFields now state)).

Definition textField (name value : string) : list (string * field) := if (value =? "")%string then [] else [(name, FText value)].
Definition timeField (name : string) (t : Time) : list (string * field) := if IsZero t then [] else [(name, FText (formatNano t))].

Definition meta (revision sourceURL : string) (networks : list string) (now : Time) (state : State) : Response :=
  let run := es_Run state in
  let rev := if (ru_SourceRevision run =? "")%string then revision else ru_SourceRevision run in
  let url := if (ru_SourceURL run =? "")%string then sourceURL else ru_SourceURL run in
  writeJSON 200 (Fields (
    [("nodes", FInt (es_Loaded state)); ("networks", FTexts networks); ("schema_version", FInt (es_SchemaVersion state));
     ("source_revision", FText rev); ("source_url", FText url); ("crawler_id", FText (es_CrawlerID state))]
    ++ textField "run_id" (ru_RunID run) ++ textField "methodology_version" (ru_MethodologyVersion run)
    ++ textField "methodology_id" (ru_MethodologyID run) ++ textField "config_sha256" (ru_ConfigSHA256 run) ++ textField "image_digest" (ru_ImageDigest run)
    ++ timeField "crawler_started_at" (ru_CrawlerStartedAt run) ++ timeField "methodology_started_at" (ru_MethodologyStartedAt run)
    ++ generatedFields now state)).

Definition nodesHandler (nodes : Filter -> result NodesResult) (q : string -> string) : Response :=
  match nodeFilter q known with
  | Err e => writeClientErr e
  | Ok f => match nodes f with Err e => writeErr e | Ok res => writeJSON 200 (NodesReply res) end
  end.

Definition nodeHandler (nodeByKey : string -> result (option QNode)) (key : string) : Response :=
  if (key =? "")%string || (8192 <? slen key) then writeClientErr "invalid node key"
  else match nodeByKey key with
       | Err e => writeErr e
       | Ok None => writeJSON 404 (errorReply "not found")
       | Ok (Some n) => writeJSON 200 (NodeReply n)
       end.

Definition forkEra (registry : list Network) (at_ : Time) (network : string) : result (string * Time) :=
  if (network =? "")%string then ForkEraTokenAt registry at_ [] else ForkEraTokenAt registry at_ [network].

(** [load] is [loadStats] with its caches. *)
Definition statsHandler (registry : list Network) (at_ : Time) (load : string -> string -> string -> string -> string -> Time -> result Stats)
    (q : string -> string) : Response :=
  match validateNetwork (q "network") known with
  | Err e => writeClientErr e
  | Ok _ =>
      if 128 <? slen (q "client") then writeClientErr "client filter too long"
      else
        let client := TrimSpace (q "client") in
        let layer := q "layer" in
        let membership := q "membership" in
        match filter_Validate (membershipFilter "" "" layer membership "" false zeroTime) with
        | Err e => writeClientErr e
        | Ok _ =>
            match forkEra registry at_ (q "network") with
            | Err e => writeErr e
            | Ok (era, _) =>
                match load (q "network") client layer membership era at_ with
                | Err e => writeErr e
                | Ok s => MkResponse 200 [contentJSON] (StatsReply s)
                end
            end
        end
  end.

(** [load] is [mapCache.load] with the loader of these parameters. *)
Definition mapHandler (registry : list Network) (at_ refreshedAt : Time) (load : string -> Time -> string -> string -> string -> result (string * string))
    (q : string -> string) (ifNoneMatch : string) : Response :=
  let network := q "network" in
  match validateNetwork network known with
  | Err e => writeClientErr e
  | Ok _ =>
      let format := q "format" in
      if negb (format =? "")%string && negb (format =? "compact")%string then writeClientErr "format must be compact when set"
      else
        let membership := q "membership" in
        match filter_Validate (membershipFilter "" "" "" membership "" false zeroTime) with
        | Err e => writeClientErr e
        | Ok _ =>
            match forkEra registry at_ network with
            | Err e => writeErr e
            | Ok (era, nextTransition) =>
                match load (mapKey network format membership era) refreshedAt network format membership with
                | Err e => writeErr e
                | Ok (body, etag) =>
                    let headers := [("Cache-Control", cacheControlUntil at_ nextTransition 300); ("ETag", etag)] in
                    if etagMatches ifNoneMatch etag then MkResponse 304 headers NoBody
                    else MkResponse 200 (headers ++ [contentJSON]) (Bytes body)
                end
            end
        end
  end.

(** ** Fork readiness *)

Definition forksMaxAge : Z := 60.

Definition phaseText (p : Phase) : string :=
  match p with PhaseNone => "none" | PhaseScheduled => "scheduled" | PhaseActivated => "activated" | PhaseCancelled => "cancelled" end.

(** The key of a readiness body and of a history. *)
Definition forksKey (network : string) (refresh : Time) (era : string) (at_ : Time) (target : ForkTarget) (generation : Z) : string :=
  network +:+ nul +:+ formatNano refresh +:+ nul +:+ era +:+ nul +:+ minuteText at_ +:+ nul +:+ ft_Name target +:+ nul +:+
  phaseText (target_Phase target) +:+ nul +:+ pretty generation.
Definition historyKey (network : string) (fork : ForkTarget) (at_ : Time) : string :=
  network +:+ nul +:+ ft_Name fork +:+ nul +:+ pretty (Unix (Truncate at_ (ReadinessIntervalAt at_ (Activation fork)))).

(** When the tracked fork stops being tracked, no era boundary marks it. *)
Definition trackedUntil (target : ForkTarget) (nextTransition : Time) : Time :=
  if phase_eqb (target_Phase target) PhaseActivated then
    let end_ := Add (Activation target) ForkTrackingGrace in
    if IsZero nextTransition || Before end_ nextTransition then end_ else nextTransition
  else nextTransition.

Definition forksHandler (registry : list Network) (at_ refreshedAt : Time) (generation : Z) (load : string -> string -> Time -> result string)
    (q : string -> string) : Response :=
  let network := q "network" in
  if (network =? "")%string then writeClientErr "network is required"
  else
    match validateNetwork network known with
    | Err e => writeClientErr e
    | Ok _ =>
        match forkEra registry at_ network with
        | Err e => writeErr e
        | Ok (era, nextTransition) =>
            match ForkTargetAt registry network at_ with
            | Err e => writeErr e
            | Ok target =>
                match load (forksKey network refreshedAt era at_ target generation) network at_ with
                | Err e => writeErr e
                | Ok body => MkResponse 200 [("Cache-Control", cacheControlUntil at_ (trackedUntil target nextTransition) forksMaxAge); contentJSON] (Bytes body)
                end
            end
        end
    end.

(** The loader of a readiness body: a history that cannot be read is left out. *)
Definition forksBody {A} (report : result A) (tracked : A -> bool) (history : A -> result (option ReadinessHistory))
    (withHistory : A -> option ReadinessHistory -> A) (marshal : A -> result string) : result string :=
  let! r := report in
  let r := if tracked r then match history r with Ok h => withHistory r h | Err _ => r end else r in
  marshal r.

(** What a request asks for, and the handler behind it with the middleware around it. *)
Definition withMiddleware (cors method : string) (handler : Response) : Response := securityHeaders (withCORS cors method handler).
End Handlers.

(** What the handlers promise: a query string becomes one validated, bounded filter or a
    refusal; a cached answer is not fresh beyond the fork era it was made in; and a
    validator a client sends back is recognised. *)

(** * Lifetimes *)

Lemma Sub_le t u d : 0 < d -> d <= Sub t u -> d <= t - u.
Proof. unfold Sub. intros. unfold minDuration, min_int64 in *. lia. Qed.

(** Seconds of freshness, and a minute more of staleness, end before the transition. *)
Lemma cacheLifetime_bound at_ next maxAge :
  0 <= maxAge -> let (n, stale) := cacheLifetime at_ next maxAge in
  0 <= n <= maxAge /\ (next = 0 \/ n = 0 /\ stale = false \/ at_ + (n + (if stale then 60 else 0)) * Second <= next).
Proof.
  intros Hm. unfold cacheLifetime, IsZero. destruct (Z.eqb_spec next 0) as [->|Hn]; [split; [lia|by left]|].
  set (n := if Sub next at_ <=? 0 then 0 else _). assert (0 <= n <= maxAge /\ (n = 0 \/ n * Second <= Sub next at_)) as [Hr Hb].
  { unfold n. destruct (Z.leb_spec (Sub next at_) 0); [lia|]. unfold godiv. rewrite Z.quot_div_nonneg by (unfold Second; lia).
    pose proof (Z.div_mod (Sub next at_) Second ltac:(done)) as Hd. pose proof (Z.mod_pos_bound (Sub next at_) Second ltac:(done)) as Hmod.
    assert (0 <= Sub next at_ / Second) by (apply Z.div_pos; [lia|done]). unfold Second in *. destruct (Z.ltb_spec (Sub next at_ / 1000000000) maxAge); lia. }
  split; [done|]. right. cbn [orb]. destruct (Z.leb_spec ((n + 60) * Second) (Sub next at_)) as [Hs|Hs].
  - right. assert (0 < (n + 60) * Second) as Hpos by (unfold Second; lia). pose proof (Sub_le _ _ _ Hpos Hs). lia.
  - destruct (decide (n = 0)) as [E|E]; [by left|]. right. destruct Hb as [|Hb]; [done|].
    assert (0 < n * Second) as Hpos by (unfold Second; lia). pose proof (Sub_le _ _ _ Hpos Hb). lia.
Qed.

(** C31.  A cached answer does not outlive its fork era.  For any network, or all of them,
    and any instant of any valid registry, a response made under an era token carries a
    lifetime of at most the maximum, and at every instant at which a cache may still use it,
    the minute of staleness included, the era token is the one it was made under. *)
Theorem cache_within_era registry network at_ era next maxAge b :
  (forall n, n ∈ registry -> era_ok n) -> instant_ok at_ = true -> instant_ok b = true -> 0 <= maxAge ->
  forkEra registry at_ network = Ok (era, next) ->
  let (n, stale) := cacheLifetime at_ next maxAge in
  0 <= n <= maxAge /\
  (at_ <= b < at_ + (n + (if stale then 60 else 0)) * Second -> exists next', forkEra registry b network = Ok (era, next')).
Proof.
  intros Hreg Ha Hb Hm He. pose proof (cacheLifetime_bound at_ next maxAge Hm) as H. destruct (cacheLifetime at_ next maxAge) as [n stale].
  destruct H as [Hr H]. split; [done|]. intros Hin. unfold forkEra in *.
  destruct (network =? "")%string; eapply (ForkEraTokenAt_stable registry at_ b); try done; try lia;
    (destruct H as [->|[[-> ->]|H]]; [by left|lia|right; lia]).
Qed.

(** * Validators *)

Lemma hex_avoids c s : (forall v, 0 <= v < 16 -> (hex_digit v =? c)%char = false) -> avoids c (hex_encode s) = true.
Proof.
  intros H. induction s as [|x s IH]; [done|]. cbn [hex_encode sforall]. pose proof (byte_val_range x).
  rewrite !H, IH; [done|..]; split; try apply Z.mod_pos_bound; try apply Z.div_pos; try apply Z.div_lt_upper_bound; lia.
Qed.

Lemma hex_comma s : avoids "," (hex_encode s) = true.
Proof.
  apply hex_avoids. intros v Hv. assert (forallb (fun v => negb (hex_digit v =? ",")%char) (seqZ 0 16) = true) as Hall by (vm_compute; reflexivity).
  apply negb_true_iff, (proj1 (forallb_forall _ _) Hall), list_elem_of_In, elem_of_seqZ. lia.
Qed.

Lemma mapETag_comma key body : avoids "," (mapETag key body) = true.
Proof. unfold mapETag. by rewrite !sforall_app, hex_comma. Qed.

(** Equal validators of one key mean equal digests of the bodies. *)
Lemma mapETag_digest key body body' : mapETag key body = mapETag key body' -> sha256 (key +:+ nul +:+ body) = sha256 (key +:+ nul +:+ body').
Proof.
  unfold mapETag. intros E. apply (f_equal (sdrop 5)) in E.
  assert (forall x, sdrop 5 (quote +:+ "map-" +:+ x) = x) as H by reflexivity. rewrite !H in E. apply sapp_inj_r in E. by apply (inj hex_encode).
Qed.

(** A header is the list of its validators. *)
Lemma etagMatches_list parts etag :
  parts <> [] -> Forall (fun p => avoids "," p = true) parts ->
  etagMatches (sjoin "," parts) etag = true <->
  exists p, p ∈ parts /\ (TrimSpace p = "*" \/ TrimPrefix (TrimSpace p) "W/" = TrimPrefix etag "W/").
Proof.
  intros Hne Hf. unfold etagMatches. rewrite split_sjoin by done. rewrite existsb_exists. cbv zeta. split; intros (p & Hp & H); exists p.
  - apply list_elem_of_In in Hp. split; [done|]. apply orb_true_iff in H as [H|H]; apply String.eqb_eq in H; auto.
  - apply list_elem_of_In in Hp. split; [done|]. apply orb_true_iff. destruct H as [H|H]; [left|right]; by apply String.eqb_eq.
Qed.

(** A client revalidates a map without downloading it again.  When a map is served for
    a request, the same request answers [304] with no body exactly when the client's list of
    validators has ["*"] or the served one, weak or strong and with any blanks; both
    answers carry the validator and the lifetime, and two bodies under one key share a
    validator only if their digests collide. *)
Theorem map_revalidates isCanceled known registry at_ refreshedAt body q parts :
  let load key (_ : Time) (_ _ _ : string) := Ok (body, mapETag key body) in
  let resp := mapHandler isCanceled known registry at_ refreshedAt load q (sjoin "," parts) in
  parts <> [] -> Forall (fun p => avoids "," p = true) parts -> rs_Code resp = 200 \/ rs_Code resp = 304 ->
  exists era next,
    forkEra registry at_ (q "network") = Ok (era, next) /\
    let etag := mapETag (mapKey (q "network") (q "format") (q "membership") era) body in
    (rs_Code resp = 304 <-> exists p, p ∈ parts /\ (TrimSpace p = "*" \/ TrimPrefix (TrimSpace p) "W/" = etag)) /\
    rs_Reply resp = (if (rs_Code resp =? 304) then NoBody else Bytes body) /\
    ("ETag", etag) ∈ rs_Headers resp /\ ("Cache-Control", cacheControlUntil at_ next 300) ∈ rs_Headers resp /\
    forall body', mapETag (mapKey (q "network") (q "format") (q "membership") era) body' = etag ->
      let key := mapKey (q "network") (q "format") (q "membership") era in sha256 (key +:+ nul +:+ body') = sha256 (key +:+ nul +:+ body).
Proof.
  intros load resp Hne Hf Hcode. unfold resp, mapHandler in *. cbv zeta in *.
  destruct (validateNetwork (q "network") known); [|by destruct Hcode]. destruct (negb _ && negb _); [by destruct Hcode|].
  destruct (filter_Validate _) as [[]|]; [|by destruct Hcode].
  destruct (forkEra registry at_ (q "network")) as [[era next]|e]; [|by unfold writeErr in Hcode; destruct (isCanceled e), Hcode].
  exists era, next. split; [done|]. unfold load. set (key := mapKey _ _ _ era).
  assert (TrimPrefix (mapETag key body) "W/" = mapETag key body) as Hw by reflexivity.
  pose proof (etagMatches_list parts (mapETag key body) Hne Hf) as Hm. rewrite Hw in Hm.
  split_and!.
  - rewrite <- Hm. by destruct (etagMatches _ _).
  - by destruct (etagMatches _ _).
  - destruct (etagMatches _ _); cbn; set_solver.
  - destruct (etagMatches _ _); cbn; set_solver.
  - intros body' E. by apply mapETag_digest.
Qed.

(** * Node lists *)

Lemma parseIntParam_spec s def min max n :
  min <= def <= max -> parseIntParam s def min max = Ok n -> min <= n <= max /\ (if (s =? "")%string then n = def else Atoi s = Some n).
Proof.
  intros Hd. unfold parseIntParam. destruct (s =? "")%string; [by intros [= <-]|]. destruct (Atoi s) as [m|]; [|done].
  destruct ((m <? min) || (max <? m)) eqn:E; [done|]. intros [= <-]. apply orb_false_iff in E as [E1 E2]. boolify. split; [lia|done].
Qed.

(** What a filter the handler lets through says. *)
Lemma nodeFilter_spec q known f : nodeFilter q known = Ok f ->
  (q "network" = "" \/ q "network" ∈ known) /\ (forall name limit, (name, limit) ∈ nodeQueryLimits -> slen (q name) <= limit) /\
  filter_Validate f = Ok tt /\ 1 <= f_Limit f <= 1000 /\ 0 <= f_Offset f <= 1000000 /\ f_ForkAt f = zeroTime /\
  (if (q "limit" =? "")%string then f_Limit f = 100 else Atoi (q "limit") = Some (f_Limit f)) /\
  (if (q "offset" =? "")%string then f_Offset f = 0 else Atoi (q "offset") = Some (f_Offset f)) /\
  f_Network f = q "network" /\ f_Client f = q "client" /\ f_Country f = q "country" /\ f_Layer f = q "layer" /\ f_IP f = q "ip" /\ f_Q f = q "q" /\
  f_Sort f = q "sort" /\ f_Order f = q "order".
Proof.
  unfold nodeFilter, rbind, validateNetwork.
  destruct (negb (q "network" =? "")%string && negb (contains_func (String.eqb (q "network")) known)) eqn:En; [done|].
  destruct (existsb _ nodeQueryLimits) eqn:El; [done|].
  destruct (parseIntParam (q "limit") 100 1 1000) as [limit|] eqn:Elim; [|done].
  destruct (parseIntParam (q "offset") 0 0 1000000) as [offset|] eqn:Eoff; [|done]. cbv zeta.
  destruct (negb (q "client_exact" =? "")%string && _); [done|]. destruct (filter_Validate _) as [[]|] eqn:Ev; [|done]. intros [= <-].
  apply parseIntParam_spec in Elim as [Hl1 Hl2]; [|lia]. apply parseIntParam_spec in Eoff as [Ho1 Ho2]; [|lia].
  cbn [f_Network f_Client f_Country f_Layer f_IP f_Q f_Sort f_Order f_Limit f_Offset f_ForkAt]. split_and!; try done; try lia.
  - apply andb_false_iff in En as [En|En]; [left; boolify; done|right]. apply negb_false_iff in En. unfold contains_func in En.
    apply existsb_exists in En as (x & Hx & E). apply String.eqb_eq in E as ->. by apply list_elem_of_In.
  - intros name limit' Hin. destruct (Z.le_gt_cases (slen (q name)) limit') as [|Hgt]; [done|]. exfalso.
    assert (existsb (fun x => x.2 <? slen (q x.1)) nodeQueryLimits = true) as H; [|by rewrite El in H].
    apply existsb_exists. exists (name, limit'). split; [by apply list_elem_of_In|]. cbn. lia.
Qed.

Lemma pageOf_self f : pageOf f (f_Limit f) (f_Offset f) = f.
Proof. by destruct f. Qed.

Lemma length_page {A} limit offset (l : list A) : 0 <= limit -> Z.of_nat (length (page limit offset l)) <= limit.
Proof. intros H. unfold page. rewrite length_take. lia. Qed.

Lemma elem_of_page {A} limit offset (l : list A) x : x ∈ page limit offset l -> x ∈ l.
Proof.
  unfold page. intros H. rewrite <- (take_drop (Z.to_nat offset) l), <- (take_drop (Z.to_nat limit) (drop _ l)). apply elem_of_app. right.
  apply elem_of_app. by left.
Qed.

