(* ===== verification/Refresh.v ===== *)
(** [Engine.Refresh] of [internal/query/query.go]: the served table is replaced by the rows
    of one verified manifest, or stays.

    DuckDB's reader of parquet files and its arithmetic on doubles are parameters; the
    statements, the checks and their order are the code's.  A refresh is atomic for
    queries, which hold the publication barrier.  The second half shows that what is
    served is one manifest. *)

From stdpp Require Import base gmap strings list numbers pretty sorting.
From Stdlib Require Import ZArith Lia Ascii Btauto.
From S2P Require Import Prelude GoLib Counting Hashes Consensus ForkId Network Readiness Text Clientname Releases Sql Query QueryMirror.
From S2P Require Import QueryWhere Calendar Snapshot Stats StatsProps StatsServed ApiStats.
#[local] Open Scope Z_scope.

(** [Engine]: the served table and what is known of it. *)
Record Engine := MkEngine { en_table : table; en_state : State; en_manifestID : string }.

(** The columns of the files and their rows, in the order of the files. *)
Class ParquetFiles := { read_parquet : list string -> option (list string * table) }.

(** Doubles: a head carried to the generation time, the median of several, and the rounded
    distance of a projection from it when it can be cast. *)
Class Doubles := {
  Double : Type;
  project : Z -> Z -> Z -> Double;
  median : list Double -> Double;
  distance : Double -> Double -> option Z }.

(** * Building the staging table *)

(** [row_number() OVER (PARTITION BY id ORDER BY last_seen DESC, seq DESC, network ASC) = 1]. *)
Definition newestFirst : list ((row -> value) * bool) :=
  [((fun r => r "last_seen"), true); ((fun r => r "seq"), true); ((fun r => r "network"), false)].
Definition firstPerID (t : table) : table :=
  omap (fun id => head (isort (orderedBy newestFirst) (List.filter (fun r => bool_decide (r "id" = id)) t))) (remove_dups (map (fun r => r "id") t)).

Definition nonzero (c : string) : expr := Ne (Col c) (Int 0).
Definition dialableColumn : expr :=
  Or (And (Ne (Col "ip") (Text "")) (Or (nonzero "tcp") (nonzero "quic")))
     (And (Ne (Col "ip6") (Text "")) (Or (nonzero "tcp6") (Or (nonzero "tcp") (Or (nonzero "quic6") (nonzero "quic"))))).

(** [* EXCLUDE (rn, fp_attempts, fp_next), ... AS dialable]. *)
Definition excluded : list string := ["fp_attempts"; "fp_next"].
Definition without (names : list string) (r : row) : row := fun c => if existsb (String.eqb c) names then VNull else r c.
Definition stagingRow (r : row) : row :=
  withCol (without excluded r) "dialable" (match sql_eval r dialableColumn [] with Some (v, _) => v | None => VNull end).

(** [migrateStagingSchema]: a column the files lack gets its default. *)
Definition migrations : list (string * value) :=
  [("subdivision", VText ""); ("cgc", VInt 0); ("cgc_known", VBool false); ("head", VInt 0); ("head_observed_at", VInt 0);
   ("enr_fork_digest", VText ""); ("enr_next_fork_version", VText ""); ("enr_next_fork_epoch", VInt 0)].
Definition migrateStagingSchema (columns : list string) (r : row) : row :=
  foldl (fun r m => if existsb (String.eqb m.1) columns then r else withCol r m.1 m.2) r migrations.

(** * Sync state *)

Definition syncWindow : Duration := 10 * Minute.
Definition syncMinSamples : Z := 5.
Definition syncMaxLag : Z := 32.

Section Engine.
Context `{Hurl : URLParser} `{Hcodec : ManifestCodec} `{Hfiles : ParquetFiles} `{Hdouble : Doubles}.
Context (registry : list Network) (networks : list string) (layout : Layout).

Definition slots : list (string * Z) := omap (fun n => match SecondsPerSlot registry n with Ok s => Some (n, s) | Err _ => None end) networks.

(** A sample: the projection of a head observed within the window, on a network with slots. *)
Definition sampleOf (at_ : Z) (r : row) : option Double :=
  match r "network", r "head", r "head_observed_at" with
  | VText network, VInt head, VInt observed =>
      match List.find (fun s : string * Z => (s.1 =? network)%string) slots with
      | Some (_, seconds) =>
          if (0 <? head) && (at_ - godiv syncWindow Second <? observed) && (observed <=? at_)
          then Some (project head (at_ - observed) seconds) else None
      | None => None
      end
  | _, _, _ => None
  end.

(** The samples of the network and layer of a row. *)
Definition peers (at_ : Z) (t : table) (r : row) : list Double :=
  omap (fun r' => if bool_decide (r' "network" = r "network") && bool_decide (r' "layer" = r "layer") then sampleOf at_ r' else None) t.

(** [sync_state] and [head_lag] of a row. *)
Definition syncOf (at_ : Z) (t : table) (r : row) : value * value :=
  match sampleOf at_ r, r "layer", r "id" with
  | Some projected, VText _, VText _ =>
      let samples := peers at_ t r in
      if syncMinSamples <=? Z.of_nat (length samples) then
        match distance (median samples) projected with
        | None => (VText "unknown", VNull)
        | Some lag => (VText (if lag <? - syncMaxLag then "unknown" else if syncMaxLag <? lag then "lagging" else "synced"), VInt lag)
        end
      else (VText "unknown", VNull)
  | _, _, _ => (VText "unknown", VNull)
  end.

Definition computeSyncState (generatedAt : Time) (t : table) : table :=
  map (fun r => let (state, lag) := syncOf (Unix generatedAt) t r in withCol (withCol r "sync_state" state) "head_lag" lag) t.

(** * The refresh *)

(** Statements and writes that may fail. *)
Inductive dbStep := LoadStep | MigrateStep | SyncStep | CountStep | SwapStep.

Record RefreshEnv := MkRefreshEnv {
  wo_manifest : Got string; wo_get : string -> Got string; wo_writes : string -> bool; wo_fails : dbStep -> bool; wo_now : Time }.

(** The generations of the configured networks, verified, with the counts they promise. *)
Fixpoint fetch (w : RefreshEnv) (m : Manifest) (nets : list string) : result (list string * gmap string Z) :=
  match nets with
  | [] => Ok ([], ∅)
  | net :: nets =>
      match mf_Networks m !! net with
      | None => Err "manifest has no snapshot for configured network %q"
      | Some ns =>
          match wo_get w (sn_GenerationKey ns) with
          | Found data =>
              let! _ := VerifyGeneration layout net ns data in
              if wo_writes w net then
                let! (datas, expected) := fetch w m nets in
                Ok (data :: datas, <[net := sn_NodeCount ns]> expected)
              else Err "write"
          | _ => Err "get %s: %w"
          end
      end
  end.

(** [SELECT network, count( * ) FROM nodes_staging GROUP BY network], scanned into strings. *)
Definition actualCounts (t : table) : option (gmap string Z) :=
  if forallb (fun r => match r "network" with VText _ => true | _ => false end) t
  then Some (list_to_map (groupBy (fun r => textOf (r "network")) t)) else None.

(** The manifest's counts are the table's, and the table has no other network. *)
Definition countsAgree (expected actual : gmap string Z) : bool :=
  forallb (fun kv => countAt actual kv.1 =? kv.2) (map_to_list expected) && bool_decide (dom actual ⊆ dom expected).

Definition manifestIdentity (m : Manifest) : string :=
  foldl (fun b net =>
    let ns := default (MkNetworkSnapshot "" 0 0 "" 0) (mf_Networks m !! net) in
    b +:+ nul +:+ net +:+ nul +:+ sn_GenerationKey ns +:+ nul +:+ sn_SHA256 ns +:+ nul +:+ pretty (sn_Bytes ns) +:+ nul +:+ pretty (sn_NodeCount ns))
    (formatNano (mf_GeneratedAt m)) networks.

(** The staging table of some files, as far as the counts. *)
Definition stageTable (w : RefreshEnv) (m : Manifest) (datas : list string) (expected : gmap string Z) : result table :=
  if wo_fails w LoadStep then Err "load snapshots: %w"
  else
    match read_parquet datas with
    | None => Err "load snapshots: %w"
    | Some (columns, rows) =>
        if negb (forallb (fun c => existsb (String.eqb c) columns) excluded) then Err "load snapshots: %w"
        else
          let t := map stagingRow (firstPerID rows) in
          if wo_fails w MigrateStep then Err "add snapshot column: %w"
          else
            let t := map (migrateStagingSchema columns) t in
            if wo_fails w SyncStep then Err "compute sync state: %w"
            else
              let t := computeSyncState (mf_GeneratedAt m) t in
              if wo_fails w CountStep then Err "count"
              else
                match actualCounts t with
                | None => Err "scan"
                | Some actual => if countsAgree expected actual then Ok t else Err "snapshot %s row count mismatch: got %d want %d"
                end
    end.

Definition Refresh (w : RefreshEnv) (e : Engine) : Engine * result unit :=
  match Read layout (wo_manifest w) with
  | NoManifest => (e, Err "no snapshots available")
  | ReadError => (e, Err "read")
  | ReadOk m =>
      let manifestID := manifestIdentity m in
      if (en_manifestID e =? manifestID)%string then (e, Ok tt)
      else
        match fetch w m networks with
        | Err why => (e, Err why)
        | Ok ([], _) => (e, Err "no snapshots available")
        | Ok (datas, expected) =>
            match stageTable w m datas expected with
            | Err why => (e, Err why)
            | Ok t =>
                if wo_fails w SwapStep then (e, Err "commit snapshots: %w")
                else (MkEngine t (MkState (tallySum expected) (mf_GeneratedAt m) (wo_now w) (mf_Run m) (mf_CrawlerID m) (mf_SchemaVersion m)) manifestID, Ok tt)
            end
        end
  end.

(** The engine before its first refresh. *)
Definition New : Engine := MkEngine [] (MkState 0 zeroTime zeroTime (MkRun "" "" "" "" "" zeroTime zeroTime "" "") "" 0) "".

Definition refreshes (ws : list RefreshEnv) (e : Engine) : Engine := foldl (fun e w => fst (Refresh w e)) e ws.
End Engine.

(** A refresh serves the rows of one verified manifest, all of them, or changes nothing. *)

(** * The staging table *)

Lemma head_isort_elem {A} (leb : A -> A -> bool) l x : head (isort leb l) = Some x -> x ∈ l.
Proof. intros H. apply (elem_of_isort leb). destruct (isort leb l) as [|y l']; [done|]. injection H as <-. by left. Qed.

Lemma isort_nonempty {A} (leb : A -> A -> bool) l x : x ∈ l -> exists y, head (isort leb l) = Some y.
Proof.
  intros Hx. apply (elem_of_isort leb) in Hx. destruct (isort leb l) as [|y l']; [by apply elem_of_nil in Hx|by exists y].
Qed.

Lemma first_of_id t id r :
  head (isort (orderedBy newestFirst) (List.filter (fun r => bool_decide (r "id" = id)) t)) = Some r -> r ∈ t /\ r "id" = id.
Proof.
  intros H%head_isort_elem. apply list_elem_of_In, filter_In in H as [Hr Hid]. split; [by apply list_elem_of_In|]. by apply bool_decide_eq_true in Hid.
Qed.

Lemma firstPerID_elem t r : r ∈ firstPerID t -> r ∈ t.
Proof. unfold firstPerID. intros (id & _ & H)%list_elem_of_omap. by apply first_of_id in H as [Hr _]. Qed.

Lemma firstPerID_ids t : map (fun r => r "id") (firstPerID t) = remove_dups (map (fun r => r "id") t).
Proof.
  unfold firstPerID. assert (forall ids, (forall id, id ∈ ids -> id ∈ map (fun r => r "id") t) ->
    map (fun r => r "id") (omap (fun id => head (isort (orderedBy newestFirst) (List.filter (fun r => bool_decide (r "id" = id)) t))) ids) = ids) as H.
  2: { apply H. intros id Hid. rewrite elem_of_remove_dups in Hid. exact Hid. }
  induction ids as [|id ids IH]; intros Hin; [done|]. cbn [omap list_omap].
  assert (id ∈ map (fun r => r "id") t) as Hid by (apply Hin; left). apply list_elem_of_In, in_map_iff in Hid as (r & Er & Hr).
  destruct (isort_nonempty (orderedBy newestFirst) (List.filter (fun r => bool_decide (r "id" = id)) t) r) as [y Hy].
  { apply list_elem_of_In, filter_In. split; [done|]. by apply bool_decide_eq_true. }
  rewrite Hy. cbn [map]. rewrite IH by (intros x Hx; apply Hin; by right). by destruct (first_of_id _ _ _ Hy) as [_ ->].
Qed.

(** The columns a refresh computes. *)
Definition computed : list string := ["dialable"; "sync_state"; "head_lag"].

Lemma withCol_other r c v c' : c' <> c -> withCol r c v c' = r c'.
Proof. intros H. unfold withCol. by rewrite (proj2 (String.eqb_neq _ _) H). Qed.

Lemma stagingRow_other r c : c ∉ excluded -> c <> "dialable" -> stagingRow r c = r c.
Proof.
  intros He Hd. unfold stagingRow. rewrite withCol_other by done. unfold without.
  destruct (existsb (String.eqb c) excluded) eqn:E; [|done]. apply existsb_exists in E as (x & Hx & Hc). apply String.eqb_eq in Hc as ->.
  exfalso. by apply He, list_elem_of_In.
Qed.

Lemma migrate_other columns r c :
  c ∈ columns \/ c ∉ map fst migrations -> migrateStagingSchema columns r c = r c.
Proof.
  intros Hc. unfold migrateStagingSchema. generalize dependent r.
  assert (forall ms, (c ∈ columns \/ c ∉ map fst ms) -> forall r : row,
    foldl (fun r m => if existsb (String.eqb m.1) columns then r else withCol r m.1 m.2) r ms c = r c) as H; [|by intros r; apply H].
  induction ms as [|[m v] ms IH]; intros Hor r; [done|]. cbn [foldl fst snd]. rewrite IH.
  2: { destruct Hor as [|Hor]; [by left|right]. cbn [map fst] in Hor. by apply not_elem_of_cons in Hor as [_ Hor]. }
  destruct (existsb (String.eqb m) columns) eqn:E; [done|]. apply withCol_other. intros ->. destruct Hor as [Hin|Hin].
  - assert (existsb (String.eqb m) columns = true) as Ht; [|by rewrite Ht in E]. apply existsb_exists. exists m.
    split; [by apply list_elem_of_In|apply String.eqb_refl].
  - apply Hin. cbn [map fst]. by left.
Qed.

Section Refreshes.
Context `{Hurl : URLParser} `{Hcodec : ManifestCodec} `{Hfiles : ParquetFiles} `{Hdouble : Doubles}.
Context (registry : list Network) (networks : list string) (layout : Layout).

(** A row of the staging table, made from a row of the files: the columns of the files but
    the excluded ones, defaults for those they lack, and the computed ones. *)
Definition loadedRow (columns : list string) (r r0 : row) : Prop :=
  (forall c, c ∉ excluded -> c ∉ computed -> c ∈ columns \/ c ∉ map fst migrations -> r c = r0 c) /\
  (forall c v, (c, v) ∈ migrations -> c ∉ columns -> r c = v) /\
  (forall c, c ∈ excluded -> r c = VNull) /\
  r "dialable" = valueOf r0 dialableColumn [] /\ r "sync_state" ∈ [VText "unknown"; VText "lagging"; VText "synced"].

Lemma migrate_default columns r c v : (c, v) ∈ migrations -> c ∉ columns -> migrateStagingSchema columns r c = v.
Proof using.
  intros Hin Hc. assert (existsb (String.eqb c) columns = false) as E.
  { apply not_true_is_false. intros (x & Hx & Ex)%existsb_exists. apply String.eqb_eq in Ex as ->. by apply Hc, list_elem_of_In. }
  unfold migrateStagingSchema, migrations in *. repeat (apply elem_of_cons in Hin as [[= -> ->]|Hin]); [..|by apply elem_of_nil in Hin];
    cbn [foldl fst snd]; rewrite E; unfold withCol; repeat (case_match; try done).
Qed.

Lemma syncOf_text at_ t r : (syncOf registry networks at_ t r).1 ∈ [VText "unknown"; VText "lagging"; VText "synced"].
Proof using.
  unfold syncOf. destruct (sampleOf _ _ at_ r) as [p|]; [|by left]. destruct (r "layer"); try by left. destruct (r "id"); try by left. cbv zeta.
  destruct (_ <=? _); [|by left]. destruct (distance _ p) as [lag|]; [|by left]. cbn [fst]. destruct (lag <? _); [by left|].
  destruct (_ <? lag); [right; by left|right; right; by left].
Qed.

Lemma staged_map columns generatedAt rows :
  exists f, computeSyncState registry networks generatedAt (map (migrateStagingSchema columns) (map stagingRow (firstPerID rows))) = map f (firstPerID rows) /\
    forall r0, loadedRow columns (f r0) r0.
Proof using.
  unfold computeSyncState. set (t := map (migrateStagingSchema columns) _).
  exists (fun r => let (state, lag) := syncOf registry networks (Unix generatedAt) t (migrateStagingSchema columns (stagingRow r)) in
    withCol (withCol (migrateStagingSchema columns (stagingRow r)) "sync_state" state) "head_lag" lag).
  split; [unfold t at 2; by rewrite !map_map|]. intros r0. pose proof (syncOf_text (Unix generatedAt) t (migrateStagingSchema columns (stagingRow r0))) as Hs.
  destruct (syncOf _ _ _ _ _) as [state lag]. cbn [fst] in Hs.
  assert (forall (c : string) (l : list string), bool_decide (c ∈ l) = false -> c ∉ l) as Hnot by (intros c l H; by apply bool_decide_eq_false_1 in H).
  split_and!.
  - intros c He Hc Hm. unfold computed in Hc. apply not_elem_of_cons in Hc as [Hd Hc]. apply not_elem_of_cons in Hc as [Hst Hc].
    apply not_elem_of_cons in Hc as [Hl _]. rewrite !withCol_other by done. rewrite migrate_other by done. by apply stagingRow_other.
  - intros c v Hin Hc. assert (c <> "sync_state" /\ c <> "head_lag") as [H1 H2].
    { unfold migrations in Hin. repeat (apply elem_of_cons in Hin as [[= -> ->]|Hin]); [done..|by apply elem_of_nil in Hin]. }
    rewrite !withCol_other by done. by apply migrate_default.
  - intros c Hc. assert (c <> "sync_state" /\ c <> "head_lag" /\ c <> "dialable" /\ c ∉ map fst migrations) as (H1 & H2 & H3 & H4).
    { unfold excluded in Hc. repeat (apply elem_of_cons in Hc as [->|Hc]); [..|by apply elem_of_nil in Hc]; (split_and!; [done..|by apply Hnot]). }
    rewrite !withCol_other by done. rewrite migrate_other by by right. unfold stagingRow. rewrite withCol_other by done. unfold without.
    replace (existsb (String.eqb c) excluded) with true; [done|]. symmetry. apply existsb_exists. exists c.
    split; [by apply list_elem_of_In|apply String.eqb_refl].
  - rewrite !withCol_other by done. rewrite migrate_other by (right; by apply Hnot). done.
  - exact Hs.
Qed.

(** ** The counts *)

Definition networksOf (t : table) : list string := map (fun r : row => textOf (r "network")) t.

Lemma actual_lookup t actual n :
  actualCounts t = Some actual -> countAt actual n = occurrences n (networksOf t) /\
  (is_Some (actual !! n) <-> n ∈ networksOf t).
Proof using.
  unfold actualCounts. intros Ha. assert (actual = list_to_map (groupBy (fun r : row => textOf (r "network")) t)) as ->.
  { revert Ha. case_match; [congruence|done]. }
  clear Ha. set (names := networksOf t).
  assert (NoDup (map fst (groupBy (fun r : row => textOf (r "network")) t))) as Hnd by (rewrite groupBy_keys; apply NoDup_remove_dups).
  destruct (decide (n ∈ names)) as [Hin|Hin].
  - assert ((list_to_map (groupBy (fun r : row => textOf (r "network")) t) : gmap string Z) !! n = Some (occurrences n names)) as E.
    { apply elem_of_list_to_map; [done|]. unfold groupBy. fold names. apply list_elem_of_In, in_map_iff. exists n. split; [done|].
      by apply list_elem_of_In, elem_of_remove_dups. }
    unfold countAt. rewrite E. split; [done|]. split; [done|by eexists].
  - assert ((list_to_map (groupBy (fun r : row => textOf (r "network")) t) : gmap string Z) !! n = None) as E.
    { apply not_elem_of_list_to_map. intros H. assert (n ∈ map fst (groupBy (fun r : row => textOf (r "network")) t)) as H' by exact H.
      rewrite groupBy_keys, elem_of_remove_dups in H'. by apply Hin. }
    unfold countAt. rewrite E. cbn [default from_option]. split.
    + unfold occurrences. symmetry. apply zsum_by_zero. intros x Hx. destruct (decide (x = n)) as [->|]; done.
    + split; [by intros [? ?]|done].
Qed.

Lemma counts_agree t actual expected :
  actualCounts t = Some actual -> countsAgree expected actual = true ->
  (forall n c, expected !! n = Some c -> occurrences n (networksOf t) = c) /\
  (forall r, r ∈ t -> is_Some (expected !! textOf (r "network"))) /\ tallySum expected = Z.of_nat (length t).
Proof using.
  intros Ha Hc. unfold countsAgree in Hc. apply andb_true_iff in Hc as [Hc Hd]. apply bool_decide_eq_true in Hd.
  assert (forall n c, expected !! n = Some c -> occurrences n (networksOf t) = c) as Hcount.
  { intros n c Hn. destruct (actual_lookup t actual n Ha) as [<- _]. rewrite forallb_forall in Hc. apply Z.eqb_eq, (Hc (n, c)).
    by apply list_elem_of_In, elem_of_map_to_list. }
  assert (forall n, n ∈ networksOf t -> is_Some (expected !! n)) as Hin.
  { intros n Hn. apply elem_of_dom, Hd, elem_of_dom. by apply (actual_lookup t actual n Ha). }
  split_and!; [done| |].
  - intros r Hr. apply Hin, list_elem_of_fmap. by exists r.
  - unfold tallySum, map_sum. rewrite (zsum_by_ext _ (fun kv : string * Z => occurrences kv.1 (networksOf t))).
    2: { intros [n c] Hkv. apply elem_of_map_to_list in Hkv. cbn [fst snd]. symmetry. by apply Hcount. }
    rewrite <- (zsum_by_map (fun n => occurrences n (networksOf t)) fst).
    rewrite (zsum_by_ext _ (fun n => (fun _ => 1) n * occurrences n (networksOf t))) by (intros; lia).
    rewrite (zsum_by_grouped (fun _ => 1)); [|apply NoDup_fst_map_to_list|].
    + unfold networksOf, zsum_by. clear. induction t as [|r t IH]; [done|]. cbn [map zsum foldr length] in *. unfold zsum in IH. lia.
    + intros n Hn. destruct (Hin n Hn) as [c Hc']. apply list_elem_of_fmap. exists (n, c). split; [done|]. by apply elem_of_map_to_list.
Qed.

(** ** What is served *)

(** A generation of the manifest, read and verified. *)
Definition verifiedFile (w : RefreshEnv) (m : Manifest) (net data : string) : Prop :=
  exists ns, mf_Networks m !! net = Some ns /\ wo_get w (sn_GenerationKey ns) = Found data /\ VerifyGeneration layout net ns data = Ok tt.

Lemma fetch_spec w m nets datas expected :
  fetch layout w m nets = Ok (datas, expected) ->
  Forall2 (verifiedFile w m) nets datas /\
  (forall net, net ∈ nets -> exists ns, mf_Networks m !! net = Some ns /\ expected !! net = Some (sn_NodeCount ns)) /\
  (forall net, is_Some (expected !! net) -> net ∈ nets).
Proof using.
  revert datas expected. induction nets as [|net nets IH]; intros datas expected; cbn [fetch].
  - intros [= <- <-]. split_and!; [constructor|by intros net ?%elem_of_nil|intros net [? H]; by rewrite lookup_empty in H].
  - destruct (mf_Networks m !! net) as [ns|] eqn:En; [|done]. destruct (wo_get w _) as [| |data] eqn:Eg; [done|done|].
    unfold rbind. destruct (VerifyGeneration layout net ns data) as [[]|] eqn:Ev; [|done]. destruct (wo_writes w net); [|done].
    destruct (fetch layout w m nets) as [[ds ex]|]; [|done]. intros [= <- <-]. destruct (IH ds ex eq_refl) as (Hf & He & Hd). split_and!.
    + constructor; [by exists ns|done].
    + intros n Hn. destruct (decide (n = net)) as [->|Hne]; [exists ns; by rewrite lookup_insert_eq|].
      apply elem_of_cons in Hn as [->|Hn]; [done|]. destruct (He n Hn) as (ns' & H1 & H2). exists ns'. by rewrite lookup_insert_ne.
    + intros n [c Hc]. apply lookup_insert_Some in Hc as [[<- _]|[_ Hc]]; [by left|]. right. apply Hd. by eexists.
Qed.

(** The engine serves the rows of the manifest a refresh found: rows of its verified files,
    every id of them once, as many of each configured network as the manifest says and of
    no other, and the state that goes with them. *)
Definition loadedFrom (w : RefreshEnv) (e : Engine) : Prop :=
  exists m datas columns rows,
    Read layout (wo_manifest w) = ReadOk m /\ Forall2 (verifiedFile w m) networks datas /\ read_parquet datas = Some (columns, rows) /\
    (forall r, r ∈ en_table e -> exists r0, r0 ∈ rows /\ loadedRow columns r r0) /\
    map (fun r : row => r "id") (en_table e) = remove_dups (map (fun r : row => r "id") rows) /\
    (forall net, net ∈ networks -> exists ns, mf_Networks m !! net = Some ns /\ occurrences net (networksOf (en_table e)) = sn_NodeCount ns) /\
    (forall r, r ∈ en_table e -> textOf (r "network") ∈ networks) /\
    en_state e = MkState (Z.of_nat (length (en_table e))) (mf_GeneratedAt m) (wo_now w) (mf_Run m) (mf_CrawlerID m) (mf_SchemaVersion m) /\
    en_manifestID e = manifestIdentity networks m.

Lemma stage_spec w m datas expected t :
  stageTable registry networks w m datas expected = Ok t ->
  exists columns rows f, read_parquet datas = Some (columns, rows) /\ t = map f (firstPerID rows) /\ (forall r0, loadedRow columns (f r0) r0) /\
    exists actual, actualCounts t = Some actual /\ countsAgree expected actual = true.
Proof using.
  unfold stageTable. destruct (wo_fails w LoadStep); [done|]. destruct (read_parquet datas) as [[columns rows]|]; [|done].
  destruct (negb _); [done|]. destruct (wo_fails w MigrateStep); [done|]. cbv zeta. destruct (wo_fails w SyncStep); [done|].
  destruct (wo_fails w CountStep); [done|]. destruct (staged_map columns (mf_GeneratedAt m) rows) as (f & Ef & Hf). rewrite Ef.
  destruct (actualCounts (map f (firstPerID rows))) as [actual|] eqn:Ea; [|done]. destruct (countsAgree expected actual) eqn:Ec; [|done].
  intros [= <-]. exists columns, rows, f. split_and!; [done|done|done|]. by exists actual.
Qed.

Lemma Refresh_cases w e :
  let (e', r) := Refresh registry networks layout w e in
  e' = e \/ r = Ok tt /\ loadedFrom w e'.
Proof using.
  unfold Refresh. destruct (Read layout (wo_manifest w)) as [| |m] eqn:Em; [by left|by left|]. cbv zeta.
  destruct (_ =? _)%string; [by left|]. destruct (fetch layout w m networks) as [[datas expected]|] eqn:Ef; [|by left].
  destruct (fetch_spec w m networks datas expected Ef) as (Hver & Hexp & Hdom). destruct datas as [|d datas]; [by left|].
  destruct (stageTable registry networks w m (d :: datas) expected) as [t|] eqn:Es; [|by left]. destruct (wo_fails w SwapStep); [by left|]. right.
  split; [done|]. destruct (stage_spec w m (d :: datas) expected t Es) as (columns & rows & f & Er & Et & Hrow & actual & Ha & Hc).
  destruct (counts_agree t actual expected Ha Hc) as (Hcount & Hnet & Hsum).
  exists m, (d :: datas), columns, rows. cbn [en_table en_state en_manifestID]. split_and!; try done.
  - intros r Hr. rewrite Et in Hr. apply list_elem_of_In, in_map_iff in Hr as (r0 & <- & Hr0). exists r0.
    split; [by apply firstPerID_elem, list_elem_of_In|done].
  - rewrite <- firstPerID_ids, Et, map_map. apply map_ext. intros r0.
    assert (forall (c : string) (l : list string), bool_decide (c ∈ l) = false -> c ∉ l) as Hnot by (intros c l H; by apply bool_decide_eq_false_1 in H).
    apply (proj1 (Hrow r0) "id"); [by apply Hnot|by apply Hnot|right; by apply Hnot].
  - intros net Hn. destruct (Hexp net Hn) as (ns & H1 & H2). exists ns. split; [done|]. by apply Hcount.
  - intros r Hr. by apply Hdom, Hnet.
  - by rewrite Hsum.
Qed.

(** ** Types *)

(** What the statistics need of the column of a row. *)
Definition colOk (c : string) (v : value) : bool :=
  implb (existsb (String.eqb c) (textColumns ++ ["org"; "fp_direction"])) (is_text v) && implb (existsb (String.eqb c) intColumns) (is_int v)
  && implb (existsb (String.eqb c) ("geolocated" :: boolColumns)) (is_bool v) && implb (existsb (String.eqb c) ["fp_at"; "tcp6"; "quic6"]) (is_integer v).

Lemma forallb_cols (p : value -> bool) l (r : row) :
  forallb (fun c => p (r c)) l = true <-> forall c, implb (existsb (String.eqb c) l) (p (r c)) = true.
Proof using.
  rewrite forallb_forall. split.
  - intros H c. destruct (existsb (String.eqb c) l) eqn:E; [|done]. apply existsb_exists in E as (x & Hx & Ex). apply String.eqb_eq in Ex as ->. by apply H.
  - intros H c Hc. specialize (H c). replace (existsb (String.eqb c) l) with true in H; [done|]. symmetry. apply existsb_exists. exists c.
    split; [done|apply String.eqb_refl].
Qed.

Lemma statsRow_cols r : statsRow r = true <-> (forall c, colOk c (r c) = true) /\ plainHash (textOf (r "fork_hash")) = true.
Proof using.
  assert (statsRow r = forallb (fun c => is_text (r c)) (textColumns ++ ["org"; "fp_direction"]) && forallb (fun c => is_int (r c)) intColumns
    && forallb (fun c => is_bool (r c)) ("geolocated" :: boolColumns) && forallb (fun c => is_integer (r c)) ["fp_at"; "tcp6"; "quic6"]
    && plainHash (textOf (r "fork_hash"))) as ->.
  { unfold statsRow, typedRow. rewrite forallb_app. cbn [forallb]. change (match r "fp_at" with VInt _ | VNull => true | _ => false end) with (is_integer (r "fp_at")).
    rewrite !andb_true_r. generalize (forallb (fun c => is_text (r c)) textColumns), (forallb (fun c => is_int (r c)) intColumns),
      (forallb (fun c => is_bool (r c)) boolColumns), (plainHash (textOf (r "fork_hash"))), (is_integer (r "fp_at")). intros [] [] [] [] []; cbn; btauto. }
  rewrite !andb_true_iff, !forallb_cols. unfold colOk. setoid_rewrite andb_true_iff. setoid_rewrite andb_true_iff. setoid_rewrite andb_true_iff.
  split; [intros ((((H1 & H2) & H3) & H4) & H5)|intros (H & H5)]; (split; [|done]); [done|].
  split_and!; intros c; apply H.
Qed.

(** A row of the files: the columns the engine computes are not in them. *)
Definition fileRow (r : row) : Prop :=
  (forall c, c ∉ ["dialable"; "sync_state"] -> colOk c (r c) = true) /\ plainHash (textOf (r "fork_hash")) = true /\
  forallb (fun c => is_integer (r c)) ["tcp"; "quic"] = true.

(** What [dialable] says of a row. *)
Definition hasPort (r : row) : bool :=
  let port c := negb (intOf (r c) =? 0) in
  has "ip" r && (port "tcp" || port "quic") || has "ip6" r && (port "tcp6" || (port "tcp" || (port "quic6" || port "quic"))).

Lemma dialable_value r : valueOf r dialableColumn [] =
  let text c := sql_not (sql_eq (r c) (VText "")) in
  let port c := sql_not (sql_eq (r c) (VInt 0)) in
  sql_or (sql_and (text "ip") (sql_or (port "tcp") (port "quic")))
    (sql_and (text "ip6") (sql_or (port "tcp6") (sql_or (port "tcp") (sql_or (port "quic6") (port "quic"))))).
Proof using. reflexivity. Qed.

Lemma is_bool_or a b : is_bool (sql_or a b) = true.
Proof using. by destruct a as [| | |[]], b as [| | |[]]. Qed.

Lemma strict_text (r : row) c : is_text (r c) = true -> strict (sql_not (sql_eq (r c) (VText ""))) = has c r.
Proof using. unfold has. destruct (r c) as [|s|z|b]; try done. intros _. cbn. unfold given. by destruct (s =? "")%string. Qed.
Lemma strict_port (r : row) c : is_integer (r c) = true -> strict (sql_not (sql_eq (r c) (VInt 0))) = negb (intOf (r c) =? 0).
Proof using. destruct (r c) as [|s|z|b]; try done. intros _. cbn. by destruct (z =? 0). Qed.

Lemma colOk_null c : colOk c VNull = true.
Proof using. unfold colOk. by repeat destruct (existsb _ _). Qed.

Lemma colOk_integer c v : c ∈ ["fp_at"; "tcp6"; "quic6"] -> colOk c v = true -> is_integer v = true.
Proof using.
  intros Hc H. unfold colOk in H. apply andb_true_iff in H as [_ H].
  repeat (apply elem_of_cons in Hc as [->|Hc]); [exact H..|by apply elem_of_nil in Hc].
Qed.

(** What a served row is, when the files are typed. *)
Lemma shared_computed c : c ∈ ["dialable"; "sync_state"] -> c ∈ computed.
Proof using. intros H. apply elem_of_cons in H as [H|H]; [subst; left|]. apply list_elem_of_singleton in H. subst. right. left. Qed.

Ltac listed := apply (bool_decide_unpack _); vm_compute; exact I.

Lemma served_row columns r r0 : fileRow r0 -> loadedRow columns r r0 -> statsRow r = true /\ strict (r "dialable") = hasPort r.
Proof using.
  intros (Hcols & Hhash & Hports) (Hsame & Hmig & Hex & Hd & Hs).
  assert (forall (c : string) (l : list string), bool_decide (c ∈ l) = false -> c ∉ l) as Hnot by (intros c l H; by apply bool_decide_eq_false_1 in H).
  assert (forall c, c ∈ ["fork_hash"; "ip"; "ip6"; "tcp"; "quic"; "tcp6"; "quic6"] -> r c = r0 c) as Heq.
  { intros c Hc. assert (bool_decide (c ∈ excluded) = false /\ bool_decide (c ∈ computed) = false /\ bool_decide (c ∈ map fst migrations) = false) as (H1 & H2 & H3).
    { repeat (apply elem_of_cons in Hc as [->|Hc]); [by vm_compute..|by apply elem_of_nil in Hc]. }
    apply Hsame; [by apply Hnot|by apply Hnot|right; by apply Hnot]. }
  cbn [forallb] in Hports. split.
  - apply statsRow_cols. split; [|rewrite (Heq "fork_hash"); [done|by left]]. intros c.
    destruct (decide (c ∈ excluded)) as [He|He]; [rewrite (Hex c He); apply colOk_null|].
    destruct (decide (c ∈ computed)) as [Hc|Hc].
    { unfold computed in Hc. apply elem_of_cons in Hc as [->|Hc].
      { rewrite Hd, dialable_value. cbv zeta. pose proof (is_bool_or) as Hb. unfold colOk. cbn [existsb String.eqb implb andb]. by rewrite Hb. }
      apply elem_of_cons in Hc as [->|Hc]; [|apply list_elem_of_singleton in Hc as ->; by destruct (r "head_lag")].
      repeat (apply elem_of_cons in Hs as [->|Hs]); [done..|by apply elem_of_nil in Hs]. }
    destruct (decide (c ∈ map fst migrations)) as [Hm|Hm]; [destruct (decide (c ∈ columns)) as [Hin|Hin]|].
    + rewrite Hsame by (done || by left). apply Hcols. intros Hx. apply Hc. by apply shared_computed.
    + apply list_elem_of_In, in_map_iff in Hm as ([c' v] & <- & Hv). apply list_elem_of_In in Hv. cbn [fst] in *. rewrite (Hmig c' v Hv Hin).
      unfold migrations in Hv. repeat (apply elem_of_cons in Hv as [[= -> ->]|Hv]); [done..|by apply elem_of_nil in Hv].
    + rewrite Hsame by (done || by right). apply Hcols. intros Hx. apply Hc. by apply shared_computed.
  - apply andb_true_iff in Hports as [Ht Hq]. apply andb_true_iff in Hq as [Hq _].
    assert (forall c, c ∈ ["ip"; "ip6"] -> is_text (r0 c) = true) as Htext.
    { intros c Hc. assert (colOk c (r0 c) = true) as H.
      { repeat (apply elem_of_cons in Hc as [->|Hc]); [apply Hcols, Hnot; reflexivity..|by apply elem_of_nil in Hc]. }
      unfold colOk in H. do 3 (apply andb_true_iff in H as [H _]).
      apply elem_of_cons in Hc as [->|Hc]; [exact H|]. apply list_elem_of_singleton in Hc as ->. exact H. }
    assert (is_integer (r0 "tcp6") = true) as Ht6 by (apply (colOk_integer "tcp6"); [by listed|apply Hcols, Hnot; reflexivity]).
    assert (is_integer (r0 "quic6") = true) as Hq6 by (apply (colOk_integer "quic6"); [by listed|apply Hcols, Hnot; reflexivity]).
    rewrite Hd, dialable_value. cbv zeta. rewrite !strict_or, !strict_and, !strict_or. rewrite !strict_text, !strict_port by (done || apply Htext; listed).
    unfold hasPort, has. rewrite (Heq "ip"), (Heq "ip6"), (Heq "tcp"), (Heq "quic"), (Heq "tcp6"), (Heq "quic6") by listed. done.
Qed.

Lemma refreshes_loaded ws : refreshes registry networks layout ws New = New \/ exists w, w ∈ ws /\ loadedFrom w (refreshes registry networks layout ws New).
Proof using.
  induction ws as [|w ws IH] using rev_ind; [by left|]. unfold refreshes in *. rewrite foldl_app. cbn [foldl].
  pose proof (Refresh_cases w (foldl (fun e w => fst (Refresh registry networks layout w e)) New ws)) as H.
  destruct (Refresh registry networks layout w _) as [e' r]. cbn [fst]. destruct H as [->|[_ H]].
  - destruct IH as [->|(w' & Hw & H)]; [by left|]. right. exists w'. split; [apply elem_of_app; by left|done].
  - right. exists w. split; [apply elem_of_app; right; by left|done].
Qed.
End Refreshes.

(** C7.  The API serves one manifest, whole.  Whatever manifests, generations, failed
    statements and failed writes its refreshes meet, the engine is as new or serves what one
    of them loaded: rows of files whose length and digest that manifest states, every id
    once, of each configured network exactly as many as it counts and of no other, with
    [Loaded] the number of rows and the state of the same manifest; a refresh that reports
    an error changes nothing; and if the files are typed, every served row is what the
    statistics assume, dialable exactly when it has an address with a port. *)
Theorem served_is_one_manifest `{Hurl : URLParser} `{Hcodec : ManifestCodec} `{Hfiles : ParquetFiles} `{Hdouble : Doubles}
    (registry : list Network) (networks : list string) (layout : Layout) (ws : list RefreshEnv) :
  let e := refreshes registry networks layout ws New in
  (e = New \/ exists w, w ∈ ws /\ loadedFrom networks layout w e) /\
  (forall w, let (e', r) := Refresh registry networks layout w e in is_ok r = false -> e' = e) /\
  ((forall datas columns rows r, read_parquet datas = Some (columns, rows) -> r ∈ rows -> fileRow r) ->
   forall r, r ∈ en_table e -> statsRow r = true /\ strict (r "dialable") = hasPort r).
Proof.
  intros e. split_and!; [apply refreshes_loaded| |].
  - intros w. pose proof (Refresh_cases registry networks layout w e) as H. destruct (Refresh registry networks layout w e) as [e' r].
    destruct H as [->|[-> _]]; done.
  - intros Htyped r Hr. destruct (refreshes_loaded registry networks layout ws) as [En|(w & _ & m & datas & columns & rows & _ & _ & Hread & Hrows & _)].
    + unfold e in Hr. rewrite En in Hr. by apply elem_of_nil in Hr.
    + destruct (Hrows r Hr) as (r0 & Hr0 & Hl). apply (served_row columns r r0); [|done]. by eapply Htyped.
Qed.
