(* ===== verification/ApiDemo.v ===== *)
(** The theorems on the API's caches, handlers and refreshes applied to small examples. *)

From stdpp Require Import base gmap strings list numbers pretty sorting.
From Stdlib Require Import ZArith Lia Ascii.
From S2P Require Import Prelude GoLib Text Calendar Counting Sql Clientname Hashes Consensus ForkId Network Readiness.
From S2P Require Import NodeData Releases History ForkReadiness Query QueryMirror QueryWhere Snapshot Stats StatsProps StatsServed.
From S2P Require Import LoadCache MapCache ApiStats Api Refresh.
#[local] Open Scope Z_scope.

(** * The caches *)

(** Two requests for one key: the second joins, wakes and finds the value; a third fails. *)
Definition demoLabels : list (label (V := Z)) :=
  [Arrive "k"; Arrive "k"; Look 0; Look 1; Return 0 (Good 7); Close 0; Wake 1; Look 1; Arrive "x"; Look 2; Return 2 (Bad (Failed "query")); Close 2].
Definition demoLoadRun : option (Sys (V := Z)) := loadRun demoLabels (startSys 1).
Definition demoEnd : Sys (V := Z) := match demoLoadRun with Some s => s | None => startSys 1 end.
Lemma demo_run : loadRun demoLabels (startSys 1) = Some demoEnd.
Proof. vm_compute. reflexivity. Qed.

Lemma load_shared_witness :
  sy_procs demoEnd = [("k", Done Ran (Good 7)); ("k", Done FromCache (Good 7)); ("x", Done Ran (Bad (Failed "query")))] /\
  Z.of_nat (length (lru_order (sy_cache demoEnd))) <= 1 /\ justified (sy_ran demoEnd) "k" FromCache (Good 7).
Proof.
  assert (0 <= 1) as H1 by lia. destruct (load_shared 1 demoLabels demoEnd H1 demo_run) as (_ & _ & Hc & _ & _ & _ & Hd).
  split; [vm_compute; reflexivity|]. split; [exact Hc|]. apply (Hd 1%nat). vm_compute. reflexivity.
Defined.

(** Two requests that have not looked yet. *)
Definition demoWaiting : Sys (V := Z) := MkSys (newLRU 1) [("k", Looking); ("k", Looking)] [].
Lemma demo_waiting : loadRun [Arrive "k"; Arrive "k"] (startSys 1) = Some demoWaiting.
Proof. reflexivity. Qed.

Lemma load_answers_witness : exists a s', goesOn (V := Z) (Good 7) a /\ loadStep a demoWaiting = Some s'.
Proof.
  assert (0 <= 1) as H1 by lia. destruct (load_answers 1 [Arrive "k"; Arrive "k"] demoWaiting (Good 7) H1 demo_waiting) as [_ H].
  apply (H 0%nat "k" Looking); reflexivity.
Defined.

(** A refresh between two requests for one map: the second does not wait for the first. *)
Definition mapLabels : list (mapLabel (V := string)) :=
  [MArrive "m"; MLook 0; Publish 5; MArrive "m"; MLook 1; MQuery 1 (inl "new"); MQuery 0 (inr "timeout"); MFinish 0; MFinish 1; MClose 1; MClose 0;
   MArrive "m"; MLook 2; MWake 2].
Definition mapEnd : MapSys (V := string) := match mapRun mapLabels (startMaps 1) with Some s => s | None => startMaps 1 end.
Lemma map_run : mapRun mapLabels (startMaps 1) = Some mapEnd.
Proof. vm_compute. reflexivity. Qed.

Lemma map_never_stale_witness :
  exists r, ms_requests mapEnd !! 2%nat = Some r /\ mr_refresh r = 5 /\ mr_status r = MDone (Some (Body 5 "new")) /\ (mr_key r, Body 5 "new") ∈ ms_ran mapEnd.
Proof.
  destruct (map_never_stale 1 mapLabels mapEnd (inr "") map_run) as (H & _).
  exists (MkMapRequest "m" 5 (MDone (Some (Body 5 "new")))). split; [vm_compute; reflexivity|]. split; [reflexivity|]. split; [reflexivity|].
  exact (proj1 (H 2%nat (MkMapRequest "m" 5 (MDone (Some (Body 5 "new")))) (Body 5 "new") ltac:(vm_compute; reflexivity) eq_refl)).
Defined.

(** * Statistics *)

Definition demoAggregate : result Stats := StatsForMembershipAt backwards [demoNet] ["demo"] statsState statsTable "demo" "" demoAt.
Definition demoVersions : result (gmap string Z) :=
  VersionsForMembershipAt backwards [demoNet] ["demo"] (fun r => textOf (r "client_version")) statsTable "demo" "GETH" "el" "" demoAt.
Definition demoGeneration : string := generationText "" demoAt "era" demoAt.

(** Another request filled the caches, with the client in capitals. *)
Definition demoAggregates (_ : nat) (key : string) : result Stats :=
  if (key =? aggregateKey "demo" demoGeneration)%string then demoAggregate else Err "none".
Definition demoVersionCache (_ : nat) (key : string) : result cachedVersions :=
  if (key =? versionKey "demo" "GETH" "el" demoGeneration)%string
  then match demoVersions with Ok m => Ok (MkCached m demoAt) | Err e => Err e end else Err "none".
Definition demoTables (_ : Time) : table := statsTable.

Lemma demo_aggregates i key s :
  demoAggregates i key = Ok s -> aggregateRan backwards [demoNet] ["demo"] demoTables key s.
Proof.
  unfold demoAggregates. destruct (String.eqb_spec key (aggregateKey "demo" demoGeneration)) as [->|]; [|done]. intros H.
  exists "demo", "", "", "era", demoAt, demoAt, statsState. split_and!; [reflexivity|reflexivity|reflexivity|exact H].
Qed.
Lemma demo_versions i key c :
  demoVersionCache i key = Ok c -> versionRan backwards [demoNet] ["demo"] (fun r => textOf (r "client_version")) demoTables key c.
Proof.
  unfold demoVersionCache. destruct (String.eqb_spec key (versionKey "demo" "GETH" "el" demoGeneration)) as [->|]; [|done].
  destruct demoVersions as [m|] eqn:E; [|done]. intros [= <-].
  exists "demo", "GETH", "el", "", "era", demoAt, demoAt. split_and!; [reflexivity|reflexivity|reflexivity|exact E].
Qed.

Lemma stats_paired_witness :
  exists s, loadStats (fun _ => demoAt) demoAggregates demoVersionCache "demo" "Geth" "el" "" "era" demoAt = Some (Ok s) /\
    st_ELIdentified s = 2 /\ tallySum (st_ByVersion s) = 1 /\
    aggregateFor backwards [demoNet] ["demo"] demoTables "demo" "" demoAt (withVersions s ∅).
Proof.
  destruct (stats_paired backwards [demoNet] ["demo"] (fun r => textOf (r "client_version")) demoTables (fun _ => demoAt) demoAggregates demoVersionCache
    "demo" "Geth" "el" "" "era" demoAt (fun _ => statsTable_ok) demo_registry_ok demo_named demo_aggregates demo_versions) as (r & Hr & H);
    [vm_compute; reflexivity|intros _; vm_compute; reflexivity|].
  destruct r as [s|e]; [|vm_compute in Hr; discriminate Hr]. exists s. split; [exact Hr|].
  destruct (H s eq_refl) as [Ha _]. split_and!; [| |exact Ha]; vm_compute in Hr; injection Hr as <-; vm_compute; reflexivity.
Defined.

(** * Handlers *)

Lemma cache_within_era_witness :
  exists next next', forkEra [load demoNetwork] (time_Unix 1765000000) "demo" = Ok ("demo:0f7960c3:cc2c5cdb", next) /\
    cacheLifetime (time_Unix 1765000000) next 300 = (300, true) /\
    forkEra [load demoNetwork] (time_Unix 1765000359) "demo" = Ok ("demo:0f7960c3:cc2c5cdb", next').
Proof.
  destruct (forkEra [load demoNetwork] (time_Unix 1765000000) "demo") as [[era next]|] eqn:E; [|vm_compute in E; discriminate E].
  assert (0 <= 300) as Hm by lia.
  pose proof (cache_within_era [load demoNetwork] "demo" (time_Unix 1765000000) era next 300 (time_Unix 1765000359) demo_era_ok eq_refl eq_refl Hm E) as H.
  assert (era = "demo:0f7960c3:cc2c5cdb" /\ cacheLifetime (time_Unix 1765000000) next 300 = (300, true)) as [Hera Hl].
  { vm_compute in E. injection E as <- <-. split; vm_compute; reflexivity. }
  rewrite Hl in H. destruct H as [_ H]. destruct H as [next' H]; [vm_compute; split; [discriminate|reflexivity]|].
  exists next, next'. rewrite <- Hera. split; [reflexivity|]. split; [exact Hl|exact H].
Defined.

Definition noQuery (name : string) : string := if (name =? "network")%string then "demo" else "".
Definition demoBody : string := "{}".
Definition demoETag : string := Eval vm_compute in mapETag (mapKey "demo" "" "" "demo:0f7960c3:cc2c5cdb") demoBody.
Definition demoLoad (key : string) (_ : Time) (_ _ _ : string) : result (string * string) := Ok (demoBody, mapETag key demoBody).

Lemma map_revalidates_witness :
  rs_Code (mapHandler (fun _ => false) ["demo"] [load demoNetwork] (time_Unix 1765000000) 0 demoLoad noQuery (sjoin "," ["x"; " W/" +:+ demoETag])) = 304.
Proof.
  assert (["x"; " W/" +:+ demoETag] <> []) as Hne by discriminate.
  assert (Forall (fun p => avoids "," p = true) ["x"; " W/" +:+ demoETag]) as Hf by (repeat constructor; vm_compute; reflexivity).
  pose proof (map_revalidates (fun _ => false) ["demo"] [load demoNetwork] (time_Unix 1765000000) 0 demoBody noQuery ["x"; " W/" +:+ demoETag] Hne Hf) as H.
  cbv zeta in H. fold demoLoad in H. destruct H as (era & next & He & H & _); [right; vm_compute; reflexivity|].
  apply H. exists (" W/" +:+ demoETag). split; [right; left|]. right.
  assert (era = "demo:0f7960c3:cc2c5cdb") as -> by (vm_compute in He; injection He as <- _; reflexivity). vm_compute. reflexivity.
Defined.

(** The charted Geth nodes, at most two of them. *)
Definition gethQuery (name : string) : string :=
  if (name =? "network")%string then "demo" else if (name =? "client")%string then "geth" else if (name =? "limit")%string then "+2" else "".


(** * A refresh *)

#[local] Instance refreshURL : URLParser := fun s => if HasPrefix s "https://" then Some ("https", sdrop 8 s) else None.
Definition refreshRun : RunMetadata :=
  MkRun "run-1" "abc123" "https://example.org/enrscout" "sha256:0" (hex_encode (sha256 "config")) (time_Unix 1789000000) (time_Unix 1789000000)
    MethodologyVersion "m1".
Definition refreshLayout : Layout := MkLayout "".
Definition refreshAt : Time := time_Unix 1789900000.
Definition refreshEntry (count : Z) : NetworkSnapshot :=
  MkNetworkSnapshot (GenerationKey refreshLayout "demo" refreshAt) count count (hex_encode (sha256 "file")) 4.
(** A manifest, and one that promises a row too many. *)
Definition refreshManifest (count : Z) : Manifest := MkManifest SchemaVersion refreshAt "crawler-1" refreshRun {["demo" := refreshEntry count]} None.
#[local] Instance refreshCodec : ManifestCodec := {
  UnmarshalManifest s := if (s =? "good")%string then Some (refreshManifest 2) else if (s =? "bad")%string then Some (refreshManifest 3) else None;
  MarshalManifest _ := None }.

(** The rows of the file: the columns the engine computes are not there. *)
Definition fileColumns : list string :=
  ["id"; "enode"; "enr"; "seq"; "ip"; "ip6"; "tcp"; "udp"; "tcp6"; "udp6"; "quic"; "quic6"; "network"; "fork_hash"; "fork_next"; "layer"; "last_seen";
   "fp_attempts"; "fp_next"].
Definition demoFileRow (id ip : string) (tcp : Z) : row := fun c =>
  match c with
  | "id" => VText id
  | "ip" => VText ip
  | "network" => VText "demo"
  | "layer" => VText "el"
  | "tcp" => VInt tcp
  | "fp_at" | "quic" | "tcp6" | "quic6" | "last_seen" | "seq" => VInt 0
  | "enode" | "enr" | "ip6" | "fork_hash" | "client" => VText ""
  | _ => VNull
  end%string.
Definition fileRows : table := [demoFileRow "aa" "198.51.100.7" 30303; demoFileRow "bb" "198.51.100.8" 0].
#[local] Instance demoFiles : ParquetFiles := {
  read_parquet datas := if decide (datas = ["file"]) then Some (fileColumns, fileRows) else None }.
#[local] Instance wholeDoubles : Doubles := {
  Double := Z; project head late seconds := head + late / seconds; median l := default 0 (head l); distance a b := Some (a - b) }.

Definition refreshWith (name : string) : RefreshEnv :=
  MkRefreshEnv (Found name) (fun _ => Found "file") (fun _ => true) (fun _ => false) (refreshAt + Minute).

Lemma fileRow_check r :
  forallb (fun c => colOk c (r c)) (textColumns ++ ["org"; "fp_direction"] ++ intColumns ++ ("geolocated" :: boolColumns) ++ ["fp_at"; "tcp6"; "quic6"]) = true ->
  plainHash (textOf (r "fork_hash")) = true -> forallb (fun c => is_integer (r c)) ["tcp"; "quic"] = true -> fileRow r.
Proof.
  intros H Hh Hp. split; [|split; [exact Hh|exact Hp]]. intros c _. rewrite forallb_forall in H.
  destruct (decide (c ∈ textColumns ++ ["org"; "fp_direction"] ++ intColumns ++ ("geolocated" :: boolColumns) ++ ["fp_at"; "tcp6"; "quic6"])) as [Hc|Hc].
  - apply H, list_elem_of_In, Hc.
  - assert (forall l, (forall x : string, x ∈ l -> x ∈ textColumns ++ ["org"; "fp_direction"] ++ intColumns ++ ("geolocated" :: boolColumns) ++ ["fp_at"; "tcp6"; "quic6"]) ->
      existsb (String.eqb c) l = false) as Hno.
    { intros l Hl. apply not_true_is_false. intros (x & Hx & E)%existsb_exists. apply String.eqb_eq in E as ->. by apply Hc, Hl, list_elem_of_In. }
    unfold colOk. rewrite !Hno; [done|..]; intros x Hx; rewrite ?elem_of_app in *; tauto.
Qed.

Lemma demoFiles_typed datas columns rows r : read_parquet datas = Some (columns, rows) -> r ∈ rows -> fileRow r.
Proof.
  cbn [read_parquet demoFiles]. destruct (decide _); [|done]. intros [= <- <-] Hr. unfold fileRows in Hr.
  apply elem_of_cons in Hr as [->|Hr]; [|apply list_elem_of_singleton in Hr as ->]; apply fileRow_check; vm_compute; reflexivity.
Qed.

(** The good manifest loads, then a refresh that finds the bad one keeps it. *)
Lemma served_is_one_manifest_witness :
  let e := refreshes [demoNet] ["demo"] refreshLayout [refreshWith "good"; refreshWith "bad"] New in
  es_Loaded (en_state e) = 2 /\ map (fun r : row => (r "id", r "dialable")) (en_table e) = [(VText "aa", VBool true); (VText "bb", VBool false)] /\
  forall r, r ∈ en_table e -> statsRow r = true.
Proof.
  cbv zeta. split; [vm_compute; reflexivity|]. split; [vm_compute; reflexivity|].
  destruct (served_is_one_manifest [demoNet] ["demo"] refreshLayout [refreshWith "good"; refreshWith "bad"]) as (_ & _ & H).
  intros r Hr. exact (proj1 (H demoFiles_typed r Hr)).
Defined.
