(* ===== verification/Publisher.v ===== *)
(** The crawler's publisher: [cmd/crawler/publisher.go].

    One publish builds a manifest from the set, runs the guards, uploads the
    generations and replaces the manifest by compare-and-swap.  The clock, the set at
    the snapshot and every answer of the object store are the fields of [Env].
    Metrics, logs, the distinct-count object and the aggregate object are left out. *)

From stdpp Require Import base gmap strings list numbers pretty.
From Stdlib Require Import ZArith Lia Ascii.
From S2P Require Import Prelude GoLib Text Hashes Consensus ForkId Network Calendar NodeData Nodeset Releases Snapshot.

Record publishConfig := MkPublishConfig {
  pc_nodeMaxIdle : Duration; pc_verifiedMaxIdle : Duration; pc_maxCollapsePct : Z; pc_minCurrentNodes : Z;
  pc_keepGenerations : Z; pc_forcePublish : bool }.

(** The fields of [publisher] a publish reads or writes. *)
Record publisher := MkPublisher {
  pb_cfg : publishConfig; pb_layout : Layout; pb_run : RunMetadata; pb_crawlerID : string; pb_networks : list string;
  pb_prev : option Manifest; pb_quarantines : Z; pb_forceUsed : bool; pb_forcePending : bool }.
#[export] Instance eta_publisher : Eta publisher := fun p =>
  MkPublisher (pb_cfg p) (pb_layout p) (pb_run p) (pb_crawlerID p) (pb_networks p) (pb_prev p) (pb_quarantines p) (pb_forceUsed p) (pb_forcePending p).
#[export] Instance upd_pb_prev : Upd pb_prev. Proof. derive_upd. Defined.
#[export] Instance upd_pb_quarantines : Upd pb_quarantines. Proof. derive_upd. Defined.
#[export] Instance upd_pb_forceUsed : Upd pb_forceUsed. Proof. derive_upd. Defined.
#[export] Instance upd_pb_forcePending : Upd pb_forcePending. Proof. derive_upd. Defined.

Record generation := MkGeneration { ge_network : string; ge_key : string; ge_data : string; ge_count : Z; ge_current : Z }.

(** * Guards *)

Definition shrank (after before maxPct : Z) : bool := (0 <? before) && (wrapI64 (after * 100) <? wrapI64 (before * wrapI64 (100 - maxPct))).

Definition belowFloor (current : Manifest) (networks : list string) (minCurrent : Z) : string :=
  if minCurrent <=? 0 then ""
  else if existsb (fun n => from_option sn_CurrentNodeCount 0 (mf_Networks current !! n) <? minCurrent) networks then "current_below_floor" else "".

(** [generationTime]: never at or behind the previous manifest. *)
Definition generationTime (p : publisher) (now : Time) : Time :=
  match pb_prev p with
  | Some prev => if negb (After now (mf_GeneratedAt prev)) then Add (mf_GeneratedAt prev) 1 else now
  | None => now
  end.

(** The cutoffs of [pruneStale]; an unset limit is the zero time, before which nothing is. *)
Definition pruneStale (p : publisher) (s : NodeSet) (now : Time) : NodeSet :=
  let cfg := pb_cfg p in
  if (pc_nodeMaxIdle cfg <=? 0) && (pc_verifiedMaxIdle cfg <=? 0) then s
  else
    let cutoff := if 0 <? pc_nodeMaxIdle cfg then Add now (- pc_nodeMaxIdle cfg) else zeroTime in
    let verifiedCutoff := if 0 <? pc_verifiedMaxIdle cfg then Add now (- pc_verifiedMaxIdle cfg) else zeroTime in
    fst (PruneStaleWithVerified s cutoff verifiedCutoff).

Section Publish.
Context `{Hurl : URLParser} `{Hcodec : ManifestCodec} `{Hrows : RowCodec} (registry : list Network).

Definition forkActivatedBetween (network : string) (from to : Time) : bool :=
  match ForkEraTokenAt registry from [network], ForkEraTokenAt registry to [network] with
  | Ok (before, _), Ok (after, _) => negb (before =? after)%string
  | _, _ => false
  end.

(** The reason one network gives, [""] for none. *)
Definition networkShrank (prev current : Manifest) (maxCollapsePct : Z) (kv : string * NetworkSnapshot) : string :=
  match mf_Networks current !! kv.1 with
  | None => ""
  | Some after =>
      if shrank (sn_NodeCount after) (sn_NodeCount kv.2) maxCollapsePct then "collapse_total"
      else if shrank (sn_CurrentNodeCount after) (sn_CurrentNodeCount kv.2) maxCollapsePct
              && negb (forkActivatedBetween kv.1 (mf_GeneratedAt prev) (mf_GeneratedAt current)) then "collapse_current"
      else ""
  end.

(** [shrankTooMuch]: the reason of the first network that gives one. *)
Definition shrankTooMuch (prev : option Manifest) (current : Manifest) (maxCollapsePct : Z) : string :=
  match prev with
  | None => ""
  | Some prev =>
      foldr (fun kv acc => let why := networkShrank prev current maxCollapsePct kv in if (why =? "")%string then acc else why)
        "" (map_to_list (mf_Networks prev))
  end.

Definition currentForkCount (network : string) (rows : list Row) (at_ : Time) : Z :=
  Z.of_nat (length (List.filter (fun r => RowForkCurrentAt registry (r_Layer r) network (r_ForkHash r) (r_ForkNext r) at_) rows)).

(** The rows [SnapshotNetworks] returned for a network. *)
Definition rowsOf (byNet : list (string * list Row)) (network : string) : list Row :=
  default [] (snd <$> List.find (fun kv => (kv.1 =? network)%string) byNet).

Definition build (p : publisher) (now : Time) (byNet : list (string * list Row)) : Manifest :=
  let entry network :=
    let rows := rowsOf byNet network in
    MkNetworkSnapshot (GenerationKey (pb_layout p) network now) (Z.of_nat (length rows)) (currentForkCount network rows now) "" 0 in
  MkManifest SchemaVersion now (pb_crawlerID p) (pb_run p)
    (foldl (fun m network => <[network := entry network]> m) ∅ (pb_networks p)) None.

Definition quarantine (p : publisher) : publisher := p <| pb_quarantines := pb_quarantines p + 1 |>.

(** The publisher, whether the manifest is admitted, and whether by force. *)
Definition admit_ (p : publisher) (m : Manifest) : publisher * bool * bool :=
  if negb (belowFloor m (pb_networks p) (pc_minCurrentNodes (pb_cfg p)) =? "")%string then (quarantine p, false, false)
  else if negb (shrankTooMuch (pb_prev p) m (pc_maxCollapsePct (pb_cfg p)) =? "")%string then
    if negb (pc_forcePublish (pb_cfg p)) || pb_forceUsed p || pb_forcePending p then (quarantine p, false, false)
    else (p, true, true)
  else (p, true, false).

(** One network of [serialize]. *)
Definition serializeNetwork (byNet : list (string * list Row)) (acc : option (Manifest * list generation)) (network : string)
  : option (Manifest * list generation) :=
  '(m, gens) ← acc;
  data ← ParquetFromRows (rowsOf byNet network);
  let ns := default (MkNetworkSnapshot "" 0 0 "" 0) (mf_Networks m !! network) in
  let ns := MkNetworkSnapshot (sn_GenerationKey ns) (sn_NodeCount ns) (sn_CurrentNodeCount ns) (hex_encode (sha256 data)) (slen data) in
  let m := MkManifest (mf_SchemaVersion m) (mf_GeneratedAt m) (mf_CrawlerID m) (mf_Run m) (<[network := ns]> (mf_Networks m)) (mf_LegacyPopulationHistory m) in
  Some (m, gens ++ [MkGeneration network (sn_GenerationKey ns) data (sn_NodeCount ns) (sn_CurrentNodeCount ns)]).

Definition serialize (p : publisher) (m : Manifest) (byNet : list (string * list Row)) : option (Manifest * list generation) :=
  match foldl (serializeNetwork byNet) (Some (m, [])) (pb_networks p) with
  | Some (m, gens) => if is_ok (manifest_Validate (pb_layout p) m) then Some (m, gens) else None
  | None => None
  end.

(** The keys attempted and whether every one was stored. *)
Fixpoint upload (stored : string -> bool) (gens : list generation) (uploaded : list string) : list string * bool :=
  match gens with
  | [] => (uploaded, true)
  | g :: rest => if stored (ge_key g) then upload stored rest (uploaded ++ [ge_key g]) else (uploaded ++ [ge_key g], false)
  end.

(** The keys [cleanupOrphanGenerations] deletes. *)
Definition cleanupOrphanGenerations (l : Layout) (got : Got string) (keys : list string) : list string :=
  if bool_decide (keys = []) then []
  else match Read l got with
       | ReadOk current =>
           let protected := map (fun kv : string * NetworkSnapshot => sn_GenerationKey kv.2) (map_to_list (mf_Networks current)) in
           List.filter (fun k => negb (bool_decide (k ∈ protected))) keys
       | NoManifest => keys
       | ReadError => []
       end.

(** * One publish *)

Record Env := MkEnv {
  en_clock : Time; en_set : NodeSet; en_stored : string -> bool;
  en_got : Got (string * string); en_answer : PutAnswer; en_reread : Got string; en_cleanup : Got string }.

(** What a publish did: the manifest it tried to write, whether by force, what it
    asked of [PutIfVersion], the keys it deleted, and whether it succeeded or must
    stop the crawler. *)
Record Outcome := MkOutcome {
  oc_pub : publisher; oc_attempt : option Manifest; oc_forced : bool; oc_request : option (string * string);
  oc_deleted : list string; oc_published : bool; oc_stop : bool }.

Definition storedIsOwn (stored : option Manifest) (m : Manifest) : bool :=
  match stored with
  | None => false
  | Some s => (ru_RunID (mf_Run s) =? ru_RunID (mf_Run m))%string && TEqual (mf_GeneratedAt s) (mf_GeneratedAt m)
  end.

(** A commit settles the one-shot override. *)
Definition settle (p : publisher) (forced : bool) : publisher :=
  if forced || pb_forcePending p then p <| pb_forceUsed := true |> <| pb_forcePending := false |> else p.

(** [recoverConflict]: [None] is the false answer. *)
Definition recoverConflict (p : publisher) (stored : option Manifest) (m : Manifest) (forced : bool) : option publisher :=
  match pb_prev p, stored with
  | Some prev, Some s =>
      if (ru_RunID (mf_Run s) =? ru_RunID (mf_Run m))%string && After (mf_GeneratedAt s) (mf_GeneratedAt prev)
      then Some (settle (p <| pb_prev := Some s |>) forced)
      else if (mf_CrawlerID s =? mf_CrawlerID prev)%string && TEqual (mf_GeneratedAt s) (mf_GeneratedAt prev)
      then Some (if forced then p <| pb_forcePending := true |> else p)
      else None
  | _, _ => None
  end.

Definition commit (p : publisher) (m : Manifest) (forced : bool) : publisher := (settle (p <| pb_prev := Some m |>) forced) <| pb_quarantines := 0 |>.

Definition requestOf (p : publisher) (m : Manifest) (e : Env) : option (string * string) :=
  match WriteConditional_request (pb_layout p) (pb_prev p) m (en_got e) with inl r => Some r | inr _ => None end.

(** The end of [Publish], from the write on. *)
Definition finish (p : publisher) (m : Manifest) (forced : bool) (uploaded : list string) (e : Env) : Outcome :=
  let request := requestOf p m e in
  let stored := match Read (pb_layout p) (en_reread e) with ReadOk s => Some s | _ => None end in
  let deleted := cleanupOrphanGenerations (pb_layout p) (en_cleanup e) uploaded in
  match WriteConditional (pb_layout p) (pb_prev p) m (en_got e) (en_answer e) with
  | Written => MkOutcome (commit p m forced) (Some m) forced request [] true false
  | w =>
      if storedIsOwn stored m then MkOutcome (commit p m forced) (Some m) forced request [] true false
      else match w with
           | Conflict competitor =>
               match (if competitor then None else recoverConflict p stored m forced) with
               | None => MkOutcome p (Some m) forced request deleted false true
               | Some p' => MkOutcome p' (Some m) forced request [] false false
               end
           | _ => MkOutcome (if forced then p <| pb_forcePending := true |> else p) (Some m) forced request deleted false false
           end
  end.

Definition Publish (p : publisher) (e : Env) : Outcome :=
  let now := generationTime p (en_clock e) in
  let byNet := SnapshotNetworks (en_set e) (pb_networks p) in
  let m := build p now byNet in
  let '(p, admitted, forced) := admit_ p m in
  if negb admitted then MkOutcome p None false None [] false false
  else match serialize p m byNet with
       | None => MkOutcome p None false None [] false false
       | Some (m, gens) =>
           let (uploaded, ok) := upload (en_stored e) gens [] in
           if negb ok then MkOutcome p None false None (cleanupOrphanGenerations (pb_layout p) (en_cleanup e) uploaded) false false
           else finish p m forced uploaded e
       end.

(** * Pruning generations *)

(** Older first, equal times by key; an unparsable key has the zero time. *)
Definition olderKey (l : Layout) (network : string) (a b : string) : bool :=
  let ta := default zeroTime (GenerationTime l network a) in
  let tb := default zeroTime (GenerationTime l network b) in
  if TEqual ta tb then String.leb a b else Before ta tb.

(** The deletions attempted, oldest first, until enough succeeded. *)
Fixpoint pruneLoop (deletes : string -> bool) (protected : string) (keys : list string) (toDelete : Z) : list string :=
  match keys with
  | [] => []
  | k :: rest =>
      if toDelete =? 0 then []
      else if (k =? protected)%string then pruneLoop deletes protected rest toDelete
      else if deletes k then k :: pruneLoop deletes protected rest (toDelete - 1)
      else pruneLoop deletes protected rest toDelete
  end.

(** One network of [pruneGenerationsForNetworks]: the keys it removes from a listing. *)
Definition pruneGenerations (l : Layout) (keep : Z) (current : option Manifest) (network : string) (listing : list string) (deletes : string -> bool)
  : list string :=
  if keep <=? 0 then []
  else
    let parquets := List.filter (IsGenerationKey l network) listing in
    if Z.of_nat (length parquets) <=? keep then []
    else
      let protected := match current with Some m => from_option sn_GenerationKey "" (mf_Networks m !! network) | None => "" end in
      pruneLoop deletes protected (isort (olderKey l network) parquets) (Z.of_nat (length parquets) - keep).
End Publish.
