(* ===== verification/PublisherProps.v ===== *)
(** Properties of the publisher: the guards, the one-shot override, and what a
    published generation loads as. *)

From stdpp Require Import base gmap strings list numbers pretty.
From Stdlib Require Import ZArith Lia Ascii.
From S2P Require Import Prelude GoLib Text Hashes Consensus ForkId Network Calendar NodeData Nodeset NodesetInv Releases Snapshot Publisher.

Section Props.
Context `{Hurl : URLParser} `{Hcodec : ManifestCodec} `{Hrows : RowCodec} (registry : list Network).

(** * The one-shot override *)

(** The override is spent, or may be. *)
Definition spent (p : publisher) : bool := pb_forceUsed p || pb_forcePending p.

Lemma settle_spent p forced : spent (settle p forced) = forced || spent p.
Proof.
  unfold settle, spent. destruct forced; cbn [orb]; [by upd_simpl|]. destruct (pb_forcePending p) eqn:E; [|rewrite E; done].
  upd_simpl. by rewrite orb_true_r.
Qed.

Lemma commit_spent p m forced : spent (commit p m forced) = forced || spent p.
Proof.
  transitivity (spent (settle (p <| pb_prev := Some m |>) forced)); [unfold commit, spent; by upd_simpl|].
  rewrite settle_spent. unfold spent. by upd_simpl.
Qed.

Lemma recoverConflict_spent p stored m forced p' : recoverConflict p stored m forced = Some p' -> spent p' = forced || spent p.
Proof.
  unfold recoverConflict. destruct (pb_prev p) as [prev|], stored as [s|]; try done. destruct (_ && _).
  - intros [= <-]. rewrite settle_spent. unfold spent. by upd_simpl.
  - destruct (_ && _); [|done]. intros [= <-]. destruct forced; [|done]. unfold spent. upd_simpl. cbn. apply orb_true_r.
Qed.

Lemma finish_spent p m forced uploaded e :
  let o := finish p m forced uploaded e in
  oc_forced o = forced /\ (oc_stop o = true \/ spent (oc_pub o) = forced || spent p).
Proof.
  cbv zeta. unfold finish. cbv zeta.
  assert (forall d r b, spent (oc_pub (MkOutcome (if forced then p <| pb_forcePending := true |> else p) (Some m) forced r d b false)) = forced || spent p) as Hp.
  { intros d r b. cbn [oc_pub]. destruct forced; [|done]. unfold spent. upd_simpl. cbn. apply orb_true_r. }
  destruct (WriteConditional _ _ _ _ _) as [|competitor|why]; [split; [done|right; apply commit_spent]| |];
    (destruct (storedIsOwn _ _); [split; [done|right; apply commit_spent]|]); [|split; [done|right; apply Hp]].
  destruct competitor; [split; [done|by left]|]. destruct (recoverConflict _ _ _ _) as [p'|] eqn:E; [|split; [done|by left]].
  split; [done|right]. by eapply recoverConflict_spent.
Qed.

Lemma admit_cases p m :
  let '(p', admitted, forced) := admit_ registry p m in
  spent p' = spent p /\ (forced = true -> admitted = true /\ spent p = false /\ pc_forcePublish (pb_cfg p) = true) /\
  (admitted = true -> p' = p /\ belowFloor m (pb_networks p) (pc_minCurrentNodes (pb_cfg p)) = "" /\
     (forced = false -> shrankTooMuch registry (pb_prev p) m (pc_maxCollapsePct (pb_cfg p)) = "")).
Proof.
  assert (spent (quarantine p) = spent p) as Hq by (unfold quarantine, spent; by upd_simpl).
  unfold admit_. destruct (String.eqb_spec (belowFloor m (pb_networks p) (pc_minCurrentNodes (pb_cfg p))) ""); cbn [negb]; [|done].
  destruct (String.eqb_spec (shrankTooMuch registry (pb_prev p) m (pc_maxCollapsePct (pb_cfg p))) ""); cbn [negb]; [done|].
  destruct (pc_forcePublish (pb_cfg p)); cbn [negb orb]; [|done]. change (pb_forceUsed p || pb_forcePending p) with (spent p).
  by destruct (spent p).
Qed.

(** A forced attempt spends the override or stops the crawler, and needs it unspent. *)
Lemma Publish_spent p e :
  let o := Publish registry p e in
  (oc_forced o = true -> spent p = false) /\ (oc_stop o = true \/ spent (oc_pub o) = oc_forced o || spent p).
Proof.
  cbv zeta. unfold Publish. cbv zeta. set (m := build _ _ _ _). pose proof (admit_cases p m) as Ha.
  destruct (admit_ registry p m) as [[p' admitted] forced]. destruct Ha as (Hs & Hf & Hok).
  destruct admitted; cbn [negb]; [|cbn; split; [done|by right]]. destruct Hok as (-> & _ & _); [done|].
  assert (forall d, (false = true -> spent p = false) /\ (false = true \/ spent (oc_pub (MkOutcome p None false None d false false)) = false || spent p)) as Hn
    by (intros; split; [done|by right]).
  destruct (serialize _ _ _) as [[m' gens]|]; [|apply (Hn [])]. destruct (upload _ _ _) as [uploaded ok]. destruct ok; cbn [negb]; [|apply Hn].
  pose proof (finish_spent p m' forced uploaded e) as [H1 H2]. rewrite H1. split; [|done]. intros ->. by apply Hf.
Qed.

(** The publishes of one process, up to the one that stops it. *)
Fixpoint publishes (p : publisher) (es : list Env) : list Outcome :=
  match es with
  | [] => []
  | e :: es => let o := Publish registry p e in o :: (if oc_stop o then [] else publishes (oc_pub o) es)
  end.

Lemma publishes_spent p es : spent p = true -> Forall (fun o => oc_forced o = false) (publishes p es).
Proof.
  revert p. induction es as [|e es IH]; intros p Hs; [constructor|]. cbn [publishes]. cbv zeta.
  destruct (Publish_spent p e) as [H1 H2]. assert (oc_forced (Publish registry p e) = false) as Hf.
  { destruct (oc_forced _); [|done]. specialize (H1 eq_refl). congruence. }
  constructor; [done|]. destruct (oc_stop _); [constructor|]. apply IH. destruct H2 as [H2|H2]; [congruence|]. by rewrite H2, Hs, orb_true_r.
Qed.

(** The override is used once: however the store answers, whatever it commits
    without saying so, and whatever the clock and the set do, a crawler offers the
    store at most one manifest its shrink guard rejected. *)
Theorem force_once p es : (length (List.filter oc_forced (publishes p es)) <= 1)%nat.
Proof.
  revert p. induction es as [|e es IH]; intros p; [cbn; lia|]. cbn [publishes]. cbv zeta. cbn [List.filter].
  destruct (oc_forced (Publish registry p e)) eqn:Ef; [|destruct (oc_stop _); [cbn; lia|apply IH]].
  destruct (Publish_spent p e) as [H1 H2]. destruct (oc_stop (Publish registry p e)); [cbn; lia|].
  destruct H2 as [?|H2]; [done|]. rewrite Ef in H2. cbn [length].
  assert (List.filter oc_forced (publishes (oc_pub (Publish registry p e)) es) = []) as ->; [|cbn; lia].
  pose proof (publishes_spent _ es H2) as H. induction H as [|o l Ho _ IHl]; [done|]. cbn [List.filter]. by rewrite Ho.
Qed.

(** * What an attempt offers *)

(** The entry of a network is the one counted before, with the data's size and hash. *)
Definition sealed (byNet : list (string * list Row)) (gens : list generation) (network : string) (ns : NetworkSnapshot) : Prop :=
  exists data, ParquetFromRows (rowsOf byNet network) = Some data /\ sn_Bytes ns = slen data /\
    sn_SHA256 ns = hex_encode (sha256 data) /\ MkGeneration network (sn_GenerationKey ns) data (sn_NodeCount ns) (sn_CurrentNodeCount ns) ∈ gens.

Definition counts_of (ns : NetworkSnapshot) : string * Z * Z := (sn_GenerationKey ns, sn_NodeCount ns, sn_CurrentNodeCount ns).

Definition serialized (byNet : list (string * list Row)) (m m' : Manifest) (done : list string) (gens : list generation) : Prop :=
  mf_GeneratedAt m' = mf_GeneratedAt m /\ (forall n, counts_of <$> mf_Networks m' !! n = counts_of <$> mf_Networks m !! n) /\
  forall n ns, n ∈ done -> mf_Networks m' !! n = Some ns -> sealed byNet gens n ns.

Lemma sealed_mono byNet gens gens' n ns : (forall g, g ∈ gens -> g ∈ gens') -> sealed byNet gens n ns -> sealed byNet gens' n ns.
Proof. intros H (data & ? & ? & ? & ?). exists data. auto. Qed.

Lemma serialize_loop byNet m networks done m1 gens1 m' gens' :
  (forall n, n ∈ networks -> is_Some (mf_Networks m !! n)) -> serialized byNet m m1 done gens1 ->
  foldl (serializeNetwork byNet) (Some (m1, gens1)) networks = Some (m', gens') ->
  serialized byNet m m' (done ++ networks) gens'.
Proof.
  revert done m1 gens1. induction networks as [|n networks IH]; intros done m1 gens1 Hin Hs H.
  { cbn in H. injection H as <- <-. by rewrite app_nil_r. }
  cbn [foldl] in H. destruct (serializeNetwork byNet (Some (m1, gens1)) n) as [[m2 gens2]|] eqn:E.
  2: { exfalso. clear -H. induction networks as [|x l IH]; [done|]. apply IH, H. }
  rewrite cons_middle, app_assoc. apply (IH (done ++ [n]) m2 gens2); [|clear IH H|done].
  { intros x Hx. apply Hin. by right. }
  destruct (Hin n) as [ns0 H0]; [left|]. destruct Hs as (Ht & Hc & Hd). unfold serializeNetwork in E. cbn [mbind option_bind] in E.
  destruct (ParquetFromRows (rowsOf byNet n)) as [data|] eqn:Ep; [|done]. cbn [mbind option_bind] in E. injection E as <- <-.
  destruct (mf_Networks m1 !! n) as [ns1|] eqn:E1; [|specialize (Hc n); rewrite E1, H0 in Hc; done]. cbn [default from_option id].
  split; [done|]. cbn [mf_Networks]. split.
  - intros x. destruct (decide (n = x)) as [<-|Hne]; [rewrite lookup_insert_eq, <- Hc, E1; done|by rewrite lookup_insert_ne].
  - intros x ns Hx Hns. destruct (decide (n = x)) as [<-|Hne].
    + rewrite lookup_insert_eq in Hns. injection Hns as <-. exists data. split_and!; [done..|]. apply elem_of_app. right. left.
    + rewrite lookup_insert_ne in Hns by done. eapply sealed_mono; [|apply Hd; [|done]].
      * intros g Hg. apply elem_of_app. by left.
      * apply elem_of_app in Hx as [Hx|Hx%list_elem_of_singleton]; [done|congruence].
Qed.

Lemma build_lookup p now byNet n :
  mf_Networks (build registry p now byNet) !! n =
  if bool_decide (n ∈ pb_networks p) then
    Some (MkNetworkSnapshot (GenerationKey (pb_layout p) n now) (Z.of_nat (length (rowsOf byNet n))) (currentForkCount registry n (rowsOf byNet n) now) "" 0)
  else None.
Proof.
  unfold build. cbn [mf_Networks]. generalize (pb_networks p). intros l. induction l as [|x l IH] using rev_ind.
  - rewrite bool_decide_false by apply not_elem_of_nil. apply lookup_empty.
  - rewrite foldl_app. cbn [foldl]. destruct (decide (x = n)) as [->|Hne].
    + rewrite lookup_insert_eq, bool_decide_true; [done|]. apply elem_of_app. right. left.
    + rewrite lookup_insert_ne, IH by done. erewrite bool_decide_ext; [done|]. rewrite elem_of_app, list_elem_of_singleton. naive_solver.
Qed.

Lemma serialize_sealed p now byNet m' gens :
  serialize p (build registry p now byNet) byNet = Some (m', gens) ->
  manifest_Validate (pb_layout p) m' = Ok tt /\ serialized byNet (build registry p now byNet) m' (pb_networks p) gens.
Proof.
  unfold serialize. destruct (foldl _ _ _) as [[m2 gens2]|] eqn:E; [|done]. destruct (is_ok _) eqn:Ev; [|done]. intros [= -> ->]. split.
  - destruct (manifest_Validate (pb_layout p) m') as [[]|]; done.
  - eapply (serialize_loop _ _ _ []); [| |exact E].
    + intros n Hn. rewrite build_lookup, bool_decide_true by done. eauto.
    + split; [done|]. split; [done|]. by intros n ns ?%elem_of_nil.
Qed.

(** The guards only read the counts. *)
Lemma belowFloor_counts m m' networks k : (forall n, counts_of <$> mf_Networks m' !! n = counts_of <$> mf_Networks m !! n) ->
  belowFloor m' networks k = belowFloor m networks k.
Proof.
  intros H. unfold belowFloor. destruct (k <=? 0); [done|].
  assert (forall n, from_option sn_CurrentNodeCount 0 (mf_Networks m' !! n) = from_option sn_CurrentNodeCount 0 (mf_Networks m !! n)) as Hc.
  { intros n. specialize (H n). unfold counts_of in H.
    destruct (mf_Networks m' !! n), (mf_Networks m !! n); cbn in *; try done. by injection H. }
  assert (existsb (fun n => from_option sn_CurrentNodeCount 0 (mf_Networks m' !! n) <? k) networks =
          existsb (fun n => from_option sn_CurrentNodeCount 0 (mf_Networks m !! n) <? k) networks) as ->; [|done].
  induction networks as [|n l IH]; [done|]. cbn [existsb]. by rewrite IH, Hc.
Qed.

Lemma shrank_counts prev m m' pct : mf_GeneratedAt m' = mf_GeneratedAt m -> (forall n, counts_of <$> mf_Networks m' !! n = counts_of <$> mf_Networks m !! n) ->
  shrankTooMuch registry prev m' pct = shrankTooMuch registry prev m pct.
Proof.
  intros Ht H. unfold shrankTooMuch. destruct prev as [prev|]; [|done].
  assert (forall kv, networkShrank registry prev m' pct kv = networkShrank registry prev m pct kv) as Hn.
  { intros kv. unfold networkShrank. specialize (H kv.1). unfold counts_of in H. rewrite Ht.
    destruct (mf_Networks m' !! kv.1) as [a|], (mf_Networks m !! kv.1) as [b|]; cbn in H; try done.
    injection H as _ H1 H2. by rewrite H1, H2. }
  generalize (map_to_list (mf_Networks prev)). intros l. induction l as [|kv l IH]; [done|]. cbn [foldr]. by rewrite Hn, IH.
Qed.

Lemma upload_all stored gens acc keys : upload stored gens acc = (keys, true) -> forall g, g ∈ gens -> stored (ge_key g) = true.
Proof.
  revert acc. induction gens as [|g gens IH]; intros acc H x Hx; [by apply elem_of_nil in Hx|]. cbn [upload] in H.
  destruct (stored (ge_key g)) eqn:E; [|done]. apply elem_of_cons in Hx as [->|Hx]; [done|by eapply IH].
Qed.

Lemma finish_attempt p m forced uploaded e : oc_attempt (finish p m forced uploaded e) = Some m.
Proof.
  unfold finish. cbv zeta. destruct (WriteConditional _ _ _ _ _) as [|competitor|why]; [done|..]; (destruct (storedIsOwn _ _); [done|]); [|done].
  destruct competitor; [done|]. by destruct (recoverConflict _ _ _ _).
Qed.

Lemma finish_request p m forced uploaded e : oc_request (finish p m forced uploaded e) = requestOf p m e.
Proof.
  unfold finish. cbv zeta. destruct (WriteConditional _ _ _ _ _) as [|competitor|why]; [done|..]; (destruct (storedIsOwn _ _); [done|]); [|done].
  destruct competitor; [done|]. by destruct (recoverConflict _ _ _ _).
Qed.

(** Everything known of an attempt. *)
Lemma attempt_inv p e m :
  oc_attempt (Publish registry p e) = Some m ->
  let now := generationTime p (en_clock e) in
  let byNet := SnapshotNetworks (en_set e) (pb_networks p) in
  exists gens uploaded forced,
    Publish registry p e = finish p m forced uploaded e /\
    serialize p (build registry p now byNet) byNet = Some (m, gens) /\ upload (en_stored e) gens [] = (uploaded, true) /\
    admit_ registry p (build registry p now byNet) = (p, true, forced).
Proof.
  cbv zeta. unfold Publish. cbv zeta. set (m0 := build _ _ _ _). pose proof (admit_cases p m0) as Ha.
  destruct (admit_ registry p m0) as [[p' admitted] forced]. destruct Ha as (_ & _ & Hok).
  destruct admitted; cbn [negb]; [|done]. destruct Hok as (-> & _ & _); [done|].
  destruct (serialize _ _ _) as [[m' gens]|] eqn:Es; [|done]. destruct (upload _ _ _) as [uploaded ok] eqn:Eu. destruct ok; cbn [negb]; [|done].
  rewrite finish_attempt. intros [= <-]. by exists gens, uploaded, forced.
Qed.

Lemma generationTime_after p now : match pb_prev p with Some prev => mf_GeneratedAt prev < generationTime p now | None => True end.
Proof.
  unfold generationTime, After, Add. destruct (pb_prev p) as [prev|]; [|done]. destruct (Z.ltb_spec (mf_GeneratedAt prev) now); cbn [negb]; lia.
Qed.

End Props.
