(* ===== verification/PublisherLoad.v ===== *)
(** What the publisher writes, the readers load; and what pruning leaves. *)

From stdpp Require Import base gmap strings list numbers pretty.
From Stdlib Require Import ZArith Lia Ascii.
From S2P Require Import Prelude GoLib Text Hashes Consensus ForkId Network Calendar NodeData Nodeset Eviction Releases Snapshot Publisher PublisherProps.
From stdpp Require Import list sorting.
#[local] Open Scope Z_scope.

(** * Rows of a set *)

Lemma rowsOf_snapshot s networks network :
  network ∈ networks ->
  rowsOf (SnapshotNetworks s networks) network =
  map row (List.filter (fun n => (n_Network n =? network)%string && snapshotEligible n) (map_values (s_m s))).
Proof.
  intros Hin. unfold rowsOf, SnapshotNetworks. apply elem_of_remove_dups in Hin. revert Hin.
  generalize (remove_dups networks). intros l. induction l as [|x l IH]; intros Hin; [by apply elem_of_nil in Hin|].
  cbn [map List.find fst]. destruct (String.eqb_spec x network) as [->|Hne]; [done|].
  apply IH. apply elem_of_cons in Hin as [->|?]; [done|done].
Qed.

Lemma rows_valid s networks network :
  keyed (s_m s) -> (forall id n, s_m s !! id = Some n -> id <> "") -> network ∈ networks ->
  let rows := rowsOf (SnapshotNetworks s networks) network in
  ValidateRows network (Z.of_nat (length rows)) rows = Ok tt.
Proof.
  intros Hk Hid Hin. cbv zeta. rewrite rowsOf_snapshot by done. apply ValidateRows_ok. split; [done|].
  set (l := List.filter _ _). assert (forall n, n ∈ l -> n_Network n = network /\ n ∈ map_values (s_m s)) as Hl.
  { intros n [Hn1 Hn2]%elem_of_lfilter. boolify. auto. }
  split.
  - apply Forall_forall. intros r (n & -> & Hn)%list_elem_of_fmap. destruct (Hl n Hn) as [H1 H2]. cbn. split; [done|].
    intros E. apply elem_of_map_values in H2 as [k H2]. pose proof (Hk k n H2) as Hkn. cbv beta in Hkn.
    apply (Hid k n H2). rewrite <- Hkn. by destruct (n_ID n).
  - assert (map r_ID (map row l) = map hex_encode (map n_ID l)) as -> by (rewrite !map_map; by apply map_ext).
    apply NoDup_fmap_2; [apply _|]. unfold l. clear -Hk. pose proof (keyed_NoDup _ Hk) as H.
    induction (map_values (s_m s)) as [|n vs IH]; [constructor|]. cbn [fmap list_fmap] in H. apply NoDup_cons in H as [Hn H].
    cbn [List.filter]. destruct (_ && _); [|by apply IH]. cbn [map]. apply NoDup_cons. split; [|by apply IH].
    intros (x & Ex & Hx)%list_elem_of_fmap. apply elem_of_lfilter in Hx as [Hx _]. apply Hn. rewrite Ex. by apply list_elem_of_fmap_2.
Qed.

Section Load.
Context `{Hurl : URLParser} `{Hcodec : ManifestCodec} `{Hrows : RowCodec} (registry : list Network).

(** Parquet reads back what it wrote. *)
Definition parquet_ok : Prop := forall rows data, ParquetFromRows rows = Some data -> ParquetRead data = Some rows.

(** The rows of a network of an attempted manifest, from any store that holds what was
    uploaded for it. *)
Lemma loads_from p e m network ns data get :
  oc_attempt (Publish registry p e) = Some m -> mf_Networks m !! network = Some ns ->
  parquet_ok -> keyed (s_m (en_set e)) -> (forall id n, s_m (en_set e) !! id = Some n -> id <> "") ->
  0 <= mf_GeneratedAt m < year10000 ->
  ParquetFromRows (rowsOf (SnapshotNetworks (en_set e) (pb_networks p)) network) = Some data -> get (sn_GenerationKey ns) = Found data ->
  LoadNetworkRows (pb_layout p) m network get =
  Ok (map row (List.filter (fun n => (n_Network n =? network)%string && snapshotEligible n) (map_values (s_m (en_set e))))).
Proof.
  intros Ha Hns Hq Hk Hid Ht Hdata Hget. apply attempt_inv in Ha. cbv zeta in Ha. destruct Ha as (gens & uploaded & forced & _ & Hs & _ & _).
  apply serialize_sealed in Hs as (Hv & Hgt & Hc & Hd). specialize (Hc network). rewrite Hns, build_lookup in Hc. cbn in Hc.
  destruct (bool_decide (network ∈ pb_networks p)) eqn:Ein; [|done]. apply bool_decide_eq_true in Ein. cbn in Hc.
  unfold counts_of in Hc. cbn in Hc. injection Hc as _ Hcount _.
  destruct (Hd network ns Ein Hns) as (data' & Hp & Hb & Hh & _). rewrite Hdata in Hp. injection Hp as <-.
  destruct (Validate_network _ _ _ _ Hv Hns) as (_ & Hkey & _ & Hbytes). unfold LoadNetworkRows. rewrite Hns, Hget.
  assert (VerifyGeneration (pb_layout p) network ns data = Ok tt) as ->.
  { unfold VerifyGeneration, IsGenerationKey. rewrite Hkey, GenerationTime_key by done. rewrite bool_decide_eq_true_2 by eauto. cbn [negb].
    rewrite Hb, Z.eqb_refl, Hh, String.eqb_refl. done. }
  cbn [rbind]. unfold RowsFromParquet. destruct (String.eqb_spec data "") as [->|_]; [change (slen "") with 0 in Hb; lia|].
  rewrite (Hq _ _ Hdata), Hcount, rows_valid by done. cbn [rbind]. by rewrite rowsOf_snapshot.
Qed.

(** The networks of an attempted manifest are those of the publisher, each with rows. *)
Lemma attempt_networks p e m network : oc_attempt (Publish registry p e) = Some m ->
  match mf_Networks m !! network with
  | Some _ => network ∈ pb_networks p /\ is_Some (ParquetFromRows (rowsOf (SnapshotNetworks (en_set e) (pb_networks p)) network))
  | None => network ∉ pb_networks p
  end.
Proof.
  intros Ha. apply attempt_inv in Ha. cbv zeta in Ha. destruct Ha as (gens & uploaded & forced & _ & Hs & _ & _).
  apply serialize_sealed in Hs as (_ & _ & Hc & Hd). specialize (Hc network). rewrite build_lookup in Hc.
  destruct (mf_Networks m !! network) as [ns|] eqn:Hns.
  - case_bool_decide as Hin; [|done]. split; [done|]. destruct (Hd network ns Hin Hns) as (d & Hp & _). by exists d.
  - by case_bool_decide.
Qed.

(** Published snapshots load.  For every network of a manifest a publish tried to
    write, a reader that finds the stored object gets exactly the rows of the set
    that were eligible on that network: key, size, hash, count, network and identity
    checks all pass. *)
Theorem published_loads p e m network ns data :
  oc_attempt (Publish registry p e) = Some m -> mf_Networks m !! network = Some ns ->
  parquet_ok -> keyed (s_m (en_set e)) -> (forall id n, s_m (en_set e) !! id = Some n -> id <> "") ->
  0 <= mf_GeneratedAt m < year10000 ->
  ParquetFromRows (rowsOf (SnapshotNetworks (en_set e) (pb_networks p)) network) = Some data ->
  LoadNetworkRows (pb_layout p) m network (fun key => if (key =? sn_GenerationKey ns)%string then Found data else NotFound) =
  Ok (map row (List.filter (fun n => (n_Network n =? network)%string && snapshotEligible n) (map_values (s_m (en_set e))))).
Proof.
  intros Ha Hns Hq Hk Hid Ht Hdata. eapply loads_from; try done. cbv beta. by rewrite String.eqb_refl.
Qed.
End Load.

(** * Pruning *)

Section Prune.
Context (l : Layout) (network : string) (deletes : string -> bool) (protected : string).

Lemma pruneLoop_sublist keys n : sublist (pruneLoop deletes protected keys n) keys.
Proof.
  revert n. induction keys as [|k keys IH]; intros n; [constructor|]. cbn [pruneLoop].
  destruct (n =? 0); [apply sublist_nil_l|]. destruct (_ =? _)%string; [by apply sublist_cons|].
  destruct (deletes k); [by apply sublist_skip|by apply sublist_cons].
Qed.

Lemma pruneLoop_protected keys n : protected ∉ pruneLoop deletes protected keys n.
Proof.
  revert n. induction keys as [|k keys IH]; intros n; [apply not_elem_of_nil|]. cbn [pruneLoop].
  destruct (n =? 0); [apply not_elem_of_nil|]. destruct (String.eqb_spec k protected) as [|Hne]; [apply IH|].
  destruct (deletes k); [|apply IH]. intros [?|?]%elem_of_cons; [congruence|by eapply IH].
Qed.

Lemma pruneLoop_length keys n : 0 <= n -> Z.of_nat (length (pruneLoop deletes protected keys n)) <= n.
Proof.
  revert n. induction keys as [|k keys IH]; intros n Hn; [cbn; lia|]. cbn [pruneLoop].
  destruct (Z.eqb_spec n 0); [cbn; lia|]. destruct (_ =? _)%string; [by apply IH|].
  destruct (deletes k); [|by apply IH]. cbn [length]. specialize (IH (n - 1) ltac:(lia)). lia.
Qed.

(** A key the loop leaves although its deletion would work is protected or comes
    after every deleted key. *)
Lemma pruneLoop_prefix keys n : 0 <= n ->
  exists visited rest, keys = visited ++ rest /\ pruneLoop deletes protected keys n = List.filter (fun k => negb (k =? protected)%string && deletes k) visited /\
    (rest = [] \/ Z.of_nat (length (pruneLoop deletes protected keys n)) = n).
Proof.
  revert n. induction keys as [|k keys IH]; intros n Hn; [exists [], []; auto|]. cbn [pruneLoop].
  destruct (Z.eqb_spec n 0) as [->|Hne]; [exists [], (k :: keys); auto|].
  destruct (k =? protected)%string eqn:Ek.
  - destruct (IH n Hn) as (v & r & -> & H1 & H2). exists (k :: v), r. cbn [List.filter]. rewrite Ek. auto.
  - destruct (deletes k) eqn:Ed.
    + destruct (IH (n - 1) ltac:(lia)) as (v & r & -> & H1 & H2). exists (k :: v), r. cbn [List.filter]. rewrite Ek, Ed. cbn [negb andb].
      split; [done|]. split; [by rewrite H1|]. destruct H2 as [?|H2]; [by left|right]. cbn [length]. lia.
    + destruct (IH n Hn) as (v & r & -> & H1 & H2). exists (k :: v), r. cbn [List.filter]. rewrite Ek, Ed. auto.
Qed.
End Prune.

Definition namedBy (current : option Manifest) (network : string) : string :=
  match current with Some m => from_option sn_GenerationKey "" (mf_Networks m !! network) | None => "" end.

Lemma olderKey_total l network a b : olderKey l network a b = false -> olderKey l network b a = true.
Proof.
  unfold olderKey, TEqual, Before. rewrite (Z.eqb_sym (default zeroTime (GenerationTime l network b))).
  destruct (Z.eqb_spec (default zeroTime (GenerationTime l network a)) (default zeroTime (GenerationTime l network b)));
    [apply string_leb_total|]. intros H. boolify. lia.
Qed.

Lemma olderKey_trans l network a b c : olderKey l network a b = true -> olderKey l network b c = true -> olderKey l network a c = true.
Proof.
  unfold olderKey, TEqual, Before. set (ta := default zeroTime (GenerationTime l network a)).
  set (tb := default zeroTime (GenerationTime l network b)). set (tc := default zeroTime (GenerationTime l network c)).
  destruct (Z.eqb_spec ta tb), (Z.eqb_spec tb tc), (Z.eqb_spec ta tc); try lia; try apply string_leb_trans; intros; boolify; lia.
Qed.

(** Pruning is safe and bounded: it removes only generation keys of the listing and
    never the one the current manifest names, at least as many remain as it keeps,
    and it goes by age: a key that could be deleted and was not is either named by
    the manifest or no older than any deleted one, and then the excess is gone. *)
Theorem pruneGenerations_safe l keep current network listing deletes :
  let parquets := List.filter (IsGenerationKey l network) listing in
  let removed := pruneGenerations l keep current network listing deletes in
  (forall k, k ∈ removed -> k ∈ listing /\ IsGenerationKey l network k = true /\ deletes k = true /\ k <> namedBy current network) /\
  Z.of_nat (length removed) <= Z.max 0 (Z.of_nat (length parquets) - keep) /\
  (0 < keep -> forall k d, k ∈ parquets -> k ∉ removed -> deletes k = true -> k <> namedBy current network -> d ∈ removed ->
     olderKey l network d k = true /\ Z.of_nat (length removed) = Z.of_nat (length parquets) - keep).
Proof.
  cbv zeta. unfold pruneGenerations. destruct (Z.leb_spec keep 0).
  { split_and!; [by intros k ?%elem_of_nil|cbn; lia|lia]. }
  set (parquets := List.filter (IsGenerationKey l network) listing). destruct (Z.leb_spec (Z.of_nat (length parquets)) keep).
  { split_and!; [by intros k ?%elem_of_nil|cbn; lia|by intros _ k d _ _ _ _ ?%elem_of_nil]. }
  fold (namedBy current network). set (sorted := isort (olderKey l network) parquets). set (n := Z.of_nat (length parquets) - keep).
  assert (forall k, k ∈ sorted <-> k ∈ parquets) as Hsorted by (intros; apply elem_of_isort).
  destruct (pruneLoop_prefix deletes (namedBy current network) sorted n ltac:(lia)) as (visited & rest & Hv & Hp & Hn).
  pose proof (pruneLoop_length deletes (namedBy current network) sorted n ltac:(lia)) as Hlen. split_and!.
  - intros k Hk. rewrite Hp in Hk. apply elem_of_lfilter in Hk as [Hk Hkv]. boolify. 
    assert (k ∈ sorted) as Hks by (rewrite Hv; apply elem_of_app; by left). apply Hsorted, elem_of_lfilter in Hks as [? ?]. done.
  - lia.
  - intros _ k d Hk Hkr Hdel Hne Hd. assert (k ∈ rest) as Hrest.
    { apply Hsorted in Hk. rewrite Hv in Hk. apply elem_of_app in Hk as [Hk|Hk]; [|done]. exfalso. apply Hkr. rewrite Hp.
      apply elem_of_lfilter. split; [done|]. boolify; done. }
    split; [|destruct Hn as [->|Hn]; [by apply elem_of_nil in Hrest|exact Hn]].
    rewrite Hp in Hd. apply elem_of_lfilter in Hd as [Hd _].
    pose proof (isort_sorted (olderKey l network) (olderKey_total l network) (olderKey_trans l network) parquets) as Hs.
    fold sorted in Hs. rewrite Hv in Hs. apply StronglySorted_app in Hs as (Hs & _ & _). by apply Hs.
Qed.
