(* ===== verification/PublisherRaces.v ===== *)
(** Several crawlers on one manifest: reads may be stale, writes may land without an
    answer, processes come and go, and the stored manifests still only move forward.  A
    concrete environment for the theorems of the publisher follows. *)

From stdpp Require Import base gmap strings list numbers pretty.
From Stdlib Require Import ZArith Lia Ascii Relations.
From S2P Require Import Prelude GoLib Hashes Consensus ForkId Network NodeData Nodeset Eviction Text Releases Calendar Snapshot Publisher.
From S2P Require Import PublisherProps PublisherLoad.
From stdpp Require Import list sorting.
#[local] Open Scope Z_scope.

Section Races.
Context `{Hurl : URLParser} `{Hcodec : ManifestCodec} `{Hrows : RowCodec} (registry : list Network) (layout : Layout).

(** Every manifest object stored so far, oldest first, and the running processes. *)
Record World := MkWorld { wo_log : list string; wo_pubs : gmap string publisher }.

(** The store's contract of [ConditionalStore]: the object's version changes with every
    write, and a conditional write lands only over the version it expects, the empty
    one when there is no object. *)
Definition version_of (n : nat) : string := "v" +:+ pretty (N.of_nat n).
Definition currentVersion (log : list string) : string := if bool_decide (log = []) then "" else version_of (length log).

(** A read sees the object some number of writes had made. *)
Definition view (log : list string) (n : nat) : Got (string * string) :=
  match n with O => NotFound | S i => match log !! i with Some d => Found (d, version_of n) | None => GetError end end.

Inductive race_step : World -> World -> Prop :=
| step_start id p log pubs : race_step (MkWorld log pubs) (MkWorld log (<[id := p]> pubs))
| step_exit id log pubs : race_step (MkWorld log pubs) (MkWorld log (delete id pubs))
| step_publish id p e log log' pubs :
    pubs !! id = Some p -> pb_layout p = layout ->
    (en_got e = GetError \/ exists n, (n <= length log)%nat /\ en_got e = view log n) ->
    (en_answer e <> PutOk /\ log' = log \/ oc_request (Publish registry p e) = None /\ log' = log \/
     exists data, oc_request (Publish registry p e) = Some (currentVersion log, data) /\ log' = log ++ [data]) ->
    race_step (MkWorld log pubs)
      (MkWorld log' (if oc_stop (Publish registry p e) then delete id pubs else <[id := oc_pub (Publish registry p e)]> pubs)).

Definition reachable (w : World) : Prop := exists pubs, clos_refl_trans _ race_step (MkWorld [] pubs) w.

(** The text form reads back. *)
Definition manifest_codec_ok : Prop := forall m data, MarshalManifest m = Some data -> UnmarshalManifest data = Some m.

Definition newer (d d' : string) : Prop :=
  exists m m', UnmarshalManifest d = Some m /\ UnmarshalManifest d' = Some m' /\ mf_GeneratedAt m < mf_GeneratedAt m'.
Definition storedOk (d : string) : Prop := exists m, UnmarshalManifest d = Some m /\ validateWritable layout m = Ok tt.
Definition log_ok (log : list string) : Prop := StronglySorted newer log /\ Forall storedOk log.

Lemma attempt_newer p e m prev :
  oc_attempt (Publish registry p e) = Some m -> pb_prev p = Some prev -> mf_GeneratedAt prev < mf_GeneratedAt m.
Proof.
  intros Ha Hp. apply attempt_inv in Ha. cbv zeta in Ha. destruct Ha as (gens & uploaded & forced & _ & Hs & _ & _).
  apply serialize_sealed in Hs as (_ & -> & _ & _). pose proof (generationTime_after p (en_clock e)) as H. by rewrite Hp in H.
Qed.

Lemma Publish_request p e r : oc_request (Publish registry p e) = Some r ->
  exists m, oc_attempt (Publish registry p e) = Some m /\ requestOf p m e = Some r.
Proof.
  unfold Publish. cbv zeta. set (m0 := build _ _ _ _). pose proof (admit_cases registry p m0) as Ha.
  destruct (admit_ registry p m0) as [[p' admitted] forced]. destruct Ha as (_ & _ & Hok).
  destruct admitted; cbn [negb]; [|done]. destruct Hok as (-> & _ & _); [done|].
  destruct (serialize _ _ _) as [[m' gens]|]; [|done]. destruct (upload _ _ _) as [uploaded ok]. destruct ok; cbn [negb]; [|done].
  rewrite finish_request, finish_attempt. eauto.
Qed.

Lemma version_of_inj i j : version_of i = version_of j -> i = j.
Proof. unfold version_of. intros H. by do 3 apply (inj _) in H. Qed.

(** What a landed write replaced was read, and was this run's or the previous one. *)
Lemma request_follows p e m log n data :
  validateWritable layout m = Ok tt -> pb_layout p = layout -> (n <= length log)%nat -> en_got e = view log n ->
  requestOf p m e = Some (currentVersion log, data) -> 
  MarshalManifest m = Some data /\
  (log = [] \/ exists d current, last log = Some d /\ UnmarshalManifest d = Some current /\
     (ownWrite current m = true \/ isPrevious (pb_prev p) current = true)).
Proof.
  intros Hv Hl Hn Hg. unfold requestOf, WriteConditional_request. rewrite Hl, Hv, Hg. unfold view. destruct n as [|i].
  - destruct (pb_prev p); [done|]. destruct (MarshalManifest m) as [enc|]; [|done]. intros [= Hc <-]. split; [done|left].
    unfold currentVersion in Hc. case_bool_decide as E; [done|]. done.
  - destruct (log !! i) as [d|] eqn:Ed; [|done]. destruct (decodeManifest layout d) as [current|] eqn:Edec; [|done].
    destruct (negb (ownWrite current m) && negb (isPrevious (pb_prev p) current)) eqn:Eo; [done|].
    destruct (MarshalManifest m) as [enc|]; [|done]. intros [= Hc <-]. split; [done|right]. exists d, current.
    unfold currentVersion in Hc. case_bool_decide as E; [by rewrite E in Ed|]. apply version_of_inj in Hc. split_and!.
    + rewrite last_lookup, <- Hc. exact Ed.
    + unfold decodeManifest in Edec. destruct (_ <? _); [done|]. destruct (UnmarshalManifest d) as [c|]; [|done].
      destruct (manifest_Validate layout c); [by injection Edec as ->|done].
    + apply andb_false_iff in Eo. rewrite !negb_false_iff in Eo. done.
Qed.

Lemma sorted_snoc (log : list string) d :
  StronglySorted newer log -> (forall x, x ∈ log -> newer x d) -> StronglySorted newer (log ++ [d]).
Proof.
  intros Hs Hd. apply StronglySorted_app. split_and!; [|done|repeat constructor].
  intros x y Hx Hy%list_elem_of_singleton. subst. by apply Hd.
Qed.

(** Every stored manifest precedes the last, and so anything newer than it. *)
Lemma newer_than_last log d current m data :
  log_ok log -> last log = Some d -> UnmarshalManifest d = Some current -> UnmarshalManifest data = Some m ->
  mf_GeneratedAt current < mf_GeneratedAt m -> forall x, x ∈ log -> newer x data.
Proof.
  intros [Hs _] Hlast Hd Hm Hlt x Hx. apply last_Some in Hlast as [l ->]. apply StronglySorted_app in Hs as (Hs & _ & _).
  apply elem_of_app in Hx as [Hx|Hx%list_elem_of_singleton]; [|subst; by exists current, m].
  destruct (Hs x d Hx) as (a & b & Ha & Hb & Hab); [left|]. rewrite Hd in Hb. injection Hb as <-. exists a, m. split_and!; [done..|lia].
Qed.

Lemma race_step_ok w w' : manifest_codec_ok -> race_step w w' -> log_ok (wo_log w) -> log_ok (wo_log w').
Proof.
  intros Hc Hstep Hok. destruct Hstep as [| |id p e log log' pubs Hp Hl Hgot Hland]; cbn [wo_log] in *; [done..|].
  destruct Hland as [[_ ->]|[[_ ->]|(data & Hr & ->)]]; [done..|]. apply Publish_request in Hr as (m & Ha & Hr).
  assert (validateWritable layout m = Ok tt) as Hv.
  { unfold requestOf, WriteConditional_request in Hr. rewrite Hl in Hr. by destruct (validateWritable layout m) as [[]|]. }
  destruct Hgot as [Hg|(n & Hn & Hg)].
  { unfold requestOf, WriteConditional_request in Hr. rewrite Hg in Hr. by destruct (validateWritable _ m). }
  destruct (request_follows p e m log n data Hv Hl Hn Hg Hr) as [Hm Hcase]. apply Hc in Hm. split.
  - apply sorted_snoc; [apply Hok|]. destruct Hcase as [->|(d & current & Hlast & Hd & Hnew)]; [by intros x ?%elem_of_nil|].
    apply (newer_than_last log d current m); [done..|]. destruct Hnew as [Ho|Hprev].
    + unfold ownWrite, After in Ho. boolify. done.
    + unfold isPrevious, TEqual in Hprev. destruct (pb_prev p) as [prev|] eqn:Ep; [|done]. boolify.
      pose proof (attempt_newer p e m prev Ha Ep). lia.
  - apply Forall_app. split; [apply Hok|]. constructor; [|constructor]. by exists m.
Qed.

(** C16.  The published manifest only moves forward.  However many crawlers share a
    prefix, in whatever order they start, stop and publish, with reads that return
    older objects and writes that land although an error was reported, the sequence
    of manifests ever stored is strictly increasing in generation time, and each of
    them is valid and of the current schema and methodology. *)
Theorem manifests_move_forward w :
  manifest_codec_ok -> reachable w -> StronglySorted newer (wo_log w) /\ Forall storedOk (wo_log w).
Proof.
  intros Hc [pubs Hr]. change (log_ok (wo_log w)). remember (MkWorld [] pubs) as w0 eqn:E.
  assert (log_ok (wo_log w0)) as H0 by (subst; split; constructor). clear E.
  apply clos_rt_rt1n in Hr. induction Hr as [w0|w0 w1 w2 Hs _ IH]; [done|]. apply IH. by eapply race_step_ok.
Qed.
End Races.

(** A concrete publisher: the theorems on publishing applied to two publishes of one
    process, the second answered with an error although it landed. *)

#[local] Existing Instance demoURL.

#[global] Instance NetworkSnapshot_eq_dec : EqDecision NetworkSnapshot.
Proof. solve_decision. Defined.
#[global] Instance RunMetadata_eq_dec : EqDecision RunMetadata.
Proof. solve_decision. Defined.
#[global] Instance Manifest_eq_dec : EqDecision Manifest.
Proof. solve_decision. Defined.
#[global] Instance Row_eq_dec : EqDecision Row.
Proof. solve_decision. Defined.

Definition demoPubNode : Node := demoNode 1 5 "demo".
Definition demoPubSet : NodeSet := MkSet {[n_ID demoPubNode := demoPubNode]} 0 0.
Definition demoPubRows : list Row := map row [demoPubNode].

(** The only rows this codec writes. *)
#[local] Instance demoRowCodec : RowCodec := {
  ParquetFromRows rows := if decide (rows = demoPubRows) then Some "PAR1 one row PAR1" else None;
  ParquetRead data := if (data =? "PAR1 one row PAR1")%string then Some demoPubRows else None }.

Lemma demo_parquet_ok : parquet_ok.
Proof. intros rows data. cbn [ParquetFromRows ParquetRead demoRowCodec]. destruct (decide _) as [->|]; [|done]. by intros [= <-]. Qed.

Definition demoRun : RunMetadata :=
  MkRun "run-1" "abc123" "https://example.org/enrscout" "sha256:0" (hex_encode (sha256 "config")) (time_Unix 1789000000) (time_Unix 1789000000)
    MethodologyVersion "m1".
Definition demoConfig : publishConfig := MkPublishConfig 0 0 50 0 3 false.
Definition demoLayout : Layout := MkLayout "".
Definition demoPublisher : publisher := MkPublisher demoConfig demoLayout demoRun "crawler-1" ["demo"] None 0 false false.
Definition pubRegistry : list Network := [load demoNetwork].

(** The manifest a publish at an instant makes of the set. *)
Definition demoManifest (t : Time) : Manifest :=
  let byNet := SnapshotNetworks demoPubSet ["demo"] in
  match serialize demoPublisher (build pubRegistry demoPublisher t byNet) byNet with
  | Some (m, _) => m
  | None => MkManifest 0 0 "" demoRun ∅ None
  end.
Definition time1 : Time := time_Unix 1789900000.
Definition time2 : Time := time_Unix 1789900060.

(** The only manifests this codec writes. *)
Definition tableMarshal (m1 m2 m : Manifest) : option string :=
  if decide (m = m1) then Some "1" else if decide (m = m2) then Some "2" else None.
Definition tableUnmarshal (m1 m2 : Manifest) (s : string) : option Manifest :=
  if (s =? "1")%string then Some m1 else if (s =? "2")%string then Some m2 else None.

Lemma table_codec_ok m1 m2 m data : tableMarshal m1 m2 m = Some data -> tableUnmarshal m1 m2 data = Some m.
Proof.
  unfold tableMarshal, tableUnmarshal. destruct (decide (m = m1)) as [->|]; [by intros [= <-]|].
  destruct (decide (m = m2)) as [->|]; [|done]. by intros [= <-].
Qed.

#[local] Instance demoManifestCodec : ManifestCodec := {
  UnmarshalManifest := tableUnmarshal (demoManifest time1) (demoManifest time2);
  MarshalManifest := tableMarshal (demoManifest time1) (demoManifest time2) }.

Lemma demo_manifest_codec_ok : manifest_codec_ok.
Proof. exact (table_codec_ok _ _). Qed.

Definition env1 : Env := MkEnv time1 demoPubSet (fun _ => true) NotFound PutOk NotFound NotFound.
Definition env2 : Env := MkEnv time2 demoPubSet (fun _ => true) (Found ("1", version_of 1)) PutError GetError GetError.
Definition demoPublisher1 : publisher := oc_pub (Publish pubRegistry demoPublisher env1).

Example demo_commits :
  oc_request (Publish pubRegistry demoPublisher env1) = Some ("", "1") /\ oc_published (Publish pubRegistry demoPublisher env1) = true /\
  oc_request (Publish pubRegistry demoPublisher1 env2) = Some ("v1", "2") /\ oc_published (Publish pubRegistry demoPublisher1 env2) = false.
Proof. vm_compute. auto. Qed.

(** * Witnesses *)

Definition demoWorld : World := MkWorld ["1"; "2"] {["crawler" := oc_pub (Publish pubRegistry demoPublisher1 env2)]}.

Lemma demo_reachable : reachable pubRegistry demoLayout demoWorld.
Proof.
  exists {["crawler" := demoPublisher]}. eapply rt_trans; [apply rt_step|apply rt_step].
  - apply (step_publish pubRegistry demoLayout "crawler" demoPublisher env1 [] ["1"]); [apply lookup_singleton_eq|reflexivity| |].
    + right. exists 0%nat. split; [apply le_n|reflexivity].
    + right. right. exists "1". split; [exact (proj1 demo_commits)|reflexivity].
  - assert (oc_stop (Publish pubRegistry demoPublisher env1) = false) as -> by (vm_compute; reflexivity).
    fold demoPublisher1. rewrite insert_singleton_eq.
    assert (demoWorld = MkWorld ["1"; "2"] (if oc_stop (Publish pubRegistry demoPublisher1 env2) then delete "crawler" {["crawler" := demoPublisher1]}
      else <["crawler" := oc_pub (Publish pubRegistry demoPublisher1 env2)]> {["crawler" := demoPublisher1]})) as ->.
    { assert (oc_stop (Publish pubRegistry demoPublisher1 env2) = false) as -> by (vm_compute; reflexivity). by rewrite insert_singleton_eq. }
    apply (step_publish pubRegistry demoLayout "crawler" demoPublisher1 env2 ["1"] ["1"; "2"]); [apply lookup_singleton_eq|vm_compute; reflexivity| |].
    + right. exists 1%nat. split; [apply le_n|reflexivity].
    + right. right. exists "2". split; [exact (proj1 (proj2 (proj2 demo_commits)))|reflexivity].
Qed.

Lemma manifests_move_forward_witness :
  wo_log demoWorld = ["1"; "2"] /\ StronglySorted newer ["1"; "2"] /\ Forall (storedOk demoLayout) ["1"; "2"].
Proof.
  split; [reflexivity|]. exact (manifests_move_forward pubRegistry demoLayout demoWorld demo_manifest_codec_ok demo_reachable).
Defined.

Lemma demo_attempt : oc_attempt (Publish pubRegistry demoPublisher env1) = Some (demoManifest time1).
Proof. vm_compute. reflexivity. Qed.


Definition demoEntry : NetworkSnapshot := default (MkNetworkSnapshot "" 0 0 "" 0) (mf_Networks (demoManifest time1) !! "demo").

Lemma published_loads_witness :
  LoadNetworkRows demoLayout (demoManifest time1) "demo"
    (fun key => if (key =? sn_GenerationKey demoEntry)%string then Found "PAR1 one row PAR1" else NotFound) = Ok demoPubRows.
Proof.
  refine (eq_trans (published_loads pubRegistry demoPublisher env1 (demoManifest time1) "demo" demoEntry "PAR1 one row PAR1"
    demo_attempt _ demo_parquet_ok _ _ _ _) _); try (vm_compute; reflexivity).
  - apply map_Forall_singleton. vm_compute. reflexivity.
  - intros id n H. change (({[n_ID demoPubNode := demoPubNode]} : gmap string Node) !! id = Some n) in H. apply lookup_singleton_Some in H as [<- _]. vm_compute. discriminate.
  - vm_compute. split; [discriminate|reflexivity].
Defined.
