(* ===== verification/Resume.v ===== *)
(** Starting again: [restore] and [nextPublishDelay] of [cmd/crawler/main.go].

    A crawler that starts reads the last manifest and the rows it names back into its set,
    brings rows of older schemas up to date, and refuses to start from less than all of
    them. *)

From stdpp Require Import base gmap strings list numbers pretty.
From Stdlib Require Import ZArith Lia Ascii.
From S2P Require Import Prelude GoLib Text Hashes Consensus ForkId Network Readiness NetIP NodeData Nodeset Eviction NodesetInv NodesetEntry NodesetRestore Clientname AgentNames Releases Calendar History Snapshot Publisher PublisherProps PublisherLoad PublisherRaces.
From stdpp Require Import list sorting.
#[local] Open Scope Z_scope.

#[export] Instance upd_r_CGC : Upd r_CGC. Proof. derive_upd. Defined.
#[export] Instance upd_r_CGCKnown : Upd r_CGCKnown. Proof. derive_upd. Defined.
#[export] Instance upd_r_Subdivision : Upd r_Subdivision. Proof. derive_upd. Defined.
#[export] Instance upd_r_Hosting : Upd r_Hosting. Proof. derive_upd. Defined.
#[export] Instance upd_r_HostingKnown : Upd r_HostingKnown. Proof. derive_upd. Defined.
#[export] Instance upd_r_ENRForkDigest : Upd r_ENRForkDigest. Proof. derive_upd. Defined.
#[export] Instance upd_r_ENRNextForkVersion : Upd r_ENRNextForkVersion. Proof. derive_upd. Defined.
#[export] Instance upd_r_ENRNextForkEpoch : Upd r_ENRNextForkEpoch. Proof. derive_upd. Defined.

(** * Rows of older schemas *)

Definition subdivisionSchemaVersion : Z := 2.
Definition cgcSchemaVersion : Z := 3.
Definition enrScheduleSchemaVersion : Z := 4.

Definition fillSubdivision (geo : Geo) (r : Row) : Row :=
  let ip := match ParseIP (r_IP r) with Some ip => Some ip | None => ParseIP (r_IP6 r) end in
  let result := Geo_Lookup geo ip in
  if g_Geolocated result then r <| r_Subdivision := g_Subdivision result |> else r.

Definition reclassifyHosting (r : Row) : Row :=
  let (hosting, known) := HostingClassification (r_ASN r) (r_Org r) in r <| r_Hosting := hosting |> <| r_HostingKnown := known |>.

Section Restore.
Context `{SpecialNetworks} `{EnodeCodec} `{URLParser} `{ManifestCodec} `{RowCodec} (AllowPrivateIPs : bool).

Definition fillSchedule (version : Z) (r : Row) : Row :=
  if negb (r_Layer r =? "cl")%string || (r_ENR r =? "")%string then r
  else match parseENR (r_ENR r) with
       | None => r
       | Some n =>
           let r := if version <? cgcSchemaVersion then
                      match en_CGC n with
                      | Some cgc => let (v, known) := cgc_Uint32 cgc in r <| r_CGC := v |> <| r_CGCKnown := known |>
                      | None => r
                      end
                    else r in
           let s := CLForkScheduleOf n in
           r <| r_ENRForkDigest := es_Digest s |> <| r_ENRNextForkVersion := es_NextVersion s |> <| r_ENRNextForkEpoch := es_NextEpoch s |>
       end.

Definition migrateRows (geo : option Geo) (version : Z) (rows : list Row) : list Row :=
  let rows := match geo with
              | Some geo => if version <? subdivisionSchemaVersion then map (fillSubdivision geo) rows else rows
              | None => rows
              end in
  let rows := if version <? enrScheduleSchemaVersion then map (fillSchedule version) rows else rows in
  map reclassifyHosting rows.

(** * Restoring *)

Section Store.
Context (l : Layout) (get : string -> Got string) (geo : option Geo).

(** One turn of the loop over the configured networks. *)
Definition restoreNetwork (m : Manifest) (set : NodeSet) (network : string) : result NodeSet :=
  match mf_Networks m !! network with
  | None => Ok set
  | Some _ =>
      let! rows := LoadNetworkRows l m network get in
      let rows := migrateRows geo (mf_SchemaVersion m) rows in
      let '(set', dropped, evicted) := Ingest AllowPrivateIPs set rows in
      if negb (Len set' - Len set + dropped + evicted =? Z.of_nat (length rows))
      then Err "restore snapshot %s: retained %d of %d rows (increase --max-nodes)"
      else Ok set'
  end.

Fixpoint restoreNetworks (m : Manifest) (set : NodeSet) (networks : list string) : result NodeSet :=
  match networks with
  | [] => Ok set
  | network :: rest => let! set := restoreNetwork m set network in restoreNetworks m set rest
  end.

(** The previous manifest, [None] on a first start, and the set.  An error stops the crawler. *)
Definition restore (got : Got string) (set : NodeSet) (networks : list string) : result (option Manifest * NodeSet) :=
  match Read l got with
  | NoManifest => Ok (None, set)
  | ReadError => Err "read manifest: %w"
  | ReadOk m => let! set := restoreNetworks m set networks in Ok (Some m, set)
  end.
End Store.
End Restore.

(** * The next publish *)

Definition forkPublishWindow : Duration := Hour.
Definition forkPublishInterval : Duration := Minute.

Section Delay.
Context (registry : list Network).

Fixpoint publishDelayLoop (at_ : Time) (base delay : Duration) (networks : list string) : Duration :=
  match networks with
  | [] => delay
  | network :: rest =>
      match ForkTargetAt registry network at_ with
      | Err _ => publishDelayLoop at_ base delay rest
      | Ok target =>
          let activation := Activation target in
          if IsZero activation then publishDelayLoop at_ base delay rest
          else if Abs (Sub at_ activation) <=? forkPublishWindow then Z.min base forkPublishInterval
          else
            let untilWindow := Sub (GoLib.Add activation (- forkPublishWindow)) at_ in
            publishDelayLoop at_ base (if 0 <? untilWindow then Z.min delay untilWindow else delay) rest
      end
  end.

Definition nextPublishDelay (at_ : Time) (base : Duration) (networks : list string) : Duration := publishDelayLoop at_ base base networks.
End Delay.

(** * One network *)

(** An entry whose hosting is the one its organisation has today. *)
Definition rehost (n : Node) : Node :=
  let (hosting, known) := HostingClassification (r_ASN (row n)) (n_Org n) in n <| n_Hosting := hosting |> <| n_HostingKnown := known |>.

Lemma row_rehost n : row (rehost n) = reclassifyHosting (row n).
Proof. unfold rehost, reclassifyHosting. cbn [r_Org row]. destruct (HostingClassification _ _) as [h k]. destruct n. reflexivity. Qed.

Lemma rehost_ID n : n_ID (rehost n) = n_ID n.
Proof. unfold rehost. destruct (HostingClassification _ _). by upd_simpl. Qed.

Lemma rehost_restorable `{SpecialNetworks} AllowPrivateIPs n : restorable AllowPrivateIPs n -> restorable AllowPrivateIPs (rehost n).
Proof. unfold rehost. destruct (HostingClassification _ _) as [h k]. destruct n. intros [? ? ? ? ? ? ?]. constructor; assumption. Qed.

Lemma migrate_current `{EnodeCodec} geo rows : migrateRows geo SchemaVersion rows = map reclassifyHosting rows.
Proof. unfold migrateRows. by destruct geo. Qed.

(** * All networks *)

Section Loop.
Context `{SpecialNetworks} `{EnodeCodec} `{URLParser} `{ManifestCodec} `{RowCodec} (AllowPrivateIPs : bool) (registry : list Network).
Context (p : publisher) (e : Env) (m : Manifest) (get : string -> Got string) (geo : option Geo).

(** The nodes of the published set that a network's rows come from. *)
Definition publishedNodes (network : string) : list Node :=
  List.filter (fun n => (n_Network n =? network)%string && snapshotEligible n) (map_values (s_m (en_set e))).

(** What a set holds once [networks] are restored. *)
Definition restoredRow (networks : list string) (id : string) : option Row :=
  n ← s_m (en_set e) !! id;
  if snapshotEligible n && bool_decide (n_Network n ∈ pb_networks p) && bool_decide (n_Network n ∈ networks) then Some (reclassifyHosting (row n)) else None.

Context (Hattempt : oc_attempt (Publish registry p e) = Some m) (Hversion : mf_SchemaVersion m = SchemaVersion) (Hparquet : parquet_ok).
Context (Hkeyed : keyed (s_m (en_set e))) (Hrest : forall id n, s_m (en_set e) !! id = Some n -> restorable AllowPrivateIPs n).
Context (Htime : 0 <= mf_GeneratedAt m < year10000).
Context (Hget : forall network ns d, mf_Networks m !! network = Some ns ->
  ParquetFromRows (rowsOf (SnapshotNetworks (en_set e) (pb_networks p)) network) = Some d -> get (sn_GenerationKey ns) = Found d).

Lemma publishedNodes_in network n : n ∈ publishedNodes network <->
  s_m (en_set e) !! n_ID n = Some n /\ n_Network n = network /\ snapshotEligible n = true.
Proof using Hkeyed.
  unfold publishedNodes. rewrite elem_of_lfilter, andb_true_iff, String.eqb_eq, elem_of_map_values. split.
  - intros [[k Hk] [Hn He]]. pose proof (Hkeyed k n Hk) as E. cbv beta in E. by rewrite E.
  - intros (Hk & Hn & He). eauto.
Qed.

Lemma publishedNodes_NoDup network : NoDup (n_ID <$> publishedNodes network).
Proof using Hkeyed.
  unfold publishedNodes. eapply sublist_NoDup; [exact (keyed_NoDup _ Hkeyed)|]. apply fmap_sublist, lfilter_sublist.
Qed.

Lemma rows_loaded network : is_Some (mf_Networks m !! network) ->
  LoadNetworkRows (pb_layout p) m network get = Ok (map row (publishedNodes network)).
Proof using Hattempt Hparquet Hkeyed Hrest Htime Hget.
  intros [ns Hns]. pose proof (attempt_networks registry p e m network Hattempt) as Hn. rewrite Hns in Hn. destruct Hn as (_ & d & Hd).
  apply (loads_from registry p e m network ns d get); try done; [|by eapply Hget].
  intros id n Hn ->. destruct (Hrest _ _ Hn) as [Hid _ _ _ _ _ _]. pose proof (Hkeyed _ _ Hn) as E. cbv beta in E. by rewrite E in Hid.
Qed.

(** The set while [done] are restored. *)
Record restoring (limit : Z) (done : list string) (set : NodeSet) : Prop := {
  rs_max : s_max set = limit;
  rs_rows : forall id, row <$> s_m set !! id = restoredRow done id }.

Lemma restoring_dom limit done set id : restoring limit done set -> is_Some (s_m set !! id) -> is_Some (s_m (en_set e) !! id).
Proof.
  intros [_ Hr] [n Hn]. specialize (Hr id). rewrite Hn in Hr. unfold restoredRow in Hr. destruct (s_m (en_set e) !! id); [done|]. done.
Qed.

(** There is room for a network that is not restored yet. *)
Lemma restoring_room limit done set network : restoring limit done set -> network ∉ done ->
  (forall n, n ∈ publishedNodes network -> s_m set !! n_ID n = None) /\
  Len set + Z.of_nat (length (publishedNodes network)) <= Len (en_set e).
Proof using Hkeyed.
  intros Hrs Hnew.
  assert (forall n, n ∈ publishedNodes network -> s_m set !! n_ID n = None) as Hfree.
  { intros n (Hk & Hn & _)%publishedNodes_in. pose proof (rs_rows _ _ _ Hrs (n_ID n)) as Hr. unfold restoredRow in Hr. rewrite Hk in Hr. cbn [mbind option_bind] in Hr.
    rewrite (bool_decide_eq_false_2 (n_Network n ∈ done)), andb_false_r in Hr by (by rewrite Hn). by destruct (s_m set !! n_ID n). }
  split; [done|]. pose proof (publishedNodes_NoDup network) as Hnd. set (ids := n_ID <$> publishedNodes network) in *.
  unfold Len. rewrite <- !(size_dom (D:=gset string)). rewrite <- (length_fmap n_ID (publishedNodes network)). fold ids.
  rewrite <- (size_list_to_set (C:=gset string) ids Hnd), <- Nat2Z.inj_add, <- size_union.
  - apply inj_le, subseteq_size. intros id. rewrite elem_of_union, !elem_of_dom, elem_of_list_to_set. intros [Hin|Hin].
    + by eapply restoring_dom.
    + apply list_elem_of_fmap in Hin as (n & -> & Hn). apply publishedNodes_in in Hn as [Hk _]. by exists n.
  - intros id. rewrite elem_of_dom, elem_of_list_to_set. intros [x Hx] Hin. apply list_elem_of_fmap in Hin as (n & -> & Hn). by rewrite Hfree in Hx.
Qed.

Lemma restoredRow_snoc done network id : network ∉ done ->
  (forall n, s_m (en_set e) !! id = Some n -> n_Network n = network -> snapshotEligible n = true -> network ∉ pb_networks p) ->
  restoredRow (done ++ [network]) id = restoredRow done id.
Proof.
  intros Hnew Hno. unfold restoredRow. destruct (s_m (en_set e) !! id) as [n|] eqn:Hn; [|done]. cbn [mbind option_bind].
  destruct (decide (n_Network n = network)) as [En|Hne].
  - destruct (snapshotEligible n) eqn:He; [|done]. rewrite (bool_decide_eq_false_2 (n_Network n ∈ pb_networks p)); [done|]. rewrite En. by apply (Hno n).
  - rewrite (bool_decide_ext (n_Network n ∈ done ++ [network]) (n_Network n ∈ done)); [done|]. rewrite elem_of_app, list_elem_of_singleton. split; [intros [?|?]; [assumption|congruence]|by left].
Qed.

Lemma restoreNetwork_ok limit done set network :
  limit <= 0 \/ Len (en_set e) <= limit -> restoring limit done set -> network ∉ done ->
  exists set', restoreNetwork AllowPrivateIPs (pb_layout p) get geo m set network = Ok set' /\ restoring limit (done ++ [network]) set'.
Proof using Hattempt Hversion Hparquet Hkeyed Hrest Htime Hget.
  intros Hlim Hrs Hnew. unfold restoreNetwork. pose proof (attempt_networks registry p e m network Hattempt) as Hnet.
  destruct (mf_Networks m !! network) as [ns|] eqn:Hns.
  2: { exists set. split; [done|]. split; [apply Hrs|]. intros id. rewrite restoredRow_snoc; [apply Hrs|done|]. by intros. }
  destruct Hnet as [Hnet _]. rewrite rows_loaded by (by rewrite Hns). cbn [rbind].
  destruct (restoring_room limit done set network Hrs Hnew) as [Hfree Hroom].
  assert (map reclassifyHosting (map row (publishedNodes network)) = map row (map rehost (publishedNodes network))) as Hrows
    by (rewrite !map_map; apply map_ext; intros; by rewrite row_rehost).
  assert (n_ID <$> map rehost (publishedNodes network) = n_ID <$> publishedNodes network) as Hids
    by (change (n_ID <$> ?l) with (map n_ID l); rewrite map_map; apply map_ext; intros; apply rehost_ID).
  rewrite Hversion, migrate_current, Hrows.
  destruct (ingest_room AllowPrivateIPs (map rehost (publishedNodes network)) set) as (set' & -> & Hmax & Hlen & Hin & Hout).
  - rewrite (rs_max _ _ _ Hrs), length_map. lia.
  - rewrite Hids. apply publishedNodes_NoDup.
  - intros n' (n & -> & Hn)%list_elem_of_fmap. rewrite rehost_ID. split; [|by apply Hfree].
    apply rehost_restorable. apply publishedNodes_in in Hn as [Hk _]. by eapply Hrest.
  - rewrite Hlen, !length_map. replace (Len set + _ - Len set + 0 + 0) with (Z.of_nat (length (publishedNodes network))) by lia.
    rewrite Z.eqb_refl. cbn [negb]. exists set'. split; [done|]. split; [by rewrite Hmax, (rs_max _ _ _ Hrs)|]. intros id.
    destruct (decide (id ∈ n_ID <$> publishedNodes network)) as [Hi|Hi].
    + apply list_elem_of_fmap in Hi as (n & -> & Hn). pose proof Hn as Hn'. apply publishedNodes_in in Hn' as (Hk & En & He).
      pose proof (Hin (rehost n) ltac:(by apply list_elem_of_fmap_2)) as Hx. rewrite rehost_ID in Hx. rewrite Hx. cbn [fmap option_fmap option_map].
      rewrite <- (rehost_ID n), (row_restored AllowPrivateIPs) by (by apply rehost_restorable; eapply Hrest). rewrite row_rehost, rehost_ID.
      unfold restoredRow. rewrite Hk. cbn [mbind option_bind]. rewrite He, En, !bool_decide_eq_true_2; [done|set_solver|done].
    + rewrite Hout by (by rewrite Hids). rewrite restoredRow_snoc; [apply Hrs|done|]. intros n Hk En He. exfalso. apply Hi.
      pose proof (Hkeyed id n Hk) as E. cbv beta in E. rewrite <- E. apply list_elem_of_fmap_2, publishedNodes_in. by rewrite E.
Qed.

Lemma restoreNetworks_ok limit networks done set :
  limit <= 0 \/ Len (en_set e) <= limit -> restoring limit done set -> NoDup (done ++ networks) ->
  exists set', restoreNetworks AllowPrivateIPs (pb_layout p) get geo m set networks = Ok set' /\ restoring limit (done ++ networks) set'.
Proof using Hattempt Hversion Hparquet Hkeyed Hrest Htime Hget.
  intros Hlim. revert done set. induction networks as [|network networks IH]; intros done set Hrs Hnd.
  - exists set. rewrite app_nil_r. by split.
  - cbn [restoreNetworks]. destruct (restoreNetwork_ok limit done set network Hlim Hrs) as (set1 & -> & Hrs1).
    { intros Hin. apply NoDup_app in Hnd as (_ & Hd & _). by apply (Hd network Hin); left. }
    cbn [rbind]. destruct (IH (done ++ [network]) set1 Hrs1) as (set' & -> & Hrs'); [by rewrite <- app_assoc|].
    exists set'. split; [done|]. by rewrite <- app_assoc in Hrs'.
Qed.
End Loop.

(** * The next publish *)

(** A wait keeps to the operator's interval; near the activation of a tracked fork it is a
    minute at most, and before that it does not reach into the hour of the activation
    unless it is that short. *)
Theorem nextPublishDelay_spec registry at_ base networks : 0 < base ->
  let delay := nextPublishDelay registry at_ base networks in
  0 < delay <= base /\
  forall network target, network ∈ networks -> ForkTargetAt registry network at_ = Ok target -> IsZero (Activation target) = false ->
    (Abs (Sub at_ (Activation target)) <= Hour -> delay <= Minute) /\
    (at_ < Activation target - Hour -> at_ + delay <= Activation target - Hour \/ delay <= Minute).
Proof.
  intros Hb. cbv zeta. unfold nextPublishDelay.
  assert (forall delay, 0 < delay <= base ->
    let r := publishDelayLoop registry at_ base delay networks in
    0 < r <= base /\ (r <= delay \/ r <= Minute) /\ forall network target, network ∈ networks -> ForkTargetAt registry network at_ = Ok target ->
      IsZero (Activation target) = false ->
      (Abs (Sub at_ (Activation target)) <= Hour -> r <= Minute) /\
      (at_ < Activation target - Hour -> at_ + r <= Activation target - Hour \/ r <= Minute)) as H; [|destruct (H base) as (H1 & _ & H2); [lia|by split]].
  induction networks as [|network networks IH]; intros delay Hd; cbn [publishDelayLoop]; cbv zeta.
  { split_and!; [lia|lia|by left|]. by intros ? ? ?%elem_of_nil. }
  assert (0 < Minute) as Hm by done.
  destruct (ForkTargetAt registry network at_) as [t|] eqn:Et.
  2: { destruct (IH delay Hd) as (H1 & H2 & H3). split_and!; [lia|lia|done|]. intros x target [->|Hx]%elem_of_cons E; [by rewrite Et in E|by eapply H3]. }
  destruct (IsZero (Activation t)) eqn:Ez.
  { destruct (IH delay Hd) as (H1 & H2 & H3). split_and!; [lia|lia|done|]. intros x target [->|Hx]%elem_of_cons E Hz; [|by eapply H3].
    rewrite Et in E. injection E as ->. by rewrite Ez in Hz. }
  unfold forkPublishWindow, forkPublishInterval. destruct (Z.leb_spec (Abs (Sub at_ (Activation t))) Hour) as [Hn|Hf].
  { split_and!; [lia|lia|lia|]. intros. split; intros; lia. }
  set (until := Sub _ at_). assert (0 < (if 0 <? until then Z.min delay until else delay) <= base) as Hd' by (destruct (Z.ltb_spec 0 until); lia).
  destruct (IH _ Hd') as (H1 & H2 & H3). cbv zeta in H1, H2, H3. split_and!; [lia|lia|destruct (Z.ltb_spec 0 until); lia|].
  intros x target [->|Hx]%elem_of_cons E Hz; [|by eapply H3]. rewrite Et in E. injection E as <-. split; [lia|]. intros Hbefore.
  assert (0 < until /\ until <= Activation t - Hour - at_) as [Hu1 Hu2].
  { unfold until, Sub, GoLib.Add, minDuration, maxDuration, min_int64, max_int64, Hour, Minute, Second in *. lia. }
  destruct (Z.ltb_spec 0 until); lia.
Qed.

(** * Restarting *)

Section Again.
Context `{SpecialNetworks} `{EnodeCodec} `{URLParser} `{ManifestCodec} `{RowCodec} (AllowPrivateIPs : bool) (registry : list Network).

(** What a publish asks the store to write can be read back as its manifest. *)
Lemma request_reads p e m version data :
  oc_attempt (Publish registry p e) = Some m -> oc_request (Publish registry p e) = Some (version, data) ->
  manifest_codec_ok -> slen data <= MaxManifestBytes -> Read (pb_layout p) (Found data) = ReadOk m /\ mf_SchemaVersion m = SchemaVersion.
Proof.
  intros Ha Hr Hcodec Hs. destruct (Publish_request registry p e _ Hr) as (m' & Ha' & Hq). rewrite Ha in Ha'. injection Ha' as <-.
  unfold requestOf, WriteConditional_request in Hq. destruct (validateWritable (pb_layout p) m) as [[]|] eqn:Hv; [|done].
  assert (MarshalManifest m = Some data) as Hm.
  { destruct (match en_got e with NotFound => _ | GetError => _ | Found _ => _ end) as [v|]; [|done]. destruct (MarshalManifest m); [by injection Hq as -> ->|done]. }
  unfold validateWritable in Hv. destruct (Z.eqb_spec (mf_SchemaVersion m) SchemaVersion) as [E|]; [|done]. cbn [negb] in Hv.
  destruct (negb _); [done|]. split; [|done]. unfold Read, decodeManifest.
  destruct (Z.ltb_spec MaxManifestBytes (slen data)); [lia|]. by rewrite (Hcodec _ _ Hm), Hv.
Qed.


(** A start that succeeds is a first start, or has read every row of every configured
    network: an unreadable manifest or generation stops the crawler. *)
Theorem restore_reads_all l get geo got set networks prev set' :
  restore AllowPrivateIPs l get geo got set networks = Ok (prev, set') ->
  match prev with
  | None => got = NotFound /\ set' = set
  | Some m => Read l got = ReadOk m /\
      forall network, network ∈ networks -> is_Some (mf_Networks m !! network) -> is_ok (LoadNetworkRows l m network get) = true
  end.
Proof.
  unfold restore. destruct (Read l got) as [| |m] eqn:Er; [|done|].
  - intros [= <- <-]. split; [|done]. unfold Read in Er. destruct got; try done. by destruct (decodeManifest l _).
  - intros (set1 & E & [= <- <-])%rbind_ok. split; [done|]. revert set E. induction networks as [|x networks IH]; intros set E network Hin Hm; [by apply elem_of_nil in Hin|].
    cbn [restoreNetworks] in E. apply rbind_ok in E as (set2 & E1 & E2). apply elem_of_cons in Hin as [->|Hin]; [|by eapply IH].
    unfold restoreNetwork in E1. destruct Hm as [ns Hm]. rewrite Hm in E1. by destruct (LoadNetworkRows l m x get).
Qed.
End Again.

(** * Examples *)

Section Demo.
#[local] Existing Instances demoSpecial Releases.demoURL demoManifestCodec demoRowCodec.
#[local] Instance noRecords : EnodeCodec := Build_EnodeCodec (fun _ => None) (fun _ => None).

Lemma demoPubSet_keyed : keyed (s_m demoPubSet).
Proof. apply map_Forall_singleton. vm_compute. reflexivity. Qed.

Lemma demoPubSet_restorable id n : s_m demoPubSet !! id = Some n -> restorable false n.
Proof.
  intros Hn. change (({[n_ID demoPubNode := demoPubNode]} : gmap string Node) !! id = Some n) in Hn. apply lookup_singleton_Some in Hn as [_ <-].
  split; [vm_compute; reflexivity|vm_compute; reflexivity| | | | |discriminate].
  - repeat (apply Forall_cons; split; [split; vm_compute; discriminate|]). constructor.
  - vm_compute. split; [discriminate|reflexivity].
  - vm_compute. split; [discriminate|discriminate].
  - repeat (apply Forall_cons; split; [by left|]). constructor.
Qed.

Definition demoStore (key : string) : Got string :=
  if (key =? sn_GenerationKey demoEntry)%string then Found "PAR1 one row PAR1" else NotFound.

Lemma demoStore_holds network ns d : mf_Networks (demoManifest time1) !! network = Some ns ->
  ParquetFromRows (rowsOf (SnapshotNetworks demoPubSet ["demo"]) network) = Some d -> demoStore (sn_GenerationKey ns) = Found d.
Proof.
  intros Hn Hd. assert (mf_Networks (demoManifest time1) = {["demo" := demoEntry]}) as E by (vm_compute; reflexivity).
  rewrite E in Hn. apply lookup_singleton_Some in Hn as [<- <-]. vm_compute in Hd. injection Hd as <-. vm_compute. reflexivity.
Qed.

End Demo.
