(* ===== verification/Recording.v ===== *)
(** Recording and serving the readiness history: [recordReadiness] of
    [cmd/crawler/readiness.go] and [ReadinessHistoryFor] of
    [internal/query/readiness.go], over the objects of the store. *)

From stdpp Require Import base gmap strings list numbers.
From Stdlib Require Import ZArith Lia Ascii.
From S2P Require Import Prelude GoLib Counting Text Clientname Hashes Consensus ForkId Network Readiness NodeData History ForkReadiness ReadinessAgree Snapshot.
From stdpp Require Import list.
#[local] Open Scope Z_scope.

(** The memory of the publisher and the objects of the store. *)
Record Recorder := MkRecorder { rc_readinessAt : gmap string Time; rc_objects : gmap string string }.

Section Recording.
Context `{Hcodec : HistoryCodec} (registry : list Network) (l : Layout).

(** [getFails]: the reads that fail; [putLands]: the writes that reach the store,
    whatever they answer. *)
Context (getFails putLands : string -> bool).

Definition getObject (objects : gmap string string) (key : string) : Got string :=
  if getFails key then GetError else match objects !! key with Some data => Found data | None => NotFound end.

(** The series to append to; [None] when it must not be overwritten. *)
Definition storedHistory (objects : gmap string string) (key network : string) (target : ForkTarget) : option ReadinessHistory :=
  match getObject objects key with
  | Found data => match DecodeReadinessHistory data with Ok h => Some h | Err _ => None end
  | NotFound => Some (MkHistory ReadinessHistoryVersion network (ft_Name target) 0 0 [])
  | GetError => None
  end.

(** A rescheduled fork is a different series. *)
Definition scheduledHistory (h : ReadinessHistory) (target : ForkTarget) : ReadinessHistory :=
  let '(elTime, clEpoch) := target_Schedule target in
  if negb (hi_ELTime h =? elTime) || negb (hi_CLEpoch h =? clEpoch)
  then MkHistory (hi_Version h) (hi_Network h) (hi_Fork h) elTime clEpoch [] else h.

(** The memory after a point that was not due. *)
Definition rememberLast (at_ : gmap string Time) (network : string) (h : ReadinessHistory) (now : Time) : gmap string Time :=
  match last (hi_Points h) with
  | None => at_
  | Some p =>
      let lastAt := time_Unix (p_At p) in
      if After lastAt now then at_ else if Before lastAt now then <[network := lastAt]> at_ else at_
  end.

(** One tracked network, from its target on. *)
Definition recordTarget (target : ForkTarget) (rows : list Row) (now : Time) (st : Recorder) (network : string) : Recorder :=
  let interval := ReadinessIntervalAt now (Activation target) in
  if match rc_readinessAt st !! network with Some lastAt => Sub now lastAt <? interval | None => false end then st
  else
    let at_ := <[network := now]> (rc_readinessAt st) in
    let skip := MkRecorder at_ (rc_objects st) in
    match ReadinessHistoryKey (layout_prefix l) network (ft_Name target) with
    | Err _ => skip
    | Ok key =>
        match storedHistory (rc_objects st) key network target with
        | None => skip
        | Some stored =>
            let (h, added) := Append (scheduledHistory stored target) (readinessPointAt registry target network rows now) interval in
            if negb added then MkRecorder (rememberLast at_ network h now) (rc_objects st)
            else match history_Encode h with
                 | Err _ => skip
                 | Ok data => MkRecorder at_ (if putLands key then <[key := data]> (rc_objects st) else rc_objects st)
                 end
        end
    end.

Definition recordNetwork (byNet : string -> list Row) (now : Time) (st : Recorder) (network : string) : Recorder :=
  match ForkTargetAt registry network now with
  | Err _ => st
  | Ok target => match target_Phase target with PhaseNone => st | _ => recordTarget target (byNet network) now st network end
  end.

Definition recordReadiness (networks : list string) (byNet : string -> list Row) (now : Time) (st : Recorder) : Recorder :=
  foldl (recordNetwork byNet now) st networks.

(** * Serving *)

(** [ReadinessHistoryFor]: [Ok None] is the nil history. *)
Definition ReadinessHistoryFor (get : string -> Got string) (network : string) (target : ForkTarget) : result (option ReadinessHistory) :=
  let! key := ReadinessHistoryKey (layout_prefix l) network (ft_Name target) in
  match get key with
  | NotFound => Ok None
  | GetError => Err "get"
  | Found data =>
      let! h := DecodeReadinessHistory data in
      let '(elTime, clEpoch) := target_Schedule target in
      if negb (hi_ELTime h =? elTime) || negb (hi_CLEpoch h =? clEpoch) then Ok None
      else Ok (Some (MkHistory (hi_Version h) (hi_Network h) (hi_Fork h) (hi_ELTime h) (hi_CLEpoch h) (thinHistory (hi_Points h) (Activation target))))
  end.

(** * What recording may touch *)

Lemma recordTarget_touches target rows now st network key :
  let st' := recordTarget target rows now st network in
  rc_objects st' !! key = rc_objects st !! key \/
  ReadinessHistoryKey (layout_prefix l) network (ft_Name target) = Ok key /\ putLands key = true /\
  exists stored h data, storedHistory (rc_objects st) key network target = Some stored /\
    Append (scheduledHistory stored target) (readinessPointAt registry target network rows now) (ReadinessIntervalAt now (Activation target)) = (h, true) /\
    history_Encode h = Ok data /\ rc_objects st' !! key = Some data.
Proof.
  cbv zeta. unfold recordTarget. cbv zeta. destruct (match rc_readinessAt st !! network with Some _ => _ | None => false end); [by left|].
  destruct (ReadinessHistoryKey _ _ _) as [k|]; [|by left]. destruct (storedHistory _ k _ _) as [stored|] eqn:Es; [|by left].
  destruct (Append _ _ _) as [h added] eqn:Ea. destruct added; cbn [negb]; [|by left].
  destruct (history_Encode h) as [data|] eqn:Ee; [|by left]. cbn [rc_objects]. destruct (putLands k) eqn:Ep; [|by left].
  destruct (decide (k = key)) as [->|Hne]; [|left; by rewrite lookup_insert_ne].
  right. rewrite lookup_insert_eq. split_and!; [done..|]. by exists stored, h, data.
Qed.

(** The objects a recorder must not lose. *)
Definition unreadable (objects : gmap string string) (key : string) : Prop :=
  getFails key = true \/ exists data, objects !! key = Some data /\ is_ok (DecodeReadinessHistory data) = false.

Lemma unreadable_not_stored objects key network target : unreadable objects key -> storedHistory objects key network target = None.
Proof.
  unfold storedHistory, getObject. intros [->|(data & -> & Hd)]; [done|]. destruct (getFails key); [done|].
  by destruct (DecodeReadinessHistory data).
Qed.

Definition kept (key : string) (st st' : Recorder) : Prop :=
  unreadable (rc_objects st) key -> rc_objects st' !! key = rc_objects st !! key.

Lemma recordNetwork_kept byNet now st network key : kept key st (recordNetwork byNet now st network).
Proof.
  intros Hu. unfold recordNetwork. destruct (ForkTargetAt registry network now) as [target|]; [|done].
  assert (rc_objects (recordTarget target (byNet network) now st network) !! key = rc_objects st !! key) as H.
  { destruct (recordTarget_touches target (byNet network) now st network key) as [?|(_ & _ & stored & h & data & Hs & _)]; [done|].
    by rewrite unreadable_not_stored in Hs. }
  by destruct (target_Phase target).
Qed.

(** C38.  Recording destroys nothing it cannot read: through a whole publish, over any
    networks and whatever reads fail and writes land, an object that does not decode
    (a newer writer's, a corrupt one) or could not be read stays as it is, and no
    object changes but the history of a network being recorded. *)
Theorem recordReadiness_preserves networks byNet now st key :
  let st' := recordReadiness networks byNet now st in
  (unreadable (rc_objects st) key -> rc_objects st' !! key = rc_objects st !! key) /\
  ((forall network target, network ∈ networks -> ForkTargetAt registry network now = Ok target ->
      ReadinessHistoryKey (layout_prefix l) network (ft_Name target) <> Ok key) -> rc_objects st' !! key = rc_objects st !! key).
Proof.
  cbv zeta. unfold recordReadiness. split.
  - revert st. induction networks as [|n networks IH]; intros st Hu; [done|]. cbn [foldl].
    pose proof (recordNetwork_kept byNet now st n key Hu) as H. rewrite IH; [done|].
    destruct Hu as [?|(data & Hd & ?)]; [by left|right]. exists data. by rewrite H.
  - revert st. induction networks as [|n networks IH]; intros st Hn; [done|]. cbn [foldl].
    rewrite IH by (intros n' t' Hin; apply Hn; by right). unfold recordNetwork.
    destruct (ForkTargetAt registry n now) as [target|] eqn:Et; [|done].
    assert (rc_objects (recordTarget target (byNet n) now st n) !! key = rc_objects st !! key) as H.
    { destruct (recordTarget_touches target (byNet n) now st n key) as [?|(Hk & _)]; [done|]. exfalso. apply (Hn n target); [left|done..]. }
    by destruct (target_Phase target).
Qed.

(** * What recording serves *)

(** JSON leaves out empty maps, which read back as absent. *)
Definition omitEmpty {A} (m : option (gmap string A)) : option (gmap string A) :=
  match m with Some m => if bool_decide (size m = 0%nat) then None else Some m | None => None end.
Definition jsonPoint (p : ReadinessPoint) : ReadinessPoint :=
  MkPoint (p_At p) (omitEmpty (p_EL p)) (omitEmpty (p_CL p)) (omitEmpty (p_ELClients p)) (omitEmpty (p_CLClients p)) (p_LegacyClientsEL p) (p_LegacyClientsCL p).
Definition jsonHistory (h : ReadinessHistory) : ReadinessHistory :=
  MkHistory (hi_Version h) (hi_Network h) (hi_Fork h) (hi_ELTime h) (hi_CLEpoch h) (map jsonPoint (hi_Points h)).
Definition history_codec_ok : Prop := forall h data, MarshalHistory h = Some data -> UnmarshalHistory data = Some (jsonHistory h).

Lemma Encode_Decode h data : history_codec_ok -> hi_Version h = ReadinessHistoryVersion -> history_Encode h = Ok data ->
  DecodeReadinessHistory data =
  Ok (MkHistory (hi_Version h) (hi_Network h) (hi_Fork h) (hi_ELTime h) (hi_CLEpoch h) (map (fun p => dropLegacy (jsonPoint p)) (hi_Points h))).
Proof.
  intros Hc Hv. unfold history_Encode, DecodeReadinessHistory. destruct (MarshalHistory h) as [d|] eqn:Em; [|done].
  destruct (maxReadinessBytes <? slen d) eqn:El; [done|]. intros [= <-]. rewrite El, (Hc _ _ Em). cbn [jsonHistory hi_Version].
  rewrite Hv, Z.eqb_refl. cbn [negb hi_Network hi_Fork hi_ELTime hi_CLEpoch hi_Points jsonHistory]. by rewrite map_map.
Qed.

Lemma storedHistory_version objects key network target h :
  storedHistory objects key network target = Some h -> hi_Version h = ReadinessHistoryVersion.
Proof.
  unfold storedHistory. destruct (getObject objects key) as [| |data]; [intros [= <-]; reflexivity|done|].
  unfold DecodeReadinessHistory. destruct (_ <? _); [done|]. destruct (UnmarshalHistory data) as [h0|]; [|done].
  destruct (Z.eqb_spec (hi_Version h0) ReadinessHistoryVersion); cbn [negb]; [|done]. by intros [= <-].
Qed.

Lemma scheduledHistory_schedule h target :
  hi_Version (scheduledHistory h target) = hi_Version h /\
  (hi_ELTime (scheduledHistory h target), hi_CLEpoch (scheduledHistory h target)) = target_Schedule target.
Proof.
  unfold scheduledHistory. destruct (target_Schedule target) as [a b].
  destruct (Z.eqb_spec (hi_ELTime h) a), (Z.eqb_spec (hi_CLEpoch h) b); cbn [negb orb]; subst; done.
Qed.

Lemma readinessPointAt_At target network rows now : p_At (readinessPointAt registry target network rows now) = Unix now.
Proof.
  unfold readinessPointAt. cbv zeta.
  assert (forall p, p_At (foldl (pointRow registry target network now) p rows) = p_At p) as H; [|by rewrite H].
  induction rows as [|r rows IH]; intros p; [done|]. cbn [foldl]. rewrite IH. unfold pointRow. destruct (EqualFold _ _); [done|].
  cbv zeta. destruct (r_Layer r =? "el")%string; [|destruct (r_Layer r =? "cl")%string; [|done]].
  - destruct (p_EL p); [|done]. by destruct (countRow _ _ _ _ _).
  - destruct (p_CL p); [|done]. by destruct (countRow _ _ _ _ _).
Qed.

Lemma Append_added h p interval h' : Append h p interval = (h', true) ->
  h' = MkHistory (hi_Version h) (hi_Network h) (hi_Fork h) (hi_ELTime h) (hi_CLEpoch h)
         (dropBefore (wrapI64 (p_At p - seconds ReadinessRetention)) (hi_Points h ++ [p])).
Proof. unfold Append. destruct (match last (hi_Points h) with Some _ => _ | None => false end); [done|]. by intros [= <-]. Qed.

(** What the crawler records, the API serves: when recording writes the history of a
    tracked network, a reader asking for the same target gets the stored series of
    that schedule, an empty one after a reschedule, without the points beyond thirty
    days, followed by the new point, as JSON keeps them and thinned. *)
Theorem recorded_served target rows now st network key :
  history_codec_ok ->
  ReadinessHistoryKey (layout_prefix l) network (ft_Name target) = Ok key ->
  let st' := recordTarget target rows now st network in
  rc_objects st' !! key <> rc_objects st !! key ->
  exists stored h, storedHistory (rc_objects st) key network target = Some stored /\
    ReadinessHistoryFor (fun k => match rc_objects st' !! k with Some d => Found d | None => NotFound end) network target = Ok (Some h) /\
    (hi_ELTime h, hi_CLEpoch h) = target_Schedule target /\
    let p := readinessPointAt registry target network rows now in
    hi_Points h = thinHistory (map (fun q => dropLegacy (jsonPoint q))
      (dropBefore (wrapI64 (Unix now - seconds ReadinessRetention)) (hi_Points (scheduledHistory stored target) ++ [p]))) (Activation target).
Proof.
  intros Hc Hk. cbv zeta. intros Hne.
  destruct (recordTarget_touches target rows now st network key) as [?|(_ & _ & stored & h & data & Hs & Ha & He & Hobj)]; [done|].
  pose proof (scheduledHistory_schedule stored target) as [Hv Hsch]. pose proof (storedHistory_version _ _ _ _ _ Hs) as Hv1.
  apply Append_added in Ha. assert (p_At (readinessPointAt registry target network rows now) = Unix now) as Hat by apply readinessPointAt_At.
  rewrite Hat in Ha. exists stored. unfold ReadinessHistoryFor. rewrite Hk. cbn [rbind]. rewrite Hobj.
  rewrite (Encode_Decode h) by (done || (subst h; cbn [hi_Version]; congruence)). cbn [rbind]. rewrite <- Hsch, Ha.
  cbn [hi_ELTime hi_CLEpoch hi_Version hi_Points hi_Network hi_Fork]. rewrite !Z.eqb_refl. cbn [negb orb].
  eexists. split_and!; [done..| |]; reflexivity.
Qed.
End Recording.

(** * Witness *)

#[global] Instance ReadinessPoint_eq_dec : EqDecision ReadinessPoint.
Proof. solve_decision. Defined.
#[global] Instance ReadinessHistory_eq_dec : EqDecision ReadinessHistory.
Proof. solve_decision. Defined.

Definition recordTarget_demo : ForkTarget :=
  match ForkTargetAt agreeRegistry "demo" agreeAt with Ok t => t | Err _ => MkForkTarget "" None None end.
Definition recordedDemo : ReadinessHistory :=
  MkHistory 1 "demo" (ft_Name recordTarget_demo) (fst (target_Schedule recordTarget_demo)) (snd (target_Schedule recordTarget_demo))
    [readinessPointAt agreeRegistry recordTarget_demo "demo" agreeRows agreeAt].

(** The only series this codec writes. *)
Definition oneMarshal (h0 h : ReadinessHistory) : option string := if decide (h = h0) then Some "history" else None.
Definition oneUnmarshal (h0 : ReadinessHistory) (s : string) : option ReadinessHistory :=
  if (s =? "history")%string then Some (jsonHistory h0) else None.
Lemma one_codec_ok h0 h data : oneMarshal h0 h = Some data -> oneUnmarshal h0 data = Some (jsonHistory h).
Proof. unfold oneMarshal, oneUnmarshal. destruct (decide (h = h0)) as [->|]; [|done]. by intros [= <-]. Qed.

#[local] Instance demoHistoryCodec : HistoryCodec := {
  UnmarshalHistory := oneUnmarshal recordedDemo; MarshalHistory := oneMarshal recordedDemo }.

Definition recordKey : string := "snapshots/state/readiness/demo/" +:+ ToLower (ft_Name recordTarget_demo) +:+ ".json".
Definition recordedState : Recorder :=
  recordTarget agreeRegistry (MkLayout "") (fun _ => false) (fun _ => true) recordTarget_demo agreeRows agreeAt (MkRecorder ∅ ∅) "demo".

Lemma recorded_served_witness :
  rc_objects recordedState !! recordKey = Some "history" /\
  exists h, ReadinessHistoryFor (MkLayout "") (fun k => match rc_objects recordedState !! k with Some d => Found d | None => NotFound end) "demo" recordTarget_demo
    = Ok (Some h) /\ map p_At (hi_Points h) = [1789900000].
Proof.
  assert (rc_objects recordedState !! recordKey = Some "history") as Hobj by (vm_compute; reflexivity). split; [exact Hobj|].
  destruct (recorded_served agreeRegistry (MkLayout "") (fun _ => false) (fun _ => true) recordTarget_demo agreeRows agreeAt (MkRecorder ∅ ∅) "demo" recordKey)
    as (stored & h & Hs & Hh & _ & Hp).
  - exact (one_codec_ok recordedDemo).
  - vm_compute. reflexivity.
  - fold recordedState. rewrite Hobj. discriminate.
  - exists h. split; [exact Hh|]. vm_compute in Hs. injection Hs as <-. rewrite Hp. vm_compute. reflexivity.
Defined.
