(* ===== verification/DnsSync.v ===== *)
(** The DNS zone reconcile: [cmd/dnspublisher/dns.go] and what the [Sync]
    methods of [cloudflare.go] and [route53.go] have in common.

    A provider is an interface ([ProviderOps], [Provider]): how a zone is read, which
    batches a list of edits becomes, and what the service does with a batch.  [Sync] is
    written once against it; DnsProviders.v gives the two instances.  A batch is
    applied whole or not at all, a failure may be reported in either case, and the
    answers of the service are a list that the calls consume.  The result carries
    every zone a resolver could have read on the way. *)

From stdpp Require Import base gmap strings list numbers sorting.
From Stdlib Require Import ZArith Lia Ascii.
From S2P Require Import Prelude GoLib Text.
From stdpp Require Import list sorting.
#[local] Open Scope Z_scope.

Definition entryTTL : Z := 3600.
Definition rootTTL : Z := 300.
Definition minPublishInterval : Duration := 30 * Minute.

Record recordTTLs := MkTTLs { tt_entry : Z; tt_root : Z }.
Definition defaultTTLs : recordTTLs := MkTTLs entryTTL rootTTL.

(** [dnsKey]: names compare without their final dot and in lower case. *)
Definition dnsKey (name : string) : string := ToLower (TrimSuffix name ".").

Definition forName (t : recordTTLs) (name domain : string) : Z :=
  if (name =? dnsKey domain)%string then tt_root t else tt_entry t.

Definition cloudflareMinTTL : Duration := Minute.
Definition cloudflareMaxTTL : Duration := 24 * Hour.

(** One round of the loop of [validateTTLs]. *)
Definition validTTL (d : Duration) (cloudflare : bool) : result Z :=
  if (d <? Second) || negb (Z.rem d Second =? 0) then Err "%s must be a whole number of seconds, at least 1s"
  else if max_int32 <? godiv d Second then Err "%s exceeds the 31-bit DNS TTL limit"
  else if cloudflare && ((d <? cloudflareMinTTL) || (cloudflareMaxTTL <? d)) then Err "%s outside %s-%s is rejected by Cloudflare zones below Enterprise"
  else Ok (godiv d Second).

Definition validateTTLs (entry root : Duration) (cloudflare : bool) : result recordTTLs :=
  let! e := validTTL entry cloudflare in
  let! r := validTTL root cloudflare in
  Ok (MkTTLs e r).

(** * TXT text *)

Definition dquote : ascii := ascii_of_nat 34.
Definition backslash : ascii := ascii_of_nat 92.

(** The loop of [normalizeTXT]: [escaped] and [inQuote] are its two flags.  It
    walks the bytes; the source walks the runes, which is the same on valid UTF-8. *)
Fixpoint unquote (inQuote escaped : bool) (s : string) : string :=
  match s with
  | EmptyString => EmptyString
  | String c s' =>
      if escaped then String c (unquote inQuote false s')
      else if (c =? backslash)%char then unquote inQuote true s'
      else if (c =? dquote)%char then unquote (negb inQuote) false s'
      else if inQuote then String c (unquote inQuote false s')
      else unquote inQuote false s'
  end.
Definition normalizeTXT (content : string) : string :=
  if HasPrefix content (String dquote "") then unquote false false content else content.

(** * The plan *)

(** [existing] keeps the records at the domain and below it. *)
Definition inDomain (domain key : string) : bool :=
  (key =? dnsKey domain)%string || HasSuffix key ("." +:+ dnsKey domain).

Record syncPlan := MkPlan {
  sp_wanted : gmap string string;
  sp_entries : list string;
  sp_writeRoot : bool;
  sp_stale : list string;
  sp_kept : Z
}.

(** A Go map that the code ranges over is the list of its entries in the order of
    that range: two names that [dnsKey] identifies leave the later content. *)
Definition wantedOf (want : list (string * string)) : gmap string string :=
  foldl (fun m nc => <[dnsKey nc.1 := nc.2]> m) ∅ want.

Definition retains (retain : option (list (string * string))) (name : string) : bool :=
  match retain with
  | None => true
  | Some l => bool_decide (name ∈ (dnsKey ∘ fst) <$> l)
  end.

Section Plan.
Context {R : Type}.

Definition planSync (have : gmap string R) (domain : string) (want : list (string * string)) (retain : option (list (string * string)))
    (unchanged : string -> string -> R -> bool) : syncPlan :=
  let wanted := wantedOf want in
  let root := dnsKey domain in
  let changes := List.filter (fun nc => negb (match have !! nc.1 with Some current => unchanged nc.1 nc.2 current | None => false end)) (map_to_list wanted) in
  let unwanted := List.filter (fun n => negb (bool_decide (is_Some (wanted !! n)))) (map_to_list have).*1 in
  MkPlan wanted
    (isort String.leb (List.filter (fun n => negb (n =? root)%string) changes.*1))
    (contains_func (fun nc : string * string => (nc.1 =? root)%string) changes)
    (isort String.leb (List.filter (fun n => negb (retains retain n)) unwanted))
    (Z.of_nat (length (List.filter (retains retain) unwanted))).
End Plan.

(** * Providers *)

(** One edit of a zone: the text and TTL a name gets, or [None] for its removal. *)
Definition edit : Type := string * option (string * Z).

Class ProviderOps (R Zn B : Type) := {
  view : R -> string * Z;
  records : Zn -> gmap string R;
  zone_ok : Zn -> Prop;
  applyBatch : B -> Zn -> option Zn;
  batchLen : B -> Z;
  batchesFor : gmap string R -> list edit -> list B;
  countsPruned : bool
}.

(** What a name holds in a zone. *)
Definition at_name `{ProviderOps R Zn B} (z : Zn) (n : string) : option (string * Z) := view <$> records z !! n.

(** What a batch built from the listing [have] promises: on a zone that still
    holds what was listed at the names it edits, it is accepted, makes exactly
    those edits and touches no other name. *)
Definition implements `{ProviderOps R Zn B} (have : gmap string R) (b : B) (es : list edit) : Prop :=
  forall z, zone_ok z -> (forall e, e ∈ es -> records z !! e.1 = have !! e.1) ->
  exists z', applyBatch b z = Some z' /\ zone_ok z' /\
    (forall n v, (n, v) ∈ es -> at_name z' n = v) /\
    (forall n, n ∉ es.*1 -> records z' !! n = records z !! n).

(** Text that a zone returns as it was written: printable ASCII that does not
    open with a quote.  The records of a tree all start with [enr]. *)
Definition printable (c : ascii) : bool := (32 <=? byte_val c) && (byte_val c <=? 126).
Fixpoint all_printable (s : string) : bool :=
  match s with EmptyString => true | String c s' => printable c && all_printable s' end.
Definition plainText (s : string) : bool := all_printable s && negb (HasPrefix s (String dquote "")).

(** The edits of one phase: canonical names, each at most once, plain texts, and
    removals only of what was listed. *)
Definition edits_ok {R} (have : gmap string R) (es : list edit) : Prop :=
  NoDup es.*1 /\
  (forall n v, (n, v) ∈ es -> dnsKey n = n /\
     match v with Some (c, _) => plainText c = true | None => is_Some (have !! n) end).

Class Provider (R Zn B : Type) `{ProviderOps R Zn B} := {
  records_canonical : forall z n, zone_ok z -> is_Some (records z !! n) -> dnsKey n = n;
  batches_split : forall z have es,
    zone_ok z -> (forall n r, have !! n = Some r -> records z !! n = Some r) -> edits_ok have es ->
    exists parts, Forall2 (implements have) (batchesFor have es) parts /\ concat parts ≡ₚ es;
  batches_nil : forall have, batchesFor have [] = []
}.

(** * Running a plan *)

(** A call to the service: it worked, it was applied and the error came later, or
    it was not applied. *)
Inductive Answer := Done | Lost | Refused.

Section Run.
Context `{P : ProviderOps R Zn B}.

Record Run := MkRun { rn_zone : Zn; rn_changed : Z; rn_answers : list Answer; rn_trace : list Zn }.

#[export] Instance eta_Run : Eta Run := fun r => MkRun (rn_zone r) (rn_changed r) (rn_answers r) (rn_trace r).
#[export] Instance upd_rn_zone : Upd rn_zone. Proof. derive_upd. Defined.
#[export] Instance upd_rn_changed : Upd rn_changed. Proof. derive_upd. Defined.
#[export] Instance upd_rn_answers : Upd rn_answers. Proof. derive_upd. Defined.
#[export] Instance upd_rn_trace : Upd rn_trace. Proof. derive_upd. Defined.

(** One request: whether it returned no error, and the run after it.  With no
    answer left the context is done and nothing is sent. *)
Definition submitOne (b : B) (st : Run) : Run * bool :=
  match rn_answers st with
  | [] | Refused :: _ => (st <| rn_answers := tail (rn_answers st) |>, false)
  | a :: rest =>
      match applyBatch b (rn_zone st) with
      | None => (st <| rn_answers := rest |>, false)
      | Some z =>
          let st' := st <| rn_answers := rest |> <| rn_zone := z |> <| rn_trace := rn_trace st ++ [z] |> in
          match a with
          | Done => (st' <| rn_changed := rn_changed st + batchLen b |>, true)
          | _ => (st', false)
          end
      end
  end.

(** The batches of one phase, in order, up to the first error. *)
Fixpoint submit (bs : list B) (st : Run) : Run * bool :=
  match bs with
  | [] => (st, true)
  | b :: bs' => let (st', ok) := submitOne b st in if ok then submit bs' st' else (st', false)
  end.

Definition existing (z : Zn) (domain : string) : gmap string R := filter (fun nr => inDomain domain nr.1 = true) (records z).

Definition unchangedAt (t : recordTTLs) (domain name content : string) (current : R) : bool :=
  (fst (view current) =? content)%string && (snd (view current) =? forName t name domain).

(** What one [Sync] finds outside: whether the listing succeeded, the answers
    to its requests, and whether the wait between entries and root ended well. *)
Record Env := MkEnv { en_lists : bool; en_answers : list Answer; en_settles : bool }.

(** [Sync]: the count of changes with the error, the gauge it leaves, and the run. *)
Record Synced := MkSynced { sy_changed : Z; sy_err : option string; sy_gauge : option Z; sy_run : Run }.

Definition entryEdits (t : recordTTLs) (domain : string) (p : syncPlan) : list edit :=
  (fun n => (n, Some (default "" (sp_wanted p !! n), forName t n domain))) <$> sp_entries p.
Definition rootEdits (t : recordTTLs) (domain : string) (p : syncPlan) : list edit :=
  if sp_writeRoot p then [(dnsKey domain, Some (default "" (sp_wanted p !! dnsKey domain), forName t (dnsKey domain) domain))] else [].
Definition staleEdits (p : syncPlan) : list edit := (fun n => (n, None)) <$> sp_stale p.

Definition Sync (t : recordTTLs) (env : Env) (z : Zn) (domain : string) (want : list (string * string)) (retain : option (list (string * string))) : Synced :=
  let st := MkRun z 0 (en_answers env) [z] in
  if negb (en_lists env) then MkSynced 0 (Some "list records: %w") None st
  else
    let have := existing z domain in
    let plan := planSync have domain want retain (unchangedAt t domain) in
    let (st1, ok1) := submit (batchesFor have (entryEdits t domain plan)) st in
    if negb ok1 then MkSynced (rn_changed st1) (Some "write entries: %w") None st1
    else if negb (bool_decide (sp_entries plan = [])) && negb (en_settles env) then MkSynced (rn_changed st1) (Some "await entry propagation: %w") None st1
    else
      let (st2, ok2) := submit (batchesFor have (rootEdits t domain plan)) st1 in
      if negb ok2 then MkSynced (rn_changed st2) (Some "write root: %w") None st2
      else
        let (st3, ok3) := submit (batchesFor have (staleEdits plan)) st2 in
        let left := if ok3 then 0 else Z.of_nat (length (sp_stale plan)) - (if countsPruned then rn_changed st3 - rn_changed st2 else 0) in
        MkSynced (rn_changed st3) None (Some (Z.of_nat (size (sp_wanted plan)) + sp_kept plan + left)) st3.
End Run.
Arguments Run : clear implicits.
Arguments Synced : clear implicits.
