(* ===== verification/DnsSyncProps.v ===== *)
(** What [Sync] of DnsSync.v promises, for every provider: the zones on the way
    are safe to read, an undisturbed run reaches the wanted zone from whatever an
    interrupted one left, and a second run plans nothing. *)

From stdpp Require Import base gmap strings list numbers sorting.
From Stdlib Require Import ZArith Lia Ascii.
From S2P Require Import Prelude GoLib Text DnsSync.
From stdpp Require Import list sorting.
#[local] Open Scope Z_scope.

(** * The plan *)

Lemma elem_of_fst {A B} (l : list (A * B)) a : a ∈ l.*1 <-> exists b, (a, b) ∈ l.
Proof.
  rewrite list_elem_of_fmap. split.
  - intros ([a' b] & -> & H). by exists b.
  - intros [b H]. by exists (a, b).
Qed.

Section PlanFacts.
Context {R : Type} (have : gmap string R) (domain : string) (want : list (string * string)) (retain : option (list (string * string)))
        (unchanged : string -> string -> R -> bool).
#[local] Abbreviation plan := (planSync have domain want retain unchanged).

Definition differs (n c : string) : Prop := forall r, have !! n = Some r -> unchanged n c r = false.

Lemma differs_bool n c : negb (match have !! n with Some r => unchanged n c r | None => false end) = true <-> differs n c.
Proof.
  unfold differs. rewrite negb_true_iff. destruct (have !! n) as [r|]; split; intros H; [|by apply H|done|done].
  by intros r' [= <-].
Qed.

Lemma elem_of_sp_entries n :
  n ∈ sp_entries plan <-> n <> dnsKey domain /\ exists c, wantedOf want !! n = Some c /\ differs n c.
Proof.
  cbn [planSync sp_entries]. rewrite elem_of_isort, elem_of_lfilter, negb_true_iff, String.eqb_neq, elem_of_fst.
  setoid_rewrite elem_of_lfilter. setoid_rewrite elem_of_map_to_list. setoid_rewrite differs_bool. tauto.
Qed.

Lemma sp_writeRoot_spec :
  sp_writeRoot plan = true <-> exists c, wantedOf want !! dnsKey domain = Some c /\ differs (dnsKey domain) c.
Proof.
  cbn [planSync sp_writeRoot]. rewrite contains_func_true. split.
  - intros ([n c] & Hn & He). cbn in He. apply String.eqb_eq in He as ->.
    exists c. by rewrite elem_of_lfilter, elem_of_map_to_list, differs_bool in Hn.
  - intros (c & Hc). exists (dnsKey domain, c). cbn. rewrite String.eqb_refl.
    by rewrite elem_of_lfilter, elem_of_map_to_list, differs_bool.
Qed.

Lemma elem_of_unwanted n :
  n ∈ List.filter (fun n => negb (bool_decide (is_Some (wantedOf want !! n)))) (map_to_list have).*1 <->
  is_Some (have !! n) /\ wantedOf want !! n = None.
Proof.
  rewrite elem_of_lfilter, negb_true_iff, bool_decide_eq_false, <- eq_None_not_Some, elem_of_fst.
  unfold is_Some. by setoid_rewrite elem_of_map_to_list.
Qed.

Lemma elem_of_sp_stale n :
  n ∈ sp_stale plan <-> is_Some (have !! n) /\ wantedOf want !! n = None /\ retains retain n = false.
Proof. cbn [planSync sp_stale]. rewrite elem_of_isort, elem_of_lfilter, elem_of_unwanted, negb_true_iff. tauto. Qed.

Lemma NoDup_sp_entries : NoDup (sp_entries plan).
Proof.
  cbn [planSync sp_entries]. rewrite isort_perm. apply lfilter_NoDup.
  eapply sublist_NoDup; [apply (NoDup_fst_map_to_list (wantedOf want))|].
  apply fmap_sublist. induction (map_to_list (wantedOf want)) as [|x l IH]; cbn; [constructor|].
  destruct (negb _); by constructor.
Qed.

Lemma NoDup_sp_stale : NoDup (sp_stale plan).
Proof. cbn [planSync sp_stale]. rewrite isort_perm. do 2 apply lfilter_NoDup. apply NoDup_fst_map_to_list. Qed.

Lemma sp_wanted_eq : sp_wanted plan = wantedOf want.
Proof. done. Qed.
End PlanFacts.

Lemma wantedOf_from want n c : wantedOf want !! n = Some c -> exists m, (m, c) ∈ want /\ dnsKey m = n.
Proof.
  unfold wantedOf. assert (forall m0 : gmap string string, foldl (fun m nc => <[dnsKey nc.1:=nc.2]> m) m0 want !! n = Some c ->
    m0 !! n = Some c \/ exists m, (m, c) ∈ want /\ dnsKey m = n) as H.
  { induction want as [|[m d] l IH]; intros m0; cbn; [by left|]. intros Hl. apply IH in Hl as [Hl|(x & Hx & <-)].
    - apply lookup_insert_Some in Hl as [[<- <-]|[_ Hl]]; [right; exists m; split; [left|done]|by left].
    - right. exists x. split; [by right|done]. }
  intros Hl. apply H in Hl as [Hl|Hl]; [by rewrite lookup_empty in Hl|done].
Qed.

Lemma existing_lookup `{ProviderOps R Zn B} (z : Zn) domain n r :
  existing z domain !! n = Some r <-> records z !! n = Some r /\ inDomain domain n = true.
Proof. unfold existing. by rewrite map_lookup_filter_Some. Qed.

(** * Zones reached by edits *)

Section Reached.
Context `{O : ProviderOps R Zn B} `{P : !Provider R Zn B}.

Definition after (z : Zn) (es : list edit) (z' : Zn) : Prop :=
  zone_ok z' /\ (forall n v, (n, v) ∈ es -> at_name z' n = v) /\ (forall n, n ∉ es.*1 -> records z' !! n = records z !! n).

Lemma after_refl z : zone_ok z -> after z [] z.
Proof. intros Hz. split_and!; [done| |done]. intros n v Hn. by apply not_elem_of_nil in Hn. Qed.

Lemma after_app z es1 z1 es2 z2 :
  (forall n, n ∈ es1.*1 -> n ∉ es2.*1) -> after z es1 z1 -> after z1 es2 z2 -> after z (es1 ++ es2) z2.
Proof.
  intros Hd (Hz1 & Hw1 & Hk1) (Hz2 & Hw2 & Hk2). split_and!; [done| |].
  - intros n v [Hn|Hn]%elem_of_app; [|by apply Hw2]. rewrite <- (Hw1 n v Hn). unfold at_name. rewrite Hk2; [done|].
    apply Hd. apply elem_of_fst. by exists v.
  - intros n Hn. rewrite fmap_app, not_elem_of_app in Hn. rewrite Hk2, Hk1; tauto.
Qed.

Lemma after_perm z es es' z' : es ≡ₚ es' -> after z es z' -> after z es' z'.
Proof.
  intros Hp (Hz & Hw & Hk). split_and!; [done| |].
  - intros n v. rewrite <- Hp. apply Hw.
  - intros n Hn. apply Hk. by rewrite Hp.
Qed.

Lemma implements_after have b es z :
  implements have b es -> zone_ok z -> (forall e, e ∈ es -> records z !! e.1 = have !! e.1) ->
  exists z', applyBatch b z = Some z' /\ after z es z'.
Proof. intros Hi Hz Hh. destruct (Hi z Hz Hh) as (z' & Ha & Hok & Hw & Hk). by exists z'. Qed.

(** The zones a phase leaves: after some of its parts; all of them if it succeeds. *)
Lemma submit_after have z0 bs parts st :
  Forall2 (implements have) bs parts -> NoDup (concat parts).*1 ->
  (forall e, e ∈ concat parts -> records z0 !! e.1 = have !! e.1) -> zone_ok z0 -> rn_zone st = z0 ->
  let (st', ok) := submit bs st in
  exists done tr, (exists rest, concat parts = done ++ rest) /\ after z0 done (rn_zone st') /\
    rn_trace st' = rn_trace st ++ tr /\ (forall z, z ∈ tr -> exists es rest, done = es ++ rest /\ after z0 es z) /\
    (ok = true -> done = concat parts) /\ (forall k, rn_answers st = replicate (length bs + k) Done -> ok = true /\ rn_answers st' = replicate k Done).
Proof.
  intros Hi. revert z0 st. induction Hi as [|b es bs parts Hb Hi IH]; intros z0 st Hnd Hh Hz Hst; cbn [submit].
  { exists [], []. split_and!; [by exists []|subst; by apply after_refl|by rewrite app_nil_r| |done|done]. intros z Hn. by apply not_elem_of_nil in Hn. }
  cbn [concat] in Hnd, Hh. rewrite fmap_app, NoDup_app in Hnd. destruct Hnd as (_ & Hdis & Hnd).
  destruct (implements_after have b es z0 Hb Hz) as (z1 & Ha & Hf); [intros e He; apply Hh; by apply elem_of_app; left|].
  assert (submitOne b st = (st <| rn_answers := tail (rn_answers st) |>, false) /\ head (rn_answers st) <> Some Done \/
          exists st1 ok, submitOne b st = (st1, ok) /\ rn_zone st1 = z1 /\ rn_trace st1 = rn_trace st ++ [z1] /\ rn_answers st1 = tail (rn_answers st) /\ (head (rn_answers st) = Some Done -> ok = true)) as [[Hs Hnd1]|(st1 & ok & Hs & Hz1 & Ht1 & Han & Hdone)].
  { unfold submitOne. rewrite Hst, Ha. destruct (rn_answers st) as [|[] rest] eqn:Er; [left|right|right|left]; rewrite ?Er; [done| | |done];
      do 2 eexists; (split; [reflexivity|]); upd_simpl; done. }
  { rewrite Hs. exists [], []. split_and!; [by exists (concat (es :: parts))|upd_simpl; rewrite Hst; by apply after_refl|upd_simpl; by rewrite app_nil_r| |done|intros k Hk; by rewrite Hk in Hnd1].
    intros z Hn. by apply not_elem_of_nil in Hn. }
  rewrite Hs. destruct ok.
  - specialize (IH z1 st1 Hnd). destruct (submit bs st1) as [st' ok].
    destruct IH as (dn & tr & (rest & Hr) & Hdn & Htr & Hall & Hok & Hrun); [|apply Hf|done|].
    { intros e He. rewrite <- Hh by (apply elem_of_app; by right). apply Hf. intros He1. apply (Hdis _ He1).
      apply elem_of_fst. exists e.2. by destruct e. }
    assert (forall dn', (exists rest, dn = dn' ++ rest) -> forall n, n ∈ es.*1 -> n ∉ dn'.*1) as Hdis'.
    { intros dn' [rest' ->] n Hn1 Hn2. apply (Hdis n Hn1). rewrite Hr, !fmap_app, !elem_of_app. by left; left. }
    exists (es ++ dn), (z1 :: tr). split_and!.
    + exists rest. cbn. by rewrite Hr, app_assoc.
    + apply (after_app z0 es z1); [apply Hdis'; exists []; by rewrite app_nil_r|done|done].
    + by rewrite Htr, Ht1, <- app_assoc.
    + intros z [->|Hz']%elem_of_cons; [by exists es, dn|]. destruct (Hall z Hz') as (es' & rest' & -> & Hes').
      exists (es ++ es'), rest'. split; [by rewrite app_assoc|]. apply (after_app z0 es z1); [apply Hdis'; by exists rest'|done|done].
    + intros E. by rewrite Hok.
    + intros k Hk. apply Hrun. by rewrite Han, Hk.
  - exists es, [z1]. split_and!; [by exists (concat parts)|by rewrite Hz1|done| |done|intros k Hk; by rewrite Hk in Hdone; specialize (Hdone eq_refl)].
    intros z Hn%list_elem_of_singleton. subst. exists es, []. by rewrite app_nil_r.
Qed.
End Reached.

(** The zone a run leaves is the last of its trace. *)
Section Final.
Context `{O : ProviderOps R Zn B}.

Lemma submitOne_last b (st : Run Zn) : last (rn_trace st) = Some (rn_zone st) -> last (rn_trace (fst (submitOne b st))) = Some (rn_zone (fst (submitOne b st))).
Proof.
  intros Hl. unfold submitOne. destruct (rn_answers st) as [|[] rest]; cbn [fst]; upd_simpl; try done.
  all: destruct (applyBatch b (rn_zone st)); cbn [fst]; upd_simpl; [apply last_snoc|done].
Qed.

Lemma submit_last bs (st : Run Zn) : last (rn_trace st) = Some (rn_zone st) -> last (rn_trace (fst (submit bs st))) = Some (rn_zone (fst (submit bs st))).
Proof.
  revert st. induction bs as [|b bs IH]; intros st Hl; cbn [submit]; [done|]. pose proof (submitOne_last b st Hl) as H1.
  destruct (submitOne b st) as [st' ok]. destruct ok; [by apply IH|done].
Qed.

Lemma Sync_last t env z domain want retain :
  let run := sy_run (Sync t env z domain want retain) in rn_zone run ∈ rn_trace run.
Proof.
  cbv zeta. unfold Sync. assert (last (rn_trace (MkRun z 0 (en_answers env) [z])) = Some z) as H0 by done.
  assert (forall st : Run Zn, last (rn_trace st) = Some (rn_zone st) -> rn_zone st ∈ rn_trace st) as Hin.
  { intros st Hl. apply last_Some in Hl as [l ->]. apply elem_of_app. right. left. }
  destruct (en_lists env); cbn [negb]; [|by apply Hin].
  match goal with |- context [submit ?bs ?st] => pose proof (submit_last bs st H0) as H1; destruct (submit bs st) as [st1 ok1] end.
  destruct ok1; cbn [negb]; [|by apply Hin]. destruct (_ && _); [by apply Hin|].
  match goal with |- context [submit ?bs ?st] => pose proof (submit_last bs st H1) as H2; destruct (submit bs st) as [st2 ok2] end.
  destruct ok2; cbn [negb]; [|by apply Hin].
  match goal with |- context [submit ?bs ?st] => pose proof (submit_last bs st H2) as H3; destruct (submit bs st) as [st3 ok3] end.
  by apply Hin.
Qed.
End Final.

(** * A whole run *)

(** What the reconcile asks of the published records: names that [dnsKey] leaves
    as they are, inside the domain, and plain texts. *)
Definition want_ok (domain : string) (want : list (string * string)) : Prop :=
  forall m c, (m, c) ∈ want -> dnsKey (dnsKey m) = dnsKey m /\ inDomain domain (dnsKey m) = true /\ plainText c = true.

(** The zone a publish of [want] is about to leave, from what [z] held. *)
Definition target `{ProviderOps R Zn B} (t : recordTTLs) (z : Zn) (domain : string) (want : list (string * string)) (retain : option (list (string * string))) (n : string) : option (string * Z) :=
  match wantedOf want !! n with
  | Some c => Some (c, forName t n domain)
  | None => if inDomain domain n && negb (retains retain n) then None else at_name z n
  end.

(** A zone on the way from [z]: what a resolver may find there. *)
Record safe_zone `{ProviderOps R Zn B} (t : recordTTLs) (domain : string) (want : list (string * string)) (retain : option (list (string * string))) (z z' : Zn) : Prop := {
  sz_outside : forall n, inDomain domain n = false -> records z' !! n = records z !! n;
  sz_texts : forall n, records z' !! n = records z !! n \/ at_name z' n = target t z domain want retain n;
  sz_root : at_name z' (dnsKey domain) = at_name z (dnsKey domain) \/
    (forall n c, n <> dnsKey domain -> wantedOf want !! n = Some c -> at_name z' n = Some (c, forName t n domain));
  sz_pruned : forall n, is_Some (records z !! n) -> records z' !! n = None ->
    forall m c, wantedOf want !! m = Some c -> at_name z' m = Some (c, forName t m domain)
}.

Section SyncFacts.
Context `{O : ProviderOps R Zn B} `{P : !Provider R Zn B} (t : recordTTLs) (domain : string) (want : list (string * string)) (retain : option (list (string * string))).
Context (Hwant : want_ok domain want).

#[local] Abbreviation planOf z := (planSync (existing z domain) domain want retain (unchangedAt t domain)).
#[local] Abbreviation wanted := (wantedOf want).

Definition E z := entryEdits t domain (planOf z).
Definition RT z := rootEdits t domain (planOf z).
Definition ST z := staleEdits (planOf z).

(** A name is up to date, or the plan writes it. *)
Lemma differs_view z n c :
  inDomain domain n = true ->
  differs (existing z domain) (unchangedAt t domain) n c <-> at_name z n <> Some (c, forName t n domain).
Proof.
  intros Hd. unfold differs, at_name. setoid_rewrite existing_lookup. destruct (records z !! n) as [r|] eqn:Er; cbn.
  - assert (unchangedAt t domain n c r = false <-> view r <> (c, forName t n domain)) as H.
    { unfold unchangedAt. rewrite andb_false_iff, String.eqb_neq, Z.eqb_neq. destruct (view r) as [a b]. cbn.
      split; [intros [?|?] [=]; done|]. intros Hne. destruct (String.eqb_spec a c) as [->|]; [right|by left]. congruence. }
    split; [intros Hf; assert (view r <> (c, forName t n domain)) by (by apply H, Hf); congruence|].
    intros Hne r' [[= <-] _]. apply H. congruence.
  - split; [done|]. by intros _ r [? _].
Qed.

Lemma wanted_ok n c : wanted !! n = Some c -> dnsKey n = n /\ inDomain domain n = true /\ plainText c = true.
Proof using Hwant. intros (m & Hm & <-)%wantedOf_from. by apply Hwant. Qed.

Lemma elem_of_E z n v : (n, v) ∈ E z <->
  n <> dnsKey domain /\ exists c, wanted !! n = Some c /\ v = Some (c, forName t n domain) /\ at_name z n <> v.
Proof using Hwant.
  unfold E, entryEdits. rewrite list_elem_of_fmap. split.
  - intros (m & [= -> ->] & Hm). apply elem_of_sp_entries in Hm as (Hr & c & Hc & Hd). split; [done|].
    pose proof (wanted_ok _ _ Hc) as (_ & Hin & _). cbn [planSync sp_wanted]. rewrite Hc. exists c. split_and!; [done..|]. cbn. by rewrite <- differs_view.
  - intros (Hr & c & Hc & -> & Hd). exists n. cbn [planSync sp_wanted]. rewrite Hc. split; [done|].
    apply elem_of_sp_entries. split; [done|]. exists c. split; [done|]. apply differs_view; [by eapply wanted_ok|done].
Qed.

Lemma elem_of_RT z n v : (n, v) ∈ RT z <->
  n = dnsKey domain /\ exists c, wanted !! n = Some c /\ v = Some (c, forName t n domain) /\ at_name z n <> v.
Proof using Hwant.
  unfold RT, rootEdits. pose proof (sp_writeRoot_spec (existing z domain) domain want retain (unchangedAt t domain)) as Hw.
  split.
  - destruct (sp_writeRoot _) eqn:Ew; [|intros Hn; by apply not_elem_of_nil in Hn].
    intros [= -> ->]%list_elem_of_singleton. split; [done|]. apply proj1 in Hw. destruct (Hw eq_refl) as (c & Hc & Hd).
    cbn [planSync sp_wanted]. rewrite Hc. exists c. split_and!; [done..|]. rewrite <- differs_view; [done|]. by eapply wanted_ok.
  - intros (-> & c & Hc & -> & Hd). replace (sp_writeRoot _) with true.
    + cbn [planSync sp_wanted]. rewrite Hc. apply list_elem_of_singleton. done.
    + symmetry. apply Hw. exists c. split; [done|]. apply differs_view; [by eapply wanted_ok|done].
Qed.

Lemma elem_of_ST z n v : (n, v) ∈ ST z <->
  v = None /\ is_Some (records z !! n) /\ inDomain domain n = true /\ wanted !! n = None /\ retains retain n = false.
Proof.
  unfold ST, staleEdits. rewrite list_elem_of_fmap. setoid_rewrite elem_of_sp_stale.
  assert (is_Some (existing z domain !! n) <-> is_Some (records z !! n) /\ inDomain domain n = true) as He.
  { unfold is_Some. setoid_rewrite existing_lookup. naive_solver. }
  split.
  - intros (m & [= -> ->] & Hm & Hw & Hr). rewrite He in Hm. tauto.
  - intros (-> & Hs & Hd & Hw & Hr). exists n. rewrite He. tauto.
Qed.

Lemma edits_names {A} (f : string -> option A) l : ((fun n => (n, f n)) <$> l).*1 = l.
Proof. rewrite <- list_fmap_compose. apply list_fmap_id. Qed.

Lemma E_ok z : edits_ok (existing z domain) (E z).
Proof using Hwant.
  split; [unfold E, entryEdits; rewrite edits_names; apply NoDup_sp_entries|].
  intros n v (_ & c & Hc & -> & _)%elem_of_E. pose proof (wanted_ok _ _ Hc). tauto.
Qed.

Lemma RT_ok z : edits_ok (existing z domain) (RT z).
Proof using Hwant.
  split; [unfold RT, rootEdits; destruct (sp_writeRoot _); cbn; [apply NoDup_singleton|constructor]|].
  intros n v (_ & c & Hc & -> & _)%elem_of_RT. pose proof (wanted_ok _ _ Hc). tauto.
Qed.

Lemma ST_ok z : zone_ok z -> edits_ok (existing z domain) (ST z).
Proof using P.
  intros Hz. split; [unfold ST, staleEdits; rewrite edits_names; apply NoDup_sp_stale|].
  intros n v (-> & [r Hs] & Hd & _ & _)%elem_of_ST. split; [by apply (records_canonical z); [|exists r]|].
  exists r. by apply existing_lookup.
Qed.

Lemma stages_disjoint z n :
  (n ∈ (E z).*1 -> n ∉ (RT z).*1) /\ (n ∈ (E z ++ RT z).*1 -> n ∉ (ST z).*1).
Proof using Hwant.
  split.
  - intros [v Hv]%elem_of_fst [w Hw]%elem_of_fst. apply elem_of_E in Hv as [? _]. by apply elem_of_RT in Hw as [? _].
  - intros [v Hv]%elem_of_fst [w Hw]%elem_of_fst. apply elem_of_ST in Hw as (_ & _ & _ & Hn & _).
    apply elem_of_app in Hv as [(_ & c & Hc & _)%elem_of_E|(_ & c & Hc & _)%elem_of_RT]; congruence.
Qed.

(** One phase of a run that has already made the edits [base]. *)
Lemma phase z base z1 es st :
  zone_ok z -> after z base z1 -> edits_ok (existing z domain) es -> (forall n v, (n, v) ∈ es -> inDomain domain n = true) ->
  (forall n, n ∈ base.*1 -> n ∉ es.*1) -> rn_zone st = z1 ->
  let (st', ok) := submit (batchesFor (existing z domain) es) st in
  exists tr, rn_trace st' = rn_trace st ++ tr /\
    (forall z', z' ∈ tr -> exists sub, sub ⊆ es /\ after z (base ++ sub) z') /\
    (exists sub, sub ⊆ es /\ after z (base ++ sub) (rn_zone st')) /\
    (ok = true -> after z (base ++ es) (rn_zone st')) /\
    (forall k, rn_answers st = replicate (length (batchesFor (existing z domain) es) + k) Done -> ok = true /\ rn_answers st' = replicate k Done).
Proof using P.
  intros Hz Hb Hes Hin Hdis Hst.
  destruct (batches_split z (existing z domain) es Hz) as (parts & Hi & Hp); [|done|].
  { intros n r. rewrite existing_lookup. tauto. }
  assert (forall sub, sub ⊆ es -> forall n, n ∈ base.*1 -> n ∉ sub.*1) as Hdis'.
  { intros sub Hsub n Hn [v Hv]%elem_of_fst. apply (Hdis n Hn). apply elem_of_fst. exists v. by apply Hsub. }
  pose proof (submit_after (existing z domain) z1 (batchesFor (existing z domain) es) parts st Hi) as Hs.
  destruct (submit _ st) as [st' ok]. destruct Hs as (dn & tr & (rest & Hr) & Hdn & Htr & Hall & Hok & Hrun); [| |apply Hb|done|].
  - rewrite Hp. apply Hes.
  - intros [n v] He. rewrite Hp in He. cbn. destruct Hb as (_ & _ & ->).
    + specialize (Hin n v He). apply option_eq. intros r. rewrite existing_lookup. tauto.
    + intros Hn. apply (Hdis n Hn). apply elem_of_fst. by exists v.
  - assert (dn ⊆ es) as Hdn_es. { intros e He. rewrite <- Hp, Hr, elem_of_app. by left. }
    exists tr. split_and!; [done| | | |done].
    + intros z' Hz'. destruct (Hall z' Hz') as (sub & rest' & -> & Hsub). exists sub.
      assert (sub ⊆ es) as Hse. { intros e He. rewrite <- Hp, Hr, !elem_of_app. by left; left. }
      split; [done|]. by apply (after_app z base z1); [apply Hdis'|..].
    + exists dn. split; [done|]. by apply (after_app z base z1); [apply Hdis'|..].
    + intros E1. rewrite (Hok E1) in Hdn. apply (after_app z base z1); [done..|]. by eapply after_perm.
Qed.

Definition stage z es : Prop :=
  es ⊆ E z \/ (E z ⊆ es /\ es ⊆ E z ++ RT z) \/ (E z ++ RT z ⊆ es /\ es ⊆ E z ++ RT z ++ ST z).

Lemma Sync_stages_done env z :
  zone_ok z ->
  let s := Sync t env z domain want retain in
  (forall z', z' ∈ rn_trace (sy_run s) -> exists es, after z es z' /\ stage z es) /\
  (sy_err s = None -> exists es, after z es (rn_zone (sy_run s)) /\ E z ++ RT z ⊆ es /\ es ⊆ E z ++ RT z ++ ST z).
Proof using P Hwant.
  intros Hz. cbv zeta. unfold Sync. assert (exists es, after z es z /\ stage z es) as H0.
  { exists []. split; [by apply after_refl|]. left. set_solver. }
  assert (forall zt, zt ∈ [z] -> exists es, after z es zt /\ stage z es) as Hst0.
  { intros zt Hzt%list_elem_of_singleton. by subst. }
  destruct (en_lists env); cbn [negb]; [|split; [apply Hst0|done]]. fold (E z) (RT z) (ST z).
  pose proof (phase z [] z (E z) (MkRun z 0 (en_answers env) [z]) Hz (after_refl z Hz) (E_ok z)) as H1.
  destruct (submit _ (MkRun _ _ _ _)) as [st1 ok1]. destruct H1 as (tr1 & Ht1 & Ha1 & _ & Hk1 & _); [|set_solver|done|].
  { intros n v (_ & c & Hc & _)%elem_of_E. by eapply wanted_ok. }
  assert (forall zt, zt ∈ rn_trace st1 -> exists es, after z es zt /\ stage z es) as Hst1.
  { rewrite Ht1. intros zt [Hzt|Hzt]%elem_of_app; [by apply Hst0|]. destruct (Ha1 _ Hzt) as (sub & Hs & Haf). exists sub. split; [done|by left]. }
  destruct ok1; cbn [negb]; [|split; [apply Hst1|done]]. destruct (negb _ && _); [split; [apply Hst1|done]|].
  pose proof (phase z (E z) (rn_zone st1) (RT z) st1 Hz (Hk1 eq_refl) (RT_ok z)) as H2.
  destruct (submit _ st1) as [st2 ok2]. destruct H2 as (tr2 & Ht2 & Ha2 & _ & Hk2 & _); [|apply stages_disjoint|done|].
  { intros n v (_ & c & Hc & _)%elem_of_RT. by eapply wanted_ok. }
  assert (forall zt, zt ∈ rn_trace st2 -> exists es, after z es zt /\ stage z es) as Hst2.
  { rewrite Ht2. intros zt [Hzt|Hzt]%elem_of_app; [by apply Hst1|]. destruct (Ha2 _ Hzt) as (sub & Hs & Haf).
    exists (E z ++ sub). split; [done|]. right; left. set_solver. }
  destruct ok2; cbn [negb]; [|split; [apply Hst2|done]].
  pose proof (phase z (E z ++ RT z) (rn_zone st2) (ST z) st2 Hz (Hk2 eq_refl) (ST_ok z Hz)) as H3.
  destruct (submit _ st2) as [st3 ok3]. destruct H3 as (tr3 & Ht3 & Ha3 & Hf3 & _); [|apply stages_disjoint|done|].
  { intros n v (_ & _ & ? & _)%elem_of_ST. done. }
  cbn [sy_run sy_err]. split.
  - intros z'. rewrite Ht3. intros [Hzt|Hzt]%elem_of_app; [by apply Hst2|]. destruct (Ha3 _ Hzt) as (sub & Hs & Haf).
    exists ((E z ++ RT z) ++ sub). split; [done|]. right; right. set_solver.
  - intros _. destruct Hf3 as (sub & Hs & Haf). exists ((E z ++ RT z) ++ sub). split; [done|]. set_solver.
Qed.

Lemma Sync_stages env z z' :
  zone_ok z -> z' ∈ rn_trace (sy_run (Sync t env z domain want retain)) -> exists es, after z es z' /\ stage z es.
Proof using P Hwant. intros Hz. by apply Sync_stages_done. Qed.

(** A run that no error stops makes every edit. *)
Lemma Sync_complete z :
  zone_ok z -> exists k, forall K, (k <= K)%nat ->
  let s := Sync t (MkEnv true (replicate K Done) true) z domain want retain in
  after z (E z ++ RT z ++ ST z) (rn_zone (sy_run s)) /\ sy_err s = None /\
  sy_gauge s = Some (Z.of_nat (size wanted) + sp_kept (planOf z)).
Proof using P Hwant.
  intros Hz. set (b es := length (batchesFor (existing z domain) es)).
  exists (b (E z) + (b (RT z) + b (ST z)))%nat. intros K HK. unfold Sync. cbn [en_lists en_answers en_settles negb]. fold (E z) (RT z) (ST z).
  rewrite (Nat.le_add_sub _ K HK). set (k := (K - _)%nat). rewrite <- !Nat.add_assoc.
  pose proof (phase z [] z (E z) (MkRun z 0 (replicate (b (E z) + (b (RT z) + (b (ST z) + k))) Done) [z]) Hz (after_refl z Hz) (E_ok z)) as H1.
  destruct (submit _ (MkRun _ _ _ _)) as [st1 ok1]. destruct H1 as (tr1 & _ & _ & _ & Hk1 & Hd1); [|set_solver|done|].
  { intros n v (_ & c & Hc & _)%elem_of_E. by eapply wanted_ok. }
  destruct (Hd1 _ eq_refl) as [-> Ha1]. cbn [negb]. rewrite andb_false_r.
  pose proof (phase z (E z) (rn_zone st1) (RT z) st1 Hz (Hk1 eq_refl) (RT_ok z)) as H2.
  destruct (submit _ st1) as [st2 ok2]. destruct H2 as (tr2 & _ & _ & _ & Hk2 & Hd2); [|apply stages_disjoint|done|].
  { intros n v (_ & c & Hc & _)%elem_of_RT. by eapply wanted_ok. }
  destruct (Hd2 _ Ha1) as [-> Ha2]. cbn [negb].
  pose proof (phase z (E z ++ RT z) (rn_zone st2) (ST z) st2 Hz (Hk2 eq_refl) (ST_ok z Hz)) as H3.
  destruct (submit _ st2) as [st3 ok3]. destruct H3 as (tr3 & _ & _ & _ & Hk3 & Hd3); [|apply stages_disjoint|done|].
  { intros n v (_ & _ & ? & _)%elem_of_ST. done. }
  destruct (Hd3 _ Ha2) as [-> _]. cbn [sy_run sy_err sy_gauge]. split_and!; [|done|].
  - rewrite app_assoc. by apply Hk3.
  - by rewrite Z.add_0_r.
Qed.

Lemma edit_target z n v : (n, v) ∈ E z ++ RT z ++ ST z -> v = target t z domain want retain n.
Proof using Hwant.
  unfold target. rewrite !elem_of_app. intros [(_ & c & -> & -> & _)%elem_of_E|[(_ & c & -> & -> & _)%elem_of_RT|(-> & _ & -> & -> & ->)%elem_of_ST]]; done.
Qed.

(** A wanted name holds its text as soon as its phase is over. *)
Lemma stage_wanted z es z' n c :
  after z es z' -> es ⊆ E z ++ RT z ++ ST z -> wanted !! n = Some c ->
  (if (n =? dnsKey domain)%string then RT z ⊆ es else E z ⊆ es) -> at_name z' n = Some (c, forName t n domain).
Proof using Hwant.
  intros (_ & Hw & Hk) Hsub Hc Hin. destruct (decide (at_name z n = Some (c, forName t n domain))) as [He|He].
  - destruct (decide (n ∈ es.*1)) as [[v Hv]%elem_of_fst|Hn].
    + rewrite (Hw n v Hv), (edit_target z n v (Hsub _ Hv)). unfold target. by rewrite Hc.
    + rewrite <- He. unfold at_name. by rewrite Hk.
  - apply Hw. destruct (String.eqb_spec n (dnsKey domain)) as [->|Hr]; apply Hin; [apply elem_of_RT|apply elem_of_E]; split; eauto.
Qed.

(** A run without an error leaves every wanted text in the zone. *)
Lemma Sync_wanted env z n c :
  zone_ok z -> let s := Sync t env z domain want retain in
  sy_err s = None -> wanted !! n = Some c -> at_name (rn_zone (sy_run s)) n = Some (c, forName t n domain).
Proof using P Hwant.
  intros Hz s He Hc. destruct (Sync_stages_done env z Hz) as [_ Hd]. destruct (Hd He) as (es & Haf & Hsub & Hsup).
  eapply stage_wanted; [done..|]. destruct (_ =? _)%string; intros e Hin; apply Hsub, elem_of_app; auto.
Qed.

Lemma stage_sub z es : stage z es -> es ⊆ E z ++ RT z ++ ST z.
Proof. unfold stage. intros [H|[[_ H]|[_ H]]] e He; apply H in He; rewrite !elem_of_app in *; tauto. Qed.

Lemma after_target z es z' n : after z es z' -> es ⊆ E z ++ RT z ++ ST z -> records z' !! n = records z !! n \/ at_name z' n = target t z domain want retain n.
Proof using Hwant.
  intros (_ & Hw & Hk) Hsub. destruct (decide (n ∈ es.*1)) as [[v Hv]%elem_of_fst|Hn]; [right|left; by apply Hk].
  rewrite (Hw n v Hv). by apply edit_target, Hsub.
Qed.

Lemma edit_inDomain z n v : (n, v) ∈ E z ++ RT z ++ ST z -> inDomain domain n = true.
Proof using Hwant.
  rewrite !elem_of_app. intros [(_ & c & Hc & _)%elem_of_E|[(_ & c & Hc & _)%elem_of_RT|(_ & _ & ? & _)%elem_of_ST]]; [by eapply wanted_ok..|done].
Qed.

Lemma Sync_safe_facts env z z' :
  zone_ok z -> z' ∈ rn_trace (sy_run (Sync t env z domain want retain)) -> safe_zone t domain want retain z z'.
Proof using P Hwant.
  intros Hz Hz'. destruct (Sync_stages env z z' Hz Hz') as (es & Haf & Hst). pose proof (stage_sub z es Hst) as Hsub. split.
  - intros n Hn. apply Haf. intros [v Hv]%elem_of_fst. apply Hsub, edit_inDomain in Hv. congruence.
  - intros n. by eapply after_target.
  - destruct Hst as [Hst|[[Hst _]|[Hst _]]]; [left|right..].
    + unfold at_name. f_equal. apply Haf. intros [v Hv]%elem_of_fst. apply Hst, elem_of_E in Hv as [? _]. done.
    + intros n c Hr Hc. eapply stage_wanted; [done..|]. apply String.eqb_neq in Hr. by rewrite Hr.
    + intros n c Hr Hc. eapply stage_wanted; [done..|]. apply String.eqb_neq in Hr. rewrite Hr. set_solver.
  - intros n [r Hr] Hgone m c Hc. eapply stage_wanted; [done..|].
    assert (E z ++ RT z ⊆ es) as Hall; [|destruct (_ =? _)%string; set_solver].
    assert (n ∈ es.*1) as [v Hv]%elem_of_fst.
    { destruct (decide (n ∈ es.*1)) as [|Hn]; [done|]. destruct Haf as (_ & _ & Hk). rewrite Hk in Hgone; congruence. }
    assert (v = None) as ->. { destruct Haf as (_ & Hw & _). rewrite <- (Hw n v Hv). unfold at_name. by rewrite Hgone. }
    assert (forall l, (n, None) ∈ E z ++ l -> (n, None) ∈ l) as Hne.
    { intros l [(_ & c' & _ & [=] & _)%elem_of_E|]%elem_of_app; done. }
    destruct Hst as [Hst|[[_ Hst]|[Hst _]]]; [| |done].
    + apply Hst in Hv. rewrite <- (app_nil_r (E z)) in Hv. apply Hne in Hv. by apply not_elem_of_nil in Hv.
    + apply Hst, Hne, elem_of_RT in Hv as (_ & c' & _ & [=] & _).
Qed.

Lemma complete_target z z' n : zone_ok z -> after z (E z ++ RT z ++ ST z) z' -> at_name z' n = target t z domain want retain n.
Proof using Hwant.
  intros Hz Haf. destruct (after_target z _ z' n Haf) as [Hr|]; [done| |done].
  destruct (wanted !! n) as [c|] eqn:Hc.
  - unfold target. rewrite Hc. eapply stage_wanted; [done..|]. destruct (_ =? _)%string; intros e He; rewrite !elem_of_app; tauto.
  - unfold target. rewrite Hc. destruct (inDomain domain n && negb (retains retain n)) eqn:Hs; [|unfold at_name; by rewrite Hr].
    boolify. destruct (records z !! n) as [r|] eqn:Er; [|unfold at_name; by rewrite Hr].
    destruct Haf as (_ & Hw & _). apply Hw. rewrite !elem_of_app, elem_of_ST. right; right. split_and!; [done|by exists r|done..].
Qed.

(** The target does not depend on which zone of an interrupted run one starts from. *)
Lemma safe_target z z0 n : safe_zone t domain want retain z z0 -> target t z0 domain want retain n = target t z domain want retain n.
Proof using Hwant.
  intros Hs. unfold target. destruct (wanted !! n) eqn:Hc; [done|]. destruct (_ && _) eqn:Hd; [done|].
  destruct (sz_texts _ _ _ _ _ _ Hs n) as [Hr|Hr]; [unfold at_name; by rewrite Hr|]. rewrite Hr. unfold target. by rewrite Hc, Hd.
Qed.

Lemma target_idem z zf n : at_name zf n = target t z domain want retain n -> target t zf domain want retain n = target t z domain want retain n.
Proof. unfold target. intros ->. destruct (wanted !! n); [done|]. by destruct (_ && _). Qed.

Lemma settled_nothing z : (forall n, at_name z n = target t z domain want retain n) -> E z = [] /\ RT z = [] /\ ST z = [].
Proof using Hwant.
  intros Ht. split_and!; apply elem_of_nil_inv; intros [n v] He.
  - apply elem_of_E in He as (_ & c & Hc & -> & Hd). apply Hd. rewrite Ht. unfold target. by rewrite Hc.
  - apply elem_of_RT in He as (_ & c & Hc & -> & Hd). apply Hd. rewrite Ht. unfold target. by rewrite Hc.
  - apply elem_of_ST in He as (_ & [r Hr] & Hi & Hw & Hs). specialize (Ht n). unfold target in Ht. rewrite Hw, Hi, Hs in Ht.
    unfold at_name in Ht. by rewrite Hr in Ht.
Qed.

Lemma Sync_nothing env z :
  en_lists env = true -> (forall n, at_name z n = target t z domain want retain n) ->
  let s := Sync t env z domain want retain in
  sy_changed s = 0 /\ sy_err s = None /\ rn_answers (sy_run s) = en_answers env /\ rn_trace (sy_run s) = [z].
Proof using P Hwant.
  intros Hl Ht. destruct (settled_nothing z Ht) as (HE & HR & HS). unfold Sync. rewrite Hl. cbn [negb].
  fold (E z) (RT z) (ST z). rewrite HE, HR, HS, batches_nil. cbn [submit negb].
  assert (sp_entries (planOf z) = []) as ->. { apply (fmap_nil_inv _ _ HE). }
  by rewrite bool_decide_eq_true_2.
Qed.

Lemma gauge_exact z z' :
  zone_ok z -> (forall n, at_name z' n = target t z domain want retain n) ->
  Z.of_nat (size wanted) + sp_kept (planOf z) = Z.of_nat (size (existing z' domain)).
Proof using Hwant.
  intros Hz Ht. cbn [planSync sp_kept]. set (kept := List.filter (retains retain) _).
  assert (NoDup kept) as Hnd by (do 2 apply lfilter_NoDup; apply NoDup_fst_map_to_list).
  assert (forall n, n ∈ kept <-> is_Some (existing z domain !! n) /\ wanted !! n = None /\ retains retain n = true) as Hk.
  { intros n. unfold kept. rewrite elem_of_lfilter, elem_of_unwanted. tauto. }
  rewrite <- Nat2Z.inj_add. f_equal. rewrite <- (size_dom (D := gset string) wanted), <- (size_dom (D := gset string) (existing z' domain)), <- (size_list_to_set (C := gset string) kept Hnd).
  rewrite <- size_union.
  - f_equal. apply set_eq. intros n. rewrite elem_of_union, elem_of_list_to_set, Hk, !elem_of_dom. unfold is_Some. setoid_rewrite existing_lookup.
    specialize (Ht n). unfold target in Ht. unfold at_name in Ht at 1. destruct (wanted !! n) as [c|] eqn:Hc.
    + pose proof (wanted_ok _ _ Hc) as (_ & Hd & _). destruct (records z' !! n) as [r|] eqn:Er; [|done]. naive_solver.
    + destruct (inDomain domain n) eqn:Hd; [|naive_solver]. cbn in Ht. destruct (retains retain n) eqn:Hr; cbn in Ht.
      * unfold at_name in Ht. destruct (records z !! n), (records z' !! n); try done; naive_solver.
      * destruct (records z' !! n); [done|]. naive_solver.
  - intros n. rewrite elem_of_list_to_set, Hk, elem_of_dom. intros [? ?] (_ & ? & _). congruence.
Qed.
End SyncFacts.

(** * The guarantees *)

(** C8.  Every zone a resolver can read while a publish runs, whatever fails. *)
Theorem Sync_safe `{Provider R Zn B} t env (z z' : Zn) domain want retain :
  zone_ok z -> want_ok domain want -> z' ∈ rn_trace (sy_run (Sync t env z domain want retain)) ->
  safe_zone t domain want retain z z'.
Proof. intros Hz Hw. by apply Sync_safe_facts. Qed.

(** C26.  From any zone an interrupted publish leaves, enough accepted requests reach
    the target, report its size, and leave the next run nothing to send. *)
Theorem Sync_converges `{Provider R Zn B} t env (z z0 : Zn) domain want retain :
  zone_ok z -> want_ok domain want -> z0 ∈ rn_trace (sy_run (Sync t env z domain want retain)) ->
  exists k, forall K, (k <= K)%nat ->
  let s := Sync t (MkEnv true (replicate K Done) true) z0 domain want retain in
  let zf := rn_zone (sy_run s) in
  sy_err s = None /\ (forall n, at_name zf n = target t z domain want retain n) /\
  sy_gauge s = Some (Z.of_nat (size (existing zf domain))) /\
  forall env', en_lists env' = true ->
    let again := Sync t env' zf domain want retain in
    sy_changed again = 0 /\ sy_err again = None /\ rn_answers (sy_run again) = en_answers env' /\ rn_trace (sy_run again) = [zf].
Proof.
  intros Hz Hw Hin0. pose proof (Sync_safe_facts t domain want retain Hw env z z0 Hz Hin0) as Hs0.
  destruct (Sync_stages t domain want retain Hw env z z0 Hz Hin0) as (es & (Hz0 & _) & _).
  destruct (Sync_complete t domain want retain Hw z0 Hz0) as (k & Hk). exists k. intros K HK s zf. destruct (Hk K HK) as (Haf & He & Hg).
  fold s in Haf, He, Hg. assert (forall n, at_name zf n = target t z0 domain want retain n) as Ht by (intros n; by apply complete_target).
  split_and!; [done| | |].
  - intros n. rewrite Ht. by apply safe_target.
  - rewrite Hg. f_equal. by apply (gauge_exact t domain want retain Hw).
  - intros env' He'. apply Sync_nothing; [done..|]. intros n. rewrite Ht. symmetry.
    by apply target_idem.
Qed.
