(* ===== verification/DnsProviders.v ===== *)
(** The two DNS providers: [cmd/dnspublisher/cloudflare.go] and [route53.go].

    Each is an instance of [ProviderOps] and [Provider]: the zone as the service keeps
    it, the batches the code builds, and what the service does with one.  The services
    are not under [src/]: a Cloudflare zone maps record ids to TXT records, a batch
    deletes, then overwrites, then creates, with ids of the service's choice; a
    Route53 zone maps names to record sets, a CREATE needs the name free and a DELETE
    must repeat the record's values and TTL. *)

From stdpp Require Import base gmap strings list numbers sorting.
From Stdlib Require Import ZArith Lia Ascii.
From S2P Require Import Prelude GoLib Text Counting Network DnsSync DnsSyncProps.
From stdpp Require Import list sorting.
#[local] Open Scope Z_scope.

(** * Single edits and batches of them *)

Section Steps.
Context `{O : ProviderOps R Zn B} {Op : Type} (step : Op -> Zn -> option Zn) (have : gmap string R).

Fixpoint steps (ops : list Op) (z : Zn) : option Zn :=
  match ops with [] => Some z | o :: ops' => step o z ≫= steps ops' end.

Definition does (o : Op) (e : edit) : Prop :=
  forall z, zone_ok z -> records z !! e.1 = have !! e.1 -> exists z', step o z = Some z' /\ after z [e] z'.

Lemma steps_after ops es z :
  Forall2 does ops es -> NoDup es.*1 -> zone_ok z -> (forall e, e ∈ es -> records z !! e.1 = have !! e.1) ->
  exists z', steps ops z = Some z' /\ after z es z'.
Proof.
  intros Hd. revert z. induction Hd as [|o e ops es Ho Hd IH]; intros z Hnd Hz Hh; cbn [steps].
  { exists z. split; [done|by apply after_refl]. }
  cbn in Hnd. apply NoDup_cons in Hnd as [Hn Hnd].
  destruct (Ho z Hz) as (z1 & -> & H1); [apply Hh; left|]. cbn [mbind option_bind].
  destruct (IH z1 Hnd) as (z2 & Hs & H2); [apply H1| |].
  { intros e' He'. rewrite <- Hh by (by right). apply H1. cbn. intros Heq%list_elem_of_singleton. apply Hn. rewrite <- Heq. apply elem_of_fst. exists e'.2. by destruct e'. }
  exists z2. split; [done|]. apply (after_app z [e] z1); [|done..]. by intros n ->%list_elem_of_singleton.
Qed.

(** A batch that runs single steps implements its edits. *)
Lemma steps_implement (b : B) ops es :
  (forall z, applyBatch b z = steps ops z) -> Forall2 does ops es -> NoDup es.*1 -> implements have b es.
Proof.
  intros Hb Hd Hnd z Hz Hh. rewrite Hb. destruct (steps_after ops es z Hd Hnd Hz Hh) as (z' & Hs & Hz' & Hw & Hk).
  by exists z'.
Qed.
End Steps.

(** Batches that cut a list of operations cut the list of edits alike. *)
Lemma cut_parts {A B} (f : A -> B) (bs : list (list B)) l :
  concat bs = map f l -> exists parts, bs = map (map f) parts /\ concat parts = l.
Proof.
  revert l. induction bs as [|b bs IH]; intros l H; cbn in H.
  - exists []. by destruct l.
  - symmetry in H. apply map_eq_app in H as (l1 & l2 & -> & <- & H2). destruct (IH l2) as (parts & -> & <-); [done|].
    by exists (l1 :: parts).
Qed.

(** [slices.Chunk]. *)
Fixpoint chunkFuel {A} (fuel n : nat) (l : list A) : list (list A) :=
  match fuel, l with
  | S fuel', _ :: _ => take n l :: chunkFuel fuel' n (drop n l)
  | _, _ => []
  end.
Definition Chunk {A} (n : nat) (l : list A) : list (list A) := chunkFuel (length l) n l.

Lemma chunkFuel_concat {A} fuel n (l : list A) : (0 < n)%nat -> (length l <= fuel)%nat -> concat (chunkFuel fuel n l) = l.
Proof.
  intros Hn. revert l. induction fuel as [|fuel IH]; intros [|x l] Hl; cbn [chunkFuel]; [done|cbn in Hl; lia|done|].
  cbn [concat]. rewrite IH; [apply take_drop|]. rewrite length_drop. cbn in *. lia.
Qed.

Lemma Chunk_concat {A} n (l : list A) : (0 < n)%nat -> concat (Chunk n l) = l.
Proof. intros. by apply chunkFuel_concat. Qed.

Lemma Chunk_sizes {A} n (l b : list A) : (0 < n)%nat -> b ∈ Chunk n l -> (0 < length b <= n)%nat.
Proof.
  intros Hn. unfold Chunk. generalize (length l). intros fuel. revert l.
  induction fuel as [|fuel IH]; intros [|x l]; cbn [chunkFuel]; try (intros H; by apply not_elem_of_nil in H).
  intros [->|Hb]%elem_of_cons; [|by eapply IH]. rewrite length_take. cbn. lia.
Qed.

Lemma NoDup_part {A} (parts : list (list (string * A))) p : NoDup (concat parts).*1 -> p ∈ parts -> NoDup p.*1.
Proof.
  intros Hnd Hp. apply list_elem_of_split in Hp as (l1 & l2 & ->). rewrite concat_app in Hnd. cbn in Hnd.
  rewrite !fmap_app, !NoDup_app in Hnd. tauto.
Qed.

(** The batches of a cut, each running the operations of its part. *)
Lemma cut_implements `{ProviderOps R Zn B} {Op} (step : Op -> Zn -> option Zn) have (mk : list Op -> B) (f : edit -> Op) (bs : list (list Op)) es :
  (forall ops z, applyBatch (mk ops) z = steps step ops z) ->
  concat bs = map f es -> NoDup es.*1 -> (forall e, e ∈ es -> does step have (f e) e) ->
  exists parts, Forall2 (implements have) (mk <$> bs) parts /\ concat parts = es.
Proof.
  intros Hmk Hbs Hnd Hd. destruct (cut_parts f bs es Hbs) as (parts & -> & <-). exists parts. split; [|done].
  assert (forall p, p ∈ parts -> implements have (mk (map f p)) p) as Hp.
  { intros p Hp. eapply (steps_implement step); [by apply Hmk| |by eapply NoDup_part].
    apply Forall2_fmap_l, Forall_Forall2_diag, Forall_forall. intros e He. apply Hd.
    apply elem_of_concat. by exists p. }
  change (map (map f) parts) with (map f <$> parts). rewrite <- list_fmap_compose. apply Forall2_fmap_l, Forall_Forall2_diag, Forall_forall, Hp.
Qed.

(** * Cloudflare *)

Module Cloudflare.

Definition cloudflareBatchMax : nat := 200.

Record cfRecord := MkRecord { cf_ID : string; cf_Type : string; cf_Name : string; cf_Content : string; cf_TTL : Z }.
Record cfBatch := MkBatch { cf_Deletes : list cfRecord; cf_Puts : list cfRecord; cf_Posts : list cfRecord }.

Definition len (b : cfBatch) : Z := Z.of_nat (length (cf_Deletes b) + length (cf_Puts b) + length (cf_Posts b)).

(** [chunkBatch]. *)
Definition chunkBatch (batch : cfBatch) : list cfBatch :=
  ((fun c => MkBatch [] c []) <$> Chunk cloudflareBatchMax (cf_Puts batch)) ++
  ((fun c => MkBatch [] [] c) <$> Chunk cloudflareBatchMax (cf_Posts batch)) ++
  ((fun c => MkBatch c [] []) <$> Chunk cloudflareBatchMax (cf_Deletes batch)).

(** The closure [write] of [Sync], and its loop over the stale names. *)
Definition write (have : gmap string cfRecord) (target : cfBatch) (e : edit) : cfBatch :=
  let '(name, v) := e in
  match v, have !! name with
  | Some (content, ttl), Some current => MkBatch (cf_Deletes target) (cf_Puts target ++ [MkRecord (cf_ID current) "TXT" name content ttl]) (cf_Posts target)
  | Some (content, ttl), None => MkBatch (cf_Deletes target) (cf_Puts target) (cf_Posts target ++ [MkRecord "" "TXT" name content ttl])
  | None, current => MkBatch (cf_Deletes target ++ [MkRecord (default "" (cf_ID <$> current)) "" "" "" 0]) (cf_Puts target) (cf_Posts target)
  end.
Definition batchOf (have : gmap string cfRecord) (es : list edit) : cfBatch := foldl (write have) (MkBatch [] [] []) es.

Section Service.
(** The service: the id of a new record, and the presentation form in which it
    returns a text. *)
Context (newID : gmap string cfRecord -> string) (present : string -> string).
Context (newID_fresh : forall z, z !! newID z = None).
Context (present_plain : forall c, plainText c = true -> normalizeTXT (present c) = c).

#[local] Abbreviation Zone := (gmap string cfRecord).

(** A record as [existing] lists it: its name folded and its text normalised. *)
Definition listed (ir : string * cfRecord) : string * cfRecord :=
  let key := dnsKey (cf_Name ir.2) in
  (key, MkRecord ir.1 (cf_Type ir.2) key (normalizeTXT (present (cf_Content ir.2))) (cf_TTL ir.2)).

Definition cfRecords (z : Zone) : gmap string cfRecord := list_to_map (listed <$> map_to_list z).

(** One TXT record a name, under names that stay as [dnsKey] gives them. *)
Definition cfOk (z : Zone) : Prop :=
  (forall i j r s, z !! i = Some r -> z !! j = Some s -> dnsKey (cf_Name r) = dnsKey (cf_Name s) -> i = j) /\
  (forall i r, z !! i = Some r -> dnsKey (dnsKey (cf_Name r)) = dnsKey (cf_Name r)).

Inductive op := ODel (r : cfRecord) | OPut (r : cfRecord) | OPost (r : cfRecord).
Definition doOp (o : op) (z : Zone) : option Zone :=
  match o with
  | ODel r => if decide (is_Some (z !! cf_ID r)) then Some (delete (cf_ID r) z) else None
  | OPut r => if decide (is_Some (z !! cf_ID r)) then Some (<[cf_ID r := r]> z) else None
  | OPost r => Some (<[newID z := r]> z)
  end.
Definition opsOf (b : cfBatch) : list op := (ODel <$> cf_Deletes b) ++ (OPut <$> cf_Puts b) ++ (OPost <$> cf_Posts b).
Definition cfApply (b : cfBatch) (z : Zone) : option Zone := steps doOp (opsOf b) z.

#[export] Instance cfOps : ProviderOps cfRecord Zone cfBatch := {
  view r := (cf_Content r, cf_TTL r);
  records := cfRecords;
  zone_ok := cfOk;
  applyBatch := cfApply;
  batchLen := len;
  batchesFor have es := chunkBatch (batchOf have es);
  countsPruned := true
}.

Lemma cfRecords_lookup z n r : cfOk z ->
  cfRecords z !! n = Some r <-> exists i r0, z !! i = Some r0 /\ listed (i, r0) = (n, r).
Proof.
  intros [Hu _]. unfold cfRecords. rewrite <- elem_of_list_to_map, list_elem_of_fmap.
  - split; [intros ([i r0] & He & Hi); apply elem_of_map_to_list in Hi; by exists i, r0|].
    intros (i & r0 & Hi & He). exists (i, r0). split; [done|]. by apply elem_of_map_to_list.
  - rewrite <- list_fmap_compose. apply NoDup_fmap_2_strong; [|apply NoDup_map_to_list].
    intros [i r1] [j r2] H1%elem_of_map_to_list H2%elem_of_map_to_list He. cbn in He.
    assert (i = j) as -> by (eapply Hu; done). congruence.
Qed.

(** A name's record after an update under one id. *)
Lemma cfRecords_update z z' i m :
  cfOk z -> cfOk z' -> (forall j, j <> i -> z' !! j = z !! j) ->
  (forall r, z !! i = Some r -> dnsKey (cf_Name r) <> m) -> (forall r, z' !! i = Some r -> dnsKey (cf_Name r) <> m) ->
  cfRecords z' !! m = cfRecords z !! m.
Proof.
  intros Hz Hz' Hj Hi Hi'. apply option_eq. intros r. rewrite !cfRecords_lookup by done.
  split; intros (j & r0 & Hl & He); exists j, r0; (split; [|done]); inversion He; subst.
  - rewrite <- Hj; [done|]. intros ->. by eapply Hi'.
  - rewrite Hj; [done|]. intros ->. by eapply Hi.
Qed.

Lemma cfOk_insert z i r :
  cfOk z -> dnsKey (dnsKey (cf_Name r)) = dnsKey (cf_Name r) -> (forall j s, j <> i -> z !! j = Some s -> dnsKey (cf_Name s) <> dnsKey (cf_Name r)) ->
  cfOk (<[i := r]> z).
Proof.
  intros [Hu Hc] Hr Hn. split.
  - intros j k s s' [[<- <-]|[Hj Hs]]%lookup_insert_Some [[<- <-]|[Hk Hs']]%lookup_insert_Some He; [done| | |by eapply Hu].
    + exfalso. symmetry in He. by eapply (Hn k).
    + exfalso. by eapply (Hn j).
  - intros j s [[<- <-]|[Hj Hs]]%lookup_insert_Some; [done|by eapply Hc].
Qed.

Lemma cf_written z i n c ttl id : 
  cfOk (<[i := MkRecord id "TXT" n c ttl]> z) -> dnsKey n = n -> plainText c = true ->
  at_name (<[i := MkRecord id "TXT" n c ttl]> z) n = Some (c, ttl).
Proof using present_plain.
  intros Hz Hn Hc. unfold at_name. cbn [records cfOps view].
  replace (cfRecords _ !! n) with (Some (MkRecord i "TXT" n c ttl)); [done|]. symmetry. apply cfRecords_lookup; [done|].
  exists i, (MkRecord id "TXT" n c ttl). split; [apply lookup_insert_eq|]. unfold listed. cbn. by rewrite Hn, present_plain.
Qed.

(** The three kinds of operations do the edits they stand for. *)
Lemma does_put have n c ttl current :
  have !! n = Some current -> dnsKey n = n -> plainText c = true ->
  does doOp have (OPut (MkRecord (cf_ID current) "TXT" n c ttl)) (n, Some (c, ttl)).
Proof using present_plain.
  intros Hh Hn Hc z Hz He. cbn in He. rewrite Hh in He. apply cfRecords_lookup in He as (i & r0 & Hi & [= Hk <-]); [|done].
  cbn [doOp cf_ID]. rewrite decide_True by (by exists r0). set (r := MkRecord _ _ _ _ _).
  assert (cfOk (<[i := r]> z)) as Hz'.
  { apply cfOk_insert; [done|cbn; congruence|]. cbn. intros j s Hj Hs Heq. apply Hj. destruct Hz as [Hu _]. eapply Hu; [done..|congruence]. }
  eexists. split; [done|]. split_and!; [done| |].
  - intros m v [= -> ->]%list_elem_of_singleton. by apply cf_written.
  - cbn. intros m Hm. apply not_elem_of_cons in Hm as [Hm _]. apply (cfRecords_update z _ i); [done..| | |].
    + intros j Hj. by rewrite lookup_insert_ne.
    + intros s Hs. rewrite Hi in Hs. congruence.
    + intros s Hs. rewrite lookup_insert_eq in Hs. injection Hs as <-. cbn. congruence.
Qed.

Lemma does_post have n c ttl :
  have !! n = None -> dnsKey n = n -> plainText c = true ->
  does doOp have (OPost (MkRecord "" "TXT" n c ttl)) (n, Some (c, ttl)).
Proof using present_plain newID_fresh.
  intros Hh Hn Hc z Hz He. cbn in He. rewrite Hh in He. cbn [doOp]. set (r := MkRecord _ _ _ _ _).
  assert (cfOk (<[newID z := r]> z)) as Hz'.
  { apply cfOk_insert; [done|cbn; congruence|]. cbn. intros j s Hj Hs Heq.
    assert (cfRecords z !! n = Some (listed (j, s)).2) as Hl; [|congruence].
    apply cfRecords_lookup; [done|]. exists j, s. split; [done|]. unfold listed. cbn. congruence. }
  eexists. split; [done|]. split_and!; [done| |].
  - intros m v [= -> ->]%list_elem_of_singleton. by apply cf_written.
  - cbn. intros m Hm. apply not_elem_of_cons in Hm as [Hm _]. apply (cfRecords_update z _ (newID z)); [done..| | |].
    + intros j Hj. by rewrite lookup_insert_ne.
    + intros s Hs. by rewrite newID_fresh in Hs.
    + intros s Hs. rewrite lookup_insert_eq in Hs. injection Hs as <-. cbn. congruence.
Qed.

Lemma does_del have n current :
  have !! n = Some current -> does doOp have (ODel (MkRecord (cf_ID current) "" "" "" 0)) (n, None).
Proof.
  intros Hh z Hz He. cbn in He. rewrite Hh in He. apply cfRecords_lookup in He as (i & r0 & Hi & [= Hk <-]); [|done].
  cbn [doOp cf_ID]. rewrite decide_True by (by exists r0).
  assert (cfOk (delete i z)) as Hz'.
  { destruct Hz as [Hu Hc]. split; [intros j k r s [_ Hr]%lookup_delete_Some [_ Hs]%lookup_delete_Some; by apply (Hu j k)|].
    intros j r [_ Hr]%lookup_delete_Some. by apply (Hc j). }
  eexists. split; [done|]. split_and!; [done| |].
  - intros m v [= -> ->]%list_elem_of_singleton. unfold at_name. cbn. destruct (cfRecords _ !! n) as [r|] eqn:Er; [|done].
    apply cfRecords_lookup in Er as (j & s & [Hj Hs]%lookup_delete_Some & [= Hk' _]); [|done]. exfalso. apply Hj.
    destruct Hz as [Hu _]. eapply Hu; [done..|congruence].
  - cbn. intros m Hm. apply not_elem_of_cons in Hm as [Hm _]. apply (cfRecords_update z _ i); [done..| | |].
    + intros j Hj. by rewrite lookup_delete_ne.
    + intros s Hs. rewrite Hi in Hs. congruence.
    + intros s Hs. by rewrite lookup_delete_eq in Hs.
Qed.

(** The record an edit becomes, and which list of the batch it joins. *)
Definition recordOf (have : gmap string cfRecord) (e : edit) : cfRecord :=
  match e.2 with
  | Some (content, ttl) => MkRecord (default "" (cf_ID <$> have !! e.1)) "TXT" e.1 content ttl
  | None => MkRecord (default "" (cf_ID <$> have !! e.1)) "" "" "" 0
  end.
Definition isDel (e : edit) : bool := match e.2 with Some _ => false | None => true end.
Definition isPut (have : gmap string cfRecord) (e : edit) : bool := negb (isDel e) && bool_decide (is_Some (have !! e.1)).
Definition isPost (have : gmap string cfRecord) (e : edit) : bool := negb (isDel e) && negb (bool_decide (is_Some (have !! e.1))).

Lemma batchOf_lists have es :
  batchOf have es = MkBatch (map (recordOf have) (List.filter isDel es)) (map (recordOf have) (List.filter (isPut have) es)) (map (recordOf have) (List.filter (isPost have) es)).
Proof.
  unfold batchOf. induction es as [|[n v] es IH] using rev_ind; [done|].
  rewrite foldl_app, IH. cbn [foldl write]. rewrite !List.filter_app, !map_app. cbn [List.filter].
  unfold isPut, isPost, isDel, recordOf. cbn [fst snd].
  destruct v as [[c ttl]|]; cbn [negb andb].
  - destruct (have !! n) as [r|] eqn:Hh.
    + rewrite bool_decide_eq_true_2 by done. cbn. rewrite Hh, !app_nil_r. done.
    + rewrite bool_decide_eq_false_2 by (intros [? ?]; done). cbn. rewrite Hh, !app_nil_r. done.
  - cbn. rewrite !app_nil_r. done.
Qed.

Lemma edits_partition have es :
  List.filter (isPut have) es ++ List.filter (isPost have) es ++ List.filter isDel es ≡ₚ es.
Proof.
  induction es as [|e es IH]; [done|]. cbn [List.filter]. unfold isPut, isPost, isDel in *.
  destruct (e.2); cbn [negb andb]; [|by rewrite <- !Permutation_middle, IH].
  destruct (bool_decide _); cbn [negb]; rewrite <- ?Permutation_middle; cbn; rewrite <- ?Permutation_middle; by rewrite IH.
Qed.

Lemma opsOf_puts ops z : cfApply (MkBatch [] ops []) z = steps (fun r => doOp (OPut r)) ops z.
Proof. unfold cfApply, opsOf. cbn. rewrite app_nil_r. revert z. induction ops as [|o ops IH]; intros z; cbn [fmap list_fmap steps]; [done|]. destruct (doOp _ z); [apply IH|done]. Qed.
Lemma opsOf_posts ops z : cfApply (MkBatch [] [] ops) z = steps (fun r => doOp (OPost r)) ops z.
Proof. unfold cfApply, opsOf. cbn. revert z. induction ops as [|o ops IH]; intros z; cbn [fmap list_fmap steps]; [done|]. destruct (doOp _ z); [apply IH|done]. Qed.
Lemma opsOf_deletes ops z : cfApply (MkBatch ops [] []) z = steps (fun r => doOp (ODel r)) ops z.
Proof. unfold cfApply, opsOf. cbn. rewrite app_nil_r. revert z. induction ops as [|o ops IH]; intros z; cbn [fmap list_fmap steps]; [done|]. destruct (doOp _ z); [apply IH|done]. Qed.

#[export] Instance cfProvider : Provider cfRecord Zone cfBatch.
Proof using newID_fresh present_plain.
  split.
  - intros z n Hz [r Hr]. cbn in Hz, Hr. apply cfRecords_lookup in Hr as (i & r0 & Hi & [= <- _]); [|done]. destruct Hz as [_ Hc]. by eapply Hc.
  - intros z have es Hz Hhave [Hnd Hes]. cbn [batchesFor cfOps]. unfold chunkBatch. rewrite batchOf_lists. cbn [cf_Puts cf_Posts cf_Deletes].
    assert (forall f, NoDup (List.filter f es).*1) as Hf.
    { intros f. eapply sublist_NoDup; [exact Hnd|]. apply fmap_sublist, lfilter_sublist. }
    destruct (cut_implements (fun r => doOp (OPut r)) have (fun c => MkBatch [] c []) (recordOf have) (Chunk cloudflareBatchMax (map (recordOf have) (List.filter (isPut have) es))) (List.filter (isPut have) es))
      as (p1 & H1 & C1); [apply opsOf_puts|by apply Chunk_concat; cbv; lia|done| |].
    { intros [n v] [He Hp]%elem_of_lfilter. destruct (Hes n v He) as [Hn Hv]. unfold isPut, isDel in Hp. cbn in Hp. destruct v as [[c ttl]|]; [|done].
      cbn in Hp. apply bool_decide_eq_true in Hp as [r Hr]. unfold recordOf. cbn [fst snd]. rewrite Hr. by apply does_put. }
    destruct (cut_implements (fun r => doOp (OPost r)) have (fun c => MkBatch [] [] c) (recordOf have) (Chunk cloudflareBatchMax (map (recordOf have) (List.filter (isPost have) es))) (List.filter (isPost have) es))
      as (p2 & H2 & C2); [apply opsOf_posts|by apply Chunk_concat; cbv; lia|done| |].
    { intros [n v] [He Hp]%elem_of_lfilter. destruct (Hes n v He) as [Hn Hv]. unfold isPost, isDel in Hp. cbn in Hp. destruct v as [[c ttl]|]; [|done].
      cbn in Hp. apply negb_true_iff, bool_decide_eq_false, eq_None_not_Some in Hp. unfold recordOf. cbn [fst snd]. rewrite Hp. by apply does_post. }
    destruct (cut_implements (fun r => doOp (ODel r)) have (fun c => MkBatch c [] []) (recordOf have) (Chunk cloudflareBatchMax (map (recordOf have) (List.filter isDel es))) (List.filter isDel es))
      as (p3 & H3 & C3); [apply opsOf_deletes|by apply Chunk_concat; cbv; lia|done| |].
    { intros [n v] [He Hp]%elem_of_lfilter. destruct (Hes n v He) as [Hn Hv]. unfold isDel in Hp. cbn in Hp. destruct v as [[c ttl]|]; [done|].
      destruct Hv as [r Hr]. unfold recordOf. cbn [fst snd]. rewrite Hr. by apply does_del. }
    exists (p1 ++ p2 ++ p3). split; [by repeat apply Forall2_app|]. rewrite !concat_app, C1, C2, C3. apply edits_partition.
  - done.
Qed.
End Service.

(** Every request stays within the batch limit, and together they carry every change. *)
Lemma chunkBatch_limits batch b : b ∈ chunkBatch batch -> 0 < len b <= Z.of_nat cloudflareBatchMax.
Proof.
  unfold chunkBatch, len. rewrite !elem_of_app, !list_elem_of_fmap.
  intros [(c & -> & Hc)|[(c & -> & Hc)|(c & -> & Hc)]]; apply Chunk_sizes in Hc; cbn [cf_Deletes cf_Puts cf_Posts length]; unfold cloudflareBatchMax in *; lia.
Qed.

Lemma chunkBatch_all batch :
  concat (cf_Puts <$> chunkBatch batch) = cf_Puts batch /\ concat (cf_Posts <$> chunkBatch batch) = cf_Posts batch /\ concat (cf_Deletes <$> chunkBatch batch) = cf_Deletes batch.
Proof.
  unfold chunkBatch. rewrite !fmap_app, <- !list_fmap_compose, !concat_app.
  assert (forall A B C (f : A -> C) (g : C -> list B) (l : list A), (forall a, g (f a) = []) -> concat ((g ∘ f) <$> l) = []) as He.
  { intros A B C f g l Hl. induction l as [|a l IH]; [done|]. cbn. by rewrite Hl, IH. }
  assert (forall A B (f : list A -> B) (g : B -> list A) (l : list A), (forall a, g (f a) = a) -> concat ((g ∘ f) <$> Chunk cloudflareBatchMax l) = l) as Hid.
  { intros A B f g l Hl. rewrite <- (Chunk_concat cloudflareBatchMax l) at 2 by (unfold cloudflareBatchMax; lia). f_equal. erewrite list_fmap_ext; [apply list_fmap_id|]. intros. apply Hl. }
  split_and!.
  - rewrite (He _ _ _ (fun c => MkBatch [] [] c) cf_Puts), (He _ _ _ (fun c => MkBatch c [] []) cf_Puts), Hid by done. apply app_nil_r.
  - rewrite (He _ _ _ (fun c => MkBatch [] c []) cf_Posts), (He _ _ _ (fun c => MkBatch c [] []) cf_Posts), Hid by done. apply app_nil_r.
  - rewrite (He _ _ _ (fun c => MkBatch [] c []) cf_Deletes), (He _ _ _ (fun c => MkBatch [] [] c) cf_Deletes), Hid by done. done.
Qed.
End Cloudflare.

(** * Route53 *)

Module Route53.

Definition route53ChangeCountLimit : Z := 1000.
Definition route53ChangeSizeLimit : Z := 32000.
Definition route53ChunkBytes : nat := 253.

(** ** Quoted character-strings *)

(** One byte as [strconv.Quote] writes it.  The texts of a tree are ASCII; a byte
    above is quoted here as Quote does outside valid UTF-8. *)
Definition quoteByte (c : ascii) : string :=
  let esc l := String backslash (String (ascii_of_nat l) "") in
  let v := byte_val c in
  if (v =? 34) || (v =? 92) then String backslash (String c "")
  else if (32 <=? v) && (v <=? 126) then String c ""
  else if v =? 7 then esc 97%nat else if v =? 8 then esc 98%nat else if v =? 12 then esc 102%nat
  else if v =? 10 then esc 110%nat else if v =? 13 then esc 114%nat else if v =? 9 then esc 116%nat
  else if v =? 11 then esc 118%nat
  else String backslash (String (ascii_of_nat 120) (hex_encode (String c ""))).
Fixpoint quoteBytes (s : string) : string :=
  match s with EmptyString => EmptyString | String c s' => quoteByte c +:+ quoteBytes s' end.
Definition Quote (s : string) : string := String dquote (quoteBytes s +:+ String dquote "").

Fixpoint splitFuel (fuel : nat) (content : string) : string :=
  match fuel, content with
  | S fuel', String _ _ =>
      let n := Nat.min (String.length content) route53ChunkBytes in
      Quote (stake n content) +:+ splitFuel fuel' (sdrop n content)
  | _, _ => ""
  end.
Definition splitTXT (content : string) : string := splitFuel (String.length content) content.

Lemma unquote_quoteByte c s : printable c = true -> unquote true false (quoteByte c +:+ s) = String c (unquote true false s).
Proof.
  intros Hp. unfold printable in Hp. unfold quoteByte. destruct ((byte_val c =? 34) || (byte_val c =? 92)) eqn:E.
  - reflexivity.
  - rewrite Hp. rewrite sapp_cons. cbn [unquote].
    assert (forall k, (k < 256)%nat -> byte_val c <> Z.of_nat k -> (c =? ascii_of_nat k)%char = false) as Hne.
    { intros k Hk Hb. apply Ascii.eqb_neq. intros ->. apply Hb. unfold byte_val. rewrite <- nat_N_Z. f_equal.
      unfold ascii_of_nat. rewrite N_ascii_embedding; lia. }
    apply orb_false_iff in E as [E1 E2]. boolify. unfold backslash, dquote. rewrite !Hne by lia. done.
Qed.

Lemma unquote_quoteBytes s r : all_printable s = true -> unquote true false (quoteBytes s +:+ r) = s +:+ unquote true false r.
Proof.
  induction s as [|c s IH]; cbn [all_printable quoteBytes]; [done|]. intros [Hc Hs]%andb_true_iff.
  rewrite <- sapp_assoc. by rewrite unquote_quoteByte, IH.
Qed.

Lemma unquote_Quote s r : all_printable s = true -> unquote false false (Quote s +:+ r) = s +:+ unquote false false r.
Proof.
  intros Hs. unfold Quote. rewrite sapp_cons, <- sapp_assoc. cbn [unquote].
  change ((dquote =? backslash)%char) with false. cbn [negb]. rewrite Ascii.eqb_refl. cbn [negb].
  rewrite unquote_quoteBytes by done. done.
Qed.

Lemma all_printable_app a b : all_printable (a +:+ b) = all_printable a && all_printable b.
Proof. induction a as [|c a IH]; [done|]. rewrite sapp_cons. cbn [all_printable]. by rewrite IH, andb_assoc. Qed.

Lemma unquote_splitFuel fuel s : (String.length s <= fuel)%nat -> all_printable s = true -> unquote false false (splitFuel fuel s) = s.
Proof.
  revert s. induction fuel as [|fuel IH]; intros [|c s] Hl Hp; cbn [splitFuel]; [done|cbn in Hl; lia|done|].
  set (n := Nat.min _ _). rewrite <- (stake_sdrop n (String c s)) in Hp. rewrite all_printable_app in Hp. apply andb_true_iff in Hp as [H1 H2].
  rewrite unquote_Quote by done. rewrite IH; [apply stake_sdrop| |done].
  pose proof (f_equal String.length (stake_sdrop n (String c s))) as Hlen. rewrite length_sapp in Hlen.
  assert (String.length (stake n (String c s)) <> 0)%nat; [|cbn [String.length] in *; lia].
  unfold n, route53ChunkBytes. cbn. lia.
Qed.

Lemma splitTXT_quoted s : s <> "" -> HasPrefix (splitTXT s) (String dquote "") = true.
Proof. destruct s as [|c s]; [done|]. intros _. apply HasPrefix_spec. unfold splitTXT. cbn [String.length splitFuel]. unfold Quote. rewrite sapp_cons. by eexists. Qed.

Lemma normalize_split s : all_printable s = true -> normalizeTXT (splitTXT s) = s.
Proof.
  intros Hs. destruct (decide (s = "")) as [->|Hne]; [done|]. unfold normalizeTXT. rewrite splitTXT_quoted by done. by apply unquote_splitFuel.
Qed.

(** ** Change batches *)

Inductive Action := ActionCreate | ActionUpsert | ActionDelete.
Record Change := MkChange { ch_Action : Action; ch_Name : string; ch_TTL : Z; ch_Values : list string }.
Record r53RecordSet := MkSet { rs_values : list string; rs_ttl : Z }.

Definition changeSize (change : Change) : Z := zsum_by slen (ch_Values change).
Definition changeCount (change : Change) : Z := match ch_Action change with ActionUpsert => 2 | _ => 1 end.
Definition txtChange (action : Action) (name : string) (ttl : Z) (values : list string) : Change := MkChange action name ttl values.

(** One round of the loop of [splitChanges]: the batches so far, and the size and
    count of the last. *)
Definition addChange (st : list (list Change) * Z * Z) (change : Change) : list (list Change) * Z * Z :=
  let '(batches, size, count) := st in
  let n := changeCount change in
  let bytes := changeSize change * n in
  match last batches with
  | Some b =>
      if (route53ChangeSizeLimit <? size + bytes) || (route53ChangeCountLimit <? count + n) then (batches ++ [[change]], bytes, n)
      else (take (length batches - 1) batches ++ [b ++ [change]], size + bytes, count + n)
  | None => ([[change]], bytes, n)
  end.
Definition splitChanges (changes : list Change) : list (list Change) := fst (fst (foldl addChange ([], 0, 0) changes)).

Definition batchBytes (b : list Change) : Z := zsum_by (fun c => changeSize c * changeCount c) b.
Definition batchCount (b : list Change) : Z := zsum_by changeCount b.
Definition withinLimits (b : list Change) : Prop := batchBytes b <= route53ChangeSizeLimit /\ batchCount b <= route53ChangeCountLimit.

Lemma splitChanges_invariant changes :
  let '(bs, size, count) := foldl addChange ([], 0, 0) changes in
  concat bs = changes /\
  (forall b, b ∈ bs -> b <> [] /\ (withinLimits b \/ length b = 1%nat)) /\
  match last bs with Some b => batchBytes b = size /\ batchCount b = count | None => changes = [] end.
Proof.
  induction changes as [|c cs IH] using rev_ind; [split_and!; [done|intros b Hb; by apply not_elem_of_nil in Hb|done]|].
  rewrite foldl_app. cbn [foldl]. destruct (foldl addChange ([], 0, 0) cs) as [[bs size] count]. destruct IH as (Hc & Hb & Hl).
  unfold addChange. destruct (last bs) as [b|] eqn:El.
  - apply last_Some in El as [bs' ->]. destruct Hl as [<- <-]. destruct (_ || _) eqn:Et.
    + rewrite last_snoc. split_and!; [by rewrite concat_app, Hc| |unfold batchBytes; cbn; lia|unfold batchCount; cbn; lia].
      intros b'' [Hb''| ->%list_elem_of_singleton]%elem_of_app; [by apply Hb|]. split; [done|by right].
    + replace (length (bs' ++ [b]) - 1)%nat with (length bs') by (rewrite length_app; cbn; lia). rewrite take_app_length, last_snoc.
      split_and!; [|intros b''|unfold batchBytes; rewrite zsum_by_app; cbn; lia|unfold batchCount; rewrite zsum_by_app; cbn; lia].
      * rewrite concat_app in Hc |- *. cbn in *. rewrite app_nil_r in *. by rewrite app_assoc, Hc.
      * intros [Hb''| ->%list_elem_of_singleton]%elem_of_app; [apply Hb, elem_of_app; by left|]. split; [by destruct b|]. left.
        apply orb_false_iff in Et as [E1 E2]. boolify. unfold withinLimits, batchBytes, batchCount in *. rewrite !zsum_by_app. cbn. lia.
  - apply last_None in El as ->. subst cs. cbn. split_and!; [done|intros b ->%list_elem_of_singleton; split; [done|by right]|unfold batchBytes; cbn; lia|unfold batchCount; cbn; lia].
Qed.

Lemma splitChanges_concat changes : concat (splitChanges changes) = changes.
Proof. unfold splitChanges. pose proof (splitChanges_invariant changes) as H. destruct (foldl _ _ _) as [[bs size] count]. apply H. Qed.

Lemma splitChanges_limits changes b :
  b ∈ splitChanges changes -> b <> [] /\ (withinLimits b \/ length b = 1%nat).
Proof. unfold splitChanges. pose proof (splitChanges_invariant changes) as H. destruct (foldl _ _ _) as [[bs size] count]. apply H. Qed.

(** ** The zone *)

Abbreviation Zone := (gmap string r53RecordSet).

(** What the service does with one change of a batch. *)
Definition doChange (c : Change) (z : Zone) : option Zone :=
  let key := dnsKey (ch_Name c) in
  match ch_Action c, z !! key with
  | ActionCreate, None | ActionUpsert, _ => Some (<[key := MkSet (ch_Values c) (ch_TTL c)]> z)
  | ActionCreate, Some _ => None
  | ActionDelete, Some s => if bool_decide (rs_values s = ch_Values c) && (rs_ttl s =? ch_TTL c) then Some (delete key z) else None
  | ActionDelete, None => None
  end.

(** The closure [write] of [Sync], and its loop over the stale names. *)
Definition changeOf (have : gmap string r53RecordSet) (e : edit) : Change :=
  match e.2 with
  | Some (content, ttl) =>
      txtChange (match have !! e.1 with Some _ => ActionUpsert | None => ActionCreate end) e.1 ttl [splitTXT content]
  | None => let current := default (MkSet [] 0) (have !! e.1) in txtChange ActionDelete e.1 (rs_ttl current) (rs_values current)
  end.

Definition r53Ok (z : Zone) : Prop := forall n, is_Some (z !! n) -> dnsKey n = n.

#[export] Instance r53Ops : ProviderOps r53RecordSet Zone (list Change) := {
  view s := (normalizeTXT (sjoin "" (rs_values s)), rs_ttl s);
  records z := z;
  zone_ok := r53Ok;
  applyBatch := steps doChange;
  batchLen b := Z.of_nat (length b);
  batchesFor have es := splitChanges (map (changeOf have) es);
  countsPruned := false
}.

Lemma r53_does z0 have e : edits_ok have [e] -> r53Ok z0 -> does doChange have (changeOf have e) e.
Proof.
  destruct e as [n v]. intros [_ He] _ z Hz Hh. destruct (He n v) as [Hn Hv]; [left|]. cbn in Hh.
  assert (forall s, r53Ok (<[n := s]> z)) as Hins.
  { intros s m [t' [[<- _]|[_ Hm]]%lookup_insert_Some]; [done|]. apply Hz. by exists t'. }
  destruct v as [[c ttl]|].
  - assert (doChange (changeOf have (n, Some (c, ttl))) z = Some (<[n := MkSet [splitTXT c] ttl]> z)) as ->.
    { unfold changeOf, doChange. cbn [fst snd ch_Action ch_Name txtChange ch_Values ch_TTL]. rewrite Hn, Hh. by destruct (have !! n). }
    eexists. split; [done|]. split_and!; [apply Hins| |].
    + intros m v [= -> ->]%list_elem_of_singleton. unfold at_name. cbn [records r53Ops view]. rewrite lookup_insert_eq. cbn.
      rewrite normalize_split; [done|]. by apply andb_true_iff in Hv as [Hp _].
    + cbn. intros m Hm. apply not_elem_of_cons in Hm as [Hm _]. by rewrite lookup_insert_ne.
  - destruct Hv as [s Hs]. rewrite Hs in Hh. unfold changeOf, doChange. cbn [fst snd ch_Action ch_Name txtChange ch_Values ch_TTL]. rewrite Hn, Hs. cbn [default]. rewrite Hh.
    cbn. rewrite bool_decide_eq_true_2, Z.eqb_refl by done. cbn. eexists. split; [done|]. split_and!.
    + intros m [s' [_ Hm]%lookup_delete_Some]. apply Hz. by exists s'.
    + intros m v [= -> ->]%list_elem_of_singleton. unfold at_name. cbn. by rewrite lookup_delete_eq.
    + cbn. intros m Hm. apply not_elem_of_cons in Hm as [Hm _]. by rewrite lookup_delete_ne.
Qed.

#[export] Instance r53Provider : Provider r53RecordSet Zone (list Change).
Proof.
  split.
  - intros z n Hz Hn. by apply Hz.
  - intros z have es Hz Hhave [Hnd Hes]. cbn [batchesFor r53Ops].
    destruct (cut_implements doChange have (fun b => b) (changeOf have) (splitChanges (map (changeOf have) es)) es) as (parts & Hp & Hc).
    + done.
    + apply splitChanges_concat.
    + done.
    + intros e He. apply (r53_does z); [|done]. split; [apply NoDup_singleton|]. intros n v <-%list_elem_of_singleton. by apply Hes.
    + exists parts. split; [|by rewrite Hc]. by rewrite list_fmap_id in Hp.
  - done.
Qed.

(** ** Waiting for propagation *)

(** An answer of GetChange: an error, or whether the change is in sync, with the
    clock after the call. *)
Inductive Poll := PollError | Polled (insync : bool) (now : Time).

(** [waitForSync]: [None] is success.  With no answer left the context is done. *)
Fixpoint waitForSync (ids : list string) (polls : list Poll) (deadline : Time) : option string :=
  match ids with
  | [] => None
  | _ :: ids' =>
      match polls with
      | [] => Some "context canceled"
      | PollError :: _ => Some "GetChange"
      | Polled true _ :: polls' => waitForSync ids' polls' deadline
      | Polled false now :: polls' =>
          if negb (Before now deadline) then Some "change %s still pending after %s" else waitForSync ids polls' deadline
      end
  end.

(** Success means that every change was seen in sync. *)
Lemma waitForSync_all ids polls deadline :
  waitForSync ids polls deadline = None ->
  (length ids <= length (List.filter (fun p => match p with Polled b _ => b | PollError => false end) polls))%nat.
Proof.
  revert ids. induction polls as [|[|[] now] polls IH]; intros [|id ids]; cbn; try done; try lia.
  - intros H%IH. lia.
  - destruct (negb _); [done|]. apply IH.
Qed.

(** ** Credentials *)

Record credState := MkCred { cr_profiles : Z; cr_keyID : string; cr_secret : string }.

(** One line of the loop of [parseRoute53Credentials]. *)
Definition credLine (raw : string) (st : credState) : result credState :=
  let line := TrimSpace raw in
  if (line =? "")%string || HasPrefix line "#" || HasPrefix line ";" then Ok st
  else if HasPrefix line "[" then
    if 1 <? cr_profiles st + 1 then Err "route53 credentials hold more than one profile"
    else Ok (MkCred (cr_profiles st + 1) (cr_keyID st) (cr_secret st))
  else
    match Cut "="%char line with
    | None => Err "route53 credentials line %d is not key=value"
    | Some (key, value) =>
        let k := ToLower (TrimSpace key) in
        if (k =? "aws_access_key_id")%string then Ok (MkCred (cr_profiles st) (TrimSpace value) (cr_secret st))
        else if (k =? "aws_secret_access_key")%string then Ok (MkCred (cr_profiles st) (cr_keyID st) (TrimSpace value))
        else Err "route53 credentials line %d sets unsupported key %q"
    end.
Fixpoint credLines (lines : list string) (st : credState) : result credState :=
  match lines with [] => Ok st | l :: lines' => let! st' := credLine l st in credLines lines' st' end.
Definition parseRoute53Credentials (data : string) : result (string * string) :=
  let! st := credLines (split_on newline "" data) (MkCred 0 "" "") in
  if (cr_keyID st =? "")%string || (cr_secret st =? "")%string then Err "route53 credentials must set aws_access_key_id and aws_secret_access_key"
  else Ok (cr_keyID st, cr_secret st).
End Route53.

(** * Guarantees *)

(** Route53 batches are not empty, hold the changes in order, and stay inside both
    limits of the service when each change alone does. *)
Theorem splitChanges_bounded changes :
  (forall c, c ∈ changes -> Route53.withinLimits [c]) ->
  concat (Route53.splitChanges changes) = changes /\
  forall b, b ∈ Route53.splitChanges changes -> b <> [] /\ Route53.withinLimits b.
Proof.
  intros Hc. split; [apply Route53.splitChanges_concat|]. intros b Hb.
  destruct (Route53.splitChanges_limits changes b Hb) as [Hne [Hw|Hl]]; [done|]. split; [done|].
  destruct b as [|c [|]]; try done. apply Hc. rewrite <- (Route53.splitChanges_concat changes).
  apply elem_of_concat. exists [c]. split; [done|left].
Qed.

(** Text survives Route53's quoted strings of 253 bytes: what is read back is what
    was written. *)
Theorem splitTXT_roundtrip s : all_printable s = true -> normalizeTXT (Route53.splitTXT s) = s.
Proof. apply Route53.normalize_split. Qed.

Lemma splitTXT_roundtrip_witness :
  normalizeTXT (Route53.splitTXT "enrtree-branch:A,B") = "enrtree-branch:A,B" /\ Route53.splitTXT "enrtree-branch:A,B" <> "enrtree-branch:A,B".
Proof. split; [by apply (splitTXT_roundtrip "enrtree-branch:A,B")|done]. Defined.

Lemma splitChanges_bounded_witness :
  let c := Route53.txtChange Route53.ActionUpsert "a.example" 300 [Route53.splitTXT "enr:x"] in
  length (Route53.splitChanges (replicate 600 c)) = 2%nat /\ Forall Route53.withinLimits (Route53.splitChanges (replicate 600 c)).
Proof.
  intros c. split; [vm_compute; reflexivity|]. apply Forall_forall. intros b Hb. apply (splitChanges_bounded (replicate 600 c)); [|exact Hb].
  intros c' [-> _]%elem_of_replicate. split; vm_compute; discriminate.
Defined.

#[local] Existing Instances Route53.r53Ops Route53.r53Provider.

(** A zone that serves an older tree, and one that this process is about to publish. *)
Definition demoZone : Route53.Zone :=
  {["t.example" := Route53.MkSet [Route53.splitTXT "enrtree-root:v1 old"] 300;
    "old.t.example" := Route53.MkSet [Route53.splitTXT "enr:old"] 3600;
    "older.t.example" := Route53.MkSet [Route53.splitTXT "enr:older"] 3600;
    "mail.example" := Route53.MkSet ["v=spf1"] 60]}.
Definition demoWant : list (string * string) := [("t.example", "enrtree-root:v1 new"); ("NEW.t.example.", "enr:new")].
Definition demoRetain : option (list (string * string)) := Some [("old.t.example", "enr:old")].
Definition demoEnv : Env := MkEnv true [Done; Lost] true.

Lemma demo_want_ok : want_ok "t.example" demoWant.
Proof. intros m c H. repeat (apply elem_of_cons in H as [[= -> ->]|H]; [by vm_compute|]). by apply not_elem_of_nil in H. Qed.

Lemma demo_zone_ok : Route53.r53Ok demoZone.
Proof.
  assert (map_Forall (fun n (_ : Route53.r53RecordSet) => dnsKey n = n) demoZone) as H by (by apply (bool_decide_unpack _); vm_compute).
  intros n [s Hs]. exact (H n s Hs).
Qed.

(** The root write of this run was lost after it was applied. *)
Lemma Sync_safe_witness :
  let run := sy_run (Sync defaultTTLs demoEnv demoZone "t.example" demoWant demoRetain) in
  safe_zone defaultTTLs "t.example" demoWant demoRetain demoZone (rn_zone run) /\
  at_name (rn_zone run) "t.example" = Some ("enrtree-root:v1 new", 300) /\ length (rn_trace run) = 3%nat.
Proof.
  split; [|split; vm_compute; reflexivity].
  apply (Sync_safe defaultTTLs demoEnv demoZone); [exact demo_zone_ok|exact demo_want_ok|].
  apply Sync_last.
Defined.

Lemma Sync_converges_witness :
  let left := rn_zone (sy_run (Sync defaultTTLs demoEnv demoZone "t.example" demoWant demoRetain)) in
  exists k, forall K, (k <= K)%nat ->
  let s := Sync defaultTTLs (MkEnv true (replicate K Done) true) left "t.example" demoWant demoRetain in
  sy_err s = None /\ (forall n, at_name (rn_zone (sy_run s)) n = target defaultTTLs demoZone "t.example" demoWant demoRetain n).
Proof.
  destruct (Sync_converges (H0 := Route53.r53Provider) defaultTTLs demoEnv demoZone (rn_zone (sy_run (Sync defaultTTLs demoEnv demoZone "t.example" demoWant demoRetain))) "t.example" demoWant demoRetain) as (k & Hk); [exact demo_zone_ok|exact demo_want_ok| |].
  - apply Sync_last.
  - exists k. intros K HK. destruct (Hk K HK) as (? & ? & _). split; assumption.
Defined.
