(* ===== verification/Float64.v ===== *)
(** float64 arithmetic on the counts that the DNS publisher shares out.

    A non-negative quotient of counts is a dyadic [m / 2^k].  [fdiv] rounds the exact
    quotient to 53 significant bits, to nearest and ties to even, as IEEE 754 division
    does; [f64_agrees] compares it with the Standard Library's [SFdiv] on samples. *)

From stdpp Require Import base list numbers.
From Stdlib Require Import ZArith Lia SpecFloat.
From S2P Require Import Prelude.
#[local] Open Scope Z_scope.

(** [n / d] rounded to the nearest integer, ties to even. *)
Definition rne (n d : Z) : Z :=
  let q := n / d in
  let r := n mod d in
  if 2 * r <? d then q else if d <? 2 * r then q + 1 else if Z.even q then q else q + 1.

(** [float64(z)] of a non-negative integer. *)
Definition f64 (z : Z) : Z :=
  if z <? 2 ^ 53 then z else let s := Z.log2 z - 52 in rne z (2 ^ s) * 2 ^ s.

Record dyadic := MkDyadic { dy_num : Z; dy_exp : Z }.

(** [a / b] for non-negative [a] and positive [b]. *)
Definition fdiv (a b : Z) : dyadic :=
  if a =? 0 then MkDyadic 0 0
  else
    let s0 := 53 + Z.log2 b - Z.log2 a in
    let s := if 2 ^ 53 * b * 2 ^ Z.max 0 (- s0) <=? a * 2 ^ Z.max 0 s0 then s0 - 1 else s0 in
    let m := rne (a * 2 ^ Z.max 0 s) (b * 2 ^ Z.max 0 (- s)) in
    if 0 <=? s then MkDyadic m s else MkDyadic (m * 2 ^ (- s)) 0.

(** [int(x)], [x - float64(n)] for an integer within [x], which is exact, and [math.Round]. *)
Definition fint (x : dyadic) : Z := dy_num x / 2 ^ dy_exp x.
Definition fsub (x : dyadic) (n : Z) : dyadic := MkDyadic (dy_num x - n * 2 ^ dy_exp x) (dy_exp x).
Definition fround (x : dyadic) : Z := (2 * dy_num x + 2 ^ dy_exp x) / 2 ^ (dy_exp x + 1).

(** Comparisons of values. *)
Definition fltb (x y : dyadic) : bool := dy_num x * 2 ^ dy_exp y <? dy_num y * 2 ^ dy_exp x.
Definition feqb (x y : dyadic) : bool := dy_num x * 2 ^ dy_exp y =? dy_num y * 2 ^ dy_exp x.

(** * Against the Standard Library's binary64 *)

Definition sf_of (z : Z) : spec_float := binary_normalize 53 1024 z 0 false.
Definition f64_agrees (a b : Z) : bool :=
  match SFdiv 53 1024 (sf_of a) (sf_of b), fdiv (f64 a) (f64 b) with
  | S754_finite false m e, MkDyadic n k => Z.pos m * 2 ^ Z.max 0 e * 2 ^ k =? n * 2 ^ Z.max 0 (- e)
  | S754_zero _, MkDyadic n _ => n =? 0
  | _, _ => false
  end.

Example fdiv_is_SFdiv :
  forallb (fun ab => f64_agrees ab.1 ab.2)
    [(0, 7); (1, 3); (2, 3); (10, 4); (25 * 3, 125); (999999, 1000003); (1, 49); (4503599627370497, 2); (9007199254740991, 3);
     (9007199254740993, 1); (9007199254740995, 5); (123456789012345, 98765); (5, 1000000007); (36028797018963967, 7)] = true.
Proof. vm_compute. reflexivity. Qed.

(** * Rounding never reaches an integer that the quotient does not *)

Lemma f64_small z : z < 2 ^ 53 -> f64 z = z.
Proof. intros Hz. unfold f64. by replace (z <? 2 ^ 53) with true by (symmetry; boolify; lia). Qed.

Lemma rne_bounds n d : 0 < d -> 2 * d * rne n d <= 2 * n + d /\ 2 * n - d <= 2 * d * rne n d /\ n / d <= rne n d.
Proof.
  intros Hd. unfold rne. pose proof (Z.div_mod n d ltac:(lia)). pose proof (Z.mod_pos_bound n d Hd).
  destruct (2 * (n mod d) <? d) eqn:E1; boolify; [nia|]. destruct (d <? 2 * (n mod d)) eqn:E2; boolify; [nia|]. destruct (Z.even _); nia.
Qed.

Lemma fdiv_shift a b : 0 < a < 2 ^ 53 -> 0 < b ->
  exists s, Z.log2 b <= s /\ 0 <= s /\ fdiv a b = MkDyadic (rne (a * 2 ^ s) b) s.
Proof.
  intros Ha Hb. unfold fdiv. replace (a =? 0) with false by (symmetry; boolify; lia).
  assert (Z.log2 a <= 52) by (apply Z.lt_succ_r, Z.log2_lt_pow2; lia). pose proof (Z.log2_nonneg b).
  cbv zeta. set (s := if 2 ^ 53 * b * _ <=? _ then _ else _). assert (Z.log2 b <= s) as Hs by (unfold s; destruct (_ <=? _); lia).
  exists s. split_and!; [lia..|]. replace (0 <=? s) with true by (symmetry; boolify; lia).
  by rewrite Z.max_r, (Z.max_l 0 (- s)), Z.pow_0_r, Z.mul_1_r by lia.
Qed.

Lemma fdiv_floor a b : 0 <= a < 2 ^ 53 -> 0 < b -> fint (fdiv a b) = a / b.
Proof.
  intros Ha Hb. destruct (decide (a = 0)) as [->|Hne]; [by rewrite Z.div_0_l by lia|].
  destruct (fdiv_shift a b ltac:(lia) Hb) as (s & Hls & Hs & ->). unfold fint. cbn [dy_num dy_exp].
  pose proof (rne_bounds (a * 2 ^ s) b Hb) as (Hup & _ & Hlo). pose proof (Z.pow_pos_nonneg 2 s ltac:(lia) Hs) as Hp.
  pose proof (Z.div_mod a b ltac:(lia)) as Hdm. pose proof (Z.mod_pos_bound a b Hb) as Hm.
  assert (a / b * 2 ^ s <= a * 2 ^ s / b) as Hq by (apply Z.div_le_lower_bound; nia).
  assert (b < 2 ^ (s + 1)) as Hbs.
  { eapply Z.lt_le_trans; [apply Z.log2_spec; lia|]. apply Z.pow_le_mono_r; lia. }
  rewrite Z.pow_add_r, Z.pow_1_r in Hbs by lia.
  symmetry. apply (Z.div_unique _ _ _ (rne (a * 2 ^ s) b - a / b * 2 ^ s)); [left|ring].
  split; [lia|]. assert (rne (a * 2 ^ s) b < (a / b + 1) * 2 ^ s); [|lia].
  apply Z.lt_nge. intros Hge. assert (b * (a / b + 1) - a >= 1) by lia. nia.
Qed.

Lemma fdiv_nonneg a b : 0 <= a < 2 ^ 53 -> 0 < b -> 0 <= dy_exp (fdiv a b).
Proof.
  intros Ha Hb. destruct (decide (a = 0)) as [->|Hne]; [done|].
  destruct (fdiv_shift a b ltac:(lia) Hb) as (s & _ & Hs & ->). done.
Qed.

(** [math.Round] of the rounded quotient rounds the exact one, half away from zero. *)
Lemma fdiv_round a b : 0 <= a < 2 ^ 52 -> 0 < b -> fround (fdiv a b) = (2 * a + b) / (2 * b).
Proof.
  intros Ha Hb. destruct (decide (a = 0)) as [->|Hne].
  { change (fdiv 0 b) with (MkDyadic 0 0). symmetry. apply Z.div_small. lia. }
  assert (2 ^ 52 < 2 ^ 53) as H53 by (apply Z.pow_lt_mono_r; lia).
  destruct (fdiv_shift a b ltac:(lia) Hb) as (s & Hls & Hs & Hd). rewrite Hd.
  assert (Z.log2 b + 1 <= s) as Hls1.
  { assert (Z.log2 a <= 51) by (apply Z.lt_succ_r, Z.log2_lt_pow2; lia). revert Hd. unfold fdiv.
    replace (a =? 0) with false by (symmetry; boolify; lia). cbv zeta. set (s' := if 2 ^ 53 * b * _ <=? _ then _ else _).
    assert (Z.log2 b + 1 <= s') by (unfold s'; destruct (_ <=? _); lia). pose proof (Z.log2_nonneg b).
    replace (0 <=? s') with true by (symmetry; boolify; lia). intros [= _ ->]. done. }
  pose proof (Z.log2_nonneg b). unfold fround. cbn [dy_num dy_exp].
  pose proof (rne_bounds (a * 2 ^ s) b Hb) as (Hup & _ & Hlo). set (m := rne (a * 2 ^ s) b) in *.
  assert (b < 2 ^ s) as Hbs by (eapply Z.lt_le_trans; [apply Z.log2_spec; lia|apply Z.pow_le_mono_r; lia]).
  set (k := (2 * a + b) / (2 * b)). pose proof (Z.div_mod (2 * a + b) (2 * b) ltac:(lia)) as Hdm. pose proof (Z.mod_pos_bound (2 * a + b) (2 * b) ltac:(lia)) as Hm. fold k in Hdm.
  replace s with (s - 1 + 1) in * by lia. rewrite (Z.pow_add_r 2 (s - 1) 1), Z.pow_1_r in * by lia.
  rewrite (Z.pow_add_r 2 (s - 1 + 1) 1), (Z.pow_add_r 2 (s - 1) 1), Z.pow_1_r by lia. pose proof (Z.pow_pos_nonneg 2 (s - 1) ltac:(lia) ltac:(lia)) as Hp.
  set (p := 2 ^ (s - 1)) in *. assert ((2 * k - 1) * p <= m) as Hge.
  { etransitivity; [|exact Hlo]. apply Z.div_le_lower_bound; [done|]. nia. }
  symmetry. apply (Z.div_unique _ _ _ (2 * m + p * 2 - p * 2 * 2 * k)); [left|ring]. split; [nia|].
  assert (m < (2 * k + 1) * p); [|nia]. apply Z.lt_nge. intros Hmge. nia.
Qed.
