(* ===== verification/DnsSelect.v ===== *)
(** Choosing the nodes of a tree: [cmd/dnspublisher/select.go].

    [rankCandidates] keeps the rows a tree of the network may publish, in rank order;
    [pick] takes one tree's share of them, with the IPv6 slots of [reserveIPv6] and the
    client shares of [balanceClients].  An enr record is the [ENode] of NodeData.v with
    one more view of its entries ([EntryLoads]).  The loop of [balanceClients] that hands
    out the remainders runs on fuel; DnsSelectProps.v proves the fuel enough. *)

From stdpp Require Import base gmap strings list numbers sorting.
From Stdlib Require Import ZArith Lia Ascii.
From S2P Require Import Prelude GoLib Counting Float64 Consensus ForkId Network Readiness NetIP NodeData Nodeset Clientname.
From stdpp Require Import list sorting.
#[local] Open Scope Z_scope.

Definition balanceProportional : string := "proportional".
Definition balanceNone : string := "none".
Definition unknownClient : string := "<unknown>".

Record selectOpts := MkOpts {
  so_minScore : Z; so_maxAge : Duration; so_protocol : string; so_layer : string;
  so_capability : string; so_limit : Z; so_balance : string }.

Definition selectOpts_Validate (o : selectOpts) : result unit :=
  if (so_minScore o <? 0) || (max_int32 <? so_minScore o) then Err "--min-score must be between 0 and 2147483647"
  else if so_maxAge o <? 0 then Err "--max-age must not be negative"
  else if negb (so_protocol o =? "any")%string && negb (so_protocol o =? "v4")%string && negb (so_protocol o =? "v5")%string then Err "--protocol must be any, v4, or v5"
  else if negb (so_layer o =? "el")%string && negb (so_layer o =? "cl")%string && negb (so_layer o =? "any")%string then Err "--layer must be el, cl, or any"
  else if so_limit o <? 0 then Err "--limit must not be negative"
  else if negb (so_balance o =? balanceProportional)%string && negb (so_balance o =? balanceNone)%string then Err "--client-balance must be proportional or none"
  else Ok tt.

(** * Records *)

(** How go-ethereum answers [Load] of a typed entry: the entry is absent, it does not
    decode to its type, or it does. *)
Inductive EntryState := Absent | Broken | Decoded.
Class EntryLoads := { loadEntry : ENode -> string -> EntryState }.

Definition rankReady : Z := 0.
Definition rankNeutral : Z := 1.
Definition rankMismatch : Z := 2.

Definition readinessRank (r : Readiness) : Z :=
  match r with Ready => rankReady | Mismatch => rankMismatch | _ => rankNeutral end.

Definition noEvidence : ReadinessEvidence := MkEvidence "" "" 0 "" "" 0.

Record ipv6Slot := MkSlot { v6_dialable : bool; v6_ownPort : bool }.

(** A row a tree may publish.  [ca_node] is the address of its parsed record. *)
Record candidate := MkCandidate {
  ca_row : Row; ca_node : nat; ca_record : ENode; ca_client : string; ca_v6 : ipv6Slot; ca_rank : Z }.

Definition clientBucket (r : Row) : string :=
  if negb (r_FPStatus r =? "ok")%string && negb (r_FPStatus r =? "stale")%string then unknownClient
  else
    let name := Canonical (r_Layer r) (r_Client r) in
    if negb (Recognized (r_Layer r) name) then unknownClient else name.

Section Records.
Context `{EL : EntryLoads}.

Definition enrHasEntry (n : ENode) (key : string) : bool :=
  match loadEntry n key with Absent => false | _ => true end.
Definition enrEntryDecodes (n : ENode) (key : string) : bool :=
  match loadEntry n key with Broken => false | _ => true end.
Definition typedEntries : list string := ["eth"; "ip"; "ip6"; "tcp"; "tcp6"; "udp"; "udp6"; "quic"; "quic6"].
Definition enrWellFormed (n : ENode) : bool := forallb (enrEntryDecodes n) typedEntries.
End Records.

Section Rank.
Context (registry : list Network) `{EC : EnodeCodec} `{EL : EntryLoads}.

Definition enrForkCurrentAt (n : ENode) (layer network : string) (now : Time) : ReadinessEvidence * bool :=
  if (layer =? "el")%string then
    match en_Eth n with
    | None => (noEvidence, false)
    | Some eth =>
        let ev := MkEvidence layer (hex_encode (fid_Hash eth)) (fid_Next eth) "" "" 0 in
        (ev, RowForkCurrentAt registry layer network (ev_ForkHash ev) (ev_ForkNext ev) now)
    end
  else if (layer =? "cl")%string then
    match en_Eth2 n with
    | None => (noEvidence, false)
    | Some eth2 =>
        if negb (slen eth2 =? 16) then (noEvidence, false)
        else
          let s := CLForkScheduleOf n in
          let ev := MkEvidence layer (es_Digest s) 0 (es_Digest s) (es_NextVersion s) (es_NextEpoch s) in
          (ev, RowForkCurrentAt registry layer network (ev_ForkHash ev) 0 now)
    end
  else (noEvidence, false).

(** The order of the first sort: score, then last seen, both falling, then id. *)
Definition rowBefore (a b : Row) : bool :=
  if negb (r_Score a =? r_Score b) then r_Score b <? r_Score a
  else if negb (r_LastSeen a =? r_LastSeen b) then r_LastSeen b <? r_LastSeen a
  else String.ltb (r_ID a) (r_ID b).
Definition rowLe (a b : Row) : bool := negb (rowBefore b a).

(** The tracked fork of a row's network; the source looks it up once per call. *)
Definition targetOf (network : string) (now : Time) : ForkTarget :=
  match LayerForkTargetsAt registry network now with Ok t => t | Err _ => MkForkTarget "" None None end.

(** One round of the loop of [rankCandidates], for the row at address [i]. *)
Definition candidateOf (opt : selectOpts) (now : Time) (i : nat) (r : Row) : option candidate :=
  if negb (so_layer opt =? "")%string && negb (so_layer opt =? "any")%string && negb (r_Layer r =? so_layer opt)%string then None
  else if negb (RowForkCurrentAt registry (r_Layer r) (r_Network r) (r_ForkHash r) (r_ForkNext r) now) then None
  else if negb (Dialable r) then None
  else if (r_Score r <? so_minScore opt) || (r_ENR r =? "")%string then None
  else if (0 <? so_maxAge opt) && (so_maxAge opt <? Sub now (time_Unix (r_LastSeen r))) then None
  else if (so_protocol opt =? "v4")%string && negb (r_HasV4 r) then None
  else if (so_protocol opt =? "v5")%string && negb (r_HasV5 r) then None
  else
    match parseENR (r_ENR r) with
    | None => None
    | Some n =>
        if negb (enrWellFormed n) then None
        else
          let (ev, current) := enrForkCurrentAt n (r_Layer r) (r_Network r) now in
          if negb current then None
          else
            let target := targetOf (r_Network r) now in
            let readiness := ReadinessAt registry target (r_Network r) ev now in
            let out rank := MkCandidate r i n (clientBucket r) (MkSlot (DialableV6 r) (negb (r_TCP6 r =? 0) || negb (r_QUIC6 r =? 0))) rank in
            match CancelledAt target (r_Layer r) with
            | Some at_ =>
                if bool_decide (readiness = NotReady) then
                  if negb (Before now at_) then None else Some (out rankMismatch)
                else Some (out (readinessRank readiness))
            | None => Some (out (readinessRank readiness))
            end
    end.

Definition rankLe (a b : candidate) : bool := ca_rank a <=? ca_rank b.

Definition rankCandidates (rows : list Row) (opt : selectOpts) (now : Time) : list candidate :=
  isort rankLe (omap (fun ir => candidateOf opt now ir.1 ir.2) (imap pair (isort rowLe rows))).
End Rank.

(** * IPv6 slots *)

Fixpoint countTrue (b : list bool) : Z := match b with [] => 0 | v :: b' => (if v then 1 else 0) + countTrue b' end.

(** One pass of the loop of [reserveIPv6], over the slots from the [i]th on: the marks
    and the count, which it stops at [want]. *)
Fixpoint reservePass (ownPort : bool) (want : Z) (v6 : list ipv6Slot) (reserved : list bool) (taken : Z) : list bool * Z :=
  match v6, reserved with
  | s :: v6', r :: reserved' =>
      if taken =? want then (reserved, taken)
      else
        let hit := v6_dialable s && Bool.eqb (v6_ownPort s) ownPort && negb r in
        let (rest, taken') := reservePass ownPort want v6' reserved' (if hit then taken + 1 else taken) in
        ((r || hit) :: rest, taken')
  | _, _ => (reserved, taken)
  end.

Definition reserveIPv6 (v6 : list ipv6Slot) (limit : Z) : list bool :=
  let reserved := replicate (length v6) false in
  let candidates := countTrue (v6_dialable <$> v6) in
  if (candidates =? 0) || (limit <=? 0) then reserved
  else
    let want := fround (fdiv (f64 (f64 limit * f64 candidates)) (f64 (Z.of_nat (length v6)))) in
    let want := Z.min (Z.min (Z.max want 1) candidates) limit in
    let (reserved, taken) := reservePass true want v6 reserved 0 in
    let (reserved, taken) := reservePass false want v6 reserved taken in
    reserved.

(** * Client shares *)

Abbreviation Pool := (gmap string (list nat)).
Abbreviation Slots := (gmap string Z).

(** Go's reads of absent keys. *)
Definition poolOf (pool : Pool) (c : string) : list nat := default [] (pool !! c).
Definition slotsOf (slots : Slots) (c : string) : Z := default 0 (slots !! c).
Definition plen (pool : Pool) (c : string) : Z := Z.of_nat (length (poolOf pool c)).

(** The candidates by client, and the clients in order of first appearance. *)
Definition poolStep (st : Pool * list string) (ic : nat * candidate) : Pool * list string :=
  let '(pool, order) := st in
  let c := ca_client ic.2 in
  (<[c := poolOf pool c ++ [ic.1]]> pool, match pool !! c with Some _ => order | None => order ++ [c] end).
Definition poolsOf (cands : list candidate) : Pool * list string := foldl poolStep (∅, []) (imap pair cands).

(** Largest pool first, then by name. *)
Definition clientBefore (pool : Pool) (a b : string) : bool :=
  if negb (plen pool a =? plen pool b) then plen pool b <? plen pool a else String.ltb a b.
Definition clientLe (pool : Pool) (a b : string) : bool := negb (clientBefore pool b a).

(** One slot for every identified client that holds none, while any remain. *)
Fixpoint floorSlots (held : gmap string Z) (order : list string) (slots : Slots) (remaining : Z) : Slots * Z :=
  match order with
  | [] => (slots, remaining)
  | c :: order' =>
      if remaining =? 0 then (slots, remaining)
      else if (c =? unknownClient)%string || (0 <? default 0 (held !! c)) then floorSlots held order' slots remaining
      else floorSlots held order' (<[c := 1]> slots) (remaining - 1)
  end.

(** The proportional shares: whole slots at once, and the remainders in order. *)
Fixpoint shareSlots (pool : Pool) (free remaining : Z) (order : list string) (slots : Slots) : Slots * list (string * dyadic) :=
  match order with
  | [] => (slots, [])
  | c :: order' =>
      if (free <=? 0) || (remaining <=? 0) then (slots, [])
      else
        let n := plen pool c - slotsOf slots c in
        let exact := fdiv (f64 (f64 remaining * f64 n)) (f64 free) in
        let whole := Z.min (fint exact) n in
        let (slots', fracs) := shareSlots pool free remaining order' (<[c := slotsOf slots c + whole]> slots) in
        (slots', (c, fsub exact whole) :: fracs)
  end.

Definition fracLe (a b : string * dyadic) : bool :=
  if negb (feqb a.2 b.2) then fltb b.2 a.2 else negb (String.ltb b.1 a.1).

Definition allFull (slots : Slots) (pool : Pool) (order : list string) : bool :=
  forallb (fun c => negb (slotsOf slots c <? plen pool c)) order.

(** The loop that hands out what is left, one slot at a time round the remainders. *)
Fixpoint fillSlots (fuel : nat) (pool : Pool) (order : list string) (limit : Z) (fracs : list (string * dyadic)) (i : nat) (used : Z) (slots : Slots) : option Slots :=
  match fuel with
  | O => None
  | S fuel' =>
      if (used <? limit) && negb (length fracs =? 0)%nat then
        let c := default "" (fst <$> fracs !! i) in
        let next := ((i + 1) mod length fracs)%nat in
        if plen pool c <=? slotsOf slots c then
          if allFull slots pool order then Some slots else fillSlots fuel' pool order limit fracs next used slots
        else fillSlots fuel' pool order limit fracs next (used + 1) (<[c := slotsOf slots c + 1]> slots)
      else Some slots
  end.
Definition fillFuel (limit : Z) (order : list string) : nat := S (length order * S (Z.to_nat limit)).

(** The slots of every client, in the order that [picked] visits them. *)
Definition clientSlots (cands : list candidate) (limit : Z) (held : gmap string Z) : option (Pool * list string * Slots) :=
  let '(pool, order) := poolsOf cands in
  let order := isort (clientLe pool) order in
  let (slots, remaining) := floorSlots held order ∅ limit in
  let free := zsum_by (fun c => plen pool c - slotsOf slots c) order in
  let (slots, fracs) := shareSlots pool free remaining order slots in
  let used := zsum_by (slotsOf slots) order in
  slots' ← fillSlots (fillFuel limit order) pool order limit (isort fracLe fracs) 0 used slots;
  Some (pool, order, slots').

Definition balanceClients (cands : list candidate) (limit : Z) (held : gmap string Z) : option (list candidate) :=
  '(pool, order, slots) ← clientSlots cands limit held;
  let picked := concat ((fun c => take (Z.to_nat (slotsOf slots c)) (poolOf pool c)) <$> order) in
  Some (omap (fun i => cands !! i) (isort Nat.leb picked)).

(** * One tree *)

Definition mergeRanked (all_ : list candidate) (reserved : list bool) (filled : list candidate) : list candidate :=
  let keep := ca_node <$> filled in
  fst <$> List.filter (fun cr : candidate * bool => cr.2 || bool_decide (ca_node cr.1 ∈ keep)) (zip all_ reserved).

(** The candidates the tree's capability leaves. *)
Definition eligible `{EntryLoads} (cands : list candidate) (opt : selectOpts) : list candidate :=
  if (so_capability opt =? "snap")%string then List.filter (fun c => enrHasEntry (ca_record c) "snap") cands else cands.

Definition heldBy (cands : list (candidate * bool)) : gmap string Z :=
  foldl (fun (held : gmap string Z) (cr : candidate * bool) => if cr.2 then <[ca_client cr.1 := default 0 (held !! ca_client cr.1) + 1]> held else held) ∅ cands.

Definition pick `{EntryLoads} (cands : list candidate) (opt : selectOpts) : option (list candidate) :=
  let cands := eligible cands opt in
  if (so_limit opt <=? 0) || (Z.of_nat (length cands) <=? so_limit opt) then Some cands
  else
    let reserved := reserveIPv6 (ca_v6 <$> cands) (so_limit opt) in
    let rest := fst <$> List.filter (fun cr : candidate * bool => negb cr.2) (zip cands reserved) in
    let held := heldBy (zip cands reserved) in
    let free := so_limit opt - countTrue reserved in
    let filled : option (list candidate) :=
      if free <=? 0 then Some []
      else if negb (so_balance opt =? balanceProportional)%string || (Z.of_nat (length rest) <=? free) then Some (take (Z.to_nat (Z.min free (Z.of_nat (length rest)))) rest)
      else balanceClients rest free held in
    mergeRanked cands reserved <$> filled.
