(* ===== verification/DnsShares.v ===== *)
(** The client shares of [balanceClients]: the pools partition the candidates, every
    phase keeps each client's slots within its pool, the rounded shares never exceed
    what there is to share, and the loop over the remainders ends with the limit
    reached exactly. *)

From stdpp Require Import base gmap strings list numbers sorting.
From Stdlib Require Import ZArith Lia Ascii.
From S2P Require Import Prelude GoLib Counting Float64 Consensus ForkId Network Readiness NetIP NodeData Nodeset Clientname DnsSelect.
From stdpp Require Import list sorting.
#[local] Open Scope Z_scope.

(** * Pools *)

Definition ofClient (c : string) (x : candidate) : bool := (ca_client x =? c)%string.

Record pools_ok (cands : list candidate) (pool : Pool) (order : list string) : Prop := {
  po_index : forall c i, i ∈ poolOf pool c <-> exists x, cands !! i = Some x /\ ca_client x = c;
  po_sorted : forall c, StronglySorted lt (poolOf pool c);
  po_order : NoDup order;
  po_listed : forall c, c ∈ order <-> is_Some (pool !! c);
  po_nonempty : forall c l, pool !! c = Some l -> l <> [];
  po_count : forall c, length (poolOf pool c) = length (List.filter (ofClient c) cands);
  po_total : zsum_by (plen pool) order = Z.of_nat (length cands)
}.

Lemma imap_pair_snoc {A} (l : list A) x : imap pair (l ++ [x]) = imap pair l ++ [(length l, x)].
Proof. rewrite imap_app. cbn. by rewrite Nat.add_0_r. Qed.

Lemma slots_lookup_insert (s : Slots) c v d : slotsOf (<[c := v]> s) d = if (c =? d)%string then v else slotsOf s d.
Proof.
  unfold slotsOf. destruct (String.eqb_spec c d) as [->|Hne]; [by rewrite lookup_insert_eq|by rewrite lookup_insert_ne].
Qed.

Lemma pool_lookup_insert (p : Pool) c v d : poolOf (<[c := v]> p) d = if (c =? d)%string then v else poolOf p d.
Proof.
  unfold poolOf. destruct (String.eqb_spec c d) as [->|Hne]; [by rewrite lookup_insert_eq|by rewrite lookup_insert_ne].
Qed.

(** Changing one client's number changes a sum over distinct clients by the difference. *)
Lemma zsum_by_change (f g : string -> Z) c order :
  NoDup order -> c ∈ order -> (forall d, d <> c -> g d = f d) -> zsum_by g order = zsum_by f order + g c - f c.
Proof.
  intros Hnd Hc Hd. induction Hnd as [|d order Hn Hnd IH]; [by apply not_elem_of_nil in Hc|].
  rewrite !zsum_by_cons. apply elem_of_cons in Hc as [->|Hc].
  - rewrite (zsum_by_ext g f order); [lia|]. intros x Hx. apply Hd. intros ->. done.
  - rewrite IH by done. rewrite (Hd d); [lia|]. intros ->. done.
Qed.

Lemma SS_snoc_lt (l : list nat) n : StronglySorted lt l -> (forall i, i ∈ l -> (i < n)%nat) -> StronglySorted lt (l ++ [n]).
Proof.
  intros Hl Hn. induction Hl as [|x l Hl IH Hf]; cbn; [repeat constructor|]. constructor.
  - apply IH. intros i Hi. apply Hn. by right.
  - apply Forall_app. split; [done|]. constructor; [apply Hn; left|constructor].
Qed.

Lemma poolsOf_ok cands : let '(pool, order) := poolsOf cands in pools_ok cands pool order.
Proof.
  induction cands as [|x cands IH] using rev_ind; unfold poolsOf in *.
  { cbn. split; [|constructor|constructor| |intros c l; by rewrite lookup_empty|done|done].
    - intros c i. unfold poolOf. rewrite lookup_empty. cbn. split; [intros H; by apply not_elem_of_nil in H|by intros (x & ? & _)].
    - intros c. rewrite lookup_empty. split; [intros H; by apply not_elem_of_nil in H|by intros [? ?]]. }
  rewrite imap_pair_snoc, foldl_app. cbn [foldl]. destruct (foldl poolStep _ _) as [pool order]. destruct IH as [Hix Hss Hnd Hli Hemp Hcnt Htot].
  cbn [poolStep snd fst]. set (c := ca_client x).
  assert (forall d i, i ∈ poolOf pool d -> (i < length cands)%nat) as Hlt.
  { intros d i (y & Hy & _)%Hix. by apply lookup_lt_Some in Hy. }
  split.
  - intros d i. rewrite pool_lookup_insert. destruct (String.eqb_spec c d) as [<-|Hne].
    + rewrite elem_of_app, list_elem_of_singleton, Hix. split.
      * intros [(y & Hy & Hc)| ->]; [exists y; split; [|done]; by apply lookup_app_l_Some|]. exists x. split; [|done]. by rewrite list_lookup_middle.
      * intros (y & Hy & Hc). apply lookup_snoc_Some in Hy as [[_ Hy]|[-> <-]]; [left; by exists y|by right].
    + rewrite Hix. split; intros (y & Hy & Hc); exists y; (split; [|done]).
      * by apply lookup_app_l_Some.
      * apply lookup_snoc_Some in Hy as [[_ Hy]|[_ <-]]; done.
  - intros d. rewrite pool_lookup_insert. destruct (c =? d)%string; [|done]. apply SS_snoc_lt; [done|]. intros i. apply Hlt.
  - destruct (pool !! c) eqn:Hp; [done|]. apply NoDup_app. split_and!; [done| |apply NoDup_singleton].
    intros d Hd Heq%list_elem_of_singleton. rewrite Heq in Hd. apply Hli in Hd as [? ?]. congruence.
  - intros d. assert (d ∈ (match pool !! c with Some _ => order | None => order ++ [c] end) <-> d ∈ order \/ d = c) as ->.
    { destruct (pool !! c) eqn:Hp; [|by rewrite elem_of_app, list_elem_of_singleton]. split; [by left|]. intros [?| ->]; [done|]. apply Hli. by eexists. }
    rewrite Hli, lookup_insert_is_Some. destruct (decide (c = d)) as [<-|]; naive_solver.
  - intros d l [[<- <-]|[_ Hl]]%lookup_insert_Some; [by destruct (poolOf pool c)|by eapply Hemp].
  - intros d. rewrite pool_lookup_insert, List.filter_app, length_app, <- Hcnt. cbn [List.filter]. unfold ofClient at 1. fold c.
    destruct (String.eqb_spec c d) as [<-|]; [rewrite length_app|]; cbn; lia.
  - rewrite length_app. cbn [length]. assert (plen (<[c:=poolOf pool c ++ [length cands]]> pool) c = plen pool c + 1) as Hc.
    { unfold plen. rewrite pool_lookup_insert, String.eqb_refl, length_app. cbn. lia. }
    assert (forall d, d <> c -> plen (<[c:=poolOf pool c ++ [length cands]]> pool) d = plen pool d) as Hd.
    { intros d Hne. unfold plen. rewrite pool_lookup_insert. by destruct (String.eqb_spec c d) as [->|]. }
    destruct (pool !! c) as [l|] eqn:Hp.
    + rewrite (zsum_by_change (plen pool) _ c); [lia|done|apply Hli; by eexists|done].
    + rewrite zsum_by_app, zsum_by_cons, Hc. assert (plen pool c = 0) as H0 by (unfold plen, poolOf; by rewrite Hp).
      rewrite (zsum_by_ext _ (plen pool) order); [cbn; lia|]. intros d Hdo. apply Hd. intros ->. apply Hli in Hdo as [? ?]. congruence.
Qed.

(** * Slots *)

Section Slots.
Context (pool : Pool) (order : list string) (Hnd : NoDup order) (Hin : forall c, c ∈ order <-> is_Some (pool !! c)).

Definition total (slots : Slots) : Z := zsum_by (slotsOf slots) order.
Definition slots_ok (slots : Slots) : Prop := forall c, 0 <= slotsOf slots c <= plen pool c.

Lemma total_insert slots c v : c ∈ order -> total (<[c := v]> slots) = total slots + v - slotsOf slots c.
Proof using Hnd.
  intros Hc. unfold total. rewrite (zsum_by_change (slotsOf slots) _ c); [|done|done|].
  - rewrite slots_lookup_insert, String.eqb_refl. done.
  - intros d Hd. rewrite slots_lookup_insert. by destruct (String.eqb_spec c d) as [->|].
Qed.

Lemma slots_ok_insert slots c v : slots_ok slots -> 0 <= v <= plen pool c -> slots_ok (<[c := v]> slots).
Proof. intros Hs Hv d. rewrite slots_lookup_insert. destruct (String.eqb_spec c d) as [<-|]; [done|apply Hs]. Qed.

Lemma total_nonneg slots : slots_ok slots -> 0 <= total slots.
Proof. intros Hs. unfold total. clear Hnd Hin. induction order as [|d l IH]; [done|]. rewrite zsum_by_cons. specialize (Hs d). lia. Qed.

Lemma slots_ok_empty : slots_ok ∅.
Proof. intros c. unfold slotsOf, plen. rewrite lookup_empty. cbn. lia. Qed.

(** A client that earns a slot of its own: identified, with no reserved slot. *)
Definition earns (held : gmap string Z) (c : string) : bool := negb (c =? unknownClient)%string && (default 0 (held !! c) <=? 0).

Lemma earns_false held c : (c =? unknownClient)%string || (0 <? default 0 (held !! c)) = negb (earns held c).
Proof. unfold earns. rewrite negb_andb, negb_involutive. f_equal. rewrite Z.leb_antisym. by rewrite negb_involutive. Qed.

Lemma floorSlots_ok held l slots remaining :
  NoDup l -> l ⊆ order -> (forall c, c ∈ l -> slotsOf slots c = 0) -> (forall c, c ∈ order -> 1 <= plen pool c) ->
  slots_ok slots -> 0 <= remaining ->
  let '(slots', remaining') := floorSlots held l slots remaining in
  slots_ok slots' /\ total slots' + remaining' = total slots + remaining /\ 0 <= remaining' /\
  (forall c, c ∉ l \/ earns held c = false -> slotsOf slots' c = slotsOf slots c) /\
  (Z.of_nat (length (List.filter (earns held) l)) <= remaining -> forall c, c ∈ l -> earns held c = true -> slotsOf slots' c = 1).
Proof using Hnd.
  intros Hl. revert slots remaining. induction Hl as [|c l Hc Hl IH]; intros slots remaining Hsub H0 Hpos Hok Hr; cbn [floorSlots].
  { split_and!; try done. intros _ c Hc. by apply not_elem_of_nil in Hc. }
  assert (c ∈ order) as Hco by (apply Hsub; left). assert (l ⊆ order) as Hlo by (intros d Hd; apply Hsub; by right).
  destruct (remaining =? 0) eqn:E; boolify.
  { subst. split_and!; try done. cbn [List.filter]. intros Hlen d Hd Hed. exfalso.
    apply elem_of_cons in Hd as [->|Hd]; [rewrite Hed in Hlen; cbn in Hlen; lia|].
    assert (d ∈ List.filter (earns held) l) as Hf by (by apply elem_of_lfilter).
    destruct (List.filter (earns held) l); [by apply not_elem_of_nil in Hf|]. destruct (earns held c); cbn in Hlen; lia. }
  rewrite earns_false. destruct (earns held c) eqn:Ee; cbn [negb].
  - specialize (IH (<[c:=1]> slots) (remaining - 1) Hlo). destruct (floorSlots held l _ _) as [slots' remaining'].
    destruct IH as (A & B & C & D & F); [|done|apply slots_ok_insert; [done|specialize (Hpos c Hco); lia]|lia|].
    { intros d Hd. rewrite slots_lookup_insert. destruct (String.eqb_spec c d) as [->|]; [done|]. apply H0. by right. }
    split_and!; [done| |done| |].
    + rewrite B, total_insert by done. rewrite (H0 c) by left. lia.
    + intros d Hd. rewrite not_elem_of_cons in Hd. rewrite D by tauto. rewrite slots_lookup_insert. destruct (String.eqb_spec c d) as [->|]; [|done]. exfalso. destruct Hd as [[? _]|]; congruence.
    + cbn [List.filter]. rewrite Ee. cbn [length]. intros Hlen d [->|Hd]%elem_of_cons Hed.
      * rewrite D by (by left). by rewrite slots_lookup_insert, String.eqb_refl.
      * apply F; [lia|done..].
  - specialize (IH slots remaining Hlo). destruct (floorSlots held l _ _) as [slots' remaining'].
    destruct IH as (A & B & C & D & F); [intros d Hd; apply H0; by right|done..|]. split_and!; try done.
    + intros d Hd. rewrite not_elem_of_cons in Hd. apply D. tauto.
    + cbn [List.filter]. rewrite Ee. intros Hlen d [->|Hd]%elem_of_cons Hed; [congruence|by apply F].
Qed.

(** The exact share of a client, rounded down: what [shareSlots] gives at once. *)
Lemma share_whole remaining n free :
  0 <= n <= free -> 0 < free -> 0 <= remaining <= free -> free <= 2 ^ 26 ->
  Z.min (fint (fdiv (f64 (f64 remaining * f64 n)) (f64 free))) n = remaining * n / free.
Proof.
  intros Hn Hf Hr Hb. assert (remaining * n < 2 ^ 53) as Hs by (change (2 ^ 53) with (2 ^ 26 * 2 ^ 27); nia).
  rewrite (f64_small remaining), (f64_small n), (f64_small free) by lia. rewrite f64_small by done. rewrite fdiv_floor by nia.
  apply Z.min_l. apply Z.div_le_upper_bound; nia.
Qed.

Lemma div_add_le a b d : 0 < d -> a / d + b / d <= (a + b) / d.
Proof. intros Hd. apply Z.div_le_lower_bound; [done|]. pose proof (Z.mul_div_le a d Hd). pose proof (Z.mul_div_le b d Hd). lia. Qed.

Lemma shareSlots_ok free remaining l slots :
  NoDup l -> l ⊆ order -> slots_ok slots -> zsum_by (fun c => plen pool c - slotsOf slots c) l <= free -> 0 < free <= 2 ^ 26 -> 0 < remaining <= free ->
  let '(slots', fracs) := shareSlots pool free remaining l slots in
  slots_ok slots' /\ fracs.*1 = l /\
  total slots' <= total slots + remaining * zsum_by (fun c => plen pool c - slotsOf slots c) l / free /\
  (forall c, c ∉ l -> slotsOf slots' c = slotsOf slots c) /\
  (forall c, c ∈ l -> slotsOf slots' c = slotsOf slots c + remaining * (plen pool c - slotsOf slots c) / free).
Proof using Hnd.
  intros Hl. revert slots. induction Hl as [|c l Hc Hl IH]; intros slots Hsub Hok Hsum Hf Hr; cbn [shareSlots].
  { split_and!; try done; [rewrite Z.mul_0_r, Z.div_0_l by lia; lia|]. intros c Hc. by apply not_elem_of_nil in Hc. }
  replace (free <=? 0) with false by (symmetry; boolify; lia). replace (remaining <=? 0) with false by (symmetry; boolify; lia). cbn [orb].
  assert (c ∈ order) as Hco by (apply Hsub; left). assert (l ⊆ order) as Hlo by (intros d Hd; apply Hsub; by right).
  rewrite zsum_by_cons in Hsum |- *. set (n := plen pool c - slotsOf slots c) in *. pose proof (Hok c) as Hokc.
  assert (0 <= zsum_by (fun c => plen pool c - slotsOf slots c) l) as Hl0.
  { clear -Hok. induction l as [|d l IH]; [done|]. rewrite zsum_by_cons. specialize (Hok d). lia. }
  rewrite share_whole by lia. set (w := remaining * n / free).
  assert (0 <= w <= n) as Hw by (split; [apply Z.div_pos; nia|apply Z.div_le_upper_bound; nia]).
  assert (zsum_by (fun d => plen pool d - slotsOf (<[c:=slotsOf slots c + w]> slots) d) l = zsum_by (fun d => plen pool d - slotsOf slots d) l) as Heq.
  { apply zsum_by_ext. intros d Hd. rewrite slots_lookup_insert. destruct (String.eqb_spec c d) as [->|]; [done|lia]. }
  specialize (IH (<[c := slotsOf slots c + w]> slots) Hlo). destruct (shareSlots pool free remaining l _) as [slots' fracs].
  destruct IH as (A & B & C & D & F); [apply slots_ok_insert; [done|lia]|lia|done..|]. split_and!; [done|cbn; by rewrite B| | |].
  - rewrite Heq, total_insert in C by done. pose proof (div_add_le (remaining * n) (remaining * zsum_by (fun c => plen pool c - slotsOf slots c) l) free ltac:(lia)) as Hd.
    rewrite <- Z.mul_add_distr_l in Hd. fold w in Hd. lia.
  - intros d Hd. apply not_elem_of_cons in Hd as [Hdc Hd]. rewrite D by done. rewrite slots_lookup_insert. by destruct (String.eqb_spec c d) as [->|].
  - intros d [->|Hd]%elem_of_cons.
    + rewrite D by done. rewrite slots_lookup_insert, String.eqb_refl. done.
    + rewrite F by done. rewrite slots_lookup_insert. destruct (String.eqb_spec c d) as [->|]; [done|]. done.
Qed.

(** * The remainders *)

Lemma zsum_by_le (f g : string -> Z) l : (forall c, c ∈ l -> f c <= g c) -> zsum_by f l <= zsum_by g l.
Proof. induction l as [|c l IH]; intros H; [done|]. rewrite !zsum_by_cons. pose proof (H c ltac:(left)). assert (zsum_by f l <= zsum_by g l) by (apply IH; intros d Hd; apply H; by right). lia. Qed.

Lemma not_allFull slots : total slots < zsum_by (plen pool) order -> exists c, c ∈ order /\ slotsOf slots c < plen pool c.
Proof.
  intros Ht. destruct (existsb (fun c => slotsOf slots c <? plen pool c) order) eqn:E.
  - apply existsb_exists in E as (c & Hc & Hl). exists c. boolify. by rewrite list_elem_of_In.
  - exfalso. assert (zsum_by (plen pool) order <= total slots); [|lia]. apply zsum_by_le. intros c Hc.
    destruct (slotsOf slots c <? plen pool c) eqn:El; boolify; [|done]. exfalso.
    assert (existsb (fun c => slotsOf slots c <? plen pool c) order = true); [|congruence].
    apply existsb_exists. exists c. rewrite <- list_elem_of_In. split; [done|]. by boolify.
Qed.

Lemma fillSlots_runs limit fracs :
  fracs.*1 ≡ₚ order -> limit < zsum_by (plen pool) order ->
  forall fuel i used slots, slots_ok slots -> used = total slots -> used <= limit -> (i < length fracs \/ used = limit)%nat ->
  (used < limit -> exists j d c, fst <$> fracs !! j = Some c /\ slotsOf slots c < plen pool c /\ (d < length fracs)%nat /\ j = ((i + d) mod length fracs)%nat /\
     (S (length fracs * (Z.to_nat (limit - used) - 1) + d) < fuel)%nat) ->
  (0 < fuel)%nat ->
  exists slots', fillSlots fuel pool order limit fracs i used slots = Some slots' /\ slots_ok slots' /\ total slots' = limit /\
    (forall c, slotsOf slots c <= slotsOf slots' c).
Proof using Hnd.
  intros Hp Hlim fuel. set (L := length fracs).
  assert (forall i c, fst <$> fracs !! i = Some c -> c ∈ order) as Hc.
  { intros i c Hi. rewrite <- Hp. rewrite <- list_lookup_fmap in Hi. by eapply list_elem_of_lookup_2. }
  induction fuel as [|fuel IH]; intros i used slots Hok Hu Hle Hi Hd Hf; [lia|]. cbn [fillSlots]. fold L.
  destruct (used <? limit) eqn:El; boolify; cbn [andb]; [|exists slots; split_and!; [done|done|lia|done]].
  destruct Hi as [Hi|Hi]; [|lia]. destruct (Hd El) as (j & d & c & Hj & Hfull & Hdl & Hjd & Hfu). replace (L =? 0)%nat with false by (symmetry; apply Nat.eqb_neq; lia). cbn [negb].
  assert (exists ci, fst <$> fracs !! i = Some ci) as [ci Hci].
  { destruct (fracs !! i) as [[ci f]|] eqn:E; [by exists ci|]. apply lookup_ge_None in E. unfold L in *. lia. }
  rewrite Hci. change (default "" (Some ci)) with ci. assert ((i + 1) mod L < L)%nat as Hnext by (apply Nat.mod_upper_bound; lia).
  destruct (plen pool ci <=? slotsOf slots ci) eqn:Ef; boolify.
  - assert (allFull slots pool order = false) as ->.
    { apply not_true_iff_false. unfold allFull. rewrite forallb_forall. intros Hall. specialize (Hall c). rewrite <- list_elem_of_In in Hall.
      specialize (Hall ltac:(by eapply Hc)). apply negb_true_iff in Hall. boolify. lia. }
    destruct d as [|d].
    { exfalso. rewrite Nat.add_0_r, Nat.mod_small in Hjd by done. subst j. rewrite Hci in Hj. injection Hj as ->. lia. }
    pose proof (Nat.le_0_l (L * (Z.to_nat (limit - used) - 1))). apply IH; [done..|by left| |lia]. intros _. exists j, d, c. split_and!; [done..|lia| |lia].
    rewrite Nat.Div0.add_mod_idemp_l. rewrite Hjd. f_equal. lia.
  - pose proof (Hok ci) as Hoki. pose proof (Hc i ci Hci) as Hcio.
    pose proof (Nat.le_0_l (L * (Z.to_nat (limit - used) - 1))).
    destruct (IH ((i + 1) mod L)%nat (used + 1) (<[ci := slotsOf slots ci + 1]> slots)) as (slots' & Hr & Hok' & Ht & Hm); [apply slots_ok_insert; [done|lia]|rewrite total_insert by done; lia|lia|by left| |lia|].
    + intros Hl2. destruct (not_allFull (<[ci := slotsOf slots ci + 1]> slots)) as (c' & Hc' & Hfull').
      { rewrite total_insert by done. lia. }
      rewrite <- Hp in Hc'. apply list_elem_of_lookup_1 in Hc' as [j' Hj']. rewrite list_lookup_fmap in Hj'.
      assert (j' < L)%nat as Hjl. { destruct (fracs !! j') eqn:E; [|done]. by apply lookup_lt_Some in E. }
      exists j', ((j' + (L - (i + 1) mod L)) mod L)%nat, c'. split_and!; [done..|apply Nat.mod_upper_bound; lia| |].
      * rewrite Nat.Div0.add_mod_idemp_r. replace ((i + 1) mod L + (j' + (L - (i + 1) mod L)))%nat with (j' + 1 * L)%nat by lia.
        rewrite Nat.Div0.mod_add. by rewrite Nat.mod_small.
      * assert ((j' + (L - (i + 1) mod L)) mod L < L)%nat by (apply Nat.mod_upper_bound; lia).
        replace (Z.to_nat (limit - used)) with (S (Z.to_nat (limit - (used + 1)))) in Hfu by lia.
        assert (exists k, Z.to_nat (limit - (used + 1)) = S k) as [k Hk] by (exists (pred (Z.to_nat (limit - (used + 1)))); lia). rewrite Hk in *. cbn [Nat.sub] in Hfu. nia.
    + exists slots'. split_and!; [done..|]. intros d'. specialize (Hm d'). rewrite slots_lookup_insert in Hm.
      destruct (String.eqb_spec ci d') as [E|]; [rewrite <- E in *|]; lia.
Qed.
End Slots.

(** * The allocation *)

(** The clients that earn a slot, and the share each client is guaranteed: its own slot
    and its proportional part of the rest, rounded down. *)
Definition earners (held : gmap string Z) (order : list string) : Z := Z.of_nat (length (List.filter (earns held) order)).
Definition quota (cands : Z) (pool : Pool) (order : list string) (limit : Z) (held : gmap string Z) (c : string) : Z :=
  let own := if earns held c then 1 else 0 in
  let k := earners held order in
  own + (limit - k) * (plen pool c - own) / (cands - k).

Lemma pools_ok_perm cands pool order order' : order ≡ₚ order' -> pools_ok cands pool order -> pools_ok cands pool order'.
Proof.
  intros Hp [A B C D F G E]. split; [done|done|by rewrite <- Hp| |done|done|by rewrite <- (zsum_by_perm _ _ _ Hp)].
  intros c. rewrite <- Hp. apply D.
Qed.

Lemma pool_nonempty cands pool order c : pools_ok cands pool order -> c ∈ order -> 1 <= plen pool c.
Proof.
  intros Ho [l Hl]%(po_listed _ _ _ Ho). pose proof (po_nonempty _ _ _ Ho c l Hl). unfold plen, poolOf. rewrite Hl. cbn. destruct l; [done|cbn; lia].
Qed.

Lemma zsum_by_sub (f g : string -> Z) l : zsum_by (fun c => f c - g c) l = zsum_by f l - zsum_by g l.
Proof. induction l as [|c l IH]; [done|]. rewrite !zsum_by_cons, IH. lia. Qed.

Lemma zsum_earns held order : zsum_by (fun c => if earns held c then 1 else 0) order = earners held order.
Proof. unfold earners. induction order as [|c l IH]; [done|]. rewrite zsum_by_cons, IH. cbn [List.filter]. destruct (earns held c); cbn [length]; lia. Qed.

Lemma clientSlots_ok cands limit held :
  0 < limit < Z.of_nat (length cands) -> Z.of_nat (length cands) <= 2 ^ 26 ->
  exists pool order slots, clientSlots cands limit held = Some (pool, order, slots) /\ pools_ok cands pool order /\
    slots_ok pool slots /\ total order slots = limit /\
    (earners held order <= limit -> forall c, c ∈ order -> quota (Z.of_nat (length cands)) pool order limit held c <= slotsOf slots c).
Proof.
  intros Hlim Hbig. unfold clientSlots. pose proof (poolsOf_ok cands) as Ho.
  destruct (poolsOf cands) as [pool order0]. apply (pools_ok_perm _ _ _ (isort (clientLe pool) order0)) in Ho; [|symmetry; apply isort_perm].
  set (order := isort (clientLe pool) order0) in *. pose proof (po_order _ _ _ Ho) as Hnd. pose proof (po_total _ _ _ Ho) as Htot.
  assert (forall c, c ∈ order -> 1 <= plen pool c) as Hpos by (intros c; by apply (pool_nonempty cands)).
  pose proof (floorSlots_ok pool order Hnd held order ∅ limit Hnd) as Hfl. destruct (floorSlots held order ∅ limit) as [slots0 remaining].
  destruct Hfl as (Hok0 & Hsum0 & Hr0 & Hout0 & Hfl); [done|intros c _; unfold slotsOf; by rewrite lookup_empty|done|apply slots_ok_empty|lia|].
  assert (total order ∅ = 0) as He by (apply zsum_by_zero; intros c _; unfold slotsOf; by rewrite lookup_empty). rewrite He in Hsum0.
  rewrite zsum_by_sub. fold (total order slots0). rewrite Htot. set (free := Z.of_nat (length cands) - total order slots0).
  pose proof (total_nonneg pool order slots0 Hok0) as Hge0.
  (* what the first phase gave, when every earner fits *)
  assert (earners held order <= limit -> forall c, c ∈ order -> slotsOf slots0 c = if earns held c then 1 else 0) as Hown.
  { intros Hk c Hc. destruct (earns held c) eqn:Ee; [by apply Hfl|]. rewrite Hout0 by (by right). unfold slotsOf. by rewrite lookup_empty. }
  assert (earners held order <= limit -> total order slots0 = earners held order) as Hown_total.
  { intros Hk. rewrite <- zsum_earns. apply zsum_by_ext. by apply Hown. }
  destruct (decide (remaining = 0)) as [->|Hrem].
  - assert (shareSlots pool free 0 order slots0 = (slots0, [])) as Hsh by (destruct order; cbn; [done|by rewrite orb_true_r]).
    rewrite Hsh. exists pool, order, slots0. fold (total order slots0). split_and!; [|done|done|lia|].
    + unfold fillFuel. cbn [fillSlots]. replace (total order slots0 <? limit) with false by (symmetry; boolify; lia). done.
    + intros Hk c Hc. unfold quota. rewrite <- (Hown_total Hk), <- (Hown Hk c Hc). replace (limit - total order slots0) with 0 by lia. rewrite Z.mul_0_l, Z.div_0_l by lia. lia.
  - pose proof (shareSlots_ok pool order Hnd free remaining order slots0 Hnd) as Hsh. destruct (shareSlots pool free remaining order slots0) as [slots1 fracs].
    assert (zsum_by (fun c => plen pool c - slotsOf slots0 c) order = free) as Hfree by (rewrite zsum_by_sub; fold (total order slots0); lia).
    destruct Hsh as (Hok1 & Hfr & Ht1 & _ & Hs1); [done|done|lia|lia|lia|]. rewrite Hfree, Z.div_mul in Ht1 by lia.
    fold (total order slots1). assert ((isort fracLe fracs).*1 ≡ₚ order) as Hperm by (rewrite isort_perm; by rewrite Hfr).
    destruct (fillSlots_runs pool order Hnd limit (isort fracLe fracs) Hperm ltac:(lia) (fillFuel limit order) 0 (total order slots1) slots1) as (slots2 & Hrun & Hok2 & Ht2 & Hm); [done|done|lia| | |unfold fillFuel; lia|].
    + left. rewrite length_isort, <- (length_fmap fst), Hfr. destruct order; [cbn in Htot; lia|cbn; lia].
    + intros Hl. destruct (not_allFull pool order slots1 ltac:(lia)) as (c & Hc & Hfull). rewrite <- Hperm in Hc. apply list_elem_of_lookup_1 in Hc as [j Hj].
      rewrite list_lookup_fmap in Hj. assert (j < length (isort fracLe fracs))%nat as Hjl by (destruct (_ !! j) eqn:E; [by apply lookup_lt_Some in E|done]).
      exists j, j, c. split_and!; [done..| |]; [by rewrite Nat.add_0_l, Nat.mod_small|]. rewrite length_isort, <- (length_fmap fst), Hfr in *. unfold fillFuel.
      pose proof (total_nonneg pool order slots1 Hok1).
      assert (Z.to_nat (limit - total order slots1) <= Z.to_nat limit)%nat by lia. nia.
    + rewrite Hrun. exists pool, order, slots2. split_and!; [done..|]. intros Hk c Hc. unfold quota. rewrite <- (Hown_total Hk), <- (Hown Hk c Hc).
      specialize (Hm c). specialize (Hs1 c Hc). replace (limit - total order slots0) with remaining by lia. fold free. lia.
Qed.

(** * The chosen candidates *)

(** Reading increasing positions of a list gives a sublist of it. *)
Lemma omap_lookup_pred {A} x (l : list A) (ix : list nat) : (forall i, i ∈ ix -> (1 <= i)%nat) ->
  omap (fun i => (x :: l) !! i) ix = omap (fun i => l !! i) (pred <$> ix).
Proof.
  induction ix as [|i ix IH]; intros Hi; [done|]. cbn. pose proof (Hi i ltac:(left)). destruct i as [|i]; [lia|]. cbn.
  rewrite IH; [done|]. intros j Hj. apply Hi. by right.
Qed.

Lemma SS_pred (ix : list nat) : StronglySorted lt ix -> (forall i, i ∈ ix -> (1 <= i)%nat) -> StronglySorted lt (pred <$> ix).
Proof.
  induction 1 as [|i ix Hs IH Hf]; intros Hi; cbn; [constructor|]. constructor; [apply IH; intros j Hj; apply Hi; by right|].
  apply Forall_fmap, Forall_forall. intros j Hj. rewrite Forall_forall in Hf. specialize (Hf j Hj). cbn. pose proof (Hi i ltac:(left)). lia.
Qed.

Lemma omap_lookup_sublist {A} (l : list A) (ix : list nat) : StronglySorted lt ix -> omap (fun i => l !! i) ix `sublist_of` l.
Proof.
  revert ix. induction l as [|x l IH]; intros ix Hs.
  { clear Hs. induction ix as [|i ix IH]; cbn; [constructor|]. by rewrite lookup_nil. }
  destruct Hs as [|i ix Hs Hf]; [cbn; apply sublist_nil_l|]. rewrite Forall_forall in Hf. destruct i as [|i].
  - cbn. apply sublist_skip. rewrite omap_lookup_pred; [|intros j Hj; specialize (Hf j Hj); lia]. apply IH, SS_pred; [done|]. intros j Hj. specialize (Hf j Hj). lia.
  - apply sublist_cons. rewrite omap_lookup_pred; [apply IH, SS_pred|].
    + by constructor; [|apply Forall_forall].
    + intros j [->|Hj]%elem_of_cons; [lia|]. specialize (Hf j Hj). lia.
    + intros j [->|Hj]%elem_of_cons; [lia|]. specialize (Hf j Hj). lia.
Qed.

Lemma omap_lookup_perm {A} (l : list A) (ix ix' : list nat) : ix ≡ₚ ix' -> omap (fun i => l !! i) ix ≡ₚ omap (fun i => l !! i) ix'.
Proof. intros ->. done. Qed.

Lemma omap_lookup_length {A} (l : list A) (ix : list nat) : (forall i, i ∈ ix -> is_Some (l !! i)) -> length (omap (fun i => l !! i) ix) = length ix.
Proof.
  induction ix as [|i ix IH]; intros H; [done|]. cbn. destruct (H i ltac:(left)) as [x Hx]. rewrite Hx. cbn. f_equal. apply IH.
  intros j Hj. apply H. by right.
Qed.

Lemma SS_le_lt (l : list nat) : StronglySorted (leP Nat.leb) l -> NoDup l -> StronglySorted lt l.
Proof.
  induction 1 as [|x l Hs IH Hf]; intros Hnd; [constructor|]. apply NoDup_cons in Hnd as [Hx Hnd]. constructor; [by apply IH|].
  rewrite Forall_forall in Hf |- *. intros y Hy. specialize (Hf y Hy). unfold leP in Hf. apply Nat.leb_le in Hf.
  assert (x <> y) by (intros ->; done). lia.
Qed.

Lemma isort_nat_sorted l : NoDup l -> StronglySorted lt (isort Nat.leb l).
Proof.
  intros Hnd. apply SS_le_lt; [|by rewrite isort_perm]. apply isort_sorted.
  - intros x y H. apply Nat.leb_gt in H. apply Nat.leb_le. lia.
  - intros x y z H1 H2. apply Nat.leb_le in H1, H2. apply Nat.leb_le. lia.
Qed.

Section Picked.
Context (cands : list candidate) (pool : Pool) (order : list string) (slots : Slots).
Context (Ho : pools_ok cands pool order) (Hs : slots_ok pool slots).

#[local] Abbreviation part c := (take (Z.to_nat (slotsOf slots c)) (poolOf pool c)).

Lemma part_client c i : i ∈ part c -> exists x, cands !! i = Some x /\ ca_client x = c.
Proof using Ho. intros Hi. apply (po_index _ _ _ Ho). apply elem_of_take in Hi as (k & Hk & _). by eapply list_elem_of_lookup_2. Qed.

Lemma length_part c : Z.of_nat (length (part c)) = slotsOf slots c.
Proof using Hs. rewrite length_take. specialize (Hs c). unfold plen in Hs. lia. Qed.

Lemma SS_NoDup_lt (l : list nat) : StronglySorted lt l -> NoDup l.
Proof. induction 1 as [|x l Hl IH Hf]; constructor; [|done]. intros Hx. rewrite Forall_forall in Hf. specialize (Hf x Hx). lia. Qed.

Lemma picked_NoDup l : NoDup l -> NoDup (concat ((fun c => part c) <$> l)).
Proof using Ho.
  induction 1 as [|c l Hc Hl IH]; cbn; [constructor|]. apply NoDup_app. split_and!; [| |done].
  - eapply sublist_NoDup; [apply SS_NoDup_lt, (po_sorted _ _ _ Ho c)|apply sublist_take].
  - intros i Hi Hi'. apply part_client in Hi as (x & Hx & Hxc). apply elem_of_concat in Hi' as (p & Hp & Hip). apply list_elem_of_fmap in Hp as (d & -> & Hd). apply part_client in Hip as (y & Hy & Hyd).
    assert (x = y) as -> by congruence. congruence.
Qed.

Lemma picked_length l : Z.of_nat (length (concat ((fun c => part c) <$> l))) = zsum_by (slotsOf slots) l.
Proof using Hs. induction l as [|c l IH]; [done|]. cbn [fmap list_fmap concat]. rewrite length_app, zsum_by_cons, Nat2Z.inj_add, IH, length_part. done. Qed.

Lemma omap_part_length c : length (omap (fun i => cands !! i) (part c)) = length (part c).
Proof using Ho.
  apply omap_lookup_length. intros i Hi. apply part_client in Hi as (x & Hx & _). by exists x.
Qed.

(** What is read from the parts, client by client. *)
Lemma count_parts c l : NoDup l ->
  length (List.filter (ofClient c) (omap (fun i => cands !! i) (concat ((fun c => part c) <$> l)))) = if bool_decide (c ∈ l) then length (part c) else 0%nat.
Proof using Ho.
  intros Hl. induction Hl as [|d l Hd Hl IH]; [done|]. cbn [fmap list_fmap concat]. rewrite omap_app, List.filter_app, length_app, IH.
  assert (List.filter (ofClient c) (omap (fun i => cands !! i) (part d)) = if (d =? c)%string then omap (fun i => cands !! i) (part d) else []) as ->.
  { assert (forall x, x ∈ omap (fun i => cands !! i) (part d) -> ca_client x = d) as Hx.
    { intros x (i & Hi & Hx)%list_elem_of_omap. apply part_client in Hi as (y & Hy & Hyd). congruence. }
    unfold ofClient. induction (omap _ (part d)) as [|x xs IHx]; [by destruct (d =? c)%string|]. cbn [List.filter]. rewrite (Hx x) by left.
    rewrite IHx by (intros y Hy; apply Hx; by right). by destruct (d =? c)%string. }
  destruct (String.eqb_spec d c) as [->|Hne].
  - rewrite omap_part_length, (bool_decide_eq_false_2 (c ∈ l)), bool_decide_eq_true_2 by (done || by left). lia.
  - cbn [length]. destruct (bool_decide (c ∈ l)) eqn:E.
    + apply bool_decide_eq_true in E. rewrite bool_decide_eq_true_2 by (by right). lia.
    + apply bool_decide_eq_false in E. rewrite bool_decide_eq_false_2; [lia|]. rewrite elem_of_cons. intros [?|?]; congruence.
Qed.
End Picked.

(** The clients of a list of candidates, each once. *)
Definition clientsOf (cands : list candidate) : list string := remove_dups (ca_client <$> cands).

Lemma order_clients cands pool order : pools_ok cands pool order -> order ≡ₚ clientsOf cands.
Proof.
  intros Ho. apply NoDup_Permutation; [by eapply po_order|apply NoDup_remove_dups|]. intros c. unfold clientsOf. rewrite elem_of_remove_dups, list_elem_of_fmap.
  split.
  - intros Hc. pose proof (pool_nonempty _ _ _ c Ho Hc) as Hp. unfold plen in Hp. destruct (poolOf pool c) as [|i l] eqn:E; [cbn in Hp; lia|].
    assert (i ∈ poolOf pool c) as (x & Hx & <-)%(po_index _ _ _ Ho) by (rewrite E; left). exists x. split; [done|]. by eapply list_elem_of_lookup_2.
  - intros (x & -> & [i Hi]%list_elem_of_lookup_1). apply (po_listed _ _ _ Ho).
    assert (i ∈ poolOf pool (ca_client x)) as Hp by (apply (po_index _ _ _ Ho); by exists x). unfold poolOf in Hp.
    destruct (pool !! ca_client x); [by eexists|by apply not_elem_of_nil in Hp].
Qed.

(** ** What [balanceClients] chooses *)

Lemma earners_perm held l l' : l ≡ₚ l' -> earners held l = earners held l'.
Proof. intros Hp. unfold earners. by rewrite (lfilter_perm _ _ _ Hp). Qed.

(** [share] is a client's quota, from the counts of its candidates alone. *)
Definition share (cands : list candidate) (limit : Z) (held : gmap string Z) (c : string) : Z :=
  let own := if earns held c then 1 else 0 in
  let k := earners held (clientsOf cands) in
  own + (limit - k) * (Z.of_nat (length (List.filter (ofClient c) cands)) - own) / (Z.of_nat (length cands) - k).

Lemma balanceClients_ok cands limit held :
  0 < limit < Z.of_nat (length cands) -> Z.of_nat (length cands) <= 2 ^ 26 ->
  exists sel, balanceClients cands limit held = Some sel /\ sel `sublist_of` cands /\ Z.of_nat (length sel) = limit /\
    (earners held (clientsOf cands) <= limit -> forall c, c ∈ clientsOf cands -> share cands limit held c <= Z.of_nat (length (List.filter (ofClient c) sel))).
Proof.
  intros Hlim Hbig. destruct (clientSlots_ok cands limit held Hlim Hbig) as (pool & order & slots & Hc & Ho & Hs & Ht & Hq).
  unfold balanceClients. rewrite Hc. cbn [mbind option_bind]. set (picked := concat _).
  pose proof (picked_NoDup cands pool order slots Ho order (po_order _ _ _ Ho)) as Hnd. fold picked in Hnd.
  pose proof (omap_lookup_perm cands _ _ (isort_perm Nat.leb picked)) as Hperm.
  eexists. split; [done|]. split_and!.
  - apply omap_lookup_sublist, isort_nat_sorted, Hnd.
  - rewrite Hperm. rewrite <- Ht. unfold total. rewrite <- (picked_length pool slots Hs order). fold picked. f_equal.
    apply omap_lookup_length. intros i Hi. apply elem_of_concat in Hi as (p & Hp & Hip).
    apply list_elem_of_fmap in Hp as (d & -> & Hd). eapply part_client in Hip as (x & Hx & _); [by exists x|done].
  - intros Hk c Hcc. rewrite (lfilter_perm _ _ _ Hperm). unfold picked. rewrite (count_parts cands pool order slots Ho c order (po_order _ _ _ Ho)).
    rewrite <- (order_clients _ _ _ Ho) in Hcc. rewrite bool_decide_eq_true_2 by done. rewrite (length_part pool slots Hs).
    rewrite <- (earners_perm _ _ _ (order_clients _ _ _ Ho)) in Hk. specialize (Hq Hk c Hcc). unfold quota in Hq. unfold share.
    rewrite <- (earners_perm _ _ _ (order_clients _ _ _ Ho)), <- (po_count _ _ _ Ho). apply Hq.
Qed.
