(* ===== verification/DnsSelectProps.v ===== *)
(** What the selection of DnsSelect.v promises: the IPv6 slots, the merge that keeps
    rank order, the tree's size and its floor for every identified client, and what a
    ranked candidate is. *)

From stdpp Require Import base gmap strings list numbers sorting.
From Stdlib Require Import ZArith Lia Ascii.
From S2P Require Import Prelude GoLib Counting Float64 Consensus ForkId Network Readiness NetIP NodeData Nodeset Clientname DnsSelect DnsShares.
From stdpp Require Import list sorting.
#[local] Open Scope Z_scope.

(** * IPv6 slots *)

Definition marked (r : list bool) (i : nat) : Prop := r !! i = Some true.

Lemma reservePass_ok own want v6 reserved taken :
  length reserved = length v6 -> taken <= want ->
  let '(r, t) := reservePass own want v6 reserved taken in
  length r = length reserved /\ countTrue r = countTrue reserved + (t - taken) /\ taken <= t <= want /\
  (forall i, marked reserved i -> marked r i) /\
  (forall i, marked r i -> marked reserved i \/ taken < want /\ exists s, v6 !! i = Some s /\ v6_dialable s = true /\ v6_ownPort s = own) /\
  (t < want -> forall i s, v6 !! i = Some s -> v6_dialable s = true -> v6_ownPort s = own -> marked r i).
Proof.
  unfold marked. revert reserved taken. induction v6 as [|s v6 IH]; intros [|r reserved] taken Hlen Hle; try done; cbn [reservePass].
  { split_and!; try done; try lia; by left. }
  destruct (taken =? want) eqn:E; boolify.
  { subst. split_and!; try done; try lia; by left. }
  set (hit := v6_dialable s && Bool.eqb (v6_ownPort s) own && negb r).
  specialize (IH reserved (if hit then taken + 1 else taken) ltac:(cbn in Hlen; lia)). destruct (reservePass own want v6 reserved _) as [rest t].
  destruct IH as (A & B & C & D & F & G); [destruct hit; lia|]. cbn [length countTrue]. split_and!; [lia| |destruct hit; lia|lia| | |].
  - rewrite B. destruct r, hit eqn:Eh; cbn [orb]; try lia. unfold hit in Eh. rewrite andb_false_r in Eh. done.
  - intros [|i]; cbn; [intros [= ->]; done|apply D].
  - intros [|i]; cbn.
    + destruct r; [by left|]. cbn. intros [= Eh]. right. split; [lia|]. exists s. unfold hit in Eh. apply andb_true_iff in Eh as [Eh _]. apply andb_true_iff in Eh as [? Ho%eqb_prop]. done.
    + intros Hi. destruct (F i Hi) as [|[? ?]]; [by left|]. right. split; [|done]. destruct hit; lia.
  - intros Ht [|i] s'; cbn; [|by apply G]. intros [= <-] Hd Ho. f_equal. unfold hit. rewrite Hd, Ho, eqb_reflx. by destruct r.
Qed.

Lemma countTrue_filter r : countTrue r = Z.of_nat (length (List.filter id r)).
Proof. induction r as [|[] r IH]; cbn [countTrue List.filter id length]; lia. Qed.

Lemma countTrue_le (r r' : list bool) : length r = length r' -> (forall i, marked r i -> marked r' i) -> countTrue r <= countTrue r'.
Proof.
  unfold marked. revert r'. induction r as [|b r IH]; intros [|b' r'] Hl H; try done. cbn [countTrue].
  assert (countTrue r <= countTrue r') by (apply IH; [by injection Hl|intros i; apply (H (S i))]). specialize (H 0%nat). cbn in H. destruct b, b'; try lia. specialize (H eq_refl). done.
Qed.

(** The slots reserved for IPv6: its share of the limit, rounded, at least one, and no
    more than there are candidates or places. *)
Definition v6Share (v6 : list ipv6Slot) (limit : Z) : Z :=
  let candidates := countTrue (v6_dialable <$> v6) in
  if (candidates =? 0) || (limit <=? 0) then 0
  else
    let n := Z.of_nat (length v6) in
    Z.min (Z.min (Z.max ((2 * (limit * candidates) + n) / (2 * n)) 1) candidates) limit.

Lemma countTrue_bounds r : 0 <= countTrue r <= Z.of_nat (length r).
Proof. induction r as [|[] r IH]; cbn [countTrue length]; lia. Qed.

Lemma countTrue_replicate n : countTrue (replicate n false) = 0.
Proof. induction n as [|n IH]; [done|]. cbn. lia. Qed.

Lemma reserveIPv6_ok v6 limit :
  limit <= Z.of_nat (length v6) -> Z.of_nat (length v6) < 2 ^ 26 ->
  let r := reserveIPv6 v6 limit in
  length r = length v6 /\ countTrue r = v6Share v6 limit /\
  (forall i, marked r i -> exists s, v6 !! i = Some s /\ v6_dialable s = true) /\
  (forall i s, marked r i -> v6 !! i = Some s -> v6_ownPort s = false ->
     forall j s', v6 !! j = Some s' -> v6_dialable s' = true -> v6_ownPort s' = true -> marked r j).
Proof.
  intros Hlim Hbig. cbv zeta. unfold reserveIPv6, v6Share. set (c := countTrue (v6_dialable <$> v6)).
  assert (forall i, ~ marked (replicate (length v6) false) i) as Hnone by (intros i [? _]%lookup_replicate_1; done).
  destruct ((c =? 0) || (limit <=? 0)) eqn:E.
  { split_and!; [by rewrite length_replicate|apply countTrue_replicate|intros i Hi; by destruct (Hnone i)|intros i s Hi; by destruct (Hnone i)]. }
  apply orb_false_iff in E as [Ec El]. boolify. pose proof (countTrue_bounds (v6_dialable <$> v6)) as Hcb. fold c in Hcb. rewrite length_fmap in Hcb.
  assert (2 ^ 26 * 2 ^ 26 = 2 ^ 52) as H52 by done. assert (2 ^ 52 < 2 ^ 53) as H53 by done.
  rewrite (f64_small limit), (f64_small c), (f64_small (Z.of_nat _)) by lia. rewrite f64_small by nia. rewrite fdiv_round by nia.
  set (want := Z.min (Z.min (Z.max _ 1) c) limit). assert (1 <= want <= c) as Hw by lia.
  pose proof (reservePass_ok true want v6 (replicate (length v6) false) 0 ltac:(apply length_replicate) ltac:(lia)) as H1.
  destruct (reservePass true want v6 _ 0) as [r1 t1]. destruct H1 as (A1 & B1 & C1 & D1 & F1 & G1). rewrite length_replicate in A1.
  pose proof (reservePass_ok false want v6 r1 t1 A1 ltac:(lia)) as H2.
  destruct (reservePass false want v6 r1 t1) as [r2 t2]. destruct H2 as (A2 & B2 & C2 & D2 & F2 & G2). rewrite countTrue_replicate in B1.
  assert (t2 = want) as Ht.
  { destruct (decide (t2 = want)) as [|Hne]; [done|]. exfalso. assert (c <= countTrue r2); [|lia]. apply countTrue_le; [rewrite length_fmap; lia|].
    intros i Hi. unfold marked in Hi. rewrite list_lookup_fmap in Hi. destruct (v6 !! i) as [s|] eqn:Es; [|done]. injection Hi as Hi.
    destruct (v6_ownPort s) eqn:Eo; [apply D2, (G1 ltac:(lia) i s); done|apply (G2 ltac:(lia) i s); done]. }
  split_and!; [lia|lia| |].
  - intros i Hi. destruct (F2 i Hi) as [Hi1|(_ & s & ? & ? & _)]; [|by exists s]. destruct (F1 i Hi1) as [Hi0|(_ & s & ? & ? & _)]; [by apply Hnone in Hi0|by exists s].
  - intros i s Hi Hs Ho j s' Hj Hd Ho'. apply D2. destruct (F2 i Hi) as [Hi1|(Hlt & _)].
    + destruct (F1 i Hi1) as [Hi0|(_ & s2 & Hs2 & _ & Ho2)]; [by apply Hnone in Hi0|congruence].
    + by apply (G1 Hlt j s').
Qed.

(** * The merge *)

Section Merge.
Context (cands : list candidate) (reserved : list bool).
Context (Hlen : length reserved = length cands) (Hnodes : NoDup (ca_node <$> cands)).

Definition held_part : list candidate := fst <$> List.filter (fun cr : candidate * bool => cr.2) (zip cands reserved).
Definition rest_part : list candidate := fst <$> List.filter (fun cr : candidate * bool => negb cr.2) (zip cands reserved).

Lemma zip_fst : (zip cands reserved).*1 = cands.
Proof using Hlen. apply fst_zip. lia. Qed.

Lemma zip_filter_sublist (p : candidate * bool -> bool) : fst <$> List.filter p (zip cands reserved) `sublist_of` cands.
Proof using Hlen. rewrite <- zip_fst at 2. apply fmap_sublist. induction (zip cands reserved) as [|x l IH]; cbn; [constructor|]. destruct (p x); by constructor. Qed.

Lemma parts_split : held_part ++ rest_part ≡ₚ cands.
Proof using Hlen.
  unfold held_part, rest_part. rewrite <- zip_fst at 3. rewrite <- fmap_app. apply fmap_Permutation.
  induction (zip cands reserved) as [|[x b] l IH]; [done|]. cbn [List.filter]. destruct b; cbn [negb snd]; cbn [List.filter app]; rewrite <- ?Permutation_middle; by rewrite IH.
Qed.

Lemma length_held : Z.of_nat (length held_part) = countTrue reserved.
Proof using Hlen.
  unfold held_part. rewrite length_fmap. clear Hnodes. revert reserved Hlen. induction cands as [|x l IH]; intros [|b r] Hl; try done. cbn [zip zip_with List.filter countTrue snd].
  destruct b; cbn [length]; rewrite ?Nat2Z.inj_succ, IH by (by injection Hl); lia.
Qed.

Lemma node_inj x y : x ∈ cands -> y ∈ cands -> ca_node x = ca_node y -> x = y.
Proof using Hnodes.
  intros [i Hi]%list_elem_of_lookup_1 [j Hj]%list_elem_of_lookup_1 He.
  assert (i = j) as -> by (eapply (NoDup_lookup _ _ _ (ca_node x) Hnodes); rewrite list_lookup_fmap; [rewrite Hi|rewrite Hj; cbn; rewrite He]; done). congruence.
Qed.

Lemma rest_in x : x ∈ rest_part -> x ∈ cands.
Proof using Hlen. intros Hx. rewrite <- parts_split. apply elem_of_app. by right. Qed.

Lemma mergeRanked_ok filled :
  filled `sublist_of` rest_part -> mergeRanked cands reserved filled `sublist_of` cands /\ mergeRanked cands reserved filled ≡ₚ held_part ++ filled.
Proof using Hlen Hnodes.
  intros Hf. split; [apply zip_filter_sublist|]. pose proof (NoDup_fmap_1 _ _ Hnodes) as Hnd.
  assert (NoDup (held_part ++ rest_part)) as Hnp by (by rewrite parts_split).
  apply NoDup_Permutation.
  - eapply sublist_NoDup; [exact Hnd|apply zip_filter_sublist].
  - eapply sublist_NoDup; [exact Hnp|]. by apply sublist_app.
  - intros x. unfold mergeRanked. rewrite elem_of_app. unfold held_part. rewrite !list_elem_of_fmap. split.
    + intros ([y b] & -> & Hy). apply elem_of_lfilter in Hy as [Hy Hb]. cbn in *. apply orb_true_iff in Hb as [->|Hb].
      * left. exists (y, true). split; [done|]. by apply elem_of_lfilter.
      * right. apply bool_decide_eq_true, list_elem_of_fmap in Hb as (w & Hw & Hwf). replace y with w; [done|].
        symmetry. apply node_inj; [by apply elem_of_zip_l in Hy|by apply rest_in, (elem_of_sublist filled)|done].
    + intros [([y b] & -> & Hy)|Hx].
      * exists (y, b). split; [done|]. apply elem_of_lfilter in Hy as [Hy Hb]. apply elem_of_lfilter. split; [done|]. cbn in *. by rewrite Hb.
      * assert (x ∈ rest_part) as Hr by (by apply (elem_of_sublist filled)). apply list_elem_of_fmap in Hr as ([y b] & -> & Hy).
        exists (y, b). split; [done|]. apply elem_of_lfilter in Hy as [Hy Hb]. apply elem_of_lfilter. split; [done|]. cbn in *. apply orb_true_iff. right.
        apply bool_decide_eq_true, list_elem_of_fmap. by exists y.
Qed.
End Merge.

(** * One tree *)

Lemma heldBy_count l c : default 0 (heldBy l !! c) = Z.of_nat (length (List.filter (fun cr : candidate * bool => cr.2 && ofClient c cr.1) l)).
Proof.
  unfold heldBy. induction l as [|[x b] l IH] using rev_ind; [done|].
  rewrite foldl_app, List.filter_app, length_app. cbn [foldl List.filter snd fst]. destruct b; cbn [andb]; [|cbn [length]; rewrite IH; lia].
  unfold ofClient at 2. destruct (String.eqb_spec (ca_client x) c) as [->|Hne].
  - rewrite lookup_insert_eq. cbn [from_option id length]. rewrite IH. lia.
  - rewrite lookup_insert_ne by done. rewrite IH. cbn. lia.
Qed.

Lemma held_client cands reserved c :
  0 < default 0 (heldBy (zip cands reserved) !! c) -> exists x, x ∈ held_part cands reserved /\ ca_client x = c.
Proof.
  rewrite heldBy_count. intros H. destruct (List.filter _ _) as [|[x b] l] eqn:E; [cbn in H; lia|].
  assert ((x, b) ∈ List.filter (fun cr : candidate * bool => cr.2 && ofClient c cr.1) (zip cands reserved)) as Hx by (rewrite E; left).
  apply elem_of_lfilter in Hx as [Hx Hb]. cbn in Hb. apply andb_true_iff in Hb as [-> Ho]. apply String.eqb_eq in Ho. exists x. split; [|done].
  apply list_elem_of_fmap. exists (x, true). split; [done|]. by apply elem_of_lfilter.
Qed.

Definition identified (c : string) : bool := negb (c =? unknownClient)%string.

Lemma client_in c l : c ∈ clientsOf l <-> exists x, x ∈ l /\ ca_client x = c.
Proof. unfold clientsOf. rewrite elem_of_remove_dups, list_elem_of_fmap. naive_solver. Qed.

Lemma earners_le held rest cands : rest ⊆ cands -> earners held (clientsOf rest) <= Z.of_nat (length (List.filter identified (clientsOf cands))).
Proof.
  intros Hs. unfold earners. apply inj_le, submseteq_length, NoDup_submseteq; [apply lfilter_NoDup, NoDup_remove_dups|].
  intros c. rewrite !elem_of_lfilter, !client_in. unfold earns, identified. intros [(x & Hx & Hc) [Hu _]%andb_true_iff]. split; [|done]. exists x. auto.
Qed.

(** The counts of the candidates a tree chooses from. *)
Definition dialableV6 (l : list candidate) : Z := Z.of_nat (length (List.filter (fun x => v6_dialable (ca_v6 x)) l)).

Lemma dialable_reserved cands reserved :
  length reserved = length cands -> (forall i, marked reserved i -> exists s, (ca_v6 <$> cands) !! i = Some s /\ v6_dialable s = true) ->
  forall x, x ∈ held_part cands reserved -> v6_dialable (ca_v6 x) = true.
Proof.
  intros Hl Hm x Hx. apply list_elem_of_fmap in Hx as ([y b] & -> & Hy). apply elem_of_lfilter in Hy as [Hy Hb]. cbn in Hb. subst b.
  apply list_elem_of_lookup_1 in Hy as [i Hi]. apply lookup_zip_with_Some in Hi as (y' & b' & [= <- <-] & Hy & Hb).
  destruct (Hm i Hb) as (s & Hs & Hd). rewrite list_lookup_fmap, Hy in Hs. by injection Hs as <-.
Qed.

(** What a limited tree takes besides its reserved slots. *)
Definition fill (cands : list candidate) (reserved : list bool) (opt : selectOpts) : option (list candidate) :=
  let rest := rest_part cands reserved in
  let free := so_limit opt - countTrue reserved in
  if free <=? 0 then Some []
  else if negb (so_balance opt =? balanceProportional)%string || (Z.of_nat (length rest) <=? free) then Some (take (Z.to_nat (Z.min free (Z.of_nat (length rest)))) rest)
  else balanceClients rest free (heldBy (zip cands reserved)).

Lemma fill_ok cands reserved opt :
  length reserved = length cands -> 0 < so_limit opt < Z.of_nat (length cands) -> Z.of_nat (length cands) <= 2 ^ 26 -> countTrue reserved <= so_limit opt ->
  exists filled, fill cands reserved opt = Some filled /\ filled `sublist_of` rest_part cands reserved /\
    Z.of_nat (length filled) = so_limit opt - countTrue reserved /\
    (so_balance opt = balanceProportional -> Z.of_nat (length (List.filter identified (clientsOf cands))) <= so_limit opt - countTrue reserved ->
     forall x, x ∈ rest_part cands reserved -> earns (heldBy (zip cands reserved)) (ca_client x) = true -> exists y, y ∈ filled /\ ca_client y = ca_client x).
Proof.
  intros Hl Hlim Hbig Hct. set (rest := rest_part cands reserved). set (held := heldBy (zip cands reserved)).
  assert (Z.of_nat (length rest) = Z.of_nat (length cands) - countTrue reserved) as Hrest.
  { rewrite <- (length_held cands reserved Hl), <- (Permutation_length (parts_split cands reserved Hl)), length_app. unfold rest. lia. }
  pose proof (countTrue_bounds reserved) as Hcb. unfold fill. fold rest held. destruct (so_limit opt - countTrue reserved <=? 0) eqn:Ef; boolify.
  { exists []. split_and!; [done|apply sublist_nil_l|cbn; lia|]. intros _ Hid x Hx He. exfalso.
    assert (ca_client x ∈ List.filter identified (clientsOf cands)) as Hin; [|destruct (List.filter _ _); [by apply not_elem_of_nil in Hin|cbn in Hid; lia]].
    apply elem_of_lfilter. rewrite client_in. unfold earns in He. apply andb_true_iff in He as [Hi _]. split; [|done]. exists x. split; [|done]. by apply (rest_in cands reserved). }
  replace (Z.of_nat (length rest) <=? so_limit opt - countTrue reserved) with false by (symmetry; boolify; lia). rewrite orb_false_r.
  destruct (negb (so_balance opt =? balanceProportional)%string) eqn:Eb; boolify.
  { eexists. split; [done|]. split_and!; [apply sublist_take|rewrite length_take; lia|done]. }
  destruct (balanceClients_ok rest (so_limit opt - countTrue reserved) held) as (sel & Hs & Hsub & Hlen & Hsh); [lia|lia|].
  exists sel. split_and!; [done..|]. intros _ Hid x Hx He. pose proof (earners_le held rest cands (fun y Hy => rest_in cands reserved Hl y Hy)) as Hel.
  assert (ca_client x ∈ clientsOf rest) as Hc by (apply client_in; by exists x). specialize (Hsh ltac:(lia) _ Hc). unfold share in Hsh. rewrite He in Hsh.
  assert (x ∈ List.filter (ofClient (ca_client x)) rest) as Hxf by (apply elem_of_lfilter; split; [done|apply String.eqb_refl]).
  assert (0 <= (so_limit opt - countTrue reserved - earners held (clientsOf rest)) * (Z.of_nat (length (List.filter (ofClient (ca_client x)) rest)) - 1) / (Z.of_nat (length rest) - earners held (clientsOf rest))).
  { apply Z.div_pos; [|lia]. destruct (List.filter _ rest); [by apply not_elem_of_nil in Hxf|cbn [length]; nia]. }
  destruct (List.filter (ofClient (ca_client x)) sel) as [|y ys] eqn:Ey; [cbn in Hsh; lia|].
  assert (y ∈ List.filter (ofClient (ca_client x)) sel) as Hy by (rewrite Ey; left). apply elem_of_lfilter in Hy as [Hy Ho]. exists y. split; [done|]. by apply String.eqb_eq.
Qed.

(** C23.  One tree: it is chosen without fail, in rank order, of the size the limit allows;
    IPv6 has its rounded share of the places and never none; and when the limit has
    room for them, every identified client keeps a place. *)
Theorem pick_fair `{EntryLoads} cands opt :
  NoDup (ca_node <$> cands) -> Z.of_nat (length (eligible cands opt)) < 2 ^ 26 ->
  let el := eligible cands opt in
  let v6 := v6Share (ca_v6 <$> el) (so_limit opt) in
  exists sel, pick cands opt = Some sel /\ sel `sublist_of` el /\
    Z.of_nat (length sel) = (if so_limit opt <=? 0 then Z.of_nat (length el) else Z.min (so_limit opt) (Z.of_nat (length el))) /\
    (0 < so_limit opt < Z.of_nat (length el) -> v6 <= dialableV6 sel /\ (0 < dialableV6 el -> 1 <= v6)) /\
    (so_balance opt = balanceProportional -> 0 < so_limit opt -> Z.of_nat (length (List.filter identified (clientsOf el))) <= so_limit opt - v6 ->
     forall c, c ∈ clientsOf el -> identified c = true -> c ∈ clientsOf sel).
Proof.
  intros Hnodes Hbig. cbv zeta. unfold pick. set (el := eligible cands opt) in *.
  destruct ((so_limit opt <=? 0) || (Z.of_nat (length el) <=? so_limit opt)) eqn:E.
  { exists el. split_and!; [done|done| |intros Hlim|done]; apply orb_true_iff in E as [E|E]; boolify; [| |lia|lia].
    - by replace (so_limit opt <=? 0) with true by (symmetry; boolify; lia).
    - destruct (so_limit opt <=? 0); lia. }
  apply orb_false_iff in E as [E1 E2]. boolify. replace (so_limit opt <=? 0) with false by (symmetry; boolify; lia).
  pose proof (reserveIPv6_ok (ca_v6 <$> el) (so_limit opt)) as Hr. rewrite length_fmap in Hr. cbv zeta in Hr. set (reserved := reserveIPv6 (ca_v6 <$> el) (so_limit opt)) in *.
  destruct Hr as (Hl & Hct & Hd & _); [lia|done|].
  assert (NoDup (ca_node <$> el)) as Hnel. { eapply sublist_NoDup; [exact Hnodes|]. apply fmap_sublist. unfold el, eligible. destruct (so_capability opt =? "snap")%string; [apply lfilter_sublist|done]. }
  assert (countTrue reserved <= so_limit opt) as Hctl. { rewrite Hct. unfold v6Share. destruct (_ || _); lia. }
  destruct (fill_ok el reserved opt Hl ltac:(lia) ltac:(lia) Hctl) as (filled & Hf & Hsub & Hlen & Hcl).
  destruct (mergeRanked_ok el reserved Hl Hnel filled Hsub) as [Hms Hmp].
  exists (mergeRanked el reserved filled). split_and!; [|done| | |].
  - unfold fill, rest_part in Hf. by rewrite Hf.
  - rewrite Hmp, length_app, Nat2Z.inj_add, Hlen, (length_held el reserved Hl). lia.
  - intros _. split.
    + rewrite <- Hct, <- (length_held el reserved Hl). unfold dialableV6. rewrite (lfilter_perm _ _ _ Hmp), List.filter_app, length_app.
      pose proof (dialable_reserved el reserved Hl Hd) as Hdr. assert (List.filter (fun x => v6_dialable (ca_v6 x)) (held_part el reserved) = held_part el reserved) as ->; [by apply lfilter_all|lia].
    + intros Hpos. unfold v6Share. assert (countTrue (v6_dialable <$> (ca_v6 <$> el)) = dialableV6 el) as ->.
      { unfold dialableV6. clear. induction el as [|x l IH]; [done|]. cbn [fmap list_fmap countTrue List.filter]. destruct (v6_dialable (ca_v6 x)); cbn [length]; rewrite IH; lia. }
      replace (dialableV6 el =? 0) with false by (symmetry; boolify; lia). replace (so_limit opt <=? 0) with false by (symmetry; boolify; lia). cbn [orb]. lia.
  - intros Hb _ Hid c Hc Hi. rewrite <- Hct in Hid. apply client_in in Hc as (x & Hx & <-). apply client_in.
    setoid_rewrite Hmp. setoid_rewrite elem_of_app. rewrite <- (parts_split el reserved Hl) in Hx. apply elem_of_app in Hx as [Hx|Hx]; [exists x; auto|].
    destruct (earns (heldBy (zip el reserved)) (ca_client x)) eqn:Ee.
    + destruct (Hcl Hb Hid x Hx Ee) as (y & Hy & Hyc). exists y. auto.
    + unfold earns in Ee. unfold identified in Hi. rewrite Hi in Ee. cbn in Ee. apply Z.leb_gt in Ee. destruct (held_client _ _ _ Ee) as (y & Hy & Hyc). exists y. auto.
Qed.

(** * The ranked candidates *)

(** A stable sort by a key keeps the order that equal keys came in. *)
Lemma insert_stable {A} (leb : A -> A -> bool) (R : A -> A -> Prop) x l :
  (forall x y, leb x y = false -> leb y x = true) -> (forall x y z, leb x y = true -> leb y z = true -> leb x z = true) ->
  (forall y, y ∈ l -> R x y) -> StronglySorted (fun a b => leb a b = true /\ (leb b a = true -> R a b)) l ->
  StronglySorted (fun a b => leb a b = true /\ (leb b a = true -> R a b)) (insert_sorted leb x l).
Proof.
  intros Htot Htr HR Hs. induction Hs as [|y l Hs IH Hf]; cbn; [repeat constructor|]. destruct (leb x y) eqn:E.
  - constructor; [by constructor|]. rewrite Forall_forall in Hf. apply Forall_forall. intros z Hz. split; [|intros _; by apply HR].
    apply elem_of_cons in Hz as [->|Hz]; [done|]. eapply Htr; [exact E|]. by apply Hf.
  - constructor; [apply IH; intros z Hz; apply HR; by right|]. rewrite insert_sorted_perm. constructor; [|done]. split; [by apply Htot|congruence].
Qed.

Lemma isort_stable {A} (leb : A -> A -> bool) (R : A -> A -> Prop) l :
  (forall x y, leb x y = false -> leb y x = true) -> (forall x y z, leb x y = true -> leb y z = true -> leb x z = true) ->
  StronglySorted R l -> StronglySorted (fun a b => leb a b = true /\ (leb b a = true -> R a b)) (isort leb l).
Proof.
  intros Htot Htr Hs. induction Hs as [|x l Hs IH Hf]; [constructor|]. change (isort leb (x :: l)) with (insert_sorted leb x (isort leb l)). apply insert_stable; [done..| |done].
  intros y Hy. rewrite isort_perm in Hy. rewrite Forall_forall in Hf. by apply Hf.
Qed.

Lemma rowLe_spec a b : rowLe a b = true <->
  r_Score b < r_Score a \/ r_Score a = r_Score b /\ (r_LastSeen b < r_LastSeen a \/ r_LastSeen a = r_LastSeen b /\ String.leb (r_ID a) (r_ID b) = true).
Proof.
  unfold rowLe, rowBefore. destruct (r_Score b =? r_Score a) eqn:E1; boolify; cbn [negb].
  - destruct (r_LastSeen b =? r_LastSeen a) eqn:E2; boolify; cbn [negb].
    + rewrite string_ltb_leb, negb_involutive. split; [intros; right; split; [done|right; done]|intros [?|[_ [?|[_ ?]]]]; [lia|lia|done]].
    + split; [intros; boolify; right; split; [done|left; lia]|intros [?|[_ [?|[? _]]]]; boolify; lia].
  - split; [intros; boolify; left; lia|intros [?|[? _]]; boolify; lia].
Qed.

Lemma rowLe_total a b : rowLe a b = false -> rowLe b a = true.
Proof.
  intros H. apply not_true_iff_false in H. rewrite rowLe_spec in *. destruct (Z.lt_trichotomy (r_Score a) (r_Score b)) as [|[|]]; [by left| |exfalso; apply H; by left].
  right. split; [done|]. destruct (Z.lt_trichotomy (r_LastSeen a) (r_LastSeen b)) as [|[|]]; [by left| |exfalso; apply H; right; split; [done|by left]].
  right. split; [done|]. apply string_leb_total, not_true_iff_false. intros Hl. apply H. right. split; [done|]. by right.
Qed.

Lemma rowLe_trans a b c : rowLe a b = true -> rowLe b c = true -> rowLe a c = true.
Proof.
  rewrite !rowLe_spec. intros [?|[? [?|[? H1]]]] [?|[? [?|[? H2]]]]; try (left; lia); right; (split; [lia|]); try (left; lia). right. split; [lia|]. by eapply string_leb_trans.
Qed.

Lemma imap_SS {A} (R : A -> A -> Prop) (l : list A) n :
  StronglySorted R l -> StronglySorted (fun p q : nat * A => (p.1 < q.1)%nat /\ R p.2 q.2) (imap (fun i x => ((n + i)%nat, x)) l).
Proof.
  intros Hs. revert n. induction Hs as [|x l Hs IH Hf]; intros n; cbn; [constructor|].
  assert (imap ((fun i y => ((n + i)%nat, y)) ∘ S) l = imap (fun i y => ((S n + i)%nat, y)) l) as -> by (apply imap_ext; intros i y _; cbn; f_equal; lia).
  constructor; [apply IH|]. rewrite Forall_forall in Hf. apply Forall_forall. intros [j y] Hy. apply elem_of_lookup_imap_1 in Hy as (k & z & [= -> ->] & Hz).
  cbn. split; [lia|]. apply Hf. by eapply list_elem_of_lookup_2.
Qed.

Lemma omap_SS {A B} (f : A -> option B) (R : A -> A -> Prop) (Q : B -> B -> Prop) l :
  (forall x y x' y', f x = Some x' -> f y = Some y' -> R x y -> Q x' y') -> StronglySorted R l -> StronglySorted Q (omap f l).
Proof.
  intros Hf. induction 1 as [|x l Hs IH Ha]; cbn; [constructor|]. destruct (f x) as [x'|] eqn:E; [|done]. constructor; [done|].
  rewrite Forall_forall in Ha. apply Forall_forall. intros y' (y & Hy & Hfy)%list_elem_of_omap. eapply Hf; [done..|]. by apply Ha.
Qed.

Lemma SS_weaken {A} (R Q : A -> A -> Prop) l : (forall x y, R x y -> Q x y) -> StronglySorted R l -> StronglySorted Q l.
Proof. intros Hi. induction 1 as [|x l Hs IH Hf]; constructor; [done|]. eapply Forall_impl; [exact Hf|]. auto. Qed.

Section Ranked.
Context (registry : list Network) `{EC : EnodeCodec} `{EL : EntryLoads}.

(** What a candidate of a network's trees is, at [now]. *)
Record publishable (opt : selectOpts) (now : Time) (c : candidate) : Prop := {
  pb_row : RowForkCurrentAt registry (r_Layer (ca_row c)) (r_Network (ca_row c)) (r_ForkHash (ca_row c)) (r_ForkNext (ca_row c)) now = true;
  pb_dialable : Dialable (ca_row c) = true;
  pb_score : so_minScore opt <= r_Score (ca_row c);
  pb_seen : 0 < so_maxAge opt -> Sub now (time_Unix (r_LastSeen (ca_row c))) <= so_maxAge opt;
  pb_record : parseENR (r_ENR (ca_row c)) = Some (ca_record c);
  pb_wellFormed : enrWellFormed (ca_record c) = true;
  pb_client : ca_client c = clientBucket (ca_row c);
  pb_current : exists ev, enrForkCurrentAt registry (ca_record c) (r_Layer (ca_row c)) (r_Network (ca_row c)) now = (ev, true) /\
    let target := targetOf registry (r_Network (ca_row c)) now in
    let readiness := ReadinessAt registry target (r_Network (ca_row c)) ev now in
    match CancelledAt target (r_Layer (ca_row c)) with
    | Some at_ => if bool_decide (readiness = NotReady) then Before now at_ = true /\ ca_rank c = rankMismatch else ca_rank c = readinessRank readiness
    | None => ca_rank c = readinessRank readiness
    end
}.

Lemma candidateOf_some opt now i r c : candidateOf registry opt now i r = Some c -> ca_row c = r /\ ca_node c = i /\ publishable opt now c.
Proof.
  unfold candidateOf. destruct (_ && _ && _) eqn:E0 in |- *; [done|]. destruct (negb (RowForkCurrentAt _ _ _ _ _ _)) eqn:E1; [done|].
  destruct (negb (Dialable r)) eqn:E2; [done|]. destruct (_ || _) eqn:E3 in |- *; [done|]. destruct (_ && _) eqn:E4 in |- *; [done|].
  destruct (_ && _) eqn:E5 in |- *; [done|]. destruct (_ && _) eqn:E6 in |- *; [done|].
  destruct (parseENR (r_ENR r)) as [n|] eqn:En; [|done]. destruct (negb (enrWellFormed n)) eqn:E7; [done|].
  destruct (enrForkCurrentAt registry n (r_Layer r) (r_Network r) now) as [ev current] eqn:E8. destruct current; cbn [negb]; [|done].
  apply orb_false_iff in E3 as [E3 _]. apply negb_false_iff in E1, E2, E7. boolify.
  assert (0 < so_maxAge opt -> Sub now (time_Unix (r_LastSeen r)) <= so_maxAge opt) as Hage.
  { intros Hpos. destruct E4; boolify; lia. }
  set (readiness := ReadinessAt _ _ _ _ _).
  destruct (CancelledAt (targetOf registry (r_Network r) now) (r_Layer r)) as [at_|] eqn:Ec.
  - destruct (bool_decide (readiness = NotReady)) eqn:Er.
    + destruct (Before now at_) eqn:Eb; cbn [negb]; [|done]. intros [= <-]. split_and!; [done|done|].
      split; try done. exists ev. cbn [ca_row ca_record ca_rank]. split; [done|]. cbv zeta. fold readiness. by rewrite Ec, Er.
    + intros [= <-]. split_and!; [done|done|]. split; try done. exists ev. cbn [ca_row ca_record ca_rank]. split; [done|]. cbv zeta. fold readiness. by rewrite Ec, Er.
  - intros [= <-]. split_and!; [done|done|]. split; try done. exists ev. cbn [ca_row ca_record ca_rank]. split; [done|]. cbv zeta. fold readiness. by rewrite Ec.
Qed.
End Ranked.

Lemma rankCandidates_facts `{EnodeCodec} `{EntryLoads} registry rows opt now :
  let out := rankCandidates registry rows opt now in
  (forall c, c ∈ out -> ca_row c ∈ rows /\ publishable registry opt now c) /\
  (forall r i c, r ∈ rows -> candidateOf registry opt now i r = Some c -> exists c', c' ∈ out /\ ca_row c' = r) /\
  NoDup (ca_node <$> out) /\
  StronglySorted (fun a b => ca_rank a < ca_rank b \/ ca_rank a = ca_rank b /\ rowLe (ca_row a) (ca_row b) = true) out.
Proof.
  cbv zeta. unfold rankCandidates. set (f := fun ir : nat * Row => candidateOf registry opt now ir.1 ir.2).
  assert (StronglySorted (fun a b : candidate => (ca_node a < ca_node b)%nat /\ rowLe (ca_row a) (ca_row b) = true) (omap f (imap pair (isort rowLe rows)))) as Hs.
  { apply (omap_SS f (fun p q : nat * Row => (p.1 < q.1)%nat /\ rowLe p.2 q.2 = true)).
    - intros [i r] [j r'] c c' Hc%candidateOf_some Hc'%candidateOf_some. cbn [fst snd] in *. destruct Hc as (-> & -> & _), Hc' as (-> & -> & _). done.
    - apply (imap_SS (leP rowLe) _ 0), isort_sorted; [apply rowLe_total|apply rowLe_trans]. }
  split_and!.
  - intros c Hc. rewrite isort_perm in Hc. apply list_elem_of_omap in Hc as ([i r] & Hi & Hc%candidateOf_some). destruct Hc as (Hr & _ & Hp). cbn [snd] in Hr. subst r. split; [|done].
    apply elem_of_lookup_imap_1 in Hi as (k & z & [= -> ->] & Hz). apply list_elem_of_lookup_2 in Hz. by rewrite isort_perm in Hz.
  - intros r i c Hr Hc. rewrite <- (isort_perm rowLe rows) in Hr. apply list_elem_of_lookup_1 in Hr as [k Hk].
    assert (exists c', candidateOf registry opt now k r = Some c') as [c' Hc'].
    { clear -Hc. unfold candidateOf in *. repeat match type of Hc with (if ?b then None else _) = _ => destruct b; [done|] end.
      destruct (parseENR (r_ENR r)) as [n|]; [|done]. destruct (negb (enrWellFormed n)); [done|]. destruct (enrForkCurrentAt _ _ _ _ _) as [ev cur]. destruct (negb cur); [done|].
      destruct (CancelledAt _ _); [|by eexists]. destruct (bool_decide _); [|by eexists]. destruct (negb _); [done|by eexists]. }
    exists c'. split; [|by apply candidateOf_some in Hc' as (? & _)]. rewrite isort_perm. apply list_elem_of_omap. exists (k, r). split; [|done].
    apply elem_of_lookup_imap. by exists k, r.
  - rewrite isort_perm. clearbody f. induction Hs as [|c l Hs IH Hf]; cbn; [constructor|]. constructor; [|done]. rewrite Forall_forall in Hf.
    intros (c' & He & Hc')%list_elem_of_fmap. destruct (Hf c' Hc'). lia.
  - assert (forall a b, rankLe a b = false -> rankLe b a = true) as Htot by (unfold rankLe; intros a b Hab; boolify; lia).
    assert (forall a b c, rankLe a b = true -> rankLe b c = true -> rankLe a c = true) as Htr by (unfold rankLe; intros a b c H1 H2; boolify; lia).
    pose proof (isort_stable rankLe _ _ Htot Htr Hs) as Hst. eapply SS_weaken; [|exact Hst]. cbn. unfold rankLe. intros a b [Hab Hr]. boolify.
    destruct (decide (ca_rank a = ca_rank b)) as [He|]; [right; split; [done|]; apply Hr; boolify; lia|left; lia].
Qed.

(** The candidates of a network: each is fit to publish on its row and on its own
    record, each has its own record, no fit row is left out, and they come by rank
    and within a rank by score, last seen and id. *)
Theorem rankCandidates_sound `{EnodeCodec} `{EntryLoads} registry rows opt now :
  let out := rankCandidates registry rows opt now in
  (forall c, c ∈ out -> ca_row c ∈ rows /\ publishable registry opt now c) /\
  (forall r i c, r ∈ rows -> candidateOf registry opt now i r = Some c -> exists c', c' ∈ out /\ ca_row c' = r) /\
  NoDup (ca_node <$> out) /\
  StronglySorted (fun a b => ca_rank a < ca_rank b \/ ca_rank a = ca_rank b /\ rowLe (ca_row a) (ca_row b) = true) out.
Proof. apply rankCandidates_facts. Qed.

(** The round-robin fill of the client balance terminates, however the shares
    round: exactly the limit is chosen, in rank order, and when the limit has room for
    every client that earns a place, no client gets less than that place and its
    proportional share of the rest. *)
Theorem balanceClients_terminates cands limit held :
  0 < limit < Z.of_nat (length cands) -> Z.of_nat (length cands) <= 2 ^ 26 ->
  exists sel, balanceClients cands limit held = Some sel /\ sel `sublist_of` cands /\ Z.of_nat (length sel) = limit /\
    (earners held (clientsOf cands) <= limit -> forall c, c ∈ clientsOf cands -> share cands limit held c <= Z.of_nat (length (List.filter (ofClient c) sel))).
Proof. apply balanceClients_ok. Qed.
