(* ===== verification/DnsTree.v ===== *)
(** Trees and publish cycles: [cmd/dnspublisher/main.go] and [artifact.go].

    A tree is selected, signed, gated against the last published one and written as an
    artifact; then the zone is reconciled to it and the published state recorded.
    Building and signing the records is go-ethereum's [dnsdisc], the class [TreeLib].  A
    cycle reads a snapshot (Snapshot.v), chooses nodes (DnsSelect.v) and drives the
    zone of any provider (DnsSync.v).  The output directory is a map from artifact names
    to artifacts; whether each write succeeds and what each [Sync] meets are lists of
    answers that the steps consume. *)

From stdpp Require Import base gmap strings list numbers sorting.
From Stdlib Require Import ZArith Lia Ascii.
From S2P Require Import Prelude GoLib Counting Consensus ForkId Network Readiness NetIP NodeData Nodeset Text Clientname Releases Snapshot.
From S2P Require Import DnsSync DnsSyncProps DnsSelect DnsShares DnsSelectProps.
From stdpp Require Import list sorting.
#[local] Open Scope Z_scope.

(** * Artifacts *)

(** [or_Records] is the map of TXT records; its order means nothing. *)
Record output := MkOutput {
  or_SchemaVersion : Z; or_URL : string; or_Domain : string; or_Network : string;
  or_Capability : string; or_Nodes : Z; or_Seq : Z; or_Records : list (string * string) }.

Definition outputSchemaVersion : Z := 1.
Definition publishedSuffix : string := ".published".

(** A file of the output directory: an artifact, or bytes that do not decode to one. *)
Inductive File := Artifact (o : output) | Unreadable.

(** [Some None]: the artifact does not exist yet. *)
Definition readPrevious (disk : gmap string File) (name : string) : result (option output) :=
  match disk !! name with
  | None => Ok None
  | Some Unreadable => Err "UnmarshalStrict"
  | Some (Artifact o) => Ok (Some o)
  end.

Definition outputSequence (prev : output) : result Z :=
  if negb (or_SchemaVersion prev =? outputSchemaVersion) then Err "unsupported DNS artifact schema version %d"
  else if or_Seq prev =? 0 then Err "previous artifact has no sequence"
  else Ok (or_Seq prev).

Definition maxBaselineSeq : Z := Z.shiftl 1 40.
Definition maxBaselineNodes : Z := Z.shiftl 1 24.

Definition validateBaseline (prev : output) (domain network capability : string) : result unit :=
  let! _ := outputSequence prev in
  if negb (or_Domain prev =? domain)%string then Err "artifact domain %q does not match %q"
  else if negb (or_Network prev =? network)%string then Err "artifact network %q does not match %q"
  else if negb (or_Capability prev =? capability)%string then Err "artifact capability %q does not match %q"
  else if maxBaselineSeq <? or_Seq prev then Err "artifact sequence %d is implausible"
  else if (or_Nodes prev <? 0) || (maxBaselineNodes <? or_Nodes prev) then Err "artifact reports %d nodes"
  else match or_Records prev with [] => Err "artifact has no TXT records" | _ => Ok tt end.

Definition ownArtifact (outDir : string) (disk : gmap string File) (name domain network capability : string) : result (option output) :=
  if (outDir =? "")%string then Ok None
  else
    let! prev := readPrevious disk name in
    match prev with
    | None => Ok None
    | Some o => let! _ := validateBaseline o domain network capability in Ok (Some o)
    end.

Definition baselineFor (outDir : string) (disk : gmap string File) (domain network capability : string) : result (Z * Z) :=
  let! prev := ownArtifact outDir disk domain domain network capability in
  match prev with None => Ok (0, 0) | Some o => Ok (or_Nodes o, or_Seq o) end.

Definition publishedArtifact (outDir : string) (disk : gmap string File) (domain network capability : string) : result (option output) :=
  ownArtifact outDir disk (domain +:+ publishedSuffix) domain network capability.

(** * Configuration and trees *)

Record multiConfig := MkConfig {
  mc_networks : list string; mc_baseDomain : string; mc_outDir : string; mc_key : string; mc_sel : selectOpts;
  mc_publishEvery : Duration; mc_maxSnapshotAge : Duration; mc_minTreeNodes : Z; mc_maxDropPct : Z; mc_validate : bool;
  mc_publisher : option recordTTLs }.

Record Baselines := MkBaselines { bl_nodes : Z; bl_seq : Z; bl_publishedSeq : Z; bl_retain : option (list (string * string)) }.

Definition baselinesFor (cfg : multiConfig) (disk : gmap string File) (domain network capability : string) : result Baselines :=
  let! (nodes, seq) := baselineFor (mc_outDir cfg) disk domain network capability in
  match mc_publisher cfg with
  | None => Ok (MkBaselines nodes seq seq None)
  | Some _ =>
      let! published := publishedArtifact (mc_outDir cfg) disk domain network capability in
      match published with
      | None => Ok (MkBaselines 0 seq 0 None)
      | Some o => Ok (MkBaselines (or_Nodes o) seq (or_Seq o) (Some (or_Records o)))
      end
  end.

Record publishedNode := MkPublishedNode {
  pn_id : string; pn_record : string; pn_seq : Z; pn_score : Z; pn_firstSeen : Z; pn_lastResolved : Z; pn_lastCheck : Z }.

Record builtTree := MkTree {
  bt_output : output; bt_signature : string; bt_nodes : list publishedNode;
  bt_retain : option (list (string * string)); bt_ranks : list Z; bt_readyOnly : bool }.

Definition collapsed (current previous maxDropPct : Z) : bool :=
  if (maxDropPct <=? 0) || (previous <=? 0) then false else current * 100 <? previous * (100 - maxDropPct).

(** The reason of a skip; its message and arguments go to the log. *)
Definition gateTree (nodes : Z) (capability domain : string) (previousNodes : Z) (collapseExempt : bool) (cfg : multiConfig) : option string :=
  if nodes =? 0 then Some "empty_tree"
  else if (capability =? "all")%string && (nodes <? mc_minTreeNodes cfg) then Some "below_floor"
  else if negb collapseExempt && collapsed nodes previousNodes (mc_maxDropPct cfg) then Some "collapse"
  else None.

Definition treeSequence (generatedAt : Time) (previousSeq : Z) : Z :=
  let seq := wrapU64 (Unix generatedAt) in
  if seq <=? previousSeq then wrapU64 (previousSeq + 1) else seq.

Definition publishCycle (publishEvery : Duration) : Duration := if publishEvery <=? 0 then 6 * Hour else publishEvery.

(** go-ethereum's [dnsdisc]: a signed tree is its URL, its signature and its TXT
    records under a domain. *)
Class TreeLib := {
  makeSigned : Z -> list ENode -> string -> string -> result (string * string * list (string * string));
  parseURL : string -> bool
}.

(** * Forks near a cycle *)

Section Forks.
Context (registry : list Network).

Definition forkNear (network layer : string) (at_ : Time) (window : Duration) (phases : list Phase) : bool :=
  match LayerForkTargetsAt registry network at_ with
  | Err _ => false
  | Ok target =>
      let near activation := After activation at_ && (Sub activation at_ <=? window) in
      let has p := bool_decide (p ∈ phases) in
      (negb (layer =? "cl")%string && match ft_EL target with Some el => has (elt_Phase el) && near (time_Unix (wrapI64 (elt_Time el))) | None => false end)
      || (negb (layer =? "el")%string && match ft_CL target with Some cl => has (clt_Phase cl) && near (clt_Time cl) | None => false end)
  end.

Definition activationNear (network layer : string) (at_ : Time) (window : Duration) : bool :=
  forkNear network layer at_ window [PhaseScheduled; PhaseCancelled].
Definition cancellationNear (network layer : string) (at_ : Time) (window : Duration) : bool :=
  forkNear network layer at_ window [PhaseCancelled].

Definition forkActivatedBetween (network layer : string) (from to : Time) : bool :=
  if negb (After to from) then false
  else if CancelledForkActivatedBetween registry network layer from to then true
  else
    match Get registry network with
    | Err _ => false
    | Ok n =>
        if negb (layer =? "cl")%string && negb (fid_Hash (fst (CurrentForkIDAt n from)) =? fid_Hash (fst (CurrentForkIDAt n to)))%string then true
        else if (layer =? "el")%string then false
        else
          match CLForkStateAt registry network from with
          | Err _ => false
          | Ok before =>
              match CLForkStateAt registry network to with
              | Err _ => false
              | Ok after => negb (Digest before =? Digest after)%string
              end
          end
    end.
End Forks.

(** * Building *)

Section Build.
Context (registry : list Network) `{EC : EnodeCodec} `{EL : EntryLoads} `{TL : TreeLib}.

Definition countRank (r : Z) (l : list candidate) : Z := Z.of_nat (length (List.filter (fun c => ca_rank c =? r) l)).

(** [pick] always answers (DnsSelectProps.v): its first case never errs. *)
Definition buildTree (cands : list candidate) (opt : selectOpts) (seq : Z) (domain network : string) (key : string) : result builtTree :=
  match pick cands opt with
  | None => Err "out of fuel"
  | Some picked =>
      let! (url, signature, records) := makeSigned seq (ca_record <$> picked) key domain in
      Ok (MkTree
        (MkOutput outputSchemaVersion url domain network (so_capability opt) (Z.of_nat (length picked)) seq records)
        signature
        ((fun c => MkPublishedNode (hex_encode (en_ID (ca_record c))) (en_Text (ca_record c)) (en_Seq (ca_record c)) (r_Score (ca_row c)) (r_FirstSeen (ca_row c)) (r_LastResolved (ca_row c)) (r_LastCheck (ca_row c))) <$> picked)
        None [countRank rankReady picked; countRank rankNeutral picked; countRank rankMismatch picked] false)
  end.

Definition withCapability (o : selectOpts) (capability : string) : selectOpts :=
  MkOpts (so_minScore o) (so_maxAge o) (so_protocol o) (so_layer o) capability (so_limit o) (so_balance o).

(** The candidates a ready-only tree may hold, empty when no near layer has a ready one. *)
Definition readyCandidates (nearEL nearCL : bool) (cands : list candidate) : list candidate :=
  let near layer := ((layer =? "el")%string && nearEL) || ((layer =? "cl")%string && nearCL) in
  if nearEL || nearCL then
    if existsb (fun c => (ca_rank c =? rankReady) && near (r_Layer (ca_row c))) cands
    then List.filter (fun c => (ca_rank c =? rankReady) || negb (near (r_Layer (ca_row c)))) cands
    else []
  else [].

Inductive Built := Trees (ts : list builtTree) | Skip (reason : string) | Failed (why : string).

(** What [buildNetworkTrees] knows before its loop over capabilities. *)
Record Cycle := MkCycle {
  cy_network : string; cy_generatedAt : Time; cy_evaluatedAt : Time; cy_cands : list candidate; cy_ready : list candidate; cy_cancelNear : bool }.

Definition treeDomain (cfg : multiConfig) (capability network : string) : string := capability +:+ "." +:+ network +:+ "." +:+ mc_baseDomain cfg.

(** A fork activated after the last publish and at least one cycle ago. *)
Definition collapseExempt (cfg : multiConfig) (cy : Cycle) (bl : Baselines) : bool :=
  (0 <? bl_publishedSeq bl)
  && forkActivatedBetween registry (cy_network cy) (so_layer (mc_sel cfg)) (time_Unix (wrapI64 (bl_publishedSeq bl))) (GoLib.Add (cy_evaluatedAt cy) (- publishCycle (mc_publishEvery cfg))).

(** The size the full tree would have. *)
Definition fullNodes (cy : Cycle) (opt : selectOpts) : Z := match pick (cy_cands cy) opt with Some p => Z.of_nat (length p) | None => 0 end.

(** One capability: its tree, or the reason it is skipped. *)
Definition capabilityTree (cfg : multiConfig) (disk : gmap string File) (issued : gmap string Z) (cy : Cycle) (capability : string) : Built :=
  let network := cy_network cy in
  let domain := treeDomain cfg capability network in
  match baselinesFor cfg disk domain network capability with
  | Err _ => Skip "baseline_unreadable"
  | Ok bl =>
      let exempt := collapseExempt cfg cy bl in
      let opt := withCapability (mc_sel cfg) capability in
      let seq := treeSequence (cy_generatedAt cy) (Z.max (bl_seq bl) (default 0 (issued !! domain))) in
      let ok nodes ex := bool_decide (gateTree nodes capability domain (bl_nodes bl) ex cfg = None) in
      let readyTree :=
        match cy_ready cy with
        | [] => Ok None
        | ready =>
            let! t := buildTree ready opt seq domain network (mc_key cfg) in
            let readyExempt :=
              if cy_cancelNear cy then exempt || ok (fullNodes cy opt) exempt else exempt in
            if ok (or_Nodes (bt_output t)) readyExempt
            then Ok (Some (MkTree (bt_output t) (bt_signature t) (bt_nodes t) (bt_retain t) (bt_ranks t) true, readyExempt))
            else Ok None
        end in
      let chosen :=
        let! r := readyTree in
        match r with
        | Some te => Ok te
        | None => let! t := buildTree (cy_cands cy) opt seq domain network (mc_key cfg) in Ok (t, exempt)
        end in
      match chosen with
      | Err e => Failed e
      | Ok (t, outExempt) =>
          match gateTree (or_Nodes (bt_output t)) capability domain (bl_nodes bl) outExempt cfg with
          | Some reason => Skip reason
          | None => Trees [MkTree (bt_output t) (bt_signature t) (bt_nodes t) (bl_retain bl) (bt_ranks t) (bt_readyOnly t)]
          end
      end
  end.

(** The loop: the first capability without a tree ends it. *)
Fixpoint capabilityTrees (cfg : multiConfig) (disk : gmap string File) (issued : gmap string Z) (cy : Cycle) (capabilities : list string) : Built :=
  match capabilities with
  | [] => Trees []
  | c :: rest =>
      match capabilityTree cfg disk issued cy c with
      | Trees ts => match capabilityTrees cfg disk issued cy rest with Trees ts' => Trees (ts ++ ts') | b => b end
      | b => b
      end
  end.

Definition capabilitiesOf (layer : string) : list string := if negb (layer =? "cl")%string then ["all"; "snap"] else ["all"].

Definition cycleOf (cfg : multiConfig) (rows : list Row) (network : string) (generatedAt evaluatedAt : Time) : Cycle :=
  let cands := rankCandidates registry rows (mc_sel cfg) evaluatedAt in
  let layer := so_layer (mc_sel cfg) in
  let window := wrapI64 (2 * publishCycle (mc_publishEvery cfg)) in
  let nearEL := negb (layer =? "cl")%string && activationNear registry network "el" evaluatedAt window in
  let nearCL := negb (layer =? "el")%string && activationNear registry network "cl" evaluatedAt window in
  MkCycle network generatedAt evaluatedAt cands (readyCandidates nearEL nearCL cands) (cancellationNear registry network layer evaluatedAt window).

Definition buildNetworkTrees (rows : list Row) (network : string) (generatedAt evaluatedAt : Time) (cfg : multiConfig) (disk : gmap string File) (issued : gmap string Z) : Built :=
  capabilityTrees cfg disk issued (cycleOf cfg rows network generatedAt evaluatedAt) (capabilitiesOf (so_layer (mc_sel cfg))).
End Build.

(** * Cycles *)

Section Publish.
Context (registry : list Network) `{EC : EnodeCodec} `{EL : EntryLoads} `{TL : TreeLib}.
Context `{Hurl : URLParser} `{Hcodec : ManifestCodec} `{Hrows : RowCodec} `{O : ProviderOps R Zn B}.

(** The state a process works on, with the answers still to come.  [wd_zones] are the
    zones a resolver could have read, [wd_emitted] the tree artifacts written, in order. *)
Record World := MkWorld {
  wd_disk : gmap string File; wd_zone : Zn; wd_issued : gmap string Z;
  wd_writes : list bool; wd_syncs : list Env; wd_zones : list Zn; wd_emitted : list output }.

#[export] Instance eta_World : Eta World := fun w =>
  MkWorld (wd_disk w) (wd_zone w) (wd_issued w) (wd_writes w) (wd_syncs w) (wd_zones w) (wd_emitted w).
#[export] Instance upd_wd_disk : Upd wd_disk. Proof. derive_upd. Defined.
#[export] Instance upd_wd_zone : Upd wd_zone. Proof. derive_upd. Defined.
#[export] Instance upd_wd_issued : Upd wd_issued. Proof. derive_upd. Defined.
#[export] Instance upd_wd_writes : Upd wd_writes. Proof. derive_upd. Defined.
#[export] Instance upd_wd_syncs : Upd wd_syncs. Proof. derive_upd. Defined.
#[export] Instance upd_wd_zones : Upd wd_zones. Proof. derive_upd. Defined.
#[export] Instance upd_wd_emitted : Upd wd_emitted. Proof. derive_upd. Defined.

(** Whether the write succeeded.  Without an output directory it goes to the standard output. *)
Definition emitArtifact (outDir : string) (out : output) (name : string) (w : World) : World * bool :=
  match wd_writes w with
  | true :: rest =>
      (w <| wd_writes := rest |> <| wd_disk := if (outDir =? "")%string then wd_disk w else <[name := Artifact out]> (wd_disk w) |>, true)
  | _ => (w <| wd_writes := tail (wd_writes w) |>, false)
  end.

Definition noEnv : Env := MkEnv false [] false.

Fixpoint publishTrees (ttls : recordTTLs) (outDir : string) (trees : list builtTree) (w : World) : World * option string :=
  match trees with
  | [] => (w, None)
  | t :: rest =>
      let out := bt_output t in
      let s := Sync ttls (hd noEnv (wd_syncs w)) (wd_zone w) (or_Domain out) (or_Records out) (bt_retain t) in
      let w := w <| wd_syncs := tail (wd_syncs w) |> <| wd_zone := rn_zone (sy_run s) |> <| wd_zones := wd_zones w ++ rn_trace (sy_run s) |> in
      match sy_err s with
      | Some _ => (w, Some "publish %s: %w")
      | None =>
          let (w, ok) := emitArtifact outDir out (or_Domain out +:+ publishedSuffix) w in
          if negb ok then (w, Some "commit published state %s: %w") else publishTrees ttls outDir rest w
      end
  end.

Definition publishNetwork (cfg : multiConfig) (trees : list builtTree) (w : World) : World * option string :=
  match mc_publisher cfg with
  | None => (w, None)
  | Some ttls => publishTrees ttls (mc_outDir cfg) trees w
  end.

(** The loop that writes a network's tree artifacts; an error ends the whole cycle. *)
Fixpoint emitTrees (cfg : multiConfig) (trees : list builtTree) (w : World) : World * option string :=
  match trees with
  | [] => (w, None)
  | t :: rest =>
      let out := bt_output t in
      if mc_validate cfg && negb (parseURL (or_URL out)) then (w, Some "validate %s: %w")
      else
        let (w, ok) := emitArtifact (mc_outDir cfg) out (or_Domain out) w in
        if negb ok then (w, Some "write")
        else emitTrees cfg rest (w <| wd_issued := <[or_Domain out := or_Seq out]> (wd_issued w) |> <| wd_emitted := wd_emitted w ++ [out] |>)
  end.

(** One network of a cycle: an error here is fatal to the cycle, a skip is not. *)
Definition networkCycle (cfg : multiConfig) (layout : Layout) (m : Manifest) (get : string -> Got string) (evaluatedAt : Time) (network : string) (w : World) : World * option string :=
  match LoadNetworkRows layout m network get with
  | Err _ => (w, None)
  | Ok rows =>
      match buildNetworkTrees registry rows network (mf_GeneratedAt m) evaluatedAt cfg (wd_disk w) (wd_issued w) with
      | Failed _ | Skip _ => (w, None)
      | Trees trees =>
          let (w, err) := emitTrees cfg trees w in
          match err with
          | Some e => (w, Some e)
          | None => (fst (publishNetwork cfg trees w), None)
          end
      end
  end.

Fixpoint networkCycles (cfg : multiConfig) (layout : Layout) (m : Manifest) (get : string -> Got string) (evaluatedAt : Time) (networks : list string) (w : World) : World * option string :=
  match networks with
  | [] => (w, None)
  | n :: rest =>
      let (w, err) := networkCycle cfg layout m get evaluatedAt n w in
      match err with Some e => (w, Some e) | None => networkCycles cfg layout m get evaluatedAt rest w end
  end.

(** What one cycle reads: the store, the clock at the age check and at the evaluation. *)
Record Input := MkInput { in_get : string -> Got string; in_checkedAt : Time; in_evaluatedAt : Time }.

(** The closure [publish] of [runMultiTree]. *)
Definition publish (cfg : multiConfig) (layout : Layout) (i : Input) (w : World) : World * option string :=
  match Read layout (in_get i (ManifestKey layout)) with
  | ReadOk m =>
      if (0 <? mc_maxSnapshotAge cfg) && (mc_maxSnapshotAge cfg <? Sub (in_checkedAt i) (mf_GeneratedAt m)) then (w, None)
      else networkCycles cfg layout m (in_get i) (in_evaluatedAt i) (mc_networks cfg) w
  | _ => (w, Some "read manifest: %w")
  end.

(** A run: ticks of the publish loop, each of which may fail, and restarts of the
    process, which forget the sequences issued.  A one-shot process is one tick. *)
Inductive Event := Tick (i : Input) | Restart.
Definition event (cfg : multiConfig) (layout : Layout) (e : Event) (w : World) : World :=
  match e with
  | Tick i => fst (publish cfg layout i w)
  | Restart => w <| wd_issued := ∅ |>
  end.
Definition runMultiTree (cfg : multiConfig) (layout : Layout) (es : list Event) (w : World) : World := foldl (fun w e => event cfg layout e w) w es.
End Publish.
Arguments World : clear implicits.

(** * Domains *)

Definition label_char (c : ascii) : bool :=
  let v := byte_val c in
  ((97 <=? v) && (v <=? 122)) || ((65 <=? v) && (v <=? 90)) || ((48 <=? v) && (v <=? 57)) || (c =? "-")%char.

Fixpoint lastChar (s : string) : option ascii :=
  match s with EmptyString => None | String c EmptyString => Some c | String _ s' => lastChar s' end.
Definition isDash (o : option ascii) : bool := match o with Some c => (c =? "-")%char | None => false end.

Definition badLabel (label : string) : bool :=
  (label =? "")%string || (63 <? slen label) || isDash (String.get 0 label) || isDash (lastChar label).

Fixpoint checkLabels (labels : list string) : result unit :=
  match labels with
  | [] => Ok tt
  | l :: rest =>
      if badLabel l then Err "contains an invalid DNS label"
      else if negb (forallb label_char (String.list_ascii_of_string l)) then Err "contains a non-ASCII or invalid DNS label character"
      else checkLabels rest
  end.

Definition validateDomain (domain : string) : result unit :=
  if (domain =? "")%string then Err "is required"
  else if (253 <? slen domain) || HasSuffix domain "." then Err "must be an unqualified ASCII domain name of at most 253 bytes"
  else checkLabels (split_on "."%char "" domain).

(** What the trees and cycles of DnsTree.v promise: the gates, sequences that only
    grow, and a zone whose root always leads to a complete tree. *)

(** * One capability *)

Section Gates.
Context (registry : list Network) `{EC : EnodeCodec} `{EL : EntryLoads} `{TL : TreeLib}.

(** A tree built from [cands] for a capability. *)
Record built_from (cands : list candidate) (cfg : multiConfig) (capability domain network : string) (seq : Z) (t : builtTree) : Prop := {
  bf_picked : exists picked url sig, pick cands (withCapability (mc_sel cfg) capability) = Some picked /\
    makeSigned seq (ca_record <$> picked) (mc_key cfg) domain = Ok (url, sig, or_Records (bt_output t)) /\
    or_Nodes (bt_output t) = Z.of_nat (length picked) /\ pn_record <$> bt_nodes t = (fun c => en_Text (ca_record c)) <$> picked /\
    picked ⊆ cands;
  bf_domain : or_Domain (bt_output t) = domain;
  bf_network : or_Network (bt_output t) = network;
  bf_capability : or_Capability (bt_output t) = capability;
  bf_seq : or_Seq (bt_output t) = seq
}.

Lemma pick_sublist cands opt picked : pick cands opt = Some picked -> picked ⊆ cands.
Proof.
  unfold pick. assert (eligible cands opt ⊆ cands) as He.
  { unfold eligible. destruct (_ =? _)%string; [|done]. intros x Hx. by apply elem_of_lfilter in Hx as [? _]. }
  destruct (_ || _); [by intros [= <-]|]. set (filled := if _ <=? 0 then _ else _). destruct filled; [|done]. intros [= <-].
  intros x Hx. apply He. unfold mergeRanked in Hx. apply list_elem_of_fmap in Hx as ([y b] & -> & Hy). apply elem_of_lfilter in Hy as [Hy _]. by apply elem_of_zip_l in Hy.
Qed.

Lemma buildTree_from cands cfg capability seq domain network t :
  buildTree cands (withCapability (mc_sel cfg) capability) seq domain network (mc_key cfg) = Ok t ->
  built_from cands cfg capability domain network seq t /\ bt_retain t = None /\ bt_readyOnly t = false.
Proof.
  unfold buildTree. destruct (pick _ _) as [picked|] eqn:Hp; [|done]. destruct (makeSigned _ _ _ _) as [[[url sig] recs]|] eqn:Hm; cbn [rbind]; [|done].
  intros [= <-]. split; [|done]. split; try done. exists picked, url, sig. cbn. split_and!; try done; [by rewrite <- list_fmap_compose|by eapply pick_sublist].
Qed.

(** The tree of one capability: built from all candidates or, ready only, from those
    that advertise the coming fork, and through its gate. *)
Lemma capabilityTree_trees cfg disk issued cy capability ts :
  capabilityTree registry cfg disk issued cy capability = Trees ts ->
  exists t bl, ts = [t] /\ baselinesFor cfg disk (treeDomain cfg capability (cy_network cy)) (cy_network cy) capability = Ok bl /\
    let seq := treeSequence (cy_generatedAt cy) (Z.max (bl_seq bl) (default 0 (issued !! treeDomain cfg capability (cy_network cy)))) in
    let opt := withCapability (mc_sel cfg) capability in
    let domain := treeDomain cfg capability (cy_network cy) in
    built_from (if bt_readyOnly t then cy_ready cy else cy_cands cy) cfg capability domain (cy_network cy) seq t /\
    bt_retain t = bl_retain bl /\
    exists exempt, gateTree (or_Nodes (bt_output t)) capability domain (bl_nodes bl) exempt cfg = None /\
      (exempt = true -> collapseExempt registry cfg cy bl = true \/
         bt_readyOnly t = true /\ cy_cancelNear cy = true /\ gateTree (fullNodes cy opt) capability domain (bl_nodes bl) false cfg = None).
Proof.
  unfold capabilityTree. set (domain := treeDomain _ _ _). destruct (baselinesFor _ _ _ _ _) as [bl|] eqn:Hb; [|done].
  set (opt := withCapability _ _). set (seq := treeSequence _ _). set (exempt := collapseExempt registry cfg cy bl). cbv zeta.
  set (full := buildTree (cy_cands cy) opt seq domain (cy_network cy) (mc_key cfg)).
  assert (forall t, full = Ok t -> match gateTree (or_Nodes (bt_output t)) capability domain (bl_nodes bl) exempt cfg with
      | Some reason => Skip reason | None => Trees [MkTree (bt_output t) (bt_signature t) (bt_nodes t) (bl_retain bl) (bt_ranks t) (bt_readyOnly t)] end = Trees ts ->
    exists t' bl', ts = [t'] /\ Ok bl = Ok bl' /\ built_from (if bt_readyOnly t' then cy_ready cy else cy_cands cy) cfg capability domain (cy_network cy) (treeSequence (cy_generatedAt cy) (Z.max (bl_seq bl') (default 0 (issued !! domain)))) t' /\
      bt_retain t' = bl_retain bl' /\ exists ex, gateTree (or_Nodes (bt_output t')) capability domain (bl_nodes bl') ex cfg = None /\
        (ex = true -> collapseExempt registry cfg cy bl' = true \/ bt_readyOnly t' = true /\ cy_cancelNear cy = true /\ gateTree (fullNodes cy opt) capability domain (bl_nodes bl') false cfg = None)) as Hfull.
  { intros t Ht. apply buildTree_from in Ht as (Hf & Hr & Hro). destruct (gateTree _ _ _ _ exempt cfg) eqn:Hg; [done|]. intros [= <-].
    eexists _, bl. split; [done|]. split; [done|]. cbn [bt_readyOnly bt_retain bt_output]. rewrite Hro. split; [|split; [done|]].
    - destruct Hf as [A1 A2 A3 A4 A5]. by split.
    - exists exempt. split; [done|]. by left. }
  destruct (cy_ready cy) as [|c0 ready] eqn:Hrd; cbn [rbind].
  { destruct full as [t|] eqn:Hful; cbn [rbind]; [|done]. by apply Hfull. }
  destruct (buildTree (c0 :: ready) opt seq domain (cy_network cy) (mc_key cfg)) as [t|] eqn:Ht; cbn [rbind]; [|done].
  set (readyExempt := if cy_cancelNear cy then _ else _). destruct (bool_decide (gateTree (or_Nodes (bt_output t)) capability domain (bl_nodes bl) readyExempt cfg = None)) eqn:Hg; cbn [rbind].
  - apply bool_decide_eq_true in Hg. cbn [bt_output bt_signature bt_nodes bt_ranks bt_readyOnly]. rewrite Hg. intros [= <-].
    apply buildTree_from in Ht as (Hf & _). eexists _, bl. split; [done|]. split; [done|]. cbn [bt_readyOnly bt_retain bt_output]. split; [|split; [done|]].
    + destruct Hf as [A1 A2 A3 A4 A5]. by split.
    + exists readyExempt. split; [done|]. unfold readyExempt. destruct (cy_cancelNear cy); [|by left].
      intros [He|He%bool_decide_eq_true]%orb_true_iff; [by left|]. destruct exempt eqn:Ex; [by left|]. right. done.
  - destruct full as [t'|] eqn:Hful; cbn [rbind]; [|done]. by apply Hfull.
Qed.

Lemma capabilityTrees_trees cfg disk issued cy caps ts :
  capabilityTrees registry cfg disk issued cy caps = Trees ts -> Forall2 (fun c t => capabilityTree registry cfg disk issued cy c = Trees [t]) caps ts.
Proof.
  revert ts. induction caps as [|c caps IH]; intros ts; cbn [capabilityTrees]; [by intros [= <-]|].
  destruct (capabilityTree registry cfg disk issued cy c) as [ts1| |] eqn:Hc; [|done..].
  destruct (capabilityTrees registry cfg disk issued cy caps) as [ts2| |]; [|done..]. intros [= <-].
  destruct (capabilityTree_trees _ _ _ _ _ _ Hc) as (t & bl & -> & _). constructor; [done|by apply IH].
Qed.

Lemma gate_passed nodes capability domain prev exempt cfg :
  gateTree nodes capability domain prev exempt cfg = None ->
  nodes <> 0 /\ (capability = "all" -> mc_minTreeNodes cfg <= nodes) /\ (collapsed nodes prev (mc_maxDropPct cfg) = true -> exempt = true).
Proof.
  unfold gateTree. destruct (nodes =? 0) eqn:E0; [done|]. destruct ((capability =? "all")%string && _) eqn:E1; [done|].
  destruct (negb exempt && _) eqn:E2; [done|]. intros _. split_and!; [by boolify| |].
  - intros ->. cbn in E1. boolify. lia.
  - intros Hc. rewrite Hc, andb_true_r in E2. by apply negb_false_iff in E2.
Qed.

(** Every record of a ready-only tree is ready, or of a layer with no fork near. *)
Lemma readyCandidates_ready nearEL nearCL cands c :
  c ∈ readyCandidates nearEL nearCL cands ->
  c ∈ cands /\ (ca_rank c = rankReady \/ (r_Layer (ca_row c) = "el" -> nearEL = false) /\ (r_Layer (ca_row c) = "cl" -> nearCL = false)).
Proof.
  unfold readyCandidates. destruct (nearEL || nearCL); [|intros H; by apply not_elem_of_nil in H]. destruct (existsb _ cands); [|intros H; by apply not_elem_of_nil in H].
  intros [Hc Hf]%elem_of_lfilter. split; [done|]. apply orb_true_iff in Hf as [Hr|Hn]; [left; by boolify|right].
  apply negb_true_iff, orb_false_iff in Hn as [H1 H2]. split; intros Hl; [rewrite Hl in H1|rewrite Hl in H2]; done.
Qed.
End Gates.

