(* ===== verification/DnsCycles.v ===== *)
(** Whole runs of the DNS publisher: sequences only grow, and whatever fails, the root a
    resolver reads leads to a complete tree and the published generation stays. *)

From stdpp Require Import base gmap strings list numbers sorting.
From Stdlib Require Import ZArith Lia Ascii.
From S2P Require Import Prelude GoLib Counting Consensus ForkId Network Readiness NetIP NodeData Nodeset Text Clientname Releases Snapshot.
From S2P Require Import DnsSync DnsSyncProps DnsSelect DnsShares DnsSelectProps DnsTree.
From stdpp Require Import list sorting.
#[local] Open Scope Z_scope.

(** * Names *)

Fixpoint dots (s : string) : nat :=
  match s with EmptyString => 0 | String c s' => ((if (c =? ".")%char then 1 else 0) + dots s')%nat end.

Lemma dots_app a b : dots (a +:+ b) = (dots a + dots b)%nat.
Proof. induction a as [|c a IH]; [done|]. rewrite sapp_cons. cbn [dots]. rewrite IH. lia. Qed.

Lemma dots_lower s : dots (ToLower s) = dots s.
Proof.
  unfold ToLower. induction s as [|c s IH]; [done|]. cbn [smap dots]. rewrite IH. f_equal.
  assert ((lower_byte c =? ".")%char = (c =? ".")%char) as ->; [|done].
  destruct (Ascii.eqb_spec c ".") as [->|Hne]; [done|]. apply Ascii.eqb_neq. intros H. apply Hne.
  unfold lower_byte in H. destruct ((65 <=? byte_val c) && (byte_val c <=? 90)) eqn:E; [|done]. boolify.
  apply (f_equal byte_val) in H. rewrite byte_val_of, Z.mod_small in H by lia. change (byte_val ".") with 46 in H. lia.
Qed.

(** Of two endings of a string, the longer ends with the shorter. *)
Lemma endings a s b t : a +:+ s = b +:+ t -> (String.length s <= String.length t)%nat -> exists u, t = u +:+ s.
Proof.
  revert b. induction a as [|c a IH]; intros b H Hl.
  - change ("" +:+ s) with s in H. subst s. rewrite length_sapp in Hl. destruct b; [by exists ""|cbn in Hl; lia].
  - destruct b as [|c' b]; [exists (String c a); change ("" +:+ t) with t in H; by rewrite <- H|]. rewrite !sapp_cons in H. injection H as -> H. by eapply IH.
Qed.

(** Domains with as many labels have no name in common. *)
Lemma inDomain_disjoint d1 d2 n :
  dots (dnsKey d1) = dots (dnsKey d2) -> dnsKey d1 <> dnsKey d2 -> inDomain d1 n = true -> inDomain d2 n = false.
Proof.
  intros Hd Hne H1. apply not_true_iff_false. intros H2. unfold inDomain in *. rewrite orb_true_iff, String.eqb_eq, HasSuffix_spec in H1, H2.
  set (k1 := dnsKey d1) in *. set (k2 := dnsKey d2) in *. clearbody k1 k2.
  destruct H1 as [->|[a ->]], H2 as [H2|[b H2]].
  - done.
  - rewrite H2, !dots_app in Hd. cbn in Hd. lia.
  - rewrite <- H2, !dots_app in Hd. cbn in Hd. lia.
  - destruct (Nat.le_ge_cases (String.length k1) (String.length k2)) as [Hl|Hl].
    + destruct (endings a ("." +:+ k1) b ("." +:+ k2) H2) as [u Hu]; [rewrite !length_sapp; by apply Nat.add_le_mono_l|].
      assert (dots ("." +:+ k2) = dots (u +:+ "." +:+ k1)) as Hdu by (by rewrite Hu). rewrite !dots_app in Hdu. cbn in Hdu.
      destruct u as [|c u]; [|].
      * apply Hne. change ("" +:+ "." +:+ k1) with ("." +:+ k1) in Hu. rewrite !sapp_cons in Hu. injection Hu as Hu. done.
      * rewrite !sapp_cons in Hu. injection Hu as <- Hu. change ("" +:+ k2) with k2 in Hu. change ("" +:+ k1) with k1 in Hu. rewrite Hu, !dots_app in Hd. cbn in Hd. lia.
    + symmetry in H2. destruct (endings b ("." +:+ k2) a ("." +:+ k1) H2) as [u Hu]; [rewrite !length_sapp; by apply Nat.add_le_mono_l|].
      destruct u as [|c u].
      * apply Hne. change ("" +:+ "." +:+ k2) with ("." +:+ k2) in Hu. rewrite !sapp_cons in Hu. injection Hu as Hu. done.
      * rewrite !sapp_cons in Hu. injection Hu as <- Hu. change ("" +:+ k1) with k1 in Hu. change ("" +:+ k2) with k2 in Hu. rewrite Hu, !dots_app in Hd. cbn in Hd. lia.
Qed.

(** The domains of a configuration. *)
Definition treeDomains (cfg : multiConfig) : list string :=
  flat_map (fun net => (fun cap => treeDomain cfg cap net) <$> capabilitiesOf (so_layer (mc_sel cfg))) (mc_networks cfg).

(** Networks without a dot and a base domain without a final one, as the registry and
    [validateDomain] have them, and domains that differ in more than case. *)
Record names_ok (cfg : multiConfig) : Prop := {
  nm_networks : forall n, n ∈ mc_networks cfg -> dots n = 0%nat;
  nm_base : HasSuffix (mc_baseDomain cfg) "." = false /\ mc_baseDomain cfg <> "";
  nm_distinct : forall d d', d ∈ treeDomains cfg -> d' ∈ treeDomains cfg -> dnsKey d = dnsKey d' -> d = d'
}.

Lemma elem_of_treeDomains cfg d : d ∈ treeDomains cfg <-> exists net cap, net ∈ mc_networks cfg /\ cap ∈ capabilitiesOf (so_layer (mc_sel cfg)) /\ d = treeDomain cfg cap net.
Proof.
  unfold treeDomains. rewrite list_elem_of_In, in_flat_map. setoid_rewrite <- list_elem_of_In. setoid_rewrite list_elem_of_fmap. naive_solver.
Qed.

Lemma capability_dots layer cap : cap ∈ capabilitiesOf layer -> dots cap = 0%nat.
Proof. unfold capabilitiesOf. destruct (negb _); [intros [->|[->|H]%elem_of_cons]%elem_of_cons|intros [->|H]%elem_of_cons]; try done; by apply not_elem_of_nil in H. Qed.

Lemma treeDomain_dots cfg d : names_ok cfg -> d ∈ treeDomains cfg -> dots d = S (S (dots (mc_baseDomain cfg))).
Proof.
  intros Hn (net & cap & Hnet & Hcap & ->)%elem_of_treeDomains. unfold treeDomain. rewrite !dots_app, (nm_networks _ Hn _ Hnet), (capability_dots _ _ Hcap). done.
Qed.

Lemma published_not_tree cfg d d' : names_ok cfg -> d ∈ treeDomains cfg -> d' ∈ treeDomains cfg -> d <> d' +:+ publishedSuffix.
Proof.
  intros Hn Hd Hd' He. apply (f_equal dots) in He. rewrite dots_app, (treeDomain_dots cfg d), (treeDomain_dots cfg d') in He by done. cbn in He. lia.
Qed.

Lemma suffix_inj a b : a +:+ publishedSuffix = b +:+ publishedSuffix -> a = b.
Proof. apply sapp_inj_r. Qed.

Lemma treeDomain_key_dots cfg d : names_ok cfg -> d ∈ treeDomains cfg -> dots (dnsKey d) = S (S (dots (mc_baseDomain cfg))).
Proof.
  intros Hn Hd. unfold dnsKey. rewrite dots_lower. assert (HasSuffix d "." = false) as Hs.
  { apply not_true_iff_false. rewrite HasSuffix_spec. intros [a Ha]. destruct (nm_base _ Hn) as [Hb Hne]. apply not_true_iff_false in Hb. apply Hb. apply HasSuffix_spec.
    apply elem_of_treeDomains in Hd as (net & cap & _ & _ & ->). unfold treeDomain in Ha. rewrite !sapp_assoc in Ha.
    symmetry in Ha. eapply endings; [exact Ha|]. destruct (mc_baseDomain cfg); [done|cbn; lia]. }
  unfold TrimSuffix. rewrite Hs. by apply treeDomain_dots.
Qed.

Lemma domains_apart cfg d d' n : names_ok cfg -> d ∈ treeDomains cfg -> d' ∈ treeDomains cfg -> d <> d' -> inDomain d n = true -> inDomain d' n = false.
Proof.
  intros Hn Hd Hd' Hne. apply inDomain_disjoint; [by rewrite !(treeDomain_key_dots cfg)|]. intros He. apply Hne. by apply (nm_distinct _ Hn).
Qed.

(** * Sequences *)

Lemma treeSequence_grows generatedAt prev : 0 <= prev < max_uint64 -> prev < treeSequence generatedAt prev.
Proof.
  intros Hp. unfold treeSequence. destruct (wrapU64 (Unix generatedAt) <=? prev) eqn:E; boolify; [|lia]. rewrite wrapU64_id; lia.
Qed.

Lemma validateBaseline_ok prev domain network capability :
  validateBaseline prev domain network capability = Ok tt ->
  or_Domain prev = domain /\ or_Network prev = network /\ or_Capability prev = capability /\ or_Seq prev <> 0 /\ or_Seq prev <= 2 ^ 40 /\
  0 <= or_Nodes prev <= 2 ^ 24 /\ or_Records prev <> [].
Proof.
  unfold validateBaseline, outputSequence. destruct (negb (or_SchemaVersion prev =? _)); [done|]. destruct (or_Seq prev =? 0) eqn:E0; [done|]. cbn [rbind].
  destruct (negb (or_Domain prev =? domain)%string) eqn:E1; [done|]. destruct (negb (or_Network prev =? network)%string) eqn:E2; [done|].
  destruct (negb (or_Capability prev =? capability)%string) eqn:E3; [done|]. destruct (maxBaselineSeq <? or_Seq prev) eqn:E4; [done|].
  destruct ((or_Nodes prev <? 0) || _) eqn:E5; [done|]. apply orb_false_iff in E5 as [E5 E6]. destruct (or_Records prev) eqn:Er; [done|]. intros _.
  boolify. unfold maxBaselineSeq, maxBaselineNodes in *. rewrite Z.shiftl_mul_pow2 in * by lia. split_and!; try done; lia.
Qed.

Lemma ownArtifact_ok outDir disk name domain network capability p :
  outDir <> "" -> ownArtifact outDir disk name domain network capability = Ok p ->
  (p = None /\ disk !! name = None) \/ exists o, p = Some o /\ disk !! name = Some (Artifact o) /\ validateBaseline o domain network capability = Ok tt.
Proof.
  intros Ho. unfold ownArtifact. destruct (String.eqb_spec outDir "") as [|_]; [done|]. unfold readPrevious.
  destruct (disk !! name) as [[o|]|] eqn:Hd; cbn [rbind]; [|done|intros [= <-]; by left].
  destruct (validateBaseline o domain network capability) as [[]|] eqn:Hv; cbn [rbind]; [|done]. intros [= <-]. right. by exists o.
Qed.

(** What the baselines say of the output directory. *)
Lemma baselinesFor_ok cfg disk domain network capability bl :
  mc_outDir cfg <> "" -> baselinesFor cfg disk domain network capability = Ok bl ->
  (disk !! domain = None /\ bl_seq bl = 0 \/
   exists o, disk !! domain = Some (Artifact o) /\ bl_seq bl = or_Seq o /\ or_Seq o <= 2 ^ 40) /\
  (mc_publisher cfg <> None ->
   disk !! (domain +:+ publishedSuffix) = None /\ bl_retain bl = None \/
   exists o, disk !! (domain +:+ publishedSuffix) = Some (Artifact o) /\ bl_retain bl = Some (or_Records o) /\ or_Domain o = domain).
Proof.
  intros Ho. unfold baselinesFor, baselineFor. destruct (ownArtifact _ _ domain _ _ _) as [p|] eqn:Hp; cbn [rbind]; [|done].
  apply ownArtifact_ok in Hp; [|done].
  assert (forall nodes seq, (match p with None => Ok (0, 0) | Some o => Ok (or_Nodes o, or_Seq o) end) = Ok (nodes, seq) ->
    disk !! domain = None /\ seq = 0 \/ exists o, disk !! domain = Some (Artifact o) /\ seq = or_Seq o /\ or_Seq o <= 2 ^ 40) as Hseq.
  { intros nodes seq. destruct Hp as [[-> Hd]|(o & -> & Hd & Hv)]; intros [= <- <-]; [by left|right]. exists o. apply validateBaseline_ok in Hv. tauto. }
  destruct (match p with None => Ok (0, 0) | Some o => Ok (or_Nodes o, or_Seq o) end) as [[nodes seq]|]; cbn [rbind]; [|done].
  specialize (Hseq nodes seq eq_refl). destruct (mc_publisher cfg); [|intros [= <-]; done].
  unfold publishedArtifact. destruct (ownArtifact _ _ (domain +:+ _) _ _ _) as [q|] eqn:Hq; cbn [rbind]; [|done].
  apply ownArtifact_ok in Hq; [|done]. destruct Hq as [[-> Hd]|(o & -> & Hd & Hv)]; intros [= <-]; (split; [done|]); intros _; [by left|right].
  exists o. apply validateBaseline_ok in Hv. tauto.
Qed.

Section Runs.
Context (registry : list Network) `{EC : EnodeCodec} `{EL : EntryLoads} `{TL : TreeLib}.
Context `{Hurl : URLParser} `{Hcodec : ManifestCodec} `{Hrows : RowCodec} `{O : ProviderOps R Zn B}.
Context (cfg : multiConfig) (Hout : mc_outDir cfg <> "") (Hn : names_ok cfg).

#[local] Abbreviation tree d := (d ∈ treeDomains cfg).

(** The trees of one network that are about to be written: distinct domains, and each
    sequence beyond the artifact it will replace. *)
Definition pending (disk : gmap string File) (ts : list builtTree) : Prop :=
  NoDup ((fun t => or_Domain (bt_output t)) <$> ts) /\
  forall t, t ∈ ts -> tree (or_Domain (bt_output t)) /\ forall o, disk !! or_Domain (bt_output t) = Some (Artifact o) -> or_Seq o < or_Seq (bt_output t).

Definition seqs (d : string) (emitted : list output) : list Z := or_Seq <$> List.filter (fun o => (or_Domain o =? d)%string) emitted.

(** The sequences a domain has had, from the artifact that was there first. *)
Definition history (disk0 : gmap string File) (d : string) (emitted : list output) : list Z :=
  (match disk0 !! d with Some (Artifact o) => [or_Seq o] | _ => [] end) ++ seqs d emitted.

Record seq_inv (disk0 : gmap string File) (w : World Zn) : Prop := {
  si_sorted : forall d, StronglySorted Z.lt (history disk0 d (wd_emitted w));
  si_floor : forall d s, tree d -> s ∈ history disk0 d (wd_emitted w) -> exists o, wd_disk w !! d = Some (Artifact o) /\ s <= or_Seq o;
  si_issued : forall d s, wd_issued w !! d = Some s -> tree d /\ exists o, wd_disk w !! d = Some (Artifact o) /\ s <= or_Seq o;
  si_tree : forall o, o ∈ wd_emitted w -> tree (or_Domain o)
}.

Lemma seqs_snoc d emitted o : seqs d (emitted ++ [o]) = seqs d emitted ++ (if (or_Domain o =? d)%string then [or_Seq o] else []).
Proof. unfold seqs. rewrite List.filter_app, fmap_app. cbn [List.filter]. by destruct (or_Domain o =? d)%string. Qed.

(** Writing one tree. *)
Lemma emit_seq disk0 w out writes :
  seq_inv disk0 w -> tree (or_Domain out) -> (forall o, wd_disk w !! or_Domain out = Some (Artifact o) -> or_Seq o < or_Seq out) ->
  seq_inv disk0 (w <| wd_writes := writes |> <| wd_disk := <[or_Domain out := Artifact out]> (wd_disk w) |> <| wd_issued := <[or_Domain out := or_Seq out]> (wd_issued w) |> <| wd_emitted := wd_emitted w ++ [out] |>).
Proof.
  intros [Hs Hf Hi Ht] Htree Hnew. assert (forall s, s ∈ history disk0 (or_Domain out) (wd_emitted w) -> s < or_Seq out) as Hlt.
  { intros s Hs'. destruct (Hf _ _ Htree Hs') as (o & Ho & Hle). specialize (Hnew o Ho). lia. }
  split; upd_simpl.
  - intros d. unfold history. rewrite seqs_snoc, app_assoc. destruct (String.eqb_spec (or_Domain out) d) as [<-|]; [|by rewrite app_nil_r; apply Hs].
    apply StronglySorted_app. split_and!; [|apply Hs|repeat constructor]. intros x y Hx ->%list_elem_of_singleton. by apply Hlt.
  - intros d s Hd. unfold history. rewrite seqs_snoc, app_assoc. destruct (String.eqb_spec (or_Domain out) d) as [<-|Hne].
    + intros [Hin| ->%list_elem_of_singleton]%elem_of_app; exists out; rewrite lookup_insert_eq; (split; [done|]); [apply Z.lt_le_incl; by apply Hlt|lia].
    + rewrite app_nil_r, lookup_insert_ne by done. by apply Hf.
  - intros d s [[<- <-]|[Hne Hd]]%lookup_insert_Some.
    + split; [done|]. exists out. rewrite lookup_insert_eq. split; [done|lia].
    + rewrite lookup_insert_ne by done. by apply Hi.
  - intros o [Ho| ->%list_elem_of_singleton]%elem_of_app; [by apply Ht|done].
Qed.

Lemma pending_tail disk t ts w : pending disk (t :: ts) -> pending (<[or_Domain (bt_output t) := w]> disk) ts.
Proof.
  intros [Hnd Ht]. cbn in Hnd. apply NoDup_cons in Hnd as [Hd Hnd]. split; [done|]. intros t' Ht'. destruct (Ht t' ltac:(by right)) as [Htr Ho]. split; [done|].
  intros o. rewrite lookup_insert_ne; [apply Ho|]. intros He. apply Hd. apply list_elem_of_fmap. exists t'. by rewrite He.
Qed.

Lemma emitTrees_seq disk0 ts w : seq_inv disk0 w -> pending (wd_disk w) ts -> seq_inv disk0 (fst (emitTrees cfg ts w)).
Proof using Hout.
  revert w. induction ts as [|t ts IH]; intros w Hw Hp; cbn [emitTrees]; [done|]. destruct (mc_validate cfg && _); [done|].
  unfold emitArtifact. destruct (String.eqb_spec (mc_outDir cfg) "") as [|_]; [done|]. destruct (wd_writes w) as [|[] writes] eqn:Ew; cbn [negb fst].
  - destruct Hw as [A B1 C D]. by split; upd_simpl.
  - apply IH.
    + upd_simpl. destruct Hp as [_ Hp]. destruct (Hp t ltac:(left)) as [Htr Ho]. by apply (emit_seq disk0 w (bt_output t) writes).
    + upd_simpl. by apply pending_tail.
  - destruct Hw as [A B1 C D]. by split; upd_simpl.
Qed.

(** Anything that leaves the tree artifacts, the issued sequences and the log alone. *)
Lemma seq_inv_frame disk0 w w' :
  seq_inv disk0 w -> wd_emitted w' = wd_emitted w -> wd_issued w' ⊆ wd_issued w -> (forall d, tree d -> wd_disk w' !! d = wd_disk w !! d) -> seq_inv disk0 w'.
Proof.
  intros [A B1 C D] He Hi Hd. split; rewrite ?He; try done.
  - intros d s Ht Hs. rewrite Hd by done. by apply B1.
  - intros d s Hs. destruct (C d s) as (Ht & Ho); [by eapply lookup_weaken|]. split; [done|]. by rewrite Hd.
Qed.

Lemma publishTrees_frame ttls ts w :
  (forall t, t ∈ ts -> tree (or_Domain (bt_output t))) ->
  let w' := fst (publishTrees ttls (mc_outDir cfg) ts w) in
  wd_emitted w' = wd_emitted w /\ wd_issued w' = wd_issued w /\ forall d, tree d -> wd_disk w' !! d = wd_disk w !! d.
Proof using Hn.
  revert w. induction ts as [|t ts IH]; intros w Ht; cbn [publishTrees]; [done|]. destruct (sy_err _); [cbn [fst]; by upd_simpl|].
  unfold emitArtifact. upd_simpl. destruct (wd_writes w) as [|[] writes] eqn:Ew; cbn [negb fst]; [by upd_simpl| |by upd_simpl].
  set (w1 := _ <| wd_disk := _ |>). destruct (IH w1) as (A & B1 & C); [intros t' Ht'; apply Ht; by right|]. rewrite A, B1. unfold w1. upd_simpl. split_and!; [done|done|].
  intros d Hd. rewrite C by done. unfold w1. upd_simpl. destruct (mc_outDir cfg =? "")%string; [done|]. apply lookup_insert_ne.
  intros He. symmetry in He. revert He. apply published_not_tree with cfg; [done|done|]. apply Ht. left.
Qed.

Lemma publishNetwork_seq disk0 ts w : seq_inv disk0 w -> (forall t, t ∈ ts -> tree (or_Domain (bt_output t))) -> seq_inv disk0 (fst (publishNetwork cfg ts w)).
Proof using Hn.
  intros Hw Ht. unfold publishNetwork. destruct (mc_publisher cfg) as [ttls|]; [|done]. destruct (publishTrees_frame ttls ts w Ht) as (A & B1 & C).
  eapply seq_inv_frame; [exact Hw|done|by rewrite B1|done].
Qed.

(** The trees that [buildNetworkTrees] hands on: one for each capability, under its domain. *)
Lemma built_domains disk issued rows network generatedAt evaluatedAt ts :
  network ∈ mc_networks cfg -> buildNetworkTrees registry rows network generatedAt evaluatedAt cfg disk issued = Trees ts ->
  NoDup ((fun t => or_Domain (bt_output t)) <$> ts) /\
  forall t, t ∈ ts -> tree (or_Domain (bt_output t)) /\
    exists cap, capabilityTree registry cfg disk issued (cycleOf registry cfg rows network generatedAt evaluatedAt) cap = Trees [t].
Proof.
  intros Hnet Hb. unfold buildNetworkTrees in Hb. apply capabilityTrees_trees in Hb. set (cy := cycleOf _ _ _ _ _ _) in *.
  assert (forall cap t, capabilityTree registry cfg disk issued cy cap = Trees [t] -> or_Domain (bt_output t) = treeDomain cfg cap network) as Hdom.
  { intros cap t Hc. destruct (capabilityTree_trees _ _ _ _ _ _ _ Hc) as (t' & bl & [= <-] & _ & Hf & _). by rewrite (bf_domain _ _ _ _ _ _ _ Hf). }
  split.
  - assert ((fun t => or_Domain (bt_output t)) <$> ts = (fun c => treeDomain cfg c network) <$> capabilitiesOf (so_layer (mc_sel cfg))) as ->.
    { induction Hb as [|c t caps ts Hc Hb IH]; [done|]. cbn. by rewrite (Hdom c t Hc), IH. }
    unfold capabilitiesOf. destruct (negb _); [|apply NoDup_singleton]. apply NoDup_cons. split; [|apply NoDup_singleton]. intros Hin%list_elem_of_singleton. done.
  - intros t [i Hi]%list_elem_of_lookup_1. destruct (Forall2_lookup_r _ _ _ _ _ Hb Hi) as (c & Hc & Ht). split; [|by exists c].
    rewrite (Hdom c t Ht). apply elem_of_treeDomains. exists network, c. split_and!; [done| |done]. by eapply list_elem_of_lookup_2.
Qed.

Lemma built_pending disk0 w rows network generatedAt evaluatedAt ts :
  seq_inv disk0 w -> network ∈ mc_networks cfg ->
  buildNetworkTrees registry rows network generatedAt evaluatedAt cfg (wd_disk w) (wd_issued w) = Trees ts -> pending (wd_disk w) ts.
Proof using Hout.
  intros Hw Hnet Hb. destruct (built_domains _ _ _ _ _ _ _ Hnet Hb) as [Hnd Hall]. split; [done|]. intros t Ht. destruct (Hall t Ht) as (Htr & cap & Hc). split; [done|].
  destruct (capabilityTree_trees _ _ _ _ _ _ _ Hc) as (t' & bl & [= <-] & Hbl & Hf & _). change (cy_network _) with network in *.
  change (cy_generatedAt _) with generatedAt in *.
  rewrite (bf_domain _ _ _ _ _ _ _ Hf), (bf_seq _ _ _ _ _ _ _ Hf). intros o Ho.
  destruct (baselinesFor_ok _ _ _ _ _ _ Hout Hbl) as [[[Hd _]|(o' & Hd & Hs & Hle)] _]; [congruence|]. assert (o' = o) as -> by congruence. rewrite Hs.
  set (prev := Z.max (or_Seq o) _). assert (or_Seq o <= prev <= Z.max (or_Seq o) 0) as Hprev.
  { unfold prev. destruct (wd_issued w !! treeDomain cfg cap network) as [s|] eqn:Ei; cbn; [|lia].
    destruct (si_issued _ _ Hw _ _ Ei) as (_ & o2 & Ho2 & Hle2). assert (o2 = o) as -> by congruence. lia. }
  assert (0 <= prev \/ prev < 0) as [H0|H0] by lia.
  - eapply Z.le_lt_trans; [apply Hprev|]. apply treeSequence_grows. unfold max_uint64. assert (2 ^ 40 < 18446744073709551615) by done. lia.
  - assert (0 <= treeSequence generatedAt prev); [|lia]. unfold treeSequence. destruct (_ <=? prev); apply wrapU64_range.
Qed.

(** A property of the world that every network of the configuration keeps, a cycle keeps. *)
Lemma networkCycles_ind (Q : World Zn -> Prop) layout m get evaluatedAt w :
  (forall n w, n ∈ mc_networks cfg -> Q w -> Q (fst (networkCycle registry cfg layout m get evaluatedAt n w))) ->
  Q w -> Q (fst (networkCycles registry cfg layout m get evaluatedAt (mc_networks cfg) w)).
Proof.
  intros Hstep. assert (forall nets w, (forall n, n ∈ nets -> n ∈ mc_networks cfg) -> Q w -> Q (fst (networkCycles registry cfg layout m get evaluatedAt nets w))) as Hnets; [|by apply Hnets].
  clear w. induction nets as [|n nets IH]; intros w Hsub Hw; cbn [networkCycles]; [done|].
  pose proof (Hstep n w ltac:(apply Hsub; left) Hw) as H1. destruct (networkCycle _ _ _ _ _ _ _ _) as [w' [e|]]; cbn [fst] in *; [done|].
  apply IH; [|done]. intros n' Hn'. apply Hsub. by right.
Qed.

Lemma networkCycle_seq disk0 layout m get evaluatedAt network w :
  network ∈ mc_networks cfg -> seq_inv disk0 w -> seq_inv disk0 (fst (networkCycle registry cfg layout m get evaluatedAt network w)).
Proof using Hout Hn.
  intros Hnet Hw. unfold networkCycle. destruct (LoadNetworkRows _ _ _ _) as [rows|]; [|done]. destruct (buildNetworkTrees _ _ _ _ _ _ _ _) as [ts| |] eqn:Hb; [|done..].
  pose proof (built_pending _ _ _ _ _ _ _ Hw Hnet Hb) as Hp. pose proof (emitTrees_seq disk0 ts w Hw Hp) as He. destruct (emitTrees cfg ts w) as [w' [e|]]; cbn [fst] in *; [done|].
  apply publishNetwork_seq; [done|]. intros t Ht. by apply Hp.
Qed.

Lemma event_seq disk0 layout e w : seq_inv disk0 w -> seq_inv disk0 (event registry cfg layout e w).
Proof using Hout Hn.
  intros Hw. destruct e as [i|]; cbn [event].
  - unfold publish. destruct (Read layout _) as [| |m]; try done. destruct (_ && _); [done|].
    apply networkCycles_ind; [|done]. intros. by apply networkCycle_seq.
  - eapply seq_inv_frame; [exact Hw|by upd_simpl| |by intros; upd_simpl]. upd_simpl. apply map_empty_subseteq.
Qed.
End Runs.

(** C24.  Whatever fails and however often the process restarts, the artifacts written for a
    domain carry strictly increasing sequences, beyond the one found there first. *)
Theorem sequences_increase registry `{EnodeCodec} `{EntryLoads} `{TreeLib} `{URLParser} `{ManifestCodec} `{RowCodec} `{ProviderOps R Zn B} cfg layout es (w : World Zn) d :
  mc_outDir cfg <> "" -> names_ok cfg -> wd_emitted w = [] -> wd_issued w = ∅ -> d ∈ treeDomains cfg ->
  StronglySorted Z.lt (history (wd_disk w) d (wd_emitted (runMultiTree registry cfg layout es w))).
Proof.
  intros Ho Hn He Hi Hd. assert (seq_inv cfg (wd_disk w) w) as Hw.
  { split.
    - intros d'. unfold history. rewrite He. cbn. rewrite app_nil_r. destruct (wd_disk w !! d') as [[o|]|]; repeat constructor.
    - intros d' s _. unfold history. rewrite He. cbn. rewrite app_nil_r. destruct (wd_disk w !! d') as [[o|]|] eqn:E; try (intros Hs; by apply not_elem_of_nil in Hs).
      intros ->%list_elem_of_singleton. exists o. split; [done|lia].
    - intros d' s. by rewrite Hi, lookup_empty.
    - intros o. rewrite He. intros Hx. by apply not_elem_of_nil in Hx. }
  assert (forall es w', seq_inv cfg (wd_disk w) w' -> seq_inv cfg (wd_disk w) (runMultiTree registry cfg layout es w')) as Hrun.
  { clear -Ho Hn. unfold runMultiTree. induction es as [|e es IH]; intros w' Hw'; cbn; [done|]. apply IH. by apply event_seq. }
  apply (si_sorted _ _ _ (Hrun es w Hw)).
Qed.

(** The zone across whole runs: through every failure the root a resolver reads leads
    to a complete tree, and the published generation stays until the next one is up. *)

(** The records that [dnsdisc] makes for a domain. *)
Definition genuine `{TreeLib} (d : string) (recs : list (string * string)) : Prop :=
  exists seq nodes key url sig, makeSigned seq nodes key d = Ok (url, sig, recs).

(** What is relied on of [dnsdisc]: plain records at and below the domain, a root, and
    below it names that are hashes of their texts. *)
Class TreeLibOk `{TreeLib} : Prop := {
  genuine_want : forall d recs, genuine d recs -> want_ok d recs;
  genuine_root : forall d recs, genuine d recs -> is_Some (wantedOf recs !! dnsKey d);
  genuine_content : forall d recs recs' n c c', genuine d recs -> genuine d recs' -> n <> dnsKey d ->
    wantedOf recs !! n = Some c -> wantedOf recs' !! n = Some c' -> c = c'
}.

Section Zones.
Context `{TL : TreeLib} `{TO : !TreeLibOk} `{O : ProviderOps R Zn B} `{PV : !Provider R Zn B}.

Definition text_at (z : Zn) (n : string) : option string := fst <$> at_name z n.

(** All entries of a tree below its root are in the zone. *)
Definition carries (z : Zn) (d : string) (recs : list (string * string)) : Prop :=
  forall n c, n <> dnsKey d -> wantedOf recs !! n = Some c -> text_at z n = Some c.

(** The domain serves no tree, or one that a resolver can walk from its root. *)
Definition served (z : Zn) (d : string) : Prop :=
  text_at z (dnsKey d) = None \/
  exists recs, genuine d recs /\ text_at z (dnsKey d) = wantedOf recs !! dnsKey d /\ carries z d recs.

Lemma wantedOf_retains P n c : wantedOf P !! n = Some c -> retains (Some P) n = true.
Proof. intros (m & Hm & <-)%wantedOf_from. cbn. apply bool_decide_eq_true, list_elem_of_fmap. by exists (m, c). Qed.

Lemma records_at (z z' : Zn) n : records z' !! n = records z !! n -> text_at z' n = text_at z n.
Proof. intros H. unfold text_at, at_name. by rewrite H. Qed.

(** A text of a tree of the domain stays, or its record is deleted. *)
Lemma safe_text t d want retain z z' recs n c :
  safe_zone t d want retain z z' -> genuine d want -> genuine d recs -> n <> dnsKey d -> wantedOf recs !! n = Some c -> text_at z n = Some c ->
  text_at z' n = Some c \/ (is_Some (records z !! n) /\ records z' !! n = None /\ retains retain n = false).
Proof using TO.
  intros Hs Hw Hg Hne Hc Hz. destruct (sz_texts _ _ _ _ _ _ Hs n) as [Hr|Ht]; [left; by rewrite (records_at z z')|].
  unfold target in Ht. destruct (wantedOf want !! n) as [c'|] eqn:Hc'.
  - left. unfold text_at. rewrite Ht. cbn. f_equal. by apply (genuine_content d want recs n).
  - destruct (inDomain d n && negb (retains retain n)) eqn:Hd; [|left; unfold text_at; by rewrite Ht].
    apply andb_true_iff in Hd as [_ Hr%negb_true_iff]. right. split_and!; [| |done].
    + unfold text_at, at_name in Hz. destruct (records z !! n); [done|]. done.
    + unfold at_name in Ht. by destruct (records z' !! n).
Qed.

(** What one reconcile does to its domain, at every zone on the way. *)
Lemma sync_served t env z z' d want retain :
  zone_ok z -> genuine d want -> z' ∈ rn_trace (sy_run (Sync t env z d want retain)) ->
  (served z d -> served z' d) /\ (forall P0, retain = Some P0 -> genuine d P0 -> carries z d P0 -> carries z' d P0).
Proof using TO PV.
  intros Hz Hw Hz'. pose proof (Sync_safe_facts t d want retain (genuine_want d want Hw) env z z' Hz Hz') as Hs. split.
  - intros Hsv. assert (text_at z' (dnsKey d) = wantedOf want !! dnsKey d -> (forall n c, n <> dnsKey d -> wantedOf want !! n = Some c -> at_name z' n = Some (c, forName t n d)) -> served z' d) as Hnew.
    { intros Hr Hall. right. exists want. split_and!; [done|done|]. intros n c Hn Hc. unfold text_at. by rewrite (Hall n c Hn Hc). }
    assert (forall n, is_Some (records z !! n) -> records z' !! n = None -> served z' d) as Hdel.
    { intros n Hn Hgone. pose proof (sz_pruned _ _ _ _ _ _ Hs n Hn Hgone) as Hall. apply Hnew; [|intros m c _; apply Hall].
      destruct (genuine_root d want Hw) as [c Hc]. unfold text_at. by rewrite (Hall _ _ Hc), Hc. }
    assert (text_at z' (dnsKey d) = text_at z (dnsKey d) -> served z' d) as Hold.
    { intros Hr. destruct Hsv as [Hn|(recs & Hg & Hroot & Hc)]; [left; by rewrite Hr|].
      destruct (decide (dom (D := gset string) (records z) ⊆ dom (records z'))) as [Hsub|Hsub].
      - right. exists recs. split_and!; [done|by rewrite Hr|]. intros n c Hn Hcn.
        destruct (safe_text t d want retain z z' recs n c) as [|(Hi & Hgone & _)]; try done; [by apply Hc|].
        exfalso. apply elem_of_dom in Hi. apply Hsub, elem_of_dom in Hi as [r Hi]. congruence.
      - destruct (decide (dom (D := gset string) (records z) ∖ dom (records z') = ∅)) as [He|He]; [exfalso; apply Hsub; set_solver|].
        apply set_choose_L in He as [n [Hn1 Hn2]%elem_of_difference]. apply elem_of_dom in Hn1. apply not_elem_of_dom in Hn2. by apply (Hdel n). }
    destruct (sz_root _ _ _ _ _ _ Hs) as [Hr|Hall]; [apply Hold; unfold text_at; by rewrite Hr|].
    destruct (sz_texts _ _ _ _ _ _ Hs (dnsKey d)) as [Hr|Ht]; [apply Hold; by apply records_at|]. apply Hnew; [|done].
    destruct (genuine_root d want Hw) as [c Hc]. unfold text_at. rewrite Ht. unfold target. by rewrite Hc.
  - intros P0 -> HP Hc n c Hn Hcn. destruct (safe_text t d want (Some P0) z z' P0 n c) as [|(_ & _ & Hr)]; try done; [by apply Hc|].
    by rewrite (wantedOf_retains P0 n c) in Hr.
Qed.

Lemma sync_elsewhere t env z z' d d' want retain :
  zone_ok z -> genuine d want -> z' ∈ rn_trace (sy_run (Sync t env z d want retain)) -> (forall n, inDomain d' n = true -> inDomain d n = false) ->
  (served z d' -> served z' d') /\ (forall P0, genuine d' P0 -> carries z d' P0 -> carries z' d' P0).
Proof using TO PV.
  intros Hz Hw Hz' Hap. pose proof (Sync_safe_facts t d want retain (genuine_want d want Hw) env z z' Hz Hz') as Hs.
  assert (forall n, inDomain d' n = true -> text_at z' n = text_at z n) as Heq by (intros n Hn; by apply records_at, (sz_outside _ _ _ _ _ _ Hs), Hap).
  assert (forall P0, genuine d' P0 -> carries z d' P0 -> carries z' d' P0) as Hcar.
  { intros P0 HP Hc n c Hn Hcn. rewrite Heq; [by apply Hc|]. by apply (wanted_ok d' P0 (genuine_want d' P0 HP) n c). }
  split; [|done]. intros [Hnone|(recs & Hg & Hr & Hc)]; [left|right].
  - rewrite Heq; [done|]. unfold inDomain. by rewrite String.eqb_refl.
  - exists recs. split_and!; [done| |by apply Hcar]. rewrite Heq; [done|]. unfold inDomain. by rewrite String.eqb_refl.
Qed.

Lemma sync_zone_ok t env z z' d want retain : zone_ok z -> genuine d want -> z' ∈ rn_trace (sy_run (Sync t env z d want retain)) -> zone_ok z'.
Proof using TO PV. intros Hz Hw Hz'. destruct (Sync_stages t d want retain (genuine_want d want Hw) env z z' Hz Hz') as (es & (Hok & _) & _). done. Qed.
End Zones.

(** * Runs *)

Section Runs.
Context (registry : list Network) `{EC : EnodeCodec} `{EL : EntryLoads} `{TL : TreeLib} `{TO : !TreeLibOk}.
Context `{Hurl : URLParser} `{Hcodec : ManifestCodec} `{Hrows : RowCodec} `{O : ProviderOps R Zn B} `{PV : !Provider R Zn B}.
Context (cfg : multiConfig) (ttls : recordTTLs) (Hout : mc_outDir cfg <> "") (Hn : names_ok cfg) (Hpub : mc_publisher cfg = Some ttls).

#[local] Abbreviation tree d := (d ∈ treeDomains cfg).

(** The zone serves complete trees, and what is recorded as published is in it. *)
Record zone_inv (w : World Zn) : Prop := {
  zi_ok : zone_ok (wd_zone w);
  zi_served : forall d, tree d -> served (wd_zone w) d;
  zi_published : forall d o, tree d -> wd_disk w !! (d +:+ publishedSuffix) = Some (Artifact o) -> genuine d (or_Records o) /\ carries (wd_zone w) d (or_Records o);
  zi_zones : forall z d, z ∈ wd_zones w -> tree d -> served z d
}.

(** Trees about to be pushed: distinct domains, genuine records, and the published
    generation as what they retain. *)
Definition ready (disk : gmap string File) (ts : list builtTree) : Prop :=
  NoDup ((fun t => or_Domain (bt_output t)) <$> ts) /\
  forall t, t ∈ ts -> let d := or_Domain (bt_output t) in
    tree d /\ genuine d (or_Records (bt_output t)) /\
    (disk !! (d +:+ publishedSuffix) = None /\ bt_retain t = None \/
     exists o, disk !! (d +:+ publishedSuffix) = Some (Artifact o) /\ bt_retain t = Some (or_Records o)).

Lemma ready_frame disk disk' ts : (forall t, t ∈ ts -> disk' !! (or_Domain (bt_output t) +:+ publishedSuffix) = disk !! (or_Domain (bt_output t) +:+ publishedSuffix)) -> ready disk ts -> ready disk' ts.
Proof. intros Hd [Hnd Ht]. split; [done|]. intros t Hin. cbv zeta. rewrite (Hd t Hin). by apply Ht. Qed.

Lemma ready_tail disk t ts f : ready disk (t :: ts) -> ready (<[or_Domain (bt_output t) +:+ publishedSuffix := f]> disk) ts.
Proof.
  intros [Hnd Ht]. cbn in Hnd. apply NoDup_cons in Hnd as [Hd Hnd]. apply (ready_frame disk); [|split; [done|intros t' Ht'; apply Ht; by right]].
  intros t' Ht'. apply lookup_insert_ne. intros He%suffix_inj. apply Hd. apply list_elem_of_fmap. by exists t'.
Qed.

(** The zones of one reconcile, for every domain of the configuration. *)
Lemma sync_zones w t env z' :
  zone_inv w -> ready (wd_disk w) [t] ->
  z' ∈ rn_trace (sy_run (Sync ttls env (wd_zone w) (or_Domain (bt_output t)) (or_Records (bt_output t)) (bt_retain t))) ->
  zone_ok z' /\ (forall d, tree d -> served z' d) /\
  (forall d o, tree d -> wd_disk w !! (d +:+ publishedSuffix) = Some (Artifact o) -> genuine d (or_Records o) /\ carries z' d (or_Records o)).
Proof using TO PV Hn.
  intros Hw [_ Ht] Hz'. destruct (Ht t ltac:(left)) as (Htree & Hg & Hret). set (d0 := or_Domain (bt_output t)) in *.
  pose proof (zi_ok _ Hw) as Hok. split; [by eapply sync_zone_ok|].
  assert (forall d, tree d -> d <> d0 -> forall n, inDomain d n = true -> inDomain d0 n = false) as Hap by (intros d Hd Hne n; by apply (domains_apart cfg)).
  split.
  - intros d Hd. destruct (decide (d = d0)) as [->|Hne]; [by apply (sync_served _ _ _ _ _ _ _ Hok Hg Hz'), (zi_served _ Hw)|].
    apply (sync_elsewhere _ _ _ _ d0 d _ _ Hok Hg Hz'); [by apply Hap|]. by apply (zi_served _ Hw).
  - intros d o Hd Ho. destruct (zi_published _ Hw d o Hd Ho) as [Hgo Hco]. split; [done|]. destruct (decide (d = d0)) as [->|Hne].
    + destruct Hret as [[Hnone _]|(o' & Ho' & Hr)]; [congruence|]. assert (o' = o) as -> by congruence.
      by apply (sync_served _ _ _ _ _ _ _ Hok Hg Hz').
    + by apply (sync_elsewhere _ _ _ _ d0 d _ _ Hok Hg Hz'); [apply Hap|..].
Qed.

Lemma publishTrees_zone ts w : zone_inv w -> ready (wd_disk w) ts -> zone_inv (fst (publishTrees ttls (mc_outDir cfg) ts w)).
Proof using TO PV Hn Hout.
  revert w. induction ts as [|t ts IH]; intros w Hw Hr; cbn [publishTrees]; [done|].
  assert (ready (wd_disk w) [t]) as Hr1. { destruct Hr as [_ Ht]. split; [apply NoDup_singleton|]. intros t' ->%list_elem_of_singleton. apply Ht. left. }
  set (s := Sync _ _ _ _ _ _). pose proof (fun z' => sync_zones w t (hd noEnv (wd_syncs w)) z' Hw Hr1) as Hz. fold s in Hz.
  destruct (Hz (rn_zone (sy_run s)) ltac:(apply Sync_last)) as (Hok & Hsv & Hpb).
  set (w1 := w <| wd_syncs := _ |> <| wd_zone := _ |> <| wd_zones := _ |>).
  assert (zone_inv w1) as Hw1.
  { split; unfold w1; upd_simpl; [done|done|done|]. intros z d [Hin|Hin]%elem_of_app Hd; [by apply (zi_zones _ Hw)|by apply (Hz z)]. }
  destruct (sy_err s) as [e|] eqn:Ee; [done|]. unfold emitArtifact. destruct (String.eqb_spec (mc_outDir cfg) "") as [|_]; [done|].
  destruct (Hr1) as [_ Ht1]. destruct (Ht1 t ltac:(left)) as (Htree & Hg & _).
  destruct (wd_writes w1) as [|[] writes] eqn:Ew; cbn [negb fst].
  - destruct Hw1 as [A B1 C D]. by split; upd_simpl.
  - apply IH; [|upd_simpl; unfold w1; upd_simpl; by apply ready_tail]. destruct Hw1 as [A B1 C D]. split; upd_simpl; [done|done| |done].
    intros d o Hd [[He Ho]|[_ Ho]]%lookup_insert_Some; [|by apply C]. apply suffix_inj in He. injection Ho as <-. subst d. split; [done|].
    intros n c Hne Hc. unfold text_at, w1. upd_simpl. unfold s in Ee |- *. by rewrite (Sync_wanted ttls _ _ _ (genuine_want _ _ Hg) _ _ n c (zi_ok _ Hw) Ee Hc).
  - destruct Hw1 as [A B1 C D]. by split; upd_simpl.
Qed.

Lemma emitTrees_zone ts w :
  zone_inv w -> (forall t, t ∈ ts -> tree (or_Domain (bt_output t))) ->
  let w' := fst (emitTrees cfg ts w) in
  zone_inv w' /\ forall d, tree d -> wd_disk w' !! (d +:+ publishedSuffix) = wd_disk w !! (d +:+ publishedSuffix).
Proof using Hn.
  revert w. induction ts as [|t ts IH]; intros w Hw Ht; cbn [emitTrees]; [done|]. destruct (mc_validate cfg && _); [done|].
  assert (forall disk writes issued emitted, (forall d, tree d -> disk !! (d +:+ publishedSuffix) = wd_disk w !! (d +:+ publishedSuffix)) ->
    zone_inv (w <| wd_writes := writes |> <| wd_disk := disk |> <| wd_issued := issued |> <| wd_emitted := emitted |>)) as Hframe.
  { intros disk writes issued emitted Hd. destruct Hw as [A B1 C D]. split; upd_simpl; [done|done| |done]. intros d o Htr. rewrite Hd by done. by apply C. }
  unfold emitArtifact. destruct (wd_writes w) as [|[] writes] eqn:Ew; cbn [negb fst].
  - split; [|by upd_simpl]. destruct Hw as [A B1 C D]. by split; upd_simpl.
  - set (disk := if (mc_outDir cfg =? "")%string then _ else _).
    assert (forall d, tree d -> disk !! (d +:+ publishedSuffix) = wd_disk w !! (d +:+ publishedSuffix)) as Hd.
    { intros d Hd. unfold disk. destruct (mc_outDir cfg =? "")%string; [done|]. apply lookup_insert_ne. apply published_not_tree with cfg; [done|apply Ht; left|done]. }
    upd_simpl. destruct (IH (w <| wd_writes := writes |> <| wd_disk := disk |> <| wd_issued := <[or_Domain (bt_output t):=or_Seq (bt_output t)]> (wd_issued w) |> <| wd_emitted := wd_emitted w ++ [bt_output t] |>)) as [H1 H2]; [by apply Hframe|intros t' Ht'; apply Ht; by right|].
    split; [exact H1|]. intros d Htr. rewrite H2 by done. upd_simpl. by apply Hd.
  - split; [|by upd_simpl]. destruct Hw as [A B1 C D]. by split; upd_simpl.
Qed.

Lemma built_ready disk issued rows network generatedAt evaluatedAt ts :
  network ∈ mc_networks cfg -> buildNetworkTrees registry rows network generatedAt evaluatedAt cfg disk issued = Trees ts -> ready disk ts.
Proof using Hout Hpub.
  intros Hnet Hb. destruct (built_domains registry cfg disk issued rows network generatedAt evaluatedAt ts Hnet Hb) as [Hnd Hall]. split; [done|].
  intros t Ht. cbv zeta. destruct (Hall t Ht) as (Htr & cap & Hc). split; [done|].
  destruct (capabilityTree_trees _ _ _ _ _ _ _ Hc) as (t' & bl & [= <-] & Hbl & Hf & Hr & _). rewrite (bf_domain _ _ _ _ _ _ _ Hf).
  destruct (bf_picked _ _ _ _ _ _ _ Hf) as (picked & url & sig & _ & Hm & _). split; [by repeat eexists|]. rewrite Hr.
  destruct (baselinesFor_ok _ _ _ _ _ _ Hout Hbl) as [_ Hret]. destruct Hret as [?|(o & ? & ? & _)]; [by rewrite Hpub|by left|right; by exists o].
Qed.

Lemma networkCycle_zone layout m get evaluatedAt network w :
  network ∈ mc_networks cfg -> zone_inv w -> zone_inv (fst (networkCycle registry cfg layout m get evaluatedAt network w)).
Proof using TO PV Hn Hout Hpub.
  intros Hnet Hw. unfold networkCycle. destruct (LoadNetworkRows _ _ _ _) as [rows|]; [|done]. destruct (buildNetworkTrees _ _ _ _ _ _ _ _) as [ts| |] eqn:Hb; [|done..].
  pose proof (built_ready _ _ _ _ _ _ _ Hnet Hb) as Hr. destruct (emitTrees_zone ts w Hw) as [Hw1 Hd]; [intros t Ht; by apply Hr|].
  destruct (emitTrees cfg ts w) as [w' [e|]]; cbn [fst] in *; [done|]. unfold publishNetwork. rewrite Hpub. apply publishTrees_zone; [done|].
  apply (ready_frame (wd_disk w)); [|done]. intros t Ht. apply Hd. by apply Hr.
Qed.

Lemma event_zone layout e w : zone_inv w -> zone_inv (event registry cfg layout e w).
Proof using TO PV Hn Hout Hpub.
  intros Hw. destruct e as [i|]; cbn [event]; [|destruct Hw as [A B1 C D]; by split; upd_simpl].
  unfold publish. destruct (Read layout _) as [| |m]; try done. destruct (_ && _); [done|]. cbn [fst].
  apply (networkCycles_ind registry cfg zone_inv); [|done]. intros. by apply networkCycle_zone.
Qed.
End Runs.

(** C6.  Through any run of cycles and restarts, whatever requests, waits and writes fail:
    every zone a resolver can read serves, for each domain, no tree or a complete one;
    and the entries of the generation recorded as published are in the zone. *)
Theorem zone_always_walkable registry `{EnodeCodec} `{EntryLoads} `{TL : TreeLib} `{!TreeLibOk} `{URLParser} `{ManifestCodec} `{RowCodec} `{O : ProviderOps R Zn B} `{!Provider R Zn B}
    cfg ttls layout es (w : World Zn) :
  mc_outDir cfg <> "" -> names_ok cfg -> mc_publisher cfg = Some ttls -> zone_inv cfg w ->
  let w' := runMultiTree registry cfg layout es w in
  (forall z d, z ∈ wd_zones w' -> d ∈ treeDomains cfg -> served z d) /\
  (forall d o, d ∈ treeDomains cfg -> wd_disk w' !! (d +:+ publishedSuffix) = Some (Artifact o) -> carries (wd_zone w') d (or_Records o)).
Proof.
  intros Ho Hn Hp Hw. assert (forall es w', zone_inv cfg w' -> zone_inv cfg (runMultiTree registry cfg layout es w')) as Hrun.
  { intros es'. unfold runMultiTree. induction es' as [|e es' IH]; intros w' Hw'; cbn; [done|]. apply IH. by eapply event_zone. }
  destruct (Hrun es w Hw) as [A B1 C D]. split; [done|]. intros d o Hd Hdo. by apply (C d o Hd Hdo).
Qed.
