(* ===== verification/DnsDemo.v ===== *)
(** A concrete DNS publisher: one network with a fork near, two execution records of
    which one schedules it, a Route53 zone; the theorems on trees, cycles and zones at
    the runs it makes. *)

From stdpp Require Import base gmap strings list numbers sorting.
From Stdlib Require Import ZArith Lia Ascii.
From S2P Require Import Prelude GoLib Text Hashes Counting Consensus ForkId Network Readiness NetIP NodeData Nodeset Eviction Clientname Releases Snapshot Publisher PublisherRaces DnsSync DnsSyncProps DnsProviders DnsSelect DnsShares DnsSelectProps DnsTree DnsCycles.
From stdpp Require Import list sorting.
#[local] Open Scope Z_scope.

#[local] Existing Instances demoURL Route53.r53Ops Route53.r53Provider.

(** * Rows and records *)

Definition dnsRegistry : list Network := [load demoNetwork].
Definition dnsNow : Time := time_Unix 1789990000.
Definition dnsHash : string := fid_Hash (forkIDAt (load demoNetwork) 1789990000).

Definition dnsRow (i : Z) (enr client : string) (next : Z) : Row :=
  row ((demoNode i 5 "demo") <| n_ENR := enr |> <| n_ForkHash := hex_encode dnsHash |> <| n_ForkNext := next |>
    <| n_LastSeen := time_Unix 1789989000 |> <| n_Client := client |> <| n_fpDone := true |>).
Definition dnsENode (i : Z) (text : string) (next : Z) : ENode :=
  MkENode (be_put 32 i) 1 "" text (Some (of_bytes [8; 8; 8; 8])) None (Some 30303) (Some 30303) None None None None
    (Some (ForkID dnsHash next)) None None None None.

(** The first schedules the fork that is near; the second does not yet. *)
Definition dnsRows : list Row := [dnsRow 1 "enr:a" "geth" 1790000000; dnsRow 2 "enr:b" "reth" 0].
Definition dnsData : string := "PAR1 two rows PAR1".

#[local] Instance dnsEnodes : EnodeCodec := {
  parseENR s := if (s =? "enr:a")%string then Some (dnsENode 1 s 1790000000) else if (s =? "enr:b")%string then Some (dnsENode 2 s 0) else None;
  ParseV4 _ := None }.
#[local] Instance dnsEntries : EntryLoads := { loadEntry n key := if (key =? "ip6")%string then Absent else Decoded }.
#[local] Instance dnsRowCodec : RowCodec := {
  ParquetFromRows _ := None;
  ParquetRead data := if (data =? dnsData)%string then Some dnsRows else None }.

Definition dnsGenerated : Time := time_Unix 1789989900.
Definition dnsEntry : NetworkSnapshot :=
  MkNetworkSnapshot (GenerationKey demoLayout "demo" dnsGenerated) 2 2 (hex_encode (sha256 dnsData)) (slen dnsData).
Definition dnsManifest : Manifest := MkManifest SchemaVersion dnsGenerated "crawler-1" demoRun {["demo" := dnsEntry]} None.
#[local] Instance dnsManifests : ManifestCodec := {
  UnmarshalManifest s := if (s =? "manifest")%string then Some dnsManifest else None;
  MarshalManifest _ := None }.
Definition dnsGet (key : string) : Got string :=
  if (key =? ManifestKey demoLayout)%string then Found "manifest" else if (key =? sn_GenerationKey dnsEntry)%string then Found dnsData else NotFound.

(** * A tree library over these records *)

Definition dnsDomains : list string := ["all.demo.example.org"; "snap.demo.example.org"].
Definition dnsRecords (domain : string) (texts : list string) : list (string * string) :=
  (domain, "enrtree-root:v1 " +:+ sjoin "," texts) :: map (fun t => ((if (t =? "enr:a")%string then "AA." else "BB.") +:+ domain, t)) texts.
Definition dnsTexts : list (list string) := [["enr:a"]; ["enr:b"]; ["enr:a"; "enr:b"]].
#[local] Instance dnsTrees : TreeLib := {
  makeSigned seq nodes key domain :=
    let texts := en_Text <$> nodes in
    if bool_decide (domain ∈ dnsDomains) && bool_decide (texts ∈ dnsTexts)
    then Ok ("enrtree://" +:+ key +:+ "@" +:+ domain, "signature", dnsRecords domain texts) else Err "MakeTree";
  parseURL u := HasPrefix u "enrtree://" }.

Lemma dns_genuine d recs : genuine d recs -> d ∈ dnsDomains /\ exists texts, texts ∈ dnsTexts /\ recs = dnsRecords d texts.
Proof.
  intros (seq & nodes & key & url & sig & H). cbn in H. destruct (bool_decide (d ∈ dnsDomains)) eqn:E1; [|done]. destruct (bool_decide (_ ∈ dnsTexts)) eqn:E2; [|done].
  cbn in H. apply bool_decide_eq_true in E1, E2. split; [done|]. exists (en_Text <$> nodes). split; [done|]. by injection H.
Qed.

Ltac each H := repeat (apply elem_of_cons in H as [H|H]); try (by apply not_elem_of_nil in H); subst.

#[local] Instance dnsTreesOk : TreeLibOk.
Proof.
  split.
  - intros d recs (Hd & texts & Ht & ->)%dns_genuine m c Hm. each Hd; each Ht; cbv in Hm; each Hm; injection Hm as -> ->; by vm_compute.
  - intros d recs (Hd & texts & Ht & ->)%dns_genuine. each Hd; each Ht; vm_compute; by eexists.
  - intros d recs recs' n c c' (Hd & texts & Ht & ->)%dns_genuine (_ & texts' & Ht' & ->)%dns_genuine Hne (m & Hm & Hk)%wantedOf_from (m' & Hm' & Hk')%wantedOf_from.
    each Hd; each Ht; each Ht'; cbv in Hm, Hm'; each Hm; each Hm'; injection Hm as -> ->; injection Hm' as -> ->; try done; exfalso;
      (apply Hne; by rewrite <- Hk) || (apply Hne; by rewrite <- Hk') || (rewrite <- Hk in Hk'; by vm_compute in Hk').
Qed.

(** * A run *)

Definition dnsConfig : multiConfig :=
  MkConfig ["demo"] "example.org" "out" "key" (MkOpts 1 Hour "any" "el" "" 0 balanceProportional) (6 * Hour) Hour 1 50 true (Some defaultTTLs).
Definition dnsInput : Input := MkInput dnsGet dnsNow dnsNow.
Definition dnsStart : World Route53.Zone :=
  MkWorld ∅ {["mail.example.org" := Route53.MkSet ["v=spf1"] 60]} ∅ (replicate 20 true) [MkEnv true [Done; Lost] true; MkEnv true (replicate 5 Done) true; MkEnv true (replicate 5 Done) true; MkEnv true (replicate 5 Done) true] [] [].

(** The root write of the first cycle's all-tree is lost after it landed, so that network
    is left there; a restart later, the second cycle publishes both trees. *)
Definition dnsEvents : list Event := [Tick dnsInput; Restart; Tick dnsInput].
Definition dnsEnd : World Route53.Zone := runMultiTree dnsRegistry dnsConfig demoLayout dnsEvents dnsStart.

Example dns_run :
  (or_Domain <$> wd_emitted dnsEnd) = ["all.demo.example.org"; "snap.demo.example.org"; "all.demo.example.org"; "snap.demo.example.org"] /\
  (or_Seq <$> wd_emitted dnsEnd) = [1789989900; 1789989900; 1789989901; 1789989901] /\
  (or_Nodes <$> wd_emitted dnsEnd) = [1; 1; 1; 1] /\ length (wd_syncs dnsEnd) = 1%nat.
Proof. vm_compute. auto. Qed.

(** * Witnesses *)

Lemma dns_domains : treeDomains dnsConfig = dnsDomains.
Proof. vm_compute. reflexivity. Qed.

Lemma dns_names : names_ok dnsConfig.
Proof.
  split.
  - intros n H. each H. reflexivity.
  - split; [vm_compute; reflexivity|discriminate].
  - rewrite dns_domains. intros d d' H H'. each H; each H'; done.
Qed.

Lemma dns_zone_ok : zone_ok (wd_zone dnsStart).
Proof.
  assert (map_Forall (fun n (_ : Route53.r53RecordSet) => dnsKey n = n) (wd_zone dnsStart)) as H by (by apply (bool_decide_unpack _); vm_compute).
  intros n [s Hs]. exact (H n s Hs).
Qed.

Lemma dns_start : zone_inv dnsConfig dnsStart.
Proof.
  split.
  - exact dns_zone_ok.
  - rewrite dns_domains. intros d H. left. each H; vm_compute; reflexivity.
  - intros d o _ H. discriminate H.
  - intros z d H. by apply not_elem_of_nil in H.
Qed.

Lemma sequences_increase_witness :
  StronglySorted Z.lt (history ∅ "all.demo.example.org" (wd_emitted dnsEnd)) /\ length (history ∅ "all.demo.example.org" (wd_emitted dnsEnd)) = 2%nat.
Proof.
  split; [|vm_compute; reflexivity].
  apply (sequences_increase dnsRegistry dnsConfig demoLayout dnsEvents dnsStart); [discriminate|exact dns_names|reflexivity|reflexivity|].
  rewrite dns_domains. left.
Defined.

Lemma zone_always_walkable_witness :
  (forall z, z ∈ wd_zones dnsEnd -> served z "snap.demo.example.org") /\
  text_at (wd_zone dnsEnd) "all.demo.example.org" = Some "enrtree-root:v1 enr:a" /\ length (wd_zones dnsEnd) = 7%nat.
Proof.
  split; [|split; vm_compute; reflexivity].
  intros z Hz. apply (zone_always_walkable dnsRegistry dnsConfig defaultTTLs demoLayout dnsEvents dnsStart); [discriminate|exact dns_names|reflexivity|exact dns_start|exact Hz|].
  rewrite dns_domains. right. left.
Defined.

Definition dnsBuilt : Built := buildNetworkTrees dnsRegistry dnsRows "demo" dnsGenerated dnsNow dnsConfig ∅ ∅.


(** Six candidates for three places: one IPv6 record, and two clients and the unknown. *)
Definition dnsCand (i : nat) (client : string) (v6 : bool) : candidate :=
  MkCandidate (dnsRow 1 "enr:a" client 0) i (dnsENode 1 "enr:a" 0) client (MkSlot v6 false) 0.
Definition dnsCands : list candidate :=
  [dnsCand 0 "geth" false; dnsCand 1 "geth" false; dnsCand 2 "geth" false; dnsCand 3 "<unknown>" false; dnsCand 4 "<unknown>" true; dnsCand 5 "reth" false].
Definition dnsOpts : selectOpts := MkOpts 0 0 "any" "el" "all" 3 balanceProportional.

Example dns_pick : option_map (map ca_node) (pick dnsCands dnsOpts) = Some [0; 4; 5]%nat.
Proof. vm_compute. reflexivity. Qed.

Lemma pick_fair_witness :
  exists sel, pick dnsCands dnsOpts = Some sel /\ Z.of_nat (length sel) = 3 /\ 1 <= dialableV6 sel /\ "reth" ∈ clientsOf sel /\ "geth" ∈ clientsOf sel.
Proof.
  destruct (pick_fair dnsCands dnsOpts) as (sel & Hs & _ & Hl & Hv & Hc); [apply (bool_decide_unpack _); vm_compute; exact I|vm_compute; reflexivity|].
  exists sel. split; [exact Hs|]. split; [exact Hl|]. split; [|split].
  - destruct (Hv ltac:(vm_compute; split; reflexivity)) as [H1 H2]. etransitivity; [apply H2; vm_compute; reflexivity|exact H1].
  - apply Hc; [reflexivity|vm_compute; reflexivity|vm_compute; discriminate| |reflexivity]. apply (bool_decide_unpack _). vm_compute. exact I.
  - apply Hc; [reflexivity|vm_compute; reflexivity|vm_compute; discriminate| |reflexivity]. apply (bool_decide_unpack _). vm_compute. exact I.
Defined.

Lemma balanceClients_terminates_witness :
  exists sel, balanceClients dnsCands 3 {["geth" := 1]} = Some sel /\ length sel = 3%nat.
Proof.
  destruct (balanceClients_terminates dnsCands 3 {["geth" := 1]}) as (sel & Hs & _ & Hl & _);
    [vm_compute; split; reflexivity|vm_compute; discriminate|].
  exists sel. split; [exact Hs|lia].
Defined.
