(* ===== verification/FileStore.v ===== *)
(** The object store's keys and its file-system backend: [internal/store/store.go].

    A disk is a map from paths below the root to files, directories and links, with
    what the system calls of the source do to it.  Concurrent writers are processes
    that a schedule advances one step at a time: between two steps any other process
    may run, any step may fail and any process may be killed.  [fs_log] records the
    renames that land. *)

From stdpp Require Import base gmap strings list numbers pretty.
From Stdlib Require Import ZArith Lia Ascii.
From S2P Require Import Prelude GoLib Text Hashes Consensus ForkId Network NodeData Nodeset Releases Snapshot.
#[local] Open Scope Z_scope.

Definition errBadKey : string := "invalid object key".

(** * Paths *)

(** The elements of a slash-separated path below the root, in order. *)
Abbreviation path := (list string).
Definition components (s : string) : path := split_on "/"%char "" s.

(** [filepath.Clean]: one element; [out] holds what is kept, last first. *)
Definition cleanStep (rooted : bool) (out : path) (c : string) : path :=
  if (c =? "")%string || (c =? ".")%string then out
  else if (c =? "..")%string then
    match out with
    | [] => if rooted then [] else [".."]
    | top :: out' => if (top =? "..")%string then ".." :: out else out'
    end
  else c :: out.
Definition Clean (s : string) : string :=
  let rooted := HasPrefix s "/" in
  let body := sjoin "/" (reverse (foldl (cleanStep rooted) [] (components s))) in
  if rooted then "/" +:+ body else if (body =? "")%string then "." else body.

Definition safeRelPath (key : string) : result string :=
  let clean := Clean key in
  if (clean =? ".")%string || HasPrefix clean "/" || (clean =? "..")%string || HasPrefix clean "../" then Err errBadKey else Ok clean.

(** Where the system resolves a path: a position below the root, last element first,
    or [None] once it has left the root. *)
Fixpoint resolve (pos : path) (l : path) : option path :=
  match l with
  | [] => Some pos
  | c :: l' =>
      if (c =? "")%string || (c =? ".")%string then resolve pos l'
      else if (c =? "..")%string then match pos with [] => None | _ :: pos' => resolve pos' l' end
      else resolve (c :: pos) l'
  end.

(** The path an object's key names. *)
Definition objectPath (key : string) : option path :=
  match safeRelPath key with Ok rel => Some (components rel) | Err _ => None end.

Definition dirName (p : path) : path := removelast p.
Definition lastName (p : path) : string := List.last p "".

(** * The disk *)

Inductive node := Dir | Reg (data : string) | Link.
#[export] Instance node_eq_dec : EqDecision node. Proof. solve_decision. Defined.
Abbreviation Disk := (gmap path node).

(** [rejectSymlinkComponents]: the elements below [cur], up to the first that does not exist. *)
Fixpoint rejectSymlinkComponents (d : Disk) (cur : path) (p : path) : result unit :=
  match p with
  | [] => Ok tt
  | c :: rest =>
      match d !! (cur ++ [c]) with
      | None => Ok tt
      | Some Link => Err errBadKey
      | Some Dir => rejectSymlinkComponents d (cur ++ [c]) rest
      | Some (Reg _) => match rest with [] => Ok tt | _ => Err "not a directory" end
      end
  end.

(** [os.MkdirAll]. *)
Fixpoint mkdirAll (d : Disk) (cur : path) (p : path) : result Disk :=
  match p with
  | [] => Ok d
  | c :: rest =>
      match d !! (cur ++ [c]) with
      | None => mkdirAll (<[cur ++ [c] := Dir]> d) (cur ++ [c]) rest
      | Some Dir => mkdirAll d (cur ++ [c]) rest
      | Some _ => Err "not a directory"
      end
  end.

Definition get (d : Disk) (key : string) : Got string :=
  match objectPath key with
  | None => GetError
  | Some p =>
      match rejectSymlinkComponents d [] p with
      | Err _ => GetError
      | Ok _ =>
          match d !! p with
          | None => NotFound
          | Some (Reg data) => if MaxObjectBytes <? slen data then GetError else Found data
          | Some _ => GetError
          end
      end
  end.

Definition objectVersion (data : string) : string := hex_encode (sha256 data).
Definition getVersion (d : Disk) (key : string) : Got (string * string) :=
  match get d key with Found data => Found (data, objectVersion data) | NotFound => NotFound | GetError => GetError end.

(** [path.Dir]: what comes up to the last slash, cleaned. *)
Definition dirOf (prefix : string) : string := Clean (sjoin "/" (removelast (components prefix) ++ [""])).

(** The objects under [root]; the walk skips links and the store's own files. *)
Definition walk (d : Disk) (root : path) : list string :=
  omap (fun pn : path * node => match pn.2 with
    | Reg _ => if bool_decide (root `prefix_of` pn.1) then Some (sjoin "/" pn.1) else None
    | _ => None end) (map_to_list d).
Definition ownFile (key : string) : bool := HasSuffix key ".tmp" || HasSuffix key ".lock".
Definition listRoot (prefix : string) : result path :=
  let dir := dirOf prefix in
  if (dir =? ".")%string || (dir =? "/")%string then Ok [] else let! rel := safeRelPath dir in Ok (components rel).
Definition list_ (d : Disk) (prefix : string) : result (list string) :=
  let! root := listRoot prefix in
  Ok (List.filter (fun key => negb (ownFile key) && HasPrefix key prefix) (walk d root)).

(** * Writers *)

Inductive request :=
| RPut (key data : string)
| RPutIfVersion (key expectedVersion data : string)
| RDelete (key : string).
Inductive outcome := Stored (version : string) | Conflict | Failed.

(** Where a writer is: before its first step, waiting for the lock, holding it, past the version check,
    and with a temporary file that is being written or is complete and synced. *)
Inductive pc := Begin | Waiting | Locked | Checked | Writing (tmp : path) | Written (tmp : path) | Stopped (o : outcome).
Record proc := MkProc { pr_req : request; pr_pc : pc }.

Inductive landing := LPut (p : path) (data : string) | LCas (i : nat) (p : path) (expected data : string) | LDelete (p : path).
Record fsState := MkFs { fs_disk : Disk; fs_locks : gmap path nat; fs_procs : gmap nat proc; fs_log : list landing }.

(** What the next step of a process meets: it works ([n] chooses the temporary name or
    the bytes written), a system call fails, it fails only after the rename, or the
    process is killed. *)
Inductive luck := Works (n : nat) | Fails | FailsLate | Killed.

Definition lockPath (p : path) : path := dirName p ++ [lastName p +:+ ".lock"].
Definition tmpPath (p : path) (n : nat) : path := dirName p ++ [".enrscout-" +:+ pretty n +:+ ".tmp"].

(** The directory of an object's file, checked for links and created. *)
Definition prepare (d : Disk) (p : path) : result Disk :=
  let! _ := rejectSymlinkComponents d [] (dirName p) in mkdirAll d [] (dirName p).

Definition release (i : nat) (locks : gmap path nat) : gmap path nat := filter (fun pi : path * nat => pi.2 <> i) locks.
Definition moveTo (i : nat) (pr : proc) (pc : pc) (s : fsState) : fsState := MkFs (fs_disk s) (fs_locks s) (<[i := MkProc (pr_req pr) pc]> (fs_procs s)) (fs_log s).
Definition stop (i : nat) (pr : proc) (o : outcome) (s : fsState) : fsState := MkFs (fs_disk s) (release i (fs_locks s)) (<[i := MkProc (pr_req pr) (Stopped o)]> (fs_procs s)) (fs_log s).
Definition withDisk (d : Disk) (s : fsState) : fsState := MkFs d (fs_locks s) (fs_procs s) (fs_log s).

(** [PutIfVersion] up to the loop of [acquireFileLock]. *)
Definition openLock (i : nat) (pr : proc) (p : path) (s : fsState) : fsState :=
  match prepare (fs_disk s) p with
  | Err _ => stop i pr Failed s
  | Ok d => if bool_decide (d !! lockPath p = Some Link) then stop i pr Failed (withDisk d s) else moveTo i pr Waiting (withDisk d s)
  end.

(** One round of that loop: the file is opened or created, then locked without waiting. *)
Definition acquire (i : nat) (pr : proc) (lp : path) (s : fsState) : fsState :=
  match fs_disk s !! lp with
  | Some Link | Some Dir => stop i pr Failed s
  | found =>
      let s := withDisk (match found with None => <[lp := Reg ""]> (fs_disk s) | _ => fs_disk s end) s in
      match fs_locks s !! lp with
      | Some _ => s
      | None => moveTo i pr Locked (MkFs (fs_disk s) (<[lp := i]> (fs_locks s)) (fs_procs s) (fs_log s))
      end
  end.

(** The comparison of [PutIfVersion]. *)
Definition compareVersion (d : Disk) (key expectedVersion : string) : option outcome :=
  match get d key with
  | NotFound => if (expectedVersion =? "")%string then None else Some Conflict
  | GetError => Some Failed
  | Found current => if (expectedVersion =? "")%string || negb (objectVersion current =? expectedVersion)%string then Some Conflict else None
  end.

(** [Put] up to its temporary file. *)
Definition createTemp (i : nat) (pr : proc) (p : path) (data : string) (n : nat) (s : fsState) : fsState :=
  if MaxObjectBytes <? slen data then stop i pr Failed s
  else
    match prepare (fs_disk s) p with
    | Err _ => stop i pr Failed s
    | Ok d =>
        match d !! tmpPath p n with
        | Some _ => withDisk d s
        | None => moveTo i pr (Writing (tmpPath p n)) (withDisk (<[tmpPath p n := Reg ""]> d) s)
        end
    end.

Definition writeTemp (i : nat) (pr : proc) (tmp : path) (data : string) (n : nat) (s : fsState) : fsState :=
  moveTo i pr (if (String.length data <=? n)%nat then Written tmp else Writing tmp) (withDisk (<[tmp := Reg (stake n data)]> (fs_disk s)) s).

(** [os.Rename] and the sync of the directory; the temporary file is gone either way. *)
Definition rename (i : nat) (pr : proc) (tmp p : path) (l : string -> landing) (late : bool) (s : fsState) : fsState :=
  match fs_disk s !! tmp, fs_disk s !! p with
  | Some (Reg data), (None | Some (Reg _) | Some Link) =>
      let s := MkFs (<[p := Reg data]> (delete tmp (fs_disk s))) (fs_locks s) (fs_procs s) (fs_log s ++ [l data]) in
      stop i pr (if late then Failed else Stored (objectVersion data)) s
  | _, _ => stop i pr Failed (withDisk (delete tmp (fs_disk s)) s)
  end.

Definition dataOf (r : request) : string := match r with RPut _ data | RPutIfVersion _ _ data => data | RDelete _ => "" end.
Definition keyOf (r : request) : string := match r with RPut key _ | RPutIfVersion key _ _ | RDelete key => key end.
Definition landingOf (i : nat) (r : request) (p : path) (data : string) : landing :=
  match r with RPutIfVersion _ e _ => LCas i p e data | _ => LPut p data end.

(** A system call fails: the temporary file is removed on the way out. *)
Definition failStep (i : nat) (pr : proc) (s : fsState) : fsState :=
  match pr_pc pr with
  | Writing tmp | Written tmp => stop i pr Failed (withDisk (delete tmp (fs_disk s)) s)
  | _ => stop i pr Failed s
  end.

Definition remove (i : nat) (pr : proc) (p : path) (late : bool) (s : fsState) : fsState :=
  match rejectSymlinkComponents (fs_disk s) [] p with
  | Err _ => stop i pr Failed s
  | Ok _ =>
      let removed := stop i pr (if late then Failed else Stored "") (MkFs (delete p (fs_disk s)) (fs_locks s) (fs_procs s) (fs_log s ++ [LDelete p])) in
      match fs_disk s !! p with
      | None => stop i pr (Stored "") s
      | Some Dir => if existsb (fun qn : path * node => bool_decide (p `prefix_of` qn.1) && negb (bool_decide (p = qn.1))) (map_to_list (fs_disk s)) then stop i pr Failed s else removed
      | Some _ => removed
      end
  end.

(** One step that works; [late] is an error after the disk has changed. *)
Definition workStep (i : nat) (pr : proc) (n : nat) (late : bool) (s : fsState) : fsState :=
  match objectPath (keyOf (pr_req pr)) with
  | None => match pr_pc pr with Stopped _ => s | _ => stop i pr Failed s end
  | Some p =>
      match pr_pc pr, pr_req pr with
      | Begin, RPut _ data => createTemp i pr p data n s
      | Begin, RDelete _ => remove i pr p late s
      | Begin, RPutIfVersion _ _ _ => openLock i pr p s
      | Waiting, RPutIfVersion _ _ _ => acquire i pr (lockPath p) s
      | Locked, RPutIfVersion key e _ =>
          match compareVersion (fs_disk s) key e with
          | Some o => stop i pr o s
          | None => moveTo i pr Checked s
          end
      | Checked, r => createTemp i pr p (dataOf r) n s
      | Writing tmp, r => writeTemp i pr tmp (dataOf r) n s
      | Written tmp, r => rename i pr tmp p (landingOf i r p) late s
      | Waiting, _ | Locked, _ | Stopped _, _ => s
      end
  end.

Definition step (s : fsState) (ic : nat * luck) : fsState :=
  let (i, l) := ic in
  match fs_procs s !! i with
  | None => s
  | Some pr =>
      match pr_pc pr, l with
      | Stopped _, _ => s
      | _, Works n => workStep i pr n false s
      | _, FailsLate => workStep i pr 0 true s
      | _, Fails => failStep i pr s
      | _, Killed => MkFs (fs_disk s) (release i (fs_locks s)) (delete i (fs_procs s)) (fs_log s)
      end
  end.
Definition runSchedule (sched : list (nat * luck)) (s : fsState) : fsState := foldl step s sched.
