(* ===== verification/FilePaths.v ===== *)
(** Keys stay below the store's root, and a listing that walks one directory misses
    nothing. *)

From stdpp Require Import base gmap strings list numbers pretty.
From Stdlib Require Import ZArith Lia Ascii.
From S2P Require Import Prelude GoLib Text Hashes Network Snapshot FileStore.
#[local] Open Scope Z_scope.

(** * Elements of a path *)

Abbreviation noSlash := (avoids "/"%char).

(** A name: not empty, not [.] or [..], without a slash. *)
Definition proper (c : string) : Prop := noSlash c = true /\ c <> "" /\ c <> "." /\ c <> "..".

Lemma noSlash_snoc a c : noSlash (a +:+ String c "") = noSlash a && negb (c =? "/")%char.
Proof. rewrite sforall_app. cbn [sforall]. by rewrite andb_true_r. Qed.

Lemma split_noSlash acc s : noSlash acc = true -> Forall (fun c => noSlash c = true) (split_on "/"%char acc s).
Proof.
  revert acc. induction s as [|x s IH]; intros acc Ha; cbn [split_on]; [by constructor|].
  destruct (x =? "/")%char eqn:E; [constructor; [done|by apply IH]|]. apply IH. by rewrite noSlash_snoc, Ha, E.
Qed.

(** Joining and splitting are inverse. *)
Lemma components_sjoin (l : path) : l <> [] -> Forall (fun c => noSlash c = true) l -> components (sjoin "/" l) = l.
Proof. apply split_sjoin. Qed.
Lemma split_join acc s : sjoin "/" (split_on "/"%char acc s) = acc +:+ s.
Proof.
  revert acc. induction s as [|x s IH]; intros acc; cbn [split_on].
  - cbn. by rewrite sapp_nil_r.
  - destruct (x =? "/")%char eqn:E.
    + apply Ascii.eqb_eq in E as ->. rewrite sjoin_cons by apply split_ne. by rewrite IH.
    + rewrite IH. apply sapp_snoc.
Qed.
Lemma sjoin_components s : sjoin "/" (components s) = s.
Proof. apply split_join. Qed.

(** * Resolution *)

Lemma escaped_stays l out : exists out', foldl (cleanStep false) (out ++ [".."]) l = out' ++ [".."].
Proof.
  revert out. induction l as [|c l IH]; intros out; cbn [foldl]; [by exists out|].
  unfold cleanStep. destruct (_ || _); [apply IH|]. destruct (c =? "..")%string.
  - destruct out as [|top out']; cbn [app].
    + cbn. apply (IH [".."]).
    + destruct (top =? "..")%string; [apply (IH (".." :: top :: out'))|apply IH].
  - apply (IH (c :: out)).
Qed.

Lemma cleanStep_resolve l pos : Forall (fun c => noSlash c = true) l -> Forall proper pos ->
  match resolve pos l with
  | Some pos' => foldl (cleanStep false) pos l = pos' /\ Forall proper pos'
  | None => exists out, foldl (cleanStep false) pos l = out ++ [".."]
  end.
Proof.
  revert pos. induction l as [|c l IH]; intros pos Hl Hp; cbn [resolve foldl]; [done|].
  apply Forall_cons in Hl as [Hc Hl]. assert (cleanStep false pos c = if (c =? "")%string || (c =? ".")%string then pos else if (c =? "..")%string then match pos with [] => [".."] | top :: out' => if (top =? "..")%string then ".." :: pos else out' end else c :: pos) as -> by done.
  destruct (_ || _) eqn:E; [by apply IH|].
  destruct (c =? "..")%string eqn:E2.
  - destruct pos as [|top pos]; [apply (escaped_stays l [])|]. apply Forall_cons in Hp as [Ht Hp].
    destruct (top =? "..")%string eqn:E3; [apply String.eqb_eq in E3; by destruct Ht as (_ & _ & _ & ?)|by apply IH].
  - apply IH; [done|]. constructor; [|done]. apply orb_false_iff in E as [E0 E1]. by apply String.eqb_neq in E0, E1, E2.
Qed.

(** A joined path of names starts with its first one. *)
Lemma sjoin_head c l : exists rest, sjoin "/" (c :: l) = c +:+ rest /\ (rest = "" \/ exists s, rest = String "/" s).
Proof. destruct l as [|c' l]; [exists ""; cbn; split; [by rewrite sapp_nil_r|by left]|]. eexists. split; [by apply sjoin_cons|right; by eexists]. Qed.

Lemma proper_path c l : proper c ->
  let s := sjoin "/" (c :: l) in s <> "" /\ (s =? ".")%string = false /\ HasPrefix s "/" = false /\ (s =? "..")%string = false /\ HasPrefix s "../" = false.
Proof.
  intros (Hs & H0 & H1 & H2). destruct (sjoin_head c l) as (rest & -> & Hr). cbv zeta.
  destruct c as [|a c]; [done|]. cbn [sforall] in Hs. apply andb_true_iff in Hs as [Ha%negb_true_iff Hs].
  assert (HasPrefix (String a c +:+ rest) "/" = false) as Hp.
  { apply not_true_is_false. intros [t Ht]%HasPrefix_spec. injection Ht as -> _. done. }
  split; [done|]. split; [|split; [exact Hp|split]].
  - apply String.eqb_neq. intros Hx. injection Hx as -> Hx. destruct c as [|b c]; [done|done].
  - apply String.eqb_neq. intros Hx. injection Hx as -> Hx. destruct c as [|b c].
    + destruct Hr as [->|[s ->]]; discriminate Hx.
    + injection Hx as -> Hx. by destruct c.
  - apply not_true_is_false. intros [t Ht]%HasPrefix_spec. injection Ht as -> Ht. destruct c as [|b c].
    + destruct Hr as [->|[s ->]]; discriminate Ht.
    + injection Ht as -> Ht. destruct c as [|b c]; [done|]. injection Ht as -> _. done.
Qed.

Lemma escaped_bad (out : path) : let s := sjoin "/" (reverse (out ++ [".."])) in (s =? "..")%string || HasPrefix s "../" = true.
Proof.
  cbv zeta. rewrite reverse_app. cbn [reverse app]. destruct (reverse out) as [|c l]; [done|].
  change (reverse [".."] ++ c :: l) with (".." :: c :: l). apply orb_true_iff. right. apply HasPrefix_spec. eexists. rewrite sjoin_cons by done. reflexivity.
Qed.

Lemma rooted_head s : HasPrefix s "/" = true -> exists t, s = String "/" t.
Proof. intros [t ->]%HasPrefix_spec. by exists t. Qed.

(** What [safeRelPath] accepts, and what it makes of it. *)
Lemma safeRelPath_facts key :
  safeRelPath key = match resolve [] (components key) with
    | Some (c :: pos) => if HasPrefix key "/" then Err errBadKey else Ok (sjoin "/" (reverse (c :: pos)))
    | _ => Err errBadKey
    end /\
  (forall pos, resolve [] (components key) = Some pos -> HasPrefix key "/" = false -> Forall proper pos).
Proof.
  pose proof (cleanStep_resolve (components key) [] (split_noSlash "" key eq_refl) (Forall_nil_2 _)) as H.
  unfold safeRelPath, Clean. destruct (HasPrefix key "/") eqn:Er.
  - split; [|done]. set (body := sjoin "/" _). assert (HasPrefix ("/" +:+ body) "/" = true) as -> by (apply HasPrefix_spec; by exists body).
    rewrite orb_true_r. cbn [orb]. by destruct (resolve _ _) as [[|]|].
  - split; [|intros pos Hp; rewrite Hp in H; intros _; apply H]. destruct (resolve [] (components key)) as [pos|].
    + destruct H as [-> Hp]. destruct pos as [|c pos]; [done|]. destruct (reverse (c :: pos)) as [|c' l] eqn:Erev.
      { apply (f_equal length) in Erev. rewrite length_reverse in Erev. done. }
      assert (proper c') as Hc'. { rewrite Forall_forall in Hp. apply Hp. rewrite <- elem_of_reverse, Erev. left. }
      destruct (proper_path c' l Hc') as (Hne & H1 & H2 & H3 & H4). apply String.eqb_neq in Hne. rewrite Hne, H1, H2, H3, H4. done.
    + destruct H as [out ->]. pose proof (escaped_bad out) as Hb. cbv zeta in Hb. set (s := sjoin _ _) in *.
      destruct (s =? "")%string eqn:E0; [by apply String.eqb_eq in E0 as ->|]. apply orb_true_iff in Hb as [Hb|Hb]; rewrite Hb; by rewrite ?orb_true_r.
Qed.

Lemma objectPath_facts key p : objectPath key = Some p ->
  p <> [] /\ Forall proper p /\ safeRelPath key = Ok (sjoin "/" p) /\ components (sjoin "/" p) = p /\ resolve [] (components key) = Some (reverse p).
Proof.
  unfold objectPath. destruct (safeRelPath_facts key) as [-> Hf]. destruct (resolve [] _) as [[|c pos]|] eqn:Er; [done| |done].
  destruct (HasPrefix key "/") eqn:Es; [done|]. specialize (Hf _ eq_refl eq_refl). intros [= Hc].
  assert (Forall proper (reverse (c :: pos))) as Hp by (by apply Forall_reverse).
  assert (reverse (c :: pos) <> []) as Hne. { intros H. apply (f_equal length) in H. rewrite length_reverse in H. done. }
  assert (components (sjoin "/" (reverse (c :: pos))) = reverse (c :: pos)) as Hcomp.
  { apply components_sjoin; [done|]. eapply Forall_impl; [exact Hp|]. by intros x (Hx & _). }
  rewrite Hcomp in Hc. subst p. by rewrite reverse_involutive.
Qed.

(** * Listing *)

Lemma resolve_proper l pos : Forall proper l -> forall tail, resolve pos (l ++ tail) = resolve (reverse l ++ pos) tail.
Proof.
  intros Hl. revert pos. induction Hl as [|c l (_ & H0 & H1 & H2) _ IH]; intros pos tail; [done|]. apply String.eqb_neq in H0, H1, H2.
  cbn [resolve app]. rewrite H0, H1, H2. cbn [orb]. rewrite IH. by rewrite reverse_cons, <- app_assoc.
Qed.

Lemma split_prefix acc a b : removelast (split_on "/"%char acc a) `prefix_of` split_on "/"%char acc (a +:+ b).
Proof.
  revert acc. induction a as [|x a IH]; intros acc; [apply prefix_nil|]. rewrite sapp_cons. cbn [split_on]. destruct (x =? "/")%char; [|apply IH].
  pose proof (split_ne "/"%char "" a) as Hne. destruct (split_on _ "" a) eqn:E; [done|]. change (removelast (acc :: s :: l)) with (acc :: removelast (s :: l)).
  rewrite <- E. apply prefix_cons, IH.
Qed.

Lemma dirOf_proper prefix : let q := removelast (components prefix) in Forall proper q ->
  dirOf prefix = if bool_decide (q = []) then "." else sjoin "/" q.
Proof.
  intros q Hq. unfold dirOf. fold q. assert (components (sjoin "/" (q ++ [""])) = q ++ [""]) as Hc.
  { apply components_sjoin; [by destruct q|]. apply Forall_app. split; [|by repeat constructor]. eapply Forall_impl; [exact Hq|]. by intros x (Hx & _). }
  destruct (HasPrefix (sjoin "/" (q ++ [""])) "/") eqn:Er.
  { exfalso. destruct q as [|c q']; [done|]. apply Forall_cons in Hq as [Hp _]. destruct (proper_path c (q' ++ [""]) Hp) as (_ & _ & Hr & _). cbn [app] in Er. congruence. }
  unfold Clean. rewrite Er, Hc. pose proof (cleanStep_resolve (q ++ [""]) [] ltac:(rewrite <- Hc; by apply split_noSlash) (Forall_nil_2 _)) as H.
  rewrite resolve_proper in H by done. destruct H as [-> _]. rewrite app_nil_r, reverse_involutive. destruct q as [|c q']; [done|].
  rewrite bool_decide_eq_false_2 by done. apply Forall_cons in Hq as [Hp _]. destruct (proper_path c q' Hp) as (Hne & _). apply String.eqb_neq in Hne. by rewrite Hne.
Qed.

Lemma objectPath_proper (q : path) : q <> [] -> Forall proper q -> safeRelPath (sjoin "/" q) = Ok (sjoin "/" q).
Proof.
  intros Hne Hq. destruct (safeRelPath_facts (sjoin "/" q)) as [-> _]. rewrite components_sjoin; [|done|eapply Forall_impl; [exact Hq|]; by intros x (Hx & _)].
  pose proof (resolve_proper q [] Hq []) as Hr. rewrite !app_nil_r in Hr. rewrite Hr. cbn [resolve].
  destruct q as [|c q']; [done|]. apply Forall_cons in Hq as [Hp _]. destruct (proper_path c q' Hp) as (_ & _ & -> & _).
  destruct (reverse (c :: q')) as [|x l] eqn:E; [by apply (f_equal length) in E; rewrite length_reverse in E|]. by rewrite <- E, reverse_involutive.
Qed.

(** A disk of a store: names only. *)
Definition disk_ok (d : Disk) : Prop := forall p n, d !! p = Some n -> p <> [] /\ Forall proper p.

(** A listing walks one directory and misses no object with the prefix; the store's
    own temporary files and locks are not in it. *)
Lemma list_exact d prefix keys : disk_ok d -> list_ d prefix = Ok keys ->
  NoDup keys /\
  forall key, key ∈ keys <-> exists p data, d !! p = Some (Reg data) /\ key = sjoin "/" p /\ ownFile key = false /\ HasPrefix key prefix = true.
Proof.
  intros Hd. unfold list_. destruct (listRoot prefix) as [root|] eqn:Er; [|done]. intros [= <-]. split.
  - apply lfilter_NoDup. unfold walk. clear -Hd. pose proof (NoDup_fst_map_to_list d) as Hnd.
    assert (forall pn, pn ∈ map_to_list d -> pn.1 <> [] /\ Forall proper pn.1) as Hp by (intros [p n] H; apply elem_of_map_to_list in H; by apply Hd in H).
    induction (map_to_list d) as [|[p n] l IH]; cbn; [constructor|]. apply NoDup_cons in Hnd as [Hn Hnd]. specialize (IH Hnd (fun pn H => Hp pn (list_elem_of_further _ _ _ H))).
    destruct n; [done| |done]. destruct (bool_decide _); [|done]. constructor; [|done]. intros ([p' n'] & Hin & He)%list_elem_of_omap. apply Hn.
    apply list_elem_of_fmap. exists (p', n'). split; [|done]. cbn in *. destruct n'; [done| |done]. destruct (bool_decide _); [|done]. injection He as He.
    destruct (Hp (p, Reg data)) as [H1 H2]; [left|]. destruct (Hp (p', Reg data0)) as [H3 H4]; [by right|]. cbn in *.
    rewrite <- (components_sjoin p), <- (components_sjoin p'), He; try done; eapply Forall_impl; try eassumption; by intros x (Hx & _).
  - intros key. rewrite elem_of_lfilter, andb_true_iff, negb_true_iff. unfold walk. rewrite list_elem_of_omap. split.
    + intros [([p n] & Hin & He) [Ho Hp]]. apply elem_of_map_to_list in Hin. cbn in He. destruct n; [done| |done]. destruct (bool_decide _); [|done]. injection He as <-. by exists p, data.
    + intros (p & data & Hp & -> & Ho & Hpre). split; [|done]. exists (p, Reg data). split; [by apply elem_of_map_to_list|]. cbn. destruct (Hd _ _ Hp) as [Hne Hpr].
      rewrite bool_decide_eq_true_2; [done|]. apply HasPrefix_spec in Hpre as [rest Hrest].
      assert (removelast (components prefix) `prefix_of` p) as Hq.
      { rewrite <- (components_sjoin p), Hrest; [apply split_prefix|done|]. eapply Forall_impl; [exact Hpr|]. by intros x (Hx & _). }
      assert (Forall proper (removelast (components prefix))) as Hqp by (destruct Hq as [l ->]; by apply Forall_app in Hpr as [? _]).
      pose proof (dirOf_proper prefix Hqp) as Hdir. unfold listRoot in Er. rewrite Hdir in Er. case_bool_decide as Hb.
      * cbn in Er. injection Er as <-. apply prefix_nil.
      * destruct (removelast (components prefix)) as [|c q'] eqn:Eq; [done|]. pose proof Hqp as [Hc _]%Forall_cons. destruct (proper_path c q' Hc) as (_ & H1 & H2 & _).
        assert ((sjoin "/" (c :: q') =? "/")%string = false) as H3 by (apply String.eqb_neq; intros He; rewrite He in H2; done).
        rewrite H1, H3 in Er. cbn [orb] in Er. rewrite objectPath_proper in Er by done. change (Ok (components (sjoin "/" (c :: q'))) = Ok root) in Er. injection Er as <-.
        change (components (sjoin "/" (c :: q')) `prefix_of` p). rewrite components_sjoin; [done|done|]. eapply Forall_impl; [exact Hqp|]. by intros x (Hx & _).
Qed.

(** A key names the file the system would resolve it to, and is accepted exactly
    when that file lies below the store's root: a path that is absolute, that leaves
    the root on the way, or that names the root itself is refused. *)
Theorem safeRelPath_resolves key :
  safeRelPath key = match resolve [] (components key) with
    | Some (c :: pos) => if HasPrefix key "/" then Err errBadKey else Ok (sjoin "/" (reverse (c :: pos)))
    | _ => Err errBadKey
    end /\
  (forall p, objectPath key = Some p -> p <> [] /\ Forall proper p /\ components (sjoin "/" p) = p).
Proof.
  split; [apply safeRelPath_facts|]. intros p Hp. apply objectPath_facts in Hp as (? & ? & _ & ? & _). done.
Qed.
