(* ===== verification/FileRaces.v ===== *)
(** Writers on one directory: whatever the schedule, whichever steps fail and whichever
    processes are killed, an object is only ever a whole value that some request
    carried, and the conditional writes of an object follow one another. *)

From stdpp Require Import base gmap strings list numbers pretty.
From Stdlib Require Import ZArith Lia Ascii.
From S2P Require Import Prelude GoLib Text Hashes Network Snapshot FileStore FilePaths.
#[local] Open Scope Z_scope.

(** The path of an object, as opposed to a lock or a temporary file. *)
Definition plain (p : path) : Prop := ownFile (lastName p) = false.

Definition fileAt (d : Disk) (p : path) : option string := match d !! p with Some (Reg c) => Some c | _ => None end.

(** The version of what a path holds; the empty one when there is no object. *)
Definition versionOf (c : option string) : string := match c with Some c => objectVersion c | None => "" end.

(** The conditional writes that landed on a path: who, the version expected, the value. *)
Definition commits (k : path) (log : list landing) : list (nat * string * string) :=
  omap (fun l => match l with LCas i p e data => if bool_decide (p = k) then Some (i, e, data) else None | _ => None end) log.

Fixpoint chain (cur : option string) (cs : list (nat * string * string)) : Prop :=
  match cs with [] => True | (_, e, data) :: rest => e = versionOf cur /\ chain (Some data) rest end.
Definition final (cur : option string) (cs : list (nat * string * string)) : option string :=
  match last cs with Some (_, _, data) => Some data | None => cur end.

Lemma chain_snoc cur cs i e data : chain cur cs -> e = versionOf (final cur cs) -> chain cur (cs ++ [(i, e, data)]).
Proof.
  revert cur. induction cs as [|[[j e'] d'] cs IH]; intros cur; cbn [chain app].
  - intros _ ->. by split.
  - intros [-> Hc] He. split; [done|]. apply IH; [done|]. rewrite He. unfold final. rewrite last_cons. by destruct (last cs).
Qed.
Lemma final_snoc cur cs i e data : final cur (cs ++ [(i, e, data)]) = Some data.
Proof. unfold final. by rewrite last_snoc. Qed.

(** * Paths of the store's own files *)

Lemma lastName_snoc (p : path) c : lastName (p ++ [c]) = c.
Proof. unfold lastName. apply List.last_last. Qed.

Lemma tmp_own p n : ~ plain (tmpPath p n).
Proof. unfold plain, tmpPath. rewrite lastName_snoc. unfold ownFile. rewrite sapp_assoc, HasSuffix_app. done. Qed.
Lemma lock_own p : ~ plain (lockPath p).
Proof. unfold plain, lockPath. rewrite lastName_snoc. unfold ownFile. rewrite HasSuffix_app, orb_true_r. done. Qed.

Lemma lockPath_inj p q : p <> [] -> q <> [] -> lockPath p = lockPath q -> p = q.
Proof.
  intros Hp Hq H. unfold lockPath in H. apply app_inj_tail in H as [Hd Hl]. 
  apply sapp_inj_r in Hl.
  rewrite (app_removelast_last "" Hp), (app_removelast_last "" Hq). unfold dirName, lastName in *. by rewrite Hd, Hl.
Qed.

(** * The invariant *)

Section Races.
Context (s0 : fsState).

(** At the start every writer is before its first step, and writes an object. *)
Record fresh : Prop := {
  fr_begin : forall i pr, fs_procs s0 !! i = Some pr -> pr_pc pr = Begin;
  fr_log : fs_log s0 = [];
  fr_keys : forall i pr p, fs_procs s0 !! i = Some pr -> objectPath (keyOf (pr_req pr)) = Some p -> plain p
}.

(** An object that only conditional writes touch. *)
Definition exclusive (k : path) : Prop :=
  plain k /\ forall i pr, fs_procs s0 !! i = Some pr -> objectPath (keyOf (pr_req pr)) = Some k -> exists key e data, pr_req pr = RPutIfVersion key e data.

(** What some request would store at a path. *)
Definition submitted (p : path) (c : string) : Prop :=
  exists i pr, fs_procs s0 !! i = Some pr /\ objectPath (keyOf (pr_req pr)) = Some p /\ dataOf (pr_req pr) = c /\ (forall key, pr_req pr <> RDelete key).

Definition tempOf (pr : proc) : option path := match pr_pc pr with Writing q | Written q => Some q | _ => None end.
(** The path whose lock a writer holds. *)
Definition holds (pr : proc) : option path :=
  match pr_pc pr, pr_req pr with
  | (Locked | Checked | Writing _ | Written _), RPutIfVersion key _ _ => objectPath key
  | _, _ => None
  end.
(** It has compared the version [e] of [k]. *)
Definition checkedAt (pr : proc) (k : path) (e : string) : Prop :=
  match pr_pc pr, pr_req pr with
  | (Checked | Writing _ | Written _), RPutIfVersion key e' _ => objectPath key = Some k /\ e' = e
  | _, _ => False
  end.
(** Which requests get where. *)
Definition shaped (pr : proc) : Prop :=
  match pr_pc pr, pr_req pr with
  | (Waiting | Locked | Checked), RPut _ _ | (Waiting | Locked | Checked | Writing _ | Written _), RDelete _ => False
  | _, _ => True
  end.

Definition tempOk (d : Disk) (pr : proc) : Prop :=
  forall q, tempOf pr = Some q -> exists p n c, objectPath (keyOf (pr_req pr)) = Some p /\ q = tmpPath p n /\ d !! q = Some (Reg c) /\
    (pr_pc pr = Written q -> c = dataOf (pr_req pr)).

Definition committed (pr : proc) (k : path) (v : string) (cs : list (nat * string * string)) (i : nat) : Prop :=
  forall key e data, pr_req pr = RPutIfVersion key e data -> objectPath key = Some k -> v = objectVersion data /\ (i, e, data) ∈ cs.

Record fs_inv (s : fsState) : Prop := {
  fi_req : forall i pr, fs_procs s !! i = Some pr -> exists pr0, fs_procs s0 !! i = Some pr0 /\ pr_req pr0 = pr_req pr;
  fi_shape : forall i pr, fs_procs s !! i = Some pr -> shaped pr;
  fi_lock : forall i pr p, fs_procs s !! i = Some pr -> holds pr = Some p -> fs_locks s !! lockPath p = Some i;
  fi_temp : forall i pr, fs_procs s !! i = Some pr -> tempOk (fs_disk s) pr;
  fi_apart : forall i j pr pr2 q, fs_procs s !! i = Some pr -> fs_procs s !! j = Some pr2 -> tempOf pr = Some q -> tempOf pr2 = Some q -> i = j;
  fi_file : forall p c, plain p -> fileAt (fs_disk s) p = Some c -> fileAt (fs_disk s0) p = Some c \/ submitted p c;
  fi_checked : forall k i pr e, exclusive k -> fs_procs s !! i = Some pr -> checkedAt pr k e -> e = versionOf (fileAt (fs_disk s) k);
  fi_chain : forall k, exclusive k -> chain (fileAt (fs_disk s0) k) (commits k (fs_log s)) /\ fileAt (fs_disk s) k = final (fileAt (fs_disk s0) k) (commits k (fs_log s));
  fi_once : forall k, exclusive k -> NoDup ((commits k (fs_log s)).*1.*1);
  fi_commit : forall k i e data, exclusive k -> (i, e, data) ∈ commits k (fs_log s) ->
    (exists key pr0, fs_procs s0 !! i = Some pr0 /\ pr_req pr0 = RPutIfVersion key e data /\ objectPath key = Some k) /\
    (forall pr, fs_procs s !! i = Some pr -> exists o, pr_pc pr = Stopped o /\ o <> Conflict);
  fi_stored : forall k i pr v, exclusive k -> fs_procs s !! i = Some pr -> pr_pc pr = Stopped (Stored v) -> committed pr k v (commits k (fs_log s)) i
}.

(** One process moves on; the others keep their temporary files and locks. *)
Record move (s : fsState) (i : nat) (pr : proc) (pc' : pc) (d' : Disk) (locks' : gmap path nat) (log' : list landing) : Prop := {
  mv_proc : fs_procs s !! i = Some pr;
  mv_going : forall o, pr_pc pr <> Stopped o;
  mv_file : forall p c, plain p -> fileAt d' p = Some c ->
    fileAt (fs_disk s) p = Some c \/ objectPath (keyOf (pr_req pr)) = Some p /\ dataOf (pr_req pr) = c /\ (forall key, pr_req pr <> RDelete key);
  mv_others : forall j pr2 q, j <> i -> fs_procs s !! j = Some pr2 -> tempOf pr2 = Some q -> d' !! q = fs_disk s !! q;
  mv_locks : forall j lp, j <> i -> fs_locks s !! lp = Some j -> locks' !! lp = Some j;
  mv_holds : forall p, holds (MkProc (pr_req pr) pc') = Some p -> locks' !! lockPath p = Some i;
  mv_shape : shaped (MkProc (pr_req pr) pc');
  mv_temp : tempOk d' (MkProc (pr_req pr) pc');
  mv_apart : forall j pr2 q, j <> i -> fs_procs s !! j = Some pr2 -> tempOf pr2 = Some q -> tempOf (MkProc (pr_req pr) pc') <> Some q;
  mv_keyed : forall k, exclusive k ->
    (commits k log' = commits k (fs_log s) /\ fileAt d' k = fileAt (fs_disk s) k /\
      (forall e, checkedAt (MkProc (pr_req pr) pc') k e -> e = versionOf (fileAt (fs_disk s) k)) /\
      (forall v key e data, pc' = Stopped (Stored v) -> pr_req pr = RPutIfVersion key e data -> objectPath key = Some k -> False)) \/
    (exists key e data o, pr_req pr = RPutIfVersion key e data /\ objectPath key = Some k /\ holds pr = Some k /\
      commits k log' = commits k (fs_log s) ++ [(i, e, data)] /\ fileAt d' k = Some data /\ e = versionOf (fileAt (fs_disk s) k) /\
      pc' = Stopped o /\ (o = Failed \/ o = Stored (objectVersion data)))
}.

Lemma exclusive_req k i pr s : fs_inv s -> exclusive k -> fs_procs s !! i = Some pr -> objectPath (keyOf (pr_req pr)) = Some k ->
  exists key e data, pr_req pr = RPutIfVersion key e data.
Proof. intros Hs [_ He] Hi Hk. destruct (fi_req s Hs _ _ Hi) as (pr0 & H0 & Hr). rewrite <- Hr in *. by apply (He i pr0). Qed.

Lemma checked_holds pr k e : checkedAt pr k e -> holds pr = Some k.
Proof. unfold checkedAt, holds. destruct (pr_pc pr), (pr_req pr); tauto. Qed.

Lemma move_inv s i pr pc' d' locks' log' : fs_inv s -> move s i pr pc' d' locks' log' ->
  fs_inv (MkFs d' locks' (<[i := MkProc (pr_req pr) pc']> (fs_procs s)) log').
Proof.
  intros Hs Hm. pose proof (mv_proc _ _ _ _ _ _ _ Hm) as Hpr. set (pr' := MkProc (pr_req pr) pc').
  assert (forall j p2, <[i := pr']> (fs_procs s) !! j = Some p2 -> j = i /\ p2 = pr' \/ j <> i /\ fs_procs s !! j = Some p2) as Hcase.
  { intros j p2 [[<- <-]|[? ?]]%lookup_insert_Some; [by left|by right]. }
  split; cbn [fs_disk fs_locks fs_procs fs_log].
  - intros j p2 [[-> ->]|[_ Hj]]%Hcase; [by apply (fi_req s Hs i pr)|by apply (fi_req s Hs j p2)].
  - intros j p2 [[-> ->]|[_ Hj]]%Hcase; [by apply (mv_shape _ _ _ _ _ _ _ Hm)|by apply (fi_shape s Hs j)].
  - intros j p2 p [[-> ->]|[Hn Hj]]%Hcase Hh; [by apply (mv_holds _ _ _ _ _ _ _ Hm)|]. apply (mv_locks _ _ _ _ _ _ _ Hm); [done|]. by apply (fi_lock s Hs j p2).
  - intros j p2 [[-> ->]|[Hn Hj]]%Hcase; [by apply (mv_temp _ _ _ _ _ _ _ Hm)|]. intros q Hq. destruct (fi_temp s Hs _ _ Hj q Hq) as (p & n & c & ? & ? & Hc & ?).
    exists p, n, c. split_and!; [done|done| |done]. by rewrite (mv_others _ _ _ _ _ _ _ Hm j p2 q).
  - intros a b p1 p2 q [[-> ->]|[Ha Hp1]]%Hcase [[-> ->]|[Hb Hp2]]%Hcase H1 H2; [done| | |by apply (fi_apart s Hs _ _ p1 p2 q)];
      exfalso; eapply (mv_apart _ _ _ _ _ _ _ Hm); eassumption.
  - intros p c Hp [Hf|(Hk & Hd & Hr)]%(mv_file _ _ _ _ _ _ _ Hm); [by apply (fi_file s Hs)| |done]. right.
    destruct (fi_req s Hs _ _ Hpr) as (pr0 & H0 & He). exists i, pr0. rewrite He. done.
  - intros k j p2 e Hk [[-> ->]|[Hn Hj]]%Hcase Hc; destruct (mv_keyed _ _ _ _ _ _ _ Hm k Hk) as [(_ & -> & Hch & _)|(key & e' & data & o & Hr & Hkey & Hh & _ & _ & _ & -> & _)].
    + by apply Hch.
    + done.
    + by apply (fi_checked s Hs k j p2).
    + exfalso. apply Hn. apply checked_holds in Hc. pose proof (fi_lock s Hs _ _ _ Hj Hc) as H1. pose proof (fi_lock s Hs _ _ _ Hpr Hh) as H2. congruence.
  - intros k Hk. destruct (fi_chain s Hs k Hk) as [Hc Hf]. destruct (mv_keyed _ _ _ _ _ _ _ Hm k Hk) as [(-> & -> & _)|(key & e & data & o & _ & _ & _ & -> & -> & He & _)]; [done|].
    split; [apply chain_snoc; [done|by rewrite <- Hf]|by rewrite final_snoc].
  - intros k Hk. pose proof (fi_once s Hs k Hk) as Hn. destruct (mv_keyed _ _ _ _ _ _ _ Hm k Hk) as [(-> & _)|(key & e & data & o & _ & _ & _ & -> & _)]; [done|].
    rewrite !fmap_app. apply NoDup_app. split_and!; [done| |apply NoDup_singleton]. cbn. intros j Hj ->%list_elem_of_singleton.
    apply list_elem_of_fmap in Hj as ([j' e'] & -> & Hj). apply list_elem_of_fmap in Hj as ([[? ?] d2] & Hq & Hj). injection Hq as -> ->.
    destruct (fi_commit s Hs k _ _ _ Hk Hj) as [_ Hst]. destruct (Hst pr Hpr) as (o' & Ho & _). by apply (mv_going _ _ _ _ _ _ _ Hm) in Ho.
  - intros k j e data Hk Hin. assert ((j, e, data) ∈ commits k (fs_log s) \/ (j = i /\ exists key o, pr_req pr = RPutIfVersion key e data /\ objectPath key = Some k /\ pc' = Stopped o /\ o <> Conflict)) as [Hold|(-> & key & o & Hr & Hkey & Hpc & Ho)].
    { destruct (mv_keyed _ _ _ _ _ _ _ Hm k Hk) as [(Hc & _)|(key & e' & data' & o & Hr & Hkey & _ & Hc & _ & _ & Hpc & Ho)]; rewrite Hc in Hin; [by left|].
      apply elem_of_app in Hin as [Hin|Hin%list_elem_of_singleton]; [by left|]. injection Hin as -> -> ->. right. split; [done|]. exists key, o. split_and!; try done. by destruct Ho as [->| ->]. }
    + destruct (fi_commit s Hs k j e data Hk Hold) as [H0 Hst]. split; [done|]. intros p2 [[-> ->]|[_ Hj]]%Hcase; [|by apply Hst].
      destruct (Hst pr Hpr) as (o & Ho & _). by apply (mv_going _ _ _ _ _ _ _ Hm) in Ho.
    + split.
      * destruct (fi_req s Hs _ _ Hpr) as (pr0 & H0 & He). exists key, pr0. by rewrite He.
      * intros p2 [[_ ->]|[Hn _]]%Hcase; [|done]. by exists o.
  - intros k j p2 v Hk [[-> ->]|[Hn Hj]]%Hcase Hpc key e data Hr Hkey; cbn [pr' pr_pc pr_req] in *.
    + destruct (mv_keyed _ _ _ _ _ _ _ Hm k Hk) as [(_ & _ & _ & Hno)|(key' & e' & data' & o & Hr' & _ & _ & -> & _ & _ & Hpc' & Ho)]; [by destruct (Hno v key e data)|].
      rewrite Hr in Hr'. injection Hr' as <- <- <-. rewrite Hpc in Hpc'. injection Hpc' as <-. destruct Ho as [?|[= ->]]; [done|]. split; [done|]. apply elem_of_app. right. by left.
    + destruct (fi_stored s Hs k j p2 v Hk Hj Hpc key e data Hr Hkey) as [-> Hin]. split; [done|].
      destruct (mv_keyed _ _ _ _ _ _ _ Hm k Hk) as [(-> & _)|(? & ? & ? & ? & _ & _ & _ & -> & _)]; [done|]. apply elem_of_app. by left.
Qed.
(** * Every step is such a move *)

(** A change of the disk that touches no object and no other writer's temporary file. *)
Definition frame (s : fsState) (i : nat) (d' : Disk) : Prop :=
  (forall p, plain p -> fileAt d' p = fileAt (fs_disk s) p) /\
  (forall j pr2 q, j <> i -> fs_procs s !! j = Some pr2 -> tempOf pr2 = Some q -> d' !! q = fs_disk s !! q).

Lemma frame_refl s i : frame s i (fs_disk s).
Proof. done. Qed.

Lemma mkdirAll_keeps p d cur d' : mkdirAll d cur p = Ok d' ->
  (forall q n, d !! q = Some n -> d' !! q = Some n) /\ (forall q, fileAt d' q = fileAt d q).
Proof.
  revert d cur. induction p as [|c p IH]; intros d cur; cbn [mkdirAll]; [by intros [= ->]|].
  destruct (d !! (cur ++ [c])) as [[]|] eqn:E; [apply IH|done..|]. intros [H1 H2]%IH. split.
  - intros q n Hq. apply H1. rewrite lookup_insert_ne; [done|]. intros <-. congruence.
  - intros q. rewrite H2. unfold fileAt. destruct (decide (cur ++ [c] = q)) as [<-|Hn]; [by rewrite lookup_insert_eq, E|by rewrite lookup_insert_ne].
Qed.

Lemma temp_there s j pr2 q : fs_inv s -> fs_procs s !! j = Some pr2 -> tempOf pr2 = Some q -> is_Some (fs_disk s !! q) /\ ~ plain q.
Proof. intros Hs Hj Hq. destruct (fi_temp s Hs _ _ Hj q Hq) as (p & n & c & _ & -> & Hc & _). split; [by eexists|apply tmp_own]. Qed.

Lemma frame_prepare s i p d' : fs_inv s -> prepare (fs_disk s) p = Ok d' -> frame s i d' /\ forall q n, fs_disk s !! q = Some n -> d' !! q = Some n.
Proof.
  intros Hs. unfold prepare. destruct (rejectSymlinkComponents _ _ _); [|done]. intros [H1 H2]%mkdirAll_keeps. split; [|done]. split; [done|].
  intros j pr2 q _ Hj Hq. destruct (temp_there s j pr2 q Hs Hj Hq) as [[n Hn] _]. by rewrite (H1 q n).
Qed.

(** A change at one of the store's own files, which no other writer has as its temporary file. *)
Lemma frame_own s i d q d' :
  fs_inv s -> frame s i d -> ~ plain q -> (forall x, x <> q -> d' !! x = d !! x) ->
  (forall j pr2, j <> i -> fs_procs s !! j = Some pr2 -> tempOf pr2 <> Some q) -> frame s i d'.
Proof.
  intros Hs [H1 H2] Hq Hd Ho. split.
  - intros p Hp. rewrite <- H1 by done. unfold fileAt. rewrite Hd; [done|]. by intros ->.
  - intros j pr2 x Hn Hj Hx. rewrite <- (H2 j pr2) by done. apply Hd. intros ->. by apply (Ho j pr2).
Qed.

Lemma temp_others s i pr q j pr2 : fs_inv s -> fs_procs s !! i = Some pr -> tempOf pr = Some q -> j <> i -> fs_procs s !! j = Some pr2 -> tempOf pr2 <> Some q.
Proof. intros Hs Hi Hq Hn Hj H2. apply Hn. by apply (fi_apart s Hs j i pr2 pr q). Qed.

Lemma release_others (i : nat) (locks : gmap path nat) (j : nat) lp : j <> i -> locks !! lp = Some j -> release i locks !! lp = Some j.
Proof. intros Hn Hl. unfold release. apply map_lookup_filter_Some. done. Qed.

(** Stopping without a result to account for. *)
Lemma stop_move s i pr o d' : fs_inv s -> fs_procs s !! i = Some pr -> (forall o', pr_pc pr <> Stopped o') -> frame s i d' ->
  (forall v key e data, o = Stored v -> pr_req pr <> RPutIfVersion key e data) ->
  fs_inv (stop i pr o (withDisk d' s)).
Proof.
  intros Hs Hi Hg [Hf Ht] Ho. apply (move_inv s i pr (Stopped o) d' (release i (fs_locks s)) (fs_log s) Hs). split; try done.
  - intros p c Hp Hc. left. by rewrite <- Hf.
  - intros. by apply release_others.
  - intros k [Hk _]. left. split_and!; [done|by apply Hf|done|]. intros v key e data [= ->] Hr _. by apply (Ho v key e data).
Qed.

(** Moving on to a place that holds no lock or temporary file it did not hold. *)
Lemma go_move s i pr pc' d' locks' : fs_inv s -> fs_procs s !! i = Some pr -> (forall o', pr_pc pr <> Stopped o') -> frame s i d' ->
  (forall o, pc' <> Stopped o) -> (forall j lp, j <> i -> fs_locks s !! lp = Some j -> locks' !! lp = Some j) ->
  (forall p, holds (MkProc (pr_req pr) pc') = Some p -> locks' !! lockPath p = Some i) ->
  shaped (MkProc (pr_req pr) pc') -> tempOk d' (MkProc (pr_req pr) pc') ->
  (forall j pr2 q, j <> i -> fs_procs s !! j = Some pr2 -> tempOf pr2 = Some q -> tempOf (MkProc (pr_req pr) pc') <> Some q) ->
  (forall k e, exclusive k -> checkedAt (MkProc (pr_req pr) pc') k e -> e = versionOf (fileAt (fs_disk s) k)) ->
  fs_inv (moveTo i pr pc' (MkFs d' locks' (fs_procs s) (fs_log s))).
Proof.
  intros Hs Hi Hg [Hf Ht] Hpc Hl Hh Hsh Htmp Ha Hc. apply (move_inv s i pr pc' d' locks' (fs_log s) Hs). split; try done.
  - intros p c Hp Hc'. left. by rewrite <- Hf.
  - intros k Hk. left. split_and!; [done|apply Hf, Hk|intros e; by apply Hc|]. intros v key e data He. by apply Hpc in He.
Qed.
Lemma withDisk_same s : withDisk (fs_disk s) s = s.
Proof. by destruct s. Qed.

Lemma stop_same s i pr o : fs_inv s -> fs_procs s !! i = Some pr -> (forall o', pr_pc pr <> Stopped o') ->
  (forall v key e data, o = Stored v -> pr_req pr <> RPutIfVersion key e data) -> fs_inv (stop i pr o s).
Proof. intros. rewrite <- (withDisk_same s). by apply stop_move. Qed.

(** Another round without progress: directories or a lock file may be new. *)
Lemma wait_inv s i pr d' : fs_inv s -> fs_procs s !! i = Some pr -> (forall o', pr_pc pr <> Stopped o') -> frame s i d' ->
  (forall q n, fs_disk s !! q = Some n -> d' !! q = Some n) -> fs_inv (withDisk d' s).
Proof.
  intros Hs Hi Hg Hf Hk. assert (withDisk d' s = moveTo i pr (pr_pc pr) (MkFs d' (fs_locks s) (fs_procs s) (fs_log s))) as ->.
  { unfold withDisk, moveTo. cbn. rewrite insert_id; [done|]. rewrite Hi. by destruct pr. }
  destruct pr as [req pc0]. cbn [pr_pc pr_req] in *. apply go_move; try done.
  - intros p Hp. by apply (fi_lock s Hs i (MkProc req pc0)).
  - by apply (fi_shape s Hs i).
  - intros q Hq. destruct (fi_temp s Hs _ _ Hi q Hq) as (p & n & c & ? & ? & Hc & ?). exists p, n, c. split_and!; [done|done|by apply Hk|done].
  - intros j pr2 q Hn Hj H2 H1. apply Hn. by apply (fi_apart s Hs j i pr2 (MkProc req pc0) q).
  - intros k e Hx Hc. by apply (fi_checked s Hs k i (MkProc req pc0)).
Qed.

Lemma going pr : (match pr_pc pr with Stopped _ => False | _ => True end) -> forall o, pr_pc pr <> Stopped o.
Proof. intros H o Ho. by rewrite Ho in H. Qed.

Lemma fail_inv s i pr : fs_inv s -> fs_procs s !! i = Some pr -> (forall o, pr_pc pr <> Stopped o) -> fs_inv (failStep i pr s).
Proof.
  intros Hs Hi Hg. unfold failStep. assert (forall q, tempOf pr = Some q -> fs_inv (stop i pr Failed (withDisk (delete q (fs_disk s)) s))) as Hd.
  { intros q Hq. apply stop_move; try done. apply (frame_own s i (fs_disk s) q); [done|apply frame_refl|by eapply temp_there| |].
    - intros x Hx. by rewrite lookup_delete_ne.
    - intros j pr2. by apply (temp_others s i pr). }
  pose proof (stop_same s i pr Failed Hs Hi Hg ltac:(done)) as Hss.
  destruct (pr_pc pr) eqn:Ep; try done; apply Hd; unfold tempOf; by rewrite Ep.
Qed.

Lemma create_inv s i pr p data n : fs_inv s -> fs_procs s !! i = Some pr -> objectPath (keyOf (pr_req pr)) = Some p ->
  match pr_pc pr, pr_req pr with Begin, RPut _ _ | Checked, RPutIfVersion _ _ _ => True | _, _ => False end ->
  fs_inv (createTemp i pr p data n s).
Proof.
  intros Hs Hi Hp Hpc. assert (forall o, pr_pc pr <> Stopped o) as Hg by (apply going; by destruct (pr_pc pr)). unfold createTemp.
  destruct (_ <? _); [by apply stop_same|]. destruct (prepare _ _) as [d|] eqn:Epr; [|by apply stop_same].
  destruct (frame_prepare s i p d Hs Epr) as [Hf Hk]. destruct (d !! tmpPath p n) eqn:Et; [by apply (wait_inv s i pr)|].
  assert (fs_disk s !! tmpPath p n = None) as Ht. { destruct (fs_disk s !! tmpPath p n) eqn:E; [|done]. apply Hk in E. congruence. }
  assert (forall j pr2, fs_procs s !! j = Some pr2 -> tempOf pr2 <> Some (tmpPath p n)) as Hfresh.
  { intros j pr2 Hj Hq. destruct (temp_there s j pr2 _ Hs Hj Hq) as [[? ?] _]. congruence. }
  unfold withDisk. apply (go_move s i pr (Writing (tmpPath p n)) (<[tmpPath p n := Reg ""]> d) (fs_locks s)); try done.
  - apply (frame_own s i d (tmpPath p n)); [done|done|apply tmp_own| |].
    + intros x Hx. by rewrite lookup_insert_ne.
    + intros j pr2 _. apply Hfresh.
  - intros q Hq. apply (fi_lock s Hs i pr); [done|]. revert Hq Hpc. unfold holds. cbn. by destruct (pr_pc pr), (pr_req pr).
  - revert Hpc. unfold shaped. cbn. by destruct (pr_pc pr), (pr_req pr).
  - intros q [= <-]. exists p, n, "". split_and!; [done|done|by rewrite lookup_insert_eq|done].
  - intros j pr2 q Hn Hj H2 [= <-]. by apply (Hfresh j pr2).
  - intros k e Hx Hc. apply (fi_checked s Hs k i pr); [done|done|]. revert Hc Hpc. unfold checkedAt. cbn. by destruct (pr_pc pr), (pr_req pr).
Qed.

Lemma write_inv s i pr tmp n : fs_inv s -> fs_procs s !! i = Some pr -> pr_pc pr = Writing tmp -> fs_inv (writeTemp i pr tmp (dataOf (pr_req pr)) n s).
Proof.
  intros Hs Hi Hpc. assert (tempOf pr = Some tmp) as Ht by (unfold tempOf; by rewrite Hpc). unfold writeTemp, withDisk.
  set (pc' := if (_ <=? n)%nat then Written tmp else Writing tmp). apply (go_move s i pr pc' (<[tmp := Reg (stake n (dataOf (pr_req pr)))]> (fs_disk s)) (fs_locks s)); try done.
  - intros o. by rewrite Hpc.
  - apply (frame_own s i (fs_disk s) tmp); [done|apply frame_refl|by eapply temp_there| |intros j pr2; by apply (temp_others s i pr)].
    intros x Hx. by rewrite lookup_insert_ne.
  - intros o. unfold pc'. by destruct (_ <=? _)%nat.
  - intros q Hq. apply (fi_lock s Hs i pr); [done|]. revert Hq. unfold holds, pc'. rewrite Hpc. cbn. by destruct (_ <=? _)%nat, (pr_req pr).
  - pose proof (fi_shape s Hs i pr Hi) as Hsh. revert Hsh. unfold shaped, pc'. rewrite Hpc. cbn. by destruct (_ <=? _)%nat, (pr_req pr).
  - intros q Hq. assert (q = tmp) as -> by (revert Hq; unfold tempOf, pc'; cbn; destruct (_ <=? _)%nat; congruence).
    destruct (fi_temp s Hs i pr Hi tmp Ht) as (p & m & c & Hp & -> & _ & _). exists p, m, (stake n (dataOf (pr_req pr))). split_and!; [done|done|by rewrite lookup_insert_eq|].
    unfold pc'. cbn. destruct (_ <=? n)%nat eqn:En; [|done]. intros _. apply Nat.leb_le in En. by apply stake_all.
  - intros j pr2 q Hn Hj H2 Hq. assert (q = tmp) as -> by (revert Hq; unfold tempOf, pc'; cbn; destruct (_ <=? _)%nat; congruence). by apply (temp_others s i pr tmp j pr2).
  - intros k e Hx Hc. apply (fi_checked s Hs k i pr); [done|done|]. revert Hc. unfold checkedAt, pc'. rewrite Hpc. cbn. by destruct (_ <=? _)%nat, (pr_req pr).
Qed.
Lemma commits_snoc k log l : commits k (log ++ [l]) = commits k log ++ commits k [l].
Proof. apply omap_app. Qed.

Lemma plain_tmp s i pr tmp p : fs_inv s -> fs_procs s !! i = Some pr -> tempOf pr = Some tmp -> plain p -> tmp <> p.
Proof. intros Hs Hi Ht Hp ->. by apply (temp_there s i pr p Hs) in Ht as [_ ?]. Qed.

Lemma own_plain s i pr p : fresh -> fs_inv s -> fs_procs s !! i = Some pr -> objectPath (keyOf (pr_req pr)) = Some p -> plain p.
Proof. intros Hf Hs Hi Hp. destruct (fi_req s Hs _ _ Hi) as (pr0 & H0 & He). rewrite <- He in Hp. by apply (fr_keys Hf i pr0). Qed.

Lemma rename_inv s i pr tmp p late : fresh -> fs_inv s -> fs_procs s !! i = Some pr -> pr_pc pr = Written tmp -> objectPath (keyOf (pr_req pr)) = Some p ->
  fs_inv (rename i pr tmp p (landingOf i (pr_req pr) p) late s).
Proof.
  intros Hf Hs Hi Hpc Hp. assert (tempOf pr = Some tmp) as Ht by (unfold tempOf; by rewrite Hpc). assert (forall o, pr_pc pr <> Stopped o) as Hg by (intros o; by rewrite Hpc).
  pose proof (own_plain s i pr p Hf Hs Hi Hp) as Hpl. pose proof (plain_tmp s i pr tmp p Hs Hi Ht Hpl) as Hne.
  assert (fs_inv (stop i pr Failed (withDisk (delete tmp (fs_disk s)) s))) as Hfail.
  { pose proof (fail_inv s i pr Hs Hi Hg) as H. unfold failStep in H. by rewrite Hpc in H. }
  destruct (fi_temp s Hs i pr Hi tmp Ht) as (p' & n & c & _ & _ & Hc & Hdata). specialize (Hdata Hpc). unfold rename. rewrite Hc.
  assert (forall key, pr_req pr <> RDelete key) as Hnd. { pose proof (fi_shape s Hs i pr Hi) as Hsh. revert Hsh. unfold shaped. rewrite Hpc. by destruct (pr_req pr). }
  set (o := if late then Failed else Stored (objectVersion c)). set (d' := <[p := Reg c]> (delete tmp (fs_disk s))).
  assert (fileAt d' p = Some c) as Hdp by (unfold fileAt, d'; by rewrite lookup_insert_eq).
  assert (forall q, plain q -> q <> p -> fileAt d' q = fileAt (fs_disk s) q) as Hd'.
  { intros q Hq Hn. unfold fileAt, d'. rewrite lookup_insert_ne by done. rewrite lookup_delete_ne; [done|]. by apply (plain_tmp s i pr tmp q). }
  enough (fs_inv (stop i pr o (MkFs d' (fs_locks s) (fs_procs s) (fs_log s ++ [landingOf i (pr_req pr) p c])))) as Hok.
  { destruct (fs_disk s !! p) as [[]|]; done. }
  apply (move_inv s i pr (Stopped o) d' (release i (fs_locks s)) (fs_log s ++ [landingOf i (pr_req pr) p c]) Hs). split; try done.
  - intros q x Hq Hx. destruct (decide (q = p)) as [->|Hn]; [|left; by rewrite <- Hd']. right. split_and!; [done|congruence|done].
  - intros j pr2 q Hn Hj Hq. unfold d'. rewrite lookup_insert_ne; [|intros <-; by apply (temp_there s j pr2 p Hs Hj) in Hq as [_ ?]].
    rewrite lookup_delete_ne; [done|]. intros <-. by apply (temp_others s i pr tmp j pr2).
  - intros. by apply release_others.
  - intros k Hk. rewrite commits_snoc. destruct (decide (p = k)) as [<-|Hn].
    + right. destruct (exclusive_req p i pr s Hs Hk Hi Hp) as (key & e & data & Hr). exists key, e, data, o. rewrite Hr in *. cbn [landingOf commits omap list_omap dataOf keyOf] in *.
      subst c. rewrite bool_decide_eq_true_2 by done. split_and!; try done.
      * unfold holds. by rewrite Hpc, Hr.
      * apply (fi_checked s Hs p i pr); [done|done|]. unfold checkedAt. by rewrite Hpc, Hr.
      * unfold o. destruct late; [by left|by right].
    + left. split_and!; [|apply Hd'; [apply Hk|done]|done|intros v key e data _ Hr Hkey; rewrite Hr in Hp; cbn in Hp; congruence].
      replace (commits k [landingOf i (pr_req pr) p c]) with (@nil (nat * string * string)); [by rewrite app_nil_r|]. destruct (pr_req pr); cbn; [done| |done]. by rewrite bool_decide_eq_false_2.
Qed.

Lemma remove_inv s i pr key p late : fresh -> fs_inv s -> fs_procs s !! i = Some pr -> pr_pc pr = Begin -> pr_req pr = RDelete key -> objectPath key = Some p ->
  fs_inv (remove i pr p late s).
Proof.
  intros Hf Hs Hi Hpc Hr Hp. assert (forall o, pr_pc pr <> Stopped o) as Hg by (intros o; by rewrite Hpc).
  assert (objectPath (keyOf (pr_req pr)) = Some p) as Hp' by (by rewrite Hr). pose proof (own_plain s i pr p Hf Hs Hi Hp') as Hpl.
  assert (forall o, fs_inv (stop i pr o s)) as Hstop by (intros o; apply stop_same; try done; intros; by rewrite Hr).
  assert (forall o, fs_inv (stop i pr o (MkFs (delete p (fs_disk s)) (fs_locks s) (fs_procs s) (fs_log s ++ [LDelete p])))) as Hdel.
  { intros o. apply (move_inv s i pr (Stopped o) (delete p (fs_disk s)) (release i (fs_locks s)) (fs_log s ++ [LDelete p]) Hs). split; try done.
    - intros q x Hq. unfold fileAt. destruct (decide (p = q)) as [<-|Hn]; [by rewrite lookup_delete_eq|rewrite lookup_delete_ne by done; by left].
    - intros j pr2 q Hn Hj Hq. rewrite lookup_delete_ne; [done|]. intros <-. by apply (temp_there s j pr2 p Hs Hj) in Hq as [_ ?].
    - intros. by apply release_others.
    - intros k Hk. left. rewrite commits_snoc. cbn. rewrite app_nil_r. split_and!; [done| |done|intros v key' e data _ Hx; congruence].
      unfold fileAt. rewrite lookup_delete_ne; [done|]. intros <-. destruct (exclusive_req p i pr s Hs Hk Hi Hp') as (? & ? & ? & ?). congruence. }
  unfold remove. destruct (rejectSymlinkComponents _ _ _); [|done]. destruct (fs_disk s !! p) as [[]|]; try done. by destruct (existsb _ _).
Qed.

Lemma compareVersion_spec d key e p : objectPath key = Some p ->
  match compareVersion d key e with None => e = versionOf (fileAt d p) | Some o => forall v, o <> Stored v end.
Proof.
  intros Hp. unfold compareVersion, get. rewrite Hp. destruct (rejectSymlinkComponents _ _ _); [|done]. unfold fileAt. destruct (d !! p) as [[|c|]|] eqn:E; [done| |done|].
  - destruct (_ <? _); [done|]. destruct (e =? "")%string; [done|]. destruct (objectVersion c =? e)%string eqn:Ev; [|done]. cbn. by apply String.eqb_eq in Ev.
  - destruct (e =? "")%string eqn:Ee; [|done]. by apply String.eqb_eq in Ee.
Qed.

Lemma open_inv s i pr p : fs_inv s -> fs_procs s !! i = Some pr -> pr_pc pr = Begin -> (forall key, pr_req pr <> RDelete key) -> (forall key data, pr_req pr <> RPut key data) ->
  fs_inv (openLock i pr p s).
Proof.
  intros Hs Hi Hpc Hd Hput. assert (forall o, pr_pc pr <> Stopped o) as Hg by (intros o; by rewrite Hpc). unfold openLock.
  destruct (prepare _ _) as [d|] eqn:Epr; [|by apply stop_same]. destruct (frame_prepare s i p d Hs Epr) as [Hf Hk]. case_bool_decide; [by apply stop_move|].
  unfold withDisk. apply go_move; try done. revert Hd Hput. unfold shaped. cbn. destruct (pr_req pr); [intros _ H0; by apply (H0 key data)|done|intros H0 _; by apply (H0 key)].
Qed.

Lemma acquire_inv s i pr key e data p : fs_inv s -> fs_procs s !! i = Some pr -> pr_pc pr = Waiting -> pr_req pr = RPutIfVersion key e data -> objectPath key = Some p ->
  fs_inv (acquire i pr (lockPath p) s).
Proof.
  intros Hs Hi Hpc Hr Hp. assert (forall o, pr_pc pr <> Stopped o) as Hg by (intros o; by rewrite Hpc). unfold acquire.
  set (d := match fs_disk s !! lockPath p with None => <[lockPath p := Reg ""]> (fs_disk s) | _ => fs_disk s end).
  assert (frame s i d) as Hf.
  { unfold d. destruct (fs_disk s !! lockPath p) eqn:El; [apply frame_refl|]. apply (frame_own s i (fs_disk s) (lockPath p)); [done|apply frame_refl|apply lock_own| |].
    - intros x Hx. by rewrite lookup_insert_ne.
    - intros j pr2 _ Hj Hq. destruct (temp_there s j pr2 _ Hs Hj Hq) as [[? ?] _]. congruence. }
  assert (forall q n, fs_disk s !! q = Some n -> d !! q = Some n) as Hk.
  { unfold d. intros q n Hq. destruct (fs_disk s !! lockPath p) eqn:El; [done|]. rewrite lookup_insert_ne; [done|]. intros <-. congruence. }
  enough (fs_inv (match fs_locks s !! lockPath p with Some _ => withDisk d s | None => moveTo i pr Locked (MkFs d (<[lockPath p := i]> (fs_locks s)) (fs_procs s) (fs_log s)) end)) as Hok.
  { unfold d in Hok. destruct (fs_disk s !! lockPath p) as [[]|]; [by apply stop_same|done|by apply stop_same|done]. }
  destruct (fs_locks s !! lockPath p) eqn:El; [by apply (wait_inv s i pr)|]. apply go_move; try done.
  - intros j lp Hn Hj. rewrite lookup_insert_ne; [done|]. intros <-. congruence.
  - intros q. unfold holds. cbn. rewrite Hr, Hp. intros [= <-]. by rewrite lookup_insert_eq.
  - unfold shaped. cbn. by rewrite Hr.
Qed.

Lemma compare_inv s i pr key e data p : fs_inv s -> fs_procs s !! i = Some pr -> pr_pc pr = Locked -> pr_req pr = RPutIfVersion key e data -> objectPath key = Some p ->
  fs_inv (match compareVersion (fs_disk s) key e with Some o => stop i pr o s | None => moveTo i pr Checked s end).
Proof.
  intros Hs Hi Hpc Hr Hp. assert (forall o, pr_pc pr <> Stopped o) as Hg by (intros o; by rewrite Hpc). pose proof (compareVersion_spec (fs_disk s) key e p Hp) as Hc.
  destruct (compareVersion _ _ _) as [o|]; [apply stop_same; [done..|]; intros v ? ? ? ->; by destruct (Hc v)|].
  destruct s as [d locks procs log]. apply (go_move (MkFs d locks procs log) i pr Checked d locks); try done.
  - intros q Hq. apply (fi_lock _ Hs i pr); [done|]. revert Hq. unfold holds. cbn. by rewrite Hpc.
  - unfold shaped. cbn. by rewrite Hr.
  - intros k e' Hk. unfold checkedAt. cbn. rewrite Hr, Hp. intros [[= <-] ->]. done.
Qed.
Lemma work_inv s i pr n late : fresh -> fs_inv s -> fs_procs s !! i = Some pr -> (forall o, pr_pc pr <> Stopped o) -> fs_inv (workStep i pr n late s).
Proof.
  intros Hf Hs Hi Hg. unfold workStep. destruct (objectPath (keyOf (pr_req pr))) as [p|] eqn:Hp.
  - pose proof (fi_shape s Hs i pr Hi) as Hsh. unfold shaped in Hsh. destruct (pr_pc pr) as [| | | |tmp|tmp|o] eqn:Hpc, (pr_req pr) as [key data|key e data|key] eqn:Hr; try done; cbn [keyOf dataOf] in *.
    all: try (by apply (Hg o)).
    all: try (apply create_inv; [done|done|by rewrite Hr|by rewrite Hpc, Hr]).
    + apply open_inv; [done|done|done| |]; intros; congruence.
    + by apply (remove_inv s i pr key).
    + by apply (acquire_inv s i pr key e data p).
    + by apply (compare_inv s i pr key e data p).
    + replace data with (dataOf (pr_req pr)) by (by rewrite Hr). by apply write_inv.
    + replace data with (dataOf (pr_req pr)) by (by rewrite Hr). by apply write_inv.
    + rewrite <- Hr. apply rename_inv; try done. by rewrite Hr.
    + rewrite <- Hr. apply rename_inv; try done. by rewrite Hr.
  - pose proof (stop_same s i pr Failed Hs Hi Hg ltac:(done)) as H. destruct (pr_pc pr); done.
Qed.

Lemma kill_inv s i : fs_inv s -> fs_inv (MkFs (fs_disk s) (release i (fs_locks s)) (delete i (fs_procs s)) (fs_log s)).
Proof.
  intros Hs. assert (forall j p2, delete i (fs_procs s) !! j = Some p2 -> j <> i /\ fs_procs s !! j = Some p2) as Hd by (intros j p2 [? ?]%lookup_delete_Some; by split).
  split; cbn [fs_disk fs_locks fs_procs fs_log].
  - intros j p2 [_ Hj]%Hd. by apply (fi_req s Hs j p2).
  - intros j p2 [_ Hj]%Hd. by apply (fi_shape s Hs j p2).
  - intros j p2 p [Hn Hj]%Hd Hh. apply release_others; [done|]. by apply (fi_lock s Hs j p2).
  - intros j p2 [_ Hj]%Hd. by apply (fi_temp s Hs j p2).
  - intros a b p1 p2 q [_ H1]%Hd [_ H2]%Hd. by apply (fi_apart s Hs a b p1 p2).
  - apply (fi_file s Hs).
  - intros k j p2 e Hk [_ Hj]%Hd. by apply (fi_checked s Hs k j p2).
  - apply (fi_chain s Hs).
  - apply (fi_once s Hs).
  - intros k j e data Hk Hin. destruct (fi_commit s Hs k j e data Hk Hin) as [H1 H2]. split; [done|]. intros p2 [_ Hj]%Hd. by apply H2.
  - intros k j p2 v Hk [_ Hj]%Hd. by apply (fi_stored s Hs k j p2).
Qed.

Lemma step_inv s il : fresh -> fs_inv s -> fs_inv (step s il).
Proof.
  intros Hf Hs. destruct il as [i l]. cbn [step]. destruct (fs_procs s !! i) as [pr|] eqn:Hi; [|done].
  assert (fs_inv (match l with Works n => workStep i pr n false s | FailsLate => workStep i pr 0 true s | Fails => failStep i pr s | Killed => MkFs (fs_disk s) (release i (fs_locks s)) (delete i (fs_procs s)) (fs_log s) end) \/ exists o, pr_pc pr = Stopped o) as [Hl|[o Ho]].
  { destruct (pr_pc pr) eqn:Hpc; try (by right; eexists); left; (assert (forall o, pr_pc pr <> Stopped o) as Hg by (intros o; by rewrite Hpc)); destruct l; by (apply work_inv || apply fail_inv || apply kill_inv). }
  - by destruct (pr_pc pr), l.
  - by rewrite Ho.
Qed.

Lemma start_inv : fresh -> fs_inv s0.
Proof.
  intros Hf. pose proof (fr_begin Hf) as Hb. split.
  - intros i pr Hi. by exists pr.
  - intros i pr Hi. unfold shaped. by rewrite (Hb i pr Hi).
  - intros i pr p Hi. unfold holds. by rewrite (Hb i pr Hi).
  - intros i pr Hi q. unfold tempOf. by rewrite (Hb i pr Hi).
  - intros i j pr pr2 q Hi Hj. unfold tempOf. by rewrite (Hb i pr Hi).
  - intros p c _ Hc. by left.
  - intros k i pr e _ Hi. unfold checkedAt. by rewrite (Hb i pr Hi).
  - intros k _. by rewrite (fr_log Hf).
  - intros k _. rewrite (fr_log Hf). constructor.
  - intros k i e data _. rewrite (fr_log Hf). intros H. by apply not_elem_of_nil in H.
  - intros k i pr v _ Hi. by rewrite (Hb i pr Hi).
Qed.

Lemma run_inv sched : fresh -> fs_inv (runSchedule sched s0).
Proof.
  intros Hf. unfold runSchedule. apply (foldl_invariant (fs_inv) step); [by apply start_inv|]. intros s il _ Hs. by apply step_inv.
Qed.
End Races.

(** C27.  A reader never sees part of a value: however the steps of the writers are
    interleaved, fail or are cut short, an object holds what it held at the start or a
    whole value that some request carried. *)
Theorem writes_whole s0 sched key c :
  fresh s0 -> (forall p, objectPath key = Some p -> plain p) ->
  get (fs_disk (runSchedule sched s0)) key = Found c ->
  exists p, objectPath key = Some p /\ (fileAt (fs_disk s0) p = Some c \/ submitted s0 p c).
Proof.
  intros Hf Hpl. unfold get. destruct (objectPath key) as [p|]; [|done]. destruct (rejectSymlinkComponents _ _ _); [|done].
  destruct (_ !! p) as [[|d|]|] eqn:E; try done. destruct (_ <? _); [done|]. intros [= ->]. exists p. split; [done|].
  apply (fi_file s0 _ (run_inv s0 sched Hf)); [by apply Hpl|]. unfold fileAt. by rewrite E.
Qed.

(** C14.  The conditional writes of an object are atomic: those that land form a chain
    in which each expects the version of the value before it, the object holds the last
    of them, a writer lands at most once, one that is told so did land, and one that is
    told of a conflict did not. *)
Theorem cas_atomic s0 sched k :
  fresh s0 -> exclusive s0 k ->
  let s := runSchedule sched s0 in
  let cs := commits k (fs_log s) in
  chain (fileAt (fs_disk s0) k) cs /\
  fileAt (fs_disk s) k = final (fileAt (fs_disk s0) k) cs /\
  NoDup cs.*1.*1 /\
  (forall i e data, (i, e, data) ∈ cs -> exists key pr, fs_procs s0 !! i = Some pr /\ pr_req pr = RPutIfVersion key e data /\ objectPath key = Some k) /\
  (forall i key e data v, fs_procs s !! i = Some (MkProc (RPutIfVersion key e data) (Stopped (Stored v))) -> objectPath key = Some k ->
    v = objectVersion data /\ (i, e, data) ∈ cs) /\
  (forall i key e data, fs_procs s !! i = Some (MkProc (RPutIfVersion key e data) (Stopped Conflict)) -> i ∉ cs.*1.*1).
Proof.
  intros Hf Hk s cs. pose proof (run_inv s0 sched Hf) as Hs. fold s in Hs. destruct (fi_chain s0 s Hs k Hk) as [Hc Hfi]. split_and!; [done|done|by apply (fi_once s0 s Hs)| | |].
  - intros i e data Hin. by apply (fi_commit s0 s Hs k i e data Hk).
  - intros i key e data v Hi Hkey. by apply (fi_stored s0 s Hs k i _ v Hk Hi eq_refl key e data).
  - intros i key e data Hi ([j e'] & -> & Hj)%list_elem_of_fmap. apply list_elem_of_fmap in Hj as ([[? ?] d2] & Hq & Hj). injection Hq as -> ->.
    destruct (fi_commit s0 s Hs k _ _ _ Hk Hj) as [_ Hst]. destruct (Hst _ Hi) as (o & Ho & Hne). cbn in Ho. congruence.
Qed.

Lemma chain_lookup cur cs m i e data : chain cur cs -> cs !! m = Some (i, e, data) -> (versionOf cur :: (objectVersion <$> cs.*2)) !! m = Some e.
Proof.
  revert cur m. induction cs as [|[[j e'] d'] cs IH]; intros cur m; [done|]. intros [-> Hc]. destruct m as [|m]; cbn [lookup list_lookup].
  - intros [= -> <- ->]. done.
  - intros Hm. apply (IH (Some d') m Hc Hm).
Qed.

(** Content hashes serve as versions: while the values stored on an object differ,
    a write lands only directly after the write whose value its writer read, the first
    one only on an absent object, as if versions counted the writes. *)
Theorem cas_on_latest s0 sched k :
  fresh s0 -> exclusive s0 k -> fileAt (fs_disk s0) k = None ->
  let cs := commits k (fs_log (runSchedule sched s0)) in
  let versions := "" :: (objectVersion <$> cs.*2) in
  NoDup versions ->
  forall m i e data n, cs !! m = Some (i, e, data) -> versions !! n = Some e -> n = m.
Proof.
  intros Hf Hk H0 cs versions Hnd m i e data n Hm Hn. pose proof (run_inv s0 sched Hf) as Hs. destruct (fi_chain s0 _ Hs k Hk) as [Hc _].
  rewrite H0 in Hc. apply (chain_lookup None cs m i e data Hc) in Hm. by apply (NoDup_lookup versions n m e).
Qed.

(** * A concrete race *)

(** Three crawlers write the first manifest: one is killed with a temporary file on
    disk, one wins, and the last is told of the conflict and then writes over the winner. *)
Definition raceStart : fsState :=
  MkFs ∅ ∅ {[ 0%nat := MkProc (RPutIfVersion "m/manifest.json" "" "zero") Begin;
              1%nat := MkProc (RPutIfVersion "m/manifest.json" "" "one") Begin;
              2%nat := MkProc (RPutIfVersion "m//manifest.json" "" "two") Begin;
              3%nat := MkProc (RPutIfVersion "m/manifest.json" (objectVersion "one") "three") Begin ]} [].
Definition raceSchedule : list (nat * luck) :=
  [(0%nat, Works 0); (1%nat, Works 0); (0%nat, Works 0); (1%nat, Works 0); (0%nat, Works 0); (0%nat, Works 0); (0%nat, Works 2);
   (0%nat, Killed); (1%nat, Works 1); (1%nat, Works 1); (2%nat, Works 0); (2%nat, Works 0); (1%nat, Works 1); (1%nat, Works 9); (1%nat, Works 1);
   (2%nat, Works 2); (2%nat, Works 2); (3%nat, Works 3); (3%nat, Works 3); (3%nat, Works 3); (3%nat, Works 3); (3%nat, Works 9); (3%nat, FailsLate)].
Definition racePath : path := ["m"; "manifest.json"].
Definition raceEnd : fsState := runSchedule raceSchedule raceStart.

Example race_end :
  (map_to_list (fs_disk raceEnd)).*1 = [["m"; ".enrscout-0.tmp"]; racePath; ["m"]; ["m"; "manifest.json.lock"]] /\
  list_ (fs_disk raceEnd) "m/man" = Ok ["m/manifest.json"] /\
  commits racePath (fs_log raceEnd) = [(1%nat, "", "one"); (3%nat, objectVersion "one", "three")] /\
  pr_pc <$> fs_procs raceEnd !! 2%nat = Some (Stopped Conflict).
Proof. vm_compute. done. Qed.

Lemma race_procs (P : proc -> Prop) :
  (forall key e data, (key, e, data) ∈ [("m/manifest.json", "", "zero"); ("m/manifest.json", "", "one"); ("m//manifest.json", "", "two"); ("m/manifest.json", objectVersion "one", "three")] ->
    P (MkProc (RPutIfVersion key e data) Begin)) ->
  forall i pr, fs_procs raceStart !! i = Some pr -> P pr.
Proof.
  intros H i pr. unfold raceStart. cbn [fs_procs]. intros Hi.
  apply lookup_insert_Some in Hi as [[_ <-]|[_ Hi]]; [apply H; left|]. apply lookup_insert_Some in Hi as [[_ <-]|[_ Hi]]; [apply H; right; left|].
  apply lookup_insert_Some in Hi as [[_ <-]|[_ Hi]]; [apply H; right; right; left|]. apply lookup_singleton_Some in Hi as [_ <-]. apply H. right. right. right. left.
Qed.

Lemma race_keys key e data : (key, e, data) ∈ [("m/manifest.json", "", "zero"); ("m/manifest.json", "", "one"); ("m//manifest.json", "", "two"); ("m/manifest.json", objectVersion "one", "three")] ->
  objectPath key = Some racePath.
Proof.
  intros H. assert (key ∈ ["m/manifest.json"; "m/manifest.json"; "m//manifest.json"; "m/manifest.json"]) as Hk.
  { apply (list_elem_of_fmap_2 (fun x : string * string * string => x.1.1)) in H. exact H. }
  rewrite !elem_of_cons in Hk. destruct Hk as [->|[->|[->|[->|Hk]]]]; [vm_compute; reflexivity..|]. by apply not_elem_of_nil in Hk.
Qed.

Lemma race_fresh : fresh raceStart.
Proof.
  split; [|done|].
  - by apply (race_procs (fun pr => pr_pc pr = Begin)).
  - intros i pr p Hi. revert p. apply (race_procs (fun pr => forall p, objectPath (keyOf (pr_req pr)) = Some p -> plain p)) with i; [|done].
    intros key e data Hin p. cbn [keyOf pr_req]. rewrite (race_keys key e data Hin). by intros [= <-].
Qed.

Lemma race_exclusive : exclusive raceStart racePath.
Proof.
  split; [done|]. intros i pr Hi Hk. revert Hk. apply (race_procs (fun pr => objectPath (keyOf (pr_req pr)) = Some racePath -> exists key e data, pr_req pr = RPutIfVersion key e data)) with i; [|done].
  intros key e data _ _. by exists key, e, data.
Qed.

Lemma writes_whole_witness : exists p, objectPath "m/manifest.json" = Some p /\ (fileAt (fs_disk raceStart) p = Some "three" \/ submitted raceStart p "three").
Proof.
  apply (writes_whole raceStart raceSchedule "m/manifest.json" "three" race_fresh); [|vm_compute; reflexivity].
  intros p Hp. assert (p = racePath) as -> by (assert (objectPath "m/manifest.json" = Some racePath) as E by (vm_compute; reflexivity); rewrite E in Hp; by injection Hp). reflexivity.
Defined.

Lemma cas_atomic_witness :
  chain None (commits racePath (fs_log raceEnd)) /\ fileAt (fs_disk raceEnd) racePath = Some "three" /\ 2%nat ∉ (commits racePath (fs_log raceEnd)).*1.*1.
Proof.
  destruct (cas_atomic raceStart raceSchedule racePath race_fresh race_exclusive) as (Hc & Hf & _ & _ & _ & Hn). split; [exact Hc|]. split.
  - refine (eq_trans Hf _). vm_compute. reflexivity.
  - apply (Hn 2%nat "m//manifest.json" "" "two"); vm_compute; reflexivity.
Defined.

Lemma cas_on_latest_witness :
  Forall (fun n => ["" ; objectVersion "one"; objectVersion "three"] !! n = Some (objectVersion "one") -> n = 1%nat) [0; 1; 2]%nat.
Proof.
  apply Forall_forall. intros n _ Hn.
  apply (cas_on_latest raceStart raceSchedule racePath race_fresh race_exclusive ltac:(vm_compute; reflexivity) ltac:(apply (bool_decide_unpack _); vm_compute; exact I) 1%nat 3%nat (objectVersion "one") "three" n).
  - vm_compute. reflexivity.
  - vm_compute. vm_compute in Hn. exact Hn.
Defined.
