(* ===== verification/S3Store.v ===== *)
(** The S3 backend of the object store: [internal/store/store.go], from [s3Store].

    A method is a program of calls to the service, [prog]; the service and what others do
    to the bucket between two calls are parameters.  [S3ServiceOk] is what the code relies
    on of an S3 service: reads return what is stored, a conditional write is decided and
    applied in one step, and a failed write may still have been applied. *)

From stdpp Require Import base gmap strings list numbers pretty.
From Stdlib Require Import ZArith Lia Ascii.
From S2P Require Import Prelude GoLib Text Hashes Consensus ForkId Network NodeData Nodeset Releases Snapshot FileStore.
#[local] Open Scope Z_scope.

(** * Calls *)

Inductive response (A : Type) := Done (a : A) | NoSuchKey | PreconditionFailed | OtherError.
Arguments Done {A} _.
Arguments NoSuchKey {A}.
Arguments PreconditionFailed {A}.
Arguments OtherError {A}.

(** [If-None-Match: *] and [If-Match]. *)
Inductive condition := Always | IfAbsent | IfMatch (etag : string).

Inductive prog (A : Type) :=
| Ret (a : A)
| StatObject (key : string) (k : response string -> prog A)
| GetObject (key : string) (etag : option string) (k : response string -> prog A)
| PutObject (key data : string) (cond : condition) (k : response string -> prog A)
| RemoveObject (key : string) (k : response unit -> prog A)
| ListObjects (prefix : string) (k : response (list string) -> prog A).
Arguments Ret {A} _.
Arguments StatObject {A} _ _.
Arguments GetObject {A} _ _ _.
Arguments PutObject {A} _ _ _ _.
Arguments RemoveObject {A} _ _.
Arguments ListObjects {A} _ _.

Fixpoint bind {A B} (p : prog A) (f : A -> prog B) : prog B :=
  match p with
  | Ret a => f a
  | StatObject key k => StatObject key (fun r => bind (k r) f)
  | GetObject key etag k => GetObject key etag (fun r => bind (k r) f)
  | PutObject key data c k => PutObject key data c (fun r => bind (k r) f)
  | RemoveObject key k => RemoveObject key (fun r => bind (k r) f)
  | ListObjects prefix k => ListObjects prefix (fun r => bind (k r) f)
  end.

(** * Methods *)

(** What a method returns: a value, [ErrNotFound], [ErrCASConflict] or another error. *)
Inductive reply (A : Type) := Ok_ (a : A) | ErrNotFound | ErrCASConflict | ErrOther.
Arguments Ok_ {A} _.
Arguments ErrNotFound {A}.
Arguments ErrCASConflict {A}.
Arguments ErrOther {A}.

Definition badKey (key : string) : bool := negb (is_ok (safeRelPath key)).

Definition s3_Put (key data : string) : prog (reply unit) :=
  if badKey key then Ret ErrOther
  else if MaxObjectBytes <? slen data then Ret ErrOther
  else PutObject key data Always (fun r => Ret (match r with Done _ => Ok_ tt | _ => ErrOther end)).

Definition s3_Get (key : string) : prog (reply string) :=
  if badKey key then Ret ErrOther
  else GetObject key None (fun r => Ret (match r with
         | Done data => if MaxObjectBytes <? slen data then ErrOther else Ok_ data
         | NoSuchKey => ErrNotFound
         | _ => ErrOther end)).

Definition s3_GetVersion (key : string) : prog (reply (string * string)) :=
  if badKey key then Ret ErrOther
  else StatObject key (fun r =>
    match r with
    | NoSuchKey => Ret ErrNotFound
    | PreconditionFailed | OtherError => Ret ErrOther
    | Done etag =>
        GetObject key (Some etag) (fun r => Ret (match r with
          | Done data => if MaxObjectBytes <? slen data then ErrOther else Ok_ (data, etag)
          | PreconditionFailed => ErrCASConflict
          | _ => ErrOther end))
    end).

(** [putIfVersionVerified]: check, write, read back. *)
Definition putIfVersionVerified (key expectedVersion data : string) : prog (reply string) :=
  bind (s3_GetVersion key) (fun r =>
    let write :=
      bind (s3_Put key data) (fun r =>
        match r with
        | Ok_ _ =>
            bind (s3_GetVersion key) (fun r =>
              match r with
              | Ok_ (written, version) => Ret (if (written =? data)%string then Ok_ version else ErrCASConflict)
              | ErrNotFound => Ret ErrNotFound
              | ErrCASConflict => Ret ErrCASConflict
              | ErrOther => Ret ErrOther
              end)
        | ErrNotFound => Ret ErrNotFound
        | ErrCASConflict => Ret ErrCASConflict
        | ErrOther => Ret ErrOther
        end) in
    match r with
    | ErrNotFound => if (expectedVersion =? "")%string then write else Ret ErrCASConflict
    | ErrCASConflict => Ret ErrCASConflict
    | ErrOther => Ret ErrOther
    | Ok_ (_, currentVersion) =>
        if (expectedVersion =? "")%string || negb (currentVersion =? expectedVersion)%string then Ret ErrCASConflict else write
    end).

Inductive conditionalMode := native | verified.
Definition s3_PutIfVersion (mode : conditionalMode) (key expectedVersion data : string) : prog (reply string) :=
  if badKey key then Ret ErrOther
  else if MaxObjectBytes <? slen data then Ret ErrOther
  else match mode with
       | verified => putIfVersionVerified key expectedVersion data
       | native =>
           PutObject key data (if (expectedVersion =? "")%string then IfAbsent else IfMatch expectedVersion) (fun r =>
             Ret (match r with Done etag => Ok_ etag | PreconditionFailed => ErrCASConflict | _ => ErrOther end))
       end.

Definition s3_List (prefix : string) : prog (reply (list string)) :=
  if negb (prefix =? "")%string && badKey (TrimSuffix prefix "/") then Ret ErrOther
  else ListObjects prefix (fun r => Ret (match r with Done keys => Ok_ keys | _ => ErrOther end)).

Definition s3_Delete (key : string) : prog (reply unit) :=
  if badKey key then Ret ErrOther
  else RemoveObject key (fun r => Ret (match r with Done _ => Ok_ tt | _ => ErrOther end)).

(** * The service *)

(** [Oracle] is the chance of one call. *)
Class S3Service := {
  Bucket : Type;
  Oracle : Type;
  objects : Bucket -> gmap string (string * string);
  serveStat : Oracle -> Bucket -> string -> response string;
  serveGet : Oracle -> Bucket -> string -> option string -> response string;
  servePut : Oracle -> Bucket -> string -> string -> condition -> response string * Bucket;
  serveRemove : Oracle -> Bucket -> string -> response unit * Bucket;
  serveList : Oracle -> Bucket -> string -> response (list string)
}.

Definition holds (c : condition) (o : option (string * string)) : bool :=
  match c with
  | Always => true
  | IfAbsent => match o with None => true | Some _ => false end
  | IfMatch e => match o with Some (_, etag) => (etag =? e)%string | None => false end
  end.

Class S3ServiceOk `{S3Service} : Prop := {
  stat_done o b key e : serveStat o b key = Done e -> exists data, objects b !! key = Some (data, e);
  stat_none o b key : serveStat o b key = NoSuchKey -> objects b !! key = None;
  get_done o b key m data : serveGet o b key m = Done data -> exists e, objects b !! key = Some (data, e) /\ (forall e', m = Some e' -> e = e');
  get_refused o b key m : serveGet o b key m = PreconditionFailed -> exists e e' data, m = Some e /\ objects b !! key = Some (data, e') /\ e <> e';
  put_done o b key data c e b' : servePut o b key data c = (Done e, b') -> holds c (objects b !! key) = true /\ e <> "" /\ objects b' = <[key := (data, e)]> (objects b);
  put_refused o b key data c b' : servePut o b key data c = (PreconditionFailed, b') -> holds c (objects b !! key) = false /\ objects b' = objects b;
  put_failed o b key data c r b' : servePut o b key data c = (r, b') -> r = NoSuchKey \/ r = OtherError ->
    objects b' = objects b \/ holds c (objects b !! key) = true /\ exists e, objects b' = <[key := (data, e)]> (objects b)
}.

Section Exec.
Context `{Hs : S3Service}.

(** One program among others: before each call the others change the bucket, and a
    script that ends early is a process that is killed. *)
Fixpoint exec {A} (script : list (Oracle * (Bucket -> Bucket))) (b : Bucket) (p : prog A) {struct p} : option A * Bucket :=
  match p with
  | Ret a => (Some a, b)
  | StatObject key k => match script with [] => (None, b) | (o, others) :: script' => exec script' (others b) (k (serveStat o (others b) key)) end
  | GetObject key etag k => match script with [] => (None, b) | (o, others) :: script' => exec script' (others b) (k (serveGet o (others b) key etag)) end
  | PutObject key data c k => match script with [] => (None, b) | (o, others) :: script' => let '(r, b') := servePut o (others b) key data c in exec script' b' (k r) end
  | RemoveObject key k => match script with [] => (None, b) | (o, others) :: script' => let '(r, b') := serveRemove o (others b) key in exec script' b' (k r) end
  | ListObjects prefix k => match script with [] => (None, b) | (o, others) :: script' => exec script' (others b) (k (serveList o (others b) prefix)) end
  end.
End Exec.

(** * Compare and swap *)

(** The condition an expected version stands for. *)
Definition expects (expectedVersion : string) : condition := if (expectedVersion =? "")%string then IfAbsent else IfMatch expectedVersion.

(** One conditional write of an object, with a process that may be killed ([None]). *)
Definition cas_spec (key expectedVersion data : string) (m : gmap string (string * string)) (r : option (reply string)) (m' : gmap string (string * string)) : Prop :=
  let matches := holds (expects expectedVersion) (m !! key) in
  match r with
  | Some (Ok_ version) => matches = true /\ m' = <[key := (data, version)]> m
  | Some ErrCASConflict => matches = false /\ m' = m
  | _ => m' = m \/ matches = true /\ exists version, m' = <[key := (data, version)]> m
  end.

Section Props.
Context `{Hok : S3ServiceOk}.

(** A script in which nobody else writes. *)
Definition alone (script : list (Oracle * (Bucket -> Bucket))) : Prop := forall o others b, (o, others) ∈ script -> others b = b.

Lemma alone_cons o others script : alone ((o, others) :: script) -> (forall b, others b = b) /\ alone script.
Proof. intros Hal. split; [intros b; apply (Hal o); by left|]. intros o1 f b Hin. apply (Hal o1). by right. Qed.

Lemma exec_bind {A B} script b (p : prog A) (f : A -> prog B) :
  exists used rest, script = used ++ rest /\ exec script b (bind p f) =
    match exec used b p with (Some a, b1) => exec rest b1 (f a) | (None, b1) => (None, b1) end.
Proof.
  revert script b. induction p as [a|key k IH|key etag k IH|key data c k IH|key k IH|prefix k IH]; intros script b; cbn [bind exec].
  { by exists [], script. }
  all: destruct script as [|[o others] script]; [by exists [], []|].
  all: try (match goal with |- context [exec ?sc ?b' (bind (?k ?r) ?g)] => match goal with IH : forall _ : response _, _ |- _ => destruct (IH r sc b') as (used & rest & -> & He) end end;
    exists ((o, others) :: used), rest; by split).
  - destruct (servePut o (others b) key data c) as [r b'] eqn:E. destruct (IH r script b') as (used & rest & -> & He).
    exists ((o, others) :: used), rest. split; [done|]. cbn [exec]. by rewrite E.
  - destruct (serveRemove o (others b) key) as [r b'] eqn:E. destruct (IH r script b') as (used & rest & -> & He).
    exists ((o, others) :: used), rest. split; [done|]. cbn [exec]. by rewrite E.
Qed.

(** What the check of the verified mode decides on is the object as it is. *)
Lemma precheck key script b r b' :
  alone script -> exec script b (s3_GetVersion key) = (r, b') ->
  b' = b /\ match r with Some (Ok_ (data, version)) => objects b !! key = Some (data, version) | Some ErrNotFound => objects b !! key = None
             | Some ErrCASConflict => False | _ => True end.
Proof using Hok.
  intros Ha. unfold s3_GetVersion. destruct (badKey key); cbn [exec]; [by intros [= <- <-]|].
  destruct script as [|[o f] script]; [by intros [= <- <-]|]. destruct (alone_cons _ _ _ Ha) as [Hf Ha2]. rewrite Hf.
  destruct (serveStat o b key) as [e| | |] eqn:Es; cbn [exec]; try by intros [= <- <-].
  - destruct (stat_done o b key e Es) as [d0 Hd]. destruct script as [|[o2 f2] script]; [by intros [= <- <-]|]. destruct (alone_cons _ _ _ Ha2) as [Hf2 _]. rewrite Hf2.
    destruct (serveGet o2 b key (Some e)) as [d| | |] eqn:Eg; cbn [exec]; intros [= <- <-]; (split; [done|]); try done.
    + destruct (MaxObjectBytes <? slen d); [done|]. apply get_done in Eg as (e' & He & Hm). by rewrite <- (Hm e eq_refl).
    + apply get_refused in Eg as (e1 & e' & d & [= <-] & He & Hne). rewrite Hd in He. by injection He as _ <-.
  - intros [= <- <-]. split; [done|]. by apply (stat_none o).
Qed.

Lemma alone_app used rest : alone (used ++ rest) -> alone used /\ alone rest.
Proof. intros Hal. split; intros o f b Hin; apply (Hal o), elem_of_app; [by left|by right]. Qed.

Lemma put_cases key data script b r b' :
  alone script -> badKey key = false -> (MaxObjectBytes <? slen data) = false -> exec script b (s3_Put key data) = (r, b') ->
  match r with
  | Some (Ok_ _) => exists version, objects b' = <[key := (data, version)]> (objects b)
  | Some ErrNotFound | Some ErrCASConflict => False
  | _ => objects b' = objects b \/ exists version, objects b' = <[key := (data, version)]> (objects b)
  end.
Proof using Hok.
  intros Ha Hk Hm. unfold s3_Put. rewrite Hk, Hm. cbn [exec]. destruct script as [|[o f] script]; [intros [= <- <-]; by left|].
  destruct (alone_cons _ _ _ Ha) as [Hf _]. rewrite Hf. destruct (servePut o b key data Always) as [p b1] eqn:Ep. cbn [exec]. intros [= <- <-].
  destruct p as [e| | |].
  - apply put_done in Ep as (_ & _ & ->). by exists e.
  - apply put_failed in Ep as [?|[_ ?]]; [by left|by right|by left].
  - apply put_refused in Ep as [_ ?]. by left.
  - apply put_failed in Ep as [?|[_ ?]]; [by left|by right|by right].
Qed.

Lemma verified_alone key expectedVersion data script b r b' :
  alone script -> badKey key = false -> (MaxObjectBytes <? slen data) = false ->
  exec script b (putIfVersionVerified key expectedVersion data) = (r, b') -> cas_spec key expectedVersion data (objects b) r (objects b').
Proof using Hok.
  intros Ha Hk Hm. unfold putIfVersionVerified.
  match goal with |- context [bind (s3_GetVersion key) ?f] => destruct (exec_bind script b (s3_GetVersion key) f) as (used & rest & -> & ->) end.
  apply alone_app in Ha as [Ha1 Ha2]. destruct (exec used b (s3_GetVersion key)) as [[c|] b1] eqn:E1.
  2: { apply precheck in E1 as [-> _]; [|done]. intros [= <- <-]. by left. }
  apply precheck in E1 as [-> Hc]; [|done]. set (write := bind (s3_Put key data) _).
  assert (holds (expects expectedVersion) (objects b !! key) = true -> exec rest b write = (r, b') -> cas_spec key expectedVersion data (objects b) r (objects b')) as Hw.
  { intros Hh. unfold write. match goal with |- context [bind (s3_Put key data) ?f] => destruct (exec_bind rest b (s3_Put key data) f) as (u2 & r2 & -> & ->) end.
    apply alone_app in Ha2 as [Hu2 Hr2]. destruct (exec u2 b (s3_Put key data)) as [o b2] eqn:E2. pose proof (put_cases _ _ _ _ _ _ Hu2 Hk Hm E2) as Hp.
    assert (forall q, objects b2 = objects b \/ (exists version, objects b2 = <[key := (data, version)]> (objects b)) -> match q with Some (Ok_ _) | Some ErrCASConflict => False | _ => True end ->
      cas_spec key expectedVersion data (objects b) q (objects b2)) as Hfail.
    { intros q Hq. unfold cas_spec. destruct q as [[]|]; try done; (destruct Hq as [?|?]; [by left|by right]). }
    destruct o as [[[]| | |]|]; try done; try (cbn [exec]; intros [= <- <-]; by apply Hfail).
    destruct Hp as [version Hp]. match goal with |- context [bind (s3_GetVersion key) ?f] => destruct (exec_bind r2 b2 (s3_GetVersion key) f) as (u3 & r3 & -> & ->) end.
    apply alone_app in Hr2 as [Hu3 _]. destruct (exec u3 b2 (s3_GetVersion key)) as [[q|] b3] eqn:E3; apply precheck in E3 as [-> Hq]; try done.
    - assert (objects b2 !! key = Some (data, version)) as Hb2 by (rewrite Hp; apply lookup_insert_eq).
      destruct q as [[written v]| | |]; cbn [exec]; try done; try (rewrite Hb2 in Hq; done).
      + rewrite Hb2 in Hq. injection Hq as -> ->. rewrite String.eqb_refl. cbn [exec]. intros [= <- <-]. by split.
      + intros [= <- <-]. apply Hfail; [by right; exists version|done].
    - intros [= <- <-]. apply Hfail; [by right; exists version|done]. }
  unfold expects, holds in *. destruct c as [[d v]| | |].
  - rewrite Hc in *. destruct (expectedVersion =? "")%string eqn:Ee; cbn [orb exec]; [intros [= <- <-]; unfold cas_spec, expects, holds; rewrite Ee, Hc; done|].
    destruct (v =? expectedVersion)%string eqn:Ev; cbn [negb exec]; [by apply Hw|]. intros [= <- <-]. unfold cas_spec, expects, holds. by rewrite Ee, Hc.
  - rewrite Hc in *. destruct (expectedVersion =? "")%string eqn:Ee; [by apply Hw|]. cbn [exec]. intros [= <- <-]. unfold cas_spec, expects, holds. by rewrite Ee, Hc.
  - done.
  - cbn [exec]. intros [= <- <-]. by left.
Qed.

Lemma native_any key expectedVersion data o (others : Bucket -> Bucket) script b r b' :
  badKey key = false -> (MaxObjectBytes <? slen data) = false ->
  exec ((o, others) :: script) b (s3_PutIfVersion native key expectedVersion data) = (r, b') ->
  cas_spec key expectedVersion data (objects (others b)) r (objects b').
Proof using Hok.
  intros Hk Hm. unfold s3_PutIfVersion. rewrite Hk, Hm. cbn [exec]. fold (expects expectedVersion).
  destruct (servePut o (others b) key data (expects expectedVersion)) as [p b1] eqn:Ep. cbn [exec]. intros [= <- <-]. unfold cas_spec. destruct p as [e| | |].
  - apply put_done in Ep as (Hh & _ & Ho). by split.
  - apply put_failed in Ep as [?|[??]]; [by left|by right|by left].
  - by apply put_refused in Ep as [Hh Ho].
  - apply put_failed in Ep as [?|[??]]; [by left|by right|by right].
Qed.

(** C39.  A conditional write to S3 replaces the object exactly when its version is the
    expected one, and reports a conflict only when it is not and nothing was written: in
    native mode on the object as the write finds it, whatever others do; in verified mode,
    whose check, write and read-back are separate calls, while nobody else writes. *)
Theorem s3_conditional mode key expectedVersion data script b r b' :
  exec script b (s3_PutIfVersion mode key expectedVersion data) = (r, b') ->
  (mode = native -> exists b1, (b1 = b \/ exists o others rest, script = (o, others) :: rest /\ b1 = others b) /\
     cas_spec key expectedVersion data (objects b1) r (objects b')) /\
  (alone script -> cas_spec key expectedVersion data (objects b) r (objects b')).
Proof using Hok.
  intros He. destruct (badKey key) eqn:Hk; [|destruct (MaxObjectBytes <? slen data) eqn:Hm].
  1,2: unfold s3_PutIfVersion in He; rewrite Hk, ?Hm in He; cbn [exec] in He; injection He as <- <-; split; [intros _; exists b; split|intros _]; by left.
  split.
  - intros ->. destruct script as [|[o others] script].
    + unfold s3_PutIfVersion in He. rewrite Hk, Hm in He. cbn [exec] in He. injection He as <- <-. exists b. split; by left.
    + exists (others b). split; [right; by exists o, others, script|]. by apply (native_any _ _ _ o others script b).
  - intros Ha. destruct mode.
    + destruct script as [|[o others] script]; [unfold s3_PutIfVersion in He; rewrite Hk, Hm in He; cbn [exec] in He; injection He as <- <-; by left|].
      destruct (alone_cons _ _ _ Ha) as [Hf _]. rewrite <- (Hf b). by apply (native_any _ _ _ o others script b).
    + unfold s3_PutIfVersion in He. rewrite Hk, Hm in He. by apply (verified_alone _ _ _ script).
Qed.
End Props.

(** * A service *)

(** Versions count the writes; the oracle says whether the call fails. *)
Definition countedS3 : S3Service := {|
  Bucket := nat * gmap string (string * string);
  Oracle := bool;
  objects := snd;
  serveStat fails b key := if fails then OtherError else match b.2 !! key with Some (_, e) => Done e | None => NoSuchKey end;
  serveGet fails b key etag := if fails then OtherError else
    match b.2 !! key with
    | None => NoSuchKey
    | Some (data, e) => match etag with Some e' => if (e' =? e)%string then Done data else PreconditionFailed | None => Done data end
    end;
  servePut fails b key data c :=
    if fails then (OtherError, b)
    else if holds c (b.2 !! key) then let e := String "e" (pretty (N.of_nat b.1)) in (Done e, (S b.1, <[key := (data, e)]> b.2))
    else (PreconditionFailed, b);
  serveRemove fails b key := if fails then (OtherError, b) else (Done tt, (b.1, delete key b.2));
  serveList fails b prefix := if fails then OtherError else Done (List.filter (fun k => HasPrefix k prefix) (map_to_list b.2).*1)
|}.

#[export] Instance countedS3_ok : @S3ServiceOk countedS3.
Proof.
  split; cbn.
  - intros [] b key e; [done|]. destruct (b.2 !! key) as [[d e']|]; [|done]. intros [= <-]. by exists d.
  - intros [] b key; [done|]. by destruct (b.2 !! key) as [[]|].
  - intros [] b key m data; [done|]. destruct (b.2 !! key) as [[d e]|]; [|done]. destruct m as [e'|]; [|intros [= <-]; by exists e].
    destruct (String.eqb_spec e' e) as [->|]; [|done]. intros [= <-]. exists e. split; [done|]. by intros e'' [= <-].
  - intros [] b key m; [done|]. destruct (b.2 !! key) as [[d e]|]; [|done]. destruct m as [e'|]; [|done].
    destruct (String.eqb_spec e' e) as [->|Hne]; [done|]. intros _. by exists e', e, d.
  - intros [] b key data c e b'; [done|]. destruct (holds c _) eqn:E; [|done]. by intros [= <- <-].
  - intros [] b key data c b'; [done|]. destruct (holds c _) eqn:E; [done|]. by intros [= <-].
  - intros [] b key data c r b'; [intros [= <- <-] _; by left|]. destruct (holds c _) eqn:E; intros [= <- <-] [?|?]; done.
Qed.

Definition emptyBucket : @Bucket countedS3 := (O, ∅).
Definition quiet (n : nat) : list (bool * (@Bucket countedS3 -> @Bucket countedS3)) := replicate n (false, id).

Lemma s3_conditional_witness :
  exists b', @exec countedS3 _ (quiet 4) emptyBucket (s3_PutIfVersion verified "manifest.json" "" "first") = (Some (Ok_ "e0"), b') /\
    cas_spec "manifest.json" "" "first" ∅ (Some (Ok_ "e0")) (objects b').
Proof.
  eexists. split; [vm_compute; reflexivity|].
  apply (@s3_conditional countedS3 countedS3_ok verified "manifest.json" "" "first" (quiet 4) emptyBucket); [vm_compute; reflexivity|].
  intros o others b Hin. apply elem_of_replicate in Hin as [[= _ ->] _]. done.
Defined.

(** Two writers in verified mode, both of which found no object: another write lands
    after the first one's check, both report success, and its value is gone. *)
Definition another (b : @Bucket countedS3) : @Bucket countedS3 := (@exec countedS3 _ (quiet 4) b (s3_PutIfVersion verified "manifest.json" "" "second")).2.
Example verified_lost_update :
  let '(r, b) := @exec countedS3 _ [(false, id); (false, another); (false, id); (false, id)] emptyBucket (s3_PutIfVersion verified "manifest.json" "" "first") in
  (@exec countedS3 _ (quiet 4) emptyBucket (s3_PutIfVersion verified "manifest.json" "" "second")).1 = Some (Ok_ "e0") /\
  r = Some (Ok_ "e1") /\ objects b !! "manifest.json" = Some ("first", "e1").
Proof. vm_compute. split_and!; reflexivity. Qed.
(** The native mode refuses the second of them. *)
Example native_refuses :
  (@exec countedS3 _ [(false, another)] emptyBucket (s3_PutIfVersion native "manifest.json" "" "first")).1 = Some ErrCASConflict.
Proof. vm_compute. reflexivity. Qed.
