(* ===== verification/ForkFile.v ===== *)
(** The operator's fork file: [internal/forkfile/forkfile.go].

    Cancellations change the schedules and apply once, at startup; releases and notices
    follow the file while the process runs.  Reading the file takes its content, absent
    when it cannot be opened; YAML is behind [ForkFileCodec]. *)

From stdpp Require Import base gmap strings list numbers.
From Stdlib Require Import ZArith Lia Ascii.
From S2P Require Import Prelude GoLib Text Hashes Consensus ForkId Network Readiness Releases.
#[local] Open Scope Z_scope.

(** [None] is the nil slice of a file without the key, which is not the empty slice. *)
Record File := MkFile { fl_Table : ClientReleaseTable; fl_CancelledForks : option (list CancelledFork); fl_Notices : list Notice }.

(** [yaml.v3] with known fields only: the first document of a text, and whether the text
    goes on after it. *)
Class ForkFileCodec := { decodeFirst : string -> result File; decodesMore : string -> bool }.

#[export] Instance CancelledELFork_eq_dec : EqDecision CancelledELFork. Proof. solve_decision. Defined.
#[export] Instance CancelledCLFork_eq_dec : EqDecision CancelledCLFork. Proof. solve_decision. Defined.
#[export] Instance CancelledFork_eq_dec : EqDecision CancelledFork. Proof. solve_decision. Defined.

Section ForkFile.
Context `{Hurl : URLParser} `{Hcodec : ForkFileCodec}.

Definition Decode (data : string) : result File :=
  let! f := decodeFirst data in
  if decodesMore data then Err "the file must hold exactly one YAML document" else Ok f.

Definition maxBytes : Z := Z.shiftl 1 20.

Definition read (content : option string) : result (File * string) :=
  match content with
  | None => Err "open"
  | Some data =>
      if maxBytes <? slen data then Err "%s is over the %d-byte limit"
      else let! f := Decode data in Ok (f, sha256 data)
  end.

(** The list a nil slice ranges over. *)
Definition cancelled (f : File) : list CancelledFork := default [] (fl_CancelledForks f).

(** [ApplyCancellations] of the crawler and the DNS publisher: the registry after it. *)
Definition file_ApplyCancellations (registry : list Network) (content : option string) : result (list Network) :=
  let! (f, _) := read content in
  let! (nets, absent) := ApplyCancellations registry (cancelled f) in
  Ok nets.

Record Watcher := MkWatcher { wt_sum : string; wt_cancelled : option (list CancelledFork); wt_restartRequired : bool }.

(** What the file changes in a process. *)
Record Process := MkProcess { ps_registry : list Network; ps_releases : ReleaseState; ps_watcher : option Watcher }.

Definition validated (registry : list Network) (s : ReleaseState) (f : File) : result ReleaseState :=
  match SetForkFileData registry s (fl_Table f) (fl_Notices f) with
  | (s', []) => Ok s'
  | (_, _ :: _) => Err "validate %s: %w"
  end.

(** [Open]: the process it leaves, also when it fails, and whether it failed. *)
Definition Open (p : Process) (content : option string) : Process * option string :=
  match read content with
  | Err e => (p, Some e)
  | Ok (f, sum) =>
      match ApplyCancellations (ps_registry p) (cancelled f) with
      | Err e => (p, Some e)
      | Ok (nets, _) =>
          match validated nets (ps_releases p) f with
          | Err e => (MkProcess nets (ps_releases p) (ps_watcher p), Some e)
          | Ok s => (MkProcess nets s (Some (MkWatcher sum (fl_CancelledForks f) false)), None)
          end
      end
  end.

(** [Reload]. *)
Definition Reload (p : Process) (w : Watcher) (content : option string) : Process * option string :=
  match read content with
  | Err e => (p, Some e)
  | Ok (f, sum) =>
      if (sum =? wt_sum w)%string then (p, None)
      else
        let changed := negb (bool_decide (fl_CancelledForks f = wt_cancelled w)) in
        let valid := if changed then ValidateCancellations (ps_registry p) (cancelled f) else Ok tt in
        match valid with
        | Err e => (p, Some e)
        | Ok _ =>
            match validated (ps_registry p) (ps_releases p) f with
            | Err e => (p, Some e)
            | Ok s => (MkProcess (ps_registry p) s (Some (MkWatcher sum (wt_cancelled w) changed)), None)
            end
        end
  end.

(** A running process: the file is looked at again, or a network is used for the first
    time, which loads its schedule. *)
Inductive Event := Look (content : option string) | Use (name : string).
Definition event (p : Process) (e : Event) : Process :=
  match e with
  | Look content => match ps_watcher p with Some w => fst (Reload p w content) | None => p end
  | Use name =>
      match Get (ps_registry p) name with
      | Ok n => MkProcess (put (ps_registry p) (load n)) (ps_releases p) (ps_watcher p)
      | Err _ => p
      end
  end.
Definition events (es : list Event) (p : Process) : Process := foldl event p es.

(** * The registry under cancellations *)

Lemma unloadedCopy_idem n : unloadedCopy (unloadedCopy n) = unloadedCopy n.
Proof. unfold unloadedCopy. cbn. by destruct (nw_originalCL n). Qed.

Lemma unloaded_addCancelled n id t : unloadedCopy (addCancelled n id t) = unloadedCopy n.
Proof. unfold addCancelled. by destruct (_ && _). Qed.
Lemma unloaded_indexCancellation n c : unloadedCopy (indexCancellation n c) = unloadedCopy n.
Proof.
  unfold indexCancellation. destruct (hasEL c); [|done]. apply (foldl_invariant (fun m => unloadedCopy m = unloadedCopy n)); [apply unloaded_addCancelled|].
  intros m f _ Hm. destruct (_ <? _); [|done]. by rewrite unloaded_addCancelled.
Qed.
Lemma unloaded_load n : unloadedCopy (load n) = unloadedCopy n.
Proof.
  unfold load. destruct (nw_loaded n); [done|]. unfold indexCancellations. destruct (_ =? max_uint64); [done|].
  apply (foldl_invariant (fun m => unloadedCopy m = unloadedCopy n)).
  - apply (foldl_invariant (fun m => unloadedCopy m = unloadedCopy n)); [done|]. intros m f _ Hm. destruct (_ <=? _); [|done]. by rewrite unloaded_addCancelled.
  - intros m c _ Hm. by rewrite unloaded_indexCancellation.
Qed.

Lemma Get_unloaded nets name : Get (map unloadedCopy nets) name = match Get nets name with Ok n => Ok (unloadedCopy n) | Err e => Err e end.
Proof. induction nets as [|n nets IH]; cbn; [done|]. by destruct (nw_Name n =? name)%string. Qed.

Lemma Get_name nets name n : Get nets name = Ok n -> nw_Name n = name.
Proof. induction nets as [|m nets IH]; cbn; [done|]. destruct (_ =? _)%string eqn:E; [|done]. intros [= ->]. by apply String.eqb_eq in E. Qed.

(** Replacing the network a lookup found by one with the same compiled parts. *)
Lemma put_unloaded nets name n n' : Get nets name = Ok n -> unloadedCopy n' = unloadedCopy n -> map unloadedCopy (put nets n') = map unloadedCopy nets.
Proof.
  intros Hg Hu. assert (nw_Name n' = name) as Hn by (transitivity (nw_Name n); [exact (f_equal nw_Name Hu)|by eapply Get_name]).
  revert Hg. induction nets as [|m nets IH]; cbn; [done|]. rewrite Hn. destruct (nw_Name m =? name)%string; cbn; [intros [= ->]; by rewrite Hu|intros Hg; by rewrite IH].
Qed.
Lemma put_loaded nets n : Forall (fun m => nw_loaded m = false) nets -> nw_loaded n = false -> Forall (fun m => nw_loaded m = false) (put nets n).
Proof. intros Hf Hn. induction Hf as [|m nets Hm Hf IH]; cbn; [constructor|]. destruct (_ =? _)%string; by constructor. Qed.

Lemma cancel_unloaded n c out absent n' : cancel n c = Ok (out, absent, n') -> unloadedCopy n' = unloadedCopy n /\ nw_loaded n' = nw_loaded n.
Proof.
  unfold cancel. destruct (_ =? _)%string; [done|].
  assert (forall cl out0 o a m, cancelCL n cl out0 = Ok (o, a, m) -> unloadedCopy m = unloadedCopy n /\ nw_loaded m = nw_loaded n) as Hcl.
  { intros cl out0 o a m. unfold cancelCL. destruct (nw_cl n); [|done]. destruct (_ || _); [done|]. destruct (decodeVersion _); [|done]. cbn [rbind].
    destruct (nw_originalCL n) eqn:Eo; [|done]. destruct (withoutFork _ _ _ _ _) as [[[can present] o']|]; [|done]. cbn. intros [= _ _ <-].
    unfold unloadedCopy. upd_simpl. by rewrite Eo. }
  assert (forall o0 a0 n0, (let! (out, absent', n) := match xf_CL c with Some cl => cancelCL n cl o0 | None => Ok (o0, [], n) end in
     if hasEL out && hasCL out && match nw_cl n with Some cl => negb (wrapI64 (ca_elTime out) =? Unix (timeAtEpoch cl (ca_clEpoch out))) | None => false end
     then Err "el time %d and cl epoch %d are different instants" else Ok (out, a0 ++ absent', n)) = Ok (out, absent, n0) -> unloadedCopy n0 = unloadedCopy n /\ nw_loaded n0 = nw_loaded n) as Hk.
  { intros o0 a0 n0. destruct (xf_CL c) as [cl|]; cbn [rbind].
    - destruct (cancelCL n cl o0) as [[[o a] m]|] eqn:E; [|done]. cbn [rbind]. apply Hcl in E. destruct (_ && _); [done|]. intros [= _ _ <-]. done.
    - destruct (_ && _); [done|]. by intros [= _ _ <-]. }
  destruct (xf_EL c) as [el|].
  - destruct (cancelEL n el _) as [[o a]|]; [|done]. cbn [rbind]. apply Hk.
  - destruct (xf_CL c) eqn:Ex; [|done]. cbn [rbind]. apply (Hk _ []).
Qed.

(** Where the lookup that refuses networks in use agrees with the plain one. *)
Definition refusing (nets : list Network) (name : string) : result Network :=
  let! n := Get nets name in if nw_loaded n then Err "network already in use; apply cancellations at startup" else Ok n.

Lemma Get_in_unloaded nets name n : Forall (fun m => nw_loaded m = false) nets -> Get nets name = Ok n -> nw_loaded n = false.
Proof. intros Hf. induction Hf as [|m nets Hm Hf IH]; cbn; [done|]. destruct (_ =? _)%string; [|done]. by intros [= <-]. Qed.

Lemma applyOne_unloaded s c s' : applyOne refusing (Ok s) c = Ok s' ->
  map unloadedCopy (as_nets s') = map unloadedCopy (as_nets s) /\
  (Forall (fun m => nw_loaded m = false) (as_nets s) -> Forall (fun m => nw_loaded m = false) (as_nets s')).
Proof.
  unfold applyOne, refusing. cbn [rbind]. destruct (contains_func _ _); [done|]. destruct (Get _ _) as [n|] eqn:Eg; [|done]. cbn [rbind].
  destruct (nw_loaded n) eqn:El; [done|]. cbn [rbind].
  set (n1 := match nw_originalCL n with None => match nw_cl n with Some cl => n <| nw_originalCL := Some cl |> | None => n end | Some _ => n end).
  assert (unloadedCopy n1 = unloadedCopy n /\ nw_loaded n1 = false) as [H1 L1].
  { unfold n1. destruct (nw_originalCL n) eqn:Eo; [done|]. destruct (nw_cl n) eqn:Ec; [|done]. split; [|done]. unfold unloadedCopy. upd_simpl. by rewrite Eo, Ec. }
  replace (match nw_originalCL n, nw_cl n with None, Some cl => n <| nw_originalCL := Some cl |> | _, _ => n end) with n1 by (unfold n1; by destruct (nw_originalCL n), (nw_cl n)).
  destruct (cancel n1 c) as [[[got missing] n2]|] eqn:Ec; [|done]. cbn [rbind]. apply cancel_unloaded in Ec as [H2 L2]. intros [= <-]. cbn [as_nets]. split.
  - eapply put_unloaded; [exact Eg|]. transitivity (unloadedCopy n2); [done|congruence].
  - intros Hf. apply put_loaded; [done|]. upd_simpl. congruence.
Qed.

Lemma applyOne_same s c : Forall (fun m => nw_loaded m = false) (as_nets s) -> applyOne Get (Ok s) c = applyOne refusing (Ok s) c.
Proof.
  intros Hf. unfold applyOne, refusing. cbn [rbind]. destruct (contains_func _ _); [done|]. destruct (Get _ _) as [n|] eqn:Eg; [|done]. cbn [rbind].
  by rewrite (Get_in_unloaded _ _ _ Hf Eg).
Qed.

Lemma applyOne_err get e c : applyOne get (Err e) c = Err e.
Proof. done. Qed.
Lemma applyOnes_err get e l : foldl (applyOne get) (Err e) l = Err e.
Proof. by induction l. Qed.

Lemma applyOnes_unloaded l s s' : foldl (applyOne refusing) (Ok s) l = Ok s' -> map unloadedCopy (as_nets s') = map unloadedCopy (as_nets s).
Proof.
  revert s. induction l as [|c l IH]; intros s; cbn [foldl]; [by intros [= ->]|]. destruct (applyOne refusing (Ok s) c) as [s1|e] eqn:E.
  - intros H. rewrite (IH s1 H). by apply applyOne_unloaded in E as [-> _].
  - by rewrite applyOnes_err.
Qed.
Lemma applyOnes_same l s : Forall (fun m => nw_loaded m = false) (as_nets s) -> foldl (applyOne Get) (Ok s) l = foldl (applyOne refusing) (Ok s) l.
Proof.
  revert s. induction l as [|c l IH]; intros s Hf; cbn [foldl]; [done|]. rewrite applyOne_same by done. destruct (applyOne refusing (Ok s) c) as [s1|e] eqn:E.
  - apply IH. apply applyOne_unloaded in E as [_ H]. by apply H.
  - by rewrite !applyOnes_err.
Qed.

Lemma rmap_unloaded f l l' : (forall n n', f n = Ok n' -> unloadedCopy n' = unloadedCopy n) -> rmap f l = Ok l' -> map unloadedCopy l' = map unloadedCopy l.
Proof.
  intros Hf. revert l'. induction l as [|n l IH]; intros l'; cbn [rmap]; [by intros [= <-]|]. destruct (f n) as [n'|] eqn:E; [|done]. cbn [rbind].
  destruct (rmap f l) as [l1|]; [|done]. cbn. intros [= <-]. cbn. by rewrite (Hf n n' E), (IH l1 eq_refl).
Qed.

Lemma digests_unloaded n n' : cancelledDigests n = Ok n' -> unloadedCopy n' = unloadedCopy n.
Proof.
  unfold cancelledDigests. destruct (nw_cl n); [|done]. destruct (rmap _ _); [|done]. cbn [rbind]. destruct (cancelledCLDigests _); [|done]. by intros [= <-].
Qed.

(** Cancelling changes no compiled part of a network. *)
Lemma ApplyCancellations_unloaded nets l nets' absent : ApplyCancellations nets l = Ok (nets', absent) -> map unloadedCopy nets' = map unloadedCopy nets.
Proof.
  unfold ApplyCancellations, applyCancellations. change (fun (nets0 : list Network) (name : string) => _) with refusing.
  destruct (foldl _ _ _) as [s|] eqn:E; [|done]. cbn [rbind]. destruct (rmap _ _) as [r|] eqn:Er; [|done]. cbn. intros [= <- _].
  apply applyOnes_unloaded in E. cbn in E. rewrite <- E. eapply rmap_unloaded; [|exact Er]. intros n n'. cbv beta. destruct (contains_func (String.eqb (nw_Name n)) (as_touched s)); [apply digests_unloaded|by intros [= ->]].
Qed.

(** The check of a running process is the startup of the next one. *)
Lemma Validate_restart nets l : is_ok (ValidateCancellations nets l) = is_ok (ApplyCancellations (map unloadedCopy nets) l).
Proof.
  unfold ValidateCancellations, ApplyCancellations, applyCancellations. change (fun (nets0 : list Network) (name : string) => _) with refusing.
  rewrite applyOnes_same; [|apply Forall_map; apply Forall_forall; done]. destruct (foldl _ _ _) as [s|]; [|done]. cbn [rbind]. by destruct (rmap _ _).
Qed.
(** ** The same names validate the same tables *)

Lemma known_unloaded nets nets' name : map unloadedCopy nets = map unloadedCopy nets' -> knownNetwork nets name = knownNetwork nets' name.
Proof.
  intros H. pose proof (Get_unloaded nets name) as H1. rewrite H, Get_unloaded in H1. unfold knownNetwork. by destruct (Get nets name), (Get nets' name).
Qed.

Lemma entryErrors_unloaded nets nets' seen l : map unloadedCopy nets = map unloadedCopy nets' -> entryErrors nets seen l = entryErrors nets' seen l.
Proof.
  intros H. revert seen. induction l as [|r l IH]; intros seen; cbn [entryErrors]; [done|]. rewrite IH. unfold entryError. by rewrite (known_unloaded nets nets').
Qed.

Lemma validated_unloaded nets nets' s s' f r : map unloadedCopy nets = map unloadedCopy nets' -> validated nets s f = Ok r -> is_ok (validated nets' s' f) = true.
Proof.
  intros H. unfold validated, SetForkFileData, table_Validate. rewrite (entryErrors_unloaded nets nets') by done.
  assert (ValidateNotices nets (fl_Notices f) = ValidateNotices nets' (fl_Notices f)) as ->.
  { unfold ValidateNotices. induction (fl_Notices f) as [|n l IH]; cbn; [done|]. rewrite IH. unfold noticeError. by rewrite (known_unloaded nets nets'). }
  by destruct (_ ++ _).
Qed.

Lemma validated_state nets s f s' : validated nets s f = Ok s' -> rs_table s' = fl_Table f /\ rs_notices s' = fl_Notices f.
Proof. unfold validated, SetForkFileData. destruct (_ ++ _); [|done]. by intros [= <-]. Qed.

(** ** A running process *)

Context (reg0 : list Network) (Hreg0 : map unloadedCopy reg0 = reg0).

Lemma ApplyCancellations_ok nets l l' : map unloadedCopy nets = reg0 -> is_ok (ValidateCancellations nets l) = true -> l = l' ->
  exists nets' absent, ApplyCancellations reg0 l' = Ok (nets', absent) /\ map unloadedCopy nets' = reg0.
Proof using Hreg0.
  intros Hn Hv <-. rewrite Validate_restart, Hn in Hv. destruct (ApplyCancellations reg0 l) as [[nets' absent]|] eqn:E; [|done]. exists nets', absent. split; [done|].
  by rewrite (ApplyCancellations_unloaded _ _ _ _ E).
Qed.

(** The file a process follows: it is in force, its cancellations are those of the start
    unless a restart is announced, and starting with it would succeed. *)
Definition follows (started : list Network) (c0 : option (list CancelledFork)) (p : Process) (w : Watcher) (data : string) (f : File) : Prop :=
  ps_watcher p = Some w /\ read (Some data) = Ok (f, wt_sum w) /\ wt_cancelled w = c0 /\
  rs_table (ps_releases p) = fl_Table f /\ rs_notices (ps_releases p) = fl_Notices f /\
  wt_restartRequired w = negb (bool_decide (fl_CancelledForks f = c0)) /\
  map load (ps_registry p) = map load started /\
  forall s w', snd (Open (MkProcess reg0 s w') (Some data)) = None.

Definition following (started : list Network) (c0 : option (list CancelledFork)) (p : Process) : Prop :=
  map unloadedCopy (ps_registry p) = reg0 /\ (exists l nets absent, c0 = l /\ ApplyCancellations reg0 (default [] l) = Ok (nets, absent) /\ map unloadedCopy nets = reg0) /\
  exists w data f, follows started c0 p w data f.

Lemma read_some content f sum : read content = Ok (f, sum) -> exists data, content = Some data /\ read (Some data) = Ok (f, sum).
Proof. destruct content as [data|]; [|done]. intros H. by exists data. Qed.

Lemma Open_restarts data f sum nets absent s s' s1 w' nets1 :
  read (Some data) = Ok (f, sum) -> ApplyCancellations reg0 (cancelled f) = Ok (nets, absent) -> map unloadedCopy nets = reg0 -> map unloadedCopy nets1 = reg0 ->
  validated nets1 s1 f = Ok s' -> snd (Open (MkProcess reg0 s w') (Some data)) = None.
Proof using.
  intros Hr Ha Hn Hn1 Hv. unfold Open. rewrite Hr. cbn [ps_registry ps_releases]. rewrite Ha. pose proof (validated_unloaded nets1 nets s1 s f s' ltac:(by rewrite Hn, Hn1) Hv) as H.
  by destruct (validated nets s f).
Qed.

Lemma Open_follows p content p' : ps_registry p = reg0 -> Open p content = (p', None) ->
  exists c0, following (ps_registry p') c0 p'.
Proof using Hreg0.
  intros Hp. unfold Open. destruct (read content) as [[f sum]|] eqn:Er; [|done]. rewrite Hp. destruct (ApplyCancellations _ _) as [[nets absent]|] eqn:Ea; [|done].
  destruct (validated nets _ f) as [s|] eqn:Ev; [|done]. intros [= <-]. cbn. pose proof (ApplyCancellations_unloaded _ _ _ _ Ea) as Hn. rewrite Hreg0 in Hn.
  exists (fl_CancelledForks f). split; [done|]. split; [by exists (fl_CancelledForks f), nets, absent|]. apply read_some in Er as (data & -> & Er). destruct (validated_state _ _ _ _ Ev) as [H1 H2].
  eexists _, data, f. unfold follows. cbn. split_and!; try done; [by rewrite bool_decide_eq_true_2|]. intros s0 w'. by eapply (Open_restarts data f sum nets).
Qed.

Lemma put_load nets name n : Get nets name = Ok n -> map load (put nets (load n)) = map load nets.
Proof.
  intros Hg. assert (nw_Name (load n) = name) as Hn by (transitivity (nw_Name n); [exact (f_equal nw_Name (unloaded_load n))|by eapply Get_name]).
  revert Hg. induction nets as [|m nets IH]; cbn; [done|]. rewrite Hn. destruct (nw_Name m =? name)%string; cbn; [intros [= ->]; by rewrite load_load|intros Hg; by rewrite IH].
Qed.

Lemma event_follows started c0 p e : following started c0 p -> following started c0 (event p e).
Proof using Hreg0.
  intros (Hn & Hc & w & data & f & Hf). destruct Hf as (Hw & Hr & Hwc & Ht & Hno & Hrr & Hl & Hre). destruct e as [content|name]; cbn [event].
  - rewrite Hw. unfold Reload. destruct (read content) as [[f' sum']|] eqn:Er; [|by split_and!; [done|done|exists w, data, f]].
    destruct (_ =? _)%string; [by split_and!; [done|done|exists w, data, f]|]. apply read_some in Er as (data' & -> & Er). rewrite Hwc.
    set (changed := negb (bool_decide (fl_CancelledForks f' = c0))).
    destruct (if changed then ValidateCancellations (ps_registry p) (cancelled f') else Ok tt) as [[]|] eqn:Ev; [|by split_and!; [done|done|exists w, data, f]].
    destruct (validated (ps_registry p) (ps_releases p) f') as [s|] eqn:Es; [|by split_and!; [done|done|exists w, data, f]]. cbn [fst].
    split_and!; [done|done|]. destruct (validated_state _ _ _ _ Es) as [H1 H2]. exists (MkWatcher sum' c0 changed), data', f'. unfold follows. cbn. split_and!; try done.
    assert (exists nets absent, ApplyCancellations reg0 (cancelled f') = Ok (nets, absent) /\ map unloadedCopy nets = reg0) as (nets & absent & Ha & Hu).
    { unfold changed in Ev. case_bool_decide as Hb; cbn in Ev.
      - destruct Hc as (l & nets & absent & -> & Ha & Hu). exists nets, absent. unfold cancelled. by rewrite Hb.
      - apply (ApplyCancellations_ok (ps_registry p) (cancelled f')); [done| |done]. by rewrite Ev. }
    intros s0 w'. eapply (Open_restarts data' f' sum' nets absent s0 s (ps_releases p) w' (ps_registry p)); done.
  - destruct (Get (ps_registry p) name) as [n|] eqn:Eg; [|by split_and!; [done|done|exists w, data, f]]. split_and!; cbn; [|done|].
    + rewrite <- Hn. eapply put_unloaded; [exact Eg|apply unloaded_load].
    + exists w, data, f. unfold follows. cbn. split_and!; try done. by rewrite <- Hl, (put_load _ name).
Qed.
End ForkFile.


(** * A concrete process *)

#[local] Instance fileURL : URLParser := fun s => if HasPrefix s "https://" then Some ("https", sdrop 8 s) else None.
Definition glam : CancelledFork := MkCancelledFork "demo" "Glam" (Some (MkCancelledELFork "Glam" 1790000000)) None.
#[local] Instance fileCodec : ForkFileCodec := {
  decodeFirst s :=
    if (s =? "start")%string then Ok (MkFile (MkReleaseTable "2026-01-02" []) None [])
    else if (s =? "cancel")%string then Ok (MkFile (MkReleaseTable "2026-01-03" []) (Some [glam]) [])
    else if (s =? "twice")%string then Ok (MkFile (MkReleaseTable "2026-01-04" []) (Some [glam; glam]) [])
    else if (s =? "none")%string then Ok (MkFile (MkReleaseTable "2026-01-05" []) (Some []) [])
    else Err "yaml";
  decodesMore s := false
}.
Definition fileRegistry : list Network := map unloadedCopy [demoNetwork].
Definition fileProcess : Process := MkProcess fileRegistry rs_initial None.
Definition started : Process := fst (Open fileProcess (Some "start")).
Definition fileEvents : list Event := [Use "demo"; Look (Some "cancel"); Look None; Look (Some "twice"); Use "demo"].

(** The cancellation waits for a restart; the file with a duplicate is refused. *)
Example file_events :
  (rt_Updated (rs_table (ps_releases (events fileEvents started))), wt_restartRequired <$> ps_watcher (events fileEvents started)) = ("2026-01-03", Some true) /\
  snd (Reload (events fileEvents started) (default (MkWatcher "" None false) (ps_watcher (events fileEvents started))) (Some "twice")) = Some "cancelled fork %s: duplicate entry".
Proof. vm_compute. done. Qed.

(** An empty list of cancellations is not the absent one: [reflect.DeepEqual] tells a nil
    slice from an empty one, and a restart that would change nothing is announced. *)
Example empty_is_not_nil :
  let p := events [Look (Some "none")] started in
  (wt_restartRequired <$> ps_watcher p, wt_cancelled <$> ps_watcher p) = (Some true, Some None) /\ cancelled (MkFile (MkReleaseTable "" []) (Some []) []) = cancelled (MkFile (MkReleaseTable "" []) None []).
Proof. vm_compute. done. Qed.

