(* ===== verification/Devnet.v ===== *)
(** Registering a devnet: [internal/netconf/devnet.go].

    The genesis file is JSON: the class [GenesisCodec] gives what go-ethereum's
    [core.Genesis] keeps of it, the raw entries of its config, and the JSON names of the
    fields of [params.ChainConfig]. *)

From stdpp Require Import base gmap strings list numbers sorting.
From Stdlib Require Import ZArith Lia Ascii.
From S2P Require Import Prelude GoLib Text Hashes Consensus ForkId Network Readiness NodeData.
From stdpp Require Import list sorting.
#[local] Open Scope Z_scope.

Record CLForkConfig := MkCLForkConfig { fc_Name : string; fc_Epoch : Z; fc_Version : string }.
Record DevnetConfig := MkDevnetConfig {
  dc_ELGenesisJSON : string; dc_NetworkID : Z; dc_GenesisValidatorsRoot : string; dc_GenesisTime : Z; dc_SecondsPerSlot : Z;
  dc_SlotsPerEpoch : Z; dc_CLForks : list CLForkConfig; dc_FuluForkEpoch : Z; dc_BlobSchedule : list blobParams; dc_BootnodeRecords : list string }.

(** [None] for a genesis without a chain config.  The raw values are JSON texts. *)
Class GenesisCodec := {
  parseGenesis : string -> result (option ChainConfig * genesisBlock);
  rawConfig : string -> result (list (string * string));
  chainConfigTags : list string
}.

Section Devnet.
Context `{Hgen : GenesisCodec} `{EC : EnodeCodec}.

(** ** Forks go-ethereum does not know *)

(** One round of the loop of [unknownELForks]: the keys seen and the forks so far. *)
Definition unknownStep (acc : result (list string * list elForkTime)) (kv : string * string) : result (list string * list elForkTime) :=
  let! (seen, out) := acc in
  let '(key, value) := kv in
  let lower := ToLower key in
  if negb (HasSuffix lower "time") || (lower =? "time")%string || contains_func (String.eqb lower) (ToLower <$> chainConfigTags) then Ok (seen, out)
  else if contains_func (String.eqb lower) seen then Err "genesis config %s: duplicate key"
  else if (value =? "null")%string then Ok (lower :: seen, out)
  else
    let name := stake (String.length key - 4) key in
    let! at_ := ParseUint 64 value in
    let name := if HasPrefix (ToLower name) "bpo" then "BPO" +:+ sdrop 3 name else capitalize name in
    Ok (lower :: seen, out ++ [ElForkTime name at_]).

(** [range] over the map of raw entries. *)
Definition unknownELForks (genesisJSON : string) : result (list elForkTime) :=
  let! raw := rawConfig genesisJSON in
  let! (_, out) := foldl unknownStep (Ok ([], [])) raw in
  Ok out.

(** ** The consensus schedule *)

(** One round of the loop over the configured forks. *)
Definition forkStep (acc : result (list clFork)) (configured : CLForkConfig) : result (list clFork) :=
  let! forks := acc in
  let fv := TrimPrefix (TrimSpace (fc_Version configured)) "0x" in
  if (fv =? "")%string || (fc_Epoch configured =? max_uint64) then Ok forks
  else
    match decodeVersion fv with
    | Err _ => Err "invalid CL fork version %q"
    | Ok version => Ok (forks ++ [ClFork (ToLower (fc_Name configured)) (fc_Epoch configured) version])
    end.

(** The bootnode records that parse. *)
Definition bootnodes (records : list string) : list string :=
  List.filter (fun r => negb (r =? "")%string && bool_decide (is_Some (parseENR r))) (TrimSpace <$> records).

Definition emptyCache : clCache := ClCache 0 (MkCLForkState (zeros 4) (zeros 4) (zeros 4) 0 (zeros 4) zeroTime) false.

Definition devnetName : string := "devnet".

(** [RegisterDevnet]: the registry after it. *)
Definition RegisterDevnet (registry : list Network) (cfg : DevnetConfig) : result (list Network) :=
  if is_ok (Get registry devnetName) then Err "network %q already registered"
  else
    let! (config, genesis) := parseGenesis (dc_ELGenesisJSON cfg) in
    match config with
    | None => Err "EL genesis.json has no chain config"
    | Some chain =>
        if dc_NetworkID cfg =? 0 then Err "EL network ID must be non-zero and supplied separately from chain ID"
        else
          let! extra := unknownELForks (dc_ELGenesisJSON cfg) in
          match hex_decode (TrimPrefix (TrimSpace (dc_GenesisValidatorsRoot cfg)) "0x") with
          | None => Err "invalid genesis validators root %q"
          | Some root =>
              if negb (slen root =? 32) then Err "invalid genesis validators root %q"
              else
                let records := bootnodes (dc_BootnodeRecords cfg) in
                if bool_decide (records = []) then Err "no valid devnet bootnode records"
                else if (dc_GenesisTime cfg =? 0) || (dc_SecondsPerSlot cfg =? 0) || (dc_SlotsPerEpoch cfg =? 0)
                then Err "CL genesis time, seconds per slot, and slots per epoch must be non-zero"
                else if max_int64 <? dc_GenesisTime cfg then Err "CL genesis time exceeds the maximum Unix timestamp"
                else if max_uint64 / dc_SecondsPerSlot cfg <? dc_SlotsPerEpoch cfg then Err "CL epoch duration overflows uint64"
                else
                  let! forks := foldl forkStep (Ok []) (dc_CLForks cfg) in
                  if bool_decide (forks = []) then Err "no CL fork versions"
                  else
                    let forks := isort (fun a b => cf_epoch a <=? cf_epoch b) forks in
                    let bs := isort (fun a b => bp_epoch a <=? bp_epoch b) (dc_BlobSchedule cfg) in
                    if negb (dc_FuluForkEpoch cfg =? max_uint64) && bool_decide (bs = []) then Err "blob schedule is empty but a Fulu fork version is set"
                    else
                      Ok (registry ++ [MkNetwork devnetName (dc_NetworkID cfg) chain genesis
                        (Some (ClNetwork devnetName root (dc_GenesisTime cfg) (dc_SecondsPerSlot cfg) (dc_SlotsPerEpoch cfg) forks (dc_FuluForkEpoch cfg) bs []))
                        emptyCache records records extra [] None [] [] [] false [] [] [] None zeroTime None])
          end
    end.
End Devnet.
