(* ===== verification/DevnetConfig.v ===== *)
(** The file bundle of a devnet: [internal/devnetconfig/devnetconfig.go].

    A directory is the map of its readable files, names to contents.  [config.yaml] is read
    by a line automaton, [yamlLine], whose state is the local variables of
    [parseCLConfig]. *)

From stdpp Require Import base gmap strings list numbers.
From Stdlib Require Import ZArith Lia Ascii.
From S2P Require Import Prelude GoLib Text Hashes Consensus ForkId Network Readiness NodeData Devnet.
#[local] Open Scope Z_scope.

Record clConfig := MkCLConfig {
  cc_forks : list CLForkConfig; cc_fuluVersion : string; cc_fuluEpoch : Z; cc_fuluActive : bool; cc_blobSchedule : list blobParams;
  cc_electraEpoch : Z; cc_electraMaxBlobs : Z; cc_genesisTime : Z; cc_secondsPerSlot : Z; cc_slotDurationMS : Z; cc_slotsPerEpoch : Z }.
#[export] Instance eta_clConfig : Eta clConfig := fun c =>
  MkCLConfig (cc_forks c) (cc_fuluVersion c) (cc_fuluEpoch c) (cc_fuluActive c) (cc_blobSchedule c)
    (cc_electraEpoch c) (cc_electraMaxBlobs c) (cc_genesisTime c) (cc_secondsPerSlot c) (cc_slotDurationMS c) (cc_slotsPerEpoch c).
#[export] Instance upd_cc_forks : Upd cc_forks. Proof. derive_upd. Defined.
#[export] Instance upd_cc_fuluVersion : Upd cc_fuluVersion. Proof. derive_upd. Defined.
#[export] Instance upd_cc_fuluEpoch : Upd cc_fuluEpoch. Proof. derive_upd. Defined.
#[export] Instance upd_cc_fuluActive : Upd cc_fuluActive. Proof. derive_upd. Defined.
#[export] Instance upd_cc_blobSchedule : Upd cc_blobSchedule. Proof. derive_upd. Defined.
#[export] Instance upd_cc_electraEpoch : Upd cc_electraEpoch. Proof. derive_upd. Defined.
#[export] Instance upd_cc_electraMaxBlobs : Upd cc_electraMaxBlobs. Proof. derive_upd. Defined.
#[export] Instance upd_cc_genesisTime : Upd cc_genesisTime. Proof. derive_upd. Defined.
#[export] Instance upd_cc_secondsPerSlot : Upd cc_secondsPerSlot. Proof. derive_upd. Defined.
#[export] Instance upd_cc_slotDurationMS : Upd cc_slotDurationMS. Proof. derive_upd. Defined.
#[export] Instance upd_cc_slotsPerEpoch : Upd cc_slotsPerEpoch. Proof. derive_upd. Defined.

(** The local variables of the scan. *)
Record yaml := MkYaml {
  y_cfg : clConfig; y_versions : gmap string string; y_epochs : gmap string Z; y_forkOrder : list string;
  y_inBlob : bool; y_pendEpoch : option Z; y_pendMax : option Z }.
#[export] Instance eta_yaml : Eta yaml := fun y =>
  MkYaml (y_cfg y) (y_versions y) (y_epochs y) (y_forkOrder y) (y_inBlob y) (y_pendEpoch y) (y_pendMax y).
#[export] Instance upd_y_cfg : Upd y_cfg. Proof. derive_upd. Defined.
#[export] Instance upd_y_versions : Upd y_versions. Proof. derive_upd. Defined.
#[export] Instance upd_y_epochs : Upd y_epochs. Proof. derive_upd. Defined.
#[export] Instance upd_y_forkOrder : Upd y_forkOrder. Proof. derive_upd. Defined.
#[export] Instance upd_y_inBlob : Upd y_inBlob. Proof. derive_upd. Defined.
#[export] Instance upd_y_pendEpoch : Upd y_pendEpoch. Proof. derive_upd. Defined.
#[export] Instance upd_y_pendMax : Upd y_pendMax. Proof. derive_upd. Defined.

Definition yaml0 : yaml :=
  MkYaml (MkCLConfig [] "" max_uint64 false [] 0 9 0 0 0 0) ∅ {[ "GENESIS" := 0 ]} [] false None None.

(** ** Scalars *)

(** The part before byte [c]. *)
Fixpoint before (c : ascii) (s : string) : string :=
  match s with EmptyString => "" | String x s' => if (x =? c)%char then "" else String x (before c s') end.
Definition is_quote (c : ascii) : bool := (c =? ascii_of_nat 34)%char || (c =? "'")%char.

(** [clean]: a comment, blanks and quotes off. *)
Definition clean (s : string) : string := Trim is_quote (TrimSpace (before "#" s)).

Definition number (what s : string) : result Z :=
  match ParseUint 64 s with Ok n => Ok n | Err _ => Err what end.

(** [numeric]: the fields a key sets. *)
Definition numeric (key : string) : option (Z -> clConfig -> clConfig) :=
  if (key =? "GENESIS_TIME")%string then Some (fun n c => c <| cc_genesisTime := n |>)
  else if (key =? "SECONDS_PER_SLOT")%string then Some (fun n c => c <| cc_secondsPerSlot := n |>)
  else if (key =? "SLOT_DURATION_MS")%string then Some (fun n c => c <| cc_slotDurationMS := n |>)
  else if (key =? "SLOTS_PER_EPOCH")%string then Some (fun n c => c <| cc_slotsPerEpoch := n |>)
  else if (key =? "MAX_BLOBS_PER_BLOCK_ELECTRA")%string then Some (fun n c => c <| cc_electraMaxBlobs := n |>)
  else None.

(** ** Lines *)

(** [flush] appends the pending blob entry. *)
Definition flush (st : yaml) : result yaml :=
  match y_pendEpoch st, y_pendMax st with
  | None, None => Ok st
  | Some e, Some m =>
      Ok (st <| y_cfg := (y_cfg st) <| cc_blobSchedule := cc_blobSchedule (y_cfg st) ++ [BlobParams e m] |> |>
             <| y_pendEpoch := None |> <| y_pendMax := None |>)
  | _, _ => Err "incomplete BLOB_SCHEDULE entry: both EPOCH and MAX_BLOBS_PER_BLOCK are required"
  end.

Definition indented (raw : string) : bool :=
  match raw with
  | String c _ => (c =? " ")%char || (c =? ascii_of_nat 9)%char || (c =? "-")%char
  | EmptyString => false
  end.

(** A line of the blob schedule. *)
Definition blobLine (line : string) (st : yaml) : result yaml :=
  let trimmed := TrimSpace line in
  let! st := if HasPrefix trimmed "-" then flush st else Ok st in
  match Cut ":" (TrimSpace (TrimPrefix trimmed "-")) with
  | None => Ok st
  | Some (k, v) =>
      let key := TrimSpace k in
      if (key =? "EPOCH")%string then let! n := number "invalid BLOB_SCHEDULE %s: %w" (clean v) in Ok (st <| y_pendEpoch := Some n |>)
      else if (key =? "MAX_BLOBS_PER_BLOCK")%string then
        let! n := number "invalid BLOB_SCHEDULE %s: %w" (clean v) in Ok (st <| y_pendMax := Some n |>)
      else Ok st
  end.

(** A line outside it. *)
Definition topLine (line : string) (st : yaml) : result yaml :=
  match Cut ":" line with
  | None => Ok st
  | Some (k, v) =>
      let key := TrimSpace k in
      let val := clean v in
      if HasSuffix key "_FORK_VERSION" then
        let name := TrimSuffix key "_FORK_VERSION" in
        let st := if (val =? "")%string then st
                  else st <| y_versions := <[name := val]> (y_versions st) |> <| y_forkOrder := y_forkOrder st ++ [name] |> in
        Ok (if (key =? "FULU_FORK_VERSION")%string then st <| y_cfg := (y_cfg st) <| cc_fuluVersion := val |> |> else st)
      else if HasSuffix key "_FORK_EPOCH" then
        let! n := number "invalid %s: %w" val in
        let name := TrimSuffix key "_FORK_EPOCH" in
        let st := st <| y_epochs := <[name := n]> (y_epochs st) |> in
        let st := if (name =? "FULU")%string then st <| y_cfg := (y_cfg st) <| cc_fuluEpoch := n |> |> else st in
        Ok (if (name =? "ELECTRA")%string then st <| y_cfg := (y_cfg st) <| cc_electraEpoch := n |> |> else st)
      else
        match numeric key with
        | Some set => let! n := number "invalid %s: %w" val in Ok (st <| y_cfg := set n (y_cfg st) |>)
        | None =>
            if (key =? "PRESET_BASE")%string then
              if (val =? "mainnet")%string then Ok (st <| y_cfg := (y_cfg st) <| cc_slotsPerEpoch := 32 |> |>)
              else if (val =? "minimal")%string then Ok (st <| y_cfg := (y_cfg st) <| cc_slotsPerEpoch := 8 |> |>)
              else Ok st
            else Ok st
        end
  end.

Definition yamlLine (raw : string) (st : yaml) : result yaml :=
  let line := clean raw in
  if (line =? "")%string then Ok st
  else if (line =? "BLOB_SCHEDULE:")%string then Ok (st <| y_inBlob := true |>)
  else if y_inBlob st then
    if indented raw then blobLine line st
    else let! st := flush (st <| y_inBlob := false |>) in topLine line st
  else topLine line st.

Fixpoint yamlLines (lines : list string) (st : yaml) : result yaml :=
  match lines with [] => Ok st | l :: lines' => let! st' := yamlLine l st in yamlLines lines' st' end.

(** The forks in the order their versions appear; one without an epoch is unscheduled. *)
Definition collectForks (st : yaml) : list CLForkConfig :=
  map (fun name => MkCLForkConfig name (default max_uint64 (y_epochs st !! name)) (default "" (y_versions st !! name))) (y_forkOrder st).

(** [parseCLConfig] of the text of the file. *)
Definition parseCLConfig (data : string) : result clConfig :=
  let '(lines, tooLong) := Scan MaxScanTokenSize data in
  let! st := yamlLines lines yaml0 in
  let! st := flush st in
  if tooLong then Err "scan config.yaml: %w"
  else
    let cfg := (y_cfg st) <| cc_forks := collectForks st |> in
    let cfg := cfg <| cc_fuluActive := negb (cc_fuluEpoch cfg =? max_uint64) && negb (cc_fuluVersion cfg =? "")%string |> in
    let! cfg :=
      if (cc_secondsPerSlot cfg =? 0) && negb (cc_slotDurationMS cfg =? 0) then
        if negb (cc_slotDurationMS cfg mod 1000 =? 0) then Err "SLOT_DURATION_MS %d is not a whole number of seconds"
        else Ok (cfg <| cc_secondsPerSlot := cc_slotDurationMS cfg / 1000 |>)
      else Ok cfg in
    if (cc_genesisTime cfg =? 0) || (cc_secondsPerSlot cfg =? 0) || (cc_slotsPerEpoch cfg =? 0)
    then Err "config.yaml must provide genesis time, seconds per slot, and slots per epoch/preset"
    else Ok cfg.

(** ** The bundle *)

Definition maxBootnodeLine : Z := 1024 * 1024.

(** [readLines]: the lines that are neither blank nor comments. *)
Definition readLines (data : string) : result (list string) :=
  let '(lines, tooLong) := Scan maxBootnodeLine data in
  let out := List.filter (fun l => negb ((l =? "")%string || HasPrefix l "#")) (TrimSpace <$> lines) in
  if tooLong then Err "bufio.Scanner: token too long" else Ok out.

(** [os.ReadFile]. *)
Definition readFile (dir : gmap string string) (name : string) : result string :=
  match dir !! name with Some data => Ok data | None => Err ("read " +:+ name) end.

Definition Load (dir : gmap string string) : result DevnetConfig :=
  let! genesis := readFile dir "genesis.json" in
  let! networkIDRaw := readFile dir "network_id.txt" in
  match ParseUint0 (TrimSpace networkIDRaw) with
  | Err _ => Err "parse network_id.txt: expected a non-zero uint64"
  | Ok id =>
      if id =? 0 then Err "parse network_id.txt: expected a non-zero uint64"
      else
        let! gvr := readFile dir "genesis_validators_root.txt" in
        let! config := readFile dir "config.yaml" in
        let! cl := parseCLConfig config in
        let bs := if cc_fuluActive cl then BlobParams (cc_electraEpoch cl) (cc_electraMaxBlobs cl) :: cc_blobSchedule cl else [] in
        let! bootnodesTxt := readFile dir "bootnodes.txt" in
        let! records := readLines bootnodesTxt in
        Ok (MkDevnetConfig genesis id (TrimSpace gvr) (cc_genesisTime cl) (cc_secondsPerSlot cl) (cc_slotsPerEpoch cl)
              (cc_forks cl) (cc_fuluEpoch cl) bs records)
  end.

Section Register.
Context `{Hgen : GenesisCodec} `{EC : EnodeCodec}.

(** [Register]: the registry after it. *)
Definition Register (registry : list Network) (dir : gmap string string) : result (list Network) :=
  let! cfg := Load dir in
  RegisterDevnet registry cfg.
End Register.

(** ** The bundles of the tests *)

Definition nl : string := String newline "".
Definition testConfig : string := sjoin nl
  ["PRESET_BASE: 'mainnet'"; "GENESIS_TIME: 1700000000"; "GENESIS_FORK_VERSION: 0x10000038 # genesis"; "ELECTRA_FORK_VERSION: 0x60000038";
   "ELECTRA_FORK_EPOCH: 5"; "FULU_FORK_VERSION: 0x70000038"; "FULU_FORK_EPOCH: 10"; "SLOT_DURATION_MS: 12000"; "BLOB_SCHEDULE:";
   "  - EPOCH: 20"; "    MAX_BLOBS_PER_BLOCK: 15"; ""].
Example config_test : parseCLConfig testConfig =
  Ok (MkCLConfig [MkCLForkConfig "GENESIS" 0 "0x10000038"; MkCLForkConfig "ELECTRA" 5 "0x60000038"; MkCLForkConfig "FULU" 10 "0x70000038"]
        "0x70000038" 10 true [BlobParams 20 15] 5 9 1700000000 12 12000 32).
Proof. vm_compute. reflexivity. Qed.
Example config_rejects : map parseCLConfig
  ["FULU_FORK_EPOCH: soon"; "BLOB_SCHEDULE:" +:+ nl +:+ "  - EPOCH: 0" +:+ nl +:+ "    MAX_BLOBS_PER_BLOCK: many";
   "BLOB_SCHEDULE:" +:+ nl +:+ "  - EPOCH: 0"; "SLOT_DURATION_MS: 6500"; ""] =
  [Err "invalid %s: %w"; Err "invalid BLOB_SCHEDULE %s: %w"; Err "incomplete BLOB_SCHEDULE entry: both EPOCH and MAX_BLOBS_PER_BLOCK are required";
   Err "SLOT_DURATION_MS %d is not a whole number of seconds"; Err "config.yaml must provide genesis time, seconds per slot, and slots per epoch/preset"].
Proof. vm_compute. reflexivity. Qed.
