(* ===== verification/DevnetProps.v ===== *)
(** What registering a devnet guarantees.

    [RegisterDevnet] appends one network under a name of its own, with a clock that does
    not overflow and sorted schedules, and keeps every other network as it was; the forks
    read from the genesis file do not depend on the order of Go's map iteration. *)

From stdpp Require Import base gmap strings list numbers sorting.
From Stdlib Require Import ZArith Lia Ascii.
From S2P Require Import Prelude GoLib Text Hashes Consensus ForkId Network Readiness NodeData Sql Query QueryMirror Devnet.
#[local] Open Scope Z_scope.

(** ** The consensus forks *)

Lemma forkSteps_err l e : foldl forkStep (Err e) l = Err e.
Proof. induction l; [done|]. exact IHl. Qed.

(** The version without blanks and prefix. *)
Definition versionText (c : CLForkConfig) : string := TrimPrefix (TrimSpace (fc_Version c)) "0x".

(** A configured fork that the loop keeps. *)
Definition kept (c : CLForkConfig) : bool := negb ((versionText c =? "")%string || (fc_Epoch c =? max_uint64)).

Definition fork_of (c : CLForkConfig) (f : clFork) : Prop :=
  cf_name f = ToLower (fc_Name c) /\ cf_epoch f = fc_Epoch c /\ decodeVersion (versionText c) = Ok (cf_version f).

Lemma forkSteps_inv l acc out :
  foldl forkStep (Ok acc) l = Ok out -> exists fs, out = acc ++ fs /\ Forall2 fork_of (List.filter kept l) fs.
Proof.
  revert acc. induction l as [|c l IH]; intros acc; [intros [= <-]; exists []; rewrite app_nil_r; by split|].
  cbn [foldl List.filter]. unfold forkStep at 2. cbn [rbind]. cbv zeta. unfold kept. fold (versionText c).
  destruct ((versionText c =? "")%string || (fc_Epoch c =? max_uint64)); cbn [negb]; [apply IH|].
  destruct (decodeVersion (versionText c)) as [v|e] eqn:Ev; [|by rewrite forkSteps_err].
  intros (fs & -> & Hfs)%IH. exists (ClFork (ToLower (fc_Name c)) (fc_Epoch c) v :: fs). rewrite <- app_assoc. split; [done|].
  constructor; [by split_and!|done].
Qed.

Lemma decodeVersion_length s v : decodeVersion s = Ok v -> slen v = 4.
Proof. unfold decodeVersion. destruct (hex_decode _) as [b|]; [|done]. destruct (slen b =? 4) eqn:E; [|done]. intros [= <-]. boolify. lia. Qed.

(** ** The registry *)

Lemma Get_snoc registry n name :
  is_ok (Get registry (nw_Name n)) = false ->
  Get (registry ++ [n]) name = if (name =? nw_Name n)%string then Ok n else Get registry name.
Proof.
  induction registry as [|m rest IH]; cbn [Get app].
  - intros _. rewrite String.eqb_sym. by destruct (name =? nw_Name n)%string.
  - destruct (nw_Name m =? nw_Name n)%string eqn:E; [done|]. intros H. rewrite (IH H).
    destruct (nw_Name m =? name)%string eqn:E'; [|done]. apply String.eqb_eq in E'. subst name. by rewrite E.
Qed.

Lemma epochAt_nonneg c t : clock_ok c = true -> 0 <= epochAt c t.
Proof.
  intros Hc. unfold epochAt. destruct ((Unix t <=? 0) || (Unix t <=? cl_genesisTime c)) eqn:E; [done|].
  rewrite epochDuration_some by done. unfold clock_ok in Hc. boolify. apply Z.div_pos; nia.
Qed.

Lemma epoch_sorted {A} (f : A -> Z) l : by_key f (isort (fun a b => f a <=? f b) l).
Proof.
  eapply sorted_impl; [|apply isort_sorted].
  - intros x y H. unfold leP in H. boolify. done.
  - intros x y. apply Zleb_total.
  - intros x y z. apply Zleb_trans.
Qed.

(** A network without cancellations has none once loaded. *)
Lemma load_uncancelled n :
  nw_cancellations n = [] -> nw_loaded n = false ->
  nw_cancellations (load n) = [] /\ nw_genesis (load n) = nw_genesis n /\ nw_fork (load n) = nw_fork n.
Proof. intros Hc Hl. destruct n. cbn in *. subst. done. Qed.

Lemma by_key_nondecreasing {A} (key : A -> Z) l : by_key key l -> nondecreasing (map key l) = true.
Proof.
  induction 1 as [|x l Hs IH Hx]; [done|]. destruct l as [|y l]; [done|]. cbn [map nondecreasing] in *. apply Forall_cons in Hx as [Hx _].
  apply andb_true_iff. split; [by apply Z.leb_le|exact IH].
Qed.

Lemma forallb_perm {A} (p : A -> bool) l l' : l ≡ₚ l' -> forallb p l = forallb p l'.
Proof.
  induction 1 as [|x l l' _ IH|x y l|l1 l2 l3 _ -> _ ->]; [done|cbn; by rewrite IH| |done].
  cbn. by rewrite !andb_assoc, (andb_comm (p x)).
Qed.
Lemma existsb_perm {A} (p : A -> bool) l l' : l ≡ₚ l' -> existsb p l = existsb p l'.
Proof.
  induction 1 as [|x l l' _ IH|x y l|l1 l2 l3 _ -> _ ->]; [done|cbn; by rewrite IH| |done].
  cbn. by rewrite !orb_assoc, (orb_comm (p x)).
Qed.

Section Devnet.
Context `{Hgen : GenesisCodec} `{EC : EnodeCodec}.

(** What the types of the source make of a configuration. *)
Definition config_ok (cfg : DevnetConfig) : bool :=
  forallb is_uint64 [dc_NetworkID cfg; dc_GenesisTime cfg; dc_SecondsPerSlot cfg; dc_SlotsPerEpoch cfg; dc_FuluForkEpoch cfg]
  && forallb (fun c => is_uint64 (fc_Epoch c)) (dc_CLForks cfg) && forallb (fun b => is_uint64 (bp_epoch b)) (dc_BlobSchedule cfg).

(** The consensus schedule of the registered network. *)
Definition registered (cfg : DevnetConfig) (n : Network) (cl : clNetwork) : Prop :=
  nw_Name n = devnetName /\ nw_NetworkID n = dc_NetworkID cfg /\ dc_NetworkID cfg <> 0 /\ nw_cl n = Some cl /\
  cl_genesisTime cl = dc_GenesisTime cfg /\ cl_fuluEpoch cl = dc_FuluForkEpoch cfg /\ slen (cl_gvr cl) = 32 /\
  (exists fs, Forall2 fork_of (List.filter kept (dc_CLForks cfg)) fs /\ fs <> [] /\ cl_forks cl = isort (fun a b => cf_epoch a <=? cf_epoch b) fs) /\
  cl_blobSchedule cl = isort (fun a b => bp_epoch a <=? bp_epoch b) (dc_BlobSchedule cfg) /\ cl_cancelledBPOs cl = [] /\
  (cl_fuluEpoch cl = max_uint64 \/ cl_blobSchedule cl <> []) /\
  nw_bootnodes n = bootnodes (dc_BootnodeRecords cfg) /\ nw_clBootnodes n = nw_bootnodes n /\ nw_bootnodes n <> [] /\
  nw_clCache n = emptyCache /\ nw_cancellations n = [] /\ nw_loaded n = false /\ nw_fork n = None /\
  (exists chain, parseGenesis (dc_ELGenesisJSON cfg) = Ok (Some chain, nw_genesis n) /\ nw_ChainConfig n = chain) /\
  unknownELForks (dc_ELGenesisJSON cfg) = Ok (nw_extraELForks n).

Lemma RegisterDevnet_inv registry cfg registry' :
  config_ok cfg = true -> RegisterDevnet registry cfg = Ok registry' ->
  is_ok (Get registry devnetName) = false /\
  exists n cl, registry' = registry ++ [n] /\ registered cfg n cl /\ clock_ok cl = true /\ cl_genesisTime cl <= max_int64.
Proof.
  intros Hcfg. unfold RegisterDevnet. destruct (is_ok (Get registry devnetName)); [done|]. intros H. split; [done|].
  destruct (parseGenesis (dc_ELGenesisJSON cfg)) as [[[chain|] genesis]|] eqn:Eg; [|done..]. cbn [rbind] in H.
  destruct (dc_NetworkID cfg =? 0) eqn:Eid; [done|].
  destruct (unknownELForks (dc_ELGenesisJSON cfg)) as [extra|] eqn:Ex; [|done]. cbn [rbind] in H.
  destruct (hex_decode _) as [root|]; [|done]. destruct (slen root =? 32) eqn:El; cbn [negb] in H; [|done]. cbv zeta in H.
  destruct (bool_decide (bootnodes (dc_BootnodeRecords cfg) = [])) eqn:Eb; [done|].
  destruct ((dc_GenesisTime cfg =? 0) || (dc_SecondsPerSlot cfg =? 0) || (dc_SlotsPerEpoch cfg =? 0)) eqn:Et; [done|].
  destruct (max_int64 <? dc_GenesisTime cfg) eqn:Em; [done|].
  destruct (max_uint64 / dc_SecondsPerSlot cfg <? dc_SlotsPerEpoch cfg) eqn:Ed; [done|].
  destruct (foldl forkStep (Ok []) (dc_CLForks cfg)) as [forks|] eqn:Ef; [|done]. cbn [rbind] in H.
  destruct (bool_decide (forks = [])) eqn:Ene; [done|].
  destruct (negb (dc_FuluForkEpoch cfg =? max_uint64) && bool_decide (isort (fun a b => bp_epoch a <=? bp_epoch b) (dc_BlobSchedule cfg) = [])) eqn:Efu; [done|].
  injection H as <-. apply forkSteps_inv in Ef as (fs & -> & Hfs). rewrite app_nil_l in *.
  assert (dc_FuluForkEpoch cfg = max_uint64 \/ isort (fun a b => bp_epoch a <=? bp_epoch b) (dc_BlobSchedule cfg) <> []) as Hfu.
  { apply andb_false_iff in Efu as [E|E]; [left|right]; [by apply negb_false_iff, Z.eqb_eq in E|by apply bool_decide_eq_false in E]. }
  clear Efu. apply bool_decide_eq_false in Eb, Ene. unfold config_ok, is_uint64 in Hcfg. cbn [forallb] in Hcfg. boolify.
  match goal with |- context [Some (ClNetwork ?a ?b ?c ?d ?e ?f ?g ?h ?i)] => set (cl := ClNetwork a b c d e f g h i) end.
  eexists _, cl. split; [reflexivity|]. split; [|split; [|by subst cl]].
  - unfold registered. subst cl. cbn. split_and!; try done; eauto.
  - unfold clock_ok. subst cl. cbn. assert (dc_SecondsPerSlot cfg * dc_SlotsPerEpoch cfg <= max_uint64); [|repeat (apply andb_true_iff; split); boolify; lia].
    assert (dc_SlotsPerEpoch cfg <= max_uint64 / dc_SecondsPerSlot cfg) by lia.
    transitivity (dc_SecondsPerSlot cfg * (max_uint64 / dc_SecondsPerSlot cfg)); [nia|]. apply Z.mul_div_le. lia.
Qed.

(** ** The forks of the genesis file *)

(** What one entry of the genesis config is: [None] when the loop passes over it, and else
    its lower-case key with the fork it names, if it is not null. *)
Definition classify (kv : string * string) : option (string * option (result elForkTime)) :=
  let '(key, value) := kv in
  let lower := ToLower key in
  if negb (HasSuffix lower "time") || (lower =? "time")%string || contains_func (String.eqb lower) (ToLower <$> chainConfigTags) then None
  else Some (lower, if (value =? "null")%string then None
    else let name := stake (String.length key - 4) key in
         Some (let! at_ := ParseUint 64 value in Ok (ElForkTime (if HasPrefix (ToLower name) "bpo" then "BPO" +:+ sdrop 3 name else capitalize name) at_))).

Definition enter (acc : result (list string * list elForkTime)) (o : option (string * option (result elForkTime))) : result (list string * list elForkTime) :=
  let! (seen, out) := acc in
  match o with
  | None => Ok (seen, out)
  | Some (lower, f) =>
      if contains_func (String.eqb lower) seen then Err "genesis config %s: duplicate key"
      else match f with
           | None => Ok (lower :: seen, out)
           | Some r => let! f := r in Ok (lower :: seen, out ++ [f])
           end
  end.

Lemma unknownStep_enter acc kv : unknownStep acc kv = enter acc (classify kv).
Proof.
  destruct acc as [[seen out]|]; [|done]. destruct kv as [key value]. unfold unknownStep, enter, classify. cbn [rbind]. cbv zeta.
  destruct (negb _ || _ || _); [done|]. destruct (contains_func _ seen); [done|]. destruct (value =? "null")%string; [done|].
  by destruct (ParseUint 64 value).
Qed.

(** Results that agree up to the order of the forks. *)
Definition same_forks (a b : result (list string * list elForkTime)) : Prop :=
  match a, b with
  | Ok (seen, out), Ok (seen', out') => seen ≡ₚ seen' /\ out ≡ₚ out'
  | Err _, Err _ => True
  | _, _ => False
  end.
#[local] Instance same_forks_equivalence : Equivalence same_forks.
Proof.
  split.
  - intros [[seen out]|]; done.
  - intros [[? ?]|] [[? ?]|]; try done. intros [H1 H2]. by split; symmetry.
  - intros [[? ?]|] [[? ?]|] [[? ?]|]; try done. intros [H1 H2] [H3 H4]. split; [by rewrite H1|by rewrite H2].
Qed.

Lemma contains_perm s seen seen' : seen ≡ₚ seen' -> contains_func (String.eqb s) seen = contains_func (String.eqb s) seen'.
Proof. apply existsb_perm. Qed.

Lemma unknownStep_proper kv a b : same_forks a b -> same_forks (unknownStep a kv) (unknownStep b kv).
Proof.
  destruct a as [[seen out]|], b as [[seen' out']|]; try done. intros [Hs Ho]. rewrite !unknownStep_enter. unfold enter. cbn [rbind].
  destruct (classify kv) as [[lower f]|]; [|done]. rewrite (contains_perm lower _ _ Hs). destruct (contains_func _ seen'); [done|].
  destruct f as [[f|]|]; cbn [rbind same_forks]; rewrite ?Hs, ?Ho; done.
Qed.

Lemma enter_none acc : enter acc None = acc.
Proof. by destruct acc as [[]|]. Qed.

(** A key that was seen stays an error. *)
Lemma enter_dup seen out l f o :
  contains_func (String.eqb l) seen = true -> exists e, enter (enter (Ok (seen, out)) o) (Some (l, f)) = Err e.
Proof.
  intros H. assert (forall l', contains_func (String.eqb l) (l' :: seen) = true) as H' by (intros; unfold contains_func in *; cbn; by rewrite H, orb_true_r).
  destruct o as [[l' f']|]; [|rewrite enter_none; cbn [enter rbind]; rewrite H; by eexists]. cbn [enter rbind].
  destruct (contains_func (String.eqb l') seen); [eexists; reflexivity|]. specialize (H' l').
  destruct f' as [[f'|]|]; eexists; cbn [rbind]; unfold enter; cbn [rbind]; rewrite ?H'; reflexivity.
Qed.

Lemma unknownStep_swap acc a b : same_forks (unknownStep (unknownStep acc a) b) (unknownStep (unknownStep acc b) a).
Proof.
  rewrite !unknownStep_enter. destruct acc as [[seen out]|]; [|done].
  destruct (classify a) as [[la fa]|], (classify b) as [[lb fb]|]; rewrite ?enter_none; try reflexivity.
  destruct (contains_func (String.eqb la) seen) eqn:Ea.
  { destruct (enter_dup seen out la fa (Some (lb, fb)) Ea) as [e ->]. cbn [enter rbind]. by rewrite Ea. }
  destruct (contains_func (String.eqb lb) seen) eqn:Eb.
  { destruct (enter_dup seen out lb fb (Some (la, fa)) Eb) as [e ->]. cbn [enter rbind]. by rewrite Eb. }
  assert (forall l l' out', contains_func (String.eqb l) (l' :: seen) = (l =? l')%string || contains_func (String.eqb l) seen) as Hcons by done.
  assert (forall l o, contains_func (String.eqb l) seen = false -> enter (Ok (seen, out)) (Some (l, o)) =
    match o with None => Ok (l :: seen, out) | Some r => let! f := r in Ok (l :: seen, out ++ [f]) end) as Hnew
    by (intros l o H; unfold enter; cbn [rbind]; by rewrite H).
  rewrite !Hnew by done. destruct fa as [[fa|]|], fb as [[fb|]|]; cbn [rbind]; unfold enter; cbn [rbind]; rewrite ?Hcons, ?Ea, ?Eb by done;
    rewrite ?(String.eqb_sym lb la), ?orb_false_r; destruct (la =? lb)%string; cbn [same_forks]; try done.
  all: split; [apply perm_swap|]; rewrite <- ?app_assoc; try apply Permutation_app_head, perm_swap; done.
Qed.

Lemma unknownFold_perm l l' : l ≡ₚ l' -> forall a b, same_forks a b -> same_forks (foldl unknownStep a l) (foldl unknownStep b l').
Proof.
  induction 1 as [|x l l' _ IH|x y l|l1 l2 l3 _ IH1 _ IH2]; intros a b Hab; cbn [foldl]; [done|..].
  - by apply IH, unknownStep_proper.
  - assert (same_forks (unknownStep (unknownStep a y) x) (unknownStep (unknownStep b x) y)) as H.
    { etransitivity; [apply unknownStep_swap|]. by do 2 apply unknownStep_proper. }
    clear Hab. revert H. generalize (unknownStep (unknownStep a y) x) (unknownStep (unknownStep b x) y).
    induction l as [|z l IH]; intros u v H; [done|]. by apply IH, unknownStep_proper.
  - etransitivity; [apply (IH1 a b Hab)|]. by apply IH2.
Qed.

(** What a configuration must say for the network to have a fork digest in every epoch. *)
Definition complete (cfg : DevnetConfig) : bool :=
  let forks := List.filter kept (dc_CLForks cfg) in
  existsb (fun c => fc_Epoch c =? 0) forks
  && ((dc_FuluForkEpoch cfg =? max_uint64)
      || existsb (fun c => fc_Epoch c =? dc_FuluForkEpoch cfg) forks && existsb (fun b => bp_epoch b <=? dc_FuluForkEpoch cfg) (dc_BlobSchedule cfg)).

Lemma fork_of_epoch cs fs e :
  Forall2 fork_of cs fs -> existsb (fun f => cf_epoch f =? e) fs = existsb (fun c => fc_Epoch c =? e) cs.
Proof. induction 1 as [|c f cs fs (_ & Hf & _) _ IH]; [done|]. cbn [existsb]. by rewrite IH, Hf. Qed.

Lemma registered_wf cfg n cl :
  config_ok cfg = true -> registered cfg n cl -> complete cfg = true -> wf_cl cl = true /\ blobs_cover cl = true.
Proof.
  intros Hcfg (_ & _ & _ & _ & _ & Hfu & _ & (fs & Hfs & _ & Hf) & Hb & Hc & _) Hcomp.
  unfold config_ok, complete in *. cbv zeta in Hcomp. apply andb_true_iff in Hcomp as [H0 H1].
  apply andb_true_iff in Hcfg as [[_ Hcf]%andb_true_iff Hcb].
  rewrite <- !(fork_of_epoch _ fs) in * by done.
  assert (forallb (fun f => is_uint64 (cf_epoch f)) fs = true) as Hu.
  { clear -Hfs Hcf. remember (List.filter kept (dc_CLForks cfg)) as cs eqn:E.
    assert (forall c, c ∈ cs -> is_uint64 (fc_Epoch c) = true) as H.
    { intros c. rewrite E, elem_of_lfilter. intros [Hc _]. by apply (forallb_elem _ _ _ Hcf Hc). }
    clear E Hcf. induction Hfs as [|c f cs fs (_ & He & _) _ IH]; [done|]. cbn [forallb]. rewrite He, H by left. apply IH. intros c' Hc'. apply H. by right. }
  set (sorted := isort (fun a b => cf_epoch a <=? cf_epoch b) fs) in *.
  assert (fs ≡ₚ sorted) as Hp by (symmetry; apply isort_perm).
  assert (dc_BlobSchedule cfg ≡ₚ cl_blobSchedule cl) as Hpb by (rewrite Hb; symmetry; apply isort_perm).
  rewrite (forallb_perm _ _ _ Hp) in Hu. rewrite (forallb_perm _ _ _ Hpb) in Hcb. rewrite (existsb_perm _ _ _ Hp) in H0. rewrite (existsb_perm _ _ _ Hp), (existsb_perm _ _ _ Hpb) in H1.
  assert (forks_ok cl = true) as Hfo.
  { unfold forks_ok. rewrite Hf, Hu, (by_key_nondecreasing cf_epoch sorted) by apply epoch_sorted. rewrite !andb_true_r.
    pose proof (epoch_sorted cf_epoch fs) as Hs. fold sorted in Hs. apply existsb_elem in H0 as (f & Hin & He).
    destruct sorted as [|x l]; [by apply elem_of_nil in Hin|]. apply andb_true_iff in Hu as [Hx _]. unfold is_uint64 in Hx.
    apply elem_of_cons in Hin as [->|Hin]; [done|]. apply StronglySorted_inv in Hs as [_ Hs]. rewrite Forall_forall in Hs. specialize (Hs _ Hin). boolify. lia. }
  assert (blobs_ok cl = true) as Hbo.
  { unfold blobs_ok. rewrite Hcb, andb_true_r. apply by_key_nondecreasing. rewrite Hb. apply epoch_sorted. }
  unfold wf_cl, fulu_ok, blobs_cover. rewrite Hfo, Hbo, Hfu, Hf. destruct (dc_FuluForkEpoch cfg =? max_uint64); [done|].
  apply andb_true_iff in H1 as [-> Hcov]. split; [done|]. cbn [orb]. rewrite <- Hcov.
  assert (forall e, bpoCancelled cl e = false) as Hno by (intros; unfold bpoCancelled; by rewrite Hc).
  clear - Hno. induction (cl_blobSchedule cl) as [|b l IH]; [done|]. cbn [existsb]. by rewrite IH, Hno, andb_true_r.
Qed.

(** With a complete configuration every instant has a digest. *)
Lemma registered_digest registry cfg n cl t :
  config_ok cfg = true -> is_ok (Get registry devnetName) = false -> registered cfg n cl -> clock_ok cl = true -> complete cfg = true ->
  exists s, CLForkStateAt (registry ++ [n]) devnetName t = Ok s.
Proof.
  intros Hcfg Hno Hreg Hclk Hcomp. destruct (registered_wf cfg n cl Hcfg Hreg Hcomp) as [Hwf Hcov].
  destruct Hreg as (Hn & _ & _ & Hcl & _ & _ & _ & _ & _ & _ & _ & _ & _ & _ & Hk & _).
  rewrite (CLForkStateAt_value _ _ n cl) by (done || (rewrite <- Hn, Get_snoc by (by rewrite Hn); by rewrite String.eqb_refl) || by rewrite Hk).
  apply (computeStateAt_total cl Hwf Hcov). by apply epochAt_nonneg.
Qed.

(** A registration that succeeds appends one network, found under its own name, and
    answers for every other name as before; no second devnet is taken after it; a registry
    fit for querying stays fit; and when the configured forks start at epoch 0 and a blob
    schedule entry is in force by Fulu, the devnet has a fork digest at every instant. *)
Theorem devnet_registered registry cfg registry' :
  config_ok cfg = true -> RegisterDevnet registry cfg = Ok registry' ->
  (exists n cl, registry' = registry ++ [n] /\ registered cfg n cl /\ clock_ok cl = true) /\
  (forall name, name <> devnetName -> Get registry' name = Get registry name) /\
  (forall cfg', RegisterDevnet registry' cfg' = Err "network %q already registered") /\
  ((forall c g, parseGenesis (dc_ELGenesisJSON cfg) = Ok (c, g) -> 0 <= gb_Time g) -> registry_ok registry -> registry_ok registry') /\
  (complete cfg = true -> forall t, exists s, CLForkStateAt registry' devnetName t = Ok s).
Proof.
  intros Hcfg H. destruct (RegisterDevnet_inv _ _ _ Hcfg H) as (Hno & n & cl & -> & Hr & Hclk & _). pose proof Hr as Hreg.
  destruct Hr as (Hn & _ & _ & Hcl & _ & _ & _ & _ & _ & _ & _ & _ & _ & _ & Hk & Hcan & Hld & Hfk & (chain & Hgen' & _) & _).
  assert (forall name, Get (registry ++ [n]) name = if (name =? devnetName)%string then Ok n else Get registry name) as Hget.
  { intros name. rewrite <- Hn. apply Get_snoc. by rewrite Hn. }
  split_and!.
  - by exists n, cl.
  - intros name Hne. rewrite Hget. by rewrite (proj2 (String.eqb_neq _ _) Hne).
  - intros cfg'. unfold RegisterDevnet. rewrite Hget, String.eqb_refl. done.
  - intros Htime Hok name m. rewrite Hget. destruct (name =? devnetName)%string; [|apply Hok]. intros [= <-].
    destruct (load_uncancelled n Hcan Hld) as (Hc & Hg & Hf). unfold network_ok. rewrite Hc, Hg, Hf, Hfk, Hk. split_and!; [by eapply Htime|constructor|done|done].
  - intros Hcomp t. by apply (registered_digest registry cfg n cl).
Qed.
End Devnet.

(** ** Map order *)

#[export] Instance upd_nw_extraELForks : Upd nw_extraELForks. Proof. derive_upd. Defined.
(** The network with other forks from its genesis file. *)
Definition withExtra (n : Network) (extra : list elForkTime) : Network := n <| nw_extraELForks := extra |>.

Lemma RegisterDevnet_extra (c1 c2 : GenesisCodec) (EC : EnodeCodec) registry cfg n x1 x2 :
  @parseGenesis c1 = @parseGenesis c2 -> @unknownELForks c1 (dc_ELGenesisJSON cfg) = Ok x1 -> @unknownELForks c2 (dc_ELGenesisJSON cfg) = Ok x2 ->
  @RegisterDevnet c1 EC registry cfg = Ok (registry ++ [n]) -> @RegisterDevnet c2 EC registry cfg = Ok (registry ++ [withExtra n x2]).
Proof.
  intros Hp H1 H2. unfold RegisterDevnet. rewrite H1, H2, Hp. destruct (is_ok _); [done|].
  destruct (parseGenesis _) as [[[chain|] genesis]|]; [|done..]. cbn [rbind]. destruct (_ =? 0); [done|]. cbn [rbind].
  destruct (hex_decode _); [|done]. destruct (negb _); [done|]. cbv zeta. destruct (bool_decide _); [done|].
  destruct (_ || _ || _); [done|]. destruct (_ <? _); [done|]. destruct (_ <? _); [done|]. destruct (foldl forkStep _ _) as [forks|]; [|done]. cbn [rbind].
  destruct (bool_decide (forks = [])); [done|]. destruct (_ && _); [done|]. intros [= H%app_inv_head].
  injection H as <-. reflexivity.
Qed.

Lemma load_withExtra n x1 x2 :
  nw_extraELForks n = x1 -> x1 ≡ₚ x2 -> nw_loaded n = false -> nw_cancellations n = [] ->
  load (withExtra n x2) = withExtra (load n) x2.
Proof.
  intros <- Hp Hl Hc. assert (compiledELForks (withExtra n x2) = compiledELForks n) as Hcm.
  { symmetry. apply mergeELForks_deterministic. cbn [concat app]. rewrite !app_nil_r. by apply Permutation_app_head. }
  destruct n. cbn in Hl, Hc. subst. unfold load. rewrite Hcm. reflexivity.
Qed.

Lemma CurrentForkIDAt_withExtra n x2 t :
  load (withExtra n x2) = withExtra (load n) x2 -> fst (CurrentForkIDAt (withExtra n x2) t) = fst (CurrentForkIDAt n t).
Proof.
  intros Hl. unfold CurrentForkIDAt. rewrite Hl. change (nw_elForks (withExtra (load n) x2)) with (nw_elForks (load n)).
  change (nw_fork (withExtra (load n) x2)) with (nw_fork (load n)).
  assert (currentForkIDAt (withExtra (load n) x2) t = currentForkIDAt (load n) t) as ->; [|by repeat case_match].
  unfold currentForkIDAt, forkIDAt. rewrite load_load, (load_loaded (withExtra (load n) x2)) by apply nw_loaded_load. done.
Qed.

(** Two codecs that differ in the order of the raw entries find the same forks. *)
Lemma unknownELForks_order (c1 c2 : GenesisCodec) json l1 l2 x1 :
  @chainConfigTags c1 = @chainConfigTags c2 -> @rawConfig c1 json = Ok l1 -> @rawConfig c2 json = Ok l2 -> l1 ≡ₚ l2 ->
  @unknownELForks c1 json = Ok x1 -> exists x2, @unknownELForks c2 json = Ok x2 /\ x1 ≡ₚ x2.
Proof.
  intros Ht H1 H2 Hl. unfold unknownELForks. rewrite H1, H2. cbn [rbind].
  assert (@unknownStep c1 = @unknownStep c2) as -> by (unfold unknownStep; by rewrite Ht).
  pose proof (@unknownFold_perm c2 l1 l2 Hl (Ok ([], [])) (Ok ([], [])) ltac:(done)) as Hs.
  destruct (foldl _ _ l1) as [[seen out]|], (foldl _ _ l2) as [[seen' out']|]; try done. cbn [rbind] in *. intros [= <-]. exists out'. by split; [|apply Hs].
Qed.

Lemma RegisterDevnet_order (c1 c2 : GenesisCodec) (EC : EnodeCodec) registry cfg l1 l2 r1 :
  config_ok cfg = true ->
  @parseGenesis c1 = @parseGenesis c2 -> @chainConfigTags c1 = @chainConfigTags c2 ->
  @rawConfig c1 (dc_ELGenesisJSON cfg) = Ok l1 -> @rawConfig c2 (dc_ELGenesisJSON cfg) = Ok l2 -> l1 ≡ₚ l2 ->
  @RegisterDevnet c1 EC registry cfg = Ok r1 ->
  exists n x, r1 = registry ++ [n] /\ @RegisterDevnet c2 EC registry cfg = Ok (registry ++ [withExtra n x]) /\
    load (withExtra n x) = withExtra (load n) x.
Proof.
  intros Hcfg Hp Ht H1 H2 Hl E1. destruct (@RegisterDevnet_inv c1 EC _ _ _ Hcfg E1) as (_ & n & cl & -> & Hr & _).
  destruct Hr as (_ & _ & _ & _ & _ & _ & _ & _ & _ & _ & _ & _ & _ & _ & _ & Hcan & Hld & _ & _ & Hx).
  destruct (unknownELForks_order c1 c2 _ l1 l2 _ Ht H1 H2 Hl Hx) as (x2 & Hx2 & Hperm). exists n, x2. split_and!; [done| |].
  - exact (RegisterDevnet_extra c1 c2 EC registry cfg n _ x2 Hp Hx Hx2 E1).
  - exact (load_withExtra n _ x2 eq_refl Hperm Hld Hcan).
Qed.

(** Go iterates over the genesis file's config in a random order: whichever it is, the
    registration succeeds or fails alike, and the network it adds has the same execution
    schedule and the same fork identifier at every instant. *)
Theorem devnet_map_order (c1 c2 : GenesisCodec) (EC : EnodeCodec) registry cfg l1 l2 :
  config_ok cfg = true ->
  @parseGenesis c1 = @parseGenesis c2 -> @chainConfigTags c1 = @chainConfigTags c2 ->
  @rawConfig c1 (dc_ELGenesisJSON cfg) = Ok l1 -> @rawConfig c2 (dc_ELGenesisJSON cfg) = Ok l2 -> l1 ≡ₚ l2 ->
  match @RegisterDevnet c1 EC registry cfg, @RegisterDevnet c2 EC registry cfg with
  | Ok r1, Ok r2 => exists n1 n2, r1 = registry ++ [n1] /\ r2 = registry ++ [n2] /\
      nw_elForks (load n1) = nw_elForks (load n2) /\ forall t, fst (CurrentForkIDAt n1 t) = fst (CurrentForkIDAt n2 t)
  | Err _, Err _ => True
  | _, _ => False
  end.
Proof.
  intros Hcfg Hp Ht H1 H2 Hl. destruct (@RegisterDevnet c1 EC registry cfg) as [r1|] eqn:E1.
  - destruct (RegisterDevnet_order c1 c2 EC _ _ l1 l2 r1 Hcfg Hp Ht H1 H2 Hl E1) as (n & x & -> & -> & Hload).
    exists n, (withExtra n x). split_and!; [done..|by rewrite Hload|intros t; symmetry; by apply CurrentForkIDAt_withExtra].
  - destruct (@RegisterDevnet c2 EC registry cfg) as [r2|] eqn:E2; [|done].
    destruct (RegisterDevnet_order c2 c1 EC _ _ l2 l1 r2 Hcfg (eq_sym Hp) (eq_sym Ht) H2 H1 ltac:(by symmetry) E2) as (? & ? & _ & E & _). congruence.
Qed.

(** ** A devnet *)

Definition demoChain : ChainConfig := [("ChainID", BigInt (Some 3151908)); ("ShanghaiTime", Uint64Ptr (Some 0)); ("PragueTime", Uint64Ptr (Some 1700000100))].
(** A genesis file with two forks go-ethereum does not know; the flag reverses its entries. *)
Definition demoGenesis (reversed : bool) : GenesisCodec := {|
  parseGenesis json := if (json =? "genesis")%string then Ok (Some demoChain, GenesisBlock (zeros 32) 1700000000 1) else Err "json";
  rawConfig _ := let l := [("chainId", "3151908"); ("pragueTime", "1700000100"); ("bpo1Time", "1700000200"); ("glamTime", "1700000200"); ("heckTime", "null")] in
    Ok (if reversed then reverse l else l);
  chainConfigTags := ["chainId"; "shanghaiTime"; "pragueTime"] |}.
Definition demoEnodes : EnodeCodec := {|
  parseENR s := if HasPrefix s "enode://" then Some (MkENode "" 0 "" s None None None None None None None None None None None None None) else None;
  ParseV4 _ := None |}.
Definition demoDevnet : DevnetConfig :=
  MkDevnetConfig "genesis" 3151909 "0x7033d675f49ab2e76ffba52871d1ff7b73914b3a5ac8e1c0986c19549d67c0d7" 1700000000 12 32
    [MkCLForkConfig "FULU" 10 "0x70000038"; MkCLForkConfig "GENESIS" 0 "0x10000038"; MkCLForkConfig "ELECTRA" 5 "0x60000038"]
    10 [BlobParams 20 15; BlobParams 5 9] ["enode://a"; ""; "junk"].

Lemma demoDevnet_registers : is_ok (@RegisterDevnet (demoGenesis false) demoEnodes [] demoDevnet) = true.
Proof. vm_compute. reflexivity. Qed.

Lemma devnet_registered_witness :
  exists registry', @RegisterDevnet (demoGenesis false) demoEnodes [] demoDevnet = Ok registry' /\
    forall t, exists s, CLForkStateAt registry' devnetName t = Ok s.
Proof.
  destruct (@RegisterDevnet (demoGenesis false) demoEnodes [] demoDevnet) as [r|] eqn:E; [|pose proof demoDevnet_registers as H; rewrite E in H; done].
  exists r. split; [done|]. destruct (@devnet_registered (demoGenesis false) demoEnodes [] demoDevnet r eq_refl E) as (_ & _ & _ & _ & H). by apply H.
Defined.

Lemma devnet_map_order_witness :
  match @RegisterDevnet (demoGenesis false) demoEnodes [] demoDevnet, @RegisterDevnet (demoGenesis true) demoEnodes [] demoDevnet with
  | Ok r1, Ok r2 => exists n1 n2, r1 = [] ++ [n1] /\ r2 = [] ++ [n2] /\
      nw_elForks (load n1) = nw_elForks (load n2) /\ forall t, fst (CurrentForkIDAt n1 t) = fst (CurrentForkIDAt n2 t)
  | Err _, Err _ => True
  | _, _ => False
  end.
Proof.
  apply (devnet_map_order (demoGenesis false) (demoGenesis true) demoEnodes [] demoDevnet _ _ eq_refl eq_refl eq_refl eq_refl eq_refl).
  symmetry. apply (reverse_Permutation [_; _; _; _; _]).
Defined.

(** The two unknown forks of the demo, tied in time, have one order. *)
Example demo_forks reversed :
  map nw_extraELForks <$> (match @RegisterDevnet (demoGenesis reversed) demoEnodes [] demoDevnet with Ok r => Some r | Err _ => None end) =
    Some [if reversed then [ElForkTime "Glam" 1700000200; ElForkTime "BPO1" 1700000200] else [ElForkTime "BPO1" 1700000200; ElForkTime "Glam" 1700000200]] /\
  map (fun n => map ef_name (nw_elForks (load n))) <$> (match @RegisterDevnet (demoGenesis reversed) demoEnodes [] demoDevnet with Ok r => Some r | Err _ => None end) =
    Some [["Shanghai"; "Prague"; "BPO1"; "Glam"]].
Proof. destruct reversed; vm_compute; split; reflexivity. Qed.
