(* ===== verification/DevnetText.v ===== *)
(** [config.yaml] reads back: a schedule written the way the genesis bundles write it is
    parsed to itself, and a bundle that holds it registers. *)

From stdpp Require Import base gmap strings list numbers pretty.
From Stdlib Require Import ZArith Lia Ascii.
From S2P Require Import Prelude GoLib Text Hashes Consensus ForkId Network Readiness NodeData Devnet DevnetConfig.
#[local] Open Scope Z_scope.

(** * Ends of a line *)

Definition headChar (s : string) : option ascii := match s with String c _ => Some c | EmptyString => None end.
Fixpoint lastChar (s : string) : option ascii :=
  match s with EmptyString => None | String c s' => match lastChar s' with Some z => Some z | None => Some c end end.

Lemma lastChar_none s : lastChar s = None <-> s = "".
Proof. destruct s as [|c s]; [done|]. cbn. by destruct (lastChar s). Qed.

Lemma lastChar_app s t : t <> "" -> lastChar (s +:+ t) = lastChar t.
Proof.
  intros Ht. induction s as [|c s IH]; [done|]. rewrite sapp_cons. cbn [lastChar]. rewrite IH.
  destruct (lastChar t) eqn:E; [done|]. by apply lastChar_none in E.
Qed.

Lemma trim_right_last s z : lastChar s = Some z -> is_blank z = false -> trim_right s = s.
Proof.
  intros Hz Hb. induction s as [|c s IH]; [done|]. cbn [lastChar trim_right] in *. destruct (lastChar s) eqn:E.
  - rewrite IH by done. destruct s; [done|]. done.
  - apply lastChar_none in E as ->. injection Hz as ->. cbn. by rewrite Hb.
Qed.
Lemma trimRight_last p s z : lastChar s = Some z -> p z = false -> trimRight p s = s.
Proof.
  intros Hz Hb. induction s as [|c s IH]; [done|]. cbn [lastChar trimRight] in *. destruct (lastChar s) eqn:E.
  - rewrite IH by done. destruct s; [done|]. done.
  - apply lastChar_none in E as ->. injection Hz as ->. cbn. by rewrite Hb.
Qed.

Lemma before_avoids c s : avoids c s = true -> before c s = s.
Proof. induction s as [|x s IH]; [done|]. cbn [sforall before]. intros [Hx Hs]%andb_true_iff. apply negb_true_iff in Hx as ->. by rewrite IH. Qed.

(** A byte that neither blanks nor quotes. *)
Definition solid (c : ascii) : bool := negb (is_blank c) && negb (is_quote c).

(** Leading blanks go, and a text with solid ends stays. *)
Lemma TrimSpace_solid pad s a z :
  sforall is_blank pad = true -> headChar s = Some a -> lastChar s = Some z -> solid a = true -> solid z = true -> TrimSpace (pad +:+ s) = s.
Proof.
  unfold solid. intros Hp Ha Hz [Hab _]%andb_true_iff [Hzb _]%andb_true_iff. apply negb_true_iff in Hab, Hzb. unfold TrimSpace.
  assert (trim_left (pad +:+ s) = s) as ->; [|by apply (trim_right_last s z)].
  induction pad as [|c pad IH]; [destruct s as [|c s]; [done|]; injection Ha as ->; change ("" +:+ String a s) with (String a s); cbn [trim_left]; by rewrite Hab|].
  rewrite sapp_cons. cbn [sforall trim_left] in *. apply andb_true_iff in Hp as [-> Hp]. by apply IH.
Qed.

Lemma clean_solid pad s a z :
  sforall is_blank pad = true -> avoids "#" (pad +:+ s) = true -> headChar s = Some a -> lastChar s = Some z -> solid a = true -> solid z = true ->
  clean (pad +:+ s) = s.
Proof.
  intros Hp Hh Ha Hz Hsa Hsz. unfold clean. rewrite before_avoids, (TrimSpace_solid pad s a z) by done.
  unfold solid in *. apply andb_true_iff in Hsa as [_ Hsa], Hsz as [_ Hsz]. apply negb_true_iff in Hsa, Hsz. unfold Trim.
  assert (trimLeft is_quote s = s) as ->; [|by apply (trimRight_last _ s z)].
  destruct s as [|c s]; [done|]. injection Ha as ->. cbn [trimLeft]. by rewrite Hsa.
Qed.

(** ** Words *)

(** The bytes of keys, numerals and versions: letters, digits and the underscore. *)
Definition wordChar (c : ascii) : bool :=
  let v := byte_val c in is_digit c || ((65 <=? v) && (v <=? 90)) || ((97 <=? v) && (v <=? 122)) || (v =? 95).
Definition isWord (s : string) : bool := negb (s =? "")%string && sforall wordChar s.

Lemma wordChar_solid c : wordChar c = true ->
  solid c = true /\ (c =? "#")%char = false /\ (c =? ":")%char = false /\ (c =? newline)%char = false /\ (c =? carriageReturn)%char = false.
Proof. destruct c as [[] [] [] [] [] [] [] []]; vm_compute; intros H; try discriminate H; repeat split. Qed.

Lemma word_avoids c s : (forall x, wordChar x = true -> (x =? c)%char = false) -> sforall wordChar s = true -> avoids c s = true.
Proof. intros H. apply sforall_impl. intros x Hx. by rewrite H. Qed.

Lemma word_ends s : isWord s = true -> exists a z, headChar s = Some a /\ lastChar s = Some z /\ wordChar a = true /\ wordChar z = true.
Proof.
  unfold isWord. intros [Hne Hs]%andb_true_iff. apply negb_true_iff, String.eqb_neq in Hne. destruct s as [|a s]; [done|]. clear Hne.
  exists a. cbn [headChar]. cbn [sforall] in Hs. apply andb_true_iff in Hs as [Ha Hs]. enough (exists z, lastChar (String a s) = Some z /\ wordChar z = true) as (z & Hz & Hw) by by exists z.
  revert a Ha. induction s as [|b s IH]; intros a Ha; [by exists a|]. cbn [sforall] in Hs. apply andb_true_iff in Hs as [Hb Hs].
  destruct (IH Hs b Hb) as (z & Hz & Hw). exists z. split; [|done]. change (match lastChar (String b s) with Some z => Some z | None => Some a end = Some z). by rewrite Hz.
Qed.

Lemma word_nonempty s : isWord s = true -> s <> "".
Proof. unfold isWord. intros [H _]%andb_true_iff. by apply negb_true_iff, String.eqb_neq in H. Qed.

Lemma isWord_app s t : isWord s = true -> sforall wordChar t = true -> isWord (s +:+ t) = true.
Proof.
  unfold isWord. intros [Hne Hs]%andb_true_iff Ht. rewrite sforall_app, Hs, Ht. destruct s; [done|]. done.
Qed.

Lemma isWord_pretty n : 0 <= n -> isWord (pretty n) = true.
Proof.
  intros Hn. destruct (pretty_numeral n Hn) as (Hd & Hne & _). unfold isWord. rewrite (proj2 (String.eqb_neq _ _) Hne).
  apply (sforall_impl is_digit); [|done]. intros c Hc. unfold wordChar. by rewrite Hc.
Qed.

Lemma clean_word pad s : sforall is_blank pad = true -> avoids "#" pad = true -> isWord s = true -> clean (pad +:+ s) = s.
Proof.
  intros Hp Hh Hs. destruct (word_ends s Hs) as (a & z & Ha & Hz & Hsa & Hsz). apply (clean_solid pad s a z); try done; try by apply wordChar_solid.
  rewrite sforall_app, Hh. unfold isWord in Hs. apply andb_true_iff in Hs as [_ Hs]. apply word_avoids; [by apply wordChar_solid|done].
Qed.
Lemma TrimSpace_word s : isWord s = true -> TrimSpace s = s.
Proof.
  intros Hs. destruct (word_ends s Hs) as (a & z & Ha & Hz & Hwa & Hwz). apply (TrimSpace_solid "" s a z); try done; by apply wordChar_solid.
Qed.

(** ** A key and its value *)

Definition entryLine (key val : string) : string := key +:+ ": " +:+ val.

Section Entry.
Context (key val : string) (Hk : isWord key = true) (Hv : isWord val = true).

Lemma entryLine_avoids c : (forall x, wordChar x = true -> (x =? c)%char = false) -> (":" =? c)%char = false -> (" " =? c)%char = false -> avoids c (entryLine key val) = true.
Proof using Hk Hv.
  intros Hc H1 H2. unfold entryLine. rewrite !sforall_app. unfold isWord in *. apply andb_true_iff in Hk as [_ Hk'], Hv as [_ Hv'].
  rewrite (word_avoids c key), (word_avoids c val) by done. cbn [sforall]. by rewrite H1, H2.
Qed.

Lemma entryLine_last : exists z, lastChar (entryLine key val) = Some z /\ wordChar z = true.
Proof using Hv.
  destruct (word_ends val Hv) as (_ & z & _ & Hz & _ & Hw). exists z. split; [|done]. unfold entryLine. rewrite sapp_assoc, lastChar_app; [done|]. by apply word_nonempty.
Qed.

(** A line [key: value] cleans to itself behind a pad of blanks, and is cut into its halves. *)
Lemma entryLine_clean pad : sforall is_blank pad = true -> avoids "#" pad = true -> clean (pad +:+ entryLine key val) = entryLine key val.
Proof using Hk Hv.
  intros Hp Hh. destruct entryLine_last as (z & Hz & Hwz). destruct (word_ends key Hk) as (a & _ & Ha & _ & Hwa & _).
  apply (clean_solid pad _ a z); [done| |by unfold entryLine; destruct key|done|by apply wordChar_solid..].
  rewrite sforall_app, Hh. apply entryLine_avoids; [by apply wordChar_solid|done..].
Qed.

Lemma entryLine_trim pad : sforall is_blank pad = true -> TrimSpace (pad +:+ entryLine key val) = entryLine key val.
Proof using Hk Hv.
  intros Hp. destruct entryLine_last as (z & Hz & Hwz). destruct (word_ends key Hk) as (a & _ & Ha & _ & Hwa & _).
  apply (TrimSpace_solid pad _ a z); [done|by unfold entryLine; destruct key|done|by apply wordChar_solid..].
Qed.

(** Behind the dash of a list entry. *)
Lemma dashLine_last : exists z, lastChar ("- " +:+ entryLine key val) = Some z /\ wordChar z = true.
Proof using Hv.
  destruct entryLine_last as (z & Hz & Hwz). exists z. split; [|done]. rewrite lastChar_app; [done|]. intros H. by rewrite H in Hz.
Qed.
Lemma dashLine_clean pad : sforall is_blank pad = true -> avoids "#" pad = true -> clean (pad +:+ "- " +:+ entryLine key val) = "- " +:+ entryLine key val.
Proof using Hk Hv.
  intros Hp Hh. destruct dashLine_last as (z & Hz & Hwz). apply (clean_solid pad _ "-"%char z); [done| |done..|by apply wordChar_solid].
  rewrite sforall_app, Hh. apply entryLine_avoids; [by apply wordChar_solid|done..].
Qed.
Lemma dashLine_trim : TrimSpace ("- " +:+ entryLine key val) = "- " +:+ entryLine key val.
Proof using Hv.
  destruct dashLine_last as (z & Hz & Hwz). apply (TrimSpace_solid "" _ "-"%char z); [done..|by apply wordChar_solid].
Qed.

Lemma entryLine_cut : Cut ":" (entryLine key val) = Some (key, " " +:+ val).
Proof using Hk.
  unfold entryLine. apply (Cut_app ":" key (" " +:+ val)). unfold isWord in Hk. apply andb_true_iff in Hk as [_ Hk'].
  apply word_avoids; [by apply wordChar_solid|done].
Qed.

Lemma entryLine_value : clean (" " +:+ val) = val.
Proof using Hv. by apply clean_word. Qed.

Lemma entryLine_plain : entryLine key val <> "" /\ entryLine key val <> "BLOB_SCHEDULE:".
Proof using Hv.
  destruct entryLine_last as (z & Hz & Hw). split; intros H; rewrite H in Hz; [done|]. injection Hz as <-. done.
Qed.

(** Outside the blob schedule such a line is read as its key says. *)
Lemma yamlLine_entry st : y_inBlob st = false -> yamlLine (entryLine key val) st = topLine (entryLine key val) st.
Proof using Hk Hv.
  intros Hb. unfold yamlLine. rewrite (entryLine_clean "" eq_refl eq_refl : clean (entryLine key val) = _). destruct entryLine_plain as [H1 H2].
  cbv zeta. by rewrite (proj2 (String.eqb_neq _ _) H1), (proj2 (String.eqb_neq _ _) H2), Hb.
Qed.
End Entry.

(** * The text of a configuration *)

Record forkText := MkForkText { ft_Name : string; ft_Epoch : Z; ft_Version : string }.

(** What the bundle says; versions are four bytes. *)
Record plan := MkPlan { pl_genesisTime : Z; pl_secondsPerSlot : Z; pl_slotsPerEpoch : Z; pl_electraMaxBlobs : Z; pl_forks : list forkText; pl_blobs : list blobParams }.

Definition versionOf (f : forkText) : string := "0x" +:+ hex_encode (ft_Version f).

Definition forkLines (f : forkText) : list string :=
  [entryLine (ft_Name f +:+ "_FORK_VERSION") (versionOf f); entryLine (ft_Name f +:+ "_FORK_EPOCH") (pretty (ft_Epoch f))].
Definition blobLines (b : blobParams) : list string :=
  ["  - " +:+ entryLine "EPOCH" (pretty (bp_epoch b)); "    " +:+ entryLine "MAX_BLOBS_PER_BLOCK" (pretty (bp_maxBlobs b))].
Definition configLines (p : plan) : list string :=
  [entryLine "GENESIS_TIME" (pretty (pl_genesisTime p)); entryLine "SECONDS_PER_SLOT" (pretty (pl_secondsPerSlot p));
   entryLine "SLOTS_PER_EPOCH" (pretty (pl_slotsPerEpoch p)); entryLine "MAX_BLOBS_PER_BLOCK_ELECTRA" (pretty (pl_electraMaxBlobs p))]
  ++ flat_map forkLines (pl_forks p) ++ ["BLOB_SCHEDULE:"] ++ flat_map blobLines (pl_blobs p).
(** Every line ends with a newline. *)
Definition configText (p : plan) : string := foldr (fun l t => l +:+ String newline t) "" (configLines p).

Definition fork_ok (f : forkText) : bool := isWord (ft_Name f) && (slen (ft_Name f) <=? 1000) && (slen (ft_Version f) =? 4) && is_uint64 (ft_Epoch f).
Definition blob_ok (b : blobParams) : bool := is_uint64 (bp_epoch b) && is_uint64 (bp_maxBlobs b).
Definition plan_ok (p : plan) : bool :=
  forallb (fun n => (0 <? n) && (n <=? max_uint64)) [pl_genesisTime p; pl_secondsPerSlot p; pl_slotsPerEpoch p]
  && is_uint64 (pl_electraMaxBlobs p) && forallb fork_ok (pl_forks p) && bool_decide (NoDup (map ft_Name (pl_forks p))) && forallb blob_ok (pl_blobs p).

Definition forkNamed (name : string) (p : plan) : option forkText := List.find (fun f => (ft_Name f =? name)%string) (pl_forks p).

(** The configuration [parseCLConfig] reads from the text. *)
Definition planConfig (p : plan) : clConfig :=
  MkCLConfig (map (fun f => MkCLForkConfig (ft_Name f) (ft_Epoch f) (versionOf f)) (pl_forks p))
    (from_option versionOf "" (forkNamed "FULU" p)) (from_option ft_Epoch max_uint64 (forkNamed "FULU" p))
    (from_option (fun f => negb (ft_Epoch f =? max_uint64)) false (forkNamed "FULU" p))
    (pl_blobs p) (from_option ft_Epoch 0 (forkNamed "ELECTRA" p)) (pl_electraMaxBlobs p)
    (pl_genesisTime p) (pl_secondsPerSlot p) 0 (pl_slotsPerEpoch p).

(** ** One line at a time *)

Lemma yamlLines_app l l' st : yamlLines (l ++ l') st = let! st' := yamlLines l st in yamlLines l' st'.
Proof. revert st. induction l as [|x l IH]; intros st; [done|]. cbn [app yamlLines]. destruct (yamlLine x st); [apply IH|done]. Qed.

Lemma number_pretty what n : is_uint64 n = true -> number what (pretty n) = Ok n.
Proof. unfold number, is_uint64. intros H. rewrite ParseUint_pretty; [done|]. unfold max_uint64 in H. boolify. lia. Qed.

Lemma topLine_numeric key set n st :
  isWord key = true -> HasSuffix key "_FORK_VERSION" = false -> HasSuffix key "_FORK_EPOCH" = false -> numeric key = Some set ->
  is_uint64 n = true -> y_inBlob st = false ->
  yamlLine (entryLine key (pretty n)) st = Ok (st <| y_cfg := set n (y_cfg st) |>).
Proof.
  intros Hk H1 H2 Hn Hu Hb. assert (isWord (pretty n) = true) as Hv by (apply isWord_pretty; unfold is_uint64 in Hu; boolify; lia).
  rewrite yamlLine_entry by done. unfold topLine. rewrite entryLine_cut, entryLine_value, TrimSpace_word by done.
  cbv zeta. by rewrite H1, H2, Hn, number_pretty.
Qed.

Definition versionLine (f : forkText) (st : yaml) : yaml :=
  let st := st <| y_versions := <[ft_Name f := versionOf f]> (y_versions st) |> <| y_forkOrder := y_forkOrder st ++ [ft_Name f] |> in
  if (ft_Name f =? "FULU")%string then st <| y_cfg := (y_cfg st) <| cc_fuluVersion := versionOf f |> |> else st.
Definition epochLine (f : forkText) (st : yaml) : yaml :=
  let st := st <| y_epochs := <[ft_Name f := ft_Epoch f]> (y_epochs st) |> in
  let st := if (ft_Name f =? "FULU")%string then st <| y_cfg := (y_cfg st) <| cc_fuluEpoch := ft_Epoch f |> |> else st in
  if (ft_Name f =? "ELECTRA")%string then st <| y_cfg := (y_cfg st) <| cc_electraEpoch := ft_Epoch f |> |> else st.

Lemma hex_word s : sforall wordChar (hex_encode s) = true.
Proof.
  assert (forall v, 0 <= v < 16 -> wordChar (hex_digit v) = true) as H.
  { intros v Hv. assert (Forall (fun v => wordChar (hex_digit v) = true) (seqZ 0 16)) as Hall by (repeat constructor).
    rewrite Forall_forall in Hall. apply Hall, elem_of_seqZ. lia. }
  induction s as [|c s IH]; [done|]. cbn [hex_encode sforall]. pose proof (byte_val_range c). rewrite !H, IH; [done|..]; split; try apply Z.mod_pos_bound; try apply Z.div_pos; try apply Z.div_lt_upper_bound; lia.
Qed.

Lemma HasSuffix_last s t p : t <> "" -> lastChar t <> lastChar p -> p <> "" -> HasSuffix (s +:+ t) p = false.
Proof.
  intros Ht Hl Hp. apply not_true_iff_false. intros [a Ha]%HasSuffix_spec. apply (f_equal lastChar) in Ha. by rewrite !lastChar_app in Ha.
Qed.

Lemma eqb_app a b s : (a +:+ s =? b +:+ s)%string = (a =? b)%string.
Proof. destruct (String.eqb_spec a b) as [->|Hne]; [apply String.eqb_refl|]. apply String.eqb_neq. by intros H%sapp_inj_r. Qed.

Lemma fork_ok_parts f : fork_ok f = true -> isWord (ft_Name f) = true /\ isWord (versionOf f) = true /\ is_uint64 (ft_Epoch f) = true /\ slen (ft_Version f) = 4 /\ slen (ft_Name f) <= 1000.
Proof.
  unfold fork_ok. intros [[[H1 H2]%andb_true_iff H3]%andb_true_iff H4]%andb_true_iff. split_and!; try done; [|boolify; lia..].
  unfold versionOf. apply isWord_app; [done|apply hex_word].
Qed.

Lemma yamlLine_version f st : fork_ok f = true -> y_inBlob st = false ->
  yamlLine (entryLine (ft_Name f +:+ "_FORK_VERSION") (versionOf f)) st = Ok (versionLine f st).
Proof.
  intros (Hn & Hv & _)%fork_ok_parts Hb. assert (isWord (ft_Name f +:+ "_FORK_VERSION") = true) as Hk by by apply isWord_app.
  rewrite yamlLine_entry by done. unfold topLine. rewrite entryLine_cut, entryLine_value, TrimSpace_word by done. cbv zeta.
  rewrite HasSuffix_app, TrimSuffix_app, (proj2 (String.eqb_neq _ _) (word_nonempty _ Hv)).
  change "FULU_FORK_VERSION" with ("FULU" +:+ "_FORK_VERSION"). rewrite eqb_app. unfold versionLine. by destruct (ft_Name f =? "FULU")%string.
Qed.

Lemma yamlLine_epoch f st : fork_ok f = true -> y_inBlob st = false ->
  yamlLine (entryLine (ft_Name f +:+ "_FORK_EPOCH") (pretty (ft_Epoch f))) st = Ok (epochLine f st).
Proof.
  intros (Hn & _ & Hu & _)%fork_ok_parts Hb. assert (isWord (ft_Name f +:+ "_FORK_EPOCH") = true) as Hk by by apply isWord_app.
  assert (isWord (pretty (ft_Epoch f)) = true) as Hv by (apply isWord_pretty; unfold is_uint64 in Hu; boolify; lia).
  rewrite yamlLine_entry by done. unfold topLine. rewrite entryLine_cut, entryLine_value, TrimSpace_word by done. cbv zeta.
  rewrite HasSuffix_last by done. by rewrite HasSuffix_app, TrimSuffix_app, number_pretty.
Qed.

Definition forkStateOf (st : yaml) (f : forkText) : yaml := epochLine f (versionLine f st).

Lemma forkStateOf_inBlob st f : y_inBlob (forkStateOf st f) = y_inBlob st.
Proof. unfold forkStateOf, epochLine, versionLine. by destruct (ft_Name f =? "FULU")%string, (ft_Name f =? "ELECTRA")%string. Qed.

Lemma yamlLines_forks fs st : forallb fork_ok fs = true -> y_inBlob st = false -> yamlLines (flat_map forkLines fs) st = Ok (foldl forkStateOf st fs).
Proof.
  revert st. induction fs as [|f fs IH]; intros st Hf Hb; [done|]. cbn [forallb flat_map] in *. apply andb_true_iff in Hf as [Hf Hfs].
  rewrite yamlLines_app. unfold forkLines. cbn [yamlLines]. rewrite yamlLine_version by done. cbn [rbind].
  rewrite yamlLine_epoch; [|done|unfold versionLine; by destruct (_ =? _)%string]. cbn [rbind foldl]. apply IH; [done|]. by rewrite forkStateOf_inBlob.
Qed.

(** ** The blob schedule *)

Definition withBlobs (st : yaml) (bs : list blobParams) : yaml := st <| y_cfg := (y_cfg st) <| cc_blobSchedule := cc_blobSchedule (y_cfg st) ++ bs |> |>.

Lemma withBlobs_app st a b : withBlobs (withBlobs st a) b = withBlobs st (a ++ b).
Proof. unfold withBlobs at 3. rewrite app_assoc. reflexivity. Qed.

Lemma isWord_number n : is_uint64 n = true -> isWord (pretty n) = true.
Proof. unfold is_uint64. intros H. apply isWord_pretty. boolify. lia. Qed.

Lemma yamlLine_dash n st st' : is_uint64 n = true -> y_inBlob st = true -> flush st = Ok st' ->
  yamlLine ("  - " +:+ entryLine "EPOCH" (pretty n)) st = Ok (st' <| y_pendEpoch := Some n |>).
Proof.
  intros Hn Hb Hf. assert (isWord (pretty n) = true) as Hv by by apply isWord_number. set (line := "- " +:+ entryLine "EPOCH" (pretty n)).
  assert (clean ("  - " +:+ entryLine "EPOCH" (pretty n)) = line) as Hc by by apply (dashLine_clean "EPOCH" (pretty n) eq_refl Hv "  ").
  unfold yamlLine. rewrite Hc, Hb. cbv zeta. destruct (dashLine_last "EPOCH" (pretty n) Hv) as (z & Hz & Hw).
  assert (line <> "BLOB_SCHEDULE:") as Hne by (intros H; unfold line in H; rewrite H in Hz; injection Hz as <-; done).
  rewrite (proj2 (String.eqb_neq line "") ltac:(done)), (proj2 (String.eqb_neq _ _) Hne). cbn [indented]. change (blobLine line st = Ok (st' <| y_pendEpoch := Some n |>)).
  unfold blobLine. subst line. rewrite dashLine_trim by done. cbv zeta. change (HasPrefix ("- " +:+ entryLine "EPOCH" (pretty n)) "-") with true.
  rewrite Hf. cbn [rbind]. change (TrimPrefix ("- " +:+ entryLine "EPOCH" (pretty n)) "-") with (" " +:+ entryLine "EPOCH" (pretty n)).
  rewrite entryLine_trim, entryLine_cut, TrimSpace_word, entryLine_value, number_pretty by done. done.
Qed.

Lemma yamlLine_max n st : is_uint64 n = true -> y_inBlob st = true ->
  yamlLine ("    " +:+ entryLine "MAX_BLOBS_PER_BLOCK" (pretty n)) st = Ok (st <| y_pendMax := Some n |>).
Proof.
  intros Hn Hb. assert (isWord (pretty n) = true) as Hv by by apply isWord_number. set (line := entryLine "MAX_BLOBS_PER_BLOCK" (pretty n)).
  unfold yamlLine. unfold line. rewrite (entryLine_clean "MAX_BLOBS_PER_BLOCK" (pretty n) eq_refl Hv "    " eq_refl eq_refl), Hb. cbv zeta.
  destruct (entryLine_plain "MAX_BLOBS_PER_BLOCK" (pretty n) Hv) as [H1 H2]. rewrite (proj2 (String.eqb_neq _ _) H1), (proj2 (String.eqb_neq _ _) H2).
  change (blobLine line st = Ok (st <| y_pendMax := Some n |>)). unfold blobLine.
  rewrite (entryLine_trim "MAX_BLOBS_PER_BLOCK" (pretty n) eq_refl Hv "" eq_refl : TrimSpace line = line). cbv zeta. change (HasPrefix line "-") with false. cbn [rbind].
  change (TrimPrefix line "-") with line. rewrite (entryLine_trim "MAX_BLOBS_PER_BLOCK" (pretty n) eq_refl Hv "" eq_refl : TrimSpace line = line). unfold line.
  rewrite entryLine_cut, TrimSpace_word, entryLine_value, number_pretty by done. done.
Qed.

(** The last entry of the schedule is still pending; with it the schedule is complete. *)
Lemma yamlLines_blobs bs st st' : forallb blob_ok bs = true -> y_inBlob st = true -> flush st = Ok st' ->
  exists st2, yamlLines (flat_map blobLines bs) st = Ok st2 /\ y_inBlob st2 = true /\ flush st2 = Ok (withBlobs st' bs).
Proof.
  revert st st'. induction bs as [|b bs IH]; intros st st' Hbs Hb Hf.
  - exists st. split_and!; [done..|]. unfold withBlobs. rewrite app_nil_r, Hf. by destruct st' as [[]].
  - cbn [forallb flat_map] in *. apply andb_true_iff in Hbs as [[H1 H2]%andb_true_iff Hbs]. rewrite yamlLines_app. unfold blobLines. cbn [yamlLines].
    rewrite (yamlLine_dash _ _ st') by done. cbn [rbind].
    assert (y_inBlob st' = true /\ y_pendEpoch st' = None /\ y_pendMax st' = None) as (Hb' & He' & Hm').
    { unfold flush in Hf. destruct (y_pendEpoch st) eqn:E1, (y_pendMax st) eqn:E2; try done; injection Hf as <-; done. }
    rewrite yamlLine_max by done. cbn [rbind].
    set (st1 := (st' <| y_pendEpoch := Some (bp_epoch b) |>) <| y_pendMax := Some (bp_maxBlobs b) |>).
    assert (flush st1 = Ok (withBlobs st' [b])) as Hf1 by (destruct st', b; cbn in *; subst; done).
    destruct (IH st1 _ Hbs Hb' Hf1) as (st2 & Hy & Hb2 & Hfl). exists st2. split_and!; [exact Hy|done|]. by rewrite Hfl, withBlobs_app.
Qed.

(** ** The forks collected *)

(** What a list of forks leaves of the fields that name single forks. *)
Definition lastNamed {A} (name : string) (g : forkText -> A) (d : A) (fs : list forkText) : A :=
  foldl (fun acc f => if (ft_Name f =? name)%string then g f else acc) d fs.

(** One fork, written out. *)
Lemma forkStateOf_eq f a fv fe act bs ee em gt sp sd sl vs es order b pe pm :
  forkStateOf (MkYaml (MkCLConfig a fv fe act bs ee em gt sp sd sl) vs es order b pe pm) f =
  MkYaml (MkCLConfig a (if (ft_Name f =? "FULU")%string then versionOf f else fv) (if (ft_Name f =? "FULU")%string then ft_Epoch f else fe) act bs
            (if (ft_Name f =? "ELECTRA")%string then ft_Epoch f else ee) em gt sp sd sl)
    (<[ft_Name f := versionOf f]> vs) (<[ft_Name f := ft_Epoch f]> es) (order ++ [ft_Name f]) b pe pm.
Proof. unfold forkStateOf, epochLine, versionLine. destruct (ft_Name f =? "FULU")%string, (ft_Name f =? "ELECTRA")%string; reflexivity. Qed.

Lemma forkStates fs a fv fe act bs ee em gt sp sd sl vs es order b pe pm :
  foldl forkStateOf (MkYaml (MkCLConfig a fv fe act bs ee em gt sp sd sl) vs es order b pe pm) fs =
  MkYaml (MkCLConfig a (lastNamed "FULU" versionOf fv fs) (lastNamed "FULU" ft_Epoch fe fs) act bs (lastNamed "ELECTRA" ft_Epoch ee fs) em gt sp sd sl)
    (foldl (fun m f => <[ft_Name f := versionOf f]> m) vs fs) (foldl (fun m f => <[ft_Name f := ft_Epoch f]> m) es fs) (order ++ map ft_Name fs) b pe pm.
Proof.
  revert fv fe ee vs es order. induction fs as [|f fs IH]; intros fv fe ee vs es order; cbn [foldl map]; [by rewrite app_nil_r|].
  rewrite forkStateOf_eq, IH, <- app_assoc. done.
Qed.

Lemma find_snoc {A} (p : A -> bool) l x : List.find p (l ++ [x]) = match List.find p l with Some y => Some y | None => if p x then Some x else None end.
Proof. induction l as [|y l IH]; [done|]. cbn [List.find app]. by destruct (p y). Qed.

Lemma find_name name fs : name ∉ map ft_Name fs -> List.find (fun f => (ft_Name f =? name)%string) fs = None.
Proof.
  intros Hn. destruct (List.find _ fs) as [f|] eqn:E; [|done]. apply find_some_elem in E as [Hin He]. apply String.eqb_eq in He as <-.
  destruct Hn. by apply list_elem_of_fmap_2.
Qed.

(** With distinct names there is one fork to find. *)
Lemma lastNamed_find {A} name (g : forkText -> A) d fs : NoDup (map ft_Name fs) ->
  lastNamed name g d fs = from_option g d (List.find (fun f => (ft_Name f =? name)%string) fs).
Proof.
  induction fs as [|f fs IH] using rev_ind; [done|]. rewrite map_app, NoDup_app. intros (Hd & Hno & _).
  unfold lastNamed in *. rewrite foldl_app, find_snoc. cbn [foldl]. rewrite IH by done. destruct (ft_Name f =? name)%string eqn:E.
  - apply String.eqb_eq in E. rewrite find_name; [done|]. intros Hin. apply (Hno name Hin). rewrite <- E. by left.
  - by destruct (List.find _ fs).
Qed.

Lemma inserted {A} (g : forkText -> A) (m : gmap string A) fs f : NoDup (map ft_Name fs) -> f ∈ fs ->
  foldl (fun m f => <[ft_Name f := g f]> m) m fs !! ft_Name f = Some (g f).
Proof.
  induction fs as [|x fs IH] using rev_ind; [by intros _ ?%elem_of_nil|]. rewrite map_app, NoDup_app. intros (Hd & Hno & _) Hin.
  rewrite foldl_app. cbn [foldl]. apply elem_of_app in Hin as [Hin|Hin%list_elem_of_singleton].
  - rewrite lookup_insert_ne; [by apply IH|]. intros He. apply (Hno (ft_Name f)); [by apply list_elem_of_fmap_2|]. rewrite <- He. by left.
  - subst x. by rewrite lookup_insert_eq.
Qed.

(** ** The text as lines *)

Definition line_ok (limit : Z) (l : string) : Prop := avoids newline l = true /\ slen l < limit /\ lastChar l <> Some carriageReturn.

Lemma dropCR_id l : lastChar l <> Some carriageReturn -> dropCR l = l.
Proof.
  intros H. unfold dropCR, TrimSuffix. destruct (HasSuffix l (String carriageReturn "")) eqn:E; [|done].
  apply HasSuffix_spec in E as [a ->]. by rewrite lastChar_app in H.
Qed.

Lemma scanLines_ok limit ls : Forall (line_ok limit) ls -> scanLines limit ls = (ls, false).
Proof.
  induction 1 as [|l ls (_ & Hl & Hc) _ IH]; [done|]. cbn [scanLines]. replace (limit <=? slen l) with false by (symmetry; boolify; lia).
  by rewrite IH, dropCR_id.
Qed.

Lemma Scan_text limit ls : Forall (line_ok limit) ls -> Scan limit (foldr (fun l t => l +:+ String newline t) "" ls) = (ls, false).
Proof.
  intros H. unfold Scan, textLines. assert (split_on newline "" (foldr (fun l t => l +:+ String newline t) "" ls) = ls ++ [""]) as ->.
  { induction H as [|l ls (Ha & _) _ IH]; [done|]. cbn [foldr]. by rewrite split_app, IH. }
  cbv zeta. rewrite last_snoc. cbn [default]. rewrite removelast_last. by apply scanLines_ok.
Qed.

Lemma pretty_N_go_length k x s : (x < 10 ^ N.of_nat k)%N -> (String.length (pretty_N_go x s) <= k + String.length s)%nat.
Proof.
  revert x s. induction k as [|k IH]; intros x s Hx.
  - assert (x = 0)%N as -> by (cbn in Hx; lia). by rewrite pretty_N_go_0.
  - destruct (decide (x = 0)%N) as [->|Hn]; [rewrite pretty_N_go_0; lia|]. rewrite pretty_N_go_step by lia.
    etransitivity; [apply IH|cbn; lia]. apply N.Div0.div_lt_upper_bound. rewrite Nat2N.inj_succ, N.pow_succ_r' in Hx. done.
Qed.

Lemma pretty_length n : is_uint64 n = true -> slen (pretty n) <= 20.
Proof.
  unfold is_uint64, max_uint64. intros H. boolify. destruct n as [|p|p]; [by vm_compute|..|lia].
  change (pretty (Z.pos p)) with (pretty_N_go (N.pos p) ""). unfold slen.
  pose proof (pretty_N_go_length 20 (N.pos p) "") as Hp. cbn [String.length] in Hp. assert (N.pos p < 10 ^ N.of_nat 20)%N as Hb; [|specialize (Hp Hb); lia].
  apply N2Z.inj_lt. rewrite N2Z.inj_pow. change (Z.of_N (N.pos p)) with (Z.pos p). change (Z.of_N 10 ^ Z.of_N (N.of_nat 20)) with (10 ^ 20). lia.
Qed.

Lemma slen_app a b : slen (a +:+ b) = slen a + slen b.
Proof. unfold slen. rewrite length_sapp. lia. Qed.

Lemma entryLine_ok pre key val :
  isWord key = true -> isWord val = true -> avoids newline pre = true -> slen pre + slen key + slen val < 65534 ->
  line_ok MaxScanTokenSize (pre +:+ entryLine key val).
Proof.
  intros Hk Hv Hp Hl. destruct (entryLine_last key val Hv) as (z & Hz & Hw). split_and!.
  - rewrite sforall_app, Hp. apply entryLine_avoids; try done. by apply wordChar_solid.
  - unfold entryLine, MaxScanTokenSize. rewrite !slen_app. change (slen ": ") with 2. lia.
  - rewrite lastChar_app by by intros H; rewrite H in Hz. rewrite Hz. intros [= ->]. done.
Qed.

Lemma topEntry_ok key val :
  isWord key = true -> isWord val = true -> slen key + slen val < 65534 -> line_ok MaxScanTokenSize (entryLine key val).
Proof. intros Hk Hv Hl. apply (entryLine_ok "" key val Hk Hv eq_refl). exact Hl. Qed.

Lemma configLines_ok p : plan_ok p = true -> Forall (line_ok MaxScanTokenSize) (configLines p).
Proof.
  unfold plan_ok. cbn [forallb]. intros H. apply andb_true_iff in H as [[[[Hn Hm]%andb_true_iff Hf]%andb_true_iff _]%andb_true_iff Hb].
  assert (forall n, (0 <? n) && (n <=? max_uint64) = true -> is_uint64 n = true) as Hpos by (unfold is_uint64; intros; boolify; lia).
  assert (forall n, is_uint64 n = true -> isWord (pretty n) = true /\ slen (pretty n) <= 20) as Hnum by (intros; split; [by apply isWord_number|by apply pretty_length]).
  apply andb_true_iff in Hn as [H1 [H2 [H3 _]%andb_true_iff]%andb_true_iff]. apply Hpos, Hnum in H1 as [??], H2 as [??], H3 as [??]. apply Hnum in Hm as [??].
  unfold configLines. rewrite !Forall_app. split_and!.
  - repeat (apply Forall_cons; split); try apply Forall_nil; try done; apply topEntry_ok; try done;
      match goal with |- context [slen (String ?a ?b)] => let l := eval vm_compute in (slen (String a b)) in change (slen (String a b)) with l end; lia.
  - apply Forall_forall. intros l (f & Hin & Hl)%elem_of_flat_map. apply (forallb_elem _ _ _ Hf) in Hin as (Hnm & Hv & [Hew Hel]%Hnum & Hfour & Hlen)%fork_ok_parts.
    assert (slen (versionOf f) = 10) as Hvl by (unfold versionOf; rewrite slen_app; unfold slen in *; rewrite length_hex_encode; cbn; lia).
    apply elem_of_cons in Hl as [->|Hl%list_elem_of_singleton]; [|subst l]; apply topEntry_ok; try done; try by apply isWord_app.
    + rewrite slen_app, Hvl. change (slen "_FORK_VERSION") with 13. lia.
    + rewrite slen_app. change (slen "_FORK_EPOCH") with 11. lia.
  - repeat constructor; done.
  - apply Forall_forall. intros l (b & Hin & Hl)%elem_of_flat_map. apply (forallb_elem _ _ _ Hb) in Hin as [[Hew Hel]%Hnum [Hmw Hml]%Hnum]%andb_true_iff.
    apply elem_of_cons in Hl as [->|Hl%list_elem_of_singleton]; [|subst l]; apply entryLine_ok; try done;
      repeat match goal with |- context [slen (String ?a ?b)] => let l := eval vm_compute in (slen (String a b)) in change (slen (String a b)) with l end; lia.
Qed.

(** ** Reading it back *)

Lemma configLines_read p : plan_ok p = true ->
  exists st, yamlLines (configLines p) yaml0 = Ok st /\
    flush st = Ok (MkYaml (MkCLConfig [] (from_option versionOf "" (forkNamed "FULU" p)) (from_option ft_Epoch max_uint64 (forkNamed "FULU" p)) false
                     (pl_blobs p) (from_option ft_Epoch 0 (forkNamed "ELECTRA" p)) (pl_electraMaxBlobs p) (pl_genesisTime p) (pl_secondsPerSlot p) 0 (pl_slotsPerEpoch p))
                   (foldl (fun m f => <[ft_Name f := versionOf f]> m) ∅ (pl_forks p)) (foldl (fun m f => <[ft_Name f := ft_Epoch f]> m) {[ "GENESIS" := 0 ]} (pl_forks p))
                   (map ft_Name (pl_forks p)) true None None).
Proof.
  unfold plan_ok. cbn [forallb]. intros Hp. apply andb_true_iff in Hp as [[[[Hn Hm]%andb_true_iff Hf]%andb_true_iff Hd%bool_decide_eq_true]%andb_true_iff Hb].
  assert (forall n, (0 <? n) && (n <=? max_uint64) = true -> is_uint64 n = true) as Hpos by (unfold is_uint64; intros; boolify; lia).
  apply andb_true_iff in Hn as [H1%Hpos [H2%Hpos [H3%Hpos _]%andb_true_iff]%andb_true_iff].
  unfold configLines. rewrite yamlLines_app. cbn [yamlLines].
  rewrite (topLine_numeric "GENESIS_TIME" (fun n c => c <| cc_genesisTime := n |>)) by done. cbn [rbind].
  rewrite (topLine_numeric "SECONDS_PER_SLOT" (fun n c => c <| cc_secondsPerSlot := n |>)) by done. cbn [rbind].
  rewrite (topLine_numeric "SLOTS_PER_EPOCH" (fun n c => c <| cc_slotsPerEpoch := n |>)) by done. cbn [rbind].
  rewrite (topLine_numeric "MAX_BLOBS_PER_BLOCK_ELECTRA" (fun n c => c <| cc_electraMaxBlobs := n |>)) by done. cbn [rbind].
  match goal with |- context [yamlLines (flat_map forkLines _ ++ _) ?st] =>
    change st with (MkYaml (MkCLConfig [] "" max_uint64 false [] 0 (pl_electraMaxBlobs p) (pl_genesisTime p) (pl_secondsPerSlot p) 0 (pl_slotsPerEpoch p))
                      ∅ {[ "GENESIS" := 0 ]} [] false None None) end.
  rewrite yamlLines_app, yamlLines_forks, forkStates, !lastNamed_find by done. cbn [rbind]. rewrite yamlLines_app. cbn [yamlLines].
  match goal with |- context [yamlLine "BLOB_SCHEDULE:" ?st] => change (yamlLine "BLOB_SCHEDULE:" st) with (Ok (st <| y_inBlob := true |>)) end. cbn [rbind].
  match goal with |- context [yamlLines (flat_map blobLines _) ?st] =>
    destruct (yamlLines_blobs (pl_blobs p) st st Hb eq_refl eq_refl) as (st2 & Hy & _ & Hfl) end.
  exists st2. split; [exact Hy|exact Hfl].
Qed.

(** [config.yaml] reads back: the text of a schedule, with distinct fork names, numbers
    of 64 bits and non-zero clock, is parsed to exactly that schedule, every fork with its
    own epoch and version and every blob entry in its place. *)
Lemma config_reads_back p : plan_ok p = true -> parseCLConfig (configText p) = Ok (planConfig p).
Proof.
  intros Hp. unfold parseCLConfig, configText. rewrite Scan_text by by apply configLines_ok.
  destruct (configLines_read p Hp) as (st & -> & Hfl). cbn [rbind]. rewrite Hfl. cbn [rbind]. clear st Hfl.
  unfold plan_ok in Hp. cbn [forallb] in Hp. apply andb_true_iff in Hp as [[[[Hn Hm]%andb_true_iff Hf]%andb_true_iff Hd%bool_decide_eq_true]%andb_true_iff Hb].
  set (order := map ft_Name (pl_forks p)). cbv zeta.
  match goal with |- context [collectForks ?st] => assert (collectForks st = cc_forks (planConfig p)) as -> end.
  { unfold collectForks, planConfig, order. cbn. rewrite map_map. apply map_ext_in. intros f Hin%list_elem_of_In. by rewrite !inserted. }
  assert (forall n, (0 <? n) && (n <=? max_uint64) = true -> (n =? 0) = false) as Hpos by (intros; boolify; lia).
  apply andb_true_iff in Hn as [Z1%Hpos [Z2%Hpos [Z3%Hpos _]%andb_true_iff]%andb_true_iff].
  upd_simpl. cbn [y_cfg cc_secondsPerSlot cc_slotDurationMS cc_fuluEpoch cc_fuluVersion]. rewrite Z2. cbn [andb rbind]. upd_simpl.
  cbn [y_cfg cc_secondsPerSlot cc_genesisTime cc_slotsPerEpoch]. rewrite Z1, Z2, Z3. cbn [orb]. f_equal.
  assert (negb (from_option ft_Epoch max_uint64 (forkNamed "FULU" p) =? max_uint64) && negb (from_option versionOf "" (forkNamed "FULU" p) =? "")%string
    = cc_fuluActive (planConfig p)) as ->; [|reflexivity].
  unfold planConfig. cbn [cc_fuluActive]. by destruct (forkNamed "FULU" p) as [f|]; [|rewrite andb_false_r]; cbn [from_option]; rewrite ?andb_true_r.
Qed.

(** The schedule of a test bundle. *)
Definition demoPlan : plan :=
  MkPlan 1700000000 12 32 9
    [MkForkText "GENESIS" 0 (of_bytes [16; 0; 0; 56]); MkForkText "ELECTRA" 5 (of_bytes [96; 0; 0; 56]); MkForkText "FULU" 10 (of_bytes [112; 0; 0; 56])]
    [BlobParams 20 15].

Example demoPlan_ok : plan_ok demoPlan = true.
Proof. vm_compute. reflexivity. Qed.
