(* ===== verification/DevnetBundle.v ===== *)
(** A devnet from its files to its fork digests: [Load], [RegisterDevnet] and the consensus
    schedule composed. *)

From stdpp Require Import base gmap strings list numbers pretty.
From Stdlib Require Import ZArith Lia Ascii.
From S2P Require Import Prelude GoLib Text Hashes Consensus ForkId Network Readiness NodeData Devnet DevnetConfig DevnetProps DevnetText.
#[local] Open Scope Z_scope.

(** ** Numbers stay within 64 bits *)

Lemma digitOf_nonneg c d : digitOf c = Some d -> 0 <= d.
Proof.
  unfold digitOf, is_digit. destruct ((48 <=? byte_val c) && (byte_val c <=? 57)) eqn:E; [intros [= <-]; boolify; lia|].
  destruct ((97 <=? byte_val (lower_byte c)) && (byte_val (lower_byte c) <=? 122)) eqn:E2; [|done]. intros [= <-]. boolify. lia.
Qed.

Lemma digitLoop_range base n u s m u' : 0 <= base -> 0 <= n <= max_uint64 -> digitLoop base n u s = Ok (m, u') -> 0 <= m <= max_uint64.
Proof.
  intros Hb. revert n u. induction s as [|c s IH]; intros n u Hn; cbn [digitLoop]; [by intros [= <- _]|].
  destruct (c =? "_")%char; [by apply IH|]. destruct (digitOf c) as [d|] eqn:Ed; [|done]. apply digitOf_nonneg in Ed.
  destruct (base <=? d); [done|]. destruct (max_uint64 <? n * base + d) eqn:Em; [done|]. apply IH. boolify. nia.
Qed.

Lemma ParseUint0_range s n : ParseUint0 s = Ok n -> is_uint64 n = true.
Proof.
  unfold ParseUint0. destruct (s =? "")%string; [done|]. destruct (basePrefix s) as [base digits] eqn:Eb.
  destruct (digitLoop base 0 false digits) as [[m u]|] eqn:Ed; [|done]. cbn [rbind]. destruct (u && negb (underscoreOK s)); [done|]. intros [= <-].
  assert (0 <= base) as Hb.
  { unfold basePrefix in Eb. clear Ed. repeat case_match; injection Eb as <- _; lia. }
  apply (digitLoop_range base 0 false digits m u Hb) in Ed; [|done]. unfold is_uint64. destruct Ed. by apply andb_true_iff; split; apply Z.leb_le.
Qed.

Lemma forallb_intro {A} (q : A -> bool) l : (forall x, x ∈ l -> q x = true) -> forallb q l = true.
Proof. intros H. apply forallb_forall. intros x Hx%list_elem_of_In. by apply H. Qed.

(** ** The forks of a plan are all taken *)

Definition asConfig (f : forkText) : CLForkConfig := MkCLForkConfig (ft_Name f) (ft_Epoch f) (versionOf f).

Lemma versionText_plan f : fork_ok f = true -> versionText (asConfig f) = hex_encode (ft_Version f) /\ decodeVersion (versionText (asConfig f)) = Ok (ft_Version f).
Proof.
  intros (_ & Hv & _ & H4 & _)%fork_ok_parts. assert (versionText (asConfig f) = hex_encode (ft_Version f)) as Ht.
  { unfold versionText, asConfig. cbn [fc_Version]. rewrite TrimSpace_word by done. unfold versionOf. by apply TrimPrefix_app. }
  split; [done|]. rewrite Ht. unfold decodeVersion. by rewrite hex_encode_trim, hex_encode_no_prefix, hex_decode_encode, H4.
Qed.

Lemma kept_plan f : fork_ok f = true -> kept (asConfig f) = negb (ft_Epoch f =? max_uint64).
Proof.
  intros Hf. unfold kept. rewrite (proj1 (versionText_plan f Hf)). cbn [fc_Epoch asConfig].
  apply fork_ok_parts in Hf as (_ & _ & _ & H4 & _). destruct (ft_Version f) as [|c v]; [done|]. done.
Qed.

Lemma forkSteps_plan fs acc : forallb fork_ok fs = true ->
  exists out, foldl forkStep (Ok acc) (map asConfig fs) = Ok (acc ++ out) /\ length out = length (List.filter kept (map asConfig fs)).
Proof.
  revert acc. induction fs as [|f fs IH]; intros acc Hfs; [exists []; by rewrite app_nil_r|]. cbn [forallb map foldl List.filter] in *.
  apply andb_true_iff in Hfs as [Hf Hfs]. unfold forkStep at 2. cbn [rbind]. cbv zeta. fold (versionText (asConfig f)).
  pose proof (versionText_plan f Hf) as [_ Hd]. change (kept (asConfig f)) with (negb ((versionText (asConfig f) =? "")%string || (fc_Epoch (asConfig f) =? max_uint64))).
  destruct ((versionText (asConfig f) =? "")%string || (fc_Epoch (asConfig f) =? max_uint64)); cbn [negb]; [by apply IH|].
  rewrite Hd. set (g := ClFork _ _ _). destruct (IH (acc ++ [g]) Hfs) as (out & -> & Hl). exists (g :: out). rewrite <- app_assoc. split; [done|]. cbn [length]. by rewrite Hl.
Qed.

Section Bundle.
Context `{Hgen : GenesisCodec} `{EC : EnodeCodec}.

(** The files of a complete devnet whose [config.yaml] is the text of [p]. *)
Record bundle_ok (dir : gmap string string) (p : plan) (id : Z) : Prop := {
  bo_plan : plan_ok p = true;
  bo_config : dir !! "config.yaml" = Some (configText p);
  bo_id : exists t, dir !! "network_id.txt" = Some t /\ ParseUint0 (TrimSpace t) = Ok id /\ id <> 0;
  bo_root : exists t root, dir !! "genesis_validators_root.txt" = Some t /\ hex_decode (TrimPrefix (TrimSpace (TrimSpace t)) "0x") = Some root /\ slen root = 32;
  bo_genesis : exists g chain blk extra, dir !! "genesis.json" = Some g /\ parseGenesis g = Ok (Some chain, blk) /\ unknownELForks g = Ok extra;
  bo_bootnodes : exists t records, dir !! "bootnodes.txt" = Some t /\ readLines t = Ok records /\ bootnodes records <> [];
  bo_clock : pl_genesisTime p <= max_int64 /\ pl_secondsPerSlot p * pl_slotsPerEpoch p <= max_uint64;
  bo_first : exists f, f ∈ pl_forks p /\ ft_Epoch f = 0;
  bo_order : forall f, forkNamed "FULU" p = Some f -> from_option ft_Epoch 0 (forkNamed "ELECTRA" p) <= ft_Epoch f }.

(** The configuration [Load] makes of them. *)
Definition bundleConfig (g : string) (id : Z) (t : string) (p : plan) (records : list string) : DevnetConfig :=
  MkDevnetConfig g id (TrimSpace t) (pl_genesisTime p) (pl_secondsPerSlot p) (pl_slotsPerEpoch p) (map asConfig (pl_forks p)) (cc_fuluEpoch (planConfig p))
    (if cc_fuluActive (planConfig p) then BlobParams (cc_electraEpoch (planConfig p)) (pl_electraMaxBlobs p) :: pl_blobs p else []) records.

Lemma Load_bundle dir p id g tr tb records :
  bundle_ok dir p id -> dir !! "genesis.json" = Some g -> dir !! "genesis_validators_root.txt" = Some tr -> dir !! "bootnodes.txt" = Some tb -> readLines tb = Ok records ->
  Load dir = Ok (bundleConfig g id tr p records).
Proof.
  intros [Hp Hcf (ti & Hti & Hid & Hid0) _ _ _ _ _ _] Hg Htr Htb Hrec. unfold Load, readFile. rewrite Hg, Hti. cbn [rbind].
  rewrite Hid, (proj2 (Z.eqb_neq _ _) Hid0), Htr, Hcf. cbn [rbind]. rewrite config_reads_back by done. cbn [rbind]. cbv zeta. rewrite Htb. cbn [rbind]. by rewrite Hrec.
Qed.

Section Plan.
Context (p : plan) (Hp : plan_ok p = true).

Lemma plan_forks_ok : forallb fork_ok (pl_forks p) = true.
Proof using Hp. unfold plan_ok in Hp. by apply andb_true_iff in Hp as [[[[_ _]%andb_true_iff Hf]%andb_true_iff _]%andb_true_iff _]. Qed.
Lemma plan_blobs_ok : forallb blob_ok (pl_blobs p) = true.
Proof using Hp. unfold plan_ok in Hp. by apply andb_true_iff in Hp as [_ Hb]. Qed.
Lemma plan_numbers : Forall (fun n => is_uint64 n = true /\ n <> 0) [pl_genesisTime p; pl_secondsPerSlot p; pl_slotsPerEpoch p] /\ is_uint64 (pl_electraMaxBlobs p) = true.
Proof using Hp.
  unfold plan_ok in Hp. apply andb_true_iff in Hp as [[[[Hn Hm]%andb_true_iff _]%andb_true_iff _]%andb_true_iff _]. split; [|done].
  apply Forall_forall. intros n Hin. apply (forallb_elem _ _ _ Hn) in Hin. unfold is_uint64. boolify. split; [|lia]. lia.
Qed.

Lemma named_ok name f : forkNamed name p = Some f -> f ∈ pl_forks p /\ is_uint64 (ft_Epoch f) = true.
Proof using Hp.
  intros Hf. apply find_some_elem in Hf as [Hin _]. split; [done|]. by apply (forallb_elem _ _ _ plan_forks_ok) in Hin as (_ & _ & ? & _)%fork_ok_parts.
Qed.

Lemma kept_in f : f ∈ pl_forks p -> ft_Epoch f <> max_uint64 ->
  existsb (fun c => fc_Epoch c =? ft_Epoch f) (List.filter kept (map asConfig (pl_forks p))) = true.
Proof using Hp.
  intros Hin He. apply existsb_exists. exists (asConfig f). split; [|apply Z.eqb_refl]. apply list_elem_of_In, elem_of_lfilter.
  split; [by apply list_elem_of_fmap_2|]. rewrite kept_plan by by apply (forallb_elem _ _ _ plan_forks_ok). by apply negb_true_iff, Z.eqb_neq.
Qed.

Lemma bundle_config_ok g id t records : is_uint64 id = true -> config_ok (bundleConfig g id t p records) = true.
Proof using Hp.
  intros Hid. destruct plan_numbers as [Hn Hm]. rewrite Forall_forall in Hn. unfold config_ok, bundleConfig.
  cbn [dc_NetworkID dc_GenesisTime dc_SecondsPerSlot dc_SlotsPerEpoch dc_FuluForkEpoch dc_CLForks dc_BlobSchedule forallb].
  rewrite Hid, !(fun n H => proj1 (Hn n H)) by set_solver. cbn [andb].
  assert (is_uint64 (cc_fuluEpoch (planConfig p)) = true) as ->.
  { unfold planConfig. cbn [cc_fuluEpoch]. destruct (forkNamed "FULU" p) eqn:E; [by eapply named_ok|done]. }
  cbn [andb]. apply andb_true_iff. split.
  - apply forallb_intro. intros c (f & -> & Hin)%list_elem_of_fmap.
    by apply (forallb_elem _ _ _ plan_forks_ok) in Hin as (_ & _ & ? & _)%fork_ok_parts.
  - destruct (cc_fuluActive (planConfig p)); [|done]. cbn [forallb bp_epoch]. apply andb_true_iff. split.
    + unfold planConfig. cbn [cc_electraEpoch]. destruct (forkNamed "ELECTRA" p) eqn:E; [by eapply named_ok|done].
    + apply forallb_intro. intros b Hin. apply (forallb_elem _ _ _ plan_blobs_ok) in Hin. by apply andb_true_iff in Hin as [? _].
Qed.

Context (Hfirst : exists f, f ∈ pl_forks p /\ ft_Epoch f = 0)
        (Horder : forall f, forkNamed "FULU" p = Some f -> from_option ft_Epoch 0 (forkNamed "ELECTRA" p) <= ft_Epoch f).

Lemma bundle_complete g id t records : complete (bundleConfig g id t p records) = true.
Proof using Hp Hfirst Horder.
  destruct Hfirst as (f0 & Hin0 & He0). unfold complete, bundleConfig. cbn [dc_CLForks dc_FuluForkEpoch dc_BlobSchedule]. cbv zeta.
  apply andb_true_iff. split; [rewrite <- He0; apply kept_in; [done|by rewrite He0]|].
  unfold planConfig. cbn [cc_fuluEpoch cc_fuluActive cc_electraEpoch]. destruct (forkNamed "FULU" p) as [f|] eqn:E; cbn [from_option]; [|done].
  destruct (ft_Epoch f =? max_uint64) eqn:Em; [done|]. cbn [negb orb]. apply Z.eqb_neq in Em.
  rewrite kept_in by (done || by eapply named_ok). cbn [existsb bp_epoch andb]. by rewrite (proj2 (Z.leb_le _ _) (Horder f eq_refl)).
Qed.
End Plan.

Lemma RegisterDevnet_bundle registry dir p id g tr records :
  bundle_ok dir p id -> dir !! "genesis.json" = Some g -> dir !! "genesis_validators_root.txt" = Some tr -> bootnodes records <> [] ->
  is_ok (Get registry devnetName) = false -> is_ok (RegisterDevnet registry (bundleConfig g id tr p records)) = true.
Proof.
  intros [Hp _ (_ & _ & _ & Hid0) (tr' & root & Htr' & Hroot & Hrl) (g' & chain & blk & extra & Hg' & Hpg & Hex) _ [Hgt Hclk] Hfirst Ho] Hg Htr Hbn Hno.
  rewrite Hg in Hg'. injection Hg' as <-. rewrite Htr in Htr'. injection Htr' as <-.
  destruct (plan_numbers p Hp) as [Hn _]. rewrite !Forall_cons in Hn. destruct Hn as ([H1 Z1] & [H2 Z2] & [H3 Z3] & _).
  unfold RegisterDevnet, bundleConfig. cbn [dc_ELGenesisJSON dc_NetworkID dc_GenesisValidatorsRoot dc_GenesisTime dc_SecondsPerSlot dc_SlotsPerEpoch dc_CLForks dc_FuluForkEpoch dc_BlobSchedule dc_BootnodeRecords].
  rewrite Hno, Hpg. cbn [rbind]. rewrite (proj2 (Z.eqb_neq _ _) Hid0), Hex. cbn [rbind]. rewrite Hroot. rewrite (proj2 (Z.eqb_eq _ _) Hrl). cbn [negb]. cbv zeta.
  rewrite bool_decide_eq_false_2 by done. rewrite (proj2 (Z.eqb_neq _ _) Z1), (proj2 (Z.eqb_neq _ _) Z2), (proj2 (Z.eqb_neq _ _) Z3). cbn [orb].
  rewrite (proj2 (Z.ltb_ge _ _) Hgt).
  assert (pl_slotsPerEpoch p <= max_uint64 / pl_secondsPerSlot p) as Hdiv by (unfold is_uint64 in *; apply Z.div_le_lower_bound; boolify; lia).
  rewrite (proj2 (Z.ltb_ge _ _) Hdiv). destruct (forkSteps_plan (pl_forks p) [] (plan_forks_ok p Hp)) as (out & -> & Hlen). cbn [rbind app].
  assert (forall {A} (leb : A -> A -> bool) x l, isort leb (x :: l) <> []) as Hne.
  { intros A leb x l H. apply (f_equal length) in H. by rewrite length_isort in H. }
  rewrite bool_decide_eq_false_2.
  2: { intros ->. destruct Hfirst as (f0 & Hin & He). pose proof (kept_in p Hp f0 Hin) as Hk. rewrite He in Hk. specialize (Hk ltac:(done)).
       destruct (List.filter kept (map asConfig (pl_forks p))); [done|]. done. }
  assert (negb (cc_fuluEpoch (planConfig p) =? max_uint64) && bool_decide (isort (fun a b => bp_epoch a <=? bp_epoch b)
    (if cc_fuluActive (planConfig p) then BlobParams (cc_electraEpoch (planConfig p)) (pl_electraMaxBlobs p) :: pl_blobs p else []) = []) = false) as ->; [|done].
  unfold planConfig. cbn [cc_fuluEpoch cc_fuluActive]. destruct (forkNamed "FULU" p) as [f|]; [|done]. cbn [from_option].
  destruct (ft_Epoch f =? max_uint64); [done|]. cbn [negb andb]. by apply bool_decide_eq_false_2, Hne.
Qed.

Lemma registered_forks p cfg n cl x :
  plan_ok p = true -> dc_CLForks cfg = map asConfig (pl_forks p) -> registered cfg n cl ->
  x ∈ cl_forks cl <-> exists f, f ∈ pl_forks p /\ ft_Epoch f <> max_uint64 /\ x = ClFork (ToLower (ft_Name f)) (ft_Epoch f) (ft_Version f).
Proof.
  intros Hp Hcfg (_ & _ & _ & _ & _ & _ & _ & (fs & Hfs & _ & Hf) & _). rewrite Hf, elem_of_isort. rewrite Hcfg in Hfs. clear Hf.
  pose proof (plan_forks_ok p Hp) as Hok.
  assert (forall f, f ∈ pl_forks p -> forall y, fork_of (asConfig f) y <-> y = ClFork (ToLower (ft_Name f)) (ft_Epoch f) (ft_Version f)) as Hof.
  { intros f Hin y. apply (forallb_elem _ _ _ Hok) in Hin. pose proof (proj2 (versionText_plan f Hin)) as Hv. unfold fork_of. rewrite Hv. destruct y as [a b c]. cbn.
    split; [intros (-> & -> & [= ->]); done|intros [= -> -> ->]; done]. }
  assert (forall f, f ∈ pl_forks p -> asConfig f ∈ List.filter kept (map asConfig (pl_forks p)) <-> ft_Epoch f <> max_uint64) as Hkf.
  { intros f Hin. rewrite elem_of_lfilter, kept_plan by by apply (forallb_elem _ _ _ Hok). rewrite negb_true_iff, Z.eqb_neq.
    split; [by intros [_ ?]|]. intros ?. split; [by apply list_elem_of_fmap_2|done]. }
  split.
  - intros Hx. apply list_elem_of_lookup in Hx as [i Hi]. destruct (Forall2_lookup_r _ _ _ _ _ Hfs Hi) as (c & Hc & Hcx).
    apply list_elem_of_lookup_2 in Hc. pose proof Hc as Hc'. apply elem_of_lfilter in Hc' as [(f & -> & Hin)%list_elem_of_fmap _]. exists f. split; [done|].
    split; [by apply Hkf|by apply Hof].
  - intros (f & Hin & He & ->). apply Hkf in He; [|done]. apply list_elem_of_lookup in He as [i Hi]. destruct (Forall2_lookup_l _ _ _ _ _ Hfs Hi) as (y & Hy & Hfy).
    apply Hof in Hfy; [|done]. rewrite <- Hfy. by apply list_elem_of_lookup_2 in Hy.
Qed.

End Bundle.

(** ** A bundle *)

Definition demoBundle : gmap string string :=
  list_to_map [("genesis.json", "genesis"); ("network_id.txt", "0x301025" +:+ nl); ("config.yaml", configText demoPlan);
    ("genesis_validators_root.txt", "0x7033d675f49ab2e76ffba52871d1ff7b73914b3a5ac8e1c0986c19549d67c0d7" +:+ nl); ("bootnodes.txt", "# seeds" +:+ nl +:+ "enode://a" +:+ nl)].

Lemma demoBundle_ok : @bundle_ok (demoGenesis false) demoEnodes demoBundle demoPlan 3149861.
Proof.
  split.
  - vm_compute. reflexivity.
  - vm_compute. reflexivity.
  - eexists. split; [vm_compute; reflexivity|]. split; [vm_compute; reflexivity|done].
  - eexists _, _. split; [vm_compute; reflexivity|]. split; vm_compute; reflexivity.
  - exists "genesis", demoChain, (GenesisBlock (zeros 32) 1700000000 1). eexists. split; [vm_compute; reflexivity|]. split; [reflexivity|vm_compute; reflexivity].
  - eexists _, _. split; [vm_compute; reflexivity|]. split; [vm_compute; reflexivity|vm_compute; done].
  - vm_compute. split; discriminate.
  - eexists. split; [left|done].
  - intros f H. vm_compute in H. injection H as <-. vm_compute. discriminate.
Qed.


(** A bundle that schedules Fulu without its version is refused with a message that says
    the version is set. *)
Definition versionless : string := sjoin nl
  ["PRESET_BASE: minimal"; "GENESIS_TIME: 1700000000"; "SECONDS_PER_SLOT: 6"; "GENESIS_FORK_VERSION: 0x10000038"; "FULU_FORK_EPOCH: 10"; ""].
Example fulu_without_version :
  @Register (demoGenesis false) demoEnodes [] (<["config.yaml" := versionless]> demoBundle) = Err "blob schedule is empty but a Fulu fork version is set".
Proof. vm_compute. reflexivity. Qed.
